(* ===== verification/_CoqProject ===== *)
-Q . S2P
Prelude.v
CLib.v
Config.v
Structures.v
StructuresTree.v
StructuresIndex.v
StructuresSpec.v
StructuresTheorems.v
CList.v
Migration.v
Lru.v
LruQueues.v
LruSpec.v
LruFree.v
LruTheorems.v
Static.v
Fractional.v
FractionalTheorems.v
Counters.v
Logger.v
PrintLog.v
Window.v
WindowTheorems.v
BitUtil.v
SizeClass.v
Sz.v
SzTheorems.v
Imalloc.v
ImallocTheorems.v
Hooks.v
Tracked.v
Fb.v
FbFacts.v
FbTheorems.v
Hpdata.v
HpdataTheorems.v
HpdataPurge.v
Edata.v
EdataTheorems.v
Bitmap.v
Slab.v
SlabTheorems.v
Ph.v
PhFacts.v
PhOps.v
PhHeap.v
PhTheorems.v
Ql.v
Psset.v
PssetSizes.v
PssetFacts.v
PssetLists.v
PssetInv.v
PssetOps.v
PssetPick.v
PssetTheorems.v
Hpa.v
HpaInv.v
HpaOps.v
HpaWork.v
HpaHistory.v
HpaTheorems.v
CacheBin.v
CacheBinOps.v
CacheBinTheorems.v
Tcache.v
TcacheFlush.v
TcacheInv.v
TcacheSteps.v
TcacheInit.v
TcacheTheorems.v
ArenaBin.v
ArenaBinInv.v
ArenaBinOps.v
ArenaBinSteps.v
ArenaBinFree.v
ArenaBinRuns.v
ArenaBinReset.v
ArenaBinTheorems.v
