(* ===== verification/Prelude.v ===== *)
(** * A verification development for SHAMBLES

    SHAMBLES places the large allocations of an unmodified program in fast or
    slow memory.  A patched jemalloc ([src/jemalloc]) aligns every allocation
    that reaches a size threshold to the page and reports it to a plugin; the
    plugin ([src/plugins], one of [lru], [window], [static] and
    [static-fractional]) keeps an index from addresses to allocations and their
    chunks, receives sampled addresses, and moves chunks between the two kinds
    of memory with [mbind].  Events go to a log or to counters, which two
    programs print.

    ** Parts, files and sources

    The plugins ([src/plugins]):
    - [CLib]: [strtol], [atoi], [getenv] as the plugins use them.
    - [Config]: [config.c], from environment variables to the configuration.
    - [Structures]: [structures.c], the radix tree that resolves an address to a
      region and the region to a chunk.  The state is the record of its globals,
      the tree with reference counts, and the heap of region descriptors.
      [StructuresTree] proves what the walks of the tree do, [StructuresIndex] the
      invariant [index_inv], [StructuresSpec] the contract of the entry points and
      access through pointers, [StructuresTheorems] states the results.
    - [CList]: the circular lists of [lru.c] and [window.c] ([dq], [push],
      [enq]) on a heap of nodes, refined to lists.
    - [Migration]: [migration.c] and the log macros, as a trace of events, and
      the memory policy in force at an address after a trace.
    - [Lru], [LruQueues], [LruSpec], [LruFree], [LruTheorems]: [lru.c].
    - [Window], [WindowTheorems]: [window.c].
    - [Static]: [static.c].  [Fractional], [FractionalTheorems]:
      [static-fractional.c].
    - [Counters]: [counters.c] and [print-counters.c].  [Logger], [PrintLog]:
      [logger.c] and [print-log.c].

    The allocator ([src/jemalloc]):
    - [BitUtil]: [bit_util.h].  [SizeClass]: [sc.c].  [Sz], [SzTheorems]: [sz.h] and [sz.c].
    - [Imalloc], [ImallocTheorems]: [imalloc] and its callees in [jemalloc.c].
    - [Hooks]: the entry points with the code SHAMBLES adds to them, and the
      initialisation protocol as steps of interleaved threads.  [Tracked] puts the
      entry points and [imalloc] together.
    - [Fb], [FbFacts], [FbTheorems]: the flat bitmaps of [fb.h].
    - [Hpdata], [HpdataTheorems], [HpdataPurge]: the metadata of a huge page,
      [hpdata.c], with the purge loop of [hpa.c].
    - [Edata], [EdataTheorems]: the extent descriptor of [edata.h].
    - [Ph], [PhFacts], [PhOps], [PhHeap], [PhTheorems]: the pairing heaps of
      [ph.h], as links in a store.
    - [Ql]: the rings and lists of [qr.h], [ql.h] and [typed_list.h],
      on links in a store, shown to be sequences.
    - [Psset]: sets of page slabs, [psset.c].  [PssetSizes] relates the classes
      slabs are filed under to those requests look for; [PssetFacts]
      and [PssetLists] treat the heaps, the lists and the statistics,
      [PssetInv] joins them into the invariant [psset_inv], [PssetOps] and
      [PssetPick] treat the entry points, [PssetTheorems] states the results.
    - [Hpa]: the huge page allocator, [hpa.c], on top of [Hpdata], [Edata] and [Psset].
      [HpaInv] holds the invariant of a shard and its extents, [HpaOps] and [HpaWork]
      treat the sections of its functions, [HpaHistory] adds growth and puts them together
      into histories of interleaved threads, [HpaTheorems] states the results.
    - [CacheBin]: the bins of a thread cache, [cache_bin.h] and [cache_bin.c], on a memory of words.  [CacheBinOps] says when a bin
      stands for its two stacks and what each operation does to them, [CacheBinTheorems] states the contract of a family
      of bins that share memory.
    - [Tcache]: the thread caches, [tcache.c] and [tcache_inlines.h], on top of [CacheBin]; what they ask of arenas is a trace of calls.
      [TcacheFlush] treats the rounds of a flush, [TcacheInv] flushes of bins, the invariant [tc_ok] and what a
      step conserves, [TcacheSteps] treats the entry points, [TcacheInit] boot and initialisation, [TcacheTheorems] states the results.
    - [Bitmap]: [bitmap.h] (flat representation) and [div.h].
    - [Slab], [SlabTheorems]: the regions of a slab, from [arena.c],
      [bin_info.c] and [arena_inlines_b.h].
    - [ArenaBin]: the bins of an arena, from [arena.c], [bin.c] and [arena_inlines_b.h], on top of [Slab], [Ph] and [Ql]: the
      current slab, the heap of slabs with free regions and the list of those without.  The descriptors and their links are in
      stores that all bins share.  [ArenaBinInv] holds the invariant [arena_inv], [ArenaBinOps], [ArenaBinSteps] and
      [ArenaBinFree] treat the steps under a lock, [ArenaBinRuns] and [ArenaBinReset] whole calls, [ArenaBinTheorems] states
      the results, histories of calls and an example of a page allocator.

    ** How the model is made

    Machine integers are [Z], kept in range by [u64], [u32] and the like where
    the code relies on it.  Code that can dereference a null pointer, leave an
    array or perform a shift the language does not define returns an [outcome]:
    [Done] with a value, or [Fault] with the reason, [Diverges] for a loop that
    ran out of its bound.  Pointers are addresses or indices; objects that several parts share
    (region descriptors, list nodes) live in a [gmap] that stands for the heap, so
    that aliasing is as in the code.  System calls and log records are events
    appended to a trace.  Assertions are empty, as in a release build.

    Outside code is a parameter.  The class [PluginMalloc] is the allocator of
    [structures.c], which may fail: it answers null or a block that is not in use, and [region_served] says that it served the
    blocks of a region, without which adding one is shown to fault; [heap] is the arena behind
    [imalloc]; the page allocator of an arena, its map from addresses to descriptors and what other threads do while
    no lock is held ([others]) are members of [arena_config], with their laws in the class [Environment]: other threads may free
    the regions they hold, be given new ones, and take slabs in hand, as long as the arena is in order afterwards and they leave alone
    what this thread holds.  An instance, [busy], allocates and frees.  The highest NUMA node, the addresses [mmap] returns, and the values
    of undefined shifts that compilers nevertheless produce are arguments.  Every
    theorem with hypotheses has a [_witness] that applies it to concrete data.

    ** What is proved

    - The region index: which addresses are resolved and to what, insertion and
      deletion keep the invariant and change nothing else, deletion undoes
      insertion down to reference counts and allocated blocks, the tree is a
      function of the set of live regions, initialisation terminates for every
      threshold.
    - The LRU plugin: a refinement of an abstract recency machine for arbitrary
      sequences of callbacks, in which each call determines what is promoted, tracked or dropped, with the policy of the kernel tied to the lists.
      The window plugin: the counts are those of the window.  The static plugins:
      both builds bind the same ranges and report hits truthfully.
    - Logs: what is written is read back, the merge prints every event once, in
      order.
    - The allocator's arithmetic: size class lookups are least upper bounds, the
      tables filled at boot agree with the functions, aligned sizes do not
      overflow, [calloc]'s test is exact, the outcome of [imalloc] by case: which error, or exactly
      one request and which.
    - The hooks: page alignment of tracked allocations, initialisation at most
      once under every interleaving, and the run that silences the plugin.
    - Bitmaps, slabs, huge pages: searches and range operations on bits, first
      fit in a huge page, consistency of the cached counts under every history,
      exactness of a purge with concurrent frees, slab allocation and its inverse,
      the batch allocation equals single ones, division by multiplication.
    - Pairing heaps: every history of calls is that of a set; the first element is
      least unless an insertion follows a removal.
    - Page slab sets: along every history that keeps to the protocol of the set no
      operation fails, a slab is in exactly the containers its metadata asks for,
      the statistics are exact, a request finds a slab of the least class with
      room, a purge the dirtiest one.
    - The huge page allocator: along every history of a shard, with threads interleaved at its mutex, no
      section fails, extents in use are disjoint, no page in use is purged; a request is served unless there is no
      memory; [hpa_try_purge] returns, having called the hook for ranges that cover every dirty page of the slab it chose and no active one; and the states in which
      deferred work never does.
    - Thread caches: a cache bin is two stacks, though it keeps 16 bits of most positions; a flush ends, and gives back every object
      once under the lock of its place; from the block and the sizes of boot on, along every history, no operation fails and no
      object is lost or invented; a collection takes only what has not been used.
    - Arena bins: whatever other threads allocate and free between the critical sections, allocations, fills and frees return; regions handed
      out are in use, different and do not overlap, whichever thread has them; one is refused only if the page allocator refused a slab; a freed
      region is free in its slab; a slab that becomes empty, or was not needed, goes back; a reset empties a bin and leaves the others.  In the
      invariant [drift] is by how much the count of slabs in a heap is off after resets, and the state records, beside the memory, which
      regions other threads hold and which slabs they have in hand, so that any other wholly free slab is one too many.  That the slab lowest in memory is used first is not claimed: the order of the
      heap can be lost, as is shown for [ph.h].
    - Behaviour at the limits that the code does not mean to have, each as a
      theorem: aliasing of addresses in the root of the tree, an unresolved first
      slot, a dangling list after a free in [window.c], an array overrun, a wrapping
      product in [static-fractional.c], a wrapping count in a flush of a full bin with stashed objects, and others.

    ** Bounds and fuel

    Recursion that is not structural carries a bound that is proved enough: the
    mask loop of [structures.c] (six levels), the slots of a region (its size
    divided by the slot), the loops over the size classes (their number), the merge of
    the logs (the number of events), searches in bitmaps (the number of groups or
    bits), the scans of a huge page and the calls of one purge (its 512 pages), [cnt] for the batch
    allocation, the passes that merge siblings of a pairing heap (the size of its
    store), the rounds of a flush (the number of objects, since each round gives back one),
    the loop of a fill (two turns for each region wanted, and three), its retries (one for each region, and two), the
    loops of a reset (the number of slabs in the arena).  Running out is [Fault Diverges], and the theorems state that it does
    not happen; for the loop of [hpa.c] that can run for ever a theorem states when it does.  The build is x86-64: pointers of 8 bytes, pages of 4 KiB, huge pages of
    2 MiB, no [P2CHSIZE], no profiling, no [JEMALLOC_DEBUG].

    ** What is not modelled

    The kernel patches and the sampler thread, beyond the samples it delivers;
    [dumpMap], which copies a file; the parts of jemalloc that SHAMBLES does not
    touch and that no modelled component needs (large allocations, extents and
    their coalescing, decay, [arena_fill_small_fresh], the number of bin shards, guarded slabs, statistics of arenas, [mallctl], profiling); of thread caches the association with an arena, the table of explicit
    caches and their end; the tree form of
    slab bitmaps, which this build does not compile; benchmarks and scripts. *)
From stdpp Require Import base list gmap numbers.

(** ** Scope and notation *)

Declare Scope shambles_scope.
Delimit Scope shambles_scope with sh.

#[global] Open Scope Z_scope.
#[global] Open Scope shambles_scope.

(** ** Faults, outcomes and the state-and-fault monad

    A C function that reads and writes memory becomes a function from a state
    to an [outcome]: either a value and the new state, or the fault that the
    execution runs into (a null dereference, an access outside an array, a
    division by zero, a shift by the width of its operand, [abort()]). *)

Inductive fault : Type :=
| NullDeref
| OutOfBounds
| Uninitialised
| BadPointer
| DivideByZero
| BadShift
| BadConversion
| Aborted
| Diverges.

#[export] Instance fault_eq_dec : EqDecision fault.
Proof. solve_decision. Defined.

Inductive outcome (A : Type) : Type :=
| Done (a : A)
| Fault (f : fault).
Arguments Done {A} a.
Arguments Fault {A} f.

#[export] Instance outcome_eq_dec {A} `{EqDecision A} : EqDecision (outcome A).
Proof. solve_decision. Defined.

#[export] Instance outcome_ret : MRet outcome := λ A a, Done a.
#[export] Instance outcome_bind : MBind outcome := λ A B k m,
  match m with Done a => k a | Fault f => Fault f end.

Definition M (S A : Type) : Type := S → outcome (A * S).

#[export] Instance M_ret S : MRet (M S) := λ A a s, Done (a, s).
#[export] Instance M_bind S : MBind (M S) := λ A B k m s,
  match m s with
  | Done (a, s') => k a s'
  | Fault f => Fault f
  end.

Definition get {S} : M S S := λ s, Done (s, s).
Definition put {S} (s' : S) : M S unit := λ _, Done (tt, s').
Definition modify {S} (f : S → S) : M S unit := λ s, Done (tt, f s).
Definition throw {S A} (e : fault) : M S A := λ _, Fault e.

(** A pure fallible computation, run inside the monad. *)
Definition liftO {S A} (o : outcome A) : M S A := λ s,
  match o with Done a => Done (a, s) | Fault f => Fault f end.

(** An option as a fallible computation with a chosen fault. *)
Definition orelse {A} (o : option A) (e : fault) : outcome A :=
  match o with Some a => Done a | None => Fault e end.
Notation "o ?? e" := (orelse o e) (at level 60) : shambles_scope.

(** Running a component's operation on a part of a larger state. *)
Definition zoom {S T A} (proj : S → T) (inj : T → S → S) (m : M T A) : M S A := λ s,
  match m (proj s) with
  | Done (a, t) => Done (a, inj t s)
  | Fault f => Fault f
  end.

(** [for(i = lo; n times; i++) body i], threading the state. *)
Fixpoint for_n {S} (n : nat) (i : Z) (body : Z → M S unit) : M S unit :=
  match n with
  | O => mret tt
  | S n' => body i;; for_n n' (i + 1) body
  end.

(** *** Equations of the monad *)

Section monad_facts.
Context {S A B : Type}.
Implicit Types (m : M S A) (k : A → M S B) (s : S).

Lemma bind_done m k s a s' :
  m s = Done (a, s') → (m ≫= k) s = k a s'.
Proof. intros E. unfold mbind, M_bind. by rewrite E. Qed.

Lemma bind_fault m k s f : m s = Fault f → (m ≫= k) s = Fault f.
Proof. intros E. unfold mbind, M_bind. by rewrite E. Qed.

Lemma bind_done_inv m k s b s'' :
  (m ≫= k) s = Done (b, s'') →
  ∃ a s', m s = Done (a, s') ∧ k a s' = Done (b, s'').
Proof.
  unfold mbind, M_bind. destruct (m s) as [[a s']|f] eqn:E; [|done].
  intros H. by exists a, s'.
Qed.

Lemma outcome_bind_done_inv (m : outcome A) (k : A → outcome B) b :
  (m ≫= k) = Done b → ∃ a, m = Done a ∧ k a = Done b.
Proof. destruct m as [a|f]; [|done]. intros H. by exists a. Qed.

Lemma orelse_done (o : option A) e a : o = Some a → (o ?? e) = Done a.
Proof. by intros ->. Qed.
End monad_facts.

Lemma liftO_done {S A} (o : outcome A) (a : A) (s : S) : o = Done a → liftO o s = Done (a, s).
Proof. by intros ->. Qed.

Lemma zoom_done {S T A} (proj : S → T) (inj : T → S → S) (m : M T A) s a t :
  m (proj s) = Done (a, t) → zoom proj inj m s = Done (a, inj t s).
Proof. intros E. unfold zoom. by rewrite E. Qed.

Lemma for_n_inv {S} (I : Z → S → Prop) (body : Z → M S unit) n lo s :
  I lo s →
  (∀ i s, lo ≤ i < lo + Z.of_nat n → I i s →
     ∃ s', body i s = Done (tt, s') ∧ I (i + 1) s') →
  ∃ s', for_n n lo body s = Done (tt, s') ∧ I (lo + Z.of_nat n) s'.
Proof.
  revert lo s. induction n as [|n IH]; intros lo s HI Hstep.
  - exists s. split; [done|]. by replace (lo + Z.of_nat 0) with lo by lia.
  - destruct (Hstep lo s) as (s1 & E1 & H1); [lia|done|].
    destruct (IH (lo + 1) s1 H1) as (s2 & E2 & H2).
    { intros i s0 Hi. apply Hstep. lia. }
    exists s2. split.
    + simpl. erewrite bind_done by exact E1. exact E2.
    + by replace (lo + Z.of_nat (Datatypes.S n)) with (lo + 1 + Z.of_nat n) by lia.
Qed.

(** ** Machine integers

    A [w]-bit unsigned value is a [Z] in [0, 2^w), arithmetic on it wraps. *)

Definition u64 (z : Z) : Z := z mod 2 ^ 64.
Definition u32 (z : Z) : Z := z mod 2 ^ 32.
(** Conversion to [int], as GCC performs it. *)
Definition i32 (z : Z) : Z := (z + 2 ^ 31) mod 2 ^ 32 - 2 ^ 31.
(** Conversion of a [long] or a [size_t] to [long]. *)
Definition i64 (z : Z) : Z := (z + 2 ^ 63) mod 2 ^ 64 - 2 ^ 63.

Definition is_u64 (z : Z) : Prop := 0 ≤ z < 2 ^ 64.

(** [x << n] on [uint64_t] for [n < 64]. *)
Definition shl64 (x n : Z) : Z := u64 (Z.shiftl x n).
(** [~x] on [uint64_t]. *)
Definition not64 (x : Z) : Z := u64 (Z.lnot x).

Lemma u64_small z : is_u64 z → u64 z = z.
Proof. intros H. by apply Z.mod_small. Qed.

Lemma u64_range z : is_u64 (u64 z).
Proof. by apply Z.mod_pos_bound. Qed.

Lemma i32_small z : - 2 ^ 31 ≤ z < 2 ^ 31 → i32 z = z.
Proof. intros H. unfold i32. rewrite Z.mod_small; lia. Qed.

(** *** Bit intrinsics of GCC: [__builtin_clzl], [__builtin_ctzl],
    [__builtin_popcountl] (undefined, and here irrelevant, at 0). *)

Definition clzl (x : Z) : Z := 63 - Z.log2 x.

Fixpoint pos_ctz (p : positive) : Z :=
  match p with
  | xO q => 1 + pos_ctz q
  | _ => 0
  end.
Definition ctzl (x : Z) : Z :=
  match x with Zpos p => pos_ctz p | _ => 0 end.

Fixpoint pos_popcount (p : positive) : Z :=
  match p with
  | xH => 1
  | xO q => pos_popcount q
  | xI q => 1 + pos_popcount q
  end.
Definition popcountl (x : Z) : Z :=
  match x with Zpos p => pos_popcount p | _ => 0 end.

(** *** Masks and shifts as division and remainder *)

Lemma land_low x n : 0 ≤ n → Z.land x (2 ^ n - 1) = x mod 2 ^ n.
Proof.
  intros Hn. rewrite <- Z.land_ones by done. by rewrite Z.ones_equiv, Z.sub_1_r.
Qed.

(** [(x & (ones(w) << s)) >> s] extracts the [w] bits of [x] above bit [s]. *)
Lemma extract_bits x s w :
  0 ≤ s → 0 ≤ w →
  Z.shiftr (Z.land x (Z.shiftl (Z.ones w) s)) s = (x / 2 ^ s) mod 2 ^ w.
Proof.
  intros Hs Hw. rewrite Z.shiftr_land, Z.shiftr_shiftl_l by done.
  rewrite Z.sub_diag, Z.shiftl_0_r, Z.land_ones by done.
  by rewrite Z.shiftr_div_pow2.
Qed.

(** Clearing the low [n] bits of a [uint64_t]. *)
Lemma land_not64_low x n :
  0 ≤ n < 64 → is_u64 x → Z.land x (not64 (2 ^ n - 1)) = x - x mod 2 ^ n.
Proof.
  intros Hn Hx. unfold not64, u64, is_u64 in *.
  assert (0 ≤ x mod 2 ^ n < 2 ^ n) by (apply Z.mod_pos_bound; lia).
  rewrite <- (Z.land_ones (Z.lnot _) 64), (Z.land_comm (Z.lnot _)), Z.land_assoc by lia.
  rewrite Z.land_ones, (Z.mod_small x) by lia.
  rewrite <- Z.ldiff_land, Z.sub_1_r, <- Z.ones_equiv, <- (Z.land_ones x n) by lia.
  rewrite (Z.sub_nocarry_ldiff x (Z.land x (Z.ones n))).
  - apply Z.bits_inj'. intros i Hi.
    rewrite !Z.ldiff_spec, Z.land_spec. by destruct (Z.testbit x i), (Z.testbit (Z.ones n) i).
  - apply Z.bits_inj'. intros i Hi.
    rewrite Z.ldiff_spec, Z.land_spec, Z.bits_0. by destruct (Z.testbit x i), (Z.testbit (Z.ones n) i).
Qed.

(** ** Sums over lists *)

Definition sum_by {A} (f : A → Z) (l : list A) : Z := foldr (λ x acc, f x + acc) 0 l.

Section sums.
Context {A : Type} (f : A → Z).
Implicit Types l : list A.

Lemma sum_by_insert l i x y :
  l !! i = Some x → sum_by f (<[i:=y]> l) = sum_by f l - f x + f y.
Proof.
  revert i. induction l as [|z l IH]; intros [|i] E; simplify_eq/=; [lia|].
  rewrite (IH i E). lia.
Qed.

Lemma sum_by_app l k : sum_by f (l ++ k) = sum_by f l + sum_by f k.
Proof. induction l as [|z l IH]; simpl; [done|]. rewrite IH. lia. Qed.

Lemma sum_by_replicate n x : sum_by f (replicate n x) = Z.of_nat n * f x.
Proof. induction n as [|n IH]; [done|]. change (sum_by f (replicate (S n) x)) with (f x + sum_by f (replicate n x)). lia. Qed.

Lemma sum_by_nonneg l : Forall (λ x, 0 ≤ f x) l → 0 ≤ sum_by f l.
Proof. induction 1; simpl; lia. Qed.

Lemma sum_by_elem l i x :
  Forall (λ x, 0 ≤ f x) l → l !! i = Some x → f x ≤ sum_by f l.
Proof.
  intros H. revert i. induction H as [|z l Hz H IH]; intros [|i] E; simplify_eq/=.
  - pose proof (sum_by_nonneg _ H). lia.
  - specialize (IH i E). lia.
Qed.

Lemma sum_by_zero l :
  Forall (λ x, 0 ≤ f x) l → sum_by f l = 0 → Forall (λ x, f x = 0) l.
Proof.
  induction 1 as [|z l Hz H IH]; intros E; constructor; simpl in E;
    pose proof (sum_by_nonneg _ H); [lia|apply IH; lia].
Qed.

Lemma sum_by_le l b : Forall (λ x, f x ≤ b) l → sum_by f l ≤ Z.of_nat (length l) * b.
Proof. induction 1; simpl; lia. Qed.
End sums.

(** ** Lists addressed by a [Z] index *)

Lemma lookup_Z_lt {A} (l : list A) (i : Z) :
  0 ≤ i < Z.of_nat (length l) → ∃ x, l !! Z.to_nat i = Some x.
Proof. intros H. apply lookup_lt_is_Some_2. lia. Qed.

(** Linear arithmetic with division and remainder by constants. *)
Ltac dlia := Z.to_euclidean_division_equations; lia.
