(* ===== verification/CLib.v ===== *)
(** * The parts of the C library the plugins call

    Strings as C has them (without the terminating NUL), [strtol] with its base
    detection and saturation, [atoi], and the process environment. *)
From stdpp Require Import base list numbers strings.
From Stdlib Require Import Ascii String.
From S2P Require Import Prelude.

Definition LONG_MAX : Z := 2 ^ 63 - 1.
Definition LONG_MIN : Z := - 2 ^ 63.

(** The environment: what [getenv] returns for a name. *)
Abbreviation environment := (string → option string).

Definition code (c : ascii) : Z := Z.of_N (N_of_ascii c).

(** [isspace] in the C locale. *)
Definition isspace (c : ascii) : bool :=
  (code c =? 32) || ((9 <=? code c) && (code c <=? 13)).

(** The value of a digit in the bases up to 36. *)
Definition digit_value (c : ascii) : option Z :=
  let n := code c in
  if (48 <=? n) && (n <=? 57) then Some (n - 48)
  else if (97 <=? n) && (n <=? 122) then Some (n - 87)
  else if (65 <=? n) && (n <=? 90) then Some (n - 55)
  else None.

Definition is_digit (base : Z) (c : ascii) : bool :=
  match digit_value c with Some v => v <? base | None => false end.

Fixpoint skip_spaces (s : list ascii) : list ascii :=
  match s with
  | c :: s' => if isspace c then skip_spaces s' else s
  | [] => []
  end.

Definition strtol_sign (s : list ascii) : bool * list ascii :=
  match s with
  | c :: s' => if code c =? 45 then (true, s')
               else if code c =? 43 then (false, s') else (false, s)
  | [] => (false, [])
  end.

(** Base detection for base argument 0: [0x] followed by a hexadecimal digit is
    base 16, any other leading [0] is base 8. *)
Definition strtol_base (s : list ascii) : Z * list ascii :=
  match s with
  | z :: x :: h :: s' =>
      if (code z =? 48) && ((code x =? 120) || (code x =? 88)) && is_digit 16 h
      then (16, h :: s')
      else if code z =? 48 then (8, s) else (10, s)
  | z :: _ => if code z =? 48 then (8, s) else (10, s)
  | [] => (10, [])
  end.

(** The digits of the longest valid prefix. *)
Fixpoint digits_value (base acc : Z) (s : list ascii) : Z :=
  match s with
  | [] => acc
  | c :: s' =>
      match digit_value c with
      | Some v => if v <? base then digits_value base (acc * base + v) s' else acc
      | None => acc
      end
  end.

(** Saturation at the ends of [long]. *)
Definition clamp_long (z : Z) : Z := Z.max LONG_MIN (Z.min LONG_MAX z).

Definition signed_value (neg : bool) (v : Z) : Z := clamp_long (if neg then - v else v).

(** [strtol(s, NULL, 0)]. *)
Definition strtol0 (s : string) : Z :=
  let '(neg, s1) := strtol_sign (skip_spaces (list_ascii_of_string s)) in
  let '(base, s2) := strtol_base s1 in
  signed_value neg (digits_value base 0 s2).

(** [atoi(s)], that is [(int)strtol(s, NULL, 10)]. *)
Definition atoi (s : string) : Z :=
  let '(neg, s1) := strtol_sign (skip_spaces (list_ascii_of_string s)) in
  i32 (signed_value neg (digits_value 10 0 s1)).

Lemma signed_value_range neg v : LONG_MIN ≤ signed_value neg v ≤ LONG_MAX.
Proof. unfold signed_value, clamp_long, LONG_MIN, LONG_MAX. lia. Qed.

Lemma strtol0_range s : LONG_MIN ≤ strtol0 s ≤ LONG_MAX.
Proof.
  unfold strtol0. destruct (strtol_sign _) as [neg s1]. destruct (strtol_base s1) as [b s2].
  apply signed_value_range.
Qed.

(** A [long] stored into an [unsigned long]. *)
Definition strtoul_store (s : string) : Z := u64 (strtol0 s).

Lemma strtoul_store_range s : is_u64 (strtoul_store s).
Proof. apply u64_range. Qed.

(** Storing loses nothing: only 0 is stored as 0. *)
Lemma strtoul_store_zero s : strtoul_store s = 0 ↔ strtol0 s = 0.
Proof.
  unfold strtoul_store, u64. pose proof (strtol0_range s) as H. unfold LONG_MIN, LONG_MAX in H.
  split; [|by intros ->]. intros E.
  apply Z.mod_divide in E as [k E]; [|done]. nia.
Qed.

Example strtol0_hex : strtol0 " 0x1F" = 31. Proof. reflexivity. Qed.
Example strtol0_oct : strtol0 "-010" = -8. Proof. reflexivity. Qed.
Example strtol0_dec : strtol0 "4096K" = 4096. Proof. reflexivity. Qed.
Example strtol0_none : strtol0 "abc" = 0. Proof. reflexivity. Qed.
Example strtol0_0x : strtol0 "0xg" = 0. Proof. reflexivity. Qed.

(** ** [atof]

    A finite [double] is [dmant * 2 ^ dexp].  [atof] reads the longest decimal or
    hexadecimal floating-point prefix and rounds its value to the nearest double,
    ties to even. *)

Record double := mkDouble { dmant : Z; dexp : Z }.

Fixpoint scan_digits (base acc n : Z) (s : list ascii) : Z * Z * list ascii :=
  match s with
  | c :: s' =>
      match digit_value c with
      | Some v => if v <? base then scan_digits base (acc * base + v) (n + 1) s' else (acc, n, s)
      | None => (acc, n, s)
      end
  | [] => (acc, n, [])
  end.

(** The digits around an optional point: the value without the point, the number
    of digits, how many of them follow the point, and the rest. *)
Definition scan_mantissa (base : Z) (s : list ascii) : Z * Z * Z * list ascii :=
  let '(v, n, r) := scan_digits base 0 0 s in
  match r with
  | c :: r' =>
      if code c =? 46 then
        let '(v', k, r'') := scan_digits base v 0 r' in (v', n + k, k, r'')
      else (v, n, 0, r)
  | [] => (v, n, 0, [])
  end.

(** An exponent introduced by the letter [lo] (or its capital); 0 without one. *)
Definition scan_exponent (lo : Z) (s : list ascii) : Z :=
  match s with
  | c :: s' =>
      if (code c =? lo) || (code c =? lo - 32) then
        let '(neg, s'') := strtol_sign s' in
        let '(v, n, _) := scan_digits 10 0 0 s'' in
        if n =? 0 then 0 else if neg then - v else v
      else 0
  | [] => 0
  end.

(** The double nearest to [num / den]; [None] when it overflows. *)
Definition round_double (num den : Z) : option double :=
  if num =? 0 then Some (mkDouble 0 0) else
  let e0 := Z.log2 num - Z.log2 den - 53 in
  let quotient e := (num * 2 ^ Z.max 0 (- e)) / (den * 2 ^ Z.max 0 e) in
  let e1 := if quotient e0 <? 2 ^ 53 then e0 else e0 + 1 in
  let e := Z.max (-1074) e1 in
  let n := num * 2 ^ Z.max 0 (- e) in
  let d := den * 2 ^ Z.max 0 e in
  let q := n / d in
  let r := n `mod` d in
  let q' := if 2 * r <? d then q else if d <? 2 * r then q + 1
            else if Z.even q then q else q + 1 in
  if 971 <? e then None else Some (mkDouble q' e).

Definition lower (c : ascii) : Z :=
  if (65 <=? code c) && (code c <=? 90) then code c + 32 else code c.

(** [atof(s)]; [None] for infinities and not-a-number. *)
Definition atof (s : string) : option double :=
  let '(neg, s1) := strtol_sign (skip_spaces (list_ascii_of_string s)) in
  let word := map lower (take 3 s1) in
  if decide (word = [105; 110; 102] ∨ word = [110; 97; 110]) then None else
  let '(hex, s2) :=
    match s1 with
    | z :: x :: s' => if (code z =? 48) && (lower x =? 120) && (0 <? (scan_mantissa 16 s').1.1.2)
                      then (true, s') else (false, s1)
    | _ => (false, s1)
    end in
  let base := if hex : bool then 16 else 10 in
  let '(v, n, k, r) := scan_mantissa base s2 in
  let ex := scan_exponent (if hex then 112 else 101) r in
  let scale := if hex then 2 else 10 in
  let down := if hex then 4 * k else k in
  let num := v * scale ^ Z.max 0 (ex - down) in
  let den := scale ^ Z.max 0 (down - ex) in
  d ← round_double num den;
  Some (if neg then mkDouble (- dmant d) (dexp d) else d).

Example atof_half : atof "0.5" = Some (mkDouble (2 ^ 52) (-53)). Proof. reflexivity. Qed.
Example atof_tenth : atof " .1e0," = Some (mkDouble 7205759403792794 (-56)). Proof. reflexivity. Qed.
Example atof_one : atof "10e-1x" = Some (mkDouble (2 ^ 52) (-52)). Proof. reflexivity. Qed.
Example atof_hex : atof "0x1.8p1" = Some (mkDouble (3 * 2 ^ 51) (-51)). Proof. reflexivity. Qed.
Example atof_none : atof "fast" = Some (mkDouble 0 0). Proof. reflexivity. Qed.

(** Conversion of a double to [uint64_t]: truncation, undefined out of range. *)
Definition double_to_u64 (d : double) : outcome Z :=
  let t := if 0 <=? dexp d then dmant d * 2 ^ dexp d else Z.quot (dmant d) (2 ^ (- dexp d)) in
  if (t <? 0) || (2 ^ 64 <=? t) then Fault BadConversion else Done t.
