(* ===== verification/Config.v ===== *)
(** * The configuration of the plugins, [plugins/config.c] *)
From stdpp Require Import base list numbers strings.
From Stdlib Require Import String.
From S2P Require Import Prelude CLib.

Record ShamblesPluginConfig := mkConfig {
  sizeThresshold : Z;
  chunkSize : Z;
  fastChunks : Z;
  maxnode : Z;
  fastmask : Z;     (* [fastmask[0]], the array has one element *)
  slowmask : Z
}.

Definition CONFIG_MAX_MASKS : Z := 1.
Definition EOVERFLOW : Z := 75.
(** [(size_t)(-1)] *)
Definition SIZE_UNLIMITED : Z := 2 ^ 64 - 1.

(** [(1LU << (config->maxnode + 1)) - 1] *)
Definition node_bits (maxnode : Z) : Z := u64 (shl64 1 (maxnode + 1) - 1).

Section init.
Context (getenv : environment).

Definition init_fastmask (maxnode : Z) : Z :=
  match getenv "SHAMBLES_FAST_NODEMASK" with
  | None => node_bits maxnode
  | Some env =>
      let m := strtoul_store env in
      if m =? 0 then node_bits maxnode else Z.land m (node_bits maxnode)
  end.

Definition init_slowmask (maxnode fastmask : Z) : Z :=
  match getenv "SHAMBLES_SLOW_NODEMASK" with
  | None => 0
  | Some env =>
      Z.land (strtoul_store env) (Z.land (node_bits maxnode) (not64 fastmask))
  end.

Definition init_threshold : Z :=
  match getenv "SHAMBLES_SIZE_THRESHOLD" with
  | None => 0x10000
  | Some env =>
      let t := strtoul_store env in if t =? 0 then 0x10000 else t
  end.

Definition init_chunkSize : Z :=
  match getenv "SHAMBLES_CHUNK_SIZE" with
  | None =>
      match getenv "SHAMBLES_FAST_MEM_SIZE" with
      | None => SIZE_UNLIMITED
      | Some env =>
          let size := strtoul_store env in
          if size =? 0 then SIZE_UNLIMITED else
          match getenv "SHAMBLES_FAST_MEM_CHUNKS" with
          | None => SIZE_UNLIMITED
          | Some env =>
              let n := strtoul_store env in
              if n =? 0 then SIZE_UNLIMITED else size / n
          end
      end
  | Some env =>
      let c := strtoul_store env in if c =? 0 then SIZE_UNLIMITED else c
  end.

Definition init_fastChunks (chunkSize : Z) : outcome Z :=
  match getenv "SHAMBLES_FAST_MEM_CHUNKS" with
  | None =>
      match getenv "SHAMBLES_FAST_MEM_SIZE" with
      | None => Done SIZE_UNLIMITED
      | Some env =>
          let size := strtoul_store env in
          if size =? 0 then Done SIZE_UNLIMITED
          else if chunkSize =? 0 then Fault DivideByZero
          else Done (size / chunkSize)
      end
  | Some env =>
      let n := strtoul_store env in Done (if n =? 0 then SIZE_UNLIMITED else n)
  end.

(** [ShamblesPluginConfigInit]: an error code or the configuration.
    [numa_max] is what libnuma's [numa_max_node()] returns. *)
Definition ShamblesPluginConfigInit (numa_max : Z) : outcome (Z + ShamblesPluginConfig) :=
  let maxnode := u64 (numa_max + 2) in
  if CONFIG_MAX_MASKS * 8 * 8 <=? maxnode then Done (inl (- EOVERFLOW)) else
  if 64 <=? maxnode + 1 then Fault BadShift else
  let fast := init_fastmask maxnode in
  let slow := init_slowmask maxnode fast in
  let threshold := init_threshold in
  let chunk := init_chunkSize in
  nfast ← init_fastChunks chunk;
  Done (inr (mkConfig threshold chunk nfast maxnode fast slow)).

(** ** What the configuration satisfies *)

Lemma node_bits_ones m : 0 ≤ m < 63 → node_bits m = Z.ones (m + 1).
Proof.
  intros Hm. unfold node_bits, shl64. rewrite Z.shiftl_mul_pow2, Z.mul_1_l by lia.
  assert (2 ^ (m + 1) ≤ 2 ^ 63) by (apply Z.pow_le_mono_r; lia).
  rewrite (u64_small (2 ^ _)) by (unfold is_u64; lia).
  rewrite u64_small by (unfold is_u64; lia). by rewrite Z.ones_equiv, Z.sub_1_r.
Qed.

Lemma init_threshold_pos : 1 ≤ init_threshold < 2 ^ 64.
Proof.
  unfold init_threshold. destruct (getenv _) as [env|]; [|done].
  pose proof (strtoul_store_range env) as H. unfold is_u64 in H.
  destruct (Z.eqb_spec (strtoul_store env) 0); lia.
Qed.

Lemma init_chunkSize_range : is_u64 init_chunkSize.
Proof.
  unfold init_chunkSize, is_u64, SIZE_UNLIMITED.
  repeat case_match; try lia; try apply strtoul_store_range.
  match goal with |- 0 ≤ strtoul_store ?a / strtoul_store ?b < _ =>
    pose proof (strtoul_store_range a) as Ha; pose proof (strtoul_store_range b) as Hb end.
  unfold is_u64 in *. rewrite Z.eqb_neq in *. split; [apply Z.div_pos; lia|].
  apply Z.div_lt_upper_bound; nia.
Qed.

(** The chunk size is 0 only when it is derived from a fast memory smaller
    than its number of chunks. *)
Lemma init_chunkSize_zero :
  init_chunkSize = 0 →
  ∃ size n, getenv "SHAMBLES_CHUNK_SIZE" = None ∧
    getenv "SHAMBLES_FAST_MEM_SIZE" = Some size ∧
    getenv "SHAMBLES_FAST_MEM_CHUNKS" = Some n ∧
    0 < strtoul_store size < strtoul_store n.
Proof.
  unfold init_chunkSize, SIZE_UNLIMITED.
  destruct (getenv "SHAMBLES_CHUNK_SIZE") as [c|].
  { destruct (Z.eqb_spec (strtoul_store c) 0); lia. }
  destruct (getenv "SHAMBLES_FAST_MEM_SIZE") as [sz|]; [|lia].
  destruct (Z.eqb_spec (strtoul_store sz) 0); [lia|].
  destruct (getenv "SHAMBLES_FAST_MEM_CHUNKS") as [cnt|]; [|lia].
  destruct (Z.eqb_spec (strtoul_store cnt) 0); [lia|]. intros E.
  exists sz, cnt. pose proof (strtoul_store_range sz) as H1. pose proof (strtoul_store_range cnt) as H2.
  unfold is_u64 in *. repeat split; try done; [lia|].
  apply Z.div_small_iff in E; lia.
Qed.

(** The division by the chunk size is never by 0. *)
Lemma init_fastChunks_done : ∃ n, init_fastChunks init_chunkSize = Done n ∧ is_u64 n.
Proof.
  unfold init_fastChunks.
  destruct (getenv "SHAMBLES_FAST_MEM_CHUNKS") as [n|] eqn:En.
  { eexists. split; [done|]. unfold SIZE_UNLIMITED, is_u64. case_match; [lia|].
    apply strtoul_store_range. }
  destruct (getenv "SHAMBLES_FAST_MEM_SIZE") as [sz|] eqn:Esz;
    [|by eexists].
  destruct (Z.eqb_spec (strtoul_store sz) 0); [by eexists|].
  destruct (Z.eqb_spec init_chunkSize 0) as [E|E].
  { destruct (init_chunkSize_zero E) as (sz0 & n0 & _ & _ & En0 & _). congruence. }
  eexists. split; [done|]. pose proof init_chunkSize_range as Hc.
  pose proof (strtoul_store_range sz) as Hs. unfold is_u64 in *.
  split; [apply Z.div_pos; lia|]. apply Z.div_lt_upper_bound; nia.
Qed.

Lemma config_done numa_max :
  0 ≤ numa_max < 61 →
  ∃ c, ShamblesPluginConfigInit numa_max = Done (inr c) ∧
    maxnode c = numa_max + 2 ∧
    sizeThresshold c = init_threshold ∧ chunkSize c = init_chunkSize ∧
    init_fastChunks init_chunkSize = Done (fastChunks c) ∧
    fastmask c = init_fastmask (maxnode c) ∧
    slowmask c = init_slowmask (maxnode c) (fastmask c).
Proof.
  intros Hn. unfold ShamblesPluginConfigInit, CONFIG_MAX_MASKS.
  rewrite u64_small by (unfold is_u64; lia).
  rewrite (proj2 (Z.leb_gt _ _)) by lia. rewrite (proj2 (Z.leb_gt _ _)) by lia.
  destruct init_fastChunks_done as (n & E & _). unfold mbind, outcome_bind. rewrite E.
  eexists. split; [done|]. repeat split; done.
Qed.

Lemma fastmask_subset m : 0 ≤ m < 63 → Z.land (init_fastmask m) (Z.ones (m + 1)) = init_fastmask m.
Proof.
  intros Hm. unfold init_fastmask. rewrite (node_bits_ones m Hm).
  destruct (getenv _) as [env|]; [|by rewrite Z.land_diag].
  case_match; [by rewrite Z.land_diag|]. by rewrite <- Z.land_assoc, Z.land_diag.
Qed.

Lemma slowmask_subset m f :
  0 ≤ m < 63 → Z.land (init_slowmask m f) (Z.ones (m + 1)) = init_slowmask m f.
Proof.
  intros Hm. unfold init_slowmask. rewrite (node_bits_ones m Hm).
  destruct (getenv _) as [env|]; [|by rewrite Z.land_0_l].
  apply Z.bits_inj'. intros i Hi. rewrite !Z.land_spec.
  by destruct (Z.testbit (Z.ones (m + 1)) i); rewrite ?andb_true_r, ?andb_false_r.
Qed.

Lemma masks_disjoint m f :
  0 ≤ m < 63 → is_u64 f → Z.land f (init_slowmask m f) = 0.
Proof.
  intros Hm Hf. unfold init_slowmask. destruct (getenv _) as [env|]; [|by rewrite Z.land_0_r].
  apply Z.bits_inj'. intros i Hi. rewrite !Z.land_spec, Z.bits_0.
  unfold not64, u64. destruct (decide (i < 64)) as [Hlt|Hge].
  - rewrite Z.mod_pow2_bits_low, Z.lnot_spec by lia.
    by destruct (Z.testbit f i); rewrite ?andb_false_r.
  - rewrite (Z.mod_pow2_bits_high _ 64 i) by lia. by rewrite !andb_false_r.
Qed.
End init.

(** ** Theorems *)

(** A small environment for concrete runs. *)
Definition env_of (l : list (string * string)) : environment :=
  λ name, snd <$> list_find (λ p, fst p = name) l ≫= λ '(_, p), Some p.

(** The result of [ShamblesPluginConfigInit] by the number of NUMA nodes: up
    to node 60 it succeeds; at node 61 it shifts a 64-bit one by 64, which is
    undefined; from node 62 on it reports an overflow. *)
Theorem config_outcome getenv numa_max :
  0 ≤ numa_max < 2 ^ 31 →
  (numa_max < 61 → ∃ c, ShamblesPluginConfigInit getenv numa_max = Done (inr c)) ∧
  (numa_max = 61 → ShamblesPluginConfigInit getenv numa_max = Fault BadShift) ∧
  (61 < numa_max → ShamblesPluginConfigInit getenv numa_max = Done (inl (- EOVERFLOW))).
Proof.
  intros Hn. repeat split.
  - intros Hlt. destruct (config_done getenv numa_max) as (c & E & _); [lia|]. by exists c.
  - by intros ->.
  - intros Hgt. unfold ShamblesPluginConfigInit, CONFIG_MAX_MASKS.
    rewrite u64_small by (unfold is_u64; lia). by rewrite (proj2 (Z.leb_le _ _)) by lia.
Qed.

Lemma config_outcome_witness :
  ShamblesPluginConfigInit (λ _, None) 61 = Fault BadShift.
Proof. apply (config_outcome (λ _, None) 61); [split; done|done]. Defined.

(** A configuration that is returned has fast and slow node masks that name
    only nodes up to [maxnode] and share no node, a size threshold of at least
    one byte, and a chunk size that is 0 only when the fast memory is smaller
    than its number of chunks. *)
Theorem config_masks getenv numa_max c :
  0 ≤ numa_max < 2 ^ 31 → ShamblesPluginConfigInit getenv numa_max = Done (inr c) →
  Z.land (fastmask c) (slowmask c) = 0 ∧
  0 ≤ fastmask c < 2 ^ (maxnode c + 1) ∧ 0 ≤ slowmask c < 2 ^ (maxnode c + 1) ∧
  1 ≤ sizeThresshold c < 2 ^ 64 ∧
  (chunkSize c = 0 → ∃ size n, getenv "SHAMBLES_FAST_MEM_SIZE" = Some size ∧
     getenv "SHAMBLES_FAST_MEM_CHUNKS" = Some n ∧ strtoul_store size < strtoul_store n).
Proof.
  intros Hn E.
  assert (numa_max < 61) as Hlt.
  { unfold ShamblesPluginConfigInit, CONFIG_MAX_MASKS in E.
    rewrite u64_small in E by (unfold is_u64; lia).
    destruct (Z.leb_spec (1 * 8 * 8) (numa_max + 2)); [done|].
    destruct (Z.leb_spec 64 (numa_max + 2 + 1)); [done|]. lia. }
  destruct (config_done getenv numa_max) as (c' & E' & Hm & Ht & Hc & _ & Hf & Hs); [lia|].
  rewrite E in E'. injection E' as <-.
  assert (∀ x, Z.land x (Z.ones (maxnode c + 1)) = x → 0 ≤ x < 2 ^ (maxnode c + 1)) as Hrange.
  { intros x <-. rewrite Z.land_ones by lia. apply Z.mod_pos_bound. lia. }
  assert (0 ≤ fastmask c < 2 ^ (maxnode c + 1)) as Hfr
    by (apply Hrange; rewrite Hf; apply fastmask_subset; lia).
  assert (2 ^ (maxnode c + 1) ≤ 2 ^ 63) by (apply Z.pow_le_mono_r; lia).
  split; [rewrite Hs; apply masks_disjoint; unfold is_u64; lia|].
  split; [done|]. split; [apply Hrange; rewrite Hs; apply slowmask_subset; lia|].
  split; [rewrite Ht; apply init_threshold_pos|].
  intros H0. rewrite Hc in H0. destruct (init_chunkSize_zero getenv H0) as (sz & cnt & _ & ? & ? & ?).
  exists sz, cnt. repeat split; try done. lia.
Qed.

Definition masks_env : environment :=
  env_of [("SHAMBLES_FAST_NODEMASK"%string, "0x3"%string);
          ("SHAMBLES_SLOW_NODEMASK"%string, "6"%string)].

Lemma config_masks_witness :
  Z.land 3 4 = 0 ∧
  ShamblesPluginConfigInit masks_env 3
    = Done (inr (mkConfig 0x10000 SIZE_UNLIMITED SIZE_UNLIMITED 5 3 4)).
Proof.
  assert (ShamblesPluginConfigInit masks_env 3
    = Done (inr (mkConfig 0x10000 SIZE_UNLIMITED SIZE_UNLIMITED 5 3 4))) as E
    by (vm_compute; reflexivity).
  split; [|exact E].
  apply (config_masks masks_env 3 (mkConfig 0x10000 SIZE_UNLIMITED SIZE_UNLIMITED 5 3 4));
    [lia|exact E].
Defined.

(** The fast-memory budget: when the fast memory size is given together with
    exactly one of the chunk size and the number of chunks, the chunks that may
    be placed in fast memory fit in it. *)
Theorem config_budget getenv numa_max c size v :
  ShamblesPluginConfigInit getenv numa_max = Done (inr c) →
  getenv "SHAMBLES_FAST_MEM_SIZE" = Some size → strtoul_store size ≠ 0 →
  strtoul_store v ≠ 0 →
  (getenv "SHAMBLES_CHUNK_SIZE" = Some v ∧ getenv "SHAMBLES_FAST_MEM_CHUNKS" = None) ∨
  (getenv "SHAMBLES_CHUNK_SIZE" = None ∧ getenv "SHAMBLES_FAST_MEM_CHUNKS" = Some v) →
  chunkSize c * fastChunks c ≤ strtoul_store size.
Proof.
  intros E Hs Hs0 Hv0 Hcase. revert E.
  pose proof (strtoul_store_range size) as Rs. pose proof (strtoul_store_range v) as Rv.
  unfold is_u64 in *.
  assert (∀ a b, 0 < b → b * (a / b) ≤ a) as Hdiv by (intros; by apply Z.mul_div_le).
  unfold ShamblesPluginConfigInit, init_fastChunks, init_chunkSize.
  destruct Hcase as [[-> ->]|[-> ->]]; rewrite Hs; rewrite !(proj2 (Z.eqb_neq _ _) Hs0),
    !(proj2 (Z.eqb_neq _ _) Hv0); case_match; try done; case_match; try done;
    intros [= <-]; simpl.
  - apply Hdiv. lia.
  - rewrite Z.mul_comm. apply Hdiv. lia.
Qed.

Definition budget_env : environment :=
  env_of [("SHAMBLES_FAST_MEM_SIZE"%string, "1000000"%string);
          ("SHAMBLES_FAST_MEM_CHUNKS"%string, "3"%string)].

Lemma config_budget_witness :
  chunkSize (mkConfig 0x10000 333333 3 3 15 0) * fastChunks (mkConfig 0x10000 333333 3 3 15 0)
    ≤ strtoul_store "1000000".
Proof.
  apply (config_budget budget_env 1 (mkConfig 0x10000 333333 3 3 15 0) "1000000" "3");
    [vm_compute; reflexivity|reflexivity|vm_compute; discriminate|vm_compute; discriminate
    |right; split; reflexivity].
Defined.

(** With only the fast memory size set, no chunk may be placed in fast
    memory: the missing chunk size defaults to the largest [size_t], so that the
    number of fast chunks is computed as 0. *)
Theorem config_size_alone getenv numa_max c size :
  ShamblesPluginConfigInit getenv numa_max = Done (inr c) →
  getenv "SHAMBLES_FAST_MEM_SIZE" = Some size → strtoul_store size ≠ 0 →
  strtol0 size ≠ -1 →
  getenv "SHAMBLES_CHUNK_SIZE" = None → getenv "SHAMBLES_FAST_MEM_CHUNKS" = None →
  fastChunks c = 0.
Proof.
  intros E Hs Hs0 Hm1 Hc Hn. revert E.
  unfold ShamblesPluginConfigInit, init_fastChunks, init_chunkSize.
  rewrite Hs, Hc, Hn, !(proj2 (Z.eqb_neq _ _) Hs0). repeat (case_match; try done).
  intros [= <-]. simpl. apply Z.div_small. unfold SIZE_UNLIMITED.
  pose proof (strtol0_range size) as R. unfold strtoul_store, u64, LONG_MIN, LONG_MAX in *.
  pose proof (Z.mod_pos_bound (strtol0 size) (2 ^ 64)). split; [lia|].
  destruct (decide (strtol0 size < 0)) as [Hneg|Hpos].
  - rewrite <- (Z.mod_unique (strtol0 size) (2 ^ 64) (-1) (strtol0 size + 2 ^ 64)); lia.
  - rewrite Z.mod_small; lia.
Qed.

Definition size_env : environment :=
  env_of [("SHAMBLES_FAST_MEM_SIZE"%string, "0x40000000"%string)].

Lemma config_size_alone_witness :
  fastChunks (mkConfig 0x10000 SIZE_UNLIMITED 0 3 15 0) = 0.
Proof.
  apply (config_size_alone size_env 1 (mkConfig 0x10000 SIZE_UNLIMITED 0 3 15 0) "0x40000000");
    [vm_compute; reflexivity|reflexivity|vm_compute; discriminate|vm_compute; discriminate
    |reflexivity..].
Defined.

(** ** A configuration with two fast chunks of 256 KiB *)

Definition two_chunk_env : environment := λ name,
  if decide (name = "SHAMBLES_FAST_MEM_CHUNKS") then Some "2" else
  if decide (name = "SHAMBLES_CHUNK_SIZE") then Some "0x40000" else None.
