(* ===== verification/Structures.v ===== *)
(** * The region index of [plugins/structures.c]

    The radix tree that maps a sampled address to the allocation it falls in.
    This file holds the data and the operations; [StructuresTree] proves what
    the walks of the tree do and [StructuresIndex] what the index promises to
    the plugins that use it. *)
From stdpp Require Import base list gmap numbers.
From S2P Require Import Prelude.

(** ** The allocator the plugins use

    [plugin_malloc], [plugin_calloc] and [plugin_free] come from a jemalloc
    that [plugin-malloc.sh] fetches at build time.  The model takes the choice
    of addresses as a parameter, null when there is no memory; [PluginMallocOk] states the
    documented promise that matters here, that a block handed out is distinct from every
    live block.  The arrays of the tree ([plugin_calloc]) are taken to be always served. *)

Class PluginMalloc : Type := malloc_at : gset Z → Z → Z.

Class PluginMallocOk `{PluginMalloc} : Prop := {
  malloc_nonneg : ∀ live n, 0 ≤ malloc_at live n;
  malloc_fresh : ∀ live n, malloc_at live n ≠ 0 → malloc_at live n ∉ live
}.

(** ** Data *)

(** A pointer into an array: the block's address and the index in it.
    [(void * )k] is [(0, k)], so that [NULL] is [(0, 0)]. *)
Abbreviation ptr := (Z * Z)%type.
Definition NULLp : ptr := (0, 0).

Record ShamblesChunk := mkChunk {
  chunk_start : Z;
  chunk_size : Z;
  chunk_privData : option ptr   (* [None]: not initialised yet *)
}.

Record ShamblesRegion := mkRegion {
  region_start : Z;
  region_nChunks : Z;
  region_chunks : Z;            (* the block of the chunk array *)
  region_privData : option Z
}.

Record RegionNode := mkRN {
  lowAddr : Z;
  highAddr : Z;
  lowReg : Z;
  highReg : Z
}.

(** The union of [struct NonLeafNode]: a null pointer, an array of non-leaf
    nodes, or an array of region nodes. *)
Inductive nlunion (N : Type) : Type :=
| UNull
| UNln (a : list N)
| URegions (a : list RegionNode).
Arguments UNull {N}.
Arguments UNln {N} a.
Arguments URegions {N} a.

Inductive NonLeafNode : Type :=
| NLN (refcount : Z) (u : nlunion NonLeafNode).

Definition refcount (n : NonLeafNode) : Z := let 'NLN r _ := n in r.

Definition zeroRN : RegionNode := mkRN 0 0 0 0.
Definition zeroNLN : NonLeafNode := NLN 0 UNull.

Definition sizeof_RegionNode : Z := 32.
Definition sizeof_NonLeafNode : Z := 16.
Definition sizeof_ShamblesRegion : Z := 32.
Definition sizeof_ShamblesChunk : Z := 24.

(** The globals [shamblesStructsInit] computes. *)
Record Globals := mkGlobals {
  PAGE_SHIFT : Z;
  ADDR_RELEVANT_BITS : Z;
  CHUNK_SIZE : Z;
  REGION_SHIFT : Z;
  REGION_SIZE : Z;
  REGION_NODE_MASK : Z;
  NON_LEAF_NODES_ARRAY_SIZE : Z;
  LEAF_NODES_ARRAY_SIZE : Z;
  NON_LEAF_NODE_MASK_0 : Z;
  NON_LEAF_SHIFT : Z;
  NON_LEAF_NODES_DEPTH : Z;
  NON_LEAF_SHIFT_0 : Z
}.

Record structs := mkStructs {
  globals : Globals;
  root : list NonLeafNode;
  regions : gmap Z ShamblesRegion;
  chunks : gmap Z (list ShamblesChunk);
  live : gset Z
}.

Definition set_root (r : list NonLeafNode) (s : structs) : structs :=
  mkStructs (globals s) r (regions s) (chunks s) (live s).
Definition set_regions (m : gmap Z ShamblesRegion) (s : structs) : structs :=
  mkStructs (globals s) (root s) m (chunks s) (live s).
Definition set_chunks (m : gmap Z (list ShamblesChunk)) (s : structs) : structs :=
  mkStructs (globals s) (root s) (regions s) m (live s).
Definition set_live (l : gset Z) (s : structs) : structs :=
  mkStructs (globals s) (root s) (regions s) (chunks s) l.

(** ** [shamblesStructsInit] *)

Definition NODE_MEMORDER : Z := 16.

(** [while(NON_LEAF_NODE_MASK_0 < (1LLU << ADDR_RELEVANT_BITS))], returning the
    depth and the mask. *)
Fixpoint mask_loop (fuel : nat) (shift bound depth mask : Z) : outcome (Z * Z) :=
  if mask <? bound then
    match fuel with
    | O => Fault Diverges
    | S fuel' => mask_loop fuel' shift bound (depth + 1) (shl64 mask shift)
    end
  else Done (depth, mask).

Section init.
(** The value the compiled code produces for [1 << n] on [int] when [n] is 31
    or more, where the C standard leaves the result undefined. *)
Variable oversized_shl : Z → Z.

Definition int_shl1 (n : Z) : Z :=
  if n <? 31 then Z.shiftl 1 n else oversized_shl n.

Definition init_globals (chunkSize sizeThresshold : Z) : outcome Globals :=
  let page_shift := 12 in
  let addr_bits := 39 in
  let region_shift := 63 - clzl sizeThresshold in
  let region_size := u64 (int_shl1 region_shift) in
  let node_bytes := shl64 1 NODE_MEMORDER in
  let leaf_size := node_bytes / sizeof_RegionNode in
  let nonleaf_size := node_bytes / sizeof_NonLeafNode in
  if 64 <=? region_shift + ctzl leaf_size then Fault BadShift else
  let region_mask := shl64 (leaf_size - 1) region_shift in
  let mask0 := shl64 (nonleaf_size - 1) (region_shift + ctzl leaf_size) in
  let shift := ctzl nonleaf_size in
  '(depth, mask0) ← mask_loop 6 shift (shl64 1 addr_bits) 0 mask0;
  mret (mkGlobals page_shift addr_bits chunkSize region_shift region_size
          region_mask nonleaf_size leaf_size mask0 shift depth (ctzl mask0)).

(** The number of elements of the root array. *)
Definition root_elements (G : Globals) : Z :=
  popcountl (Z.land (NON_LEAF_NODE_MASK_0 G)
               (u64 (int_shl1 (ADDR_RELEVANT_BITS G) - 1))).

Definition shamblesStructsInit (chunkSize sizeThresshold : Z) : outcome structs :=
  G ← init_globals chunkSize sizeThresshold;
  mret (mkStructs G (replicate (Z.to_nat (root_elements G)) zeroNLN) ∅ ∅ ∅).
End init.

(** ** Lookup *)

(** The descent of [getRegion]: [None] when a level is missing. *)
Fixpoint find_leaf (G : Globals) (depth : nat) (mask shift addr : Z)
    (nl : NonLeafNode) : outcome (option (list RegionNode)) :=
  let 'NLN _ u := nl in
  match depth with
  | O =>
      match u with
      | UNull => Done None
      | URegions a => Done (Some a)
      | UNln _ => Fault BadPointer
      end
  | S depth' =>
      match u with
      | UNull => Done None
      | UNln a =>
          nl' ← a !! Z.to_nat (Z.shiftr (Z.land addr mask) shift) ?? OutOfBounds;
          find_leaf G depth' (Z.shiftr mask (NON_LEAF_SHIFT G))
            (u64 (shift - NON_LEAF_SHIFT G)) addr nl'
      | URegions _ => Fault BadPointer
      end
  end.

Definition root_index (G : Globals) (addr : Z) : Z :=
  Z.land (Z.land addr (NON_LEAF_NODE_MASK_0 G)) (ADDR_RELEVANT_BITS G).

Definition leaf_index (G : Globals) (addr : Z) : Z :=
  Z.shiftr (Z.land addr (REGION_NODE_MASK G)) (REGION_SHIFT G).

Definition mask_1 (G : Globals) : Z :=
  Z.shiftr (NON_LEAF_NODE_MASK_0 G) (NON_LEAF_SHIFT G).
Definition shift_1 (G : Globals) : Z :=
  u64 (NON_LEAF_SHIFT_0 G - NON_LEAF_SHIFT G).
Definition depth_nat (G : Globals) : nat := Z.to_nat (NON_LEAF_NODES_DEPTH G).

(** The comparisons at the end of [getRegion]; the result is a region pointer,
    [0] for [NULL]. *)
Definition pick_region (rn : RegionNode) (addr : Z) : Z :=
  if highAddr rn <=? addr then highReg rn
  else if addr <? lowAddr rn then lowReg rn
  else 0.

Definition getRegion_in (G : Globals) (rt : list NonLeafNode) (addr : Z) : outcome Z :=
  nl ← rt !! Z.to_nat (root_index G addr) ?? OutOfBounds;
  leaf ← find_leaf G (depth_nat G) (mask_1 G) (shift_1 G) addr nl;
  match leaf with
  | None => mret 0
  | Some a =>
      rn ← a !! Z.to_nat (leaf_index G addr) ?? OutOfBounds;
      mret (pick_region rn addr)
  end.

Definition getRegion (addr : Z) : M structs Z :=
  s ← get; liftO (getRegion_in (globals s) (root s) addr).

Definition deref_region (p : Z) : M structs ShamblesRegion :=
  s ← get;
  if p =? 0 then throw NullDeref else liftO (regions s !! p ?? BadPointer).

Definition deref_chunks (p : Z) : M structs (list ShamblesChunk) :=
  s ← get;
  if p =? 0 then throw NullDeref else liftO (chunks s !! p ?? BadPointer).

(** [getChunkInfo]: a pointer to the chunk, [NULLp] when the address belongs to
    no region. *)
Definition getChunkInfo (addr : Z) : M structs ptr :=
  p ← getRegion addr;
  if p =? 0 then mret NULLp else
  region ← deref_region p;
  s ← get;
  let G := globals s in
  if CHUNK_SIZE G =? 0 then throw DivideByZero else
  mret (region_chunks region, u64 (addr - region_start region) / CHUNK_SIZE G).

(** The loop of [getChunkInfoNU] over the chunks after the first. *)
Fixpoint chunk_scan (addr : Z) (i : Z) (tail : list ShamblesChunk) : Z :=
  match tail with
  | [] => i
  | c :: tail' => if addr <? chunk_start c then i else chunk_scan addr (i + 1) tail'
  end.

Definition getChunkInfoNU (addr : Z) : M structs ptr :=
  p ← getRegion addr;
  if p =? 0 then mret NULLp else
  region ← deref_region p;
  cs ← deref_chunks (region_chunks region);
  if Z.of_nat (length cs) <? region_nChunks region then throw OutOfBounds else
  mret (region_chunks region,
        chunk_scan addr 0 (drop 1 (take (Z.to_nat (region_nChunks region)) cs))).

(** ** Registration *)

Fixpoint set_walk (G : Globals) (depth : nat) (mask shift addr : Z)
    (upd : RegionNode → RegionNode) (nl : NonLeafNode) : outcome NonLeafNode :=
  let 'NLN r u := nl in
  match depth with
  | O =>
      a ← match u with
          | UNull => Done (replicate (Z.to_nat (LEAF_NODES_ARRAY_SIZE G)) zeroRN)
          | URegions a => Done a
          | UNln _ => Fault BadPointer
          end;
      let i := Z.to_nat (leaf_index G addr) in
      rn ← a !! i ?? OutOfBounds;
      mret (NLN (u64 (r + 1)) (URegions (<[i:=upd rn]> a)))
  | S depth' =>
      a ← match u with
          | UNull => Done (replicate (Z.to_nat (NON_LEAF_NODES_ARRAY_SIZE G)) zeroNLN)
          | UNln a => Done a
          | URegions _ => Fault BadPointer
          end;
      let i := Z.to_nat (Z.shiftr (Z.land addr mask) shift) in
      nl' ← a !! i ?? OutOfBounds;
      nl'' ← set_walk G depth' (Z.shiftr mask (NON_LEAF_SHIFT G))
               (u64 (shift - NON_LEAF_SHIFT G)) addr upd nl';
      mret (NLN (u64 (r + 1)) (UNln (<[i:=nl'']> a)))
  end.

Definition on_root (G : Globals) (addr : Z)
    (walk : nat → Z → Z → Z → NonLeafNode → outcome NonLeafNode)
    (rt : list NonLeafNode) : outcome (list NonLeafNode) :=
  let i := Z.to_nat (root_index G addr) in
  nl ← rt !! i ?? OutOfBounds;
  nl' ← walk (depth_nat G) (mask_1 G) (shift_1 G) addr nl;
  mret (<[i:=nl']> rt).

Definition set_cell (G : Globals) (upd : RegionNode → RegionNode) (addr : Z)
    (rt : list NonLeafNode) : outcome (list NonLeafNode) :=
  on_root G addr (λ d m sh a nl, set_walk G d m sh a upd nl) rt.

Definition set_high (addr output : Z) (rn : RegionNode) : RegionNode :=
  mkRN (lowAddr rn) addr (lowReg rn) output.
Definition set_low (end_ output : Z) (rn : RegionNode) : RegionNode :=
  mkRN end_ (highAddr rn) output (highReg rn).
Definition set_both (addr end_ output : Z) (_ : RegionNode) : RegionNode :=
  mkRN end_ addr output output.

Definition region_low_mask (G : Globals) : Z := u64 (shl64 1 (REGION_SHIFT G) - 1).

(** [while(addr0 < (end & ~mask)) { ...; addr0 += 1LLU << REGION_SHIFT; }],
    returning the final [addr0]. *)
Fixpoint slots_loop (G : Globals) (fuel : nat) (stop : Z)
    (body : Z → list NonLeafNode → outcome (list NonLeafNode))
    (addr0 : Z) (rt : list NonLeafNode) : outcome (Z * list NonLeafNode) :=
  if addr0 <? stop then
    match fuel with
    | O => Fault Diverges
    | S fuel' =>
        rt' ← body addr0 rt;
        slots_loop G fuel' stop body (u64 (addr0 + shl64 1 (REGION_SHIFT G))) rt'
    end
  else Done (addr0, rt).

(** Enough turns for the loop to reach its bound. *)
Definition slots_fuel (G : Globals) (addr0 stop : Z) : nat :=
  Z.to_nat ((stop - addr0) / 2 ^ REGION_SHIFT G + 1).

(** The three steps that [addRegion], [addRegionChunks] and [deleteRegion] take
    over the slots of [[addr, end_)]: the slot the range starts in (unless it
    starts on the slot's boundary), the slots inside, the slot it ends in. *)
Definition over_slots (G : Globals)
    (head mid tail : Z → list NonLeafNode → outcome (list NonLeafNode))
    (addr end_ : Z) (rt : list NonLeafNode) : outcome (list NonLeafNode) :=
  let low := region_low_mask G in
  rt1 ← (if Z.land addr low =? 0 then Done rt else head addr rt);
  let addr0 := u64 (Z.land addr (not64 low) + shl64 1 (REGION_SHIFT G)) in
  let stop := Z.land end_ (not64 low) in
  '(addr0', rt2) ← slots_loop G (slots_fuel G addr0 stop) stop mid addr0 rt1;
  if addr0' =? end_ then Done rt2 else tail addr0' rt2.

Definition register_range (G : Globals) (addr end_ output : Z) :=
  over_slots G (set_cell G (set_high addr output))
               (set_cell G (set_both addr end_ output))
               (set_cell G (set_low end_ output)) addr end_.

Section operations.
Context `{PluginMalloc}.

Definition plugin_malloc (n : Z) : M structs Z := λ s,
  let p := malloc_at (live s) n in
  Done (p, if p =? 0 then s else set_live ({[p]} ∪ live s) s).

Definition plugin_free (p : Z) : M structs unit :=
  modify (λ s, set_live (live s ∖ {[p]}) s).

Definition write_region (p : Z) (r : ShamblesRegion) : M structs unit :=
  if p =? 0 then throw NullDeref
  else modify (λ s, set_regions (<[p:=r]> (regions s)) s).

Definition write_chunks (p : Z) (cs : list ShamblesChunk) : M structs unit :=
  if p =? 0 then throw NullDeref
  else modify (λ s, set_chunks (<[p:=cs]> (chunks s)) s).

(** The chunks [addRegion] cuts a region into. *)
Definition split_chunks (chunk_bytes addr size : Z) : list ShamblesChunk :=
  let nChunks := size / chunk_bytes in
  let rest := size `mod` chunk_bytes in
  ((λ i, mkChunk (u64 (addr + u64 (i * chunk_bytes))) chunk_bytes None)
     <$> seqZ 0 nChunks)
  ++ (if rest =? 0 then []
      else [mkChunk (u64 (addr + u64 (nChunks * chunk_bytes))) rest None]).

Definition register (addr end_ output : Z) : M structs unit :=
  s ← get;
  rt ← liftO (register_range (globals s) addr end_ output (root s));
  modify (set_root rt).

Definition addRegion (addr size : Z) : M structs Z :=
  let end_ := u64 (addr + size) in
  output ← plugin_malloc sizeof_ShamblesRegion;
  if output =? 0 then throw NullDeref else
  s ← get;
  let chunk_bytes := CHUNK_SIZE (globals s) in
  if chunk_bytes =? 0 then throw DivideByZero else
  let cs := split_chunks chunk_bytes addr size in
  let nChunks := Z.of_nat (length cs) in
  (* [output->nChunks] and the loop counter are [int] *)
  if 2 ^ 31 <=? nChunks then throw OutOfBounds else
  block ← plugin_malloc (nChunks * sizeof_ShamblesChunk);
  write_chunks block cs;;
  write_region output (mkRegion addr nChunks block None);;
  register addr end_ output;;
  mret output.

(** The chunks of [addRegionChunks], each starting where the previous ends. *)
Fixpoint given_chunks (start : Z) (sizes : list Z) : list ShamblesChunk :=
  match sizes with
  | [] => []
  | sz :: sizes' => mkChunk start sz None :: given_chunks (u64 (start + sz)) sizes'
  end.

Definition addRegionChunks (addr size nChunks : Z) (chunkSizes : list Z) : M structs Z :=
  let end_ := u64 (addr + size) in
  output ← plugin_malloc sizeof_ShamblesRegion;
  if output =? 0 then throw NullDeref else
  block ← plugin_malloc (nChunks * sizeof_ShamblesChunk);
  (* [chunks[0]] and [chunkSizes[0]] are accessed whatever [nChunks] is *)
  if (nChunks <? 1) || (Z.of_nat (length chunkSizes) <? nChunks)
  then throw OutOfBounds else
  let cs := given_chunks addr (take (Z.to_nat nChunks) chunkSizes) in
  write_chunks block cs;;
  write_region output (mkRegion addr nChunks block None);;
  register addr end_ output;;
  mret output.

(** ** Deletion *)

Definition clear_cell (flag : Z) (rn : RegionNode) : RegionNode :=
  let rn1 := if Z.land flag 1 =? 0 then rn
             else mkRN (lowAddr rn) 0 (lowReg rn) 0 in
  if Z.land flag 2 =? 0 then rn1 else mkRN 0 (highAddr rn1) 0 (highReg rn1).

Fixpoint recursiveDelete (G : Globals) (flag : Z) (depth : nat) (mask shift addr : Z)
    (nl : NonLeafNode) : outcome NonLeafNode :=
  let 'NLN r u := nl in
  let r' := u64 (r - 1) in
  match depth with
  | O =>
      a ← match u with
          | UNull => Fault NullDeref
          | URegions a => Done a
          | UNln _ => Fault BadPointer
          end;
      let i := Z.to_nat (leaf_index G addr) in
      rn ← a !! i ?? OutOfBounds;
      mret (NLN r' (if r' =? 0 then UNull
                    else URegions (<[i:=clear_cell flag rn]> a)))
  | S depth' =>
      a ← match u with
          | UNull => Fault NullDeref
          | UNln a => Done a
          | URegions _ => Fault BadPointer
          end;
      let i := Z.to_nat (Z.shiftr (Z.land addr mask) shift) in
      nl' ← a !! i ?? OutOfBounds;
      nl'' ← recursiveDelete G flag depth' (Z.shiftr mask (NON_LEAF_SHIFT G))
               (u64 (shift - NON_LEAF_SHIFT G)) addr nl';
      mret (NLN r' (if r' =? 0 then UNull else UNln (<[i:=nl'']> a)))
  end.

Definition del_cell (G : Globals) (flag : Z) (addr : Z) :=
  on_root G addr (λ d m sh a nl, recursiveDelete G flag d m sh a nl).

Definition unregister_range (G : Globals) (addr end_ : Z) :=
  over_slots G (del_cell G 1) (del_cell G 3) (del_cell G 2) addr end_.

Definition deleteRegion (p : Z) : M structs unit :=
  region ← deref_region p;
  cs ← deref_chunks (region_chunks region);
  first ← liftO (cs !! 0%nat ?? OutOfBounds);
  last_ ← liftO (cs !! Z.to_nat (region_nChunks region - 1) ?? OutOfBounds);
  let addr := chunk_start first in
  let end_ := u64 (chunk_start last_ + chunk_size last_) in
  s ← get;
  rt ← liftO (unregister_range (globals s) addr end_ (root s));
  modify (set_root rt);;
  modify (λ s, set_chunks (delete (region_chunks region) (chunks s)) s);;
  plugin_free (region_chunks region);;
  modify (λ s, set_regions (delete p (regions s)) s);;
  plugin_free p.
End operations.

(** ** Access to one chunk, through a pointer into a chunk array *)

Definition deref_chunk (p : ptr) : M structs ShamblesChunk :=
  cs ← deref_chunks p.1;
  if p.2 <? 0 then throw OutOfBounds else liftO (cs !! Z.to_nat p.2 ?? OutOfBounds).

(** [p->privData = v] for a chunk. *)
Definition set_chunk_privData (p v : ptr) : M structs unit :=
  c ← deref_chunk p;
  cs ← deref_chunks p.1;
  write_chunks p.1 (<[Z.to_nat p.2 := mkChunk (chunk_start c) (chunk_size c) (Some v)]> cs).

(** The address a chunk pointer stands for, which [>] compares. *)
Definition chunk_addr (p : ptr) : Z := p.1 + p.2 * sizeof_ShamblesChunk.
