(* ===== verification/StructuresTree.v ===== *)
(** * What the walks of the region index do

    A tree in the shape the code maintains ([wf]) is a canonical representation
    of a map from slot numbers to region nodes ([cell]): a walk that registers
    or deletes changes the map at one slot, keeps every reference count equal
    to the number of registrations below it, and two trees with the same map
    are equal. *)
From stdpp Require Import base list gmap numbers.
From S2P Require Import Prelude Structures.

(** ** The geometry [shamblesStructsInit] establishes *)

(** Number of slots the index distinguishes with [d] non-leaf levels. *)
Definition span (d : nat) : Z := 2 ^ (11 + 12 * Z.of_nat d).

Record geometry (G : Globals) (d : nat) : Prop := {
  geo_rs : 0 ≤ REGION_SHIFT G;
  geo_fit : REGION_SHIFT G + 11 + 12 * Z.of_nat d < 64;
  geo_leafmask : REGION_NODE_MASK G = Z.shiftl (Z.ones 11) (REGION_SHIFT G);
  geo_leafsize : LEAF_NODES_ARRAY_SIZE G = 2048;
  geo_nonleafsize : NON_LEAF_NODES_ARRAY_SIZE G = 4096;
  geo_shift : NON_LEAF_SHIFT G = 12;
  geo_depth : depth_nat G = d;
  geo_bits : ADDR_RELEVANT_BITS G = 39;
  geo_root : ∀ addr, root_index G addr = 0;
  geo_level : (0 < d)%nat →
    mask_1 G = Z.shiftl (Z.ones 12) (REGION_SHIFT G + 12 * Z.of_nat d - 1) ∧
    shift_1 G = REGION_SHIFT G + 12 * Z.of_nat d - 1
}.

(** The depth the mask loop stops at. *)
Definition depth_of (region_shift : Z) : nat :=
  if region_shift <=? 4 then 2%nat else if region_shift <=? 16 then 1%nat else 0%nat.

Lemma root_index_masked G addr :
  Z.land (NON_LEAF_NODE_MASK_0 G) (ADDR_RELEVANT_BITS G) = 0 → root_index G addr = 0.
Proof.
  intros E. unfold root_index. by rewrite <- Z.land_assoc, E, Z.land_0_r.
Qed.

(** Case analysis on an integer [x] known (by [H]) to lie between two literals. *)
Ltac enum_cases x H :=
  lazymatch type of H with
  | ?lo ≤ x < ?hi =>
      lazymatch eval vm_compute in (Z.ltb lo hi) with
      | true =>
          let lo' := eval vm_compute in (lo + 1) in
          let H' := fresh in
          let E := fresh in
          assert (x = lo ∨ lo' ≤ x < hi) as [E|H'] by lia;
          [clear H; subst x | clear H; enum_cases x H']
      | false => exfalso; lia
      end
  end.

Lemma init_globals_geometry ov cs thr :
  1 ≤ thr < 2 ^ 53 →
  ∃ G, init_globals ov cs thr = Done G ∧ geometry G (depth_of (Z.log2 thr)) ∧
       REGION_SHIFT G = Z.log2 thr ∧ CHUNK_SIZE G = cs.
Proof.
  intros Ht. unfold init_globals, clzl.
  assert (0 ≤ Z.log2 thr < 53) as Hl.
  { split; [apply Z.log2_nonneg|]. apply Z.log2_lt_pow2; lia. }
  replace (63 - (63 - Z.log2 thr)) with (Z.log2 thr) by lia.
  generalize dependent (Z.log2 thr). intros rs Hrs. cbv zeta.
  generalize (u64 (int_shl1 ov rs)); intros rsize.
  enum_cases rs Hrs; (eexists; split; [vm_compute; reflexivity|];
    split; [|split; reflexivity]; split;
    [vm_compute; discriminate|vm_compute; reflexivity|reflexivity..
    |intros; apply root_index_masked; reflexivity
    |intros Hd; first [exfalso; vm_compute in Hd; lia|split; vm_compute; reflexivity]]).
Qed.

(** ** Slots and the indices of a walk *)

Definition slot_of (G : Globals) (addr : Z) : Z := addr / 2 ^ REGION_SHIFT G.

Definition leaf_ix (slot : Z) : nat := Z.to_nat (slot `mod` 2048).
Definition child_ix (d : nat) (slot : Z) : nat := Z.to_nat ((slot / span d) `mod` 4096).

(** Two slots the index does not distinguish. *)
Definition same_key (d : nat) (s s' : Z) : Prop := s `mod` span d = s' `mod` span d.

#[export] Instance same_key_dec d s s' : Decision (same_key d s s').
Proof. unfold same_key. apply _. Defined.

Lemma span_pos d : 0 < span d.
Proof. unfold span. lia. Qed.

Lemma span_S d : span (S d) = span d * 4096.
Proof.
  unfold span. replace (11 + 12 * Z.of_nat (S d)) with (11 + 12 * Z.of_nat d + 12) by lia.
  rewrite Z.pow_add_r by lia. done.
Qed.

Lemma span_0 : span 0 = 2048.
Proof. done. Qed.

Lemma leaf_ix_lt slot : (leaf_ix slot < 2048)%nat.
Proof. unfold leaf_ix. pose proof (Z.mod_pos_bound slot 2048). lia. Qed.

Lemma child_ix_lt d slot : (child_ix d slot < 4096)%nat.
Proof. unfold child_ix. pose proof (Z.mod_pos_bound (slot / span d) 4096). lia. Qed.

Lemma same_key_0 s s' : same_key 0 s s' ↔ leaf_ix s = leaf_ix s'.
Proof.
  unfold same_key, leaf_ix. rewrite span_0.
  pose proof (Z.mod_pos_bound s 2048). pose proof (Z.mod_pos_bound s' 2048). lia.
Qed.

Lemma same_key_S d s s' :
  same_key (S d) s s' ↔ child_ix d s = child_ix d s' ∧ same_key d s s'.
Proof.
  unfold same_key, child_ix. rewrite span_S.
  pose proof (span_pos d) as Hp.
  rewrite !Z.rem_mul_r by lia.
  pose proof (Z.mod_pos_bound (s / span d) 4096).
  pose proof (Z.mod_pos_bound (s' / span d) 4096).
  pose proof (Z.mod_pos_bound s (span d) Hp). pose proof (Z.mod_pos_bound s' (span d) Hp).
  split.
  - intros E.
    assert ((s / span d) `mod` 4096 = (s' / span d) `mod` 4096) by nia. split; nia.
  - intros [E1 E2].
    assert ((s / span d) `mod` 4096 = (s' / span d) `mod` 4096) as -> by lia. lia.
Qed.

Lemma slot_of_shift G addr n :
  0 ≤ REGION_SHIFT G → 0 ≤ n → addr / 2 ^ (REGION_SHIFT G + n) = slot_of G addr / 2 ^ n.
Proof. intros. unfold slot_of. rewrite Z.pow_add_r, Z.div_div by lia. done. Qed.

Lemma leaf_index_slot G d addr :
  geometry G d → leaf_index G addr = slot_of G addr `mod` 2048.
Proof.
  intros HG. unfold leaf_index. rewrite (geo_leafmask _ _ HG), extract_bits by (destruct HG; lia).
  done.
Qed.

Definition level_ok (G : Globals) (d : nat) (mask shift : Z) : Prop :=
  match d with
  | O => True
  | S d' => mask = Z.shiftl (Z.ones 12) (REGION_SHIFT G + (11 + 12 * Z.of_nat d')) ∧
            shift = REGION_SHIFT G + (11 + 12 * Z.of_nat d')
  end.

Lemma level_ok_start G d : geometry G d → level_ok G d (mask_1 G) (shift_1 G).
Proof.
  intros HG. destruct d as [|d]; [done|].
  destruct (geo_level _ _ HG) as [-> ->]; [lia|].
  split; [f_equal|]; lia.
Qed.

Lemma level_ok_next G d0 d mask shift :
  geometry G d0 → (d < d0)%nat → level_ok G (S d) mask shift →
  level_ok G d (Z.shiftr mask (NON_LEAF_SHIFT G)) (u64 (shift - NON_LEAF_SHIFT G)).
Proof.
  intros HG Hd [-> ->]. destruct d as [|d]; [done|]. cbn [level_ok].
  rewrite (geo_shift _ _ HG). pose proof (geo_rs _ _ HG). pose proof (geo_fit _ _ HG).
  rewrite Z.shiftr_shiftl_l by lia. split; [f_equal; lia|].
  rewrite u64_small; unfold is_u64; lia.
Qed.

Lemma level_index G d0 d mask shift addr :
  geometry G d0 → level_ok G (S d) mask shift →
  Z.to_nat (Z.shiftr (Z.land addr mask) shift) = child_ix d (slot_of G addr).
Proof.
  intros HG [-> ->]. pose proof (geo_rs _ _ HG).
  rewrite extract_bits, slot_of_shift by lia. done.
Qed.

(** ** Trees as maps from slots to region nodes *)

Fixpoint cell (d : nat) (nl : NonLeafNode) (slot : Z) : RegionNode :=
  let 'NLN _ u := nl in
  match d, u with
  | O, URegions a => default zeroRN (a !! leaf_ix slot)
  | S d', UNln a =>
      match a !! child_ix d' slot with
      | Some nl' => cell d' nl' slot
      | None => zeroRN
      end
  | _, _ => zeroRN
  end.

(** The number of registrations a region node carries: one for a region that
    covers the slot, or starts in it, or ends in it; two when one region ends
    and another starts in it. *)
Definition weight (rn : RegionNode) : Z :=
  if highReg rn =? 0 then (if lowReg rn =? 0 then 0 else 1)
  else if lowReg rn =? 0 then 1
  else if lowReg rn =? highReg rn then 1 else 2.

Definition cell_ok (rn : RegionNode) : Prop :=
  (highReg rn = 0 ↔ highAddr rn = 0) ∧ (lowReg rn = 0 ↔ lowAddr rn = 0).

(** The shape the code maintains: an array is present exactly when something is
    registered below it, and a reference count is the number of registrations. *)
Fixpoint wf (d : nat) (nl : NonLeafNode) : Prop :=
  let 'NLN r u := nl in
  match d, u with
  | _, UNull => r = 0
  | O, URegions a =>
      length a = 2048%nat ∧ Forall cell_ok a ∧ r = sum_by weight a ∧ 0 < r
  | S d', UNln a =>
      length a = 4096%nat ∧ Forall (wf d') a ∧ r = sum_by refcount a ∧ 0 < r
  | _, _ => False
  end.

Lemma weight_range rn : 0 ≤ weight rn ≤ 2.
Proof. unfold weight. repeat case_match; lia. Qed.

Lemma weight_zero rn : cell_ok rn → weight rn = 0 → rn = zeroRN.
Proof.
  destruct rn as [la ha lr hr]. unfold cell_ok, weight, zeroRN. simpl.
  intros [H1 H2] E. repeat case_match; try lia.
  apply Z.eqb_eq in H, H0. subst. f_equal; tauto.
Qed.

Lemma wf_refcount d nl : wf d nl → 0 ≤ refcount nl.
Proof. destruct nl as [r u]. destruct d, u; simpl; intuition lia. Qed.

Lemma wf_refcount_bound d nl : wf d nl → refcount nl ≤ 2 * span d.
Proof.
  revert nl. induction d as [|d IH]; intros [r u] Hwf; destruct u as [|a|a]; try done.
  - simpl in *. subst. pose proof (span_pos 0). lia.
  - destruct Hwf as (Hl & _ & -> & _). simpl.
    pose proof (sum_by_le weight a 2) as Hs. rewrite Hl in Hs. rewrite span_0.
    etrans; [apply Hs|lia]. apply Forall_forall. intros x _. pose proof (weight_range x). lia.
  - simpl in *. subst. pose proof (span_pos (S d)). lia.
  - destruct Hwf as (Hl & Ha & -> & _). simpl.
    pose proof (sum_by_le refcount a (2 * span d)) as Hs. rewrite Hl in Hs.
    rewrite span_S. etrans; [apply Hs|lia]. eapply Forall_impl; [|exact Ha]. apply IH.
Qed.

Lemma wf_refcounts d a : Forall (wf d) a → Forall (λ x, 0 ≤ refcount x) a.
Proof. intros H. eapply Forall_impl; [|exact H]. apply wf_refcount. Qed.

Lemma weights_nonneg a : Forall (λ x, 0 ≤ weight x) a.
Proof. apply Forall_forall. intros x _. apply weight_range. Qed.

Lemma wf_zero d nl : wf d nl → refcount nl = 0 → nl = zeroNLN.
Proof.
  destruct nl as [r u]. destruct d, u; simpl; try done; intros H ->;
    first [done|destruct H as (_ & _ & _ & ?); lia].
Qed.

Lemma cell_zero d slot : cell d zeroNLN slot = zeroRN.
Proof. by destruct d. Qed.

Lemma cell_cell_ok d nl slot : wf d nl → cell_ok (cell d nl slot).
Proof.
  revert nl. induction d as [|d IH]; intros [r u] Hwf; destruct u as [|a|a]; try done; simpl.
  - destruct Hwf as (Hl & Ha & _ & _).
    destruct (a !! leaf_ix slot) as [rn|] eqn:E; [|done]. simpl.
    by eapply Forall_lookup_1 in E.
  - destruct Hwf as (Hl & Ha & _ & _).
    destruct (a !! child_ix d slot) as [nl|] eqn:E; [|done].
    apply IH. by eapply Forall_lookup_1 in E.
Qed.

(** An array as the walk finds it: freshly zeroed when the pointer was null. *)
Definition leaf_array (u : nlunion NonLeafNode) : list RegionNode :=
  match u with URegions a => a | _ => replicate 2048 zeroRN end.
Definition child_array (u : nlunion NonLeafNode) : list NonLeafNode :=
  match u with UNln a => a | _ => replicate 4096 zeroNLN end.

Lemma wf_leaf_array r u :
  wf 0 (NLN r u) →
  length (leaf_array u) = 2048%nat ∧ Forall cell_ok (leaf_array u) ∧
  r = sum_by weight (leaf_array u) ∧
  (∀ s, leaf_array u !! leaf_ix s = Some (cell 0 (NLN r u) s)).
Proof.
  destruct u as [|a|a]; cbn [wf leaf_array]; [intros ->|done|intros (Hl & Ha & Hr & _)].
  - split; [apply length_replicate|]. split; [by apply Forall_replicate|].
    rewrite sum_by_replicate. split; [done|].
    intros s. rewrite lookup_replicate_2 by apply leaf_ix_lt. done.
  - repeat split; try done. intros s. simpl.
    destruct (lookup_lt_is_Some_2 a (leaf_ix s)) as [x Hx]; [|by rewrite Hx].
    rewrite Hl. apply leaf_ix_lt.
Qed.

Lemma wf_child_array d r u :
  wf (S d) (NLN r u) →
  length (child_array u) = 4096%nat ∧ Forall (wf d) (child_array u) ∧
  r = sum_by refcount (child_array u) ∧
  (∀ s, ∃ nl, child_array u !! child_ix d s = Some nl ∧
              cell (S d) (NLN r u) s = cell d nl s).
Proof.
  destruct u as [|a|a]; cbn [wf child_array]; [intros ->|intros (Hl & Ha & Hr & _)|done].
  - split; [apply length_replicate|].
    split; [apply Forall_replicate; by destruct d|].
    rewrite sum_by_replicate. split; [done|].
    intros s. exists zeroNLN. rewrite lookup_replicate_2 by apply child_ix_lt.
    split; [done|]. symmetry. apply cell_zero.
  - repeat split; try done. intros s. simpl.
    destruct (lookup_lt_is_Some_2 a (child_ix d s)) as [x Hx]; [|rewrite Hx; eauto].
    rewrite Hl. apply child_ix_lt.
Qed.

Lemma span_bound G d0 d : geometry G d0 → (d ≤ d0)%nat → span d ≤ 2 ^ 59.
Proof.
  intros HG Hd. pose proof (geo_fit _ _ HG). pose proof (geo_rs _ _ HG).
  unfold span. apply Z.pow_le_mono_r; lia.
Qed.

Lemma refcount_u64 G d0 d r u k :
  geometry G d0 → (d ≤ d0)%nat → wf d (NLN r u) → -1 ≤ k ≤ 1 → 0 ≤ r + k →
  u64 (r + k) = r + k.
Proof.
  intros HG Hd Hwf Hk H0. pose proof (wf_refcount_bound _ _ Hwf) as Hb.
  pose proof (span_bound _ _ _ HG Hd). apply u64_small. simpl in Hb. unfold is_u64. lia.
Qed.

(** ** Registration *)

Lemma cell_leaf_insert r r' u s0 rn s :
  wf 0 (NLN r u) →
  cell 0 (NLN r' (URegions (<[leaf_ix s0:=rn]> (leaf_array u)))) s =
  if decide (same_key 0 s s0) then rn else cell 0 (NLN r u) s.
Proof.
  intros Hwf. destruct (wf_leaf_array _ _ Hwf) as (Hl & _ & _ & Hc). cbn [cell].
  case_decide as E; rewrite same_key_0 in E.
  - rewrite E, list_lookup_insert_eq; [done|]. rewrite Hl. apply leaf_ix_lt.
  - rewrite list_lookup_insert_ne by congruence. by rewrite Hc.
Qed.

Lemma cell_child_insert d r r' u s0 nl nl' s (rn : RegionNode) :
  wf (S d) (NLN r u) → child_array u !! child_ix d s0 = Some nl →
  (∀ s, cell d nl' s = if decide (same_key d s s0) then rn else cell d nl s) →
  cell (S d) (NLN r' (UNln (<[child_ix d s0:=nl']> (child_array u)))) s =
  if decide (same_key (S d) s s0) then rn else cell (S d) (NLN r u) s.
Proof.
  intros Hwf Hnl Hc'. destruct (wf_child_array _ _ _ Hwf) as (Hl & _ & _ & Hc).
  destruct (Hc s) as (nls & Es & ->). cbn [cell].
  destruct (decide (child_ix d s = child_ix d s0)) as [E|E].
  - rewrite E, list_lookup_insert_eq by (rewrite Hl; apply child_ix_lt).
    assert (nls = nl) as -> by congruence. rewrite Hc'.
    assert (same_key (S d) s s0 ↔ same_key d s s0) as Hk by (rewrite same_key_S; tauto).
    repeat case_decide; tauto.
  - rewrite list_lookup_insert_ne by congruence. rewrite Es.
    rewrite decide_False; [done|]. rewrite same_key_S. tauto.
Qed.

Lemma set_walk_ok G d0 d mask shift addr upd nl :
  geometry G d0 → (d ≤ d0)%nat → level_ok G d mask shift → wf d nl →
  cell_ok (upd (cell d nl (slot_of G addr))) →
  weight (upd (cell d nl (slot_of G addr))) = weight (cell d nl (slot_of G addr)) + 1 →
  ∃ nl', set_walk G d mask shift addr upd nl = Done nl' ∧ wf d nl' ∧
    refcount nl' = refcount nl + 1 ∧
    ∀ s, cell d nl' s = if decide (same_key d s (slot_of G addr))
                        then upd (cell d nl (slot_of G addr)) else cell d nl s.
Proof.
  intros HG. set (s0 := slot_of G addr).
  revert mask shift nl. induction d as [|d IH]; intros mask shift [r u] Hd Hlev Hwf Hok Hw.
  - destruct (wf_leaf_array _ _ Hwf) as (Hl & Ha & Hr & Hc).
    exists (NLN (r + 1) (URegions (<[leaf_ix s0:=upd (cell 0 (NLN r u) s0)]> (leaf_array u)))).
    split; [|split; [|split; [done|intros s; by apply cell_leaf_insert]]].
    + cbn [set_walk]. rewrite (geo_leafsize _ _ HG).
      replace (match u with UNull => _ | _ => _ end) with (Done (leaf_array u))
        by (by destruct u).
      rewrite (leaf_index_slot _ _ _ HG). fold s0. fold (leaf_ix s0).
      unfold mbind, outcome_bind. rewrite Hc. cbn [orelse].
      rewrite (refcount_u64 _ _ _ _ _ 1 HG Hd Hwf) by (pose proof (wf_refcount _ _ Hwf) as Hrr; simpl in Hrr; lia). done.
    + cbn [wf]. rewrite length_insert. split; [done|].
      split; [by apply Forall_insert|].
      rewrite (sum_by_insert _ _ _ _ _ (Hc s0)).
      pose proof (wf_refcount _ _ Hwf). simpl in *. lia.
  - destruct (wf_child_array _ _ _ Hwf) as (Hl & Ha & Hr & Hc).
    destruct (Hc s0) as (nl & Enl & Ecell). rewrite Ecell in *.
    assert (wf d nl) as Hwfn by (by eapply Forall_lookup_1 in Enl).
    destruct (IH (Z.shiftr mask (NON_LEAF_SHIFT G)) (u64 (shift - NON_LEAF_SHIFT G)) nl)
      as (nl' & E' & Hwf' & Hr' & Hc'); [lia|by eapply level_ok_next|done..|].
    exists (NLN (r + 1) (UNln (<[child_ix d s0:=nl']> (child_array u)))).
    split; [|split; [|split; [done|intros s; by eapply cell_child_insert]]].
    + cbn [set_walk]. rewrite (geo_nonleafsize _ _ HG).
      replace (match u with UNull => _ | _ => _ end) with (Done (child_array u))
        by (by destruct u).
      rewrite (level_index _ _ _ _ _ _ HG Hlev). fold s0.
      unfold mbind, outcome_bind in *. rewrite Enl. cbn [orelse]. rewrite E'.
      rewrite (refcount_u64 _ _ _ _ _ 1 HG Hd Hwf) by (pose proof (wf_refcount _ _ Hwf) as Hrr; simpl in Hrr; lia). done.
    + cbn [wf]. rewrite length_insert. split; [done|].
      split; [by apply Forall_insert|].
      rewrite (sum_by_insert _ _ _ _ _ Enl).
      pose proof (wf_refcount _ _ Hwf). simpl in *. lia.
Qed.

(** ** Deletion *)

(** Dropping an array whose reference count falls to zero loses nothing: every
    entry of it is empty. *)
Lemma shrink_leaf a r :
  length a = 2048%nat → Forall cell_ok a → sum_by weight a = r →
  let nl := NLN r (if r =? 0 then UNull else URegions a) in
  wf 0 nl ∧ ∀ s, cell 0 nl s = cell 0 (NLN r (URegions a)) s.
Proof.
  intros Hl Hok Hs. pose proof (sum_by_nonneg weight a (weights_nonneg _)).
  destruct (Z.eqb_spec r 0) as [E0|]; cbn [wf cell]; [|split; [repeat split; try done; lia|done]].
  split; [done|]. intros s. destruct (a !! leaf_ix s) as [x|] eqn:Ex; [|done]. simpl. symmetry.
  apply weight_zero; [by eapply Forall_lookup_1 in Ex|].
  apply (Forall_lookup_1 (λ x, weight x = 0) a (leaf_ix s)); [|done].
  apply sum_by_zero; [apply weights_nonneg|lia].
Qed.

Lemma shrink_child d a r :
  length a = 4096%nat → Forall (wf d) a → sum_by refcount a = r →
  let nl := NLN r (if r =? 0 then UNull else UNln a) in
  wf (S d) nl ∧ ∀ s, cell (S d) nl s = cell (S d) (NLN r (UNln a)) s.
Proof.
  intros Hl Hok Hs. pose proof (sum_by_nonneg refcount a (wf_refcounts _ _ Hok)).
  destruct (Z.eqb_spec r 0) as [E0|]; cbn [wf cell]; [|split; [repeat split; try done; lia|done]].
  split; [done|]. intros s. destruct (a !! child_ix d s) as [x|] eqn:Ex; [|done].
  rewrite (wf_zero d x); [by rewrite cell_zero|by eapply Forall_lookup_1 in Ex|].
  apply (Forall_lookup_1 (λ x, refcount x = 0) a (child_ix d s)); [|done].
  apply sum_by_zero; [by apply wf_refcounts with d|lia].
Qed.

Lemma recursiveDelete_ok G d0 flag d mask shift addr nl :
  geometry G d0 → (d ≤ d0)%nat → level_ok G d mask shift → wf d nl →
  let rn := cell d nl (slot_of G addr) in
  cell_ok (clear_cell flag rn) → weight (clear_cell flag rn) = weight rn - 1 →
  ∃ nl', recursiveDelete G flag d mask shift addr nl = Done nl' ∧ wf d nl' ∧
    refcount nl' = refcount nl - 1 ∧
    ∀ s, cell d nl' s = if decide (same_key d s (slot_of G addr))
                        then clear_cell flag rn else cell d nl s.
Proof.
  intros HG. set (s0 := slot_of G addr). cbv zeta.
  revert mask shift nl. induction d as [|d IH]; intros mask shift [r u] Hd Hlev Hwf Hok Hw.
  - destruct (wf_leaf_array _ _ Hwf) as (Hl & Ha & Hr & Hc).
    set (rn := cell 0 (NLN r u) s0) in *.
    pose proof (weight_range (clear_cell flag rn)).
    pose proof (sum_by_elem weight _ _ _ (weights_nonneg _) (Hc s0)) as Hle. fold rn in Hle.
    destruct (shrink_leaf (<[leaf_ix s0:=clear_cell flag rn]> (leaf_array u)) (r - 1))
      as [Hwf' Hcell]; [by rewrite length_insert|by apply Forall_insert
      |rewrite (sum_by_insert _ _ _ _ _ (Hc s0)); fold rn; lia|].
    eexists. split; [|split; [exact Hwf'|split; [done|intros s; rewrite Hcell; by apply cell_leaf_insert]]].
    cbn [recursiveDelete].
    replace (match u with UNull => _ | _ => _ end) with (Done (leaf_array u))
      by (destruct u; [simpl in Hwf; lia|done..]).
    rewrite (leaf_index_slot _ _ _ HG). fold s0. fold (leaf_ix s0).
    unfold mbind, outcome_bind. rewrite Hc. cbn [orelse]. fold rn.
    change (r - 1) with (r + -1). by rewrite (refcount_u64 _ _ _ _ _ (-1) HG Hd Hwf) by lia.
  - destruct (wf_child_array _ _ _ Hwf) as (Hl & Ha & Hr & Hc).
    destruct (Hc s0) as (nl & Enl & Ecell). rewrite Ecell in *.
    assert (wf d nl) as Hwfn by (by eapply Forall_lookup_1 in Enl).
    destruct (IH (Z.shiftr mask (NON_LEAF_SHIFT G)) (u64 (shift - NON_LEAF_SHIFT G)) nl)
      as (nl' & E' & Hwf1 & Hr' & Hc'); [lia|by eapply level_ok_next|done..|].
    pose proof (wf_refcount _ _ Hwf1).
    pose proof (sum_by_elem refcount _ _ _ (wf_refcounts _ _ Ha) Enl) as Hle.
    destruct (shrink_child d (<[child_ix d s0:=nl']> (child_array u)) (r - 1))
      as [Hwf' Hcell]; [by rewrite length_insert|by apply Forall_insert
      |rewrite (sum_by_insert _ _ _ _ _ Enl); lia|].
    eexists. split; [|split; [exact Hwf'|split; [done|intros s; rewrite Hcell; by eapply cell_child_insert]]].
    cbn [recursiveDelete].
    replace (match u with UNull => _ | _ => _ end) with (Done (child_array u))
      by (destruct u; [simpl in Hwf; lia|done..]).
    rewrite (level_index _ _ _ _ _ _ HG Hlev). fold s0.
    unfold mbind, outcome_bind in *. rewrite Enl. cbn [orelse]. rewrite E'.
    change (r - 1) with (r + -1). by rewrite (refcount_u64 _ _ _ _ _ (-1) HG Hd Hwf) by lia.
Qed.

(** ** Lookup *)

Lemma getRegion_in_cell G d rt nl addr :
  geometry G d → rt !! 0%nat = Some nl → wf d nl →
  getRegion_in G rt addr = Done (pick_region (cell d nl (slot_of G addr)) addr).
Proof.
  intros HG Hrt Hwf. unfold getRegion_in.
  rewrite (geo_root _ _ HG). change (Z.to_nat 0) with 0%nat. rewrite Hrt. cbn [orelse].
  change (mbind (M:=outcome) ?k (Done ?a)) with (k a). cbv beta.
  assert (∀ d' mask shift nl, (d' ≤ d)%nat → level_ok G d' mask shift → wf d' nl →
    find_leaf G d' mask shift addr nl =
      Done None ∧ cell d' nl (slot_of G addr) = zeroRN ∨
    ∃ a, find_leaf G d' mask shift addr nl = Done (Some a) ∧
         a !! leaf_ix (slot_of G addr) = Some (cell d' nl (slot_of G addr))) as Hfind.
  { clear nl Hrt Hwf. intros d'.
    induction d' as [|d' IH]; intros mask shift [r u] Hd Hlev Hwf; destruct u as [|a|a]; try done.
    - by left.
    - right. exists a. split; [done|]. by apply (wf_leaf_array r (URegions a)).
    - by left.
    - destruct (wf_child_array _ _ _ Hwf) as (_ & Ha & _ & Hc).
      destruct (Hc (slot_of G addr)) as (nl & Enl & ->). cbn [child_array] in *.
      cbn [find_leaf]. rewrite (level_index _ _ _ _ _ _ HG Hlev), Enl. cbn [orelse].
      apply IH; [lia|by eapply level_ok_next|by eapply Forall_lookup_1 in Enl]. }
  rewrite (geo_depth _ _ HG).
  destruct (Hfind d (mask_1 G) (shift_1 G) nl) as [[-> ->]|(a & -> & Ha)];
    [done|by apply level_ok_start|done| |].
  - cbn. unfold pick_region. simpl. by case_match; [|case_match].
  - unfold mbind, outcome_bind. rewrite (leaf_index_slot _ _ _ HG). fold (leaf_ix (slot_of G addr)).
    by rewrite Ha.
Qed.

(** ** Canonicity *)

(** A slot that reaches entry [i] of the leaf below entry path [s]. *)
Lemma leaf_ix_of_nat i : (i < 2048)%nat → leaf_ix (Z.of_nat i) = i.
Proof. intros H. unfold leaf_ix. rewrite Z.mod_small by lia. lia. Qed.

Lemma child_ix_of_nat d i s :
  (i < 4096)%nat → 0 ≤ s < span d →
  child_ix d (s + Z.of_nat i * span d) = i ∧ same_key d (s + Z.of_nat i * span d) s.
Proof.
  intros Hi Hs. unfold child_ix, same_key. pose proof (span_pos d).
  rewrite Z.div_add, Z.div_small, Z.add_0_l, Z.mod_small by lia.
  rewrite Z.mod_add by lia. split; [lia|done].
Qed.

Lemma cell_same_key d nl s s' : same_key d s s' → cell d nl s = cell d nl s'.
Proof.
  revert nl. induction d as [|d IH]; intros [r u] E; destruct u as [|a|a]; try done; cbn [cell].
  - apply same_key_0 in E. by rewrite E.
  - apply same_key_S in E as [-> E]. destruct (a !! _); [|done]. by apply IH.
Qed.

Lemma wf_ext d n1 n2 :
  wf d n1 → wf d n2 → (∀ s, cell d n1 s = cell d n2 s) → n1 = n2.
Proof.
  revert n1 n2. induction d as [|d IH]; intros n1 n2 H1 H2 E.
  - assert (∀ r1 u1 r2 u2, wf 0 (NLN r1 u1) → wf 0 (NLN r2 u2) →
      (∀ s, cell 0 (NLN r1 u1) s = cell 0 (NLN r2 u2) s) →
      leaf_array u1 = leaf_array u2) as Harr.
    { intros r1 u1 r2 u2 W1 W2 Ec.
      destruct (wf_leaf_array _ _ W1) as (L1 & _ & _ & C1).
      destruct (wf_leaf_array _ _ W2) as (L2 & _ & _ & C2).
      apply (list_eq_same_length _ _ 2048%nat); [done..|].
      intros i x y Hi Hx Hy. rewrite <- (leaf_ix_of_nat i Hi), ?C1, ?C2 in Hx, Hy. congruence. }
    destruct n1 as [r1 u1], n2 as [r2 u2]. specialize (Harr _ _ _ _ H1 H2 E).
    pose proof (wf_leaf_array _ _ H1) as (_ & _ & R1 & _).
    pose proof (wf_leaf_array _ _ H2) as (_ & _ & R2 & _).
    assert (r1 = r2) as -> by congruence.
    destruct u1, u2; try done; simpl in *; [destruct H2; lia|destruct H1; lia|congruence].
  - destruct n1 as [r1 u1], n2 as [r2 u2].
    destruct (wf_child_array _ _ _ H1) as (L1 & F1 & R1 & C1).
    destruct (wf_child_array _ _ _ H2) as (L2 & F2 & R2 & C2).
    assert (child_array u1 = child_array u2) as Harr.
    { apply (list_eq_same_length _ _ 4096%nat); [done..|].
      intros i x y Hi Hx Hy.
      apply IH; [by eapply Forall_lookup_1 in Hx|by eapply Forall_lookup_1 in Hy|].
      intros s.
      destruct (child_ix_of_nat d i (s `mod` span d) Hi) as [Ei Ek];
        [apply Z.mod_pos_bound, span_pos|].
      set (s' := s `mod` span d + Z.of_nat i * span d) in *.
      assert (same_key d s s') as Es.
      { unfold same_key in *. rewrite Ek. symmetry. apply Z.mod_mod. pose proof (span_pos d). lia. }
      rewrite !(cell_same_key d _ s s' Es).
      destruct (C1 s') as (x' & Ex & Ec1), (C2 s') as (y' & Ey & Ec2).
      rewrite Ei in Ex, Ey. assert (x' = x) as -> by congruence.
      assert (y' = y) as -> by congruence. rewrite <- Ec1, <- Ec2. apply E. }
    assert (r1 = r2) as -> by congruence.
    destruct u1, u2; try done; simpl in *; [destruct H2; lia|destruct H1; lia|congruence].
Qed.
