(* ===== verification/StructuresIndex.v ===== *)
(** * What the region index promises

    The walks of [StructuresTree] composed over the slots of a region: which
    region nodes [addRegion] writes and [deleteRegion] clears, the invariant
    that ties the tree to the set of live regions, and, from it, exactly which
    addresses [getRegion] resolves. *)
From stdpp Require Import base list gmap numbers.
From S2P Require Import Prelude Structures StructuresTree.

(** ** The part a slot plays for a region *)

Inductive role := Head | Inside | Tail.

#[export] Instance role_eq_dec : EqDecision role.
Proof. solve_decision. Defined.

(** The role of slot [s] for the region [[a, e)] when a slot is [rz] bytes:
    what the three steps of [over_slots] touch. *)
Definition role_of (rz a e s : Z) : option role :=
  if s =? a / rz then (if a `mod` rz =? 0 then None else Some Head)
  else if (a / rz <? s) && (s <? e / rz) then Some Inside
  else if s =? e / rz then (if e `mod` rz =? 0 then None else Some Tail)
  else None.

Definition slot_bytes (G : Globals) : Z := 2 ^ REGION_SHIFT G.

(** A region the index accepts: at least a slot long, as the size threshold of
    the plugins guarantees, and not wrapping around. *)
Definition region_ok (rz a e : Z) : Prop := 0 < a ∧ a + rz ≤ e ∧ e < 2 ^ 64.

(** Slots that agree on everything above the index's reach. *)
Definition window (d : nat) (s : Z) : Z := s / span d.

Lemma window_same_key d s s' :
  window d s = window d s' → same_key d s s' ↔ s = s'.
Proof.
  unfold window, same_key. pose proof (span_pos d). intros E. split; [|by intros ->].
  intros E'. rewrite (Z.div_mod s (span d)), (Z.div_mod s' (span d)) by lia. congruence.
Qed.

Section role_facts.
Context (rz a e s : Z) (Hrz : 0 < rz) (Hok : a + rz ≤ e).

Lemma role_cases :
  match role_of rz a e s with
  | Some Head => s * rz < a < s * rz + rz
  | Some Inside => a < s * rz ∧ s * rz + rz ≤ e
  | Some Tail => s * rz < e < s * rz + rz
  | None => e ≤ s * rz ∨ s * rz + rz ≤ a ∨ a = s * rz
  end.
Proof.
  pose proof (Z.div_mod a rz). pose proof (Z.div_mod e rz).
  pose proof (Z.mod_pos_bound a rz). pose proof (Z.mod_pos_bound e rz).
  unfold role_of.
  destruct (Z.eqb_spec s (a / rz)) as [->|Ha].
  { destruct (Z.eqb_spec (a `mod` rz) 0); nia. }
  destruct (Z.ltb_spec (a / rz) s), (Z.ltb_spec s (e / rz)); cbn [andb]; [nia| | |].
  - destruct (Z.eqb_spec s (e / rz)) as [->|]; [|nia].
    destruct (Z.eqb_spec (e `mod` rz) 0); nia.
  - destruct (Z.eqb_spec s (e / rz)) as [->|]; [|nia].
    destruct (Z.eqb_spec (e `mod` rz) 0); nia.
  - destruct (Z.eqb_spec s (e / rz)) as [->|]; [|nia].
    destruct (Z.eqb_spec (e `mod` rz) 0); nia.
Qed.

Lemma role_slot_range r : role_of rz a e s = Some r → a / rz ≤ s ≤ e / rz.
Proof.
  pose proof (Z.div_le_mono a e rz). unfold role_of.
  repeat case_match; intros; simplify_eq; lia.
Qed.
End role_facts.

Section role_iff.
Context (rz a e s : Z) (Hlt : a / rz < e / rz).

Lemma role_head_iff : role_of rz a e s = Some Head ↔ s = a / rz ∧ a `mod` rz ≠ 0.
Proof.
  unfold role_of. destruct (Z.eqb_spec s (a / rz)), (Z.eqb_spec (a `mod` rz) 0);
    try tauto; repeat case_match; intuition congruence.
Qed.

Lemma role_inside_iff : role_of rz a e s = Some Inside ↔ a / rz + 1 ≤ s < e / rz.
Proof.
  unfold role_of. destruct (Z.eqb_spec s (a / rz)).
  - split; [by case_match|lia].
  - destruct (Z.ltb_spec (a / rz) s), (Z.ltb_spec s (e / rz)); cbn [andb];
      (split; [repeat case_match; first [done|lia]|first [done|lia]]).
Qed.

Lemma role_tail_iff : role_of rz a e s = Some Tail ↔ s = e / rz ∧ e `mod` rz ≠ 0.
Proof.
  unfold role_of. destruct (Z.eqb_spec s (a / rz)).
  - split; [by case_match|lia].
  - destruct (Z.ltb_spec (a / rz) s), (Z.ltb_spec s (e / rz)); cbn [andb];
      destruct (Z.eqb_spec s (e / rz)), (Z.eqb_spec (e `mod` rz) 0); intuition (congruence || lia).
Qed.
End role_iff.

Lemma slot_bounds rz x : 0 < rz → x / rz * rz ≤ x < x / rz * rz + rz.
Proof.
  intros H. pose proof (Z.div_mod x rz). pose proof (Z.mod_pos_bound x rz). lia.
Qed.

(** ** A walk as an operation on one cell *)

Section over_slots.
Context (G : Globals) (d : nat) (HG : geometry G d).

Abbreviation rz := (slot_bytes G).

Definition cell_op (op : Z → list NonLeafNode → outcome (list NonLeafNode))
    (good : RegionNode → Prop) (upd : RegionNode → RegionNode) : Prop :=
  ∀ addr rt nl, rt !! 0%nat = Some nl → wf d nl → good (cell d nl (slot_of G addr)) →
    ∃ nl', op addr rt = Done (<[0%nat:=nl']> rt) ∧ wf d nl' ∧
      ∀ s, cell d nl' s = if decide (same_key d s (slot_of G addr))
                          then upd (cell d nl (slot_of G addr)) else cell d nl s.

Lemma on_root_0 addr walk rt nl nl' :
  rt !! 0%nat = Some nl → walk d (mask_1 G) (shift_1 G) addr nl = Done nl' →
  on_root G addr walk rt = Done (<[0%nat:=nl']> rt).
Proof.
  intros Hrt Hw. unfold on_root.
  rewrite (geo_root _ _ HG), (geo_depth _ _ HG). change (Z.to_nat 0) with 0%nat.
  unfold mbind, outcome_bind. by rewrite Hrt; cbn [orelse]; rewrite Hw.
Qed.

Lemma set_cell_op good upd :
  (∀ rn, cell_ok rn → good rn → cell_ok (upd rn) ∧ weight (upd rn) = weight rn + 1) →
  cell_op (set_cell G upd) good upd.
Proof.
  intros Hupd addr rt nl Hrt Hwf Hgood.
  destruct (Hupd _ (cell_cell_ok _ _ (slot_of G addr) Hwf) Hgood) as [Hok Hw].
  destruct (set_walk_ok G d d _ _ addr upd nl HG (le_n _) (level_ok_start _ _ HG) Hwf Hok Hw)
    as (nl' & E & Hwf' & _ & Hc).
  exists nl'. split; [|done]. by eapply on_root_0.
Qed.

Lemma del_cell_op flag good :
  (∀ rn, cell_ok rn → good rn →
     cell_ok (clear_cell flag rn) ∧ weight (clear_cell flag rn) = weight rn - 1) →
  cell_op (del_cell G flag) good (clear_cell flag).
Proof.
  intros Hupd addr rt nl Hrt Hwf Hgood.
  destruct (Hupd _ (cell_cell_ok _ _ (slot_of G addr) Hwf) Hgood) as [Hok Hw].
  destruct (recursiveDelete_ok G d flag d _ _ addr nl HG (le_n _) (level_ok_start _ _ HG) Hwf Hok Hw)
    as (nl' & E & Hwf' & _ & Hc).
  exists nl'. split; [|done]. by eapply on_root_0.
Qed.

Lemma slot_bytes_pos : 0 < rz.
Proof. unfold slot_bytes. pose proof (geo_rs _ _ HG). lia. Qed.

Lemma shl_slot : shl64 1 (REGION_SHIFT G) = rz.
Proof.
  unfold shl64, slot_bytes. pose proof (geo_rs _ _ HG). pose proof (geo_fit _ _ HG).
  rewrite Z.shiftl_mul_pow2, Z.mul_1_l by lia. apply u64_small. split; [lia|].
  apply Z.pow_lt_mono_r; lia.
Qed.

Lemma low_mask : region_low_mask G = rz - 1.
Proof.
  unfold region_low_mask. rewrite shl_slot. apply u64_small.
  pose proof slot_bytes_pos. pose proof (u64_range (Z.shiftl 1 (REGION_SHIFT G))) as Hr.
  fold (shl64 1 (REGION_SHIFT G)) in Hr. rewrite shl_slot in Hr. unfold is_u64 in *. lia.
Qed.

Lemma floor_slot x : is_u64 x → Z.land x (not64 (region_low_mask G)) = x - x `mod` rz.
Proof.
  intros Hx. rewrite low_mask. pose proof (geo_rs _ _ HG). pose proof (geo_fit _ _ HG).
  apply land_not64_low; [lia|done].
Qed.

Lemma slot_of_mul k : slot_of G (k * rz) = k.
Proof. unfold slot_of. fold rz. apply Z.div_mul. pose proof slot_bytes_pos. lia. Qed.

(** The loop over the slots inside a region. *)
Lemma slots_loop_ok op good upd w hi n k fuel rt nl :
  cell_op op good upd →
  (Z.to_nat (hi - k) = n) → k ≤ hi → 0 ≤ k → hi * rz < 2 ^ 64 → (n ≤ fuel)%nat →
  (∀ s, k ≤ s < hi → window d s = w) →
  rt !! 0%nat = Some nl → wf d nl → (∀ s, k ≤ s < hi → good (cell d nl s)) →
  ∃ nl', slots_loop G fuel (hi * rz) op (k * rz) rt = Done (hi * rz, <[0%nat:=nl']> rt) ∧
    wf d nl' ∧
    ∀ s, window d s = w →
      cell d nl' s = if decide (k ≤ s < hi) then upd (cell d nl s) else cell d nl s.
Proof.
  intros Hop. pose proof slot_bytes_pos as Hrz.
  revert k fuel rt nl. induction n as [|n IH]; intros k fuel rt nl Hn Hk Hk0 Hhi Hf Hw Hrt Hwf Hgood.
  - exists nl. assert (k = hi) as -> by lia.
    split; [|split; [done|intros s _; by rewrite decide_False by lia]].
    rewrite list_insert_id by done.
    destruct fuel; cbn [slots_loop]; by rewrite Z.ltb_irrefl.
  - destruct fuel as [|fuel]; [lia|].
    destruct (Hop (k * rz) rt nl Hrt Hwf) as (nl1 & E1 & Hwf1 & Hc1);
      [rewrite slot_of_mul; apply Hgood; lia|].
    rewrite slot_of_mul in Hc1.
    assert (∀ s, window d s = w → same_key d s k ↔ s = k) as Hkey.
    { intros s Hs. apply window_same_key. rewrite Hs. symmetry. apply Hw. lia. }
    destruct (IH (k + 1) fuel (<[0%nat:=nl1]> rt) nl1) as (nl2 & E2 & Hwf2 & Hc2).
    { lia. } { lia. } { lia. } { done. } { lia. }
    { intros s Hs. apply Hw. lia. }
    { apply list_lookup_insert_eq. by apply lookup_lt_Some in Hrt. } { done. }
    { intros s Hs. rewrite Hc1, decide_False; [apply Hgood; lia|].
      rewrite Hkey by (apply Hw; lia). lia. }
    exists nl2. split; [|split; [done|]].
    + cbn [slots_loop]. rewrite (proj2 (Z.ltb_lt _ _)) by nia.
      unfold mbind, outcome_bind. rewrite E1, shl_slot, u64_small by (unfold is_u64; nia).
      replace (k * rz + rz) with ((k + 1) * rz) by lia. rewrite E2.
      by rewrite list_insert_insert_eq.
    + intros s Hs. rewrite (Hc2 s Hs), Hc1. pose proof (Hkey s Hs) as Hks.
      destruct (decide (s = k)) as [->|Hne].
      * rewrite decide_False by lia. rewrite decide_True by tauto. by rewrite decide_True by lia.
      * rewrite (decide_False (P := same_key d s k)) by tauto.
        destruct (decide (k + 1 ≤ s < hi)); [by rewrite decide_True by lia|].
        by rewrite decide_False by lia.
Qed.

Lemma window_between w lo hi s :
  window d lo = w → window d hi = w → lo ≤ s ≤ hi → window d s = w.
Proof.
  unfold window. pose proof (span_pos d). intros H1 H2 Hs.
  pose proof (Z.div_le_mono lo s (span d)). pose proof (Z.div_le_mono s hi (span d)). lia.
Qed.

(** A slot that plays a role for a region lies in the region's window. *)
Lemma role_window w a e s r :
  a + rz ≤ e → window d (a / rz) = w → window d ((e - 1) / rz) = w →
  role_of rz a e s = Some r → window d s = w.
Proof.
  intros Hae Ha He Hr. pose proof slot_bytes_pos as Hrz.
  eapply window_between; [exact Ha|exact He|].
  pose proof (role_slot_range _ _ _ _ Hrz Hae _ Hr) as [H1 H2]. split; [done|].
  pose proof (role_cases rz a e s Hrz Hae) as Hc. rewrite Hr in Hc.
  apply Z.div_le_lower_bound; [done|]. destruct r; lia.
Qed.

Section steps.
Context (op : role → Z → list NonLeafNode → outcome (list NonLeafNode)).
Context (good : role → RegionNode → Prop) (upd : role → RegionNode → RegionNode).
Context (Hop : ∀ r, cell_op (op r) (good r) (upd r)).
Context (w a e : Z) (Hok : region_ok rz a e).
Context (Hwa : window d (a / rz) = w) (Hwe : window d ((e - 1) / rz) = w).

(** The cells of a tree after the slots that play one of [rs] were updated. *)
Definition updated (rs : list role) (nl nl' : NonLeafNode) : Prop :=
  ∀ s, window d s = w →
    cell d nl' s = match role_of rz a e s with
                   | Some r => if decide (r ∈ rs) then upd r (cell d nl s) else cell d nl s
                   | None => cell d nl s
                   end.

Lemma region_slots_lt : a / rz < e / rz.
Proof.
  destruct Hok as (? & ? & ?). pose proof slot_bytes_pos as Hrz.
  pose proof (slot_bounds rz a Hrz). pose proof (slot_bounds rz e Hrz). nia.
Qed.

Lemma region_role_window s r : role_of rz a e s = Some r → window d s = w.
Proof. destruct Hok as (_ & ? & _). by apply role_window. Qed.

(** One walk at a slot that plays role [r], in a tree where that slot has
    not been updated yet. *)
Lemma one_slot_step r rs addr s0 rt nl nl1 :
  slot_of G addr = s0 → role_of rz a e s0 = Some r →
  (∀ s, role_of rz a e s = Some r → s = s0) → r ∉ rs →
  rt !! 0%nat = Some nl1 → wf d nl1 → updated rs nl nl1 → good r (cell d nl s0) →
  ∃ nl2, op r addr rt = Done (<[0%nat:=nl2]> rt) ∧ wf d nl2 ∧ updated (r :: rs) nl nl2.
Proof.
  intros Hs0 Hr Huniq Hrs Hrt Hwf Hupd Hgood.
  pose proof (region_role_window _ _ Hr) as Hw0.
  assert (cell d nl1 s0 = cell d nl s0) as Hcell.
  { rewrite (Hupd s0 Hw0), Hr. by rewrite decide_False. }
  destruct (Hop r addr rt nl1 Hrt Hwf) as (nl2 & E & Hwf2 & Hc);
    [by rewrite Hs0, Hcell|]. rewrite Hs0, Hcell in Hc.
  exists nl2. split; [done|]. split; [done|]. intros s Hs. rewrite Hc.
  destruct (decide (same_key d s s0)) as [Es|Es].
  - apply window_same_key in Es as ->; [|congruence]. rewrite Hr, decide_True by set_solver. done.
  - rewrite (Hupd s Hs). destruct (role_of rz a e s) as [r'|] eqn:Hr'; [|done].
    assert (r' ≠ r) by (intros ->; apply Es; by rewrite (Huniq _ Hr')).
    destruct (decide (r' ∈ rs)); [by rewrite decide_True by set_solver|].
    by rewrite decide_False by set_solver.
Qed.

Lemma head_step rt nl :
  rt !! 0%nat = Some nl → wf d nl →
  (∀ s r, role_of rz a e s = Some r → good r (cell d nl s)) →
  ∃ nl1, (if Z.land a (region_low_mask G) =? 0 then Done rt else op Head a rt)
           = Done (<[0%nat:=nl1]> rt) ∧ wf d nl1 ∧ updated [Head] nl nl1.
Proof.
  intros Hrt Hwf Hgood. rewrite low_mask. unfold slot_bytes at 1.
  rewrite land_low by apply (geo_rs _ _ HG). fold rz.
  destruct (Z.eqb_spec (a `mod` rz) 0) as [Hm|Hm].
  - exists nl. rewrite list_insert_id by done. split; [done|]. split; [done|].
    intros s _. destruct (role_of rz a e s) as [r|] eqn:Hr; [|done].
    rewrite decide_False; [done|]. intros ->%list_elem_of_singleton.
    by apply role_head_iff in Hr as [_ ?].
  - assert (role_of rz a e (a / rz) = Some Head) as Hr by (by apply role_head_iff).
    apply (one_slot_step Head [] a (a / rz) rt nl nl); try done.
    + intros s Hs. by apply role_head_iff in Hs as [-> _].
    + set_solver.
    + intros s _. by destruct (role_of rz a e s).
    + by apply Hgood.
Qed.

Lemma inside_step rt nl nl1 :
  rt !! 0%nat = Some nl1 → wf d nl1 → updated [Head] nl nl1 →
  (∀ s r, role_of rz a e s = Some r → good r (cell d nl s)) →
  let lo := (a / rz + 1) * rz in
  let hi := e / rz * rz in
  ∃ nl2, slots_loop G (slots_fuel G lo hi) hi (op Inside) lo rt
           = Done (hi, <[0%nat:=nl2]> rt) ∧ wf d nl2 ∧ updated [Inside; Head] nl nl2.
Proof.
  intros Hrt Hwf Hupd Hgood lo hi. pose proof region_slots_lt as Hlt.
  pose proof slot_bytes_pos as Hrz. destruct Hok as (Ha0 & Hae & He).
  pose proof (slot_bounds rz e Hrz).
  assert (∀ s, a / rz + 1 ≤ s < e / rz → cell d nl1 s = cell d nl s) as Hsame.
  { intros s Hs%role_inside_iff. rewrite Hupd by (by eapply region_role_window).
    by rewrite Hs, decide_False by set_solver. }
  destruct (slots_loop_ok (op Inside) (good Inside) (upd Inside) w (e / rz)
    (Z.to_nat (e / rz - (a / rz + 1))) (a / rz + 1) (slots_fuel G lo hi) rt nl1)
    as (nl2 & E2 & Hwf2 & Hc2); try done.
  { lia. } { pose proof (Z.div_pos a rz). lia. } { lia. }
  { unfold slots_fuel, lo, hi. fold rz. rewrite <- Z.mul_sub_distr_r, Z.div_mul by lia. lia. }
  { intros s Hs%role_inside_iff. by eapply region_role_window. }
  { intros s Hs. rewrite Hsame by done. apply role_inside_iff in Hs. by apply Hgood. }
  exists nl2. split; [done|]. split; [done|]. intros s Hs. rewrite (Hc2 s Hs).
  case_decide as Hin.
  - rewrite (Hsame s Hin). apply role_inside_iff in Hin as ->. by rewrite decide_True by set_solver.
  - rewrite (Hupd s Hs). destruct (role_of rz a e s) as [r|] eqn:Hr; [|done].
    assert (r ≠ Inside) by (intros ->; by apply role_inside_iff in Hr).
    destruct (decide (r ∈ [Head])); [by rewrite decide_True by set_solver|].
    by rewrite decide_False by set_solver.
Qed.

Lemma tail_step rt nl nl1 :
  rt !! 0%nat = Some nl1 → wf d nl1 → updated [Inside; Head] nl nl1 →
  (∀ s r, role_of rz a e s = Some r → good r (cell d nl s)) →
  ∃ nl2, (if e / rz * rz =? e then Done rt else op Tail (e / rz * rz) rt)
           = Done (<[0%nat:=nl2]> rt) ∧ wf d nl2 ∧ updated [Tail; Inside; Head] nl nl2.
Proof.
  intros Hrt Hwf Hupd Hgood. pose proof region_slots_lt as Hlt.
  pose proof slot_bytes_pos as Hrz. pose proof (Z.div_mod e rz).
  destruct (Z.eqb_spec (e / rz * rz) e) as [He|He].
  - exists nl1. rewrite list_insert_id by done. split; [done|]. split; [done|].
    intros s Hs. rewrite (Hupd s Hs). destruct (role_of rz a e s) as [r|] eqn:Hr; [|done].
    assert (r ≠ Tail) by (intros ->; apply role_tail_iff in Hr as [_ Hne]; [apply Hne; nia|done]).
    destruct (decide (r ∈ [Inside; Head])); [by rewrite decide_True by set_solver|].
    by rewrite decide_False by set_solver.
  - assert (role_of rz a e (e / rz) = Some Tail) as Hr
      by (apply role_tail_iff; [done|split; [done|nia]]).
    apply (one_slot_step Tail [Inside; Head] _ (e / rz) rt nl nl1); try done.
    + by apply slot_of_mul.
    + intros s Hs. by apply role_tail_iff in Hs as [-> _].
    + set_solver.
    + by apply Hgood.
Qed.

(** [over_slots] as an update of every cell that plays a role. *)
Lemma over_slots_ok rt nl :
  rt !! 0%nat = Some nl → wf d nl →
  (∀ s r, role_of rz a e s = Some r → good r (cell d nl s)) →
  ∃ nl', over_slots G (op Head) (op Inside) (op Tail) a e rt = Done (<[0%nat:=nl']> rt) ∧
    wf d nl' ∧
    ∀ s, window d s = w →
      cell d nl' s = match role_of rz a e s with
                     | Some r => upd r (cell d nl s)
                     | None => cell d nl s
                     end.
Proof.
  intros Hrt Hwf Hgood. pose proof slot_bytes_pos as Hrz. pose proof Hok as (Ha0 & Hae & He).
  assert (∀ nl, <[0%nat:=nl]> rt !! 0%nat = Some nl) as Hrt'.
  { intros. apply list_lookup_insert_eq. by apply lookup_lt_Some in Hrt. }
  destruct (head_step _ _ Hrt Hwf Hgood) as (nl1 & E1 & Hwf1 & Hu1).
  destruct (inside_step _ _ _ (Hrt' _) Hwf1 Hu1 Hgood) as (nl2 & E2 & Hwf2 & Hu2).
  rewrite list_insert_insert_eq in E2.
  destruct (tail_step _ _ _ (Hrt' _) Hwf2 Hu2 Hgood) as (nl3 & E3 & Hwf3 & Hu3).
  rewrite list_insert_insert_eq in E3.
  exists nl3. split; [|split; [done|]].
  - unfold over_slots, mbind, outcome_bind. rewrite E1.
    rewrite !floor_slot by (unfold is_u64; lia).
    pose proof (Z.div_mod a rz). pose proof (Z.div_mod e rz).
    pose proof (Z.mod_pos_bound a rz).
    rewrite shl_slot, u64_small by (unfold is_u64; lia).
    replace (a - a `mod` rz + rz) with ((a / rz + 1) * rz) by lia.
    replace (e - e `mod` rz) with (e / rz * rz) by lia.
    by rewrite E2.
  - intros s Hs. rewrite (Hu3 s Hs). destruct (role_of rz a e s) as [[]|]; [..|done];
      by rewrite decide_True by set_solver.
Qed.
End steps.
End over_slots.

(** ** Registering and clearing the cells of a region *)

Definition register_op (G : Globals) (a e p : Z) (r : role) :=
  set_cell G (match r with
              | Head => set_high a p
              | Inside => set_both a e p
              | Tail => set_low e p
              end).

(** What registration requires of the cell it writes. *)
Definition register_good (p : Z) (r : role) (rn : RegionNode) : Prop :=
  match r with
  | Head => highReg rn = 0 ∧ lowReg rn ≠ p
  | Inside => highReg rn = 0 ∧ lowReg rn = 0
  | Tail => lowReg rn = 0 ∧ highReg rn ≠ p
  end.

Definition role_flag (r : role) : Z :=
  match r with Head => 1 | Inside => 3 | Tail => 2 end.

(** What deletion requires of the cell it clears. *)
Definition delete_good (r : role) (rn : RegionNode) : Prop :=
  match r with
  | Head => highReg rn ≠ 0 ∧ lowReg rn ≠ highReg rn
  | Inside => highReg rn ≠ 0 ∧ lowReg rn = highReg rn
  | Tail => lowReg rn ≠ 0 ∧ lowReg rn ≠ highReg rn
  end.

Ltac cell_cases :=
  repeat match goal with
  | rn : RegionNode |- _ => destruct rn
  end;
  unfold cell_ok, weight, set_high, set_low, set_both, clear_cell in *; simpl in *;
  repeat match goal with
  | |- context [?x =? ?y] => destruct (Z.eqb_spec x y)
  end; intuition (congruence || lia).

Lemma register_cell_op G d a e p r :
  geometry G d → 0 < a → 0 < e → p ≠ 0 →
  cell_op G d (register_op G a e p r) (register_good p r)
    (match r with Head => set_high a p | Inside => set_both a e p | Tail => set_low e p end).
Proof.
  intros HG Ha He Hp. apply set_cell_op; [done|].
  intros rn Hok Hgood. destruct r; cell_cases.
Qed.

Lemma delete_cell_op G d r :
  geometry G d → cell_op G d (del_cell G (role_flag r)) (delete_good r) (clear_cell (role_flag r)).
Proof.
  intros HG. apply del_cell_op; [done|]. intros rn Hok Hgood. destruct r; cell_cases.
Qed.

(** ** The invariant between the tree and the live regions *)

(** A region node has two sides: the region that runs from [highAddr] to the
    end of the slot, and the one that runs from its start to [lowAddr]. *)
Inductive side := High | Low.

Definition side_reg (sd : side) (rn : RegionNode) : Z :=
  match sd with High => highReg rn | Low => lowReg rn end.
Definition side_addr (sd : side) (rn : RegionNode) : Z :=
  match sd with High => highAddr rn | Low => lowAddr rn end.
Definition side_edge (sd : side) (a e : Z) : Z :=
  match sd with High => a | Low => e end.
(** Whether a slot with this role is registered on this side. *)
Definition on_side (sd : side) (o : option role) : bool :=
  match sd, o with
  | _, Some Inside | High, Some Head | Low, Some Tail => true
  | _, _ => false
  end.

Lemma on_side_role sd o : on_side sd o = true → ∃ r, o = Some r.
Proof. destruct o; [eauto|by destruct sd]. Qed.

Definition in_window (G : Globals) (d : nat) (w a e : Z) : Prop :=
  window d (a / slot_bytes G) = w ∧ window d ((e - 1) / slot_bytes G) = w.

(** The live regions, by region pointer, with the addresses they span. *)
Abbreviation live_regions := (gmap Z (Z * Z)).

Record regions_ok (G : Globals) (d : nat) (w : Z) (L : live_regions) : Prop := {
  ro_each : ∀ p a e, L !! p = Some (a, e) →
    p ≠ 0 ∧ region_ok (slot_bytes G) a e ∧ in_window G d w a e;
  ro_disjoint : ∀ p q a e a' e', L !! p = Some (a, e) → L !! q = Some (a', e') →
    p ≠ q → e ≤ a' ∨ e' ≤ a
}.

Record tree_inv (G : Globals) (d : nat) (w : Z) (nl : NonLeafNode) (L : live_regions) : Prop := {
  ti_wf : wf d nl;
  ti_regions : regions_ok G d w L;
  ti_side : ∀ sd s p a e, L !! p = Some (a, e) →
    on_side sd (role_of (slot_bytes G) a e s) = true →
    side_reg sd (cell d nl s) = p ∧ side_addr sd (cell d nl s) = side_edge sd a e;
  ti_inv : ∀ sd s, window d s = w → side_reg sd (cell d nl s) ≠ 0 →
    ∃ a e, L !! side_reg sd (cell d nl s) = Some (a, e) ∧
           on_side sd (role_of (slot_bytes G) a e s) = true
}.
Arguments ti_wf {G d w nl L}.
Arguments ti_regions {G d w nl L}.
Arguments ti_side {G d w nl L}.
Arguments ti_inv {G d w nl L}.
Arguments ro_each {G d w L}.
Arguments ro_disjoint {G d w L}.

Section index.
Context (G : Globals) (d : nat) (HG : geometry G d) (w : Z).
Abbreviation rz := (slot_bytes G).

(** Two disjoint regions are never on the same side of a slot. *)
Lemma on_side_unique sd a e a' e' s :
  a + rz ≤ e → a' + rz ≤ e' → e ≤ a' ∨ e' ≤ a →
  on_side sd (role_of rz a e s) = true → on_side sd (role_of rz a' e' s) = true → False.
Proof.
  intros H1 H2 Hd. pose proof (slot_bytes_pos G d HG) as Hrz.
  pose proof (role_cases rz a e s Hrz H1) as C. pose proof (role_cases rz a' e' s Hrz H2) as C'.
  destruct sd, (role_of rz a e s) as [[]|], (role_of rz a' e' s) as [[]|]; simpl; try done; lia.
Qed.

Lemma live_role_window L p a e s r :
  regions_ok G d w L → L !! p = Some (a, e) → role_of rz a e s = Some r → window d s = w.
Proof.
  intros HL Hp Hr. destruct (ro_each HL _ _ _ Hp) as (_ & (_ & ? & _) & [? ?]).
  by eapply role_window.
Qed.

(** *** The tree is determined by the set of live regions *)

Lemma tree_inv_side nl nl' L sd s :
  tree_inv G d w nl L → tree_inv G d w nl' L → window d s = w →
  side_reg sd (cell d nl s) ≠ 0 →
  side_reg sd (cell d nl s) = side_reg sd (cell d nl' s) ∧
  side_addr sd (cell d nl s) = side_addr sd (cell d nl' s).
Proof.
  intros H1 H2 Hs Hne. destruct (ti_inv H1 sd s Hs Hne) as (a & e & HL & Hr).
  destruct (ti_side H1 sd s _ a e HL Hr), (ti_side H2 sd s _ a e HL Hr). split; congruence.
Qed.

Lemma tree_inv_side_eq nl nl' L sd s :
  tree_inv G d w nl L → tree_inv G d w nl' L → window d s = w →
  side_reg sd (cell d nl s) = side_reg sd (cell d nl' s) ∧
  side_addr sd (cell d nl s) = side_addr sd (cell d nl' s).
Proof.
  intros H1 H2 Hs.
  destruct (decide (side_reg sd (cell d nl s) = 0)) as [E|E]; [|by eapply tree_inv_side].
  destruct (decide (side_reg sd (cell d nl' s) = 0)) as [E'|E'].
  - pose proof (cell_cell_ok d nl s (ti_wf H1)) as [Kh Kl].
    pose proof (cell_cell_ok d nl' s (ti_wf H2)) as [Kh' Kl'].
    destruct sd; simpl in *; intuition congruence.
  - destruct (tree_inv_side nl' nl L sd s H2 H1 Hs E'). split; congruence.
Qed.

Lemma window_representative s : ∃ s', window d s' = w ∧ same_key d s s'.
Proof.
  exists (s `mod` span d + w * span d). pose proof (span_pos d) as Hp.
  unfold window, same_key. rewrite Z.div_add, Z.mod_add, Z.mod_mod by lia.
  rewrite Z.div_small by (by apply Z.mod_pos_bound). split; [lia|done].
Qed.

Lemma tree_inv_unique nl nl' L :
  tree_inv G d w nl L → tree_inv G d w nl' L → nl = nl'.
Proof.
  intros H1 H2. apply (wf_ext d); [apply (ti_wf H1)|apply (ti_wf H2)|].
  intros s. destruct (window_representative s) as (s' & Hs' & Hk).
  rewrite !(cell_same_key d _ _ _ Hk).
  destruct (tree_inv_side_eq nl nl' L High s' H1 H2 Hs') as [E1 E2].
  destruct (tree_inv_side_eq nl nl' L Low s' H1 H2 Hs') as [E3 E4].
  destruct (cell d nl s'), (cell d nl' s'); simpl in *; congruence.
Qed.

(** *** Preservation *)

Lemma tree_inv_empty : tree_inv G d w zeroNLN ∅.
Proof.
  split; [by destruct d|by split| |].
  - intros sd s p a e. by rewrite lookup_empty.
  - intros sd s _. rewrite cell_zero. by destruct sd.
Qed.

(** A region that may be added to the live ones. *)
Definition addable (L : live_regions) (p a e : Z) : Prop :=
  p ≠ 0 ∧ L !! p = None ∧ region_ok rz a e ∧ in_window G d w a e ∧
  ∀ q a' e', L !! q = Some (a', e') → e ≤ a' ∨ e' ≤ a.

Lemma regions_ok_add L p a e :
  regions_ok G d w L → addable L p a e → regions_ok G d w (<[p:=(a, e)]> L).
Proof.
  intros [He Hd] (Hp & HLp & Hok & Hw & Hdis). split.
  - intros q a' e' [[<- [= <- <-]]|[Hne Hq]]%lookup_insert_Some; [done|by eapply He].
  - intros q q' a1 e1 a2 e2 [[<- [= <- <-]]|[Hne1 Hq]]%lookup_insert_Some
      [[<- [= <- <-]]|[Hne2 Hq']]%lookup_insert_Some Hne; [done|by eapply Hdis| |by eapply Hd].
    specialize (Hdis _ _ _ Hq). tauto.
Qed.

Lemma regions_ok_delete L p : regions_ok G d w L → regions_ok G d w (delete p L).
Proof.
  intros [He Hd]. split.
  - intros q a e [_ Hq]%lookup_delete_Some. by eapply He.
  - intros q q' a e a' e' [_ Hq]%lookup_delete_Some [_ Hq']%lookup_delete_Some. by eapply Hd.
Qed.

(** The cells a new region is written to are free on the sides it needs. *)
Lemma addable_side nl L p a e sd s :
  tree_inv G d w nl L → addable L p a e → window d s = w →
  (on_side sd (role_of rz a e s) = true → side_reg sd (cell d nl s) = 0) ∧
  side_reg sd (cell d nl s) ≠ p.
Proof.
  intros HI (Hp & HLp & (_ & Hae & _) & Hw & Hdis) Hs. split.
  - intros Hr. destruct (decide (side_reg sd (cell d nl s) = 0)) as [|Hne]; [done|exfalso].
    destruct (ti_inv HI sd s Hs Hne) as (a' & e' & HL & Hr').
    destruct (ro_each (ti_regions HI) _ _ _ HL) as (_ & (_ & Hae' & _) & _).
    by eapply (on_side_unique sd a e a' e' s); eauto.
  - intros E. destruct (ti_inv HI sd s Hs) as (a' & e' & HL & _); congruence.
Qed.

Definition register_upd (p a e : Z) (r : role) : RegionNode → RegionNode :=
  match r with Head => set_high a p | Inside => set_both a e p | Tail => set_low e p end.

Lemma register_upd_side p a e r rn sd :
  (if on_side sd (Some r)
   then side_reg sd (register_upd p a e r rn) = p ∧
        side_addr sd (register_upd p a e r rn) = side_edge sd a e
   else side_reg sd (register_upd p a e r rn) = side_reg sd rn ∧
        side_addr sd (register_upd p a e r rn) = side_addr sd rn).
Proof. by destruct r, sd. Qed.

Lemma register_range_ok rt nl L p a e :
  rt !! 0%nat = Some nl → tree_inv G d w nl L → addable L p a e →
  ∃ nl', register_range G a e p rt = Done (<[0%nat:=nl']> rt) ∧
         tree_inv G d w nl' (<[p:=(a, e)]> L).
Proof.
  intros Hrt HI Hadd. pose proof Hadd as (Hp & HLp & Hok & [Hwa Hwe] & Hdis).
  pose proof Hok as (Ha & Hae & He). pose proof (slot_bytes_pos G d HG) as Hrz.
  assert (∀ s r, role_of rz a e s = Some r → window d s = w) as Hrw
    by (intros; by eapply role_window).
  destruct (over_slots_ok G d HG (register_op G a e p) (register_good p) (register_upd p a e)
    ltac:(intros r; apply register_cell_op; [done|lia|lia|done]) w a e Hok Hwa Hwe rt nl Hrt
    (ti_wf HI)) as (nl' & E & Hwf' & Hc).
  { intros s r Hr. pose proof (Hrw s r Hr) as Hs.
    destruct (addable_side nl L p a e High s HI Hadd Hs) as [Hh Hhp].
    destruct (addable_side nl L p a e Low s HI Hadd Hs) as [Hl Hlp].
    rewrite Hr in *. destruct r; simpl in *; auto. }
  exists nl'. split; [exact E|].
  split; [done|by apply regions_ok_add; [apply (ti_regions HI)|]| |].
  - intros sd s q a' e' [[<- [= <- <-]]|[Hne HL]]%lookup_insert_Some Hr.
    + destruct (on_side_role _ _ Hr) as [r Er].
      rewrite Hc, Er by (by eapply Hrw). rewrite Er in Hr.
      pose proof (register_upd_side p a e r (cell d nl s) sd) as Hu. by rewrite Hr in Hu.
    + destruct (on_side_role _ _ Hr) as [r' Er'].
      rewrite Hc by (by eapply live_role_window; [apply (ti_regions HI)|..]).
      destruct (ti_side HI sd s q a' e' HL Hr) as [<- <-].
      destruct (role_of rz a e s) as [r|] eqn:Er; [|done].
      pose proof (register_upd_side p a e r (cell d nl s) sd) as Hu.
      destruct (on_side sd (Some r)) eqn:Hsd; [exfalso|done].
      destruct (ro_each (ti_regions HI) _ _ _ HL) as (_ & (_ & Hae' & _) & _).
      eapply (on_side_unique sd a e a' e' s); eauto. by rewrite Er.
  - intros sd s Hs. rewrite (Hc s Hs).
    assert (side_reg sd (cell d nl s) ≠ 0 →
      ∃ a' e', <[p:=(a, e)]> L !! side_reg sd (cell d nl s) = Some (a', e') ∧
               on_side sd (role_of rz a' e' s) = true) as Hold.
    { intros Hne. destruct (ti_inv HI sd s Hs Hne) as (a' & e' & HL & Hr').
      exists a', e'. rewrite lookup_insert_ne; [done|congruence]. }
    destruct (role_of rz a e s) as [r|] eqn:Er; [|done].
    pose proof (register_upd_side p a e r (cell d nl s) sd) as Hu.
    destruct (on_side sd (Some r)) eqn:Hsd; destruct Hu as [-> _]; [|done].
    intros _. exists a, e. by rewrite lookup_insert_eq, Er.
Qed.

Lemma clear_side r rn sd :
  (if on_side sd (Some r)
   then side_reg sd (clear_cell (role_flag r) rn) = 0
   else side_reg sd (clear_cell (role_flag r) rn) = side_reg sd rn ∧
        side_addr sd (clear_cell (role_flag r) rn) = side_addr sd rn).
Proof. by destruct r, sd. Qed.

Lemma unregister_range_ok rt nl L p a e :
  rt !! 0%nat = Some nl → tree_inv G d w nl L → L !! p = Some (a, e) →
  ∃ nl', unregister_range G a e rt = Done (<[0%nat:=nl']> rt) ∧
         tree_inv G d w nl' (delete p L).
Proof.
  intros Hrt HI HLp. destruct (ro_each (ti_regions HI) _ _ _ HLp) as (Hp & Hok & [Hwa Hwe]).
  pose proof Hok as (Ha & Hae & He).
  assert (∀ s r, role_of rz a e s = Some r → window d s = w) as Hrw
    by (intros; by eapply role_window).
  assert (∀ sd s, window d s = w → side_reg sd (cell d nl s) = p →
            on_side sd (role_of rz a e s) = true) as Hback.
  { intros sd s Hs E. destruct (ti_inv HI sd s Hs) as (a' & e' & HL & Hr); [congruence|].
    rewrite E in HL. by simplify_eq. }
  destruct (over_slots_ok G d HG (λ r, del_cell G (role_flag r)) delete_good
    (λ r, clear_cell (role_flag r)) ltac:(intros r; by apply delete_cell_op)
    w a e Hok Hwa Hwe rt nl Hrt (ti_wf HI)) as (nl' & E & Hwf' & Hc).
  { intros s r Hr. pose proof (Hrw s r Hr) as Hs.
    pose proof (ti_side HI High s p a e HLp) as Hh. pose proof (ti_side HI Low s p a e HLp) as Hl.
    pose proof (Hback High s Hs) as Bh. pose proof (Hback Low s Hs) as Bl.
    rewrite Hr in *. destruct r; simpl in *.
    - destruct (Hh eq_refl). split; [congruence|]. intros ?. by discriminate Bl; congruence.
    - destruct (Hh eq_refl), (Hl eq_refl). split; congruence.
    - destruct (Hl eq_refl). split; [congruence|]. intros ?. by discriminate Bh; congruence. }
  exists nl'. split; [exact E|]. split; [done|apply regions_ok_delete, (ti_regions HI)| |].
  - intros sd s q a' e' [Hne HL]%lookup_delete_Some Hr.
    destruct (on_side_role _ _ Hr) as [r' Er'].
    rewrite Hc by (by eapply live_role_window; [apply (ti_regions HI)|..]).
    destruct (ti_side HI sd s q a' e' HL Hr) as [<- <-].
    destruct (role_of rz a e s) as [r|] eqn:Er; [|done].
    pose proof (clear_side r (cell d nl s) sd) as Hu.
    destruct (on_side sd (Some r)) eqn:Hsd; [exfalso|done].
    destruct (ro_each (ti_regions HI) _ _ _ HL) as (_ & (_ & Hae' & _) & _).
    eapply (on_side_unique sd a e a' e' s); eauto; [|by rewrite Er].
    by eapply (ro_disjoint (ti_regions HI)).
  - intros sd s Hs. rewrite (Hc s Hs).
    assert (on_side sd (role_of rz a e s) = false → side_reg sd (cell d nl s) ≠ 0 →
      ∃ a' e', delete p L !! side_reg sd (cell d nl s) = Some (a', e') ∧
               on_side sd (role_of rz a' e' s) = true) as Hold.
    { intros Hf Hne. destruct (ti_inv HI sd s Hs Hne) as (a' & e' & HL & Hr').
      exists a', e'. rewrite lookup_delete_ne; [done|].
      intros E'. symmetry in E'. rewrite (Hback sd s Hs E') in Hf. done. }
    destruct (role_of rz a e s) as [r|] eqn:Er; [|by apply Hold; destruct sd].
    pose proof (clear_side r (cell d nl s) sd) as Hu.
    destruct (on_side sd (Some r)) eqn:Hsd; [congruence|]. destruct Hu as [-> _]. by apply Hold.
Qed.
End index.
