(* ===== verification/StructuresSpec.v ===== *)
(** * The contract of [plugins/structures.c]

    The specifications of the index's entry points on the whole state: what
    [addRegion], [addRegionChunks] and [deleteRegion] do to the heap of regions,
    which addresses [getRegion] resolves, and that [getChunkInfo] and
    [getChunkInfoNU] return the chunk an address falls in.  Then access through pointers: the private data
    that the plugins attach to regions and chunks, on which the index does not depend. *)
From stdpp Require Import base list gmap numbers.
From S2P Require Import Prelude Structures StructuresTree StructuresIndex.

(** ** Chunk arrays *)

(** [cs] cuts [[a, e)] into consecutive chunks. *)
Fixpoint contiguous (a : Z) (cs : list ShamblesChunk) (e : Z) : Prop :=
  match cs with
  | [] => a = e
  | c :: cs' => chunk_start c = a ∧ 0 ≤ chunk_size c ∧ contiguous (a + chunk_size c) cs' e
  end.

(** What a chunk array says about addresses, its private data left out. *)
Definition layout (cs : list ShamblesChunk) : list (Z * Z) :=
  (λ c, (chunk_start c, chunk_size c)) <$> cs.

Lemma contiguous_le a cs e : contiguous a cs e → a ≤ e.
Proof.
  revert a. induction cs as [|c cs IH]; simpl; intros a H; [lia|].
  destruct H as (_ & Hs & H). apply IH in H. lia.
Qed.

Lemma contiguous_app a cs cs' m e :
  contiguous a cs m → contiguous m cs' e → contiguous a (cs ++ cs') e.
Proof.
  revert a. induction cs as [|c cs IH]; simpl; intros a H H'; [by subst|].
  destruct H as (E & Hs & H). eauto.
Qed.

Lemma contiguous_layout a cs cs' e :
  layout cs = layout cs' → contiguous a cs e → contiguous a cs' e.
Proof.
  revert a cs'. induction cs as [|c cs IH]; intros a [|c' cs'] E H; try done.
  injection E as E1 E2 E3. destruct H as (<- & Hs & H). simpl. rewrite <- E1, <- E2. eauto.
Qed.

Lemma contiguous_last a cs e c n :
  contiguous a cs e → length cs = S n → cs !! n = Some c → chunk_start c + chunk_size c = e.
Proof.
  revert a n. induction cs as [|c' cs IH]; intros a n H Hl Hc; [done|].
  destruct H as (<- & Hs & H). destruct cs as [|c2 cs].
  - destruct n; simplify_eq/=. done.
  - destruct n as [|n]; [done|]. apply (IH _ n H); [simpl in *; lia|done].
Qed.

Lemma contiguous_first a cs e c : contiguous a cs e → cs !! 0%nat = Some c → chunk_start c = a.
Proof. destruct cs; simpl; [done|]. intros (? & _) E. by simplify_eq. Qed.

(** The chunks of [addRegion]. *)
Lemma split_chunks_full cb a n :
  0 < cb → 0 ≤ a → 0 ≤ n → a + n * cb < 2 ^ 64 →
  contiguous a ((λ i, mkChunk (u64 (a + u64 (i * cb))) cb None) <$> seqZ 0 n) (a + n * cb).
Proof.
  intros Hcb Ha Hn. revert n Hn. apply (natlike_ind (λ n, a + n * cb < 2 ^ 64 → _)).
  - intros _. simpl. lia.
  - intros n Hn IH Hb. unfold Z.succ. rewrite seqZ_app, fmap_app by lia.
    change (seqZ (0 + n) 1) with [0 + n].
    eapply contiguous_app; [apply IH; nia|]. simpl.
    rewrite !u64_small by (unfold is_u64; rewrite ?u64_small by (unfold is_u64; nia); nia). lia.
Qed.

Lemma split_chunks_contiguous cb a size :
  0 < cb → 0 ≤ a → 0 ≤ size → a + size < 2 ^ 64 →
  contiguous a (split_chunks cb a size) (a + size).
Proof.
  intros Hcb Ha Hs Hb. unfold split_chunks.
  pose proof (Z.div_mod size cb). pose proof (Z.mod_pos_bound size cb).
  pose proof (Z.div_pos size cb).
  eapply contiguous_app; [apply split_chunks_full; lia|].
  destruct (Z.eqb_spec (size `mod` cb) 0); simpl; [lia|].
  rewrite !u64_small by (unfold is_u64; rewrite ?u64_small by (unfold is_u64; lia); lia). lia.
Qed.

Lemma split_chunks_length cb a size :
  0 < cb → 0 ≤ size →
  Z.of_nat (length (split_chunks cb a size)) = (size + cb - 1) / cb.
Proof.
  intros Hcb Hs. unfold split_chunks. rewrite length_app, length_fmap, length_seqZ.
  pose proof (Z.div_mod size cb). pose proof (Z.mod_pos_bound size cb). pose proof (Z.div_pos size cb).
  destruct (Z.eqb_spec (size `mod` cb) 0) as [E|E]; simpl.
  - assert ((size + cb - 1) / cb = size / cb); [|lia].
    symmetry. apply (Z.div_unique _ _ _ (cb - 1)); lia.
  - assert ((size + cb - 1) / cb = size / cb + 1); [|lia].
    symmetry. apply (Z.div_unique _ _ _ (size `mod` cb - 1)); lia.
Qed.

(** The [i]-th chunk of a uniformly cut region. *)
Lemma split_chunks_lookup cb a size x :
  0 < cb → 0 ≤ a → a + size < 2 ^ 64 → a ≤ x < a + size →
  ∃ c, split_chunks cb a size !! Z.to_nat ((x - a) / cb) = Some c ∧
       chunk_start c ≤ x < chunk_start c + chunk_size c.
Proof.
  intros Hcb Ha Hb Hx. unfold split_chunks.
  pose proof (Z.div_mod size cb). pose proof (Z.mod_pos_bound size cb).
  pose proof (Z.div_mod (x - a) cb). pose proof (Z.mod_pos_bound (x - a) cb).
  pose proof (Z.div_pos (x - a) cb). pose proof (Z.div_pos size cb).
  assert ((x - a) / cb ≤ size / cb) by (apply Z.div_le_mono; lia).
  destruct (decide ((x - a) / cb < size / cb)) as [Hlt|Hge].
  - eexists. rewrite lookup_app_l by (rewrite length_fmap, length_seqZ; lia).
    rewrite list_lookup_fmap, lookup_seqZ_lt by lia. split; [reflexivity|]. simpl.
    rewrite !u64_small by (unfold is_u64; rewrite ?u64_small by (unfold is_u64; nia); nia). nia.
  - assert ((x - a) / cb = size / cb) as -> by lia.
    destruct (Z.eqb_spec (size `mod` cb) 0) as [E|E]; [nia|].
    eexists. rewrite lookup_app_r by (rewrite length_fmap, length_seqZ; lia).
    rewrite length_fmap, length_seqZ. replace (_ - _)%nat with 0%nat by lia.
    split; [reflexivity|]. simpl.
    rewrite !u64_small by (unfold is_u64; rewrite ?u64_small by (unfold is_u64; nia); nia). nia.
Qed.

(** The chunks of [addRegionChunks]. *)
Lemma given_chunks_contiguous a sizes :
  0 ≤ a → Forall (λ z, 0 ≤ z) sizes → a + sum_by id sizes < 2 ^ 64 →
  contiguous a (given_chunks a sizes) (a + sum_by id sizes).
Proof.
  intros Ha H. revert a Ha. induction H as [|z sizes Hz H IH]; intros a Ha Hb; simpl in *; [lia|].
  pose proof (sum_by_nonneg id sizes H).
  split; [done|]. split; [done|]. rewrite u64_small by (unfold is_u64, id in *; lia).
  rewrite Z.add_assoc. apply IH; lia.
Qed.

(** [getChunkInfoNU]'s scan of a contiguous array. *)
Lemma chunk_scan_contiguous x a cs e i c0 :
  contiguous a (c0 :: cs) e → chunk_start c0 ≤ x < e →
  ∃ k c, chunk_scan x i cs = i + Z.of_nat k ∧ (c0 :: cs) !! k = Some c ∧
         chunk_start c ≤ x < chunk_start c + chunk_size c.
Proof.
  revert a i c0. induction cs as [|c1 cs IH]; intros a i c0 (<- & Hs & H) Hx.
  - simpl in H. exists 0%nat, c0. simpl. split; [lia|]. split; [done|lia].
  - cbn [chunk_scan]. destruct (Z.ltb_spec x (chunk_start c1)) as [Hlt|Hge].
    + exists 0%nat, c0. destruct H as (E & _). split; [lia|]. split; [done|lia].
    + destruct (IH _ (i + 1) c1 H) as (k & c & -> & Hk & Hc); [lia|].
      exists (S k), c. split; [lia|]. done.
Qed.

(** ** The invariant of the whole index *)

Record index_inv (s : structs) (d : nat) (w : Z) (L : live_regions) : Prop := {
  ii_geo : geometry (globals s) d;
  ii_chunk : 0 < CHUNK_SIZE (globals s) < 2 ^ 64;
  ii_root : ∃ nl, root s !! 0%nat = Some nl ∧ tree_inv (globals s) d w nl L;
  ii_dom : dom (regions s) = dom L;
  ii_live : dom (regions s) ∪ dom (chunks s) ⊆ live s;
  ii_apart : dom (regions s) ## dom (chunks s);
  ii_region : ∀ p a e, L !! p = Some (a, e) →
    ∃ r cs, regions s !! p = Some r ∧ region_start r = a ∧ region_chunks r ≠ 0 ∧
      chunks s !! region_chunks r = Some cs ∧ cs ≠ [] ∧
      region_nChunks r = Z.of_nat (length cs) ∧ contiguous a cs e;
  ii_blocks : ∀ p q r r', regions s !! p = Some r → regions s !! q = Some r' →
    region_chunks r = region_chunks r' → p = q
}.
Arguments ii_geo {s d w L}.
Arguments ii_chunk {s d w L}.
Arguments ii_root {s d w L}.
Arguments ii_dom {s d w L}.
Arguments ii_live {s d w L}.
Arguments ii_apart {s d w L}.
Arguments ii_region {s d w L}.
Arguments ii_blocks {s d w L}.

(** Running a monadic operation whose next step is known. *)
Ltac step_with E := erewrite bind_done; [|exact E].

Lemma init_index ov chunkSize thr w :
  1 ≤ thr < 2 ^ 53 → 0 < chunkSize < 2 ^ 64 →
  ∃ s, shamblesStructsInit ov chunkSize thr = Done s ∧
    REGION_SHIFT (globals s) = Z.log2 thr ∧
    (0 < root_elements ov (globals s) → index_inv s (depth_of (Z.log2 thr)) w ∅).
Proof.
  intros Ht Hc. destruct (init_globals_geometry ov chunkSize thr Ht) as (G & E & HG & Hrs & Hcs).
  unfold shamblesStructsInit, mbind, outcome_bind. rewrite E. eexists. split; [reflexivity|].
  split; [done|]. intros Hroot. simpl in Hroot. split; simpl.
  - done.
  - by rewrite Hcs.
  - exists zeroNLN. split; [|by apply tree_inv_empty]. apply lookup_replicate_2. lia.
  - by rewrite !dom_empty_L.
  - rewrite !dom_empty_L. set_solver.
  - rewrite !dom_empty_L. set_solver.
  - intros p a e. by rewrite lookup_empty.
  - intros p q r r'. by rewrite lookup_empty.
Qed.

Section specs.
Context `{PluginMallocOk}.
Implicit Types (s : structs) (L : live_regions).

Lemma plugin_malloc_ok n s :
  malloc_at (live s) n ≠ 0 →
  ∃ p, p = malloc_at (live s) n ∧ plugin_malloc n s = Done (p, set_live ({[p]} ∪ live s) s) ∧ 0 < p ∧ p ∉ live s.
Proof.
  intros Hne. exists (malloc_at (live s) n). pose proof (malloc_nonneg (live s) n) as Hp.
  split; [done|]. split; [|split; [lia|by apply malloc_fresh]].
  unfold plugin_malloc. by rewrite (proj2 (Z.eqb_neq _ _)) by lia.
Qed.

Lemma plugin_malloc_null n s : malloc_at (live s) n = 0 → plugin_malloc n s = Done (0, s).
Proof. intros E. unfold plugin_malloc. by rewrite E. Qed.

(** There is memory for the two requests of [addRegion] and [addRegionChunks]: a descriptor, and then
    an array of [n] chunks. *)
Definition region_served (s : structs) (n : Z) : Prop :=
  let p := malloc_at (live s) sizeof_ShamblesRegion in
  p ≠ 0 ∧ malloc_at ({[p]} ∪ live s) (n * sizeof_ShamblesChunk) ≠ 0.

(** The blocks that are live then. *)
Definition region_live (s : structs) (n : Z) : gset Z :=
  let p := malloc_at (live s) sizeof_ShamblesRegion in
  {[malloc_at ({[p]} ∪ live s) (n * sizeof_ShamblesChunk)]} ∪ ({[p]} ∪ live s).

Lemma register_ok s nl d w L p a e :
  root s !! 0%nat = Some nl → geometry (globals s) d → tree_inv (globals s) d w nl L →
  addable (globals s) d w L p a e →
  ∃ nl', register a e p s = Done (tt, set_root (<[0%nat:=nl']> (root s)) s) ∧
         tree_inv (globals s) d w nl' (<[p:=(a, e)]> L).
Proof.
  intros Hrt HG HI Hadd.
  destruct (register_range_ok _ d HG w _ _ _ _ _ _ Hrt HI Hadd) as (nl' & E & HI').
  exists nl'. split; [|done]. unfold register.
  erewrite bind_done by reflexivity. erewrite bind_done; [reflexivity|].
  unfold liftO. by rewrite E.
Qed.

(** What is common to the two ways of adding a region: the new region and its
    chunk array are in place, everything else is as it was. *)
Definition added (s s' : structs) (p b a : Z) (cs : list ShamblesChunk) : Prop :=
  globals s' = globals s ∧
  p ∉ live s ∧ b ∉ live s ∧ p ≠ b ∧ 0 < p ∧ 0 < b ∧
  live s' = {[b]} ∪ ({[p]} ∪ live s) ∧
  regions s' = <[p:=mkRegion a (Z.of_nat (length cs)) b None]> (regions s) ∧
  chunks s' = <[b:=cs]> (chunks s) ∧
  length (root s') = length (root s) ∧ (∀ i, i ≠ 0%nat → root s' !! i = root s !! i).

Lemma added_lookup s s' p b a cs :
  added s s' p b a cs →
  regions s' !! p = Some (mkRegion a (Z.of_nat (length cs)) b None) ∧ chunks s' !! b = Some cs.
Proof.
  intros (_ & _ & _ & _ & _ & _ & _ & -> & -> & _). by rewrite !lookup_insert_eq.
Qed.

Lemma added_chunks s s' p b a cs r cs' :
  added s s' p b a cs → regions s' !! p = Some r → chunks s' !! region_chunks r = Some cs' →
  cs' = cs.
Proof. intros [E1 E2]%added_lookup Hr Hc. rewrite E1 in Hr. injection Hr as <-. simpl in Hc. congruence. Qed.

Lemma added_index s s' d w L p b a e cs nl' :
  index_inv s d w L → added s s' p b a cs →
  root s' !! 0%nat = Some nl' → tree_inv (globals s) d w nl' (<[p:=(a, e)]> L) →
  contiguous a cs e → cs ≠ [] → index_inv s' d w (<[p:=(a, e)]> L).
Proof.
  intros HI (Hg & Hpl & Hbl & Hpb & Hp & Hb & Hl & Hr & Hc & _) Hrt HT Hcs Hne.
  pose proof (ii_live HI) as Hlive.
  assert (chunks s !! b = None) as Hcb by (apply not_elem_of_dom; set_solver).
  split; rewrite ?Hg, ?Hr, ?Hc, ?Hl.
  - apply (ii_geo HI).
  - apply (ii_chunk HI).
  - by exists nl'.
  - rewrite !dom_insert_L, (ii_dom HI). done.
  - rewrite !dom_insert_L. set_solver.
  - pose proof (ii_apart HI). rewrite !dom_insert_L. set_solver.
  - intros q a' e' [[<- [= <- <-]]|[Hqp Hq]]%lookup_insert_Some.
    + eexists _, cs. rewrite lookup_insert_eq. split; [reflexivity|]. simpl.
      rewrite lookup_insert_eq. repeat split; try done; lia.
    + destruct (ii_region HI _ _ _ Hq) as (r & cs' & E1 & E2 & E3 & E4 & E5).
      exists r, cs'. rewrite lookup_insert_ne by done. split; [done|]. split; [done|].
      split; [done|]. rewrite lookup_insert_ne; [done|]. intros Hbq. by rewrite Hbq, E4 in Hcb.
  - assert (∀ q r, regions s !! q = Some r → region_chunks r ≠ b) as Hfresh.
    { intros q r Hq <-. assert (is_Some (L !! q)) as [[a' e'] HLq].
      { apply elem_of_dom. rewrite <- (ii_dom HI). by apply elem_of_dom_2 in Hq. }
      destruct (ii_region HI _ _ _ HLq) as (r' & cs' & E1 & _ & _ & E4 & _). congruence. }
    intros q q' r r' [[<- <-]|[Hqp Hq]]%lookup_insert_Some
      [[<- <-]|[Hqp' Hq']]%lookup_insert_Some E; simpl in *; [done| | |by eapply (ii_blocks HI)].
    + by destruct (Hfresh _ _ Hq').
    + by destruct (Hfresh _ _ Hq).
Qed.

Lemma fresh_not_live s d w L p : index_inv s d w L → p ∉ live s → L !! p = None.
Proof.
  intros HI Hp. apply not_elem_of_dom. rewrite <- (ii_dom HI). pose proof (ii_live HI). set_solver.
Qed.

(** The common end of [addRegion] and [addRegionChunks], after the two
    allocations. *)
Lemma install_ok s d w L p b a e cs :
  index_inv s d w L → 0 < p → 0 < b → p ∉ live s → b ∉ {[p]} ∪ live s →
  region_ok (slot_bytes (globals s)) a e → in_window (globals s) d w a e →
  (∀ q a' e', L !! q = Some (a', e') → e ≤ a' ∨ e' ≤ a) →
  contiguous a cs e → cs ≠ [] →
  ∃ s', (write_chunks b cs;;
         write_region p (mkRegion a (Z.of_nat (length cs)) b None);;
         register a e p;; mret p)
          (set_live ({[b]} ∪ ({[p]} ∪ live s)) s) = Done (p, s') ∧
        added s s' p b a cs ∧ index_inv s' d w (<[p:=(a, e)]> L).
Proof.
  intros HI Hp Hb Hpl Hbl Hok Hw Hdis Hcs Hne.
  set (s2 := set_live ({[b]} ∪ ({[p]} ∪ live s)) s).
  set (s4 := set_regions (<[p:=mkRegion a (Z.of_nat (length cs)) b None]> (regions s2))
               (set_chunks (<[b:=cs]> (chunks s2)) s2)).
  destruct (ii_root HI) as (nl & Hrt & HT).
  destruct (register_ok s4 nl d w L p a e) as (nl' & E5 & HT'); try done.
  { apply (ii_geo HI). }
  { split; [lia|]. split; [by eapply fresh_not_live|]. done. }
  exists (set_root (<[0%nat:=nl']> (root s4)) s4).
  assert (added s (set_root (<[0%nat:=nl']> (root s4)) s4) p b a cs) as Hadd.
  { split; [done|]. split; [done|]. split; [set_solver|]. split; [set_solver|].
    do 5 (split; [done|]). split; [apply length_insert|].
    intros i Hi. by apply list_lookup_insert_ne. }
  split; [|split; [exact Hadd|]].
  - unfold write_chunks, write_region.
    rewrite (proj2 (Z.eqb_neq b 0)), (proj2 (Z.eqb_neq p 0)) by lia.
    erewrite bind_done by reflexivity. erewrite bind_done by reflexivity. fold s4.
    step_with E5. reflexivity.
  - eapply added_index; [done|exact Hadd| |exact HT'|done..].
    apply list_lookup_insert_eq. by apply lookup_lt_Some in Hrt.
Qed.

Lemma addRegion_ok s d w L a size :
  index_inv s d w L →
  region_ok (slot_bytes (globals s)) a (a + size) → in_window (globals s) d w a (a + size) →
  (∀ q a' e', L !! q = Some (a', e') → a + size ≤ a' ∨ e' ≤ a) →
  (size + CHUNK_SIZE (globals s) - 1) / CHUNK_SIZE (globals s) < 2 ^ 31 →
  region_served s ((size + CHUNK_SIZE (globals s) - 1) / CHUNK_SIZE (globals s)) →
  ∃ p b s', addRegion a size s = Done (p, s') ∧
    added s s' p b a (split_chunks (CHUNK_SIZE (globals s)) a size) ∧
    index_inv s' d w (<[p:=(a, a + size)]> L) ∧
    live s' = region_live s ((size + CHUNK_SIZE (globals s) - 1) / CHUNK_SIZE (globals s)).
Proof.
  intros HI Hok Hw Hdis Hn [Hm1 Hm2]. pose proof (ii_chunk HI) as Hcb.
  pose proof Hok as (Ha & Hae & He). pose proof (slot_bytes_pos _ _ (ii_geo HI)) as Hrz.
  destruct (plugin_malloc_ok sizeof_ShamblesRegion s Hm1) as (p & Ep & E1 & Hp & Hpl). rewrite <- Ep in Hm2.
  set (cs := split_chunks (CHUNK_SIZE (globals s)) a size).
  assert (Z.of_nat (length cs) = (size + CHUNK_SIZE (globals s) - 1) / CHUNK_SIZE (globals s))
    as Hlen by (apply split_chunks_length; lia).
  destruct (plugin_malloc_ok (Z.of_nat (length cs) * sizeof_ShamblesChunk)
    (set_live ({[p]} ∪ live s) s)) as (b & Eb & E2 & Hb & Hbl); [by rewrite Hlen|]. rewrite Hlen in Eb.
  destruct (install_ok s d w L p b a (a + size) cs) as (s' & E3 & Hadd & HI'); try done.
  { apply split_chunks_contiguous; lia. }
  { intros ->. simpl in Hlen.
    assert (1 ≤ (size + CHUNK_SIZE (globals s) - 1) / CHUNK_SIZE (globals s)); [|lia].
    apply Z.div_le_lower_bound; lia. }
  exists p, b, s'. split.
  2:{ split; [done|]. split; [done|]. destruct Hadd as (_ & _ & _ & _ & _ & _ & -> & _). unfold region_live. rewrite <- Ep. simpl in Eb. by rewrite <- Eb. }
  unfold addRegion. step_with E1. rewrite (proj2 (Z.eqb_neq p 0)) by lia.
  erewrite bind_done by reflexivity. change (globals (set_live _ s)) with (globals s).
  rewrite (proj2 (Z.eqb_neq (CHUNK_SIZE _) 0)) by lia. fold cs.
  rewrite (proj2 (Z.leb_gt (2 ^ 31) _)) by lia. step_with E2.
  rewrite (u64_small (a + size)) by (unfold is_u64; lia). exact E3.
Qed.

(** Neither result is tested: without memory the code writes through a null pointer. *)
Lemma addRegion_unserved s d w L a size :
  index_inv s d w L → region_ok (slot_bytes (globals s)) a (a + size) →
  (size + CHUNK_SIZE (globals s) - 1) / CHUNK_SIZE (globals s) < 2 ^ 31 →
  ¬ region_served s ((size + CHUNK_SIZE (globals s) - 1) / CHUNK_SIZE (globals s)) →
  addRegion a size s = Fault NullDeref.
Proof.
  intros HI (Ha & Hae & He) Hn Hno. pose proof (ii_chunk HI) as Hcb. pose proof (slot_bytes_pos _ _ (ii_geo HI)) as Hrz.
  assert (Z.of_nat (length (split_chunks (CHUNK_SIZE (globals s)) a size)) = (size + CHUNK_SIZE (globals s) - 1) / CHUNK_SIZE (globals s))
    as Hlen by (apply split_chunks_length; lia).
  unfold addRegion. destruct (decide (malloc_at (live s) sizeof_ShamblesRegion = 0)) as [E0|E0].
  - by step_with (plugin_malloc_null _ _ E0).
  - destruct (plugin_malloc_ok _ _ E0) as (p & Ep & E1 & Hp & _). step_with E1. rewrite (proj2 (Z.eqb_neq p 0)) by lia.
    erewrite bind_done by reflexivity. change (globals (set_live _ s)) with (globals s).
    rewrite (proj2 (Z.eqb_neq (CHUNK_SIZE _) 0)) by lia. rewrite (proj2 (Z.leb_gt (2 ^ 31) _)) by lia. rewrite Hlen.
    assert (malloc_at ({[p]} ∪ live s) ((size + CHUNK_SIZE (globals s) - 1) / CHUNK_SIZE (globals s) * sizeof_ShamblesChunk) = 0) as E2.
    { destruct (decide (malloc_at ({[p]} ∪ live s) ((size + CHUNK_SIZE (globals s) - 1) / CHUNK_SIZE (globals s) * sizeof_ShamblesChunk) = 0)); [done|].
      exfalso. apply Hno. split; [done|]. by rewrite <- Ep. }
    step_with (plugin_malloc_null _ (set_live ({[p]} ∪ live s) s) E2). by apply bind_fault.
Qed.

Lemma length_given_chunks a sizes : length (given_chunks a sizes) = length sizes.
Proof. revert a. induction sizes; intros; simpl; auto. Qed.

Lemma addRegionChunks_ok s d w L a size sizes :
  index_inv s d w L →
  region_ok (slot_bytes (globals s)) a (a + size) → in_window (globals s) d w a (a + size) →
  (∀ q a' e', L !! q = Some (a', e') → a + size ≤ a' ∨ e' ≤ a) →
  sizes ≠ [] → Forall (λ z, 0 ≤ z) sizes → sum_by id sizes = size →
  region_served s (Z.of_nat (length sizes)) →
  ∃ p b s', addRegionChunks a size (Z.of_nat (length sizes)) sizes s = Done (p, s') ∧
    added s s' p b a (given_chunks a sizes) ∧
    index_inv s' d w (<[p:=(a, a + size)]> L).
Proof.
  intros HI Hok Hw Hdis Hne Hpos Hsum [Hm1 Hm2]. pose proof Hok as (Ha & Hae & He).
  pose proof (slot_bytes_pos _ _ (ii_geo HI)) as Hrz.
  destruct (plugin_malloc_ok sizeof_ShamblesRegion s Hm1) as (p & Ep & E1 & Hp & Hpl). rewrite <- Ep in Hm2.
  destruct (plugin_malloc_ok (Z.of_nat (length sizes) * sizeof_ShamblesChunk)
    (set_live ({[p]} ∪ live s) s) Hm2) as (b & _ & E2 & Hb & Hbl).
  destruct (install_ok s d w L p b a (a + size) (given_chunks a sizes))
    as (s' & E3 & Hadd & HI'); try done.
  { rewrite <- Hsum. apply given_chunks_contiguous; [lia|done|lia]. }
  { by destruct sizes. }
  exists p, b, s'. split; [|done].
  unfold addRegionChunks. step_with E1. rewrite (proj2 (Z.eqb_neq p 0)) by lia. step_with E2.
  assert (0 < length sizes)%nat by (destruct sizes; simpl; [done|lia]).
  rewrite (proj2 (Z.ltb_ge _ 1)), Z.ltb_irrefl by lia. cbn [orb].
  rewrite Nat2Z.id, firstn_all, (u64_small (a + size)) by (unfold is_u64; lia).
  rewrite length_given_chunks in E3. exact E3.
Qed.

(** *** Deletion *)

Lemma deleteRegion_ok s d w L p a e :
  index_inv s d w L → L !! p = Some (a, e) →
  ∃ r s', regions s !! p = Some r ∧ deleteRegion p s = Done (tt, s') ∧
    index_inv s' d w (delete p L) ∧ globals s' = globals s ∧
    regions s' = delete p (regions s) ∧ chunks s' = delete (region_chunks r) (chunks s) ∧
    live s' = live s ∖ {[region_chunks r]} ∖ {[p]} ∧
    length (root s') = length (root s) ∧ (∀ i, i ≠ 0%nat → root s' !! i = root s !! i).
Proof.
  intros HI HLp. destruct (ii_region HI _ _ _ HLp) as (r & cs & Er & <- & Hb & Ecs & Hne & Hn & Hcs).
  destruct (ii_root HI) as (nl & Hrt & HT).
  destruct (ro_each (ti_regions HT) _ _ _ HLp) as (Hp & (Ha & Hae & He) & _).
  destruct (unregister_range_ok _ d (ii_geo HI) w _ _ _ _ _ _ Hrt HT HLp) as (nl' & Et & HT').
  destruct (lookup_lt_is_Some_2 cs 0) as [c0 Hc0]; [destruct cs; simpl; [done|lia]|].
  destruct (lookup_lt_is_Some_2 cs (length cs - 1)) as [c1 Hc1]; [destruct cs; simpl; [done|lia]|].
  exists r, (mkStructs (globals s) (<[0%nat:=nl']> (root s)) (delete p (regions s))
           (delete (region_chunks r) (chunks s)) (live s ∖ {[region_chunks r]} ∖ {[p]})).
  split; [done|]. split; [|split].
  3: { repeat (split; [done|]). split; [apply length_insert|].
       intros i Hi. by apply list_lookup_insert_ne. }
  - unfold deleteRegion, deref_region, deref_chunks.
    erewrite bind_done.
    2: { erewrite bind_done by reflexivity. rewrite (proj2 (Z.eqb_neq p 0)) by done.
         unfold liftO. rewrite Er. reflexivity. }
    erewrite bind_done.
    2: { erewrite bind_done by reflexivity. rewrite (proj2 (Z.eqb_neq (region_chunks r) 0)) by done.
         unfold liftO. rewrite Ecs. reflexivity. }
    erewrite bind_done by (unfold liftO; rewrite Hc0; reflexivity).
    erewrite bind_done.
    2: { unfold liftO. replace (Z.to_nat (region_nChunks r - 1)) with (length cs - 1)%nat
           by (destruct cs; simpl in *; [done|lia]). rewrite Hc1. reflexivity. }
    erewrite bind_done by reflexivity.
    rewrite (contiguous_first _ _ _ _ Hcs Hc0).
    rewrite (contiguous_last _ _ _ _ (length cs - 1) Hcs) by (done || (destruct cs; simpl in *; [done|lia])).
    rewrite u64_small by (unfold is_u64; pose proof (slot_bytes_pos _ _ (ii_geo HI)); lia).
    erewrite bind_done by (unfold liftO; rewrite Et; reflexivity).
    repeat (erewrite bind_done by reflexivity). reflexivity.
  - split; simpl.
    + apply (ii_geo HI).
    + apply (ii_chunk HI).
    + exists nl'. split; [|done]. apply list_lookup_insert_eq. by apply lookup_lt_Some in Hrt.
    + by rewrite !dom_delete_L, (ii_dom HI).
    + pose proof (ii_live HI). pose proof (ii_apart HI). rewrite !dom_delete_L.
      apply elem_of_dom_2 in Er, Ecs. set_solver.
    + pose proof (ii_apart HI). rewrite !dom_delete_L. set_solver.
    + intros q a' e' [Hqp Hq]%lookup_delete_Some.
      destruct (ii_region HI _ _ _ Hq) as (r' & cs' & E1 & E2 & E3 & E4 & E5).
      exists r', cs'. rewrite lookup_delete_ne by done. split; [done|]. split; [done|].
      split; [done|]. rewrite lookup_delete_ne; [done|].
      intros Eb. apply Hqp. by eapply (ii_blocks HI).
    + intros q q' r1 r2 [_ Hq]%lookup_delete_Some [_ Hq']%lookup_delete_Some. by eapply (ii_blocks HI).
Qed.
End specs.

(** ** Lookup *)

Lemma getRegion_run s d w L addr :
  index_inv s d w L →
  ∃ nl, root s !! 0%nat = Some nl ∧ tree_inv (globals s) d w nl L ∧
    getRegion addr s = Done (pick_region (cell d nl (slot_of (globals s) addr)) addr, s).
Proof.
  intros HI. destruct (ii_root HI) as (nl & Hrt & HT). exists nl. split; [done|]. split; [done|].
  unfold getRegion. erewrite bind_done by reflexivity. unfold liftO.
  by rewrite (getRegion_in_cell _ d _ nl addr (ii_geo HI) Hrt (ti_wf HT)).
Qed.

(** Which addresses of a live region the index resolves: those in a slot the
    region is registered for on its high side, and those in the slot it ends in
    when another region starts in that slot. *)
Definition resolved (rz : Z) (L : live_regions) (a e x : Z) : Prop :=
  on_side High (role_of rz a e (x / rz)) = true ∨
  role_of rz a e (x / rz) = Some Tail ∧
  ∃ q a' e', L !! q = Some (a', e') ∧ role_of rz a' e' (x / rz) = Some Head.

Lemma pick_sound G d w nl L x :
  geometry G d → tree_inv G d w nl L → window d (slot_of G x) = w →
  let p := pick_region (cell d nl (slot_of G x)) x in
  p ≠ 0 → ∃ a e, L !! p = Some (a, e) ∧ a ≤ x < e.
Proof.
  intros HG HT Hw. cbv zeta. unfold pick_region.
  pose proof (slot_bytes_pos _ _ HG) as Hrz.
  pose proof (slot_bounds (slot_bytes G) x Hrz) as Hx. change (x / slot_bytes G) with (slot_of G x) in Hx.
  destruct (Z.leb_spec (highAddr (cell d nl (slot_of G x))) x) as [Hh|Hh].
  - intros Hne. destruct (ti_inv HT High _ Hw Hne) as (a & e & HL & Hr). exists a, e. split; [done|].
    destruct (ti_side HT High _ _ _ _ HL Hr) as [_ E]. simpl in E. split; [lia|].
    destruct (ro_each (ti_regions HT) _ _ _ HL) as (_ & (_ & Hae & _) & _).
    pose proof (role_cases (slot_bytes G) a e (slot_of G x) Hrz Hae) as C.
    destruct (role_of (slot_bytes G) a e (slot_of G x)) as [[]|]; simpl in Hr; try done; lia.
  - destruct (Z.ltb_spec x (lowAddr (cell d nl (slot_of G x)))) as [Hl|Hl]; [|done].
    intros Hne. destruct (ti_inv HT Low _ Hw Hne) as (a & e & HL & Hr). exists a, e. split; [done|].
    destruct (ti_side HT Low _ _ _ _ HL Hr) as [_ E]. simpl in E.
    destruct (ro_each (ti_regions HT) _ _ _ HL) as (_ & (_ & Hae & _) & _).
    pose proof (role_cases (slot_bytes G) a e (slot_of G x) Hrz Hae) as C.
    destruct (role_of (slot_bytes G) a e (slot_of G x)) as [[]|]; simpl in Hr; try done; lia.
Qed.

Lemma pick_complete G d w nl L x q a e :
  geometry G d → tree_inv G d w nl L → window d (slot_of G x) = w →
  L !! q = Some (a, e) → a ≤ x < e →
  pick_region (cell d nl (slot_of G x)) x = q ↔ resolved (slot_bytes G) L a e x.
Proof.
  intros HG HT Hw HLq Hx. pose proof (slot_bytes_pos _ _ HG) as Hrz.
  pose proof (slot_bounds (slot_bytes G) x Hrz) as Hsx. change (x / slot_bytes G) with (slot_of G x) in Hsx.
  unfold resolved, pick_region. change (x / slot_bytes G) with (slot_of G x).
  set (rn := cell d nl (slot_of G x)).
  destruct (ro_each (ti_regions HT) _ _ _ HLq) as (Hq0 & (Ha & Hae & He) & _).
  pose proof (role_cases (slot_bytes G) a e (slot_of G x) Hrz Hae) as C.
  split.
  - destruct (Z.leb_spec (highAddr rn) x) as [Hh|Hh].
    + intros E. left. destruct (ti_inv HT High _ Hw) as (a' & e' & HL & Hr).
      { simpl. fold rn. congruence. }
      simpl in HL. fold rn in HL. rewrite E in HL. by simplify_eq.
    + destruct (Z.ltb_spec x (lowAddr rn)) as [Hl|Hl]; [|congruence].
      intros E. destruct (ti_inv HT Low _ Hw) as (a' & e' & HL & Hr).
      { simpl. fold rn. congruence. }
      simpl in HL. fold rn in HL. rewrite E in HL.
      assert (a' = a ∧ e' = e) as [-> ->] by (split; congruence).
      destruct (role_of (slot_bytes G) a e (slot_of G x)) as [[]|] eqn:Er; simpl in Hr; try done;
        [by left|right; split; [done|]].
      assert (highReg rn ≠ 0) as Hne.
      { pose proof (cell_cell_ok d nl (slot_of G x) (ti_wf HT)) as [Kh _]. fold rn in Kh.
        intros E0. apply Kh in E0. lia. }
      destruct (ti_inv HT High _ Hw Hne) as (a' & e' & HL' & Hr').
      exists (highReg rn), a', e'. split; [done|].
      destruct (ti_side HT High _ _ _ _ HL' Hr') as [_ Eh]. simpl in Eh. fold rn in Eh.
      destruct (ro_each (ti_regions HT) _ _ _ HL') as (_ & (_ & Hae' & _) & _).
      pose proof (role_cases (slot_bytes G) a' e' (slot_of G x) Hrz Hae') as C'.
      destruct (role_of (slot_bytes G) a' e' (slot_of G x)) as [[]|]; simpl in Hr'; try done. lia.
  - intros [Hr|[Hr (q' & a' & e' & HLq' & Hr')]].
    + destruct (ti_side HT High _ _ _ _ HLq Hr) as [Eq Eh]. simpl in Eq, Eh. fold rn in Eq, Eh.
      rewrite (proj2 (Z.leb_le _ _)) by lia. done.
    + destruct (ti_side HT Low (slot_of G x) _ _ _ HLq) as [Eq El]; [by rewrite Hr|].
      simpl in Eq, El. fold rn in Eq, El.
      destruct (ti_side HT High (slot_of G x) _ _ _ HLq') as [Eq' Eh]; [by rewrite Hr'|].
      simpl in Eq', Eh. fold rn in Eq', Eh.
      destruct (ro_each (ti_regions HT) _ _ _ HLq') as (_ & (_ & Hae' & _) & _).
      pose proof (role_cases (slot_bytes G) a' e' (slot_of G x) Hrz Hae') as C'.
      rewrite Hr in C. rewrite Hr' in C'.
      assert (q ≠ q') by (intros ->; simplify_eq).
      destruct (ro_disjoint (ti_regions HT) _ _ _ _ _ _ HLq HLq'); [done| |lia].
      rewrite (proj2 (Z.leb_gt _ _)), (proj2 (Z.ltb_lt _ _)) by lia. done.
Qed.

Lemma getRegion_ok s d w L x :
  index_inv s d w L → window d (slot_of (globals s) x) = w →
  ∃ p, getRegion x s = Done (p, s) ∧
    (p ≠ 0 → ∃ a e, L !! p = Some (a, e) ∧ a ≤ x < e) ∧
    (∀ q a e, L !! q = Some (a, e) → a ≤ x < e →
       p = q ↔ resolved (slot_bytes (globals s)) L a e x).
Proof.
  intros HI Hw. destruct (getRegion_run s d w L x HI) as (nl & Hrt & HT & E).
  eexists. split; [exact E|]. split.
  - by apply (pick_sound _ d w nl L x (ii_geo HI)).
  - intros q a e HL Hx. by apply (pick_complete _ d w nl L x q a e (ii_geo HI)).
Qed.

(** ** Chunk lookup *)

Lemma getChunkInfo_ok s d w L x p :
  index_inv s d w L → window d (slot_of (globals s) x) = w → getRegion x s = Done (p, s) →
  (p = 0 ∧ getChunkInfo x s = Done (NULLp, s)) ∨
  ∃ a e r cs, L !! p = Some (a, e) ∧ a ≤ x < e ∧ regions s !! p = Some r ∧
    chunks s !! region_chunks r = Some cs ∧
    (layout cs = layout (split_chunks (CHUNK_SIZE (globals s)) a (e - a)) →
     ∃ i c, getChunkInfo x s = Done ((region_chunks r, i), s) ∧ 0 ≤ i ∧ i = (x - a) / CHUNK_SIZE (globals s) ∧
            cs !! Z.to_nat i = Some c ∧ chunk_start c ≤ x < chunk_start c + chunk_size c).
Proof.
  intros HI Hw E. destruct (getRegion_ok s d w L x HI Hw) as (p' & E' & Hsound & _).
  assert (p' = p) as -> by congruence. unfold getChunkInfo.
  destruct (decide (p = 0)) as [->|Hp]; [left; by step_with E|right].
  destruct (Hsound Hp) as (a & e & HL & Hx).
  destruct (ii_region HI _ _ _ HL) as (r & cs & Er & <- & Hb & Ecs & Hne & Hn & Hcs).
  exists (region_start r), e, r, cs. repeat (split; [done|]). intros Hlay.
  pose proof (ii_chunk HI) as Hcb.
  destruct (ii_root HI) as (nl & _ & HT).
  destruct (ro_each (ti_regions HT) _ _ _ HL) as (_ & (Ha & Hae & He) & _).
  destruct (split_chunks_lookup (CHUNK_SIZE (globals s)) (region_start r) (e - region_start r) x)
    as (c & Hc & Hxc); [lia..|].
  assert (layout cs !! Z.to_nat ((x - region_start r) / CHUNK_SIZE (globals s))
          = Some (chunk_start c, chunk_size c)) as Hlc.
  { unfold layout in *. by rewrite Hlay, list_lookup_fmap, Hc. }
  unfold layout in Hlc. rewrite list_lookup_fmap in Hlc.
  destruct (cs !! _) as [c'|] eqn:Ec'; simpl in Hlc; [|done]. injection Hlc as E1 E2.
  exists ((x - region_start r) / CHUNK_SIZE (globals s)), c'.
  split; [|split; [apply Z.div_pos; lia|split; [done|split; [done|lia]]]].
  step_with E. rewrite (proj2 (Z.eqb_neq p 0)) by done.
  erewrite bind_done.
  2: { unfold deref_region. erewrite bind_done by reflexivity. rewrite (proj2 (Z.eqb_neq p 0)) by done.
       unfold liftO. rewrite Er. reflexivity. }
  erewrite bind_done by reflexivity. rewrite (proj2 (Z.eqb_neq _ 0)) by lia.
  rewrite u64_small by (unfold is_u64; lia). done.
Qed.

Lemma getChunkInfoNU_ok s d w L x p :
  index_inv s d w L → window d (slot_of (globals s) x) = w → getRegion x s = Done (p, s) →
  (p = 0 ∧ getChunkInfoNU x s = Done (NULLp, s)) ∨
  ∃ r cs k c, regions s !! p = Some r ∧ chunks s !! region_chunks r = Some cs ∧
    getChunkInfoNU x s = Done ((region_chunks r, Z.of_nat k), s) ∧
    cs !! k = Some c ∧ chunk_start c ≤ x < chunk_start c + chunk_size c.
Proof.
  intros HI Hw E. destruct (getRegion_ok s d w L x HI Hw) as (p' & E' & Hsound & _).
  assert (p' = p) as -> by congruence. unfold getChunkInfoNU.
  destruct (decide (p = 0)) as [->|Hp]; [left; by step_with E|right].
  destruct (Hsound Hp) as (a & e & HL & Hx).
  destruct (ii_region HI _ _ _ HL) as (r & cs & Er & <- & Hb & Ecs & Hne & Hn & Hcs).
  destruct cs as [|c0 cs]; [done|].
  pose proof (contiguous_first _ _ _ c0 Hcs eq_refl) as Hc0.
  destruct (chunk_scan_contiguous x _ cs e 0 c0 Hcs) as (k & c & Es & Hk & Hc); [lia|].
  exists r, (c0 :: cs), k, c. split; [done|]. split; [done|]. split; [|done].
  step_with E. rewrite (proj2 (Z.eqb_neq p 0)) by done.
  erewrite bind_done.
  2: { unfold deref_region. erewrite bind_done by reflexivity. rewrite (proj2 (Z.eqb_neq p 0)) by done.
       unfold liftO. rewrite Er. reflexivity. }
  erewrite bind_done.
  2: { unfold deref_chunks. erewrite bind_done by reflexivity.
       rewrite (proj2 (Z.eqb_neq (region_chunks r) 0)) by done. unfold liftO. rewrite Ecs. reflexivity. }
  rewrite Hn, Z.ltb_irrefl, Nat2Z.id, firstn_all. simpl drop. by rewrite drop_0, Es.
Qed.

(** ** Access to the index from the plugins *)

(** ** Access to chunks *)

Lemma deref_chunks_ok b cs s : b ≠ 0 → chunks s !! b = Some cs → deref_chunks b s = Done (cs, s).
Proof.
  intros Hb E. unfold deref_chunks. erewrite bind_done by reflexivity.
  rewrite (proj2 (Z.eqb_neq b 0)) by done. unfold liftO. by rewrite E.
Qed.

Lemma deref_region_ok p r s : p ≠ 0 → regions s !! p = Some r → deref_region p s = Done (r, s).
Proof.
  intros Hb E. unfold deref_region. erewrite bind_done by reflexivity.
  rewrite (proj2 (Z.eqb_neq p 0)) by done. unfold liftO. by rewrite E.
Qed.

Lemma deref_chunk_ok b i cs c s :
  b ≠ 0 → 0 ≤ i → chunks s !! b = Some cs → cs !! Z.to_nat i = Some c →
  deref_chunk (b, i) s = Done (c, s).
Proof.
  intros Hb Hi E Ec. unfold deref_chunk. simpl. erewrite bind_done by by apply deref_chunks_ok.
  rewrite (proj2 (Z.ltb_ge i 0)) by done. unfold liftO. by rewrite Ec.
Qed.

Lemma deref_chunk_inv b i s c s' :
  deref_chunk (b, i) s = Done (c, s') →
  s' = s ∧ 0 ≤ i ∧ b ≠ 0 ∧ ∃ cs, chunks s !! b = Some cs ∧ cs !! Z.to_nat i = Some c.
Proof.
  intros (cs & s1 & E1 & E2)%bind_done_inv. simpl in E1, E2.
  unfold deref_chunks in E1. apply bind_done_inv in E1 as (s2 & s3 & E3 & E4). injection E3 as <- <-.
  destruct (Z.eqb_spec b 0); [done|]. unfold liftO, orelse in E4.
  destruct (chunks s !! b) as [cs'|] eqn:Ecs; [|done]. injection E4 as <- <-.
  destruct (Z.ltb_spec i 0); [done|]. unfold liftO, orelse in E2.
  destruct (cs' !! Z.to_nat i) as [c'|] eqn:Ec; [|done]. injection E2 as <- <-. eauto 10.
Qed.

Lemma set_chunk_privData_ok b i v cs c s :
  b ≠ 0 → 0 ≤ i → chunks s !! b = Some cs → cs !! Z.to_nat i = Some c →
  set_chunk_privData (b, i) v s =
  Done (tt, set_chunks (<[b:=<[Z.to_nat i:=mkChunk (chunk_start c) (chunk_size c) (Some v)]> cs]> (chunks s)) s).
Proof.
  intros Hb Hi E Ec. unfold set_chunk_privData. erewrite bind_done by by apply (deref_chunk_ok _ _ cs).
  simpl. erewrite bind_done by by apply deref_chunks_ok. unfold write_chunks.
  by rewrite (proj2 (Z.eqb_neq b 0)).
Qed.

(** ** Private data in the index

    The index depends on regions and chunk arrays only up to their private
    data. *)

Definition shape (r : ShamblesRegion) : Z * Z * Z := (region_start r, region_nChunks r, region_chunks r).

Record retagged (s s' : structs) : Prop := {
  rt_globals : globals s' = globals s;
  rt_root : root s' = root s;
  rt_live : live s ⊆ live s';
  rt_regions : ∀ p, shape <$> regions s' !! p = shape <$> regions s !! p;
  rt_chunks : ∀ b, layout <$> chunks s' !! b = layout <$> chunks s !! b
}.

Lemma dom_fmap_eq {A B C} `{Countable K} (f : A → C) (g : B → C) (m : gmap K A) (m' : gmap K B) :
  (∀ k, f <$> m !! k = g <$> m' !! k) → dom m = dom m'.
Proof.
  intros E. apply set_eq. intros k. rewrite !elem_of_dom, <- (fmap_is_Some f), <- (fmap_is_Some g).
  by rewrite E.
Qed.

Lemma index_inv_retagged s s' d w L : index_inv s d w L → retagged s s' → index_inv s' d w L.
Proof.
  intros HI HR.
  pose proof (dom_fmap_eq _ _ _ _ (rt_regions _ _ HR)) as Hdr.
  pose proof (dom_fmap_eq _ _ _ _ (rt_chunks _ _ HR)) as Hdc.
  pose proof (rt_live _ _ HR).
  assert (∀ p r', regions s' !! p = Some r' → ∃ r, regions s !! p = Some r ∧ shape r' = shape r) as Hr.
  { intros p r' E. pose proof (rt_regions _ _ HR p) as E'. rewrite E in E'.
    destruct (regions s !! p) as [r|]; [|done]. exists r. split; [done|]. simpl in E'. congruence. }
  split; rewrite ?(rt_globals _ _ HR), ?(rt_root _ _ HR).
  - apply HI.
  - apply (ii_chunk HI).
  - apply (ii_root HI).
  - by rewrite Hdr, (ii_dom HI).
  - rewrite Hdr, Hdc. pose proof (ii_live HI). set_solver.
  - rewrite Hdr, Hdc. apply (ii_apart HI).
  - intros p a e HL. destruct (ii_region HI _ _ _ HL) as (r & cs & E1 & E2 & E3 & E4 & E5 & E6 & E7).
    pose proof (rt_regions _ _ HR p) as Ep. rewrite E1 in Ep.
    destruct (regions s' !! p) as [r'|]; [|done]. injection Ep as Es En Ec.
    pose proof (rt_chunks _ _ HR (region_chunks r)) as Eb. rewrite E4 in Eb.
    destruct (chunks s' !! region_chunks r) as [cs'|] eqn:Ecs; [|done]. injection Eb as Elay.
    exists r', cs'. rewrite Es, En, Ec.
    assert (length cs' = length cs) as Hlen
      by (pose proof (f_equal length Elay) as Hl; unfold layout in Hl; by rewrite !length_fmap in Hl).
    do 4 (split; [done|]).
    split; [by destruct cs, cs'|]. split; [by rewrite Hlen|]. by apply (contiguous_layout _ cs).
  - intros p q r r' Ep Eq Ec. destruct (Hr _ _ Ep) as (r1 & Ep' & [= _ _ E1]).
    destruct (Hr _ _ Eq) as (r2 & Eq' & [= _ _ E2]). apply (ii_blocks HI p q r1 r2); congruence.
Qed.

(** The region [p] is live just when the index's heap has it. *)
Lemma live_region s d w L p r :
  index_inv s d w L → regions s !! p = Some r → ∃ a e, L !! p = Some (a, e).
Proof.
  intros HI E. assert (is_Some (L !! p)) as [[a e] HL].
  { apply elem_of_dom. rewrite <- (ii_dom HI). by apply elem_of_dom_2 in E. }
  by exists a, e.
Qed.

(** ** Chunks of an array do not overlap *)

Lemma contiguous_in a cs e i c :
  contiguous a cs e → cs !! i = Some c → a ≤ chunk_start c ∧ chunk_start c + chunk_size c ≤ e.
Proof.
  revert a i. induction cs as [|c' cs IH]; intros a i H Ec; [done|].
  destruct H as (<- & Hs & H). destruct i as [|i]; simplify_eq/=.
  - apply contiguous_le in H. lia.
  - destruct (IH _ _ H Ec). lia.
Qed.

Lemma contiguous_apart a cs e i j c c' :
  contiguous a cs e → cs !! i = Some c → cs !! j = Some c' → (i < j)%nat →
  chunk_start c + chunk_size c ≤ chunk_start c'.
Proof.
  revert a i j. induction cs as [|c0 cs IH]; intros a i j H Ei Ej Hij; [done|].
  destruct H as (<- & Hs & H). destruct j as [|j]; [lia|]. destruct i as [|i]; simplify_eq/=.
  - apply (contiguous_in _ _ _ _ _ H Ej).
  - apply (IH _ i j H); done || lia.
Qed.
