(* ===== verification/StructuresTheorems.v ===== *)
(** * Theorems about the region index, with concrete instances *)
From stdpp Require Import base list gmap numbers.
From S2P Require Import Prelude Structures StructuresTree StructuresIndex StructuresSpec.

(** ** A concrete allocator and a concrete index

    A bump allocator discharges the promise of [PluginMalloc]; the index is the
    one the default configuration builds (threshold 64 KiB), with 256 KiB chunks
    and one region of 1 MiB + 20 KiB that starts inside a slot. *)

Definition bump_malloc : PluginMalloc := λ live _, 4096 + set_fold Z.max 0 live.

Lemma set_fold_max_bounds (live : gset Z) :
  0 ≤ set_fold Z.max 0 live ∧ ∀ x, x ∈ live → x ≤ set_fold Z.max 0 live.
Proof.
  apply (set_fold_ind_L (λ r X, 0 ≤ r ∧ ∀ x, x ∈ X → x ≤ r)).
  - split; [done|set_solver].
  - intros x X r Hx [H0 H]. split; [lia|].
    intros y [->%elem_of_singleton|Hy]%elem_of_union; [lia|]. specialize (H y Hy). lia.
Qed.

#[local] Existing Instance bump_malloc.

#[export] Instance bump_malloc_ok : @PluginMallocOk bump_malloc.
Proof.
  split; intros live n; unfold malloc_at, bump_malloc;
    destruct (set_fold_max_bounds live) as [H0 H]; [lia|].
  intros _ Hin. specialize (H _ Hin). lia.
Qed.

Lemma bump_positive (l : gset Z) n : malloc_at l n ≠ 0.
Proof. unfold malloc_at, bump_malloc. destruct (set_fold_max_bounds l). lia. Qed.

Lemma bump_served s n : region_served s n.
Proof. split; apply bump_positive. Qed.

Module Example.
(** [1 << 39] as the compiler folds it. *)
Definition folded_shl (_ : Z) : Z := 0.

Definition thr : Z := 0x10000.
Definition chunk : Z := 0x40000.
Definition start : Z := 0x7f0000001000.
Definition size : Z := 0x105000.
Definition win : Z := 254.

Definition state0 : structs :=
  match shamblesStructsInit folded_shl chunk thr with
  | Done s => s
  | Fault _ => mkStructs (mkGlobals 0 0 0 0 0 0 0 0 0 0 0 0) [] ∅ ∅ ∅
  end.

Lemma state0_inv : index_inv state0 1 win ∅.
Proof.
  destruct (init_index folded_shl chunk thr win) as (s & E & Hrs & HI); [done|done|].
  assert (state0 = s) as -> by (unfold state0; by rewrite E).
  assert (root_elements folded_shl (globals s) = 12) as Hr.
  { assert (match shamblesStructsInit folded_shl chunk thr with
            | Done s => root_elements folded_shl (globals s) | Fault _ => 0 end = 12) as H12
      by (vm_compute; reflexivity). by rewrite E in H12. }
  apply HI. lia.
Qed.

Lemma state0_globals : slot_bytes (globals state0) = 0x10000 ∧ CHUNK_SIZE (globals state0) = chunk.
Proof. vm_compute. done. Qed.

Definition run : Z * structs :=
  match addRegion start size state0 with
  | Done r => r
  | Fault _ => (0, state0)
  end.
Definition region : Z := fst run.
Definition state1 : structs := snd run.
Definition live1 : live_regions := <[region:=(start, start + size)]> ∅.

Lemma fits :
  region_ok (slot_bytes (globals state0)) start (start + size) ∧
  in_window (globals state0) 1 win start (start + size) ∧
  (size + CHUNK_SIZE (globals state0) - 1) / CHUNK_SIZE (globals state0) < 2 ^ 31.
Proof. vm_compute. repeat split; done. Qed.

Lemma disjoint_empty (q a' e' : Z) :
  (∅ : live_regions) !! q = Some (a', e') → start + size ≤ a' ∨ e' ≤ start.
Proof. by rewrite lookup_empty. Qed.

Lemma run_eq :
  addRegion start size state0 = Done run ∧ index_inv state1 1 win live1 ∧
  ∃ b, added state0 state1 region b start (split_chunks (CHUNK_SIZE (globals state0)) start size).
Proof.
  destruct fits as (H1 & H2 & H3).
  destruct (addRegion_ok state0 1 win ∅ start size state0_inv H1 H2 disjoint_empty H3 (bump_served _ _))
    as (p & b & s' & E & Hadd & HI & _).
  unfold state1, live1, region, run. rewrite E. cbn [fst snd].
  split; [reflexivity|]. split; [exact HI|]. exists b. exact Hadd.
Qed.

Definition state1_inv : index_inv state1 1 win live1 := proj1 (proj2 run_eq).

Lemma live1_region : live1 !! region = Some (start, start + size).
Proof. apply lookup_insert_eq. Qed.

(** The chunk array of the example's region is the one [addRegion] built. *)
Lemma live1_layout a e r cs :
  live1 !! region = Some (a, e) → regions state1 !! region = Some r →
  chunks state1 !! region_chunks r = Some cs →
  layout cs = layout (split_chunks (CHUNK_SIZE (globals state1)) a (e - a)).
Proof.
  rewrite live1_region. intros [= <- <-].
  intros Hr Hc. destruct run_eq as (_ & _ & b & Hadd).
  rewrite (added_chunks _ _ _ _ _ _ _ _ Hadd Hr Hc), (proj1 Hadd).
  by replace (start + size - start) with size by lia.
Qed.

(** An address in the middle of the region. *)
Lemma lookup_mid : getRegion (start + 0x90000) state1 = Done (region, state1).
Proof.
  destruct (getRegion_ok state1 1 win live1 (start + 0x90000) state1_inv)
    as (p & E & _ & Hex); [vm_compute; reflexivity|]. rewrite E.
  assert (p = region) as ->; [|reflexivity].
  apply (Hex _ _ _ live1_region); [vm_compute; split; [discriminate|reflexivity]|].
  left. vm_compute. reflexivity.
Qed.
End Example.

(** ** Initialisation *)

(** For every size threshold below 2^53 [shamblesStructsInit] returns: the
    mask loop terminates, slots are as large as the largest power of two not
    above the threshold, the tree has the depth [depth_of] gives (two levels up
    to 16 bytes, one up to 64 KiB, none above), and when the root array has an
    element the index is empty and well formed. *)
Theorem structs_init ov chunkSize thr w :
  1 ≤ thr < 2 ^ 53 → 0 < chunkSize < 2 ^ 64 →
  ∃ s, shamblesStructsInit ov chunkSize thr = Done s ∧
    REGION_SHIFT (globals s) = Z.log2 thr ∧
    depth_nat (globals s) = depth_of (Z.log2 thr) ∧
    (0 < root_elements ov (globals s) → index_inv s (depth_of (Z.log2 thr)) w ∅).
Proof.
  intros Ht Hc. destruct (init_index ov chunkSize thr w Ht Hc) as (s & E & Hrs & HI).
  exists s. split; [done|]. split; [done|]. split; [|done].
  destruct (init_globals_geometry ov chunkSize thr Ht) as (G & EG & HG & _).
  unfold shamblesStructsInit, mbind, outcome_bind in E. rewrite EG in E. injection E as <-.
  apply (geo_depth _ _ HG).
Qed.

Lemma structs_init_witness :
  ∃ s, shamblesStructsInit Example.folded_shl Example.chunk Example.thr = Done s ∧
    REGION_SHIFT (globals s) = 16 ∧ depth_nat (globals s) = 1%nat ∧
    (0 < root_elements Example.folded_shl (globals s) → index_inv s 1 254 ∅).
Proof. apply (structs_init Example.folded_shl Example.chunk Example.thr 254); done. Defined.

(** ** Lookup *)

(** C5: in a well-formed index, for an address in the window of the index (the addresses that agree with the
    live regions above the first level of the tree; for others the lookup aliases), [getRegion] returns; when it returns a
    region the address lies in that region, and it returns the region an address
    lies in exactly when the slot of the address is registered on the region's
    high side, or the region ends in that slot and another one starts in it. *)
Theorem getRegion_exact s d w L x :
  index_inv s d w L → window d (slot_of (globals s) x) = w →
  ∃ p, getRegion x s = Done (p, s) ∧
    (p ≠ 0 → ∃ a e, L !! p = Some (a, e) ∧ a ≤ x < e) ∧
    (∀ q a e, L !! q = Some (a, e) → a ≤ x < e →
       p = q ↔ resolved (slot_bytes (globals s)) L a e x).
Proof. apply getRegion_ok. Qed.

Lemma getRegion_exact_witness :
  ∃ p, getRegion (Example.start + 0x20000) Example.state1 = Done (p, Example.state1) ∧
    p = Example.region.
Proof.
  destruct (getRegion_exact Example.state1 1 Example.win Example.live1 (Example.start + 0x20000)
    Example.state1_inv) as (p & E & _ & Hex); [vm_compute; reflexivity|].
  exists p. split; [exact E|].
  apply (Hex _ _ _ Example.live1_region); [vm_compute; split; [discriminate|reflexivity]|].
  left. vm_compute. reflexivity.
Defined.

(** The lookup [free] makes, [getRegion] of the first address of a live
    region, finds the region unless the region starts on a slot boundary, and
    then finds nothing: [addRegion] skips the first slot of such a region. *)
Theorem getRegion_start s d w L p a e :
  index_inv s d w L → L !! p = Some (a, e) →
  getRegion a s = Done (if a `mod` slot_bytes (globals s) =? 0 then 0 else p, s).
Proof.
  intros HI HL. destruct (ii_root HI) as (nl & _ & HT).
  pose proof (slot_bytes_pos _ _ (ii_geo HI)) as Hrz.
  destruct (ro_each (ti_regions HT) _ _ _ HL) as (Hp & (Ha & Hae & He) & [Hw _]).
  destruct (getRegion_ok s d w L a HI Hw) as (q & E & Hsound & Hex). rewrite E. f_equal. f_equal.
  specialize (Hex p a e HL ltac:(lia)). unfold resolved in Hex.
  destruct (Z.eqb_spec (a `mod` slot_bytes (globals s)) 0) as [Hm|Hm].
  - destruct (decide (q = 0)) as [|Hq]; [done|exfalso].
    destruct (Hsound Hq) as (a' & e' & HL' & Hx).
    assert (q = p) as Hqp.
    { destruct (decide (q = p)) as [|Hne]; [done|].
      destruct (ro_disjoint (ti_regions HT) _ _ _ _ _ _ HL' HL Hne); lia. }
    assert (role_of (slot_bytes (globals s)) a e (a / slot_bytes (globals s)) = None) as Hr.
    { unfold role_of. by rewrite Z.eqb_refl, (proj2 (Z.eqb_eq _ _) Hm). }
    apply Hex in Hqp. rewrite Hr in Hqp. by destruct Hqp as [|[? _]].
  - apply Hex. left. unfold role_of. by rewrite Z.eqb_refl, (proj2 (Z.eqb_neq _ _) Hm).
Qed.

Lemma getRegion_start_witness :
  getRegion Example.start Example.state1 = Done (Example.region, Example.state1).
Proof.
  apply (getRegion_start Example.state1 1 Example.win Example.live1 Example.region
           Example.start (Example.start + Example.size) Example.state1_inv Example.live1_region).
Defined.

(** Addresses a multiple of the index's reach above an address that resolves
    on the high side resolve to the same region, although they lie outside of
    it: the bits of an address above the reach of the tree are never looked at
    (the root is always entered at index 0). *)
Theorem getRegion_aliases s d w L p a e x k :
  index_inv s d w L → L !! p = Some (a, e) → a ≤ x < e →
  on_side High (role_of (slot_bytes (globals s)) a e (x / slot_bytes (globals s))) = true →
  0 ≤ k →
  getRegion (x + k * (slot_bytes (globals s) * span d)) s = Done (p, s).
Proof.
  intros HI HL Hx Hr Hk. pose proof (slot_bytes_pos _ _ (ii_geo HI)) as Hrz.
  pose proof (span_pos d) as Hsp.
  destruct (getRegion_run s d w L (x + k * (slot_bytes (globals s) * span d)) HI)
    as (nl & _ & HT & ->). f_equal. f_equal.
  assert (slot_of (globals s) (x + k * (slot_bytes (globals s) * span d)) =
          x / slot_bytes (globals s) + k * span d) as ->.
  { unfold slot_of. fold (slot_bytes (globals s)).
    replace (x + k * (slot_bytes (globals s) * span d))
      with (x + k * span d * slot_bytes (globals s)) by lia. rewrite Z.div_add by lia. done. }
  rewrite (cell_same_key d nl _ (x / slot_bytes (globals s)))
    by (unfold same_key; rewrite Z.mod_add by lia; done).
  destruct (ti_side HT High _ _ _ _ HL Hr) as [Eq Ea]. simpl in *. unfold pick_region.
  rewrite (proj2 (Z.leb_le _ _)) by nia. done.
Qed.

Lemma getRegion_aliases_witness :
  getRegion (Example.start + 0x20000 + 1 * (slot_bytes (globals Example.state1) * span 1))
    Example.state1 = Done (Example.region, Example.state1).
Proof.
  apply (getRegion_aliases Example.state1 1 Example.win Example.live1 Example.region Example.start
           (Example.start + Example.size) (Example.start + 0x20000) 1 Example.state1_inv
           Example.live1_region); vm_compute; repeat split; discriminate || reflexivity.
Defined.

(** ** Adding and deleting regions *)

(** C6: take a region of at least a slot, disjoint from the live ones and in
    the same window, of fewer than 2^31 chunks.  If [plugin_malloc] serves the descriptor and the chunk array (the arrays of
    the tree are taken to be served), adding the region returns a fresh region descriptor whose chunks cut the
    region into [CHUNK_SIZE] pieces (the last one possibly shorter) without gap
    or overlap, leaves every other descriptor as it was, and keeps the index
    well formed for the enlarged set of live regions.  If it does not, the code writes through a null pointer. *)
Theorem addRegion_correct `{PluginMallocOk} s d w L a size :
  index_inv s d w L →
  region_ok (slot_bytes (globals s)) a (a + size) → in_window (globals s) d w a (a + size) →
  (∀ q a' e', L !! q = Some (a', e') → a + size ≤ a' ∨ e' ≤ a) →
  let n := (size + CHUNK_SIZE (globals s) - 1) / CHUNK_SIZE (globals s) in
  n < 2 ^ 31 →
  (region_served s n →
   ∃ p b s', addRegion a size s = Done (p, s') ∧
    added s s' p b a (split_chunks (CHUNK_SIZE (globals s)) a size) ∧
    contiguous a (split_chunks (CHUNK_SIZE (globals s)) a size) (a + size) ∧
    index_inv s' d w (<[p:=(a, a + size)]> L)) ∧
  (¬ region_served s n → addRegion a size s = Fault NullDeref).
Proof.
  intros HI Hok Hw Hdis n Hn. split; [|by apply (addRegion_unserved s d w L)].
  intros Hm. destruct (addRegion_ok s d w L a size HI Hok Hw Hdis Hn Hm)
    as (p & b & s' & E & Hadd & HI' & _).
  exists p, b, s'. split; [done|]. split; [done|]. split; [|done].
  destruct Hok as (Ha & Hae & He). pose proof (slot_bytes_pos _ _ (ii_geo HI)).
  apply split_chunks_contiguous; pose proof (ii_chunk HI); lia.
Qed.

Lemma addRegion_correct_witness :
  ∃ p b s', addRegion Example.start Example.size Example.state0 = Done (p, s') ∧
    added Example.state0 s' p b Example.start
      (split_chunks (CHUNK_SIZE (globals Example.state0)) Example.start Example.size).
Proof.
  destruct (proj1 (addRegion_correct Example.state0 1 Example.win ∅ Example.start Example.size
    Example.state0_inv (proj1 Example.fits) (proj1 (proj2 Example.fits)) Example.disjoint_empty
    (proj2 (proj2 Example.fits))) (bump_served _ _)) as (p & b & s' & E & Hadd & _).
  exists p, b, s'. split; [exact E|exact Hadd].
Defined.

Lemma added_deleted_root s s' s'' d w L p b a cs :
  index_inv s d w L → L !! p = None → added s s' p b a cs → index_inv s'' d w L →
  globals s'' = globals s' → length (root s'') = length (root s') →
  (∀ i, i ≠ 0%nat → root s'' !! i = root s' !! i) → root s'' = root s.
Proof.
  intros HI HLp Hadd HI'' Hg Hlen Hrest.
  destruct Hadd as (Hg' & _ & _ & _ & _ & _ & _ & _ & _ & Hlen' & Hrest').
  apply list_eq. intros [|i]; [|by rewrite Hrest, Hrest' by done].
  destruct (ii_root HI) as (nl & -> & HT). destruct (ii_root HI'') as (nl'' & -> & HT'').
  rewrite Hg, Hg' in HT''. f_equal. by eapply tree_inv_unique.
Qed.

(** C8: take a region of at least a slot, disjoint from the live ones and in the same window, of fewer
    than 2^31 chunks, for which [plugin_malloc] serves the descriptor and the chunk array.  Deleting it right after it
    was added restores the index exactly: the tree with all its reference counts, the descriptors, the chunk arrays
    and the set of live blocks, so that nothing the addition allocated stays
    behind. *)
Theorem add_delete_roundtrip `{PluginMallocOk} s d w L a size :
  index_inv s d w L →
  region_ok (slot_bytes (globals s)) a (a + size) → in_window (globals s) d w a (a + size) →
  (∀ q a' e', L !! q = Some (a', e') → a + size ≤ a' ∨ e' ≤ a) →
  (size + CHUNK_SIZE (globals s) - 1) / CHUNK_SIZE (globals s) < 2 ^ 31 →
  region_served s ((size + CHUNK_SIZE (globals s) - 1) / CHUNK_SIZE (globals s)) →
  ∃ p s', addRegion a size s = Done (p, s') ∧ deleteRegion p s' = Done (tt, s).
Proof.
  intros HI Hok Hw Hdis Hn Hm. destruct (addRegion_ok s d w L a size HI Hok Hw Hdis Hn Hm)
    as (p & b & s' & E & Hadd & HI' & _).
  pose proof (fresh_not_live s d w L p HI (proj1 (proj2 Hadd))) as HLp.
  destruct (deleteRegion_ok s' d w _ p a (a + size) HI') as
    (r & s'' & Er & E' & HI'' & Hg & Hr & Hc & Hl & Hlen & Hrest); [apply lookup_insert_eq|].
  rewrite delete_insert_id in HI'' by done.
  pose proof (added_deleted_root _ _ _ _ _ _ _ _ _ _ HI HLp Hadd HI'' Hg Hlen Hrest) as Hroot.
  exists p, s'. split; [done|]. rewrite E'. f_equal. f_equal.
  destruct Hadd as (Hg' & Hpl & Hbl & Hpb & Hp & Hb & Hl' & Hr' & Hc' & _).
  pose proof (ii_live HI) as Hlive.
  rewrite Hr', lookup_insert_eq in Er. injection Er as <-. simpl in *.
  rewrite Hr', delete_insert_id in Hr by (apply not_elem_of_dom; set_solver).
  rewrite Hc', delete_insert_id in Hc by (apply not_elem_of_dom; set_solver).
  assert (live s'' = live s) as Hl'' by (rewrite Hl, Hl'; set_solver).
  destruct s'', s. simpl in *. congruence.
Qed.

Lemma add_delete_roundtrip_witness :
  ∃ p s', addRegion Example.start Example.size Example.state0 = Done (p, s') ∧
          deleteRegion p s' = Done (tt, Example.state0).
Proof.
  apply (add_delete_roundtrip Example.state0 1 Example.win ∅ Example.start Example.size
    Example.state0_inv (proj1 Example.fits) (proj1 (proj2 Example.fits)) Example.disjoint_empty
    (proj2 (proj2 Example.fits)) (bump_served _ _)).
Defined.

(** C7: deleting a live region succeeds, forgets exactly that region, and keeps
    the index well formed for the others. *)
Theorem deleteRegion_correct s d w L p a e :
  index_inv s d w L → L !! p = Some (a, e) →
  ∃ s', deleteRegion p s = Done (tt, s') ∧ index_inv s' d w (delete p L) ∧
    regions s' = delete p (regions s).
Proof.
  intros HI HL. destruct (deleteRegion_ok s d w L p a e HI HL)
    as (r & s' & _ & E & HI' & _ & Hr & _). by exists s'.
Qed.

Lemma deleteRegion_correct_witness :
  ∃ s', deleteRegion Example.region Example.state1 = Done (tt, s') ∧
        regions s' = delete Example.region (regions Example.state1).
Proof.
  destruct (deleteRegion_correct Example.state1 1 Example.win Example.live1 Example.region
    Example.start (Example.start + Example.size) Example.state1_inv Example.live1_region)
    as (s' & E & _ & Hr). exists s'. split; [exact E|exact Hr].
Defined.

(** The tree depends only on which regions are live, not on the order they
    were added and deleted in: two well-formed indexes with the same globals and
    the same live regions have the same tree, reference counts included. *)
Theorem index_history_free s s' d w L :
  index_inv s d w L → index_inv s' d w L → globals s = globals s' →
  root s !! 0%nat = root s' !! 0%nat.
Proof.
  intros HI HI' Hg. destruct (ii_root HI) as (nl & -> & HT), (ii_root HI') as (nl' & -> & HT').
  rewrite <- Hg in HT'. f_equal. eapply tree_inv_unique; done.
Qed.

Lemma index_history_free_witness :
  ∃ p s' s'', addRegion Example.start Example.size Example.state0 = Done (p, s') ∧
    deleteRegion p s' = Done (tt, s'') ∧
    root s'' !! 0%nat = root Example.state0 !! 0%nat.
Proof.
  destruct (deleteRegion_ok Example.state1 1 Example.win Example.live1 Example.region
    Example.start (Example.start + Example.size) Example.state1_inv Example.live1_region)
    as (r & s'' & _ & E & HI & Hg & _).
  exists Example.region, Example.state1, s''.
  split; [rewrite (proj1 Example.run_eq); unfold Example.region, Example.state1; by destruct Example.run|].
  split; [exact E|].
  unfold Example.live1 in HI. rewrite delete_insert_id in HI by apply lookup_empty.
  apply (index_history_free s'' Example.state0 1 Example.win ∅ HI Example.state0_inv).
  rewrite Hg. vm_compute. reflexivity.
Defined.

(** ** Chunk lookup *)

(** [getChunkInfo] returns null for an address [getRegion] does not resolve;
    otherwise it returns an element of the region's chunk array, and that chunk
    contains the address (for regions cut by [addRegion], whatever their private
    data). *)
Theorem getChunkInfo_correct s d w L x p :
  index_inv s d w L → window d (slot_of (globals s) x) = w → getRegion x s = Done (p, s) →
  (∀ a e r cs, L !! p = Some (a, e) → regions s !! p = Some r →
     chunks s !! region_chunks r = Some cs →
     layout cs = layout (split_chunks (CHUNK_SIZE (globals s)) a (e - a))) →
  (p = 0 ∧ getChunkInfo x s = Done (NULLp, s)) ∨
  ∃ r cs i c, regions s !! p = Some r ∧ chunks s !! region_chunks r = Some cs ∧
    getChunkInfo x s = Done ((region_chunks r, i), s) ∧ 0 ≤ i ∧
    cs !! Z.to_nat i = Some c ∧ chunk_start c ≤ x < chunk_start c + chunk_size c.
Proof.
  intros HI Hw E Hlay. destruct (getChunkInfo_ok s d w L x p HI Hw E)
    as [?|(a & e & r & cs & HL & Hx & Er & Ecs & Hc)]; [by left|right].
  destruct (Hc (Hlay a e r cs HL Er Ecs)) as (i & c & ? & ? & ? & ?).
  by exists r, cs, i, c.
Qed.

Lemma getChunkInfo_correct_witness :
  ∃ r cs i c, regions Example.state1 !! Example.region = Some r ∧
    chunks Example.state1 !! region_chunks r = Some cs ∧
    getChunkInfo (Example.start + 0x90000) Example.state1
      = Done ((region_chunks r, i), Example.state1) ∧
    0 ≤ i ∧ cs !! Z.to_nat i = Some c ∧
    chunk_start c ≤ Example.start + 0x90000 < chunk_start c + chunk_size c.
Proof.
  destruct (getChunkInfo_correct Example.state1 1 Example.win Example.live1
    (Example.start + 0x90000) Example.region Example.state1_inv) as [[Hz _]|H].
  - vm_compute. reflexivity.
  - exact Example.lookup_mid.
  - exact Example.live1_layout.
  - vm_compute in Hz. discriminate.
  - exact H.
Defined.

(** [getChunkInfoNU], the lookup for regions with chunks of different sizes,
    returns null for an address [getRegion] does not resolve and otherwise the
    chunk that contains the address. *)
Theorem getChunkInfoNU_correct s d w L x p :
  index_inv s d w L → window d (slot_of (globals s) x) = w → getRegion x s = Done (p, s) →
  (p = 0 ∧ getChunkInfoNU x s = Done (NULLp, s)) ∨
  ∃ r cs k c, regions s !! p = Some r ∧ chunks s !! region_chunks r = Some cs ∧
    getChunkInfoNU x s = Done ((region_chunks r, Z.of_nat k), s) ∧
    cs !! k = Some c ∧ chunk_start c ≤ x < chunk_start c + chunk_size c.
Proof. apply getChunkInfoNU_ok. Qed.

Lemma getChunkInfoNU_correct_witness :
  ∃ r cs k c, regions Example.state1 !! Example.region = Some r ∧
    chunks Example.state1 !! region_chunks r = Some cs ∧
    getChunkInfoNU (Example.start + 0x90000) Example.state1
      = Done ((region_chunks r, Z.of_nat k), Example.state1) ∧
    cs !! k = Some c ∧ chunk_start c ≤ Example.start + 0x90000 < chunk_start c + chunk_size c.
Proof.
  destruct (getChunkInfoNU_correct Example.state1 1 Example.win Example.live1
    (Example.start + 0x90000) Example.region Example.state1_inv) as [[Hz _]|H].
  - vm_compute. reflexivity.
  - exact Example.lookup_mid.
  - vm_compute in Hz. discriminate.
  - exact H.
Defined.
