(* ===== verification/CList.v ===== *)
(** * Circular doubly linked lists

    [plugins/lru.c] and [plugins/window.c] each define [dq], [push] and [enq] on
    their own node type, with the same text.  The operations are defined here
    once, over any node type with a next and a previous link, and refined to the
    list operations they implement. *)
From stdpp Require Import base list gmap numbers.
From S2P Require Import Prelude Structures.

(** ** Nodes with two links *)

Class Linked (N : Type) : Type := {
  lnext : N → ptr;
  lprev : N → ptr;
  with_next : ptr → N → N;
  with_prev : ptr → N → N
}.

(** The node without its links: the part the list operations never change. *)
Definition bare {N} `{Linked N} (n : N) : N := with_prev NULLp (with_next NULLp n).

Class LinkedLaws (N : Type) `{Linked N} : Prop := {
  next_with_next : ∀ p n, lnext (with_next p n) = p;
  prev_with_next : ∀ p n, lprev (with_next p n) = lprev n;
  next_with_prev : ∀ p n, lnext (with_prev p n) = lnext n;
  prev_with_prev : ∀ p n, lprev (with_prev p n) = p;
  bare_with_next : ∀ p n, bare (with_next p n) = bare n;
  bare_with_prev : ∀ p n, bare (with_prev p n) = bare n
}.

Section ops.
Context {N : Type} `{Linked N}.
Abbreviation heap := (gmap ptr N).

Definition rd (p : ptr) : M heap N :=
  h ← get;
  if decide (p = NULLp) then throw NullDeref else liftO (h !! p ?? BadPointer).

Definition wr (p : ptr) (f : N → N) : M heap unit :=
  n ← rd p; modify (insert p (f n)).

(** [dq], [push] and [enq] return the new value of [*q]. *)
Definition dq (q node : ptr) : M heap ptr :=
  if decide (q = node) then
    n ← rd node;
    if decide (lnext n = node) then mret NULLp else
    let q' := lnext n in
    wr (lprev n) (with_next q');;
    n' ← rd node;
    wr q' (with_prev (lprev n'));;
    mret q'
  else
    n ← rd node;
    let next := lnext n in
    wr next (with_prev (lprev n));;
    n' ← rd node;
    wr (lprev n') (with_next next);;
    mret q.

(** The writes [push] and [enq] share: link [node] in front of [q]. *)
Definition link_before (q node : ptr) : M heap unit :=
  wr node (with_next q);;
  n ← rd q;
  wr node (with_prev (lprev n));;
  n' ← rd node;
  wr (lprev n') (with_next node);;
  wr q (with_prev node).

Definition link_self (node : ptr) : M heap unit :=
  wr node (with_prev node);; wr node (with_next node).

Definition push (q node : ptr) : M heap ptr :=
  if decide (q = NULLp) then link_self node;; mret node
  else link_before q node;; mret node.

Definition enq (q node : ptr) : M heap ptr :=
  if decide (q = NULLp) then link_self node;; mret node
  else link_before q node;; mret q.
End ops.

(** ** Representation *)

Section rep.
Context {N : Type} `{LinkedLaws N}.
Abbreviation heap := (gmap ptr N).
Implicit Types (h : heap) (p q : ptr) (l xs ys : list ptr).

Definition nxt h p : option ptr := lnext <$> h !! p.
Definition prv h p : option ptr := lprev <$> h !! p.

Fixpoint chain h (a : ptr) l : Prop :=
  match l with
  | [] => True
  | b :: l' => nxt h a = Some b ∧ prv h b = Some a ∧ chain h b l'
  end.

(** The nodes [xs], in this order, form a circle. *)
Definition circle h xs : Prop :=
  NoDup xs ∧ NULLp ∉ xs ∧
  match xs with [] => True | x :: xs' => chain h x (xs' ++ [x]) end.

(** The list whose head pointer is [q] holds [xs]. *)
Definition clist h q xs : Prop := circle h xs ∧ q = default NULLp (head xs).

(** [h'] is [h] with the links of the nodes in [X] changed, nothing else. *)
Definition relinked (X : list ptr) (h h' : heap) : Prop :=
  (∀ p, bare <$> h' !! p = bare <$> h !! p) ∧ (∀ p, p ∉ X → h' !! p = h !! p).

Lemma relinked_refl X h : relinked X h h.
Proof. done. Qed.

Lemma relinked_trans X Y h1 h2 h3 :
  relinked X h1 h2 → relinked Y h2 h3 → relinked (X ++ Y) h1 h3.
Proof.
  intros [A1 A2] [B1 B2]. split.
  - intros p. by rewrite B1.
  - intros p Hp. rewrite B2, A2; set_solver.
Qed.

Lemma relinked_mono X Y h h' : X ⊆ Y → relinked X h h' → relinked Y h h'.
Proof. intros Hs [A1 A2]. split; [done|]. intros p Hp. apply A2. set_solver. Qed.

Lemma relinked_lookup X h h' p n :
  relinked X h h' → h !! p = Some n → ∃ n', h' !! p = Some n' ∧ bare n' = bare n.
Proof.
  intros [HB _] E. specialize (HB p). rewrite E in HB.
  destruct (h' !! p) as [n'|]; [|done]. exists n'. split; [done|]. by injection HB.
Qed.

(** *** One write *)

Lemma rd_ok h p n : p ≠ NULLp → h !! p = Some n → rd p h = Done (n, h).
Proof.
  intros Hp E. unfold rd. erewrite bind_done by reflexivity.
  rewrite decide_False by done. unfold liftO. by rewrite E.
Qed.

Lemma wr_ok h p f n : p ≠ NULLp → h !! p = Some n → wr p f h = Done (tt, <[p:=f n]> h).
Proof. intros Hp E. unfold wr. erewrite bind_done by by apply rd_ok. done. Qed.

Lemma nxt_wr_next h p a n x : nxt (<[p:=with_next a n]> h) x = if decide (x = p) then Some a else nxt h x.
Proof.
  unfold nxt. case_decide; subst.
  - rewrite lookup_insert_eq. simpl. by rewrite next_with_next.
  - by rewrite lookup_insert_ne.
Qed.

Lemma prv_wr_prev h p a n x : prv (<[p:=with_prev a n]> h) x = if decide (x = p) then Some a else prv h x.
Proof.
  unfold prv. case_decide; subst.
  - rewrite lookup_insert_eq. simpl. by rewrite prev_with_prev.
  - by rewrite lookup_insert_ne.
Qed.

Lemma prv_wr_next h p a n x : h !! p = Some n → prv (<[p:=with_next a n]> h) x = prv h x.
Proof.
  intros E. unfold prv. destruct (decide (x = p)) as [->|Hne].
  - rewrite lookup_insert_eq, E. simpl. by rewrite prev_with_next.
  - by rewrite lookup_insert_ne.
Qed.

Lemma nxt_wr_prev h p a n x : h !! p = Some n → nxt (<[p:=with_prev a n]> h) x = nxt h x.
Proof.
  intros E. unfold nxt. destruct (decide (x = p)) as [->|Hne].
  - rewrite lookup_insert_eq, E. simpl. by rewrite next_with_prev.
  - by rewrite lookup_insert_ne.
Qed.

Lemma relinked_write h p n n' :
  h !! p = Some n → bare n' = bare n → relinked [p] h (<[p:=n']> h).
Proof.
  intros E HB. split.
  - intros x. destruct (decide (x = p)) as [->|Hne].
    + rewrite lookup_insert_eq, E. simpl. by rewrite HB.
    + by rewrite lookup_insert_ne.
  - intros x Hx. rewrite lookup_insert_ne; set_solver.
Qed.

Definition nodes_in h p : Prop := is_Some (h !! p).

(** [p->next = a] and [p->prev = a], as changes of the two link functions. *)
Lemma wr_next_ok h p a :
  p ≠ NULLp → nodes_in h p →
  ∃ h', wr p (with_next a) h = Done (tt, h') ∧ relinked [p] h h' ∧
    (∀ x, nxt h' x = if decide (x = p) then Some a else nxt h x) ∧
    (∀ x, prv h' x = prv h x).
Proof.
  intros Hp [n E]. eexists. split; [by apply wr_ok|]. split; [|split].
  - eapply relinked_write; [exact E|apply bare_with_next].
  - intros x. apply nxt_wr_next.
  - intros x. by apply prv_wr_next.
Qed.

Lemma wr_prev_ok h p a :
  p ≠ NULLp → nodes_in h p →
  ∃ h', wr p (with_prev a) h = Done (tt, h') ∧ relinked [p] h h' ∧
    (∀ x, nxt h' x = nxt h x) ∧
    (∀ x, prv h' x = if decide (x = p) then Some a else prv h x).
Proof.
  intros Hp [n E]. eexists. split; [by apply wr_ok|]. split; [|split].
  - eapply relinked_write; [exact E|apply bare_with_prev].
  - intros x. by apply nxt_wr_prev.
  - intros x. apply prv_wr_prev.
Qed.

Lemma relinked_in X h h' p : relinked X h h' → nodes_in h p → nodes_in h' p.
Proof. intros HR [n E]. destruct (relinked_lookup _ _ _ _ _ HR E) as (n' & E' & _). by exists n'. Qed.

Lemma nxt_in h p a : nxt h p = Some a → nodes_in h p.
Proof. unfold nxt, nodes_in. destruct (h !! p); [by eauto|done]. Qed.
Lemma prv_in h p a : prv h p = Some a → nodes_in h p.
Proof. unfold prv, nodes_in. destruct (h !! p); [by eauto|done]. Qed.

Lemma rd_prv h p a :
  p ≠ NULLp → prv h p = Some a → ∃ n, rd p h = Done (n, h) ∧ lprev n = a ∧ nxt h p = Some (lnext n).
Proof.
  unfold prv, nxt. intros Hp E. destruct (h !! p) as [n|] eqn:En; simplify_eq/=.
  exists n. split; [by apply rd_ok|]. done.
Qed.

(** *** Chains *)

Lemma chain_app h a l b l' :
  chain h a (l ++ b :: l') ↔ chain h a (l ++ [b]) ∧ chain h b l'.
Proof.
  revert a. induction l as [|c l IH]; intros a; simpl; [tauto|]. rewrite IH. tauto.
Qed.

Lemma chain_frame h h' a l :
  (∀ p, p ∈ a :: l → nxt h' p = nxt h p) → (∀ p, p ∈ l → prv h' p = prv h p) →
  chain h a l → chain h' a l.
Proof.
  revert a. induction l as [|b l IH]; intros a Hn Hp; simpl; [done|].
  intros (E1 & E2 & Hc). rewrite Hn, Hp by set_solver. split; [done|]. split; [done|].
  apply IH; [|set_solver|done]. intros p Hin. apply Hn. set_solver.
Qed.

(** The node before the end of a chain is one of the chain's. *)
Lemma chain_prv_last h a l b t : chain h a (l ++ [b]) → prv h b = Some t → t ∈ a :: l.
Proof.
  revert a. induction l as [|c l IH]; intros a; simpl.
  - intros (_ & E & _) E'. rewrite E in E'. set_solver.
  - intros (_ & _ & Hc) Ht. specialize (IH _ Hc Ht). set_solver.
Qed.

Lemma chain_end h a l b : chain h a (l ++ [b]) → ∃ t, prv h b = Some t.
Proof.
  revert a. induction l as [|c l IH]; intros a; simpl.
  - intros (_ & E & _). by exists a.
  - intros (_ & _ & Hc). by apply (IH c).
Qed.

(** Pointing the last node [t] of a chain at another end [b']. *)
Lemma chain_redirect h h' a l b b' t :
  chain h a (l ++ [b]) → NoDup (a :: l) → prv h b = Some t →
  (∀ x, x ∈ a :: l → x ≠ t → nxt h' x = nxt h x) →
  (∀ x, x ∈ l → prv h' x = prv h x) →
  nxt h' t = Some b' → prv h' b' = Some t →
  chain h' a (l ++ [b']).
Proof.
  revert a. induction l as [|c l IH]; intros a; simpl.
  - intros (_ & E & _) _ Ht _ _ Hn Hp. rewrite E in Ht. by injection Ht as ->.
  - intros (E1 & E2 & Hc) Hnd Ht Hn Hp Hn' Hp'.
    pose proof (chain_prv_last _ _ _ _ _ Hc Ht) as Hin.
    apply list.NoDup_cons in Hnd as [Ha Hnd].
    rewrite Hn, Hp by set_solver. split; [done|]. split; [done|].
    apply IH; try done; intros x Hx; [intros; apply Hn|apply Hp]; set_solver.
Qed.

Lemma circle_rotate h xs ys : circle h (xs ++ ys) → circle h (ys ++ xs).
Proof.
  intros (Hnd & Hnull & Hc). split; [|split].
  - by rewrite Permutation_app_comm.
  - set_solver.
  - destruct xs as [|x xs]; [by rewrite app_nil_r in *|].
    destruct ys as [|y ys]; [by rewrite app_nil_r in Hc|].
    rewrite <- app_comm_cons, <- app_assoc in Hc. simpl in Hc.
    apply chain_app in Hc as [Hxy Hyx].
    simpl. rewrite <- app_assoc. simpl. by apply chain_app.
Qed.

Lemma circle_agree h h' xs : (∀ x, x ∈ xs → h' !! x = h !! x) → circle h xs → circle h' xs.
Proof.
  intros HR (Hnd & Hnull & Hc). split; [done|]. split; [done|].
  destruct xs as [|x xs]; [done|].
  eapply chain_frame; [| |exact Hc]; intros p Hp; unfold nxt, prv; rewrite HR; try done;
    clear -Hp; rewrite ?elem_of_cons, ?elem_of_app, ?list_elem_of_singleton in *; tauto.
Qed.

Lemma clist_agree h h' q xs : (∀ x, x ∈ xs → h' !! x = h !! x) → clist h q xs → clist h' q xs.
Proof. intros HR [Hc ->]. split; [|done]. by eapply circle_agree. Qed.

Lemma circle_frame X h h' xs : relinked X h h' → (∀ x, x ∈ xs → x ∉ X) → circle h xs → circle h' xs.
Proof. intros [_ HR] Hdis. apply circle_agree. auto. Qed.

Lemma clist_frame X h h' q xs : relinked X h h' → (∀ x, x ∈ xs → x ∉ X) → clist h q xs → clist h' q xs.
Proof. intros HR Hd [Hc ->]. split; [|done]. by eapply circle_frame. Qed.

(** Every node of a circle has its two neighbours in the circle. *)
Lemma circle_head h x xs :
  circle h (x :: xs) → ∃ t, prv h x = Some t ∧ t ∈ x :: xs ∧ nxt h x = Some (hd x xs).
Proof.
  intros (_ & _ & Hc).
  destruct (chain_end _ _ _ _ Hc) as [t Ht].
  exists t. split; [done|]. split; [by eapply chain_prv_last|].
  destruct xs; simpl in *; tauto.
Qed.

Lemma circle_in h xs x : circle h xs → x ∈ xs → nodes_in h x ∧ x ≠ NULLp.
Proof.
  intros Hc Hx. split; [|destruct Hc as (_ & Hn & _); by intros ->].
  apply list_elem_of_split in Hx as (l1 & l2 & ->).
  apply circle_rotate in Hc. simpl in Hc.
  apply circle_head in Hc as (t & Ht & _). by eapply prv_in.
Qed.

(** *** The operations *)

Lemma link_self_ok h node :
  node ≠ NULLp → nodes_in h node →
  ∃ h', link_self node h = Done (tt, h') ∧ circle h' [node] ∧ relinked [node] h h'.
Proof.
  intros Hn Hin.
  destruct (wr_prev_ok h node node Hn Hin) as (h1 & E1 & R1 & N1 & P1).
  destruct (wr_next_ok h1 node node Hn (relinked_in _ _ _ _ R1 Hin)) as (h2 & E2 & R2 & N2 & P2).
  exists h2. split; [|split].
  - unfold link_self. by erewrite bind_done by exact E1.
  - split; [apply NoDup_singleton|]. split; [set_solver|]. simpl.
    rewrite N2, P2, P1. by destruct (decide (node = node)).
  - eapply relinked_mono; [|by eapply relinked_trans]. set_solver.
Qed.

Lemma link_before_ok h q xs node :
  circle h (q :: xs) → node ∉ q :: xs → node ≠ NULLp → nodes_in h node →
  ∃ h', link_before q node h = Done (tt, h') ∧ circle h' (node :: q :: xs) ∧
        relinked (node :: q :: xs) h h'.
Proof.
  intros HC Hout Hn Hin.
  destruct (circle_in _ _ q HC ltac:(set_solver)) as [Hqin Hqn].
  destruct (circle_head _ _ _ HC) as (t & Ht & Htin & _).
  destruct (circle_in _ _ t HC Htin) as [Htin' Htn].
  assert (node ≠ q ∧ node ≠ t) as [Hnq Hnt] by set_solver.
  destruct (wr_next_ok h node q Hn Hin) as (h1 & E1 & R1 & N1 & P1).
  destruct (rd_prv h1 q t Hqn ltac:(by rewrite P1)) as (nq & Eq & Hlt & _).
  destruct (wr_prev_ok h1 node t Hn (relinked_in _ _ _ _ R1 Hin)) as (h2 & E2 & R2 & N2 & P2).
  destruct (rd_prv h2 node t Hn) as (nn & En & Hlt' & _); [by rewrite P2, decide_True|].
  destruct (wr_next_ok h2 t node Htn) as (h3 & E3 & R3 & N3 & P3).
  { by do 2 (eapply relinked_in; [eassumption|]). }
  destruct (wr_prev_ok h3 q node Hqn) as (h4 & E4 & R4 & N4 & P4).
  { by do 3 (eapply relinked_in; [eassumption|]). }
  assert (∀ x, nxt h4 x = if decide (x = t) then Some node else if decide (x = node) then Some q else nxt h x) as HN
    by (intros x; by rewrite N4, N3, N2, N1).
  assert (∀ x, prv h4 x = if decide (x = q) then Some node else if decide (x = node) then Some t else prv h x) as HP
    by (intros x; by rewrite P4, P3, P2, P1).
  exists h4. split; [|split].
  - unfold link_before. erewrite bind_done by exact E1. erewrite bind_done by exact Eq.
    rewrite Hlt. erewrite bind_done by exact E2. erewrite bind_done by exact En.
    rewrite Hlt'. by erewrite bind_done by exact E3.
  - destruct HC as (Hnd & Hnull & Hc).
    split; [by constructor|]. split; [set_solver|].
    simpl. rewrite HN, decide_False, decide_True, HP, decide_True by done.
    split; [done|]. split; [done|].
    apply (chain_redirect h h4 q xs q node t); try done.
    + intros x Hx Hxt. rewrite HN, decide_False, decide_False; set_solver.
    + intros x Hx. apply list.NoDup_cons in Hnd as [Hq _].
      rewrite HP, decide_False, decide_False; set_solver.
    + by rewrite HN, decide_True.
    + by rewrite HP, decide_False, decide_True by done.
  - eapply relinked_mono; [|eapply relinked_trans; [eapply relinked_trans; [eapply relinked_trans|]|]; eassumption].
    set_solver.
Qed.

Lemma push_ok h q xs node :
  clist h q xs → node ∉ xs → node ≠ NULLp → nodes_in h node →
  ∃ h', push q node h = Done (node, h') ∧ clist h' node (node :: xs) ∧ relinked (node :: xs) h h'.
Proof.
  intros [HC ->] Hout Hn Hin. unfold push. destruct xs as [|x xs]; simpl.
  - destruct (link_self_ok h node Hn Hin) as (h' & E & Hc & HR).
    exists h'. split; [by erewrite bind_done by exact E|]. done.
  - destruct (circle_in _ _ x HC ltac:(set_solver)) as [_ Hx]. rewrite decide_False by done.
    destruct (link_before_ok h x xs node HC Hout Hn Hin) as (h' & E & Hc & HR).
    exists h'. split; [by erewrite bind_done by exact E|]. done.
Qed.

Lemma enq_ok h q xs node :
  clist h q xs → node ∉ xs → node ≠ NULLp → nodes_in h node →
  ∃ h' q', enq q node h = Done (q', h') ∧ clist h' q' (xs ++ [node]) ∧ relinked (node :: xs) h h'.
Proof.
  intros [HC ->] Hout Hn Hin. unfold enq. destruct xs as [|x xs]; simpl.
  - destruct (link_self_ok h node Hn Hin) as (h' & E & Hc & HR).
    exists h', node. split; [by erewrite bind_done by exact E|]. done.
  - destruct (circle_in _ _ x HC ltac:(set_solver)) as [_ Hx]. rewrite decide_False by done.
    destruct (link_before_ok h x xs node HC Hout Hn Hin) as (h' & E & Hc & HR).
    exists h', x. split; [by erewrite bind_done by exact E|].
    split; [|done]. split; [|done]. by apply (circle_rotate h' [node] (x :: xs)) in Hc.
Qed.

(** Both orders in which [dq] writes the two links around [node]. *)
Lemma unlink_ok h h' node y ys t :
  circle h (node :: y :: ys) → prv h node = Some t →
  (∀ x, nxt h' x = if decide (x = t) then Some y else nxt h x) →
  (∀ x, prv h' x = if decide (x = y) then Some t else prv h x) →
  circle h' (y :: ys).
Proof.
  intros (Hnd & Hnull & Hc) Ht HN HP.
  apply list.NoDup_cons in Hnd as [Hnode Hnd].
  split; [done|]. split; [set_solver|].
  simpl in Hc. destruct Hc as (_ & _ & Hc).
  apply (chain_redirect h h' y ys node y t); try done.
  - intros x Hx Hxt. by rewrite HN, decide_False.
  - intros x Hx. apply list.NoDup_cons in Hnd as [Hy _]. rewrite HP, decide_False; set_solver.
  - by rewrite HN, decide_True.
  - by rewrite HP, decide_True.
Qed.

Lemma dq_ok h q l1 node l2 :
  clist h q (l1 ++ node :: l2) →
  ∃ h' q', dq q node h = Done (q', h') ∧ clist h' q' (l1 ++ l2) ∧ relinked (l1 ++ l2) h h'.
Proof.
  intros [HC ->]. pose proof HC as HR.
  apply circle_rotate in HR. simpl in HR.
  destruct (circle_in _ _ node HR ltac:(set_solver)) as [Hin Hn].
  destruct (circle_head _ _ _ HR) as (t & Ht & Htin & Hnx).
  destruct (rd_prv h node t Hn Ht) as (nn & En & Hlp & Hln).
  rewrite Hnx in Hln. injection Hln as Hln. unfold dq.
  destruct (l2 ++ l1) as [|y ys] eqn:El.
  { apply app_eq_nil in El as [-> ->]. simpl in *. rewrite decide_True by done.
    erewrite bind_done by exact En. rewrite <- Hln, decide_True by done.
    exists h, NULLp. split; [done|]. split; [|done]. split; [|done].
    split; [constructor|]. split; [set_solver|done]. }
  simpl in Hln.
  assert (y ≠ node ∧ t ≠ node) as [Hyn Htn].
  { destruct HR as (Hnd & _ & Hc). apply list.NoDup_cons in Hnd as [Hnd _]. split; [set_solver|].
    intros ->. simpl in Hc. destruct Hc as (_ & _ & Hc).
    pose proof (chain_prv_last _ _ _ _ _ Hc Ht). done. }
  destruct (circle_in _ _ y HR ltac:(set_solver)) as [Hyin Hy0].
  destruct (circle_in _ _ t HR Htin) as [Htin' Ht0].
  assert (y :: ys ⊆ l1 ++ l2) as Hsub by (rewrite <- El; set_solver).
  assert (∀ h', circle h' (y :: ys) → circle h' (l1 ++ l2)) as Hrot
    by (intros h' Hc; rewrite <- El in Hc; by apply circle_rotate).
  destruct l1 as [|x l1]; simpl.
  - rewrite decide_True by done. erewrite bind_done by exact En.
    rewrite <- Hln, decide_False, Hlp by done.
    destruct (wr_next_ok h t y Ht0 Htin') as (h1 & E1 & R1 & N1 & P1).
    destruct (rd_prv h1 node t Hn ltac:(by rewrite P1)) as (n1 & En1 & Hlp1 & _).
    destruct (wr_prev_ok h1 y t Hy0 (relinked_in _ _ _ _ R1 Hyin)) as (h2 & E2 & R2 & N2 & P2).
    exists h2, y. split; [|split].
    + erewrite bind_done by exact E1. erewrite bind_done by exact En1.
      rewrite Hlp1. by erewrite bind_done by exact E2.
    + rewrite app_nil_r in El. subst l2. split; [|done].
      apply (unlink_ok h h2 node y ys t HR Ht); intros z; [by rewrite N2, N1|by rewrite P2, P1].
    + eapply relinked_mono; [|by eapply relinked_trans]. simpl in *. set_solver.
  - rewrite decide_False by (destruct HC as (Hnd & _); apply list.NoDup_cons in Hnd; set_solver).
    erewrite bind_done by exact En. rewrite <- Hln, Hlp.
    destruct (wr_prev_ok h y t Hy0 Hyin) as (h1 & E1 & R1 & N1 & P1).
    destruct (rd_prv h1 node t Hn) as (n1 & En1 & Hlp1 & _); [by rewrite P1, decide_False|].
    destruct (wr_next_ok h1 t y Ht0 (relinked_in _ _ _ _ R1 Htin')) as (h2 & E2 & R2 & N2 & P2).
    exists h2, x. split; [|split].
    + erewrite bind_done by exact E1. erewrite bind_done by exact En1.
      rewrite Hlp1. by erewrite bind_done by exact E2.
    + split; [|done]. apply Hrot.
      apply (unlink_ok h h2 node y ys t HR Ht); intros z; [by rewrite N2, N1|by rewrite P2, P1].
    + eapply relinked_mono; [|by eapply relinked_trans]. set_solver.
Qed.
End rep.
