(* ===== verification/Migration.v ===== *)
(** * Events and migrations: [plugins/migration.c], [plugins/include/tracking.h]

    The plugins act on the outside through the [mbind] system call and, in the
    builds with [SHAMBLES_LOG], through the three logging calls.  Both are
    events appended to a trace, in the order the code performs them. *)
From stdpp Require Import base list gmap numbers.
From S2P Require Import Prelude Config Structures.

(** ** Events *)

Inductive AllocEventType :=
| ALLOC_EVENT_ALLOC
| ALLOC_EVENT_REALLOC
| ALLOC_EVENT_FREE
| ALLOC_EVENT_SIZE.

Inductive Direction :=
| INITFAST
| INITSLOW
| SLOW2FAST
| FAST2SLOW.

Inductive MemLoc := FAST | SLOW.

#[export] Instance AllocEventType_eq_dec : EqDecision AllocEventType.
Proof. solve_decision. Defined.
#[export] Instance Direction_eq_dec : EqDecision Direction.
Proof. solve_decision. Defined.
#[export] Instance MemLoc_eq_dec : EqDecision MemLoc.
Proof. solve_decision. Defined.

Definition LOG_TRACKED : Z := 1.
Definition LOG_HIT : Z := 2.

(** The policy argument of [mbind] with its node mask: [MPOL_DEFAULT], or
    [MPOL_BIND] to a mask of [maxnode] bits. *)
Inductive policy :=
| MPOL_DEFAULT
| MPOL_BIND (mask maxnode : Z).

#[export] Instance policy_eq_dec : EqDecision policy.
Proof. solve_decision. Defined.

Inductive event :=
| EvMbind (start len : Z) (mode : policy) (move : bool)
| EvAlloc (type : AllocEventType) (in_ out size : Z)
| EvSample (addr code flags : Z)
| EvMigration (dir : Direction) (addr size : Z).

#[export] Instance event_eq_dec : EqDecision event.
Proof. solve_decision. Defined.

(** ** The wrappers of [migration.c]

    Each returns the events it performs.  [logging] says whether the file is
    compiled with [SHAMBLES_LOG]. *)

Section wrappers.
Context (logging : bool) (config : ShamblesPluginConfig).

Definition LOG_ALLOC (type : AllocEventType) (in_ out size : Z) : list event :=
  if logging then [EvAlloc type in_ out size] else [].
Definition LOG_SAMPLE (addr code flags : Z) : list event :=
  if logging then [EvSample addr code flags] else [].
Definition LOG_MIGRATION (dir : Direction) (addr size : Z) : list event :=
  if logging then [EvMigration dir addr size] else [].

Definition to_fast : policy := MPOL_BIND (fastmask config) (maxnode config).
Definition to_slow : policy := MPOL_BIND (slowmask config) (maxnode config).

(** [unbind] takes the region and the first element of its chunk array. *)
Definition unbind (region : ShamblesRegion) (first : ShamblesChunk) : list event :=
  [EvMbind (region_start region) (chunk_size first) MPOL_DEFAULT false].

Definition bindFast (chunk : ShamblesChunk) : list event :=
  EvMbind (chunk_start chunk) (chunk_size chunk) to_fast true
  :: LOG_MIGRATION SLOW2FAST (chunk_start chunk) (chunk_size chunk).

Definition bindSlow (chunk : ShamblesChunk) : list event :=
  EvMbind (chunk_start chunk) (chunk_size chunk) to_slow true
  :: LOG_MIGRATION FAST2SLOW (chunk_start chunk) (chunk_size chunk).

Definition bindFastAlloc (chunk : ShamblesChunk) : list event :=
  EvMbind (chunk_start chunk) (chunk_size chunk) to_fast true
  :: LOG_MIGRATION INITFAST (chunk_start chunk) (chunk_size chunk).

Definition bindSlowAlloc (chunk : ShamblesChunk) : list event :=
  EvMbind (chunk_start chunk) (chunk_size chunk) to_slow true
  :: LOG_MIGRATION INITSLOW (chunk_start chunk) (chunk_size chunk).

Definition swap (fastChunk slowChunk : ShamblesChunk) : list event :=
  EvMbind (chunk_start slowChunk) (chunk_size slowChunk) to_slow true
  :: EvMbind (chunk_start fastChunk) (chunk_size fastChunk) to_fast true
  :: LOG_MIGRATION SLOW2FAST (chunk_start fastChunk) (chunk_size fastChunk)
  ++ LOG_MIGRATION FAST2SLOW (chunk_start slowChunk) (chunk_size slowChunk).
End wrappers.

Definition mask_of (config : ShamblesPluginConfig) (l : MemLoc) : policy :=
  match l with FAST => to_fast config | SLOW => to_slow config end.

(** ** What a trace means for an address

    The policy in force at an address is the one of the last [mbind] whose range
    covers it, as the system call documents. *)

Definition covers (start len x : Z) : bool := (start <=? x) && (x <? start + len).

Definition policy_step (x : Z) (p : policy) (e : event) : policy :=
  match e with
  | EvMbind start len mode _ => if covers start len x then mode else p
  | _ => p
  end.

Definition policy_at (t : list event) (x : Z) : policy := foldl (policy_step x) MPOL_DEFAULT t.

Definition in_chunk (c : ShamblesChunk) (x : Z) : Prop :=
  chunk_start c ≤ x < chunk_start c + chunk_size c.

Lemma covers_spec start len x : covers start len x = true ↔ start ≤ x < start + len.
Proof. unfold covers. rewrite andb_true_iff, Z.leb_le, Z.ltb_lt. lia. Qed.

Lemma covers_out start len x : ¬ (start ≤ x < start + len) → covers start len x = false.
Proof. intros H. apply not_true_is_false. by rewrite covers_spec. Qed.

Section policies.
Context (logging : bool) (config : ShamblesPluginConfig).

Lemma policy_at_app t t' x : policy_at (t ++ t') x = foldl (policy_step x) (policy_at t x) t'.
Proof. unfold policy_at. by rewrite foldl_app. Qed.

Lemma policy_log_migration p dir a n x : foldl (policy_step x) p (LOG_MIGRATION logging dir a n) = p.
Proof. unfold LOG_MIGRATION. by destruct logging. Qed.

(** Appending a single binding of a chunk. *)
Lemma policy_bind t c mode b dir x :
  policy_at (t ++ EvMbind (chunk_start c) (chunk_size c) mode b
               :: LOG_MIGRATION logging dir (chunk_start c) (chunk_size c)) x
  = if covers (chunk_start c) (chunk_size c) x then mode else policy_at t x.
Proof. rewrite policy_at_app. simpl. by rewrite policy_log_migration. Qed.

Lemma policy_swap t fc sc x :
  policy_at (t ++ swap logging config fc sc) x
  = if covers (chunk_start fc) (chunk_size fc) x then to_fast config
    else if covers (chunk_start sc) (chunk_size sc) x then to_slow config
    else policy_at t x.
Proof.
  rewrite policy_at_app. unfold swap. simpl. by rewrite foldl_app, !policy_log_migration.
Qed.

Lemma policy_log_sample t a c f x : policy_at (t ++ LOG_SAMPLE logging a c f) x = policy_at t x.
Proof. rewrite policy_at_app. unfold LOG_SAMPLE. by destruct logging. Qed.

Lemma policy_log_alloc t ty i o n x : policy_at (t ++ LOG_ALLOC logging ty i o n) x = policy_at t x.
Proof. rewrite policy_at_app. unfold LOG_ALLOC. by destruct logging. Qed.
End policies.
