(* ===== verification/Lru.v ===== *)
(** * The LRU placement plugin, [plugins/lru.c]

    Data and operations.  The plugin keeps one list node per chunk, in one of two
    circular lists: [mru] for the chunks in fast memory and [lru] for the others.
    [LruQueues] proves what the steps do to the two lists and [LruSpec] that the
    plugin implements a single recency list. *)
From stdpp Require Import base list gmap numbers strings.
From S2P Require Import Prelude CLib Config Structures CList Migration.

(** ** Data *)

Record LRUlist := mkLRU {
  node_chunk : ptr;
  node_loc : option MemLoc;     (* [None]: not initialised yet *)
  node_next : ptr;
  node_prev : ptr
}.

Definition set_loc (l : MemLoc) (n : LRUlist) : LRUlist :=
  mkLRU (node_chunk n) (Some l) (node_next n) (node_prev n).

#[export] Instance LRUlist_linked : Linked LRUlist := {
  lnext := node_next;
  lprev := node_prev;
  with_next p n := mkLRU (node_chunk n) (node_loc n) p (node_prev n);
  with_prev p n := mkLRU (node_chunk n) (node_loc n) (node_next n) p
}.

#[export] Instance LRUlist_laws : LinkedLaws LRUlist.
Proof. by split. Qed.

Definition sizeof_LRUlist : Z := 32.

(** The globals of [lru.c] with the memory they point into. *)
Record lru_state := mkState {
  index : structs;
  nodes : gmap ptr LRUlist;
  mru : ptr;
  lru : ptr;
  freeFastChunks : Z;           (* an [int] *)
  trace : list event
}.

Definition set_index (x : structs) (s : lru_state) : lru_state :=
  mkState x (nodes s) (mru s) (lru s) (freeFastChunks s) (trace s).
Definition set_nodes (x : gmap ptr LRUlist) (s : lru_state) : lru_state :=
  mkState (index s) x (mru s) (lru s) (freeFastChunks s) (trace s).
Definition set_mru (x : ptr) (s : lru_state) : lru_state :=
  mkState (index s) (nodes s) x (lru s) (freeFastChunks s) (trace s).
Definition set_lru (x : ptr) (s : lru_state) : lru_state :=
  mkState (index s) (nodes s) (mru s) x (freeFastChunks s) (trace s).
Definition set_free (x : Z) (s : lru_state) : lru_state :=
  mkState (index s) (nodes s) (mru s) (lru s) x (trace s).
Definition set_trace (x : list event) (s : lru_state) : lru_state :=
  mkState (index s) (nodes s) (mru s) (lru s) (freeFastChunks s) x.

Definition on_index {A} (m : M structs A) : M lru_state A := zoom index set_index m.
Definition on_nodes {A} (m : M (gmap ptr LRUlist) A) : M lru_state A := zoom nodes set_nodes m.
Definition emit (evs : list event) : M lru_state unit := modify (λ s, set_trace (trace s ++ evs) s).

(** [f(&mru, node)] and [f(&lru, node)] for [f] one of [dq], [push], [enq]. *)
Definition at_mru (f : ptr → ptr → M (gmap ptr LRUlist) ptr) (node : ptr) : M lru_state unit :=
  s ← get; q ← on_nodes (f (mru s) node); modify (set_mru q).
Definition at_lru (f : ptr → ptr → M (gmap ptr LRUlist) ptr) (node : ptr) : M lru_state unit :=
  s ← get; q ← on_nodes (f (lru s) node); modify (set_lru q).

Definition read_loc (node : ptr) : M lru_state MemLoc :=
  n ← on_nodes (rd node); liftO (node_loc n ?? Uninitialised).

(** ** The callbacks *)

Section callbacks.
Context `{PluginMalloc} (logging : bool) (config : ShamblesPluginConfig).

(** The [for] loop over the new nodes. *)
Definition init_nodes (block chunks : Z) (n : nat) : M lru_state unit :=
  for_n n 0 (λ i,
    modify (λ s, set_nodes (<[(block, i) := mkLRU (chunks, i) None NULLp NULLp]> (nodes s)) s);;
    on_index (set_chunk_privData (chunks, i) (block, i))).

Definition place_fast1 (block chunks i : Z) : M lru_state unit :=
  on_nodes (wr (block, i) (set_loc FAST));;
  at_mru enq (block, i);;
  c ← on_index (deref_chunk (chunks, i));
  emit (bindFastAlloc logging config c);;
  modify (λ s, set_free (i32 (freeFastChunks s - 1)) s).

Definition place_slow1 (block chunks i : Z) : M lru_state unit :=
  on_nodes (wr (block, i) (set_loc SLOW));;
  at_lru enq (block, i);;
  c ← on_index (deref_chunk (chunks, i));
  emit (bindSlowAlloc logging config c).

(** [while(freeFastChunks && i < region->nChunks)] with [n] chunks left; the
    second loop places the rest. *)
Fixpoint place (block chunks : Z) (n : nat) (i : Z) : M lru_state unit :=
  match n with
  | O => mret tt
  | S n' =>
      s ← get;
      if freeFastChunks s =? 0 then for_n n i (place_slow1 block chunks)
      else place_fast1 block chunks i;; place block chunks n' (i + 1)
  end.

Definition on_alloc (out size : Z) : M lru_state unit :=
  if size <? sizeThresshold config then mret tt else
  p ← on_index (addRegion out size);
  region ← on_index (deref_region p);
  block ← on_index (plugin_malloc (region_nChunks region * sizeof_LRUlist));
  on_index (write_region p (mkRegion (region_start region) (region_nChunks region)
                              (region_chunks region) (Some block)));;
  if block =? 0 then throw Aborted else
  let n := Z.to_nat (region_nChunks region) in
  init_nodes block (region_chunks region) n;;
  place block (region_chunks region) n 0.

(** The body of the loop over the nodes of a region being freed.  [bound] is
    [region->chunks + region->nChunks]. *)
Definition release1 (bound : ptr) (node : ptr) : M lru_state unit :=
  l ← read_loc node;
  match l with
  | SLOW => at_lru dq node
  | FAST =>
      at_mru dq node;;
      s ← get;
      if decide (lru s = NULLp) then modify (λ s, set_free (i32 (freeFastChunks s + 1)) s) else
      let promoted := lru s in
      at_lru dq promoted;;
      on_nodes (wr promoted (set_loc FAST));;
      pn ← on_nodes (rd promoted);
      (if chunk_addr bound <? chunk_addr (node_chunk pn) then
         c ← on_index (deref_chunk (node_chunk pn)); emit (bindFast logging config c)
       else mret tt);;
      at_mru enq promoted
  end.

(** [plugin_free(nodes)]: the block's nodes are gone. *)
Definition free_nodes (block : Z) : M lru_state unit :=
  modify (λ s, set_nodes (filter (λ kv, kv.1.1 ≠ block) (nodes s)) s);;
  on_index (plugin_free block).

Definition on_free (in_ : Z) : M lru_state unit :=
  p ← on_index (getRegion in_);
  if p =? 0 then mret tt else
  region ← on_index (deref_region p);
  first ← on_index (deref_chunk (region_chunks region, 0));
  emit (unbind region first);;
  block ← liftO (region_privData region ?? Uninitialised);
  for_n (Z.to_nat (region_nChunks region)) 0
    (λ i, release1 (region_chunks region, region_nChunks region) (block, i));;
  on_index (deleteRegion p);;
  free_nodes block.

Definition allocCallback (type : AllocEventType) (in_ out size : Z) : M lru_state unit :=
  emit (LOG_ALLOC logging type in_ out size);;
  match type with
  | ALLOC_EVENT_ALLOC => on_alloc out size
  | ALLOC_EVENT_REALLOC => mret tt
  | _ => on_free in_
  end.

Definition sample_miss (addr : Z) (chunk node : ptr) : M lru_state unit :=
  at_lru dq node;;
  s ← get;
  m ← on_nodes (rd (mru s));
  let victim := node_prev m in
  at_mru dq victim;;
  at_lru push victim;;
  emit (LOG_SAMPLE logging addr 0 LOG_TRACKED);;
  c ← on_index (deref_chunk chunk);
  vn ← on_nodes (rd victim);
  vc ← on_index (deref_chunk (node_chunk vn));
  emit (swap logging config c vc);;
  on_nodes (wr node (set_loc FAST));;
  on_nodes (wr victim (set_loc SLOW)).

Definition handleSample (addr : Z) : M lru_state unit :=
  chunk ← on_index (getChunkInfo addr);
  if decide (chunk = NULLp) then emit (LOG_SAMPLE logging addr 0 0) else
  c ← on_index (deref_chunk chunk);
  node ← liftO (chunk_privData c ?? Uninitialised);
  l ← read_loc node;
  match l with
  | FAST => at_mru dq node;; emit (LOG_SAMPLE logging addr 0 (Z.lor LOG_TRACKED LOG_HIT))
  | SLOW => sample_miss addr chunk node
  end;;
  at_mru push node.
End callbacks.

(** ** Initialisation *)

Section init.
Context (getenv : environment) (numa_max : Z) (oversized_shl : Z → Z).

(** [lruInit]: an error code, or the configuration and the state it sets up. *)
Definition lruInit : outcome (Z + ShamblesPluginConfig * lru_state) :=
  r ← ShamblesPluginConfigInit getenv numa_max;
  match r with
  | inl err => mret (inl err)
  | inr config =>
      s ← shamblesStructsInit oversized_shl (chunkSize config) (sizeThresshold config);
      mret (inr (config, mkState s ∅ NULLp NULLp (i32 (fastChunks config)) []))
  end.

(** [shambles_init]: the state when the callback was installed.  [lruInit] ends
    without a [return]; [leftover] is the value its caller finds then. *)
Definition shambles_init (leftover : Z) : outcome (option (ShamblesPluginConfig * lru_state)) :=
  r ← lruInit;
  match r with
  | inl err => mret None
  | inr s => mret (if leftover =? 0 then Some s else None)
  end.
End init.
