(* ===== verification/LruQueues.v ===== *)
(** * What the steps of [plugins/lru.c] do to its two lists

    [queues] says that [mru] and [lru] are the circular lists of the nodes [ms]
    and [ls], that every node's [loc] says which of the two it is in, and that
    [freeFastChunks] counts the fast chunks left.  One lemma per step. *)
From stdpp Require Import base list gmap numbers.
From S2P Require Import Prelude Config Structures CList Migration Lru.

Definition loc_at (h : gmap ptr LRUlist) (p : ptr) : option MemLoc := h !! p ≫= node_loc.
Definition chunk_at (h : gmap ptr LRUlist) (p : ptr) : option ptr := node_chunk <$> h !! p.

Record queues (s : lru_state) (cap : Z) (ms ls : list ptr) : Prop := {
  q_mru : clist (nodes s) (mru s) ms;
  q_lru : clist (nodes s) (lru s) ls;
  q_nodup : NoDup (ms ++ ls);
  q_fast : ∀ p, p ∈ ms → loc_at (nodes s) p = Some FAST;
  q_slow : ∀ p, p ∈ ls → loc_at (nodes s) p = Some SLOW;
  q_free : freeFastChunks s = cap - Z.of_nat (length ms);
  q_int : - 2 ^ 31 ≤ cap - Z.of_nat (length ms) ∧ cap < 2 ^ 31;
  q_full : ls ≠ [] → freeFastChunks s = 0;
  q_cap : 0 ≤ cap → 0 ≤ freeFastChunks s
}.
Arguments q_mru {s cap ms ls}.
Arguments q_lru {s cap ms ls}.
Arguments q_nodup {s cap ms ls}.
Arguments q_fast {s cap ms ls}.
Arguments q_slow {s cap ms ls}.
Arguments q_free {s cap ms ls}.
Arguments q_int {s cap ms ls}.
Arguments q_full {s cap ms ls}.
Arguments q_cap {s cap ms ls}.

(** A step that leaves the index alone and the node-to-chunk map as it is. *)
Definition moved (s s' : lru_state) : Prop :=
  index s' = index s ∧ ∀ p, chunk_at (nodes s') p = chunk_at (nodes s) p.

#[export] Instance moved_preorder : PreOrder moved.
Proof.
  split; [by intros s|]. intros s1 s2 s3 [A1 A2] [B1 B2]. split; [by rewrite B1|].
  intros p. by rewrite B2.
Qed.

(** ** Nodes under relinking and under a change of [loc] *)

Section heap_facts.
Implicit Types (h : gmap ptr LRUlist) (p q x : ptr).

Lemma chunk_at_in h p : nodes_in h p ↔ is_Some (chunk_at h p).
Proof. unfold nodes_in, chunk_at. by rewrite fmap_is_Some. Qed.

Lemma loc_at_in h p l : loc_at h p = Some l → nodes_in h p.
Proof. unfold loc_at, nodes_in. destruct (h !! p); [by eauto|done]. Qed.

Lemma loc_relinked X h h' p : relinked X h h' → loc_at h' p = loc_at h p.
Proof.
  intros [HB _]. specialize (HB p). unfold loc_at.
  destruct (h' !! p) as [n'|], (h !! p) as [n|]; simplify_eq/=; [|done].
  unfold bare in HB. simpl in HB. congruence.
Qed.

Lemma chunk_relinked X h h' p : relinked X h h' → chunk_at h' p = chunk_at h p.
Proof.
  intros [HB _]. specialize (HB p). unfold chunk_at.
  destruct (h' !! p) as [n'|], (h !! p) as [n|]; simplify_eq/=; [|done].
  unfold bare in HB. simpl in HB. congruence.
Qed.

Lemma loc_set h p n l x :
  loc_at (<[p:=set_loc l n]> h) x = if decide (x = p) then Some l else loc_at h x.
Proof.
  unfold loc_at. case_decide; subst; [by rewrite lookup_insert_eq|by rewrite lookup_insert_ne].
Qed.

Lemma chunk_set h p n l x : h !! p = Some n → chunk_at (<[p:=set_loc l n]> h) x = chunk_at h x.
Proof.
  intros E. unfold chunk_at. destruct (decide (x = p)) as [->|];
    [by rewrite lookup_insert_eq, E|by rewrite lookup_insert_ne].
Qed.

Lemma clist_set_loc h p n l q xs :
  h !! p = Some n → clist h q xs → clist (<[p:=set_loc l n]> h) q xs.
Proof.
  intros E [(Hnd & Hnull & Hc) Hq]. split; [|done]. split; [done|]. split; [done|].
  destruct xs as [|y ys]; [done|].
  eapply chain_frame; [| |exact Hc]; intros x _; unfold nxt, prv;
    (destruct (decide (x = p)) as [->|]; [by rewrite lookup_insert_eq, E|by rewrite lookup_insert_ne]).
Qed.

Lemma clist_in h q xs p : clist h q xs → p ∈ xs → nodes_in h p ∧ p ≠ NULLp.
Proof. intros [Hc _]. by apply circle_in. Qed.
End heap_facts.

Lemma at_mru_done f node s q h :
  f (mru s) node (nodes s) = Done (q, h) →
  at_mru f node s = Done (tt, set_mru q (set_nodes h s)).
Proof. intros E. unfold at_mru. erewrite bind_done by reflexivity. by erewrite bind_done by by apply zoom_done. Qed.

Lemma at_lru_done f node s q h :
  f (lru s) node (nodes s) = Done (q, h) →
  at_lru f node s = Done (tt, set_lru q (set_nodes h s)).
Proof. intros E. unfold at_lru. erewrite bind_done by reflexivity. by erewrite bind_done by by apply zoom_done. Qed.

Lemma set_loc_done p l s n :
  p ≠ NULLp → nodes s !! p = Some n →
  on_nodes (wr p (set_loc l)) s = Done (tt, set_nodes (<[p:=set_loc l n]> (nodes s)) s).
Proof. intros Hp E. apply zoom_done. by apply wr_ok. Qed.

Lemma read_loc_done p l s : p ≠ NULLp → loc_at (nodes s) p = Some l → read_loc p s = Done (l, s).
Proof.
  intros Hp E. unfold loc_at in E. destruct (nodes s !! p) as [n|] eqn:En; simplify_eq/=.
  unfold read_loc. erewrite bind_done.
  2: { apply zoom_done. by apply rd_ok. }
  unfold liftO. rewrite E. simpl. by destruct s.
Qed.

(** ** Two disjoint circular lists in one heap *)

Definition two (h : gmap ptr LRUlist) (a : ptr) (ms : list ptr) (b : ptr) (ls : list ptr) : Prop :=
  clist h a ms ∧ clist h b ls ∧ NoDup (ms ++ ls).

Section two_lists.
Implicit Types (h : gmap ptr LRUlist) (a b p : ptr) (ms ls : list ptr).

Lemma two_sym h a ms b ls : two h a ms b ls → two h b ls a ms.
Proof. intros (A & B & C). split; [done|]. split; [done|]. by rewrite Permutation_app_comm. Qed.

Lemma two_set_loc h p n l a ms b ls :
  h !! p = Some n → two h a ms b ls → two (<[p:=set_loc l n]> h) a ms b ls.
Proof. intros E (A & B & C). split; [by apply clist_set_loc|]. split; [by apply clist_set_loc|done]. Qed.

Lemma two_dq h a m1 p m2 b ls :
  two h a (m1 ++ p :: m2) b ls →
  ∃ h' a', dq a p h = Done (a', h') ∧ two h' a' (m1 ++ m2) b ls ∧ relinked (m1 ++ m2) h h'.
Proof.
  intros (A & B & (Hnd1 & Hdis & Hnd2)%list.NoDup_app). destruct (dq_ok _ _ _ _ _ A) as (h' & a' & E & A' & HR).
  exists h', a'. split; [done|]. split; [|done]. split; [done|]. split.
  - eapply clist_frame; [exact HR|set_solver|done].
  - rewrite list.NoDup_app. split; [apply A'|]. split; [set_solver|done].
Qed.

Lemma two_push h a ms p b ls :
  two h a ms b ls → p ∉ ms ++ ls → p ≠ NULLp → nodes_in h p →
  ∃ h', push a p h = Done (p, h') ∧ two h' p (p :: ms) b ls ∧ relinked (p :: ms) h h'.
Proof.
  intros (A & B & Hnd) Hout Hp Hin.
  destruct (push_ok _ _ _ p A) as (h' & E & A' & HR); [set_solver|done|done|].
  exists h'. split; [done|]. split; [|done]. split; [done|]. split.
  - apply list.NoDup_app in Hnd as (_ & Hdis & _). eapply clist_frame; [exact HR|set_solver|done].
  - constructor; [done|exact Hnd].
Qed.

Lemma two_enq h a ms p b ls :
  two h a ms b ls → p ∉ ms ++ ls → p ≠ NULLp → nodes_in h p →
  ∃ h' a', enq a p h = Done (a', h') ∧ two h' a' (ms ++ [p]) b ls ∧ relinked (p :: ms) h h'.
Proof.
  intros (A & B & Hnd) Hout Hp Hin.
  destruct (enq_ok _ _ _ p A) as (h' & a' & E & A' & HR); [set_solver|done|done|].
  exists h', a'. split; [done|]. split; [|done]. split; [done|]. split.
  - apply list.NoDup_app in Hnd as (_ & Hdis & _). eapply clist_frame; [exact HR|set_solver|done].
  - rewrite <- app_assoc. simpl. rewrite <- Permutation_middle. by constructor.
Qed.

(** A head pointer is null just when its list is empty. *)
Lemma clist_null h q xs : clist h q xs → q = NULLp ↔ xs = [].
Proof.
  intros [(_ & Hnull & _) ->]. destruct xs; simpl; [done|]. split; [|done]. set_solver.
Qed.

(** The node before the head is the last one. *)
Lemma clist_last h q ms v :
  clist h q (ms ++ [v]) → ∃ n, rd q h = Done (n, h) ∧ node_prev n = v.
Proof.
  intros [HC ->]. pose proof HC as HC'. destruct ms as [|m ms].
  - simpl in *. destruct (circle_in _ _ v HC) as [[n En] Hv]; [set_solver|].
    destruct HC as (_ & _ & Hc). simpl in Hc. destruct Hc as (_ & Hc & _).
    exists n. split; [by apply rd_ok|]. unfold prv in Hc. rewrite En in Hc. by injection Hc.
  - destruct (circle_in _ _ m HC) as [[n En] Hm]; [set_solver|].
    exists n. split; [by apply rd_ok|]. destruct HC as (_ & _ & Hc). simpl in Hc.
    rewrite <- app_assoc in Hc. apply chain_app in Hc as (_ & Hc). simpl in Hc.
    destruct Hc as (_ & Hc & _). unfold prv in Hc. rewrite En in Hc. by injection Hc.
Qed.
End two_lists.

Lemma queues_two s cap ms ls : queues s cap ms ls → two (nodes s) (mru s) ms (lru s) ls.
Proof. intros HQ. split; [apply (q_mru HQ)|]. split; [apply (q_lru HQ)|apply (q_nodup HQ)]. Qed.

(** [queues] from the lists of a heap whose nodes are the old ones relinked. *)
Lemma queues_intro s cap ms ls :
  two (nodes s) (mru s) ms (lru s) ls →
  (∀ p, p ∈ ms → loc_at (nodes s) p = Some FAST) →
  (∀ p, p ∈ ls → loc_at (nodes s) p = Some SLOW) →
  freeFastChunks s = cap - Z.of_nat (length ms) →
  - 2 ^ 31 ≤ cap - Z.of_nat (length ms) ∧ cap < 2 ^ 31 →
  (ls ≠ [] → freeFastChunks s = 0) → (0 ≤ cap → 0 ≤ freeFastChunks s) →
  queues s cap ms ls.
Proof. intros (A & B & C). by split. Qed.

(** ** Placing a new chunk *)

Section steps.
Context (logging : bool) (config : ShamblesPluginConfig).
Implicit Types (s : lru_state) (p : ptr) (ms ls : list ptr).

Lemma place_fast1_ok s cap ms ls block chunks i c :
  queues s cap ms ls → freeFastChunks s ≠ 0 → (block, i) ∉ ms ++ ls → (block, i) ≠ NULLp →
  nodes_in (nodes s) (block, i) → - 2 ^ 31 ≤ cap - Z.of_nat (length ms) - 1 →
  deref_chunk (chunks, i) (index s) = Done (c, index s) →
  ∃ s', place_fast1 logging config block chunks i s = Done (tt, s') ∧
    queues s' cap (ms ++ [(block, i)]) ls ∧ moved s s' ∧
    (∀ x, loc_at (nodes s') x = if decide (x = (block, i)) then Some FAST else loc_at (nodes s) x) ∧
    trace s' = trace s ++ bindFastAlloc logging config c.
Proof.
  set (p := (block, i)). intros HQ Hfree Hout Hp [n En] Hint Ec.
  assert (ls = []) as -> by (destruct ls; [done|by destruct Hfree; apply (q_full HQ)]).
  destruct (enq_ok (<[p:=set_loc FAST n]> (nodes s)) (mru s) ms p) as (h2 & q' & E2 & HC & HR).
  { apply clist_set_loc; [done|apply (q_mru HQ)]. }
  { set_solver. }
  { done. }
  { exists (set_loc FAST n). apply lookup_insert_eq. }
  assert (i32 (freeFastChunks s - 1) = freeFastChunks s - 1) as Hi.
  { apply i32_small. rewrite (q_free HQ). pose proof (q_int HQ). lia. }
  eexists. split; [|split; [|split; [|split]]].
  - unfold place_fast1. fold p. erewrite bind_done by by apply set_loc_done.
    erewrite bind_done by by apply at_mru_done.
    erewrite bind_done by (apply zoom_done; exact Ec).
    erewrite bind_done by reflexivity. reflexivity.
  - split; simpl.
    + exact HC.
    + split; [|apply (q_lru HQ)]. split; [constructor|]. split; [set_solver|done].
    + rewrite app_nil_r. apply list.NoDup_app. split; [|split; [set_solver|apply NoDup_singleton]].
      pose proof (q_nodup HQ) as Hnd. by rewrite app_nil_r in Hnd.
    + intros x Hx. rewrite (loc_relinked _ _ _ x HR), loc_set. case_decide; [done|].
      apply (q_fast HQ). set_solver.
    + intros x Hx. set_solver.
    + rewrite Hi, (q_free HQ), length_app. simpl. lia.
    + pose proof (q_int HQ). rewrite length_app. simpl. lia.
    + done.
    + rewrite Hi. intros H0. pose proof (q_cap HQ H0). lia.
  - split; [done|]. intros x. simpl. by rewrite (chunk_relinked _ _ _ x HR), chunk_set.
  - intros x. simpl. by rewrite (loc_relinked _ _ _ x HR), loc_set.
  - done.
Qed.

Lemma place_slow1_ok s cap ms ls block chunks i c :
  queues s cap ms ls → freeFastChunks s = 0 → (block, i) ∉ ms ++ ls → (block, i) ≠ NULLp →
  nodes_in (nodes s) (block, i) →
  deref_chunk (chunks, i) (index s) = Done (c, index s) →
  ∃ s', place_slow1 logging config block chunks i s = Done (tt, s') ∧
    queues s' cap ms (ls ++ [(block, i)]) ∧ moved s s' ∧
    (∀ x, loc_at (nodes s') x = if decide (x = (block, i)) then Some SLOW else loc_at (nodes s) x) ∧ freeFastChunks s' = 0 ∧
    trace s' = trace s ++ bindSlowAlloc logging config c.
Proof.
  set (p := (block, i)). intros HQ Hfree Hout Hp [n En] Ec.
  destruct (enq_ok (<[p:=set_loc SLOW n]> (nodes s)) (lru s) ls p) as (h2 & q' & E2 & HC & HR).
  { apply clist_set_loc; [done|apply (q_lru HQ)]. }
  { set_solver. }
  { done. }
  { exists (set_loc SLOW n). apply lookup_insert_eq. }
  pose proof (q_nodup HQ) as (Hnd1 & Hdis & Hnd2)%list.NoDup_app.
  eexists. split; [|split; [|split; [|split; [|split]]]].
  - unfold place_slow1. fold p. erewrite bind_done by by apply set_loc_done.
    erewrite bind_done by by apply at_lru_done.
    erewrite bind_done by (apply zoom_done; exact Ec). reflexivity.
  - split; simpl.
    + eapply clist_frame; [exact HR|set_solver|]. apply clist_set_loc; [done|apply (q_mru HQ)].
    + exact HC.
    + rewrite app_assoc. apply list.NoDup_app.
      split; [apply (q_nodup HQ)|split; [set_solver|apply NoDup_singleton]].
    + intros x Hx. rewrite (loc_relinked _ _ _ x HR), loc_set, decide_False by set_solver.
      by apply (q_fast HQ).
    + intros x Hx. rewrite (loc_relinked _ _ _ x HR), loc_set. case_decide; [done|].
      apply (q_slow HQ). set_solver.
    + apply (q_free HQ).
    + apply (q_int HQ).
    + done.
    + apply (q_cap HQ).
  - split; [done|]. intros x. simpl. by rewrite (chunk_relinked _ _ _ x HR), chunk_set.
  - intros x. simpl. by rewrite (loc_relinked _ _ _ x HR), loc_set.
  - done.
  - done.
Qed.

(** ** Releasing a chunk *)

(** The events of a promotion: none when the chunk's address is not above the
    freed region's chunk array. *)
Definition promotion (bound cp : ptr) (c : ShamblesChunk) : list event :=
  if chunk_addr bound <? chunk_addr cp then bindFast logging config c else [].

(** What [release1] does to a node's [loc]: the promoted node, if any, becomes
    fast. *)
Definition promoted_to (o : option ptr) (s s' : lru_state) : Prop :=
  ∀ x, loc_at (nodes s') x = if decide (o = Some x) then Some FAST else loc_at (nodes s) x.

Lemma release_slow s cap ms l1 p l2 bound :
  queues s cap ms (l1 ++ p :: l2) →
  ∃ s', release1 logging config bound p s = Done (tt, s') ∧
    queues s' cap ms (l1 ++ l2) ∧ moved s s' ∧ promoted_to None s s' ∧ trace s' = trace s.
Proof.
  intros HQ. destruct (clist_in _ _ _ p (q_lru HQ)) as [_ Hp]; [set_solver|].
  destruct (two_dq _ _ _ _ _ _ _ (two_sym _ _ _ _ _ (queues_two _ _ _ _ HQ)))
    as (h' & a' & E & HT%two_sym & HR).
  eexists. split; [|split; [|split; [|split]]].
  - unfold release1. erewrite bind_done by (apply read_loc_done; [done|apply (q_slow HQ); set_solver]).
    by apply at_lru_done.
  - apply queues_intro; simpl; try apply HQ.
    + exact HT.
    + intros x Hx. rewrite (loc_relinked _ _ _ x HR). by apply (q_fast HQ).
    + intros x Hx. rewrite (loc_relinked _ _ _ x HR). apply (q_slow HQ). set_solver.
    + intros _. apply (q_full HQ). by destruct l1.
  - split; [done|]. intros x. apply (chunk_relinked _ _ _ x HR).
  - intros x. apply (loc_relinked _ _ _ x HR).
  - done.
Qed.

Lemma release_fast_free s cap m1 p m2 bound :
  queues s cap (m1 ++ p :: m2) [] →
  ∃ s', release1 logging config bound p s = Done (tt, s') ∧
    queues s' cap (m1 ++ m2) [] ∧ moved s s' ∧ promoted_to None s s' ∧ trace s' = trace s.
Proof.
  intros HQ. destruct (clist_in _ _ _ p (q_mru HQ)) as [_ Hp]; [set_solver|].
  destruct (two_dq _ _ _ _ _ _ _ (queues_two _ _ _ _ HQ)) as (h' & a' & E & HT & HR).
  pose proof (q_free HQ) as Hf. pose proof (q_int HQ) as Hi. pose proof (q_cap HQ) as Hc.
  rewrite length_app in Hf, Hi. simpl in Hf, Hi.
  assert (i32 (freeFastChunks s + 1) = freeFastChunks s + 1) as Hi32 by (apply i32_small; lia).
  eexists. split; [|split; [|split; [|split]]].
  - unfold release1. erewrite bind_done by (apply read_loc_done; [done|apply (q_fast HQ); set_solver]).
    cbn beta iota.
    erewrite bind_done by by apply at_mru_done. erewrite bind_done by reflexivity.
    rewrite decide_True by (apply (clist_null _ _ _ (q_lru HQ)); done). reflexivity.
  - apply queues_intro; simpl.
    + exact HT.
    + intros x Hx. rewrite (loc_relinked _ _ _ x HR). apply (q_fast HQ). set_solver.
    + intros x Hx. set_solver.
    + rewrite Hi32, length_app. lia.
    + rewrite length_app. lia.
    + done.
    + rewrite Hi32. lia.
  - split; [done|]. intros x. apply (chunk_relinked _ _ _ x HR).
  - intros x. apply (loc_relinked _ _ _ x HR).
  - done.
Qed.

Lemma release_fast_promote s cap m1 p m2 y ls bound cp c :
  queues s cap (m1 ++ p :: m2) (y :: ls) → chunk_at (nodes s) y = Some cp →
  deref_chunk cp (index s) = Done (c, index s) →
  ∃ s', release1 logging config bound p s = Done (tt, s') ∧
    queues s' cap (m1 ++ m2 ++ [y]) ls ∧ moved s s' ∧ promoted_to (Some y) s s' ∧
    trace s' = trace s ++ promotion bound cp c.
Proof.
  intros HQ Hcp Hc. destruct (clist_in _ _ _ p (q_mru HQ)) as [_ Hp]; [set_solver|].
  destruct (clist_in _ _ _ y (q_lru HQ)) as [Hyin Hy]; [set_solver|].
  destruct (two_dq _ _ _ _ _ _ _ (queues_two _ _ _ _ HQ)) as (h1 & a1 & E1 & HT1 & HR1).
  assert (lru s = y) as Hlru by apply (q_lru HQ).
  destruct (two_dq h1 (lru s) [] y ls a1 (m1 ++ m2)) as (h2 & b2 & E2 & HT2%two_sym & HR2);
    [by apply two_sym|].
  destruct (relinked_in _ _ _ y HR2 (relinked_in _ _ _ y HR1 Hyin)) as [n En].
  assert (node_chunk n = cp) as Hn.
  { assert (chunk_at h2 y = Some cp) as Hcy.
    { by rewrite (chunk_relinked _ _ _ y HR2), (chunk_relinked _ _ _ y HR1). }
    unfold chunk_at in Hcy. rewrite En in Hcy. by injection Hcy. }
  pose proof (q_nodup HQ) as (Hnd1 & Hdis & Hnd2)%list.NoDup_app.
  apply list.NoDup_cons in Hnd2 as [Hyls Hnd2].
  pose proof (two_set_loc h2 y n FAST _ _ _ _ En HT2) as HT3.
  destruct (two_enq (<[y:=set_loc FAST n]> h2) a1 (m1 ++ m2) y b2 ls) as (h4 & a4 & E4 & HT4 & HR4).
  { done. }
  { set_solver. }
  { done. }
  { exists (set_loc FAST n). apply lookup_insert_eq. }
  assert (∀ x, loc_at h4 x = if decide (Some y = Some x) then Some FAST else loc_at (nodes s) x) as Hloc.
  { intros x. rewrite (loc_relinked _ _ _ x HR4), loc_set, (loc_relinked _ _ _ x HR2), (loc_relinked _ _ _ x HR1).
    by repeat case_decide; congruence. }
  pose proof (q_free HQ) as Hf. pose proof (q_int HQ) as Hi.
  rewrite length_app in Hf, Hi. simpl in Hf, Hi.
  exists (set_mru a4 (set_nodes h4 (set_trace (trace s ++ promotion bound cp c) (set_lru b2 s)))).
  split; [|split; [|split; [|split]]].
  - unfold release1. erewrite bind_done by (apply read_loc_done; [done|apply (q_fast HQ); set_solver]).
    cbn beta iota.
    erewrite bind_done by by apply at_mru_done. erewrite bind_done by reflexivity.
    simpl. rewrite decide_False by congruence.
    erewrite bind_done by (apply at_lru_done; simpl; rewrite Hlru at 2; exact E2).
    rewrite Hlru. erewrite bind_done by (apply set_loc_done; [done|exact En]).
    erewrite bind_done.
    2: { apply zoom_done. apply rd_ok; [done|]. apply lookup_insert_eq. }
    simpl. rewrite Hn.
    erewrite bind_done.
    2: { instantiate (1 := set_nodes (<[y:=set_loc FAST n]> h2)
           (set_trace (trace s ++ promotion bound cp c) (set_lru b2 (set_mru a1 s)))).
         instantiate (1 := tt). unfold promotion. destruct (_ <? _).
         - erewrite bind_done by (apply zoom_done; exact Hc). done.
         - unfold mret, M_ret. by rewrite app_nil_r. }
    exact (at_mru_done enq y (set_nodes (<[y:=set_loc FAST n]> h2)
           (set_trace (trace s ++ promotion bound cp c) (set_lru b2 (set_mru a1 s)))) a4 h4 E4).
  - apply queues_intro; simpl.
    + by rewrite <- app_assoc in HT4.
    + intros x Hx. rewrite Hloc. case_decide; [done|]. apply (q_fast HQ). set_solver.
    + intros x Hx. rewrite Hloc, decide_False by set_solver. apply (q_slow HQ). set_solver.
    + rewrite !length_app. simpl. lia.
    + rewrite !length_app. simpl. lia.
    + intros _. by apply (q_full HQ).
    + apply (q_cap HQ).
  - split; [done|]. intros x. simpl.
    by rewrite (chunk_relinked _ _ _ x HR4), chunk_set, (chunk_relinked _ _ _ x HR2), (chunk_relinked _ _ _ x HR1).
  - exact Hloc.
  - done.
Qed.

(** ** A sample *)

Lemma sample_hit_ok s cap m1 p m2 ls evs :
  queues s cap (m1 ++ p :: m2) ls →
  ∃ s', ((at_mru dq p;; emit evs);; at_mru push p) s = Done (tt, s') ∧
    queues s' cap (p :: m1 ++ m2) ls ∧ moved s s' ∧
    (∀ x, loc_at (nodes s') x = loc_at (nodes s) x) ∧ trace s' = trace s ++ evs.
Proof.
  intros HQ. destruct (clist_in _ _ _ p (q_mru HQ)) as [Hin Hp]; [set_solver|].
  destruct (two_dq _ _ _ _ _ _ _ (queues_two _ _ _ _ HQ)) as (h1 & a1 & E1 & HT1 & HR1).
  pose proof (q_nodup HQ) as Hnd. rewrite <- app_assoc in Hnd. simpl in Hnd.
  rewrite <- Permutation_middle, app_assoc in Hnd. apply list.NoDup_cons in Hnd as [Hnd _].
  destruct (two_push h1 a1 (m1 ++ m2) p (lru s) ls HT1 Hnd Hp (relinked_in _ _ _ p HR1 Hin))
    as (h2 & E2 & HT2 & HR2).
  assert (∀ x, loc_at h2 x = loc_at (nodes s) x) as Hloc
    by (intros x; by rewrite (loc_relinked _ _ _ x HR2), (loc_relinked _ _ _ x HR1)).
  pose proof (q_free HQ) as Hf. pose proof (q_int HQ) as Hi.
  rewrite length_app in Hf, Hi. simpl in Hf, Hi.
  exists (set_mru p (set_nodes h2 (set_trace (trace s ++ evs) s))). split; [|split; [|split; [|split]]].
  - erewrite bind_done.
    2: { erewrite bind_done by by apply at_mru_done. reflexivity. }
    by apply (at_mru_done push p (set_trace (trace s ++ evs) (set_mru a1 (set_nodes h1 s)))).
  - apply queues_intro; simpl.
    + exact HT2.
    + intros x Hx. rewrite Hloc. apply (q_fast HQ). set_solver.
    + intros x Hx. rewrite Hloc. by apply (q_slow HQ).
    + rewrite length_app. lia.
    + rewrite length_app. lia.
    + apply (q_full HQ).
    + apply (q_cap HQ).
  - split; [done|]. intros x. simpl. by rewrite (chunk_relinked _ _ _ x HR2), (chunk_relinked _ _ _ x HR1).
  - exact Hloc.
  - done.
Qed.

(** The sampled node [p] takes the place of the victim [v], the last of the
    fast list. *)
Lemma sample_miss_ok s cap m0 v l1 p l2 addr cp c vcp vc :
  queues s cap (m0 ++ [v]) (l1 ++ p :: l2) →
  deref_chunk cp (index s) = Done (c, index s) →
  chunk_at (nodes s) v = Some vcp → deref_chunk vcp (index s) = Done (vc, index s) →
  ∃ s', (sample_miss logging config addr cp p;; at_mru push p) s = Done (tt, s') ∧
    queues s' cap (p :: m0) (v :: l1 ++ l2) ∧ moved s s' ∧
    (∀ x, loc_at (nodes s') x =
       if decide (x = v) then Some SLOW else if decide (x = p) then Some FAST else loc_at (nodes s) x) ∧
    trace s' = trace s ++ LOG_SAMPLE logging addr 0 LOG_TRACKED ++ swap logging config c vc.
Proof.
  intros HQ Hc Hv Hvc.
  pose proof (queues_two _ _ _ _ HQ) as HT0.
  destruct (clist_in _ _ _ p (q_lru HQ)) as [Hpin Hp]; [set_solver|].
  destruct (clist_in _ _ _ v (q_mru HQ)) as [Hvin Hv0]; [set_solver|].
  pose proof (q_nodup HQ) as (Hnd1 & Hdis & Hnd2)%list.NoDup_app.
  rewrite <- Permutation_middle in Hnd2. apply list.NoDup_cons in Hnd2 as [Hpl Hnd2].
  apply list.NoDup_app in Hnd1 as (Hnd1 & Hvm & _).
  assert (v ≠ p) as Hvp by set_solver.
  destruct (two_dq _ _ _ _ _ _ _ (two_sym _ _ _ _ _ HT0)) as (h1 & b1 & E1 & HT1%two_sym & HR1).
  destruct (clist_last _ _ _ _ (proj1 HT1)) as (mn & Emn & Hmn).
  destruct (two_dq h1 (mru s) m0 v [] b1 (l1 ++ l2) HT1) as (h2 & a2 & E2 & HT2 & HR2).
  rewrite app_nil_r in HT2, HR2. apply two_sym in HT2.
  destruct (two_push h2 b1 (l1 ++ l2) v a2 m0 HT2) as (h3 & E3 & HT3%two_sym & HR3); [set_solver|done| |].
  { by do 2 (eapply relinked_in; [eassumption|]). }
  assert (nodes_in h3 v ∧ nodes_in h3 p) as [[vn Evn] [pn Epn]].
  { split; do 3 (eapply relinked_in; [eassumption|]); done. }
  assert (∀ x, chunk_at h3 x = chunk_at (nodes s) x) as Hch3.
  { intros x. by rewrite (chunk_relinked _ _ _ x HR3), (chunk_relinked _ _ _ x HR2), (chunk_relinked _ _ _ x HR1). }
  assert (node_chunk vn = vcp) as Hvn.
  { pose proof (Hch3 v) as E. rewrite Hv in E. unfold chunk_at in E. rewrite Evn in E. by injection E. }
  set (h4 := <[p:=set_loc FAST pn]> h3).
  assert (h4 !! v = Some vn) as Ev4 by (by unfold h4; rewrite lookup_insert_ne).
  set (h5 := <[v:=set_loc SLOW vn]> h4).
  assert (two h5 a2 m0 v (v :: l1 ++ l2)) as HT5 by (by repeat apply two_set_loc).
  destruct (two_push h5 a2 m0 p v (v :: l1 ++ l2) HT5) as (h6 & E6 & HT6 & HR6); [set_solver|done| |].
  { exists (set_loc FAST pn). unfold h5, h4. by rewrite lookup_insert_ne, lookup_insert_eq. }
  assert (∀ x, loc_at h6 x = if decide (x = v) then Some SLOW else if decide (x = p) then Some FAST
                             else loc_at (nodes s) x) as Hloc.
  { intros x. rewrite (loc_relinked _ _ _ x HR6). unfold h5, h4. rewrite !loc_set.
    by rewrite (loc_relinked _ _ _ x HR3), (loc_relinked _ _ _ x HR2), (loc_relinked _ _ _ x HR1). }
  pose proof (q_free HQ) as Hf. pose proof (q_int HQ) as Hi.
  rewrite length_app in Hf, Hi. simpl in Hf, Hi.
  set (t := trace s ++ LOG_SAMPLE logging addr 0 LOG_TRACKED ++ swap logging config c vc).
  exists (set_mru p (set_nodes h6 (set_lru v (set_trace t s)))).
  split; [|split; [|split; [|split]]].
  - erewrite bind_done.
    2: { unfold sample_miss.
         erewrite bind_done by by apply at_lru_done. erewrite bind_done by reflexivity.
         erewrite bind_done by (apply zoom_done; exact Emn). cbv zeta. rewrite Hmn.
         erewrite bind_done by (apply at_mru_done; exact E2).
         erewrite bind_done by (apply at_lru_done; exact E3).
         erewrite bind_done by reflexivity.
         erewrite bind_done by (apply zoom_done; exact Hc).
         erewrite bind_done by (apply zoom_done; by apply rd_ok).
         rewrite Hvn. erewrite bind_done by (apply zoom_done; exact Hvc).
         erewrite bind_done by reflexivity.
         erewrite bind_done by by apply set_loc_done. by apply set_loc_done. }
    etransitivity; [apply at_mru_done; exact E6|]. unfold t. by rewrite (app_assoc (trace s)).
  - apply queues_intro; simpl.
    + exact HT6.
    + intros x Hx. rewrite Hloc. rewrite decide_False by set_solver. case_decide; [done|].
      apply (q_fast HQ). set_solver.
    + intros x Hx. rewrite Hloc. case_decide; [done|]. rewrite decide_False by set_solver.
      apply (q_slow HQ). set_solver.
    + lia.
    + lia.
    + intros _. apply (q_full HQ). by destruct l1.
    + apply (q_cap HQ).
  - split; [done|]. intros x. simpl. rewrite (chunk_relinked _ _ _ x HR6).
    unfold h5, h4. by rewrite chunk_set, chunk_set, Hch3.
  - exact Hloc.
  - done.
Qed.
End steps.
