(* ===== verification/LruSpec.v ===== *)
(** * The LRU plugin implements a recency list

    The invariant of [plugins/lru.c] between callbacks and what each callback
    does: the concatenation of the two lists is the recency order of all tracked
    chunks, a sample moves its chunk to the front, an allocation appends its
    chunks, a free removes the region's.  [placed] says that the kernel's policy
    at every tracked address is the one [loc] records. *)
From stdpp Require Import base list gmap numbers.
From S2P Require Import Prelude Config Structures StructuresTree StructuresIndex StructuresSpec.
From S2P Require Import CList Migration Lru LruQueues.

(** ** The loop that places the chunks of a new region *)

Section placing.
Context (logging : bool) (config : ShamblesPluginConfig) (block chunks : Z).
Implicit Types (s : lru_state) (ms ls : list ptr).

Definition place1 (i : Z) : M lru_state unit :=
  s ← get; if freeFastChunks s =? 0 then place_slow1 logging config block chunks i
           else place_fast1 logging config block chunks i.

Lemma place1_ok s cap ms ls i c :
  queues s cap ms ls → (block, i) ∉ ms ++ ls → (block, i) ≠ NULLp →
  nodes_in (nodes s) (block, i) → - 2 ^ 31 ≤ cap - Z.of_nat (length (ms ++ ls)) - 1 →
  deref_chunk (chunks, i) (index s) = Done (c, index s) →
  ∃ s' ms' ls' l, place1 i s = Done (tt, s') ∧
    (freeFastChunks s = 0 → freeFastChunks s' = 0) ∧
    queues s' cap ms' ls' ∧ ms' ++ ls' = (ms ++ ls) ++ [(block, i)] ∧ moved s s' ∧
    (∀ x, loc_at (nodes s') x = if decide (x = (block, i)) then Some l else loc_at (nodes s) x) ∧
    (∀ x, policy_at (trace s') x = if covers (chunk_start c) (chunk_size c) x then mask_of config l
                                   else policy_at (trace s) x).
Proof.
  intros HQ Hout Hp Hin Hint Hc. unfold place1.
  destruct (Z.eqb_spec (freeFastChunks s) 0) as [Hf|Hf].
  - destruct (place_slow1_ok logging config s cap ms ls block chunks i c HQ Hf Hout Hp Hin Hc)
      as (s' & E & HQ' & Hm & Hl & Hf' & Ht).
    exists s', ms, (ls ++ [(block, i)]), SLOW. rewrite <- app_assoc.
    erewrite bind_done by reflexivity. rewrite (proj2 (Z.eqb_eq _ 0)) by done.
    repeat (split; [done|]). intros x. rewrite Ht. apply policy_bind.
  - rewrite length_app in Hint.
    destruct (place_fast1_ok logging config s cap ms ls block chunks i c HQ Hf Hout Hp Hin)
      as (s' & E & HQ' & Hm & Hl & Ht); [lia|done|].
    assert (ls = []) as -> by (destruct ls; [done|by destruct Hf; apply (q_full HQ)]).
    exists s', (ms ++ [(block, i)]), [], FAST. rewrite !app_nil_r.
    erewrite bind_done by reflexivity. rewrite (proj2 (Z.eqb_neq _ 0)) by done.
    repeat (split; [done|]). intros x. rewrite Ht. apply policy_bind.
Qed.

Lemma place_all_slow n i s :
  freeFastChunks s = 0 →
  place logging config block chunks n i s = for_n n i (place_slow1 logging config block chunks) s.
Proof.
  intros Hf. destruct n as [|n]; [done|]. simpl. erewrite bind_done by reflexivity.
  by rewrite (proj2 (Z.eqb_eq _ 0)).
Qed.

(** [place] as the iteration of [place1]. *)
Lemma place_cons n i s s1 :
  place1 i s = Done (tt, s1) → (freeFastChunks s = 0 → freeFastChunks s1 = 0) →
  place logging config block chunks (S n) i s = place logging config block chunks n (i + 1) s1.
Proof.
  unfold place1. intros E Hf. erewrite bind_done in E by reflexivity. simpl.
  erewrite bind_done by reflexivity. destruct (Z.eqb_spec (freeFastChunks s) 0).
  - erewrite bind_done by exact E. by rewrite place_all_slow by auto.
  - by erewrite bind_done by exact E.
Qed.

(** The nodes of chunks [i] to [i + n - 1]. *)
Definition new_nodes (i : Z) (n : nat) : list ptr := (λ j, (block, j)) <$> seqZ i (Z.of_nat n).

Lemma new_nodes_cons i n : new_nodes i (S n) = (block, i) :: new_nodes (i + 1) n.
Proof. unfold new_nodes. rewrite seqZ_cons by lia. simpl. repeat f_equal; lia. Qed.

Lemma elem_new_nodes i n p : p ∈ new_nodes i n ↔ p.1 = block ∧ i ≤ p.2 < i + Z.of_nat n.
Proof.
  unfold new_nodes. rewrite list_elem_of_fmap. split.
  - intros (j & -> & Hj%elem_of_seqZ). simpl. lia.
  - intros [<- Hp]. exists p.2. split; [by destruct p|]. apply elem_of_seqZ. lia.
Qed.

Lemma place_ok n i s cap ms ls (cs : list ShamblesChunk) :
  queues s cap ms ls → 0 ≤ i → block ≠ 0 →
  (∀ p, p ∈ new_nodes i n → p ∉ ms ++ ls ∧ nodes_in (nodes s) p) →
  - 2 ^ 31 ≤ cap - Z.of_nat (length (ms ++ ls)) - Z.of_nat n →
  (∀ j, i ≤ j < i + Z.of_nat n → ∃ c, cs !! Z.to_nat j = Some c ∧
     deref_chunk (chunks, j) (index s) = Done (c, index s)) →
  ∃ s' ms' ls', place logging config block chunks n i s = Done (tt, s') ∧
    queues s' cap ms' ls' ∧ ms' ++ ls' = (ms ++ ls) ++ new_nodes i n ∧ moved s s' ∧
    (∀ x, x ∉ new_nodes i n → loc_at (nodes s') x = loc_at (nodes s) x) ∧
    (∀ x, (∀ j c, i ≤ j < i + Z.of_nat n → cs !! Z.to_nat j = Some c → ¬ in_chunk c x) →
       policy_at (trace s') x = policy_at (trace s) x) ∧
    (∀ j c l, i ≤ j < i + Z.of_nat n → cs !! Z.to_nat j = Some c →
       loc_at (nodes s') (block, j) = Some l →
       ∀ x, in_chunk c x →
       (∀ k c', j < k < i + Z.of_nat n → cs !! Z.to_nat k = Some c' → ¬ in_chunk c' x) →
       policy_at (trace s') x = mask_of config l).
Proof.
  intros HQ Hi Hb. revert i s ms ls HQ Hi.
  induction n as [|n IH]; intros i s ms ls HQ Hi Hnew Hint Hcs.
  { exists s, ms, ls. split; [done|]. split; [done|].
    split; [by unfold new_nodes; rewrite app_nil_r|]. split; [done|]. split; [done|].
    split; [done|]. intros j c l Hj. lia. }
  rewrite new_nodes_cons in *.
  destruct (Hcs i) as (c & Hci & Hc); [lia|].
  destruct (Hnew (block, i)) as [Hout Hin]; [set_solver|].
  destruct (place1_ok s cap ms ls i c) as (s1 & ms1 & ls1 & l & E1 & Hf1 & HQ1 & Ho1 & Hm1 & Hl1 & Ht1);
    [done|done|unfold NULLp; congruence|done|lia|done|].
  destruct (IH (i + 1) s1 ms1 ls1) as (s2 & ms2 & ls2 & E2 & HQ2 & Ho2 & Hm2 & Hl2 & Ht2 & Hp2);
    [done|lia| | | |].
  { intros p Hp. destruct (Hnew p) as [Hp1 Hp2]; [set_solver|]. split.
    - rewrite Ho1. apply elem_new_nodes in Hp as [Hpb Hpr].
      rewrite elem_of_app, list_elem_of_singleton. intros [?| ->]; [done|]. simpl in Hpr. lia.
    - apply chunk_at_in. rewrite (proj2 Hm1). by apply chunk_at_in. }
  { rewrite Ho1, length_app. simpl. lia. }
  { intros j Hj. rewrite (proj1 Hm1). apply Hcs. lia. }
  assert ((block, i) ∉ new_nodes (i + 1) n) as Hnot by (rewrite elem_new_nodes; simpl; lia).
  exists s2, ms2, ls2. split; [by rewrite (place_cons n i s s1)|]. split; [done|].
  split; [by rewrite Ho2, Ho1, <- app_assoc|]. split; [by etrans|]. split; [|split].
  - intros x Hx. rewrite Hl2, Hl1, decide_False by set_solver. done.
  - intros x Hx. rewrite Ht2, Ht1, covers_out; [done| |].
    + apply (Hx i); [lia|done].
    + intros j c' Hj. apply Hx. lia.
  - intros j c' l' Hj Hc' Hl' x Hx Hlater. destruct (decide (j = i)) as [->|Hji].
    + rewrite Hl2, Hl1, decide_True in Hl' by done. assert (c' = c) as -> by congruence.
      rewrite Ht2, Ht1, (proj2 (covers_spec _ _ _)); [congruence|exact Hx|].
      intros k c2 Hk. apply Hlater. lia.
    + apply (Hp2 j c' l'); [lia|done..|]. intros k c2 Hk. apply Hlater. lia.
Qed.
End placing.

(** ** The invariant of the plugin *)

(** A live region's chunks and their nodes point at each other. *)
Definition tied (s : lru_state) (p a e : Z) : Prop :=
  ∃ r nb cs, regions (index s) !! p = Some r ∧ region_privData r = Some nb ∧ 0 < nb ∧
    nb ∈ live (index s) ∧ nb ∉ dom (regions (index s)) ∪ dom (chunks (index s)) ∧
    chunks (index s) !! region_chunks r = Some cs ∧
    layout cs = layout (split_chunks (CHUNK_SIZE (globals (index s))) a (e - a)) ∧
    (∀ i c, cs !! i = Some c →
       chunk_privData c = Some (nb, Z.of_nat i) ∧
       chunk_at (nodes s) (nb, Z.of_nat i) = Some (region_chunks r, Z.of_nat i)).

Record lru_inv (s : lru_state) (d : nat) (w : Z) (L : live_regions) (cap : Z) (ms ls : list ptr) : Prop := {
  li_index : index_inv (index s) d w L;
  li_queues : queues s cap ms ls;
  li_dom : ∀ p, p ∈ ms ++ ls ↔ nodes_in (nodes s) p;
  li_tied : ∀ p a e, L !! p = Some (a, e) → tied s p a e;
  li_owner : ∀ nb i, nodes_in (nodes s) (nb, i) →
    ∃ p r, regions (index s) !! p = Some r ∧ region_privData r = Some nb ∧ 0 ≤ i < region_nChunks r;
  li_private : ∀ p q r r' nb, regions (index s) !! p = Some r → regions (index s) !! q = Some r' →
    region_privData r = Some nb → region_privData r' = Some nb → p = q
}.
Arguments li_index {s d w L cap ms ls}.
Arguments li_queues {s d w L cap ms ls}.
Arguments li_dom {s d w L cap ms ls}.
Arguments li_tied {s d w L cap ms ls}.
Arguments li_owner {s d w L cap ms ls}.
Arguments li_private {s d w L cap ms ls}.

(** A step that only rearranges the lists keeps the invariant. *)
Lemma lru_inv_moved s s' d w L cap ms ls ms' ls' :
  lru_inv s d w L cap ms ls → moved s s' → queues s' cap ms' ls' →
  ms' ++ ls' ≡ₚ ms ++ ls → lru_inv s' d w L cap ms' ls'.
Proof.
  intros HI [Hi Hc] HQ HP.
  assert (∀ p, nodes_in (nodes s') p ↔ nodes_in (nodes s) p) as Hin
    by (intros p; by rewrite !chunk_at_in, Hc).
  split; rewrite ?Hi.
  - apply (li_index HI).
  - done.
  - intros p. rewrite HP, Hin. apply (li_dom HI).
  - intros p a e HL. destruct (li_tied HI p a e HL) as (r & nb & cs & E1 & E2 & E3 & E4 & E5 & E6 & E7 & E8).
    exists r, nb, cs. rewrite Hi. repeat (split; [done|]). intros i c Ec. rewrite Hc. by apply E8.
  - intros nb i. rewrite Hin. apply (li_owner HI).
  - apply (li_private HI).
Qed.

(** Every node has a chunk, which points back. *)
Lemma node_chunk_ok s d w L cap ms ls nb i :
  lru_inv s d w L cap ms ls → nodes_in (nodes s) (nb, i) →
  ∃ p a e r cs c, L !! p = Some (a, e) ∧ regions (index s) !! p = Some r ∧
    region_privData r = Some nb ∧ chunks (index s) !! region_chunks r = Some cs ∧
    0 ≤ i ∧ cs !! Z.to_nat i = Some c ∧
    chunk_at (nodes s) (nb, i) = Some (region_chunks r, i) ∧
    deref_chunk (region_chunks r, i) (index s) = Done (c, index s).
Proof.
  intros HI Hin. destruct (li_owner HI nb i Hin) as (p & r & Er & Hnb & Hi).
  destruct (live_region _ _ _ _ _ _ (li_index HI) Er) as (a & e & HL).
  destruct (li_tied HI p a e HL) as (r' & nb' & cs & E1 & E2 & _ & _ & _ & E6 & _ & E8).
  destruct (ii_region (li_index HI) _ _ _ HL) as (r2 & cs2 & F1 & F2 & F3 & F4 & F5 & F6 & F7).
  assert (r' = r) as -> by congruence. assert (r2 = r) as -> by congruence.
  assert (nb' = nb) as -> by congruence. assert (cs2 = cs) as -> by congruence. rewrite F6 in Hi.
  destruct (lookup_Z_lt cs i Hi) as [c Ec]. exists p, a, e, r, cs, c.
  destruct (E8 _ _ Ec) as [_ Hch]. rewrite Z2Nat.id in Hch by lia.
  repeat (split; [done || lia|]). apply (deref_chunk_ok _ _ cs); done || lia.
Qed.

(** ** Samples *)

Section samples.
Context (logging : bool) (config : ShamblesPluginConfig).
Implicit Types (s : lru_state) (L : live_regions).

(** Moving [p] to the front of the recency order. *)
Definition to_front (p : ptr) (order order' : list ptr) : Prop :=
  ∃ l1 l2, order = l1 ++ p :: l2 ∧ order' = p :: l1 ++ l2.

Lemma to_front_perm p o o' : to_front p o o' → o' ≡ₚ o.
Proof. intros (l1 & l2 & -> & ->). apply Permutation_middle. Qed.

(** A sample of a tracked chunk, once the node is found. *)
Lemma sample_node_ok s d w L cap ms ls addr chunk node c :
  lru_inv s d w L cap ms ls → cap ≠ 0 → nodes_in (nodes s) node →
  deref_chunk chunk (index s) = Done (c, index s) →
  ∃ s' ms' ls', 
    (l ← read_loc node;
     match l with
     | FAST => at_mru dq node;; emit (LOG_SAMPLE logging addr 0 (Z.lor LOG_TRACKED LOG_HIT))
     | SLOW => sample_miss logging config addr chunk node
     end;; at_mru push node) s = Done (tt, s') ∧
    moved s s' ∧ lru_inv s' d w L cap ms' ls' ∧ to_front node (ms ++ ls) (ms' ++ ls') ∧
    ((∃ evs, loc_at (nodes s) node = Some FAST ∧ trace s' = trace s ++ evs ∧
        evs = LOG_SAMPLE logging addr 0 (Z.lor LOG_TRACKED LOG_HIT) ∧
        ∀ x, loc_at (nodes s') x = loc_at (nodes s) x) ∨
     (∃ v vcp vc, loc_at (nodes s) node = Some SLOW ∧ v ∈ ms ∧ v ≠ node ∧
        chunk_at (nodes s) v = Some vcp ∧ deref_chunk vcp (index s) = Done (vc, index s) ∧
        trace s' = trace s ++ LOG_SAMPLE logging addr 0 LOG_TRACKED ++ swap logging config c vc ∧
        ∀ x, loc_at (nodes s') x = if decide (x = v) then Some SLOW
           else if decide (x = node) then Some FAST else loc_at (nodes s) x)).
Proof.
  intros HI Hcap Hin Hc. pose proof (li_queues HI) as HQ.
  pose proof (proj2 (li_dom HI node) Hin) as [Hms|Hls]%elem_of_app.
  - destruct (clist_in _ _ _ node (q_mru HQ) Hms) as [_ Hn0].
    pose proof (q_fast HQ node Hms) as Hl.
    apply list_elem_of_split in Hms as (m1 & m2 & ->).
    destruct (sample_hit_ok s cap m1 node m2 ls (LOG_SAMPLE logging addr 0 (Z.lor LOG_TRACKED LOG_HIT)) HQ)
      as (s' & E & HQ' & Hm & Hloc & Ht).
    exists s', (node :: m1 ++ m2), ls.
    split; [by erewrite bind_done by by apply read_loc_done|]. split; [done|].
    assert (to_front node ((m1 ++ node :: m2) ++ ls) ((node :: m1 ++ m2) ++ ls)) as Hf.
    { exists m1, (m2 ++ ls). simpl. by rewrite <- !app_assoc. }
    split; [|split; [done|]].
    + eapply lru_inv_moved; [exact HI|done..|]. by apply (to_front_perm node).
    + left. by eexists.
  - destruct (clist_in _ _ _ node (q_lru HQ) Hls) as [_ Hn0].
    pose proof (q_slow HQ node Hls) as Hl.
    apply list_elem_of_split in Hls as (l1 & l2 & ->).
    destruct ms as [|v m0 _] using rev_ind.
    { exfalso. pose proof (q_free HQ). assert (freeFastChunks s = 0) by (apply (q_full HQ); by destruct l1).
      simpl in *. lia. }
    assert (nodes_in (nodes s) v) as Hv by (apply (li_dom HI); set_solver).
    destruct v as [vb vi].
    destruct (node_chunk_ok _ _ _ _ _ _ _ vb vi HI Hv)
      as (_ & _ & _ & vr & _ & vc & _ & _ & _ & _ & _ & _ & Hvch & Hvc).
    destruct (sample_miss_ok logging config s cap m0 (vb, vi) l1 node l2 addr chunk c _ vc HQ Hc Hvch Hvc)
      as (s' & E & HQ' & Hm & Hloc & Ht).
    exists s', (node :: m0), ((vb, vi) :: l1 ++ l2).
    split; [by erewrite bind_done by by apply read_loc_done|]. split; [done|].
    assert (to_front node ((m0 ++ [(vb, vi)]) ++ l1 ++ node :: l2) ((node :: m0) ++ (vb, vi) :: l1 ++ l2)) as Hf.
    { exists (m0 ++ (vb, vi) :: l1), l2. simpl. by rewrite <- !app_assoc. }
    split; [|split; [done|]].
    + eapply lru_inv_moved; [exact HI|done..|]. by apply (to_front_perm node).
    + right. exists (vb, vi), (region_chunks vr, vi), vc. split; [done|]. split; [set_solver|].
      split; [|done]. intros <-. pose proof (q_nodup HQ) as (_ & Hd & _)%list.NoDup_app. set_solver.
Qed.
End samples.

(** ** Chunks of different nodes do not overlap *)

Lemma chunks_apart s d w L cap ms ls p q cp cq c c' x :
  lru_inv s d w L cap ms ls → p ≠ q →
  chunk_at (nodes s) p = Some cp → deref_chunk cp (index s) = Done (c, index s) →
  chunk_at (nodes s) q = Some cq → deref_chunk cq (index s) = Done (c', index s) →
  in_chunk c x → ¬ in_chunk c' x.
Proof.
  intros HI Hpq Hcp Hc Hcq Hc' Hx Hx'. destruct p as [pb pi], q as [qb qi].
  destruct (node_chunk_ok _ _ _ _ _ _ _ pb pi HI) as (p & a & e & r & cs & c1 & HL & Er & Hpb & Ecs & Hi & Ec & Hch & Hd);
    [by apply chunk_at_in; rewrite Hcp|].
  destruct (node_chunk_ok _ _ _ _ _ _ _ qb qi HI) as (q & a' & e' & r' & cs' & c2 & HL' & Er' & Hqb & Ecs' & Hi' & Ec' & Hch' & Hd');
    [by apply chunk_at_in; rewrite Hcq|].
  assert (c1 = c) as -> by congruence. assert (c2 = c') as -> by congruence.
  destruct (ii_region (li_index HI) _ _ _ HL) as (r1 & cs1 & F1 & _ & _ & F4 & _ & _ & F7).
  destruct (ii_region (li_index HI) _ _ _ HL') as (r2 & cs2 & G1 & _ & _ & G4 & _ & _ & G7).
  assert (r1 = r) as -> by congruence. assert (r2 = r') as -> by congruence.
  assert (cs1 = cs) as -> by congruence. assert (cs2 = cs') as -> by congruence.
  destruct (decide (p = q)) as [->|Hne].
  - assert (r' = r) as -> by congruence. assert (cs' = cs) as -> by congruence.
    assert (pi ≠ qi) by congruence. unfold in_chunk in *.
    destruct (decide (pi < qi)).
    + pose proof (contiguous_apart _ _ _ _ _ _ _ F7 Ec Ec'). lia.
    + pose proof (contiguous_apart _ _ _ _ _ _ _ F7 Ec' Ec). lia.
  - destruct (ii_root (li_index HI)) as (nl & _ & HT).
    destruct (contiguous_in _ _ _ _ _ F7 Ec), (contiguous_in _ _ _ _ _ G7 Ec').
    destruct (ro_disjoint (ti_regions HT) p q a e a' e'); try done; unfold in_chunk in *; lia.
Qed.

(** ** Placement *)

Section placement.
Context (logging : bool) (config : ShamblesPluginConfig).

(** The policy in force at every address of a tracked chunk is the one its
    node's [loc] records. *)
Definition placed (s : lru_state) : Prop :=
  ∀ p cp c l x, chunk_at (nodes s) p = Some cp → deref_chunk cp (index s) = Done (c, index s) →
    loc_at (nodes s) p = Some l → in_chunk c x → policy_at (trace s) x = mask_of config l.

(** The node of a sampled address: the index resolves the address to a live region, and the node is the one of the
    chunk of that region in which it lies. *)
Definition found (s : lru_state) (L : live_regions) (addr : Z) (node : ptr) : Prop :=
  ∃ p a e r nb, getRegion addr (index s) = Done (p, index s) ∧ p ≠ 0 ∧ L !! p = Some (a, e) ∧ a ≤ addr < e ∧
    regions (index s) !! p = Some r ∧ region_privData r = Some nb ∧ node = (nb, (addr - a) / CHUNK_SIZE (globals (index s))).

Lemma handleSample_ok s d w L cap ms ls addr :
  lru_inv s d w L cap ms ls → cap ≠ 0 → window d (slot_of (globals (index s)) addr) = w →
  ∃ s' ms' ls', handleSample logging config addr s = Done (tt, s') ∧
    lru_inv s' d w L cap ms' ls' ∧ (placed s → placed s') ∧
    index s' = index s ∧
    ((getRegion addr (index s) = Done (0, index s) ∧ ms' = ms ∧ ls' = ls ∧
      trace s' = trace s ++ LOG_SAMPLE logging addr 0 0) ∨
     (∃ node cp c, chunk_at (nodes s) node = Some cp ∧
        deref_chunk cp (index s) = Done (c, index s) ∧ in_chunk c addr ∧
        to_front node (ms ++ ls) (ms' ++ ls') ∧ found s L addr node)).
Proof.
  intros HI Hcap Hw.
  destruct (getRegion_ok _ _ _ _ addr (li_index HI) Hw) as (p & E & _ & _).
  destruct (getChunkInfo_ok _ _ _ _ _ _ (li_index HI) Hw E) as
    [[-> EC]|(a & e & r & cs & HL & Hx & Er & Ecs & Hget)]; unfold handleSample.
  - exists (set_trace (trace s ++ LOG_SAMPLE logging addr 0 0) s), ms, ls.
    split; [|split; [|split; [|split; [done|left; done]]]].
    + erewrite bind_done by by apply zoom_done. by destruct s.
    + eapply lru_inv_moved; [exact HI|done| |done]. apply queues_intro; try apply HI.
      apply (queues_two _ _ _ _ (li_queues HI)).
    + intros HP q cp c l x H1 H2 H3 H4. simpl. rewrite policy_log_sample. by apply (HP q cp c).
  - destruct (li_tied HI p a e HL) as (r' & nb & cs' & E1 & E2 & _ & _ & _ & E6 & E7 & E8).
    assert (r' = r) as -> by congruence. assert (cs' = cs) as -> by congruence.
    destruct (Hget E7) as (i & c & EC & Hi & Hix & Ec & Hxc). destruct (E8 _ _ Ec) as [Hpriv Hch].
    rewrite Z2Nat.id in Hpriv, Hch by done.
    destruct (ii_region (li_index HI) _ _ _ HL) as (r2 & cs2 & F1 & _ & F3 & _).
    assert (r2 = r) as -> by congruence.
    pose proof (deref_chunk_ok _ i _ c _ F3 Hi Ecs Ec) as Hd.
    destruct (sample_node_ok logging config s d w L cap ms ls addr (region_chunks r, i) (nb, i) c)
      as (s' & ms' & ls' & Es & Hm & HI' & Hf & Hcases); [done|done|by apply chunk_at_in; rewrite Hch|done|].
    exists s', ms', ls'. split; [|split; [done|split; [|split; [apply Hm|]]]].
    + erewrite bind_done by by apply zoom_done.
      rewrite decide_False by (unfold NULLp; congruence).
      erewrite bind_done by by apply zoom_done.
      erewrite bind_done by (unfold liftO; rewrite Hpriv; reflexivity).
      simpl. by destruct s.
    + intros HP q cq cq' l x. rewrite (proj1 Hm), (proj2 Hm). intros H1 H2 H3 H4.
      destruct Hcases as [(evs & Hl & Ht & -> & Hloc)|(v & vcp & vc & Hl & Hvin & Hvn & Hvch & Hvd & Ht & Hloc)].
      * rewrite Ht, policy_log_sample. rewrite Hloc in H3. by apply (HP q cq cq').
      * rewrite Ht, app_assoc, policy_swap, policy_log_sample, Hloc in *.
        destruct (decide (q = v)) as [->|Hqv].
        { assert (cq' = vc) as -> by congruence. injection H3 as <-.
          rewrite (covers_out (chunk_start c)), (proj2 (covers_spec (chunk_start vc) _ _) H4); [done|].
          by eapply (chunks_apart s d w L cap ms ls v (nb, i)). }
        destruct (decide (q = (nb, i))) as [->|Hqn].
        { assert (cq' = c) as -> by congruence. injection H3 as <-.
          by rewrite (proj2 (covers_spec (chunk_start c) _ _) H4). }
        rewrite (covers_out (chunk_start c)), (covers_out (chunk_start vc)).
        { by apply (HP q cq cq'). }
        { by eapply (chunks_apart s d w L cap ms ls q v). }
        { by eapply (chunks_apart s d w L cap ms ls q (nb, i)). }
    + right. exists (nb, i), (region_chunks r, i), c. split_and!; try done. exists p, a, e, r, nb. split_and!; try done; try lia.
      * destruct (ii_root (li_index HI)) as (nl & _ & HT). by destruct (ro_each (ti_regions HT) _ _ _ HL).
      * by rewrite Hix.
Qed.
End placement.

(** ** Allocations *)

(** The chunk array after the first [k] chunks got their nodes. *)
Definition tag (nb : Z) (k : nat) (cs : list ShamblesChunk) : list ShamblesChunk :=
  imap (λ j c, if decide (j < k)%nat
               then mkChunk (chunk_start c) (chunk_size c) (Some (nb, Z.of_nat j)) else c) cs.

Section tags.
Context (nb : Z).
Implicit Types cs : list ShamblesChunk.

Lemma tag_lookup k cs j :
  tag nb k cs !! j =
  (λ c, if decide (j < k)%nat then mkChunk (chunk_start c) (chunk_size c) (Some (nb, Z.of_nat j)) else c)
    <$> cs !! j.
Proof. unfold tag. by rewrite list_lookup_imap. Qed.

Lemma tag_zero cs : tag nb 0 cs = cs.
Proof. apply list_eq. intros j. rewrite tag_lookup. by destruct (cs !! j). Qed.

Lemma tag_layout k cs : layout (tag nb k cs) = layout cs.
Proof.
  apply list_eq. intros j. unfold layout. rewrite !list_lookup_fmap, tag_lookup.
  destruct (cs !! j); simpl; [|done]. by case_decide.
Qed.

Lemma length_tag k cs : length (tag nb k cs) = length cs.
Proof. apply length_imap. Qed.

Lemma tag_step k cs c :
  cs !! k = Some c →
  <[k:=mkChunk (chunk_start c) (chunk_size c) (Some (nb, Z.of_nat k))]> (tag nb k cs) = tag nb (S k) cs.
Proof.
  intros E. apply list_eq. intros j. rewrite tag_lookup. destruct (decide (j = k)) as [->|Hne].
  - rewrite list_lookup_insert_eq by (rewrite length_tag; by apply lookup_lt_Some in E).
    rewrite E. simpl. by rewrite decide_True by lia.
  - rewrite list_lookup_insert_ne, tag_lookup by done. destruct (cs !! j); simpl; [|done].
    repeat case_decide; done || lia.
Qed.
End tags.

(** [s'] is [s] with the nodes of the chunk array [b] created. *)
Definition tracked (nb b : Z) (k : nat) (cs : list ShamblesChunk) (s s' : lru_state) : Prop :=
  mru s' = mru s ∧ lru s' = lru s ∧ freeFastChunks s' = freeFastChunks s ∧ trace s' = trace s ∧
  index s' = set_chunks (<[b:=tag nb k cs]> (chunks (index s))) (index s) ∧
  (∀ x, nodes s' !! x = if decide (x ∈ new_nodes nb 0 k) then Some (mkLRU (b, x.2) None NULLp NULLp)
                        else nodes s !! x).

Lemma init_nodes_ok nb b cs s :
  b ≠ 0 → chunks (index s) !! b = Some cs →
  ∃ s', init_nodes nb b (length cs) s = Done (tt, s') ∧ tracked nb b (length cs) cs s s'.
Proof.
  intros Hb Ecs. unfold init_nodes.
  edestruct (for_n_inv (λ i s', tracked nb b (Z.to_nat i) cs s s')) as (s' & E & HI).
  3: { exists s'. split; [exact E|]. rewrite Z.add_0_l, Nat2Z.id in HI. exact HI. }
  - split; [done|]. split; [done|]. split; [done|]. split; [done|]. split.
    + rewrite tag_zero, insert_id by done. by destruct s as [[]].
    + intros x. rewrite decide_False; [done|]. by rewrite elem_new_nodes; lia.
  - intros i s1 Hi (H1 & H2 & H3 & H4 & H5 & H6).
    destruct (lookup_lt_is_Some_2 cs (Z.to_nat i)) as [c Ec]; [lia|].
    erewrite bind_done by reflexivity. eexists. split.
    + apply zoom_done. simpl. rewrite H5.
      apply (set_chunk_privData_ok _ _ _ (tag nb (Z.to_nat i) cs) c); simpl; try done || lia.
      * apply lookup_insert_eq.
      * rewrite tag_lookup, Ec. simpl. by rewrite decide_False by lia.
    + split; [done|]. split; [done|]. split; [done|]. split; [done|]. split.
      * unfold set_index, set_chunks. simpl. f_equal. rewrite insert_insert_eq. f_equal.
        replace (Z.to_nat (i + 1)) with (S (Z.to_nat i)) by lia.
        rewrite <- (tag_step nb _ cs c Ec). by rewrite Z2Nat.id by lia.
      * intros [xb xi]. simpl. destruct (decide ((xb, xi) = (nb, i))) as [[= -> ->]|Hne].
        -- rewrite lookup_insert_eq, decide_True; [done|]. rewrite elem_new_nodes. simpl. lia.
        -- rewrite lookup_insert_ne, H6 by done. repeat case_decide; try done;
             rewrite elem_new_nodes in *; simpl in *; [lia|].
           destruct (decide (xi = i)); [naive_solver|]. exfalso. lia.
Qed.

Section allocation.
Context `{PluginMallocOk} (logging : bool) (config : ShamblesPluginConfig).
Implicit Types (s : lru_state) (L : live_regions).

(** The two lists are untouched by the creation of nodes elsewhere. *)
Lemma queues_tracked nb b k cs s s' cap ms ls :
  queues s cap ms ls → tracked nb b k cs s s' → (∀ p, p ∈ ms ++ ls → p ∉ new_nodes nb 0 k) →
  queues s' cap ms ls.
Proof.
  intros HQ (H1 & H2 & H3 & H4 & H5 & H6) Hdis.
  assert (∀ p, p ∈ ms ++ ls → nodes s' !! p = nodes s !! p) as Hsame
    by (intros p Hp; rewrite H6, decide_False; auto).
  apply queues_intro; rewrite ?H1, ?H2, ?H3; try apply HQ.
  - destruct (queues_two _ _ _ _ HQ) as (A & B & C).
    split; [|split; [|done]]; eapply clist_agree; try eassumption; intros p Hp; apply Hsame; set_solver.
  - intros p Hp. unfold loc_at. rewrite Hsame by set_solver. by apply (q_fast HQ).
  - intros p Hp. unfold loc_at. rewrite Hsame by set_solver. by apply (q_slow HQ).
Qed.

(** The state in which the placement loop starts: the region is in the index,
    its chunks and the new nodes point at each other. *)
Record grown (s s' : lru_state) (p nb b a : Z) (cs : list ShamblesChunk) : Prop := {
  g_globals : globals (index s') = globals (index s);
  g_regions : regions (index s') = <[p:=mkRegion a (Z.of_nat (length cs)) b (Some nb)]> (regions (index s));
  g_chunks : chunks (index s') = <[b:=tag nb (length cs) cs]> (chunks (index s));
  g_live : live (index s') = {[nb]} ∪ ({[b]} ∪ ({[p]} ∪ live (index s)));
  g_fresh : nb ∉ live (index s) ∧ b ∉ live (index s) ∧ p ∉ live (index s);
  g_apart : p ≠ b ∧ p ≠ nb ∧ b ≠ nb ∧ 0 < p ∧ 0 < b ∧ 0 < nb;
  g_nodes : ∀ x, nodes s' !! x =
    if decide (x ∈ new_nodes nb 0 (length cs)) then Some (mkLRU (b, x.2) None NULLp NULLp) else nodes s !! x
}.

(** The node array of every region. *)
Definition block_of (i : structs) : gmap Z Z := omap region_privData (regions i).

(** There is memory for the descriptor, the chunk array and the array of [n] nodes. *)
Definition alloc_served (i : structs) (n : Z) : Prop :=
  region_served i n ∧ malloc_at (region_live i n) (n * sizeof_LRUlist) ≠ 0.

Lemma on_alloc_grown s d w L a size :
  let cs := split_chunks (CHUNK_SIZE (globals (index s))) a size in
  index_inv (index s) d w L → sizeThresshold config ≤ size →
  region_ok (slot_bytes (globals (index s))) a (a + size) →
  in_window (globals (index s)) d w a (a + size) →
  (∀ q a' e', L !! q = Some (a', e') → a + size ≤ a' ∨ e' ≤ a) →
  (size + CHUNK_SIZE (globals (index s)) - 1) / CHUNK_SIZE (globals (index s)) < 2 ^ 31 →
  alloc_served (index s) ((size + CHUNK_SIZE (globals (index s)) - 1) / CHUNK_SIZE (globals (index s))) →
  ∃ s' s0 p nb b, on_alloc logging config a size s = place logging config nb b (length cs) 0 s' ∧
    grown s s' p nb b a cs ∧ tracked nb b (length cs) cs s0 s' ∧
    mru s0 = mru s ∧ lru s0 = lru s ∧ freeFastChunks s0 = freeFastChunks s ∧ trace s0 = trace s ∧
    nodes s0 = nodes s ∧ index_inv (index s') d w (<[p:=(a, a + size)]> L).
Proof.
  intros cs HI Hthr Hok Hw Hdis Hn [Hm Hm3].
  destruct (addRegion_ok _ d w L a size HI Hok Hw Hdis Hn Hm) as (p & b & i1 & E1 & Hadd & HI1 & Hlive).
  assert (Z.of_nat (length cs) = (size + CHUNK_SIZE (globals (index s)) - 1) / CHUNK_SIZE (globals (index s))) as Hlen.
  { pose proof (ii_chunk HI). destruct Hok as (? & ? & ?). pose proof (slot_bytes_pos _ _ (ii_geo HI)). apply split_chunks_length; lia. }
  fold cs in Hadd. destruct (added_lookup _ _ _ _ _ _ Hadd) as [Er Ec].
  destruct Hadd as (Hg & Hpl & Hbl & Hpb & Hp & Hb & Hl & Hr & Hc & _).
  destruct (plugin_malloc_ok (Z.of_nat (length cs) * sizeof_LRUlist) i1) as (nb & _ & E2 & Hnb & Hnbl); [by rewrite Hlive, Hlen|].
  set (i2 := set_live ({[nb]} ∪ live i1) i1).
  set (i3 := set_regions (<[p:=mkRegion a (Z.of_nat (length cs)) b (Some nb)]> (regions i2)) i2).
  destruct (init_nodes_ok nb b cs (set_index i3 s)) as (s4 & E4 & HT); [lia|done|].
  pose proof HT as (H1 & H2 & H3 & H4 & H5 & H6).
  exists s4, (set_index i3 s), p, nb, b. split; [|split; [|split; [done|]]].
  - unfold on_alloc. rewrite (proj2 (Z.ltb_ge _ _)) by done.
    step_with (zoom_done index set_index (addRegion a size) s p i1 E1).
    erewrite bind_done by (apply zoom_done; apply deref_region_ok; [lia|exact Er]).
    cbn [region_nChunks region_start region_chunks].
    erewrite bind_done by (apply zoom_done; exact E2). fold i2.
    erewrite bind_done.
    2: { apply zoom_done. unfold write_region. rewrite (proj2 (Z.eqb_neq p 0)) by lia. reflexivity. }
    rewrite (proj2 (Z.eqb_neq nb 0)) by lia. cbv zeta. rewrite Nat2Z.id.
    erewrite bind_done; [reflexivity|]. exact E4.
  - split; rewrite ?H5; simpl.
    + done.
    + by rewrite Hr, insert_insert_eq.
    + by rewrite Hc, insert_insert_eq.
    + by rewrite Hl.
    + set_solver.
    + repeat split; try done; set_solver.
    + exact H6.
  - do 5 (split; [done|]). eapply index_inv_retagged; [exact HI1|]. rewrite H5. split; simpl; try done.
    + set_solver.
    + intros q. destruct (decide (q = p)) as [->|]; [by rewrite lookup_insert_eq, Er|by rewrite lookup_insert_ne].
    + intros q. destruct (decide (q = b)) as [->|]; [|by rewrite lookup_insert_ne].
      rewrite lookup_insert_eq, Ec. simpl. by rewrite tag_layout.
Qed.

(** What the new state says about the regions that were there before. *)
Lemma grown_old s s' p nb b a cs d w L cap ms ls q r nbq :
  lru_inv s d w L cap ms ls → grown s s' p nb b a cs → regions (index s) !! q = Some r →
  region_privData r = Some nbq →
  q ≠ p ∧ nbq ≠ nb ∧ region_chunks r ≠ b ∧ regions (index s') !! q = Some r ∧
  chunks (index s') !! region_chunks r = chunks (index s) !! region_chunks r ∧
  (∀ i, nodes s' !! (nbq, i) = nodes s !! (nbq, i)).
Proof.
  intros HI HG Hq Hnb. destruct (live_region _ _ _ _ _ _ (li_index HI) Hq) as (a' & e' & HL).
  destruct (li_tied HI _ _ _ HL) as (r' & nb' & cs' & E1 & E2 & _ & E4 & _ & E6 & _).
  assert (r' = r) as -> by congruence. assert (nb' = nbq) as -> by congruence.
  destruct (g_fresh _ _ _ _ _ _ _ HG) as (F1 & F2 & F3). pose proof (ii_live (li_index HI)) as Hlive.
  apply elem_of_dom_2 in Hq as Hqd. apply elem_of_dom_2 in E6 as Hbd.
  assert (q ≠ p) by set_solver. assert (nbq ≠ nb) by set_solver. assert (region_chunks r ≠ b) by set_solver.
  do 3 (split; [done|]). rewrite (g_regions _ _ _ _ _ _ _ HG), (g_chunks _ _ _ _ _ _ _ HG), !lookup_insert_ne by done.
  split; [done|]. split; [done|]. intros i. rewrite (g_nodes _ _ _ _ _ _ _ HG), decide_False; [done|].
  rewrite elem_new_nodes. simpl. by intros [? _].
Qed.

Lemma grown_new_chunk s s' p nb b a cs i c :
  grown s s' p nb b a cs → cs !! i = Some c →
  chunks (index s') !! b = Some (tag nb (length cs) cs) ∧
  tag nb (length cs) cs !! i = Some (mkChunk (chunk_start c) (chunk_size c) (Some (nb, Z.of_nat i))) ∧
  chunk_at (nodes s') (nb, Z.of_nat i) = Some (b, Z.of_nat i).
Proof.
  intros HG Hi. pose proof (lookup_lt_Some _ _ _ Hi).
  split; [rewrite (g_chunks _ _ _ _ _ _ _ HG); apply lookup_insert_eq|]. split.
  - rewrite tag_lookup, Hi. simpl. by rewrite decide_True.
  - unfold chunk_at. rewrite (g_nodes _ _ _ _ _ _ _ HG), decide_True; [done|].
    rewrite elem_new_nodes. simpl. lia.
Qed.

Lemma grown_inv s s' s'' p nb b a e cs d w L cap ms ls ms' ls' :
  lru_inv s d w L cap ms ls → grown s s' p nb b a cs →
  cs = split_chunks (CHUNK_SIZE (globals (index s))) a (e - a) →
  index_inv (index s') d w (<[p:=(a, e)]> L) → moved s' s'' → queues s'' cap ms' ls' →
  ms' ++ ls' = (ms ++ ls) ++ new_nodes nb 0 (length cs) →
  lru_inv s'' d w (<[p:=(a, e)]> L) cap ms' ls'.
Proof.
  intros HI HG Hcs HI' [Hmi Hmc] HQ Ho.
  assert (∀ x, nodes_in (nodes s'') x ↔ x ∈ new_nodes nb 0 (length cs) ∨ nodes_in (nodes s) x) as Hin.
  { intros x. rewrite chunk_at_in, Hmc, <- chunk_at_in. unfold nodes_in.
    rewrite (g_nodes _ _ _ _ _ _ _ HG). case_decide; [|tauto]. split; [tauto|by eauto]. }
  destruct (g_fresh _ _ _ _ _ _ _ HG) as (F1 & F2 & F3).
  destruct (g_apart _ _ _ _ _ _ _ HG) as (A1 & A2 & A3 & A4 & A5 & A6).
  assert (∀ q r nbq, regions (index s'') !! q = Some r → region_privData r = Some nbq →
    (q = p ∧ nbq = nb ∧ r = mkRegion a (Z.of_nat (length cs)) b (Some nb)) ∨
    (q ≠ p ∧ nbq ≠ nb ∧ regions (index s) !! q = Some r)) as Hreg.
  { intros q r nbq Hq Hr. rewrite Hmi, (g_regions _ _ _ _ _ _ _ HG) in Hq.
    apply lookup_insert_Some in Hq as [[<- <-]|[Hne Hq]].
    - simpl in Hr. left. split; [done|]. split; [congruence|done].
    - right. destruct (grown_old _ _ _ _ _ _ _ _ _ _ _ _ _ _ _ _ HI HG Hq Hr) as (? & ? & _). done. }
  split.
  - by rewrite Hmi.
  - done.
  - intros x. rewrite Ho, Hin, elem_of_app, (li_dom HI). tauto.
  - intros q a' e' [[<- [= <- <-]]|[Hne HL]]%lookup_insert_Some.
    + exists (mkRegion a (Z.of_nat (length cs)) b (Some nb)), nb, (tag nb (length cs) cs).
      rewrite Hmi. unfold tied. rewrite (g_regions _ _ _ _ _ _ _ HG), (g_globals _ _ _ _ _ _ _ HG), (g_live _ _ _ _ _ _ _ HG).
      split; [apply lookup_insert_eq|]. do 2 (split; [done|]). split; [set_solver|]. split.
      { rewrite (g_chunks _ _ _ _ _ _ _ HG), !dom_insert_L. pose proof (ii_live (li_index HI)). set_solver. }
      split; [rewrite (g_chunks _ _ _ _ _ _ _ HG); apply lookup_insert_eq|].
      split; [rewrite tag_layout, Hcs; done|].
      intros i c Hi. rewrite tag_lookup in Hi. destruct (cs !! i) as [c0|] eqn:Ec; [|done].
      destruct (grown_new_chunk _ _ _ _ _ _ _ i c0 HG Ec) as (_ & _ & G3). rewrite Hmc. split; [|done].
      injection Hi as <-. apply lookup_lt_Some in Ec. by rewrite decide_True.
    + destruct (li_tied HI _ _ _ HL) as (r & nbq & cs' & E1 & E2 & E3 & E4 & E5 & E6 & E7 & E8).
      destruct (grown_old _ _ _ _ _ _ _ _ _ _ _ _ _ _ _ _ HI HG E1 E2) as (_ & G2 & G3 & G4 & G5 & G6).
      exists r, nbq, cs'. rewrite Hmi, G4, G5, (g_globals _ _ _ _ _ _ _ HG), (g_live _ _ _ _ _ _ _ HG).
      rewrite (g_regions _ _ _ _ _ _ _ HG), (g_chunks _ _ _ _ _ _ _ HG), !dom_insert_L.
      split; [done|]. split; [done|]. split; [done|]. split; [set_solver|]. split; [set_solver|].
      split; [done|]. split; [done|]. intros i c Hi. rewrite Hmc. unfold chunk_at. rewrite G6. by apply E8.
  - intros nbq i [Hx|Hx]%Hin.
    + apply elem_new_nodes in Hx as [Hx1 Hx2]. simpl in Hx1, Hx2. subst nbq.
      exists p, (mkRegion a (Z.of_nat (length cs)) b (Some nb)). rewrite Hmi, (g_regions _ _ _ _ _ _ _ HG).
      split; [apply lookup_insert_eq|]. simpl. split; [done|lia].
    + destruct (li_owner HI _ _ Hx) as (q & r & Hq & Hr & Hi). exists q, r.
      destruct (grown_old _ _ _ _ _ _ _ _ _ _ _ _ _ _ _ _ HI HG Hq Hr) as (_ & _ & _ & G4 & _).
      by rewrite Hmi.
  - intros q q' r r' nbq Hq Hq' Hr Hr'.
    destruct (Hreg _ _ _ Hq Hr) as [(-> & -> & _)|(? & ? & Hq1)], (Hreg _ _ _ Hq' Hr') as [(-> & ? & _)|(? & ? & Hq2)];
      try done. by apply (li_private HI q q' r r' nbq).
Qed.

(** The placement of the chunks that were tracked before is undisturbed. *)
Lemma grown_placed s s' s'' p nb b a e cs d w L cap ms ls :
  lru_inv s d w L cap ms ls → grown s s' p nb b a cs → moved s' s'' →
  contiguous a cs e → (∀ q a' e', L !! q = Some (a', e') → e ≤ a' ∨ e' ≤ a) →
  (∀ x, x ∉ new_nodes nb 0 (length cs) → loc_at (nodes s'') x = loc_at (nodes s') x) →
  (∀ x, (∀ j c, 0 ≤ j < 0 + Z.of_nat (length cs) → tag nb (length cs) cs !! Z.to_nat j = Some c → ¬ in_chunk c x) →
     policy_at (trace s'') x = policy_at (trace s) x) →
  (∀ j c l, 0 ≤ j < 0 + Z.of_nat (length cs) → tag nb (length cs) cs !! Z.to_nat j = Some c →
     loc_at (nodes s'') (nb, j) = Some l → ∀ x, in_chunk c x →
     (∀ k c', j < k < 0 + Z.of_nat (length cs) → tag nb (length cs) cs !! Z.to_nat k = Some c' → ¬ in_chunk c' x) →
     policy_at (trace s'') x = mask_of config l) →
  placed config s → placed config s''.
Proof.
  intros HI HG [Hmi Hmc] Hcont Hdis Hloc Hpol Hnew HP q cp c l x Hch Hd Hl Hx.
  assert (contiguous a (tag nb (length cs) cs) e) as Hct.
  { eapply contiguous_layout; [|exact Hcont]. by rewrite tag_layout. }
  rewrite Hmc in Hch. rewrite Hmi in Hd.
  destruct (decide (q ∈ new_nodes nb 0 (length cs))) as [Hq|Hq].
  - destruct q as [qb j]. apply elem_new_nodes in Hq as Hq'. simpl in Hq'. destruct Hq' as [-> Hj].
    unfold chunk_at in Hch. rewrite (g_nodes _ _ _ _ _ _ _ HG), decide_True in Hch by done.
    injection Hch as <-. apply deref_chunk_inv in Hd as (_ & _ & _ & cs' & Ecs & Ec).
    rewrite (g_chunks _ _ _ _ _ _ _ HG), lookup_insert_eq in Ecs. injection Ecs as <-.
    apply (Hnew j c l Hj Ec Hl x Hx). intros k c' Hk Ec' Hx'.
    pose proof (contiguous_apart _ _ _ _ _ _ _ Hct Ec Ec'). unfold in_chunk in *. lia.
  - rewrite Hloc in Hl by done.
    unfold chunk_at in Hch. rewrite (g_nodes _ _ _ _ _ _ _ HG), decide_False in Hch by done.
    unfold loc_at in Hl. rewrite (g_nodes _ _ _ _ _ _ _ HG), decide_False in Hl by done.
    destruct q as [qb qi].
    destruct (node_chunk_ok _ _ _ _ _ _ _ qb qi HI) as (q & a' & e' & r & cs' & c1 & HL & Er & Hr & Ecs & Hi & Ec & Hch' & Hd1);
      [by apply chunk_at_in; unfold chunk_at; rewrite Hch|].
    unfold chunk_at in Hch'. rewrite Hch in Hch'. injection Hch' as ->.
    destruct (grown_old _ _ _ _ _ _ _ _ _ _ _ _ _ _ _ _ HI HG Er Hr) as (_ & _ & _ & _ & G5 & _).
    apply deref_chunk_inv in Hd as (_ & _ & _ & cs2 & Ecs2 & Ec2). rewrite G5 in Ecs2.
    assert (cs2 = cs') as -> by congruence. assert (c1 = c) as -> by congruence.
    destruct (ii_region (li_index HI) _ _ _ HL) as (r1 & cs1 & K1 & _ & _ & K4 & _ & _ & K7).
    assert (r1 = r) as -> by congruence. assert (cs1 = cs') as -> by congruence.
    destruct (contiguous_in _ _ _ _ _ K7 Ec).
    rewrite Hpol; [by apply (HP (qb, qi) (region_chunks r, qi) c)|].
    intros j c' Hj Ec' Hx'. destruct (contiguous_in _ _ _ _ _ Hct Ec').
    destruct (Hdis _ _ _ HL); unfold in_chunk in *; lia.
Qed.

Lemma on_alloc_ok s d w L cap ms ls a size :
  let n := (size + CHUNK_SIZE (globals (index s)) - 1) / CHUNK_SIZE (globals (index s)) in
  lru_inv s d w L cap ms ls → sizeThresshold config ≤ size →
  region_ok (slot_bytes (globals (index s))) a (a + size) →
  in_window (globals (index s)) d w a (a + size) →
  (∀ q a' e', L !! q = Some (a', e') → a + size ≤ a' ∨ e' ≤ a) →
  n < 2 ^ 31 → - 2 ^ 31 ≤ cap - Z.of_nat (length (ms ++ ls)) - n → alloc_served (index s) n →
  ∃ s' p nb ms' ls', on_alloc logging config a size s = Done (tt, s') ∧
    lru_inv s' d w (<[p:=(a, a + size)]> L) cap ms' ls' ∧ L !! p = None ∧
    ms' ++ ls' = (ms ++ ls) ++ new_nodes nb 0 (Z.to_nat n) ∧
    globals (index s') = globals (index s) ∧ block_of (index s') = <[p:=nb]> (block_of (index s)) ∧
    (placed config s → placed config s').
Proof.
  intros n HI Hthr Hok Hw Hdis Hn Hint Hserved.
  destruct (on_alloc_grown s d w L a size) as
    (s1 & s0 & p & nb & b & E1 & HG & HT & T1 & T2 & T3 & T4 & T5 & HI1); try done; [apply HI|].
  set (cs := split_chunks (CHUNK_SIZE (globals (index s))) a size) in *.
  pose proof (ii_chunk (li_index HI)) as Hcb. pose proof Hok as (Ha & Hae & He).
  pose proof (slot_bytes_pos _ _ (ii_geo (li_index HI))) as Hrz.
  assert (Z.of_nat (length cs) = n) as Hlen by (apply split_chunks_length; lia).
  assert (contiguous a cs (a + size)) as Hcont by (apply split_chunks_contiguous; lia).
  destruct (g_apart _ _ _ _ _ _ _ HG) as (A1 & A2 & A3 & A4 & A5 & A6).
  assert (∀ x, x ∈ new_nodes nb 0 (length cs) → x ∉ ms ++ ls) as Hnew.
  { intros [xb xi] Hx Hin. apply elem_new_nodes in Hx as [Hx _]. simpl in Hx. subst xb.
    apply (li_dom HI) in Hin. destruct (li_owner HI _ _ Hin) as (q & r & Hq & Hr & _).
    by destruct (grown_old _ _ _ _ _ _ _ _ _ _ _ _ _ _ _ _ HI HG Hq Hr) as (_ & ? & _). }
  assert (queues s1 cap ms ls) as HQ1.
  { eapply (queues_tracked nb b _ cs s0); [|exact HT|].
    - apply queues_intro; rewrite ?T1, ?T2, ?T3, ?T5; try apply (li_queues HI).
      apply (queues_two _ _ _ _ (li_queues HI)).
    - intros x Hx Hx'. by apply (Hnew x). }
  destruct (place_ok logging config nb b (length cs) 0 s1 cap ms ls (tag nb (length cs) cs))
    as (s2 & ms' & ls' & E2 & HQ2 & Ho & Hm & Hl & Hp1 & Hp2); [done|done|lia| | | |].
  { intros x Hx. split; [by apply Hnew|]. unfold nodes_in. rewrite (g_nodes _ _ _ _ _ _ _ HG), decide_True by done. by eauto. }
  { lia. }
  { intros j Hj. destruct (lookup_lt_is_Some_2 cs (Z.to_nat j)) as [c Ec]; [lia|].
    destruct (grown_new_chunk _ _ _ _ _ _ _ _ _ HG Ec) as (G1 & G2 & _).
    eexists. split; [exact G2|]. by apply (deref_chunk_ok _ _ (tag nb (length cs) cs)); try done; lia. }
  exists s2, p, nb, ms', ls'. split; [by rewrite E1|]. split; [|split; [|split]].
  - eapply grown_inv; try done. f_equal. lia.
  - apply (fresh_not_live _ _ _ _ _ (li_index HI)). apply (g_fresh _ _ _ _ _ _ _ HG).
  - by rewrite <- Hlen, Nat2Z.id.
  - split; [by rewrite (proj1 Hm), (g_globals _ _ _ _ _ _ _ HG)|]. split.
    { unfold block_of. rewrite (proj1 Hm), (g_regions _ _ _ _ _ _ _ HG), (omap_insert_Some _ _ _ _ nb) by done. done. }
    assert (trace s1 = trace s) as Htr by (destruct HT as (_ & _ & _ & Ht & _); congruence).
    rewrite Htr in Hp1. by apply (grown_placed s s1 s2 p nb b a (a + size) cs d w L cap ms ls).
Qed.
(** Without memory the plugin writes through a null pointer, or, for the nodes, whose array it tests, stops. *)
Lemma on_alloc_unserved s d w L a size :
  let n := (size + CHUNK_SIZE (globals (index s)) - 1) / CHUNK_SIZE (globals (index s)) in
  index_inv (index s) d w L → sizeThresshold config ≤ size →
  region_ok (slot_bytes (globals (index s))) a (a + size) → in_window (globals (index s)) d w a (a + size) →
  (∀ q a' e', L !! q = Some (a', e') → a + size ≤ a' ∨ e' ≤ a) → n < 2 ^ 31 → ¬ alloc_served (index s) n →
  on_alloc logging config a size s = Fault NullDeref ∨ on_alloc logging config a size s = Fault Aborted.
Proof.
  intros n HI Hthr Hok Hw Hdis Hn Hno. unfold on_alloc. rewrite (proj2 (Z.ltb_ge _ _)) by done.
  assert (Decision (region_served (index s) n)) as [Hm|Hm] by (unfold region_served; apply _).
  2:{ left. apply bind_fault. unfold on_index, zoom. by rewrite (addRegion_unserved _ d w L a size HI Hok Hn Hm). }
  right. destruct (addRegion_ok _ d w L a size HI Hok Hw Hdis Hn Hm) as (p & b & i1 & E1 & Hadd & _ & Hlive).
  destruct (added_lookup _ _ _ _ _ _ Hadd) as [Er _]. destruct Hadd as (_ & _ & _ & _ & Hp & _).
  assert (Z.of_nat (length (split_chunks (CHUNK_SIZE (globals (index s))) a size)) = n) as Hlen.
  { pose proof (ii_chunk HI). destruct Hok as (? & ? & ?). pose proof (slot_bytes_pos _ _ (ii_geo HI)). apply split_chunks_length; lia. }
  step_with (zoom_done index set_index (addRegion a size) s p i1 E1).
  erewrite bind_done by (apply zoom_done; apply deref_region_ok; [lia|exact Er]). cbn [region_nChunks region_start region_chunks].
  assert (malloc_at (live i1) (n * sizeof_LRUlist) = 0) as E0.
  { destruct (decide (malloc_at (live i1) (n * sizeof_LRUlist) = 0)) as [|Hne]; [done|]. exfalso. apply Hno. split; [done|]. rewrite Hlive in Hne. exact Hne. }
  rewrite Hlen. erewrite bind_done by (apply zoom_done; by apply plugin_malloc_null).
  erewrite bind_done; [reflexivity|]. apply zoom_done. unfold write_region. rewrite (proj2 (Z.eqb_neq p 0)) by lia. reflexivity.
Qed.
End allocation.
