(* ===== verification/LruFree.v ===== *)
(** * Freeing a region tracked by the LRU plugin

    [on_free] releases the nodes of the region one after the other, promoting the
    front of the slow list whenever a fast chunk goes away: the recency order
    loses the region's nodes and nothing else. *)
From stdpp Require Import base list gmap numbers.
From S2P Require Import Prelude Config Structures StructuresTree StructuresIndex StructuresSpec.
From S2P Require Import CList Migration Lru LruQueues LruSpec.

(** ** Removal from a list without duplicates *)

Lemma filter_all {A} (P : A → Prop) `{∀ x, Decision (P x)} (l : list A) :
  (∀ x, x ∈ l → P x) → filter P l = l.
Proof.
  induction l as [|x l IH]; intros Hl; [done|].
  rewrite filter_cons_True by (apply Hl; set_solver). rewrite IH; [done|]. intros y Hy. apply Hl. set_solver.
Qed.

Lemma list_filter_iff_in {A} (P Q : A → Prop) `{∀ x, Decision (P x), ∀ x, Decision (Q x)} (l : list A) :
  (∀ x, x ∈ l → P x ↔ Q x) → filter P l = filter Q l.
Proof.
  induction l as [|x l IH]; intros Hl; [done|].
  assert (P x ↔ Q x) as Hx by (apply Hl; set_solver).
  specialize (IH ltac:(intros y Hy; apply Hl; set_solver)).
  destruct (decide (P x)).
  - rewrite !filter_cons_True by tauto. by rewrite IH.
  - rewrite !filter_cons_False by tauto. by rewrite IH.
Qed.

Lemma filter_remove {A} `{EqDecision A} (l1 : list A) (p : A) (l2 : list A) :
  NoDup (l1 ++ p :: l2) → filter (λ x, x ≠ p) (l1 ++ p :: l2) = l1 ++ l2.
Proof.
  intros (_ & Hd & [Hp _]%list.NoDup_cons)%list.NoDup_app.
  rewrite list.filter_app, filter_cons_False by (intros Hf; by apply Hf).
  rewrite !filter_all; [done| |]; intros x Hx ->; set_solver.
Qed.

Section free.
Context `{PluginMallocOk} (logging : bool) (config : ShamblesPluginConfig).
Implicit Types (s : lru_state) (L : live_regions).

(** ** One node *)

Definition promotes (bound : ptr) (ls : list ptr) (p : ptr) (o : option ptr) (s s' : lru_state) : Prop :=
  match o with
  | None => trace s' = trace s
  | Some y => y ∈ ls ∧ ∃ cp c, chunk_at (nodes s) y = Some cp ∧
      deref_chunk cp (index s) = Done (c, index s) ∧
      trace s' = trace s ++ promotion logging config bound cp c
  end.

Lemma release1_ok s cap ms ls p bound :
  queues s cap ms ls → p ∈ ms ++ ls →
  (∀ y, y ∈ ls → ∃ cp c, chunk_at (nodes s) y = Some cp ∧ deref_chunk cp (index s) = Done (c, index s)) →
  ∃ s' ms' ls' o, release1 logging config bound p s = Done (tt, s') ∧
    queues s' cap ms' ls' ∧ ms' ++ ls' = filter (λ x, x ≠ p) (ms ++ ls) ∧ moved s s' ∧
    promoted_to o s s' ∧ promotes bound ls p o s s'.
Proof.
  intros HQ Hp Hch. pose proof (q_nodup HQ) as Hnd.
  apply elem_of_app in Hp as [Hp|Hp]; apply list_elem_of_split in Hp as (l1 & l2 & ->).
  - rewrite <- app_assoc in *. simpl in *. destruct ls as [|y ls].
    + destruct (release_fast_free logging config s cap l1 p l2 bound HQ) as (s' & E & HQ' & Hm & Hpr & Ht).
      exists s', (l1 ++ l2), [], None. rewrite filter_remove by done.
      split; [done|]. split; [done|]. split; [by rewrite !app_nil_r|]. done.
    + destruct (Hch y) as (cp & c & Hcp & Hc); [set_solver|].
      destruct (release_fast_promote logging config s cap l1 p l2 y ls bound cp c HQ Hcp Hc)
        as (s' & E & HQ' & Hm & Hpr & Ht).
      exists s', (l1 ++ l2 ++ [y]), ls, (Some y). rewrite filter_remove by done.
      split; [done|]. split; [done|]. split; [by rewrite <- !app_assoc|]. split; [done|]. split; [done|].
      split; [set_solver|]. by exists cp, c.
  - destruct (release_slow logging config s cap ms l1 p l2 bound HQ) as (s' & E & HQ' & Hm & Hpr & Ht).
    exists s', ms, (l1 ++ l2), None. rewrite app_assoc in Hnd. rewrite (app_assoc ms l1 (p :: l2)), filter_remove by done.
    split; [done|]. split; [done|]. by rewrite app_assoc.
Qed.

(** ** The loop *)

(** Chunks for which the loop keeps the policy in line with [loc]: those that
    were fast already, those that stay slow, and the promoted ones whose chunk
    lies above the freed region's chunk array. *)
Definition kept (bound : ptr) (s : lru_state) (q cp : ptr) (l : MemLoc) : Prop :=
  chunk_addr bound < chunk_addr cp ∨ l = SLOW ∨ loc_at (nodes s) q = Some FAST.

Definition placed_outside (nb : Z) (n : nat) (bound : ptr) (s s' : lru_state) : Prop :=
  ∀ q cp c l x, q ∉ new_nodes nb 0 n → chunk_at (nodes s) q = Some cp →
    deref_chunk cp (index s) = Done (c, index s) → loc_at (nodes s') q = Some l →
    kept bound s q cp l → in_chunk c x → policy_at (trace s') x = mask_of config l.

Record freeing (nb : Z) (n : nat) (bound : ptr) (cap : Z) (order : list ptr) (s0 : lru_state)
    (i : Z) (s : lru_state) : Prop := {
  fr_queues : ∃ ms ls, queues s cap ms ls ∧ ms ++ ls = filter (λ p, p ∉ new_nodes nb 0 (Z.to_nat i)) order;
  fr_moved : moved s0 s;
  fr_loc : ∀ q, loc_at (nodes s) q = loc_at (nodes s0) q ∨ loc_at (nodes s) q = Some FAST;
  fr_placed : placed_outside nb n bound s0 s0 → placed_outside nb n bound s0 s
}.

Lemma freeing_step s0 d w L cap ms0 ls0 nb n bound i s :
  lru_inv s0 d w L cap ms0 ls0 → 0 ≤ i < Z.of_nat n → (nb, i) ∈ ms0 ++ ls0 →
  freeing nb n bound cap (ms0 ++ ls0) s0 i s →
  ∃ s', release1 logging config bound (nb, i) s = Done (tt, s') ∧
        freeing nb n bound cap (ms0 ++ ls0) s0 (i + 1) s'.
Proof.
  intros HI Hi Hin [(ms & ls & HQ & Ho) [Hmi Hmc] Hloc HP].
  assert (∀ y, y ∈ ms ++ ls → ∃ cp c, chunk_at (nodes s) y = Some cp ∧ deref_chunk cp (index s) = Done (c, index s)) as Hch.
  { intros [yb yi] Hy. rewrite Ho, list_elem_of_filter in Hy. destruct Hy as [_ Hy].
    apply (li_dom HI) in Hy.
    destruct (node_chunk_ok _ _ _ _ _ _ _ yb yi HI Hy) as (? & ? & ? & r & ? & c & _ & _ & _ & _ & _ & _ & E1 & E2).
    exists (region_chunks r, yi), c. by rewrite Hmc, Hmi. }
  destruct (release1_ok s cap ms ls (nb, i) bound HQ) as (s' & ms' & ls' & o & E & HQ' & Ho' & [Hmi' Hmc'] & Hpr & Hpm).
  { rewrite Ho, list_elem_of_filter. split; [|done]. rewrite elem_new_nodes. simpl. lia. }
  { intros y Hy. apply Hch. set_solver. }
  exists s'. split; [done|]. split.
  - exists ms', ls'. split; [done|]. rewrite Ho', Ho, list_filter_filter. apply list_filter_iff.
    intros [xb xi]. rewrite !elem_new_nodes. simpl. split.
    + intros [Hne Hx] [-> Hr]. destruct (decide (xi = i)) as [->|]; [by apply Hne|apply Hx; lia].
    + intros Hx. split; [intros [= -> ->]; apply Hx; lia|]. intros [-> Hr]. apply Hx. lia.
  - split; [by rewrite Hmi'|]. intros q. by rewrite Hmc'.
  - intros q. rewrite Hpr. case_decide; [by right|apply Hloc].
  - intros HP0 q cp c l x Hq Hqc Hqd Hql Hk Hx. specialize (HP HP0).
    rewrite Hpr in Hql. destruct o as [y|]; simpl in Hpm.
    + destruct Hpm as (Hy & ycp & yc & Hych & Hyd & ->). rewrite Hmc in Hych. rewrite Hmi in Hyd.
      rewrite policy_at_app. case_decide as Hqy.
      * injection Hqy as <-. injection Hql as <-.
        assert (ycp = cp) as -> by congruence. assert (yc = c) as -> by congruence.
        destruct Hk as [Hb|[?|Hf]]; [|done|].
        -- unfold promotion. rewrite (proj2 (Z.ltb_lt _ _)) by done. unfold bindFast. simpl.
           by rewrite policy_log_migration, (proj2 (covers_spec _ _ _)).
        -- pose proof (q_slow HQ y Hy) as Hs. destruct (Hloc y); congruence.
      * assert (y ≠ q) by congruence. transitivity (policy_at (trace s) x); [|by apply (HP q cp c)].
        unfold promotion. destruct (_ <? _); [|done]. unfold bindFast. simpl.
        rewrite policy_log_migration, covers_out; [done|].
        by eapply (chunks_apart s0 d w L cap ms0 ls0 q y).
    + rewrite decide_False in Hql by done. rewrite Hpm. by apply (HP q cp c).
Qed.

Lemma release_all_ok s0 d w L cap ms ls nb n bound :
  lru_inv s0 d w L cap ms ls → (∀ i, 0 ≤ i < Z.of_nat n → (nb, i) ∈ ms ++ ls) →
  ∃ s', for_n n 0 (λ i, release1 logging config bound (nb, i)) s0 = Done (tt, s') ∧
        freeing nb n bound cap (ms ++ ls) s0 (Z.of_nat n) s'.
Proof.
  intros HI Hin. apply (for_n_inv (freeing nb n bound cap (ms ++ ls) s0)).
  - split; [|done|by left|done]. exists ms, ls. split; [apply HI|].
    symmetry. apply filter_all. intros x _. rewrite elem_new_nodes. lia.
  - intros i s Hi HF. apply (freeing_step s0 d w L cap ms ls); try done. apply Hin. lia.
Qed.

(** ** The whole handler *)

Lemma index_inv_free i d w L nb :
  index_inv i d w L → nb ∉ dom (regions i) ∪ dom (chunks i) →
  index_inv (set_live (live i ∖ {[nb]}) i) d w L.
Proof.
  intros HI Hnb. split; simpl; try apply HI. pose proof (ii_live HI). set_solver.
Qed.

(** The nodes of the block [nb] are exactly those of the region it belongs to. *)
Lemma block_nodes s d w L cap ms ls p r nb q :
  lru_inv s d w L cap ms ls → regions (index s) !! p = Some r → region_privData r = Some nb →
  q ∈ ms ++ ls → q.1 = nb ↔ q ∈ new_nodes nb 0 (Z.to_nat (region_nChunks r)).
Proof.
  intros HI Hp Hr Hq. rewrite elem_new_nodes. destruct q as [qb qi]. simpl.
  split; [|by intros [? _]]. intros ->. split; [done|].
  apply (li_dom HI) in Hq. destruct (li_owner HI _ _ Hq) as (p' & r' & Hp' & Hr' & Hi).
  pose proof (li_private HI _ _ _ _ _ Hp Hp' Hr Hr') as ->. assert (r' = r) as -> by congruence. lia.
Qed.

Lemma released_inv s s1 s2 d w L cap ms ls ms' ls' p r nb :
  lru_inv s d w L cap ms ls → regions (index s) !! p = Some r → region_privData r = Some nb →
  moved s s1 → queues s1 cap ms' ls' →
  ms' ++ ls' = filter (λ q, q ∉ new_nodes nb 0 (Z.to_nat (region_nChunks r))) (ms ++ ls) →
  index_inv (index s2) d w (delete p L) → globals (index s2) = globals (index s) →
  regions (index s2) = delete p (regions (index s)) →
  chunks (index s2) = delete (region_chunks r) (chunks (index s)) →
  live (index s2) = live (index s) ∖ {[region_chunks r]} ∖ {[p]} ∖ {[nb]} →
  nodes s2 = filter (λ kv, kv.1.1 ≠ nb) (nodes s1) →
  mru s2 = mru s1 → lru s2 = lru s1 → freeFastChunks s2 = freeFastChunks s1 →
  lru_inv s2 d w (delete p L) cap ms' ls'.
Proof.
  intros HI Hp Hr [Hmi Hmc] HQ Ho Hidx Hg Hregs Hchs Hlive Hnodes Hmru Hlru Hfree.
  assert (∀ q, nodes s2 !! q = if decide (q.1 = nb) then None else nodes s1 !! q) as Hlook.
  { intros q. rewrite Hnodes. case_decide as Hq.
    - apply map_lookup_filter_None. right. intros n _ Hf. by apply Hf.
    - destruct (nodes s1 !! q) as [n|] eqn:E.
      + by apply map_lookup_filter_Some.
      + apply map_lookup_filter_None. by left. }
  assert (∀ q, q ∈ ms' ++ ls' ↔ q ∈ ms ++ ls ∧ q.1 ≠ nb) as Hmem.
  { intros q. rewrite Ho, list_elem_of_filter. split.
    - intros [Hq1 Hq2]. split; [done|]. by rewrite (block_nodes _ _ _ _ _ _ _ _ _ _ _ HI Hp Hr Hq2).
    - intros [Hq1 Hq2]. split; [|done]. by rewrite <- (block_nodes _ _ _ _ _ _ _ _ _ _ _ HI Hp Hr Hq1). }
  assert (∀ q, q ∈ ms' ++ ls' → nodes s2 !! q = nodes s1 !! q) as Hsame.
  { intros q [_ Hq]%Hmem. by rewrite Hlook, decide_False. }
  split.
  - done.
  - apply queues_intro; rewrite ?Hmru, ?Hlru, ?Hfree; try apply HQ.
    + destruct (queues_two _ _ _ _ HQ) as (A & B & C).
      split; [|split; [|done]]; eapply clist_agree; try eassumption; intros q Hq; apply Hsame; set_solver.
    + intros q Hq. unfold loc_at. rewrite Hsame by set_solver. by apply (q_fast HQ).
    + intros q Hq. unfold loc_at. rewrite Hsame by set_solver. by apply (q_slow HQ).
  - intros q. rewrite Hmem, (li_dom HI), !chunk_at_in. unfold chunk_at at 2. rewrite Hlook, <- Hmc.
    case_decide; [|tauto]. split; [tauto|]. by intros [? [=]].
  - intros q a e [Hqp HL]%lookup_delete_Some.
    destruct (li_tied HI _ _ _ HL) as (r' & nb' & cs' & E1 & E2 & E3 & E4 & E5 & E6 & E7 & E8).
    assert (nb' ≠ nb) by (intros ->; apply Hqp; by apply (li_private HI p q r r' nb)).
    apply elem_of_dom_2 in Hp as Hpd.
    destruct (live_region _ _ _ _ _ _ (li_index HI) Hp) as (pa & pe & HLp).
    destruct (ii_region (li_index HI) _ _ _ HLp) as (rp & csp & P1 & _ & _ & P4 & _).
    assert (rp = r) as -> by congruence. apply elem_of_dom_2 in P4 as Hbd.
    exists r', nb', cs'. rewrite Hregs, Hchs, Hlive, Hg, !dom_delete_L, !lookup_delete_ne; [|
      intros Eb; apply Hqp; by apply (ii_blocks (li_index HI) p q r r')|done].
    split; [done|]. split; [done|]. split; [done|]. split; [set_solver|]. split; [set_solver|].
    split; [done|]. split; [done|]. intros i c Hi. destruct (E8 i c Hi) as [K1 K2]. split; [done|].
    unfold chunk_at. rewrite Hlook, decide_False by done. by rewrite <- K2, <- Hmc.
  - intros nbq i Hin. unfold nodes_in in Hin. rewrite Hlook in Hin. case_decide as Hnb; [by destruct Hin|].
    simpl in Hnb. destruct (li_owner HI nbq i) as (q & r' & Hq & Hr' & Hi).
    { apply chunk_at_in. rewrite <- Hmc. by apply chunk_at_in. }
    exists q, r'. split; [|done]. rewrite Hregs, lookup_delete_ne; [done|]. intros ->. congruence.
  - intros q q' r1 r2 nbq. rewrite Hregs.
    intros [_ Hq]%lookup_delete_Some [_ Hq']%lookup_delete_Some. by apply (li_private HI).
Qed.

(** [unbind] only touches the region being freed. *)
Lemma unbound_placed s d w L cap ms ls p a e r nb cs c0 :
  lru_inv s d w L cap ms ls → L !! p = Some (a, e) → regions (index s) !! p = Some r →
  region_privData r = Some nb → chunks (index s) !! region_chunks r = Some cs →
  cs !! 0%nat = Some c0 → placed config s →
  let s1 := set_trace (trace s ++ unbind r c0) s in
  placed_outside nb (Z.to_nat (region_nChunks r)) (region_chunks r, region_nChunks r) s1 s1.
Proof.
  intros HI HL E1 E2 E6 Hc0 HP s1 q cp c l x Hq Hch Hd Hl _ Hx.
  destruct (li_tied HI _ _ _ HL) as (r' & nb' & cs' & F1 & F2 & _ & _ & _ & F6 & _ & F8).
  assert (r' = r) as -> by congruence. assert (nb' = nb) as -> by congruence.
  assert (cs' = cs) as -> by congruence. destruct (F8 0%nat c0 Hc0) as [_ Hch0].
  destruct (ii_region (li_index HI) _ _ _ HL) as (r2 & cs2 & G1 & G2 & G3 & G4 & G5 & G6 & G7).
  assert (r2 = r) as -> by congruence. assert (cs2 = cs) as -> by congruence.
  simpl. rewrite policy_at_app. simpl. rewrite covers_out; [by apply (HP q cp c)|].
  rewrite G2, <- (contiguous_first _ _ _ _ G7 Hc0).
  eapply (chunks_apart s d w L cap ms ls q (nb, 0)); try done.
  - intros ->. apply Hq. rewrite elem_new_nodes. simpl. split; [done|].
    rewrite G6. destruct cs; simpl; [done|lia].
  - by apply (deref_chunk_ok _ _ cs).
Qed.

Lemma on_free_ok s d w L cap ms ls in_ p a e :
  lru_inv s d w L cap ms ls → getRegion in_ (index s) = Done (p, index s) → L !! p = Some (a, e) →
  ∃ r nb s' ms' ls', regions (index s) !! p = Some r ∧ region_privData r = Some nb ∧
    on_free logging config in_ s = Done (tt, s') ∧
    lru_inv s' d w (delete p L) cap ms' ls' ∧
    ms' ++ ls' = filter (λ q, q.1 ≠ nb) (ms ++ ls) ∧
    regions (index s') = delete p (regions (index s)) ∧ globals (index s') = globals (index s) ∧
    (placed config s → ∀ q cp c l x, chunk_at (nodes s') q = Some cp →
       deref_chunk cp (index s') = Done (c, index s') → loc_at (nodes s') q = Some l →
       kept (region_chunks r, region_nChunks r) s q cp l → in_chunk c x →
       policy_at (trace s') x = mask_of config l).
Proof.
  intros HI Hget HL.
  destruct (li_tied HI _ _ _ HL) as (r & nb & cs & E1 & E2 & E3 & E4 & E5 & E6 & E7 & E8).
  destruct (ii_region (li_index HI) _ _ _ HL) as (r2 & cs2 & F1 & F2 & F3 & F4 & F5 & F6 & F7).
  assert (r2 = r) as -> by congruence. assert (cs2 = cs) as -> by congruence.
  destruct (ii_root (li_index HI)) as (nl & _ & HT).
  destruct (ro_each (ti_regions HT) _ _ _ HL) as (Hp0 & _ & _).
  destruct (lookup_lt_is_Some_2 cs 0) as [c0 Hc0]; [destruct cs; simpl; [done|lia]|].
  set (n := Z.to_nat (region_nChunks r)).
  set (bound := (region_chunks r, region_nChunks r)).
  set (s1 := set_trace (trace s ++ unbind r c0) s).
  assert (lru_inv s1 d w L cap ms ls) as HI1.
  { eapply lru_inv_moved; [exact HI|done| |done]. apply queues_intro; try apply HI.
    apply (queues_two _ _ _ _ (li_queues HI)). }
  assert (∀ i, 0 ≤ i < Z.of_nat n → (nb, i) ∈ ms ++ ls) as Hmem.
  { intros i Hi. destruct (lookup_lt_is_Some_2 cs (Z.to_nat i)) as [c Hc]; [lia|].
    destruct (E8 _ _ Hc) as [_ Hch]. rewrite Z2Nat.id in Hch by lia.
    apply (li_dom HI), chunk_at_in. by rewrite Hch. }
  destruct (release_all_ok s1 d w L cap ms ls nb n bound HI1 Hmem) as (s2 & E & [(ms' & ls' & HQ2 & Ho2) Hm2 Hl2 HP2]).
  rewrite Nat2Z.id in Ho2.
  destruct (deleteRegion_ok (index s2) d w L p a e) as (r3 & i3 & G1 & G2 & G3 & G4 & G5 & G6 & G7 & _);
    [rewrite (proj1 Hm2); apply HI|done|].
  rewrite (proj1 Hm2) in G1, G4, G5, G6, G7. change (index s1) with (index s) in G1, G4, G5, G6, G7.
  assert (r3 = r) as -> by congruence.
  set (s3 := set_index (set_live (live i3 ∖ {[nb]}) i3)
               (set_nodes (filter (λ kv, kv.1.1 ≠ nb) (nodes s2)) s2)).
  assert (lru_inv s3 d w (delete p L) cap ms' ls') as HI3.
  { apply (released_inv s s2 s3 d w L cap ms ls ms' ls' p r nb); try done; simpl.
    - apply index_inv_free; [done|]. rewrite G5, G6, !dom_delete_L. set_solver.
    - by rewrite G7. }
  exists r, nb, s3, ms', ls'. split; [done|]. split; [done|]. split; [|split; [done|split; [|split; [exact G5|split; [exact G4|]]]]].
  - unfold on_free. erewrite bind_done by by apply zoom_done.
    rewrite (proj2 (Z.eqb_neq p 0)) by done.
    erewrite bind_done by (apply zoom_done; by apply deref_region_ok).
    erewrite bind_done by (apply zoom_done; by apply (deref_chunk_ok _ _ cs)).
    replace (set_index _ _) with s by by destruct s.
    erewrite bind_done by reflexivity. fold s1.
    erewrite bind_done by (unfold liftO; rewrite E2; reflexivity). fold n bound.
    erewrite bind_done by exact E.
    erewrite bind_done by (apply zoom_done; exact G2). reflexivity.
  - rewrite Ho2. apply list_filter_iff_in. intros q Hq. fold n.
    by rewrite (block_nodes _ _ _ _ _ _ _ _ _ _ _ HI E1 E2 Hq).
  - intros HP q cp c l x Hch Hd Hl Hk Hx.
    assert (q.1 ≠ nb ∧ chunk_at (nodes s2) q = Some cp ∧ loc_at (nodes s2) q = Some l) as (Hqb & Hch2 & Hl2').
    { unfold chunk_at, loc_at in *. change (nodes s3) with (filter (λ kv : ptr * LRUlist, kv.1.1 ≠ nb) (nodes s2)) in Hch, Hl.
      destruct (filter _ _ !! q) as [nq|] eqn:Eq; [|done].
      apply map_lookup_filter_Some in Eq as [Eq Hq]. by rewrite Eq. }
    apply (HP2 (unbound_placed s d w L cap ms ls p a e r nb cs c0 HI HL E1 E2 E6 Hc0 HP) q cp c l x);
      try done.
    + rewrite elem_new_nodes. by intros [? _].
    + by rewrite <- (proj2 Hm2).
    + destruct cp as [b i]. apply deref_chunk_inv in Hd as (_ & Hi & Hb & cs' & Ecs & Ec).
      simpl in Ecs. rewrite G6 in Ecs. apply lookup_delete_Some in Ecs as [_ Ecs].
      by apply (deref_chunk_ok _ _ cs').
Qed.
End free.
