(* ===== verification/LruTheorems.v ===== *)
(** * Theorems about the LRU plugin, with concrete instances *)
From stdpp Require Import base list gmap numbers relations.
From S2P Require Import Prelude CLib Config Structures StructuresTree StructuresIndex StructuresSpec.
From S2P Require Import StructuresTheorems CList Migration Lru LruQueues LruSpec LruFree.

(** ** The calls the plugin receives *)

Inductive call :=
| CAlloc (out size : Z)
| CRealloc (in_ out size : Z)
| CFree (in_ : Z)
| CSample (addr : Z).

(** The live regions, read off the index. *)
Definition live_of (s : structs) : live_regions :=
  (λ r, (region_start r,
         region_start r + sum_by chunk_size (default [] (chunks s !! region_chunks r)))) <$> regions s.

Lemma contiguous_sum a cs e : contiguous a cs e → e = a + sum_by chunk_size cs.
Proof.
  revert a. induction cs as [|c cs IH]; intros a H; simpl in *; [lia|].
  destruct H as (_ & _ & H). apply IH in H. lia.
Qed.

Lemma live_of_index s d w L : index_inv s d w L → L = live_of s.
Proof.
  intros HI. apply map_eq. intros p. unfold live_of. rewrite lookup_fmap.
  destruct (L !! p) as [[a e]|] eqn:HL.
  - destruct (ii_region HI _ _ _ HL) as (r & cs & E1 & E2 & _ & E4 & _ & _ & E7).
    rewrite E1. simpl. rewrite E4, E2. simpl. by rewrite (contiguous_sum _ _ _ E7).
  - assert (regions s !! p = None) as ->; [|done].
    apply not_elem_of_dom. rewrite (ii_dom HI). by apply not_elem_of_dom.
Qed.

Lemma order_size s d w L cap ms ls : lru_inv s d w L cap ms ls → length (ms ++ ls) = size (nodes s).
Proof.
  intros HI. rewrite <- size_dom.
  assert (dom (nodes s) = list_to_set (ms ++ ls)) as ->.
  { apply set_eq. intros p. rewrite elem_of_dom, elem_of_list_to_set. symmetry. apply (li_dom HI). }
  symmetry. apply size_list_to_set. apply (q_nodup (li_queues HI)).
Qed.

Section refinement.
Context `{PluginMallocOk} (logging : bool) (config : ShamblesPluginConfig).
Context (G : Globals) (d : nat) (w cap : Z).

Definition run_call (c : call) : M lru_state unit :=
  match c with
  | CAlloc out size => allocCallback logging config ALLOC_EVENT_ALLOC 0 out size
  | CRealloc in_ out size => allocCallback logging config ALLOC_EVENT_REALLOC in_ out size
  | CFree in_ => allocCallback logging config ALLOC_EVENT_FREE in_ 0 0
  | CSample addr => handleSample logging config addr
  end.

Fixpoint run_calls (cs : list call) : M lru_state unit :=
  match cs with
  | [] => mret tt
  | c :: cs' => run_call c;; run_calls cs'
  end.

(** What the program guarantees about a call: an allocation the plugin tracks
    is a new range, at least a slot long, within the index's window, cut into
    fewer chunks than an [int] counts, and there is memory for it; frees and samples are of addresses in
    the window. *)
Definition admissible (c : call) (s : lru_state) : Prop :=
  match c with
  | CAlloc a sz =>
      sizeThresshold config ≤ sz →
      let n := (sz + CHUNK_SIZE G - 1) / CHUNK_SIZE G in
      region_ok (slot_bytes G) a (a + sz) ∧ in_window G d w a (a + sz) ∧
      (∀ q a' e', live_of (index s) !! q = Some (a', e') → a + sz ≤ a' ∨ e' ≤ a) ∧
      n < 2 ^ 31 ∧ - 2 ^ 31 ≤ cap - Z.of_nat (size (nodes s)) - n ∧ alloc_served (index s) n
  | CRealloc _ _ _ => True
  | CFree x | CSample x => window d (slot_of G x) = w
  end.

Fixpoint admissible_run (cs : list call) (s : lru_state) : Prop :=
  match cs with
  | [] => True
  | c :: cs' => admissible c s ∧ ∀ s', run_call c s = Done (tt, s') → admissible_run cs' s'
  end.

(** ** The abstract specification: one list in order of recency

    The abstract state knows no tree and no lists: the live regions, the node array of each, and the
    nodes of all their chunks in order of recency.  An address is a hit if a live region holds it
    and the index is to resolve it ([resolved] says which addresses of the first and the last slot of a region are); the node is
    then the one of the chunk that the address lies in. *)

Record recent : Type := mkRecent {
  r_live : live_regions;
  r_block : gmap Z Z;
  r_order : list ptr
}.

Definition hit (A : recent) (x p a e nb : Z) : Prop :=
  r_live A !! p = Some (a, e) ∧ a ≤ x < e ∧ resolved (slot_bytes G) (r_live A) a e x ∧ r_block A !! p = Some nb.
Definition no_hit (A : recent) (x : Z) : Prop :=
  ∀ p a e, r_live A !! p = Some (a, e) → a ≤ x < e → ¬ resolved (slot_bytes G) (r_live A) a e x.

Inductive recency : call → recent → recent → Prop :=
| rec_alloc a size A p nb :
    sizeThresshold config ≤ size → r_live A !! p = None → (∀ q, r_block A !! q ≠ Some nb) →
    recency (CAlloc a size) A (mkRecent (<[p:=(a, a + size)]> (r_live A)) (<[p:=nb]> (r_block A))
      (r_order A ++ new_nodes nb 0 (Z.to_nat ((size + CHUNK_SIZE G - 1) / CHUNK_SIZE G))))
| rec_alloc_small a size A : size < sizeThresshold config → recency (CAlloc a size) A A
| rec_realloc in_ out size A : recency (CRealloc in_ out size) A A
| rec_free x A p a e nb :
    hit A x p a e nb →
    recency (CFree x) A (mkRecent (delete p (r_live A)) (delete p (r_block A)) (filter (λ q, q.1 ≠ nb) (r_order A)))
| rec_free_untracked x A : no_hit A x → recency (CFree x) A A
| rec_sample x A p a e nb o :
    hit A x p a e nb → to_front (nb, (x - a) / CHUNK_SIZE G) (r_order A) o →
    recency (CSample x) A (mkRecent (r_live A) (r_block A) o)
| rec_sample_untracked x A : no_hit A x → recency (CSample x) A A.

Inductive recencies : list call → recent → recent → Prop :=
| recs_nil A : recencies [] A A
| recs_cons c cs A1 A2 A3 : recency c A1 A2 → recencies cs A2 A3 → recencies (c :: cs) A1 A3.

Lemma lru_inv_trace s L ms ls evs :
  lru_inv s d w L cap ms ls → lru_inv (set_trace (trace s ++ evs) s) d w L cap ms ls.
Proof.
  intros HI. eapply lru_inv_moved; [exact HI|done| |done]. apply queues_intro; try apply HI.
  apply (queues_two _ _ _ _ (li_queues HI)).
Qed.

(** The abstract state of a plugin state. *)
Definition recent_of (s : lru_state) (L : live_regions) (o : list ptr) : recent := mkRecent L (block_of (index s)) o.

Lemma block_of_region s L ms ls q nb :
  lru_inv s d w L cap ms ls → block_of (index s) !! q = Some nb ↔ ∃ r, regions (index s) !! q = Some r ∧ region_privData r = Some nb.
Proof. intros HI. unfold block_of. by rewrite lookup_omap_Some; naive_solver. Qed.

(** What the index says about an address is what the abstract state says. *)
Lemma resolves s L ms ls x p a e r nb :
  lru_inv s d w L cap ms ls → globals (index s) = G → window d (slot_of G x) = w → getRegion x (index s) = Done (p, index s) →
  L !! p = Some (a, e) → a ≤ x < e → regions (index s) !! p = Some r → region_privData r = Some nb →
  hit (recent_of s L (ms ++ ls)) x p a e nb.
Proof.
  intros HI HG Hw E HL Hx Er Hb. rewrite <- HG in Hw. destruct (getRegion_ok _ _ _ _ x (li_index HI) Hw) as (p' & E' & _ & Hex).
  assert (p' = p) as -> by congruence. unfold hit. simpl. rewrite <- HG. split_and!; try done; try lia.
  - by apply (Hex p a e).
  - apply (block_of_region s L ms ls p nb HI). by exists r.
Qed.

Lemma resolves_not s L ms ls x :
  lru_inv s d w L cap ms ls → globals (index s) = G → window d (slot_of G x) = w → getRegion x (index s) = Done (0, index s) →
  no_hit (recent_of s L (ms ++ ls)) x.
Proof.
  intros HI HG Hw E p a e HL Hx Hr. rewrite <- HG in Hw, Hr. destruct (getRegion_ok _ _ _ _ x (li_index HI) Hw) as (p' & E' & _ & Hex).
  assert (p' = 0) as -> by congruence. apply (Hex p a e HL Hx) in Hr as <-.
  destruct (ii_root (li_index HI)) as (nl & _ & HT). by destruct (ro_each (ti_regions HT) _ _ _ HL).
Qed.

Lemma alloc_call_ok a size s L ms ls :
  lru_inv s d w L cap ms ls → globals (index s) = G → sizeThresshold config ≤ size → admissible (CAlloc a size) s →
  ∃ s' L' ms' ls', on_alloc logging config a size s = Done (tt, s') ∧ lru_inv s' d w L' cap ms' ls' ∧ globals (index s') = G ∧
    recency (CAlloc a size) (recent_of s L (ms ++ ls)) (recent_of s' L' (ms' ++ ls')).
Proof.
  intros HI HG Hthr Hadm. destruct (Hadm Hthr) as (H1 & H2 & H3 & H4 & H5 & H6).
  rewrite <- (order_size _ _ _ _ _ _ _ HI) in H5. rewrite <- (live_of_index _ _ _ _ (li_index HI)) in H3.
  rewrite <- HG in H1, H2, H4, H5, H6. destruct (on_alloc_ok logging config _ d w L cap ms ls a size HI Hthr H1 H2 H3 H4 H5 H6)
    as (s' & p & nb & ms' & ls' & E & HI' & HLp & Ho & Hg & Hb & _). rewrite HG in Ho.
  exists s', (<[p:=(a, a + size)]> L), ms', ls'. split; [done|]. split; [done|]. split; [by rewrite Hg|].
  unfold recent_of. rewrite Ho, Hb. apply rec_alloc; [done|done|]. simpl. intros q Hq.
  assert (q ≠ p) as Hqp.
  { intros ->. apply (block_of_region _ _ _ _ _ _ HI) in Hq as (r & Er & _). apply elem_of_dom_2 in Er.
    rewrite (ii_dom (li_index HI)) in Er. by apply elem_of_dom in Er as [? ?]; congruence. }
  assert (block_of (index s') !! p = Some nb ∧ block_of (index s') !! q = Some nb) as [Hp' Hq'].
  { rewrite Hb, lookup_insert_eq, lookup_insert_ne by done. done. }
  apply (block_of_region _ _ _ _ _ _ HI') in Hp' as (r1 & R1 & R2), Hq' as (r2 & R3 & R4).
  by apply Hqp, (li_private HI' q p r2 r1 nb).
Qed.

Lemma call_ok c s L ms ls :
  lru_inv s d w L cap ms ls → globals (index s) = G → cap ≠ 0 → admissible c s →
  ∃ s' L' ms' ls', run_call c s = Done (tt, s') ∧ lru_inv s' d w L' cap ms' ls' ∧ globals (index s') = G ∧
    recency c (recent_of s L (ms ++ ls)) (recent_of s' L' (ms' ++ ls')).
Proof.
  intros HI HG Hcap Hadm. pose proof (lru_inv_trace s L ms ls) as HT.
  destruct c as [a size|in_ out size|in_|addr]; cbn [run_call]; unfold allocCallback.
  - specialize (HT (LOG_ALLOC logging ALLOC_EVENT_ALLOC 0 a size) HI).
    destruct (decide (sizeThresshold config ≤ size)) as [Hthr|Hthr].
    + destruct (alloc_call_ok a size _ L ms ls HT HG Hthr Hadm) as (s' & L' & ms' & ls' & E & P).
      exists s', L', ms', ls'. by split; [erewrite bind_done by reflexivity|].
    + eexists _, L, ms, ls. split.
      { erewrite bind_done by reflexivity. unfold on_alloc. by rewrite (proj2 (Z.ltb_lt _ _)) by lia. }
      split; [done|]. split; [done|]. apply rec_alloc_small. lia.
  - eexists _, L, ms, ls. split; [reflexivity|]. split; [by apply HT|]. split; [done|]. constructor.
  - specialize (HT (LOG_ALLOC logging ALLOC_EVENT_FREE in_ 0 0) HI). pose proof Hadm as Hw. simpl in Hw. rewrite <- HG in Hw.
    destruct (getRegion_ok _ _ _ _ in_ (li_index HI) Hw) as (p & E & Hsound & _).
    destruct (decide (p = 0)) as [->|Hp].
    + eexists _, L, ms, ls. split; [|split; [done|split; [done|]]].
      { erewrite bind_done by reflexivity. unfold on_free. by erewrite bind_done by by apply zoom_done. }
      by apply rec_free_untracked, (resolves_not s L ms ls in_).
    + destruct (Hsound Hp) as (a & e & HL & Hx).
      destruct (on_free_ok logging config _ d w L cap ms ls in_ p a e HT E HL)
        as (r & nb & s' & ms' & ls' & Er & Eb & E' & HI' & Ho & Hr & Hg & _).
      exists s', (delete p L), ms', ls'. split; [by erewrite bind_done by reflexivity|].
      split; [done|]. split; [by rewrite Hg|]. unfold recent_of. rewrite Ho. unfold block_of at 2. rewrite Hr, omap_delete.
      apply (rec_free in_ (recent_of s L (ms ++ ls)) p a e nb). by apply (resolves s L ms ls in_ p a e r).
  - pose proof Hadm as Hw. simpl in Hw. rewrite <- HG in Hw. destruct (handleSample_ok logging config s d w L cap ms ls addr HI Hcap Hw)
      as (s' & ms' & ls' & E & HI' & _ & Ei & Hcases).
    exists s', L, ms', ls'. split; [done|]. split; [done|]. split; [by rewrite Ei|]. unfold recent_of. rewrite Ei.
    destruct Hcases as [(E0 & -> & -> & _)|(node & _ & _ & _ & _ & _ & Hf & (p & a & e & r & nb & E0 & _ & HL & Hx & Er & Eb & ->))].
    + by apply rec_sample_untracked, (resolves_not s L ms ls addr).
    + rewrite HG in Hf. apply (rec_sample addr (recent_of s L (ms ++ ls)) p a e nb); [|done].
      by apply (resolves s L ms ls addr p a e r).
Qed.

Lemma calls_ok cs s L ms ls :
  lru_inv s d w L cap ms ls → globals (index s) = G → cap ≠ 0 → admissible_run cs s →
  ∃ s' L' ms' ls', run_calls cs s = Done (tt, s') ∧ lru_inv s' d w L' cap ms' ls' ∧
    recencies cs (recent_of s L (ms ++ ls)) (recent_of s' L' (ms' ++ ls')).
Proof.
  intros HI HG Hcap. revert s L ms ls HI HG. induction cs as [|c cs IH]; intros s L ms ls HI HG Hadm.
  { exists s, L, ms, ls. split; [done|]. split; [done|]. constructor. }
  destruct Hadm as [Hc Hrest].
  destruct (call_ok c s L ms ls HI HG Hcap Hc) as (s1 & L1 & ms1 & ls1 & E1 & HI1 & HG1 & Hr1).
  destruct (IH s1 L1 ms1 ls1 HI1 HG1 (Hrest _ E1)) as (s2 & L2 & ms2 & ls2 & E2 & HI2 & Hr2).
  exists s2, L2, ms2, ls2. split; [simpl; by erewrite bind_done by exact E1|].
  split; [done|]. by econstructor.
Qed.
End refinement.

(** ** Parts of the recency order *)

Definition fast_part (cap : Z) (order : list ptr) : list ptr :=
  if cap <? 0 then order else take (Z.to_nat cap) order.
Definition slow_part (cap : Z) (order : list ptr) : list ptr :=
  if cap <? 0 then [] else drop (Z.to_nat cap) order.

Lemma queues_parts s cap ms ls :
  queues s cap ms ls → ms = fast_part cap (ms ++ ls) ∧ ls = slow_part cap (ms ++ ls).
Proof.
  intros HQ. pose proof (q_free HQ) as Hf. unfold fast_part, slow_part.
  destruct (Z.ltb_spec cap 0) as [Hc|Hc].
  - destruct ls as [|y ls]; [by rewrite app_nil_r|].
    pose proof (q_full HQ ltac:(done)). lia.
  - pose proof (q_cap HQ Hc). destruct ls as [|y ls].
    + rewrite app_nil_r, take_ge, drop_ge by lia. done.
    + pose proof (q_full HQ ltac:(done)). assert (Z.to_nat cap = length ms) as -> by lia.
      by rewrite take_app_length, drop_app_length.
Qed.

(** ** A concrete plugin state

    Two fast chunks of 256 KiB; the region of [StructuresTheorems.Example] is cut
    into five chunks, of which the first two are placed in fast memory. *)

Module LruExample.
#[local] Existing Instance bump_malloc.

Definition config : ShamblesPluginConfig := mkConfig Example.thr Example.chunk 2 3 1 2.
Definition start_state (cap : Z) : lru_state := mkState Example.state0 ∅ NULLp NULLp cap [].
Definition state0 : lru_state := start_state 2.

Lemma empty_queues s cap :
  nodes s = ∅ → mru s = NULLp → lru s = NULLp → freeFastChunks s = cap → - 2 ^ 31 ≤ cap < 2 ^ 31 →
  queues s cap [] [].
Proof.
  intros Hn Hm Hl Hf Hc. apply queues_intro; try set_solver; simpl; try lia; try done.
  rewrite Hn, Hm, Hl. unfold two, clist, circle. simpl. repeat split; try constructor; set_solver.
Qed.

Lemma empty_inv s d w cap :
  index_inv (index s) d w ∅ → nodes s = ∅ → mru s = NULLp → lru s = NULLp →
  freeFastChunks s = cap → - 2 ^ 31 ≤ cap < 2 ^ 31 → lru_inv s d w ∅ cap [] [].
Proof.
  intros HI Hn Hm Hl Hf Hc. split.
  - done.
  - by apply empty_queues.
  - intros p. unfold nodes_in. rewrite Hn, lookup_empty. split; [set_solver|by intros [? ?]].
  - intros p a e. by rewrite lookup_empty.
  - intros nb i [n E]. by rewrite Hn, lookup_empty in E.
  - intros p q r r' nb Hp. assert (regions (index s) = ∅) as Hr.
    { apply dom_empty_iff_L. by rewrite (ii_dom HI), dom_empty_L. }
    by rewrite Hr, lookup_empty in Hp.
Qed.

Lemma empty_placed config s : nodes s = ∅ → placed config s.
Proof. intros Hn p cp c l x Hch. unfold chunk_at in Hch. by rewrite Hn, lookup_empty in Hch. Qed.

Lemma start_inv cap : - 2 ^ 31 ≤ cap < 2 ^ 31 → lru_inv (start_state cap) 1 Example.win ∅ cap [] [].
Proof. intros Hc. apply empty_inv; try done. apply Example.state0_inv. Qed.

Lemma lru_state0_inv : lru_inv state0 1 Example.win ∅ 2 [] [].
Proof. by apply start_inv. Qed.

Lemma alloc_fits :
  sizeThresshold config ≤ Example.size ∧
  (Example.size + CHUNK_SIZE (globals Example.state0) - 1) / CHUNK_SIZE (globals Example.state0) = 5.
Proof. vm_compute. done. Qed.

Lemma bump_alloc_served i n : alloc_served i n.
Proof. split; [apply bump_served|apply bump_positive]. Qed.

Lemma start_run cap :
  - 2 ^ 31 + 5 ≤ cap < 2 ^ 31 →
  ∃ s p nb ms ls, on_alloc true config Example.start Example.size (start_state cap) = Done (tt, s) ∧
    lru_inv s 1 Example.win (<[p:=(Example.start, Example.start + Example.size)]> ∅) cap ms ls ∧
    placed config s ∧ ms ++ ls = new_nodes nb 0 5 ∧ globals (index s) = globals Example.state0.
Proof.
  intros Hc. destruct Example.fits as (H1 & H2 & H3). destruct alloc_fits as [H4 H5].
  destruct (on_alloc_ok true config (start_state cap) 1 Example.win ∅ cap [] [] Example.start Example.size)
    as (s & p & nb & ms & ls & E & HI & _ & Ho & Hg & _ & HP).
  - apply start_inv. lia.
  - exact H4.
  - exact H1.
  - exact H2.
  - exact Example.disjoint_empty.
  - exact H3.
  - change (globals (index (start_state cap))) with (globals Example.state0). rewrite H5. simpl. lia.
  - apply bump_alloc_served.
  - exists s, p, nb, ms, ls.
    change (globals (index (start_state cap))) with (globals Example.state0) in Ho. rewrite H5 in Ho.
    split; [exact E|]. split; [exact HI|]. split; [by apply HP, empty_placed|]. split; [exact Ho|].
    exact Hg.
Qed.

Definition state1 : lru_state :=
  match on_alloc true config Example.start Example.size state0 with
  | Done (_, s) => s
  | Fault _ => state0
  end.

Lemma state1_run :
  ∃ p nb ms ls, on_alloc true config Example.start Example.size state0 = Done (tt, state1) ∧
    lru_inv state1 1 Example.win (<[p:=(Example.start, Example.start + Example.size)]> ∅) 2 ms ls ∧
    placed config state1 ∧ ms ++ ls = new_nodes nb 0 5.
Proof.
  destruct (start_run 2) as (s & p & nb & ms & ls & E & HI & HP & Ho & _); [done|].
  exists p, nb, ms, ls. unfold state1, state0. rewrite E.
  split; [reflexivity|]. split; [exact HI|]. split; [exact HP|exact Ho].
Qed.

(** The lookup of an address in the middle of the region. *)
Lemma resolve_mid s p cap ms ls :
  lru_inv s 1 Example.win (<[p:=(Example.start, Example.start + Example.size)]> ∅) cap ms ls →
  globals (index s) = globals Example.state0 →
  window 1 (slot_of (globals (index s)) (Example.start + 0x90000)) = Example.win ∧
  getRegion (Example.start + 0x90000) (index s) = Done (p, index s).
Proof.
  intros HI Hg. assert (window 1 (slot_of (globals (index s)) (Example.start + 0x90000)) = Example.win) as Hw
    by (rewrite Hg; vm_compute; reflexivity).
  split; [exact Hw|].
  destruct (getRegion_ok _ _ _ _ (Example.start + 0x90000) (li_index HI) Hw) as (q & Eq & _ & Hex).
  rewrite Eq. f_equal. f_equal. apply (Hex p Example.start (Example.start + Example.size)).
  - apply lookup_insert_eq.
  - vm_compute. split; [discriminate|reflexivity].
  - left. rewrite Hg. vm_compute. reflexivity.
Qed.
End LruExample.

(** ** The theorems *)

(** Initialisation.  When [ShamblesPluginConfigInit] accepts the environment,
    chunks are not empty and the threshold is below 2^53, [lruInit] returns a
    state that satisfies the plugin's invariant with no chunk tracked, provided
    the root array has an element. *)
Theorem lru_init getenv numa_max ov c w :
  ShamblesPluginConfigInit getenv numa_max = Done (inr c) →
  0 < chunkSize c < 2 ^ 64 → 1 ≤ sizeThresshold c < 2 ^ 53 →
  ∃ s, lruInit getenv numa_max ov = Done (inr (c, s)) ∧
    (0 < root_elements ov (globals (index s)) →
     lru_inv s (depth_of (Z.log2 (sizeThresshold c))) w ∅ (i32 (fastChunks c)) [] [] ∧ placed c s).
Proof.
  intros E Hc Ht. destruct (init_index ov (chunkSize c) (sizeThresshold c) w Ht Hc) as (i & Ei & _ & HI).
  unfold lruInit, mbind, outcome_bind. rewrite E, Ei. eexists. split; [reflexivity|].
  intros Hr. split; [|by apply LruExample.empty_placed].
  apply LruExample.empty_inv; try done; [by apply HI|].
  unfold i32. pose proof (Z.mod_pos_bound (fastChunks c + 2 ^ 31) (2 ^ 32)). lia.
Qed.

Lemma lru_init_witness :
  ∃ s, lruInit two_chunk_env 1 Example.folded_shl
       = Done (inr (mkConfig 0x10000 0x40000 2 3 15 0, s)) ∧
    (0 < root_elements Example.folded_shl (globals (index s)) →
     lru_inv s 1 254 ∅ 2 [] [] ∧ placed (mkConfig 0x10000 0x40000 2 3 15 0) s).
Proof.
  apply (lru_init two_chunk_env 1 Example.folded_shl (mkConfig 0x10000 0x40000 2 3 15 0) 254);
    [vm_compute; reflexivity|done|done].
Defined.

(** C2: a sample of an address in the window of the index.  With at least one fast chunk (or no limit), [handleSample]
    returns and leaves the index alone.  An address the index does not resolve changes neither list;
    otherwise the node of the chunk that holds the address, in the region the index resolves it to, moves to the front of
    the recency order (the fast list followed by the slow list) and all others keep their order, so
    that the last fast chunk is the one evicted.  If before the sample the policy
    in force at every tracked address was the one its node records, it still is.  (Outside the window the index aliases
    addresses, see [getRegion_aliases].) *)
Theorem lru_sample logging config s d w L cap ms ls addr :
  lru_inv s d w L cap ms ls → cap ≠ 0 → window d (slot_of (globals (index s)) addr) = w →
  ∃ s' ms' ls', handleSample logging config addr s = Done (tt, s') ∧
    lru_inv s' d w L cap ms' ls' ∧ (placed config s → placed config s') ∧ index s' = index s ∧
    ((getRegion addr (index s) = Done (0, index s) ∧ ms' = ms ∧ ls' = ls ∧
      trace s' = trace s ++ LOG_SAMPLE logging addr 0 0) ∨
     (∃ node cp c, chunk_at (nodes s) node = Some cp ∧
        deref_chunk cp (index s) = Done (c, index s) ∧ in_chunk c addr ∧
        to_front node (ms ++ ls) (ms' ++ ls') ∧ found s L addr node)).
Proof. apply handleSample_ok. Qed.

Lemma lru_sample_witness :
  ∃ (p : Z) (ms ls : list ptr) s' ms' ls',
    handleSample true LruExample.config (Example.start + 0x90000) LruExample.state1 = Done (tt, s') ∧
    lru_inv s' 1 Example.win (<[p:=(Example.start, Example.start + Example.size)]> ∅) 2 ms' ls' ∧
    placed LruExample.config s' ∧ length (ms ++ ls) = 5%nat.
Proof.
  destruct LruExample.state1_run as (p & nb & ms & ls & _ & HI & HP & Ho).
  destruct (lru_sample true LruExample.config LruExample.state1 1 Example.win
    (<[p:=(Example.start, Example.start + Example.size)]> ∅) 2 ms ls (Example.start + 0x90000) HI)
    as (s' & ms' & ls' & E & HI' & HP' & _); [done|vm_compute; reflexivity|].
  exists p, ms, ls, s', ms', ls'. split; [exact E|]. split; [exact HI'|]. split; [exact (HP' HP)|].
  rewrite Ho. reflexivity.
Defined.





(** C1: refinement.  The abstract machine keeps the live regions, their node arrays and one list in order of recency; an
    allocation from the threshold up appends one node per chunk, a free of an address that the index is to resolve takes the region and its nodes away, a sample of such an
    address moves the node of the chunk that holds it to the front, and everything else changes nothing.  From a state that satisfies the
    invariant every sequence of admissible calls (allocations, frees, reallocations and samples in any order; new ranges disjoint from the live ones, of at least a
    slot and fewer than 2^31 chunks, within the range of the counter of fast chunks, all addresses in the window of the index, and memory for the plugin's own
    blocks) runs, with at least one fast chunk or no limit, without a fault, and the abstract machine
    reaches, by the same calls, a state whose regions and node arrays are those of the plugin and whose order is that of its
    lists: the first [cap] chunks are the fast list, the others the slow list. *)
Theorem lru_refines_recency `{PluginMallocOk} logging config s d w L cap ms ls calls :
  let G := globals (index s) in
  lru_inv s d w L cap ms ls → cap ≠ 0 → admissible_run logging config G d w cap calls s →
  ∃ s' A, run_calls logging config calls s = Done (tt, s') ∧
    recencies config G calls (recent_of s L (ms ++ ls)) A ∧
    r_live A = live_of (index s') ∧ r_block A = block_of (index s') ∧
    clist (nodes s') (mru s') (fast_part cap (r_order A)) ∧
    clist (nodes s') (lru s') (slow_part cap (r_order A)) ∧
    (∀ p, p ∈ fast_part cap (r_order A) → loc_at (nodes s') p = Some FAST) ∧
    (∀ p, p ∈ slow_part cap (r_order A) → loc_at (nodes s') p = Some SLOW).
Proof.
  intros G HI Hcap Hadm. destruct (calls_ok logging config G d w cap calls s L ms ls HI eq_refl Hcap Hadm)
    as (s' & L' & ms' & ls' & E & HI' & Hr).
  exists s', (recent_of s' L' (ms' ++ ls')). split; [done|]. split; [done|].
  split; [exact (live_of_index _ _ _ _ (li_index HI'))|]. split; [done|]. cbn [recent_of r_order].
  destruct (queues_parts _ _ _ _ (li_queues HI')) as [<- <-].
  pose proof (li_queues HI') as HQ. split; [apply HQ|]. split; [apply HQ|]. split; apply HQ.
Qed.

Lemma lru_refines_recency_witness :
  ∃ s' A, @run_calls bump_malloc true LruExample.config [CAlloc Example.start Example.size; CSample (Example.start + 0x90000)] LruExample.state0
              = Done (tt, s') ∧
    recencies LruExample.config (globals Example.state0) [CAlloc Example.start Example.size; CSample (Example.start + 0x90000)]
      (mkRecent ∅ ∅ []) A ∧
    clist (nodes s') (mru s') (take 2 (r_order A)).
Proof.
  destruct (@lru_refines_recency bump_malloc bump_malloc_ok true LruExample.config LruExample.state0 1 Example.win
    ∅ 2 [] [] [CAlloc Example.start Example.size; CSample (Example.start + 0x90000)] LruExample.lru_state0_inv) as (s' & A & E & Hr & _ & _ & Hm & _).
  - done.
  - split; [|intros s1 _; split; [vm_compute; reflexivity|intros s2 _; exact I]]. intros Hthr. destruct Example.fits as (H1 & H2 & H3).
    split; [exact H1|]. split; [exact H2|]. split.
    + intros q a' e' Hq. assert (live_of (index LruExample.state0) = ∅) as E0.
      { symmetry. apply (live_of_index _ 1 Example.win). exact (li_index LruExample.lru_state0_inv). }
      by rewrite E0, lookup_empty in Hq.
    + split; [exact H3|]. destruct LruExample.alloc_fits as [_ H5].
      change (globals (index LruExample.state0)) with (globals Example.state0). rewrite H5.
      split; [vm_compute; discriminate|apply LruExample.bump_alloc_served].
  - exists s', A. split; [exact E|]. split; [exact Hr|exact Hm].
Defined.

(** With no fast chunk ([freeFastChunks] starts at 0) the plugin dereferences
    the null head of its fast list on the first sample of a tracked chunk. *)
Theorem lru_no_fast_chunk_faults logging config s d w L ms ls addr p a e :
  lru_inv s d w L 0 ms ls → window d (slot_of (globals (index s)) addr) = w →
  L !! p = Some (a, e) → getRegion addr (index s) = Done (p, index s) →
  handleSample logging config addr s = Fault NullDeref.
Proof.
  intros HI Hw HL E. pose proof (li_queues HI) as HQ.
  assert (ms = []) as ->.
  { pose proof (q_free HQ). pose proof (q_cap HQ ltac:(done)). destruct ms; simpl in *; [done|lia]. }
  destruct (ii_root (li_index HI)) as (nl & _ & HT).
  destruct (ro_each (ti_regions HT) _ _ _ HL) as (Hp0 & _ & _).
  destruct (getChunkInfo_ok _ _ _ _ _ _ (li_index HI) Hw E) as [[-> _]|(a' & e' & r & cs & HL' & Hx & Er & Ecs & Hget)]; [done|].
  destruct (li_tied HI _ _ _ HL') as (r' & nb & cs' & E1 & E2 & _ & _ & _ & E6 & E7 & E8).
  assert (r' = r) as -> by congruence. assert (cs' = cs) as -> by congruence.
  destruct (Hget E7) as (i & c & EC & Hi & _ & Ec & _). destruct (E8 _ _ Ec) as [Hpriv Hch].
  rewrite Z2Nat.id in Hpriv, Hch by done.
  destruct (ii_region (li_index HI) _ _ _ HL') as (r2 & cs2 & F1 & _ & F3 & _).
  assert (r2 = r) as -> by congruence.
  pose proof (deref_chunk_ok _ i _ c _ F3 Hi Ecs Ec) as Hd.
  assert ((nb, i) ∈ ls) as Hin by (apply (li_dom HI), chunk_at_in; by rewrite Hch).
  destruct (clist_in _ _ _ _ (q_lru HQ) Hin) as [_ Hn0]. pose proof (q_slow HQ _ Hin) as Hslow.
  apply list_elem_of_split in Hin as (l1 & l2 & ->).
  destruct (two_dq _ _ _ _ _ _ _ (two_sym _ _ _ _ _ (queues_two _ _ _ _ HQ))) as (h1 & b1 & E3 & HT1 & _).
  unfold handleSample. erewrite bind_done by by apply zoom_done.
  rewrite decide_False by (unfold NULLp; congruence).
  replace (set_index _ _) with s by by destruct s.
  erewrite bind_done by by apply zoom_done. replace (set_index _ _) with s by by destruct s.
  erewrite bind_done by (unfold liftO; rewrite Hpriv; reflexivity).
  erewrite bind_done by by apply read_loc_done.
  apply bind_fault. unfold sample_miss. erewrite bind_done by by apply at_lru_done.
  erewrite bind_done by reflexivity. apply bind_fault. unfold on_nodes, zoom. simpl.
  assert (mru s = NULLp) as -> by by apply (clist_null _ _ _ (q_mru HQ)). done.
Qed.

Lemma lru_no_fast_chunk_faults_witness :
  ∃ s, @on_alloc bump_malloc true LruExample.config Example.start Example.size
         (LruExample.start_state 0) = Done (tt, s) ∧
    handleSample true LruExample.config (Example.start + 0x90000) s = Fault NullDeref.
Proof.
  destruct (LruExample.start_run 0) as (s & p & nb & ms & ls & E & HI & _ & _ & Hg); [done|].
  destruct (LruExample.resolve_mid s p 0 ms ls HI Hg) as [Hw Eq].
  exists s. split; [exact E|].
  exact (lru_no_fast_chunk_faults true LruExample.config s 1 Example.win _ ms ls
    (Example.start + 0x90000) p _ _ HI Hw (lookup_insert_eq _ _ _) Eq).
Defined.

Module PromotionExample.
#[local] Existing Instance bump_malloc.

(** One fast chunk; two regions of one chunk each.  The second becomes the
    fast one by a sample and is then freed. *)
Definition config : ShamblesPluginConfig := mkConfig Example.thr Example.chunk 1 3 1 2.
Definition second : Z := Example.start + 0x100000.
Definition calls : list call :=
  [CAlloc Example.start 0x20000; CAlloc second 0x20000; CSample (second + 0x10); CFree (second + 0x10)].
Definition final : outcome (unit * lru_state) :=
  run_calls false config calls (mkState Example.state0 ∅ NULLp NULLp 1 []).
Definition survivors : outcome (list (ptr * option MemLoc) * policy) :=
  '(_, s) ← final;
  Done ((λ kv, (kv.1, node_loc kv.2)) <$> map_to_list (nodes s), policy_at (trace s) (Example.start + 0x10)).
End PromotionExample.

(** A promotion that is not carried out.  After the fast region of
    [PromotionExample] is freed, the surviving chunk's node says [FAST], but no
    [mbind] moved the chunk: the policy at its addresses still binds it to slow
    memory, because its chunk array lies below the freed one. *)
Theorem lru_promotion_not_bound :
  ∃ node, PromotionExample.survivors
          = Done ([(node, Some FAST)], to_slow PromotionExample.config).
Proof. eexists. vm_compute. reflexivity. Qed.
