(* ===== verification/Static.v ===== *)
(** * Static placement, [plugins/static.c]

    The plugin numbers the tracked allocations in the order they are made and
    binds number [i] to slow memory when bit [i] of [SHAMBLES_SLOW_BITMASK] is
    set, to fast memory otherwise. *)
From stdpp Require Import base list gmap numbers strings.
From S2P Require Import Prelude CLib Config Structures Migration.

Record static_state := mkStatic {
  bitmap : Z;                   (* [uint64_t] *)
  cnt : Z;                      (* [int] *)
  static_trace : list event
}.

Section static.
Context (logging : bool) (config : ShamblesPluginConfig).
(** What the compiled code computes for [1 << n] on [int] from [n = 31] on. *)
Context (oversized_shl : Z → Z).

Definition bindAlloc (type : AllocEventType) (in_ out size : Z) (s : static_state) : static_state :=
  if decide (type = ALLOC_EVENT_ALLOC) then
    if size <? sizeThresshold config then s else
    let chunk := mkChunk out size None in
    let loc := cnt s in
    let bit := u64 (int_shl1 oversized_shl loc) in
    mkStatic (bitmap s) (i32 (cnt s + 1))
      (static_trace s ++
       if Z.land (bitmap s) bit =? 0 then bindFast logging config chunk else bindSlow logging config chunk)
  else s.

(** [shambles_init]: the plugin's state, once the configuration is accepted. *)
Definition shambles_init (getenv : environment) (numa_max : Z) : outcome (ShamblesPluginConfig * static_state) :=
  r ← ShamblesPluginConfigInit getenv numa_max;
  match r with
  | inl _ => Fault Aborted
  | inr c => Done (c, mkStatic (match getenv "SHAMBLES_SLOW_BITMASK"%string with
                                | None => 0
                                | Some env => strtoul_store env
                                end) 0 [])
  end.

(** ** The sequence of callbacks *)

Record alloc_call := mkAlloc { ac_type : AllocEventType; ac_in : Z; ac_out : Z; ac_size : Z }.

Definition bindAllocs (calls : list alloc_call) (s : static_state) : static_state :=
  foldl (λ s c, bindAlloc (ac_type c) (ac_in c) (ac_out c) (ac_size c) s) s calls.

Definition is_tracked (c : alloc_call) : Prop :=
  ac_type c = ALLOC_EVENT_ALLOC ∧ sizeThresshold config ≤ ac_size c.
#[export] Instance is_tracked_dec c : Decision (is_tracked c).
Proof. solve_decision. Defined.

(** Reference definition: the [i]-th tracked allocation goes where bit [i] says. *)
Definition placement (bits : Z) (i : nat) (c : alloc_call) : list event :=
  let chunk := mkChunk (ac_out c) (ac_size c) None in
  if Z.testbit bits (Z.of_nat i) then bindSlow logging config chunk else bindFast logging config chunk.

Lemma single_bit bits i :
  0 ≤ i < 31 → (Z.land bits (u64 (int_shl1 oversized_shl i)) =? 0) = negb (Z.testbit bits i).
Proof.
  intros Hi. unfold int_shl1. rewrite (proj2 (Z.ltb_lt i 31)) by lia.
  rewrite Z.shiftl_mul_pow2, Z.mul_1_l by lia.
  assert (2 ^ i ≤ 2 ^ 31) by (apply Z.pow_le_mono_r; lia).
  rewrite u64_small by (unfold is_u64; lia).
  destruct (Z.testbit bits i) eqn:E; simpl.
  - apply Z.eqb_neq. intros H0. assert (Z.testbit (Z.land bits (2 ^ i)) i = true) as Ht.
    { by rewrite Z.land_spec, E, Z.pow2_bits_true by lia. }
    by rewrite H0, Z.bits_0 in Ht.
  - apply Z.eqb_eq, Z.bits_inj'. intros n Hn. rewrite Z.land_spec, Z.bits_0.
    destruct (decide (n = i)) as [->|]; [by rewrite E|].
    rewrite Z.pow2_bits_false, andb_false_r by done. done.
Qed.

Lemma bindAllocs_ok calls s k :
  cnt s = Z.of_nat k → (k + length (filter is_tracked calls) ≤ 31)%nat →
  bindAllocs calls s =
  mkStatic (bitmap s) (Z.of_nat (k + length (filter is_tracked calls)))
    (static_trace s ++ concat (imap (λ i c, placement (bitmap s) (k + i) c) (filter is_tracked calls))).
Proof.
  revert s k. induction calls as [|c calls IH]; intros s k Hk Hlen.
  { simpl. rewrite app_nil_r, Nat.add_0_r, <- Hk. by destruct s. }
  unfold bindAllocs in *. simpl foldl. destruct (decide (is_tracked c)) as [Ht|Ht].
  - rewrite filter_cons_True in * by done. simpl in Hlen.
    pose proof Ht as [Hty Hsz]. unfold bindAlloc at 2. rewrite decide_True by done.
    rewrite (proj2 (Z.ltb_ge _ _)) by done. rewrite (IH _ (S k)); simpl; [|rewrite i32_small; lia|lia].
    f_equal; [lia|]. rewrite <- app_assoc. f_equal. rewrite Nat.add_0_r. f_equal.
    + unfold placement. rewrite single_bit, Hk by lia. by destruct (Z.testbit _ _).
    + f_equal. apply imap_ext. intros i c' _. simpl. f_equal. lia.
  - rewrite filter_cons_False in * by done.
    assert (bindAlloc (ac_type c) (ac_in c) (ac_out c) (ac_size c) s = s) as ->; [|by apply IH].
    unfold bindAlloc. case_decide as Hty; [|done]. rewrite (proj2 (Z.ltb_lt _ _)); [done|].
    destruct (Z.lt_ge_cases (ac_size c) (sizeThresshold config)); [done|]. by destruct Ht.
Qed.
End static.

(** Static placement.  From the state [shambles_init] sets up, as long as no
    more than 31 allocations reach the threshold, the callbacks perform, for the
    [i]-th of them and for nothing else, the binding that bit [i] of the bitmap
    selects. *)
Theorem static_placement logging config ov bits calls :
  (length (filter (is_tracked config) calls) ≤ 31)%nat →
  static_trace (bindAllocs logging config ov calls (mkStatic bits 0 [])) =
  concat (imap (placement logging config bits) (filter (is_tracked config) calls)).
Proof. intros Hlen. by rewrite (bindAllocs_ok logging config ov calls (mkStatic bits 0 []) 0). Qed.

Definition static_config : ShamblesPluginConfig := mkConfig 0x10000 SIZE_UNLIMITED SIZE_UNLIMITED 3 1 2.
Definition static_calls : list alloc_call :=
  [mkAlloc ALLOC_EVENT_ALLOC 0 0x100000 0x20000; mkAlloc ALLOC_EVENT_ALLOC 0 0x200000 0x100;
   mkAlloc ALLOC_EVENT_FREE 0x200000 0 0; mkAlloc ALLOC_EVENT_ALLOC 0 0x300000 0x10000].

Lemma static_placement_witness :
  static_trace (bindAllocs false static_config (λ _, 0) static_calls (mkStatic 2 0 [])) =
  [EvMbind 0x100000 0x20000 (to_fast static_config) true; EvMbind 0x300000 0x10000 (to_slow static_config) true].
Proof.
  rewrite (static_placement false static_config (λ _, 0) 2 static_calls); [reflexivity|].
  vm_compute. lia.
Defined.
