(* ===== verification/Fractional.v ===== *)
(** * Fractional placement, [plugins/static-fractional.c]

    The [i]-th tracked allocation is split: a leading part, whose share of the
    size is the [i]-th number of an environment variable, is bound to one kind of
    memory and the rest to the other. *)
From stdpp Require Import base list gmap numbers strings.
From Stdlib Require Import Ascii.
From S2P Require Import Prelude CLib Config Structures StructuresTree StructuresIndex StructuresSpec.
From S2P Require Import CList Migration.

Definition FRACTION_SHIFT : Z := 20.
Definition PAGE_SHIFT : Z := 12.

(** ** Numbers *)

Definition fraction (str : string) : outcome Z :=
  match atof str with
  | None => Fault BadConversion
  | Some d =>
      out ← double_to_u64 (mkDouble (dmant d) (dexp d + (FRACTION_SHIFT + 1)));
      let out := if Z.land out 1 =? 0 then Z.shiftr out 1 else Z.shiftr out 1 + 1 in
      Done (if out <? Z.shiftl 1 FRACTION_SHIFT then out else Z.shiftl 1 FRACTION_SHIFT)
  end.

Definition fastSize (size fract : Z) : Z :=
  let size := Z.shiftr (u64 (shl64 size PAGE_SHIFT * fract)) (FRACTION_SHIFT + PAGE_SHIFT - 1) in
  Z.shiftr size 1 + Z.land size 1.

(** ** State *)

Record frac_state := mkFrac {
  fractions : list Z;
  current : Z;                  (* [int] *)
  invert : bool;
  findex : structs;
  ftrace : list event
}.

(** [len], the number of fractions, is the length of the array. *)
Definition len (s : frac_state) : Z := Z.of_nat (length (fractions s)).

Definition set_findex (x : structs) (s : frac_state) : frac_state :=
  mkFrac (fractions s) (current s) (invert s) x (ftrace s).

Definition on_findex {A} (m : M structs A) : M frac_state A := zoom findex set_findex m.
Definition femit (evs : list event) : M frac_state unit :=
  modify (λ s, mkFrac (fractions s) (current s) (invert s) (findex s) (ftrace s ++ evs)).

(** [__atomic_fetch_add(&current, 1, ...)] *)
Definition next_loc : M frac_state Z :=
  s ← get;
  put (mkFrac (fractions s) (i32 (current s + 1)) (invert s) (findex s) (ftrace s));;
  mret (current s).

(** The three cases of the code: no share, everything, or a split at a fraction. *)
Inductive share := NoShare | Whole | Split (fract : Z).

Definition share_of (s : frac_state) (loc : Z) : outcome share :=
  if len s <=? loc then Done NoShare else
  if loc <? 0 then Fault OutOfBounds else
  f ← fractions s !! Z.to_nat loc ?? OutOfBounds;
  Done (if f =? 0 then NoShare
        else if Z.shiftl 1 FRACTION_SHIFT <=? f then Whole else Split f).

Section callbacks.
Context `{PluginMalloc} (logging : bool) (config : ShamblesPluginConfig).

(** The binding of the part of a split that [invert] selects. *)
Definition bind_part (leading : bool) (inv : bool) (c : ShamblesChunk) : list event :=
  if xorb leading inv then bindFastAlloc logging config c else bindSlowAlloc logging config c.

(** [bindAlloc] of the builds without logging. *)
Definition bindAlloc_plain (type : AllocEventType) (in_ out size : Z) : M frac_state unit :=
  if decide (type = ALLOC_EVENT_ALLOC) then
    if size <? sizeThresshold config then mret tt else
    loc ← next_loc;
    s ← get;
    sh ← liftO (share_of s loc);
    match sh with
    | NoShare => femit (bind_part false (invert s) (mkChunk out size None))
    | Whole => femit (bind_part true (invert s) (mkChunk out size None))
    | Split f =>
        let fast := fastSize size f in
        femit (bind_part true (invert s) (mkChunk out fast None));;
        femit (bind_part false (invert s) (mkChunk (u64 (out + fast)) (u64 (size - fast)) None))
    end
  else mret tt.

(** [region->chunks[i].privData = (void * )v], then the binding of that chunk. *)
Definition mark (p i v : Z) : M frac_state unit :=
  region ← on_findex (deref_region p);
  on_findex (set_chunk_privData (region_chunks region, i) (0, v)).

Definition bind_chunk (p i : Z) (leading inv : bool) : M frac_state unit :=
  region ← on_findex (deref_region p);
  c ← on_findex (deref_chunk (region_chunks region, i));
  femit (bind_part leading inv c).

(** 1 for a chunk in fast memory, 0 for one in slow memory. *)
Definition mark_of (leading inv : bool) : Z := if xorb leading inv then 1 else 0.

(** [bindAlloc] of the builds with logging, which also keep the index. *)
Definition bindAlloc_logged (type : AllocEventType) (in_ out size : Z) : M frac_state unit :=
  femit (LOG_ALLOC logging type in_ out size);;
  match type with
  | ALLOC_EVENT_ALLOC =>
      if size <? sizeThresshold config then mret tt else
      loc ← next_loc;
      s ← get;
      sh ← liftO (share_of s loc);
      match sh with
      | NoShare =>
          p ← on_findex (addRegionChunks out size 1 [size]);
          mark p 0 (mark_of false (invert s));;
          bind_chunk p 0 false (invert s)
      | Whole =>
          p ← on_findex (addRegionChunks out size 1 [size]);
          mark p 0 (mark_of true (invert s));;
          bind_chunk p 0 true (invert s)
      | Split f =>
          let fast := fastSize size f in
          p ← on_findex (addRegionChunks out size 2 [fast; u64 (size - fast)]);
          mark p 0 (mark_of true (invert s));;
          mark p 1 (mark_of false (invert s));;
          bind_chunk p 0 true (invert s);;
          bind_chunk p 1 false (invert s)
      end
  | ALLOC_EVENT_REALLOC => mret tt
  | _ =>
      p ← on_findex (getRegion in_);
      if p =? 0 then mret tt else on_findex (deleteRegion p)
  end.

Definition handleSample (addr : Z) : M frac_state unit :=
  chunk ← on_findex (getChunkInfoNU addr);
  if decide (chunk = NULLp) then femit (LOG_SAMPLE logging addr 0 0) else
  c ← on_findex (deref_chunk chunk);
  priv ← liftO (chunk_privData c ?? Uninitialised);
  if decide (priv = NULLp) then femit (LOG_SAMPLE logging addr 0 LOG_TRACKED)
  else femit (LOG_SAMPLE logging addr 0 (Z.lor LOG_TRACKED LOG_HIT)).
End callbacks.

(** ** Initialisation *)

(** [strstr(env, ",")]: what comes before the first comma and what after it. *)
Fixpoint break_comma (s : list ascii) : option (list ascii * list ascii) :=
  match s with
  | [] => None
  | c :: s' =>
      if code c =? 44 then Some ([], s') else
      '(a, b) ← break_comma s'; Some (c :: a, b)
  end.

Definition count_commas (s : list ascii) : nat := length (filter (λ c, code c = 44) s).

(** The loop over the first [n] fields and the assignment of the last one. *)
Fixpoint parse_fractions (n : nat) (env : list ascii) : outcome (list Z) :=
  match n with
  | O => f ← fraction (String.string_of_list_ascii env); Done [f]
  | S n' =>
      '(field, rest) ← break_comma env ?? NullDeref;
      f ← fraction (String.string_of_list_ascii field);
      fs ← parse_fractions n' rest;
      Done (f :: fs)
  end.

Section init.
Context (getenv : environment).

Definition fraction_env : option (string * bool) :=
  match getenv "SHAMBLES_ALLOC_FAST_FRACTIONS"%string with
  | Some env => Some (env, false)
  | None =>
      match getenv "SHAMBLES_ALLOC_SLOW_FRACTIONS"%string with
      | Some env => Some (env, true)
      | None => None
      end
  end.

(** [shambles_init] of the builds with logging; without it the index is not
    set up. *)
Definition shambles_init (numa_max : Z) (oversized_shl : Z → Z) : outcome (ShamblesPluginConfig * frac_state) :=
  r ← ShamblesPluginConfigInit getenv numa_max;
  match r with
  | inl _ => Fault Aborted
  | inr c =>
      '(fs, inv) ← match fraction_env with
                   | None => Done ([], false)
                   | Some (env, inv) =>
                       let s := String.list_ascii_of_string env in
                       fs ← parse_fractions (count_commas s) s; Done (fs, inv)
                   end;
      ix ← shamblesStructsInit oversized_shl (chunkSize c) (sizeThresshold c);
      Done (c, mkFrac fs 0 inv ix [])
  end.
End init.

(** ** Parsing *)

Section parsing.
(** Reference definition: the fields between commas. *)
Fixpoint fields (s : list ascii) : list (list ascii) :=
  match s with
  | [] => [[]]
  | c :: s' =>
      if code c =? 44 then [] :: fields s' else
      match fields s' with f :: fs => (c :: f) :: fs | [] => [[c]] end
  end.

Fixpoint fractions_of (fs : list (list ascii)) : outcome (list Z) :=
  match fs with
  | [] => Done []
  | f :: fs' => x ← fraction (String.string_of_list_ascii f); xs ← fractions_of fs'; Done (x :: xs)
  end.

Lemma fields_nonempty s : fields s ≠ [].
Proof. destruct s as [|c s]; simpl; [done|]. destruct (_ =? _); [done|]. by destruct (fields s). Qed.

Lemma break_comma_fields s :
  match break_comma s with
  | Some (a, b) => fields s = a :: fields b ∧ count_commas s = S (count_commas b)
  | None => fields s = [s] ∧ count_commas s = 0%nat
  end.
Proof.
  induction s as [|c s IH]; simpl; [done|].
  unfold count_commas in *. destruct (Z.eqb_spec (code c) 44) as [Hc|Hc].
  - by rewrite filter_cons_True.
  - rewrite filter_cons_False by done. destruct (break_comma s) as [[a b]|]; simpl.
    + destruct IH as [-> ->]. done.
    + destruct IH as [-> ->]. done.
Qed.

Lemma parse_fractions_ok s : parse_fractions (count_commas s) s = fractions_of (fields s).
Proof.
  remember (count_commas s) as n eqn:Hn. revert s Hn. induction n as [|n IH]; intros s Hn.
  - pose proof (break_comma_fields s) as H. destruct (break_comma s) as [[a b]|].
    + destruct H as [_ H]. lia.
    + destruct H as [-> _]. simpl. unfold mbind, outcome_bind. by destruct (fraction _).
  - pose proof (break_comma_fields s) as H. simpl. destruct (break_comma s) as [[a b]|].
    + destruct H as [-> H]. unfold mbind, outcome_bind. simpl. destruct (fraction _); [|done].
      rewrite (IH b) by lia. done.
    + destruct H as [_ H]. lia.
Qed.
End parsing.

(** ** Rounding *)

Lemma half_up x : 0 ≤ x → Z.shiftr x 1 + Z.land x 1 = (x + 1) / 2.
Proof.
  intros Hx. rewrite Z.shiftr_div_pow2 by done. change (2 ^ 1) with 2.
  change (Z.land x 1) with (Z.land x (2 ^ 1 - 1)). rewrite (land_low x 1) by done. change (2 ^ 1) with 2.
  pose proof (Z.div_mod x 2 ltac:(done)). pose proof (Z.mod_pos_bound x 2 ltac:(done)).
  apply (Z.div_unique (x + 1) 2 _ (1 - x `mod` 2)); lia.
Qed.

Lemma div_half_up y k : 0 ≤ y → 0 < k → (y / k + 1) / 2 = (y + k) / (2 * k).
Proof.
  intros Hy Hk. rewrite Z.mul_comm, <- Z.div_div by lia. f_equal.
  replace (y + k) with (y + 1 * k) by lia. by rewrite Z.div_add by lia.
Qed.

Lemma fastSize_ok size fract :
  0 ≤ size → 1 ≤ fract → size * fract < 2 ^ 52 →
  fastSize size fract = (size * fract + 2 ^ 19) / 2 ^ 20.
Proof.
  intros Hs Hf Hlt. unfold fastSize, shl64, PAGE_SHIFT, FRACTION_SHIFT. cbv zeta.
  assert (size < 2 ^ 52) by nia.
  rewrite Z.shiftl_mul_pow2, (u64_small (size * 2 ^ 12)) by (done || unfold is_u64; lia).
  rewrite u64_small by (unfold is_u64; nia).
  rewrite half_up by (apply Z.shiftr_nonneg; nia).
  change (20 + 12 - 1) with 31. rewrite Z.shiftr_div_pow2 by done.
  replace (size * 2 ^ 12 * fract) with (size * fract * 2 ^ 12) by lia.
  replace (2 ^ 31) with (2 ^ 19 * 2 ^ 12) by done. rewrite Z.div_mul_cancel_r by done.
  rewrite div_half_up by (done || nia). done.
Qed.

Lemma fastSize_le size fract :
  0 ≤ size → 1 ≤ fract ≤ 2 ^ 20 → size * fract < 2 ^ 52 → 0 ≤ fastSize size fract ≤ size.
Proof.
  intros Hs Hf Hlt. rewrite fastSize_ok by lia. split; [apply Z.div_pos; nia|].
  apply Z.lt_succ_r. apply Z.div_lt_upper_bound; [done|]. nia.
Qed.
