(* ===== verification/FractionalTheorems.v ===== *)
(** * Theorems about fractional placement

    The numbers are rounded as intended as long as they fit, the two builds of
    the callback bind the same ranges, and the hit or miss a sample reports is
    the policy in force at its address. *)
From stdpp Require Import base list gmap numbers strings.
From Stdlib Require Import Ascii.
From S2P Require Import Prelude CLib Config Structures StructuresTree StructuresIndex StructuresSpec.
From S2P Require Import StructuresTheorems CList Migration Fractional.

(** ** Shares *)

(** The bytes of an allocation that its share covers. *)
Definition lead (sh : share) (size : Z) : Z :=
  match sh with NoShare => 0 | Whole => size | Split f => fastSize size f end.

(** A split whose product fits in 64 bits. *)
Definition split_fits (sh : share) (size : Z) : Prop :=
  match sh with Split f => 1 ≤ f ≤ 2 ^ 20 ∧ size * f < 2 ^ 52 | _ => True end.

Definition side_of (leading inv : bool) : MemLoc := if xorb leading inv then FAST else SLOW.

Section shares.
Context (logging : bool) (config : ShamblesPluginConfig).

Definition share_events (inv : bool) (sh : share) (out size : Z) : list event :=
  match sh with
  | NoShare => bind_part logging config false inv (mkChunk out size None)
  | Whole => bind_part logging config true inv (mkChunk out size None)
  | Split f =>
      bind_part logging config true inv (mkChunk out (fastSize size f) None) ++
      bind_part logging config false inv
        (mkChunk (u64 (out + fastSize size f)) (u64 (size - fastSize size f)) None)
  end.

Lemma bind_part_policy t leading inv c x :
  policy_at (t ++ bind_part logging config leading inv c) x =
  if covers (chunk_start c) (chunk_size c) x then mask_of config (side_of leading inv) else policy_at t x.
Proof. unfold bind_part, side_of. destruct (xorb leading inv); apply policy_bind. Qed.

Lemma share_policy t inv sh out size x :
  0 ≤ out → 0 ≤ size → out + size < 2 ^ 64 → split_fits sh size →
  policy_at (t ++ share_events inv sh out size) x =
  if covers out (lead sh size) x then mask_of config (side_of true inv)
  else if covers (out + lead sh size) (size - lead sh size) x then mask_of config (side_of false inv)
  else policy_at t x.
Proof.
  intros Ho Hs He Hfit. destruct sh as [| |f]; simpl.
  - rewrite bind_part_policy. simpl. rewrite Z.add_0_r, Z.sub_0_r.
    by rewrite (covers_out out 0) by lia.
  - rewrite bind_part_policy. simpl. rewrite Z.sub_diag.
    by rewrite (covers_out (out + size) 0) by lia.
  - destruct Hfit as [Hf Hlt]. destruct (fastSize_le size f Hs Hf Hlt) as [H0 H1].
    rewrite app_assoc, !bind_part_policy. simpl. rewrite !u64_small by (unfold is_u64; lia).
    destruct (covers out (fastSize size f) x) eqn:E1; [|done].
    apply covers_spec in E1. by rewrite (covers_out (out + fastSize size f)) by lia.
Qed.

Lemma share_of_split s loc f :
  Forall (λ f, 0 ≤ f) (fractions s) → share_of s loc = Done (Split f) → 1 ≤ f < 2 ^ 20.
Proof.
  intros Hall. unfold share_of. destruct (_ <=? _); [done|]. destruct (_ <? 0); [done|].
  unfold mbind, outcome_bind, orelse. destruct (fractions s !! Z.to_nat loc) as [g|] eqn:E; [|done].
  assert (0 ≤ g) by by apply (Forall_lookup_1 _ _ _ _ Hall E).
  destruct (Z.eqb_spec g 0); [done|]. destruct (Z.leb_spec (Z.shiftl 1 FRACTION_SHIFT) g) as [|Hlt]; [done|].
  intros [= <-]. change (Z.shiftl 1 FRACTION_SHIFT) with (2 ^ 20) in Hlt. lia.
Qed.

(** [next_loc] changes nothing but the counter. *)
Definition advanced (s : frac_state) : frac_state :=
  mkFrac (fractions s) (i32 (current s + 1)) (invert s) (findex s) (ftrace s).

Lemma plain_ok s in_ out size sh :
  sizeThresshold config ≤ size → share_of s (current s) = Done sh →
  bindAlloc_plain logging config ALLOC_EVENT_ALLOC in_ out size s =
  Done (tt, mkFrac (fractions s) (i32 (current s + 1)) (invert s) (findex s)
              (ftrace s ++ share_events (invert s) sh out size)).
Proof.
  intros Ht Hsh. unfold bindAlloc_plain. rewrite decide_True by done.
  rewrite (proj2 (Z.ltb_ge _ _)) by done.
  step_with (eq_refl : next_loc s = Done (current s, advanced s)).
  erewrite bind_done by reflexivity.
  erewrite bind_done by (unfold liftO; change (share_of (advanced s)) with (share_of s); rewrite Hsh; reflexivity).
  destruct sh as [| |f]; try reflexivity.
  cbv zeta. erewrite bind_done by reflexivity. unfold femit, modify. simpl. by rewrite <- app_assoc.
Qed.
End shares.

(** ** The build with logging *)

Section logged.
Context `{PluginMallocOk} (logging : bool) (config : ShamblesPluginConfig).
Implicit Types (s : frac_state) (L : live_regions).

Definition mark_value (l : MemLoc) : Z := match l with FAST => 1 | SLOW => 0 end.

Lemma mark_of_side leading inv : mark_of leading inv = mark_value (side_of leading inv).
Proof. unfold mark_of, side_of. by destruct (xorb leading inv). Qed.

(** A chunk whose mark is the policy in force at its addresses. *)
Definition chunk_marked (t : list event) (c : ShamblesChunk) : Prop :=
  ∃ l, chunk_privData c = Some (0, mark_value l) ∧ ∀ x, in_chunk c x → policy_at t x = mask_of config l.

Record frac_inv (s : frac_state) (d : nat) (w : Z) (L : live_regions) : Prop := {
  fi_index : index_inv (findex s) d w L;
  fi_marks : ∀ p r cs, regions (findex s) !! p = Some r → chunks (findex s) !! region_chunks r = Some cs →
    Forall (chunk_marked (ftrace s)) cs
}.
Arguments fi_index {s d w L}.
Arguments fi_marks {s d w L}.

Lemma mark_ok s p r cs c i v :
  p ≠ 0 → regions (findex s) !! p = Some r → region_chunks r ≠ 0 → 0 ≤ i →
  chunks (findex s) !! region_chunks r = Some cs → cs !! Z.to_nat i = Some c →
  mark p i v s = Done (tt, set_findex (set_chunks (<[region_chunks r:=
    <[Z.to_nat i:=mkChunk (chunk_start c) (chunk_size c) (Some (0, v))]> cs]> (chunks (findex s))) (findex s)) s).
Proof.
  intros Hp Hr Hb Hi Hcs Hc. unfold mark.
  erewrite bind_done by (apply zoom_done; by apply deref_region_ok).
  replace (set_findex _ s) with s at 1 by by destruct s.
  apply zoom_done. by apply set_chunk_privData_ok.
Qed.

Lemma bind_chunk_ok s p r cs c i leading inv :
  p ≠ 0 → regions (findex s) !! p = Some r → region_chunks r ≠ 0 → 0 ≤ i →
  chunks (findex s) !! region_chunks r = Some cs → cs !! Z.to_nat i = Some c →
  bind_chunk logging config p i leading inv s =
  Done (tt, mkFrac (fractions s) (current s) (invert s) (findex s)
              (ftrace s ++ bind_part logging config leading inv c)).
Proof.
  intros Hp Hr Hb Hi Hcs Hc. unfold bind_chunk.
  erewrite bind_done by (apply zoom_done; by apply deref_region_ok).
  erewrite bind_done by (apply zoom_done; by apply (deref_chunk_ok _ _ cs)). done.
Qed.

(** The state after a region with the chunks [cs] was added and bound. *)
Definition marked_state (s : frac_state) (i1 : structs) (b : Z) (cs : list ShamblesChunk)
    (evs : list event) : frac_state :=
  mkFrac (fractions s) (current s) (invert s) (set_chunks (<[b:=cs]> (chunks i1)) i1) (ftrace s ++ evs).

Lemma marked_inv s d w L i1 p b a e cs0 cs evs :
  frac_inv s d w L → added (findex s) i1 p b a cs0 → index_inv i1 d w (<[p:=(a, e)]> L) →
  layout cs = layout cs0 →
  (∀ q a' e', L !! q = Some (a', e') → e ≤ a' ∨ e' ≤ a) →
  Forall (chunk_marked (ftrace s ++ evs)) cs →
  (∀ x, ¬ (a ≤ x < e) → policy_at (ftrace s ++ evs) x = policy_at (ftrace s) x) →
  frac_inv (marked_state s i1 b cs evs) d w (<[p:=(a, e)]> L).
Proof.
  intros HI Hadd HI1 Hlay Hdis Hmark Hout. destruct (added_lookup _ _ _ _ _ _ Hadd) as [Er Ec].
  destruct Hadd as (Hg & Hpl & Hbl & Hpb & Hp & Hb & Hl & Hr & Hc & _).
  split; simpl.
  - eapply index_inv_retagged; [exact HI1|]. split; simpl; try done.
    intros q. destruct (decide (q = b)) as [->|]; [|by rewrite lookup_insert_ne].
    rewrite lookup_insert_eq, Ec. simpl. by rewrite Hlay.
  - intros q r cs' Hq Hcs'. rewrite Hr in Hq. apply lookup_insert_Some in Hq as [[<- <-]|[Hne Hq]].
    + simpl in Hcs'. rewrite lookup_insert_eq in Hcs'. by injection Hcs' as <-.
    + destruct (live_region _ _ _ _ _ _ (fi_index HI) Hq) as (a' & e' & HL).
      destruct (ii_region (fi_index HI) _ _ _ HL) as (r' & cs2 & E1 & E2 & _ & E4 & _ & _ & E7).
      assert (r' = r) as -> by congruence.
      pose proof (ii_live (fi_index HI)) as Hlive. apply elem_of_dom_2 in E4 as Hd.
      assert (region_chunks r ≠ b) by set_solver.
      rewrite lookup_insert_ne, Hc, lookup_insert_ne in Hcs' by done.
      assert (cs' = cs2) as -> by congruence.
      pose proof (fi_marks HI _ _ _ Hq E4) as Hold. rewrite Forall_lookup in Hold |- *.
      intros i c Hi. destruct (Hold i c Hi) as (l & Hpriv & Hpol). exists l. split; [done|].
      intros x Hx. rewrite Hout; [by apply Hpol|].
      destruct (contiguous_in _ _ _ _ _ E7 Hi), (Hdis _ _ _ HL); unfold in_chunk in Hx; lia.
Qed.

(** What the program guarantees about a tracked allocation; the descriptor and an array of one or two chunks can be had. *)
Definition alloc_fits (s : frac_state) (d : nat) (w : Z) (L : live_regions) (out size : Z) : Prop :=
  region_ok (slot_bytes (globals (findex s))) out (out + size) ∧
  in_window (globals (findex s)) d w out (out + size) ∧
  (∀ q a' e', L !! q = Some (a', e') → out + size ≤ a' ∨ e' ≤ out) ∧
  region_served (findex s) 1 ∧ region_served (findex s) 2.

Lemma bind_part_chunk leading inv a n v v' :
  bind_part logging config leading inv (mkChunk a n v) = bind_part logging config leading inv (mkChunk a n v').
Proof. unfold bind_part. by destruct (xorb leading inv). Qed.

(** A region of a single chunk. *)
Lemma one_chunk_ok s d w L out size leading :
  frac_inv s d w L → alloc_fits s d w L out size → 0 ≤ size →
  ∃ p i1 b, added (findex s) i1 p b out [mkChunk out size None] ∧
    index_inv i1 d w (<[p:=(out, out + size)]> L) ∧ L !! p = None ∧
    (p ← on_findex (addRegionChunks out size 1 [size]);
     mark p 0 (mark_of leading (invert s));; bind_chunk logging config p 0 leading (invert s)) s =
    Done (tt, marked_state s i1 b [mkChunk out size (Some (0, mark_of leading (invert s)))]
                (bind_part logging config leading (invert s) (mkChunk out size None))).
Proof.
  intros HI (Hok & Hw & Hdis & Hm & _) Hs.
  destruct (addRegionChunks_ok (findex s) d w L out size [size] (fi_index HI) Hok Hw Hdis)
    as (p & b & i1 & E & Hadd & HI1); [done|by constructor|simpl; lia|exact Hm|].
  exists p, i1, b. split; [exact Hadd|]. split; [done|].
  destruct (added_lookup _ _ _ _ _ _ Hadd) as [Er Ec].
  destruct Hadd as (_ & Hpl & _ & _ & Hp & Hb & _).
  split; [by apply (fresh_not_live _ _ _ _ _ (fi_index HI))|].
  erewrite bind_done by (apply zoom_done; exact E).
  erewrite bind_done by (eapply mark_ok; [lia|exact Er|simpl; lia|done|exact Ec|reflexivity]).
  erewrite bind_chunk_ok; [|lia|exact Er|simpl; lia|done|apply lookup_insert_eq|reflexivity].
  unfold marked_state. simpl. by rewrite (bind_part_chunk _ _ _ _ _ None).
Qed.

(** A region of two chunks. *)
Lemma two_chunks_ok s d w L out size fast :
  frac_inv s d w L → alloc_fits s d w L out size → 0 ≤ fast ≤ size → 0 ≤ out → out + size < 2 ^ 64 →
  ∃ p i1 b, added (findex s) i1 p b out [mkChunk out fast None; mkChunk (u64 (out + fast)) (u64 (size - fast)) None] ∧
    index_inv i1 d w (<[p:=(out, out + size)]> L) ∧ L !! p = None ∧
    (p ← on_findex (addRegionChunks out size 2 [fast; u64 (size - fast)]);
     mark p 0 (mark_of true (invert s));; mark p 1 (mark_of false (invert s));;
     bind_chunk logging config p 0 true (invert s);; bind_chunk logging config p 1 false (invert s)) s =
    Done (tt, marked_state s i1 b
                [mkChunk out fast (Some (0, mark_of true (invert s)));
                 mkChunk (u64 (out + fast)) (u64 (size - fast)) (Some (0, mark_of false (invert s)))]
                (bind_part logging config true (invert s) (mkChunk out fast None) ++
                 bind_part logging config false (invert s) (mkChunk (u64 (out + fast)) (u64 (size - fast)) None))).
Proof.
  intros HI (Hok & Hw & Hdis & _ & Hm) Hs Ho He.
  destruct (addRegionChunks_ok (findex s) d w L out size [fast; u64 (size - fast)] (fi_index HI) Hok Hw Hdis)
    as (p & b & i1 & E & Hadd & HI1); [done| | |exact Hm|].
  { repeat constructor; [lia|]. apply u64_range. }
  { simpl. rewrite u64_small by (unfold is_u64; lia). unfold id. lia. }
  exists p, i1, b. split; [exact Hadd|]. split; [done|].
  destruct (added_lookup _ _ _ _ _ _ Hadd) as [Er Ec].
  destruct Hadd as (_ & Hpl & _ & _ & Hp & Hb & _).
  split; [by apply (fresh_not_live _ _ _ _ _ (fi_index HI))|].
  erewrite bind_done by (apply zoom_done; exact E).
  erewrite bind_done by (eapply mark_ok; [lia|exact Er|simpl; lia|done|exact Ec|reflexivity]).
  erewrite bind_done by (eapply mark_ok; [lia|exact Er|simpl; lia|done|apply lookup_insert_eq|reflexivity]).
  erewrite bind_done by (eapply bind_chunk_ok; [lia|exact Er|simpl; lia|done|apply lookup_insert_eq|reflexivity]).
  erewrite bind_chunk_ok; [|lia|exact Er|simpl; lia|done|apply lookup_insert_eq|reflexivity].
  unfold marked_state. simpl. rewrite insert_insert_eq, <- app_assoc.
  by rewrite (bind_part_chunk _ _ out _ _ None), (bind_part_chunk _ _ (u64 _) _ _ None).
Qed.

Lemma logged_ok s d w L in_ out size sh :
  frac_inv s d w L → sizeThresshold config ≤ size → alloc_fits s d w L out size →
  share_of s (current s) = Done sh → split_fits sh size →
  ∃ p s', bindAlloc_logged logging config ALLOC_EVENT_ALLOC in_ out size s = Done (tt, s') ∧
    frac_inv s' d w (<[p:=(out, out + size)]> L) ∧ L !! p = None ∧
    globals (findex s') = globals (findex s) ∧
    fractions s' = fractions s ∧ current s' = i32 (current s + 1) ∧ invert s' = invert s ∧
    ftrace s' = ftrace s ++ LOG_ALLOC logging ALLOC_EVENT_ALLOC in_ out size
                ++ share_events logging config (invert s) sh out size.
Proof.
  intros HI Ht Hfits Hsh Hfit.
  set (s1 := mkFrac (fractions s) (i32 (current s + 1)) (invert s) (findex s)
               (ftrace s ++ LOG_ALLOC logging ALLOC_EVENT_ALLOC in_ out size)).
  assert (frac_inv s1 d w L) as HI1.
  { split; [apply HI|]. intros p r cs Hr Hcs. eapply Forall_impl; [apply (fi_marks HI _ _ _ Hr Hcs)|].
    intros c (l & H1 & H2). exists l. split; [done|]. intros x Hx. simpl. rewrite policy_log_alloc. auto. }
  assert (alloc_fits s1 d w L out size) as Hfits1 by exact Hfits.
  pose proof Hfits as ((Ho & Hoe & He) & _ & Hdis & _).
  pose proof (slot_bytes_pos _ _ (ii_geo (fi_index HI))) as Hrz.
  unfold bindAlloc_logged. erewrite bind_done by reflexivity.
  rewrite (proj2 (Z.ltb_ge _ _)) by done.
  erewrite (bind_done next_loc) by reflexivity. fold s1.
  erewrite bind_done by reflexivity.
  erewrite bind_done.
  2: { apply liftO_done. exact Hsh. }
  assert (∀ evs, evs = share_events logging config (invert s) sh out size → ∀ x,
    policy_at (ftrace s1 ++ evs) x =
    if covers out (lead sh size) x then mask_of config (side_of true (invert s))
    else if covers (out + lead sh size) (size - lead sh size) x then mask_of config (side_of false (invert s))
    else policy_at (ftrace s1) x) as Hpol.
  { intros evs -> x. apply share_policy; try done; lia. }
  assert (0 ≤ lead sh size ≤ size) as Hlead.
  { destruct sh as [| |f]; simpl; [lia|lia|]. destruct Hfit. apply fastSize_le; lia. }
  assert (∀ evs, evs = share_events logging config (invert s) sh out size → ∀ x, ¬ (out ≤ x < out + size) →
    policy_at (ftrace s1 ++ evs) x = policy_at (ftrace s1) x) as Hout.
  { intros evs Hevs x Hx. rewrite (Hpol evs Hevs), !covers_out by lia. done. }
  destruct sh as [| |f].
  - destruct (one_chunk_ok s1 d w L out size false HI1 Hfits1) as (p & i1 & b & Hadd & Hix & HL & E); [lia|].
    eexists p, _. pose proof (proj1 Hadd) as Hg. split; [exact E|]. split; [|by rewrite app_assoc].
    eapply marked_inv; try done; [|by apply Hout].
    repeat constructor. exists (side_of false (invert s)). simpl. rewrite mark_of_side. split; [done|].
    intros x Hx. unfold in_chunk in Hx. simpl in Hx. rewrite (Hpol _ eq_refl). simpl.
    rewrite (covers_out out 0), (proj2 (covers_spec _ _ _)) by lia. done.
  - destruct (one_chunk_ok s1 d w L out size true HI1 Hfits1) as (p & i1 & b & Hadd & Hix & HL & E); [lia|].
    eexists p, _. pose proof (proj1 Hadd) as Hg. split; [exact E|]. split; [|by rewrite app_assoc].
    eapply marked_inv; try done; [|by apply Hout].
    repeat constructor. exists (side_of true (invert s)). simpl. rewrite mark_of_side. split; [done|].
    intros x Hx. unfold in_chunk in Hx. simpl in Hx. rewrite (Hpol _ eq_refl). simpl.
    rewrite (proj2 (covers_spec _ _ _)) by lia. done.
  - simpl in Hlead. destruct (two_chunks_ok s1 d w L out size (fastSize size f) HI1 Hfits1)
      as (p & i1 & b & Hadd & Hix & HL & E); [lia|lia|lia|].
    eexists p, _. pose proof (proj1 Hadd) as Hg. split; [exact E|]. split; [|by rewrite app_assoc].
    eapply marked_inv; try done; [|by apply Hout].
    repeat constructor; [exists (side_of true (invert s))|exists (side_of false (invert s))];
      simpl; rewrite mark_of_side; (split; [done|]); intros x Hx; unfold in_chunk in Hx; simpl in Hx;
      rewrite (Hpol _ eq_refl); simpl.
    + rewrite (proj2 (covers_spec _ _ _)) by lia. done.
    + rewrite !u64_small in Hx by (unfold is_u64; lia).
      rewrite (covers_out out), (proj2 (covers_spec _ _ _)) by lia. done.
Qed.
End logged.

(** ** Free and sample *)

Section events.
Context `{PluginMallocOk} (logging : bool) (config : ShamblesPluginConfig).
Implicit Types (s : frac_state) (L : live_regions).

Lemma logged_free_ok s d w L in_ p a e :
  frac_inv config s d w L → getRegion in_ (findex s) = Done (p, findex s) → L !! p = Some (a, e) →
  ∃ s', bindAlloc_logged logging config ALLOC_EVENT_FREE in_ 0 0 s = Done (tt, s') ∧
    frac_inv config s' d w (delete p L) ∧
    ftrace s' = ftrace s ++ LOG_ALLOC logging ALLOC_EVENT_FREE in_ 0 0.
Proof.
  intros HI Eg HL. destruct (ii_root (fi_index _ _ _ _ _ HI)) as (nl & _ & HT).
  destruct (ro_each (ti_regions HT) _ _ _ HL) as (Hp & _ & _).
  destruct (deleteRegion_ok _ d w L p a e (fi_index _ _ _ _ _ HI) HL)
    as (r & i' & G1 & G2 & G3 & G4 & G5 & G6 & G7 & _).
  eexists. split; [|split].
  - unfold bindAlloc_logged. erewrite bind_done by reflexivity.
    erewrite bind_done by (apply zoom_done; exact Eg). rewrite (proj2 (Z.eqb_neq p 0)) by done.
    apply zoom_done. exact G2.
  - split; [exact G3|]. intros q r' cs Hq Hcs. simpl in Hq, Hcs. rewrite G5 in Hq. rewrite G6 in Hcs.
    apply lookup_delete_Some in Hq as [_ Hq]. apply lookup_delete_Some in Hcs as [_ Hcs].
    eapply Forall_impl; [apply (fi_marks _ _ _ _ _ HI _ _ _ Hq Hcs)|].
    intros c (l & H1 & H2). exists l. split; [done|]. intros x Hx. simpl. rewrite policy_log_alloc. auto.
  - done.
Qed.

(** The flags [handleSample] logs for a chunk in the given memory. *)
Definition flags_of (l : MemLoc) : Z :=
  match l with FAST => Z.lor LOG_TRACKED LOG_HIT | SLOW => LOG_TRACKED end.

Lemma frac_sample_ok s d w L addr :
  frac_inv config s d w L → window d (slot_of (globals (findex s)) addr) = w →
  ∃ p s', getRegion addr (findex s) = Done (p, findex s) ∧
    handleSample logging addr s = Done (tt, s') ∧ findex s' = findex s ∧
    (p = 0 → ftrace s' = ftrace s ++ LOG_SAMPLE logging addr 0 0) ∧
    (p ≠ 0 → ∃ l, policy_at (ftrace s) addr = mask_of config l ∧
       ftrace s' = ftrace s ++ LOG_SAMPLE logging addr 0 (flags_of l)).
Proof.
  intros HI Hw. destruct (getRegion_ok _ _ _ _ addr (fi_index _ _ _ _ _ HI) Hw) as (p & E & Hsound & _).
  destruct (getChunkInfoNU_ok _ _ _ _ _ _ (fi_index _ _ _ _ _ HI) Hw E)
    as [[-> EC]|(r & cs & k & c & Er & Ecs & EC & Hc & Hx)].
  - exists 0. eexists. split; [exact E|]. unfold handleSample.
    split; [by erewrite bind_done by by apply zoom_done|]. done.
  - pose proof (fi_marks _ _ _ _ _ HI _ _ _ Er Ecs) as Hm. rewrite Forall_lookup in Hm.
    destruct (Hm k c Hc) as (l & Hpriv & Hpol).
    destruct (live_region _ _ _ _ _ _ (fi_index _ _ _ _ _ HI) Er) as (a & e & HL).
    destruct (ii_region (fi_index _ _ _ _ _ HI) _ _ _ HL) as (r' & cs' & F1 & _ & F3 & _).
    assert (r' = r) as -> by congruence.
    exists p, (mkFrac (fractions s) (current s) (invert s) (findex s)
                 (ftrace s ++ LOG_SAMPLE logging addr 0 (flags_of l))).
    split; [exact E|]. split; [|split; [|split]].
    2: reflexivity.
    2: { intros ->. destruct (ii_root (fi_index _ _ _ _ _ HI)) as (nl & _ & HT).
         by destruct (ro_each (ti_regions HT) _ _ _ HL). }
    2: { intros _. exists l. split; [by apply Hpol|]. reflexivity. }
    unfold handleSample. erewrite bind_done by by apply zoom_done.
    rewrite decide_False by (unfold NULLp; congruence).
    erewrite bind_done.
    2: { apply zoom_done. apply (deref_chunk_ok _ _ cs); [done|lia|exact Ecs|by rewrite Nat2Z.id]. }
    erewrite bind_done by (apply liftO_done; by rewrite Hpriv). by destruct s, l.
Qed.
End events.

(** ** A concrete plugin state *)

Module FracExample.
Definition config : ShamblesPluginConfig := mkConfig Example.thr Example.chunk SIZE_UNLIMITED 3 1 2.

(** Three quarters, then one. *)
Definition state0 : frac_state := mkFrac [786432; 1048576] 0 false Example.state0 [].

Lemma frac_state0_inv : frac_inv config state0 1 Example.win ∅.
Proof.
  split; [exact Example.state0_inv|]. intros p r cs Hp. exfalso.
  assert (regions Example.state0 = ∅) as E by (vm_compute; reflexivity).
  change (findex state0) with Example.state0 in Hp. rewrite E, lookup_empty in Hp. done.
Qed.

#[local] Existing Instance bump_malloc.
Lemma state0_fits : alloc_fits state0 1 Example.win ∅ Example.start Example.size.
Proof.
  destruct Example.fits as (H1 & H2 & _). split; [exact H1|]. split; [exact H2|]. split; [exact Example.disjoint_empty|].
  split; apply bump_served.
Qed.

Lemma run1 :
  ∃ s p, bindAlloc_logged true config ALLOC_EVENT_ALLOC 0 Example.start Example.size state0 = Done (tt, s) ∧
    frac_inv config s 1 Example.win (<[p:=(Example.start, Example.start + Example.size)]> ∅) ∧
    globals (findex s) = globals Example.state0.
Proof.
  destruct (logged_ok true config state0 1 Example.win ∅ 0 Example.start Example.size (Split 786432) frac_state0_inv)
    as (p & s & E & HI & _ & Hg & _); [vm_compute; discriminate|exact state0_fits|reflexivity|split; [lia|reflexivity]|].
  exists s, p. split; [exact E|]. split; [exact HI|exact Hg].
Qed.

Lemma resolve s p x :
  frac_inv config s 1 Example.win (<[p:=(Example.start, Example.start + Example.size)]> ∅) →
  globals (findex s) = globals Example.state0 →
  window 1 (slot_of (globals Example.state0) x) = Example.win →
  Example.start ≤ x < Example.start + Example.size →
  on_side High (role_of (slot_bytes (globals Example.state0)) Example.start (Example.start + Example.size)
    (x / slot_bytes (globals Example.state0))) = true →
  window 1 (slot_of (globals (findex s)) x) = Example.win ∧
  getRegion x (findex s) = Done (p, findex s).
Proof.
  intros HI Hg Hw Hx Hs. rewrite <- Hg in Hw, Hs. split; [exact Hw|].
  destruct (getRegion_ok _ _ _ _ x (fi_index _ _ _ _ _ HI) Hw) as (q & Eq & _ & Hex).
  rewrite Eq. f_equal. f_equal.
  apply (Hex p Example.start (Example.start + Example.size)); [apply lookup_insert_eq|exact Hx|by left].
Qed.
End FracExample.

(** ** The theorems *)

(** [fraction] reads a number to 20 binary places: for a finite number
    [m * 2^e] that is not negative and below 2^43, it returns the nearest multiple
    of 2^-20 (ties upwards), at most 1. *)
Theorem fraction_rounds str d :
  atof str = Some d → 0 ≤ dmant d < 2 ^ 43 * 2 ^ (- dexp d) → dexp d ≤ 0 →
  fraction str = Done (Z.min (2 ^ 20) ((dmant d * 2 ^ 21 + 2 ^ (- dexp d)) / (2 * 2 ^ (- dexp d)))).
Proof.
  intros E Hm He. unfold fraction. rewrite E. set (D := 2 ^ (- dexp d)) in *.
  assert (0 < D) by (apply Z.pow_pos_nonneg; lia).
  assert (double_to_u64 (mkDouble (dmant d) (dexp d + (FRACTION_SHIFT + 1))) = Done (dmant d * 2 ^ 21 / D)) as ->.
  { unfold double_to_u64. cbn [dmant dexp]. change (FRACTION_SHIFT + 1) with 21. cbv zeta.
    assert ((if 0 <=? dexp d + 21 then dmant d * 2 ^ (dexp d + 21)
             else dmant d ÷ 2 ^ (- (dexp d + 21))) = dmant d * 2 ^ 21 / D) as ->.
    { destruct (Z.leb_spec 0 (dexp d + 21)).
      - assert (2 ^ 21 = 2 ^ (dexp d + 21) * D) as ->
          by (subst D; rewrite <- (Z.pow_add_r 2 (dexp d + 21) (- dexp d)) by lia; f_equal; lia).
        rewrite Z.mul_assoc, Z.div_mul by lia. done.
      - assert (D = 2 ^ (- (dexp d + 21)) * 2 ^ 21) as ->
          by (subst D; rewrite <- (Z.pow_add_r 2 (- (dexp d + 21)) 21) by lia; f_equal; lia).
        rewrite Z.div_mul_cancel_r, Z.quot_div_nonneg by lia. done. }
    rewrite (proj2 (Z.ltb_ge _ 0)) by (apply Z.div_pos; lia).
    rewrite (proj2 (Z.leb_gt _ _)); [done|]. apply Z.div_lt_upper_bound; lia. }
  unfold mbind, outcome_bind. cbv zeta. set (x := dmant d * 2 ^ 21 / D).
  assert (0 ≤ x) by (apply Z.div_pos; lia).
  assert ((if Z.land x 1 =? 0 then Z.shiftr x 1 else Z.shiftr x 1 + 1)
          = (dmant d * 2 ^ 21 + D) / (2 * D)) as ->.
  { rewrite <- div_half_up by lia. fold x. rewrite <- half_up by done.
    change (Z.land x 1) with (Z.land x (2 ^ 1 - 1)). rewrite land_low by done.
    pose proof (Z.mod_pos_bound x (2 ^ 1)). destruct (Z.eqb_spec (x `mod` 2 ^ 1) 0); lia. }
  change (Z.shiftl 1 FRACTION_SHIFT) with (2 ^ 20).
  f_equal. destruct (Z.ltb_spec ((dmant d * 2 ^ 21 + D) / (2 * D)) (2 ^ 20)); lia.
Qed.

Lemma fraction_rounds_witness : fraction "0.75"%string = Done 786432.
Proof.
  rewrite (fraction_rounds "0.75"%string (mkDouble 6755399441055744 (-53)));
    [reflexivity|reflexivity|vm_compute; split; [discriminate|reflexivity]|vm_compute; discriminate].
Defined.

(** The comma-separated list of [shambles_init]: one fraction per field, in
    order; the search for the next comma always finds one. *)
Theorem fractions_parse env :
  parse_fractions (count_commas env) env = fractions_of (fields env).
Proof. apply parse_fractions_ok. Qed.

(** [fastSize] is the size times the fraction, rounded to the nearest byte
    (ties upwards), and at most the size, as long as the product of the size in
    bytes and the 20-bit fraction is below 2^52. *)
Theorem fastSize_rounds size fract :
  0 ≤ size → 1 ≤ fract ≤ 2 ^ 20 → size * fract < 2 ^ 52 →
  fastSize size fract = (size * fract + 2 ^ 19) / 2 ^ 20 ∧ 0 ≤ fastSize size fract ≤ size.
Proof. intros Hs Hf Hlt. split; [apply fastSize_ok; lia|by apply fastSize_le]. Qed.

Lemma fastSize_rounds_witness : fastSize 0x105001 786432 = 801793 ∧ 0 ≤ fastSize 0x105001 786432 ≤ 0x105001.
Proof. apply (fastSize_rounds 0x105001 786432); [lia|lia|reflexivity]. Defined.

(** The product in [fastSize] wraps: half of an 8 GiB allocation is computed
    as no byte at all. *)
Theorem fastSize_wraps : fastSize (2 ^ 33) (2 ^ 19) = 0.
Proof. reflexivity. Qed.

(** The build without logging.  A tracked allocation advances the counter and
    binds its bytes: those of the share to one kind of memory and the rest to the
    other, exchanged when the fractions are those of slow memory; no other
    address is touched. *)
Theorem frac_plain logging config s in_ out size sh :
  sizeThresshold config ≤ size → 0 ≤ size → 0 ≤ out → out + size < 2 ^ 64 →
  share_of s (current s) = Done sh → split_fits sh size →
  ∃ s', bindAlloc_plain logging config ALLOC_EVENT_ALLOC in_ out size s = Done (tt, s') ∧
    fractions s' = fractions s ∧ current s' = i32 (current s + 1) ∧
    ∀ x, policy_at (ftrace s') x =
      if covers out (lead sh size) x then mask_of config (side_of true (invert s))
      else if covers (out + lead sh size) (size - lead sh size) x then mask_of config (side_of false (invert s))
      else policy_at (ftrace s) x.
Proof.
  intros Ht Hs Ho He Hsh Hfit. rewrite (plain_ok logging config s in_ out size sh Ht Hsh).
  eexists. split; [reflexivity|]. split; [done|]. split; [done|].
  intros x. by apply share_policy.
Qed.

Lemma frac_plain_witness :
  ∃ s', bindAlloc_plain false FracExample.config ALLOC_EVENT_ALLOC 0 0x100000 0x100000 FracExample.state0 = Done (tt, s') ∧
    policy_at (ftrace s') 0x1bffff = to_fast FracExample.config ∧
    policy_at (ftrace s') 0x1c0000 = to_slow FracExample.config.
Proof.
  destruct (frac_plain false FracExample.config FracExample.state0 0 0x100000 0x100000 (Split 786432))
    as (s' & E & _ & _ & Hp); [vm_compute; discriminate|lia|lia|lia|reflexivity|split; [lia|reflexivity]|].
  exists s'. split; [exact E|]. rewrite !Hp. split; reflexivity.
Defined.

(** The build with logging performs the same bindings as the one without, and
    keeps the index: after a tracked allocation every chunk of every live region
    carries the mark of the memory its addresses are bound to. *)
Theorem frac_logged `{PluginMallocOk} logging config s d w L in_ out size sh :
  frac_inv config s d w L → sizeThresshold config ≤ size → alloc_fits s d w L out size →
  share_of s (current s) = Done sh → split_fits sh size →
  ∃ p s' s'', bindAlloc_logged logging config ALLOC_EVENT_ALLOC in_ out size s = Done (tt, s') ∧
    bindAlloc_plain logging config ALLOC_EVENT_ALLOC in_ out size s = Done (tt, s'') ∧
    frac_inv config s' d w (<[p:=(out, out + size)]> L) ∧ L !! p = None ∧ current s' = current s'' ∧
    ∃ evs, ftrace s'' = ftrace s ++ evs ∧
      ftrace s' = ftrace s ++ LOG_ALLOC logging ALLOC_EVENT_ALLOC in_ out size ++ evs.
Proof.
  intros HI Ht Hfits Hsh Hfit.
  destruct (logged_ok logging config s d w L in_ out size sh HI Ht Hfits Hsh Hfit)
    as (p & s' & E & HI' & HL & _ & _ & Hc & _ & Htr).
  eexists p, s', _. split; [exact E|]. split; [by apply plain_ok|]. split; [done|]. split; [done|].
  split; [done|]. by eexists.
Qed.

Lemma frac_logged_witness :
  ∃ p s', @bindAlloc_logged bump_malloc true FracExample.config ALLOC_EVENT_ALLOC 0 Example.start Example.size
            FracExample.state0 = Done (tt, s') ∧
    frac_inv FracExample.config s' 1 Example.win (<[p:=(Example.start, Example.start + Example.size)]> ∅).
Proof.
  destruct (@frac_logged bump_malloc bump_malloc_ok true FracExample.config FracExample.state0 1 Example.win ∅ 0
    Example.start Example.size (Split 786432) FracExample.frac_state0_inv) as (p & s' & _ & E & _ & HI & _);
    [vm_compute; discriminate|exact FracExample.state0_fits|reflexivity|split; [lia|reflexivity]|].
  exists p, s'. split; [exact E|exact HI].
Defined.

(** Freeing a region the index resolves leaves the marks of all others right. *)
Theorem frac_free `{PluginMallocOk} logging config s d w L in_ p a e :
  frac_inv config s d w L → getRegion in_ (findex s) = Done (p, findex s) → L !! p = Some (a, e) →
  ∃ s', bindAlloc_logged logging config ALLOC_EVENT_FREE in_ 0 0 s = Done (tt, s') ∧
    frac_inv config s' d w (delete p L) ∧
    ftrace s' = ftrace s ++ LOG_ALLOC logging ALLOC_EVENT_FREE in_ 0 0.
Proof. apply logged_free_ok. Qed.

Lemma frac_free_witness :
  ∃ s p s', @bindAlloc_logged bump_malloc true FracExample.config ALLOC_EVENT_ALLOC 0 Example.start Example.size
              FracExample.state0 = Done (tt, s) ∧
    @bindAlloc_logged bump_malloc true FracExample.config ALLOC_EVENT_FREE Example.start 0 0 s = Done (tt, s') ∧
    frac_inv FracExample.config s' 1 Example.win (delete p (<[p:=(Example.start, Example.start + Example.size)]> ∅)).
Proof.
  destruct FracExample.run1 as (s & p & E & HI & Hg).
  destruct (FracExample.resolve s p Example.start HI Hg) as [_ Eg]; [reflexivity|vm_compute; split; [discriminate|reflexivity]|reflexivity|].
  destruct (@frac_free bump_malloc bump_malloc_ok true FracExample.config s 1 Example.win _ Example.start p
    _ _ HI Eg (lookup_insert_eq _ _ _)) as (s' & E' & HI' & _).
  exists s, p, s'. split; [exact E|]. split; [exact E'|exact HI'].
Defined.

(** A sample is reported as a hit exactly when the policy in force at its
    address is the one of fast memory: for an address the index resolves, the
    flags logged are those of the memory the address is bound to, and an address
    it does not resolve is logged as untracked. *)
Theorem frac_sample logging config s d w L addr :
  frac_inv config s d w L → window d (slot_of (globals (findex s)) addr) = w →
  ∃ p s', getRegion addr (findex s) = Done (p, findex s) ∧
    handleSample logging addr s = Done (tt, s') ∧ findex s' = findex s ∧
    (p = 0 → ftrace s' = ftrace s ++ LOG_SAMPLE logging addr 0 0) ∧
    (p ≠ 0 → ∃ l, policy_at (ftrace s) addr = mask_of config l ∧
       ftrace s' = ftrace s ++ LOG_SAMPLE logging addr 0 (flags_of l)).
Proof. apply frac_sample_ok. Qed.

Lemma frac_sample_witness :
  ∃ s s' l, @bindAlloc_logged bump_malloc true FracExample.config ALLOC_EVENT_ALLOC 0 Example.start Example.size
              FracExample.state0 = Done (tt, s) ∧
    handleSample true (Example.start + 0x90000) s = Done (tt, s') ∧
    policy_at (ftrace s) (Example.start + 0x90000) = mask_of FracExample.config l ∧
    ftrace s' = ftrace s ++ [EvSample (Example.start + 0x90000) 0 (flags_of l)].
Proof.
  destruct FracExample.run1 as (s & p & E & HI & Hg).
  destruct (FracExample.resolve s p (Example.start + 0x90000) HI Hg) as [Hw Eg];
    [reflexivity|vm_compute; split; [discriminate|reflexivity]|reflexivity|].
  destruct (frac_sample true FracExample.config s 1 Example.win _ (Example.start + 0x90000) HI Hw)
    as (q & s' & Eq & Es & _ & _ & Hp).
  assert (q = p) as -> by congruence.
  destruct (ii_root (fi_index _ _ _ _ _ HI)) as (nl & _ & HT).
  destruct (ro_each (ti_regions HT) _ _ _ (lookup_insert_eq _ _ _)) as (Hp0 & _ & _).
  destruct (Hp Hp0) as (l & H1 & H2). exists s, s', l. split; [exact E|]. split; [exact Es|]. split; [exact H1|exact H2].
Defined.
