(* ===== verification/Counters.v ===== *)
(** * The counters of [plugins/counters.c] and their sums, [plugins/print-counters.c]

    The counting backend of the tracking interface: every logging call adds one
    to 64-bit counters that live in a shared file, and [print-counters] adds up
    the files of several processes. *)
From stdpp Require Import base list gmap numbers.
From S2P Require Import Prelude Config Structures Migration.

Record ShamblesCounters := mkCounters {
  allocs : Z;
  frees : Z;
  reallocs : Z;
  hits : Z;
  misses : Z;
  migrations : list Z;          (* four, indexed by [Direction] *)
  migrationBytes : list Z;
  small : Z
}.

(** A new page of the file. *)
Definition zero_page : ShamblesCounters := mkCounters 0 0 0 0 0 [0; 0; 0; 0] [0; 0; 0; 0] 0.

(** [loggerInit], given what [open], [posix_fallocate] and [mmap] return. *)
Definition loggerInit (fd fallocated : Z) (mapped : bool) : outcome ShamblesCounters :=
  if fd <? 0 then Fault Aborted else
  if negb (fallocated =? 0) then Fault Aborted else
  if negb mapped then Fault Aborted else Done zero_page.

Definition dir_index (dir : Direction) : nat :=
  match dir with INITFAST => 0 | INITSLOW => 1 | SLOW2FAST => 2 | FAST2SLOW => 3 end.

(** [__atomic_fetch_add(&x, 1, ...)] on [uint64_t]. *)
Definition bump (x : Z) : Z := u64 (x + 1).

Definition logSample (addr code flags : Z) (c : ShamblesCounters) : ShamblesCounters :=
  if Z.land flags LOG_TRACKED =? 0 then
    mkCounters (allocs c) (frees c) (reallocs c) (hits c) (misses c) (migrations c) (migrationBytes c) (bump (small c))
  else if Z.land flags LOG_HIT =? 0 then
    mkCounters (allocs c) (frees c) (reallocs c) (hits c) (bump (misses c)) (migrations c) (migrationBytes c) (small c)
  else
    mkCounters (allocs c) (frees c) (reallocs c) (bump (hits c)) (misses c) (migrations c) (migrationBytes c) (small c).

Definition logAlloc (type : AllocEventType) (in_ out size : Z) (c : ShamblesCounters) : ShamblesCounters :=
  match type with
  | ALLOC_EVENT_ALLOC =>
      mkCounters (bump (allocs c)) (frees c) (reallocs c) (hits c) (misses c) (migrations c) (migrationBytes c) (small c)
  | ALLOC_EVENT_FREE =>
      mkCounters (allocs c) (bump (frees c)) (reallocs c) (hits c) (misses c) (migrations c) (migrationBytes c) (small c)
  | _ =>
      mkCounters (allocs c) (frees c) (bump (reallocs c)) (hits c) (misses c) (migrations c) (migrationBytes c) (small c)
  end.

Definition logMigration (dir : Direction) (addr size : Z) (c : ShamblesCounters) : ShamblesCounters :=
  mkCounters (allocs c) (frees c) (reallocs c) (hits c) (misses c)
    (alter bump (dir_index dir) (migrations c)) (alter bump (dir_index dir) (migrationBytes c)) (small c).

(** The calls a trace makes to the backend. *)
Definition count_event (c : ShamblesCounters) (e : event) : ShamblesCounters :=
  match e with
  | EvMbind _ _ _ _ => c
  | EvAlloc type in_ out size => logAlloc type in_ out size c
  | EvSample addr code flags => logSample addr code flags c
  | EvMigration dir addr size => logMigration dir addr size c
  end.

Definition count_trace (t : list event) : ShamblesCounters := foldl count_event zero_page t.

(** The loop of [print-counters] over its arguments; the last assignment of the
    loop body, to the array [migrations], is not valid C and left out. *)
Definition accumulate (counters data : ShamblesCounters) : ShamblesCounters :=
  mkCounters (u64 (allocs counters + allocs data)) (u64 (frees counters + frees data))
    (u64 (reallocs counters + reallocs data)) (u64 (hits counters + hits data))
    (u64 (misses counters + misses data)) (migrations counters) (migrationBytes counters)
    (u64 (small counters + small data)).

Definition print_counters (files : list ShamblesCounters) : ShamblesCounters :=
  foldl accumulate zero_page files.

(** ** Counting *)

Definition is_alloc (e : event) : Prop := match e with EvAlloc ALLOC_EVENT_ALLOC _ _ _ => True | _ => False end.
Definition is_free (e : event) : Prop := match e with EvAlloc ALLOC_EVENT_FREE _ _ _ => True | _ => False end.
Definition is_realloc (e : event) : Prop :=
  match e with EvAlloc ALLOC_EVENT_REALLOC _ _ _ | EvAlloc ALLOC_EVENT_SIZE _ _ _ => True | _ => False end.
Definition is_hit (e : event) : Prop :=
  match e with EvSample _ _ f => Z.land f LOG_TRACKED ≠ 0 ∧ Z.land f LOG_HIT ≠ 0 | _ => False end.
Definition is_miss (e : event) : Prop :=
  match e with EvSample _ _ f => Z.land f LOG_TRACKED ≠ 0 ∧ Z.land f LOG_HIT = 0 | _ => False end.
Definition is_small (e : event) : Prop :=
  match e with EvSample _ _ f => Z.land f LOG_TRACKED = 0 | _ => False end.
Definition is_migration (dir : Direction) (e : event) : Prop :=
  match e with EvMigration dir' _ _ => dir' = dir | _ => False end.

#[export] Instance is_alloc_dec e : Decision (is_alloc e).
Proof. destruct e as [|[]| |]; simpl; apply _. Defined.
#[export] Instance is_free_dec e : Decision (is_free e).
Proof. destruct e as [|[]| |]; simpl; apply _. Defined.
#[export] Instance is_realloc_dec e : Decision (is_realloc e).
Proof. destruct e as [|[]| |]; simpl; apply _. Defined.
#[export] Instance is_hit_dec e : Decision (is_hit e).
Proof. destruct e; simpl; apply _. Defined.
#[export] Instance is_miss_dec e : Decision (is_miss e).
Proof. destruct e; simpl; apply _. Defined.
#[export] Instance is_small_dec e : Decision (is_small e).
Proof. destruct e; simpl; apply _. Defined.
#[export] Instance is_migration_dec dir e : Decision (is_migration dir e).
Proof. destruct e; simpl; apply _. Defined.

Definition count (P : event → Prop) `{∀ e, Decision (P e)} (t : list event) : Z :=
  Z.of_nat (length (filter P t)).

Section counting.
Context (P : event → Prop) `{∀ e, Decision (P e)}.

Lemma count_snoc t e : count P (t ++ [e]) = count P t + if decide (P e) then 1 else 0.
Proof.
  unfold count. rewrite list.filter_app, length_app, filter_cons. case_decide; simpl; lia.
Qed.

(** A counter that is bumped exactly on the events of [P] counts them. *)
Lemma counter_ok (f : ShamblesCounters → Z) :
  f zero_page = 0 →
  (∀ c e, f (count_event c e) = if decide (P e) then bump (f c) else f c) →
  ∀ t, f (count_trace t) = u64 (count P t).
Proof.
  intros H0 Hstep t. induction t as [|e t IH] using rev_ind; [exact H0|].
  unfold count_trace in *. rewrite foldl_app. simpl. rewrite Hstep, IH, count_snoc.
  case_decide; [|by rewrite Z.add_0_r]. unfold bump, u64. by rewrite Zplus_mod_idemp_l.
Qed.
End counting.

(** The solver for one event of [counter_ok]. *)
Ltac count_cases :=
  intros c e; destruct e as [|[]| |]; simpl; unfold logSample, LOG_TRACKED, LOG_HIT in *;
  repeat match goal with |- context [?a =? 0] => destruct (Z.eqb_spec a 0) end; simpl;
  repeat case_decide; simpl in *; unfold LOG_TRACKED, LOG_HIT in *; try tauto; try congruence.

Lemma migration_counter (f : ShamblesCounters → list Z) dir :
  f zero_page = [0; 0; 0; 0] →
  (∀ c e, f (count_event c e) =
     match e with EvMigration d _ _ => alter bump (dir_index d) (f c) | _ => f c end) →
  ∀ t, length (f (count_trace t)) = 4%nat ∧
       f (count_trace t) !! dir_index dir = Some (u64 (count (is_migration dir) t)).
Proof.
  intros H0 Hstep t. induction t as [|e t [IHl IH]] using rev_ind.
  { change (count_trace []) with zero_page. rewrite H0. by destruct dir. }
  unfold count_trace in *. rewrite foldl_app. simpl. rewrite Hstep, count_snoc.
  destruct e as [| | |d' a n]; simpl; try (by rewrite Z.add_0_r).
  rewrite length_alter. split; [done|]. destruct (decide (d' = dir)) as [->|Hne].
  - rewrite list_lookup_alter_eq, IH. simpl. unfold bump, u64. by rewrite Zplus_mod_idemp_l.
  - rewrite Z.add_0_r, list_lookup_alter_ne; [done|]. by destruct d', dir.
Qed.

(** The counting backend.  After any sequence of logging calls each counter
    is the number, modulo 2^64, of the events it is named after; [migrationBytes]
    too counts migrations, not bytes. *)
Theorem counters_count t :
  allocs (count_trace t) = u64 (count is_alloc t) ∧
  frees (count_trace t) = u64 (count is_free t) ∧
  reallocs (count_trace t) = u64 (count is_realloc t) ∧
  hits (count_trace t) = u64 (count is_hit t) ∧
  misses (count_trace t) = u64 (count is_miss t) ∧
  small (count_trace t) = u64 (count is_small t) ∧
  ∀ dir, migrations (count_trace t) !! dir_index dir = Some (u64 (count (is_migration dir) t)) ∧
         migrationBytes (count_trace t) !! dir_index dir = Some (u64 (count (is_migration dir) t)).
Proof.
  split; [apply (counter_ok is_alloc allocs); [done|count_cases]|].
  split; [apply (counter_ok is_free frees); [done|count_cases]|].
  split; [apply (counter_ok is_realloc reallocs); [done|count_cases]|].
  split; [apply (counter_ok is_hit hits); [done|count_cases]|].
  split; [apply (counter_ok is_miss misses); [done|count_cases]|].
  split; [apply (counter_ok is_small small); [done|count_cases]|].
  intros dir. split.
  - apply (migration_counter migrations dir); [done|count_cases].
  - apply (migration_counter migrationBytes dir); [done|count_cases].
Qed.

(** ** Sums over files *)

Lemma accumulate_field (f : ShamblesCounters → Z) files c :
  (∀ c d, f (accumulate c d) = u64 (f c + f d)) → f c = u64 (f c) →
  f (foldl accumulate c files) = u64 (f c + sum_by f files).
Proof.
  intros Hf. revert c. induction files as [|d files IH]; intros c Hc; simpl; [by rewrite Z.add_0_r|].
  rewrite IH; rewrite Hf; unfold u64 in *; [|by rewrite Zmod_mod]. rewrite Zplus_mod_idemp_l. f_equal. lia.
Qed.

(** [print-counters] prints, for every scalar counter, the sum over all the
    files it is given, modulo 2^64. *)
Theorem print_counters_sums files :
  allocs (print_counters files) = u64 (sum_by allocs files) ∧
  frees (print_counters files) = u64 (sum_by frees files) ∧
  reallocs (print_counters files) = u64 (sum_by reallocs files) ∧
  hits (print_counters files) = u64 (sum_by hits files) ∧
  misses (print_counters files) = u64 (sum_by misses files) ∧
  small (print_counters files) = u64 (sum_by small files).
Proof. unfold print_counters. repeat split; by rewrite accumulate_field. Qed.
