(* ===== verification/Logger.v ===== *)
(** * The event logs of [plugins/logger.c]

    Three logs with the same structure: a file that starts with a header record
    holding the number of events, followed by one fixed-size record per event.
    The file is written through a 2 MiB mapping that moves on when the write
    pointer reaches its end.  [PrintLog] reads the files back. *)
From stdpp Require Import base list gmap numbers.
From S2P Require Import Prelude Config Structures Migration.

Record timespec := mkTime { tv_sec : Z; tv_nsec : Z }.

Record AllocEvent := mkAllocEvent {
  ae_type : AllocEventType; ae_in : Z; ae_out : Z; ae_size : Z; ae_timestamp : timespec
}.
Record Sample := mkSample {
  sa_addr : Z;
  sa_code : option (list Z);    (* [None]: the bytes of the new file, not written *)
  sa_timestamp : timespec
}.
Record MigrationEvent := mkMigEvent {
  me_addr : Z; me_dir : Direction; me_size : Z; me_timestamp : timespec
}.

Definition sizeof_AllocEvent : Z := 128.
Definition sizeof_Sample : Z := 64.
Definition sizeof_MigrationEvent : Z := 64.

Definition MAP_BYTES : Z := 0x200000.

(** ** One log

    [lptr] is the write pointer, [lbase] the address of the current mapping,
    [loffset] its position in the file; [lfile] the records by file position and
    [lheader] the count stored in the header. *)

Record log (R : Type) := mkLog {
  lptr : Z;
  lbase : Z;
  loffset : Z;
  lcnt : Z;                     (* [int] *)
  lheader : Z;
  lfile : gmap Z R
}.
Arguments mkLog {R}.
Arguments lptr {R}.
Arguments lbase {R}.
Arguments loffset {R}.
Arguments lcnt {R}.
Arguments lheader {R}.
Arguments lfile {R}.

Section log.
Context {R : Type} (sizeof : Z).
(** The addresses [mmap] returns for the mapping at a file offset, [None] when
    the file cannot be extended or mapped.  2 MiB pages are mapped at multiples
    of 2 MiB. *)
Context (map_at : Z → option Z).

Definition log_init : outcome (log R) :=
  base ← map_at 0 ?? Aborted;
  Done (mkLog (base + sizeof) base 0 0 0 ∅).

(** [if(((uint64_t)ptr & 0x1fffff) == 0) ...] *)
Definition log_remap (l : log R) : outcome (log R) :=
  if Z.land (lptr l) (MAP_BYTES - 1) =? 0 then
    let offset := loffset l + MAP_BYTES in
    base ← map_at offset ?? Aborted;
    Done (mkLog base base offset (lcnt l) (lheader l) (lfile l))
  else Done l.

(** A store through [lptr], then [lptr++]. *)
Definition log_store (r : R) (l : log R) : outcome (log R) :=
  if (lptr l <? lbase l) || (lbase l + MAP_BYTES <? lptr l + sizeof) then Fault OutOfBounds else
  Done (mkLog (lptr l + sizeof) (lbase l) (loffset l) (lcnt l) (lheader l)
          (<[loffset l + (lptr l - lbase l) := r]> (lfile l))).

Definition log_count (l : log R) : log R :=
  mkLog (lptr l) (lbase l) (loffset l) (i32 (lcnt l + 1)) (i32 (lcnt l + 1)) (lfile l).

Definition log_append (r : R) (l : log R) : outcome (log R) :=
  l1 ← log_remap l; log_store r (log_count l1).

Fixpoint log_appends (rs : list R) (l : log R) : outcome (log R) :=
  match rs with
  | [] => Done l
  | r :: rs' => l' ← log_append r l; log_appends rs' l'
  end.
End log.

(** ** The three logs *)

Record logger := mkLogger {
  alloc_log : log AllocEvent;
  sample_log : log Sample;
  mig_log : log MigrationEvent
}.

Section logger.
Context (map_alloc map_sample map_mig : Z → option Z).

Definition logAllocInit : outcome (log AllocEvent) := log_init sizeof_AllocEvent map_alloc.
Definition logSampleInit : outcome (log Sample) := log_init sizeof_Sample map_sample.
Definition logMigInit : outcome (log MigrationEvent) := log_init sizeof_MigrationEvent map_mig.

Definition loggerInit : outcome logger :=
  a ← logAllocInit; s ← logSampleInit; m ← logMigInit; Done (mkLogger a s m).

(** [now] is what [clock_gettime] stores; [code] the bytes [code] points to. *)
Definition logSample (addr : Z) (code : option (list Z)) (flags : Z) (now : timespec) (g : logger) : outcome logger :=
  l ← log_append sizeof_Sample map_sample (mkSample addr (take 15 <$> code) now) (sample_log g);
  Done (mkLogger (alloc_log g) l (mig_log g)).

Definition logAlloc (type : AllocEventType) (in_ out size : Z) (now : timespec) (g : logger) : outcome logger :=
  l ← log_append sizeof_AllocEvent map_alloc (mkAllocEvent type in_ out size now) (alloc_log g);
  Done (mkLogger l (sample_log g) (mig_log g)).

Definition logMigration (dir : Direction) (addr size : Z) (now : timespec) (g : logger) : outcome logger :=
  l ← log_append sizeof_MigrationEvent map_mig (mkMigEvent addr dir size now) (mig_log g);
  Done (mkLogger (alloc_log g) (sample_log g) l).
End logger.

(** ** Reading a file back

    [print-log] maps the whole file, takes the count from the header and reads
    the records that follow it. *)

Definition read_log {R} (sizeof : Z) (l : log R) : outcome (list R) :=
  foldr (λ i acc, r ← lfile l !! ((i + 1) * sizeof) ?? Uninitialised; rs ← acc; Done (r :: rs))
    (Done []) (seqZ 0 (lheader l)).

(** ** The invariant of a log *)

Section facts.
Context {R : Type} (sizeof n : Z) (Hn : 2 ≤ n) (Hsz : n * sizeof = MAP_BYTES).
Context (map_at : Z → option Z).
Context (Hmap : ∀ o, ∃ b, map_at o = Some b ∧ b `mod` MAP_BYTES = 0).

Record log_inv (l : log R) (rs : list R) : Prop := {
  lo_base : lbase l `mod` MAP_BYTES = 0;
  lo_offset : loffset l `mod` MAP_BYTES = 0;
  lo_pos : loffset l + (lptr l - lbase l) = (Z.of_nat (length rs) + 1) * sizeof;
  lo_in : 0 < lptr l - lbase l ≤ MAP_BYTES;
  lo_cnt : lcnt l = Z.of_nat (length rs);
  lo_header : lheader l = Z.of_nat (length rs);
  lo_file : ∀ i r, rs !! i = Some r → lfile l !! ((Z.of_nat i + 1) * sizeof) = Some r
}.

Lemma sizeof_pos : 0 < sizeof.
Proof. unfold MAP_BYTES in Hsz. nia. Qed.

Lemma aligned_test p : p `mod` MAP_BYTES = Z.land p (MAP_BYTES - 1).
Proof. change (MAP_BYTES - 1) with (2 ^ 21 - 1). by rewrite land_low. Qed.

Lemma log_init_ok : ∃ l, log_init sizeof map_at = Done l ∧ log_inv l [].
Proof.
  destruct (Hmap 0) as (b & E & Hb). pose proof sizeof_pos. unfold log_init. rewrite E.
  eexists. split; [reflexivity|]. split; simpl; try done; try lia. nia.
Qed.

Lemma log_append_ok l rs r :
  log_inv l rs → Z.of_nat (length rs) + 1 < 2 ^ 31 →
  ∃ l', log_append sizeof map_at r l = Done l' ∧ log_inv l' (rs ++ [r]).
Proof.
  intros HI Hlen. pose proof sizeof_pos as Hpos. pose proof (lo_in _ _ HI) as Hin.
  pose proof (lo_pos _ _ HI) as Hp. pose proof (lo_base _ _ HI) as Hb.
  (* the record to be written fits in the mapping after the test for its end *)
  assert (∃ l1, log_remap map_at l = Done l1 ∧ lcnt l1 = lcnt l ∧ lfile l1 = lfile l ∧
    lbase l1 `mod` MAP_BYTES = 0 ∧ loffset l1 `mod` MAP_BYTES = 0 ∧
    loffset l1 + (lptr l1 - lbase l1) = (Z.of_nat (length rs) + 1) * sizeof ∧
    0 ≤ lptr l1 - lbase l1 < MAP_BYTES) as (l1 & E1 & Hc1 & Hf1 & Hb1 & Ho1 & Hp1 & Hi1).
  { unfold log_remap. rewrite <- aligned_test.
    destruct (Z.eqb_spec (lptr l `mod` MAP_BYTES) 0) as [Hm|Hm].
    - destruct (Hmap (loffset l + MAP_BYTES)) as (b & -> & Hbm). eexists. split; [reflexivity|]. simpl.
      repeat (split; [done|]). split.
      { rewrite Z.add_mod, (lo_offset _ _ HI) by done. done. }
      assert (lptr l - lbase l = MAP_BYTES); [|unfold MAP_BYTES in *; lia].
      apply Z.mod_divide in Hm as [k Hk]; [|done]. apply Z.mod_divide in Hb as [j Hj]; [|done].
      unfold MAP_BYTES in *. nia.
    - exists l. split; [done|]. do 2 (split; [done|]). split; [done|]. split; [apply (lo_offset _ _ HI)|].
      split; [done|]. split; [lia|]. destruct (decide (lptr l - lbase l = MAP_BYTES)) as [He|]; [|lia].
      exfalso. apply Hm. replace (lptr l) with (lbase l + 1 * MAP_BYTES) by lia. by rewrite Z.mod_add. }
  assert (lptr l1 - lbase l1 + sizeof ≤ MAP_BYTES) as Hfit.
  { apply Z.mod_divide in Ho1 as [k Hk]; [|done]. rewrite <- Hsz in Hk, Hi1 |- *.
    assert (lptr l1 - lbase l1 = (Z.of_nat (length rs) + 1 - k * n) * sizeof) as Hq by nia.
    rewrite Hq in Hi1 |- *. assert (Z.of_nat (length rs) + 1 - k * n < n) by nia. nia. }
  unfold log_append, mbind, outcome_bind. rewrite E1. unfold log_store, log_count. simpl.
  rewrite (proj2 (Z.ltb_ge _ _)), (proj2 (Z.ltb_ge _ _)) by lia. simpl.
  rewrite Hc1, (lo_cnt _ _ HI), i32_small by lia.
  eexists. split; [reflexivity|]. split; simpl; rewrite ?length_app; simpl; try done; try lia.
  intros i r' Hi. rewrite Hp1, Hf1. destruct (decide (i = length rs)) as [->|Hne].
  - rewrite list_lookup_middle in Hi by done. injection Hi as <-. apply lookup_insert_eq.
  - assert (i < length rs)%nat.
    { apply lookup_lt_Some in Hi. rewrite length_app in Hi. simpl in Hi. lia. }
    rewrite lookup_app_l in Hi by done. rewrite lookup_insert_ne by nia. by apply (lo_file _ _ HI).
Qed.

Lemma log_appends_ok rs l rs0 :
  log_inv l rs0 → Z.of_nat (length rs0 + length rs) < 2 ^ 31 →
  ∃ l', log_appends sizeof map_at rs l = Done l' ∧ log_inv l' (rs0 ++ rs).
Proof.
  revert l rs0. induction rs as [|r rs IH]; intros l rs0 HI Hlen; simpl in *.
  { exists l. by rewrite app_nil_r. }
  destruct (log_append_ok l rs0 r HI) as (l1 & E1 & HI1); [lia|].
  destruct (IH l1 (rs0 ++ [r]) HI1) as (l2 & E2 & HI2); [rewrite length_app; simpl; lia|].
  exists l2. rewrite <- app_assoc in HI2. split; [|done]. unfold mbind, outcome_bind. by rewrite E1.
Qed.

Lemma read_log_ok l rs : log_inv l rs → read_log sizeof l = Done rs.
Proof.
  intros HI. unfold read_log. rewrite (lo_header _ _ HI).
  assert (∀ rest i, (∀ j r, rest !! j = Some r → lfile l !! ((i + Z.of_nat j + 1) * sizeof) = Some r) →
    foldr (λ i acc, r ← lfile l !! ((i + 1) * sizeof) ?? Uninitialised; rs ← acc; Done (r :: rs))
      (Done []) (seqZ i (Z.of_nat (length rest))) = Done rest) as Hgen.
  { induction rest as [|r rest IH]; intros i Hr; [done|].
    replace (Z.of_nat (length (r :: rest))) with (Z.succ (Z.of_nat (length rest))) by (simpl; lia).
    rewrite seqZ_cons by lia. simpl. rewrite Z.pred_succ.
    pose proof (Hr 0%nat r eq_refl) as H0. rewrite Z.add_0_r in H0. rewrite H0. simpl.
    rewrite IH; [done|]. intros j r' Hj. rewrite <- (Hr (S j) r' Hj). f_equal. lia. }
  apply Hgen. intros j r Hj. rewrite <- (lo_file _ _ HI j r Hj). f_equal.
Qed.
End facts.

(** C40: writing and reading a log is the identity.  Whatever addresses the
    mappings get (as long as they are 2 MiB aligned and [mmap] succeeds), the
    records appended one by one to a new log, fewer than 2^31 of them, are the
    records the reader finds, in order: no mapping is left with a record in two
    halves and none is skipped when the file grows. *)
Theorem log_roundtrip {R} sizeof n map_at (rs : list R) :
  2 ≤ n → n * sizeof = MAP_BYTES →
  (∀ o, ∃ b, map_at o = Some b ∧ b `mod` MAP_BYTES = 0) →
  Z.of_nat (length rs) < 2 ^ 31 →
  ∃ l0 l, log_init sizeof map_at = Done l0 ∧ log_appends sizeof map_at rs l0 = Done l ∧
    lheader l = Z.of_nat (length rs) ∧ read_log sizeof l = Done rs.
Proof.
  intros Hn Hsz Hmap Hlen. destruct (log_init_ok (R:=R) sizeof n Hn Hsz map_at Hmap) as (l0 & E0 & HI0).
  destruct (log_appends_ok sizeof n Hn Hsz map_at Hmap rs l0 [] HI0) as (l & E & HI); [done|].
  exists l0, l. split; [done|]. split; [done|]. split; [apply HI|]. by apply (read_log_ok sizeof).
Qed.

(** Mappings placed one after the other. *)
Definition consecutive_maps (o : Z) : option Z := Some (0x40000000 + (o - o `mod` MAP_BYTES)).
Definition two_samples : list Sample := [mkSample 16 None (mkTime 1 2); mkSample 32 None (mkTime 1 3)].

Lemma log_roundtrip_witness :
  ∃ l0 l, log_init sizeof_Sample consecutive_maps = Done l0 ∧
    log_appends sizeof_Sample consecutive_maps two_samples l0 = Done l ∧
    lheader l = 2 ∧ read_log sizeof_Sample l = Done two_samples.
Proof.
  apply (log_roundtrip sizeof_Sample 0x8000 consecutive_maps two_samples); [lia|reflexivity| |reflexivity].
  intros o. exists (0x40000000 + (o - o `mod` MAP_BYTES)). split; [reflexivity|].
  rewrite (Z.mod_eq o) by done. replace (o - (o - MAP_BYTES * (o / MAP_BYTES))) with (o / MAP_BYTES * MAP_BYTES) by lia.
  rewrite Z.mod_add by done. reflexivity.
Defined.
