(* ===== verification/PrintLog.v ===== *)
(** * Merging the logs, [plugins/print-log.c]

    [print-log] reads the three logs of a process and prints all events in the
    order of their timestamps, relative to the first one. *)
From stdpp Require Import base list gmap numbers sorting.
From S2P Require Import Prelude CLib Config Structures Migration Logger.

Definition BILLION : Z := 1000000000.

(** [a.tv_sec < b.tv_sec || (a.tv_sec == b.tv_sec && a.tv_nsec < b.tv_nsec)], the
    test the program repeats. *)
Definition earlier (a b : timespec) : bool :=
  (tv_sec a <? tv_sec b) || ((tv_sec a =? tv_sec b) && (tv_nsec a <? tv_nsec b)).

(** What is printed: the time of [printTime] and the event. *)
Inductive line :=
| OnAlloc (e : AllocEvent)
| OnSample (e : Sample)
| OnMigration (e : MigrationEvent).

Definition stamp (l : line) : timespec :=
  match l with
  | OnAlloc e => ae_timestamp e
  | OnSample e => sa_timestamp e
  | OnMigration e => me_timestamp e
  end.

(** [printTime]: the seconds and nanoseconds it prints. *)
Definition printTime (start t : timespec) : Z * Z :=
  let t' := if tv_nsec t <? tv_nsec start then mkTime (tv_sec t - 1) (tv_nsec t + BILLION) else t in
  (tv_sec t' - tv_sec start, tv_nsec t' - tv_nsec start).

(** [start] before any event is considered: [{LONG_MAX, LONG_MAX}]. *)
Definition start0 : timespec := mkTime LONG_MAX LONG_MAX.

Definition earliest (start : timespec) (first : option timespec) : timespec :=
  match first with
  | Some t => if earlier t start then t else start
  | None => start
  end.

Definition start_time (allocs : list AllocEvent) (samples : list Sample) (migs : list MigrationEvent) : timespec :=
  earliest (earliest (earliest start0 (ae_timestamp <$> head allocs)) (sa_timestamp <$> head samples))
    (me_timestamp <$> head migs).

(** The body of the main loop: the next line and the remaining events, [None]
    when the program returns. *)
Definition merge_step (allocs : list AllocEvent) (samples : list Sample) (migs : list MigrationEvent)
    : option (line * (list AllocEvent * list Sample * list MigrationEvent)) :=
  match allocs with
  | a :: allocs' =>
      match samples with
      | s :: samples' =>
          if earlier (sa_timestamp s) (ae_timestamp a) then
            match migs with
            | m :: migs' =>
                if earlier (me_timestamp m) (sa_timestamp s)
                then Some (OnMigration m, (allocs, samples, migs'))
                else Some (OnSample s, (allocs, samples', migs))
            | [] => Some (OnSample s, (allocs, samples', migs))
            end
          else
            match migs with
            | m :: migs' =>
                if earlier (me_timestamp m) (ae_timestamp a)
                then Some (OnMigration m, (allocs, samples, migs'))
                else Some (OnAlloc a, (allocs', samples, migs))
            | [] => Some (OnAlloc a, (allocs', samples, migs))
            end
      | [] =>
          match migs with
          | m :: migs' =>
              if earlier (me_timestamp m) (ae_timestamp a)
              then Some (OnMigration m, (allocs, samples, migs'))
              else Some (OnAlloc a, (allocs', samples, migs))
          | [] => Some (OnAlloc a, (allocs', samples, migs))
          end
      end
  | [] =>
      match samples with
      | s :: samples' =>
          match migs with
          | m :: migs' =>
              if earlier (me_timestamp m) (sa_timestamp s)
              then Some (OnMigration m, (allocs, samples, migs'))
              else Some (OnSample s, (allocs, samples', migs))
          | [] => Some (OnSample s, (allocs, samples', migs))
          end
      | [] =>
          match migs with
          | m :: migs' => Some (OnMigration m, (allocs, samples, migs'))
          | [] => None
          end
      end
  end.

Fixpoint merge (fuel : nat) (allocs : list AllocEvent) (samples : list Sample) (migs : list MigrationEvent)
    : outcome (list line) :=
  match merge_step allocs samples migs with
  | None => Done []
  | Some (l, (allocs', samples', migs')) =>
      match fuel with
      | O => Fault Diverges
      | S fuel' => ls ← merge fuel' allocs' samples' migs'; Done (l :: ls)
      end
  end.

(** The main loop with one turn per event. *)
Definition print_log (allocs : list AllocEvent) (samples : list Sample) (migs : list MigrationEvent)
    : outcome (timespec * list line) :=
  ls ← merge (length allocs + length samples + length migs) allocs samples migs;
  Done (start_time allocs samples migs, ls).

(** ** Order on timestamps *)

Definition le_time (a b : timespec) : Prop := earlier b a = false.
Definition le_stamp (a b : line) : Prop := le_time (stamp a) (stamp b).

Lemma earlier_spec a b :
  earlier a b = true ↔ tv_sec a < tv_sec b ∨ (tv_sec a = tv_sec b ∧ tv_nsec a < tv_nsec b).
Proof. unfold earlier. rewrite orb_true_iff, andb_true_iff, !Z.ltb_lt, Z.eqb_eq. tauto. Qed.

Lemma le_time_spec a b :
  le_time a b ↔ tv_sec a < tv_sec b ∨ (tv_sec a = tv_sec b ∧ tv_nsec a ≤ tv_nsec b).
Proof. unfold le_time. rewrite <- not_true_iff_false, earlier_spec. lia. Qed.

Lemma earlier_le a b : earlier a b = true → le_time a b.
Proof. rewrite earlier_spec, le_time_spec. lia. Qed.

#[export] Instance le_time_preorder : PreOrder le_time.
Proof.
  split; [intros a; apply le_time_spec; lia|].
  intros a b c. rewrite !le_time_spec. lia.
Qed.

(** ** The merge *)

Definition lines (allocs : list AllocEvent) (samples : list Sample) (migs : list MigrationEvent) : list line :=
  (OnAlloc <$> allocs) ++ (OnSample <$> samples) ++ (OnMigration <$> migs).

Definition ordered (allocs : list AllocEvent) (samples : list Sample) (migs : list MigrationEvent) : Prop :=
  StronglySorted le_time (ae_timestamp <$> allocs) ∧ StronglySorted le_time (sa_timestamp <$> samples) ∧
  StronglySorted le_time (me_timestamp <$> migs).

(** The first of a list of timestamps, if any, is not before [t]. *)
Definition head_ok (t : timespec) (ts : list timespec) : Prop :=
  match ts with [] => True | x :: _ => le_time t x end.

Lemma head_ok_all t ts : head_ok t ts → StronglySorted le_time ts → Forall (le_time t) ts.
Proof.
  intros Ht Hs. destruct Hs as [|x ts Hs Hx]; [done|]. constructor; [done|].
  eapply Forall_impl; [exact Hx|]. intros y Hy. simpl in Ht. by etrans.
Qed.

(** What one turn of the loop is to achieve when it takes [l]. *)
Definition takes (l : line) (allocs : list AllocEvent) (samples : list Sample) (migs : list MigrationEvent)
    (allocs' : list AllocEvent) (samples' : list Sample) (migs' : list MigrationEvent) : Prop :=
  l :: lines allocs' samples' migs' ≡ₚ lines allocs samples migs ∧
  (length allocs + length samples + length migs = S (length allocs' + length samples' + length migs'))%nat ∧
  (ordered allocs samples migs → ordered allocs' samples' migs' ∧
     Forall (le_stamp l) (lines allocs' samples' migs')).

Lemma lines_below l allocs samples migs :
  Forall (le_time (stamp l)) (ae_timestamp <$> allocs) → Forall (le_time (stamp l)) (sa_timestamp <$> samples) →
  Forall (le_time (stamp l)) (me_timestamp <$> migs) → Forall (le_stamp l) (lines allocs samples migs).
Proof.
  rewrite !Forall_fmap. intros Ha Hs Hm. unfold lines. rewrite !Forall_app, !Forall_fmap. done.
Qed.

Lemma take_alloc a allocs samples migs :
  head_ok (ae_timestamp a) (sa_timestamp <$> samples) → head_ok (ae_timestamp a) (me_timestamp <$> migs) →
  takes (OnAlloc a) (a :: allocs) samples migs allocs samples migs.
Proof.
  intros Hs Hm. split; [done|]. split; [simpl; lia|].
  intros (Oa & Os & Om). simpl in Oa. apply StronglySorted_inv in Oa as [Oa Ha].
  split; [done|]. apply lines_below; [done|by apply head_ok_all..].
Qed.

Lemma take_sample s allocs samples migs :
  head_ok (sa_timestamp s) (ae_timestamp <$> allocs) → head_ok (sa_timestamp s) (me_timestamp <$> migs) →
  takes (OnSample s) allocs (s :: samples) migs allocs samples migs.
Proof.
  intros Ha Hm. split; [unfold lines; simpl; by rewrite <- Permutation_middle|]. split; [simpl; lia|].
  intros (Oa & Os & Om). simpl in Os. apply StronglySorted_inv in Os as [Os Hs].
  split; [done|]. apply lines_below; [by apply head_ok_all|done|by apply head_ok_all].
Qed.

Lemma take_mig m allocs samples migs :
  head_ok (me_timestamp m) (ae_timestamp <$> allocs) → head_ok (me_timestamp m) (sa_timestamp <$> samples) →
  takes (OnMigration m) allocs samples (m :: migs) allocs samples migs.
Proof.
  intros Ha Hs. split.
  { unfold lines. simpl. rewrite !app_assoc. by rewrite <- Permutation_middle. }
  split; [simpl; lia|].
  intros (Oa & Os & Om). simpl in Om. apply StronglySorted_inv in Om as [Om Hm].
  split; [done|]. apply lines_below; [by apply head_ok_all..|done].
Qed.

(** Every turn takes away one event, and in ordered logs an earliest one. *)
Lemma merge_step_ok allocs samples migs :
  match merge_step allocs samples migs with
  | None => allocs = [] ∧ samples = [] ∧ migs = []
  | Some (l, (allocs', samples', migs')) => takes l allocs samples migs allocs' samples' migs'
  end.
Proof.
  unfold merge_step.
  destruct allocs as [|a allocs], samples as [|s samples], migs as [|m migs]; try done;
    repeat match goal with |- context [if earlier ?x ?y then _ else _] => destruct (earlier x y) eqn:? end;
    (apply take_alloc || apply take_sample || apply take_mig); simpl; try done;
    try (by apply earlier_le); (etrans; by apply earlier_le) || idtac.
  etrans; [by apply earlier_le|done].
Qed.

Lemma merge_ok fuel allocs samples migs :
  (length allocs + length samples + length migs ≤ fuel)%nat →
  ∃ ls, merge fuel allocs samples migs = Done ls ∧ ls ≡ₚ lines allocs samples migs ∧
    (ordered allocs samples migs → StronglySorted le_stamp ls).
Proof.
  revert allocs samples migs. induction fuel as [|fuel IH]; intros allocs samples migs Hlen;
    pose proof (merge_step_ok allocs samples migs) as Hstep; simpl;
    destruct (merge_step allocs samples migs) as [[l [[allocs' samples'] migs']]|].
  - destruct Hstep as (_ & Hl & _). lia.
  - destruct Hstep as (-> & -> & ->). exists []. split; [done|]. split; [done|]. constructor.
  - destruct Hstep as (Hp & Hl & Ho). destruct (IH allocs' samples' migs') as (ls & E & Hperm & Hs); [lia|].
    rewrite E. exists (l :: ls). split; [done|]. split; [by rewrite Hperm|].
    intros Hord. destruct (Ho Hord) as [Hord' Hall]. constructor; [auto|]. by rewrite Hperm.
  - destruct Hstep as (-> & -> & ->). exists []. split; [done|]. split; [done|]. constructor.
Qed.

(** [print-log] terminates after one turn per event and prints every event of
    the three logs exactly once; when each log is in the order of its timestamps
    (as a single clock makes them) so is the output. *)
Theorem print_log_merges allocs samples migs :
  ∃ ls, print_log allocs samples migs = Done (start_time allocs samples migs, ls) ∧
    ls ≡ₚ lines allocs samples migs ∧
    (ordered allocs samples migs → StronglySorted le_stamp ls).
Proof.
  destruct (merge_ok (length allocs + length samples + length migs) allocs samples migs)
    as (ls & E & Hp & Hs); [done|].
  exists ls. unfold print_log, mbind, outcome_bind. by rewrite E.
Qed.

(** ** The printed times *)

Definition nanos (t : timespec) : Z := tv_sec t * BILLION + tv_nsec t.

Definition clock_time (t : timespec) : Prop := 0 ≤ tv_sec t < LONG_MAX ∧ 0 ≤ tv_nsec t < BILLION.

Lemma earliest_le start first t :
  le_time start t ∨ first = Some t → le_time (earliest start first) t.
Proof.
  unfold earliest. destruct first as [x|]; [|by intros [|]].
  destruct (earlier x start) eqn:E; intros [H|H]; try done.
  - etrans; [by apply earlier_le|done].
  - by injection H as ->.
  - injection H as ->. exact E.
Qed.

Lemma start_time_le allocs samples migs l :
  ordered allocs samples migs → l ∈ lines allocs samples migs → le_time (start_time allocs samples migs) (stamp l).
Proof.
  intros (Oa & Os & Om) Hl. unfold lines in Hl. unfold start_time.
  assert (∀ (ts : list timespec) t, StronglySorted le_time ts → t ∈ ts → ∃ x, head ts = Some x ∧ le_time x t) as Hhd.
  { intros ts t Hs Ht. destruct Hs as [|x ts Hs Hx]; [set_solver|]. exists x. split; [done|].
    apply elem_of_cons in Ht as [->|Ht]; [done|]. rewrite Forall_forall in Hx. by apply Hx. }
  rewrite !elem_of_app, !list_elem_of_fmap in Hl.
  destruct Hl as [(e & -> & He)|[(e & -> & He)|(e & -> & He)]]; simpl.
  - destruct (Hhd _ (ae_timestamp e) Oa) as (x & Ex & Hx); [by apply list_elem_of_fmap_2|].
    etrans; [|exact Hx]. apply earliest_le. left. apply earliest_le. left. apply earliest_le. right.
    by destruct allocs.
  - destruct (Hhd _ (sa_timestamp e) Os) as (x & Ex & Hx); [by apply list_elem_of_fmap_2|].
    etrans; [|exact Hx]. apply earliest_le. left. apply earliest_le. right. by destruct samples.
  - destruct (Hhd _ (me_timestamp e) Om) as (x & Ex & Hx); [by apply list_elem_of_fmap_2|].
    etrans; [|exact Hx]. apply earliest_le. right. by destruct migs.
Qed.

(** The printed time of an event is its distance from the first event: for
    logs in timestamp order whose timestamps are clock times, the seconds and
    nanoseconds printed are not negative, the nanoseconds are below a second, and
    together they are the difference to the start time. *)
Theorem print_time_relative allocs samples migs l :
  ordered allocs samples migs → l ∈ lines allocs samples migs →
  Forall (λ l, clock_time (stamp l)) (lines allocs samples migs) →
  let start := start_time allocs samples migs in
  let '(sec, nsec) := printTime start (stamp l) in
  0 ≤ sec ∧ 0 ≤ nsec < BILLION ∧ sec * BILLION + nsec = nanos (stamp l) - nanos start.
Proof.
  intros Hord Hl Hclk start.
  pose proof (start_time_le _ _ _ _ Hord Hl) as Hle. fold start in Hle.
  assert (clock_time (stamp l)) as [Hs1 Hs2] by (rewrite Forall_forall in Hclk; by apply Hclk).
  assert (0 ≤ tv_nsec start < BILLION) as Hn.
  { assert (tv_sec start < LONG_MAX) as Hlt by (apply le_time_spec in Hle; lia).
    assert (∀ s f, (s = start0 ∨ 0 ≤ tv_nsec s < BILLION) → (∀ t, f = Some t → 0 ≤ tv_nsec t < BILLION) →
      earliest s f = start0 ∨ 0 ≤ tv_nsec (earliest s f) < BILLION) as Hstep.
    { intros s f Hs Hf. unfold earliest. destruct f as [t|]; [|done].
      destruct (earlier t s); [right; by apply Hf|done]. }
    assert (start = start0 ∨ 0 ≤ tv_nsec start < BILLION) as [E|]; [|by rewrite E in Hlt|done].
    unfold lines in Hclk. rewrite !Forall_app, !Forall_fmap in Hclk. destruct Hclk as (Ca & Cs & Cm).
    apply Hstep; [apply Hstep; [apply Hstep; [by left|]|]|].
    - intros t Ht. destruct Ca as [|? ? [_ Hc] _]; [done|]. by injection Ht as <-.
    - intros t Ht. destruct Cs as [|? ? [_ Hc] _]; [done|]. by injection Ht as <-.
    - intros t Ht. destruct Cm as [|? ? [_ Hc] _]; [done|]. by injection Ht as <-. }
  apply le_time_spec in Hle. unfold printTime, nanos, BILLION in *.
  destruct (Z.ltb_spec (tv_nsec (stamp l)) (tv_nsec start)); simpl; lia.
Qed.

Definition sample_at (s n : Z) : Sample := mkSample 16 None (mkTime s n).
Definition mig_at (s n : Z) : MigrationEvent := mkMigEvent 16 SLOW2FAST 4096 (mkTime s n).

Lemma print_time_relative_witness :
  printTime (start_time [] [sample_at 5 10; sample_at 7 2] [mig_at 6 3]) (mkTime 7 2) = (1, 999999992) ∧
  0 ≤ 1 ∧ 0 ≤ 999999992 < BILLION.
Proof.
  pose proof (print_time_relative [] [sample_at 5 10; sample_at 7 2] [mig_at 6 3] (OnSample (sample_at 7 2))) as H.
  assert (ordered [] [sample_at 5 10; sample_at 7 2] [mig_at 6 3]) as Hord
    by (repeat split; repeat constructor).
  assert (OnSample (sample_at 7 2) ∈ lines [] [sample_at 5 10; sample_at 7 2] [mig_at 6 3]) as Hin
    by (apply elem_of_cons; right; apply elem_of_cons; left; reflexivity).
  assert (Forall (λ l, clock_time (stamp l)) (lines [] [sample_at 5 10; sample_at 7 2] [mig_at 6 3])) as Hclk
    by (repeat constructor; simpl; unfold LONG_MAX, BILLION; lia).
  split; [reflexivity|]. destruct (H Hord Hin Hclk) as (H1 & H2 & _). split; [exact H1|exact H2].
Defined.
