(* ===== verification/Window.v ===== *)
(** * The sliding-window plugin, [plugins/window.c]

    Data and operations.  The plugin keeps the chunks of the last [windowSize]
    samples; a node's [count] is how often its chunk occurs among them, the fast
    and the slow list are kept in descending order of [count] and [tails] points
    at the last node of each count. *)
From stdpp Require Import base list gmap numbers strings.
From S2P Require Import Prelude CLib Config Structures CList Migration.

(** ** Data *)

Record ListNode := mkNode {
  node_chunk : ptr;
  node_loc : option MemLoc;     (* [None]: not initialised yet *)
  node_count : Z;
  node_next : ptr;
  node_prev : ptr
}.

Definition set_loc (l : MemLoc) (n : ListNode) : ListNode :=
  mkNode (node_chunk n) (Some l) (node_count n) (node_next n) (node_prev n).
Definition add_count (k : Z) (n : ListNode) : ListNode :=
  mkNode (node_chunk n) (node_loc n) (node_count n + k) (node_next n) (node_prev n).

#[export] Instance ListNode_linked : Linked ListNode := {
  lnext := node_next;
  lprev := node_prev;
  with_next p n := mkNode (node_chunk n) (node_loc n) (node_count n) p (node_prev n);
  with_prev p n := mkNode (node_chunk n) (node_loc n) (node_count n) (node_next n) p
}.

#[export] Instance ListNode_laws : LinkedLaws ListNode.
Proof. by split. Qed.

Definition sizeof_List : Z := 32.

Abbreviation wheap := (gmap ptr ListNode).

Record window_state := mkWindow {
  index : structs;
  nodes : wheap;
  fastList : ptr;
  slowList : ptr;
  freeFastChunks : Z;
  samples : list ptr;           (* [windowSize] chunk pointers *)
  tails : list ptr;             (* [windowSize + 1] node pointers *)
  currentLoc : Z;
  trace : list event
}.

Definition windowSize (s : window_state) : Z := Z.of_nat (length (samples s)).

Definition set_index (x : structs) (s : window_state) : window_state :=
  mkWindow x (nodes s) (fastList s) (slowList s) (freeFastChunks s) (samples s) (tails s) (currentLoc s) (trace s).
Definition set_nodes (x : wheap) (s : window_state) : window_state :=
  mkWindow (index s) x (fastList s) (slowList s) (freeFastChunks s) (samples s) (tails s) (currentLoc s) (trace s).
Definition set_fast (x : ptr) (s : window_state) : window_state :=
  mkWindow (index s) (nodes s) x (slowList s) (freeFastChunks s) (samples s) (tails s) (currentLoc s) (trace s).
Definition set_slow (x : ptr) (s : window_state) : window_state :=
  mkWindow (index s) (nodes s) (fastList s) x (freeFastChunks s) (samples s) (tails s) (currentLoc s) (trace s).
Definition set_free (x : Z) (s : window_state) : window_state :=
  mkWindow (index s) (nodes s) (fastList s) (slowList s) x (samples s) (tails s) (currentLoc s) (trace s).
Definition set_samples (x : list ptr) (s : window_state) : window_state :=
  mkWindow (index s) (nodes s) (fastList s) (slowList s) (freeFastChunks s) x (tails s) (currentLoc s) (trace s).
Definition set_tails (x : list ptr) (s : window_state) : window_state :=
  mkWindow (index s) (nodes s) (fastList s) (slowList s) (freeFastChunks s) (samples s) x (currentLoc s) (trace s).
Definition set_current (x : Z) (s : window_state) : window_state :=
  mkWindow (index s) (nodes s) (fastList s) (slowList s) (freeFastChunks s) (samples s) (tails s) x (trace s).
Definition set_trace (x : list event) (s : window_state) : window_state :=
  mkWindow (index s) (nodes s) (fastList s) (slowList s) (freeFastChunks s) (samples s) (tails s) (currentLoc s) x.

(** ** Access *)

Definition on_index {A} (m : M structs A) : M window_state A := zoom index set_index m.
Definition on_nodes {A} (m : M wheap A) : M window_state A := zoom nodes set_nodes m.
Definition emit (evs : list event) : M window_state unit := modify (λ s, set_trace (trace s ++ evs) s).

Definition at_fast (f : ptr → ptr → M wheap ptr) (node : ptr) : M window_state unit :=
  s ← get; q ← on_nodes (f (fastList s) node); modify (set_fast q).
Definition at_slow (f : ptr → ptr → M wheap ptr) (node : ptr) : M window_state unit :=
  s ← get; q ← on_nodes (f (slowList s) node); modify (set_slow q).

Definition node_at (p : ptr) : M window_state ListNode := on_nodes (rd p).
Definition loc_of (n : ListNode) : M window_state MemLoc := liftO (node_loc n ?? Uninitialised).

(** [tails[k]] and [tails[k] = p]. *)
Definition tail_at (k : Z) : M window_state ptr :=
  s ← get; if k <? 0 then throw OutOfBounds else liftO (tails s !! Z.to_nat k ?? OutOfBounds).
Definition set_tail (k : Z) (p : ptr) : M window_state unit :=
  tail_at k;; modify (λ s, set_tails (<[Z.to_nat k := p]> (tails s)) s).

(** [samples[currentLoc]] *)
Definition sample_at (k : Z) : M window_state ptr :=
  s ← get; if k <? 0 then throw OutOfBounds else liftO (samples s !! Z.to_nat k ?? OutOfBounds).

(** ** List operations of [window.c] besides [dq], [push] and [enq] *)

Definition insert_after (node after : ptr) : M wheap unit :=
  wr node (with_prev after);;
  a ← rd after;
  wr node (with_next (lnext a));;
  a' ← rd after;
  wr (lnext a') (with_prev node);;
  wr after (with_next node).

Definition move (node after : ptr) : M wheap unit :=
  if decide (node = after) then mret tt else
  n ← rd node;
  wr (lprev n) (with_next (lnext n));;
  n' ← rd node;
  wr (lnext n') (with_prev (lprev n'));;
  insert_after node after.

(** ** The allocation callback *)

Section callbacks.
Context `{PluginMalloc} (logging : bool) (config : ShamblesPluginConfig).

Definition init_nodes (block chunks : Z) (n : nat) : M window_state unit :=
  for_n n 0 (λ i,
    modify (λ s, set_nodes (<[(block, i) := mkNode (chunks, i) None 0 NULLp NULLp]> (nodes s)) s);;
    on_index (set_chunk_privData (chunks, i) (block, i))).

Definition place_fast1 (block chunks i : Z) : M window_state unit :=
  on_nodes (wr (block, i) (set_loc FAST));;
  at_fast enq (block, i);;
  c ← on_index (deref_chunk (chunks, i));
  emit (bindFastAlloc logging config c);;
  modify (λ s, set_free (i32 (freeFastChunks s - 1)) s).

Definition place_slow1 (block chunks i : Z) : M window_state unit :=
  on_nodes (wr (block, i) (set_loc SLOW));;
  at_slow enq (block, i);;
  c ← on_index (deref_chunk (chunks, i));
  emit (bindSlowAlloc logging config c).

Fixpoint place (block chunks : Z) (n : nat) (i : Z) : M window_state unit :=
  match n with
  | O => mret tt
  | S n' =>
      s ← get;
      if freeFastChunks s =? 0 then for_n n i (place_slow1 block chunks)
      else place_fast1 block chunks i;; place block chunks n' (i + 1)
  end.

Definition on_alloc (out size : Z) : M window_state unit :=
  if size <? sizeThresshold config then mret tt else
  p ← on_index (addRegion out size);
  region ← on_index (deref_region p);
  block ← on_index (plugin_malloc (region_nChunks region * sizeof_List));
  on_index (write_region p (mkRegion (region_start region) (region_nChunks region)
                              (region_chunks region) (Some block)));;
  if block =? 0 then throw Aborted else
  let n := Z.to_nat (region_nChunks region) in
  init_nodes block (region_chunks region) n;;
  place block (region_chunks region) n 0;;
  set_tail 0 (block, region_nChunks region - 1).

(** The body of the loop over the nodes of a freed region.  The condition
    [nodes[i].loc = SLOW] is an assignment, which is always true. *)
Definition release1 (node : ptr) : M window_state unit :=
  on_nodes (wr node (set_loc SLOW));;
  at_slow dq node;;
  n ← node_at node;
  t ← tail_at (node_count n);
  if decide (t = node) then
    pn ← node_at (node_prev n);
    set_tail (node_count n) (if node_count pn =? node_count n then node_prev n else NULLp)
  else mret tt.

(** The loop that forgets the samples of a freed region. *)
Definition forget1 (start bytes i : Z) : M window_state unit :=
  p ← sample_at i;
  if decide (p = NULLp) then mret tt else
  c ← on_index (deref_chunk p);
  if (start <=? chunk_start c) && (chunk_start c <=? u64 (start + bytes))
  then modify (λ s, set_samples (<[Z.to_nat i := NULLp]> (samples s)) s) else mret tt.

Definition free_nodes (block : Z) : M window_state unit :=
  modify (λ s, set_nodes (filter (λ kv, kv.1.1 ≠ block) (nodes s)) s);;
  on_index (plugin_free block).

Definition on_free (in_ : Z) : M window_state unit :=
  p ← on_index (getRegion in_);
  if p =? 0 then mret tt else
  region ← on_index (deref_region p);
  first ← on_index (deref_chunk (region_chunks region, 0));
  emit (unbind region first);;
  block ← liftO (region_privData region ?? Uninitialised);
  for_n (Z.to_nat (region_nChunks region)) 0 (λ i, release1 (block, i));;
  s ← get;
  for_n (length (samples s)) 0
    (forget1 (region_start region) (u64 (chunkSize config * region_nChunks region)));;
  on_index (deleteRegion p);;
  free_nodes block.

Definition allocCallback (type : AllocEventType) (in_ out size : Z) : M window_state unit :=
  emit (LOG_ALLOC logging type in_ out size);;
  match type with
  | ALLOC_EVENT_ALLOC => on_alloc out size
  | ALLOC_EVENT_REALLOC => mret tt
  | _ => on_free in_
  end.

(** ** Samples *)

(** [fastList->prev] *)
Definition last_fast : M window_state ptr :=
  s ← get; f ← node_at (fastList s); mret (node_prev f).

(** [node->loc == SLOW && fastList->prev->count == node->count] *)
Definition slow_like_last_fast (n : ListNode) : M window_state bool :=
  l ← loc_of n;
  match l with
  | FAST => mret false
  | SLOW => p ← last_fast; pn ← node_at p; mret (node_count pn =? node_count n)
  end.

(** The new [tails[node->count]] when [node], the last of its count, leaves. *)
Definition retire_tail (node : ptr) : M window_state unit :=
  n ← node_at node;
  let fallback :=
    b ← slow_like_last_fast n;
    if b : bool then p ← last_fast; set_tail (node_count n) p
    else set_tail (node_count n) NULLp in
  if decide (node_prev n = node) then fallback else
  pn ← node_at (node_prev n);
  if node_count pn =? node_count n then set_tail (node_count n) (node_prev n) else fallback.

(** Taking [node] out of its list and inserting it after [target]. *)
Definition move_after (node target : ptr) : M window_state unit :=
  s ← get;
  if decide (node = slowList s) then at_slow dq node;; on_nodes (insert_after node target)
  else if decide (node = fastList s) then at_fast dq node;; on_nodes (insert_after node target)
  else on_nodes (move node target).

(** The demotion of the oldest sample's chunk without a migration. *)
Definition demote_keep (node : ptr) : M window_state unit :=
  n ← node_at node;
  below ← tail_at (node_count n - 1);
  (if decide (below = NULLp) then
     t ← tail_at (node_count n);
     if decide (node = t) then retire_tail node else move_after node t
   else
     t ← tail_at (node_count n);
     (if decide (t = node) then retire_tail node else mret tt);;
     below' ← tail_at (node_count n - 1);
     move_after node below');;
  set_tail (node_count n - 1) node.

(** [if(tails[node->count] == node) ...] of the two migrations. *)
Definition retire_simple (node : ptr) : M window_state unit :=
  n ← node_at node;
  t ← tail_at (node_count n);
  if decide (t = node) then
    pn ← node_at (node_prev n);
    set_tail (node_count n) (if node_count pn =? node_count n then node_prev n else NULLp)
  else mret tt.

(** The demotion with a migration: the front of the slow list takes the place of
    the chunk of the oldest sample. *)
Definition demote_migrate (node : ptr) : M window_state unit :=
  s ← get;
  sn ← node_at (slowList s);
  sc ← on_index (deref_chunk (node_chunk sn));
  old ← sample_at (currentLoc s);
  oc ← on_index (deref_chunk old);
  emit (swap logging config sc oc);;
  let tmp := slowList s in
  at_slow dq tmp;;
  at_fast enq tmp;;
  on_nodes (wr tmp (set_loc FAST));;
  at_fast dq node;;
  on_nodes (wr node (set_loc SLOW));;
  retire_simple node;;
  n ← node_at node;
  below ← tail_at (node_count n - 1);
  (if decide (below = NULLp) then
     t ← tail_at (node_count n);
     tn ← node_at t;
     l ← loc_of tn;
     if decide (l = SLOW) then on_nodes (insert_after node t) else at_slow push node
   else
     bn ← node_at below;
     l ← loc_of bn;
     if decide (l = SLOW) then on_nodes (insert_after node below) else at_slow push node);;
  set_tail (node_count n - 1) node.

(** The demotion of the chunk whose sample leaves the window. *)
Definition demote (node : ptr) : M window_state unit :=
  n ← node_at node;
  if node_count n <=? 0 then throw NullDeref else
  l ← loc_of n;
  s ← get;
  keep ← (if decide (l = SLOW ∨ slowList s = NULLp) then mret true
          else sn ← node_at (slowList s); mret (node_count sn <? node_count n - 1));
  (if keep : bool then demote_keep node else demote_migrate node);;
  on_nodes (wr node (add_count (-1))).

(** [for(i = from; i < windowSize; i++) if(tails[i]) break;], then [tails[i]]. *)
Fixpoint scan_tails (fuel : nat) (i : Z) : M window_state Z :=
  match fuel with
  | O => mret i
  | S fuel' =>
      s ← get;
      if i <? windowSize s then
        t ← tail_at i;
        if decide (t = NULLp) then scan_tails fuel' (i + 1) else mret i
      else mret i
  end.

Definition next_tail (from : Z) : M window_state ptr :=
  s ← get;
  i ← scan_tails (length (samples s)) from;
  tail_at i.

Definition same_loc (p q : ptr) : M window_state bool :=
  pn ← node_at p; qn ← node_at q;
  l ← loc_of pn; l' ← loc_of qn;
  mret (bool_decide (l = l')).

(** The promotion of the sampled chunk without a migration. *)
Definition promote_keep (node : ptr) : M window_state unit :=
  n ← node_at node;
  above ← tail_at (node_count n + 1);
  (if decide (above = NULLp) then
     t ← tail_at (node_count n);
     (if decide (node = t) then
        if decide (node_prev n = node) then set_tail (node_count n) NULLp else
        pn ← node_at (node_prev n);
        set_tail (node_count n) (if node_count pn =? node_count n then node_prev n else NULLp)
      else mret tt);;
     up ← next_tail (node_count n + 2);
     if decide (up = NULLp) then at_fast dq node;; at_fast push node else
     b ← same_loc up node;
     if b : bool then on_nodes (move node up) else at_slow dq node;; at_slow push node
   else
     t ← tail_at (node_count n);
     (if decide (node = t) then
        pn ← node_at (node_prev n);
        set_tail (node_count n) (if node_count pn =? node_count n then node_prev n else NULLp)
      else mret tt);;
     up ← tail_at (node_count n + 1);
     b ← same_loc up node;
     if b : bool then on_nodes (move node up) else at_slow dq node;; at_slow push node);;
  set_tail (node_count n + 1) node.

(** The promotion with a migration: the sampled chunk takes the place of the
    last fast one. *)
Definition promote_migrate (chunk node : ptr) : M window_state unit :=
  tmp ← last_fast;
  c ← on_index (deref_chunk chunk);
  tn ← node_at tmp;
  tc ← on_index (deref_chunk (node_chunk tn));
  emit (swap logging config c tc);;
  at_fast dq tmp;;
  at_slow push tmp;;
  on_nodes (wr tmp (set_loc SLOW));;
  at_slow dq node;;
  on_nodes (wr node (set_loc FAST));;
  retire_simple node;;
  n ← node_at node;
  up ← next_tail (node_count n + 1);
  (if decide (up = NULLp) then at_fast push node else on_nodes (insert_after node up));;
  set_tail (node_count n + 1) node.

Definition promote (chunk node : ptr) : M window_state unit :=
  n ← node_at node;
  l ← loc_of n;
  keep ← (if decide (l = FAST) then mret true
          else p ← last_fast; pn ← node_at p; mret (node_count n <? node_count pn));
  (if keep : bool then promote_keep node else promote_migrate chunk node);;
  on_nodes (wr node (add_count 1)).

(** [currentLoc++; currentLoc %= windowSize;] *)
Definition advance : M window_state unit :=
  s ← get;
  if windowSize s =? 0 then throw DivideByZero else
  put (set_current (Z.rem (currentLoc s + 1) (windowSize s)) s).

(** [(struct List * )(chunk->privData)] *)
Definition node_of (chunk : ptr) : M window_state ptr :=
  c ← on_index (deref_chunk chunk); liftO (chunk_privData c ?? Uninitialised).

Definition handleSample (addr : Z) : M window_state unit :=
  chunk ← on_index (getChunkInfo addr);
  if decide (chunk = NULLp) then emit (LOG_SAMPLE logging addr 0 0) else
  node ← node_of chunk;
  n ← node_at node;
  l ← loc_of n;
  emit (LOG_SAMPLE logging addr 0 (if decide (l = FAST) then Z.lor LOG_TRACKED LOG_HIT else LOG_TRACKED));;
  s ← get;
  old ← sample_at (currentLoc s);
  if decide (old = chunk) then advance else
  (if decide (old = NULLp) then mret tt else onode ← node_of old; demote onode);;
  modify (λ s, set_samples (<[Z.to_nat (currentLoc s) := chunk]> (samples s)) s);;
  node' ← node_of chunk;
  promote chunk node';;
  advance.
End callbacks.

(** ** Initialisation *)

Section init.
Context (getenv : environment) (numa_max : Z) (oversized_shl : Z → Z).

Definition init_windowSize : Z :=
  match getenv "SHAMBLES_WINDOW_SIZE"%string with
  | None => 10
  | Some env => let n := atoi env in if n <=? 0 then 10 else n
  end.

Definition ENOMEM : Z := 12.

(** [windowInit]; [allocated] says whether both of its allocations succeed. *)
Definition windowInit (allocated : bool) : outcome (Z + ShamblesPluginConfig * window_state) :=
  r ← ShamblesPluginConfigInit getenv numa_max;
  match r with
  | inl err => mret (inl err)
  | inr config =>
      ix ← shamblesStructsInit oversized_shl (chunkSize config) (sizeThresshold config);
      let n := Z.to_nat init_windowSize in
      if negb allocated then mret (inl (- ENOMEM))
      else mret (inr (config, mkWindow ix ∅ NULLp NULLp (i32 (fastChunks config))
                           (replicate n NULLp) (replicate (S n) NULLp) 0 []))
  end.

(** [shambles_init]: the state when the callback was installed.  [windowInit] ends
    without a [return] too; [leftover] is the value its caller finds then. *)
Definition shambles_init (allocated : bool) (leftover : Z) : outcome (option (ShamblesPluginConfig * window_state)) :=
  r ← windowInit allocated;
  match r with
  | inl err => mret None
  | inr s => mret (if leftover =? 0 then Some s else None)
  end.
End init.
