(* ===== verification/WindowTheorems.v ===== *)
(** * Theorems about the sliding-window plugin

    Whatever path [handleSample] takes, a node's [count] stays the number of
    window entries that hold its chunk.  The proof is a frame argument: every
    list operation and every migration leaves chunks, counts and the window
    alone, which the hint database [window] derives from the structure of the
    code.  Two concrete runs show what the code does at its limits. *)
From stdpp Require Import base list gmap numbers strings.
From S2P Require Import Prelude CLib Config Structures StructuresTree StructuresIndex StructuresSpec.
From S2P Require Import StructuresTheorems CList Migration Window.

(** ** Frame *)

Definition core (n : ListNode) : ptr * Z := (node_chunk n, node_count n).

(** [s'] has the same index, window, and node chunks and counts as [s]. *)
Definition keeps (s s' : window_state) : Prop :=
  index s' = index s ∧ samples s' = samples s ∧ currentLoc s' = currentLoc s ∧
  ∀ p, core <$> nodes s' !! p = core <$> nodes s !! p.

#[export] Instance keeps_preorder : PreOrder keeps.
Proof.
  split; [by intros s|]. intros s1 s2 s3 (A1 & A2 & A3 & A4) (B1 & B2 & B3 & B4).
  split; [by rewrite B1|]. split; [by rewrite B2|]. split; [by rewrite B3|]. intros p. by rewrite B4.
Qed.

Definition framed {A} (m : M window_state A) : Prop := ∀ s a s', m s = Done (a, s') → keeps s s'.

(** The same for operations on the nodes. *)
Definition hkeeps (h h' : wheap) : Prop := ∀ p, core <$> h' !! p = core <$> h !! p.

#[export] Instance hkeeps_preorder : PreOrder hkeeps.
Proof. split; [by intros h|]. intros h1 h2 h3 A B p. by rewrite B, A. Qed.

Definition hframed {A} (m : M wheap A) : Prop := ∀ h a h', m h = Done (a, h') → hkeeps h h'.

Create HintDb window discriminated.

Section frames.
Context {A B : Type}.

Lemma framed_bind (m : M window_state A) (k : A → M window_state B) :
  framed m → (∀ a, framed (k a)) → framed (m ≫= k).
Proof. intros Hm Hk s b s' (a & s1 & E1 & E2)%bind_done_inv. etrans; [by eapply Hm|by eapply Hk]. Qed.

Lemma hframed_bind (m : M wheap A) (k : A → M wheap B) :
  hframed m → (∀ a, hframed (k a)) → hframed (m ≫= k).
Proof. intros Hm Hk s b s' (a & s1 & E1 & E2)%bind_done_inv. etrans; [by eapply Hm|by eapply Hk]. Qed.

Lemma framed_ret (a : A) : framed (mret a).
Proof. intros s b s' E. by injection E as _ <-. Qed.
Lemma hframed_ret (a : A) : hframed (mret a).
Proof. intros s b s' E. by injection E as _ <-. Qed.
Lemma framed_throw e : framed (A:=A) (throw e).
Proof. intros s b s' E. done. Qed.
Lemma hframed_throw e : hframed (A:=A) (throw e).
Proof. intros s b s' E. done. Qed.
Lemma framed_liftO (o : outcome A) : framed (liftO o).
Proof. intros s b s' E. unfold liftO in E. destruct o; [|done]. by injection E as _ <-. Qed.
Lemma hframed_liftO (o : outcome A) : hframed (liftO o).
Proof. intros s b s' E. unfold liftO in E. destruct o; [|done]. by injection E as _ <-. Qed.

Lemma framed_nodes (m : M wheap A) : hframed m → framed (on_nodes m).
Proof.
  intros Hm s a s' E. unfold on_nodes, zoom in E. destruct (m (nodes s)) as [[b h]|] eqn:Em; [|done].
  injection E as _ <-. split; [done|]. split; [done|]. split; [done|]. by apply (Hm _ _ _ Em).
Qed.

(** Reading the index: the chunk and region accesses do not change it. *)
Lemma framed_index (m : M structs A) :
  (∀ i a i', m i = Done (a, i') → i' = i) → framed (on_index m).
Proof.
  intros Hm s a s' E. unfold on_index, zoom in E. destruct (m (index s)) as [[b i]|] eqn:Em; [|done].
  injection E as _ <-. by rewrite (Hm _ _ _ Em).
Qed.
End frames.

Lemma framed_get : framed get.
Proof. intros s b s' E. by injection E as _ <-. Qed.
Lemma hframed_get : hframed get.
Proof. intros s b s' E. by injection E as _ <-. Qed.
Lemma framed_modify f : (∀ s, keeps s (f s)) → framed (modify f).
Proof. intros Hf s b s' E. injection E as _ <-. apply Hf. Qed.

Lemma hframed_wr p f : (∀ n, core (f n) = core n) → hframed (wr p f).
Proof.
  intros Hf h a h' (n & h1 & E1 & E2)%bind_done_inv.
  apply bind_done_inv in E1 as (h2 & h3 & E3 & E4). injection E3 as <- <-.
  case_decide; [done|]. unfold liftO, orelse in E4. destruct (h !! p) as [n'|] eqn:En; [|done].
  injection E4 as <- <-. injection E2 as _ <-. intros x. destruct (decide (x = p)) as [->|].
  - rewrite lookup_insert_eq, En. simpl. by rewrite Hf.
  - by rewrite lookup_insert_ne.
Qed.

Lemma deref_chunk_reads p i a i' : deref_chunk p i = Done (a, i') → i' = i.
Proof.
  intros (cs & i1 & E1 & E2)%bind_done_inv. unfold deref_chunks in E1.
  apply bind_done_inv in E1 as (i2 & i3 & E3 & E4). injection E3 as <- <-.
  destruct (_ =? 0); [done|]. unfold liftO, orelse in E4. destruct (chunks i !! _); [|done].
  injection E4 as _ <-. destruct (_ <? 0); [done|]. unfold liftO, orelse in E2.
  destruct (_ !! _); [|done]. by injection E2 as _ <-.
Qed.

#[export] Hint Resolve framed_ret framed_throw framed_liftO framed_get hframed_ret hframed_throw
  hframed_liftO hframed_get : window.

(** Following the structure of a definition: binds, conditionals, matches. *)
Ltac frame :=
  repeat first
    [ solve [eauto with window]
    | apply hframed_wr; by intros []
    | apply framed_index; exact (deref_chunk_reads _)
    | apply framed_nodes
    | apply framed_bind; [|intros]
    | apply hframed_bind; [|intros]
    | apply framed_modify; by intros []
    | case_decide
    | match goal with
      | |- framed (if ?b then _ else _) => destruct b
      | |- hframed (if ?b then _ else _) => destruct b
      | |- framed (match ?l with FAST => _ | SLOW => _ end) => destruct l
      end
    | progress cbv zeta ].

Lemma hframed_rd p : hframed (rd p).
Proof. unfold rd. frame. Qed.
#[export] Hint Resolve hframed_rd : window.

Lemma hframed_dq q p : hframed (dq q p).
Proof. unfold dq. frame. Qed.
Lemma hframed_push q p : hframed (push q p).
Proof. unfold push, link_self, link_before. frame. Qed.
Lemma hframed_enq q p : hframed (enq q p).
Proof. unfold enq, link_self, link_before. frame. Qed.
Lemma hframed_insert p q : hframed (insert_after p q).
Proof. unfold insert_after. frame. Qed.
#[export] Hint Resolve hframed_dq hframed_push hframed_enq hframed_insert : window.

Lemma hframed_move p q : hframed (move p q).
Proof. unfold move. frame. Qed.
#[export] Hint Resolve hframed_move : window.

Lemma framed_at_fast f p : (∀ q, hframed (f q p)) → framed (at_fast f p).
Proof. intros Hf. unfold at_fast. frame. Qed.
Lemma framed_at_slow f p : (∀ q, hframed (f q p)) → framed (at_slow f p).
Proof. intros Hf. unfold at_slow. frame. Qed.
Lemma framed_emit evs : framed (emit evs).
Proof. unfold emit. frame. Qed.
Lemma framed_node_at p : framed (node_at p).
Proof. unfold node_at. frame. Qed.
Lemma framed_loc_of n : framed (loc_of n).
Proof. unfold loc_of. frame. Qed.
Lemma framed_tail_at k : framed (tail_at k).
Proof. unfold tail_at. frame. Qed.
Lemma framed_sample_at k : framed (sample_at k).
Proof. unfold sample_at. frame. Qed.
#[export] Hint Resolve framed_at_fast framed_at_slow framed_emit framed_node_at framed_loc_of
  framed_tail_at framed_sample_at : window.

Lemma framed_set_tail k p : framed (set_tail k p).
Proof. unfold set_tail. frame. Qed.
Lemma framed_last_fast : framed last_fast.
Proof. unfold last_fast. frame. Qed.
#[export] Hint Resolve framed_set_tail framed_last_fast : window.

Lemma framed_slow_like n : framed (slow_like_last_fast n).
Proof. unfold slow_like_last_fast. frame. Qed.
Lemma framed_move_after p q : framed (move_after p q).
Proof. unfold move_after. frame. Qed.
Lemma framed_retire_simple p : framed (retire_simple p).
Proof. unfold retire_simple. frame. Qed.
Lemma framed_same_loc p q : framed (same_loc p q).
Proof. unfold same_loc. frame. Qed.
#[export] Hint Resolve framed_slow_like framed_move_after framed_retire_simple framed_same_loc : window.

Lemma framed_retire_tail p : framed (retire_tail p).
Proof. unfold retire_tail. frame. Qed.
Lemma framed_scan_tails fuel i : framed (scan_tails fuel i).
Proof. revert i. induction fuel as [|fuel IH]; intros i; simpl; frame. Qed.
#[export] Hint Resolve framed_retire_tail framed_scan_tails : window.

Lemma framed_next_tail i : framed (next_tail i).
Proof. unfold next_tail. frame. Qed.
Lemma framed_demote_keep p : framed (demote_keep p).
Proof. unfold demote_keep. frame. Qed.
Lemma framed_demote_migrate logging config p : framed (demote_migrate logging config p).
Proof. unfold demote_migrate. frame. Qed.
#[export] Hint Resolve framed_next_tail framed_demote_keep framed_demote_migrate : window.

Lemma framed_promote_keep p : framed (promote_keep p).
Proof. unfold promote_keep. frame. Qed.
Lemma framed_promote_migrate logging config c p : framed (promote_migrate logging config c p).
Proof. unfold promote_migrate. frame. Qed.
#[export] Hint Resolve framed_promote_keep framed_promote_migrate : window.

(** ** Occurrences in the window *)

Definition occ (l : list ptr) (c : ptr) : Z := Z.of_nat (length (filter (λ x, x = c) l)).

Lemma occ_insert l i x c y :
  l !! i = Some x →
  occ (<[i:=y]> l) c = occ l c - (if decide (x = c) then 1 else 0) + (if decide (y = c) then 1 else 0).
Proof.
  unfold occ. revert i. induction l as [|z l IH]; intros [|i] E; simplify_eq/=.
  - rewrite !filter_cons. repeat case_decide; simpl; lia.
  - specialize (IH i E). rewrite !filter_cons. repeat case_decide; simpl; lia.
Qed.

(** Nodes and chunks point at each other, and each node's [count] is the number
    of occurrences of its chunk in [l]. *)
Record counted (s : window_state) (l : list ptr) : Prop := {
  co_back : ∀ cp c p, deref_chunk cp (index s) = Done (c, index s) → chunk_privData c = Some p →
    ∃ n, nodes s !! p = Some n ∧ node_chunk n = cp;
  co_inj : ∀ p q n m, nodes s !! p = Some n → nodes s !! q = Some m → node_chunk n = node_chunk m → p = q;
  co_null : ∀ p n, nodes s !! p = Some n → node_chunk n ≠ NULLp;
  co_count : ∀ p n, nodes s !! p = Some n → node_count n = occ l (node_chunk n)
}.

Definition window_inv (s : window_state) : Prop :=
  counted s (samples s) ∧ 0 ≤ currentLoc s < windowSize s.

Lemma core_lookup s s' p n' :
  keeps s s' → nodes s' !! p = Some n' →
  ∃ n, nodes s !! p = Some n ∧ node_chunk n' = node_chunk n ∧ node_count n' = node_count n.
Proof.
  intros (_ & _ & _ & Hk) E. specialize (Hk p). rewrite E in Hk.
  destruct (nodes s !! p) as [n|]; [|done]. injection Hk as H1 H2. by exists n.
Qed.

#[export] Instance keeps_sym : Symmetric keeps.
Proof. intros s s' (A1 & A2 & A3 & A4). repeat split; auto. Qed.

Lemma counted_keeps s s' l : keeps s s' → counted s l → counted s' l.
Proof.
  intros Hk HC. pose proof (proj1 Hk) as Hi. split.
  - intros cp c p. rewrite Hi. intros Hd Hp. destruct (co_back _ _ HC _ _ _ Hd Hp) as (n & En & Hn).
    destruct (core_lookup _ _ _ _ (symmetry Hk) En) as (n' & En' & Hc & _). exists n'. split; [done|congruence].
  - intros p q n m Hp Hq E. destruct (core_lookup _ _ _ _ Hk Hp) as (n0 & Hp0 & Hc & _).
    destruct (core_lookup _ _ _ _ Hk Hq) as (m0 & Hq0 & Hc' & _). apply (co_inj _ _ HC p q n0 m0); congruence.
  - intros p n Hp. destruct (core_lookup _ _ _ _ Hk Hp) as (n0 & Hp0 & -> & _). by apply (co_null _ _ HC p).
  - intros p n Hp. destruct (core_lookup _ _ _ _ Hk Hp) as (n0 & Hp0 & -> & ->). by apply (co_count _ _ HC p).
Qed.

(** [node->count += k] when the occurrences of the node's chunk change by [k]. *)
Lemma counted_add s s' l l' p n k :
  counted s l → nodes s !! p = Some n → on_nodes (wr p (add_count k)) s = Done (tt, s') →
  (∀ c, c ≠ NULLp → occ l' c = occ l c + if decide (c = node_chunk n) then k else 0) →
  counted s' l' ∧ index s' = index s ∧ samples s' = samples s ∧ currentLoc s' = currentLoc s.
Proof.
  intros HC En E Hocc. unfold on_nodes, zoom in E.
  assert (p ≠ NULLp) as Hp.
  { intros ->. done. }
  rewrite (wr_ok (nodes s) p (add_count k) n Hp En) in E. injection E as <-.
  split; [|done].
  assert (∀ x m, <[p:=add_count k n]> (nodes s) !! x = Some m →
    ∃ m0, nodes s !! x = Some m0 ∧ node_chunk m = node_chunk m0 ∧
          node_count m = node_count m0 + if decide (x = p) then k else 0) as Hlook.
  { intros x m [[<- <-]|[Hne Hx]]%lookup_insert_Some.
    - exists n. by rewrite decide_True.
    - exists m. rewrite decide_False by done. split; [done|]. split; [done|lia]. }
  split; simpl.
  - intros cp c q Hd Hq. destruct (co_back _ _ HC _ _ _ Hd Hq) as (m & Em & Hm).
    destruct (decide (q = p)) as [->|Hne].
    + exists (add_count k n). rewrite lookup_insert_eq. split; [done|]. simpl. congruence.
    + exists m. by rewrite lookup_insert_ne.
  - intros x y m m' Hx Hy Em. destruct (Hlook _ _ Hx) as (m0 & Hx0 & Hc & _).
    destruct (Hlook _ _ Hy) as (m1 & Hy0 & Hc' & _). apply (co_inj _ _ HC x y m0 m1); congruence.
  - intros x m Hx. destruct (Hlook _ _ Hx) as (m0 & Hx0 & -> & _). by apply (co_null _ _ HC x).
  - intros x m Hx. destruct (Hlook _ _ Hx) as (m0 & Hx0 & -> & ->).
    rewrite Hocc by (by apply (co_null _ _ HC x)). rewrite (co_count _ _ HC x m0 Hx0). f_equal.
    destruct (decide (x = p)) as [->|Hne].
    + rewrite decide_True; [done|]. congruence.
    + rewrite decide_False; [done|]. intros Hc. apply Hne. by apply (co_inj _ _ HC x p m0 n).
Qed.

(** ** Demotion and promotion *)

Ltac bind_inv H a s E := apply bind_done_inv in H as (a & s & E & H).

Lemma demote_split logging config p s s' :
  demote logging config p s = Done (tt, s') →
  ∃ s1, keeps s s1 ∧ on_nodes (wr p (add_count (-1))) s1 = Done (tt, s').
Proof.
  unfold demote. intros E. bind_inv E n t1 E1. destruct (_ <=? 0); [done|].
  bind_inv E l t2 E2. bind_inv E s1 t3 E3. bind_inv E keep t4 E4. bind_inv E u t5 E5.
  eexists. split; [|exact E].
  etrans; [eapply framed_node_at; exact E1|]. etrans; [eapply framed_loc_of; exact E2|].
  etrans; [eapply framed_get; exact E3|].
  etrans; [|destruct keep; [eapply framed_demote_keep|eapply framed_demote_migrate]; exact E5].
  revert E4. case_decide; intros E4; [by injection E4 as _ <-|].
  eapply (framed_bind (node_at (slowList s1))); [apply framed_node_at| |exact E4]. intros. apply framed_ret.
Qed.

Lemma promote_split logging config c p s s' :
  promote logging config c p s = Done (tt, s') →
  ∃ s1, keeps s s1 ∧ on_nodes (wr p (add_count 1)) s1 = Done (tt, s').
Proof.
  unfold promote. intros E. bind_inv E n t6 E1. bind_inv E l t7 E2. bind_inv E keep t8 E4. bind_inv E u t9 E5.
  eexists. split; [|exact E].
  etrans; [eapply framed_node_at; exact E1|]. etrans; [eapply framed_loc_of; exact E2|].
  etrans; [|destruct keep; [eapply framed_promote_keep|eapply framed_promote_migrate]; exact E5].
  revert E4. case_decide; intros E4; [by injection E4 as _ <-|].
  assert (framed (p ← last_fast; pn ← node_at p; mret (node_count n <? node_count pn))) as Hf by frame.
  by eapply Hf.
Qed.

Lemma node_of_inv chunk s p s' :
  node_of chunk s = Done (p, s') →
  s' = s ∧ ∃ c, deref_chunk chunk (index s) = Done (c, index s) ∧ chunk_privData c = Some p.
Proof.
  unfold node_of. intros E. bind_inv E c t10 E1. unfold on_index, zoom in E1.
  destruct (deref_chunk chunk (index s)) as [[c' i]|] eqn:Ed; [|done]. injection E1 as <- <-.
  pose proof (deref_chunk_reads _ _ _ _ Ed) as ->. unfold liftO, orelse in E.
  destruct (chunk_privData c') as [q|] eqn:Eq; [|done]. injection E as <- <-.
  split; [by destruct s|]. by exists c'.
Qed.

Lemma counted_node s l chunk p :
  counted s l → (∃ c, deref_chunk chunk (index s) = Done (c, index s) ∧ chunk_privData c = Some p) →
  ∃ n, nodes s !! p = Some n ∧ node_chunk n = chunk.
Proof. intros HC (c & Hd & Hp). by apply (co_back _ _ HC chunk c p). Qed.

Lemma demote_counted logging config p s s' l i old :
  counted s l → l !! i = Some old → old ≠ NULLp →
  (∃ c, deref_chunk old (index s) = Done (c, index s) ∧ chunk_privData c = Some p) →
  demote logging config p s = Done (tt, s') →
  counted s' (<[i:=NULLp]> l) ∧ index s' = index s ∧ samples s' = samples s ∧ currentLoc s' = currentLoc s.
Proof.
  intros HC Hl Hold Hn E. destruct (counted_node _ _ _ _ HC Hn) as (n & En & Hch).
  apply demote_split in E as (s1 & Hk & E).
  destruct (core_lookup _ _ _ _ (symmetry Hk) En) as (n1 & En1 & Hc1 & _).
  destruct (counted_add s1 s' l (<[i:=NULLp]> l) p n1 (-1)) as (HC' & Hi & Hs & Hcu); try done.
  - by eapply counted_keeps.
  - intros c Hc. rewrite (occ_insert _ _ _ _ _ Hl), (decide_False (P:=NULLp = c)) by done.
    rewrite <- Hc1, Hch. repeat case_decide; try lia; congruence.
  - destruct Hk as (K1 & K2 & K3 & _). split; [done|]. split; [congruence|]. split; congruence.
Qed.

Lemma promote_counted logging config chunk p s s' l i :
  counted s l → l !! i = Some NULLp → chunk ≠ NULLp →
  (∃ c, deref_chunk chunk (index s) = Done (c, index s) ∧ chunk_privData c = Some p) →
  promote logging config chunk p s = Done (tt, s') →
  counted s' (<[i:=chunk]> l) ∧ index s' = index s ∧ samples s' = samples s ∧ currentLoc s' = currentLoc s.
Proof.
  intros HC Hl Hchunk Hn E. destruct (counted_node _ _ _ _ HC Hn) as (n & En & Hch).
  apply promote_split in E as (s1 & Hk & E).
  destruct (core_lookup _ _ _ _ (symmetry Hk) En) as (n1 & En1 & Hc1 & _).
  destruct (counted_add s1 s' l (<[i:=chunk]> l) p n1 1) as (HC' & Hi & Hs & Hcu); try done.
  - by eapply counted_keeps.
  - intros c Hc. rewrite (occ_insert _ _ _ _ _ Hl), (decide_False (P:=NULLp = c)) by done.
    rewrite <- Hc1, Hch. repeat case_decide; try lia; congruence.
  - destruct Hk as (K1 & K2 & K3 & _). split; [done|]. split; [congruence|]. split; congruence.
Qed.

(** ** The whole handler *)

Lemma getChunkInfo_reads addr i a i' : getChunkInfo addr i = Done (a, i') → i' = i.
Proof.
  unfold getChunkInfo, getRegion. intros E. bind_inv E p t11 E1. bind_inv E1 i2 t12 E2. injection E2 as <- <-.
  unfold liftO in E1. destruct (getRegion_in _ _ _); [|done]. injection E1 as <- <-.
  destruct (_ =? 0); [by injection E as _ <-|]. bind_inv E r t13 E3. unfold deref_region in E3.
  bind_inv E3 i4 t14 E4. injection E4 as <- <-. destruct (_ =? 0); [done|]. unfold liftO, orelse in E3.
  destruct (regions i !! _); [|done]. injection E3 as _ <-. bind_inv E i5 t15 E5. injection E5 as <- <-.
  destruct (_ =? 0); [done|]. by injection E as _ <-.
Qed.

Lemma advance_inv s s' : window_inv s → advance s = Done (tt, s') → window_inv s'.
Proof.
  intros [HC Hcur] E. unfold advance in E. bind_inv E s1 t16 E1. injection E1 as <- <-.
  destruct (Z.eqb_spec (windowSize s) 0); [done|]. injection E as <-. split.
  - split; apply HC.
  - change (windowSize (set_current _ s)) with (windowSize s). simpl.
    rewrite Z.rem_mod_nonneg by lia. apply Z.mod_pos_bound. lia.
Qed.

Lemma handleSample_counts logging config addr s s' :
  window_inv s → handleSample logging config addr s = Done (tt, s') → window_inv s'.
Proof.
  intros [HC Hcur] E. unfold handleSample in E. bind_inv E chunk s0 E1.
  assert (keeps s s0) as K1.
  { eapply framed_index; [|exact E1]. intros i a i'. apply getChunkInfo_reads. }
  destruct (decide (chunk = NULLp)) as [->|Hchunk].
  { assert (keeps s s') as K by (etrans; [exact K1|eapply framed_emit; exact E]).
    pose proof K as (Ki & Ks & Kc & Kn). split; [rewrite Ks; by eapply counted_keeps|].
    unfold windowSize. by rewrite Ks, Kc. }
  bind_inv E node s1 E2. apply node_of_inv in E2 as [-> Hnode].
  bind_inv E n s1n E3. bind_inv E l s1l E4. bind_inv E u s3 E5. bind_inv E st s3x E6. injection E6 as <- <-.
  assert (keeps s s3) as K3.
  { etrans; [exact K1|]. etrans; [eapply framed_node_at; exact E3|].
    etrans; [eapply framed_loc_of; exact E4|]. eapply framed_emit; exact E5. }
  clear E3 E4 E5 K1. bind_inv E old s4 E7.
  pose proof (framed_sample_at _ _ _ _ E7) as K4. pose proof (transitivity K3 K4) as K.
  assert (samples s3 !! Z.to_nat (currentLoc s3) = Some old) as Hold.
  { unfold sample_at in E7. bind_inv E7 s5 s5x E8. injection E8 as <- <-.
    destruct (_ <? 0); [done|]. unfold liftO, orelse in E7. destruct (_ !! _); [|done]. by injection E7 as -> _. }
  clear E7. destruct K as (Ki & Ks & Kc & Kn).
  assert (counted s4 (samples s)) as HC4 by (eapply counted_keeps; [|exact HC]; done).
  destruct K3 as (_ & Ks3 & Kc3 & _). rewrite Ks3, Kc3 in Hold.
  assert (window_inv s4) as HI4 by (split; [by rewrite Ks|unfold windowSize; by rewrite Ks, Kc]).
  destruct (decide (old = chunk)) as [->|Hne]; [by eapply advance_inv|].
  bind_inv E u2 s5 E8. set (i := Z.to_nat (currentLoc s)) in *.
  assert (counted s5 (<[i:=NULLp]> (samples s)) ∧ index s5 = index s4 ∧ samples s5 = samples s4 ∧
          currentLoc s5 = currentLoc s4) as (HC5 & Hi5 & Hs5 & Hc5).
  { destruct (decide (old = NULLp)) as [->|Hnn].
    - injection E8 as _ <-. rewrite list_insert_id by done. done.
    - bind_inv E8 onode s5o E9. apply node_of_inv in E9 as [-> Hon]. destruct u2. by eapply demote_counted. }
  bind_inv E u3 s6 E9. injection E9 as _ <-. bind_inv E node' s6n E10.
  apply node_of_inv in E10 as [-> Hn']. bind_inv E u4 s7 E11. destruct u4.
  assert (i < length (samples s))%nat as Hlt by by apply lookup_lt_Some in Hold.
  apply (promote_counted logging config chunk node' _ _ (<[i:=NULLp]> (samples s)) i) in E11
    as (HC6 & Hi6 & Hs6 & Hc6); [|split; apply HC5|by apply list_lookup_insert_eq|done|done].
  eapply advance_inv; [|exact E]. rewrite list_insert_insert_eq in HC6. simpl in Hs6, Hc6.
  rewrite Hs5, Hc5, Ks, Kc in Hs6. rewrite Hc5, Kc in Hc6. fold i in Hs6. split.
  - by rewrite Hs6.
  - unfold windowSize. rewrite Hs6, Hc6, length_insert. done.
Qed.

(** ** Concrete runs

    One fast chunk of 256 KiB, one region of a single chunk. *)

Module WindowExample.
#[local] Existing Instance bump_malloc.

Definition config : ShamblesPluginConfig := mkConfig Example.thr Example.chunk 1 3 1 2.
Definition state0 (w : nat) : window_state :=
  mkWindow Example.state0 ∅ NULLp NULLp 1 (replicate w NULLp) (replicate (S w) NULLp) 0 [].

Definition alloc (w : nat) : outcome (unit * window_state) :=
  on_alloc false config Example.start 0x20000 (state0 w).
Definition state1 (w : nat) : window_state :=
  match alloc w with Done (_, s) => s | Fault _ => state0 w end.

(** [k] samples of an address in the region. *)
Definition sampled (w k : nat) : outcome (unit * window_state) :=
  (alloc w ≫= λ r, for_n k 0 (λ _, handleSample false config (Example.start + 0x10)) r.2).

Lemma state1_heap :
  chunks (index (state1 10)) = {[8192 := [mkChunk Example.start 0x20000 (Some (12288, 0))]]} ∧
  nodes (state1 10) = {[(12288, 0) := mkNode (8192, 0) (Some FAST) 0 (12288, 0) (12288, 0)]} ∧
  samples (state1 10) = replicate 10 NULLp ∧ currentLoc (state1 10) = 0.
Proof. vm_compute. done. Qed.

Lemma one_chunk_inv s :
  chunks (index s) = {[8192 := [mkChunk Example.start 0x20000 (Some (12288, 0))]]} →
  nodes s = {[(12288, 0) := mkNode (8192, 0) (Some FAST) 0 (12288, 0) (12288, 0)]} →
  samples s = replicate 10 NULLp → currentLoc s = 0 → window_inv s.
Proof.
  intros Hc Hn Hs Hl. split; [|rewrite Hl; unfold windowSize; rewrite Hs; done].
  split.
  - intros [b i] c p Hd Hp. apply deref_chunk_inv in Hd as (_ & Hi & _ & cs & Ecs & Ec).
    rewrite Hc in Ecs. apply lookup_singleton_Some in Ecs as [<- <-].
    apply list_lookup_singleton_Some in Ec as [Hi0 <-]. injection Hp as <-.
    eexists. rewrite Hn, lookup_singleton_eq. split; [reflexivity|]. simpl. f_equal. lia.
  - intros p q n m. rewrite Hn. intros [<- <-]%lookup_singleton_Some [<- <-]%lookup_singleton_Some. done.
  - intros p n. rewrite Hn. intros [<- <-]%lookup_singleton_Some. done.
  - intros p n. rewrite Hn, Hs. intros [<- <-]%lookup_singleton_Some. done.
Qed.

Lemma state1_inv : window_inv (state1 10).
Proof.
  exact (one_chunk_inv (state1 10) (proj1 state1_heap) (proj1 (proj2 state1_heap))
           (proj1 (proj2 (proj2 state1_heap))) (proj2 (proj2 (proj2 state1_heap)))).
Qed.

Definition after_sample : outcome (unit * window_state) :=
  handleSample false config (Example.start + 0x10) (state1 10).

(** The region freed again. *)
Definition freed : outcome (ptr * option ListNode * Z) :=
  r ← alloc 10; '(_, s) ← on_free config (Example.start + 0x10) r.2;
  Done (fastList s, nodes s !! fastList s, freeFastChunks s).
End WindowExample.

(** ** The theorems *)

(** C39: the meaning of [count].  When [handleSample] returns, every node's
    [count] is again the number of window entries that hold its chunk, whatever
    demotions, promotions and migrations it performed, and the position in the
    window is in range. *)
Theorem window_counts logging config addr s s' :
  window_inv s → handleSample logging config addr s = Done (tt, s') → window_inv s'.
Proof. apply handleSample_counts. Qed.

Lemma window_counts_witness :
  ∃ s', WindowExample.after_sample = Done (tt, s') ∧ window_inv s'.
Proof.
  assert (∃ s', WindowExample.after_sample = Done (tt, s')) as [s' E].
  { assert (match WindowExample.after_sample with Done _ => true | Fault _ => false end = true) as H
      by (vm_compute; reflexivity).
    destruct WindowExample.after_sample as [[[] s']|]; [exists s'; reflexivity|discriminate]. }
  exists s'. split; [exact E|].
  exact (window_counts false WindowExample.config (Example.start + 0x10) (WindowExample.state1 10) s'
           WindowExample.state1_inv E).
Defined.

(** A full window overruns [tails].  With the default window of ten, nine
    samples of the same chunk are handled; the tenth reads [tails] two elements
    past the window's size, outside of the array. *)
Theorem window_overruns_tails :
  (∃ s, WindowExample.sampled 10 9 = Done (tt, s)) ∧
  WindowExample.sampled 10 10 = Fault OutOfBounds.
Proof.
  split; [|vm_compute; reflexivity].
  assert (match WindowExample.sampled 10 9 with Done _ => true | Fault _ => false end = true) as H
    by (vm_compute; reflexivity).
  destruct (WindowExample.sampled 10 9) as [[[] s]|]; [exists s; reflexivity|discriminate H].
Qed.

(** A freed fast chunk stays in the fast list.  The loop of the free callback
    assigns [SLOW] where it means to compare, so that after the only region is
    freed [fastList] points at a node that no longer exists and the fast chunk is
    not given back. *)
Theorem window_free_dangles :
  ∃ p, WindowExample.freed = Done (p, None, 0) ∧ p ≠ NULLp.
Proof. eexists. split; [vm_compute; reflexivity|done]. Qed.
