(* ===== verification/BitUtil.v ===== *)
(** * Bit operations of the allocator, [jemalloc/include/jemalloc/internal/bit_util.h]

    Find-first-set, find-last-set, population count and the logarithms of the
    allocator, both the variants that use compiler intrinsics and the portable ones
    ([fls_lu_slow], [popcount_lu_slow], the [LG_FLOOR] macro), for the LP64 data
    model ([LG_SIZEOF_PTR] = [LG_SIZEOF_LONG] = 3). *)
From stdpp Require Import base list numbers.
From S2P Require Import Prelude.

(** ** Definitions *)

(** [ffsl(3)], which the macros [JEMALLOC_INTERNAL_FFS*] name. *)
Definition ffsl (x : Z) : Z := if x =? 0 then 0 else ctzl x + 1.

Definition ffs_lu (x : Z) : Z := ffsl x - 1.

(** [x |= (x >> k)] *)
Definition smear (k x : Z) : Z := Z.lor x (Z.shiftr x k).

Definition fls_lu_slow (x : Z) : Z :=
  let x := smear 32 (smear 16 (smear 8 (smear 4 (smear 2 (smear 1 x))))) in
  let x := u64 (x + 1) in
  if x =? 0 then 8 * 8 - 1 else ffs_lu x - 1.

Definition fls_u_slow (x : Z) : Z :=
  let x := smear 16 (smear 8 (smear 4 (smear 2 (smear 1 x)))) in
  let x := u32 (x + 1) in
  if x =? 0 then 8 * 4 - 1 else ffs_lu x - 1.

Definition fls_lu (x : Z) : Z := Z.lxor (8 * 8 - 1) (clzl x).

Definition popcount_slow (bytes : Z) (bmul x : Z) : Z :=
  let wrap z := z mod 2 ^ (8 * bytes) in
  let x := wrap (x - Z.land (Z.shiftr x 1) (wrap (0x55 * bmul))) in
  let x := wrap (Z.land x (wrap (bmul * 0x33)) + Z.land (Z.shiftr x 2) (wrap (bmul * 0x33))) in
  let x := Z.land (wrap (x + Z.shiftr x 4)) (wrap (bmul * 0x0F)) in
  let x := wrap (x * bmul) in
  u32 (Z.shiftr x ((bytes - 1) * 8)).

Definition popcount_u_slow (x : Z) : Z := popcount_slow 4 (u32 0x0101010101010101) x.
Definition popcount_lu_slow (x : Z) : Z := popcount_slow 8 0x0101010101010101 x.

(** The position of the lowest bit of the bitmap and the bitmap without it. *)
Definition cfs_lu (bitmap : Z) : Z * Z :=
  let bit := ffs_lu bitmap in (bit, Z.lxor bitmap (shl64 1 bit)).

Definition pow2_ceil_u64 (x : Z) : Z :=
  if x <=? 1 then x
  else let msb_on_index := fls_lu (x - 1) in shl64 1 (msb_on_index + 1).

Definition pow2_ceil_zu (x : Z) : Z := pow2_ceil_u64 x.

Definition lg_floor (x : Z) : Z := fls_lu x.

Definition lg_ceil (x : Z) : Z := lg_floor x + if Z.land x (x - 1) =? 0 then 0 else 1.

Definition LG_FLOOR_1 (x : Z) : Z := 0.
Definition LG_FLOOR_2 (x : Z) : Z := if x <? shl64 1 1 then LG_FLOOR_1 x else 1 + LG_FLOOR_1 (Z.shiftr x 1).
Definition LG_FLOOR_4 (x : Z) : Z := if x <? shl64 1 2 then LG_FLOOR_2 x else 2 + LG_FLOOR_2 (Z.shiftr x 2).
Definition LG_FLOOR_8 (x : Z) : Z := if x <? shl64 1 4 then LG_FLOOR_4 x else 4 + LG_FLOOR_4 (Z.shiftr x 4).
Definition LG_FLOOR_16 (x : Z) : Z := if x <? shl64 1 8 then LG_FLOOR_8 x else 8 + LG_FLOOR_8 (Z.shiftr x 8).
Definition LG_FLOOR_32 (x : Z) : Z := if x <? shl64 1 16 then LG_FLOOR_16 x else 16 + LG_FLOOR_16 (Z.shiftr x 16).
Definition LG_FLOOR_64 (x : Z) : Z := if x <? shl64 1 32 then LG_FLOOR_32 x else 32 + LG_FLOOR_32 (Z.shiftr x 32).
Definition LG_CEIL (x : Z) : Z := LG_FLOOR_64 x + if Z.land x (x - 1) =? 0 then 0 else 1.

(** ** The lowest bit *)

Lemma pos_ctz_spec p : ∃ k, Zpos p = (2 * k + 1) * 2 ^ pos_ctz p ∧ 0 ≤ pos_ctz p ∧ 0 ≤ k.
Proof.
  induction p as [p IH|p IH|]; simpl pos_ctz.
  - exists (Zpos p). lia.
  - destruct IH as (k & E & H0 & Hk). exists k. split; [|lia].
    rewrite Z.pow_add_r by lia. change (2 ^ 1) with 2.
    transitivity (2 * ((2 * k + 1) * 2 ^ pos_ctz p)); [lia|ring].
  - by exists 0.
Qed.

(** A positive number is an odd number shifted left by [ctzl]. *)
Lemma ctzl_spec x : 0 < x → ∃ k, x = (2 * k + 1) * 2 ^ ctzl x ∧ 0 ≤ ctzl x ∧ 0 ≤ k.
Proof. destruct x as [|p|p]; [done| |done]. intros _. apply pos_ctz_spec. Qed.

Lemma ctzl_nonneg x : 0 ≤ ctzl x.
Proof. destruct x as [|p|p]; [done| |done]. simpl. by destruct (pos_ctz_spec p) as (k & _ & ? & _). Qed.

Lemma ctzl_pow2 k : 0 ≤ k → ctzl (2 ^ k) = k.
Proof.
  intros Hk. pattern k. apply natlike_ind; [done| |done]. clear. intros n Hn IH.
  rewrite Z.pow_succ_r by done.
  assert (0 < 2 ^ n) by (apply Z.pow_pos_nonneg; lia).
  destruct (2 ^ n) as [|p|p] eqn:E; try lia.
  change (ctzl (2 * Z.pos p)) with (1 + pos_ctz p). change (ctzl (Z.pos p)) with (pos_ctz p) in IH. lia.
Qed.

Lemma ffs_lu_ctzl x : 0 < x → ffs_lu x = ctzl x.
Proof. intros Hx. unfold ffs_lu, ffsl. case_match; lia. Qed.

Lemma ctzl_testbit x i :
  0 < x → 0 ≤ i → Z.testbit x (ctzl x) = true ∧ (i < ctzl x → Z.testbit x i = false).
Proof.
  intros Hx Hi. destruct (ctzl_spec x Hx) as (k & E & Hc & Hk). set (c := ctzl x) in *.
  rewrite E. split.
  - rewrite Z.mul_pow2_bits by lia. rewrite Z.sub_diag. by rewrite Z.testbit_odd_0.
  - intros Hlt. apply Z.mul_pow2_bits_low. lia.
Qed.

Lemma ctzl_lt x n : 0 < x < 2 ^ n → 0 ≤ ctzl x < n.
Proof.
  intros Hx. destruct (ctzl_spec x) as (k & E & Hc & Hk); [lia|]. split; [done|].
  apply (Z.pow_lt_mono_r_iff 2); [lia| |].
  { destruct (Z.le_gt_cases 0 n); [done|]. rewrite (Z.pow_neg_r 2 n) in Hx by done. lia. }
  assert (0 < 2 ^ ctzl x) by (apply Z.pow_pos_nonneg; lia). nia.
Qed.

(** ** The highest bit *)

(** [y] has bit [i] when [x] has one among bits [i .. i+m-1]. *)
Definition smeared (m x y : Z) : Prop :=
  0 ≤ y ∧ ∀ i, 0 ≤ i → Z.testbit y i = true ↔ ∃ j, 0 ≤ j < m ∧ Z.testbit x (i + j) = true.

Lemma smeared_once x : 0 ≤ x → smeared 1 x x.
Proof.
  intros Hx. split; [done|]. intros i Hi. split.
  - intros H. exists 0. by rewrite Z.add_0_r.
  - intros (j & Hj & H). by replace (i + j) with i in H by lia.
Qed.

Lemma smeared_double m x y : 0 ≤ m → smeared m x y → smeared (m + m) x (smear m y).
Proof.
  intros Hm [Hy H]. unfold smear. split; [apply Z.lor_nonneg; rewrite Z.shiftr_nonneg; done|].
  intros i Hi. rewrite Z.lor_spec, Z.shiftr_spec, orb_true_iff, !H by lia. split.
  - intros [(j & Hj & E)|(j & Hj & E)]; [exists j; split; [lia|done]|].
    exists (m + j). split; [lia|]. by rewrite Z.add_assoc.
  - intros (j & Hj & E). destruct (Z.lt_ge_cases j m); [left; exists j; split; [lia|done]|].
    right. exists (j - m). split; [lia|]. by replace (i + m + (j - m)) with (i + j) by lia.
Qed.

Lemma smeared_ones m x y : 0 < x < 2 ^ m → smeared m x y → y = Z.ones (Z.log2 x + 1).
Proof.
  intros Hx [Hy H]. pose proof (Z.log2_nonneg x).
  assert (Z.log2 x < m) by (apply Z.log2_lt_pow2; lia).
  apply Z.bits_inj'. intros i Hi. apply eq_true_iff_eq. rewrite H by done.
  rewrite Z.ones_spec_iff by lia. split.
  - intros (j & Hj & E). split; [done|].
    destruct (Z.le_gt_cases (i + j) (Z.log2 x)); [lia|].
    by rewrite Z.bits_above_log2 in E by lia.
  - intros Hlt. exists (Z.log2 x - i). split; [lia|].
    replace (i + (Z.log2 x - i)) with (Z.log2 x) by lia. apply Z.bit_log2. lia.
Qed.

Lemma ffs_smeared x n :
  0 < x < 2 ^ n →
  (let y := (Z.ones (Z.log2 x + 1) + 1) mod 2 ^ n in
   if y =? 0 then n - 1 else ffs_lu y - 1) = Z.log2 x.
Proof.
  intros Hx. pose proof (Z.log2_nonneg x).
  assert (Z.log2 x < n) by (apply Z.log2_lt_pow2; lia).
  rewrite Z.ones_equiv. replace (Z.pred (2 ^ (Z.log2 x + 1)) + 1) with (2 ^ (Z.log2 x + 1)) by lia.
  simpl. destruct (decide (Z.log2 x + 1 = n)) as [E|E].
  - rewrite E, Z.mod_same by lia. simpl. lia.
  - assert (0 < 2 ^ (Z.log2 x + 1)) by (apply Z.pow_pos_nonneg; lia).
    rewrite Z.mod_small by (split; [lia|apply Z.pow_lt_mono_r; lia]).
    case_match; [lia|]. rewrite ffs_lu_ctzl, ctzl_pow2 by lia. lia.
Qed.

Lemma fls_lu_slow_log2 x : 0 < x < 2 ^ 64 → fls_lu_slow x = Z.log2 x.
Proof.
  intros Hx. unfold fls_lu_slow, u64. rewrite (smeared_ones 64 x (smear 32 _) Hx).
  - by apply (ffs_smeared x 64).
  - apply (smeared_double 32), (smeared_double 16), (smeared_double 8), (smeared_double 4),
      (smeared_double 2), (smeared_double 1), smeared_once; lia.
Qed.

Lemma fls_u_slow_log2 x : 0 < x < 2 ^ 32 → fls_u_slow x = Z.log2 x.
Proof.
  intros Hx. unfold fls_u_slow, u32. rewrite (smeared_ones 32 x (smear 16 _) Hx).
  - by apply (ffs_smeared x 32).
  - apply (smeared_double 16), (smeared_double 8), (smeared_double 4),
      (smeared_double 2), (smeared_double 1), smeared_once; lia.
Qed.

(** Complementing the six low bits is subtraction from 63. *)
Lemma lxor_63 k : 0 ≤ k < 64 → Z.lxor 63 k = 63 - k.
Proof.
  intros Hk. change 63 with (Z.ones 6).
  assert (Z.ldiff (Z.ones 6) k = Z.lxor (Z.ones 6) k) as <-.
  { apply Z.bits_inj'. intros i Hi. rewrite Z.ldiff_spec, Z.lxor_spec.
    destruct (decide (i < 6)).
    - rewrite Z.ones_spec_low by lia. by destruct (Z.testbit k i).
    - rewrite Z.ones_spec_high by lia. rewrite (Z.bits_above_log2 k); [done|lia|].
      destruct (decide (k = 0)) as [->|]; [simpl; lia|].
      assert (Z.log2 k < 6) by (apply Z.log2_lt_pow2; lia). lia. }
  symmetry. apply Z.sub_nocarry_ldiff. apply Z.bits_inj'. intros i Hi. rewrite Z.ldiff_spec, Z.bits_0.
  destruct (decide (i < 6)); [rewrite Z.ones_spec_low by lia; apply andb_false_r|].
  rewrite (Z.bits_above_log2 k); [done|lia|].
  destruct (decide (k = 0)) as [->|]; [simpl; lia|].
  assert (Z.log2 k < 6) by (apply Z.log2_lt_pow2; lia). lia.
Qed.

Lemma log2_u64 x : 0 < x < 2 ^ 64 → 0 ≤ Z.log2 x < 64.
Proof. intros Hx. split; [apply Z.log2_nonneg|]. apply Z.log2_lt_pow2; lia. Qed.

Lemma fls_lu_log2 x : 0 < x < 2 ^ 64 → fls_lu x = Z.log2 x.
Proof.
  intros Hx. pose proof (log2_u64 x Hx). unfold fls_lu, clzl.
  change (8 * 8 - 1) with 63. rewrite lxor_63; lia.
Qed.

(** One level of the [LG_FLOOR] macros. *)
Lemma lg_floor_step k F x :
  0 < k → (∀ y, 0 < y < 2 ^ k → F y = Z.log2 y) → 0 < x < 2 ^ (k + k) →
  (if x <? 2 ^ k then F x else k + F (Z.shiftr x k)) = Z.log2 x.
Proof.
  intros Hk HF Hx. destruct (Z.ltb_spec x (2 ^ k)) as [Hlt|Hge]; [apply HF; lia|].
  rewrite Z.pow_add_r in Hx by lia. assert (0 < 2 ^ k) by (apply Z.pow_pos_nonneg; lia).
  assert (1 ≤ x / 2 ^ k < 2 ^ k).
  { split; [by apply Z.div_le_lower_bound; lia|]. apply Z.div_lt_upper_bound; lia. }
  rewrite Z.shiftr_div_pow2, HF by lia.
  rewrite <- Z.shiftr_div_pow2, Z.log2_shiftr by lia.
  assert (k ≤ Z.log2 x) by (apply Z.log2_le_pow2; lia). lia.
Qed.

Lemma LG_FLOOR_64_log2 x : 0 < x < 2 ^ 64 → LG_FLOOR_64 x = Z.log2 x.
Proof.
  assert (∀ y, 0 < y < 2 ^ 2 → LG_FLOOR_2 y = Z.log2 y) as H2.
  { intros y. apply (lg_floor_step 1 LG_FLOOR_1); [lia|]. intros z Hz. replace z with 1 by lia. done. }
  assert (∀ y, 0 < y < 2 ^ 4 → LG_FLOOR_4 y = Z.log2 y) as H4
    by (intros y; apply (lg_floor_step 2 LG_FLOOR_2); [lia|exact H2]).
  assert (∀ y, 0 < y < 2 ^ 8 → LG_FLOOR_8 y = Z.log2 y) as H8
    by (intros y; apply (lg_floor_step 4 LG_FLOOR_4); [lia|exact H4]).
  assert (∀ y, 0 < y < 2 ^ 16 → LG_FLOOR_16 y = Z.log2 y) as H16
    by (intros y; apply (lg_floor_step 8 LG_FLOOR_8); [lia|exact H8]).
  assert (∀ y, 0 < y < 2 ^ 32 → LG_FLOOR_32 y = Z.log2 y) as H32
    by (intros y; apply (lg_floor_step 16 LG_FLOOR_16); [lia|exact H16]).
  apply (lg_floor_step 32 LG_FLOOR_32); [lia|exact H32].
Qed.

(** ** Powers of two *)

Lemma land_pred_pow2 x : 0 < x → Z.land x (x - 1) = 0 ↔ x = 2 ^ Z.log2 x.
Proof.
  intros Hx. pose proof (Z.log2_nonneg x). split.
  - intros E. destruct (decide (x = 2 ^ Z.log2 x)) as [|Hne]; [done|].
    pose proof (Z.log2_spec x Hx).
    assert (Z.log2 (x - 1) = Z.log2 x) as El by (apply Z.log2_unique; lia).
    assert (Z.testbit (Z.land x (x - 1)) (Z.log2 x) = true) as Hb.
    { rewrite Z.land_spec, Z.bit_log2 by lia. rewrite <- El. by rewrite Z.bit_log2 by lia. }
    by rewrite E, Z.bits_0 in Hb.
  - intros E. revert E H. generalize (Z.log2 x). intros k -> Hk.
    rewrite land_low by done. by apply Z.mod_same, Z.pow_nonzero.
Qed.

Lemma lg_ceil_floor x : 0 < x → Z.log2 x + (if Z.land x (x - 1) =? 0 then 0 else 1) = Z.log2_up x.
Proof.
  intros Hx. pose proof (Z.log2_nonneg x). pose proof (Z.log2_spec x Hx).
  destruct (Z.eqb_spec (Z.land x (x - 1)) 0) as [E|E].
  - apply land_pred_pow2 in E; [|done]. replace (Z.log2_up x) with (Z.log2_up (2 ^ Z.log2 x)) by (by rewrite <- E).
    rewrite Z.log2_up_pow2; lia.
  - assert (x ≠ 2 ^ Z.log2 x) by (intros E'; by apply E, land_pred_pow2).
    assert (x ≠ 1) by (intros ->; done).
    rewrite Z.log2_up_eqn by lia.
    replace (Z.log2 (Z.pred x)) with (Z.log2 x); [lia|]. symmetry. apply Z.log2_unique; lia.
Qed.

Lemma lg_floor_log2 x : 0 < x < 2 ^ 64 → lg_floor x = Z.log2 x.
Proof. apply fls_lu_log2. Qed.

Lemma lg_ceil_log2_up x : 0 < x < 2 ^ 64 → lg_ceil x = Z.log2_up x.
Proof. intros Hx. unfold lg_ceil. rewrite lg_floor_log2 by lia. apply lg_ceil_floor. lia. Qed.

Lemma pow2_ceil_log2_up x : 1 ≤ x ≤ 2 ^ 63 → pow2_ceil_u64 x = 2 ^ Z.log2_up x.
Proof.
  intros Hx. unfold pow2_ceil_u64. destruct (Z.leb_spec x 1); [assert (x = 1) as -> by lia; reflexivity|].
  rewrite fls_lu_log2, Z.log2_up_eqn by lia. rewrite Z.sub_1_r, Z.add_1_r.
  assert (Z.log2 (Z.pred x) < 63) by (apply Z.log2_lt_pow2; lia).
  pose proof (Z.log2_nonneg (Z.pred x)).
  unfold shl64. rewrite Z.shiftl_1_l, u64_small; [done|]. split; [apply Z.pow_nonneg; lia|].
  apply Z.pow_lt_mono_r; lia.
Qed.

(** ** Population count

    The portable count works on all bytes of the word at once.  [sum_bytes] is
    what it computes before the multiplication, on a word of [n] bytes with the
    byte masks written out; its bytes are those of the word counted one by one. *)

Fixpoint rep (n : nat) (m : Z) : Z :=
  match n with O => 0 | S n => m + 256 * rep n m end.

Definition sum_pairs (m x : Z) : Z := x - Z.land (Z.shiftr x 1) m.
Definition sum_nibbles (m x : Z) : Z := Z.land x m + Z.land (Z.shiftr x 2) m.
Definition sum_bytes (m x : Z) : Z := Z.land (x + Z.shiftr x 4) m.

Lemma rep_nonneg n m : 0 ≤ m → 0 ≤ rep n m.
Proof. intros. induction n; simpl; lia. Qed.

Lemma testbit_byte b y i : 0 ≤ b < 256 → 0 ≤ i →
  Z.testbit (b + 256 * y) i = if decide (i < 8) then Z.testbit b i else Z.testbit y (i - 8).
Proof.
  intros Hb Hi. case_decide.
  - rewrite <- (Z.mod_pow2_bits_low _ 8) by done. f_equal.
    replace (256 * y) with (y * 2 ^ 8) by lia. rewrite Z.mod_add by done. by apply Z.mod_small.
  - replace i with (i - 8 + 8) at 1 by lia. rewrite <- Z.div_pow2_bits by lia. f_equal.
    replace (256 * y) with (y * 2 ^ 8) by lia. rewrite Z.div_add by done. rewrite Z.div_small; lia.
Qed.

Lemma land_byte b m y M :
  0 ≤ b < 256 → 0 ≤ m < 256 → Z.land (b + 256 * y) (m + 256 * M) = Z.land b m + 256 * Z.land y M.
Proof.
  intros Hb Hm.
  assert (0 ≤ Z.land b m < 256).
  { split; [by apply Z.land_nonneg; left; lia|].
    destruct (decide (Z.land b m = 0)) as [->|]; [lia|].
    assert (0 ≤ Z.land b m) by (apply Z.land_nonneg; left; lia).
    destruct (decide (b = 0)) as [->|]; [done|]. destruct (decide (m = 0)) as [->|]; [by rewrite Z.land_0_r in *|].
    apply (Z.log2_lt_pow2 _ 8); [lia|]. eapply Z.le_lt_trans; [apply Z.log2_land; lia|].
    apply Z.min_lt_iff. left. apply Z.log2_lt_pow2; lia. }
  apply Z.bits_inj'. intros i Hi. rewrite Z.land_spec, !testbit_byte by done.
  case_decide; by rewrite Z.land_spec.
Qed.

(** Shifting a word right by [k] brings the low bits of the next byte into the
    top [k] bits of each byte. *)
Lemma shiftr_byte k b y : 0 ≤ k ≤ 8 → 0 ≤ b →
  Z.shiftr (b + 256 * y) k = (b / 2 ^ k + 2 ^ (8 - k) * (y mod 2 ^ k)) + 256 * (y / 2 ^ k).
Proof.
  intros Hk Hb. rewrite Z.shiftr_div_pow2 by lia.
  assert (0 < 2 ^ k) by (apply Z.pow_pos_nonneg; lia).
  replace 256 with (2 ^ (8 - k) * 2 ^ k) by (rewrite <- Z.pow_add_r by lia; by replace (8 - k + k) with 8 by lia).
  replace (b + 2 ^ (8 - k) * 2 ^ k * y) with (b + 2 ^ (8 - k) * y * 2 ^ k) by ring.
  rewrite Z.div_add by lia. rewrite (Z.div_mod y (2 ^ k)) at 1 by lia. ring.
Qed.

(** Masks of a byte that clear the bits a shift brings in. *)
Lemma land_shifted m k b y :
  m = 0x55 ∧ k = 1 ∨ m = 0x33 ∧ k = 2 → 0 ≤ b < 256 →
  Z.land (b / 2 ^ k + 2 ^ (8 - k) * (y mod 2 ^ k)) m = Z.land (Z.shiftr b k) m ∧
  0 ≤ b / 2 ^ k + 2 ^ (8 - k) * (y mod 2 ^ k) < 256.
Proof.
  intros Hmk Hb.
  assert (0 ≤ k ≤ 8) by lia. assert (0 < 2 ^ k) by (apply Z.pow_pos_nonneg; lia).
  assert (0 < 2 ^ (8 - k)) by (apply Z.pow_pos_nonneg; lia).
  assert (2 ^ (8 - k) * 2 ^ k = 256) as E by (rewrite <- Z.pow_add_r by lia; by replace (8 - k + k) with 8 by lia).
  pose proof (Z.mod_pos_bound y (2 ^ k)).
  assert (0 ≤ b / 2 ^ k < 2 ^ (8 - k)) 
    by (split; [apply Z.div_pos; lia|apply Z.div_lt_upper_bound; [lia|rewrite Z.mul_comm, E; lia]]).
  split; [|nia]. apply Z.bits_inj'. intros i Hi. rewrite !Z.land_spec, Z.shiftr_div_pow2 by lia.
  destruct (decide (i < 8 - k)).
  - f_equal. rewrite <- (Z.mod_pow2_bits_low _ (8 - k)) by done. f_equal.
    rewrite (Z.mul_comm (2 ^ (8 - k))), Z.mod_add by lia. apply Z.mod_small. lia.
  - assert (Z.testbit m i = false) as ->; [|by rewrite !andb_false_r].
    apply Z.bits_above_log2; [lia|]. destruct Hmk as [[-> ->]|[-> ->]]; simpl; lia.
Qed.

(** A fact about every byte, checked on each. *)
Lemma all_bytes (P : Z → Prop) `{∀ b, Decision (P b)} b :
  forallb (λ n, bool_decide (P (Z.of_nat n))) (seq 0 256) = true → 0 ≤ b < 256 → P b.
Proof.
  intros Hall Hb. rewrite forallb_forall in Hall. specialize (Hall (Z.to_nat b)).
  rewrite Z2Nat.id in Hall by lia. apply bool_decide_eq_true in Hall; [done|]. apply in_seq. lia.
Qed.

Definition count_byte (b : Z) : Z :=
  sum_bytes 0x0F (sum_nibbles 0x33 (sum_pairs 0x55 b)).

Lemma count_byte_ok b : 0 ≤ b < 256 → count_byte b = popcountl b.
Proof. by apply (all_bytes (λ b, count_byte b = popcountl b)); vm_compute. Qed.

Lemma popcountl_byte b y : 0 ≤ b < 256 → 0 ≤ y → popcountl (b + 256 * y) = popcountl b + popcountl y.
Proof.
  assert (∀ z, 0 ≤ z → popcountl (2 * z) = popcountl z ∧ popcountl (2 * z + 1) = 1 + popcountl z) as H2
    by (by intros [|p|p] ?).
  assert (∀ n b y, 0 ≤ b < 2 ^ Z.of_nat n → 0 ≤ y →
    popcountl (b + 2 ^ Z.of_nat n * y) = popcountl b + popcountl y) as Hgen.
  { induction n as [|n IH]; intros c z Hc Hz.
    - replace c with 0 by (change (2 ^ Z.of_nat 0) with 1 in Hc; lia). by rewrite Z.mul_1_l.
    - rewrite Nat2Z.inj_succ, Z.pow_succ_r in * by lia.
      pose proof (Z.div_mod c 2). pose proof (Z.mod_pos_bound c 2). set (q := c / 2) in *.
      assert (0 ≤ q < 2 ^ Z.of_nat n) by lia. assert (0 ≤ 2 ^ Z.of_nat n * z) by lia.
      specialize (IH q z ltac:(lia) ltac:(lia)). destruct (decide (c mod 2 = 0)).
      + replace (c + 2 * 2 ^ Z.of_nat n * z) with (2 * (q + 2 ^ Z.of_nat n * z)) by lia.
        rewrite (proj1 (H2 (q + 2 ^ Z.of_nat n * z) ltac:(lia))), IH. replace c with (2 * q) by lia. by rewrite (proj1 (H2 q ltac:(lia))).
      + replace (c + 2 * 2 ^ Z.of_nat n * z) with (2 * (q + 2 ^ Z.of_nat n * z) + 1) by lia.
        rewrite (proj2 (H2 (q + 2 ^ Z.of_nat n * z) ltac:(lia))), IH. replace c with (2 * q + 1) by lia. rewrite (proj2 (H2 q ltac:(lia))). lia. }
  intros Hb Hy. by apply (Hgen 8%nat).
Qed.

Lemma sum_pairs_byte b y M : 0 ≤ b < 256 →
  sum_pairs (0x55 + 256 * M) (b + 256 * y) = sum_pairs 0x55 b + 256 * sum_pairs M y.
Proof.
  intros Hb. unfold sum_pairs. rewrite shiftr_byte by lia.
  destruct (land_shifted 0x55 1 b y) as [E Hr]; [by left|done|].
  rewrite land_byte by (done || lia). rewrite E, (Z.shiftr_div_pow2 y) by lia. lia.
Qed.

Lemma sum_nibbles_byte b y M : 0 ≤ b < 256 →
  sum_nibbles (0x33 + 256 * M) (b + 256 * y) = sum_nibbles 0x33 b + 256 * sum_nibbles M y.
Proof.
  intros Hb. unfold sum_nibbles. rewrite shiftr_byte by lia.
  destruct (land_shifted 0x33 2 b y) as [E Hr]; [by right|done|].
  rewrite !land_byte by (done || lia). rewrite E, (Z.shiftr_div_pow2 y) by lia. lia.
Qed.

Lemma sum_bytes_byte b y M : 0 ≤ b → b mod 16 ≤ 4 → b / 16 ≤ 4 → y mod 16 ≤ 4 →
  sum_bytes (0x0F + 256 * M) (b + 256 * y) = sum_bytes 0x0F b + 256 * sum_bytes M y.
Proof.
  intros Hb Hl Hh Hy. unfold sum_bytes. rewrite shiftr_byte by lia.
  change (2 ^ (8 - 4)) with 16. change (2 ^ 4) with 16.
  pose proof (Z.div_mod b 16). pose proof (Z.mod_pos_bound b 16). pose proof (Z.mod_pos_bound y 16).
  pose proof (Z.div_pos b 16). set (l := b mod 16) in *. set (h := b / 16) in *. set (ly := y mod 16) in *.
  replace (b + 256 * y + (h + 16 * ly + 256 * (y / 16)))
    with ((l + h + 16 * (h + ly)) + 256 * (y + y / 16)) by lia.
  rewrite land_byte by lia. rewrite (Z.shiftr_div_pow2 y) by lia. change (2 ^ 4) with 16.
  f_equal. rewrite Z.shiftr_div_pow2 by lia. change (b / 2 ^ 4) with h. replace (b + h) with (l + h + 16 * h) by lia.
  change 15 with (Z.ones 4). rewrite !Z.land_ones by lia. change (2 ^ 4) with 16.
  by rewrite !(Z.mul_comm 16), !Z.mod_add.
Qed.

(** The counts of the bytes of a word of [n] bytes, as the bytes of a word. *)
Fixpoint byte_counts (n : nat) (x : Z) : Z :=
  match n with O => 0 | S n => popcountl (x mod 256) + 256 * byte_counts n (x / 256) end.

Lemma nibble_counts b : 0 ≤ b < 256 →
  let b2 := sum_nibbles 0x33 (sum_pairs 0x55 b) in
  0 ≤ b2 ∧ b2 ≤ 0x44 ∧ b2 mod 16 ≤ 4 ∧ b2 / 16 ≤ 4.
Proof.
  apply (all_bytes (λ b, 0 ≤ sum_nibbles 0x33 (sum_pairs 0x55 b) ∧ sum_nibbles 0x33 (sum_pairs 0x55 b) ≤ 0x44 ∧
    sum_nibbles 0x33 (sum_pairs 0x55 b) mod 16 ≤ 4 ∧ sum_nibbles 0x33 (sum_pairs 0x55 b) / 16 ≤ 4)).
  vm_compute. reflexivity.
Qed.

Lemma popcount_words n x :
  0 ≤ x < 256 ^ Z.of_nat n →
  let x1 := sum_pairs (rep n 0x55) x in
  let x2 := sum_nibbles (rep n 0x33) x1 in
  0 ≤ x1 < 256 ^ Z.of_nat n ∧ 0 ≤ x2 ≤ rep n 0x44 ∧ x2 mod 16 ≤ 4 ∧
  sum_bytes (rep n 0x0F) x2 = byte_counts n x.
Proof.
  revert x. induction n as [|n IH]; intros x Hx.
  { change (256 ^ Z.of_nat 0) with 1 in Hx. assert (x = 0) as -> by lia. by vm_compute. }
  rewrite Nat2Z.inj_succ, Z.pow_succ_r in * by lia. cbv zeta. simpl rep. simpl byte_counts.
  pose proof (Z.div_mod x 256). pose proof (Z.mod_pos_bound x 256). set (b := x mod 256) in *. set (y := x / 256) in *.
  assert (0 ≤ y < 256 ^ Z.of_nat n) as Hy by lia. destruct (IH y Hy) as (R1 & R2 & Hl & E). clear IH. cbv zeta in *.
  replace x with (b + 256 * y) by lia. assert (0 ≤ b < 256) as Hb by lia.
  rewrite sum_pairs_byte by done. set (y1 := sum_pairs _ y) in *.
  assert (0 ≤ sum_pairs 0x55 b < 256) as Hb1.
  { by apply (all_bytes (λ b, 0 ≤ sum_pairs 0x55 b < 256)); [vm_compute|]. }
  rewrite sum_nibbles_byte by done. set (y2 := sum_nibbles _ y1) in *.
  pose proof (nibble_counts b Hb) as Hb2.
  pose proof (count_byte_ok b Hb) as Hc. unfold count_byte in Hc.
  set (b2 := sum_nibbles 0x33 (sum_pairs 0x55 b)) in *. destruct Hb2 as (? & ? & ? & ?). rewrite sum_bytes_byte by done. rewrite Hc, E.
  split; [lia|]. split; [lia|]. split; [|done].
  replace (b2 + 256 * y2) with (b2 + (16 * y2) * 16) by lia. by rewrite Z.mod_add.
Qed.

Lemma byte_counts_step n x : 0 ≤ x →
  ∃ p, 0 ≤ p ≤ 8 ∧ byte_counts (S n) x = p + 256 * byte_counts n (x / 256) ∧ popcountl x = p + popcountl (x / 256).
Proof.
  intros Hx. pose proof (Z.div_mod x 256). pose proof (Z.mod_pos_bound x 256).
  exists (popcountl (x mod 256)). split.
  - apply (all_bytes (λ b, 0 ≤ popcountl b ≤ 8)); [by vm_compute|lia].
  - split; [done|]. replace x with (x mod 256 + 256 * (x / 256)) at 1 by lia. apply popcountl_byte; lia.
Qed.

Lemma top_byte k t r q z v :
  0 ≤ k → 0 ≤ t < 256 → 0 ≤ r < 2 ^ (8 * k) → z = r + 2 ^ (8 * k) * t + 2 ^ (8 * (k + 1)) * q → v = t →
  u32 (Z.shiftr (z mod 2 ^ (8 * (k + 1))) (k * 8)) = v.
Proof.
  intros Hk Ht Hr -> ->. assert (2 ^ (8 * (k + 1)) = 256 * 2 ^ (8 * k)) as E.
  { replace (8 * (k + 1)) with (8 + 8 * k) by lia. by rewrite Z.pow_add_r by lia. }
  rewrite (Z.mul_comm (2 ^ (8 * (k + 1)))), Z.mod_add, Z.mod_small by nia.
  rewrite (Z.mul_comm k), Z.shiftr_div_pow2, (Z.mul_comm (2 ^ (8 * k))), Z.div_add, Z.div_small by lia.
  unfold u32. apply Z.mod_small. lia.
Qed.

Lemma popcount_lu_slow_ok x : 0 ≤ x < 2 ^ 64 → popcount_lu_slow x = popcountl x.
Proof.
  intros Hx. destruct (popcount_words 8 x) as (R1 & R2 & _ & E); [exact Hx|].
  unfold popcount_lu_slow, popcount_slow. change (2 ^ (8 * 8)) with (2 ^ 64).
  change ((0x55 * 0x0101010101010101) mod 2 ^ 64) with (rep 8 0x55).
  change ((0x0101010101010101 * 0x33) mod 2 ^ 64) with (rep 8 0x33).
  change ((0x0101010101010101 * 0x0F) mod 2 ^ 64) with (rep 8 0x0F).
  change (x - Z.land (Z.shiftr x 1) (rep 8 0x55)) with (sum_pairs (rep 8 0x55) x).
  set (x1 := sum_pairs _ x) in *. rewrite (Z.mod_small x1) by exact R1.
  change (Z.land x1 (rep 8 0x33) + Z.land (Z.shiftr x1 2) (rep 8 0x33)) with (sum_nibbles (rep 8 0x33) x1).
  set (x2 := sum_nibbles _ x1) in *. change (rep 8 68) with 4919131752989213764 in R2.
  rewrite (Z.mod_small x2) by lia.
  assert (0 ≤ Z.shiftr x2 4 ≤ x2).
  { rewrite Z.shiftr_div_pow2 by lia. split; [apply Z.div_pos; lia|]. apply Z.div_le_upper_bound; lia. }
  rewrite (Z.mod_small (x2 + _)) by lia.
  change (Z.land (x2 + Z.shiftr x2 4) (rep 8 15)) with (sum_bytes (rep 8 0x0F) x2). rewrite E.
  destruct (byte_counts_step 7 x) as (p0 & ? & -> & ->); [lia|].
  do 7 (match goal with |- context [byte_counts (S ?n) ?x] =>
    let p := fresh "p" in let E1 := fresh in let E2 := fresh in
    destruct (byte_counts_step n x) as (p & ? & E1 & E2); [repeat apply Z.div_pos; lia|]; rewrite E1, E2; clear E1 E2 end).
  replace (x / 256 / 256 / 256 / 256 / 256 / 256 / 256 / 256) with 0.
  2:{ rewrite !Z.div_div by lia. symmetry. apply Z.div_small. lia. }
  simpl byte_counts. simpl popcountl. clear E x1 x2 R1 R2 Hx x H.
  apply (top_byte 7 (p0 + p + p1 + p2 + p3 + p4 + p5 + p6)
    (p0 + 256 * (p0 + p) + 256 ^ 2 * (p0 + p + p1) + 256 ^ 3 * (p0 + p + p1 + p2) +
     256 ^ 4 * (p0 + p + p1 + p2 + p3) + 256 ^ 5 * (p0 + p + p1 + p2 + p3 + p4) +
     256 ^ 6 * (p0 + p + p1 + p2 + p3 + p4 + p5))
    (256 ^ 6 * p6 + 256 ^ 5 * (p6 + p5) + 256 ^ 4 * (p6 + p5 + p4) + 256 ^ 3 * (p6 + p5 + p4 + p3) +
     256 ^ 2 * (p6 + p5 + p4 + p3 + p2) + 256 * (p6 + p5 + p4 + p3 + p2 + p1) + (p6 + p5 + p4 + p3 + p2 + p1 + p))); lia.
Qed.

Lemma popcount_u_slow_ok x : 0 ≤ x < 2 ^ 32 → popcount_u_slow x = popcountl x.
Proof.
  intros Hx. destruct (popcount_words 4 x) as (R1 & R2 & _ & E); [exact Hx|].
  unfold popcount_u_slow, popcount_slow. change (u32 0x0101010101010101) with 0x01010101.
  change (2 ^ (8 * 4)) with (2 ^ 32).
  change ((0x55 * 0x01010101) mod 2 ^ 32) with (rep 4 0x55).
  change ((0x01010101 * 0x33) mod 2 ^ 32) with (rep 4 0x33).
  change ((0x01010101 * 0x0F) mod 2 ^ 32) with (rep 4 0x0F).
  change (x - Z.land (Z.shiftr x 1) (rep 4 0x55)) with (sum_pairs (rep 4 0x55) x).
  set (x1 := sum_pairs _ x) in *. rewrite (Z.mod_small x1) by exact R1.
  change (Z.land x1 (rep 4 0x33) + Z.land (Z.shiftr x1 2) (rep 4 0x33)) with (sum_nibbles (rep 4 0x33) x1).
  set (x2 := sum_nibbles _ x1) in *. change (rep 4 68) with 1145324612 in R2.
  rewrite (Z.mod_small x2) by lia.
  assert (0 ≤ Z.shiftr x2 4 ≤ x2).
  { rewrite Z.shiftr_div_pow2 by lia. split; [apply Z.div_pos; lia|]. apply Z.div_le_upper_bound; lia. }
  rewrite (Z.mod_small (x2 + _)) by lia.
  change (Z.land (x2 + Z.shiftr x2 4) (rep 4 15)) with (sum_bytes (rep 4 0x0F) x2). rewrite E.
  destruct (byte_counts_step 3 x) as (p0 & ? & -> & ->); [lia|].
  do 3 (match goal with |- context [byte_counts (S ?n) ?x] =>
    let p := fresh "p" in let E1 := fresh in let E2 := fresh in
    destruct (byte_counts_step n x) as (p & ? & E1 & E2); [repeat apply Z.div_pos; lia|]; rewrite E1, E2; clear E1 E2 end).
  replace (x / 256 / 256 / 256 / 256) with 0.
  2:{ rewrite !Z.div_div by lia. symmetry. apply Z.div_small. lia. }
  simpl byte_counts. simpl popcountl. clear E x1 x2 R1 R2 Hx x H.
  apply (top_byte 3 (p0 + p + p1 + p2)
    (p0 + 256 * (p0 + p) + 256 ^ 2 * (p0 + p + p1))
    (256 ^ 2 * p2 + 256 * (p2 + p1) + (p2 + p1 + p))); lia.
Qed.

(** The bit operations of the allocator.  On every non-zero word the portable
    [fls] and the one with the intrinsic agree, with each other and with the
    preprocessor's [LG_FLOOR]: they return the floor of the binary logarithm;
    [lg_ceil] and [LG_CEIL] return its ceiling; the portable population count is
    the number of bits set; [cfs_lu] removes exactly the lowest bit. *)
Theorem bit_util_correct x :
  0 < x < 2 ^ 64 →
  fls_lu x = Z.log2 x ∧ fls_lu_slow x = fls_lu x ∧ LG_FLOOR_64 x = fls_lu x ∧
  lg_ceil x = Z.log2_up x ∧ LG_CEIL x = lg_ceil x ∧
  popcount_lu_slow x = popcountl x ∧
  (x ≤ 2 ^ 63 → pow2_ceil_zu x = 2 ^ Z.log2_up x) ∧
  let '(bit, y) := cfs_lu x in
  ∀ i, 0 ≤ i → Z.testbit y i = (if decide (i = bit) then false else Z.testbit x i) ∧
    Z.testbit x bit = true ∧ (i < bit → Z.testbit x i = false).
Proof.
  intros Hx. rewrite fls_lu_slow_log2, LG_FLOOR_64_log2, fls_lu_log2, popcount_lu_slow_ok, lg_ceil_log2_up by lia.
  do 4 (split; [done|]). unfold LG_CEIL. rewrite LG_FLOOR_64_log2 by done. split; [apply lg_ceil_floor; lia|].
  split; [done|]. split; [intros; apply pow2_ceil_log2_up; lia|].
  unfold cfs_lu. rewrite ffs_lu_ctzl by lia. intros i Hi. pose proof (ctzl_lt x 64 Hx).
  destruct (ctzl_testbit x i) as [Hb Hlow]; [lia|done|]. split; [|done].
  unfold shl64. rewrite Z.shiftl_1_l, u64_small, Z.lxor_spec, Z.pow2_bits_eqb by
    (try split; try apply Z.pow_nonneg; try apply Z.pow_lt_mono_r; lia).
  case_decide as Hd; [subst i; by rewrite Hb, Z.eqb_refl|].
  assert (ctzl x =? i = false) as -> by lia. by destruct (Z.testbit x i).
Qed.

Lemma bit_util_correct_witness :
  fls_lu 0xF0F0 = 15 ∧ popcount_lu_slow 0xF0F0 = 8 ∧ pow2_ceil_zu 0xF0F0 = 2 ^ 16.
Proof.
  destruct (bit_util_correct 0xF0F0 ltac:(lia)) as (E1 & _ & _ & _ & _ & E2 & E3 & _).
  rewrite E1, E2, E3 by lia. repeat split; reflexivity.
Defined.
