(* ===== verification/SizeClass.v ===== *)
(** * Size classes, [jemalloc/src/sc.c] and [jemalloc/include/jemalloc/internal/sc.h]

    The table of size classes the allocator computes when it boots, for the
    parameters of an x86-64 build: pointers of 8 bytes, a quantum of 16 bytes and
    pages of 4 KiB. *)
From stdpp Require Import base list numbers.
From S2P Require Import Prelude BitUtil.

(** ** Parameters and the constants of [sc.h] *)

Definition LG_SIZEOF_PTR : Z := 3.
Definition LG_QUANTUM : Z := 4.
Definition LG_PAGE : Z := 12.
Definition PAGE : Z := shl64 1 LG_PAGE.
Definition PAGE_MASK : Z := PAGE - 1.
Definition PAGE_CEILING (s : Z) : Z := Z.land (u64 (s + PAGE_MASK)) (not64 PAGE_MASK).

Definition SC_LG_NGROUP : Z := 2.
Definition SC_LG_TINY_MIN : Z := 3.
Definition SC_NGROUP : Z := shl64 1 SC_LG_NGROUP.
Definition SC_PTR_BITS : Z := shl64 1 LG_SIZEOF_PTR * 8.
Definition SC_NTINY : Z := LG_QUANTUM - SC_LG_TINY_MIN.
Definition SC_LG_TINY_MAXCLASS : Z := if SC_LG_TINY_MIN <? LG_QUANTUM then LG_QUANTUM - 1 else -1.
Definition SC_NPSEUDO : Z := SC_NGROUP.
Definition SC_LG_FIRST_REGULAR_BASE : Z := LG_QUANTUM + SC_LG_NGROUP.
Definition SC_LG_BASE_MAX : Z := SC_PTR_BITS - 2.
Definition SC_NREGULAR : Z := SC_NGROUP * (SC_LG_BASE_MAX - SC_LG_FIRST_REGULAR_BASE + 1) - 1.
Definition SC_NSIZES : Z := SC_NTINY + SC_NPSEUDO + SC_NREGULAR.
Definition SC_NPSIZES : Z :=
  SC_NGROUP + (SC_LG_BASE_MAX - (LG_PAGE + SC_LG_NGROUP)) * SC_NGROUP + SC_NGROUP - 1.
Definition SC_NBINS : Z :=
  SC_NTINY + SC_NPSEUDO + SC_NGROUP * (LG_PAGE + SC_LG_NGROUP - SC_LG_FIRST_REGULAR_BASE) - 1.
Definition SC_LG_MAX_LOOKUP : Z := 12.
Definition SC_LOOKUP_MAXCLASS : Z := shl64 1 SC_LG_MAX_LOOKUP.
Definition SC_SMALL_MAX_BASE : Z := shl64 1 (LG_PAGE + SC_LG_NGROUP - 1).
Definition SC_SMALL_MAX_DELTA : Z := shl64 1 (LG_PAGE - 1).
Definition SC_SMALL_MAXCLASS : Z := SC_SMALL_MAX_BASE + (SC_NGROUP - 1) * SC_SMALL_MAX_DELTA.
Definition SC_LARGE_MINCLASS : Z := shl64 1 (LG_PAGE + SC_LG_NGROUP).
Definition SC_LG_LARGE_MINCLASS : Z := LG_PAGE + SC_LG_NGROUP.
Definition SC_MAX_BASE : Z := shl64 1 (SC_PTR_BITS - 2).
Definition SC_MAX_DELTA : Z := shl64 1 (SC_PTR_BITS - 2 - SC_LG_NGROUP).
Definition SC_LARGE_MAXCLASS : Z := SC_MAX_BASE + (SC_NGROUP - 1) * SC_MAX_DELTA.
Definition SC_LG_SLAB_MAXREGS : Z := LG_PAGE - SC_LG_TINY_MIN.
(** From [bitmap.h]: room for the regions of a slab and for a bit per size class. *)
Definition LG_BITMAP_MAXBITS : Z :=
  if LG_CEIL SC_NSIZES <? SC_LG_SLAB_MAXREGS then SC_LG_SLAB_MAXREGS else LG_CEIL SC_NSIZES.
Definition BITMAP_MAXBITS : Z := shl64 1 LG_BITMAP_MAXBITS.

(** ** Data *)

Record sc := mkSc {
  sc_index : Z;
  sc_lg_base : Z;
  sc_lg_delta : Z;
  sc_ndelta : Z;
  sc_psz : bool;
  sc_bin : bool;
  sc_pgs : Z;
  sc_lg_delta_lookup : Z
}.

Record sc_data := mkScData {
  ntiny : Z;
  nlbins : Z;
  nbins : Z;
  nsizes : Z;
  lg_ceil_nsizes : Z;
  npsizes : Z;
  lg_tiny_maxclass : Z;
  lookup_maxclass : Z;
  small_maxclass : Z;
  lg_large_minclass : Z;
  large_minclass : Z;
  large_maxclass : Z;
  initialized : bool;
  scs : list sc
}.

(** ** Computing the table *)

Definition reg_size_compute (lg_base lg_delta ndelta : Z) : Z :=
  u64 (shl64 1 lg_base + shl64 ndelta lg_delta).

(** The loop of [slab_size], from [try_slab_size] and [try_nregs]; [fuel] bounds
    the number of pages tried. *)
Fixpoint slab_loop (fuel : nat) (page reg_size try_slab_size try_nregs : Z) : outcome Z :=
  match fuel with
  | O => Fault Diverges
  | S fuel =>
      let perfect_slab_size := try_slab_size in
      let perfect_nregs := try_nregs in
      let try_slab_size := u64 (try_slab_size + page) in
      let try_nregs := try_slab_size / reg_size in
      if perfect_slab_size =? u64 (perfect_nregs * reg_size) then Done (perfect_slab_size / page)
      else slab_loop fuel page reg_size try_slab_size try_nregs
  end.

Definition slab_size (lg_page lg_base lg_delta ndelta : Z) : outcome Z :=
  let page := shl64 1 lg_page in
  let reg_size := reg_size_compute lg_base lg_delta ndelta in
  if reg_size =? 0 then Fault DivideByZero
  else slab_loop (Z.to_nat (reg_size / page) + Z.to_nat reg_size + 1) page reg_size page (page / reg_size).

Definition size_class (lg_max_lookup lg_page lg_ngroup index lg_base lg_delta ndelta : Z) : outcome sc :=
  let size := reg_size_compute lg_base lg_delta ndelta in
  let psz := size mod shl64 1 lg_page =? 0 in
  let bin := size <? shl64 1 (lg_page + lg_ngroup) in
  pgs ← (if bin then slab_size lg_page lg_base lg_delta ndelta else Done 0);
  Done (mkSc index lg_base lg_delta ndelta psz bin pgs (if size <=? shl64 1 lg_max_lookup then lg_delta else 0)).

(** The local variables of [size_classes]. *)
Record scan := mkScan {
  s_index : Z; s_ndelta : Z; s_lg_base : Z; s_lg_delta : Z;
  s_ntiny : Z; s_nlbins : Z; s_lg_tiny_maxclass : Z; s_nbins : Z; s_npsizes : Z;
  s_lookup_maxclass : Z; s_small_maxclass : Z; s_lg_large_minclass : Z; s_large_maxclass : Z;
  s_sc : list sc
}.

Section size_classes.
Context (lg_ptr_size lg_quantum lg_tiny_min lg_max_lookup lg_page lg_ngroup : Z).

Definition ptr_bits : Z := shl64 1 lg_ptr_size * 8.
Definition ngroup : Z := shl64 1 lg_ngroup.

Definition scan0 : scan :=
  mkScan 0 0 lg_tiny_min lg_tiny_min 0 0 (-1) 0 0 0 0 0 0 [].

(** Storing the next class and counting it, as every loop does. *)
Definition store_class (st : scan) : outcome (sc * scan) :=
  c ← size_class lg_max_lookup lg_page lg_ngroup (s_index st) (s_lg_base st) (s_lg_delta st) (s_ndelta st);
  Done (c, mkScan (s_index st + 1) (s_ndelta st) (s_lg_base st) (s_lg_delta st)
    (s_ntiny st) (s_nlbins st) (s_lg_tiny_maxclass st)
    (if sc_bin c then s_nbins st + 1 else s_nbins st)
    (if sc_psz c then s_npsizes st + 1 else s_npsizes st)
    (s_lookup_maxclass st) (s_small_maxclass st) (s_lg_large_minclass st) (s_large_maxclass st)
    (s_sc st ++ [c])).

(** Tiny size classes: [while (lg_base < lg_quantum)]. *)
Fixpoint tiny_loop (fuel : nat) (st : scan) : outcome scan :=
  if s_lg_base st <? lg_quantum then
    match fuel with
    | O => Fault Diverges
    | S fuel =>
        '(c, st') ← store_class st;
        tiny_loop fuel (mkScan (s_index st') (s_ndelta st) (s_lg_base st + 1) (s_lg_base st)
          (s_ntiny st + 1) (if sc_lg_delta_lookup c =? 0 then s_nlbins st else s_index st + 1)
          (s_lg_base st) (s_nbins st') (s_npsizes st')
          (s_lookup_maxclass st) (s_small_maxclass st) (s_lg_large_minclass st) (s_large_maxclass st) (s_sc st'))
    end
  else Done st.

Definition set_delta (ndelta lg_base lg_delta : Z) (st : scan) : scan :=
  mkScan (s_index st) ndelta lg_base lg_delta (s_ntiny st) (s_nlbins st) (s_lg_tiny_maxclass st) (s_nbins st)
    (s_npsizes st) (s_lookup_maxclass st) (s_small_maxclass st) (s_lg_large_minclass st) (s_large_maxclass st) (s_sc st).

(** The first class of the pseudo group, with its unusual encoding. *)
Definition first_pseudo (st : scan) : outcome scan :=
  if s_ntiny st =? 0 then Done st
  else
    '(_, st') ← store_class (set_delta 1 (s_lg_base st - 1) (s_lg_delta st) st);
    Done (set_delta 1 (s_lg_base st) (s_lg_delta st + 1) st').

Fixpoint pseudo_loop (fuel : nat) (st : scan) : outcome scan :=
  if s_ndelta st <? ngroup then
    match fuel with
    | O => Fault Diverges
    | S fuel =>
        '(_, st') ← store_class st;
        pseudo_loop fuel (set_delta (s_ndelta st + 1) (s_lg_base st) (s_lg_delta st) st')
    end
  else Done st.

(** One group: [while (ndelta <= ndelta_limit)]. *)
Fixpoint group_loop (fuel : nat) (ndelta_limit : Z) (st : scan) : outcome scan :=
  if s_ndelta st <=? ndelta_limit then
    match fuel with
    | O => Fault Diverges
    | S fuel =>
        '(c, st') ← store_class st;
        let size := u64 (shl64 1 (s_lg_base st) + shl64 (s_ndelta st) (s_lg_delta st)) in
        group_loop fuel ndelta_limit
          (mkScan (s_index st') (s_ndelta st + 1) (s_lg_base st) (s_lg_delta st) (s_ntiny st)
             (if sc_lg_delta_lookup c =? 0 then s_nlbins st else s_index st + 1) (s_lg_tiny_maxclass st)
             (s_nbins st') (s_npsizes st')
             (if sc_lg_delta_lookup c =? 0 then s_lookup_maxclass st else size)
             (if sc_bin c then size else s_small_maxclass st)
             (if sc_bin c then (if 0 <? lg_ngroup then s_lg_base st + 1 else s_lg_base st + 2)
              else s_lg_large_minclass st)
             size (s_sc st'))
    end
  else Done st.

(** All remaining groups: [while (lg_base < ptr_bits - 1)]. *)
Fixpoint groups_loop (fuel : nat) (st : scan) : outcome scan :=
  if s_lg_base st <? ptr_bits - 1 then
    match fuel with
    | O => Fault Diverges
    | S fuel =>
        let ndelta_limit := if s_lg_base st =? ptr_bits - 2 then ngroup - 1 else ngroup in
        st' ← group_loop (Z.to_nat ngroup) ndelta_limit (set_delta 1 (s_lg_base st) (s_lg_delta st) st);
        groups_loop fuel (set_delta (s_ndelta st') (s_lg_base st' + 1) (s_lg_delta st' + 1) st')
    end
  else Done st.

(** Each loop raises its counter by one towards its bound, so a fuel of the bound
    is enough. *)
Definition size_classes : outcome sc_data :=
  st ← tiny_loop (Z.to_nat lg_quantum) scan0;
  st ← first_pseudo st;
  st ← pseudo_loop (Z.to_nat ngroup) st;
  st ← groups_loop (Z.to_nat ptr_bits) (set_delta (s_ndelta st) (s_lg_base st + lg_ngroup) (s_lg_delta st) st);
  Done (mkScData (s_ntiny st) (s_nlbins st) (s_nbins st) (s_index st) (lg_ceil (s_index st)) (s_npsizes st)
    (s_lg_tiny_maxclass st) (s_lookup_maxclass st) (s_small_maxclass st) (s_lg_large_minclass st)
    (shl64 1 (s_lg_large_minclass st)) (s_large_maxclass st) false (s_sc st)).
End size_classes.

Definition sc_data_init : outcome sc_data :=
  d ← size_classes LG_SIZEOF_PTR LG_QUANTUM SC_LG_TINY_MIN SC_LG_MAX_LOOKUP LG_PAGE SC_LG_NGROUP;
  Done (mkScData (ntiny d) (nlbins d) (nbins d) (nsizes d) (lg_ceil_nsizes d) (npsizes d) (lg_tiny_maxclass d)
    (lookup_maxclass d) (small_maxclass d) (lg_large_minclass d) (large_minclass d) (large_maxclass d) true (scs d)).

Definition sc_boot : outcome sc_data := sc_data_init.

(** ** Changing the slab sizes *)

Definition sc_data_update_sc_slab_size (reg_size pgs_guess : Z) (c : sc) : sc :=
  let min_pgs := if reg_size mod PAGE =? 0 then reg_size / PAGE else reg_size / PAGE + 1 in
  let max_pgs := u64 (BITMAP_MAXBITS * reg_size) / PAGE in
  let pgs := if pgs_guess <? min_pgs then i32 min_pgs
             else if max_pgs <? pgs_guess then i32 max_pgs else i32 pgs_guess in
  mkSc (sc_index c) (sc_lg_base c) (sc_lg_delta c) (sc_ndelta c) (sc_psz c) (sc_bin c) pgs (sc_lg_delta_lookup c).

(** The loop over the classes, which stops at the first that is not a bin. *)
Fixpoint update_slabs (begin end_ pgs : Z) (l : list sc) : list sc :=
  match l with
  | [] => []
  | c :: l' =>
      if sc_bin c then
        let reg_size := reg_size_compute (sc_lg_base c) (sc_lg_delta c) (sc_ndelta c) in
        (if (begin <=? reg_size) && (reg_size <=? end_)
         then sc_data_update_sc_slab_size reg_size (u64 pgs) c else c) :: update_slabs begin end_ pgs l'
      else l
  end.

Definition sc_data_update_slab_size (begin end_ pgs : Z) (d : sc_data) : sc_data :=
  mkScData (ntiny d) (nlbins d) (nbins d) (nsizes d) (lg_ceil_nsizes d) (npsizes d) (lg_tiny_maxclass d)
    (lookup_maxclass d) (small_maxclass d) (lg_large_minclass d) (large_minclass d) (large_maxclass d)
    (initialized d) (update_slabs begin end_ pgs (scs d)).

(** ** Slabs *)

Lemma slab_loop_least page reg_size m fuel k :
  0 < page → 0 < reg_size → (reg_size | m * page) → (m + 1) * page < 2 ^ 64 →
  1 ≤ k ≤ m → (∀ j, 1 ≤ j < k → ¬ (reg_size | j * page)) → m - k < Z.of_nat fuel →
  ∃ n, slab_loop fuel page reg_size (k * page) (k * page / reg_size) = Done n ∧
    1 ≤ n ≤ m ∧ (reg_size | n * page) ∧ ∀ j, 1 ≤ j < n → ¬ (reg_size | j * page).
Proof.
  intros Hp Hr Hm Hfit. revert k. induction fuel as [|fuel IH]; intros k Hk Hno Hfuel; [lia|].
  assert ((k + 1) * page < 2 ^ 64) by nia.
  simpl. pose proof (Z.mul_div_le (k * page) reg_size Hr).
  assert (0 ≤ k * page / reg_size) by (apply Z.div_pos; nia).
  rewrite (u64_small (k * page / reg_size * reg_size)) by (unfold is_u64; nia).
  destruct (Z.eqb_spec (k * page) (k * page / reg_size * reg_size)) as [E|E].
  - exists k. rewrite Z.div_mul by lia. split; [done|]. split; [lia|]. split; [|done].
    exists (k * page / reg_size). lia.
  - assert (k ≠ m).
    { intros ->. destruct Hm as [q Hq]. rewrite Hq, Z.div_mul in E by lia. lia. }
    rewrite u64_small by (unfold is_u64; nia). replace (k * page + page) with ((k + 1) * page) by lia.
    apply IH; [lia| |lia]. intros j Hj. destruct (decide (j = k)) as [->|]; [|apply Hno; lia].
    intros [q Hq]. apply E. rewrite Hq, Z.div_mul by lia. lia.
Qed.

(** The search for a slab size ends, and finds the smallest number of pages
    that the regions fill exactly. *)
Theorem slab_size_least lg_page lg_base lg_delta ndelta :
  0 ≤ lg_page < 32 → let reg_size := reg_size_compute lg_base lg_delta ndelta in
  0 < reg_size < 2 ^ 31 →
  ∃ n, slab_size lg_page lg_base lg_delta ndelta = Done n ∧ 1 ≤ n ≤ reg_size ∧
    (reg_size | n * 2 ^ lg_page) ∧ ∀ j, 1 ≤ j < n → ¬ (reg_size | j * 2 ^ lg_page).
Proof.
  intros Hlg reg_size Hr. unfold slab_size. fold reg_size.
  destruct (Z.eqb_spec reg_size 0) as [|Hne]; [lia|].
  assert (0 < 2 ^ lg_page < 2 ^ 32) by (split; [apply Z.pow_pos_nonneg|apply Z.pow_lt_mono_r]; lia).
  assert (shl64 1 lg_page = 2 ^ lg_page) as ->.
  { unfold shl64. rewrite Z.shiftl_1_l, u64_small; [done|]. unfold is_u64. lia. }
  pose proof (Z.div_pos reg_size (2 ^ lg_page)).
  destruct (slab_loop_least (2 ^ lg_page) reg_size reg_size
    (Z.to_nat (reg_size / 2 ^ lg_page) + Z.to_nat reg_size + 1) 1) as (n & E & Hn);
    [lia|lia|by apply Z.divide_factor_l|nia|lia|lia|lia|].
  exists n. by rewrite Z.mul_1_l in E.
Qed.

Lemma slab_size_least_witness : slab_size 12 6 4 2 = Done 3 ∧ ¬ (96 | 2 * 2 ^ 12).
Proof.
  destruct (slab_size_least 12 6 4 2 ltac:(lia) ltac:(vm_compute; done)) as (n & E & _ & _ & Hmin).
  assert (slab_size 12 6 4 2 = Done 3) as E3 by (vm_compute; reflexivity).
  split; [exact E3|]. rewrite E3 in E. injection E as <-. exact (Hmin 2 ltac:(lia)).
Defined.

(** ** The table *)

Definition sc_size (c : sc) : Z := reg_size_compute (sc_lg_base c) (sc_lg_delta c) (sc_ndelta c).

(** The regions of a bin fill its slab, and a slab bitmap has room for them. *)
Definition bin_fills (c : sc) : Prop :=
  if sc_bin c then sc_pgs c * PAGE mod sc_size c = 0 ∧ 0 < sc_pgs c * PAGE / sc_size c ≤ BITMAP_MAXBITS
  else sc_pgs c = 0.

#[export] Instance bin_fills_dec c : Decision (bin_fills c).
Proof. unfold bin_fills. destruct (sc_bin c); apply _. Defined.

(** The table of size classes.  The computation ends, every value it counts up
    is the one [sc.h] gives as a constant, class [i] has index [i], and the regions
    of each small class fill its slab exactly. *)
Theorem sc_data_init_ok :
  ∃ d, sc_data_init = Done d ∧ initialized d = true ∧
    ntiny d = SC_NTINY ∧ nbins d = SC_NBINS ∧ nsizes d = SC_NSIZES ∧ npsizes d = SC_NPSIZES ∧
    lg_tiny_maxclass d = SC_LG_TINY_MAXCLASS ∧ lookup_maxclass d = SC_LOOKUP_MAXCLASS ∧
    small_maxclass d = SC_SMALL_MAXCLASS ∧ lg_large_minclass d = SC_LG_LARGE_MINCLASS ∧
    large_minclass d = SC_LARGE_MINCLASS ∧ large_maxclass d = SC_LARGE_MAXCLASS ∧
    SC_LARGE_MAXCLASS < 2 ^ 63 - 1 ∧
    map sc_index (scs d) = seqZ 0 SC_NSIZES ∧ Forall bin_fills (scs d).
Proof.
  eexists. split; [vm_compute; reflexivity|]. repeat (split; [by vm_compute|]).
  apply (bool_decide_unpack _). vm_compute. exact I.
Qed.
