(* ===== verification/Sz.v ===== *)
(** * Size computations, [jemalloc/include/jemalloc/internal/sz.h] and [jemalloc/src/sz.c]

    From a requested size to a size class index and back, by computation and by
    the tables that are filled when the allocator boots, and the usable size of an
    aligned request.  [size_t] values are 64-bit, [szind_t] and [pszind_t] 32-bit. *)
From stdpp Require Import base list numbers.
From S2P Require Import Prelude BitUtil SizeClass.

(** From [jemalloc_internal_types.h]. *)
Definition ALIGNMENT_CEILING (s alignment : Z) : Z :=
  Z.land (u64 (s + (alignment - 1))) (u64 (not64 alignment + 1)).

(** ** Page size classes *)

Definition sz_psz2ind (psz : Z) : Z :=
  if SC_LARGE_MAXCLASS <? psz then SC_NPSIZES
  else
    let x := lg_ceil psz in
    let off_to_first_ps_rg := if x <? SC_LG_NGROUP + LG_PAGE then 0 else x - (SC_LG_NGROUP + LG_PAGE) in
    let lg_delta := if off_to_first_ps_rg =? 0 then LG_PAGE else LG_PAGE + (off_to_first_ps_rg - 1) in
    let rg_inner_off := u32 (Z.land (Z.shiftr (u64 (psz - 1)) lg_delta) (SC_NGROUP - 1)) in
    let base_ind := u32 (Z.shiftl off_to_first_ps_rg SC_LG_NGROUP) in
    u32 (base_ind + rg_inner_off).

(** [~((!!grp)-1)]: all ones unless the group is the first. *)
Definition grp_size_mask (grp : Z) : Z := not64 (u64 ((if grp =? 0 then 0 else 1) - 1)).

Definition sz_pind2sz_compute (pind : Z) : Z :=
  if pind =? SC_NPSIZES then SC_LARGE_MAXCLASS + PAGE
  else
    let grp := Z.shiftr pind SC_LG_NGROUP in
    let mod_ := Z.land pind (shl64 1 SC_LG_NGROUP - 1) in
    let grp_size := Z.land (shl64 (shl64 1 (LG_PAGE + (SC_LG_NGROUP - 1))) grp) (grp_size_mask grp) in
    let shift := if grp =? 0 then 1 else grp in
    let lg_delta := shift + (LG_PAGE - 1) in
    let mod_size := shl64 (mod_ + 1) lg_delta in
    u64 (grp_size + mod_size).

Definition sz_psz2u (psz : Z) : Z :=
  if SC_LARGE_MAXCLASS <? psz then SC_LARGE_MAXCLASS + PAGE
  else
    let x := lg_floor (u64 (shl64 psz 1 - 1)) in
    let lg_delta := if x <? SC_LG_NGROUP + LG_PAGE + 1 then LG_PAGE else x - SC_LG_NGROUP - 1 in
    let delta := shl64 1 lg_delta in
    let delta_mask := delta - 1 in
    Z.land (u64 (psz + delta_mask)) (not64 delta_mask).

(** ** Size classes *)

Definition sz_size2index_compute (size : Z) : Z :=
  if SC_LARGE_MAXCLASS <? size then SC_NSIZES
  else if size =? 0 then 0
  else if size <=? shl64 1 SC_LG_TINY_MAXCLASS then
    let lg_tmin := SC_LG_TINY_MAXCLASS - SC_NTINY + 1 in
    let lg_ceil := lg_floor (pow2_ceil_zu size) in
    if lg_ceil <? lg_tmin then 0 else lg_ceil - lg_tmin
  else
    let x := lg_floor (u64 (shl64 size 1 - 1)) in
    let shift := if x <? SC_LG_NGROUP + LG_QUANTUM then 0 else x - (SC_LG_NGROUP + LG_QUANTUM) in
    let grp := u32 (Z.shiftl shift SC_LG_NGROUP) in
    let lg_delta := if x <? SC_LG_NGROUP + LG_QUANTUM + 1 then LG_QUANTUM else x - SC_LG_NGROUP - 1 in
    let delta_inverse_mask := shl64 (2 ^ 64 - 1) lg_delta in
    let mod_ := u32 (Z.land (Z.shiftr (Z.land (u64 (size - 1)) delta_inverse_mask) lg_delta)
                            (shl64 1 SC_LG_NGROUP - 1)) in
    u32 (SC_NTINY + grp + mod_).

Definition sz_index2size_compute (index : Z) : Z :=
  if index <? SC_NTINY then shl64 1 (SC_LG_TINY_MAXCLASS - SC_NTINY + 1 + index)
  else
    let reduced_index := index - SC_NTINY in
    let grp := Z.shiftr reduced_index SC_LG_NGROUP in
    let mod_ := Z.land reduced_index (shl64 1 SC_LG_NGROUP - 1) in
    let grp_size := Z.land (shl64 (shl64 1 (LG_QUANTUM + (SC_LG_NGROUP - 1))) grp) (grp_size_mask grp) in
    let shift := if grp =? 0 then 1 else grp in
    let lg_delta := shift + (LG_QUANTUM - 1) in
    let mod_size := shl64 (mod_ + 1) lg_delta in
    u64 (grp_size + mod_size).

Definition sz_s2u_compute (size : Z) : Z :=
  if SC_LARGE_MAXCLASS <? size then 0
  else
    let size := if size =? 0 then size + 1 else size in
    if size <=? shl64 1 SC_LG_TINY_MAXCLASS then
      let lg_tmin := SC_LG_TINY_MAXCLASS - SC_NTINY + 1 in
      let lg_ceil := lg_floor (pow2_ceil_zu size) in
      if lg_ceil <? lg_tmin then shl64 1 lg_tmin else shl64 1 lg_ceil
    else
      let x := lg_floor (u64 (shl64 size 1 - 1)) in
      let lg_delta := if x <? SC_LG_NGROUP + LG_QUANTUM + 1 then LG_QUANTUM else x - SC_LG_NGROUP - 1 in
      let delta := shl64 1 lg_delta in
      let delta_mask := delta - 1 in
      Z.land (u64 (size + delta_mask)) (not64 delta_mask).

(** ** Tables *)

Record sz_tables := mkSz {
  sz_pind2sz_tab : list Z;
  sz_index2size_tab : list Z;
  sz_size2index_tab : list Z;
  sz_large_pad : Z
}.

(** [tab[i]] and [tab[i] = v] *)
Definition tab_get (tab : list Z) (i : Z) : outcome Z :=
  if i <? 0 then Fault OutOfBounds else (tab !! Z.to_nat i) ?? OutOfBounds.
Definition tab_set (tab : list Z) (i v : Z) : outcome (list Z) :=
  if (0 <=? i) && (i <? Z.of_nat (length tab)) then Done (<[Z.to_nat i := v]> tab) else Fault OutOfBounds.

(** The two loops of [sz_boot_pind2sz_tab]; the second stores at [pind] in every
    round. *)
Fixpoint pind_loop (l : list sc) (tab : list Z) (pind : Z) : outcome (list Z * Z) :=
  match l with
  | [] => Done (tab, pind)
  | c :: l =>
      if sc_psz c then
        tab ← tab_set tab pind (u64 (shl64 1 (sc_lg_base c) + shl64 (sc_ndelta c) (sc_lg_delta c)));
        pind_loop l tab (pind + 1)
      else pind_loop l tab pind
  end.

Fixpoint pind_rest (n : nat) (tab : list Z) (pind v : Z) : outcome (list Z) :=
  match n with
  | O => Done tab
  | S n => tab ← tab_set tab pind v; pind_rest n tab pind v
  end.

Definition sz_boot_pind2sz_tab (d : sc_data) (tab : list Z) : outcome (list Z) :=
  '(tab, pind) ← pind_loop (take (Z.to_nat SC_NSIZES) (scs d)) tab 0;
  pind_rest (Z.to_nat (SC_NPSIZES + 1 - pind)) tab pind (large_maxclass d + PAGE).

Fixpoint index_loop (l : list sc) (tab : list Z) (i : Z) : outcome (list Z) :=
  match l with
  | [] => Done tab
  | c :: l =>
      tab ← tab_set tab i (u64 (shl64 1 (sc_lg_base c) + shl64 (sc_ndelta c) (sc_lg_delta c)));
      index_loop l tab (i + 1)
  end.

Definition sz_boot_index2size_tab (d : sc_data) (tab : list Z) : outcome (list Z) :=
  index_loop (take (Z.to_nat SC_NSIZES) (scs d)) tab 0.

(** The inner loop of [sz_boot_size2index_tab]. *)
Fixpoint fill_loop (n : nat) (tab : list Z) (dst_ind v : Z) : outcome (list Z) :=
  match n with
  | O => Done tab
  | S n => tab ← tab_set tab dst_ind v; fill_loop n tab (dst_ind + 1) v
  end.

Fixpoint lookup_loop (l : list sc) (dst_max : Z) (tab : list Z) (sc_ind dst_ind : Z) : outcome (list Z) :=
  match l with
  | [] => Done tab
  | c :: l =>
      if dst_ind <? dst_max then
        let sz := u64 (shl64 1 (sc_lg_base c) + shl64 (sc_ndelta c) (sc_lg_delta c)) in
        let max_ind := Z.shiftr (u64 (sz + shl64 1 SC_LG_TINY_MIN - 1)) SC_LG_TINY_MIN in
        let stop := Z.min (max_ind + 1) dst_max in
        tab ← fill_loop (Z.to_nat (stop - dst_ind)) tab dst_ind (sc_ind mod 2 ^ 8);
        lookup_loop l dst_max tab (sc_ind + 1) (Z.max dst_ind stop)
      else Done tab
  end.

Definition sz_boot_size2index_tab (d : sc_data) (tab : list Z) : outcome (list Z) :=
  let dst_max := Z.shiftr SC_LOOKUP_MAXCLASS SC_LG_TINY_MIN + 1 in
  lookup_loop (take (Z.to_nat SC_NSIZES) (scs d)) dst_max tab 0 0.

Definition sz_boot (d : sc_data) (cache_oblivious : bool) : outcome sz_tables :=
  let sz_large_pad := if cache_oblivious then PAGE else 0 in
  pind2sz ← sz_boot_pind2sz_tab d (replicate (Z.to_nat (SC_NPSIZES + 1)) 0);
  index2size ← sz_boot_index2size_tab d (replicate (Z.to_nat SC_NSIZES) 0);
  size2index ← sz_boot_size2index_tab d
    (replicate (Z.to_nat (Z.shiftr SC_LOOKUP_MAXCLASS SC_LG_TINY_MIN + 1)) 0);
  Done (mkSz pind2sz index2size size2index sz_large_pad).

Section lookups.
Context (T : sz_tables).

Definition sz_pind2sz (pind : Z) : outcome Z := tab_get (sz_pind2sz_tab T) pind.

Definition sz_size2index_lookup (size : Z) : outcome Z :=
  tab_get (sz_size2index_tab T) (Z.shiftr (u64 (size + shl64 1 SC_LG_TINY_MIN - 1)) SC_LG_TINY_MIN).

Definition sz_size2index (size : Z) : outcome Z :=
  if size <=? SC_LOOKUP_MAXCLASS then sz_size2index_lookup size else Done (sz_size2index_compute size).

Definition sz_index2size (index : Z) : outcome Z := tab_get (sz_index2size_tab T) index.

Definition sz_s2u_lookup (size : Z) : outcome Z :=
  i ← sz_size2index_lookup size; sz_index2size i.

Definition sz_s2u (size : Z) : outcome Z :=
  if size <=? SC_LOOKUP_MAXCLASS then sz_s2u_lookup size else Done (sz_s2u_compute size).

(** ** Aligned requests *)

(** The part after the attempt at a small size class. *)
Definition sz_sa2u_large (size alignment : Z) : outcome Z :=
  if SC_LARGE_MAXCLASS <? alignment then Done 0
  else
    let tail (usize : Z) : outcome Z :=
      if u64 (usize + sz_large_pad T + PAGE_CEILING alignment - PAGE) <? usize then Done 0 else Done usize in
    if size <=? SC_LARGE_MINCLASS then tail SC_LARGE_MINCLASS
    else
      usize ← sz_s2u size;
      if usize <? size then Done 0 else tail usize.

Definition sz_sa2u (size alignment : Z) : outcome Z :=
  if (size <=? SC_SMALL_MAXCLASS) && (alignment <=? PAGE) then
    usize ← sz_s2u (ALIGNMENT_CEILING size alignment);
    if usize <? SC_LARGE_MINCLASS then Done usize else sz_sa2u_large size alignment
  else sz_sa2u_large size alignment.

(** ** Quantisation of extents *)

Definition sz_psz_quantize_floor (size : Z) : outcome Z :=
  let pind := sz_psz2ind (u64 (size - sz_large_pad T + 1)) in
  if pind =? 0 then Done size
  else
    s ← sz_pind2sz (pind - 1);
    Done (u64 (s + sz_large_pad T)).

Definition sz_psz_quantize_ceil (size : Z) : outcome Z :=
  ret ← sz_psz_quantize_floor size;
  if ret <? size then
    s ← sz_pind2sz (sz_psz2ind (u64 (ret - sz_large_pad T + 1)));
    Done (u64 (s + sz_large_pad T))
  else Done ret.
End lookups.
