(* ===== verification/SzTheorems.v ===== *)
(** * Theorems on size computations

    The computed classes are increasing, the index of a size is that of the least
    class that holds it, the boot-time tables hold what the functions compute, and
    the usable size of an aligned request is large enough and aligned; the index of a number of bytes
    among the size classes that are whole pages, and the quantisation of extents to those classes. *)
From stdpp Require Import base list numbers.
From S2P Require Import Prelude BitUtil SizeClass Sz.

(** ** Shared arithmetic *)

Lemma pow2_range k : 0 ≤ k < 64 → 0 < 2 ^ k < 2 ^ 64.
Proof. intros. split; [apply Z.pow_pos_nonneg|apply Z.pow_lt_mono_r]; lia. Qed.

Lemma shl64_1 k : 0 ≤ k < 64 → shl64 1 k = 2 ^ k.
Proof.
  intros Hk. pose proof (pow2_range k Hk). unfold shl64. rewrite Z.shiftl_1_l.
  apply u64_small. unfold is_u64. lia.
Qed.

Lemma shl64_small x k : 0 ≤ x → 0 ≤ k → x * 2 ^ k < 2 ^ 64 → shl64 x k = x * 2 ^ k.
Proof.
  intros Hx Hk Hlt. unfold shl64. rewrite Z.shiftl_mul_pow2 by done. apply u64_small. unfold is_u64. nia.
Qed.

Lemma u32_small z : 0 ≤ z < 2 ^ 32 → u32 z = z.
Proof. intros. by apply Z.mod_small. Qed.

(** A fact about the numbers below [n], checked on each. *)
Lemma all_below (P : Z → Prop) `{∀ z, Decision (P z)} n z :
  forallb (λ z, bool_decide (P z)) (seqZ 0 n) = true → 0 ≤ z < n → P z.
Proof.
  intros Hall Hz. rewrite forallb_forall in Hall. apply (bool_decide_eq_true_1 (P z)), Hall.
  apply list_elem_of_In, elem_of_seqZ. lia.
Qed.

Lemma log2_double_pred s : 1 ≤ s → Z.log2 (2 * s - 1) = Z.log2_up s.
Proof.
  intros Hs. destruct (decide (s = 1)) as [->|]; [done|].
  pose proof (Z.log2_up_spec s ltac:(lia)) as Hsp. pose proof (Z.log2_up_pos s ltac:(lia)).
  set (x := Z.log2_up s) in *. apply Z.log2_unique; [lia|].
  replace (2 ^ x) with (2 * 2 ^ (Z.pred x)) in * by (rewrite <- Z.pow_succ_r by lia; f_equal; lia).
  rewrite Z.pow_succ_r by lia. replace (2 ^ x) with (2 * 2 ^ (Z.pred x)) by (rewrite <- Z.pow_succ_r by lia; f_equal; lia). lia.
Qed.

Lemma lg_double_pred s : 1 ≤ s ≤ 2 ^ 63 - 1 → lg_floor (u64 (shl64 s 1 - 1)) = Z.log2_up s.
Proof.
  intros Hs. rewrite shl64_small, u64_small by (unfold is_u64; lia).
  rewrite lg_floor_log2, <- log2_double_pred by lia. f_equal. lia.
Qed.

(** Rounding up to a multiple of [2^k]. *)
Lemma round_up_mask s k :
  0 < s → 0 ≤ k < 64 → s + 2 ^ k < 2 ^ 64 →
  Z.land (u64 (s + (shl64 1 k - 1))) (not64 (shl64 1 k - 1)) = ((s - 1) / 2 ^ k + 1) * 2 ^ k.
Proof.
  intros Hs Hk Hlt. pose proof (pow2_range k Hk). rewrite shl64_1 by done.
  rewrite u64_small by (unfold is_u64; lia). rewrite land_not64_low by (unfold is_u64; lia).
  replace (s + (2 ^ k - 1)) with (s - 1 + 1 * 2 ^ k) by lia.
  rewrite Z.mod_add by lia. pose proof (Z.div_mod (s - 1) (2 ^ k)). lia.
Qed.

(** The four classes of the group [(2^(x-1), 2^x]]. *)
Section group.
Context (s x : Z) (Hs : 1 < s) (Hx : Z.log2_up s = x) (Hx3 : 3 ≤ x ≤ 63).

Lemma group_bounds : 2 ^ (x - 1) < s ≤ 2 ^ x.
Proof. pose proof (Z.log2_up_spec s Hs). rewrite Hx in *. by rewrite Z.sub_1_r. Qed.

Lemma group_pow : 2 ^ (x - 1) = 4 * 2 ^ (x - 3) ∧ 2 ^ x = 8 * 2 ^ (x - 3).
Proof.
  change 4 with (2 ^ 2). change 8 with (2 ^ 3). rewrite <- !Z.pow_add_r by lia.
  split; f_equal; lia.
Qed.

Lemma group_slot : 4 ≤ (s - 1) / 2 ^ (x - 3) < 8.
Proof.
  pose proof group_bounds. pose proof (pow2_range (x - 3) ltac:(lia)).
  destruct group_pow as [E2 E3]. rewrite E2, E3 in *. clear E2 E3 Hx. revert H H0. generalize (2 ^ (x - 3)).
  intros d H H0. split; [apply Z.div_le_lower_bound; lia|apply Z.div_lt_upper_bound; lia].
Qed.

Lemma group_land : Z.land ((s - 1) / 2 ^ (x - 3)) 3 = (s - 1) / 2 ^ (x - 3) - 4.
Proof.
  pose proof group_slot as H. revert H. generalize ((s - 1) / 2 ^ (x - 3)). intros q H.
  change 3 with (2 ^ 2 - 1). rewrite land_low by lia. replace q with (q - 4 + 1 * 2 ^ 2) at 1 by lia.
  rewrite Z.mod_add by lia. apply Z.mod_small. lia.
Qed.

(** The least multiple of [2^(x-3)] that is at least [s]. *)
Definition group_size : Z := ((s - 1) / 2 ^ (x - 3) + 1) * 2 ^ (x - 3).

Lemma group_size_bounds : s ≤ group_size < s + 2 ^ (x - 3) ∧ group_size ≤ 2 ^ x.
Proof.
  pose proof (pow2_range (x - 3) ltac:(lia)). pose proof group_slot. unfold group_size.
  pose proof (Z.div_mod (s - 1) (2 ^ (x - 3))). pose proof (Z.mod_pos_bound (s - 1) (2 ^ (x - 3))).
  destruct group_pow as [_ E3]. split; nia.
Qed.

Lemma group_size_fits : s + 2 ^ (x - 3) < 2 ^ 64.
Proof.
  pose proof group_bounds. pose proof (Z.pow_le_mono_r 2 x 63). pose proof (Z.pow_le_mono_r 2 (x - 3) 60). lia.
Qed.
End group.

(** ** Classes by index *)

(** Index [1 + 4g + m] is class [m] of the group of [2^(g+5)]. *)
Lemma index2size_group g m :
  1 ≤ g ≤ 57 → 0 ≤ m ≤ 3 →
  sz_index2size_compute (1 + 4 * g + m) = 2 ^ (g + 5) + (m + 1) * 2 ^ (g + 3).
Proof.
  intros Hg Hm.
  assert (∀ z, 0 ≤ z < 232 → 1 ≤ z / 4 →
    sz_index2size_compute (1 + z) = 2 ^ (z / 4 + 5) + (z mod 4 + 1) * 2 ^ (z / 4 + 3)) as H.
  { intros z. apply (all_below (λ z, 1 ≤ z / 4 →
      sz_index2size_compute (1 + z) = 2 ^ (z / 4 + 5) + (z mod 4 + 1) * 2 ^ (z / 4 + 3))).
    vm_compute. reflexivity. }
  specialize (H (4 * g + m) ltac:(lia)).
  replace ((4 * g + m) / 4) with g in H by (rewrite Z.mul_comm, Z.div_add_l, Z.div_small by lia; lia).
  replace ((4 * g + m) mod 4) with m in H by (rewrite Z.mul_comm, Z.add_comm, Z.mod_add by lia; symmetry; apply Z.mod_small; lia).
  rewrite Z.add_assoc in H. apply H. lia.
Qed.

Lemma class_next i : 0 ≤ i < SC_NSIZES - 1 → sz_index2size_compute i < sz_index2size_compute (i + 1).
Proof. apply (all_below (λ i, sz_index2size_compute i < sz_index2size_compute (i + 1))). vm_compute. reflexivity. Qed.

Lemma class_mono i j : 0 ≤ i → i < j < SC_NSIZES → sz_index2size_compute i < sz_index2size_compute j.
Proof.
  intros Hi Hj. replace j with (i + Z.of_nat (Z.to_nat (j - i))) in * by lia.
  revert Hj. generalize (Z.to_nat (j - i)). clear j. intros n. induction n as [|n IH]; intros Hj; [lia|].
  destruct (decide (n = 0%nat)) as [->|]; [apply class_next; lia|].
  transitivity (sz_index2size_compute (i + Z.of_nat n)); [apply IH; lia|].
  replace (i + Z.of_nat (S n)) with (i + Z.of_nat n + 1) by lia. apply class_next. lia.
Qed.

(** ** From a size to its class *)

Lemma large_log size : 64 < size ≤ SC_LARGE_MAXCLASS → 7 ≤ Z.log2_up size ≤ 63.
Proof.
  intros Hs. change SC_LARGE_MAXCLASS with 8070450532247928832 in Hs. split.
  - cut (6 < Z.log2_up size); [lia|]. apply Z.log2_up_lt_pow2; lia.
  - apply Z.log2_up_le_pow2; lia.
Qed.

Lemma size2index_large size :
  64 < size ≤ SC_LARGE_MAXCLASS → let x := Z.log2_up size in
  sz_size2index_compute size = 1 + 4 * (x - 6) + ((size - 1) / 2 ^ (x - 3) - 4).
Proof.
  intros Hs x. pose proof (large_log size Hs) as Hx. fold x in Hx.
  pose proof (group_slot size x ltac:(lia) eq_refl ltac:(lia)) as Hslot.
  change SC_LARGE_MAXCLASS with 8070450532247928832 in Hs.
  unfold sz_size2index_compute. change SC_LARGE_MAXCLASS with 8070450532247928832.
  destruct (Z.ltb_spec 8070450532247928832 size); [lia|]. destruct (Z.eqb_spec size 0); [lia|].
  change (shl64 1 SC_LG_TINY_MAXCLASS) with 8. destruct (Z.leb_spec size 8); [lia|].
  rewrite lg_double_pred by lia. fold x.
  change (SC_LG_NGROUP + LG_QUANTUM) with 6. destruct (Z.ltb_spec x 6); [lia|]. change (6 + 1) with 7.
  destruct (Z.ltb_spec x 7); [lia|]. change (x - SC_LG_NGROUP - 1) with (x - 2 - 1).
  replace (x - 2 - 1) with (x - 3) by lia.
  rewrite (u64_small (size - 1)) by (unfold is_u64; lia).
  assert (Z.shiftr (Z.land (size - 1) (shl64 (2 ^ 64 - 1) (x - 3))) (x - 3) = (size - 1) / 2 ^ (x - 3)) as ->.
  { rewrite <- Z.shiftr_div_pow2 by lia. apply Z.bits_inj'. intros i Hi.
    rewrite !Z.shiftr_spec, Z.land_spec by lia. unfold shl64, u64.
    destruct (decide (i + (x - 3) < 64)).
    - rewrite Z.mod_pow2_bits_low, Z.shiftl_spec by lia. change (2 ^ 64 - 1) with (Z.ones 64).
      rewrite Z.ones_spec_low by lia. apply andb_true_r.
    - rewrite Z.mod_pow2_bits_high, andb_false_r by lia. symmetry. apply Z.bits_above_log2; [lia|].
      assert (Z.log2 (size - 1) < 64) by (apply Z.log2_lt_pow2; lia). lia. }
  change (shl64 1 SC_LG_NGROUP - 1) with 3. rewrite (group_land size x) by (done || lia).
  rewrite (u32_small (_ - 4)) by lia. rewrite Z.shiftl_mul_pow2 by done. change (2 ^ SC_LG_NGROUP) with 4.
  change SC_NTINY with 1. rewrite !u32_small by (rewrite ?u32_small by lia; lia). lia.
Qed.

Lemma s2u_large size :
  64 < size ≤ SC_LARGE_MAXCLASS → sz_s2u_compute size = group_size size (Z.log2_up size).
Proof.
  intros Hs. pose proof (large_log size Hs) as Hx.
  pose proof (group_size_fits size (Z.log2_up size) ltac:(lia) eq_refl ltac:(lia)) as Hfit.
  change SC_LARGE_MAXCLASS with 8070450532247928832 in Hs.
  unfold sz_s2u_compute. change SC_LARGE_MAXCLASS with 8070450532247928832.
  destruct (Z.ltb_spec 8070450532247928832 size); [lia|]. destruct (Z.eqb_spec size 0); [lia|].
  change (shl64 1 SC_LG_TINY_MAXCLASS) with 8. destruct (Z.leb_spec size 8); [lia|].
  rewrite lg_double_pred by lia. set (x := Z.log2_up size) in *.
  change (SC_LG_NGROUP + LG_QUANTUM + 1) with 7. destruct (Z.ltb_spec x 7); [lia|].
  change (x - SC_LG_NGROUP - 1) with (x - 2 - 1). replace (x - 2 - 1) with (x - 3) by lia.
  apply round_up_mask; lia.
Qed.

Lemma index_of_large size :
  64 < size ≤ SC_LARGE_MAXCLASS → let i := sz_size2index_compute size in
  4 < i < SC_NSIZES ∧ sz_index2size_compute i = group_size size (Z.log2_up size) ∧
  sz_index2size_compute (i - 1) < size.
Proof.
  intros Hs. pose proof (large_log size Hs) as Hx. rewrite size2index_large by done. cbv zeta.
  set (x := Z.log2_up size) in *. assert (1 < size) as H1 by lia.
  pose proof (group_slot size x H1 eq_refl ltac:(lia)) as Hslot.
  destruct (group_size_bounds size x H1 eq_refl ltac:(lia)) as [Hb _].
  destruct (group_pow x ltac:(lia)) as [E4 _]. pose proof (group_bounds size x H1 eq_refl) as Hgb.
  assert (x = 63 → (size - 1) / 2 ^ (x - 3) < 7) as Htop.
  { intros E. rewrite E. apply Z.div_lt_upper_bound; [done|].
    change SC_LARGE_MAXCLASS with 8070450532247928832 in Hs. lia. }
  unfold group_size in *. set (q := (size - 1) / 2 ^ (x - 3)) in *.
  split; [change SC_NSIZES with 232; lia|].
  assert (∀ m, 0 ≤ m ≤ 3 → sz_index2size_compute (1 + 4 * (x - 6) + m) = (m + 5) * 2 ^ (x - 3)) as Hc.
  { intros m Hm. rewrite index2size_group by lia. replace (x - 6 + 5) with (x - 1) by lia.
    replace (x - 6 + 3) with (x - 3) by lia. rewrite E4. lia. }
  split; [rewrite Hc by lia; f_equal; lia|].
  destruct (decide (q = 4)) as [E|E].
  - replace (1 + 4 * (x - 6) + (q - 4) - 1) with (4 * (x - 6)) by lia.
    destruct (decide (x = 7)) as [->|]; [change (sz_index2size_compute (4 * (7 - 6))) with 64; lia|].
    replace (4 * (x - 6)) with (1 + 4 * (x - 7) + 3) by lia. rewrite index2size_group by lia.
    replace (x - 7 + 5) with (x - 3 + 1) by lia. replace (x - 7 + 3) with (x - 4) by lia.
    rewrite Z.pow_add_r by lia. replace (2 ^ (x - 3)) with (2 * 2 ^ (x - 4)) in * by
      (rewrite <- Z.pow_succ_r by lia; f_equal; lia). lia.
  - replace (1 + 4 * (x - 6) + (q - 4) - 1) with (1 + 4 * (x - 6) + (q - 5)) by lia. rewrite Hc by lia. lia.
Qed.

(** The sizes up to 64 bytes, one by one. *)
Lemma index_of_small size : 0 ≤ size ≤ 64 →
  let i := sz_size2index_compute size in
  0 ≤ i ≤ 4 ∧ size ≤ sz_index2size_compute i ∧ sz_index2size_compute i = sz_s2u_compute size ∧
  (0 < i → sz_index2size_compute (i - 1) < size).
Proof.
  intros Hs. apply (all_below (λ size, 0 ≤ sz_size2index_compute size ≤ 4 ∧
    size ≤ sz_index2size_compute (sz_size2index_compute size) ∧
    sz_index2size_compute (sz_size2index_compute size) = sz_s2u_compute size ∧
    (0 < sz_size2index_compute size → sz_index2size_compute (sz_size2index_compute size - 1) < size)) 65); [|lia].
  vm_compute. reflexivity.
Qed.

Lemma index_of_size size : 0 ≤ size ≤ SC_LARGE_MAXCLASS →
  let i := sz_size2index_compute size in
  0 ≤ i < SC_NSIZES ∧ size ≤ sz_index2size_compute i ∧ sz_index2size_compute i = sz_s2u_compute size ∧
  (0 < i → sz_index2size_compute (i - 1) < size).
Proof.
  intros Hs i. destruct (decide (size ≤ 64)).
  - destruct (index_of_small size) as (Hi & ?); [lia|]. split; [change SC_NSIZES with 232; fold i in Hi; lia|done].
  - destruct (index_of_large size) as (Hi & E & Hprev); [lia|]. fold i in Hi, E, Hprev. split; [lia|].
    pose proof (large_log size ltac:(lia)).
    destruct (group_size_bounds size (Z.log2_up size) ltac:(lia) eq_refl ltac:(lia)) as [? _].
    rewrite E, s2u_large by lia. split; [lia|]. by split.
Qed.

(** What it means to be a size class of the allocator. *)
Definition is_class (u : Z) : Prop := ∃ i, 0 ≤ i < SC_NSIZES ∧ u = sz_index2size_compute i.

Lemma index_of_class i : 0 ≤ i < SC_NSIZES → sz_size2index_compute (sz_index2size_compute i) = i.
Proof. apply (all_below (λ i, sz_size2index_compute (sz_index2size_compute i) = i)). vm_compute. reflexivity. Qed.

Lemma class_range u : is_class u → 8 ≤ u ≤ SC_LARGE_MAXCLASS.
Proof.
  intros (i & Hi & ->).
  apply (all_below (λ i, 8 ≤ sz_index2size_compute i ≤ SC_LARGE_MAXCLASS) SC_NSIZES i); [vm_compute; reflexivity|done].
Qed.

Lemma s2u_least size : 0 ≤ size ≤ SC_LARGE_MAXCLASS →
  is_class (sz_s2u_compute size) ∧ size ≤ sz_s2u_compute size ∧
  ∀ c, is_class c → size ≤ c → sz_s2u_compute size ≤ c.
Proof.
  intros Hs. destruct (index_of_size size Hs) as (Hi & Hle & E & Hprev).
  set (i := sz_size2index_compute size) in *. rewrite <- E. split; [by exists i|]. split; [done|].
  intros c (j & Hj & ->) Hc. destruct (Z.lt_trichotomy i j) as [Hij|[->|Hij]]; [|lia|].
  - pose proof (class_mono i j). lia.
  - destruct (decide (j = i - 1)) as [->|]; [specialize (Hprev ltac:(lia)); lia|].
    pose proof (class_mono j (i - 1)). specialize (Hprev ltac:(lia)). lia.
Qed.

(** C13: the index of a size.  For every request up to the largest class the index
    is in range and its class is the least that holds the request; the usable size
    computed without the index is the same class; and the index of a class is its
    own. *)
Theorem sz_size2index_least size :
  0 ≤ size ≤ SC_LARGE_MAXCLASS → let i := sz_size2index_compute size in
  0 ≤ i < SC_NSIZES ∧ size ≤ sz_index2size_compute i ∧
  (∀ j, 0 ≤ j < SC_NSIZES → size ≤ sz_index2size_compute j → i ≤ j) ∧
  sz_s2u_compute size = sz_index2size_compute i ∧
  sz_size2index_compute (sz_index2size_compute i) = i.
Proof.
  intros Hs i. destruct (index_of_size size Hs) as (Hi & Hle & E & Hprev). fold i in Hi, Hle, E, Hprev.
  split; [done|]. split; [done|]. split; [|split; [done|by apply index_of_class]].
  intros j Hj Hc. destruct (Z.le_gt_cases i j); [done|]. specialize (Hprev ltac:(lia)).
  destruct (decide (j = i - 1)) as [->|]; [lia|]. pose proof (class_mono j (i - 1)). lia.
Qed.

Lemma sz_size2index_least_witness :
  sz_size2index_compute 70000 = 45 ∧ sz_index2size_compute 45 = 81920 ∧ 70000 ≤ sz_index2size_compute 45.
Proof.
  split; [vm_compute; reflexivity|]. split; [vm_compute; reflexivity|].
  exact (proj1 (proj2 (sz_size2index_least 70000 ltac:(vm_compute; split; discriminate)))).
Defined.

(** ** Tables *)

(** What the rest of the allocator relies on once [sz_boot] has run. *)
Class SzReady (T : sz_tables) : Prop := {
  ready_index : ∀ i, 0 ≤ i < SC_NSIZES → sz_index2size T i = Done (sz_index2size_compute i);
  ready_lookup : ∀ size, 0 ≤ size ≤ SC_LOOKUP_MAXCLASS →
    sz_size2index_lookup T size = Done (sz_size2index_compute size);
  ready_pind : ∀ i, 0 ≤ i ≤ SC_NPSIZES → sz_pind2sz T i = Done (sz_pind2sz_compute i);
  ready_pad : sz_large_pad T = 0 ∨ sz_large_pad T = PAGE
}.

(** The tables of a booted allocator. *)
Definition booted (cache_oblivious : bool) : sz_tables :=
  match d ← sc_data_init; sz_boot d cache_oblivious with
  | Done T => T
  | Fault _ => mkSz [] [] [] 0
  end.

(** The compressed table, by its entries: entry [j] is the index of size [8 j]. *)
Lemma index_unique size i :
  0 ≤ size ≤ SC_LARGE_MAXCLASS → 0 ≤ i < SC_NSIZES → size ≤ sz_index2size_compute i →
  (0 < i → sz_index2size_compute (i - 1) < size) → sz_size2index_compute size = i.
Proof.
  intros Hs Hi Hle Hprev. destruct (index_of_size size Hs) as (Hi' & Hle' & _ & Hprev').
  set (j := sz_size2index_compute size) in *.
  assert (∀ k l, 0 ≤ k < l → l < SC_NSIZES → (0 < l → sz_index2size_compute (l - 1) < size) →
    ¬ size ≤ sz_index2size_compute k) as Hno.
  { intros k l Hkl Hl Hp. specialize (Hp ltac:(lia)). destruct (decide (k = l - 1)) as [->|]; [lia|].
    pose proof (class_mono k (l - 1)). lia. }
  destruct (Z.lt_trichotomy i j) as [Hij|[->|Hij]]; [|done|].
  - by destruct (Hno i j ltac:(lia) ltac:(lia) Hprev').
  - by destruct (Hno j i ltac:(lia) ltac:(lia) Hprev).
Qed.

Lemma class_divide_8 i : 0 ≤ i < SC_NSIZES → sz_index2size_compute i mod 8 = 0.
Proof. apply (all_below (λ i, sz_index2size_compute i mod 8 = 0)). vm_compute. reflexivity. Qed.

Lemma size2index_ceil_8 size :
  0 ≤ size ≤ SC_LOOKUP_MAXCLASS → sz_size2index_compute size = sz_size2index_compute (8 * ((size + 7) / 8)).
Proof.
  intros Hs. change SC_LOOKUP_MAXCLASS with 4096 in Hs.
  pose proof (Z.div_mod (size + 7) 8). pose proof (Z.mod_pos_bound (size + 7) 8). set (q := (size + 7) / 8) in *.
  assert (8 * q ≤ SC_LARGE_MAXCLASS) by (change SC_LARGE_MAXCLASS with 8070450532247928832; lia).
  destruct (index_of_size (8 * q)) as (Hi & Hle & _ & Hprev); [lia|].
  apply index_unique; [lia|done|lia|]. intros Hpos. specialize (Hprev Hpos).
  pose proof (class_divide_8 (sz_size2index_compute (8 * q) - 1) ltac:(lia)) as Hd.
  pose proof (Z.div_mod (sz_index2size_compute (sz_size2index_compute (8 * q) - 1)) 8). lia.
Qed.

(** All entries of the tables, checked at once. *)
Definition tables_agree (T : sz_tables) : bool :=
  forallb (λ i, bool_decide (sz_index2size T i = Done (sz_index2size_compute i))) (seqZ 0 SC_NSIZES) &&
  forallb (λ j, bool_decide (tab_get (sz_size2index_tab T) j = Done (sz_size2index_compute (8 * j)))) (seqZ 0 513) &&
  forallb (λ i, bool_decide (sz_pind2sz T i = Done (sz_pind2sz_compute i))) (seqZ 0 (SC_NPSIZES + 1)).

Lemma tables_agree_ready T :
  tables_agree T = true → sz_large_pad T = 0 ∨ sz_large_pad T = PAGE → SzReady T.
Proof.
  unfold tables_agree. rewrite !andb_true_iff. intros [[H1 H2] H3] Hpad. split; [| | |done].
  - intros i Hi. by apply (all_below (λ i, sz_index2size T i = Done (sz_index2size_compute i)) SC_NSIZES).
  - intros z Hz. rewrite size2index_ceil_8 by done. change SC_LOOKUP_MAXCLASS with 4096 in Hz.
    unfold sz_size2index_lookup. change (shl64 1 SC_LG_TINY_MIN) with 8.
    rewrite u64_small by (unfold is_u64; lia). rewrite Z.shiftr_div_pow2 by done. change (2 ^ SC_LG_TINY_MIN) with 8.
    replace (z + 8 - 1) with (z + 7) by lia.
    apply (all_below (λ j, tab_get (sz_size2index_tab T) j = Done (sz_size2index_compute (8 * j))) 513); [done|].
    split; [apply Z.div_pos; lia|apply Z.div_lt_upper_bound; lia].
  - intros i Hi. apply (all_below (λ i, sz_pind2sz T i = Done (sz_pind2sz_compute i)) (SC_NPSIZES + 1)); [done|lia].
Qed.

(** Only the padding depends on the option. *)
Lemma booted_pad : ∃ d T, sc_data_init = Done d ∧ ∀ cache_oblivious : bool,
  let T' := mkSz (sz_pind2sz_tab T) (sz_index2size_tab T) (sz_size2index_tab T) (if cache_oblivious then PAGE else 0) in
  sz_boot d cache_oblivious = Done T' ∧ booted cache_oblivious = T' ∧ tables_agree T' = true.
Proof.
  assert (∃ d T, sc_data_init = Done d ∧ sz_boot d false = Done T ∧ tables_agree T = true) as (d & T & Ed & ET & HT).
  { assert (match sc_data_init with
            | Done d => match sz_boot d false with Done T => tables_agree T | Fault _ => false end
            | Fault _ => false end = true) as H by (vm_compute; reflexivity).
    destruct sc_data_init as [d|]; [|done]. destruct (sz_boot d false) as [T|] eqn:E; [|done]. by exists d, T. }
  exists d, T. split; [done|]. intros co T'.
  cut (sz_boot d co = Done T'); [|].
  { intros E. split; [done|]. split; [|exact HT]. unfold booted. rewrite Ed. cbn [mbind outcome_bind]. by rewrite E. }
  subst T'. revert ET. unfold sz_boot.
  destruct (sz_boot_pind2sz_tab d _) as [t|]; [|done]. cbn [mbind outcome_bind].
  destruct (sz_boot_index2size_tab d _) as [t'|]; [|done]. cbn [mbind outcome_bind].
  destruct (sz_boot_size2index_tab d _) as [t''|]; [|done]. cbn [mbind outcome_bind].
  by intros [= <-].
Qed.

#[export] Instance booted_ready cache_oblivious : SzReady (booted cache_oblivious).
Proof.
  destruct booted_pad as (d & T & _ & H). destruct (H cache_oblivious) as (_ & -> & HT).
  apply tables_agree_ready; [done|]. destruct cache_oblivious; [by right|by left].
Qed.

(** Booting fills the tables without leaving them, and every entry, of the
    index table, of the page index table and of the compressed table for sizes up
    to 4096, is what the corresponding function computes. *)
Theorem sz_boot_tables cache_oblivious :
  ∃ d T, sc_data_init = Done d ∧ sz_boot d cache_oblivious = Done T ∧ SzReady T ∧
    sz_large_pad T = if cache_oblivious then PAGE else 0.
Proof.
  destruct booted_pad as (d & T & Ed & H). destruct (H cache_oblivious) as (E & Eb & _).
  exists d, (booted cache_oblivious). rewrite Eb at 1. split; [done|]. split; [done|].
  split; [apply booted_ready|by rewrite Eb].
Qed.

Section ready.
Context (T : sz_tables) `{SzReady T}.

Lemma sz_size2index_ok size : 0 ≤ size → sz_size2index T size = Done (sz_size2index_compute size).
Proof.
  intros Hs. unfold sz_size2index. destruct (Z.leb_spec size SC_LOOKUP_MAXCLASS); [|done].
  by apply ready_lookup.
Qed.

Lemma sz_s2u_ok size : 0 ≤ size → sz_s2u T size = Done (sz_s2u_compute size).
Proof.
  intros Hs. unfold sz_s2u, sz_s2u_lookup. destruct (Z.leb_spec size SC_LOOKUP_MAXCLASS) as [Hle|]; [|done].
  change SC_LOOKUP_MAXCLASS with 4096 in Hle.
  destruct (index_of_size size) as (Hi & _ & E & _); [change SC_LARGE_MAXCLASS with 8070450532247928832; lia|].
  rewrite ready_lookup by (change SC_LOOKUP_MAXCLASS with 4096; lia). simpl. by rewrite ready_index, E.
Qed.

(** *** Aligned requests *)

Lemma alignment_ceiling_ok s k :
  0 < s ≤ SC_SMALL_MAXCLASS → 0 ≤ k ≤ 12 →
  ALIGNMENT_CEILING s (2 ^ k) = ((s - 1) / 2 ^ k + 1) * 2 ^ k.
Proof.
  intros Hs Hk. change SC_SMALL_MAXCLASS with 14336 in Hs.
  assert (0 < 2 ^ k ≤ 2 ^ 12) by (split; [apply Z.pow_pos_nonneg|apply Z.pow_le_mono_r]; lia).
  unfold ALIGNMENT_CEILING.
  replace (u64 (not64 (2 ^ k) + 1)) with (not64 (shl64 1 k - 1)).
  - rewrite <- (shl64_1 k) at 1 by lia. apply round_up_mask; lia.
  - rewrite shl64_1 by lia. unfold not64, u64. unfold Z.lnot. rewrite Z.add_mod_idemp_l by lia. f_equal. lia.
Qed.

(** A class computed for a multiple of a power of two, at most a page, is a
    multiple of it. *)
Lemma s2u_divide s k :
  0 < s ≤ SC_LARGE_MAXCLASS → 0 ≤ k ≤ 12 → (2 ^ k | s) → (2 ^ k | sz_s2u_compute s).
Proof.
  intros Hs Hk Hd. destruct (decide (s ≤ 64)).
  - assert (k ≤ 6) as Hk6.
    { apply (Z.pow_le_mono_r_iff 2); [lia|lia|]. apply Z.divide_pos_le in Hd; lia. }
    assert (∀ s, 0 ≤ s < 65 → 0 < s → ∀ k, 0 ≤ k < 7 → s mod 2 ^ k = 0 → sz_s2u_compute s mod 2 ^ k = 0) as Hall.
    { intros z Hz Hz0 j Hj.
      pose proof (all_below (λ n, 0 < n / 7 → (n / 7) mod 2 ^ (n mod 7) = 0 →
        sz_s2u_compute (n / 7) mod 2 ^ (n mod 7) = 0) 455 (z * 7 + j)) as Hn. cbv beta in Hn.
      rewrite Z.div_add_l, (Z.div_small j), Z.add_0_r, (Z.add_comm (z * 7)), Z.mod_add, (Z.mod_small j) in Hn by lia.
      apply Hn; [vm_compute; reflexivity|lia|lia]. }
    apply Z.mod_divide; [apply Z.pow_nonzero; lia|]. apply Hall; [lia|lia|lia|].
    apply Z.mod_divide; [apply Z.pow_nonzero; lia|done].
  - rewrite s2u_large by lia. pose proof (large_log s ltac:(lia)) as Hx. set (x := Z.log2_up s) in *.
    unfold group_size. destruct (Z.le_gt_cases k (x - 3)).
    + apply Z.divide_mul_r. exists (2 ^ (x - 3 - k)). rewrite <- Z.pow_add_r by lia. f_equal. lia.
    + assert (0 < 2 ^ (x - 3)) by (apply Z.pow_pos_nonneg; lia).
      assert (2 ^ k = 2 ^ (k - (x - 3)) * 2 ^ (x - 3)) as Ek by (rewrite <- Z.pow_add_r by lia; f_equal; lia).
      assert ((s - 1) / 2 ^ (x - 3) + 1 = s / 2 ^ (x - 3)) as E.
      { destruct Hd as [q Hq]. rewrite Hq, Ek, Z.mul_assoc, Z.div_mul by lia.
        set (v := q * 2 ^ (k - (x - 3))). replace (v * 2 ^ (x - 3) - 1) with ((v - 1) * 2 ^ (x - 3) + (2 ^ (x - 3) - 1)) by lia.
        rewrite Z.div_add_l, Z.div_small by lia. lia. }
      rewrite E. destruct Hd as [q Hq]. rewrite Hq, Ek, Z.mul_assoc, Z.div_mul by lia.
      rewrite <- Z.mul_assoc, <- Ek. apply Z.divide_factor_r.
Qed.

Lemma page_ceiling_bound k : 0 ≤ k ≤ 62 → 4096 ≤ PAGE_CEILING (2 ^ k) ≤ 2 ^ 62.
Proof.
  intros Hk.
  apply (all_below (λ k, 4096 ≤ PAGE_CEILING (2 ^ k) ≤ 2 ^ 62) 63); [vm_compute; reflexivity|lia].
Qed.

(** Classes from [SC_LARGE_MINCLASS] on are whole pages, and nothing overflows. *)
Lemma sa2u_large_ok size k :
  0 < size < 2 ^ 64 → 0 ≤ k < 64 →
  sz_sa2u_large T size (2 ^ k) =
    Done (if decide (SC_LARGE_MAXCLASS < size ∨ SC_LARGE_MAXCLASS < 2 ^ k) then 0
          else sz_s2u_compute (Z.max size SC_LARGE_MINCLASS)).
Proof.
  intros Hs Hk. unfold sz_sa2u_large. change SC_LARGE_MAXCLASS with 8070450532247928832.
  change SC_LARGE_MINCLASS with 16384.
  destruct (Z.ltb_spec 8070450532247928832 (2 ^ k)) as [|Hka]; [by rewrite decide_True by (by right)|].
  assert (k ≤ 62) as Hk62.
  { destruct (decide (k = 63)) as [->|]; [|lia]. change (2 ^ 63) with 9223372036854775808 in Hka. lia. }
  pose proof (page_ceiling_bound k ltac:(lia)) as Hpc.
  assert (0 ≤ sz_large_pad T ≤ 4096) as Hpad by (destruct (ready_pad (T := T)) as [->| ->]; [lia|by vm_compute]).
  assert (∀ u, 0 ≤ u ≤ 8070450532247928832 →
    (if u64 (u + sz_large_pad T + PAGE_CEILING (2 ^ k) - PAGE) <? u then Done 0 else Done u) = Done u) as Htail.
  { intros u Hu. change PAGE with 4096. rewrite u64_small by (unfold is_u64; lia).
    by destruct (Z.ltb_spec (u + sz_large_pad T + PAGE_CEILING (2 ^ k) - 4096) u); [lia|]. }
  destruct (Z.leb_spec size 16384) as [Hle|Hgt].
  - rewrite Htail, decide_False by lia. rewrite Z.max_r by done. by vm_compute.
  - rewrite sz_s2u_ok by lia. cbn [mbind outcome_bind]. rewrite Z.max_l by lia.
    destruct (decide (8070450532247928832 < size)) as [Hbig|Hsm].
    + unfold sz_s2u_compute at 1. change SC_LARGE_MAXCLASS with 8070450532247928832.
      destruct (Z.ltb_spec 8070450532247928832 size); [|lia]. destruct (Z.ltb_spec 0 size); [|lia].
      by rewrite decide_True by (by left).
    + destruct (s2u_least size) as (Hc & Hle & _); [change SC_LARGE_MAXCLASS with 8070450532247928832; lia|].
      apply class_range in Hc. change SC_LARGE_MAXCLASS with 8070450532247928832 in Hc.
      destruct (Z.ltb_spec (sz_s2u_compute size) size); [lia|]. rewrite Htail, decide_False by lia. done.
Qed.

Lemma s2u_page size : SC_LARGE_MINCLASS ≤ size ≤ SC_LARGE_MAXCLASS →
  (PAGE | sz_s2u_compute size) ∧ SC_LARGE_MINCLASS ≤ sz_s2u_compute size.
Proof.
  intros Hs. change SC_LARGE_MINCLASS with 16384 in *. destruct (s2u_least size) as (_ & Hle & _); [lia|].
  split; [|lia]. destruct (decide (size = 16384)) as [->|]; [by exists 4; vm_compute|].
  rewrite s2u_large by lia. assert (14 < Z.log2_up size) by (apply Z.log2_up_lt_pow2; lia).
  unfold group_size. apply Z.divide_mul_r. change PAGE with (2 ^ 12).
  exists (2 ^ (Z.log2_up size - 3 - 12)). rewrite <- Z.pow_add_r by lia. f_equal. lia.
Qed.

Lemma sa2u_ok size k :
  0 < size < 2 ^ 64 → 0 ≤ k < 64 →
  ∃ u, sz_sa2u T size (2 ^ k) = Done u ∧
    (u = 0 ↔ SC_LARGE_MAXCLASS < size ∨ SC_LARGE_MAXCLASS < 2 ^ k) ∧
    (u ≠ 0 → is_class u ∧ size ≤ u ∧
       (u < SC_LARGE_MINCLASS → 2 ^ k ≤ PAGE ∧ (2 ^ k | u)) ∧
       (SC_LARGE_MINCLASS ≤ u → (PAGE | u))).
Proof.
  intros Hs Hk.
  assert (∃ u, sz_sa2u_large T size (2 ^ k) = Done u ∧
    (u = 0 ↔ SC_LARGE_MAXCLASS < size ∨ SC_LARGE_MAXCLASS < 2 ^ k) ∧
    (u ≠ 0 → is_class u ∧ size ≤ u ∧ SC_LARGE_MINCLASS ≤ u ∧ (PAGE | u))) as (u & E & H0 & Hu).
  { rewrite sa2u_large_ok by done. eexists. split; [done|]. case_decide as Hd; [done|].
    destruct (s2u_least (Z.max size SC_LARGE_MINCLASS)) as (Hc & Hle & _).
    { change SC_LARGE_MINCLASS with 16384. change SC_LARGE_MAXCLASS with 8070450532247928832 in *. lia. }
    pose proof (class_range _ Hc). split; [split; [lia|done]|]. intros _. split; [done|]. split; [lia|].
    destruct (s2u_page (Z.max size SC_LARGE_MINCLASS)); [|done].
    change SC_LARGE_MINCLASS with 16384. change SC_LARGE_MAXCLASS with 8070450532247928832 in *. lia. }
  assert (∃ u, sz_sa2u_large T size (2 ^ k) = Done u ∧
    (u = 0 ↔ SC_LARGE_MAXCLASS < size ∨ SC_LARGE_MAXCLASS < 2 ^ k) ∧
    (u ≠ 0 → is_class u ∧ size ≤ u ∧ (u < SC_LARGE_MINCLASS → 2 ^ k ≤ PAGE ∧ (2 ^ k | u)) ∧
       (SC_LARGE_MINCLASS ≤ u → (PAGE | u)))) as Hlarge.
  { exists u. split; [done|]. split; [done|]. intros Hne. destruct (Hu Hne) as (? & ? & ? & ?).
    split; [done|]. split; [done|]. split; [lia|done]. }
  unfold sz_sa2u. destruct (Z.leb_spec size SC_SMALL_MAXCLASS) as [Hsm|]; [|exact Hlarge].
  destruct (Z.leb_spec (2 ^ k) PAGE) as [Hka|]; [|exact Hlarge]. cbn [andb].
  assert (k ≤ 12) as Hk12.
  { apply (Z.pow_le_mono_r_iff 2); [lia|lia|]. exact Hka. }
  rewrite alignment_ceiling_ok by lia. change SC_SMALL_MAXCLASS with 14336 in Hsm. change PAGE with 4096 in Hka.
  assert (0 < 2 ^ k) by (apply Z.pow_pos_nonneg; lia).
  pose proof (Z.div_mod (size - 1) (2 ^ k)). pose proof (Z.mod_pos_bound (size - 1) (2 ^ k)).
  assert (0 ≤ (size - 1) / 2 ^ k) by (apply Z.div_pos; lia).
  set (r := ((size - 1) / 2 ^ k + 1) * 2 ^ k).
  assert (size ≤ r ≤ size + 4095) by (unfold r; lia).
  rewrite sz_s2u_ok by lia. cbn [mbind outcome_bind]. destruct (Z.ltb_spec (sz_s2u_compute r) SC_LARGE_MINCLASS) as [Hlt|]; [|exact Hlarge].
  assert (0 < r ≤ SC_LARGE_MAXCLASS) as Hr by (change SC_LARGE_MAXCLASS with 8070450532247928832; lia).
  destruct (s2u_least r) as (Hc & Hle & _); [lia|]. pose proof (class_range _ Hc).
  exists (sz_s2u_compute r). split; [done|].
  split; [split; [lia|change SC_LARGE_MAXCLASS with 8070450532247928832; lia]|].
  intros _. split; [done|]. split; [lia|]. split; [|lia]. intros _. split; [done|].
  apply s2u_divide; [done|lia|]. apply Z.divide_factor_r.
Qed.

(** A usable size is its own usable size. *)
Lemma sa2u_large_class u k :
  is_class u → SC_LARGE_MINCLASS ≤ u → 0 ≤ k < 64 → 2 ^ k ≤ SC_LARGE_MAXCLASS → sz_sa2u T u (2 ^ k) = Done u.
Proof.
  intros Hc Hu Hk Ha. pose proof (class_range _ Hc) as Hr. unfold sz_sa2u.
  change SC_SMALL_MAXCLASS with 14336. change SC_LARGE_MINCLASS with 16384 in *. change SC_LARGE_MAXCLASS with 8070450532247928832 in *.
  destruct (Z.leb_spec u 14336); [lia|]. cbn [andb]. rewrite sa2u_large_ok by lia.
  change SC_LARGE_MINCLASS with 16384. change SC_LARGE_MAXCLASS with 8070450532247928832.
  rewrite decide_False, Z.max_l by lia. f_equal. destruct (s2u_least u) as (_ & Hle & Hl).
  { change SC_LARGE_MAXCLASS with 8070450532247928832. lia. }
  specialize (Hl u Hc). lia.
Qed.

Lemma sa2u_idem size k u :
  0 < size < 2 ^ 64 → 0 ≤ k < 64 → sz_sa2u T size (2 ^ k) = Done u → u ≠ 0 → sz_sa2u T u (2 ^ k) = Done u.
Proof.
  intros Hs Hk E Hu. destruct (sa2u_ok size k Hs Hk) as (u' & E' & H0 & H1).
  assert (u' = u) as -> by congruence. destruct (H1 Hu) as (Hc & _ & Hsmall & _). pose proof (class_range _ Hc) as Hr.
  destruct (Z.le_gt_cases SC_LARGE_MINCLASS u) as [Hl|Hl].
  { apply sa2u_large_class; try done. lia. }
  destruct (Hsmall Hl) as [Ha Hd]. assert (u ≤ SC_SMALL_MAXCLASS) as Hm.
  { destruct Hc as (i & Hi & ->). change SC_SMALL_MAXCLASS with 14336. change SC_LARGE_MINCLASS with 16384 in Hl.
    revert Hl. apply (all_below (λ i, sz_index2size_compute i < 16384 → sz_index2size_compute i ≤ 14336) SC_NSIZES i); [|done].
    vm_compute. reflexivity. }
  assert (k ≤ 12) as Hk12 by (apply (Z.pow_le_mono_r_iff 2); [lia|lia|exact Ha]).
  unfold sz_sa2u. rewrite (proj2 (Z.leb_le _ _) Hm), (proj2 (Z.leb_le _ _) Ha). cbn [andb].
  rewrite alignment_ceiling_ok by lia. assert (0 < 2 ^ k) by (apply Z.pow_pos_nonneg; lia).
  destruct Hd as [q Hq]. assert ((u - 1) / 2 ^ k = q - 1) as ->.
  { symmetry. apply (Z.div_unique _ _ _ (2 ^ k - 1)); lia. }
  replace ((q - 1 + 1) * 2 ^ k) with u by lia. rewrite sz_s2u_ok by lia. cbn [mbind outcome_bind].
  assert (sz_s2u_compute u = u) as ->.
  { destruct (s2u_least u) as (_ & Hle & Hl'); [lia|]. specialize (Hl' u Hc). lia. }
  by rewrite (proj2 (Z.ltb_lt _ _) Hl).
Qed.
End ready.



(** ** Page size classes *)

(** Index [4g + m] is class [m] of the group of [2^(g+13)]. *)
Lemma pind2sz_group g m :
  1 ≤ g ≤ 49 → 0 ≤ m ≤ 3 → 4 * g + m ≠ 199 →
  sz_pind2sz_compute (4 * g + m) = 2 ^ (g + 13) + (m + 1) * 2 ^ (g + 11).
Proof.
  intros Hg Hm Hne.
  assert (∀ z, 0 ≤ z < 200 → 1 ≤ z / 4 → z ≠ 199 →
    sz_pind2sz_compute z = 2 ^ (z / 4 + 13) + (z mod 4 + 1) * 2 ^ (z / 4 + 11)) as H.
  { intros z. apply (all_below (λ z, 1 ≤ z / 4 → z ≠ 199 →
      sz_pind2sz_compute z = 2 ^ (z / 4 + 13) + (z mod 4 + 1) * 2 ^ (z / 4 + 11))).
    vm_compute. reflexivity. }
  specialize (H (4 * g + m) ltac:(lia)).
  replace ((4 * g + m) / 4) with g in H by (rewrite Z.mul_comm, Z.div_add_l, Z.div_small by lia; lia).
  replace ((4 * g + m) mod 4) with m in H by (rewrite Z.mul_comm, Z.add_comm, Z.mod_add by lia; symmetry; apply Z.mod_small; lia).
  apply H; lia.
Qed.

Lemma pclass_next i : 0 ≤ i < SC_NPSIZES → sz_pind2sz_compute i < sz_pind2sz_compute (i + 1).
Proof. apply (all_below (λ i, sz_pind2sz_compute i < sz_pind2sz_compute (i + 1))). vm_compute. reflexivity. Qed.

Lemma pclass_mono i j : 0 ≤ i → i < j ≤ SC_NPSIZES → sz_pind2sz_compute i < sz_pind2sz_compute j.
Proof.
  intros Hi Hj. replace j with (i + Z.of_nat (Z.to_nat (j - i))) in * by lia.
  revert Hj. generalize (Z.to_nat (j - i)). clear j. intros n. induction n as [|n IH]; intros Hj; [lia|].
  destruct (decide (n = 0%nat)) as [->|]; [apply pclass_next; lia|].
  transitivity (sz_pind2sz_compute (i + Z.of_nat n)); [apply IH; lia|].
  replace (i + Z.of_nat (S n)) with (i + Z.of_nat n + 1) by lia. apply pclass_next. lia.
Qed.

Lemma pclass_page i : 0 ≤ i ≤ SC_NPSIZES →
  sz_pind2sz_compute i mod PAGE = 0 ∧ PAGE ≤ sz_pind2sz_compute i ≤ SC_LARGE_MAXCLASS + PAGE.
Proof.
  intros Hi. apply (all_below (λ i, sz_pind2sz_compute i mod PAGE = 0 ∧
    PAGE ≤ sz_pind2sz_compute i ≤ SC_LARGE_MAXCLASS + PAGE) (SC_NPSIZES + 1)); [vm_compute; reflexivity|lia].
Qed.

(** ** From a size to its page class *)

Lemma psz2ind_low psz :
  1 ≤ psz ≤ 2 ^ 14 → sz_psz2ind psz = (psz - 1) / PAGE ∧ 0 ≤ (psz - 1) / PAGE ≤ 3.
Proof.
  intros Hp. assert (Z.log2_up psz ≤ 14) as Hx by (apply Z.log2_up_le_pow2; lia).
  pose proof (Z.log2_up_nonneg psz). change PAGE with 4096.
  assert (0 ≤ (psz - 1) / 4096 < 4) as Hq by (split; [apply Z.div_pos|apply Z.div_lt_upper_bound]; lia).
  split; [|lia]. unfold sz_psz2ind. change SC_LARGE_MAXCLASS with 8070450532247928832.
  destruct (Z.ltb_spec 8070450532247928832 psz); [lia|]. rewrite lg_ceil_log2_up by lia.
  change (SC_LG_NGROUP + LG_PAGE) with 14.
  assert ((if Z.log2_up psz <? 14 then 0 else Z.log2_up psz - 14) = 0) as ->
    by (destruct (Z.ltb_spec (Z.log2_up psz) 14); lia).
  cbn [Z.eqb]. rewrite u64_small by (unfold is_u64; lia). rewrite Z.shiftr_div_pow2 by done.
  change (2 ^ LG_PAGE) with 4096. change (SC_NGROUP - 1) with (2 ^ 2 - 1). rewrite land_low by done.
  change (2 ^ 2) with 4. rewrite (Z.mod_small _ 4) by lia. change (Z.shiftl 0 SC_LG_NGROUP) with 0. change (u32 0) with 0.
  rewrite !u32_small by (rewrite ?u32_small by lia; lia). lia.
Qed.

Lemma psz2ind_high psz :
  2 ^ 14 < psz ≤ SC_LARGE_MAXCLASS → let x := Z.log2_up psz in
  15 ≤ x ≤ 63 ∧ sz_psz2ind psz = 4 * (x - 14) + ((psz - 1) / 2 ^ (x - 3) - 4).
Proof.
  intros Hp x. change SC_LARGE_MAXCLASS with 8070450532247928832 in Hp.
  assert (15 ≤ x ≤ 63) as Hx.
  { split; [cut (14 < x); [lia|]; apply Z.log2_up_lt_pow2; lia|apply Z.log2_up_le_pow2; lia]. }
  split; [done|]. pose proof (group_slot psz x ltac:(lia) eq_refl ltac:(lia)) as Hslot.
  unfold sz_psz2ind. change SC_LARGE_MAXCLASS with 8070450532247928832.
  destruct (Z.ltb_spec 8070450532247928832 psz); [lia|]. rewrite lg_ceil_log2_up by lia. fold x.
  change (SC_LG_NGROUP + LG_PAGE) with 14. destruct (Z.ltb_spec x 14); [lia|].
  destruct (Z.eqb_spec (x - 14) 0); [lia|]. change LG_PAGE with 12. replace (12 + (x - 14 - 1)) with (x - 3) by lia.
  rewrite u64_small by (unfold is_u64; lia). rewrite Z.shiftr_div_pow2 by lia. change (SC_NGROUP - 1) with 3.
  rewrite (group_land psz x) by (done || lia). rewrite Z.shiftl_mul_pow2 by done. change (2 ^ SC_LG_NGROUP) with 4.
  rewrite !u32_small by (rewrite ?u32_small by lia; lia). lia.
Qed.

Lemma psz2ind_ok psz :
  1 ≤ psz ≤ SC_LARGE_MAXCLASS → let i := sz_psz2ind psz in
  0 ≤ i < SC_NPSIZES ∧ psz ≤ sz_pind2sz_compute i ∧ sz_pind2sz_compute i = sz_psz2u psz ∧
  (0 < i → sz_pind2sz_compute (i - 1) < psz).
Proof.
  intros Hp. unfold sz_psz2u. change SC_NPSIZES with 199. change SC_LARGE_MAXCLASS with 8070450532247928832 in *.
  destruct (Z.ltb_spec 8070450532247928832 psz); [lia|]. rewrite lg_double_pred by lia.
  change (SC_LG_NGROUP + LG_PAGE + 1) with 15. destruct (Z.le_gt_cases psz (2 ^ 14)) as [Hlow|Hhigh].
  - destruct (psz2ind_low psz) as [-> Hq]; [lia|].
    assert (Z.log2_up psz ≤ 14) as Hx by (apply Z.log2_up_le_pow2; lia).
    destruct (Z.ltb_spec (Z.log2_up psz) 15); [|lia].
    rewrite (round_up_mask psz LG_PAGE) by (change LG_PAGE with 12; lia). change (2 ^ LG_PAGE) with 4096.
    change PAGE with 4096 in *.
    pose proof (Z.div_mod (psz - 1) 4096). pose proof (Z.mod_pos_bound (psz - 1) 4096).
    set (q := (psz - 1) / 4096) in *. cbv zeta.
    assert (∀ z, 0 ≤ z < 4 → sz_pind2sz_compute z = (z + 1) * 4096) as Hc
      by (intros z; apply (all_below (λ z, sz_pind2sz_compute z = (z + 1) * 4096)); vm_compute; reflexivity).
    rewrite Hc by lia. split; [lia|]. split; [lia|]. split; [done|]. intros. rewrite Hc by lia. lia.
  - destruct (psz2ind_high psz) as [Hx ->]; [by change SC_LARGE_MAXCLASS with 8070450532247928832|].
    set (x := Z.log2_up psz) in *. destruct (Z.ltb_spec x 15); [lia|]. cbv zeta.
    change (x - SC_LG_NGROUP - 1) with (x - 2 - 1). replace (x - 2 - 1) with (x - 3) by lia.
    pose proof (group_slot psz x ltac:(lia) eq_refl ltac:(lia)) as Hslot.
    destruct (group_size_bounds psz x ltac:(lia) eq_refl ltac:(lia)) as [Hb _].
    pose proof (group_size_fits psz x ltac:(lia) eq_refl ltac:(lia)) as Hfit.
    destruct (group_pow x ltac:(lia)) as [E4 _]. pose proof (group_bounds psz x ltac:(lia) eq_refl) as Hgb.
    rewrite round_up_mask by lia. unfold group_size in Hb.
    assert (x = 63 → (psz - 1) / 2 ^ (x - 3) < 7) as Htop by (intros ->; apply Z.div_lt_upper_bound; lia).
    set (q := (psz - 1) / 2 ^ (x - 3)) in *.
    assert (∀ m, 0 ≤ m ≤ 3 → 4 * (x - 14) + m ≠ 199 → sz_pind2sz_compute (4 * (x - 14) + m) = (m + 5) * 2 ^ (x - 3)) as Hc.
    { intros m Hm Hne. rewrite pind2sz_group by lia. replace (x - 14 + 13) with (x - 1) by lia.
      replace (x - 14 + 11) with (x - 3) by lia. rewrite E4. lia. }
    rewrite Hc by lia. split; [lia|]. split; [lia|]. split; [lia|]. intros _. destruct (decide (q = 4)) as [E|E].
    + replace (4 * (x - 14) + (q - 4) - 1) with (4 * (x - 15) + 3) by lia.
      destruct (decide (x = 15)) as [->|].
      { change (sz_pind2sz_compute (4 * (15 - 15) + 3)) with 16384. lia. }
      rewrite pind2sz_group by lia. replace (x - 15 + 13) with (x - 3 + 1) by lia.
      replace (x - 15 + 11) with (x - 4) by lia. rewrite Z.pow_add_r by lia.
      replace (2 ^ (x - 3)) with (2 * 2 ^ (x - 4)) in * by (rewrite <- Z.pow_succ_r by lia; f_equal; lia). lia.
    + replace (4 * (x - 14) + (q - 4) - 1) with (4 * (x - 14) + (q - 5)) by lia. rewrite Hc by lia. lia.
Qed.

(** The largest class below and the smallest above. *)
Definition pclass_floor (s c : Z) : Prop :=
  ∃ i, 0 ≤ i < SC_NPSIZES ∧ c = sz_pind2sz_compute i ∧ c ≤ s < sz_pind2sz_compute (i + 1).

Definition pclass_ceil (s c : Z) : Prop :=
  ∃ i, 0 ≤ i < SC_NPSIZES ∧ c = sz_pind2sz_compute i ∧ s ≤ c ∧ (0 < i → sz_pind2sz_compute (i - 1) < s).

(** One past a size: the index above the largest class that is not larger. *)
Lemma psz2ind_succ s :
  PAGE ≤ s ≤ SC_LARGE_MAXCLASS → let i := sz_psz2ind (s + 1) in
  0 < i ≤ SC_NPSIZES ∧ sz_pind2sz_compute (i - 1) ≤ s < sz_pind2sz_compute i.
Proof.
  intros Hs i. destruct (decide (s = SC_LARGE_MAXCLASS)) as [E|].
  { subst s. vm_compute. repeat split; discriminate. }
  destruct (psz2ind_ok (s + 1)) as (Hi & Hle & _ & Hprev); [change PAGE with 4096 in Hs; lia|]. fold i in Hi, Hle, Hprev.
  assert (i ≠ 0).
  { intros E. rewrite E in Hle. change (sz_pind2sz_compute 0) with PAGE in Hle. lia. }
  specialize (Hprev ltac:(lia)). lia.
Qed.

Section quantize.
Context (T : sz_tables) `{SzReady T} (s : Z) (Hs : PAGE ≤ s ≤ SC_LARGE_MAXCLASS).

Lemma pad_fits : 0 ≤ sz_large_pad T ≤ 4096.
Proof. destruct (ready_pad (T := T)) as [->| ->]; [lia|]. change PAGE with 4096. lia. Qed.

Lemma quantize_floor_ok :
  ∃ c, sz_psz_quantize_floor T (s + sz_large_pad T) = Done (c + sz_large_pad T) ∧ pclass_floor s c.
Proof.
  pose proof pad_fits. change SC_LARGE_MAXCLASS with 8070450532247928832 in *. change PAGE with 4096 in *.
  destruct (psz2ind_succ s) as [Hi Hb]; [done|]. unfold sz_psz_quantize_floor.
  replace (s + sz_large_pad T - sz_large_pad T + 1) with (s + 1) by lia. rewrite u64_small by (unfold is_u64; lia).
  set (i := sz_psz2ind (s + 1)) in *. destruct (Z.eqb_spec i 0); [lia|].
  rewrite ready_pind by lia. cbn [mbind outcome_bind].
  destruct (pclass_page (i - 1)) as [_ Hc]; [lia|]. change PAGE with 4096 in Hc.
  exists (sz_pind2sz_compute (i - 1)). rewrite u64_small by (unfold is_u64; lia). split; [done|].
  exists (i - 1). split; [lia|]. split; [done|]. by replace (i - 1 + 1) with i by lia.
Qed.

Lemma quantize_ceil_ok :
  ∃ c, sz_psz_quantize_ceil T (s + sz_large_pad T) = Done (c + sz_large_pad T) ∧ pclass_ceil s c.
Proof.
  pose proof pad_fits. destruct quantize_floor_ok as (c & E & i & Hi & Ec & Hb).
  unfold sz_psz_quantize_ceil. rewrite E. cbn [mbind outcome_bind].
  assert (PAGE ≤ c) as Hc by (rewrite Ec; apply pclass_page; lia). change PAGE with 4096 in Hc.
  assert (s ≤ 8070450532247928832) by apply Hs.
  destruct (Z.ltb_spec (c + sz_large_pad T) (s + sz_large_pad T)) as [Hlt|].
  - replace (c + sz_large_pad T - sz_large_pad T + 1) with (c + 1) by lia. rewrite u64_small by (unfold is_u64; lia).
    destruct (psz2ind_ok (c + 1)) as (Hj & Hle & _ & Hprev).
    { change SC_LARGE_MAXCLASS with 8070450532247928832. lia. }
    set (j := sz_psz2ind (c + 1)) in *. rewrite ready_pind by lia. cbn [mbind outcome_bind].
    assert (j = i + 1) as ->.
    { destruct (Z.lt_trichotomy j (i + 1)) as [Hlt'|[|Hgt]]; [|done|].
      - destruct (decide (j = i)) as [->|]; [lia|]. pose proof (pclass_mono j i). lia.
      - specialize (Hprev ltac:(lia)). destruct (decide (j = i + 2)) as [->|].
        + replace (i + 2 - 1) with (i + 1) in Hprev by lia. pose proof (pclass_next i). lia.
        + pose proof (pclass_mono i (j - 1)). lia. }
    destruct (pclass_page (i + 1)) as [_ Hc']; [lia|]. change PAGE with 4096 in Hc'.
    change SC_LARGE_MAXCLASS with 8070450532247928832 in Hc'.
    exists (sz_pind2sz_compute (i + 1)). rewrite u64_small by (unfold is_u64; lia). split; [done|].
    exists (i + 1). split; [lia|]. split; [done|]. split; [lia|]. intros _. replace (i + 1 - 1) with i by lia. lia.
  - exists c. split; [done|]. exists i. split; [done|]. split; [done|]. split; [lia|]. intros Hpos.
    pose proof (pclass_next (i - 1) ltac:(lia)) as Hn. replace (i - 1 + 1) with i in Hn by lia. lia.
Qed.
End quantize.

(** Page classes.  The page index of a size is that of the least page class
    that holds it, which is also the rounded size; quantising an extent, padding
    included, gives the largest class that fits in it and the smallest it fits
    in. *)
Theorem sz_pages_quantize T s :
  SzReady T → PAGE ≤ s ≤ SC_LARGE_MAXCLASS →
  pclass_ceil s (sz_psz2u s) ∧ sz_pind2sz T (sz_psz2ind s) = Done (sz_psz2u s) ∧
  (∃ c, sz_psz_quantize_floor T (s + sz_large_pad T) = Done (c + sz_large_pad T) ∧ pclass_floor s c) ∧
  (∃ c, sz_psz_quantize_ceil T (s + sz_large_pad T) = Done (c + sz_large_pad T) ∧ pclass_ceil s c).
Proof.
  intros HT Hs. destruct (psz2ind_ok s) as (Hi & Hle & E & Hprev); [change PAGE with 4096 in Hs; lia|].
  split; [|split; [by rewrite ready_pind, E by lia|split; [by apply quantize_floor_ok|by apply quantize_ceil_ok]]].
  exists (sz_psz2ind s). rewrite <- E. by split.
Qed.

Lemma sz_pages_quantize_witness :
  pclass_ceil 36864 (sz_psz2u 36864) ∧ sz_psz_quantize_floor (booted true) (36864 + 4096) = Done 36864.
Proof.
  destruct (sz_pages_quantize (booted true) 36864 _ ltac:(vm_compute; split; discriminate)) as (H & _).
  split; [exact H|vm_compute; reflexivity].
Defined.
