(* ===== verification/Imalloc.v ===== *)
(** * The allocation path of the allocator, [jemalloc/src/jemalloc.c]

    [imalloc] and what it calls down to the request it makes of an arena:
    overflow of the size, validity of the alignment, usable size and size class,
    choice of thread cache and arena, sampling by the profiler, and the error
    paths.  Memory itself comes from [heap], which stands for [ipalloct] and
    [iallocztm]; it returns 0 for a null pointer. *)
From stdpp Require Import base list numbers.
From S2P Require Import Prelude BitUtil SizeClass Sz SzTheorems.

(** ** Options *)

Record static_opts := mkSopts {
  may_overflow : bool;
  bump_empty_aligned_alloc : bool;
  assert_nonempty_alloc : bool;
  null_out_result_on_error : bool;
  set_errno_on_error : bool;
  min_alignment : Z;
  slow : bool
}.

Definition static_opts_init : static_opts := mkSopts false false false false false 0 false.

Definition TCACHE_IND_NONE : Z := 2 ^ 32 - 1.
Definition TCACHE_IND_AUTOMATIC : Z := 2 ^ 32 - 2.
Definition ARENA_IND_AUTOMATIC : Z := 2 ^ 32 - 1.

Record dynamic_opts := mkDopts {
  num_items : Z;
  item_size : Z;
  alignment : Z;
  zero : bool;
  tcache_ind : Z;
  arena_ind : Z
}.

Definition dynamic_opts_init : dynamic_opts :=
  mkDopts 0 0 0 false TCACHE_IND_AUTOMATIC ARENA_IND_AUTOMATIC.

(** Build-time and run-time options of the allocator. *)
Record options := mkOptions {
  config_fill : bool;
  opt_zero : bool;
  opt_junk_alloc : bool;
  config_xmalloc : bool;
  opt_xmalloc : bool;
  config_prof : bool;
  opt_prof : bool;
  opt_cache_oblivious : bool
}.

(** What [imalloc] looks at in the thread-specific data. *)
Record tsd := mkTsd {
  tsd_fast : bool;
  tsd_reentrancy_level : Z
}.

(** ** Requests to an arena *)

Inductive tcache_sel :=
| TcacheNone
| TcacheThread                 (* [tsd_tcachep_get] *)
| TcacheGet                    (* [tcache_get], the thread's cache if it is available *)
| TcacheManual (ind : Z).      (* [tcaches_get] *)

Inductive request :=
| Ipalloct (usize alignment : Z) (zero : bool) (tcache : tcache_sel) (arena : option Z)
| Iallocztm (size ind : Z) (zero : bool) (tcache : tcache_sel) (arena : option Z) (slow : bool).

Definition ENOMEM : Z := 12.
Definition EINVAL : Z := 22.

(** What a call leaves: its code, what it stores in [*result] and in [errno] (if
    it does), the requests it made, and the memory it fills with junk. *)
Record effects := mkEffects {
  code : Z;
  result : option Z;
  errno : option Z;
  requests : list request;
  junk : option (Z * Z)
}.

(** ** Sizes *)

(** The product of the number and the size of the items, and whether it
    overflows. *)
Definition compute_size_with_overflow (may_overflow : bool) (dopts : dynamic_opts) : bool * Z :=
  if negb may_overflow then (false, item_size dopts)
  else
    let high_bits := shl64 (2 ^ 64 - 1) 32 in
    let size := u64 (item_size dopts * num_items dopts) in
    if size =? 0 then (negb (num_items dopts =? 0) && negb (item_size dopts =? 0), size)
    else if Z.land high_bits (Z.lor (num_items dopts) (item_size dopts)) =? 0 then (false, size)
    else if size / item_size dopts =? num_items dopts then (false, size)
    else (true, size).

Section imalloc.
Context (T : sz_tables) (cfg : options).
Context (heap : request → Z).
(** [arena_get] of an index finds an arena; the number of automatic arenas; what
    [prof_alloc_prep] returns for a usable size (null, 1, or a context). *)
Context (arena_get : Z → bool) (narenas_auto : Z) (prof_alloc_prep : Z → Z).

(** The usable size, or that it is out of range, and the class index, which is
    computed for an alignment of 0 when the caller wants it. *)
Definition aligned_usize_get (size alignment : Z) (want_ind : bool) (bump_empty : bool) : outcome (option (Z * Z)) :=
  let in_range (usize : Z) : option (Z * Z) :=
    if (usize =? 0) || (SC_LARGE_MAXCLASS <? usize) then None else Some (usize, 0) in
  if alignment =? 0 then
    if want_ind then
      ind ← sz_size2index T size;
      if SC_NSIZES <=? ind then Done None
      else usize ← sz_index2size T ind; Done (Some (usize, ind))
    else usize ← sz_s2u T size; Done (in_range usize)
  else
    let size := if bump_empty && (size =? 0) then 1 else size in
    usize ← sz_sa2u T size alignment; Done (in_range usize).

Definition zero_get (guarantee slow : bool) : bool :=
  if config_fill cfg && slow && opt_zero cfg then true else guarantee.

Definition tcache_get_from_ind (t : tsd) (ind : Z) (slow is_alloc : bool) : tcache_sel :=
  if ind =? TCACHE_IND_AUTOMATIC then
    if negb slow then TcacheThread
    else if is_alloc || (tsd_reentrancy_level t =? 0) then TcacheGet
    else TcacheNone
  else if ind =? TCACHE_IND_NONE then TcacheNone
  else TcacheManual ind.

(** [None]: a manual arena that cannot be had. *)
Definition arena_get_from_ind (ind : Z) : option (option Z) :=
  if ind =? ARENA_IND_AUTOMATIC then Some None
  else if negb (arena_get ind) && (narenas_auto <=? ind) then None
  else Some (if arena_get ind then Some ind else None).

(** The request an allocation makes, if it gets as far as making one. *)
Definition imalloc_no_sample (sopts : static_opts) (dopts : dynamic_opts) (t : tsd) (size usize ind : Z) : option request :=
  let tcache := tcache_get_from_ind t (tcache_ind dopts) (slow sopts) true in
  match arena_get_from_ind (arena_ind dopts) with
  | None => None
  | Some arena =>
      Some (if negb (alignment dopts =? 0) then Ipalloct usize (alignment dopts) (zero dopts) tcache arena
            else Iallocztm size ind (zero dopts) tcache arena (slow sopts))
  end.

Definition prof_sample_align (orig_align : Z) : Z :=
  if opt_cache_oblivious cfg && (orig_align <? PAGE) then PAGE else orig_align.

Definition set_alignment (a : Z) (d : dynamic_opts) : dynamic_opts :=
  mkDopts (num_items d) (item_size d) a (zero d) (tcache_ind d) (arena_ind d).

Definition imalloc_sample (sopts : static_opts) (dopts : dynamic_opts) (t : tsd) (usize ind : Z) : outcome (option request) :=
  let dopts := set_alignment (prof_sample_align (alignment dopts)) dopts in
  if usize <=? SC_SMALL_MAXCLASS then
    ind_large ← sz_size2index T SC_LARGE_MINCLASS;
    bumped_usize ← sz_s2u T SC_LARGE_MINCLASS;
    Done (imalloc_no_sample sopts dopts t bumped_usize bumped_usize ind_large)
  else Done (imalloc_no_sample sopts dopts t usize usize ind).

(** The pointer a request yields, 0 when none is made. *)
Definition perform (r : option request) : Z := from_option heap 0 r.

Definition fail_oom (sopts : static_opts) (made : list request) : outcome effects :=
  if slow sopts && config_xmalloc cfg && opt_xmalloc cfg then Fault Aborted
  else Done (mkEffects ENOMEM (if null_out_result_on_error sopts then Some 0 else None)
    (if set_errno_on_error sopts then Some ENOMEM else None) made None).

Definition fail_alignment (sopts : static_opts) : outcome effects :=
  if config_xmalloc cfg && opt_xmalloc cfg then Fault Aborted
  else Done (mkEffects EINVAL (if null_out_result_on_error sopts then Some 0 else None)
    (if set_errno_on_error sopts then Some EINVAL else None) [] None).

(** The allocation proper, once the usable size is known: the request made. *)
Definition imalloc_request (sopts : static_opts) (dopts : dynamic_opts) (t : tsd) (size usize ind : Z) : outcome (option request) :=
  if config_prof cfg && opt_prof cfg then
    let tctx := prof_alloc_prep usize in
    if tctx =? 1 then Done (imalloc_no_sample sopts dopts t usize usize ind)
    else if 1 <? tctx then imalloc_sample sopts dopts t usize ind
    else Done None
  else Done (imalloc_no_sample sopts dopts t size usize ind).

Definition set_core (z : bool) (reentrant : bool) (d : dynamic_opts) : dynamic_opts :=
  mkDopts (num_items d) (item_size d) (alignment d) z
    (if reentrant then TCACHE_IND_NONE else tcache_ind d) (if reentrant then 0 else arena_ind d).

Definition imalloc_body (sopts : static_opts) (dopts : dynamic_opts) (t : tsd) : outcome effects :=
  let '(overflow, size) := compute_size_with_overflow (may_overflow sopts) dopts in
  if overflow then fail_oom sopts []
  else if (alignment dopts <? min_alignment sopts) ||
          negb (Z.land (alignment dopts) (u64 (alignment dopts - 1)) =? 0) then fail_alignment sopts
  else
    us ← aligned_usize_get size (alignment dopts) true (bump_empty_aligned_alloc sopts);
    match us with
    | None => fail_oom sopts []
    | Some (usize, ind) =>
        let dopts := set_core (zero_get (zero dopts) (slow sopts)) (slow sopts && (0 <? tsd_reentrancy_level t)) dopts in
        made ← imalloc_request sopts dopts t size usize ind;
        let allocation := perform made in
        let made := option_list made in
        if allocation =? 0 then fail_oom sopts made
        else Done (mkEffects 0 (Some allocation) None made
          (if config_fill cfg && slow sopts && negb (zero dopts) && opt_junk_alloc cfg
           then Some (allocation, usize) else None))
    end.

Definition set_slow (b : bool) (s : static_opts) : static_opts :=
  mkSopts (may_overflow s) (bump_empty_aligned_alloc s) (assert_nonempty_alloc s) (null_out_result_on_error s)
    (set_errno_on_error s) (min_alignment s) b.

(** [ready]: the allocator is initialised, or its initialisation succeeds. *)
Definition imalloc_init_check (ready : bool) : outcome (option effects) :=
  if ready then Done None
  else if config_xmalloc cfg && opt_xmalloc cfg then Fault Aborted
  else Done (Some (mkEffects ENOMEM (Some 0) (Some ENOMEM) [] None)).

(** With thread-local storage, where [tsd_get_allocates] is false. *)
Definition imalloc (ready : bool) (sopts : static_opts) (dopts : dynamic_opts) (t : tsd) : outcome effects :=
  if tsd_fast t then imalloc_body (set_slow false sopts) dopts t
  else
    failed ← imalloc_init_check ready;
    match failed with
    | Some e => Done e
    | None => imalloc_body (set_slow true sopts) dopts t
    end.
End imalloc.
