(* ===== verification/ImallocTheorems.v ===== *)
(** * Theorems on the allocation path *)
From stdpp Require Import base list numbers.
From S2P Require Import Prelude BitUtil SizeClass Sz SzTheorems Imalloc.

(** ** The product of [calloc] *)

Lemma high_bits_zero x y :
  0 ≤ x < 2 ^ 64 → 0 ≤ y < 2 ^ 64 →
  Z.land (shl64 (2 ^ 64 - 1) 32) (Z.lor x y) = 0 → x < 2 ^ 32 ∧ y < 2 ^ 32.
Proof.
  intros Hx Hy H. change (shl64 (2 ^ 64 - 1) 32) with (Z.shiftl (Z.ones 32) 32) in H.
  assert (∀ z, 0 ≤ z < 2 ^ 64 → (∀ i, 32 ≤ i < 64 → Z.testbit z i = false) → z < 2 ^ 32) as Hbits.
  { intros z Hz Hb. destruct (Z.lt_ge_cases z (2 ^ 32)) as [|Hge]; [done|].
    assert (32 ≤ Z.log2 z < 64) as Hl by (split; [apply Z.log2_le_pow2|apply Z.log2_lt_pow2]; lia).
    specialize (Hb _ Hl). rewrite Z.bit_log2 in Hb by lia. done. }
  assert (∀ i, 32 ≤ i < 64 → Z.testbit x i = false ∧ Z.testbit y i = false) as Hxy.
  { intros i Hi. apply (f_equal (λ z, Z.testbit z i)) in H.
    rewrite Z.land_spec, Z.lor_spec, Z.shiftl_spec, Z.ones_spec_low, Z.bits_0 in H by lia.
    by apply orb_false_iff. }
  split; apply Hbits; try done; intros i Hi; by apply Hxy.
Qed.

Lemma compute_size_ok d :
  0 ≤ num_items d < 2 ^ 64 → 0 ≤ item_size d < 2 ^ 64 →
  let '(overflow, size) := compute_size_with_overflow true d in
  overflow = bool_decide (2 ^ 64 ≤ num_items d * item_size d) ∧
  size = u64 (num_items d * item_size d).
Proof.
  intros Hn Hi. unfold compute_size_with_overflow. cbn [negb]. rewrite (Z.mul_comm (item_size d)).
  set (n := num_items d) in *. set (i := item_size d) in *. set (p := n * i) in *.
  assert (0 ≤ p) by (unfold p; nia).
  pose proof (Z.div_mod p (2 ^ 64)). pose proof (Z.mod_pos_bound p (2 ^ 64)).
  assert (0 ≤ p / 2 ^ 64) by (apply Z.div_pos; lia).
  destruct (Z.eqb_spec (u64 p) 0) as [E|E].
  { split; [|done]. unfold u64 in E. destruct (Z.eqb_spec n 0), (Z.eqb_spec i 0); cbn;
      try (symmetry; apply bool_decide_eq_false; unfold p; nia).
    symmetry. apply bool_decide_eq_true. assert (0 < p) by (unfold p; nia). lia. }
  destruct (Z.eqb_spec (Z.land (shl64 (2 ^ 64 - 1) 32) (Z.lor n i)) 0) as [Eh|Eh].
  { split; [|done]. symmetry. apply bool_decide_eq_false.
    destruct (high_bits_zero n i Hn Hi Eh). unfold p. nia. }
  assert (0 < i) by (destruct (decide (i = 0)); [exfalso; apply E; unfold p; by replace i with 0 by done; rewrite Z.mul_0_r|lia]).
  pose proof (Z.div_mod (u64 p) i). pose proof (Z.mod_pos_bound (u64 p) i).
  unfold u64 in *. destruct (Z.eqb_spec (p mod 2 ^ 64 / i) n) as [Eq|Eq]; (split; [|done]); symmetry.
  - apply bool_decide_eq_false. unfold p in *. nia.
  - apply bool_decide_eq_true. destruct (Z.le_gt_cases (2 ^ 64) p); [done|].
    destruct Eq. rewrite Z.mod_small by lia. unfold p. apply Z.div_mul. lia.
Qed.

(** [calloc] multiplies without missing an overflow: the product is reported
    as overflowing exactly when it does not fit in 64 bits, and is exact
    otherwise. *)
Theorem calloc_overflow num size :
  0 ≤ num < 2 ^ 64 → 0 ≤ size < 2 ^ 64 →
  let d := mkDopts num size 0 true TCACHE_IND_AUTOMATIC ARENA_IND_AUTOMATIC in
  ((compute_size_with_overflow true d).1 = true ↔ 2 ^ 64 ≤ num * size) ∧
  ((compute_size_with_overflow true d).1 = false → (compute_size_with_overflow true d).2 = num * size).
Proof.
  intros Hn Hs d. pose proof (compute_size_ok d Hn Hs) as H.
  destruct (compute_size_with_overflow true d) as [o z]. destruct H as [-> ->]. cbn.
  rewrite bool_decide_eq_true, bool_decide_eq_false. split; [done|].
  intros Hlt. apply u64_small. unfold is_u64. nia.
Qed.

Lemma calloc_overflow_witness :
  (compute_size_with_overflow true (mkDopts (2 ^ 33) (2 ^ 31 + 1) 0 true TCACHE_IND_AUTOMATIC ARENA_IND_AUTOMATIC)).1 = true.
Proof. apply (calloc_overflow (2 ^ 33) (2 ^ 31 + 1)); lia. Defined.

(** ** The usable size *)

Definition valid_alignment (a : Z) : Prop := a = 0 ∨ ∃ k, 0 ≤ k < 64 ∧ a = 2 ^ k.

Lemma alignment_test a :
  0 ≤ a < 2 ^ 64 → (Z.land a (u64 (a - 1)) =? 0) = true ↔ valid_alignment a.
Proof.
  intros Ha. rewrite Z.eqb_eq. destruct (decide (a = 0)) as [->|Hne].
  { rewrite Z.land_0_l. split; [by left|done]. }
  rewrite u64_small by (unfold is_u64; lia). rewrite land_pred_pow2 by lia. split.
  - intros E. right. exists (Z.log2 a). split; [apply log2_u64; lia|done].
  - intros [|(k & Hk & ->)]; [done|]. rewrite Z.log2_pow2 by lia. done.
Qed.

(** A usable size that serves a request of [size] bytes. *)
Definition serves (T : sz_tables) (size usize ind : Z) (a : Z) : Prop :=
  is_class usize ∧ size ≤ usize ∧
  (a = 0 → 0 ≤ ind < SC_NSIZES ∧ usize = sz_index2size_compute ind) ∧
  (a ≠ 0 → usize ≤ SC_SMALL_MAXCLASS → a ≤ PAGE) ∧
  (a ≠ 0 → sz_sa2u T usize a = Done usize).

Definition too_large (size a : Z) : Prop := SC_LARGE_MAXCLASS < size ∨ SC_LARGE_MAXCLASS < a.

Section usable.
Context (T : sz_tables) `{SzReady T}.

Lemma aligned_usize_get_ok size a bump :
  0 ≤ size < 2 ^ 64 → valid_alignment a → (a ≠ 0 → bump = true ∨ 0 < size) →
  ∃ us, aligned_usize_get T size a true bump = Done us ∧
    match us with
    | None => too_large size a
    | Some (usize, ind) => ¬ too_large size a ∧ serves T size usize ind a
    end.
Proof.
  intros Hs Ha Hpos. unfold aligned_usize_get, too_large. destruct Ha as [->|(k & Hk & ->)].
  - cbn [Z.eqb]. rewrite (sz_size2index_ok T) by lia. cbn [mbind outcome_bind].
    destruct (decide (SC_LARGE_MAXCLASS < size)) as [Hbig|Hsm].
    + unfold sz_size2index_compute. destruct (Z.ltb_spec SC_LARGE_MAXCLASS size); [|lia].
      exists None. split; [by vm_compute|by left].
    + destruct (index_of_size size) as (Hi & Hle & _ & _); [lia|]. set (i := sz_size2index_compute size) in *.
      destruct (Z.leb_spec SC_NSIZES i); [lia|]. rewrite (ready_index (T := T)) by done.
      eexists. split; [done|]. cbn. split; [by change SC_LARGE_MAXCLASS with 8070450532247928832 in *; lia|].
      split; [by exists i|]. done.
  - pose proof (pow2_range k Hk). destruct (Z.eqb_spec (2 ^ k) 0); [lia|].
    set (s := if bump && (size =? 0) then 1 else size).
    assert (0 < s < 2 ^ 64 ∧ size ≤ s ∧ (SC_LARGE_MAXCLASS < s ↔ SC_LARGE_MAXCLASS < size)) as (Hs' & Hle & Hiff).
    { unfold s. change SC_LARGE_MAXCLASS with 8070450532247928832.
      destruct (Z.eqb_spec size 0), bump; cbn; try lia; (destruct (Hpos ltac:(lia)); [done|lia]). }
    destruct (sa2u_ok T s k Hs' Hk) as (u & Eu & Hz0 & Hu). rewrite Eu. cbn [mbind outcome_bind]. eexists. split; [done|].
    destruct (Z.eqb_spec u 0) as [E|E]; cbn [orb].
    + rewrite <- Hiff. by apply Hz0.
    + destruct (Hu E) as (Hc & Hsu & Hsmall & _). pose proof (class_range _ Hc).
      destruct (Z.ltb_spec SC_LARGE_MAXCLASS u); [lia|]. split; [rewrite <- Hiff; tauto|].
      split; [done|]. split; [lia|]. split; [lia|]. split.
      { intros _ Husm. apply Hsmall. change SC_SMALL_MAXCLASS with 14336 in Husm. change SC_LARGE_MINCLASS with 16384. lia. }
      intros _. by apply (sa2u_idem T s k).
Qed.
End usable.

(** ** The request *)

(** What [ipallocztm] asserts of the requests it gets: the alignment is a power of two, and the usable size is that of an
    aligned request. *)
Definition palloc_pre (T : sz_tables) (usize al : Z) : Prop :=
  al ≠ 0 ∧ valid_alignment al ∧ usize ≠ 0 ∧ sz_sa2u T usize al = Done usize.

(** A request for at least [size] bytes at an alignment that [a] divides. *)
Definition request_serves (T : sz_tables) (size a : Z) (r : request) : Prop :=
  match r with
  | Ipalloct usize al _ _ _ => is_class usize ∧ size ≤ usize ∧ palloc_pre T usize al ∧ (a = 0 ∨ (a | al))
  | Iallocztm size' ind _ _ _ _ => a = 0 ∧ 0 ≤ ind < SC_NSIZES ∧ size ≤ sz_index2size_compute ind ∧
      size ≤ size' ≤ sz_index2size_compute ind
  end.

Section requests.
Context (T : sz_tables) `{SzReady T} (cfg : options) (heap : request → Z).
Context (arena_get : Z → bool) (narenas_auto : Z) (prof_alloc_prep : Z → Z).

(** No request is made for a manual arena that cannot be had, or when the profiler has no memory for its record. *)
Definition unavailable (ind : Z) : Prop := ind ≠ ARENA_IND_AUTOMATIC ∧ arena_get ind = false ∧ narenas_auto ≤ ind.
Definition refused (ind usize : Z) : Prop :=
  (config_prof cfg && opt_prof cfg = true ∧ prof_alloc_prep usize ≤ 0) ∨ unavailable ind.

Lemma no_sample_none sopts dopts t size usize ind :
  imalloc_no_sample arena_get narenas_auto sopts dopts t size usize ind = None ↔ unavailable (arena_ind dopts).
Proof.
  unfold imalloc_no_sample, arena_get_from_ind, unavailable. destruct (Z.eqb_spec (arena_ind dopts) ARENA_IND_AUTOMATIC); [naive_solver|].
  destruct (arena_get (arena_ind dopts)); cbn [negb andb]; [naive_solver|]. destruct (Z.leb_spec narenas_auto (arena_ind dopts)); naive_solver lia.
Qed.

Lemma no_sample_serves sopts dopts t size size' usize ind a r :
  imalloc_no_sample arena_get narenas_auto sopts dopts t size' usize ind = Some r →
  is_class usize → size ≤ usize → size ≤ size' →
  valid_alignment (alignment dopts) →
  (alignment dopts ≠ 0 → (a = 0 ∨ (a | alignment dopts)) ∧ sz_sa2u T usize (alignment dopts) = Done usize) →
  (alignment dopts = 0 → a = 0 ∧ 0 ≤ ind < SC_NSIZES ∧ usize = sz_index2size_compute ind ∧ size' ≤ usize) →
  request_serves T size a r.
Proof.
  unfold imalloc_no_sample. destruct (arena_get_from_ind _ _ _) as [arena|]; [|done].
  intros [= <-] Hc Hle Hs' Hv Hne Heq. destruct (Z.eqb_spec (alignment dopts) 0) as [E|E]; cbn [negb].
  - destruct (Heq E) as (? & ? & Eu & ?). rewrite Eu in *. cbn. lia.
  - destruct (Hne E) as [Hd Hidem]. pose proof (class_range _ Hc).
    split; [done|]. split; [done|]. split; [|done]. split; [done|]. split; [done|]. split; [lia|done].
Qed.

(** The profiler's alignment is a multiple of the requested one. *)
Lemma sample_align_divides a : valid_alignment a → a = 0 ∨ (a | prof_sample_align cfg a).
Proof.
  intros [->|(k & Hk & ->)]; [by left|]. right. unfold prof_sample_align.
  destruct (opt_cache_oblivious cfg); cbn [andb]; [|done]. destruct (Z.ltb_spec (2 ^ k) PAGE) as [Hlt|]; [|done].
  assert (k < 12) by (apply (Z.pow_lt_mono_r_iff 2); [lia|lia|exact Hlt]).
  change PAGE with (2 ^ 12). exists (2 ^ (12 - k)). rewrite <- Z.pow_add_r by lia. f_equal. lia.
Qed.

Lemma sample_align_valid a : valid_alignment a → valid_alignment (prof_sample_align cfg a).
Proof. intros Hv. unfold prof_sample_align. destruct (_ && _); [right; by exists 12|done]. Qed.

(** It is still small enough for a page run of the usable size. *)
Lemma sample_align_bound a :
  valid_alignment a → a ≤ SC_LARGE_MAXCLASS → prof_sample_align cfg a ≠ 0 →
  ∃ k, 0 ≤ k < 64 ∧ prof_sample_align cfg a = 2 ^ k ∧ 2 ^ k ≤ SC_LARGE_MAXCLASS.
Proof.
  intros Hv Ha Hne. destruct (sample_align_valid a Hv) as [|(k & Hk & E)]; [done|]. exists k. split; [done|]. split; [done|].
  rewrite <- E. unfold prof_sample_align. change PAGE with 4096. change SC_LARGE_MAXCLASS with 8070450532247928832 in *.
  destruct (_ && _); lia.
Qed.

Lemma sample_align_zero a : prof_sample_align cfg a = 0 → a = 0.
Proof.
  unfold prof_sample_align. destruct (opt_cache_oblivious cfg && (a <? PAGE)); [|done].
  change PAGE with 4096. lia.
Qed.

Lemma imalloc_request_serves sopts dopts t size usize ind :
  0 ≤ size → valid_alignment (alignment dopts) → alignment dopts ≤ SC_LARGE_MAXCLASS →
  serves T size usize ind (alignment dopts) →
  ∃ m, imalloc_request T cfg arena_get narenas_auto prof_alloc_prep sopts dopts t size usize ind = Done m ∧
    (∀ r, m = Some r → request_serves T size (alignment dopts) r) ∧ (m = None ↔ refused (arena_ind dopts) usize).
Proof.
  intros Hs Ha Hmax (Hc & Hle & H0 & Hsmall & Hidem). set (a := alignment dopts) in *.
  assert (∀ size', size ≤ size' ≤ usize → ∀ r,
    imalloc_no_sample arena_get narenas_auto sopts dopts t size' usize ind = Some r → request_serves T size a r) as Hplain.
  { intros size' Hs' r E. eapply no_sample_serves; [exact E|done|lia|lia|exact Ha|intros Hne; split; [by right|by apply Hidem]|]. intros E0.
    destruct (H0 E0) as [? ?]. split; [done|]. split; [done|]. split; [done|lia]. }
  unfold refused, imalloc_request. destruct (config_prof cfg && opt_prof cfg).
  2:{ eexists. split; [done|]. split; [intros r E; by apply (Hplain size)|]. rewrite no_sample_none. naive_solver. }
  destruct (Z.eqb_spec (prof_alloc_prep usize) 1) as [E1|E1].
  { eexists. split; [done|]. split; [intros r E; by apply (Hplain usize)|]. rewrite no_sample_none. rewrite E1. naive_solver lia. }
  destruct (Z.ltb_spec 1 (prof_alloc_prep usize)) as [Hpr|Hpr]; [|exists None; split; [done|]; split; [done|]; split; [left; split; [done|lia]|done]].
  unfold imalloc_sample. set (d := set_alignment _ _).
  assert (valid_alignment (alignment d)) as Hv by by apply sample_align_valid.
  assert (alignment d ≠ 0 → a = 0 ∨ (a | alignment d)) as Hal by (intros _; by apply sample_align_divides).
  assert (∀ u, is_class u → SC_LARGE_MINCLASS ≤ u → alignment d ≠ 0 → (a = 0 ∨ (a | alignment d)) ∧ sz_sa2u T u (alignment d) = Done u) as Hbig.
  { intros u Hcu Hu Hne. split; [by apply Hal|]. destruct (sample_align_bound a Ha Hmax Hne) as (k & Hk & Ek & Hm).
    change (alignment d) with (prof_sample_align cfg a). rewrite Ek. by apply sa2u_large_class. }
  assert (∀ u' us' i, imalloc_no_sample arena_get narenas_auto sopts d t u' us' i = None ↔
    (true = true ∧ prof_alloc_prep usize ≤ 0) ∨ unavailable (arena_ind dopts)) as Hnone.
  { intros u' us' i. rewrite no_sample_none. cbn [d set_alignment arena_ind]. split; [by right|intros [[_ ?]|]; [lia|done]]. }
  assert (alignment d = 0 → a = 0) as Hz by (apply sample_align_zero).
  destruct (Z.leb_spec usize SC_SMALL_MAXCLASS) as [Hus|Hul].
  - rewrite (sz_size2index_ok T), (sz_s2u_ok T) by (change SC_LARGE_MINCLASS with 16384; lia). cbn [mbind outcome_bind].
    eexists. split; [done|]. split; [|apply Hnone]. intros r E.
    change SC_SMALL_MAXCLASS with 14336 in Hus.
    assert (sz_s2u_compute SC_LARGE_MINCLASS = 16384) as Eu by (vm_compute; reflexivity).
    assert (sz_size2index_compute SC_LARGE_MINCLASS = 36) as Es by (vm_compute; reflexivity).
    assert (sz_index2size_compute 36 = 16384) as Ei by (vm_compute; reflexivity). rewrite Es, Eu in E.
    assert (is_class 16384) as Hc' by (exists 36; split; [change SC_NSIZES with 232; lia|done]).
    eapply no_sample_serves; [exact E|exact Hc'| | |exact Hv|by apply Hbig|]; try lia.
    intros E0. split; [by apply Hz|]. split; [change SC_NSIZES with 232; lia|]. split; [done|lia].
  - eexists. split; [done|]. split; [|apply Hnone]. intros r E.
    assert (SC_LARGE_MINCLASS ≤ usize) as Hul'.
    { destruct Hc as (i & Hi & ->). change SC_LARGE_MINCLASS with 16384. change SC_SMALL_MAXCLASS with 14336 in Hul. revert Hul.
      apply (all_below (λ i, 14336 < sz_index2size_compute i → 16384 ≤ sz_index2size_compute i) SC_NSIZES i); [vm_compute; reflexivity|done]. }
    eapply no_sample_serves; [exact E|done|lia|lia|exact Hv|by apply Hbig|].
    intros E0. specialize (Hz E0). destruct (H0 Hz) as [? ?]. split; [done|]. split; [done|]. split; [done|lia].
Qed.

(** The result of a call, by what was asked: the tests of [imalloc] in their order.  [reentrant]: the call is made on behalf
    of the allocator itself, and goes to arena 0. *)
Inductive outcome_of (min : Z) (dopts : dynamic_opts) (reentrant : bool) (size : Z) : bool → effects → Prop :=
| out_overflow e : code e = ENOMEM → requests e = [] → outcome_of min dopts reentrant size true e
| out_invalid e :
    alignment dopts < min ∨ ¬ valid_alignment (alignment dopts) →
    code e = EINVAL → requests e = [] → outcome_of min dopts reentrant size false e
| out_too_large e :
    min ≤ alignment dopts → valid_alignment (alignment dopts) → too_large size (alignment dopts) →
    code e = ENOMEM → requests e = [] → outcome_of min dopts reentrant size false e
| out_refused e usize ind :
    min ≤ alignment dopts → valid_alignment (alignment dopts) → ¬ too_large size (alignment dopts) →
    serves T size usize ind (alignment dopts) → refused (if reentrant then 0 else arena_ind dopts) usize →
    code e = ENOMEM → requests e = [] → outcome_of min dopts reentrant size false e
| out_asked e usize ind r :
    min ≤ alignment dopts → valid_alignment (alignment dopts) → ¬ too_large size (alignment dopts) →
    serves T size usize ind (alignment dopts) → ¬ refused (if reentrant then 0 else arena_ind dopts) usize →
    requests e = [r] → request_serves T size (alignment dopts) r →
    (if decide (heap r = 0) then code e = ENOMEM else code e = 0 ∧ result e = Some (heap r)) →
    outcome_of min dopts reentrant size false e.

Definition nulls_on_error (sopts : static_opts) (e : effects) : Prop :=
  code e ≠ 0 → result e = (if null_out_result_on_error sopts then Some 0 else None) ∧
    errno e = (if set_errno_on_error sopts then Some (code e) else None).

Lemma fail_oom_ok sopts made :
  opt_xmalloc cfg = false →
  ∃ e, fail_oom cfg sopts made = Done e ∧ code e = ENOMEM ∧ requests e = made ∧ nulls_on_error sopts e.
Proof. intros Hx. unfold fail_oom. rewrite Hx, andb_false_r. eexists. split; [done|]. by repeat split. Qed.

Lemma imalloc_body_ok sopts dopts t :
  opt_xmalloc cfg = false →
  0 ≤ alignment dopts < 2 ^ 64 →
  let '(overflow, size) := compute_size_with_overflow (may_overflow sopts) dopts in
  0 ≤ size < 2 ^ 64 → (alignment dopts ≠ 0 → bump_empty_aligned_alloc sopts = true ∨ 0 < size) →
  ∃ e, imalloc_body T cfg heap arena_get narenas_auto prof_alloc_prep sopts dopts t = Done e ∧
    outcome_of (min_alignment sopts) dopts (slow sopts && (0 <? tsd_reentrancy_level t)) size overflow e ∧ nulls_on_error sopts e.
Proof.
  intros Hx Ha. unfold imalloc_body. destruct (compute_size_with_overflow _ dopts) as [overflow size].
  intros Hs Hpos. set (a := alignment dopts) in *. set (re := slow sopts && _). destruct overflow.
  { destruct (fail_oom_ok sopts [] Hx) as (e & E & Hc & Hr & Hn). exists e. split; [done|]. split; [|done]. by apply out_overflow. }
  pose proof (alignment_test a Ha) as Htest. destruct (Z.ltb_spec a (min_alignment sopts)) as [Hmin|Hmin]; cbn [orb].
  { unfold fail_alignment. rewrite Hx, andb_false_r. eexists. split; [done|]. split; [|by repeat split].
    apply out_invalid; try done. by left. }
  destruct (Z.land a (u64 (a - 1)) =? 0); cbn [negb].
  2:{ unfold fail_alignment. rewrite Hx, andb_false_r. eexists. split; [done|]. split; [|by repeat split].
      apply out_invalid; try done. right. intros Hv. by apply Htest in Hv. }
  assert (valid_alignment a) as Hv by (by apply Htest).
  destruct (aligned_usize_get_ok T size a (bump_empty_aligned_alloc sopts) Hs Hv Hpos) as (us & -> & Hus).
  cbn [mbind outcome_bind]. destruct us as [[usize ind]|].
  2:{ destruct (fail_oom_ok sopts [] Hx) as (e & E & Hc & Hr & Hn). exists e. split; [done|]. split; [|done]. by apply out_too_large. }
  destruct Hus as [Hfit Hserves]. set (d := set_core _ _ _).
  destruct (imalloc_request_serves sopts d t size usize ind ltac:(lia) Hv) as (m & -> & Hm & Hnone);
    [unfold too_large in Hfit; cbn [d set_core alignment]; fold a; lia|done|].
  change (arena_ind d) with (if re then 0 else arena_ind dopts) in Hnone.
  cbn [mbind outcome_bind]. destruct m as [r|].
  2:{ destruct (fail_oom_ok sopts [] Hx) as (e & E & Hc & Hr & Hn). exists e. split; [done|]. split; [|done].
      apply (out_refused _ _ _ _ _ usize ind); try done. by apply Hnone. }
  assert (¬ refused (if re then 0 else arena_ind dopts) usize) as Hno by (intros Hre; by apply Hnone in Hre).
  cbn [perform from_option option_list]. destruct (Z.eqb_spec (heap r) 0) as [E0|E0].
  - destruct (fail_oom_ok sopts [r] Hx) as (e & E & Hc & Hr & Hn). exists e. split; [done|]. split; [|done].
    apply (out_asked _ _ _ _ _ usize ind r); try done; [by apply Hm|]. by rewrite decide_True.
  - eexists. split; [done|]. split; [|by intros ?].
    apply (out_asked _ _ _ _ _ usize ind r); try done; [by apply Hm|]. by rewrite decide_False.
Qed.
End requests.

Lemma imalloc_ok T cfg heap arena_get narenas_auto prof_alloc_prep sopts dopts t overflow size :
  SzReady T → opt_xmalloc cfg = false → 0 ≤ alignment dopts < 2 ^ 64 →
  compute_size_with_overflow (may_overflow sopts) dopts = (overflow, size) → 0 ≤ size < 2 ^ 64 →
  (alignment dopts ≠ 0 → bump_empty_aligned_alloc sopts = true ∨ 0 < size) →
  ∃ e, imalloc T cfg heap arena_get narenas_auto prof_alloc_prep true sopts dopts t = Done e ∧
    outcome_of T cfg heap arena_get narenas_auto prof_alloc_prep (min_alignment sopts) dopts (negb (tsd_fast t) && (0 <? tsd_reentrancy_level t)) size overflow e ∧
    nulls_on_error sopts e.
Proof.
  intros HT Hx Ha E Hs Hpos. unfold imalloc. destruct (tsd_fast t); cbn [imalloc_init_check mbind outcome_bind].
  - pose proof (imalloc_body_ok T cfg heap arena_get narenas_auto prof_alloc_prep (set_slow false sopts) dopts t Hx Ha) as H.
    cbn [set_slow may_overflow] in H. rewrite E in H. by apply H.
  - pose proof (imalloc_body_ok T cfg heap arena_get narenas_auto prof_alloc_prep (set_slow true sopts) dopts t Hx Ha) as H.
    cbn [set_slow may_overflow] in H. rewrite E in H. by apply H.
Qed.

(** C12: the outcome of [imalloc] on an initialised allocator, in the order of its tests, when errors are reported and not
    fatal ([opt_xmalloc] is off) and an aligned request is not of zero bytes, or is bumped to one.  A product that overflows is
    [ENOMEM] with no request; otherwise an alignment below the minimum or not a power of two is [EINVAL] with no
    request; otherwise a size or an alignment above the largest class is [ENOMEM] with no request; otherwise, if
    the manual arena cannot be had or the profiler has no record for the sample, [ENOMEM] with no
    request; otherwise exactly one request is made, for a size class that holds the size, at a multiple of
    the alignment and as [ipallocztm] expects it, and the heap's reply decides: [ENOMEM] for null, and success with that pointer otherwise.
    On an error the result is nulled and [errno] set as the options say. *)
Theorem imalloc_outcome T cfg heap arena_get narenas_auto prof_alloc_prep sopts dopts t overflow size :
  SzReady T → opt_xmalloc cfg = false → 0 ≤ alignment dopts < 2 ^ 64 →
  compute_size_with_overflow (may_overflow sopts) dopts = (overflow, size) → 0 ≤ size < 2 ^ 64 →
  (alignment dopts ≠ 0 → bump_empty_aligned_alloc sopts = true ∨ 0 < size) →
  ∃ e, imalloc T cfg heap arena_get narenas_auto prof_alloc_prep true sopts dopts t = Done e ∧
    outcome_of T cfg heap arena_get narenas_auto prof_alloc_prep (min_alignment sopts) dopts (negb (tsd_fast t) && (0 <? tsd_reentrancy_level t)) size overflow e ∧
    nulls_on_error sopts e.
Proof. apply imalloc_ok. Qed.

(** A heap that hands out the alignment itself, or 1 MiB. *)
Definition toy_heap (r : request) : Z :=
  match r with Ipalloct _ a _ _ _ => a | Iallocztm _ _ _ _ _ _ => 2 ^ 20 end.

Definition plain_options : options := mkOptions true false false false false false false true.

Lemma imalloc_outcome_witness :
  ∃ e, imalloc (booted true) plain_options toy_heap (λ _, true) 4 (λ _, 1) true static_opts_init
      (mkDopts 1 70000 4096 false TCACHE_IND_AUTOMATIC ARENA_IND_AUTOMATIC) (mkTsd true 0) = Done e ∧
    outcome_of (booted true) plain_options toy_heap (λ _, true) 4 (λ _, 1) 0
      (mkDopts 1 70000 4096 false TCACHE_IND_AUTOMATIC ARENA_IND_AUTOMATIC) false 70000 false e ∧ code e = 0.
Proof.
  destruct (imalloc_outcome (booted true) plain_options toy_heap (λ _, true) 4 (λ _, 1) static_opts_init
      (mkDopts 1 70000 4096 false TCACHE_IND_AUTOMATIC ARENA_IND_AUTOMATIC) (mkTsd true 0) false 70000 _ eq_refl
      ltac:(cbn; lia) eq_refl ltac:(lia) ltac:(intros; right; lia)) as (e & E & Ho & _).
  exists e. split; [exact E|]. split; [exact Ho|]. vm_compute in E. injection E as <-. reflexivity.
Defined.
