(* ===== verification/Hooks.v ===== *)
(** * The hooks in the allocator, [jemalloc/src/jemalloc.c]

    The parts SHAMBLES adds to jemalloc's entry points: page alignment of the
    allocations that reach the size threshold, the report of every call, and the
    initialisation of the plugin on the first report, which several threads may
    make at once. *)
From stdpp Require Import base list gmap numbers strings relations.
From S2P Require Import Prelude CLib Config Structures Migration BitUtil SizeClass Sz SzTheorems Imalloc ImallocTheorems.

(** ** Alignment *)

Definition SHAMBLES_ALIGNMENT_SHIFT : Z := 12.
Definition SHAMBLES_ALIGNMENT : Z := Z.shiftl 1 SHAMBLES_ALIGNMENT_SHIFT.

Definition SHAMBLES_REALIGN (align : Z) : Z :=
  if align =? 0 then SHAMBLES_ALIGNMENT
  else shl64 align (Z.max (SHAMBLES_ALIGNMENT_SHIFT - ctzl align) 0).

(** The threshold of the allocator, which it reads itself. *)
Definition init_sizeThresshold (getenv : environment) : Z :=
  match getenv "SHMBLES_SIZE_THRESHOLD"%string with
  | None => 0x10000
  | Some env => let t := strtoul_store env in if t =? 0 then 0x10000 else t
  end.

(** ** Entry points *)

Section entry_points.
Context (sizeThresshold : Z).
(** The allocation path with its options, and the thread that calls. *)
Context (imalloc : static_opts → dynamic_opts → outcome effects).
(** The fast path for small sizes, the reallocation of a block, and what the
    allocator does with [realloc(p, 0)]. *)
Context (imalloc_fastpath : Z → outcome Z).
Context (do_rallocx : Z → Z → Z) (do_realloc_nonnull_zero : Z → Z).

(** The pointer left in a variable that held [before]. *)
Definition stored (before : Z) (e : effects) : Z := default before (result e).

(** The alignment of an allocation that asks for none, when it is tracked. *)
Definition tracked_alignment (size : Z) : Z := if sizeThresshold <=? size then SHAMBLES_ALIGNMENT else 0.

Definition malloc_sopts : static_opts := mkSopts false false false true true 0 false.

Definition malloc_default (size : Z) : outcome Z :=
  let dopts := mkDopts 1 size (tracked_alignment size) false TCACHE_IND_AUTOMATIC ARENA_IND_AUTOMATIC in
  e ← imalloc malloc_sopts dopts; Done (stored 0 e).

(** Each entry point returns its result and the call it reports. *)
Definition je_malloc (size : Z) : outcome (Z * event) :=
  ptr ← (if sizeThresshold <=? size then malloc_default size else imalloc_fastpath size);
  Done (ptr, EvAlloc ALLOC_EVENT_ALLOC 0 ptr size).

Definition aligned_dopts (align size : Z) : dynamic_opts :=
  mkDopts 1 size (if sizeThresshold <=? size then SHAMBLES_REALIGN align else align) false
    TCACHE_IND_AUTOMATIC ARENA_IND_AUTOMATIC.

(** [memptr] is what [*memptr] holds before the call, which the report of a failed
    call reads. *)
Definition je_posix_memalign (memptr align size : Z) : outcome (Z * Z * event) :=
  e ← imalloc (mkSopts false true false false false 8 false) (aligned_dopts align size);
  let ptr := stored memptr e in
  Done (code e, ptr, EvAlloc ALLOC_EVENT_ALLOC 0 ptr size).

Definition je_aligned_alloc (align size : Z) : outcome (Z * event) :=
  e ← imalloc (mkSopts false true false true true 1 false) (aligned_dopts align size);
  let ret := stored 0 e in
  Done (ret, EvAlloc ALLOC_EVENT_ALLOC 0 ret size).

Definition je_calloc (num size : Z) : outcome (Z * event) :=
  let dopts := mkDopts num size (tracked_alignment size) true TCACHE_IND_AUTOMATIC ARENA_IND_AUTOMATIC in
  e ← imalloc (mkSopts true false false true true 0 false) dopts;
  let ret := stored 0 e in
  Done (ret, EvAlloc ALLOC_EVENT_ALLOC 0 ret size).

Definition je_realloc (ptr size : Z) : outcome (Z * event) :=
  ret ← (if negb (ptr =? 0) && negb (size =? 0) then Done (do_rallocx ptr size)
         else if negb (ptr =? 0) && (size =? 0) then Done (do_realloc_nonnull_zero ptr)
         else malloc_default size);
  Done (ret, EvAlloc ALLOC_EVENT_REALLOC ptr ret size).

(** The report [je_free] makes before the block goes away. *)
Definition je_free (ptr : Z) : option event :=
  if ptr =? 0 then None else Some (EvAlloc ALLOC_EVENT_FREE ptr 0 0).
End entry_points.

(** ** Reporting

    [logAlloc] as the steps of a thread: a load of [shambles_inited_n], an
    exchange, the call of the plugin's [shambles_init], a store. *)

Inductive pc :=
| Idle
| Loaded (e : event)            (* the load returned a value that is not 0 *)
| Reporting (e : event)         (* the load returned 0 *)
| Initialising                  (* the exchange returned 1 *)
| Storing.                      (* the plugin is set up *)

Record hooks := mkHooks {
  inited_n : Z;
  installed : bool;             (* [reportAllocFunc] is the plugin's *)
  inits : nat;                  (* calls of [shambles_init] so far *)
  reports : list event;
  threads : gmap nat pc         (* the threads inside [logAlloc] *)
}.

Definition hooks0 : hooks := mkHooks 1 false 0 [] ∅.

Definition thread (s : hooks) (t : nat) : pc := default Idle (threads s !! t).
Definition set_thread (t : nat) (p : pc) (s : hooks) : hooks :=
  mkHooks (inited_n s) (installed s) (inits s) (reports s) (<[t:=p]> (threads s)).

(** [shambles_init]: [plugin_loads] says whether the library named by
    [SHAMBLES_PLUGIN] opens and has an initialiser, which installs a callback. *)
Definition shambles_init (plugin_loads installed : bool) : bool := plugin_loads || installed.

(** The call of [reportAllocFunc], the plugin's callback or [nopReportAlloc]. *)
Definition reportAlloc (installed : bool) (e : event) (reports : list event) : list event :=
  reports ++ if installed then [e] else [].

(** A call that finds [malloc_init_state] short of [malloc_init_initialized]
    skips the load; it may happen at any time here. *)
Inductive hook_step (plugin_loads : bool) : hooks → hooks → Prop :=
| step_pass s t e :
    thread s t = Idle → inited_n s = 0 →
    hook_step plugin_loads s (set_thread t (Reporting e) s)
| step_report s t e :
    thread s t = Reporting e →
    hook_step plugin_loads s
      (mkHooks (inited_n s) (installed s) (inits s) (reportAlloc (installed s) e (reports s))
         (<[t:=Idle]> (threads s)))
| step_load s t e :
    thread s t = Idle → inited_n s ≠ 0 →
    hook_step plugin_loads s (set_thread t (Loaded e) s)
| step_load_unbooted s t e :
    thread s t = Idle →
    hook_step plugin_loads s (set_thread t (Loaded e) s)
| step_exchange s t e :
    thread s t = Loaded e →
    hook_step plugin_loads s
      (mkHooks 2 (installed s) (inits s) (reports s)
         (<[t:=if inited_n s =? 1 then Initialising else Idle]> (threads s)))
| step_init s t :
    thread s t = Initialising →
    hook_step plugin_loads s
      (mkHooks (inited_n s) (shambles_init plugin_loads (installed s)) (S (inits s)) (reports s)
         (<[t:=Storing]> (threads s)))
| step_store s t :
    thread s t = Storing →
    hook_step plugin_loads s
      (mkHooks 0 (installed s) (inits s) (reports s) (<[t:=Idle]> (threads s))).

(** ** One thread at a time *)

(** A whole call of [logAlloc] that is not interrupted; [booted] says that
    [malloc_init_state] is [malloc_init_initialized]. *)
Definition logAlloc (plugin_loads booted : bool) (e : event) (s : hooks) : hooks :=
  if negb booted || negb (inited_n s =? 0) then
    if inited_n s =? 1 then
      mkHooks 0 (shambles_init plugin_loads (installed s)) (S (inits s)) (reports s) (threads s)
    else mkHooks 2 (installed s) (inits s) (reports s) (threads s)
  else mkHooks (inited_n s) (installed s) (inits s) (reportAlloc (installed s) e (reports s)) (threads s).

Definition logAllocs (plugin_loads : bool) (es : list event) (s : hooks) : hooks :=
  foldl (λ s e, logAlloc plugin_loads true e s) s es.

(** ** Facts *)

(** The alignment of a tracked allocation.  For an alignment that is a power
    of two the realigned one is the larger of it and the page size; whatever the
    alignment (as long as the shift does not overflow), the realigned one is a
    multiple of both it and the page size. *)
Lemma realign_ok align :
  0 ≤ align → align * SHAMBLES_ALIGNMENT < 2 ^ 64 →
  (SHAMBLES_ALIGNMENT | SHAMBLES_REALIGN align) ∧ (align = 0 ∨ (align | SHAMBLES_REALIGN align)) ∧
  (∀ k, 0 ≤ k → align = 2 ^ k → SHAMBLES_REALIGN align = Z.max align SHAMBLES_ALIGNMENT).
Proof.
  intros Ha Hlt. unfold SHAMBLES_REALIGN, SHAMBLES_ALIGNMENT, SHAMBLES_ALIGNMENT_SHIFT in *.
  change (Z.shiftl 1 12) with 4096 in *.
  destruct (Z.eqb_spec align 0) as [->|Hne].
  { split; [by exists 1|]. split; [by left|]. intros k Hk E.
    pose proof (Z.pow_pos_nonneg 2 k). lia. }
  destruct (ctzl_spec align) as (q & E & Hc & Hq); [lia|]. set (m := 2 * q + 1) in *. assert (0 < m) as Hm by lia. set (c := ctzl align) in *.
  set (sh := Z.max (12 - c) 0).
  assert (2 ^ sh ≤ 4096) as Hsh by (change 4096 with (2 ^ 12); apply Z.pow_le_mono_r; lia).
  assert (0 < 2 ^ sh) by (apply Z.pow_pos_nonneg; lia).
  unfold shl64. rewrite Z.shiftl_mul_pow2 by lia. rewrite u64_small by (unfold is_u64; nia).
  split; [|split].
  - rewrite E. replace (m * 2 ^ c * 2 ^ sh) with (m * 2 ^ (c + sh)) by (rewrite Z.pow_add_r by lia; lia).
    apply Z.divide_mul_r. replace (c + sh) with (12 + (c + sh - 12)) by lia.
    rewrite Z.pow_add_r by lia. by apply Z.divide_factor_l.
  - right. apply Z.divide_factor_l.
  - intros k Hk Ek. assert (c = k) as Hck by (unfold c; rewrite Ek; by apply ctzl_pow2).
    rewrite Ek, <- Z.pow_add_r by lia. change 4096 with (2 ^ 12). unfold sh. rewrite Hck.
    destruct (Z.le_ge_cases k 12).
    + replace (k + Z.max (12 - k) 0) with 12 by lia.
      rewrite Z.max_r; [done|]. apply Z.pow_le_mono_r; lia.
    + replace (k + Z.max (12 - k) 0) with k by lia. rewrite Z.max_l; [done|]. apply Z.pow_le_mono_r; lia.
Qed.

(** The alignment of a tracked allocation.  For an alignment that is a power
    of two the realigned one is the larger of it and the page size; whatever the
    alignment (as long as the shift does not overflow), the realigned one is a
    multiple of both it and the page size. *)
Theorem realign_pages align :
  0 ≤ align → align * SHAMBLES_ALIGNMENT < 2 ^ 64 →
  (SHAMBLES_ALIGNMENT | SHAMBLES_REALIGN align) ∧ (align = 0 ∨ (align | SHAMBLES_REALIGN align)) ∧
  (∀ k, 0 ≤ k → align = 2 ^ k → SHAMBLES_REALIGN align = Z.max align SHAMBLES_ALIGNMENT).
Proof. apply realign_ok. Qed.

Lemma realign_pages_witness :
  (SHAMBLES_ALIGNMENT | SHAMBLES_REALIGN 24) ∧ SHAMBLES_REALIGN 64 = 4096 ∧ SHAMBLES_REALIGN (2 ^ 21) = 2 ^ 21.
Proof.
  split; [apply (realign_pages 24); [lia|reflexivity]|]. split.
  - apply (realign_pages 64 ltac:(lia) ltac:(reflexivity)) with (k := 6); [lia|reflexivity].
  - apply (realign_pages (2 ^ 21) ltac:(lia) ltac:(reflexivity)) with (k := 21); [lia|reflexivity].
Defined.

(** ** The initialisation protocol *)

Definition active (p : pc) : Prop := p = Initialising ∨ p = Storing.

Record hooks_inv (s : hooks) : Prop := {
  hi_range : inited_n s = 0 ∨ inited_n s = 1 ∨ inited_n s = 2;
  hi_first : inited_n s = 1 → inits s = 0%nat ∧ ∀ t, ¬ active (thread s t);
  hi_unique : ∀ t t', active (thread s t) → active (thread s t') → t = t';
  hi_active : ∀ t, active (thread s t) → inited_n s = 2;
  hi_before : ∀ t, thread s t = Initialising → inits s = 0%nat;
  hi_after : ∀ t, thread s t = Storing → inits s = 1%nat;
  hi_reporting : ∀ t e, thread s t = Reporting e → inits s = 1%nat;
  hi_once : (inits s ≤ 1)%nat;
  hi_none : inits s = 0%nat → installed s = false ∧ reports s = [] ∧ inited_n s ≠ 0
}.

Lemma thread_insert t t' p n b i r ths :
  thread (mkHooks n b i r (<[t:=p]> ths)) t' =
  if decide (t' = t) then p else thread (mkHooks n b i r ths) t'.
Proof.
  unfold thread. simpl. case_decide; subst; [by rewrite lookup_insert_eq|by rewrite lookup_insert_ne].
Qed.

(** A thread moves to [p], the other components change to values that keep the
    invariant. *)
Lemma hooks_inv_change s n b i r t p :
  hooks_inv s → (n = 0 ∨ n = 1 ∨ n = 2) →
  (n = 1 → i = 0%nat ∧ ¬ active p ∧ ∀ u, u ≠ t → ¬ active (thread s u)) →
  (active p → n = 2 ∧ ∀ u, u ≠ t → ¬ active (thread s u)) →
  (∀ u, u ≠ t → active (thread s u) → n = 2) →
  (p = Initialising → i = 0%nat) → (p = Storing → i = 1%nat) → (∀ e, p = Reporting e → i = 1%nat) →
  (∀ u, u ≠ t → thread s u = Initialising → i = 0%nat) → (inits s = 1%nat → i = 1%nat) →
  (i ≤ 1)%nat → (i = 0%nat → b = false ∧ r = [] ∧ n ≠ 0) →
  hooks_inv (mkHooks n b i r (<[t:=p]> (threads s))).
Proof.
  intros HI Hn H1 Ha Hu Hin Hst Hre Hi Hi1 Hle Hz.
  assert (∀ u, thread (mkHooks n b i r (<[t:=p]> (threads s))) u = if decide (u = t) then p else thread s u) as Hth
    by (intros u; by rewrite thread_insert).
  split; simpl; try done.
  - intros Hn1. destruct (H1 Hn1) as (? & ? & Hno). split; [done|]. intros u.
    rewrite Hth. case_decide; [done|by apply Hno].
  - intros u u'. rewrite !Hth. repeat case_decide; subst; try done.
    + intros Hp Hu'. by destruct (proj2 (Ha Hp) u').
    + intros Hu' Hp. by destruct (proj2 (Ha Hp) u).
    + apply (hi_unique _ HI).
  - intros u. rewrite Hth. case_decide; [by intros [? _]%Ha|by apply Hu].
  - intros u. rewrite Hth. case_decide; [done|by apply Hi].
  - intros u. rewrite Hth. case_decide; [done|]. intros Hu'. by apply Hi1, (hi_after _ HI u).
  - intros u e. rewrite Hth. case_decide; [apply Hre|]. intros Hu'. by apply Hi1, (hi_reporting _ HI u e).
Qed.

(** The same with only the thread's position and the reports changing. *)
Lemma hooks_inv_idle s r t p :
  hooks_inv s → ¬ active p → (∀ e, p = Reporting e → inits s = 1%nat) →
  (inits s = 0%nat → r = []) →
  hooks_inv (mkHooks (inited_n s) (installed s) (inits s) r (<[t:=p]> (threads s))).
Proof.
  intros HI Hp Hre Hr. apply hooks_inv_change; try apply HI; try done.
  - intros H1. destruct (hi_first _ HI H1). auto.
  - intros u _. apply (hi_active _ HI).
  - intros ->. destruct Hp. by left.
  - intros ->. destruct Hp. by right.
  - intros u _. apply (hi_before _ HI).
  - intros H0. destruct (hi_none _ HI H0) as (? & _ & ?). auto.
Qed.

Lemma not_active_other s t :
  hooks_inv s → active (thread s t) → ∀ u, u ≠ t → ¬ active (thread s u).
Proof. intros HI Ha u Hu Hau. apply Hu. by apply (hi_unique _ HI). Qed.

Lemma hooks_inv_step loads s s' : hooks_inv s → hook_step loads s s' → hooks_inv s'.
Proof.
  intros HI Hs. destruct Hs as [s t e Ht Hn|s t e Ht|s t e Ht Hn|s t e Ht|s t e Ht|s t Ht|s t Ht].
  - apply hooks_inv_idle; try done; [by intros [|]| |apply HI].
    intros _ _. pose proof (hi_once _ HI). destruct (inits s) as [|[|]] eqn:E; [|done|lia].
    by destruct (hi_none _ HI E) as (_ & _ & ?).
  - pose proof (hi_reporting _ HI t e Ht). apply hooks_inv_idle; try done; [by intros [|]|]. congruence.
  - apply hooks_inv_idle; try done; [by intros [|]|apply HI].
  - apply hooks_inv_idle; try done; [by intros [|]|apply HI].
  - destruct (Z.eqb_spec (inited_n s) 1) as [Hn|Hn].
    + destruct (hi_first _ HI Hn) as [Hi Hno].
      apply hooks_inv_change; try done; try apply HI; auto.
      intros Hi0. destruct (hi_none _ HI Hi0) as (? & ? & _). auto.
    + apply hooks_inv_change; try done; try apply HI; auto; try (intros [|]; done).
      * intros u _. apply (hi_before _ HI).
      * intros Hi0. destruct (hi_none _ HI Hi0) as (? & ? & _). auto.
  - assert (active (thread s t)) as Ha by by left. pose proof (not_active_other s t HI Ha) as Hno.
    pose proof (hi_active _ HI t Ha) as Hn. pose proof (hi_before _ HI t Ht) as Hi. rewrite Hn, Hi.
    apply hooks_inv_change; try done; auto.
    intros u Hu Hin. destruct (Hno u Hu). by left.
  - assert (active (thread s t)) as Ha by by right. pose proof (not_active_other s t HI Ha) as Hno.
    pose proof (hi_after _ HI t Ht) as Hi. rewrite Hi.
    apply hooks_inv_change; try done; auto; try (intros [|]; done).
    + intros u Hu Hau. by destruct (Hno u Hu).
    + intros u Hu Hin. destruct (Hno u Hu). by left.
Qed.

Lemma hooks_inv_hooks0 : hooks_inv hooks0.
Proof. split; simpl; try done; auto; intros *; cbv [thread]; simpl; try (intros [|]; done). by split; [|intros ? [|]]. Qed.

Lemma hooks_inv_reach loads s : rtc (hook_step loads) hooks0 s → hooks_inv s.
Proof.
  intros Hr. pattern s. eapply rtc_ind_r; [exact hooks_inv_hooks0| |exact Hr].
  intros y z _ Hs HI. by eapply hooks_inv_step.
Qed.

(** C9: the initialisation of the plugin when threads interleave their calls at
    will.  It runs at most once, two threads are never inside it together, it is
    not entered again after it is done, and what the plugin is told, it is told
    after its initialisation returned; a plugin that did not load is told nothing. *)
Theorem hooks_init_once plugin_loads s :
  rtc (hook_step plugin_loads) hooks0 s →
  (inits s ≤ 1)%nat ∧ (∀ t t', active (thread s t) → active (thread s t') → t = t') ∧
  (∀ t, thread s t = Initialising → inits s = 0%nat) ∧
  (reports s ≠ [] → plugin_loads = true ∧ inits s = 1%nat).
Proof.
  intros Hr. pose proof (hooks_inv_reach _ _ Hr) as HI.
  split; [apply HI|]. split; [apply HI|]. split; [apply HI|]. intros Hne.
  assert (installed s = true → plugin_loads = true) as Hin.
  { clear Hne HI. pattern s. eapply rtc_ind_r; [|clear Hr|exact Hr]; [done|].
    intros y z _ Hs IH. destruct Hs; simpl; try done. unfold shambles_init. destruct plugin_loads; auto. }
  assert (reports s ≠ [] → installed s = true) as Hrep.
  { clear Hne HI Hin. pattern s. eapply rtc_ind_r; [|clear Hr|exact Hr]; [done|].
    intros y z _ Hs IH. destruct Hs; simpl; try done.
    - unfold reportAlloc. destruct (installed s0); [done|]. by rewrite app_nil_r.
    - intros Hne. unfold shambles_init. rewrite IH by done. by destruct plugin_loads. }
  split; [auto|]. pose proof (hi_once _ HI). destruct (inits s) as [|[|]] eqn:E; [|done|lia].
  by destruct (hi_none _ HI E) as (_ & ? & _).
Qed.

(** Runs of one thread. *)
Lemma hook_steps_call loads s (t : nat) (e : event) :
  (∀ u, thread s u = Idle) →
  ∃ s', rtc (hook_step loads) s s' ∧ (∀ u, thread s' u = Idle) ∧
    let r := logAlloc loads true e s in
    inited_n s' = inited_n r ∧ installed s' = installed r ∧ inits s' = inits r ∧ reports s' = reports r.
Proof.
  intros Hid. unfold logAlloc. simpl negb. rewrite orb_false_l.
  assert (∀ p q n b i r, thread (mkHooks n b i r (<[t:=q]> (<[t:=p]> (threads s)))) t = q) as Ht
    by (intros; rewrite thread_insert; by case_decide).
  destruct (Z.eqb_spec (inited_n s) 0) as [Hn|Hn]; simpl negb; cbn iota.
  - eexists. split; [|split].
    + eapply rtc_l; [by apply (step_pass _ s t e)|]. apply rtc_once, (step_report _ _ t e).
      unfold set_thread. rewrite thread_insert. by case_decide.
    + intros u. simpl. rewrite !thread_insert. repeat case_decide; try done. apply Hid.
    + done.
  - assert (hook_step loads s (set_thread t (Loaded e) s)) as H1 by (by apply step_load).
    eassert (hook_step loads (set_thread t (Loaded e) s) _) as H2.
    { apply (step_exchange _ _ t e). unfold set_thread. rewrite thread_insert. by case_decide. }
    simpl in H2. destruct (Z.eqb_spec (inited_n s) 1) as [H|H].
    + eexists. split; [|split].
      * eapply rtc_l; [exact H1|]. eapply rtc_l; [exact H2|].
        eapply rtc_l; [apply (step_init _ _ t), Ht|]. apply rtc_once, (step_store _ _ t).
        rewrite thread_insert. by case_decide.
      * intros u. simpl. rewrite !thread_insert. repeat case_decide; try done. apply Hid.
      * done.
    + eexists. split; [|split].
      * eapply rtc_l; [exact H1|]. by apply rtc_once.
      * intros u. simpl. rewrite !thread_insert. repeat case_decide; try done. apply Hid.
      * done.
Qed.

Lemma logAllocs_ready loads es s :
  inited_n s = 0 →
  logAllocs loads es s = mkHooks 0 (installed s) (inits s)
    (reports s ++ if installed s then es else []) (threads s).
Proof.
  revert s. induction es as [|e es IH]; intros [n b i r ths] Hn; simpl in Hn; subst n.
  - cbn. destruct b; by rewrite app_nil_r.
  - change (logAllocs loads (e :: es) ?s) with (logAllocs loads es (logAlloc loads true e s)).
    unfold logAlloc. simpl. rewrite IH by done. unfold reportAlloc. simpl.
    destruct b; [|by rewrite !app_nil_r]. by rewrite <- app_assoc.
Qed.

Lemma hook_steps_calls loads (t : nat) es s :
  (∀ u, thread s u = Idle) →
  ∃ s', rtc (hook_step loads) s s' ∧ (∀ u, thread s' u = Idle) ∧
    let r := logAllocs loads es s in
    inited_n s' = inited_n r ∧ installed s' = installed r ∧ inits s' = inits r ∧ reports s' = reports r.
Proof.
  assert (∀ (s s' : hooks) e, inited_n s = inited_n s' ∧ installed s = installed s' ∧ inits s = inits s' ∧ reports s = reports s' →
    let r := logAlloc loads true e s in let r' := logAlloc loads true e s' in
    inited_n r = inited_n r' ∧ installed r = installed r' ∧ inits r = inits r' ∧ reports r = reports r') as Hsame.
  { intros [n b i r p] [n' b' i' r' p'] e (H1 & H2 & H3 & H4). simpl in *. subst.
    unfold logAlloc. simpl. repeat case_match; done. }
  assert (∀ es (s s' : hooks), inited_n s = inited_n s' ∧ installed s = installed s' ∧ inits s = inits s' ∧ reports s = reports s' →
    let r := logAllocs loads es s in let r' := logAllocs loads es s' in
    inited_n r = inited_n r' ∧ installed r = installed r' ∧ inits r = inits r' ∧ reports r = reports r') as Hsames.
  { clear es s. intros es. induction es as [|e es IH]; intros s s' H; [done|]. apply (IH (logAlloc _ _ _ _) (logAlloc _ _ _ _)).
    by apply Hsame. }
  revert s. induction es as [|e es IH]; intros s Hid; [by exists s|].
  destruct (hook_steps_call loads s t e Hid) as (s1 & Hr1 & Hid1 & E1).
  destruct (IH s1 Hid1) as (s2 & Hr2 & Hid2 & E2). exists s2.
  split; [by etrans|]. split; [done|].
  pose proof (Hsames es _ _ E1) as E3. simpl in *.
  change (logAllocs loads (e :: es) s) with (logAllocs loads es (logAlloc loads true e s)).
  destruct E2 as (-> & -> & -> & ->), E3 as (-> & -> & -> & ->). done.
Qed.

(** A program with one thread.  Its calls, one after the other, are a run of
    the steps, and after any of them the plugin has been told of exactly the calls
    after the first, in order; the first one, which initialises it, is not
    reported. *)
Theorem hooks_sequential (t : nat) e es :
  ∃ s, rtc (hook_step true) hooks0 s ∧ (∀ u, thread s u = Idle) ∧
    inits s = 1%nat ∧ inited_n s = 0 ∧ reports s = es ∧
    reports s = reports (logAllocs true (e :: es) hooks0).
Proof.
  destruct (hook_steps_calls true t (e :: es) hooks0) as (s & Hr & Hid & E1 & E2 & E3 & E4); [done|].
  exists s. change (logAllocs true (e :: es) hooks0) with (logAllocs true es (mkHooks 0 true 1 [] ∅)) in *.
  rewrite logAllocs_ready in * by done. simpl in *. done.
Qed.

(** The protocol is stuck when the counter says 2 and nobody is initialising. *)
Definition stuck (s : hooks) : Prop :=
  inited_n s = 2 ∧ ∀ t, thread s t = Idle ∨ ∃ e, thread s t = Loaded e.

Lemma stuck_step loads s s' : stuck s → hook_step loads s s' → stuck s' ∧ reports s' = reports s.
Proof.
  intros [Hn Hth] Hs. destruct Hs as [s t e Ht H|s t e Ht|s t e Ht H|s t e Ht|s t e Ht|s t Ht|s t Ht];
    try (by destruct (Hth t) as [|[]]; congruence); try congruence.
  1,2: split; [split; [done|]|done]; intros u; unfold set_thread; rewrite thread_insert; case_decide; eauto.
  rewrite Hn. split; [split; [done|]|done]. intros u. simpl. rewrite thread_insert. case_decide; eauto.
Qed.

(** C10: the race of two first calls.  There is a run in which one thread loads
    the counter before and exchanges it after the initialisation of the other: the
    plugin is loaded and initialised, no call is under way, and from there on no
    call of any thread is ever reported to it. *)
Theorem hooks_race_silences (e e' : event) :
  ∃ s, rtc (hook_step true) hooks0 s ∧ inits s = 1%nat ∧ installed s = true ∧
    (∀ t, thread s t = Idle) ∧
    ∀ s', rtc (hook_step true) s s' → reports s' = [].
Proof.
  assert (∀ n b i r ths t p, thread (mkHooks n b i r (<[t:=p]> ths)) t = p) as Ht
    by (intros; rewrite thread_insert; by case_decide).
  eexists. split; [|split; [|split; [|split]]].
  - eapply rtc_l; [by apply (step_load _ hooks0 0%nat e)|].
    eapply rtc_l; [by apply (step_load _ _ 1%nat e')|].
    eapply rtc_l; [by apply (step_exchange _ _ 0%nat e)|].
    eapply rtc_l; [by apply (step_init _ _ 0%nat)|].
    eapply rtc_l; [by apply (step_store _ _ 0%nat)|].
    apply rtc_once. by apply (step_exchange _ _ 1%nat e').
  - done.
  - done.
  - intros t. simpl. rewrite !thread_insert. repeat case_decide; try done.
  - intros s' Hr. simpl in Hr. match type of Hr with rtc _ ?x _ => set (s0 := x) in Hr end.
    assert (stuck s0 ∧ reports s0 = []) as [Hs0 H0].
    { split; [|done]. split; [done|]. intros t. left. subst s0. simpl. rewrite !thread_insert.
      by repeat case_decide. }
    cut (stuck s' ∧ reports s' = []); [by intros []|].
    pattern s'. eapply rtc_ind_r; [done| |exact Hr]. intros y z _ Hs [Hy E].
    destruct (stuck_step _ _ _ Hy Hs) as [? ->]. done.
Qed.

Lemma hooks_init_once_witness :
  let e := EvAlloc ALLOC_EVENT_ALLOC 0 4096 65536 in
  ∃ s, rtc (hook_step true) hooks0 s ∧ reports s = [e] ∧ inits s = 1%nat.
Proof.
  intros e. assert (∀ n b i r ths t p, thread (mkHooks n b i r (<[t:=p]> ths)) t = p) as Ht
    by (intros; rewrite thread_insert; by case_decide).
  eassert (rtc (hook_step true) hooks0 _) as Hr.
  { eapply rtc_l; [by apply (step_load _ hooks0 0%nat e)|].
    eapply rtc_l; [by apply (step_exchange _ _ 0%nat e), Ht|].
    eapply rtc_l; [by apply (step_init _ _ 0%nat), Ht|].
    eapply rtc_l; [by apply (step_store _ _ 0%nat), Ht|].
    eapply rtc_l; [by apply (step_pass _ _ 0%nat e); [apply Ht|]|].
    apply rtc_once. by apply (step_report _ _ 0%nat e), Ht. }
  eexists. split; [exact Hr|]. split; [reflexivity|].
  apply (hooks_init_once true _ Hr). discriminate.
Defined.
