(* ===== verification/Tracked.v ===== *)
(** * The entry points and the allocation path together

    What a program gets from [malloc], [calloc], [aligned_alloc],
    [posix_memalign] and [realloc] for sizes that reach the threshold: the
    allocator's own path ([Imalloc]) called the way [Hooks] calls it. *)
From stdpp Require Import base list numbers.
From S2P Require Import Prelude Migration BitUtil SizeClass Sz SzTheorems Imalloc ImallocTheorems Hooks.

Section tracked.
Context (T : sz_tables) `{SzReady T} (cfg : options) (Hx : opt_xmalloc cfg = false).
Context (heap : request → Z) (arena_get : Z → bool) (narenas_auto : Z) (prof_alloc_prep : Z → Z) (t : tsd).

Definition imalloc_here : static_opts → dynamic_opts → outcome effects :=
  λ sopts dopts, imalloc T cfg heap arena_get narenas_auto prof_alloc_prep true sopts dopts t.

(** The arenas honour the alignment they are asked for, in the requests they admit: [ipallocztm] asserts, and [arena_palloc]
    notes, that the usable size is a result of [sz_sa2u] for the alignment. *)
Definition heap_aligns : Prop := ∀ usize a z tc ar, palloc_pre T usize a → (a | heap (Ipalloct usize a z tc ar)).

Lemma imalloc_aligned sopts dopts overflow size :
  heap_aligns → 0 < alignment dopts < 2 ^ 64 → null_out_result_on_error sopts = true →
  compute_size_with_overflow (may_overflow sopts) dopts = (overflow, size) → 0 ≤ size < 2 ^ 64 →
  bump_empty_aligned_alloc sopts = true ∨ 0 < size ∨ overflow = true →
  ∃ e, imalloc_here sopts dopts = Done e ∧ (alignment dopts | stored 0 e).
Proof.
  intros Hheap Ha Hnull E Hs Hpos.
  assert (∃ e, imalloc_here sopts dopts = Done e ∧     outcome_of T cfg heap arena_get narenas_auto prof_alloc_prep (min_alignment sopts) dopts
      (negb (tsd_fast t) && (0 <? tsd_reentrancy_level t)) size overflow e ∧
    nulls_on_error sopts e) as (e & Ee & Ho & Hn).
  { destruct overflow.
    - unfold imalloc_here, imalloc, imalloc_body.
      destruct (tsd_fast t); cbn [imalloc_init_check mbind outcome_bind set_slow may_overflow]; rewrite E;
        (edestruct (fail_oom_ok cfg) as (e & -> & Hc & Hr & Hn); [done|]; exists e; split; [done|]; split; [|exact Hn];
         by apply out_overflow).
    - apply imalloc_ok; try done; [lia|]. intros _. by destruct Hpos as [|[|]]; [left|right|]. }
  exists e. split; [exact Ee|]. unfold stored.
  assert (code e ≠ 0 → (alignment dopts | default 0 (result e))) as Hfail.
  { intros Hc. destruct (Hn Hc) as [-> _]. rewrite Hnull. apply Z.divide_0_r. }
  destruct Ho as [? Hc|? _ Hc|? _ _ _ Hc|? ? ? _ _ _ _ _ Hc|? usize ind r _ _ _ _ _ _ Hr Hc];
    try (apply Hfail; by rewrite Hc).
  destruct (decide (heap r = 0)); [apply Hfail; by rewrite Hc|]. destruct Hc as [_ ->]. cbn [default from_option].
  destruct r as [us al z tc ar|]; [|destruct Hr; lia]. destruct Hr as (_ & _ & Hpre & [|Hd]); [lia|].
  etrans; [exact Hd|]. by apply Hheap.
Qed.

Lemma calloc_sizes num size z :
  0 ≤ num < 2 ^ 64 → 0 < size < 2 ^ 64 →
  ∃ overflow s, compute_size_with_overflow true (mkDopts num size z true TCACHE_IND_AUTOMATIC ARENA_IND_AUTOMATIC) = (overflow, s) ∧
    0 ≤ s < 2 ^ 64 ∧ (num = 0 ∨ 0 < s ∨ overflow = true).
Proof.
  intros Hn Hs.
  pose proof (compute_size_ok (mkDopts num size z true TCACHE_IND_AUTOMATIC ARENA_IND_AUTOMATIC) Hn ltac:(cbn; lia)) as H0.
  destruct (compute_size_with_overflow _ _) as [o s]. destruct H0 as [-> ->]. cbn [num_items item_size] in *.
  eexists _, _. split; [done|]. split; [apply u64_range|].
  destruct (Z.le_gt_cases (2 ^ 64) (num * size)) as [Hbig|Hsm].
  - right. right. by apply bool_decide_eq_true.
  - rewrite u64_small by (unfold is_u64; nia). destruct (decide (num = 0)); [by left|]. right. left. nia.
Qed.

Section calls.
Context (Hheap : heap_aligns) (threshold : Z) (Hthr : 0 < threshold).

Lemma malloc_default_aligned size :
  threshold ≤ size < 2 ^ 64 →
  ∃ p, malloc_default threshold imalloc_here size = Done p ∧ (SHAMBLES_ALIGNMENT | p).
Proof.
  intros Hs. unfold malloc_default, tracked_alignment. destruct (Z.leb_spec threshold size); [|lia].
  edestruct (imalloc_aligned malloc_sopts) as (e & -> & Hd); [done| |done|done| | |]; cbn; try lia.
  { by vm_compute. }
  by exists (stored 0 e).
Qed.

Lemma realign_range align :
  0 ≤ align → align * SHAMBLES_ALIGNMENT < 2 ^ 64 → 0 < SHAMBLES_REALIGN align < 2 ^ 64.
Proof.
  intros Ha Hlt. change SHAMBLES_ALIGNMENT with 4096 in *. unfold SHAMBLES_REALIGN.
  destruct (Z.eqb_spec align 0) as [->|]; [by vm_compute|].
  set (sh := Z.max (SHAMBLES_ALIGNMENT_SHIFT - ctzl align) 0).
  assert (0 ≤ sh ≤ 12) as Hsh.
  { unfold sh. change SHAMBLES_ALIGNMENT_SHIFT with 12. pose proof (ctzl_nonneg align). lia. }
  assert (1 ≤ 2 ^ sh ≤ 4096).
  { change 1 with (2 ^ 0) at 1. change 4096 with (2 ^ 12). split; apply Z.pow_le_mono_r; lia. }
  rewrite shl64_small by nia. nia.
Qed.

Lemma aligned_alloc_aligned align size :
  threshold ≤ size < 2 ^ 64 → 0 ≤ align → align * SHAMBLES_ALIGNMENT < 2 ^ 64 →
  ∃ p, je_aligned_alloc threshold imalloc_here align size = Done (p, EvAlloc ALLOC_EVENT_ALLOC 0 p size) ∧
    (SHAMBLES_ALIGNMENT | p) ∧ (align = 0 ∨ (align | p)).
Proof.
  intros Hs Ha Hlt. pose proof (realign_range align Ha Hlt). destruct (realign_ok align Ha Hlt) as (H4 & Hal & _).
  unfold je_aligned_alloc, aligned_dopts. destruct (Z.leb_spec threshold size); [|lia].
  edestruct (imalloc_aligned (mkSopts false true false true true 1 false)) as (e & -> & Hd);
    [done| |done|done| | |]; cbn [alignment item_size] in *; [lia|lia|by left|].
  cbn [mbind outcome_bind]. exists (stored 0 e). split; [done|]. split; [by etrans|].
  destruct Hal as [|Hal]; [by left|right; by etrans].
Qed.

Lemma calloc_aligned num size :
  threshold ≤ size < 2 ^ 64 → 0 < num < 2 ^ 64 →
  ∃ p, je_calloc threshold imalloc_here num size = Done (p, EvAlloc ALLOC_EVENT_ALLOC 0 p size) ∧
    (SHAMBLES_ALIGNMENT | p).
Proof.
  intros Hs Hn. unfold je_calloc, tracked_alignment. destruct (Z.leb_spec threshold size); [|lia].
  destruct (calloc_sizes num size SHAMBLES_ALIGNMENT) as (o & s & E & Hs' & Hpos); [lia|lia|].
  edestruct (imalloc_aligned (mkSopts true false false true true 0 false)) as (e & -> & Hd);
    [done| |done|exact E|exact Hs'| |].
  { cbn. by vm_compute. }
  { destruct Hpos as [|[|]]; [lia|right; by left|by right; right]. }
  cbn [mbind outcome_bind]. by exists (stored 0 e).
Qed.
End calls.

(** C11: with the allocator's path behind them, [malloc], [aligned_alloc], [calloc] of at least one item
    and [realloc] of a null pointer return, for every size from a positive threshold up,
    null or a pointer aligned to the page, and to the caller's alignment if there is
    one; each reports the pointer it returns with the size it was called with
    ([calloc]: the size of one item).  The conditions: the tables of the size classes are filled, errors are not made fatal
    ([opt_xmalloc] is off), the alignment times the page fits in 64 bits (else the plugin's shift of it wraps),
    and the arenas honour the alignment in the requests they admit. *)
Theorem tracked_page_aligned fast do_rallocx do_zero threshold size align num :
  heap_aligns → 0 < threshold ≤ size → size < 2 ^ 64 →
  0 ≤ align → align * SHAMBLES_ALIGNMENT < 2 ^ 64 → 0 < num < 2 ^ 64 →
  (∃ p, je_malloc threshold imalloc_here fast size = Done (p, EvAlloc ALLOC_EVENT_ALLOC 0 p size) ∧
     (SHAMBLES_ALIGNMENT | p)) ∧
  (∃ p, je_aligned_alloc threshold imalloc_here align size = Done (p, EvAlloc ALLOC_EVENT_ALLOC 0 p size) ∧
     (SHAMBLES_ALIGNMENT | p) ∧ (align = 0 ∨ (align | p))) ∧
  (∃ p, je_calloc threshold imalloc_here num size = Done (p, EvAlloc ALLOC_EVENT_ALLOC 0 p size) ∧
     (SHAMBLES_ALIGNMENT | p)) ∧
  (∃ p, je_realloc threshold imalloc_here do_rallocx do_zero 0 size =
       Done (p, EvAlloc ALLOC_EVENT_REALLOC 0 p size) ∧ (SHAMBLES_ALIGNMENT | p)).
Proof.
  intros Hheap Hthr Hs Ha Hlt Hn.
  destruct (malloc_default_aligned Hheap threshold ltac:(lia) size ltac:(lia)) as (p & E & Hp).
  split; [|split; [by apply aligned_alloc_aligned; try lia|split; [apply calloc_aligned; by try lia|]]].
  - exists p. unfold je_malloc. destruct (Z.leb_spec threshold size); [|lia]. by rewrite E.
  - exists p. unfold je_realloc. cbn [Z.eqb negb andb]. by rewrite E.
Qed.

(** [posix_memalign] of a tracked size.  An invalid alignment is refused, but
    0 and the powers of two below the size of a pointer, which are refused for
    small sizes, are accepted; and a call that fails still reports an allocation, at
    the address the caller's variable held before. *)
Theorem posix_memalign_tracked memptr threshold size align :
  0 < threshold ≤ size → size < 2 ^ 64 → 0 ≤ align → align * SHAMBLES_ALIGNMENT < 2 ^ 64 →
  ∃ c p, je_posix_memalign threshold imalloc_here memptr align size =
      Done (c, p, EvAlloc ALLOC_EVENT_ALLOC 0 p size) ∧
    (c = EINVAL ↔ ¬ valid_alignment (SHAMBLES_REALIGN align)) ∧
    (∀ k, 0 ≤ k → align = 2 ^ k → c ≠ EINVAL) ∧ (c ≠ 0 → p = memptr).
Proof.
  intros Hthr Hs Ha Hlt. pose proof (realign_range align Ha Hlt) as Hr. destruct (realign_ok align Ha Hlt) as (H4 & _ & Hpow).
  unfold je_posix_memalign, aligned_dopts. destruct (Z.leb_spec threshold size); [|lia].
  destruct (imalloc_ok T cfg heap arena_get narenas_auto prof_alloc_prep (mkSopts false true false false false 8 false)
    (mkDopts 1 size (SHAMBLES_REALIGN align) false TCACHE_IND_AUTOMATIC ARENA_IND_AUTOMATIC) t false size _ Hx)
    as (e & E & Ho & Hn); [cbn [alignment]; lia|done|lia|by left|].
  unfold imalloc_here. rewrite E. cbn [mbind outcome_bind].
  exists (code e), (stored memptr e). split; [done|]. cbn [alignment min_alignment] in *.
  assert (8 ≤ SHAMBLES_REALIGN align) as H8.
  { apply Z.divide_pos_le in H4; [|lia]. change SHAMBLES_ALIGNMENT with 4096 in H4. lia. }
  assert (code e = EINVAL ↔ ¬ valid_alignment (SHAMBLES_REALIGN align)) as Hc.
  { remember false as o eqn:Eo in Ho. revert Eo.
    destruct Ho as [? Hc|? Hw Hc|? _ Hv _ Hc|? ? ? _ Hv _ _ _ Hc|? ? ? r _ Hv _ _ _ _ _ Hc]; intros Eo; cbn [alignment] in *; [done| | | |].
    - rewrite Hc. split; [|done]. intros _. destruct Hw; [cbn [min_alignment] in *; lia|done].
    - rewrite Hc. split; [done|]. by intros [].
    - rewrite Hc. split; [done|]. by intros [].
    - destruct (decide (heap r = 0)); [|destruct Hc as [Hc _]]; rewrite Hc; (split; [done|]); by intros []. }
  split; [exact Hc|]. split.
  - intros k Hk Ek Hcode. apply Hc in Hcode. apply Hcode. rewrite (Hpow k Hk Ek).
    right. destruct (Z.max_spec align SHAMBLES_ALIGNMENT) as [[_ ->]|[_ ->]].
    + by exists 12.
    + exists k. split; [|done]. split; [done|]. apply (Z.pow_lt_mono_r_iff 2); [lia|lia|].
      change SHAMBLES_ALIGNMENT with 4096 in Hlt. lia.
  - intros Hne. unfold stored. by destruct (Hn Hne) as [-> _].
Qed.
End tracked.

Lemma toy_heap_aligns : heap_aligns (booted true) toy_heap.
Proof. intros usize a z tc ar _. reflexivity. Qed.

Lemma tracked_page_aligned_witness :
  ∃ p, je_malloc 65536 (imalloc_here (booted true) plain_options toy_heap (λ _, true) 4 (λ _, 1) (mkTsd true 0))
      (λ _, Done 0) 100000 = Done (p, EvAlloc ALLOC_EVENT_ALLOC 0 p 100000) ∧ (SHAMBLES_ALIGNMENT | p).
Proof.
  assert (64 * SHAMBLES_ALIGNMENT < 2 ^ 64) as Hlt by (vm_compute; reflexivity).
  destruct (tracked_page_aligned (booted true) plain_options eq_refl toy_heap (λ _, true) 4 (λ _, 1) (mkTsd true 0)
    (λ _, Done 0) (λ _ _, 0) (λ _, 0) 65536 100000 64 3 toy_heap_aligns ltac:(lia) ltac:(lia) ltac:(lia) Hlt ltac:(lia))
    as (Hm & _). exact Hm.
Defined.

Lemma posix_memalign_tracked_witness :
  ∃ c p, je_posix_memalign 65536 (imalloc_here (booted true) plain_options toy_heap (λ _, true) 4 (λ _, 1) (mkTsd true 0))
      0xdead 2 100000 = Done (c, p, EvAlloc ALLOC_EVENT_ALLOC 0 p 100000) ∧ c ≠ EINVAL.
Proof.
  destruct (posix_memalign_tracked (booted true) plain_options eq_refl toy_heap (λ _, true) 4 (λ _, 1) (mkTsd true 0)
    0xdead 65536 100000 2 ltac:(lia) ltac:(lia) ltac:(lia) ltac:(vm_compute; reflexivity)) as (c & p & E & _ & H & _).
  exists c, p. split; [exact E|]. exact (H 1 ltac:(lia) eq_refl).
Defined.
