(* ===== verification/Fb.v ===== *)
(** * Flat bitmaps, [jemalloc/include/jemalloc/internal/fb.h]

    A bitmap is an array of 64-bit groups.  Assignments and counts over a range go
    through one visitor, searches in both directions through one search function;
    the ranges of set and of unset bits are found by two searches each.  [FbFacts]
    relates them to the bits they are about. *)
From stdpp Require Import base list numbers.
From S2P Require Import Prelude BitUtil SizeClass.

Definition LG_SIZEOF_LONG : Z := 3.
Definition FB_GROUP_BITS : Z := shl64 1 (LG_SIZEOF_LONG + 3).
Definition FB_NGROUPS (nbits : Z) : Z :=
  nbits / FB_GROUP_BITS + (if nbits mod FB_GROUP_BITS =? 0 then 0 else 1).

(** [~(fb_group_t)0] *)
Definition all_ones : Z := not64 0.

Definition group_at (fb : list Z) (i : Z) : outcome Z :=
  if i <? 0 then Fault OutOfBounds else fb !! Z.to_nat i ?? OutOfBounds.

Definition set_group (fb : list Z) (i g : Z) : outcome (list Z) :=
  _ ← group_at fb i; Done (<[Z.to_nat i:=g]> fb).

(** ** Whole bitmaps *)

(** [memset(fb, 0, ngroups * sizeof(fb_group_t))] over an array [fb]. *)
Definition fb_init (fb : list Z) (nbits : Z) : outcome (list Z) :=
  let ngroups := FB_NGROUPS nbits in
  if Z.of_nat (length fb) <? ngroups then Fault OutOfBounds
  else Done (replicate (Z.to_nat ngroups) 0 ++ drop (Z.to_nat ngroups) fb).

(** [for (i = ...; n times; i++) if (fb[i] != want) return false;] *)
Fixpoint groups_are (want : Z) (fb : list Z) (n : nat) (i : Z) : outcome bool :=
  match n with
  | O => Done true
  | S n' =>
      g ← group_at fb i;
      if negb (g =? want) then Done false else groups_are want fb n' (i + 1)
  end.

Definition fb_empty (fb : list Z) (nbits : Z) : outcome bool :=
  groups_are 0 fb (Z.to_nat (FB_NGROUPS nbits)) 0.

Definition fb_full (fb : list Z) (nbits : Z) : outcome bool :=
  let ngroups := FB_NGROUPS nbits in
  let trailing_bits := nbits mod FB_GROUP_BITS in
  let limit := if trailing_bits =? 0 then ngroups else ngroups - 1 in
  b ← groups_are all_ones fb (Z.to_nat limit) 0;
  if negb b then Done false
  else if trailing_bits =? 0 then Done true
  else
    g ← group_at fb (ngroups - 1);
    Done (g =? u64 (shl64 1 trailing_bits - 1)).

(** ** Single bits *)

Definition fb_get (fb : list Z) (nbits bit : Z) : outcome bool :=
  g ← group_at fb (bit / FB_GROUP_BITS);
  Done (negb (Z.land g (shl64 1 (bit mod FB_GROUP_BITS)) =? 0)).

Definition fb_set (fb : list Z) (nbits bit : Z) : outcome (list Z) :=
  let group_ind := bit / FB_GROUP_BITS in
  g ← group_at fb group_ind;
  set_group fb group_ind (Z.lor g (shl64 1 (bit mod FB_GROUP_BITS))).

Definition fb_unset (fb : list Z) (nbits bit : Z) : outcome (list Z) :=
  let group_ind := bit / FB_GROUP_BITS in
  g ← group_at fb group_ind;
  set_group fb group_ind (Z.land g (not64 (shl64 1 (bit mod FB_GROUP_BITS)))).

(** ** Visiting a range *)

Section visit.
Context {C : Type} (visit : C → Z → Z → C * Z).

(** [visit(ctx, &fb[group_ind], mask)] *)
Definition visit_group (ctx : C) (fb : list Z) (group_ind mask : Z) : outcome (C * list Z) :=
  g ← group_at fb group_ind;
  let '(ctx, g) := visit ctx g mask in
  fb ← set_group fb group_ind g;
  Done (ctx, fb).

(** The loop over the middle groups; a step takes [FB_GROUP_BITS] from [cnt]. *)
Fixpoint visit_middle (fuel : nat) (ctx : C) (fb : list Z) (group_ind cnt : Z) :
    outcome (C * list Z * Z * Z) :=
  if cnt <=? FB_GROUP_BITS then Done (ctx, fb, group_ind, cnt)
  else
    match fuel with
    | O => Fault Diverges
    | S fuel =>
        '(ctx, fb) ← visit_group ctx fb group_ind all_ones;
        visit_middle fuel ctx fb (group_ind + 1) (cnt - FB_GROUP_BITS)
    end.

Definition fb_visit_impl (ctx : C) (fb : list Z) (nbits start cnt : Z) : outcome (C * list Z) :=
  let group_ind := start / FB_GROUP_BITS in
  let start_bit_ind := start mod FB_GROUP_BITS in
  let first_group_cnt :=
    if FB_GROUP_BITS <? u64 (start_bit_ind + cnt) then FB_GROUP_BITS - start_bit_ind else cnt in
  if first_group_cnt =? 0 then Fault BadShift
  else
    let mask := shl64 (Z.shiftr all_ones (FB_GROUP_BITS - first_group_cnt)) start_bit_ind in
    '(ctx, fb) ← visit_group ctx fb group_ind mask;
    let cnt := cnt - first_group_cnt in
    '(ctx, fb, group_ind, cnt) ← visit_middle (Z.to_nat cnt) ctx fb (group_ind + 1) cnt;
    if cnt =? 0 then Done (ctx, fb)
    else visit_group ctx fb group_ind (Z.shiftr all_ones (FB_GROUP_BITS - cnt)).
End visit.

Definition fb_assign_visitor (val : bool) (g mask : Z) : bool * Z :=
  (val, if val then Z.lor g mask else Z.land g (not64 mask)).

Definition fb_set_range (fb : list Z) (nbits start cnt : Z) : outcome (list Z) :=
  r ← fb_visit_impl fb_assign_visitor true fb nbits start cnt; Done r.2.

Definition fb_unset_range (fb : list Z) (nbits start cnt : Z) : outcome (list Z) :=
  r ← fb_visit_impl fb_assign_visitor false fb nbits start cnt; Done r.2.

Definition fb_scount_visitor (scount : Z) (g mask : Z) : Z * Z :=
  (u64 (scount + popcountl (Z.land g mask)), g).

Definition fb_scount (fb : list Z) (nbits start cnt : Z) : outcome Z :=
  r ← fb_visit_impl fb_scount_visitor 0 fb nbits start cnt; Done r.1.

Definition fb_ucount (fb : list Z) (nbits start cnt : Z) : outcome Z :=
  scount ← fb_scount fb nbits start cnt; Done (u64 (cnt - scount)).

(** ** Searching *)

(** The loop of [fb_find_impl] from a group, with the bits not sought masked out
    already: the group and the bits found in it, or [None] past the last group. *)
Fixpoint find_group (fuel : nat) (fb : list Z) (maybe_invert : Z) (forward : bool)
    (group_ind_bound group_ind group : Z) : outcome (option (Z * Z)) :=
  if negb (group =? 0) then Done (Some (group_ind, group))
  else
    let group_ind := group_ind + (if forward then 1 else -1) in
    if group_ind =? group_ind_bound then Done None
    else
      match fuel with
      | O => Fault Diverges
      | S fuel =>
          g ← group_at fb group_ind;
          find_group fuel fb maybe_invert forward group_ind_bound group_ind (Z.lxor g maybe_invert)
      end.

Definition fb_find_impl (fb : list Z) (nbits start : Z) (val forward : bool) : outcome Z :=
  let ngroups := FB_NGROUPS nbits in
  let group_ind := start / FB_GROUP_BITS in
  let bit_ind := start mod FB_GROUP_BITS in
  let maybe_invert := if val then 0 else u64 (-1) in
  g ← group_at fb group_ind;
  let group := Z.lxor g maybe_invert in
  let group :=
    if forward then Z.land group (not64 (u64 (shl64 1 bit_ind - 1)))
    else Z.land group (u64 (shl64 2 bit_ind - 1)) in
  r ← find_group (Z.to_nat ngroups) fb maybe_invert forward (if forward then ngroups else -1) group_ind group;
  match r with
  | None => Done (if forward then i64 nbits else -1)
  | Some (group_ind, group) =>
      let bit := if forward then ffs_lu group else fls_lu group in
      let pos := u64 (group_ind * FB_GROUP_BITS + bit) in
      if forward && negb val && (nbits <? pos) then Done (i64 nbits) else Done (i64 pos)
  end.

Definition fb_ffu (fb : list Z) (nbits min_bit : Z) : outcome Z :=
  r ← fb_find_impl fb nbits min_bit false true; Done (u64 r).

Definition fb_ffs (fb : list Z) (nbits min_bit : Z) : outcome Z :=
  r ← fb_find_impl fb nbits min_bit true true; Done (u64 r).

Definition fb_flu (fb : list Z) (nbits max_bit : Z) : outcome Z :=
  fb_find_impl fb nbits max_bit false false.

Definition fb_fls (fb : list Z) (nbits max_bit : Z) : outcome Z :=
  fb_find_impl fb nbits max_bit true false.

(** ** Ranges

    [None] when the C function returns false; the first bit and the length of the
    range otherwise. *)
Definition fb_iter_range_impl (fb : list Z) (nbits start : Z) (val forward : bool) :
    outcome (option (Z * Z)) :=
  next_range_begin ← fb_find_impl fb nbits start val forward;
  if (forward && (next_range_begin =? i64 nbits)) || (negb forward && (next_range_begin =? -1)) then Done None
  else
    next_range_end ← fb_find_impl fb nbits (u64 next_range_begin) (negb val) forward;
    if forward then Done (Some (u64 next_range_begin, u64 (next_range_end - next_range_begin)))
    else Done (Some (u64 (next_range_end + 1), u64 (next_range_begin - next_range_end))).

Definition fb_srange_iter (fb : list Z) (nbits start : Z) := fb_iter_range_impl fb nbits start true true.
Definition fb_srange_riter (fb : list Z) (nbits start : Z) := fb_iter_range_impl fb nbits start true false.
Definition fb_urange_iter (fb : list Z) (nbits start : Z) := fb_iter_range_impl fb nbits start false true.
Definition fb_urange_riter (fb : list Z) (nbits start : Z) := fb_iter_range_impl fb nbits start false false.

(** The loop of [fb_range_longest_impl]; every range found is not empty, so that
    [begin] advances. *)
Fixpoint range_longest (fuel : nat) (fb : list Z) (nbits : Z) (val : bool) (begin longest_len : Z) : outcome Z :=
  if nbits <=? begin then Done longest_len
  else
    match fuel with
    | O => Fault Diverges
    | S fuel =>
        r ← fb_iter_range_impl fb nbits begin val true;
        match r with
        | None => Done longest_len
        | Some (begin, len) =>
            range_longest fuel fb nbits val (u64 (begin + len)) (if longest_len <? len then len else longest_len)
        end
    end.

Definition fb_range_longest_impl (fb : list Z) (nbits : Z) (val : bool) : outcome Z :=
  range_longest (Z.to_nat nbits) fb nbits val 0 0.

Definition fb_srange_longest (fb : list Z) (nbits : Z) : outcome Z := fb_range_longest_impl fb nbits true.
Definition fb_urange_longest (fb : list Z) (nbits : Z) : outcome Z := fb_range_longest_impl fb nbits false.

(** ** Bitwise operations

    [for (i = 0; i < ngroups; i++) dst[i] = f i]; group [i] of a source is read before
    group [i] of the destination is written, so that they may be the same array. *)
Fixpoint fill_groups (f : Z → outcome Z) (n : nat) (i : Z) (dst : list Z) : outcome (list Z) :=
  match n with
  | O => Done dst
  | S n' =>
      g ← f i;
      dst ← set_group dst i g;
      fill_groups f n' (i + 1) dst
  end.

Definition fb_bit_and (dst src1 src2 : list Z) (nbits : Z) : outcome (list Z) :=
  fill_groups (λ i, g1 ← group_at src1 i; g2 ← group_at src2 i; Done (Z.land g1 g2))
    (Z.to_nat (FB_NGROUPS nbits)) 0 dst.

Definition fb_bit_or (dst src1 src2 : list Z) (nbits : Z) : outcome (list Z) :=
  fill_groups (λ i, g1 ← group_at src1 i; g2 ← group_at src2 i; Done (Z.lor g1 g2))
    (Z.to_nat (FB_NGROUPS nbits)) 0 dst.

Definition fb_bit_not (dst src : list Z) (nbits : Z) : outcome (list Z) :=
  fill_groups (λ i, g ← group_at src i; Done (not64 g)) (Z.to_nat (FB_NGROUPS nbits)) 0 dst.
