(* ===== verification/FbFacts.v ===== *)
(** * The bits of a flat bitmap

    What the operations of [Fb] do, stated on the bits: range assignment changes the
    bits of the range, counts count them, searches find the nearest bit, and the
    ranges found are maximal. *)
From stdpp Require Import base list numbers.
From S2P Require Import Prelude BitUtil SizeClass Fb.

(** ** Equations on single bits *)

Lemma testbit_u64 z i : 0 ≤ i → Z.testbit (u64 z) i = (i <? 64) && Z.testbit z i.
Proof.
  intros Hi. unfold u64. destruct (Z.ltb_spec i 64).
  - by rewrite Z.mod_pow2_bits_low.
  - by rewrite Z.mod_pow2_bits_high by lia.
Qed.

Lemma testbit_not64 z i : 0 ≤ i → Z.testbit (not64 z) i = (i <? 64) && negb (Z.testbit z i).
Proof. intros Hi. unfold not64. by rewrite testbit_u64, Z.lnot_spec. Qed.

Lemma testbit_shl64 z k i : 0 ≤ i → Z.testbit (shl64 z k) i = (i <? 64) && Z.testbit z (i - k).
Proof. intros Hi. unfold shl64. by rewrite testbit_u64, Z.shiftl_spec. Qed.

Lemma testbit_one i : Z.testbit 1 i = (i =? 0).
Proof.
  destruct (Z.eqb_spec i 0) as [->|H]; [done|]. destruct (Z.lt_ge_cases i 0); [by apply Z.testbit_neg_r|].
  apply (Z.bits_above_log2 1 i); simpl; lia.
Qed.

Lemma testbit_ones k i : 0 ≤ k → 0 ≤ i → Z.testbit (Z.ones k) i = (i <? k).
Proof. intros. destruct (Z.ltb_spec i k); [by apply Z.ones_spec_low|apply Z.ones_spec_high; lia]. Qed.

Lemma all_ones_bits i : 0 ≤ i → Z.testbit all_ones i = (i <? 64).
Proof. intros Hi. unfold all_ones. rewrite testbit_not64, Z.bits_0 by done. by rewrite andb_true_r. Qed.

Lemma testbit_all_ones_shr k i : 0 ≤ k → 0 ≤ i → Z.testbit (Z.shiftr all_ones k) i = (i + k <? 64).
Proof. intros Hk Hi. rewrite Z.shiftr_spec, all_ones_bits by lia. done. Qed.

Lemma testbit_high z i : is_u64 z → 64 ≤ i → Z.testbit z i = false.
Proof.
  intros Hz Hi. rewrite <- (u64_small z Hz), testbit_u64 by lia.
  by rewrite (proj2 (Z.ltb_ge i 64)) by lia.
Qed.

Create HintDb testbits.
#[export] Hint Rewrite testbit_u64 testbit_not64 testbit_shl64 testbit_all_ones_shr all_ones_bits
  Z.land_spec Z.lor_spec Z.lxor_spec Z.bits_0 testbit_one using lia : testbits.

(** Two 64-bit words are equal when their bits are. *)
Lemma u64_ext x y : is_u64 x → is_u64 y → (∀ i, 0 ≤ i < 64 → Z.testbit x i = Z.testbit y i) → x = y.
Proof.
  intros Hx Hy E. apply Z.bits_inj'. intros i Hi.
  destruct (Z.lt_ge_cases i 64); [by apply E|]. by rewrite !testbit_high.
Qed.

Lemma bits_is_u64 x : (∀ i, 64 ≤ i → Z.testbit x i = false) → 0 ≤ x → is_u64 x.
Proof.
  intros H Hx. split; [done|]. destruct (Z.eq_dec x 0) as [->|]; [done|].
  apply Z.log2_lt_pow2; [lia|]. destruct (Z.lt_ge_cases (Z.log2 x) 64) as [|Hge]; [done|].
  specialize (H _ Hge). rewrite Z.bit_log2 in H by lia. done.
Qed.

Lemma land_u64 x y : is_u64 x → 0 ≤ y → is_u64 (Z.land x y).
Proof.
  intros Hx Hy. apply bits_is_u64; [|apply Z.land_nonneg; right; done].
  intros i Hi. by rewrite Z.land_spec, testbit_high.
Qed.

Lemma lor_u64 x y : is_u64 x → is_u64 y → is_u64 (Z.lor x y).
Proof.
  intros Hx Hy. apply bits_is_u64; [|apply Z.lor_nonneg; split; [apply Hx|apply Hy]].
  intros i Hi. by rewrite Z.lor_spec, !testbit_high.
Qed.

Lemma lxor_u64 x y : is_u64 x → is_u64 y → is_u64 (Z.lxor x y).
Proof.
  intros Hx Hy. apply bits_is_u64.
  - intros i Hi. by rewrite Z.lxor_spec, !testbit_high.
  - apply Z.lxor_nonneg. pose proof (proj1 Hx). pose proof (proj1 Hy). lia.
Qed.

Lemma not64_u64 x : is_u64 (not64 x).
Proof. apply u64_range. Qed.

Lemma shl64_u64 x k : is_u64 (shl64 x k).
Proof. apply u64_range. Qed.

Lemma all_ones_u64 : is_u64 all_ones.
Proof. apply not64_u64. Qed.

Lemma shr_all_ones_u64 k : 0 ≤ k → is_u64 (Z.shiftr all_ones k).
Proof.
  intros Hk. apply bits_is_u64; [|rewrite Z.shiftr_nonneg; apply all_ones_u64].
  intros i Hi. rewrite testbit_all_ones_shr by lia. lia.
Qed.

#[export] Hint Resolve land_u64 lor_u64 lxor_u64 not64_u64 shl64_u64 all_ones_u64 u64_range : u64.

(** ** The bits of a bitmap *)

Definition fbit (fb : list Z) (i : Z) : bool :=
  match fb !! Z.to_nat (i / 64) with
  | Some g => Z.testbit g (i mod 64)
  | None => false
  end.

(** A bitmap of [n] bits: as many groups as it takes, no bit set past the end. *)
Record fb_ok (n : Z) (fb : list Z) : Prop := {
  fo_len : Z.of_nat (length fb) = FB_NGROUPS n;
  fo_u64 : Forall is_u64 fb;
  fo_tail : ∀ i, n ≤ i → fbit fb i = false
}.

(** The number of bits in the range [[lo, lo + n)] that satisfy [p]. *)
Fixpoint count (p : Z → bool) (lo : Z) (n : nat) : Z :=
  match n with
  | O => 0
  | S n' => Z.b2z (p lo) + count p (lo + 1) n'
  end.

Lemma ngroups_spec n : 0 ≤ n → 64 * (FB_NGROUPS n - 1) < n ≤ 64 * FB_NGROUPS n.
Proof.
  intros Hn. unfold FB_NGROUPS. change FB_GROUP_BITS with 64.
  pose proof (Z.div_mod n 64). pose proof (Z.mod_pos_bound n 64).
  destruct (Z.eqb_spec (n mod 64) 0); dlia.
Qed.

Lemma ngroups_index n i : 0 ≤ i < n → 0 ≤ i / 64 < FB_NGROUPS n.
Proof. intros Hi. pose proof (ngroups_spec n). dlia. Qed.

Lemma group_at_ok fb i : 0 ≤ i < Z.of_nat (length fb) → ∃ g, group_at fb i = Done g ∧ fb !! Z.to_nat i = Some g.
Proof.
  intros Hi. destruct (lookup_Z_lt fb i Hi) as (g & E). exists g. split; [|done].
  unfold group_at. rewrite (proj2 (Z.ltb_ge i 0)) by lia. by rewrite E.
Qed.

Lemma group_at_done fb i g : group_at fb i = Done g ↔ 0 ≤ i ∧ fb !! Z.to_nat i = Some g.
Proof.
  unfold group_at. destruct (Z.ltb_spec i 0); [split; [done|lia]|].
  destruct (fb !! Z.to_nat i); simpl; split; intros; simplify_eq; intuition congruence.
Qed.

Lemma set_group_ok fb i g : 0 ≤ i < Z.of_nat (length fb) → set_group fb i g = Done (<[Z.to_nat i:=g]> fb).
Proof. intros Hi. unfold set_group. destruct (group_at_ok fb i Hi) as (g' & -> & _). done. Qed.

Lemma fbit_insert fb gi g i :
  0 ≤ gi < Z.of_nat (length fb) → 0 ≤ i →
  fbit (<[Z.to_nat gi:=g]> fb) i = if decide (i / 64 = gi) then Z.testbit g (i mod 64) else fbit fb i.
Proof.
  intros Hgi Hi. pose proof (Z.div_pos i 64 Hi). unfold fbit. case_decide as E.
  - rewrite E, list_lookup_insert_eq by lia. done.
  - rewrite list_lookup_insert_ne by lia. done.
Qed.

Lemma fbit_group fb gi g i : fb !! Z.to_nat gi = Some g → i / 64 = gi → fbit fb i = Z.testbit g (i mod 64).
Proof. intros E <-. unfold fbit. by rewrite E. Qed.

(** ** Counting *)

Lemma count_ext p q lo n : (∀ i, lo ≤ i < lo + Z.of_nat n → p i = q i) → count p lo n = count q lo n.
Proof.
  revert lo. induction n as [|n IH]; intros lo E; [done|]. simpl. rewrite E by lia. f_equal. apply IH. intros. apply E. lia.
Qed.

Lemma count_add p lo n m : count p lo (n + m) = count p lo n + count p (lo + Z.of_nat n) m.
Proof.
  revert lo. induction n as [|n IH]; intros lo; simpl; [by rewrite Z.add_0_r|].
  rewrite IH. replace (lo + Z.of_nat (S n)) with (lo + 1 + Z.of_nat n) by lia. lia.
Qed.

Lemma count_shift p k lo n : count (λ i, p (i + k)) lo n = count p (lo + k) n.
Proof.
  revert lo. induction n as [|n IH]; intros lo; simpl; [done|]. rewrite IH. do 2 f_equal. lia.
Qed.

Lemma count_bounds p lo n : 0 ≤ count p lo n ≤ Z.of_nat n.
Proof. revert lo. induction n as [|n IH]; intros lo; simpl; [lia|]. specialize (IH (lo + 1)). destruct (p lo); simpl; lia. Qed.

Lemma count_const b p lo n : (∀ i, lo ≤ i < lo + Z.of_nat n → p i = b) → count p lo n = Z.b2z b * Z.of_nat n.
Proof.
  revert lo. induction n as [|n IH]; intros lo E; [simpl; lia|]. simpl. rewrite E by lia.
  rewrite IH by (intros; apply E; lia). destruct b; simpl Z.b2z; lia.
Qed.

(** Inclusion and exclusion, bit by bit. *)
Lemma count_split p q r s lo n :
  (∀ i, lo ≤ i < lo + Z.of_nat n → Z.b2z (p i) + Z.b2z (q i) = Z.b2z (r i) + Z.b2z (s i)) →
  count p lo n + count q lo n = count r lo n + count s lo n.
Proof.
  revert lo. induction n as [|n IH]; intros lo E; [done|]. simpl.
  pose proof (E lo ltac:(lia)). specialize (IH (lo + 1) ltac:(intros; apply E; lia)). lia.
Qed.

Lemma count_le p q lo n :
  (∀ i, lo ≤ i < lo + Z.of_nat n → p i = true → q i = true) → count p lo n ≤ count q lo n.
Proof.
  revert lo. induction n as [|n IH]; intros lo E; [done|]. simpl.
  specialize (IH (lo + 1) ltac:(intros; apply E; [lia|done])).
  pose proof (E lo ltac:(lia)). destruct (p lo), (q lo); simpl; lia.
Qed.

Lemma popcount_count n x : 0 ≤ x < 2 ^ Z.of_nat n → popcountl x = count (Z.testbit x) 0 n.
Proof.
  revert x. induction n as [|n IH]; intros x Hx.
  - by assert (x = 0) as -> by (simpl in Hx; lia).
  - assert (popcountl x = Z.b2z (Z.testbit x 0) + popcountl (x / 2)) as ->.
    { rewrite Z.bit0_odd. destruct x as [|[p|p|]|p]; [done| | |done|lia].
      - rewrite Pos2Z.inj_xI. replace ((2 * Z.pos p + 1) / 2) with (Z.pos p) by dlia. simpl. done.
      - rewrite Pos2Z.inj_xO. replace ((2 * Z.pos p) / 2) with (Z.pos p) by dlia. simpl. done. }
    simpl. f_equal. rewrite IH by (rewrite Nat2Z.inj_succ, Z.pow_succ_r in Hx by lia; dlia).
    rewrite <- (count_shift (Z.testbit x) 1 0 n). apply count_ext. intros i Hi.
    by rewrite <- Z.div2_div, Z.div2_spec, Z.shiftr_spec by lia.
Qed.

(** ** Visiting a range

    [masks lo hi mask]: the mask selects, in the group of [lo], the bits of
    [[lo, hi)]. *)
Definition masks (lo hi mask : Z) : Prop :=
  is_u64 mask ∧ ∀ i, 0 ≤ i → i / 64 = lo / 64 → Z.testbit mask (i mod 64) = bool_decide (lo ≤ i < hi).

Lemma first_mask lo k :
  0 ≤ lo → 0 < k → lo mod 64 + k ≤ 64 →
  masks lo (lo + k) (shl64 (Z.shiftr all_ones (64 - k)) (lo mod 64)).
Proof.
  intros Hlo Hk Hs. split; [apply shl64_u64|]. intros i Hi E.
  pose proof (Z.mod_pos_bound i 64 ltac:(lia)). pose proof (Z.mod_pos_bound lo 64 ltac:(lia)).
  rewrite testbit_shl64 by lia. rewrite (proj2 (Z.ltb_lt _ 64)) by lia. simpl.
  apply eq_true_iff_eq. rewrite bool_decide_eq_true.
  destruct (Z.lt_ge_cases (i mod 64 - lo mod 64) 0).
  - rewrite Z.testbit_neg_r by lia. split; [done|]. dlia.
  - rewrite testbit_all_ones_shr by lia. rewrite Z.ltb_lt. dlia.
Qed.

Lemma last_mask lo k :
  0 ≤ lo → lo mod 64 = 0 → 0 < k ≤ 64 → masks lo (lo + k) (Z.shiftr all_ones (64 - k)).
Proof.
  intros Hlo Hm Hk. split; [apply shr_all_ones_u64; lia|]. intros i Hi E.
  pose proof (Z.mod_pos_bound i 64 ltac:(lia)).
  rewrite testbit_all_ones_shr by lia. apply eq_true_iff_eq. rewrite bool_decide_eq_true, Z.ltb_lt. dlia.
Qed.

Section visit_rule.
Context {C : Type} (visit : C → Z → Z → C * Z) (n start cnt : Z) (I : Z → C → list Z → Prop).
Hypothesis Hstart : 0 ≤ start.
Hypothesis Hcnt : 0 < cnt.
Hypothesis Hn : start + cnt ≤ n.
Hypothesis Hn63 : n < 2 ^ 63.
Hypothesis I_len : ∀ k ctx fb, I k ctx fb → Z.of_nat (length fb) = FB_NGROUPS n.
Hypothesis I_step : ∀ lo hi ctx fb g mask,
  start ≤ lo < hi → hi ≤ start + cnt → (hi - 1) / 64 = lo / 64 → masks lo hi mask →
  fb !! Z.to_nat (lo / 64) = Some g → I lo ctx fb →
  I hi (visit ctx g mask).1 (<[Z.to_nat (lo / 64):=(visit ctx g mask).2]> fb).

Lemma visit_group_rule lo hi ctx fb mask gi :
  gi = lo / 64 → start ≤ lo < hi → hi ≤ start + cnt → (hi - 1) / 64 = lo / 64 → masks lo hi mask → I lo ctx fb →
  ∃ ctx' fb', visit_group visit ctx fb gi mask = Done (ctx', fb') ∧ I hi ctx' fb'.
Proof.
  intros -> Hlo Hhi E Hm HI. pose proof (ngroups_index n lo ltac:(lia)) as Hg.
  rewrite <- (I_len _ _ _ HI) in Hg. destruct (group_at_ok fb _ Hg) as (g & E1 & E2).
  pose proof (I_step lo hi ctx fb g mask Hlo Hhi E Hm E2 HI) as HI'.
  unfold visit_group. rewrite E1. cbn [mbind outcome_bind]. destruct (visit ctx g mask) as [ctx' g'].
  rewrite set_group_ok by done. by eexists _, _.
Qed.

Lemma visit_middle_rule fuel lo ctx fb gi k :
  gi = lo / 64 → lo mod 64 = 0 → start ≤ lo → k = start + cnt - lo → 0 ≤ k → (Z.to_nat k ≤ fuel)%nat → I lo ctx fb →
  ∃ ctx' fb' lo', visit_middle visit fuel ctx fb gi k = Done (ctx', fb', lo' / 64, start + cnt - lo') ∧
    I lo' ctx' fb' ∧ lo' mod 64 = 0 ∧ lo ≤ lo' ∧ 0 ≤ start + cnt - lo' ≤ 64.
Proof.
  revert lo ctx fb gi k. induction fuel as [|fuel IH]; intros lo ctx fb gi k -> Hm Hlo -> Hk Hf HI; simpl;
    change FB_GROUP_BITS with 64; destruct (Z.leb_spec (start + cnt - lo) 64);
    try (exists ctx, fb, lo; split_and!; first [done|lia]); try lia.
  destruct (visit_group_rule lo (lo + 64) ctx fb all_ones (lo / 64)) as (ctx1 & fb1 & E1 & HI1);
    [done|lia|lia|dlia| |done|].
  { pose proof (last_mask lo 64 ltac:(lia) Hm ltac:(lia)) as H64. by rewrite Z.sub_diag, Z.shiftr_0_r in H64. }
  rewrite E1. cbn [mbind outcome_bind].
  destruct (IH (lo + 64) ctx1 fb1 (lo / 64 + 1) (start + cnt - lo - 64)) as (ctx2 & fb2 & lo2 & E2 & ? & ? & ? & ?);
    [dlia|dlia|lia|lia|lia|lia|done|].
  exists ctx2, fb2, lo2. split_and!; first [done|lia].
Qed.

Lemma fb_visit_rule ctx fb :
  I start ctx fb →
  ∃ ctx' fb', fb_visit_impl visit ctx fb n start cnt = Done (ctx', fb') ∧ I (start + cnt) ctx' fb'.
Proof.
  intros HI. unfold fb_visit_impl. change FB_GROUP_BITS with 64.
  pose proof (Z.mod_pos_bound start 64 ltac:(lia)) as Hm.
  rewrite u64_small by (unfold is_u64; lia).
  set (k := if 64 <? start mod 64 + cnt then 64 - start mod 64 else cnt).
  assert (0 < k ≤ cnt ∧ start mod 64 + k ≤ 64 ∧ (k = cnt ∨ start mod 64 + k = 64)) as (Hk & Hk' & Hk'').
  { unfold k. destruct (Z.ltb_spec 64 (start mod 64 + cnt)); lia. }
  rewrite (proj2 (Z.eqb_neq k 0)) by lia.
  destruct (visit_group_rule start (start + k) ctx fb
              (shl64 (Z.shiftr all_ones (64 - k)) (start mod 64)) (start / 64)) as (ctx1 & fb1 & E1 & HI1);
    [done|lia|lia|dlia|by apply first_mask; lia|done|].
  rewrite E1. cbn [mbind outcome_bind]. destruct (decide (k = cnt)) as [E|Hne].
  - rewrite E, Z.sub_diag. simpl. rewrite E in HI1. by eexists _, _.
  - assert (start mod 64 + k = 64) by lia.
    destruct (visit_middle_rule (Z.to_nat (cnt - k)) (start + k) ctx1 fb1 (start / 64 + 1) (cnt - k))
      as (ctx2 & fb2 & lo2 & E2 & HI2 & Hm2 & Hlo2 & Hr2); [dlia|dlia|lia|lia|lia|lia|done|].
    rewrite E2. cbn [mbind outcome_bind]. case_match eqn:Ez.
    + apply Z.eqb_eq in Ez. replace (start + cnt) with lo2 by lia. by eexists _, _.
    + apply Z.eqb_neq in Ez. apply (visit_group_rule lo2); try done; try lia; [dlia|].
      replace (start + cnt) with (lo2 + (start + cnt - lo2)) at 1 by lia. apply last_mask; lia.
Qed.
End visit_rule.

(** ** Assigning and counting a range *)

Section ranges.
Context (n : Z) (fb : list Z).
Hypothesis Hn : 0 ≤ n < 2 ^ 63.
Hypothesis Hfb : fb_ok n fb.

Lemma fb_assign_ok val start cnt :
  0 ≤ start → 0 < cnt → start + cnt ≤ n →
  ∃ fb', fb_visit_impl fb_assign_visitor val fb n start cnt = Done (val, fb') ∧ fb_ok n fb' ∧
    ∀ i, 0 ≤ i → fbit fb' i = if bool_decide (start ≤ i < start + cnt) then val else fbit fb i.
Proof.
  intros Hs Hc Hsc.
  destruct (fb_visit_rule fb_assign_visitor n start cnt
    (λ k v fb', v = val ∧ Z.of_nat (length fb') = FB_NGROUPS n ∧ Forall is_u64 fb' ∧
       ∀ i, 0 ≤ i → fbit fb' i = if bool_decide (start ≤ i < k) then val else fbit fb i))
    with (ctx := val) (fb := fb) as (v & fb' & E & -> & Hl & Hu & Hb); try done; try lia.
  - intros lo hi v fb' g mask Hlo Hhi Hsame [Hmask Hbits] Eg (-> & Hl & Hu & Hb).
    assert (is_u64 g) as Hg by (by eapply Forall_lookup_1).
    split_and!; [done|by rewrite length_insert| |].
    { apply Forall_insert; [done|]. simpl. destruct val; eauto with u64. apply land_u64; [done|apply not64_u64]. }
    intros i Hi. pose proof (ngroups_index n lo ltac:(lia)). pose proof (Z.mod_pos_bound i 64 ltac:(lia)).
    rewrite fbit_insert by lia. simpl. case_decide as Ei.
    + rewrite <- Ei in Eg. specialize (Hb i Hi). rewrite (fbit_group _ _ _ i Eg eq_refl) in Hb.
      specialize (Hbits i Hi Ei). destruct val; autorewrite with testbits; rewrite Hb, Hbits;
        try rewrite (proj2 (Z.ltb_lt (i mod 64) 64)) by lia;
        repeat case_bool_decide; try lia; simpl; by destruct (fbit fb i).
    + rewrite Hb by done. repeat case_bool_decide; try done; dlia.
  - destruct Hfb. split_and!; try done. intros i Hi. by rewrite bool_decide_false by lia.
  - exists fb'. split_and!; try done. split; try done. intros i Hi.
    rewrite Hb, bool_decide_false by lia. by apply Hfb.
Qed.

Lemma fb_set_range_ok start cnt :
  0 ≤ start → 0 < cnt → start + cnt ≤ n →
  ∃ fb', fb_set_range fb n start cnt = Done fb' ∧ fb_ok n fb' ∧
    ∀ i, 0 ≤ i → fbit fb' i = bool_decide (start ≤ i < start + cnt) || fbit fb i.
Proof.
  intros Hs Hc Hsc. destruct (fb_assign_ok true start cnt) as (fb' & E & Hok & Hb); [done..|].
  exists fb'. unfold fb_set_range. by rewrite E.
Qed.

Lemma fb_unset_range_ok start cnt :
  0 ≤ start → 0 < cnt → start + cnt ≤ n →
  ∃ fb', fb_unset_range fb n start cnt = Done fb' ∧ fb_ok n fb' ∧
    ∀ i, 0 ≤ i → fbit fb' i = negb (bool_decide (start ≤ i < start + cnt)) && fbit fb i.
Proof.
  intros Hs Hc Hsc. destruct (fb_assign_ok false start cnt) as (fb' & E & Hok & Hb); [done..|].
  exists fb'. unfold fb_unset_range. rewrite E. split_and!; try done.
  intros i Hi. rewrite Hb by done. by case_bool_decide.
Qed.
End ranges.

(** Only the part of the range where [p] can hold matters. *)
Lemma count_window p a k lo m :
  a ≤ lo → lo + Z.of_nat m ≤ a + Z.of_nat k →
  (∀ i, a ≤ i < a + Z.of_nat k → ¬ (lo ≤ i < lo + Z.of_nat m) → p i = false) →
  count p a k = count p lo m.
Proof.
  intros Ha Hk Hout.
  replace k with (Z.to_nat (lo - a) + (m + (k - m - Z.to_nat (lo - a))))%nat by lia.
  rewrite !count_add. replace (a + Z.of_nat (Z.to_nat (lo - a))) with lo by lia.
  rewrite (count_const false p a), (count_const false p (lo + Z.of_nat m)) by (intros; apply Hout; lia).
  simpl Z.b2z. lia.
Qed.

Lemma popcount_masked fb lo hi g mask :
  0 ≤ lo < hi → (hi - 1) / 64 = lo / 64 → masks lo hi mask → is_u64 g → fb !! Z.to_nat (lo / 64) = Some g →
  popcountl (Z.land g mask) = count (fbit fb) lo (Z.to_nat (hi - lo)).
Proof.
  intros Hlo Hsame [Hmask Hbits] Hg Eg.
  rewrite (popcount_count 64) by (apply land_u64; [done|apply Hmask]).
  set (q := λ i, bool_decide (lo ≤ i < hi) && fbit fb i).
  transitivity (count (λ i, q (i + 64 * (lo / 64))) 0 64).
  - apply count_ext. intros i Hi. unfold q.
    assert ((i + 64 * (lo / 64)) / 64 = lo / 64) as Ed by dlia.
    assert ((i + 64 * (lo / 64)) mod 64 = i) as Em by dlia.
    rewrite Z.land_spec, (fbit_group fb (lo / 64) g) by done.
    rewrite <- (Hbits (i + 64 * (lo / 64))) by (try done; dlia). rewrite Em. apply andb_comm.
  - rewrite count_shift, (count_window q _ 64 lo (Z.to_nat (hi - lo))).
    + apply count_ext. intros i Hi. unfold q. by rewrite bool_decide_true by lia.
    + dlia.
    + dlia.
    + intros i Hi Hn. unfold q. by rewrite bool_decide_false by lia.
Qed.

Lemma fb_scount_ok n fb start cnt :
  n < 2 ^ 63 → fb_ok n fb → 0 ≤ start → 0 < cnt → start + cnt ≤ n →
  fb_scount fb n start cnt = Done (count (fbit fb) start (Z.to_nat cnt)).
Proof.
  intros Hn Hfb Hs Hc Hsc.
  destruct (fb_visit_rule fb_scount_visitor n start cnt
    (λ k sc fb', fb' = fb ∧ sc = count (fbit fb) start (Z.to_nat (k - start))))
    with (ctx := 0) (fb := fb) as (sc & fb' & E & -> & ->); try done; try lia.
  - intros k ctx fb' [-> _]. by destruct Hfb.
  - intros lo hi sc fb' g mask Hlo Hhi Hsame Hmask Eg [-> ->]. simpl.
    assert (is_u64 g) as Hg by (eapply Forall_lookup_1; [by apply (fo_u64 n)|done]).
    split; [by apply list_insert_id|]. rewrite (popcount_masked fb lo hi g mask) by (try done; lia).
    replace (Z.to_nat (hi - start)) with (Z.to_nat (lo - start) + Z.to_nat (hi - lo))%nat by lia.
    rewrite count_add. replace (start + Z.of_nat (Z.to_nat (lo - start))) with lo by lia.
    apply u64_small. unfold is_u64.
    pose proof (count_bounds (fbit fb) start (Z.to_nat (lo - start))).
    pose proof (count_bounds (fbit fb) lo (Z.to_nat (hi - lo))). lia.
  - by rewrite Z.sub_diag.
  - unfold fb_scount. rewrite E. simpl. by replace (start + cnt - start) with cnt by lia.
Qed.

Lemma fb_ucount_ok n fb start cnt :
  n < 2 ^ 63 → fb_ok n fb → 0 ≤ start → 0 < cnt → start + cnt ≤ n →
  fb_ucount fb n start cnt = Done (count (λ i, negb (fbit fb i)) start (Z.to_nat cnt)).
Proof.
  intros Hn Hfb Hs Hc Hsc. unfold fb_ucount. rewrite fb_scount_ok by done. cbn [mbind outcome_bind]. f_equal.
  pose proof (count_split (fbit fb) (λ i, negb (fbit fb i)) (λ _, true) (λ _, false) start (Z.to_nat cnt)) as E.
  rewrite (count_const true (λ _, true)), (count_const false (λ _, false)) in E by done. simpl Z.b2z in E.
  pose proof (count_bounds (fbit fb) start (Z.to_nat cnt)).
  rewrite u64_small by (unfold is_u64; lia). rewrite Z2Nat.id in E by lia.
  assert (count (fbit fb) start (Z.to_nat cnt) + count (λ i, negb (fbit fb i)) start (Z.to_nat cnt) = cnt); [|lia].
  rewrite E; [lia|]. intros i _. by destruct (fbit fb i).
Qed.

(** ** Searching *)

(** The first position of [[lo, hi)] where [p] holds, or [hi]. *)
Definition is_first (p : Z → bool) (lo hi r : Z) : Prop :=
  lo ≤ r ≤ hi ∧ (∀ i, lo ≤ i < r → p i = false) ∧ (r < hi → p r = true).

(** The last position of [[0, hi]] where [p] holds, or -1. *)
Definition is_last (p : Z → bool) (hi r : Z) : Prop :=
  -1 ≤ r ≤ hi ∧ (∀ i, r < i ≤ hi → p i = false) ∧ (0 ≤ r → p r = true).

Lemma is_first_unique p lo hi r r' : is_first p lo hi r → is_first p lo hi r' → r = r'.
Proof.
  intros (H1 & H2 & H3) (H1' & H2' & H3'). destruct (Z.lt_trichotomy r r') as [Hlt|[?|Hlt]]; [|done|].
  - specialize (H2' r). rewrite H3 in H2' by lia. specialize (H2' ltac:(lia)). done.
  - specialize (H2 r'). rewrite H3' in H2 by lia. specialize (H2 ltac:(lia)). done.
Qed.

(** [group] holds, in the bits of group [gi], where [q] holds. *)
Definition group_view (q : Z → bool) (gi group : Z) : Prop :=
  is_u64 group ∧ ∀ i, 0 ≤ i → i / 64 = gi → Z.testbit group (i mod 64) = q i.

Lemma group_view_zero q gi i : group_view q gi 0 → 0 ≤ i → i / 64 = gi → q i = false.
Proof. intros [_ H] Hi Ei. by rewrite <- (H i Hi Ei), Z.bits_0. Qed.

Lemma group_view_first q gi g :
  0 ≤ gi → g ≠ 0 → group_view q gi g →
  let r := gi * 64 + ffs_lu g in
  r / 64 = gi ∧ q r = true ∧ ∀ i, 64 * gi ≤ i < r → q i = false.
Proof.
  intros Hgi Hg [Hu H]. pose proof (proj1 Hu). rewrite ffs_lu_ctzl by lia.
  pose proof (ctzl_lt g 64 ltac:(unfold is_u64 in Hu; lia)).
  split_and!; [dlia| |].
  - rewrite <- H by dlia. replace ((gi * 64 + ctzl g) mod 64) with (ctzl g) by dlia.
    by apply (ctzl_testbit g 0); lia.
  - intros i Hi. rewrite <- H by dlia. apply (ctzl_testbit g (i mod 64)); dlia.
Qed.

Lemma group_view_last q gi g :
  0 ≤ gi → g ≠ 0 → group_view q gi g →
  let r := gi * 64 + fls_lu g in
  r / 64 = gi ∧ q r = true ∧ ∀ i, r < i < 64 * gi + 64 → q i = false.
Proof.
  intros Hgi Hg [Hu H]. assert (0 < g < 2 ^ 64) by (unfold is_u64 in Hu; lia).
  rewrite fls_lu_log2 by done. pose proof (log2_u64 g ltac:(done)).
  split_and!; [dlia| |].
  - rewrite <- H by dlia. replace ((gi * 64 + Z.log2 g) mod 64) with (Z.log2 g) by dlia. apply Z.bit_log2. lia.
  - intros i Hi. rewrite <- H by dlia. apply Z.bits_above_log2; dlia.
Qed.

(** The loop over the groups: [N] groups are left, this one included, in the
    direction [s] of the search. *)
Lemma find_group_ok q fb inv (forward : bool) s fuel N gi g :
  s = (if forward then 1 else -1) → (0 < N)%nat → (N ≤ S fuel)%nat → group_view q gi g →
  (∀ k, 1 ≤ k < Z.of_nat N →
     ∃ g, group_at fb (gi + s * k) = Done g ∧ group_view q (gi + s * k) (Z.lxor g inv)) →
  ∃ m r, find_group fuel fb inv forward (gi + s * Z.of_nat N) gi g = Done r ∧
    0 ≤ m ≤ Z.of_nat N ∧
    (∀ k i, 0 ≤ k < m → 0 ≤ i → i / 64 = gi + s * k → q i = false) ∧
    match r with
    | None => m = Z.of_nat N
    | Some (gi', g') => m < Z.of_nat N ∧ gi' = gi + s * m ∧ g' ≠ 0 ∧ group_view q gi' g'
    end.
Proof.
  intros Hs. revert fuel gi g. induction N as [|N IH]; intros fuel gi g HN Hf Hg Hnext; [lia|].
  destruct fuel as [|fuel]; simpl find_group; destruct (Z.eqb_spec g 0) as [->|Hg0]; cbn [negb].
  all: try (exists 0, (@Some (Z * Z) (gi, g)); split; [done|]; split; [lia|]; split; [intros; lia|];
    split_and!; try done; lia).
  - assert (N = 0%nat) as -> by lia. exists 1, (@None (Z * Z)). rewrite <- Hs.
    rewrite (proj2 (Z.eqb_eq _ _)) by lia. split_and!; try done; try lia.
    intros k i Hk Hi Ei. replace k with 0 in Ei by lia. by apply (group_view_zero q gi); [|lia|lia].
  - rewrite <- Hs. destruct (Z.eqb_spec (gi + s) (gi + s * Z.of_nat (S N))) as [E|E].
    + exists 1, (@None (Z * Z)). assert (N = 0%nat) as -> by (destruct forward; lia). split_and!; try done; try lia.
      intros k i Hk Hi Ei. replace k with 0 in Ei by lia. by apply (group_view_zero q gi); [|lia|lia].
    + assert (0 < N)%nat by (destruct N; [|lia]; destruct forward; lia).
      destruct (Hnext 1) as (g1 & E1 & H1); [lia|]. rewrite Z.mul_1_r in E1, H1. rewrite E1. cbn [mbind outcome_bind].
      destruct (IH fuel (gi + s) (Z.lxor g1 inv)) as (m & r & Er & Hm & Hno & Hr); [lia|lia|done| |].
      { intros k Hk. destruct (Hnext (k + 1)) as (g2 & E2 & H2); [lia|]. exists g2.
        by replace (gi + s + s * k) with (gi + s * (k + 1)) by lia. }
      replace (gi + s * Z.of_nat (S N)) with (gi + s + s * Z.of_nat N) by lia. rewrite Er.
      exists (m + 1), r. split_and!; [done|lia|lia| |].
      * intros k i Hk Hi Ei. destruct (decide (k = 0)) as [->|].
        -- by apply (group_view_zero q gi); [|lia|lia].
        -- apply (Hno (k - 1) i); lia.
      * destruct r as [[gi' g']|]; [|lia]. destruct Hr as (? & -> & ? & ?). split_and!; first [done|lia].
Qed.

Lemma i64_small z : - 2 ^ 63 ≤ z < 2 ^ 63 → i64 z = z.
Proof. intros H. unfold i64. rewrite Z.mod_small; lia. Qed.

(** [(1 << b) - 1] and [(2 << b) - 1] select the bits below [b] and up to [b]. *)
Lemma below_mask b i : 0 ≤ b < 64 → 0 ≤ i < 64 → Z.testbit (u64 (shl64 1 b - 1)) i = (i <? b).
Proof.
  intros Hb Hi. replace (u64 (shl64 1 b - 1)) with (Z.ones b); [by apply testbit_ones; lia|].
  assert (2 ^ b < 2 ^ 64) by (apply Z.pow_lt_mono_r; lia). assert (0 < 2 ^ b) by (apply Z.pow_pos_nonneg; lia).
  unfold shl64. rewrite Z.shiftl_mul_pow2, Z.mul_1_l, (u64_small (2 ^ b)) by (unfold is_u64; lia).
  rewrite u64_small by (unfold is_u64; lia). by rewrite Z.ones_equiv, Z.sub_1_r.
Qed.

Lemma upto_mask b i : 0 ≤ b < 64 → 0 ≤ i < 64 → Z.testbit (u64 (shl64 2 b - 1)) i = (i <=? b).
Proof.
  intros Hb Hi. destruct (decide (b = 63)) as [->|].
  - change (u64 (shl64 2 63 - 1)) with (Z.ones 64). rewrite testbit_ones by lia. lia.
  - replace (shl64 2 b) with (shl64 1 (b + 1)).
    + rewrite below_mask by lia. lia.
    + unfold shl64. by rewrite !Z.shiftl_mul_pow2, Z.pow_add_r, Z.mul_1_l, Z.mul_comm by lia.
Qed.

Lemma lxor_view fb val gi g :
  is_u64 g → fb !! Z.to_nat gi = Some g →
  group_view (λ i, eqb (fbit fb i) val) gi (Z.lxor g (if val then 0 else u64 (-1))).
Proof.
  intros Hg Eg. split; [apply lxor_u64; [done|]; destruct val; done|]. intros i Hi Ei.
  rewrite (fbit_group fb gi g i) by done. rewrite Z.lxor_spec.
  pose proof (Z.mod_pos_bound i 64 ltac:(lia)).
  destruct val; [rewrite Z.bits_0; by destruct (Z.testbit g _)|].
  change (u64 (-1)) with (Z.ones 64). rewrite testbit_ones, (proj2 (Z.ltb_lt _ _)) by lia.
  by destruct (Z.testbit g _).
Qed.

Section find.
Context (n : Z) (fb : list Z).
Hypothesis Hn : n < 2 ^ 63.
Hypothesis Hfb : fb_ok n fb.

Definition is_val (val : bool) (i : Z) : bool := eqb (fbit fb i) val.

Lemma group_some gi : 0 ≤ gi < FB_NGROUPS n → ∃ g, group_at fb gi = Done g ∧ fb !! Z.to_nat gi = Some g ∧ is_u64 g.
Proof.
  intros Hgi. destruct (group_at_ok fb gi) as (g & E1 & E2); [rewrite (fo_len n fb Hfb); lia|].
  exists g. split_and!; try done. eapply Forall_lookup_1; [apply (fo_u64 n fb Hfb)|done].
Qed.

(** The groups past the first one are looked at whole. *)
Lemma later_view val gi (P : Z → Prop) `{∀ i, Decision (P i)} :
  0 ≤ gi < FB_NGROUPS n → (∀ i, 0 ≤ i → i / 64 = gi → P i) →
  ∃ g, group_at fb gi = Done g ∧
    group_view (λ i, bool_decide (P i) && is_val val i) gi (Z.lxor g (if val then 0 else u64 (-1))).
Proof.
  intros Hgi HP. destruct (group_some gi Hgi) as (g & E1 & E2 & Hg). exists g. split; [done|].
  destruct (lxor_view fb val gi g Hg E2) as [Hu Hv]. split; [done|]. intros i Hi Ei.
  rewrite Hv by done. by rewrite bool_decide_true by auto.
Qed.

Lemma first_view val (forward : bool) start g (P : Z → Prop) `{∀ i, Decision (P i)} mask :
  0 ≤ start → is_u64 g → fb !! Z.to_nat (start / 64) = Some g → 0 ≤ mask →
  (∀ i, 0 ≤ i → i / 64 = start / 64 → Z.testbit mask (i mod 64) = bool_decide (P i)) →
  group_view (λ i, bool_decide (P i) && is_val val i) (start / 64)
    (Z.land (Z.lxor g (if val then 0 else u64 (-1))) mask).
Proof.
  intros Hs Hg Eg Hm HP. destruct (lxor_view fb val (start / 64) g Hg Eg) as [Hu Hv].
  split; [by apply land_u64|]. intros i Hi Ei. rewrite Z.land_spec, Hv, HP by done. apply andb_comm.
Qed.

Lemma fb_find_forward val start :
  0 ≤ start < n → ∃ r, fb_find_impl fb n start val true = Done r ∧ is_first (is_val val) start n r.
Proof.
  intros Hs. unfold fb_find_impl. change FB_GROUP_BITS with 64.
  pose proof (ngroups_index n start Hs) as Hgi. pose proof (ngroups_spec n ltac:(lia)) as Hng.
  destruct (group_some _ Hgi) as (g & E1 & E2 & Hg). rewrite E1. cbn [mbind outcome_bind].
  set (inv := if val then 0 else u64 (-1)).
  set (q := λ i, bool_decide (start ≤ i) && is_val val i).
  destruct (find_group_ok q fb inv true 1 (Z.to_nat (FB_NGROUPS n)) (Z.to_nat (FB_NGROUPS n - start / 64)) (start / 64)
    (Z.land (Z.lxor g inv) (not64 (u64 (shl64 1 (start mod 64) - 1))))) as (m & r & Er & Hm & Hno & Hr);
    [done|lia|lia| | |].
  { apply (first_view val true); [lia|done|done|apply not64_u64|]. intros i Hi Ei.
    rewrite testbit_not64, below_mask by dlia. apply eq_true_iff_eq.
    rewrite bool_decide_eq_true, andb_true_iff, Z.ltb_lt, negb_true_iff, Z.ltb_ge. dlia. }
  { intros k Hk. apply later_view; [lia|]. intros i Hi Ei. dlia. }
  replace (start / 64 + 1 * Z.of_nat (Z.to_nat (FB_NGROUPS n - start / 64))) with (FB_NGROUPS n) in Er by lia.
  rewrite Er. cbn [mbind outcome_bind].
  assert (∀ i, start ≤ i → i / 64 < start / 64 + m → is_val val i = false) as Hbefore.
  { intros i Hi Hg'. specialize (Hno (i / 64 - start / 64) i ltac:(dlia) ltac:(lia) ltac:(lia)).
    unfold q in Hno. by rewrite bool_decide_true in Hno by lia. }
  destruct r as [[gi' g']|]; cbn [negb andb].
  - destruct Hr as (Hm' & -> & Hg' & Hv). destruct (group_view_first q (start / 64 + 1 * m) g' ltac:(lia) Hg' Hv) as (Ep & Hq & Hbelow).
    set (pos := (start / 64 + 1 * m) * 64 + ffs_lu g') in *.
    assert (bool_decide (start ≤ pos) = true ∧ is_val val pos = true) as [Hsp Hvp] by (by apply andb_true_iff).
    apply bool_decide_eq_true in Hsp.
    assert (∀ i, start ≤ i < pos → is_val val i = false) as Hfree.
    { intros i Hi. destruct (Z.lt_ge_cases (i / 64) (start / 64 + m)); [by apply Hbefore; lia|].
      specialize (Hbelow i ltac:(dlia)). unfold q in Hbelow. by rewrite bool_decide_true in Hbelow by lia. }
    assert (pos < 64 * FB_NGROUPS n) by dlia.
    rewrite u64_small by (unfold is_u64; lia).
    destruct (Z.lt_ge_cases n pos) as [Hbig|Hsmall].
    + assert (val = false) as ->.
      { unfold is_val in Hvp. rewrite (fo_tail n fb Hfb) in Hvp by lia. by destruct val. }
      rewrite (proj2 (Z.ltb_lt n pos)) by lia. simpl. rewrite i64_small by lia.
      exists n. split; [done|]. split_and!; [lia|lia| |lia]. intros i Hi. apply Hfree. lia.
    + rewrite (proj2 (Z.ltb_ge n pos)), andb_false_r by lia. rewrite i64_small by lia.
      exists pos. split; [done|]. by split_and!.
  - exists n. rewrite i64_small by lia. split; [done|]. split_and!; [lia|lia| |lia]. intros i Hi. apply Hbefore; [lia|].
    subst m. dlia.
Qed.

Lemma fb_find_backward val start :
  0 ≤ start < n → ∃ r, fb_find_impl fb n start val false = Done r ∧ is_last (is_val val) start r.
Proof.
  intros Hs. unfold fb_find_impl. change FB_GROUP_BITS with 64.
  pose proof (ngroups_index n start Hs) as Hgi. pose proof (ngroups_spec n ltac:(lia)) as Hng.
  destruct (group_some _ Hgi) as (g & E1 & E2 & Hg). rewrite E1. cbn [mbind outcome_bind].
  set (inv := if val then 0 else u64 (-1)).
  set (q := λ i, bool_decide (i ≤ start) && is_val val i).
  destruct (find_group_ok q fb inv false (-1) (Z.to_nat (FB_NGROUPS n)) (Z.to_nat (start / 64 + 1)) (start / 64)
    (Z.land (Z.lxor g inv) (u64 (shl64 2 (start mod 64) - 1)))) as (m & r & Er & Hm & Hno & Hr);
    [done|lia|lia| | |].
  { apply (first_view val false); [lia|done|done|apply u64_range|]. intros i Hi Ei.
    rewrite upto_mask by dlia. apply eq_true_iff_eq. rewrite bool_decide_eq_true, Z.leb_le. dlia. }
  { intros k Hk. apply later_view; [lia|]. intros i Hi Ei. dlia. }
  replace (start / 64 + -1 * Z.of_nat (Z.to_nat (start / 64 + 1))) with (-1) in Er by lia.
  rewrite Er. cbn [mbind outcome_bind].
  assert (∀ i, 0 ≤ i ≤ start → start / 64 - m < i / 64 → is_val val i = false) as Hafter.
  { intros i Hi Hg'. specialize (Hno (start / 64 - i / 64) i ltac:(dlia) ltac:(lia) ltac:(lia)).
    unfold q in Hno. by rewrite bool_decide_true in Hno by lia. }
  destruct r as [[gi' g']|]; cbn [negb andb].
  - destruct Hr as (Hm' & -> & Hg' & Hv). destruct (group_view_last q (start / 64 + -1 * m) g' ltac:(lia) Hg' Hv) as (Ep & Hq & Habove).
    set (pos := (start / 64 + -1 * m) * 64 + fls_lu g') in *.
    assert (bool_decide (pos ≤ start) = true ∧ is_val val pos = true) as [Hsp Hvp] by (by apply andb_true_iff).
    apply bool_decide_eq_true in Hsp. assert (0 ≤ pos) by dlia.
    rewrite u64_small, i64_small by (unfold is_u64; lia).
    exists pos. split; [done|]. split_and!; [lia|lia| |done].
    intros i Hi. destruct (Z.lt_ge_cases (start / 64 - m) (i / 64)); [by apply Hafter; lia|].
    specialize (Habove i ltac:(dlia)). unfold q in Habove. by rewrite bool_decide_true in Habove by lia.
  - exists (-1). split; [done|]. split_and!; [lia|lia| |lia]. intros i Hi. apply Hafter; [lia|].
    subst m. dlia.
Qed.
End find.

(** ** Ranges *)

(** [[b, b + l)] is the first run of [p] in [[lo, n)], and it is maximal. *)
Record is_range (p : Z → bool) (lo n b l : Z) : Prop := {
  ir_lo : lo ≤ b;
  ir_pos : 0 < l;
  ir_hi : b + l ≤ n;
  ir_none : ∀ i, lo ≤ i < b → p i = false;
  ir_all : ∀ i, b ≤ i < b + l → p i = true;
  ir_end : b + l < n → p (b + l) = false
}.

(** The same for the last run in [[0, hi]]. *)
Record is_rrange (p : Z → bool) (hi b l : Z) : Prop := {
  irr_lo : 0 ≤ b;
  irr_pos : 0 < l;
  irr_hi : b + l ≤ hi + 1;
  irr_none : ∀ i, b + l ≤ i ≤ hi → p i = false;
  irr_all : ∀ i, b ≤ i < b + l → p i = true;
  irr_end : 0 < b → p (b - 1) = false
}.

(** The length of the longest run in [[0, n)]. *)
Definition is_longest (p : Z → bool) (n L : Z) : Prop :=
  (∀ b l, 0 ≤ b → b + l ≤ n → (∀ i, b ≤ i < b + l → p i = true) → l ≤ L) ∧
  ∃ b, 0 ≤ b ∧ 0 ≤ L ∧ b + L ≤ n ∧ ∀ i, b ≤ i < b + L → p i = true.

Lemma is_longest_unique p n L L' : is_longest p n L → is_longest p n L' → L = L'.
Proof. intros [H1 (b & ? & ? & ? & ?)] [H1' (b' & ? & ? & ? & ?)]. apply Z.le_antisymm; eauto. Qed.

Lemma is_longest_ext p q n L : (∀ i, 0 ≤ i < n → p i = q i) → is_longest p n L → is_longest q n L.
Proof.
  intros E [H1 (b & ? & ? & ? & H2)]. split.
  - intros b' l Hb Hl Hall. apply (H1 b' l); try done. intros i Hi. rewrite E by lia. by apply Hall.
  - exists b. split_and!; try done. intros i Hi. rewrite <- E by lia. by apply H2.
Qed.

Section iter.
Context (n : Z) (fb : list Z).
Hypothesis Hn : n < 2 ^ 63.
Hypothesis Hfb : fb_ok n fb.

Lemma is_val_negb val i : is_val fb (negb val) i = negb (is_val fb val i).
Proof. unfold is_val. by destruct (fbit fb i), val. Qed.

Lemma fb_iter_range_forward val start :
  0 ≤ start < n →
  ∃ r, fb_iter_range_impl fb n start val true = Done r ∧
    match r with
    | Some (b, l) => is_range (is_val fb val) start n b l
    | None => ∀ i, start ≤ i < n → is_val fb val i = false
    end.
Proof.
  intros Hs. unfold fb_iter_range_impl.
  destruct (fb_find_forward n fb Hn Hfb val start Hs) as (b & Eb & Hb1 & Hb2 & Hb3).
  rewrite Eb. cbn [mbind outcome_bind andb orb negb]. rewrite orb_false_r, i64_small by lia.
  destruct (Z.eqb_spec b n) as [->|Hne]; [by exists None|].
  rewrite (u64_small b) by (unfold is_u64; lia).
  destruct (fb_find_forward n fb Hn Hfb (negb val) b ltac:(lia)) as (e & Ee & He1 & He2 & He3).
  rewrite Ee. cbn [mbind outcome_bind]. rewrite u64_small by (unfold is_u64; lia).
  exists (Some (b, e - b)). split; [done|]. specialize (Hb3 ltac:(lia)).
  assert (e ≠ b) by (intros ->; specialize (He3 ltac:(lia)); rewrite is_val_negb, Hb3 in He3; done).
  split; try lia; try done.
  - intros i Hi. specialize (He2 i ltac:(lia)). rewrite is_val_negb in He2. by destruct (is_val fb val i).
  - intros Hlt. replace (b + (e - b)) with e by lia. specialize (He3 ltac:(lia)).
    rewrite is_val_negb in He3. by destruct (is_val fb val e).
Qed.

Lemma fb_iter_range_backward val start :
  0 ≤ start < n →
  ∃ r, fb_iter_range_impl fb n start val false = Done r ∧
    match r with
    | Some (b, l) => is_rrange (is_val fb val) start b l
    | None => ∀ i, 0 ≤ i ≤ start → is_val fb val i = false
    end.
Proof.
  intros Hs. unfold fb_iter_range_impl.
  destruct (fb_find_backward n fb Hn Hfb val start Hs) as (b & Eb & Hb1 & Hb2 & Hb3).
  rewrite Eb. cbn [mbind outcome_bind andb orb negb].
  destruct (Z.eqb_spec b (-1)) as [->|Hne]; [exists None; split; [done|]; intros i Hi; apply Hb2; lia|].
  rewrite (u64_small b) by (unfold is_u64; lia).
  destruct (fb_find_backward n fb Hn Hfb (negb val) b ltac:(lia)) as (e & Ee & He1 & He2 & He3).
  rewrite Ee. cbn [mbind outcome_bind]. rewrite !u64_small by (unfold is_u64; lia).
  exists (Some (e + 1, b - e)). split; [done|]. specialize (Hb3 ltac:(lia)).
  assert (e ≠ b) by (intros ->; specialize (He3 ltac:(lia)); rewrite is_val_negb, Hb3 in He3; done).
  split; try lia.
  - intros i Hi. apply Hb2. lia.
  - intros i Hi. specialize (He2 i ltac:(lia)). rewrite is_val_negb in He2. by destruct (is_val fb val i).
  - intros Hlt. replace (e + 1 - 1) with e by lia. specialize (He3 ltac:(lia)).
    rewrite is_val_negb in He3. by destruct (is_val fb val e).
Qed.

(** Every run that starts before [begin] is no longer than the one known. *)
Lemma range_longest_ok val fuel begin L :
  0 ≤ begin ≤ n → (Z.to_nat (n - begin) ≤ fuel)%nat →
  (∀ b l, 0 ≤ b < begin → b + l ≤ n → (∀ i, b ≤ i < b + l → is_val fb val i = true) → l ≤ L) →
  (∃ b, 0 ≤ b ∧ 0 ≤ L ∧ b + L ≤ n ∧ ∀ i, b ≤ i < b + L → is_val fb val i = true) →
  ∃ L', range_longest fuel fb n val begin L = Done L' ∧ is_longest (is_val fb val) n L'.
Proof.
  revert begin L. induction fuel as [|fuel IH]; intros begin L Hb Hf Hmax Hex; simpl range_longest;
    destruct (Z.leb_spec n begin) as [Hdone|Hmore]; try lia.
  1, 2: exists L; split; [done|]; split; [|done]; intros b l Hb' Hbl Hall;
    destruct (Z.lt_ge_cases b begin); [by apply (Hmax b l)|]; destruct Hex as (? & ? & ? & ?); lia.
  destruct (fb_iter_range_forward val begin ltac:(lia)) as (r & Er & Hr). rewrite Er. cbn [mbind outcome_bind].
  assert (∀ b l e, begin ≤ b → (∀ i, begin ≤ i < e → is_val fb val i = false) → b < e →
    (∀ i, b ≤ i < b + l → is_val fb val i = true) → l ≤ 0) as Hshort.
  { intros b l e Hbe Hno Hlt Hall. destruct (Z.le_gt_cases l 0); [done|].
    specialize (Hno b ltac:(lia)). rewrite Hall in Hno by lia. done. }
  assert (0 ≤ L) by (by destruct Hex as (? & ? & ? & ?)).
  destruct r as [[b0 l0]|].
  - destruct Hr as [H1 H2 H3 H4 H5 H6]. rewrite u64_small by (unfold is_u64; lia). apply IH; [lia|lia| |].
    + intros b l Hb' Hbl Hall.
      destruct (Z.lt_ge_cases b begin); [specialize (Hmax b l ltac:(lia) Hbl Hall); case_match; lia|].
      destruct (Z.lt_ge_cases b b0); [specialize (Hshort b l b0 ltac:(lia) H4 ltac:(lia) Hall); case_match; lia|].
      assert (l ≤ l0); [|case_match; lia].
      destruct (Z.le_gt_cases l l0); [done|]. specialize (H6 ltac:(lia)). rewrite Hall in H6 by lia. done.
    + destruct (Z.ltb_spec L l0); [|done]. exists b0. by split_and!; try lia.
  - exists L. split; [done|]. split; [|done]. intros b l Hb' Hbl Hall.
    destruct (Z.lt_ge_cases b begin); [by apply (Hmax b l)|].
    destruct (Z.lt_ge_cases b n); [|lia]. specialize (Hshort b l n ltac:(lia) Hr ltac:(lia) Hall). lia.
Qed.

Lemma fb_range_longest_ok val :
  0 ≤ n → ∃ L, fb_range_longest_impl fb n val = Done L ∧ is_longest (is_val fb val) n L.
Proof.
  intros Hn0. apply range_longest_ok; [lia|lia|intros; lia|].
  exists 0. split_and!; lia.
Qed.
End iter.
