(* ===== verification/FbTheorems.v ===== *)
(** * Theorems about flat bitmaps *)
From stdpp Require Import base list numbers.
From S2P Require Import Prelude BitUtil SizeClass Fb FbFacts.

(** ** Single bits *)

Lemma fb_ok_nonneg n fb : fb_ok n fb → 0 ≤ FB_NGROUPS n.
Proof. intros H. pose proof (fo_len n fb H). lia. Qed.

Section bits.
Context (n : Z) (fb : list Z) (bit : Z).
Hypothesis Hfb : fb_ok n fb.
Hypothesis Hbit : 0 ≤ bit < n.

Lemma bit_group : ∃ g, group_at fb (bit / 64) = Done g ∧ fb !! Z.to_nat (bit / 64) = Some g ∧ is_u64 g.
Proof. apply (group_some n fb Hfb), (ngroups_index n bit Hbit). Qed.

Lemma shl64_one_bit k i : 0 ≤ k < 64 → 0 ≤ i < 64 → Z.testbit (shl64 1 k) i = (i =? k).
Proof.
  intros Hk Hi. rewrite testbit_shl64, testbit_one by lia. rewrite (proj2 (Z.ltb_lt i 64)) by lia. simpl. lia.
Qed.

Lemma land_one_bit g k : 0 ≤ k < 64 → negb (Z.land g (shl64 1 k) =? 0) = Z.testbit g k.
Proof.
  intros Hk. apply eq_true_iff_eq. rewrite negb_true_iff, Z.eqb_neq.
  destruct (Z.testbit g k) eqn:E; split; try done.
  - intros _ H0. assert (Z.testbit (Z.land g (shl64 1 k)) k = true) as E'.
    { rewrite Z.land_spec, E, shl64_one_bit by lia. simpl. lia. }
    by rewrite H0, Z.bits_0 in E'.
  - intros H. exfalso. apply H. apply Z.bits_inj'. intros i Hi. rewrite Z.land_spec, Z.bits_0.
    destruct (decide (i = k)) as [->|]; [by rewrite E|].
    destruct (Z.lt_ge_cases i 64); [rewrite shl64_one_bit by lia|rewrite (testbit_high (shl64 1 k)) by (try lia; apply shl64_u64)].
    + rewrite (proj2 (Z.eqb_neq i k)) by done. apply andb_false_r.
    + apply andb_false_r.
Qed.

Lemma fb_get_ok : fb_get fb n bit = Done (fbit fb bit).
Proof.
  unfold fb_get. change FB_GROUP_BITS with 64. destruct bit_group as (g & E1 & E2 & Hg). rewrite E1.
  cbn [mbind outcome_bind]. rewrite land_one_bit by dlia. by rewrite (fbit_group fb (bit / 64) g).
Qed.

(** A write of one group that changes one bit. *)
Lemma one_bit_ok g g' val :
  fb !! Z.to_nat (bit / 64) = Some g → is_u64 g' →
  (∀ k, 0 ≤ k < 64 → Z.testbit g' k = if decide (k = bit mod 64) then val else Z.testbit g k) →
  ∃ fb', set_group fb (bit / 64) g' = Done fb' ∧ fb_ok n fb' ∧
    ∀ i, 0 ≤ i → fbit fb' i = if decide (i = bit) then val else fbit fb i.
Proof.
  intros Eg Hg' Hb. pose proof (ngroups_index n bit Hbit). pose proof (fo_len n fb Hfb).
  assert (∀ i, 0 ≤ i → fbit (<[Z.to_nat (bit / 64):=g']> fb) i = if decide (i = bit) then val else fbit fb i) as Hbits.
  { intros i Hi. rewrite fbit_insert by lia. case_decide as Ei.
    - rewrite Hb by dlia. rewrite (fbit_group fb (bit / 64) g i) by done.
      repeat case_decide; try done; dlia.
    - rewrite decide_False by (intros ->; done). done. }
  rewrite set_group_ok by lia. eexists. split_and!; [done| |done]. split.
  - by rewrite length_insert.
  - apply Forall_insert; [apply (fo_u64 n fb Hfb)|done].
  - intros i Hi. rewrite Hbits by lia. rewrite decide_False by lia. by apply (fo_tail n fb Hfb).
Qed.

Lemma fb_set_ok :
  ∃ fb', fb_set fb n bit = Done fb' ∧ fb_ok n fb' ∧
    ∀ i, 0 ≤ i → fbit fb' i = if decide (i = bit) then true else fbit fb i.
Proof.
  unfold fb_set. change FB_GROUP_BITS with 64. destruct bit_group as (g & E1 & E2 & Hg). rewrite E1.
  cbn [mbind outcome_bind]. apply (one_bit_ok g); [done|auto with u64|]. intros k Hk.
  rewrite Z.lor_spec, shl64_one_bit by dlia. case_decide.
  - rewrite (proj2 (Z.eqb_eq _ _)) by done. apply orb_true_r.
  - rewrite (proj2 (Z.eqb_neq _ _)) by done. apply orb_false_r.
Qed.

Lemma fb_unset_ok :
  ∃ fb', fb_unset fb n bit = Done fb' ∧ fb_ok n fb' ∧
    ∀ i, 0 ≤ i → fbit fb' i = if decide (i = bit) then false else fbit fb i.
Proof.
  unfold fb_unset. change FB_GROUP_BITS with 64. destruct bit_group as (g & E1 & E2 & Hg). rewrite E1.
  cbn [mbind outcome_bind]. apply (one_bit_ok g); [done|apply land_u64; [done|apply not64_u64]|]. intros k Hk.
  rewrite Z.land_spec, testbit_not64, shl64_one_bit, (proj2 (Z.ltb_lt k 64)) by dlia. case_decide.
  - rewrite (proj2 (Z.eqb_eq _ _)) by done. apply andb_false_r.
  - rewrite (proj2 (Z.eqb_neq _ _)) by done. apply andb_true_r.
Qed.
End bits.

(** ** Whole bitmaps *)

Lemma fb_init_ok n fb :
  0 ≤ n → Z.of_nat (length fb) = FB_NGROUPS n →
  ∃ fb', fb_init fb n = Done fb' ∧ fb_ok n fb' ∧ ∀ i, fbit fb' i = false.
Proof.
  intros Hn Hl. unfold fb_init. rewrite (proj2 (Z.ltb_ge _ _)) by lia. rewrite drop_ge, app_nil_r by lia.
  assert (∀ i, fbit (replicate (Z.to_nat (FB_NGROUPS n)) 0) i = false) as Hz.
  { intros i. unfold fbit. case_match eqn:E; [|done]. apply lookup_replicate in E as [-> _]. apply Z.bits_0. }
  eexists. split_and!; [done| |done]. split; [rewrite length_replicate; lia|by apply Forall_replicate|done].
Qed.

Lemma groups_are_ok want fb m i :
  0 ≤ i → i + Z.of_nat m ≤ Z.of_nat (length fb) →
  ∃ b, groups_are want fb m i = Done b ∧
    (b = true ↔ ∀ k, i ≤ k < i + Z.of_nat m → fb !! Z.to_nat k = Some want).
Proof.
  revert i. induction m as [|m IH]; intros i Hi Hm; simpl; [exists true; split; [done|]; split; [intros _ k Hk; lia|done]|].
  destruct (group_at_ok fb i ltac:(lia)) as (g & E1 & E2). rewrite E1. cbn [mbind outcome_bind].
  destruct (Z.eqb_spec g want) as [->|Hne]; cbn [negb].
  - destruct (IH (i + 1)) as (b & Eb & Hb); [lia|lia|]. exists b. split; [done|]. rewrite Hb. split; intros H k Hk.
    + destruct (decide (k = i)) as [->|]; [done|]. apply H. lia.
    + apply H. lia.
  - exists false. split; [done|]. split; [done|]. intros H. specialize (H i ltac:(lia)). congruence.
Qed.

Lemma fb_empty_ok n fb :
  0 ≤ n → fb_ok n fb → ∃ b, fb_empty fb n = Done b ∧ (b = true ↔ ∀ i, 0 ≤ i < n → fbit fb i = false).
Proof.
  intros Hn Hfb. pose proof (fo_len n fb Hfb). pose proof (fb_ok_nonneg n fb Hfb). unfold fb_empty.
  destruct (groups_are_ok 0 fb (Z.to_nat (FB_NGROUPS n)) 0) as (b & E & Hb); [lia|lia|].
  exists b. split; [done|]. rewrite Hb. split.
  - intros Hall i Hi. pose proof (ngroups_index n i Hi).
    rewrite (fbit_group fb (i / 64) 0); [apply Z.bits_0|apply Hall; lia|done].
  - intros Hall k Hk. destruct (group_some n fb Hfb k) as (g & _ & Eg & Hg); [lia|]. rewrite Eg. f_equal.
    apply u64_ext; [done|done|]. intros j Hj. rewrite Z.bits_0.
    assert (fbit fb (64 * k + j) = Z.testbit g j) as <-.
    { rewrite (fbit_group fb k g) by (try done; dlia). f_equal. dlia. }
    destruct (Z.lt_ge_cases (64 * k + j) n); [apply Hall; lia|by apply (fo_tail n fb Hfb)].
Qed.

Lemma fb_full_ok n fb :
  0 ≤ n → fb_ok n fb → ∃ b, fb_full fb n = Done b ∧ (b = true ↔ ∀ i, 0 ≤ i < n → fbit fb i = true).
Proof.
  intros Hn Hfb. pose proof (fo_len n fb Hfb). pose proof (ngroups_spec n Hn). unfold fb_full. change FB_GROUP_BITS with 64.
  assert (n mod 64 = n - 64 * (n / 64)) as Em by dlia.
  assert (FB_NGROUPS n = n / 64 + if n mod 64 =? 0 then 0 else 1) as Eg by done.
  replace (if n mod 64 =? 0 then FB_NGROUPS n else FB_NGROUPS n - 1) with (n / 64)
    by (rewrite Eg; destruct (n mod 64 =? 0); lia).
  destruct (groups_are_ok all_ones fb (Z.to_nat (n / 64)) 0) as (b & E & Hb);
    [lia|rewrite Eg in *; destruct (n mod 64 =? 0); dlia|].
  rewrite E. cbn [mbind outcome_bind]. rewrite Z2Nat.id, Z.add_0_l in Hb by dlia.
  assert (b = true ↔ ∀ i, 0 ≤ i < 64 * (n / 64) → fbit fb i = true) as Hlow.
  { rewrite Hb. split; intros Hall k Hk.
    - rewrite (fbit_group fb (k / 64) all_ones) by (try done; apply Hall; dlia). rewrite all_ones_bits; dlia.
    - destruct (group_some n fb Hfb k) as (g & _ & Ek & Hg); [dlia|]. rewrite Ek. f_equal.
      apply u64_ext; [done|apply all_ones_u64|]. intros j Hj. rewrite all_ones_bits, (proj2 (Z.ltb_lt j 64)) by lia.
      rewrite <- (Hall (64 * k + j)) by dlia. rewrite (fbit_group fb k g) by (try done; dlia). f_equal. dlia. }
  clear Hb. destruct b; cbn [negb].
  - destruct (Z.eqb_spec (n mod 64) 0) as [E0|E0].
    + exists true. split; [done|]. rewrite Hlow. by replace (64 * (n / 64)) with n by lia.
    + destruct (group_some n fb Hfb (FB_NGROUPS n - 1)) as (g & Eat & Ek & Hg); [dlia|]. rewrite Eat. cbn [mbind outcome_bind].
      eexists. split; [done|]. rewrite Z.eqb_eq. replace (FB_NGROUPS n - 1) with (n / 64) in Ek by lia.
      assert (∀ j, 0 ≤ j < 64 → fbit fb (64 * (n / 64) + j) = Z.testbit g j) as Hv.
      { intros j Hj. rewrite (fbit_group fb (n / 64) g) by (try done; dlia). f_equal. dlia. }
      split.
      * intros -> i Hi. destruct (Z.lt_ge_cases i (64 * (n / 64))); [by apply Hlow; [|lia]|].
        replace i with (64 * (n / 64) + (i - 64 * (n / 64))) by lia. rewrite Hv, below_mask by dlia. lia.
      * intros Hall. apply u64_ext; [done|apply u64_range|]. intros j Hj. rewrite <- Hv, below_mask by dlia.
        destruct (Z.ltb_spec j (n mod 64)); [apply Hall; dlia|apply (fo_tail n fb Hfb); lia].
  - exists false. split; [done|]. split; [done|]. intros Hall. apply Hlow. intros i Hi. apply Hall. dlia.
Qed.

(** ** Bitwise operations *)

Lemma fill_groups_ok f F m i dst :
  0 ≤ i → i + Z.of_nat m ≤ Z.of_nat (length dst) →
  (∀ k, i ≤ k < i + Z.of_nat m → f k = Done (F k)) →
  ∃ dst', fill_groups f m i dst = Done dst' ∧ length dst' = length dst ∧
    (∀ k, i ≤ k < i + Z.of_nat m → dst' !! Z.to_nat k = Some (F k)) ∧
    (∀ k, 0 ≤ k < i → dst' !! Z.to_nat k = dst !! Z.to_nat k).
Proof.
  revert i dst. induction m as [|m IH]; intros i dst Hi Hm Hf; simpl.
  - exists dst. split_and!; try done. intros; lia.
  - rewrite Hf by lia. cbn [mbind outcome_bind]. rewrite set_group_ok by lia. cbn [mbind outcome_bind].
    destruct (IH (i + 1) (<[Z.to_nat i:=F i]> dst)) as (dst' & E & Hl & Hin & Hout);
      [lia|rewrite length_insert; lia|intros; apply Hf; lia|].
    exists dst'. rewrite length_insert in Hl. split_and!; try done.
    + intros k Hk. destruct (decide (k = i)) as [->|]; [|apply Hin; lia].
      rewrite Hout by lia. by rewrite list_lookup_insert_eq by lia.
    + intros k Hk. rewrite Hout by lia. by rewrite list_lookup_insert_ne by lia.
Qed.

(** Filling a bitmap of [n] bits group by group, from a function on the bits. *)
Lemma fill_bits_ok n f F dst (b : Z → bool) :
  0 ≤ n → Z.of_nat (length dst) = FB_NGROUPS n →
  (∀ k, 0 ≤ k < FB_NGROUPS n → f k = Done (F k) ∧ group_view b k (F k)) → (∀ i, n ≤ i → b i = false) →
  ∃ dst', fill_groups f (Z.to_nat (FB_NGROUPS n)) 0 dst = Done dst' ∧ fb_ok n dst' ∧ ∀ i, 0 ≤ i → fbit dst' i = b i.
Proof.
  intros Hn Hl Hf Hb. pose proof (ngroups_spec n Hn). destruct (fill_groups_ok f F (Z.to_nat (FB_NGROUPS n)) 0 dst)
    as (dst' & E & Hl' & Hin & _); [lia|lia|intros k Hk; apply Hf; lia|].
  assert (∀ i, 0 ≤ i → fbit dst' i = b i) as Hbits.
  { intros i Hi. destruct (Z.lt_ge_cases (i / 64) (FB_NGROUPS n)).
    - rewrite (fbit_group dst' (i / 64) (F (i / 64))) by (try done; apply Hin; dlia).
      apply (proj2 (Hf (i / 64) ltac:(dlia))); lia.
    - rewrite Hb by dlia. unfold fbit. rewrite lookup_ge_None_2 by lia. done. }
  exists dst'. split_and!; try done. split; [lia| |].
  - apply Forall_lookup_2. intros k g Eg. pose proof (lookup_lt_Some _ _ _ Eg).
    specialize (Hin (Z.of_nat k) ltac:(lia)). rewrite Nat2Z.id, Eg in Hin. injection Hin as ->. apply Hf. lia.
  - intros i Hi. rewrite Hbits by lia. by apply Hb.
Qed.

Section bitwise.
Context (n : Z) (dst src1 src2 : list Z).
Hypothesis Hn : 0 ≤ n.
Hypothesis Hdst : Z.of_nat (length dst) = FB_NGROUPS n.
Hypothesis H1 : fb_ok n src1.
Hypothesis H2 : fb_ok n src2.

Lemma fbit_view fb k g : is_u64 g → fb !! Z.to_nat k = Some g → group_view (fbit fb) k g.
Proof. intros Hg E. split; [done|]. intros i Hi Ei. by rewrite (fbit_group fb k g). Qed.

(** The two bitwise operations on two sources. *)
Lemma bit_op2_ok op (ob : bool → bool → bool) :
  (∀ x y, is_u64 x → is_u64 y → is_u64 (op x y)) → (∀ x y i, Z.testbit (op x y) i = ob (Z.testbit x i) (Z.testbit y i)) →
  ob false false = false →
  ∃ dst', fill_groups (λ i, g1 ← group_at src1 i; g2 ← group_at src2 i; Done (op g1 g2))
            (Z.to_nat (FB_NGROUPS n)) 0 dst = Done dst' ∧ fb_ok n dst' ∧
    ∀ i, 0 ≤ i → fbit dst' i = ob (fbit src1 i) (fbit src2 i).
Proof.
  intros Hu Hb Hob.
  apply (fill_bits_ok n _ (λ k, op (default 0 (src1 !! Z.to_nat k)) (default 0 (src2 !! Z.to_nat k)))); try done.
  - intros k Hk. destruct (group_some n src1 H1 k Hk) as (g1 & -> & E1 & U1).
    destruct (group_some n src2 H2 k Hk) as (g2 & -> & E2 & U2). cbn [mbind outcome_bind]. rewrite E1, E2.
    split; [done|]. split; [by apply Hu|]. intros i Hi Ei. simpl. by rewrite Hb, !(fbit_group _ k _ i E1), (fbit_group _ k _ i E2).
  - intros i Hi. by rewrite (fo_tail n src1 H1), (fo_tail n src2 H2).
Qed.

Lemma fb_bit_and_ok :
  ∃ dst', fb_bit_and dst src1 src2 n = Done dst' ∧ fb_ok n dst' ∧ ∀ i, 0 ≤ i → fbit dst' i = fbit src1 i && fbit src2 i.
Proof.
  apply bit_op2_ok; [|intros; apply Z.land_spec|done]. intros x y Hx Hy. apply land_u64; [done|apply Hy].
Qed.

Lemma fb_bit_or_ok :
  ∃ dst', fb_bit_or dst src1 src2 n = Done dst' ∧ fb_ok n dst' ∧ ∀ i, 0 ≤ i → fbit dst' i = fbit src1 i || fbit src2 i.
Proof. apply bit_op2_ok; [auto with u64|intros; apply Z.lor_spec|done]. Qed.

(** The negation is a bitmap again when the last group is full. *)
Lemma fb_bit_not_ok :
  n mod 64 = 0 →
  ∃ dst', fb_bit_not dst src1 n = Done dst' ∧ fb_ok n dst' ∧
    ∀ i, 0 ≤ i → fbit dst' i = bool_decide (i < n) && negb (fbit src1 i).
Proof.
  intros Hm. apply (fill_bits_ok n _ (λ k, not64 (default 0 (src1 !! Z.to_nat k)))); try done.
  - intros k Hk. destruct (group_some n src1 H1 k Hk) as (g1 & -> & E1 & U1). cbn [mbind outcome_bind]. rewrite E1.
    split; [done|]. split; [apply not64_u64|]. intros i Hi Ei. simpl. rewrite (fbit_group _ k _ i E1) by done.
    pose proof (ngroups_spec n Hn). rewrite testbit_not64, (proj2 (Z.ltb_lt _ 64)), bool_decide_true by dlia. done.
  - intros i Hi. by rewrite bool_decide_false by lia.
Qed.
End bitwise.

(** ** The contract of the module *)

Lemma is_val_true fb i : is_val fb true i = fbit fb i.
Proof. unfold is_val. by destruct (fbit fb i). Qed.

Lemma is_val_false fb i : is_val fb false i = negb (fbit fb i).
Proof. unfold is_val. by destruct (fbit fb i). Qed.

Lemma is_first_ext p q lo hi r : (∀ i, p i = q i) → is_first p lo hi r → is_first q lo hi r.
Proof. intros E (H1 & H2 & H3). split_and!; try lia; intros; rewrite <- E; auto. Qed.

Lemma is_last_ext p q hi r : (∀ i, p i = q i) → is_last p hi r → is_last q hi r.
Proof. intros E (H1 & H2 & H3). split_and!; try lia; intros; rewrite <- E; auto. Qed.

Lemma is_range_ext p q lo n b l : (∀ i, p i = q i) → is_range p lo n b l → is_range q lo n b l.
Proof. intros E [H1 H2 H3 H4 H5 H6]. split; try done; intros; rewrite <- E; auto. Qed.

Section contract.
Context (n : Z) (fb : list Z).
Hypothesis Hn : 0 ≤ n < 2 ^ 63.
Hypothesis Hfb : fb_ok n fb.

Lemma fb_ffs_ok i : 0 ≤ i < n → ∃ r, fb_ffs fb n i = Done r ∧ is_first (fbit fb) i n r.
Proof.
  intros Hi. destruct (fb_find_forward n fb (proj2 Hn) Hfb true i Hi) as (r & E & Hr).
  exists r. unfold fb_ffs. rewrite E. cbn [mbind outcome_bind]. split.
  - f_equal. apply u64_small. destruct Hr. unfold is_u64. lia.
  - by eapply is_first_ext; [apply is_val_true|].
Qed.

Lemma fb_ffu_ok i : 0 ≤ i < n → ∃ r, fb_ffu fb n i = Done r ∧ is_first (λ i, negb (fbit fb i)) i n r.
Proof.
  intros Hi. destruct (fb_find_forward n fb (proj2 Hn) Hfb false i Hi) as (r & E & Hr).
  exists r. unfold fb_ffu. rewrite E. cbn [mbind outcome_bind]. split.
  - f_equal. apply u64_small. destruct Hr. unfold is_u64. lia.
  - by eapply is_first_ext; [apply is_val_false|].
Qed.

Lemma fb_fls_ok i : 0 ≤ i < n → ∃ r, fb_fls fb n i = Done r ∧ is_last (fbit fb) i r.
Proof.
  intros Hi. destruct (fb_find_backward n fb (proj2 Hn) Hfb true i Hi) as (r & E & Hr).
  exists r. split; [done|]. by eapply is_last_ext; [apply is_val_true|].
Qed.

Lemma fb_flu_ok i : 0 ≤ i < n → ∃ r, fb_flu fb n i = Done r ∧ is_last (λ i, negb (fbit fb i)) i r.
Proof.
  intros Hi. destruct (fb_find_backward n fb (proj2 Hn) Hfb false i Hi) as (r & E & Hr).
  exists r. split; [done|]. by eapply is_last_ext; [apply is_val_false|].
Qed.

Lemma fb_srange_iter_ok i :
  0 ≤ i < n →
  ∃ r, fb_srange_iter fb n i = Done r ∧
    match r with
    | Some (b, l) => is_range (fbit fb) i n b l
    | None => ∀ j, i ≤ j < n → fbit fb j = false
    end.
Proof.
  intros Hi. destruct (fb_iter_range_forward n fb (proj2 Hn) Hfb true i Hi) as (r & E & Hr).
  exists r. split; [done|]. destruct r as [[b l]|].
  - by eapply is_range_ext; [apply is_val_true|].
  - intros j Hj. rewrite <- is_val_true. by apply Hr.
Qed.

Lemma fb_urange_iter_ok i :
  0 ≤ i < n →
  ∃ r, fb_urange_iter fb n i = Done r ∧
    match r with
    | Some (b, l) => is_range (λ j, negb (fbit fb j)) i n b l
    | None => ∀ j, i ≤ j < n → negb (fbit fb j) = false
    end.
Proof.
  intros Hi. destruct (fb_iter_range_forward n fb (proj2 Hn) Hfb false i Hi) as (r & E & Hr).
  exists r. split; [done|]. destruct r as [[b l]|].
  - by eapply is_range_ext; [apply is_val_false|].
  - intros j Hj. rewrite <- is_val_false. by apply Hr.
Qed.

Lemma fb_urange_longest_ok : ∃ L, fb_urange_longest fb n = Done L ∧ is_longest (λ j, negb (fbit fb j)) n L.
Proof.
  destruct (fb_range_longest_ok n fb (proj2 Hn) Hfb false (proj1 Hn)) as (L & E & HL).
  exists L. split; [done|]. eapply is_longest_ext; [|done]. intros. apply is_val_false.
Qed.

Lemma fb_srange_longest_ok : ∃ L, fb_srange_longest fb n = Done L ∧ is_longest (fbit fb) n L.
Proof.
  destruct (fb_range_longest_ok n fb (proj2 Hn) Hfb true (proj1 Hn)) as (L & E & HL).
  exists L. split; [done|]. eapply is_longest_ext; [|done]. intros. apply is_val_true.
Qed.
End contract.

(** The four searches of a flat bitmap find the nearest bit: [fb_ffs] and [fb_ffu]
    the first set and the first unset bit at or after a position, or the number of
    bits; [fb_fls] and [fb_flu] the last one at or before it, or -1. *)
Theorem fb_search_nearest n fb i :
  0 ≤ n < 2 ^ 63 → fb_ok n fb → 0 ≤ i < n →
  (∃ r, fb_ffs fb n i = Done r ∧ is_first (fbit fb) i n r) ∧
  (∃ r, fb_ffu fb n i = Done r ∧ is_first (λ j, negb (fbit fb j)) i n r) ∧
  (∃ r, fb_fls fb n i = Done r ∧ is_last (fbit fb) i r) ∧
  (∃ r, fb_flu fb n i = Done r ∧ is_last (λ j, negb (fbit fb j)) i r).
Proof.
  intros Hn Hfb Hi.
  split_and!; [by apply fb_ffs_ok|by apply fb_ffu_ok|by apply fb_fls_ok|by apply fb_flu_ok].
Qed.

(** Setting or clearing a range of a flat bitmap changes the bits of the range and no
    other, keeps the bitmap well formed, and the count of set (or unset) bits of any range is
    the number of positions in it where the bit is set (or not). *)
Theorem fb_range_bits n fb start cnt :
  0 ≤ n < 2 ^ 63 → fb_ok n fb → 0 ≤ start → 0 < cnt → start + cnt ≤ n →
  (∃ fb', fb_set_range fb n start cnt = Done fb' ∧ fb_ok n fb' ∧
     ∀ i, 0 ≤ i → fbit fb' i = bool_decide (start ≤ i < start + cnt) || fbit fb i) ∧
  (∃ fb', fb_unset_range fb n start cnt = Done fb' ∧ fb_ok n fb' ∧
     ∀ i, 0 ≤ i → fbit fb' i = negb (bool_decide (start ≤ i < start + cnt)) && fbit fb i) ∧
  fb_scount fb n start cnt = Done (count (fbit fb) start (Z.to_nat cnt)) ∧
  fb_ucount fb n start cnt = Done (count (λ i, negb (fbit fb i)) start (Z.to_nat cnt)).
Proof.
  intros Hn Hfb Hs Hc Hsc.
  split_and!; [by apply fb_set_range_ok|by apply fb_unset_range_ok|apply fb_scount_ok|apply fb_ucount_ok]; lia || done.
Qed.

(** C38: the iteration over the ranges of a flat bitmap finds the first run of set
    (or unset) bits from a position, whole, and the longest run is the longest one there is:
    no run is longer and one has that length. *)
Theorem fb_longest_run n fb :
  0 ≤ n < 2 ^ 63 → fb_ok n fb →
  (∃ L, fb_srange_longest fb n = Done L ∧ is_longest (fbit fb) n L) ∧
  (∃ L, fb_urange_longest fb n = Done L ∧ is_longest (λ j, negb (fbit fb j)) n L) ∧
  (∀ i, 0 ≤ i < n →
    ∃ r, fb_srange_iter fb n i = Done r ∧
      match r with
      | Some (b, l) => is_range (fbit fb) i n b l
      | None => ∀ j, i ≤ j < n → fbit fb j = false
      end) ∧
  ∀ i, 0 ≤ i < n →
    ∃ r, fb_urange_iter fb n i = Done r ∧
      match r with
      | Some (b, l) => is_range (λ j, negb (fbit fb j)) i n b l
      | None => ∀ j, i ≤ j < n → fbit fb j = true
      end.
Proof.
  intros Hn Hfb. split_and!; [by apply fb_srange_longest_ok|by apply fb_urange_longest_ok|by apply fb_srange_iter_ok|].
  intros i Hi. destruct (fb_urange_iter_ok n fb Hn Hfb i Hi) as (r & E & Hr). exists r. split; [done|].
  destruct r as [[b l]|]; [done|]. intros j Hj. by apply negb_false_iff, Hr.
Qed.

(** ** A concrete bitmap: 150 bits, 60 to 139 set *)

Definition example_fb : list Z := [0xF000000000000000; 0xFFFFFFFFFFFFFFFF; 0xFFF].

Lemma example_fb_ok : fb_ok 150 example_fb.
Proof.
  split; [done|by repeat constructor|]. intros i Hi. unfold fbit.
  destruct (decide (i / 64 = 2)) as [E|E].
  - rewrite E. simpl. apply (Z.bits_above_log2 0xFFF); [done|]. change (Z.log2 0xFFF) with 11. dlia.
  - rewrite lookup_ge_None_2; [done|]. simpl. dlia.
Qed.

Lemma fb_search_nearest_witness :
  fb_ffs example_fb 150 3 = Done 60 ∧ fb_fls example_fb 150 149 = Done 139 ∧
  ∃ r, fb_ffu example_fb 150 70 = Done r ∧ is_first (λ j, negb (fbit example_fb j)) 70 150 r.
Proof.
  split_and!; [by vm_compute|by vm_compute|].
  exact (proj1 (proj2 (fb_search_nearest 150 example_fb 70 ltac:(lia) example_fb_ok ltac:(lia)))).
Defined.

Lemma fb_range_bits_witness :
  fb_scount example_fb 150 50 90 = Done 80 ∧
  fb_scount example_fb 150 50 90 = Done (count (fbit example_fb) 50 (Z.to_nat 90)).
Proof.
  split; [by vm_compute|].
  exact (proj1 (proj2 (proj2 (fb_range_bits 150 example_fb 50 90 ltac:(lia) example_fb_ok ltac:(lia) ltac:(lia) ltac:(lia))))).
Defined.

Lemma fb_longest_run_witness :
  fb_srange_longest example_fb 150 = Done 80 ∧ fb_urange_longest example_fb 150 = Done 60 ∧
  ∃ L, fb_srange_longest example_fb 150 = Done L ∧ is_longest (fbit example_fb) 150 L.
Proof.
  split_and!; [by vm_compute|by vm_compute|].
  exact (proj1 (fb_longest_run 150 example_fb ltac:(lia) example_fb_ok)).
Defined.

(** The negation of a bitmap whose last group is not full has bits set past its
    end: the one bit of [[1]] negated is clear, yet [fb_empty] denies it. *)
Theorem fb_bit_not_tail :
  fb_bit_not [0] [1] 1 = Done [0xFFFFFFFFFFFFFFFE] ∧
  fb_get [0xFFFFFFFFFFFFFFFE] 1 0 = Done false ∧ fb_empty [0xFFFFFFFFFFFFFFFE] 1 = Done false.
Proof. by vm_compute. Qed.
