(* ===== verification/Hpdata.v ===== *)
(** * Metadata of a huge page, [jemalloc/src/hpdata.c] and [hpdata.h]

    Which pages of a huge page are in use ([active_pages]), which of them the
    operating system may have backed ([touched_pages]), how many they are and how long the
    longest run of unused pages is.  Allocation takes the first run that is long
    enough; purging hands back the pages that are touched but not active.

    The functions are those of a build without [JEMALLOC_DEBUG], where [assert] is
    empty; what the assertions state is what [HpdataTheorems] proves. *)
From stdpp Require Import base list numbers.
From S2P Require Import Prelude BitUtil SizeClass Fb.

Definition LG_HUGEPAGE : Z := 21.
Definition HUGEPAGE : Z := shl64 1 LG_HUGEPAGE.
Definition HUGEPAGE_PAGES : Z := HUGEPAGE / PAGE.

(** The links of the heap and the lists that the page is kept in are not part of
    the record: nothing here reads them. *)
Record hpdata_t := mkHpdata {
  h_address : Z;
  h_age : Z;
  h_huge : bool;
  h_alloc_allowed : bool;
  h_in_psset_alloc_container : bool;
  h_purge_allowed : bool;
  h_hugify_allowed : bool;
  h_time_hugify_allowed : Z;
  h_in_psset_hugify_container : bool;
  h_mid_purge : bool;
  h_mid_hugify : bool;
  h_updating : bool;
  h_in_psset : bool;
  h_longest_free_range : Z;
  h_nactive : Z;
  active_pages : list Z;
  h_ntouched : Z;
  touched_pages : list Z
}.

(** What the operations below assign together: the page counts and bitmaps. *)
Definition set_pages (longest nactive : Z) (active : list Z) (ntouched : Z) (touched : list Z) (h : hpdata_t) : hpdata_t :=
  mkHpdata (h_address h) (h_age h) (h_huge h) (h_alloc_allowed h) (h_in_psset_alloc_container h)
    (h_purge_allowed h) (h_hugify_allowed h) (h_time_hugify_allowed h) (h_in_psset_hugify_container h)
    (h_mid_purge h) (h_mid_hugify h) (h_updating h) (h_in_psset h) longest nactive active ntouched touched.

Definition set_huge (huge : bool) (h : hpdata_t) : hpdata_t :=
  mkHpdata (h_address h) (h_age h) huge (h_alloc_allowed h) (h_in_psset_alloc_container h)
    (h_purge_allowed h) (h_hugify_allowed h) (h_time_hugify_allowed h) (h_in_psset_hugify_container h)
    (h_mid_purge h) (h_mid_hugify h) (h_updating h) (h_in_psset h) (h_longest_free_range h) (h_nactive h)
    (active_pages h) (h_ntouched h) (touched_pages h).

(** ** Accessors *)

Definition hpdata_addr_get (h : hpdata_t) : Z := h_address h.
Definition hpdata_age_get (h : hpdata_t) : Z := h_age h.
Definition hpdata_longest_free_range_get (h : hpdata_t) : Z := h_longest_free_range h.
Definition hpdata_nactive_get (h : hpdata_t) : Z := h_nactive h.
Definition hpdata_ntouched_get (h : hpdata_t) : Z := h_ntouched h.
Definition hpdata_ndirty_get (h : hpdata_t) : Z := u64 (h_ntouched h - h_nactive h).
Definition hpdata_nretained_get (h : hpdata_t) : Z := u64 (HUGEPAGE_PAGES - h_ntouched h).
Definition hpdata_empty (h : hpdata_t) : bool := h_nactive h =? 0.
Definition hpdata_full (h : hpdata_t) : bool := h_nactive h =? HUGEPAGE_PAGES.
Definition hpdata_changing_state_get (h : hpdata_t) : bool := h_mid_purge h || h_mid_hugify h.

Definition hpdata_age_comp (a b : hpdata_t) : Z :=
  let a_age := hpdata_age_get a in
  let b_age := hpdata_age_get b in
  Z.b2z (b_age <? a_age) - Z.b2z (a_age <? b_age).

Definition hpdata_consistent (h : hpdata_t) : outcome bool :=
  longest ← fb_urange_longest (active_pages h) HUGEPAGE_PAGES;
  if negb (longest =? hpdata_longest_free_range_get h) then Done false else
  nactive ← fb_scount (active_pages h) HUGEPAGE_PAGES 0 HUGEPAGE_PAGES;
  if negb (nactive =? h_nactive h) then Done false else
  ntouched ← fb_scount (touched_pages h) HUGEPAGE_PAGES 0 HUGEPAGE_PAGES;
  if negb (ntouched =? h_ntouched h) then Done false else
  if h_ntouched h <? h_nactive h then Done false else
  if h_huge h && negb (h_ntouched h =? HUGEPAGE_PAGES) then Done false else
  if hpdata_changing_state_get h && (h_purge_allowed h || h_hugify_allowed h) then Done false else
  if negb (eqb (h_hugify_allowed h) (h_in_psset_hugify_container h)) then Done false else
  Done true.

(** ** Initialisation *)

(** [hpdata_init] over the record found in memory, of which it keeps the time of
    the last permission to hugify. *)
Definition hpdata_init (h : hpdata_t) (addr age : Z) : outcome hpdata_t :=
  active ← fb_init (active_pages h) HUGEPAGE_PAGES;
  touched ← fb_init (touched_pages h) HUGEPAGE_PAGES;
  Done (mkHpdata addr age false true false false false (h_time_hugify_allowed h) false false false false false
          HUGEPAGE_PAGES 0 active 0 touched).

(** ** Allocation *)

(** The first loop of [hpdata_reserve_alloc]: the variables [begin], [len] and
    [largest_unchosen_range] when it ends.  A range that is not found leaves [begin] and
    [len] as they are. *)
Fixpoint reserve_search (fuel : nat) (active : list Z) (npages start begin len largest : Z) :
    outcome (Z * Z * Z) :=
  match fuel with
  | O => Fault Diverges
  | S fuel =>
      r ← fb_urange_iter active HUGEPAGE_PAGES start;
      let '(begin, len) := default (begin, len) r in
      if npages <=? len then Done (begin, len, largest)
      else
        reserve_search fuel active npages (u64 (begin + len)) begin len
          (if largest <? len then len else largest)
  end.

(** The second loop: [largest_unchosen_range] at its end. *)
Fixpoint reserve_rescan (fuel : nat) (active : list Z) (longest start largest : Z) : outcome Z :=
  if HUGEPAGE_PAGES <=? start then Done largest
  else
    match fuel with
    | O => Fault Diverges
    | S fuel =>
        r ← fb_urange_iter active HUGEPAGE_PAGES start;
        match r with
        | None => Done largest
        | Some (begin, len) =>
            if len =? longest then Done len
            else reserve_rescan fuel active longest (u64 (begin + len)) (if largest <? len then len else largest)
        end
    end.

Definition hpdata_reserve_alloc (h : hpdata_t) (sz : Z) : outcome (Z * hpdata_t) :=
  let npages := Z.shiftr sz LG_PAGE in
  '(result, len, largest_unchosen_range) ←
    reserve_search (S (Z.to_nat HUGEPAGE_PAGES)) (active_pages h) npages 0 0 0 0;
  active ← fb_set_range (active_pages h) HUGEPAGE_PAGES result npages;
  let nactive := u64 (h_nactive h + npages) in
  new_dirty ← fb_ucount (touched_pages h) HUGEPAGE_PAGES result npages;
  touched ← fb_set_range (touched_pages h) HUGEPAGE_PAGES result npages;
  let ntouched := u64 (h_ntouched h + new_dirty) in
  longest ←
    (if len =? hpdata_longest_free_range_get h then
       reserve_rescan (Z.to_nat HUGEPAGE_PAGES) active (hpdata_longest_free_range_get h)
         (u64 (result + npages)) largest_unchosen_range
     else Done (hpdata_longest_free_range_get h));
  Done (u64 (hpdata_addr_get h + shl64 result LG_PAGE),
        set_pages longest nactive active ntouched touched h).

Definition hpdata_unreserve (h : hpdata_t) (addr sz : Z) : outcome hpdata_t :=
  let begin := Z.shiftr (u64 (addr - hpdata_addr_get h)) LG_PAGE in
  let npages := Z.shiftr sz LG_PAGE in
  let old_longest_range := hpdata_longest_free_range_get h in
  active ← fb_unset_range (active_pages h) HUGEPAGE_PAGES begin npages;
  last_active ← fb_fls active HUGEPAGE_PAGES begin;
  let new_begin := u64 (last_active + 1) in
  new_end ← fb_ffs active HUGEPAGE_PAGES (u64 (begin + npages - 1));
  let new_range_len := u64 (new_end - new_begin) in
  Done (set_pages (if old_longest_range <? new_range_len then new_range_len else old_longest_range)
          (u64 (h_nactive h - npages)) active (h_ntouched h) (touched_pages h) h).

(** ** Purging *)

Record hpdata_purge_state_t := mkPurge {
  npurged : Z;
  ndirty_to_purge : Z;
  to_purge : list Z;
  next_purge_search_begin : Z
}.

(** The loop of [hpdata_purge_begin]: every step moves past an active page. *)
Fixpoint purge_gather (fuel : nat) (active dirty_pages to_purge : list Z) (next_bit : Z) : outcome (list Z) :=
  if HUGEPAGE_PAGES <=? next_bit then Done to_purge
  else
    match fuel with
    | O => Fault Diverges
    | S fuel =>
        next_dirty ← fb_ffs dirty_pages HUGEPAGE_PAGES next_bit;
        if next_dirty =? HUGEPAGE_PAGES then Done to_purge
        else
          next_active ← fb_ffs active HUGEPAGE_PAGES next_dirty;
          last_dirty ← fb_fls dirty_pages HUGEPAGE_PAGES (u64 (next_active - 1));
          to_purge ← fb_set_range to_purge HUGEPAGE_PAGES next_dirty (u64 (last_dirty - next_dirty + 1));
          purge_gather fuel active dirty_pages to_purge (u64 (next_active + 1))
    end.

(** [hpdata_purge_begin] over a purge state on the stack, whose bitmap array is
    [mem]; [scratch] is the array [dirty_pages]. *)
Definition hpdata_purge_begin (h : hpdata_t) (scratch mem : list Z) : outcome (Z * hpdata_purge_state_t) :=
  dirty_pages ← fb_init scratch HUGEPAGE_PAGES;
  dirty_pages ← fb_bit_not dirty_pages (active_pages h) HUGEPAGE_PAGES;
  dirty_pages ← fb_bit_and dirty_pages dirty_pages (touched_pages h) HUGEPAGE_PAGES;
  to_purge ← fb_init mem HUGEPAGE_PAGES;
  to_purge ← purge_gather (Z.to_nat HUGEPAGE_PAGES) (active_pages h) dirty_pages to_purge 0;
  let ndirty := u64 (h_ntouched h - h_nactive h) in
  Done (ndirty, mkPurge 0 ndirty to_purge 0).

(** [None] when the C function returns false; otherwise the address and the size of
    the next range to purge, and the new purge state. *)
Definition hpdata_purge_next (h : hpdata_t) (ps : hpdata_purge_state_t) :
    outcome (option (Z * Z * hpdata_purge_state_t)) :=
  if next_purge_search_begin ps =? HUGEPAGE_PAGES then Done None
  else
    r ← fb_srange_iter (to_purge ps) HUGEPAGE_PAGES (next_purge_search_begin ps);
    match r with
    | None => Done None
    | Some (purge_begin, purge_len) =>
        Done (Some (u64 (hpdata_addr_get h + purge_begin * PAGE), u64 (purge_len * PAGE),
          mkPurge (u64 (npurged ps + purge_len)) (ndirty_to_purge ps) (to_purge ps) (u64 (purge_begin + purge_len))))
    end.

Definition hpdata_purge_end (h : hpdata_t) (ps : hpdata_purge_state_t) : outcome (hpdata_t * hpdata_purge_state_t) :=
  kept ← fb_bit_not (to_purge ps) (to_purge ps) HUGEPAGE_PAGES;
  touched ← fb_bit_and (touched_pages h) (touched_pages h) kept HUGEPAGE_PAGES;
  Done (set_pages (h_longest_free_range h) (h_nactive h) (active_pages h)
          (u64 (h_ntouched h - ndirty_to_purge ps)) touched h,
        mkPurge (npurged ps) (ndirty_to_purge ps) kept (next_purge_search_begin ps)).

(** The loop of [hpa_try_purge] that purges the ranges one after the other: the
    ranges handed to the purge hook, and the purge state at its end. *)
Fixpoint purge_ranges (fuel : nat) (h : hpdata_t) (ps : hpdata_purge_state_t) :
    outcome (list (Z * Z) * hpdata_purge_state_t) :=
  match fuel with
  | O => Fault Diverges
  | S fuel =>
      r ← hpdata_purge_next h ps;
      match r with
      | None => Done ([], ps)
      | Some (purge_addr, purge_size, ps) =>
          '(rest, ps) ← purge_ranges fuel h ps;
          Done ((purge_addr, purge_size) :: rest, ps)
      end
  end.

(** ** Huge pages *)

Definition hpdata_hugify (h : hpdata_t) : outcome hpdata_t :=
  touched ← fb_set_range (touched_pages h) HUGEPAGE_PAGES 0 HUGEPAGE_PAGES;
  Done (set_huge true (set_pages (h_longest_free_range h) (h_nactive h) (active_pages h) HUGEPAGE_PAGES touched h)).

Definition hpdata_dehugify (h : hpdata_t) : hpdata_t := set_huge false h.
