(* ===== verification/HpdataTheorems.v ===== *)
(** * Theorems about the metadata of a huge page

    The invariant behind [hpdata_consistent], that every operation of [Hpdata] keeps
    it, what allocation chooses, and that a purge covers exactly the pages it should,
    also when pages are freed while it runs. *)
From stdpp Require Import base list numbers relations.
From S2P Require Import Prelude BitUtil SizeClass Fb FbFacts FbTheorems Hpdata.

Lemma hugepage_pages : HUGEPAGE_PAGES = 512.
Proof. reflexivity. Qed.

Lemma pages_bound : 0 ≤ HUGEPAGE_PAGES < 2 ^ 63.
Proof. rewrite hugepage_pages. lia. Qed.

Lemma pages_whole_groups : HUGEPAGE_PAGES mod 64 = 0.
Proof. reflexivity. Qed.

#[global] Opaque HUGEPAGE_PAGES.

Definition unused (active : list Z) (i : Z) : bool := negb (fbit active i).

(** The number of pages of the huge page that satisfy [p]. *)
Definition npages_where (p : Z → bool) : Z := count p 0 (Z.to_nat HUGEPAGE_PAGES).

Arguments npages_where : simpl never.

Lemma npages_where_ext p q : (∀ i, 0 ≤ i < HUGEPAGE_PAGES → p i = q i) → npages_where p = npages_where q.
Proof. intros E. apply count_ext. rewrite hugepage_pages in *. intros i Hi. apply E. lia. Qed.

Lemma npages_where_split p q r s :
  (∀ i, 0 ≤ i < HUGEPAGE_PAGES → Z.b2z (p i) + Z.b2z (q i) = Z.b2z (r i) + Z.b2z (s i)) →
  npages_where p + npages_where q = npages_where r + npages_where s.
Proof. intros E. apply count_split. rewrite hugepage_pages in *. intros i Hi. apply E. lia. Qed.

Lemma npages_where_bounds p : 0 ≤ npages_where p ≤ HUGEPAGE_PAGES.
Proof. unfold npages_where. pose proof (count_bounds p 0 (Z.to_nat HUGEPAGE_PAGES)). rewrite hugepage_pages in *. lia. Qed.

Lemma npages_where_le p q : (∀ i, 0 ≤ i < HUGEPAGE_PAGES → p i = true → q i = true) → npages_where p ≤ npages_where q.
Proof. intros E. apply count_le. rewrite hugepage_pages in *. intros i Hi. apply E. lia. Qed.

Lemma npages_where_none p : (∀ i, 0 ≤ i < HUGEPAGE_PAGES → p i = false) → npages_where p = 0.
Proof. intros E. unfold npages_where. rewrite (count_const false p); [simpl; lia|]. rewrite hugepage_pages in *. intros i Hi. apply E. lia. Qed.

Lemma npages_where_all p : (∀ i, 0 ≤ i < HUGEPAGE_PAGES → p i = true) → npages_where p = HUGEPAGE_PAGES.
Proof.
  intros E. unfold npages_where. rewrite (count_const true p); rewrite hugepage_pages in *; [simpl Z.b2z; lia|].
  intros i Hi. apply E. lia.
Qed.

Lemma count_full p lo n i : count p lo n = Z.of_nat n → lo ≤ i < lo + Z.of_nat n → p i = true.
Proof.
  revert lo. induction n as [|n IH]; intros lo E Hi; [lia|]. simpl count in E.
  pose proof (count_bounds p (lo + 1) n). destruct (p lo) eqn:Ep; simpl Z.b2z in E; [|lia].
  destruct (decide (i = lo)) as [->|]; [done|]. apply (IH (lo + 1)); lia.
Qed.

Lemma npages_where_full p i : npages_where p = HUGEPAGE_PAGES → 0 ≤ i < HUGEPAGE_PAGES → p i = true.
Proof. intros E Hi. apply (count_full p 0 (Z.to_nat HUGEPAGE_PAGES)); rewrite hugepage_pages in *; [apply E|lia]. Qed.

(** Pages of a range that satisfy [p], counted in the range or in the whole page. *)
Lemma npages_where_range p b l :
  0 ≤ b → 0 ≤ l → b + l ≤ HUGEPAGE_PAGES →
  npages_where (λ i, bool_decide (b ≤ i < b + l) && p i) = count p b (Z.to_nat l).
Proof.
  intros Hb Hl Hbl. unfold npages_where. rewrite (count_window _ _ _ b (Z.to_nat l)).
  - apply count_ext. intros i Hi. by rewrite bool_decide_true by lia.
  - lia.
  - lia.
  - intros i Hi Hout. by rewrite bool_decide_false by lia.
Qed.

Lemma npages_where_below p k :
  0 ≤ k ≤ HUGEPAGE_PAGES → (∀ i, k ≤ i < HUGEPAGE_PAGES → p i = false) → npages_where p = count p 0 (Z.to_nat k).
Proof. intros Hk Hno. apply count_window; [lia|lia|]. intros i Hi Hout. apply Hno. lia. Qed.

#[global] Opaque npages_where.

(** Setting the bits of a range adds the ones that were not set. *)
Lemma npages_set_range fb fb' b l :
  (∀ i, 0 ≤ i → fbit fb' i = bool_decide (b ≤ i < b + l) || fbit fb i) →
  0 ≤ b → 0 ≤ l → b + l ≤ HUGEPAGE_PAGES →
  npages_where (fbit fb') = npages_where (fbit fb) + count (λ i, negb (fbit fb i)) b (Z.to_nat l).
Proof.
  intros Hbits Hb Hl Hbl. rewrite <- npages_where_range by done.
  rewrite <- (Z.add_0_r (npages_where (fbit fb'))), <- (npages_where_none (λ _, false)) by done.
  apply npages_where_split. intros i Hi. rewrite Hbits by lia.
  case_bool_decide; simpl; by destruct (fbit fb i).
Qed.

(** ** The invariant *)

Record hp_ok (h : hpdata_t) : Prop := {
  ho_active : fb_ok HUGEPAGE_PAGES (active_pages h);
  ho_touched : fb_ok HUGEPAGE_PAGES (touched_pages h);
  ho_sub : ∀ i, 0 ≤ i → fbit (active_pages h) i = true → fbit (touched_pages h) i = true;
  ho_nactive : h_nactive h = npages_where (fbit (active_pages h));
  ho_ntouched : h_ntouched h = npages_where (fbit (touched_pages h));
  ho_longest : is_longest (unused (active_pages h)) HUGEPAGE_PAGES (h_longest_free_range h);
  ho_huge : h_huge h = true → h_ntouched h = HUGEPAGE_PAGES;
  ho_changing : hpdata_changing_state_get h = true → h_purge_allowed h = false ∧ h_hugify_allowed h = false;
  ho_container : h_hugify_allowed h = h_in_psset_hugify_container h
}.

Lemma scount_all fb : fb_ok HUGEPAGE_PAGES fb → fb_scount fb HUGEPAGE_PAGES 0 HUGEPAGE_PAGES = Done (npages_where (fbit fb)).
Proof. intros H. apply fb_scount_ok; [apply pages_bound|done|done|done|done]. Qed.

Lemma hp_ok_sub h : hp_ok h → h_nactive h ≤ h_ntouched h.
Proof. intros H. rewrite (ho_nactive h H), (ho_ntouched h H). apply npages_where_le. intros i Hi. apply (ho_sub h H). lia. Qed.

Lemma hp_ok_consistent h : hp_ok h → hpdata_consistent h = Done true.
Proof.
  intros H. unfold hpdata_consistent, hpdata_longest_free_range_get.
  destruct (fb_urange_longest_ok HUGEPAGE_PAGES (active_pages h) pages_bound (ho_active h H)) as (L & EL & HL).
  rewrite EL. cbn [mbind outcome_bind].
  rewrite (is_longest_unique _ _ _ _ HL (ho_longest h H)), Z.eqb_refl. cbn [negb].
  rewrite (scount_all _ (ho_active h H)), (scount_all _ (ho_touched h H)). cbn [mbind outcome_bind].
  rewrite <- (ho_nactive h H), <- (ho_ntouched h H), !Z.eqb_refl. cbn [negb].
  rewrite (proj2 (Z.ltb_ge _ _)) by (by apply hp_ok_sub).
  rewrite <- (ho_container h H). destruct (h_huge h) eqn:Eh; [rewrite (ho_huge h H Eh), Z.eqb_refl|]; cbn [andb negb].
  all: destruct (hpdata_changing_state_get h) eqn:Ec; [destruct (ho_changing h H Ec) as [-> ->]|]; cbn [andb orb].
  all: by try destruct (h_hugify_allowed h).
Qed.

(** ** Runs of free pages *)

Definition run (p : Z → bool) (b l : Z) : Prop := ∀ i, b ≤ i < b + l → p i = true.

(** No run that starts before [s] is longer than [L], and one that ends before [s] is
    as long. *)
Definition scanned (p : Z → bool) (s L : Z) : Prop :=
  (∀ b l, 0 ≤ b < s → b + l ≤ HUGEPAGE_PAGES → run p b l → l ≤ L) ∧
  ∃ b, 0 ≤ b ∧ 0 ≤ L ∧ b + L ≤ s ∧ run p b L.

Lemma run_outside p b l e : b < e → (∀ i, b ≤ i < e → p i = false) → run p b l → l ≤ 0.
Proof.
  intros Hb Hno Hrun. destruct (Z.le_gt_cases l 0); [done|]. specialize (Hrun b ltac:(lia)).
  rewrite Hno in Hrun by lia. done.
Qed.

(** A scan up to [s] goes on over positions where [p] does not hold, and over a
    maximal run. *)
Lemma scanned_skip p s b L : s ≤ b → (∀ i, s ≤ i < b → p i = false) → scanned p s L → scanned p b L.
Proof.
  intros Hsb Hno [H1 (b0 & ? & ? & ? & ?)]. split; [|exists b0; split_and!; try done; lia].
  intros b' l Hb' Hl Hrun. destruct (Z.lt_ge_cases b' s); [by apply (H1 b' l); [lia|..]|].
  assert (l ≤ 0); [|lia]. apply (run_outside p b' l b); [lia|intros; apply Hno; lia|done].
Qed.

Lemma scanned_range p s b l L :
  0 ≤ s → is_range p s HUGEPAGE_PAGES b l → scanned p s L → scanned p (b + l) (if L <? l then l else L).
Proof.
  intros Hs Hr HL. pose proof (scanned_skip p s b L (ir_lo _ _ _ _ _ Hr) (ir_none _ _ _ _ _ Hr) HL) as [H1 (b0 & ? & ? & ? & ?)].
  destruct Hr as [R1 R2 R3 R4 R5 R6]. split.
  - intros b' l' Hb' Hl' Hrun. destruct (Z.lt_ge_cases b' b); [specialize (H1 b' l' ltac:(lia) Hl' Hrun); case_match; lia|].
    assert (l' ≤ l); [|case_match; lia]. destruct (Z.le_gt_cases l' l); [done|].
    specialize (R6 ltac:(lia)). rewrite (Hrun (b + l)) in R6 by lia. done.
  - destruct (Z.ltb_spec L l); [exists b|exists b0]; split_and!; try done; lia.
Qed.

Lemma scanned_longest p L : scanned p HUGEPAGE_PAGES L → is_longest p HUGEPAGE_PAGES L.
Proof.
  intros [H1 (b0 & ? & ? & ? & ?)]. split; [|by exists b0]. intros b l Hb Hl Hrun.
  destruct (Z.lt_ge_cases b HUGEPAGE_PAGES); [by apply (H1 b l)|lia].
Qed.

Lemma scanned_start p : scanned p 0 0.
Proof. split; [intros; lia|]. exists 0. split_and!; try lia. intros i Hi. lia. Qed.

Lemma unused_iter active start :
  fb_ok HUGEPAGE_PAGES active → 0 ≤ start < HUGEPAGE_PAGES →
  ∃ r, fb_urange_iter active HUGEPAGE_PAGES start = Done r ∧
    match r with
    | Some (b, l) => is_range (unused active) start HUGEPAGE_PAGES b l
    | None => ∀ j, start ≤ j < HUGEPAGE_PAGES → unused active j = false
    end.
Proof. intros H Hs. exact (fb_urange_iter_ok HUGEPAGE_PAGES active pages_bound H start Hs). Qed.

(** ** Allocation *)

(** What the first loop finds: [[b, b + l)] is a maximal run, long enough, and [lg] is the
    longest run before it, which is too short. *)
Record chosen (p : Z → bool) (npages b l lg : Z) : Prop := {
  ch_b : 0 ≤ b;
  ch_fits : npages ≤ l;
  ch_end : b + l ≤ HUGEPAGE_PAGES;
  ch_run : run p b l;
  ch_left : 0 < b → p (b - 1) = false;
  ch_right : b + l < HUGEPAGE_PAGES → p (b + l) = false;
  ch_before : scanned p b lg;
  ch_short : lg < npages
}.

Section search.
Context (active : list Z) (npages L : Z).
Hypothesis Hactive : fb_ok HUGEPAGE_PAGES active.
Hypothesis HL : is_longest (unused active) HUGEPAGE_PAGES L.
Hypothesis Hnp : 0 < npages ≤ L.

(** While every run seen is too short, one that fits is ahead. *)
Lemma fit_ahead start lg :
  scanned (unused active) start lg → lg < npages → ∃ b, start ≤ b < HUGEPAGE_PAGES ∧ unused active b = true.
Proof.
  intros [Hmax _] Hlg. destruct HL as [_ (b & Hb & HL0 & HbL & Hrun)]. exists b.
  split; [|apply Hrun; lia]. split; [|lia]. destruct (Z.le_gt_cases start b); [done|].
  specialize (Hmax b L ltac:(lia) HbL Hrun). lia.
Qed.

Lemma reserve_search_ok fuel start begin len lg :
  0 ≤ start → (0 < start → start < HUGEPAGE_PAGES → unused active start = false) →
  (Z.to_nat (HUGEPAGE_PAGES - start) < fuel)%nat → scanned (unused active) start lg → lg < npages →
  ∃ b l lg', reserve_search fuel active npages start begin len lg = Done (b, l, lg') ∧
    chosen (unused active) npages b l lg'.
Proof.
  revert start begin len lg. induction fuel as [|fuel IH]; intros start begin len lg Hs Hbd Hf Hsc Hlg; [lia|].
  destruct (fit_ahead start lg Hsc Hlg) as (b0 & Hb0 & Hfree). pose proof pages_bound.
  destruct (unused_iter active start Hactive) as (r & Er & Hr); [lia|].
  simpl reserve_search. rewrite Er. cbn [mbind outcome_bind].
  destruct r as [[b l]|]; [|rewrite (Hr b0) in Hfree by lia; done]. cbn [default from_option id].
  pose proof Hr as [R1 R2 R3 R4 R5 R6]. destruct (Z.leb_spec npages l) as [Hfit|Hshort].
  - exists b, l, lg. split; [done|]. split; try done; try lia; [|by apply (scanned_skip _ start)].
    intros Hb. destruct (decide (b = start)) as [->|]; [|apply R4; lia].
    specialize (Hbd Hb ltac:(lia)). rewrite (R5 start) in Hbd by lia. done.
  - rewrite u64_small by (unfold is_u64; lia).
    apply IH; [lia|intros _; apply R6|lia|by apply (scanned_range _ start)|case_match; lia].
Qed.
End search.

Section reserve.
Context (p p' : Z → bool) (npages b l lg L : Z).
Hypothesis HL : is_longest p HUGEPAGE_PAGES L.
Hypothesis Hnp : 0 < npages.
Hypothesis Hc : chosen p npages b l lg.
Hypothesis Hp' : ∀ i, 0 ≤ i → p' i = negb (bool_decide (b ≤ i < b + npages)) && p i.

Lemma reserved_run b' l' : 0 ≤ b' → run p' b' l' → run p b' l'.
Proof. intros Hb Hrun i Hi. specialize (Hrun i Hi). rewrite Hp' in Hrun by lia. by apply andb_true_iff in Hrun as [_ ?]. Qed.

(** A longer run elsewhere is untouched. *)
Lemma reserved_elsewhere : l ≠ L → is_longest p' HUGEPAGE_PAGES L.
Proof.
  intros Hne. destruct HL as [Hmax (b0 & Hb0 & HL0 & HbL & Hrun)]. destruct Hc as [C1 C2 C3 C4 C5 C6 C7 C8].
  assert (l ≤ L) by (by apply (Hmax b l)).
  split; [intros b' l' Hb' Hl' Hr; apply (Hmax b' l'); [done|done|by apply reserved_run]|].
  exists b0. split_and!; try done. intros i Hi. rewrite Hp', (Hrun i) by lia. rewrite bool_decide_false; [done|].
  intros Hin. destruct (Z.lt_ge_cases b0 b).
  - specialize (C5 ltac:(lia)). rewrite (Hrun (b - 1)) in C5 by lia. done.
  - specialize (C6 ltac:(lia)). rewrite (Hrun (b + l)) in C6 by lia. done.
Qed.

(** After the allocation nothing is longer than [lg] up to its end. *)
Lemma reserved_scanned : scanned p' (b + npages) lg.
Proof.
  destruct Hc as [C1 C2 C3 C4 C5 C6 [H1 (b0 & ? & ? & ? & Hrun)] C8].
  apply (scanned_skip p' b); [lia|intros i Hi; rewrite Hp', bool_decide_true by lia; done|]. split.
  - intros b' l' Hb' Hl' Hr. apply (H1 b' l'); [lia|lia|apply reserved_run; [lia|done]].
  - exists b0. split_and!; try done. intros i Hi. rewrite Hp', bool_decide_false, (Hrun i) by lia. done.
Qed.
End reserve.

Lemma reserve_rescan_ok fuel active L start lg :
  fb_ok HUGEPAGE_PAGES active → 0 ≤ start → (Z.to_nat (HUGEPAGE_PAGES - start) ≤ fuel)%nat →
  start ≤ HUGEPAGE_PAGES → scanned (unused active) start lg →
  (∀ b l, 0 ≤ b → b + l ≤ HUGEPAGE_PAGES → run (unused active) b l → l ≤ L) →
  ∃ L', reserve_rescan fuel active L start lg = Done L' ∧ is_longest (unused active) HUGEPAGE_PAGES L'.
Proof.
  intros Hactive. revert start lg. induction fuel as [|fuel IH]; intros start lg Hs Hf Hse Hsc Hmax; simpl reserve_rescan;
    destruct (Z.leb_spec HUGEPAGE_PAGES start); try lia;
    try (exists lg; split; [done|]; apply scanned_longest; by replace HUGEPAGE_PAGES with start by lia).
  pose proof pages_bound.
  destruct (unused_iter active start Hactive) as (r & Er & Hr); [lia|].
  rewrite Er. cbn [mbind outcome_bind]. destruct r as [[b l]|].
  - pose proof Hr as [R1 R2 R3 R4 R5 R6]. destruct (Z.eqb_spec l L) as [->|Hne].
    + exists L. split; [done|]. split; [done|]. exists b. split_and!; try lia. done.
    + rewrite u64_small by (unfold is_u64; lia). apply IH; [lia|lia|lia|by apply (scanned_range _ start)|done].
  - exists lg. split; [done|]. apply scanned_longest. apply (scanned_skip _ start); [lia|done|done].
Qed.

Lemma pages_of_size npages : 0 ≤ npages → Z.shiftr (npages * PAGE) LG_PAGE = npages.
Proof. intros H. rewrite Z.shiftr_div_pow2 by (unfold LG_PAGE; lia). change PAGE with (2 ^ LG_PAGE). by apply Z.div_mul. Qed.

Lemma page_offset b : 0 ≤ b ≤ HUGEPAGE_PAGES → shl64 b LG_PAGE = b * PAGE.
Proof.
  intros Hb. rewrite hugepage_pages in Hb. unfold shl64, LG_PAGE. rewrite Z.shiftl_mul_pow2 by lia.
  change PAGE with (2 ^ 12). rewrite u64_small; [done|]. unfold is_u64. lia.
Qed.

(** The flags an operation on the pages does not look at. *)
Lemma hp_ok_set_pages h longest nactive active ntouched touched :
  hp_ok h → fb_ok HUGEPAGE_PAGES active → fb_ok HUGEPAGE_PAGES touched →
  (∀ i, 0 ≤ i → fbit active i = true → fbit touched i = true) →
  nactive = npages_where (fbit active) → ntouched = npages_where (fbit touched) →
  is_longest (unused active) HUGEPAGE_PAGES longest → (h_huge h = true → ntouched = HUGEPAGE_PAGES) →
  hp_ok (set_pages longest nactive active ntouched touched h).
Proof. intros H. intros. split; try assumption; apply H. Qed.

Lemma reserve_ok h npages :
  hp_ok h → 0 < npages ≤ h_longest_free_range h →
  ∃ b l lg h', hpdata_reserve_alloc h (npages * PAGE) = Done (u64 (h_address h + b * PAGE), h') ∧
    chosen (unused (active_pages h)) npages b l lg ∧ hp_ok h' ∧
    (∀ i, 0 ≤ i → fbit (active_pages h') i = bool_decide (b ≤ i < b + npages) || fbit (active_pages h) i) ∧
    (∀ i, 0 ≤ i → fbit (touched_pages h') i = bool_decide (b ≤ i < b + npages) || fbit (touched_pages h) i) ∧
    h_nactive h' = h_nactive h + npages ∧ h_address h' = h_address h.
Proof.
  intros H Hnp. unfold hpdata_reserve_alloc, hpdata_longest_free_range_get, hpdata_addr_get.
  rewrite pages_of_size by lia. pose proof pages_bound as Hpb.
  destruct (reserve_search_ok (active_pages h) npages _ (ho_active h H) (ho_longest h H) Hnp
    (S (Z.to_nat HUGEPAGE_PAGES)) 0 0 0 0) as (b & l & lg & Es & Hc); [lia|lia|lia|apply scanned_start|lia|].
  rewrite Es. cbn [mbind outcome_bind]. pose proof Hc as [C1 C2 C3 C4 C5 C6 C7 C8].
  destruct (fb_set_range_ok HUGEPAGE_PAGES (active_pages h) Hpb (ho_active h H) b npages)
    as (active & Ea & Hok & Hbits); [lia..|]. rewrite Ea. cbn [mbind outcome_bind].
  rewrite (fb_ucount_ok HUGEPAGE_PAGES) by (try apply (ho_touched h H); lia). cbn [mbind outcome_bind].
  destruct (fb_set_range_ok HUGEPAGE_PAGES (touched_pages h) Hpb (ho_touched h H) b npages)
    as (touched & Et & Hokt & Hbitst); [lia..|]. rewrite Et. cbn [mbind outcome_bind].
  assert (∀ i, 0 ≤ i → unused active i = negb (bool_decide (b ≤ i < b + npages)) && unused (active_pages h) i) as Hun.
  { intros i Hi. unfold unused. by rewrite Hbits, negb_orb. }
  assert (∃ L', (if l =? h_longest_free_range h
     then reserve_rescan (Z.to_nat HUGEPAGE_PAGES) active (h_longest_free_range h) (u64 (b + npages)) lg
     else Done (h_longest_free_range h)) = Done L' ∧ is_longest (unused active) HUGEPAGE_PAGES L') as (L' & EL & HL').
  { destruct (Z.eqb_spec l (h_longest_free_range h)).
    - rewrite u64_small by (unfold is_u64; lia). apply reserve_rescan_ok; [done|lia|lia|lia| |].
      + apply (reserved_scanned (unused (active_pages h)) _ npages b l lg); [lia|done|done].
      + intros b' l' Hb' Hl' Hr. apply (proj1 (ho_longest h H) b' l'); [done|done|].
        by apply (reserved_run (unused (active_pages h)) (unused active) npages b).
    - eexists. split; [done|].
      by apply (reserved_elsewhere (unused (active_pages h)) _ npages b l lg); [apply (ho_longest h H)|..]. }
  rewrite EL. cbn [mbind outcome_bind]. rewrite page_offset by lia.
  assert (npages_where (fbit active) = h_nactive h + npages) as Hna.
  { rewrite (ho_nactive h H), (npages_set_range _ _ b npages Hbits) by lia.
    rewrite (count_const true); [simpl Z.b2z; lia|]. intros i Hi. apply C4. lia. }
  assert (npages_where (fbit touched) = h_ntouched h + count (λ i, negb (fbit (touched_pages h) i)) b (Z.to_nat npages)) as Hnt
    by (rewrite (ho_ntouched h H); apply npages_set_range; [done|lia..]).
  pose proof (npages_where_bounds (fbit active)). pose proof (npages_where_bounds (fbit touched)).
  rewrite (u64_small (h_nactive h + npages)), (u64_small (h_ntouched h + _)) by (unfold is_u64; lia).
  eexists b, l, lg, _. split_and!; [done|done| |done|done|done|done].
  apply hp_ok_set_pages; try assumption; try (symmetry; assumption).
  - intros i Hi. rewrite Hbits, Hbitst by done. case_bool_decide; [done|]. simpl. by apply (ho_sub h H).
  - intros Hh. rewrite <- Hnt. apply npages_where_all. intros i Hi. rewrite Hbitst by lia.
    apply orb_true_iff. right. apply npages_where_full; [|done]. by rewrite <- (ho_ntouched h H), (ho_huge h H).
Qed.

(** ** Deallocation *)

Lemma address_offset a x : 0 ≤ x < 2 ^ 64 → u64 (u64 (a + x) - a) = x.
Proof.
  intros Hx. unfold u64. rewrite Zminus_mod_idemp_l. replace (a + x - a) with x by lia. by apply Z.mod_small.
Qed.

(** The run around the freed range, from after [c] up to [e], against the longest. *)
Lemma freed_longest p p' b npages c e L :
  is_longest p HUGEPAGE_PAGES L → 0 ≤ b → 0 < npages → b + npages ≤ HUGEPAGE_PAGES →
  (∀ i, 0 ≤ i → p' i = bool_decide (b ≤ i < b + npages) || p i) →
  is_last (λ i, negb (p' i)) b c → is_first (λ i, negb (p' i)) (b + npages - 1) HUGEPAGE_PAGES e →
  is_longest p' HUGEPAGE_PAGES (if L <? e - (c + 1) then e - (c + 1) else L).
Proof.
  intros [Hmax (b0 & Hb0 & HL0 & HbL & Hrun0)] Hb Hnp Hbn Hp' (Hc1 & Hc2 & Hc3) (He1 & He2 & He3).
  assert (c ≠ b) by (intros ->; specialize (Hc3 Hb); rewrite Hp', bool_decide_true in Hc3 by lia; done).
  assert (e ≠ b + npages - 1) by (intros ->; specialize (He3 ltac:(lia)); rewrite Hp', bool_decide_true in He3 by lia; done).
  split.
  - intros b' l' Hb' Hl' Hrun. destruct (decide (b' < b + npages ∧ b < b' + l')) as [Hin|Hout].
    + assert (c < b').
      { destruct (Z.lt_ge_cases c b'); [done|]. specialize (Hc3 ltac:(lia)). rewrite (Hrun c) in Hc3 by lia. done. }
      assert (b' + l' ≤ e).
      { destruct (Z.le_gt_cases (b' + l') e); [done|]. specialize (He3 ltac:(lia)). rewrite (Hrun e) in He3 by lia. done. }
      case_match; lia.
    + assert (l' ≤ L); [|case_match; lia]. apply (Hmax b' l'); [done|done|]. intros i Hi. specialize (Hrun i Hi).
      by rewrite Hp', bool_decide_false in Hrun by lia.
  - destruct (Z.ltb_spec L (e - (c + 1))); [exists (c + 1)|exists b0]; split_and!; try lia.
    + intros i Hi. destruct (Z.le_gt_cases i b); [apply negb_false_iff, Hc2; lia|].
      destruct (Z.lt_ge_cases i (b + npages)); [by rewrite Hp', bool_decide_true by lia|].
      apply negb_false_iff, He2. lia.
    + intros i Hi. rewrite Hp', (Hrun0 i Hi) by lia. apply orb_true_r.
Qed.

Lemma unreserve_ok h b npages :
  hp_ok h → 0 ≤ b → 0 < npages → b + npages ≤ HUGEPAGE_PAGES →
  (∀ i, b ≤ i < b + npages → fbit (active_pages h) i = true) →
  ∃ h', hpdata_unreserve h (u64 (h_address h + b * PAGE)) (npages * PAGE) = Done h' ∧ hp_ok h' ∧
    (∀ i, 0 ≤ i → fbit (active_pages h') i = negb (bool_decide (b ≤ i < b + npages)) && fbit (active_pages h) i) ∧
    touched_pages h' = touched_pages h ∧ h_nactive h' = h_nactive h - npages.
Proof.
  intros H Hb Hnp Hbn Hin. unfold hpdata_unreserve, hpdata_longest_free_range_get, hpdata_addr_get.
  pose proof pages_bound as Hpb. assert (PAGE = 4096) as HP by done.
  rewrite address_offset by (rewrite hugepage_pages in *; lia). rewrite !pages_of_size by lia.
  destruct (fb_unset_range_ok HUGEPAGE_PAGES (active_pages h) Hpb (ho_active h H) b npages)
    as (active & Ea & Hok & Hbits); [lia..|]. rewrite Ea. cbn [mbind outcome_bind].
  destruct (fb_fls_ok HUGEPAGE_PAGES active Hpb Hok b ltac:(lia)) as (c & Ec & Hc). rewrite Ec. cbn [mbind outcome_bind].
  rewrite (u64_small (b + npages - 1)) by (unfold is_u64; lia).
  destruct (fb_ffs_ok HUGEPAGE_PAGES active Hpb Hok (b + npages - 1) ltac:(lia)) as (e & Ee & He).
  rewrite Ee. cbn [mbind outcome_bind]. pose proof (proj1 Hc). pose proof (proj1 He).
  assert (c ≠ b) by (intros ->; pose proof (proj2 (proj2 Hc) Hb) as Hx; rewrite Hbits, bool_decide_true in Hx by lia; done).
  rewrite !(u64_small (c + 1)) by (unfold is_u64; lia). rewrite (u64_small (e - _)) by (unfold is_u64; lia).
  assert (∀ i, 0 ≤ i → fbit (active_pages h) i = bool_decide (b ≤ i < b + npages) || fbit active i) as Hback.
  { intros i Hi. rewrite Hbits by done. case_bool_decide; [by apply Hin|done]. }
  assert (npages_where (fbit (active_pages h)) = npages_where (fbit active) + npages) as Hcount.
  { rewrite (npages_set_range _ _ b npages Hback) by lia. rewrite (count_const true); [simpl Z.b2z; lia|].
    intros i Hi. by rewrite Hbits, bool_decide_true by lia. }
  pose proof (npages_where_bounds (fbit active)). rewrite <- (ho_nactive h H) in Hcount.
  rewrite (u64_small (h_nactive h - npages)) by (unfold is_u64; lia).
  eexists. split_and!; [done| |done|done|done].
  apply hp_ok_set_pages; try assumption; try apply (ho_touched h H); try apply (ho_ntouched h H); try apply (ho_huge h H); [|lia|].
  - intros i Hi. rewrite Hbits by done. intros [_ Hx]%andb_true_iff. by apply (ho_sub h H).
  - apply (freed_longest (unused (active_pages h)) _ b npages c e); try assumption; [apply (ho_longest h H)| | |].
    + intros i Hi. unfold unused. rewrite Hbits by done. by case_bool_decide.
    + eapply is_last_ext; [|exact Hc]. intros i. unfold unused. by rewrite negb_involutive.
    + eapply is_first_ext; [|exact He]. intros i. unfold unused. by rewrite negb_involutive.
Qed.

(** ** Initialisation and huge pages *)

Lemma init_ok h addr age :
  Z.of_nat (length (active_pages h)) = FB_NGROUPS HUGEPAGE_PAGES →
  Z.of_nat (length (touched_pages h)) = FB_NGROUPS HUGEPAGE_PAGES →
  ∃ h', hpdata_init h addr age = Done h' ∧ hp_ok h' ∧ h_address h' = addr ∧ h_nactive h' = 0 ∧ h_ntouched h' = 0.
Proof.
  intros Ha Ht. unfold hpdata_init. pose proof pages_bound as Hpb.
  destruct (fb_init_ok HUGEPAGE_PAGES (active_pages h) (proj1 Hpb) Ha) as (active & -> & Hok & Hz). cbn [mbind outcome_bind].
  destruct (fb_init_ok HUGEPAGE_PAGES (touched_pages h) (proj1 Hpb) Ht) as (touched & -> & Hokt & Hzt). cbn [mbind outcome_bind].
  eexists. split_and!; [done| |done|done|done].
  split; cbn [active_pages touched_pages h_nactive h_ntouched h_longest_free_range h_huge h_hugify_allowed h_in_psset_hugify_container];
    [assumption|assumption| | | | |discriminate|discriminate|done].
  - intros i Hi. by rewrite Hz.
  - symmetry. by apply npages_where_none.
  - symmetry. by apply npages_where_none.
  - split; [intros; lia|]. exists 0. split_and!; try lia. intros i Hi. unfold unused. by rewrite Hz.
Qed.

Lemma hugify_ok h :
  hp_ok h → ∃ h', hpdata_hugify h = Done h' ∧ hp_ok h' ∧ h_huge h' = true ∧ active_pages h' = active_pages h.
Proof.
  intros H. unfold hpdata_hugify. pose proof pages_bound as Hpb.
  destruct (fb_set_range_ok HUGEPAGE_PAGES (touched_pages h) Hpb (ho_touched h H) 0 HUGEPAGE_PAGES)
    as (touched & -> & Hok & Hbits); [done..|]. cbn [mbind outcome_bind].
  assert (∀ i, 0 ≤ i < HUGEPAGE_PAGES → fbit touched i = true) as Hall.
  { intros i Hi. by rewrite Hbits, bool_decide_true by lia. }
  eexists. split_and!; [done| |done|done]. split; try apply H; [exact Hok| | |done].
  - intros i Hi E. destruct (Z.lt_ge_cases i HUGEPAGE_PAGES); [apply Hall; simpl; lia|].
    simpl in E. rewrite (fo_tail _ _ (ho_active h H)) in E by done. done.
  - symmetry. by apply npages_where_all.
Qed.

Lemma dehugify_ok h : hp_ok h → hp_ok (hpdata_dehugify h).
Proof. intros H. split; try apply H. done. Qed.
