(* ===== verification/HpdataPurge.v ===== *)
(** * Purging a huge page

    A purge gathers the pages that are touched but not active, hands them to the operating
    system in ranges, and then takes them out of the touched pages.  Pages may be freed
    while it runs; the invariant of [HpdataTheorems] survives every interleaving. *)
From stdpp Require Import base list numbers relations.
From S2P Require Import Prelude BitUtil SizeClass Fb FbFacts FbTheorems Hpdata HpdataTheorems.

(** ** Gathering the pages *)

Section gather.
Context (active dirty : list Z).
Hypothesis Hactive : fb_ok HUGEPAGE_PAGES active.
Hypothesis Hdirty : fb_ok HUGEPAGE_PAGES dirty.
Hypothesis Hsep : ∀ i, 0 ≤ i → fbit dirty i = true → fbit active i = false.

Record gathered (tp : list Z) (next : Z) : Prop := {
  ga_ok : fb_ok HUGEPAGE_PAGES tp;
  ga_inactive : ∀ i, 0 ≤ i → fbit tp i = true → fbit active i = false;
  ga_dirty : ∀ i, 0 ≤ i < next → fbit dirty i = true → fbit tp i = true
}.

Lemma gather_step tp next d a l :
  gathered tp next → 0 ≤ next →
  is_first (fbit dirty) next HUGEPAGE_PAGES d → d < HUGEPAGE_PAGES →
  is_first (fbit active) d HUGEPAGE_PAGES a → is_last (fbit dirty) (a - 1) l →
  d ≤ l ∧ d < a ≤ HUGEPAGE_PAGES ∧ l < a ∧
  ∃ tp', fb_set_range tp HUGEPAGE_PAGES d (l - d + 1) = Done tp' ∧ gathered tp' (a + 1).
Proof.
  intros [G1 G2 G3] Hn (Hd1 & Hd2 & Hd3) Hd (Ha1 & Ha2 & Ha3) (Hl1 & Hl2 & Hl3).
  specialize (Hd3 Hd).
  assert (d ≠ a) by (intros ->; specialize (Ha3 Hd); rewrite Hsep in Ha3 by (done || lia); done).
  assert (d ≤ l).
  { destruct (Z.le_gt_cases d l); [done|]. rewrite (Hl2 d) in Hd3 by lia. done. }
  split_and!; try lia.
  destruct (fb_set_range_ok HUGEPAGE_PAGES tp pages_bound G1 d (l - d + 1)) as (tp' & E & Hok & Hb); [lia..|].
  exists tp'. split; [done|]. split; [done| |].
  - intros i Hi. rewrite Hb by done. case_bool_decide; simpl; [intros _; apply Ha2; lia|by apply G2].
  - intros i Hi Hdi. rewrite Hb by lia. case_bool_decide as Hr; [done|]. simpl.
    destruct (Z.lt_ge_cases i next); [by apply G3; [lia|]|].
    destruct (Z.lt_ge_cases i d); [rewrite Hd2 in Hdi by lia; done|].
    destruct (decide (i = a)) as [->|]; [|rewrite Hl2 in Hdi by lia; done].
    destruct (Z.lt_ge_cases a HUGEPAGE_PAGES) as [Hlt|]; [|rewrite (fo_tail _ _ Hdirty) in Hdi by lia; done].
    specialize (Ha3 Hlt). rewrite Hsep in Ha3 by (done || lia). done.
Qed.

Lemma purge_gather_ok fuel tp next :
  gathered tp next → 0 ≤ next → (Z.to_nat (HUGEPAGE_PAGES - next) ≤ fuel)%nat →
  ∃ tp', purge_gather fuel active dirty tp next = Done tp' ∧ gathered tp' HUGEPAGE_PAGES.
Proof.
  pose proof pages_bound as Hpb. revert tp next. induction fuel as [|fuel IH]; intros tp next HG Hn Hf; simpl purge_gather;
    destruct (Z.leb_spec HUGEPAGE_PAGES next); try lia.
  1, 2: exists tp; split; [done|]; destruct HG; split; try done; intros i Hi; apply ga_dirty0; lia.
  destruct (fb_ffs_ok HUGEPAGE_PAGES dirty Hpb Hdirty next ltac:(lia)) as (d & Ed & Hd). rewrite Ed. cbn [mbind outcome_bind].
  destruct (Z.eqb_spec d HUGEPAGE_PAGES) as [->|Hne].
  - exists tp. split; [done|]. destruct HG as [G1 G2 G3]. split; try done. intros i Hi Hdi.
    destruct (Z.lt_ge_cases i next); [by apply G3; [lia|]|]. rewrite (proj1 (proj2 Hd)) in Hdi by lia. done.
  - pose proof (proj1 Hd). destruct (fb_ffs_ok HUGEPAGE_PAGES active Hpb Hactive d ltac:(lia)) as (a & Ea & Ha).
    rewrite Ea. cbn [mbind outcome_bind]. pose proof (proj1 Ha).
    assert (d ≠ a).
    { intros <-. pose proof (proj2 (proj2 Hd) ltac:(lia)) as Hdd. pose proof (proj2 (proj2 Ha) ltac:(lia)) as Haa.
      rewrite Hsep in Haa by (done || lia). done. }
    rewrite (u64_small (a - 1)) by (unfold is_u64; lia).
    destruct (fb_fls_ok HUGEPAGE_PAGES dirty Hpb Hdirty (a - 1) ltac:(lia)) as (l & El & Hl). rewrite El. cbn [mbind outcome_bind].
    destruct (gather_step tp next d a l) as (S1 & S2 & S3 & tp' & Etp & HG'); [done|lia|done|lia|done|done|].
    rewrite (u64_small (l - d + 1)) by (unfold is_u64; lia). rewrite Etp. cbn [mbind outcome_bind].
    rewrite u64_small by (unfold is_u64; lia). apply IH; [done|lia|lia].
Qed.
End gather.

(** A purged page that is touched is a dirty one. *)
Lemma dirty_bits (active touched purged : bool) :
  (active = true → touched = true) → (purged = true → active = false) →
  (negb active && touched = true → purged = true) →
  Z.b2z (purged && touched) + Z.b2z active = Z.b2z touched + Z.b2z false.
Proof. destruct active, touched, purged; simpl; intuition discriminate. Qed.

(** ** The purge state *)

Record purge_inv (h : hpdata_t) (ps : hpdata_purge_state_t) : Prop := {
  pi_ok : fb_ok HUGEPAGE_PAGES (to_purge ps);
  pi_inactive : ∀ i, 0 ≤ i → fbit (to_purge ps) i = true → fbit (active_pages h) i = false;
  pi_ndirty : ndirty_to_purge ps = npages_where (λ i, fbit (to_purge ps) i && fbit (touched_pages h) i);
  pi_next : 0 ≤ next_purge_search_begin ps ≤ HUGEPAGE_PAGES;
  pi_npurged : npurged ps = count (fbit (to_purge ps)) 0 (Z.to_nat (next_purge_search_begin ps))
}.

Definition room (mem : list Z) : Prop := Z.of_nat (length mem) = FB_NGROUPS HUGEPAGE_PAGES.

Lemma purge_begin_ok h scratch mem :
  hp_ok h → room scratch → room mem →
  ∃ ps, hpdata_purge_begin h scratch mem = Done (h_ntouched h - h_nactive h, ps) ∧ purge_inv h ps ∧
    next_purge_search_begin ps = 0 ∧
    (∀ i, 0 ≤ i < HUGEPAGE_PAGES → fbit (touched_pages h) i = true → fbit (active_pages h) i = false →
       fbit (to_purge ps) i = true).
Proof.
  intros H Hs Hm. unfold hpdata_purge_begin. pose proof pages_bound as Hpb.
  destruct (fb_init_ok HUGEPAGE_PAGES scratch (proj1 Hpb) Hs) as (d0 & -> & Hd0 & _). cbn [mbind outcome_bind].
  destruct (fb_bit_not_ok HUGEPAGE_PAGES d0 (active_pages h) (proj1 Hpb) (fo_len _ _ Hd0) (ho_active h H) pages_whole_groups)
    as (d1 & -> & Hd1 & Hb1). cbn [mbind outcome_bind].
  destruct (fb_bit_and_ok HUGEPAGE_PAGES d1 d1 (touched_pages h) (proj1 Hpb) (fo_len _ _ Hd1) Hd1 (ho_touched h H))
    as (dirty & -> & Hd & Hb). cbn [mbind outcome_bind].
  destruct (fb_init_ok HUGEPAGE_PAGES mem (proj1 Hpb) Hm) as (tp0 & -> & Htp0 & Hz). cbn [mbind outcome_bind].
  assert (∀ i, 0 ≤ i < HUGEPAGE_PAGES → fbit dirty i = negb (fbit (active_pages h) i) && fbit (touched_pages h) i) as Hdirty.
  { intros i Hi. by rewrite Hb, Hb1, bool_decide_true by lia. }
  destruct (purge_gather_ok (active_pages h) dirty (ho_active h H) Hd) with (fuel := Z.to_nat HUGEPAGE_PAGES) (tp := tp0) (next := 0)
    as (tp & -> & [G1 G2 G3]); [| |lia|lia|].
  { intros i Hi Hdi. rewrite Hb, Hb1 in Hdi by done. destruct (fbit (active_pages h) i); [|done].
    by rewrite andb_false_r in Hdi. }
  { split; [done| |intros; lia]. intros i _. by rewrite Hz. }
  cbn [mbind outcome_bind]. pose proof (hp_ok_sub h H). pose proof (npages_where_bounds (fbit (active_pages h))) as Hba.
  pose proof (npages_where_bounds (fbit (touched_pages h))) as Hbt.
  rewrite <- (ho_nactive h H) in Hba. rewrite <- (ho_ntouched h H) in Hbt.
  rewrite u64_small by (unfold is_u64; lia). eexists. split; [done|]. split_and!; [|done|].
  - split; cbn [to_purge ndirty_to_purge next_purge_search_begin npurged]; [done|done| |lia|done].
    rewrite (ho_nactive h H), (ho_ntouched h H). symmetry.
    rewrite <- (Z.add_simpl_r (npages_where _) (npages_where (fbit (active_pages h)))). f_equal.
    rewrite <- (Z.add_0_r (npages_where (fbit (touched_pages h)))), <- (npages_where_none (λ _, false)) by done.
    apply npages_where_split. intros i Hi.
    apply dirty_bits; [apply (ho_sub h H); lia|apply G2; lia|]. rewrite <- Hdirty by done. by apply G3.
  - intros i Hi Ht Ha. apply G3; [done|]. by rewrite Hdirty, Ha, Ht.
Qed.

(** ** Handing out the ranges *)

Lemma purge_next_ok h ps :
  purge_inv h ps →
  ∃ r, hpdata_purge_next h ps = Done r ∧
    match r with
    | None => npurged ps = npages_where (fbit (to_purge ps)) ∧
              ∀ i, next_purge_search_begin ps ≤ i → fbit (to_purge ps) i = false
    | Some (addr, size, ps') => ∃ b l,
        addr = u64 (h_address h + b * PAGE) ∧ size = l * PAGE ∧
        is_range (fbit (to_purge ps)) (next_purge_search_begin ps) HUGEPAGE_PAGES b l ∧
        purge_inv h ps' ∧ to_purge ps' = to_purge ps ∧ next_purge_search_begin ps' = b + l
    end.
Proof.
  intros [P1 P2 P3 P4 P5]. unfold hpdata_purge_next. pose proof pages_bound as Hpb. assert (PAGE = 4096) as HP by done.
  assert ((∀ i, next_purge_search_begin ps ≤ i < HUGEPAGE_PAGES → fbit (to_purge ps) i = false) →
    npurged ps = npages_where (fbit (to_purge ps)) ∧ ∀ i, next_purge_search_begin ps ≤ i → fbit (to_purge ps) i = false) as Hend.
  { intros Hno. split.
    - rewrite P5. symmetry. by apply npages_where_below.
    - intros i Hi. destruct (Z.lt_ge_cases i HUGEPAGE_PAGES); [apply Hno; lia|by apply (fo_tail _ _ P1)]. }
  destruct (Z.eqb_spec (next_purge_search_begin ps) HUGEPAGE_PAGES) as [E|Hne].
  { exists None. split; [done|]. apply Hend. intros i Hi. lia. }
  destruct (fb_srange_iter_ok HUGEPAGE_PAGES (to_purge ps) Hpb P1 (next_purge_search_begin ps) ltac:(lia)) as (r & -> & Hr).
  cbn [mbind outcome_bind]. destruct r as [[b l]|]; [|exists None; split; [done|by apply Hend]].
  pose proof Hr as [R1 R2 R3 R4 R5 R6]. eexists. split; [done|]. cbn beta match. exists b, l.
  rewrite (u64_small (b + l)), (u64_small (l * PAGE)) by (unfold is_u64; rewrite hugepage_pages in *; lia).
  split_and!; try done. split; cbn [to_purge ndirty_to_purge next_purge_search_begin npurged]; try done; [lia|].
  assert (count (fbit (to_purge ps)) 0 (Z.to_nat (b + l)) = npurged ps + l) as Hc.
  { rewrite P5. replace (Z.to_nat (b + l)) with
      (Z.to_nat (next_purge_search_begin ps) + (Z.to_nat (b - next_purge_search_begin ps) + Z.to_nat l))%nat by lia.
    rewrite !count_add, Z.add_0_l. rewrite (count_const false _ (Z.of_nat _)) by (intros; apply R4; lia).
    rewrite (count_const true _ (_ + _)) by (intros; apply R5; lia). simpl Z.b2z. lia. }
  rewrite Hc. apply u64_small. pose proof (count_bounds (fbit (to_purge ps)) 0 (Z.to_nat (b + l))).
  pose proof (count_bounds (fbit (to_purge ps)) 0 (Z.to_nat (next_purge_search_begin ps))).
  unfold is_u64. lia.
Qed.

(** The addresses and sizes of spans of pages. *)
Definition span_range (h : hpdata_t) (s : Z * Z) : Z * Z := (u64 (h_address h + s.1 * PAGE), s.2 * PAGE).

Definition in_span (i : Z) (s : Z * Z) : Prop := s.1 ≤ i < s.1 + s.2.

Lemma purge_ranges_ok fuel h ps :
  purge_inv h ps → (Z.to_nat (HUGEPAGE_PAGES - next_purge_search_begin ps) < fuel)%nat →
  ∃ spans ps', purge_ranges fuel h ps = Done (span_range h <$> spans, ps') ∧
    purge_inv h ps' ∧ to_purge ps' = to_purge ps ∧ ndirty_to_purge ps' = ndirty_to_purge ps ∧
    npurged ps' = npages_where (fbit (to_purge ps)) ∧
    Forall (λ s, next_purge_search_begin ps ≤ s.1) spans ∧
    ∀ i, next_purge_search_begin ps ≤ i → fbit (to_purge ps) i = true ↔ Exists (in_span i) spans.
Proof.
  revert ps. induction fuel as [|fuel IH]; intros ps HI Hf; [lia|]. simpl purge_ranges.
  destruct (purge_next_ok h ps HI) as (r & -> & Hr). cbn [mbind outcome_bind].
  destruct r as [[[addr size] ps1]|].
  - destruct Hr as (b & l & -> & -> & [R1 R2 R3 R4 R5 R6] & HI1 & Etp & En).
    destruct (IH ps1 HI1) as (spans & ps' & -> & HI' & Etp' & End' & Enp & Hge & Hcov); [rewrite En; lia|].
    cbn [mbind outcome_bind]. exists ((b, l) :: spans), ps'. rewrite Etp in *. rewrite En in Hcov, Hge.
    split; [done|]. split; [done|]. split; [done|]. split; [by rewrite End', (pi_ndirty h ps1 HI1), (pi_ndirty h ps HI), Etp|].
    split; [done|]. split; [constructor; [done|]; eapply Forall_impl; [exact Hge|]; simpl; lia|].
    intros i Hi. rewrite Exists_cons. unfold in_span at 1. simpl. destruct (Z.lt_ge_cases i (b + l)).
    + split.
      * intros Hbit. left. split; [|done]. destruct (Z.le_gt_cases b i); [done|]. rewrite R4 in Hbit by lia. done.
      * intros [Hin|Hex]; [by apply R5|]. exfalso. apply Exists_exists in Hex as (s & Hel & Hin').
        rewrite Forall_forall in Hge. specialize (Hge s Hel). unfold in_span in Hin'. lia.
    + rewrite Hcov by lia. split; [by right|]. intros [Hin|?]; [lia|done].
  - destruct Hr as [Enp Hno]. exists [], ps. split; [done|]. split; [done|]. split_and!; try done.
    intros i Hi. rewrite Hno by done. split; [done|]. intros Hex. by apply Exists_nil in Hex.
Qed.

(** Every range is of a page at least. *)
Lemma purge_ranges_count fuel h ps rs ps' :
  purge_inv h ps → purge_ranges fuel h ps = Done (rs, ps') →
  Z.of_nat (length rs) ≤ HUGEPAGE_PAGES - next_purge_search_begin ps ∧ purge_inv h ps'.
Proof.
  revert ps rs. induction fuel as [|fuel IH]; intros ps rs HI; cbn [purge_ranges]; [done|].
  destruct (purge_next_ok h ps HI) as (r & -> & Hr). cbn [mbind outcome_bind]. destruct r as [[[addr size] ps1]|].
  - destruct Hr as (b & l & _ & _ & [R1 R2 R3 R4 R5 R6] & HI1 & _ & En). specialize (IH ps1).
    destruct (purge_ranges fuel h ps1) as [[rest ps2]|]; [|done]. cbn [mbind outcome_bind]. intros [= <- <-].
    destruct (IH rest HI1 eq_refl) as [Hlen HI2]. split; [|done]. cbn [length]. lia.
  - intros [= <- <-]. split; [|done]. pose proof (pi_next h ps HI). cbn [length]. lia.
Qed.

(** ** The end of a purge *)

Lemma purge_end_ok h ps :
  hp_ok h → purge_inv h ps → h_huge h = false →
  ∃ h' ps', hpdata_purge_end h ps = Done (h', ps') ∧ hp_ok h' ∧ active_pages h' = active_pages h ∧
    h_ntouched h' = h_ntouched h - ndirty_to_purge ps ∧
    ∀ i, 0 ≤ i < HUGEPAGE_PAGES →
      fbit (touched_pages h') i = fbit (touched_pages h) i && negb (fbit (to_purge ps) i).
Proof.
  intros H [P1 P2 P3 P4 P5] Hh. unfold hpdata_purge_end. pose proof pages_bound as Hpb.
  destruct (fb_bit_not_ok HUGEPAGE_PAGES (to_purge ps) (to_purge ps) (proj1 Hpb) (fo_len _ _ P1) P1 pages_whole_groups)
    as (kept & -> & Hk & Hbk). cbn [mbind outcome_bind].
  destruct (fb_bit_and_ok HUGEPAGE_PAGES (touched_pages h) (touched_pages h) kept (proj1 Hpb)
    (fo_len _ _ (ho_touched h H)) (ho_touched h H) Hk) as (touched & -> & Ht & Hbt). cbn [mbind outcome_bind].
  assert (∀ i, 0 ≤ i < HUGEPAGE_PAGES → fbit touched i = fbit (touched_pages h) i && negb (fbit (to_purge ps) i)) as Hbits.
  { intros i Hi. by rewrite Hbt, Hbk, bool_decide_true by lia. }
  assert (npages_where (fbit touched) = h_ntouched h - ndirty_to_purge ps) as Hcount.
  { rewrite (ho_ntouched h H), P3.
    pose proof (npages_where_split (fbit touched) (λ i, fbit (to_purge ps) i && fbit (touched_pages h) i)
      (fbit (touched_pages h)) (λ _, false)) as Hsp.
    rewrite (npages_where_none (λ _, false)) in Hsp by done. enough (∀ i, 0 ≤ i < HUGEPAGE_PAGES → _) as Hb%Hsp by lia. intros i Hi.
    rewrite Hbits by done. by destruct (fbit (touched_pages h) i), (fbit (to_purge ps) i). }
  pose proof (npages_where_bounds (fbit touched)).
  rewrite u64_small by (unfold is_u64; lia). eexists _, _. split; [done|]. split; [|split_and!; done].
  apply hp_ok_set_pages; try assumption; try (symmetry; assumption); try apply (ho_active h H);
    try apply (ho_nactive h H); try apply (ho_longest h H); [|by rewrite Hh].
  intros i Hi Ha. destruct (Z.lt_ge_cases i HUGEPAGE_PAGES) as [Hlt|Hge];
    [|rewrite (fo_tail _ _ (ho_active h H)) in Ha by done; done].
  rewrite Hbits, (ho_sub h H i Hi Ha) by lia. destruct (fbit (to_purge ps) i) eqn:Ep; [|done].
  rewrite (P2 i Hi Ep) in Ha. done.
Qed.

(** ** The life of a huge page

    The operations as the shard that owns the page may call them: allocation is not
    allowed while a purge runs, deallocation always is, and the page is taken for an
    ordinary one again before the purge ends. *)
Inductive hp_step : hpdata_t * option hpdata_purge_state_t → hpdata_t * option hpdata_purge_state_t → Prop :=
| hp_alloc h npages addr h' :
    0 < npages ≤ h_longest_free_range h →
    hpdata_reserve_alloc h (npages * PAGE) = Done (addr, h') → hp_step (h, None) (h', None)
| hp_dalloc h ps b npages h' :
    0 ≤ b → 0 < npages → b + npages ≤ HUGEPAGE_PAGES →
    (∀ i, b ≤ i < b + npages → fbit (active_pages h) i = true) →
    hpdata_unreserve h (u64 (h_address h + b * PAGE)) (npages * PAGE) = Done h' → hp_step (h, ps) (h', ps)
| hp_hugify h h' : hpdata_hugify h = Done h' → hp_step (h, None) (h', None)
| hp_dehugify h : hp_step (h, None) (hpdata_dehugify h, None)
| hp_purge_begin h scratch mem ndirty ps :
    room scratch → room mem → hpdata_purge_begin h scratch mem = Done (ndirty, ps) → hp_step (h, None) (h, Some ps)
| hp_purge_next h ps addr size ps' :
    hpdata_purge_next h ps = Done (Some (addr, size, ps')) → hp_step (h, Some ps) (h, Some ps')
| hp_purge_end h ps h' ps' :
    hpdata_purge_end (if h_huge h then hpdata_dehugify h else h) ps = Done (h', ps') → hp_step (h, Some ps) (h', None).

Definition life_inv (s : hpdata_t * option hpdata_purge_state_t) : Prop :=
  hp_ok s.1 ∧ match s.2 with Some ps => purge_inv s.1 ps | None => True end.

Lemma purge_inv_freed h h' ps :
  purge_inv h ps → touched_pages h' = touched_pages h →
  (∀ i, 0 ≤ i → fbit (active_pages h') i = true → fbit (active_pages h) i = true) → purge_inv h' ps.
Proof.
  intros [P1 P2 P3 P4 P5] Et Ha. split; try done; [|by rewrite Et].
  intros i Hi Hp. destruct (fbit (active_pages h') i) eqn:E; [|done]. specialize (Ha i Hi E).
  by rewrite P2 in Ha.
Qed.

(** Two runs of the same operation have the same result. *)
Ltac same_result E E' := rewrite E in E'; injection E'; clear E E'; intros; subst.

Lemma life_inv_step s s' : hp_step s s' → life_inv s → life_inv s'.
Proof.
  intros Hs [H HP]. destruct Hs as [h np addr h' Hnp E|h ps b np h' Hb Hnp Hbn Hact E|h h' E|h|h scratch mem nd ps Hsc Hm E
    |h ps addr size ps' E|h ps h' ps' E]; simpl in H, HP.
  - destruct (reserve_ok h np H Hnp) as (b & l & lg & h1 & E1 & _ & H1 & _). same_result E E1. by split.
  - destruct (unreserve_ok h b np H Hb Hnp Hbn Hact) as (h1 & E1 & H1 & Ha & Ht & _). same_result E E1.
    split; [done|]. simpl. destruct ps as [ps|]; [|done]. apply (purge_inv_freed h); try done.
    intros i Hi. rewrite Ha by done. by intros [_ ?]%andb_true_iff.
  - destruct (hugify_ok h H) as (h1 & E1 & H1 & _). same_result E E1. by split.
  - split; [by apply dehugify_ok|done].
  - destruct (purge_begin_ok h scratch mem H Hsc Hm) as (ps1 & E1 & HI & _). same_result E E1. by split.
  - destruct (purge_next_ok h ps HP) as (r & E1 & Hr). same_result E E1.
    destruct Hr as (b & l & _ & _ & _ & HI & _). by split.
  - assert (hp_ok (if h_huge h then hpdata_dehugify h else h) ∧ purge_inv (if h_huge h then hpdata_dehugify h else h) ps ∧
      h_huge (if h_huge h then hpdata_dehugify h else h) = false) as (H1 & HI1 & Eh).
    { clear E. destruct (h_huge h) eqn:Eh; [|by split_and!]. split; [by apply dehugify_ok|]. split; [|done].
      destruct HP. by split. }
    destruct (purge_end_ok _ ps H1 HI1 Eh) as (h1 & ps1 & E1 & H1' & _). same_result E E1. by split.
Qed.

Lemma life_inv_steps s s' : rtc hp_step s s' → life_inv s → life_inv s'.
Proof. induction 1; eauto using life_inv_step. Qed.

(** C15: the invariant of a huge page's metadata.  Whatever sequence of allocations,
    deallocations, hugifications and purges a page goes through from its initialisation,
    with pages freed in the middle of a purge as well, [hpdata_consistent] holds:
    the cached counts are the numbers of bits, the longest free range is the longest
    there is, a huge page is wholly touched.  No page that is being purged is active. *)
Theorem hpdata_always_consistent h0 addr age h1 h ps :
  room (active_pages h0) → room (touched_pages h0) → hpdata_init h0 addr age = Done h1 →
  rtc hp_step (h1, None) (h, ps) →
  hpdata_consistent h = Done true ∧
  (∀ i, 0 ≤ i → fbit (active_pages h) i = true → fbit (touched_pages h) i = true) ∧
  match ps with
  | Some p => ∀ i, 0 ≤ i → fbit (to_purge p) i = true → fbit (active_pages h) i = false
  | None => True
  end.
Proof.
  intros Ha Ht Ei Hsteps. destruct (init_ok h0 addr age Ha Ht) as (h1' & Ei' & H1 & _).
  rewrite Ei in Ei'. injection Ei' as <-.
  destruct (life_inv_steps _ _ Hsteps (conj H1 I)) as [H HP]. simpl in H, HP.
  split; [by apply hp_ok_consistent|]. split; [apply (ho_sub h H)|].
  destruct ps as [p|]; [apply (pi_inactive h p HP)|done].
Qed.

(** C16: an allocation from a page that has a free range of its size succeeds and takes
    the first fit: the pages it returns were free and are active after it, no earlier
    position would have held it, no other page changes, and the metadata is
    consistent again. *)
Theorem hpdata_reserve_first_fit h npages :
  hp_ok h → 0 < npages ≤ h_longest_free_range h →
  ∃ b h', hpdata_reserve_alloc h (npages * PAGE) = Done (u64 (h_address h + b * PAGE), h') ∧
    0 ≤ b ∧ b + npages ≤ HUGEPAGE_PAGES ∧
    (∀ i, b ≤ i < b + npages → fbit (active_pages h) i = false) ∧
    (∀ b', 0 ≤ b' < b → ¬ (∀ i, b' ≤ i < b' + npages → fbit (active_pages h) i = false)) ∧
    (∀ i, 0 ≤ i → fbit (active_pages h') i = bool_decide (b ≤ i < b + npages) || fbit (active_pages h) i) ∧
    hpdata_consistent h' = Done true.
Proof.
  intros H Hnp. destruct (reserve_ok h npages H Hnp) as (b & l & lg & h' & E & [C1 C2 C3 C4 C5 C6 [C7 _] C8] & H' & Hact & _).
  exists b, h'. split; [done|]. split_and!; [done|lia| | |done|by apply hp_ok_consistent].
  - intros i Hi. apply negb_true_iff, (C4 i). lia.
  - intros b' Hb' Hfree. enough (npages ≤ lg) by lia.
    apply (C7 b' npages); [done|lia|]. intros i Hi. unfold unused. by rewrite Hfree.
Qed.

(** Giving back an allocation undoes it: the same pages are active as before, and the
    count and the longest free range are what they were. *)
Theorem hpdata_reserve_unreserve h npages :
  hp_ok h → 0 < npages ≤ h_longest_free_range h →
  ∃ addr h1 h2, hpdata_reserve_alloc h (npages * PAGE) = Done (addr, h1) ∧
    hpdata_unreserve h1 addr (npages * PAGE) = Done h2 ∧
    (∀ i, 0 ≤ i → fbit (active_pages h2) i = fbit (active_pages h) i) ∧
    h_nactive h2 = h_nactive h ∧ h_longest_free_range h2 = h_longest_free_range h.
Proof.
  intros H Hnp.
  destruct (reserve_ok h npages H Hnp) as (b & l & lg & h1 & E1 & [C1 C2 C3 C4 C5 C6 C7 C8] & H1 & Hact1 & _ & Hn1 & Ea).
  destruct (unreserve_ok h1 b npages H1) as (h2 & E2 & H2 & Hact2 & _ & Hn2); [lia|lia|lia| |].
  { intros i Hi. by rewrite Hact1, bool_decide_true by lia. }
  assert (∀ i, 0 ≤ i → fbit (active_pages h2) i = fbit (active_pages h) i) as Hsame.
  { intros i Hi. rewrite Hact2, Hact1 by done. case_bool_decide; simpl; [|done].
    symmetry. apply negb_true_iff, (C4 i). lia. }
  rewrite Ea in E2. eexists _, h1, h2. split; [done|]. split; [done|]. split; [done|]. split; [lia|].
  apply (is_longest_unique (unused (active_pages h)) HUGEPAGE_PAGES); [|apply (ho_longest h H)].
  eapply is_longest_ext; [|apply (ho_longest h2 H2)]. intros i Hi. unfold unused. rewrite Hsame by lia. done.
Qed.


(** ** A concrete page *)

Definition blank : hpdata_t :=
  mkHpdata 0 0 true false true true true 0 true true true true true 0 77
    (replicate 8 0xFFFF) 99 (replicate 8 0xFFFF).

Definition page0 : hpdata_t :=
  match hpdata_init blank (2 ^ 30) 7 with Done h => h | Fault _ => blank end.

Definition page1 : hpdata_t :=
  match hpdata_reserve_alloc page0 (10 * PAGE) with Done (_, h) => h | Fault _ => blank end.

(** The first six of the ten pages freed again: they are dirty. *)
Definition page2 : hpdata_t :=
  match hpdata_unreserve page1 (2 ^ 30) (6 * PAGE) with Done h => h | Fault _ => blank end.

Lemma blank_room : room (active_pages blank) ∧ room (touched_pages blank).
Proof. by split; vm_compute. Qed.

Lemma page0_ok : hp_ok page0.
Proof. destruct (init_ok blank (2 ^ 30) 7 (proj1 blank_room) (proj2 blank_room)) as (h & E & H & _). unfold page0. by rewrite E. Qed.

Lemma page0_alloc : hp_step (page0, None) (page1, None).
Proof. apply (hp_alloc page0 10 (2 ^ 30)); [by vm_compute|]. by vm_compute. Qed.

Lemma page1_active i : 0 ≤ i < 6 → fbit (active_pages page1) i = true.
Proof.
  intros Hi. assert (i = 0 ∨ i = 1 ∨ i = 2 ∨ i = 3 ∨ i = 4 ∨ i = 5) as Hc by lia.
  by destruct Hc as [->|[->|[->|[->|[->| ->]]]]]; vm_compute.
Qed.

Lemma page1_dalloc : hp_step (page1, None) (page2, None).
Proof.
  apply (hp_dalloc page1 None 0 6); [lia|lia|by vm_compute|intros i Hi; apply page1_active; lia|].
  by vm_compute.
Qed.

Lemma page2_ok : hp_ok page2.
Proof. apply (life_inv_steps (page0, None) (page2, None)); [|split; [apply page0_ok|done]]. eapply rtc_l, rtc_once; [apply page0_alloc|apply page1_dalloc]. Qed.

Lemma hpdata_always_consistent_witness : hpdata_consistent page2 = Done true.
Proof.
  refine (proj1 (hpdata_always_consistent blank (2 ^ 30) 7 page0 page2 None (proj1 blank_room) (proj2 blank_room) _ _)).
  - by vm_compute.
  - eapply rtc_l, rtc_once; [apply page0_alloc|apply page1_dalloc].
Defined.

Lemma hpdata_reserve_first_fit_witness :
  h_longest_free_range page2 = 502 ∧
  ∃ b h', hpdata_reserve_alloc page2 (8 * PAGE) = Done (u64 (2 ^ 30 + b * PAGE), h') ∧ hpdata_consistent h' = Done true.
Proof.
  split; [by vm_compute|].
  destruct (hpdata_reserve_first_fit page2 8 page2_ok) as (b & h' & E & _ & _ & _ & _ & _ & Hc); [by vm_compute|].
  exists b, h'. split; [exact E|exact Hc].
Defined.

Lemma hpdata_reserve_unreserve_witness :
  ∃ addr h1 h2, hpdata_reserve_alloc page2 (8 * PAGE) = Done (addr, h1) ∧
    hpdata_unreserve h1 addr (8 * PAGE) = Done h2 ∧ h_nactive h2 = 4.
Proof.
  destruct (hpdata_reserve_unreserve page2 8 page2_ok) as (addr & h1 & h2 & E1 & E2 & _ & En & _); [by vm_compute|].
  exists addr, h1, h2. split; [exact E1|]. split; [exact E2|]. rewrite En. by vm_compute.
Defined.

