(* ===== verification/Edata.v ===== *)
(** * Extents, [jemalloc/include/jemalloc/internal/edata.h]

    The descriptor of a span of pages.  Eleven fields share the word [e_bits]; the size
    and the serial number of the descriptor share [e_size_esn].  The model is of
    a build without heap profiling, where the part of the descriptor that the slab bitmap
    shares with the profiling data is the bitmap, and it leaves out the links of the
    lists and heaps the descriptor is kept in. *)
From stdpp Require Import base list numbers.
From S2P Require Import Prelude BitUtil SizeClass Sz Fb FbFacts.

(** ** Bit fields *)

Definition MASK (CURRENT_FIELD_WIDTH CURRENT_FIELD_SHIFT : Z) : Z :=
  shl64 (u64 (shl64 1 CURRENT_FIELD_WIDTH - 1)) CURRENT_FIELD_SHIFT.

Record bitfield := mkField { width : Z; shift : Z }.

Definition field_mask (f : bitfield) : Z := MASK (width f) (shift f).

(** [(bits & MASK) >> SHIFT] *)
Definition field_get (f : bitfield) (bits : Z) : Z := Z.shiftr (Z.land bits (field_mask f)) (shift f).

(** [(bits & ~MASK) | ((uint64_t)v << SHIFT)] *)
Definition field_set (f : bitfield) (v bits : Z) : Z :=
  Z.lor (Z.land bits (not64 (field_mask f))) (shl64 v (shift f)).

Definition MALLOCX_ARENA_BITS : Z := 12.

Definition EDATA_BITS_ARENA : bitfield := mkField MALLOCX_ARENA_BITS 0.
Definition EDATA_BITS_SLAB : bitfield := mkField 1 (width EDATA_BITS_ARENA + shift EDATA_BITS_ARENA).
Definition EDATA_BITS_COMMITTED : bitfield := mkField 1 (width EDATA_BITS_SLAB + shift EDATA_BITS_SLAB).
Definition EDATA_BITS_PAI : bitfield := mkField 1 (width EDATA_BITS_COMMITTED + shift EDATA_BITS_COMMITTED).
Definition EDATA_BITS_ZEROED : bitfield := mkField 1 (width EDATA_BITS_PAI + shift EDATA_BITS_PAI).
Definition EDATA_BITS_GUARDED : bitfield := mkField 1 (width EDATA_BITS_ZEROED + shift EDATA_BITS_ZEROED).
Definition EDATA_BITS_STATE : bitfield := mkField 3 (width EDATA_BITS_GUARDED + shift EDATA_BITS_GUARDED).
Definition EDATA_BITS_SZIND : bitfield := mkField (LG_CEIL SC_NSIZES) (width EDATA_BITS_STATE + shift EDATA_BITS_STATE).
Definition EDATA_BITS_NFREE : bitfield := mkField (SC_LG_SLAB_MAXREGS + 1) (width EDATA_BITS_SZIND + shift EDATA_BITS_SZIND).
Definition EDATA_BITS_BINSHARD : bitfield := mkField 6 (width EDATA_BITS_NFREE + shift EDATA_BITS_NFREE).
Definition EDATA_BITS_IS_HEAD : bitfield := mkField 1 (width EDATA_BITS_BINSHARD + shift EDATA_BITS_BINSHARD).

(** ** The descriptor *)

Record edata_t := mkEdata {
  e_bits : Z;
  e_addr : Z;
  e_size_esn : Z;               (* also [e_bsize] *)
  e_ps : Z;
  e_sn : Z;
  e_slab_data : list Z          (* [e_slab_data.bitmap] *)
}.

Definition EDATA_SIZE_MASK : Z := not64 (PAGE - 1).
Definition EDATA_ESN_MASK : Z := PAGE - 1.

(** [extent_state_t], [extent_pai_t] and [extent_head_state_t] by their values. *)
Definition extent_state_active : Z := 0.
Definition extent_state_transition : Z := 4.
Definition EXTENT_PAI_PAC : Z := 0.
Definition EXTENT_PAI_HPA : Z := 1.
Definition EXTENT_IS_HEAD : Z := 1.

(** Assignments to single members. *)
Definition set_bits (f : Z → Z) (e : edata_t) : edata_t :=
  mkEdata (f (e_bits e)) (e_addr e) (e_size_esn e) (e_ps e) (e_sn e) (e_slab_data e).
Definition set_size_esn (z : Z) (e : edata_t) : edata_t :=
  mkEdata (e_bits e) (e_addr e) z (e_ps e) (e_sn e) (e_slab_data e).
Definition set_slab_data (bm : list Z) (e : edata_t) : edata_t :=
  mkEdata (e_bits e) (e_addr e) (e_size_esn e) (e_ps e) (e_sn e) bm.

(** ** Reading *)

Definition edata_arena_ind_get (e : edata_t) : Z := u32 (field_get EDATA_BITS_ARENA (e_bits e)).
Definition edata_szind_get_maybe_invalid (e : edata_t) : Z := u32 (field_get EDATA_BITS_SZIND (e_bits e)).
Definition edata_szind_get (e : edata_t) : Z := edata_szind_get_maybe_invalid e.
Definition edata_usize_get (T : sz_tables) (e : edata_t) : outcome Z := sz_index2size T (edata_szind_get e).
Definition edata_binshard_get (e : edata_t) : Z := u32 (field_get EDATA_BITS_BINSHARD (e_bits e)).
Definition edata_sn_get (e : edata_t) : Z := e_sn e.
Definition edata_state_get (e : edata_t) : Z := field_get EDATA_BITS_STATE (e_bits e).
Definition edata_guarded_get (e : edata_t) : bool := negb (field_get EDATA_BITS_GUARDED (e_bits e) =? 0).
Definition edata_zeroed_get (e : edata_t) : bool := negb (field_get EDATA_BITS_ZEROED (e_bits e) =? 0).
Definition edata_committed_get (e : edata_t) : bool := negb (field_get EDATA_BITS_COMMITTED (e_bits e) =? 0).
Definition edata_pai_get (e : edata_t) : Z := field_get EDATA_BITS_PAI (e_bits e).
Definition edata_slab_get (e : edata_t) : bool := negb (field_get EDATA_BITS_SLAB (e_bits e) =? 0).
Definition edata_nfree_get (e : edata_t) : Z := u32 (field_get EDATA_BITS_NFREE (e_bits e)).
Definition edata_is_head_get (e : edata_t) : bool := negb (field_get EDATA_BITS_IS_HEAD (e_bits e) =? 0).

Definition PAGE_ADDR2BASE (a : Z) : Z := Z.land a (not64 PAGE_MASK).
Definition edata_base_get (e : edata_t) : Z := PAGE_ADDR2BASE (e_addr e).
Definition edata_addr_get (e : edata_t) : Z := e_addr e.
Definition edata_size_get (e : edata_t) : Z := Z.land (e_size_esn e) EDATA_SIZE_MASK.
Definition edata_esn_get (e : edata_t) : Z := Z.land (e_size_esn e) EDATA_ESN_MASK.
Definition edata_bsize_get (e : edata_t) : Z := e_size_esn e.
Definition edata_ps_get (e : edata_t) : Z := e_ps e.
Definition edata_before_get (e : edata_t) : Z := u64 (edata_base_get e - PAGE).
Definition edata_last_get (e : edata_t) : Z := u64 (edata_base_get e + edata_size_get e - PAGE).
Definition edata_past_get (e : edata_t) : Z := u64 (edata_base_get e + edata_size_get e).
Definition edata_slab_data_get (e : edata_t) : list Z := e_slab_data e.

(** ** Writing *)

Definition edata_arena_ind_set (arena_ind : Z) : edata_t → edata_t := set_bits (field_set EDATA_BITS_ARENA arena_ind).
Definition edata_binshard_set (binshard : Z) : edata_t → edata_t := set_bits (field_set EDATA_BITS_BINSHARD binshard).
Definition edata_addr_set (addr : Z) (e : edata_t) : edata_t :=
  mkEdata (e_bits e) addr (e_size_esn e) (e_ps e) (e_sn e) (e_slab_data e).
Definition edata_size_set (size : Z) (e : edata_t) : edata_t :=
  set_size_esn (Z.lor size (Z.land (e_size_esn e) (not64 EDATA_SIZE_MASK))) e.
Definition edata_esn_set (esn : Z) (e : edata_t) : edata_t :=
  set_size_esn (Z.lor (Z.land (e_size_esn e) (not64 EDATA_ESN_MASK)) (Z.land esn EDATA_ESN_MASK)) e.
Definition edata_bsize_set (bsize : Z) (e : edata_t) : edata_t := set_size_esn bsize e.
Definition edata_ps_set (ps : Z) (e : edata_t) : edata_t :=
  mkEdata (e_bits e) (e_addr e) (e_size_esn e) ps (e_sn e) (e_slab_data e).
Definition edata_szind_set (szind : Z) : edata_t → edata_t := set_bits (field_set EDATA_BITS_SZIND szind).
Definition edata_nfree_set (nfree : Z) : edata_t → edata_t := set_bits (field_set EDATA_BITS_NFREE nfree).
Definition edata_nfree_binshard_set (nfree binshard : Z) : edata_t → edata_t :=
  set_bits (λ bits,
    Z.lor (Z.lor (Z.land bits (Z.land (not64 (field_mask EDATA_BITS_NFREE)) (not64 (field_mask EDATA_BITS_BINSHARD))))
             (shl64 binshard (shift EDATA_BITS_BINSHARD)))
      (shl64 nfree (shift EDATA_BITS_NFREE))).
Definition edata_nfree_inc : edata_t → edata_t := set_bits (λ bits, u64 (bits + shl64 1 (shift EDATA_BITS_NFREE))).
Definition edata_nfree_dec : edata_t → edata_t := set_bits (λ bits, u64 (bits - shl64 1 (shift EDATA_BITS_NFREE))).
Definition edata_nfree_sub (n : Z) : edata_t → edata_t := set_bits (λ bits, u64 (bits - shl64 n (shift EDATA_BITS_NFREE))).
Definition edata_sn_set (sn : Z) (e : edata_t) : edata_t :=
  mkEdata (e_bits e) (e_addr e) (e_size_esn e) (e_ps e) sn (e_slab_data e).
Definition edata_state_set (state : Z) : edata_t → edata_t := set_bits (field_set EDATA_BITS_STATE state).
Definition edata_guarded_set (guarded : bool) : edata_t → edata_t := set_bits (field_set EDATA_BITS_GUARDED (Z.b2z guarded)).
Definition edata_zeroed_set (zeroed : bool) : edata_t → edata_t := set_bits (field_set EDATA_BITS_ZEROED (Z.b2z zeroed)).
Definition edata_committed_set (committed : bool) : edata_t → edata_t := set_bits (field_set EDATA_BITS_COMMITTED (Z.b2z committed)).
Definition edata_pai_set (pai : Z) : edata_t → edata_t := set_bits (field_set EDATA_BITS_PAI pai).
Definition edata_slab_set (slab : bool) : edata_t → edata_t := set_bits (field_set EDATA_BITS_SLAB (Z.b2z slab)).
Definition edata_is_head_set (is_head : bool) : edata_t → edata_t := set_bits (field_set EDATA_BITS_IS_HEAD (Z.b2z is_head)).
Definition edata_state_in_transition (state : Z) : bool := extent_state_transition <=? state.

Definition edata_init (arena_ind addr size : Z) (slab : bool) (szind sn state : Z) (zeroed committed : bool)
    (pai is_head : Z) (e : edata_t) : edata_t :=
  let e := edata_arena_ind_set arena_ind e in
  let e := edata_addr_set addr e in
  let e := edata_size_set size e in
  let e := edata_slab_set slab e in
  let e := edata_szind_set szind e in
  let e := edata_sn_set sn e in
  let e := edata_state_set state e in
  let e := edata_guarded_set false e in
  let e := edata_zeroed_set zeroed e in
  let e := edata_committed_set committed e in
  let e := edata_pai_set pai e in
  edata_is_head_set (is_head =? EXTENT_IS_HEAD) e.

Definition edata_binit (addr bsize sn : Z) (e : edata_t) : edata_t :=
  let e := edata_arena_ind_set (u32 (Z.shiftl 1 MALLOCX_ARENA_BITS - 1)) e in
  let e := edata_addr_set addr e in
  let e := edata_bsize_set bsize e in
  let e := edata_slab_set false e in
  let e := edata_szind_set SC_NSIZES e in
  let e := edata_sn_set sn e in
  let e := edata_state_set extent_state_active e in
  let e := edata_guarded_set false e in
  let e := edata_zeroed_set true e in
  let e := edata_committed_set true e in
  edata_pai_set EXTENT_PAI_PAC e.

(** ** Orders *)

(** [(a > b) - (a < b)] *)
Definition three_way (a b : Z) : Z := Z.b2z (b <? a) - Z.b2z (a <? b).

Definition edata_esn_comp (a b : edata_t) : Z := three_way (edata_esn_get a) (edata_esn_get b).

(** [edata_ead_comp] compares the addresses of the descriptors, which are passed along
    with them. *)
Definition edata_ead_comp (a b : Z) : Z := three_way a b.

Record edata_cmp_summary_t := mkSummary { sum_sn : Z; sum_addr : Z }.

Definition edata_cmp_summary_get (e : edata_t) : edata_cmp_summary_t := mkSummary (edata_sn_get e) (edata_addr_get e).

Definition edata_cmp_summary_comp (a b : edata_cmp_summary_t) : Z :=
  let ret := three_way (sum_sn a) (sum_sn b) in
  if negb (ret =? 0) then ret else three_way (sum_addr a) (sum_addr b).

Definition edata_snad_comp (a b : edata_t) : Z :=
  edata_cmp_summary_comp (edata_cmp_summary_get a) (edata_cmp_summary_get b).

Definition edata_esnead_comp (a b : Z * edata_t) : Z :=
  let ret := edata_esn_comp a.2 b.2 in
  if negb (ret =? 0) then ret else edata_ead_comp a.1 b.1.
