(* ===== verification/EdataTheorems.v ===== *)
(** * The bit fields of an extent descriptor do not disturb each other *)
From stdpp Require Import base list numbers.
From S2P Require Import Prelude BitUtil SizeClass Sz Fb FbFacts Edata.

(** ** One field *)

Definition field_ok (f : bitfield) : Prop := 0 ≤ shift f ∧ 0 < width f < 64 ∧ shift f + width f ≤ 64.

Definition in_field (f : bitfield) (v : Z) : Prop := 0 ≤ v < 2 ^ width f.

Lemma field_mask_bits f i :
  field_ok f → 0 ≤ i → Z.testbit (field_mask f) i = bool_decide (shift f ≤ i < shift f + width f).
Proof.
  intros (Hs & Hw & Hsw) Hi. unfold field_mask, MASK. rewrite testbit_shl64 by done.
  destruct (Z.ltb_spec i 64); [|by rewrite bool_decide_false by lia]. simpl.
  destruct (Z.lt_ge_cases (i - shift f) 0); [rewrite Z.testbit_neg_r, bool_decide_false by lia; done|].
  rewrite below_mask by lia. apply eq_true_iff_eq. rewrite bool_decide_eq_true, Z.ltb_lt. lia.
Qed.

Lemma field_mask_u64 f : is_u64 (field_mask f).
Proof. apply shl64_u64. Qed.

Lemma field_get_bits f b i :
  field_ok f → 0 ≤ i → Z.testbit (field_get f b) i = bool_decide (i < width f) && Z.testbit b (i + shift f).
Proof.
  intros Hf Hi. pose proof Hf as (Hs & Hw & Hsw). unfold field_get.
  rewrite Z.shiftr_spec, Z.land_spec, field_mask_bits by (done || lia). rewrite andb_comm. f_equal.
  apply bool_decide_ext. lia.
Qed.

Lemma in_field_high f v i : in_field f v → width f ≤ i → Z.testbit v i = false.
Proof.
  intros [H1 H2] Hi. destruct (Z.eq_dec v 0) as [->|]; [apply Z.bits_0|].
  apply Z.bits_above_log2; [done|]. assert (Z.log2 v < width f) by (apply Z.log2_lt_pow2; lia). lia.
Qed.

Lemma field_set_bits f v b i :
  field_ok f → in_field f v → is_u64 b → 0 ≤ i →
  Z.testbit (field_set f v b) i =
    if decide (shift f ≤ i < shift f + width f) then Z.testbit v (i - shift f) else Z.testbit b i.
Proof.
  intros Hf Hv Hb Hi. pose proof Hf as (Hs & Hw & Hsw). unfold field_set.
  rewrite Z.lor_spec, Z.land_spec, testbit_not64, testbit_shl64, field_mask_bits by done.
  destruct (Z.ltb_spec i 64); simpl.
  - case_decide.
    + rewrite bool_decide_true by done. by rewrite andb_false_r.
    + rewrite bool_decide_false by done. rewrite andb_true_r.
      destruct (Z.lt_ge_cases i (shift f)); [rewrite (Z.testbit_neg_r v) by lia|rewrite (in_field_high f v) by (done || lia)];
        by rewrite orb_false_r.
  - rewrite decide_False by lia. rewrite andb_false_r. by rewrite testbit_high.
Qed.

Lemma field_set_u64 f v b : is_u64 b → is_u64 (field_set f v b).
Proof. intros Hb. unfold field_set. apply lor_u64; [apply land_u64; [done|apply not64_u64]|apply shl64_u64]. Qed.

Lemma field_get_in f b : field_ok f → 0 ≤ b → in_field f (field_get f b).
Proof.
  intros Hf Hb. pose proof Hf as (Hs & Hw & Hsw).
  assert (0 ≤ field_get f b) as H0.
  { unfold field_get. rewrite Z.shiftr_nonneg, Z.land_nonneg. by left. }
  split; [done|]. destruct (Z.eq_dec (field_get f b) 0) as [->|]; [apply Z.pow_pos_nonneg; lia|].
  apply Z.log2_lt_pow2; [lia|]. destruct (Z.lt_ge_cases (Z.log2 (field_get f b)) (width f)); [done|].
  assert (Z.testbit (field_get f b) (Z.log2 (field_get f b)) = true) as E by (apply Z.bit_log2; lia).
  rewrite field_get_bits, bool_decide_false in E by (done || lia). done.
Qed.

Lemma get_set_same f v b : field_ok f → in_field f v → is_u64 b → field_get f (field_set f v b) = v.
Proof.
  intros Hf Hv Hb. pose proof Hf as (Hs & Hw & Hsw). apply Z.bits_inj'. intros i Hi.
  rewrite field_get_bits, field_set_bits by (done || lia). case_bool_decide; simpl.
  - rewrite decide_True by lia. f_equal. lia.
  - by rewrite (in_field_high f v) by (done || lia).
Qed.

Lemma get_set_other f g v b :
  field_ok f → field_ok g → (shift f + width f ≤ shift g ∨ shift g + width g ≤ shift f) →
  in_field g v → is_u64 b → field_get f (field_set g v b) = field_get f b.
Proof.
  intros Hf Hg Hd Hv Hb. pose proof Hf as (Hs & Hw & Hsw). apply Z.bits_inj'. intros i Hi.
  rewrite !field_get_bits, field_set_bits by (done || lia). case_bool_decide; [|done]. simpl.
  by rewrite decide_False by lia.
Qed.

Lemma field_set_set f v w b :
  field_ok f → in_field f v → in_field f w → is_u64 b → field_set f w (field_set f v b) = field_set f w b.
Proof.
  intros Hf Hv Hw Hb. apply Z.bits_inj'. intros i Hi.
  rewrite !field_set_bits by (first [done|by apply field_set_u64]). by case_decide.
Qed.

(** *** Fields as digits *)

Lemma field_set_add f v b :
  field_ok f → in_field f v → is_u64 b → field_set f v b = field_set f 0 b + v * 2 ^ shift f.
Proof.
  intros Hf Hv Hb. pose proof Hf as (Hs & Hw & Hsw).
  assert (in_field f 0) as H0 by (split; [done|apply Z.pow_pos_nonneg; lia]).
  rewrite <- Z.shiftl_mul_pow2 by done.
  assert (Z.land (field_set f 0 b) (Z.shiftl v (shift f)) = 0) as Hz.
  { apply Z.bits_inj'. intros i Hi. rewrite Z.land_spec, Z.bits_0, field_set_bits, Z.shiftl_spec by done.
    case_decide; [by rewrite Z.bits_0|].
    destruct (Z.lt_ge_cases i (shift f)); [rewrite (Z.testbit_neg_r v) by lia|rewrite (in_field_high f v) by (done || lia)];
      apply andb_false_r. }
  rewrite Z.add_nocarry_lxor by done. apply Z.bits_inj'. intros i Hi.
  rewrite Z.lxor_spec, !field_set_bits, Z.shiftl_spec by done. case_decide.
  - by rewrite Z.bits_0, xorb_false_l.
  - destruct (Z.lt_ge_cases i (shift f)); [rewrite (Z.testbit_neg_r v) by lia|rewrite (in_field_high f v) by (done || lia)];
      by rewrite xorb_false_r.
Qed.

Lemma field_set_get f b : field_ok f → is_u64 b → field_set f (field_get f b) b = b.
Proof.
  intros Hf Hb. apply Z.bits_inj'. intros i Hi.
  rewrite field_set_bits by first [done|apply (field_get_in f b Hf (proj1 Hb))]. case_decide as Hr; [|done].
  rewrite field_get_bits, bool_decide_true by (done || lia). simpl. f_equal. lia.
Qed.

(** Adding to the digit of a field is setting the field, as long as the digit
    does not overflow. *)
Lemma field_add f k b :
  field_ok f → is_u64 b → in_field f (field_get f b + k) →
  u64 (b + k * 2 ^ shift f) = field_set f (field_get f b + k) b.
Proof.
  intros Hf Hb Hk. pose proof (field_get_in f b Hf (proj1 Hb)) as Hg.
  rewrite field_set_add by done. rewrite <- (field_set_get f b) at 1 by done. rewrite field_set_add by done.
  replace (field_set f 0 b + field_get f b * 2 ^ shift f + k * 2 ^ shift f)
    with (field_set f 0 b + (field_get f b + k) * 2 ^ shift f) by lia.
  rewrite <- field_set_add by done. apply u64_small, field_set_u64, Hb.
Qed.

(** ** All fields *)

Lemma fields_ok :
  Forall field_ok [EDATA_BITS_ARENA; EDATA_BITS_SLAB; EDATA_BITS_COMMITTED; EDATA_BITS_PAI; EDATA_BITS_ZEROED;
    EDATA_BITS_GUARDED; EDATA_BITS_STATE; EDATA_BITS_SZIND; EDATA_BITS_NFREE; EDATA_BITS_BINSHARD; EDATA_BITS_IS_HEAD].
Proof. repeat constructor; by vm_compute. Qed.

Lemma field_get_small f b : field_ok f → 0 ≤ b → width f ≤ 32 → u32 (field_get f b) = field_get f b.
Proof.
  intros Hf Hb Hw. destruct (field_get_in f b Hf Hb) as [H1 H2]. apply Z.mod_small. split; [done|].
  apply (Z.lt_le_trans _ _ _ H2). apply Z.pow_le_mono_r; lia.
Qed.

Lemma b2z_field f b : 1 ≤ width f → in_field f (Z.b2z b).
Proof.
  intros Hw. assert (2 ^ 1 ≤ 2 ^ width f) by (apply Z.pow_le_mono_r; lia).
  destruct b; simpl; unfold in_field; lia.
Qed.

(** Discharges the side conditions of the lemmas above for the fields of [edata_t]. *)
Ltac field_side :=
  first
    [ match goal with
      | |- field_ok _ => by vm_compute
      | |- is_u64 (field_set _ _ _) => apply field_set_u64; field_side
      | |- in_field _ (Z.b2z _) => apply b2z_field; by vm_compute
      | |- _ ∨ _ => first [left; by vm_compute|right; by vm_compute]
      end
    | assumption ].

Create HintDb edata_fields.
#[export] Hint Rewrite get_set_same get_set_other using field_side : edata_fields.

(** What the descriptor says, field by field. *)
Definition edata_view (e : edata_t) : list Z :=
  (λ f, field_get f (e_bits e)) <$>
    [EDATA_BITS_ARENA; EDATA_BITS_SLAB; EDATA_BITS_COMMITTED; EDATA_BITS_PAI; EDATA_BITS_ZEROED;
     EDATA_BITS_GUARDED; EDATA_BITS_STATE; EDATA_BITS_SZIND; EDATA_BITS_NFREE; EDATA_BITS_BINSHARD; EDATA_BITS_IS_HEAD].

Lemma size_set_get size esn_bits :
  is_u64 size → size mod PAGE = 0 → is_u64 esn_bits →
  Z.land (Z.lor size (Z.land esn_bits (not64 EDATA_SIZE_MASK))) EDATA_SIZE_MASK = size ∧
  Z.land (Z.lor size (Z.land esn_bits (not64 EDATA_SIZE_MASK))) EDATA_ESN_MASK = Z.land esn_bits EDATA_ESN_MASK.
Proof.
  intros Hs Hm He. change PAGE with (2 ^ 12) in Hm.
  assert (∀ i, 0 ≤ i → Z.testbit EDATA_ESN_MASK i = (i <? 12)) as Hesn.
  { intros i Hi. change EDATA_ESN_MASK with (Z.ones 12). by apply testbit_ones. }
  assert (∀ i, 0 ≤ i → Z.testbit EDATA_SIZE_MASK i = (i <? 64) && negb (i <? 12)) as Hsz.
  { intros i Hi. unfold EDATA_SIZE_MASK. rewrite testbit_not64 by done. change (PAGE - 1) with (Z.ones 12). by rewrite testbit_ones. }
  assert (∀ i, 0 ≤ i < 12 → Z.testbit size i = false) as Hlow.
  { intros i Hi. rewrite <- (Z.mod_pow2_bits_low size 12 i), Hm by lia. apply Z.bits_0. }
  split; apply Z.bits_inj'; intros i Hi;
    rewrite ?Z.land_spec, ?Z.lor_spec, ?Z.land_spec, ?testbit_not64, ?Hsz, ?Hesn by done;
    destruct (Z.ltb_spec i 12), (Z.ltb_spec i 64); simpl;
    rewrite ?(Hlow i) by lia; rewrite ?(testbit_high size i), ?(testbit_high esn_bits i) by (done || lia);
    rewrite ?andb_false_r, ?andb_true_r, ?orb_false_r, ?orb_false_l; done || lia.
Qed.

(** The two fields set at once. *)
Lemma nfree_binshard_bits nfree binshard bits :
  is_u64 bits → in_field EDATA_BITS_NFREE nfree → in_field EDATA_BITS_BINSHARD binshard →
  Z.lor (Z.lor (Z.land bits (Z.land (not64 (field_mask EDATA_BITS_NFREE)) (not64 (field_mask EDATA_BITS_BINSHARD))))
           (shl64 binshard (shift EDATA_BITS_BINSHARD)))
    (shl64 nfree (shift EDATA_BITS_NFREE)) =
  field_set EDATA_BITS_NFREE nfree (field_set EDATA_BITS_BINSHARD binshard bits).
Proof.
  intros Hb Hn Hs.
  assert (field_ok EDATA_BITS_NFREE ∧ field_ok EDATA_BITS_BINSHARD) as [Hf1 Hf2] by (by vm_compute).
  assert (shift EDATA_BITS_NFREE + width EDATA_BITS_NFREE ≤ shift EDATA_BITS_BINSHARD) as Hsep by (by vm_compute).
  apply Z.bits_inj'. intros i Hi. unfold field_set.
  rewrite !Z.lor_spec, !Z.land_spec, !Z.lor_spec, !Z.land_spec, !testbit_not64, !testbit_shl64, !field_mask_bits by done.
  destruct (Z.ltb_spec i 64); cbn [andb orb]; [|by rewrite testbit_high].
  destruct (decide (shift EDATA_BITS_NFREE ≤ i < shift EDATA_BITS_NFREE + width EDATA_BITS_NFREE)) as [Hin|Hout].
  - rewrite bool_decide_true by done. cbn [negb andb orb]. rewrite !andb_false_r. cbn [negb andb orb].
    by rewrite (Z.testbit_neg_r binshard) by lia.
  - rewrite bool_decide_false by done. cbn [negb andb orb]. by rewrite andb_true_r.
Qed.

#[global] Opaque field_get field_set.

(** ** Counting the free regions of a slab *)

Section nfree.
Context (e : edata_t).
Hypothesis He : is_u64 (e_bits e).

Lemma nfree_get_field : edata_nfree_get e = field_get EDATA_BITS_NFREE (e_bits e).
Proof. unfold edata_nfree_get. apply field_get_small; [by vm_compute|apply He|by vm_compute]. Qed.

Lemma nfree_shift_one : shl64 1 (shift EDATA_BITS_NFREE) = 2 ^ shift EDATA_BITS_NFREE.
Proof. by vm_compute. Qed.

Lemma nfree_inc_ok : edata_nfree_get e < 2 ^ width EDATA_BITS_NFREE - 1 → edata_nfree_inc e = edata_nfree_set (edata_nfree_get e + 1) e.
Proof.
  intros Hn. rewrite nfree_get_field in *. pose proof (field_get_in EDATA_BITS_NFREE (e_bits e) ltac:(by vm_compute) (proj1 He)) as Hg.
  unfold edata_nfree_inc, edata_nfree_set, set_bits. f_equal. rewrite nfree_shift_one.
  rewrite <- (field_add EDATA_BITS_NFREE 1); [by rewrite Z.mul_1_l|by vm_compute|done|]. unfold in_field in *. lia.
Qed.

Lemma nfree_sub_ok n : 0 ≤ n ≤ edata_nfree_get e → edata_nfree_sub n e = edata_nfree_set (edata_nfree_get e - n) e.
Proof.
  intros Hn. rewrite nfree_get_field in *. pose proof (field_get_in EDATA_BITS_NFREE (e_bits e) ltac:(by vm_compute) (proj1 He)) as Hg.
  unfold edata_nfree_sub, edata_nfree_set, set_bits. f_equal. change (width EDATA_BITS_NFREE) with 10 in *.
  assert (shl64 n (shift EDATA_BITS_NFREE) = n * 2 ^ shift EDATA_BITS_NFREE) as ->.
  { unfold shl64. change (shift EDATA_BITS_NFREE) with 28. rewrite Z.shiftl_mul_pow2 by lia. apply u64_small.
    unfold in_field in Hg. change (width EDATA_BITS_NFREE) with 10 in Hg. unfold is_u64. lia. }
  replace (e_bits e - n * 2 ^ shift EDATA_BITS_NFREE) with (e_bits e + - n * 2 ^ shift EDATA_BITS_NFREE) by lia.
  rewrite <- Z.add_opp_r. apply field_add; [by vm_compute|done|]. unfold in_field in *. lia.
Qed.

Lemma nfree_dec_ok : 0 < edata_nfree_get e → edata_nfree_dec e = edata_nfree_set (edata_nfree_get e - 1) e.
Proof. intros Hn. change (edata_nfree_dec e) with (edata_nfree_sub 1 e). apply nfree_sub_ok. lia. Qed.

Lemma nfree_set_get n : in_field EDATA_BITS_NFREE n → edata_nfree_get (edata_nfree_set n e) = n.
Proof.
  intros Hn. unfold edata_nfree_get. rewrite field_get_small; [|by vm_compute| |by vm_compute].
  - simpl. autorewrite with edata_fields. done.
  - simpl. by apply field_set_u64.
Qed.

Lemma nfree_binshard_ok nfree binshard :
  in_field EDATA_BITS_NFREE nfree → in_field EDATA_BITS_BINSHARD binshard →
  edata_nfree_binshard_set nfree binshard e = edata_nfree_set nfree (edata_binshard_set binshard e).
Proof.
  intros Hn Hs. unfold edata_nfree_binshard_set, edata_nfree_set, edata_binshard_set, set_bits.
  cbn [e_bits e_addr e_size_esn e_ps e_sn e_slab_data]. by rewrite nfree_binshard_bits.
Qed.

Lemma nfree_set_u64 n : is_u64 (e_bits (edata_nfree_set n e)).
Proof. simpl. by apply field_set_u64. Qed.
End nfree.

(** The packed fields of an extent descriptor are independent.  Whatever was in the
    descriptor, [edata_init] with arguments that fit their fields leaves every field
    reading back as what it was given, and leaves the fields it does not name (the
    free count, the bin shard and the descriptor's own serial number) as they were. *)
Theorem edata_init_reads_back arena_ind addr size slab szind sn state zeroed committed pai is_head e :
  is_u64 (e_bits e) → is_u64 (e_size_esn e) →
  in_field EDATA_BITS_ARENA arena_ind → is_u64 size → size mod PAGE = 0 → in_field EDATA_BITS_SZIND szind →
  in_field EDATA_BITS_STATE state → in_field EDATA_BITS_PAI pai →
  let e' := edata_init arena_ind addr size slab szind sn state zeroed committed pai is_head e in
  edata_arena_ind_get e' = arena_ind ∧ edata_addr_get e' = addr ∧ edata_size_get e' = size ∧
  edata_slab_get e' = slab ∧ edata_szind_get e' = szind ∧ edata_sn_get e' = sn ∧ edata_state_get e' = state ∧
  edata_guarded_get e' = false ∧ edata_zeroed_get e' = zeroed ∧ edata_committed_get e' = committed ∧
  edata_pai_get e' = pai ∧ edata_is_head_get e' = (is_head =? EXTENT_IS_HEAD) ∧
  edata_nfree_get e' = edata_nfree_get e ∧ edata_binshard_get e' = edata_binshard_get e ∧
  edata_esn_get e' = edata_esn_get e.
Proof.
  intros Hb He Ha Hs Hm Hz Hst Hp e'. destruct (size_set_get size (e_size_esn e) Hs Hm He) as [Hsize Hesn].
  unfold e', edata_init, edata_arena_ind_get, edata_addr_get, edata_size_get, edata_slab_get, edata_szind_get,
    edata_szind_get_maybe_invalid, edata_sn_get, edata_state_get, edata_guarded_get, edata_zeroed_get, edata_committed_get,
    edata_pai_get, edata_is_head_get, edata_nfree_get, edata_binshard_get, edata_esn_get.
  cbn [e_bits e_addr e_size_esn e_sn edata_arena_ind_set edata_addr_set edata_size_set edata_slab_set edata_szind_set
    edata_sn_set edata_state_set edata_guarded_set edata_zeroed_set edata_committed_set edata_pai_set edata_is_head_set
    set_bits set_size_esn].
  autorewrite with edata_fields. split_and!; try done.
  - apply Z.mod_small. unfold in_field in Ha. change (width EDATA_BITS_ARENA) with 12 in Ha. lia.
  - by destruct slab.
  - apply Z.mod_small. unfold in_field in Hz. change (width EDATA_BITS_SZIND) with 8 in Hz. lia.
  - by destruct zeroed.
  - by destruct committed.
  - by destruct (is_head =? EXTENT_IS_HEAD).
Qed.

Lemma edata_init_reads_back_witness :
  let e' := edata_init 5 0x7000 (4 * PAGE) true 17 3 1 true false EXTENT_PAI_HPA EXTENT_IS_HEAD
              (mkEdata (2 ^ 64 - 1) 0 (2 ^ 64 - 1) 0 0 []) in
  edata_szind_get e' = 17 ∧ edata_size_get e' = 4 * PAGE.
Proof.
  destruct (edata_init_reads_back 5 0x7000 (4 * PAGE) true 17 3 1 true false EXTENT_PAI_HPA EXTENT_IS_HEAD
              (mkEdata (2 ^ 64 - 1) 0 (2 ^ 64 - 1) 0 0 [])) as (_ & _ & E1 & _ & E2 & _);
    [by vm_compute..|]. split; [exact E2|exact E1].
Defined.
