(* ===== verification/Bitmap.v ===== *)
(** * Bitmaps of slabs, [jemalloc/include/jemalloc/internal/bitmap.h] and [src/bitmap.c],
    and division by a constant, [div.h] and [src/div.c]

    With the parameters of an x86-64 build a bitmap has at most 512 bits, eight groups, and
    the header chooses the flat representation; the tree of groups is the other branch
    of [BITMAP_USE_TREE].  The bits are stored inverted: a bit that is 1 is unset. *)
From stdpp Require Import base list numbers.
From S2P Require Import Prelude BitUtil SizeClass Fb.

(** ** Parameters *)

Definition LG_SIZEOF_BITMAP : Z := LG_SIZEOF_LONG.
Definition LG_BITMAP_GROUP_NBITS : Z := LG_SIZEOF_BITMAP + 3.
Definition BITMAP_GROUP_NBITS : Z := u32 (Z.shiftl 1 LG_BITMAP_GROUP_NBITS).
Definition BITMAP_GROUP_NBITS_MASK : Z := BITMAP_GROUP_NBITS - 1.
Definition BITMAP_USE_TREE : bool := 3 <? LG_BITMAP_MAXBITS - LG_BITMAP_GROUP_NBITS.
Definition BITMAP_BITS2GROUPS (nbits : Z) : Z :=
  Z.shiftr (u64 (nbits + BITMAP_GROUP_NBITS_MASK)) LG_BITMAP_GROUP_NBITS.
Definition BITMAP_GROUPS_MAX : Z := BITMAP_BITS2GROUPS BITMAP_MAXBITS.

Record bitmap_info_t := mkBitmapInfo { nbits : Z; ngroups : Z }.

Definition bitmap_info_init (nbits : Z) : bitmap_info_t := mkBitmapInfo nbits (BITMAP_BITS2GROUPS nbits).

Definition bitmap_info_ngroups (binfo : bitmap_info_t) : Z := ngroups binfo.

Definition bitmap_size (binfo : bitmap_info_t) : Z := shl64 (bitmap_info_ngroups binfo) LG_SIZEOF_BITMAP.

(** [memset(bitmap, c, bitmap_size(binfo))] for a byte that is 0 or 0xff. *)
Definition fill_bitmap (g : Z) (bitmap : list Z) (binfo : bitmap_info_t) : outcome (list Z) :=
  let n := bitmap_size binfo / shl64 1 LG_SIZEOF_BITMAP in
  if Z.of_nat (length bitmap) <? n then Fault OutOfBounds
  else Done (replicate (Z.to_nat n) g ++ drop (Z.to_nat n) bitmap).

Definition bitmap_init (bitmap : list Z) (binfo : bitmap_info_t) (fill : bool) : outcome (list Z) :=
  if fill then fill_bitmap 0 bitmap binfo
  else
    bitmap ← fill_bitmap all_ones bitmap binfo;
    let extra := Z.land (u64 (BITMAP_GROUP_NBITS - Z.land (nbits binfo) BITMAP_GROUP_NBITS_MASK)) BITMAP_GROUP_NBITS_MASK in
    if extra =? 0 then Done bitmap
    else
      g ← group_at bitmap (ngroups binfo - 1);
      set_group bitmap (ngroups binfo - 1) (Z.shiftr g extra).

(** ** Operations *)

Definition bitmap_full (bitmap : list Z) (binfo : bitmap_info_t) : outcome bool :=
  groups_are 0 bitmap (Z.to_nat (ngroups binfo)) 0.

Definition bitmap_get (bitmap : list Z) (binfo : bitmap_info_t) (bit : Z) : outcome bool :=
  let goff := Z.shiftr bit LG_BITMAP_GROUP_NBITS in
  g ← group_at bitmap goff;
  Done (Z.land g (shl64 1 (Z.land bit BITMAP_GROUP_NBITS_MASK)) =? 0).

(** [g ^= ZU(1) << (bit & BITMAP_GROUP_NBITS_MASK)], which both of the following do. *)
Definition bitmap_flip (bitmap : list Z) (bit : Z) : outcome (list Z) :=
  let goff := Z.shiftr bit LG_BITMAP_GROUP_NBITS in
  g ← group_at bitmap goff;
  set_group bitmap goff (Z.lxor g (shl64 1 (Z.land bit BITMAP_GROUP_NBITS_MASK))).

Definition bitmap_set (bitmap : list Z) (binfo : bitmap_info_t) (bit : Z) : outcome (list Z) := bitmap_flip bitmap bit.
Definition bitmap_unset (bitmap : list Z) (binfo : bitmap_info_t) (bit : Z) : outcome (list Z) := bitmap_flip bitmap bit.

(** The loop of [bitmap_ffu]: the next group is read before its index is tested. *)
Fixpoint ffu_loop (fuel : nat) (bitmap : list Z) (binfo : bitmap_info_t) (i g : Z) : outcome Z :=
  if negb (g =? 0) then Done (u64 (shl64 i LG_BITMAP_GROUP_NBITS + ffs_lu g))
  else
    match fuel with
    | O => Fault Diverges
    | S fuel =>
        let i := i + 1 in
        g ← group_at bitmap i;
        if i <? ngroups binfo then ffu_loop fuel bitmap binfo i g else Done (nbits binfo)
    end.

Definition bitmap_ffu (bitmap : list Z) (binfo : bitmap_info_t) (min_bit : Z) : outcome Z :=
  let i := Z.shiftr min_bit LG_BITMAP_GROUP_NBITS in
  g ← group_at bitmap i;
  ffu_loop (Z.to_nat (ngroups binfo)) bitmap binfo i
    (Z.land g (not64 (u64 (shl64 1 (Z.land min_bit BITMAP_GROUP_NBITS_MASK) - 1)))).

(** The loop of [bitmap_sfu] to the first group with an unset bit. *)
Fixpoint sfu_loop (fuel : nat) (bitmap : list Z) (i g : Z) : outcome (Z * Z) :=
  if negb (g =? 0) then Done (i, g)
  else
    match fuel with
    | O => Fault Diverges
    | S fuel => g ← group_at bitmap (i + 1); sfu_loop fuel bitmap (i + 1) g
    end.

Definition bitmap_sfu (bitmap : list Z) (binfo : bitmap_info_t) : outcome (Z * list Z) :=
  g ← group_at bitmap 0;
  '(i, g) ← sfu_loop (length bitmap) bitmap 0 g;
  let bit := u64 (u32 (Z.shiftl i LG_BITMAP_GROUP_NBITS) + ffs_lu g) in
  bitmap ← bitmap_set bitmap binfo bit;
  Done (bit, bitmap).

(** ** Division *)

(** [div_init]: the magic number for a divisor. *)
Definition div_init (d : Z) : outcome Z :=
  let two_to_k := shl64 1 32 in
  if d =? 0 then Fault DivideByZero
  else
    let magic := u32 (two_to_k / d) in
    Done (if negb (two_to_k mod d =? 0) then u32 (magic + 1) else magic).

Definition div_compute (magic n : Z) : Z := Z.shiftr (u64 (n * magic)) 32.

Lemma div_compute_ok d q :
  2 ≤ d < 2 ^ 64 → 0 ≤ q → q * d < 2 ^ 32 →
  ∃ magic, div_init d = Done magic ∧ div_compute magic (q * d) = q.
Proof.
  intros Hd Hq Hn. unfold div_init, div_compute. rewrite (proj2 (Z.eqb_neq d 0)) by lia.
  change (shl64 1 32) with (2 ^ 32). pose proof (Z.div_mod (2 ^ 32) d ltac:(lia)) as Hdm.
  pose proof (Z.mod_pos_bound (2 ^ 32) d ltac:(lia)) as Hr.
  set (m := 2 ^ 32 / d) in *. set (r := 2 ^ 32 mod d) in *.
  assert (0 ≤ m < 2 ^ 32) as Hm by (split; [apply Z.div_pos; lia|apply Z.div_lt; lia]).
  assert (u32 m = m) as Em by (by apply Z.mod_small). rewrite Em. eexists. split; [reflexivity|].
  rewrite Z.shiftr_div_pow2 by lia. destruct (Z.eqb_spec r 0) as [E0|E0]; cbn [negb].
  - rewrite u64_small by (unfold is_u64; nia).
    replace (q * d * m) with (q * 2 ^ 32) by nia. by apply Z.div_mul.
  - assert (m + 1 < 2 ^ 32) by nia. assert (u32 (m + 1) = m + 1) as -> by (apply Z.mod_small; lia).
    assert (q * d * (m + 1) = q * 2 ^ 32 + q * (d - r)) as E by nia.
    assert (0 ≤ q * (d - r) < 2 ^ 32) by nia.
    rewrite E. rewrite u64_small by (unfold is_u64; nia). rewrite Z.div_add_l by lia. rewrite Z.div_small; lia.
Qed.

(** The precomputed division is exact where it is used: for a divisor of at least two
    and a multiple of it below 2^32 the multiplication and the shift give the
    quotient. *)
Theorem div_compute_exact d q :
  2 ≤ d < 2 ^ 64 → 0 ≤ q → q * d < 2 ^ 32 →
  ∃ magic, div_init d = Done magic ∧ div_compute magic (q * d) = q.
Proof. apply div_compute_ok. Qed.

Lemma div_compute_exact_witness : ∃ magic, div_init 48 = Done magic ∧ div_compute magic (341 * 48) = 341.
Proof. apply (div_compute_exact 48 341); lia. Defined.
