(* ===== verification/Slab.v ===== *)
(** * Slabs of small regions, [jemalloc/src/arena.c], [bin_info.c] and [arena_inlines_b.h]

    A slab is an extent cut into regions of one size; a bit per region says whether
    it is in use.  Allocation takes the lowest free region, one at a time or several at
    once; deallocation finds the region from its address by a multiplication. *)
From stdpp Require Import base list numbers.
From S2P Require Import Prelude BitUtil SizeClass Fb Edata Bitmap.

(** ** What is known of a bin *)

Record bin_info_t := mkBinInfo {
  reg_size : Z;
  bin_slab_size : Z;            (* [slab_size] *)
  nregs : Z;
  n_shards : Z;
  bitmap_info : bitmap_info_t
}.

(** The body of the loop of [bin_infos_init].  Without the tree
    [BITMAP_INFO_INITIALIZER] sets the same two members as [bitmap_info_init]. *)
Definition bin_info_of (c : sc) (shards : Z) : outcome bin_info_t :=
  let reg_size := u64 (shl64 1 (sc_lg_base c) + shl64 (sc_ndelta c) (sc_lg_delta c)) in
  let slab_size := i32 (Z.shiftl (sc_pgs c) LG_PAGE) in
  if reg_size =? 0 then Fault DivideByZero
  else
    let nregs := u32 (u64 slab_size / reg_size) in
    Done (mkBinInfo reg_size (u64 slab_size) nregs shards (bitmap_info_init nregs)).

Fixpoint bin_infos_init (scs : list sc) (bin_shard_sizes : list Z) : outcome (list bin_info_t) :=
  match scs, bin_shard_sizes with
  | c :: scs, n :: bin_shard_sizes =>
      info ← bin_info_of c n;
      infos ← bin_infos_init scs bin_shard_sizes;
      Done (info :: infos)
  | _, _ => Done []
  end.

Definition bin_info_boot (d : sc_data) (bin_shard_sizes : list Z) : outcome (list bin_info_t) :=
  bin_infos_init (take (Z.to_nat SC_NBINS) (scs d)) (take (Z.to_nat SC_NBINS) bin_shard_sizes).

(** The first loop of [arena_boot]: [arena_binind_div_info]. *)
Definition bin_div_info (c : sc) : outcome Z :=
  div_init (u32 (u32 (Z.shiftl 1 (sc_lg_base c)) + i32 (Z.shiftl (sc_ndelta c) (sc_lg_delta c)))).

(** ** Allocation *)

(** The part of [arena_slab_alloc] that prepares a fresh extent. *)
Definition slab_init (info : bin_info_t) (binshard : Z) (slab : edata_t) : outcome edata_t :=
  let slab := edata_nfree_binshard_set (nregs info) binshard slab in
  bitmap ← bitmap_init (edata_slab_data_get slab) (bitmap_info info) false;
  Done (set_slab_data bitmap slab).

Definition arena_slab_reg_alloc (slab : edata_t) (info : bin_info_t) : outcome (Z * edata_t) :=
  '(regind, bitmap) ← bitmap_sfu (edata_slab_data_get slab) (bitmap_info info);
  let ret := u64 (edata_addr_get slab + u64 (reg_size info * regind)) in
  Done (ret, edata_nfree_dec (set_slab_data bitmap slab)).

(** *** Several at once *)

(** [while (pop--)]: the regions of the lowest [pop] bits of a group, and the group
    without them. *)
Fixpoint take_regs (pop : nat) (base regsize shift g : Z) : list Z * Z :=
  match pop with
  | O => ([], g)
  | S pop =>
      let '(bit, g) := cfs_lu g in
      let regind := u64 (shift + bit) in
      let '(ptrs, g) := take_regs pop base regsize shift g in
      (u64 (base + u64 (regsize * regind)) :: ptrs, g)
  end.

(** [while (i < cnt)] with [cnt - i] regions still to take; [group] and [g] are the
    variables of the C code.  The regions in the order they are stored, and the bitmap. *)
Fixpoint batch_loop (fuel : nat) (base regsize : Z) (bitmap : list Z) (group g left : Z) :
    outcome (list Z * list Z) :=
  if left =? 0 then Done ([], bitmap)
  else
    match fuel with
    | O => Fault Diverges
    | S fuel =>
        '(group, g) ← sfu_loop (length bitmap) bitmap group g;
        let shift := u32 (Z.shiftl group LG_BITMAP_GROUP_NBITS) in
        let pop := popcountl g in
        let pop := if left <? pop then left else pop in
        let '(ptrs, g) := take_regs (Z.to_nat pop) base regsize shift g in
        bitmap ← set_group bitmap group g;
        '(rest, bitmap) ← batch_loop fuel base regsize bitmap group g (left - pop);
        Done (ptrs ++ rest, bitmap)
    end.

Definition arena_slab_reg_alloc_batch (slab : edata_t) (info : bin_info_t) (cnt : Z) : outcome (list Z * edata_t) :=
  let bitmap := edata_slab_data_get slab in
  g ← group_at bitmap 0;
  '(ptrs, bitmap) ← batch_loop (Z.to_nat cnt) (edata_addr_get slab) (reg_size info) bitmap 0 g cnt;
  Done (ptrs, edata_nfree_sub cnt (set_slab_data bitmap slab)).

(** ** Deallocation *)

Record arena_dalloc_bin_locked_info_t := mkDallocInfo { div_info : Z; dalloc_nregs : Z; ndalloc : Z }.

Definition arena_dalloc_bin_locked_begin (magic : Z) (info : bin_info_t) : arena_dalloc_bin_locked_info_t :=
  mkDallocInfo magic (nregs info) 0.

Definition arena_slab_regind (info : arena_dalloc_bin_locked_info_t) (slab : edata_t) (ptr : Z) : Z :=
  let diff := u64 (ptr - edata_addr_get slab) in
  div_compute (div_info info) diff.

(** What becomes of the slab: it is handed to
    [arena_dalloc_bin_locked_handle_newly_empty] (and the step returns true), to
    [arena_dalloc_bin_locked_handle_newly_nonempty], or stays where it is. *)
Inductive slab_move := NewlyEmpty | NewlyNonempty | Stays.

Definition arena_dalloc_bin_locked_step (config_stats is_slabcur : bool) (bin_info : bin_info_t)
    (info : arena_dalloc_bin_locked_info_t) (slab : edata_t) (ptr : Z) :
    outcome (slab_move * edata_t * arena_dalloc_bin_locked_info_t) :=
  let regind := arena_slab_regind info slab ptr in
  bitmap ← bitmap_unset (edata_slab_data_get slab) (bitmap_info bin_info) regind;
  let slab := edata_nfree_inc (set_slab_data bitmap slab) in
  let info := if config_stats then mkDallocInfo (div_info info) (dalloc_nregs info) (u64 (ndalloc info + 1)) else info in
  let nfree := edata_nfree_get slab in
  Done (if nfree =? nregs bin_info then NewlyEmpty
        else if (nfree =? 1) && negb is_slabcur then NewlyNonempty else Stays,
        slab, info).
