(* ===== verification/SlabTheorems.v ===== *)
(** * Theorems about slabs

    The lowest free region is found and handed out, several at once are the same as
    one after the other, and freeing finds the region again. *)
From stdpp Require Import base list numbers.
From S2P Require Import Prelude BitUtil SizeClass Fb FbFacts FbTheorems Edata EdataTheorems Bitmap Slab.

Lemma bitmap_flat : BITMAP_USE_TREE = false ∧ BITMAP_GROUPS_MAX = 8.
Proof. by vm_compute. Qed.

(** ** Bitmaps *)

Lemma bits2groups n : 0 ≤ n ≤ 512 → BITMAP_BITS2GROUPS n = (n + 63) / 64.
Proof.
  intros Hn. unfold BITMAP_BITS2GROUPS. change BITMAP_GROUP_NBITS_MASK with 63.
  change LG_BITMAP_GROUP_NBITS with 6. rewrite u64_small by (unfold is_u64; lia). by rewrite Z.shiftr_div_pow2.
Qed.

(** A bitmap of [n] bits in an array that may be longer; 1 stands for a free region. *)
Record bm_ok (n : Z) (bm : list Z) : Prop := {
  bm_u64 : Forall is_u64 bm;
  bm_len : (n + 63) / 64 ≤ Z.of_nat (length bm) ≤ 8;
  bm_tail : ∀ i, n ≤ i < 64 * ((n + 63) / 64) → fbit bm i = false
}.

Lemma bit_group_index bit : 0 ≤ bit → Z.shiftr bit LG_BITMAP_GROUP_NBITS = bit / 64 ∧ Z.land bit BITMAP_GROUP_NBITS_MASK = bit mod 64.
Proof.
  intros Hb. change LG_BITMAP_GROUP_NBITS with 6. change BITMAP_GROUP_NBITS_MASK with (2 ^ 6 - 1).
  by rewrite Z.shiftr_div_pow2, land_low.
Qed.

Lemma bitmap_flip_ok n bm bit :
  bm_ok n bm → 0 ≤ bit < n → 0 ≤ n →
  ∃ bm', bitmap_flip bm bit = Done bm' ∧ bm_ok n bm' ∧ length bm' = length bm ∧
    ∀ i, 0 ≤ i → fbit bm' i = if decide (i = bit) then negb (fbit bm i) else fbit bm i.
Proof.
  intros [B1 B2 B3] Hbit Hn. unfold bitmap_flip. destruct (bit_group_index bit ltac:(lia)) as [-> ->].
  assert (0 ≤ bit / 64 < Z.of_nat (length bm)) as Hg by dlia.
  destruct (group_at_ok bm (bit / 64) Hg) as (g & -> & Eg). cbn [mbind outcome_bind].
  assert (is_u64 g) as Hgu by (by eapply Forall_lookup_1).
  rewrite set_group_ok by done. eexists. split; [done|].
  assert (∀ i, 0 ≤ i → fbit (<[Z.to_nat (bit / 64):=Z.lxor g (shl64 1 (bit mod 64))]> bm) i =
    if decide (i = bit) then negb (fbit bm i) else fbit bm i) as Hbits.
  { intros i Hi. rewrite fbit_insert by done. case_decide as E.
    - rewrite Z.lxor_spec, shl64_one_bit by dlia. rewrite (fbit_group bm (bit / 64) g i) by done.
      destruct (decide (i = bit)) as [->|Hne]; [by rewrite Z.eqb_refl, xorb_true_r|].
      rewrite (proj2 (Z.eqb_neq _ _)) by dlia. by rewrite xorb_false_r.
    - rewrite decide_False by (intros ->; done). done. }
  split; [|by rewrite length_insert]. split.
  - apply Forall_insert; [done|]. apply lxor_u64; [done|apply shl64_u64].
  - by rewrite length_insert.
  - intros i Hi. rewrite Hbits by lia. rewrite decide_False by lia. by apply B3.
Qed.

(** Bitmaps with the same bits are the same. *)
Lemma bitmap_ext n bm bm' :
  bm_ok n bm → bm_ok n bm' → length bm = length bm' → (∀ i, 0 ≤ i → fbit bm i = fbit bm' i) → bm = bm'.
Proof.
  intros [U _ _] [U' _ _] Hl Hb. apply list_eq. intros k.
  destruct (bm !! k) as [g|] eqn:E, (bm' !! k) as [g'|] eqn:E'; [|apply lookup_lt_Some in E; apply lookup_ge_None in E'; lia
    |apply lookup_lt_Some in E'; apply lookup_ge_None in E; lia|done].
  f_equal. apply u64_ext; [exact (Forall_lookup_1 _ _ _ _ U E)|exact (Forall_lookup_1 _ _ _ _ U' E')|]. intros i Hi.
  specialize (Hb (64 * Z.of_nat k + i) ltac:(lia)).
  rewrite (fbit_group bm (Z.of_nat k) g), (fbit_group bm' (Z.of_nat k) g') in Hb by (first [by rewrite Nat2Z.id|dlia]).
  by replace ((64 * Z.of_nat k + i) mod 64) with i in Hb by dlia.
Qed.

Lemma bitmap_flip_inv bm bit bm' : bitmap_flip bm bit = Done bm' → ∃ i g, bm' = <[i:=g]> bm.
Proof.
  unfold bitmap_flip, set_group. intros H. apply outcome_bind_done_inv in H as (g & _ & H).
  apply outcome_bind_done_inv in H as (g' & _ & H). injection H as <-. by eexists _, _.
Qed.

(** ** Finding the lowest free region *)

(** The groups below [k] are used up and group [k] is [g]. *)
Definition lowest_group (bm : list Z) (k g : Z) : Prop :=
  0 ≤ k ∧ g ≠ 0 ∧ bm !! Z.to_nat k = Some g ∧ ∀ j, 0 ≤ j < k → bm !! Z.to_nat j = Some 0.

Lemma sfu_loop_ok bm k g fuel i :
  lowest_group bm k g → 0 ≤ i ≤ k → (Z.to_nat (k - i) ≤ fuel)%nat →
  sfu_loop fuel bm i (default 0 (bm !! Z.to_nat i)) = Done (k, g).
Proof.
  intros (Hk & Hg & Eg & Hz). revert i. induction fuel as [|fuel IH]; intros i Hi Hf.
  - assert (i = k) as -> by lia. rewrite Eg. simpl. by rewrite (proj2 (Z.eqb_neq g 0)).
  - destruct (decide (i = k)) as [->|Hne].
    + rewrite Eg. simpl. by rewrite (proj2 (Z.eqb_neq g 0)).
    + rewrite (Hz i) by lia. simpl. specialize (IH (i + 1) ltac:(lia) ltac:(lia)).
      assert (∃ g', bm !! Z.to_nat (i + 1) = Some g') as (g' & E').
      { destruct (decide (i + 1 = k)) as [<-|]; [by exists g|]. exists 0. apply Hz. lia. }
      unfold group_at. rewrite (proj2 (Z.ltb_ge (i + 1) 0)) by lia. rewrite E' in *. cbn [orelse mbind outcome_bind]. exact IH.
Qed.

Lemma lowest_group_ex n bm r :
  bm_ok n bm → 0 ≤ r < n → fbit bm r = true → ∃ k g, lowest_group bm k g ∧ k ≤ r / 64.
Proof.
  intros [B1 B2 B3] Hr Hbit.
  assert (∀ m : nat, Z.of_nat m ≤ r / 64 + 1 →
    (∃ k g, lowest_group bm k g ∧ k < Z.of_nat m) ∨ (∀ j, 0 ≤ j < Z.of_nat m → bm !! Z.to_nat j = Some 0)) as Hm.
  { induction m as [|m IH]; intros Hle; [right; intros; lia|]. destruct IH as [(k & g & Hl & Hk)|Hz]; [lia| |].
    - left. exists k, g. split; [done|lia].
    - destruct (lookup_Z_lt bm (Z.of_nat m)) as (g & Eg); [dlia|]. destruct (decide (g = 0)) as [->|Hg].
      + right. intros j Hj. destruct (decide (j = Z.of_nat m)) as [->|]; [done|]. apply Hz. lia.
      + left. exists (Z.of_nat m), g. split; [|lia]. split_and!; try done; lia. }
  destruct (Hm (Z.to_nat (r / 64 + 1))) as [(k & g & Hl & Hk)|Hz]; [dlia| |].
  - exists k, g. split; [done|]. dlia.
  - exfalso. rewrite (fbit_group bm (r / 64) 0) in Hbit by (try done; apply Hz; dlia). by rewrite Z.bits_0 in Hbit.
Qed.

Lemma lowest_group_first n bm k g :
  bm_ok n bm → lowest_group bm k g →
  let r := 64 * k + ffs_lu g in
  0 ≤ r ∧ r / 64 = k ∧ r mod 64 = ffs_lu g ∧ fbit bm r = true ∧ ∀ i, 0 ≤ i < r → fbit bm i = false.
Proof.
  intros [B1 B2 B3] (Hk & Hg & Eg & Hz). assert (is_u64 g) as Hu by (by eapply Forall_lookup_1).
  destruct (group_view_first (fbit bm) k g Hk Hg) as (Hd & Ht & Hlow); [by apply fbit_view|].
  rewrite (Z.mul_comm k 64) in *. intros r. fold r in Hd, Ht, Hlow. split_and!; try done.
  - dlia.
  - dlia.
  - intros i Hi. destruct (Z.lt_ge_cases i (64 * k)); [|apply Hlow; lia].
    rewrite (fbit_group bm (i / 64) 0) by (try done; apply Hz; dlia). apply Z.bits_0.
Qed.

Lemma bitmap_sfu_at n bm bi k g :
  bm_ok n bm → 0 ≤ n → lowest_group bm k g →
  bitmap_sfu bm bi = Done (64 * k + ffs_lu g, <[Z.to_nat k:=Z.lxor g (shl64 1 (ffs_lu g))]> bm).
Proof.
  intros Hbm Hn Hl. pose proof Hl as (Hk & Hg & Eg & Hz). pose proof (lookup_lt_Some _ _ _ Eg) as Hlen.
  destruct (lowest_group_first n bm k g Hbm Hl) as (Hr & Hd & Hm & _). destruct (bm_len n bm Hbm).
  unfold bitmap_sfu. destruct (group_at_ok bm 0) as (g0 & E0 & L0); [lia|]. rewrite E0. cbn [mbind outcome_bind].
  pose proof (sfu_loop_ok bm k g (length bm) 0 Hl ltac:(lia) ltac:(lia)) as Hloop.
  change (Z.to_nat 0) with 0%nat in Hloop, L0. rewrite L0 in Hloop. cbn [default from_option id] in Hloop.
  rewrite Hloop. cbn [mbind outcome_bind].
  change LG_BITMAP_GROUP_NBITS with 6. rewrite Z.shiftl_mul_pow2 by lia. change (2 ^ 6) with 64.
  assert (u32 (k * 64) = 64 * k) as -> by (unfold u32; rewrite Z.mod_small; lia).
  rewrite u64_small by (unfold is_u64; dlia). unfold bitmap_set, bitmap_flip.
  destruct (bit_group_index (64 * k + ffs_lu g) Hr) as [-> ->]. rewrite Hd, Hm.
  destruct (group_at_ok bm k) as (g1 & E1 & L1); [lia|]. rewrite E1. rewrite Eg in L1. injection L1 as <-.
  cbn [mbind outcome_bind]. rewrite set_group_ok by lia. done.
Qed.

(** ** One region *)

Lemma count_point p q lo n r :
  lo ≤ r < lo + Z.of_nat n → p r = true → q r = false → (∀ i, lo ≤ i < lo + Z.of_nat n → i ≠ r → q i = p i) →
  count q lo n = count p lo n - 1.
Proof.
  intros Hr Hp Hq Hpq.
  pose proof (count_split q (λ i, bool_decide (i = r)) p (λ _, false) lo n) as E.
  rewrite (count_const false (λ _, false)) in E by done. simpl Z.b2z in E.
  rewrite (count_window (λ i, bool_decide (i = r)) lo n r 1) in E
    by (first [lia|intros i Hi Hn; apply bool_decide_eq_false; lia]).
  simpl count in E. rewrite bool_decide_true in E by done. simpl Z.b2z in E. rewrite Z.add_0_r, Z.mul_0_l, Z.add_0_r in E.
  rewrite <- E; [lia|]. intros i Hi. case_bool_decide as Ei; [subst i; by rewrite Hp, Hq|]. by rewrite Hpq.
Qed.

Lemma count_pos p lo n : 0 < count p lo n → ∃ i, lo ≤ i < lo + Z.of_nat n ∧ p i = true.
Proof.
  revert lo. induction n as [|n IH]; intros lo H; simpl in H; [lia|].
  destruct (p lo) eqn:E; [exists lo; split; [lia|done]|]. simpl in H.
  destruct (IH (lo + 1)) as (i & Hi & Hp); [lia|]. exists i. split; [lia|done].
Qed.

Definition nfree_of (n : Z) (bm : list Z) : Z := count (fbit bm) 0 (Z.to_nat n).

Lemma bitmap_sfu_ok n bm bi :
  bm_ok n bm → 0 ≤ n → 0 < nfree_of n bm →
  ∃ r bm' k g, bitmap_sfu bm bi = Done (r, bm') ∧ lowest_group bm k g ∧ r = 64 * k + ffs_lu g ∧
    bm' = <[Z.to_nat k:=Z.lxor g (shl64 1 (ffs_lu g))]> bm ∧
    0 ≤ r < n ∧ is_first (fbit bm) 0 n r ∧ bitmap_flip bm r = Done bm' ∧ bm_ok n bm' ∧ length bm' = length bm ∧
    (∀ i, 0 ≤ i → fbit bm' i = if decide (i = r) then false else fbit bm i) ∧ nfree_of n bm' = nfree_of n bm - 1.
Proof.
  intros Hbm Hn Hpos. destruct (count_pos _ _ _ Hpos) as (i & Hi & Hfree).
  destruct (lowest_group_ex n bm i Hbm ltac:(lia) Hfree) as (k & g & Hl & Hk).
  destruct (lowest_group_first n bm k g Hbm Hl) as (Hr & Hd & Hm & Hbit & Hlow).
  set (r := 64 * k + ffs_lu g) in *.
  assert (r ≤ i) as Hri.
  { destruct (Z.le_gt_cases r i); [done|]. rewrite Hlow in Hfree by lia. done. }
  destruct (bitmap_flip_ok n bm r Hbm ltac:(lia) Hn) as (bm' & Ef & Hbm' & Hlen & Hbits).
  assert (bm' = <[Z.to_nat k:=Z.lxor g (shl64 1 (ffs_lu g))]> bm) as Ebm.
  { pose proof Hl as (Hk0 & _ & Eg & _). unfold bitmap_flip in Ef. destruct (bit_group_index r Hr) as [E1 E2].
    rewrite E1, E2, Hd, Hm in Ef. pose proof (lookup_lt_Some _ _ _ Eg).
    destruct (group_at_ok bm k) as (g1 & Eat & L1); [lia|]. rewrite Eat, Eg in *. injection L1 as <-.
    cbn [mbind outcome_bind] in Ef. rewrite set_group_ok in Ef by lia. by injection Ef. }
  exists r, bm', k, g. split; [rewrite (bitmap_sfu_at n bm bi k g) by done; by rewrite Ebm|].
  split; [done|]. split; [done|]. split; [done|]. split; [lia|].
  split; [split; [lia|]; split; [intros j Hj; apply Hlow; lia|done]|].
  split; [done|]. split; [done|]. split; [done|]. split.
  - intros j Hj. rewrite Hbits by done. case_decide as Ej; [|done]. subst j. by rewrite Hbit.
  - unfold nfree_of. apply (count_point _ _ _ _ r); [lia|done| |].
    + rewrite Hbits by done. rewrite decide_True by done. by rewrite Hbit.
    + intros j Hj Hne. rewrite Hbits by lia. by rewrite decide_False.
Qed.

(** ** Several regions *)

(** [m] regions one after the other. *)
Fixpoint sfu_n (m : nat) (bm : list Z) (bi : bitmap_info_t) : outcome (list Z * list Z) :=
  match m with
  | O => Done ([], bm)
  | S m =>
      '(r, bm) ← bitmap_sfu bm bi;
      '(rs, bm) ← sfu_n m bm bi;
      Done (r :: rs, bm)
  end.

Lemma sfu_n_ok n bi m bm :
  bm_ok n bm → 0 ≤ n → Z.of_nat m ≤ nfree_of n bm →
  ∃ rs bm', sfu_n m bm bi = Done (rs, bm') ∧ bm_ok n bm' ∧ length bm' = length bm ∧
    length rs = m ∧ nfree_of n bm' = nfree_of n bm - Z.of_nat m ∧ Forall (λ r, 0 ≤ r < n ∧ fbit bm r = true) rs ∧
    NoDup rs ∧ ∀ i, 0 ≤ i → fbit bm' i = fbit bm i && negb (bool_decide (i ∈ rs)).
Proof.
  revert bm. induction m as [|m IH]; intros bm Hbm Hn Hle.
  - exists [], bm. split_and!; try done; [lia|constructor|]. intros i Hi. rewrite bool_decide_false by (by intros ?%elem_of_nil).
    by rewrite andb_true_r.
  - destruct (bitmap_sfu_ok n bm bi Hbm Hn ltac:(lia))
      as (r & bm1 & k & g & E1 & _ & _ & _ & Hr & Hfst & _ & Hbm1 & Hl1 & Hb1 & Hc1).
    destruct (IH bm1 Hbm1 Hn ltac:(lia)) as (rs & bm2 & E2 & Hbm2 & Hl2 & Hlr & Hc2 & Hall & Hnd & Hb2).
    assert (fbit bm r = true) as Hfr by (apply (proj2 (proj2 Hfst)); lia).
    assert (r ∉ rs) as Hnin.
    { intros Hin. rewrite Forall_forall in Hall. destruct (Hall r (proj1 (list_elem_of_In _ _) Hin)) as [_ Hf]. rewrite Hb1, decide_True in Hf by (done || lia). done. }
    exists (r :: rs), bm2. simpl. rewrite E1. cbn [mbind outcome_bind]. rewrite E2. cbn [mbind outcome_bind].
    split; [done|]. split; [done|]. split; [lia|]. split; [lia|]. split; [lia|]. split; [|split].
    + constructor; [done|]. eapply Forall_impl; [|exact Hall]. simpl. intros x [Hx Hf]. split; [done|].
      rewrite Hb1 in Hf by lia. by case_decide.
    + by constructor.
    + intros i Hi. rewrite Hb2, Hb1 by done. case_decide as Ei.
      * subst i. rewrite (bool_decide_true (r ∈ r :: rs)) by (by left). simpl. by rewrite andb_false_r.
      * f_equal. f_equal. apply bool_decide_ext. rewrite elem_of_cons. naive_solver.
Qed.

Lemma sfu_n_add a b bm bi :
  sfu_n (a + b) bm bi =
    '(rs, bm) ← sfu_n a bm bi; '(rs', bm) ← sfu_n b bm bi; Done (rs ++ rs', bm).
Proof.
  revert bm. induction a as [|a IH]; intros bm; simpl.
  - destruct (sfu_n b bm bi) as [[rs bm']|f]; done.
  - destruct (bitmap_sfu bm bi) as [[r bm1]|f]; [|done]. cbn [mbind outcome_bind]. rewrite IH.
    destruct (sfu_n a bm1 bi) as [[rs bm2]|f]; [|done]. cbn [mbind outcome_bind].
    destruct (sfu_n b bm2 bi) as [[rs' bm3]|f]; done.
Qed.

Lemma popcount_low g :
  is_u64 g → g ≠ 0 → popcountl (Z.lxor g (shl64 1 (ffs_lu g))) = popcountl g - 1 ∧ 0 < popcountl g.
Proof.
  intros Hg Hne. assert (0 < g < 2 ^ 64) as Hpos by (unfold is_u64 in Hg; lia).
  rewrite ffs_lu_ctzl by lia. pose proof (ctzl_lt g 64 Hpos) as Hc. destruct (ctzl_testbit g 0) as [Hb _]; [lia|lia|].
  rewrite !(popcount_count 64) by (first [done|apply lxor_u64; [done|apply shl64_u64]]).
  assert (count (Z.testbit (Z.lxor g (shl64 1 (ctzl g)))) 0 64 = count (Z.testbit g) 0 64 - 1) as E.
  { apply (count_point _ _ _ _ (ctzl g)); [lia|done| |].
    - by rewrite Z.lxor_spec, shl64_one_bit, Hb, Z.eqb_refl by lia.
    - intros i Hi Hi'. rewrite Z.lxor_spec, shl64_one_bit by lia. rewrite (proj2 (Z.eqb_neq _ _)) by done. apply xorb_false_r. }
  split; [done|]. pose proof (count_bounds (Z.testbit (Z.lxor g (shl64 1 (ctzl g)))) 0 64). lia.
Qed.

(** The address of a region. *)
Definition region_addr (base regsize r : Z) : Z := u64 (base + u64 (regsize * r)).

(** Taking the low bits of the lowest group is taking regions one by one. *)
Lemma take_regs_ok n bi base regsize pop bm k g :
  bm_ok n bm → 0 ≤ n → 0 ≤ k → bm !! Z.to_nat k = Some g → (∀ j, 0 ≤ j < k → bm !! Z.to_nat j = Some 0) →
  Z.of_nat pop ≤ popcountl g → Z.of_nat pop ≤ nfree_of n bm →
  ∃ rs g', take_regs pop base regsize (64 * k) g = (region_addr base regsize <$> rs, g') ∧
    sfu_n pop bm bi = Done (rs, <[Z.to_nat k:=g']> bm).
Proof.
  revert bm g. induction pop as [|pop IH]; intros bm g Hbm Hn Hk Eg Hz Hpop Hfree.
  - exists [], g. split; [done|]. simpl. by rewrite list_insert_id.
  - assert (is_u64 g) as Hu by (eapply Forall_lookup_1; [apply (bm_u64 n bm Hbm)|done]).
    assert (g ≠ 0) as Hg by (intros ->; simpl in Hpop; lia).
    destruct (popcount_low g Hu Hg) as [Hp1 _]. assert (lowest_group bm k g) as Hl by done.
    destruct (bitmap_sfu_ok n bm bi Hbm Hn ltac:(lia))
      as (r & bm1 & k1 & g1 & E1 & Hl1 & Er & Ebm & Hr & _ & _ & Hbm1 & Hlen & _ & Hc1).
    assert (k1 = k ∧ g1 = g) as [-> ->].
    { destruct Hl1 as (? & Hg1 & Eg1 & Hz1). destruct (Z.lt_trichotomy k1 k) as [Hlt|[->|Hlt]].
      - rewrite (Hz k1) in Eg1 by lia. congruence.
      - by simplify_eq.
      - rewrite (Hz1 k) in Eg by lia. congruence. }
    pose proof (lookup_lt_Some _ _ _ Eg).
    destruct (IH bm1 (Z.lxor g (shl64 1 (ffs_lu g)))) as (rs & g' & E2 & E3); try done.
    + by rewrite Ebm, list_lookup_insert_eq by done.
    + intros j Hj. rewrite Ebm, list_lookup_insert_ne by lia. by apply Hz.
    + lia.
    + lia.
    + exists (r :: rs), g'. split.
      * simpl. unfold cfs_lu. rewrite E2. simpl. rewrite <- Er. f_equal. f_equal. unfold region_addr.
        rewrite (u64_small r); [done|]. destruct (bm_len n bm Hbm). unfold is_u64.
        assert (n ≤ 512) by dlia. lia.
      * simpl. rewrite E1. cbn [mbind outcome_bind]. rewrite E3. cbn [mbind outcome_bind].
        by rewrite Ebm, list_insert_insert_eq.
Qed.

Lemma batch_loop_ok n bi base regsize fuel left bm group g :
  bm_ok n bm → 0 ≤ n → 0 ≤ group → bm !! Z.to_nat group = Some g → (∀ j, 0 ≤ j < group → bm !! Z.to_nat j = Some 0) →
  0 ≤ left ≤ nfree_of n bm → (Z.to_nat left ≤ fuel)%nat →
  ∃ rs bm', batch_loop fuel base regsize bm group g left = Done (region_addr base regsize <$> rs, bm') ∧
    sfu_n (Z.to_nat left) bm bi = Done (rs, bm').
Proof.
  revert left bm group g. induction fuel as [|fuel IH]; intros left bm group g Hbm Hn Hgr Eg Hz Hleft Hf; simpl batch_loop;
    destruct (Z.eqb_spec left 0) as [->|Hne]; try lia; try (by exists [], bm).
  destruct (bitmap_sfu_ok n bm bi Hbm Hn ltac:(lia)) as (r & bm1 & k & gk & _ & Hl & _).
  pose proof Hl as (Hk & Hgk & Egk & Hzk). pose proof (lookup_lt_Some _ _ _ Egk).
  assert (group ≤ k) as Hgrk.
  { destruct (Z.le_gt_cases group k); [done|]. rewrite (Hz k) in Egk by lia. congruence. }
  pose proof (sfu_loop_ok bm k gk (length bm) group Hl ltac:(lia) ltac:(lia)) as Hloop.
  rewrite Eg in Hloop. cbn [default from_option id] in Hloop. rewrite Hloop. cbn [mbind outcome_bind].
  change LG_BITMAP_GROUP_NBITS with 6. rewrite Z.shiftl_mul_pow2 by lia. change (2 ^ 6) with 64.
  assert (u32 (k * 64) = 64 * k) as -> by (destruct (bm_len n bm Hbm); unfold u32; rewrite Z.mod_small; lia).
  set (pop := if left <? popcountl gk then left else popcountl gk).
  assert (is_u64 gk) as Hu by (eapply Forall_lookup_1; [apply (bm_u64 n bm Hbm)|done]).
  destruct (popcount_low gk Hu Hgk) as [_ Hpos].
  assert (0 < pop ≤ left ∧ pop ≤ popcountl gk) as [Hp1 Hp2] by (unfold pop; destruct (Z.ltb_spec left (popcountl gk)); lia).
  destruct (take_regs_ok n bi base regsize (Z.to_nat pop) bm k gk) as (rs1 & g' & E1 & E2); [done..|lia|lia|].
  rewrite E1. rewrite set_group_ok by lia. cbn [mbind outcome_bind].
  destruct (sfu_n_ok n bi (Z.to_nat pop) bm Hbm Hn ltac:(lia)) as (rs1' & bm2 & E2' & Hbm2 & Hlen & _ & Hc & _).
  rewrite E2 in E2'. injection E2' as <- <-.
  destruct (IH (left - pop) (<[Z.to_nat k:=g']> bm) k g') as (rs2 & bm3 & E3 & E4); try done; try lia.
  { by apply list_lookup_insert_eq. }
  { intros j Hj. rewrite list_lookup_insert_ne by lia. by apply Hzk. }
  rewrite E3. cbn [mbind outcome_bind]. exists (rs1 ++ rs2), bm3. rewrite fmap_app. split; [done|].
  replace (Z.to_nat left) with (Z.to_nat pop + Z.to_nat (left - pop))%nat by lia. rewrite sfu_n_add, E2.
  cbn [mbind outcome_bind]. by rewrite E4.
Qed.

(** ** Slabs *)

(** What [bin_infos_init] establishes of a bin, and [arena_boot] of its divisor. *)
Record bin_ok (info : bin_info_t) (magic : Z) : Prop := {
  bo_size : 2 ≤ reg_size info;
  bo_nregs : 0 < nregs info ≤ 512;
  bo_fits : nregs info * reg_size info ≤ bin_slab_size info;
  bo_slab : bin_slab_size info < 2 ^ 32;
  bo_bitmap : bitmap_info info = bitmap_info_init (nregs info);
  bo_div : div_init (reg_size info) = Done magic
}.

Record slab_inv (info : bin_info_t) (e : edata_t) : Prop := {
  sl_bits : is_u64 (e_bits e);
  sl_addr : 0 ≤ e_addr e ∧ e_addr e + bin_slab_size info ≤ 2 ^ 64;
  sl_bitmap : bm_ok (nregs info) (e_slab_data e);
  sl_nfree : edata_nfree_get e = nfree_of (nregs info) (e_slab_data e)
}.

(** The region at index [r] of the slab. *)
Definition region_at (info : bin_info_t) (e : edata_t) (r : Z) : Z := e_addr e + reg_size info * r.

Definition region_free (e : edata_t) (r : Z) : Prop := fbit (e_slab_data e) r = true.

Section slab.
Context (info : bin_info_t) (magic : Z) (e : edata_t).
Hypothesis Hinfo : bin_ok info magic.
Hypothesis He : slab_inv info e.

Lemma region_addr_exact r : 0 ≤ r < nregs info → region_addr (e_addr e) (reg_size info) r = region_at info e r.
Proof.
  intros Hr. destruct Hinfo as [I1 I2 I3 I4 I5 I6]. destruct (sl_addr info e He) as [A1 A2]. unfold region_addr, region_at.
  assert (reg_size info * r < bin_slab_size info) by nia. assert (0 ≤ reg_size info * r) by nia.
  rewrite (u64_small (reg_size info * r)) by (unfold is_u64; lia). apply u64_small. unfold is_u64. lia.
Qed.

Lemma nfree_bound : 0 ≤ edata_nfree_get e ≤ 512.
Proof.
  rewrite (sl_nfree info e He). unfold nfree_of. pose proof (count_bounds (fbit (e_slab_data e)) 0 (Z.to_nat (nregs info))).
  destruct (bo_nregs info magic Hinfo). lia.
Qed.

(** The slab with another bitmap and free count. *)
Lemma slab_inv_set bm k :
  bm_ok (nregs info) bm → k = nfree_of (nregs info) bm →
  slab_inv info (edata_nfree_set k (set_slab_data bm e)).
Proof.
  intros Hbm ->. pose proof (count_bounds (fbit bm) 0 (Z.to_nat (nregs info))). destruct (bo_nregs info magic Hinfo).
  assert (is_u64 (e_bits (set_slab_data bm e))) as Hu by (apply He). split.
  - by apply nfree_set_u64.
  - apply He.
  - done.
  - rewrite nfree_set_get; [done|done|]. unfold in_field, nfree_of. change (width EDATA_BITS_NFREE) with 10. lia.
Qed.

Lemma slab_reg_alloc_ok :
  0 < edata_nfree_get e →
  ∃ r bm', arena_slab_reg_alloc e info =
      Done (region_at info e r, edata_nfree_set (edata_nfree_get e - 1) (set_slab_data bm' e)) ∧
    bitmap_sfu (e_slab_data e) (bitmap_info info) = Done (r, bm') ∧
    0 ≤ r < nregs info ∧ is_first (fbit (e_slab_data e)) 0 (nregs info) r ∧
    bitmap_flip (e_slab_data e) r = Done bm' ∧ bm_ok (nregs info) bm' ∧
    (∀ i, 0 ≤ i → fbit bm' i = if decide (i = r) then false else fbit (e_slab_data e) i) ∧
    slab_inv info (edata_nfree_set (edata_nfree_get e - 1) (set_slab_data bm' e)).
Proof.
  intros Hpos. pose proof (bo_nregs info magic Hinfo). pose proof (sl_nfree info e He) as Hn.
  destruct (bitmap_sfu_ok (nregs info) (e_slab_data e) (bitmap_info info) (sl_bitmap info e He) ltac:(lia) ltac:(lia))
    as (r & bm' & k & g & E & _ & _ & _ & Hr & Hf & Ef & Hbm & _ & Hb & Hc).
  exists r, bm'. split; [|do 6 (split; [done|]); apply slab_inv_set; [done|lia]].
  unfold arena_slab_reg_alloc, edata_slab_data_get, edata_addr_get. rewrite E. cbn [mbind outcome_bind].
  rewrite nfree_dec_ok by (first [apply He|exact Hpos]).
  change (u64 (e_addr e + u64 (reg_size info * r))) with (region_addr (e_addr e) (reg_size info) r).
  rewrite region_addr_exact by done. done.
Qed.

(** Freeing finds the region. *)
Lemma regind_ok r : 0 ≤ r < nregs info → arena_slab_regind (arena_dalloc_bin_locked_begin magic info) e (region_at info e r) = r.
Proof.
  intros Hr. destruct Hinfo as [I1 I2 I3 I4 I5 I6]. unfold arena_slab_regind, edata_addr_get, region_at. simpl div_info.
  replace (e_addr e + reg_size info * r - e_addr e) with (r * reg_size info) by lia.
  rewrite u64_small by (unfold is_u64; nia).
  destruct (div_compute_ok (reg_size info) r) as (m & Em & Hm); [nia|lia|nia|].
  rewrite I6 in Em. injection Em as <-. exact Hm.
Qed.
End slab.

(** One region after the other. *)
Fixpoint reg_alloc_n (m : nat) (e : edata_t) (info : bin_info_t) : outcome (list Z * edata_t) :=
  match m with
  | O => Done ([], e)
  | S m =>
      '(p, e) ← arena_slab_reg_alloc e info;
      '(ps, e) ← reg_alloc_n m e info;
      Done (p :: ps, e)
  end.

(** Setting the count twice, and setting it to what it is. *)
Lemma nfree_set_set a b bm e bm' :
  is_u64 (e_bits e) → in_field EDATA_BITS_NFREE a → in_field EDATA_BITS_NFREE b →
  edata_nfree_set b (set_slab_data bm' (edata_nfree_set a (set_slab_data bm e))) = edata_nfree_set b (set_slab_data bm' e).
Proof.
  intros He Ha Hb. unfold edata_nfree_set, set_slab_data, set_bits. cbn [e_bits e_addr e_size_esn e_ps e_sn e_slab_data].
  f_equal. apply field_set_set; [by vm_compute|done|done|done].
Qed.

Lemma nfree_set_same e bm :
  is_u64 (e_bits e) → bm = e_slab_data e → edata_nfree_set (edata_nfree_get e) (set_slab_data bm e) = e.
Proof.
  intros He ->. rewrite (nfree_get_field e He). unfold edata_nfree_set, set_slab_data, set_bits.
  cbn [e_bits e_addr e_size_esn e_ps e_sn e_slab_data]. rewrite field_set_get; [by destruct e|by vm_compute|done].
Qed.

Lemma nfree_in_field info magic e k : bin_ok info magic → slab_inv info e → 0 ≤ k ≤ 512 → in_field EDATA_BITS_NFREE k.
Proof. intros _ _ Hk. unfold in_field. change (width EDATA_BITS_NFREE) with 10. lia. Qed.

Lemma reg_alloc_n_ok info magic m e :
  bin_ok info magic → slab_inv info e → Z.of_nat m ≤ edata_nfree_get e →
  ∃ rs bm', sfu_n m (e_slab_data e) (bitmap_info info) = Done (rs, bm') ∧
    reg_alloc_n m e info =
      Done (region_at info e <$> rs, edata_nfree_set (edata_nfree_get e - Z.of_nat m) (set_slab_data bm' e)).
Proof.
  intros Hinfo. revert e. induction m as [|m IH]; intros e He Hm.
  - exists [], (e_slab_data e). split; [done|]. simpl reg_alloc_n. rewrite Z.sub_0_r, nfree_set_same by (done || apply He). done.
  - destruct (slab_reg_alloc_ok info magic e Hinfo He ltac:(lia)) as (r & bm1 & E1 & Es & Hr & _ & _ & Hbm & _ & He1).
    set (e1 := edata_nfree_set (edata_nfree_get e - 1) (set_slab_data bm1 e)) in *.
    pose proof (nfree_bound info magic e Hinfo He) as Hb.
    assert (edata_nfree_get e1 = edata_nfree_get e - 1) as En.
    { apply nfree_set_get; [apply He|]. eapply nfree_in_field; [done..|lia]. }
    destruct (IH e1 He1 ltac:(lia)) as (rs & bm2 & Es2 & E2). exists (r :: rs), bm2. simpl.
    rewrite Es, E1. cbn [mbind outcome_bind]. change (e_slab_data e1) with bm1 in Es2. rewrite Es2, E2. cbn [mbind outcome_bind].
    split; [done|]. rewrite En. unfold e1. rewrite nfree_set_set; [|apply He|eapply nfree_in_field; [done..|lia]|eapply nfree_in_field; [done..|lia]].
    replace (edata_nfree_get e - 1 - Z.of_nat m) with (edata_nfree_get e - Z.of_nat (S m)) by lia. done.
Qed.

(** A slab with a free region gives out the lowest one: the pointer is its address, the
    region lies in the slab and was free, the free count goes down by one, no
    other region changes, and the slab's count still agrees with its bitmap. *)
Theorem slab_alloc_lowest info magic e :
  bin_ok info magic → slab_inv info e → 0 < edata_nfree_get e →
  ∃ r e', arena_slab_reg_alloc e info = Done (region_at info e r, e') ∧
    0 ≤ r < nregs info ∧ region_at info e r + reg_size info ≤ e_addr e + bin_slab_size info ∧
    region_free e r ∧ (∀ i, 0 ≤ i < r → ¬ region_free e i) ∧
    (∀ i, 0 ≤ i → region_free e' i ↔ region_free e i ∧ i ≠ r) ∧
    edata_nfree_get e' = edata_nfree_get e - 1 ∧ slab_inv info e'.
Proof.
  intros Hinfo He Hpos. destruct (slab_reg_alloc_ok info magic e Hinfo He Hpos) as (r & bm' & E & _ & Hr & (F1 & F2 & F3) & _ & _ & Hb & He').
  pose proof (nfree_bound info magic e Hinfo He). eexists r, _. split; [exact E|]. split; [done|]. split.
  { destruct Hinfo as [I1 I2 I3 I4 I5 I6]. unfold region_at. nia. }
  split; [apply F3; lia|]. split; [intros i Hi; unfold region_free; by rewrite F2|]. split; [|split; [|done]].
  - intros i Hi. unfold region_free. change (e_slab_data (edata_nfree_set _ _)) with bm'. rewrite Hb by done.
    case_decide; naive_solver.
  - apply nfree_set_get; [apply He|]. eapply nfree_in_field; [done..|lia].
Qed.

(** Freeing undoes an allocation from a slab: the region is found from the
    pointer, and the descriptor, bitmap and free count included, is what it was before
    the allocation. *)
Theorem slab_alloc_dalloc info magic e config_stats is_slabcur :
  bin_ok info magic → slab_inv info e → 0 < edata_nfree_get e →
  ∃ ptr e' move info', arena_slab_reg_alloc e info = Done (ptr, e') ∧
    arena_dalloc_bin_locked_step config_stats is_slabcur info (arena_dalloc_bin_locked_begin magic info) e' ptr =
      Done (move, e, info') ∧
    (move = NewlyEmpty ↔ edata_nfree_get e = nregs info).
Proof.
  intros Hinfo He Hpos. destruct (slab_reg_alloc_ok info magic e Hinfo He Hpos) as (r & bm' & E & _ & Hr & (F1 & F2 & F3) & Ef & Hbm & Hb & He').
  pose proof (nfree_bound info magic e Hinfo He) as Hnb. pose proof (bo_nregs info magic Hinfo).
  set (e' := edata_nfree_set (edata_nfree_get e - 1) (set_slab_data bm' e)) in *.
  assert (bitmap_flip bm' r = Done (e_slab_data e)) as Eback.
  { destruct (bitmap_flip_ok (nregs info) bm' r Hbm Hr ltac:(lia)) as (bm2 & E2 & Hbm2 & Hl2 & Hb2). rewrite E2. f_equal.
    apply (bitmap_ext (nregs info)); [done|apply (sl_bitmap info e He)| |].
    - rewrite Hl2. destruct (bitmap_flip_inv _ _ _ Ef) as (i & g & ->). apply length_insert.
    - intros i Hi. rewrite Hb2, Hb by done. case_decide; [subst i; simpl; symmetry; apply F3; lia|done]. }
  assert (edata_nfree_get e' = edata_nfree_get e - 1) as En.
  { apply nfree_set_get; [apply He|]. eapply nfree_in_field; [done..|lia]. }
  assert (edata_nfree_inc (set_slab_data (e_slab_data e) e') = e) as Einc.
  { rewrite nfree_inc_ok; [|exact (sl_bits info e' He')|].
    - change (edata_nfree_get (set_slab_data (e_slab_data e) e')) with (edata_nfree_get e'). rewrite En.
      unfold e'. rewrite nfree_set_set; [|apply He|eapply nfree_in_field; [done..|lia]|eapply nfree_in_field; [done..|lia]].
      replace (edata_nfree_get e - 1 + 1) with (edata_nfree_get e) by lia. by apply nfree_set_same; [apply He|].
    - change (edata_nfree_get (set_slab_data (e_slab_data e) e')) with (edata_nfree_get e'). rewrite En.
      change (width EDATA_BITS_NFREE) with 10. lia. }
  eexists (region_at info e r), e', _, _. split; [exact E|].
  unfold arena_dalloc_bin_locked_step, bitmap_unset. change (edata_slab_data_get e') with bm'.
  replace (region_at info e r) with (region_at info e' r) by done. rewrite (regind_ok info magic) by done.
  rewrite Eback. cbn [mbind outcome_bind]. rewrite Einc. split; [reflexivity|].
  destruct (Z.eqb_spec (edata_nfree_get e) (nregs info)); [done|]. split; [|done]. by case_match.
Qed.

(** The batch allocation, which takes the free regions of a group together with
    one write of the bitmap per group, is the same as allocating one region after the
    other: the same pointers in the same order, all different, and the same slab. *)
Theorem slab_batch_equals_singles info magic e cnt :
  bin_ok info magic → slab_inv info e → 0 ≤ cnt ≤ edata_nfree_get e →
  arena_slab_reg_alloc_batch e info cnt = reg_alloc_n (Z.to_nat cnt) e info ∧
  ∃ ps e', arena_slab_reg_alloc_batch e info cnt = Done (ps, e') ∧ length ps = Z.to_nat cnt ∧ base.NoDup ps.
Proof.
  intros Hinfo He Hcnt. pose proof (nfree_bound info magic e Hinfo He). pose proof (bo_nregs info magic Hinfo).
  pose proof (sl_nfree info e He) as Hn. pose proof (sl_bitmap info e He) as Hbm. pose proof (bm_len _ _ Hbm) as Hlen.
  destruct (reg_alloc_n_ok info magic (Z.to_nat cnt) e Hinfo He ltac:(lia)) as (rs & bm' & Es & Er).
  destruct (sfu_n_ok (nregs info) (bitmap_info info) (Z.to_nat cnt) (e_slab_data e) Hbm ltac:(lia) ltac:(lia))
    as (rs' & bm'' & Es' & _ & _ & Hl & _ & Hall & Hnd & _). rewrite Es in Es'. injection Es' as <- <-.
  assert (region_addr (e_addr e) (reg_size info) <$> rs = region_at info e <$> rs) as Eaddr.
  { apply list_fmap_ext. intros i r Hlk. apply (region_addr_exact info magic e Hinfo He).
    by destruct (Forall_lookup_1 _ _ _ _ Hall Hlk). }
  assert (arena_slab_reg_alloc_batch e info cnt =
    Done (region_at info e <$> rs, edata_nfree_set (edata_nfree_get e - cnt) (set_slab_data bm' e))) as Eb.
  { unfold arena_slab_reg_alloc_batch, edata_slab_data_get, edata_addr_get.
    destruct (group_at_ok (e_slab_data e) 0) as (g & E0 & L0); [dlia|]. rewrite E0. cbn [mbind outcome_bind].
    destruct (batch_loop_ok (nregs info) (bitmap_info info) (e_addr e) (reg_size info) (Z.to_nat cnt) cnt (e_slab_data e) 0 g)
      as (rs2 & bm2 & E2 & Es2); [done|lia|lia|done|lia|lia|lia|].
    rewrite Es in Es2. injection Es2 as <- <-. rewrite E2. cbn [mbind outcome_bind]. rewrite Eaddr.
    rewrite nfree_sub_ok; [done|apply He|]. exact Hcnt. }
  split; [rewrite Eb, Er; by rewrite Z2Nat.id by lia|]. eexists _, _. split; [exact Eb|].
  rewrite length_fmap. split; [done|]. apply NoDup_fmap_2_strong; [|done].
  intros r1 r2 _ _ Heq. unfold region_at in Heq. pose proof (bo_size info magic Hinfo). nia.
Qed.

(** ** Fresh slabs *)

Lemma fbit_replicate_ones m i rest :
  0 ≤ i < 64 * Z.of_nat m → fbit (replicate m all_ones ++ rest) i = true.
Proof.
  intros Hi. rewrite (fbit_group _ (i / 64) all_ones).
  - rewrite all_ones_bits; dlia.
  - rewrite lookup_app_l by (rewrite length_replicate; dlia). apply lookup_replicate_2. dlia.
  - done.
Qed.

Lemma bitmap_init_ok n bm :
  0 < n ≤ 512 → Forall is_u64 bm → length bm = 8%nat →
  ∃ bm', bitmap_init bm (bitmap_info_init n) false = Done bm' ∧ bm_ok n bm' ∧ ∀ i, 0 ≤ i < n → fbit bm' i = true.
Proof.
  intros Hn Hu Hl. set (G := (n + 63) / 64). assert (1 ≤ G ≤ 8 ∧ 64 * (G - 1) < n ≤ 64 * G) as [HG Hng] by (unfold G; dlia).
  unfold bitmap_init, fill_bitmap, bitmap_size, bitmap_info_ngroups, bitmap_info_init. cbn [nbits ngroups].
  rewrite bits2groups by lia. fold G.
  assert (shl64 G LG_SIZEOF_BITMAP / shl64 1 LG_SIZEOF_BITMAP = G) as ->.
  { change LG_SIZEOF_BITMAP with 3. change (shl64 1 3) with 8. unfold shl64. rewrite Z.shiftl_mul_pow2, u64_small by (unfold is_u64; lia).
    change (2 ^ 3) with 8. by rewrite Z.div_mul. }
  rewrite Hl, (proj2 (Z.ltb_ge _ _)) by lia. cbn [mbind outcome_bind].
  set (bm1 := replicate (Z.to_nat G) all_ones ++ drop (Z.to_nat G) bm).
  assert (Forall is_u64 bm1) as Hu1.
  { apply Forall_app. split; [apply Forall_replicate, all_ones_u64|by apply Forall_drop]. }
  assert (length bm1 = 8%nat) as Hl1 by (unfold bm1; rewrite length_app, length_replicate, length_drop; lia).
  assert (∀ i, 0 ≤ i < 64 * G → fbit bm1 i = true) as Hb1.
  { intros i Hi. apply fbit_replicate_ones. lia. }
  change BITMAP_GROUP_NBITS_MASK with (2 ^ 6 - 1). change BITMAP_GROUP_NBITS with 64. rewrite !land_low by lia.
  rewrite u64_small by (unfold is_u64; dlia). change (2 ^ 6) with 64.
  assert ((64 - n mod 64) mod 64 = 64 * G - n) as -> by dlia.
  destruct (Z.eqb_spec (64 * G - n) 0) as [E0|E0].
  - exists bm1. split; [done|]. split; [|intros i Hi; apply Hb1; lia]. split; [done|lia|]. intros i Hi. fold G in Hi. lia.
  - destruct (group_at_ok bm1 (G - 1)) as (g & -> & Eg); [lia|]. cbn [mbind outcome_bind]. rewrite set_group_ok by lia.
    assert (g = all_ones) as ->.
    { unfold bm1 in Eg. rewrite lookup_app_l in Eg by (rewrite length_replicate; lia). by apply lookup_replicate in Eg as [-> _]. }
    assert (∀ i, 0 ≤ i < 64 * G → fbit (<[Z.to_nat (G - 1):=Z.shiftr all_ones (64 * G - n)]> bm1) i = (i <? n)) as Hb2.
    { intros i Hi. rewrite fbit_insert by lia. case_decide as E.
      - rewrite testbit_all_ones_shr by dlia. apply eq_true_iff_eq. rewrite !Z.ltb_lt. dlia.
      - rewrite Hb1 by lia. symmetry. apply Z.ltb_lt. dlia. }
    eexists. split; [done|]. split; [split|].
    + apply Forall_insert; [done|]. apply shr_all_ones_u64. lia.
    + rewrite length_insert. lia.
    + intros i Hi. rewrite Hb2 by lia. apply Z.ltb_ge. lia.
    + intros i Hi. rewrite Hb2 by lia. apply Z.ltb_lt. lia.
Qed.

Lemma slab_init_ok info magic e binshard :
  bin_ok info magic → is_u64 (e_bits e) → 0 ≤ e_addr e → e_addr e + bin_slab_size info ≤ 2 ^ 64 →
  Forall is_u64 (e_slab_data e) → length (e_slab_data e) = 8%nat → in_field EDATA_BITS_BINSHARD binshard →
  ∃ e', slab_init info binshard e = Done e' ∧ slab_inv info e' ∧ edata_nfree_get e' = nregs info ∧ e_addr e' = e_addr e ∧
    ∀ r, 0 ≤ r < nregs info → region_free e' r.
Proof.
  intros Hinfo Hb Ha0 Ha Hu Hl Hs. pose proof (bo_nregs info magic Hinfo) as Hn. unfold slab_init.
  assert (in_field EDATA_BITS_NFREE (nregs info)) as Hf by (unfold in_field; change (width EDATA_BITS_NFREE) with 10; lia).
  rewrite nfree_binshard_ok by done. rewrite (bo_bitmap info magic Hinfo).
  destruct (bitmap_init_ok (nregs info) (e_slab_data e) Hn Hu Hl) as (bm & E & Hbm & Hbits).
  change (edata_slab_data_get _) with (e_slab_data e). rewrite E. cbn [mbind outcome_bind].
  assert (is_u64 (e_bits (edata_binshard_set binshard e))) as Hu2 by (simpl; by apply field_set_u64).
  assert (edata_nfree_get (set_slab_data bm (edata_nfree_set (nregs info) (edata_binshard_set binshard e))) = nregs info) as En.
  { change (edata_nfree_get (edata_nfree_set (nregs info) (edata_binshard_set binshard e)) = nregs info). by apply nfree_set_get. }
  eexists. split; [done|]. split; [|split; [exact En|split; [done|exact Hbits]]]. split; [|done|done|].
  - change (is_u64 (e_bits (edata_nfree_set (nregs info) (edata_binshard_set binshard e)))). by apply nfree_set_u64.
  - rewrite En. change (nregs info = nfree_of (nregs info) bm). unfold nfree_of.
    rewrite (count_const true); [simpl Z.b2z; lia|]. intros i Hi. apply Hbits. lia.
Qed.

(** ** The bins of a booted allocator *)

(** [bin_ok] of a size class, as a test, with the divisor [arena_boot] computes. *)
Definition bin_check (c : sc) (info : bin_info_t) : bool :=
  bool_decide (2 ≤ reg_size info) && bool_decide (0 < nregs info ≤ 512) &&
  bool_decide (nregs info * reg_size info ≤ bin_slab_size info) && bool_decide (bin_slab_size info < 2 ^ 32) &&
  bool_decide (nbits (bitmap_info info) = nregs info ∧ ngroups (bitmap_info info) = BITMAP_BITS2GROUPS (nregs info)) &&
  bool_decide (bin_div_info c = div_init (reg_size info)) && bool_decide (reg_size info = sc_size c).

Lemma bin_check_ok c info : bin_check c info = true → ∃ magic, bin_div_info c = Done magic ∧ bin_ok info magic ∧ reg_size info = sc_size c.
Proof.
  unfold bin_check. rewrite !andb_true_iff, !bool_decide_eq_true. intros ((((((H1 & H2) & H3) & H4) & (H5 & H6)) & H7) & H8).
  rewrite H7. unfold div_init at 1. rewrite (proj2 (Z.eqb_neq _ _)) by lia. eexists. split; [done|]. split; [|done].
  split; try done.
  - destruct (bitmap_info info) as [nb ng]. simpl in *. by subst.
  - unfold div_init. by rewrite (proj2 (Z.eqb_neq _ _)) by lia.
Qed.

Definition bins_check : bool :=
  match sc_boot with
  | Done d =>
      match bin_info_boot d (replicate (Z.to_nat SC_NBINS) 1) with
      | Done infos => (Z.of_nat (length infos) =? SC_NBINS) && forallb (λ p, bin_check p.1 p.2) (zip (scs d) infos)
      | Fault _ => false
      end
  | Fault _ => false
  end.

Lemma bins_check_boot :
  ∃ d infos, sc_boot = Done d ∧ bin_info_boot d (replicate (Z.to_nat SC_NBINS) 1) = Done infos ∧
    Z.of_nat (length infos) = SC_NBINS ∧ forallb (λ p, bin_check p.1 p.2) (zip (scs d) infos) = true.
Proof.
  assert (bins_check = true) as H by (vm_compute; reflexivity). unfold bins_check in H.
  destruct sc_boot as [d|]; [|discriminate]. destruct (bin_info_boot d _) as [infos|] eqn:E; [|discriminate].
  apply andb_true_iff in H as [H1 H2]. apply Z.eqb_eq in H1. exists d, infos. split; [reflexivity|]. split; [exact E|]. split; [exact H1|exact H2].
Qed.

(** Every small size class of a booted allocator has slabs that work: the bins are
    set up without a fault, one per class, with the divisor for its region size;
    a slab prepared for a bin has all its regions free and satisfies the invariant on
    which allocation and deallocation rely. *)
Theorem bins_boot_ok :
  ∃ d infos, sc_boot = Done d ∧ bin_info_boot d (replicate (Z.to_nat SC_NBINS) 1) = Done infos ∧
    Z.of_nat (length infos) = SC_NBINS ∧
    ∀ i c info, scs d !! i = Some c → infos !! i = Some info →
      ∃ magic, bin_div_info c = Done magic ∧ bin_ok info magic ∧ reg_size info = sc_size c ∧
        ∀ e binshard, is_u64 (e_bits e) → 0 ≤ e_addr e → e_addr e + bin_slab_size info ≤ 2 ^ 64 →
          Forall is_u64 (e_slab_data e) → length (e_slab_data e) = 8%nat → in_field EDATA_BITS_BINSHARD binshard →
          ∃ e', slab_init info binshard e = Done e' ∧ slab_inv info e' ∧ edata_nfree_get e' = nregs info.
Proof.
  destruct bins_check_boot as (d & infos & Ed & Ei & Hlen & Hall). exists d, infos. split; [exact Ed|]. split; [exact Ei|]. split; [exact Hlen|].
  clear Ed Ei Hlen. intros i c info Hc Hi. destruct (bin_check_ok c info) as (magic & Em & Hok & Es).
  { rewrite forallb_forall in Hall. apply (Hall (c, info)). apply list_elem_of_In.
    apply (list_elem_of_lookup_2 _ i), lookup_zip_with_Some. exists c, info. split; [reflexivity|]. split; [exact Hc|exact Hi]. }
  exists magic. split; [done|]. split; [done|]. split; [done|]. intros e binshard H1 H2 H3 H4 H5 H6.
  destruct (slab_init_ok info magic e binshard Hok H1 H2 H3 H4 H5 H6) as (e' & E & Hinv & Hn & _). by exists e'.
Qed.

(** ** A concrete slab: 128 regions of 32 bytes *)

Definition info32 : bin_info_t := mkBinInfo 32 4096 128 1 (bitmap_info_init 128).
Definition magic32 : Z := 134217728.
Definition fresh32 : edata_t := mkEdata 0 (2 ^ 20) 4096 0 0 (replicate 8 7).
Definition slab32 : edata_t := match slab_init info32 3 fresh32 with Done e => e | Fault _ => fresh32 end.

Lemma info32_ok : bin_ok info32 magic32.
Proof. split; by vm_compute. Qed.

Lemma slab32_ok : slab_inv info32 slab32 ∧ edata_nfree_get slab32 = 128.
Proof.
  destruct (slab_init_ok info32 magic32 fresh32 3 info32_ok) as (e' & E & He & Hn & _);
    [by vm_compute|by vm_compute|by vm_compute|by repeat constructor|done|by vm_compute|].
  unfold slab32. rewrite E. by split.
Qed.

Lemma slab_alloc_lowest_witness :
  ∃ r e', arena_slab_reg_alloc slab32 info32 = Done (region_at info32 slab32 r, e') ∧ edata_nfree_get e' = 127.
Proof.
  destruct (slab_alloc_lowest info32 magic32 slab32 info32_ok (proj1 slab32_ok)) as (r & e' & E & _ & _ & _ & _ & _ & Hn & _);
    [rewrite (proj2 slab32_ok); lia|].
  exists r, e'. split; [exact E|]. rewrite Hn, (proj2 slab32_ok). reflexivity.
Defined.

Lemma slab_alloc_dalloc_witness :
  ∃ ptr e' info', arena_slab_reg_alloc slab32 info32 = Done (ptr, e') ∧
    arena_dalloc_bin_locked_step true true info32 (arena_dalloc_bin_locked_begin magic32 info32) e' ptr =
      Done (NewlyEmpty, slab32, info').
Proof.
  destruct (slab_alloc_dalloc info32 magic32 slab32 true true info32_ok (proj1 slab32_ok)) as (ptr & e' & move & info' & E1 & E2 & Hm);
    [rewrite (proj2 slab32_ok); lia|].
  exists ptr, e', info'. split; [exact E1|]. rewrite E2. rewrite (proj2 Hm (proj2 slab32_ok)). reflexivity.
Defined.

Lemma slab_batch_equals_singles_witness :
  arena_slab_reg_alloc_batch slab32 info32 100 = reg_alloc_n (Z.to_nat 100) slab32 info32.
Proof.
  apply (slab_batch_equals_singles info32 magic32 slab32 100 info32_ok (proj1 slab32_ok)).
  rewrite (proj2 slab32_ok). lia.
Defined.

(** ** The search for the next free region reads past the bitmap

    When the regions from [min_bit] on are all in use, the loop of [bitmap_ffu] reads group
    [ngroups] before it sees that there is none: past the array of eight groups
    for a slab of 512 regions. *)
Theorem bitmap_ffu_overreads :
  bitmap_ffu (replicate 8 0) (bitmap_info_init 512) 0 = Fault OutOfBounds.
Proof. by vm_compute. Qed.
