(* ===== verification/Ph.v ===== *)
(** * Pairing heaps, [jemalloc/include/jemalloc/internal/ph.h]

    Data and operations.  A heap is made of nodes with three links each, threaded
    through the objects it holds: [lchild] to the first child, [next] to the right
    sibling, and [prev] to the left sibling or, in a first child, to the parent.  The
    right siblings of the root are the list of insertions that are not merged yet.
    The links live in a store that several heaps may share; a null pointer is 0.
    [PhFacts] relates the links to the trees they stand for. *)
From stdpp Require Import base list gmap numbers.
From S2P Require Import Prelude BitUtil.

Record phn_link_t : Type := mkLink { prev : Z; next : Z; lchild : Z }.

Record ph_t : Type := mkPh { root : Z; auxcount : Z }.

#[export] Instance phn_link_eq_dec : EqDecision phn_link_t.
Proof. solve_decision. Defined.
#[export] Instance ph_eq_dec : EqDecision ph_t.
Proof. solve_decision. Defined.

Abbreviation links := (gmap Z phn_link_t).
(** A store and a heap in it. *)
Abbreviation ph_mem := (gmap Z phn_link_t * ph_t)%type.

(** ** Links *)

Definition phn_link_get (phn : Z) : M links phn_link_t :=
  h ← get;
  if phn =? 0 then throw NullDeref else liftO (h !! phn ?? BadPointer).

Definition phn_link_set (phn : Z) (f : phn_link_t → phn_link_t) : M links unit :=
  l ← phn_link_get phn; modify (insert phn (f l)).

Definition phn_link_init (phn : Z) : M links unit :=
  if phn =? 0 then throw NullDeref else modify (insert phn (mkLink 0 0 0)).

Definition phn_lchild_get (phn : Z) : M links Z := l ← phn_link_get phn; mret (lchild l).
Definition phn_lchild_set (phn v : Z) : M links unit :=
  phn_link_set phn (λ l, mkLink (prev l) (next l) v).
Definition phn_next_get (phn : Z) : M links Z := l ← phn_link_get phn; mret (next l).
Definition phn_next_set (phn v : Z) : M links unit :=
  phn_link_set phn (λ l, mkLink (prev l) v (lchild l)).
Definition phn_prev_get (phn : Z) : M links Z := l ← phn_link_get phn; mret (prev l).
Definition phn_prev_set (phn v : Z) : M links unit :=
  phn_link_set phn (λ l, mkLink v (next l) (lchild l)).

(** [if (phn != NULL) { ... }] *)
Definition unless_null {S} (phn : Z) (m : M S unit) : M S unit :=
  if phn =? 0 then mret tt else m.

Section ops.
(** The comparison of the objects a heap holds. *)
Variable cmp : Z → Z → Z.

(** ** Merging *)

Definition phn_merge_ordered (phn0 phn1 : Z) : M links unit :=
  phn_prev_set phn1 phn0;;
  phn0child ← phn_lchild_get phn0;
  phn_next_set phn1 phn0child;;
  unless_null phn0child (phn_prev_set phn0child phn1);;
  phn_lchild_set phn0 phn1.

Definition phn_merge (phn0 phn1 : Z) : M links Z :=
  if phn0 =? 0 then mret phn1
  else if phn1 =? 0 then mret phn0
  else if cmp phn0 phn1 <? 0 then phn_merge_ordered phn0 phn1;; mret phn0
  else phn_merge_ordered phn1 phn0;; mret phn1.

(** Take [phn0] and [phn1] off the list of siblings, [phnrest] being what follows
    them, and merge them. *)
Definition merge_pair (phn0 phn1 phnrest : Z) : M links Z :=
  unless_null phnrest (phn_prev_set phnrest 0);;
  phn_prev_set phn0 0;;
  phn_next_set phn0 0;;
  phn_prev_set phn1 0;;
  phn_next_set phn1 0;;
  phn_merge phn0 phn1.

(** [while (phn0 != NULL)] of the pass over the siblings; returns [tail]. *)
Fixpoint siblings_pass (fuel : nat) (tail phn0 : Z) : M links Z :=
  if phn0 =? 0 then mret tail else
  match fuel with
  | O => throw Diverges
  | S fuel =>
      phn1 ← phn_next_get phn0;
      if phn1 =? 0 then
        phn_next_set tail phn0;;
        siblings_pass fuel phn0 0
      else
        phnrest ← phn_next_get phn1;
        phn0 ← merge_pair phn0 phn1 phnrest;
        phn_next_set tail phn0;;
        siblings_pass fuel phn0 phnrest
  end.

(** [while (true)] over the queue of merged trees; returns the last tree. *)
Fixpoint queue_pass (fuel : nat) (tail phn0 phn1 : Z) : M links Z :=
  match fuel with
  | O => throw Diverges
  | S fuel =>
      head ← phn_next_get phn1;
      phn_next_set phn0 0;;
      phn_next_set phn1 0;;
      phn0 ← phn_merge phn0 phn1;
      if head =? 0 then mret phn0 else
      phn_next_set tail phn0;;
      phn1 ← phn_next_get head;
      queue_pass fuel phn0 head phn1
  end.

(** Every turn of the two loops takes a node off a list of distinct nodes. *)
Definition phn_merge_siblings (phn : Z) : M links Z :=
  h ← get;
  let fuel := size h in
  phn1 ← phn_next_get phn;
  if phn1 =? 0 then mret phn else
  phnrest ← phn_next_get phn1;
  phn0 ← merge_pair phn phn1 phnrest;
  tail ← siblings_pass fuel phn0 phnrest;
  let head := phn0 in
  phn1 ← phn_next_get head;
  if phn1 =? 0 then mret head else queue_pass fuel tail head phn1.

Definition ph_merge_children (phn : Z) : M links Z :=
  lchild ← phn_lchild_get phn;
  if lchild =? 0 then mret 0 else phn_merge_siblings lchild.

(** ** Operations on a heap *)

Definition on_links {A} (m : M links A) : M ph_mem A :=
  zoom fst (λ h s, (h, s.2)) m.
Definition get_root : M ph_mem Z := s ← get; mret (root s.2).
Definition set_root (r : Z) : M ph_mem unit := modify (λ s, (s.1, mkPh r (auxcount s.2))).
Definition get_auxcount : M ph_mem Z := s ← get; mret (auxcount s.2).
Definition set_auxcount (n : Z) : M ph_mem unit := modify (λ s, (s.1, mkPh (root s.2) n)).

Definition ph_merge_aux : M ph_mem unit :=
  set_auxcount 0;;
  r ← get_root;
  phn ← on_links (phn_next_get r);
  unless_null phn (
    on_links (phn_prev_set r 0);;
    on_links (phn_next_set r 0);;
    on_links (phn_prev_set phn 0);;
    phn ← on_links (phn_merge_siblings phn);
    r' ← on_links (phn_merge r phn);
    set_root r').

Definition ph_new : M ph_mem unit := set_root 0;; set_auxcount 0.

Definition ph_empty : M ph_mem bool := r ← get_root; mret (r =? 0).

Definition ph_first : M ph_mem Z :=
  r ← get_root;
  if r =? 0 then mret 0 else
  ph_merge_aux;;
  get_root.

Definition ph_any : M ph_mem Z :=
  r ← get_root;
  if r =? 0 then mret 0 else
  aux ← on_links (phn_next_get r);
  if aux =? 0 then mret r else mret aux.

Definition ph_try_aux_merge_pair : M ph_mem bool :=
  r ← get_root;
  phn0 ← on_links (phn_next_get r);
  if phn0 =? 0 then mret true else
  phn1 ← on_links (phn_next_get phn0);
  if phn1 =? 0 then mret true else
  next_phn1 ← on_links (phn_next_get phn1);
  on_links (phn_next_set phn0 0);;
  on_links (phn_prev_set phn0 0);;
  on_links (phn_next_set phn1 0);;
  on_links (phn_prev_set phn1 0);;
  phn0 ← on_links (phn_merge phn0 phn1);
  on_links (phn_next_set phn0 next_phn1);;
  unless_null next_phn1 (on_links (phn_prev_set next_phn1 phn0));;
  on_links (phn_next_set r phn0);;
  on_links (phn_prev_set phn0 r);;
  mret (next_phn1 =? 0).

(** [for (i = 0; i < nmerges && !done; i++)] *)
Fixpoint aux_merges (n : nat) : M ph_mem unit :=
  match n with
  | O => mret tt
  | S n =>
      done ← ph_try_aux_merge_pair;
      if done : bool then mret tt else aux_merges n
  end.

(** The tail of [ph_insert]: after [n] insertions, [ffs(n - 1)] merges. *)
Definition insert_merges : M ph_mem unit :=
  n ← get_auxcount;
  if 1 <? n then aux_merges (Z.to_nat (ffs_lu (n - 1))) else mret tt.

Definition ph_insert (phn : Z) : M ph_mem unit :=
  on_links (phn_link_init phn);;
  r ← get_root;
  if r =? 0 then set_root phn;; insert_merges
  else if cmp phn r <? 0 then
    on_links (phn_lchild_set phn r);;
    on_links (phn_prev_set r phn);;
    set_root phn;;
    set_auxcount 0
  else
    n ← get_auxcount;
    set_auxcount (u64 (n + 1));;
    aux ← on_links (phn_next_get r);
    on_links (phn_next_set phn aux);;
    unless_null aux (on_links (phn_prev_set aux phn));;
    on_links (phn_prev_set phn r);;
    on_links (phn_next_set r phn);;
    insert_merges.

Definition ph_remove_first : M ph_mem Z :=
  r ← get_root;
  if r =? 0 then mret 0 else
  ph_merge_aux;;
  ret ← get_root;
  r' ← on_links (ph_merge_children ret);
  set_root r';;
  mret ret.

(** [ph_remove] below the root: put the merged children of [phn] in its place. *)
Definition ph_unlink (phn : Z) : M links unit :=
  parent ← phn_prev_get phn;
  parent ← (if parent =? 0 then mret 0 else
            lc ← phn_lchild_get parent;
            mret (if lc =? phn then parent else 0));
  replace ← ph_merge_children phn;
  if negb (replace =? 0) then
    (if negb (parent =? 0) then
       phn_prev_set replace parent;;
       phn_lchild_set parent replace
     else
       pv ← phn_prev_get phn;
       phn_prev_set replace pv;;
       unless_null pv (phn_next_set pv replace));;
    nx ← phn_next_get phn;
    phn_next_set replace nx;;
    unless_null nx (phn_prev_set nx replace)
  else
    nx ← phn_next_get phn;
    (if negb (parent =? 0) then
       phn_lchild_set parent nx;;
       unless_null nx (phn_prev_set nx parent)
     else
       pv ← phn_prev_get phn;
       phn_next_set pv nx);;
    unless_null nx (pv ← phn_prev_get phn; phn_prev_set nx pv).

Definition ph_remove (phn : Z) : M ph_mem unit :=
  r ← get_root;
  if r =? phn then
    lc ← on_links (phn_lchild_get phn);
    if lc =? 0 then
      r' ← on_links (phn_next_get phn);
      set_root r';;
      unless_null r' (on_links (phn_prev_set r' 0))
    else
      ph_merge_aux;;
      r ← get_root;
      if r =? phn then
        r' ← on_links (ph_merge_children r);
        set_root r'
      else on_links (ph_unlink phn)
  else on_links (ph_unlink phn).

Definition ph_remove_any : M ph_mem Z :=
  ret ← ph_any;
  if ret =? 0 then mret 0 else ph_remove ret;; mret ret.
End ops.

(** ** An interface for clients

    What the users of a heap need of its comparison: a total preorder. *)
Class Comparison (cmp : Z → Z → Z) : Prop := {
  cmp_total : ∀ x y, 0 ≤ cmp x y → cmp y x ≤ 0;
  cmp_trans : ∀ x y z, cmp x y ≤ 0 → cmp y z ≤ 0 → cmp x z ≤ 0
}.
