(* ===== verification/PhFacts.v ===== *)
(** * The trees of a pairing heap

    A heap stands for a [forest]: a node, its children and its right siblings.  [rep]
    says that the links in the store are those of a forest, [hord] that every node
    is at most its descendants.  The merges of [Ph] are shown to build
    one tree out of the nodes they are given, and to touch no other. *)
From stdpp Require Import base list gmap numbers.
From S2P Require Import Prelude BitUtil Ph.

Inductive forest : Type :=
| Nil
| Node (p : Z) (children siblings : forest).

#[export] Instance forest_eq_dec : EqDecision forest.
Proof. solve_decision. Defined.

Definition fhead (f : forest) : Z := match f with Nil => 0 | Node p _ _ => p end.

Fixpoint nodes (f : forest) : list Z :=
  match f with Nil => [] | Node p c s => p :: nodes c ++ nodes s end.

(** The links of [h] are those of [f], whose first root has [pv] as its [prev]. *)
Fixpoint rep (h : links) (pv : Z) (f : forest) : Prop :=
  match f with
  | Nil => True
  | Node p c s =>
      p ≠ 0 ∧ h !! p = Some (mkLink pv (fhead s) (fhead c)) ∧ rep h p c ∧ rep h p s
  end.

(** [h'] differs from [h] on [X] only. *)
Definition only_on (X : list Z) (h h' : links) : Prop := ∀ q, q ∉ X → h' !! q = h !! q.

#[export] Instance only_on_proper : Proper ((≡ₚ) ==> (=) ==> (=) ==> iff) only_on.
Proof.
  intros X Y HXY h ? <- h' ? <-. unfold only_on. split; intros H q Hq; apply H.
  - by rewrite HXY.
  - by rewrite <- HXY.
Qed.

Lemma only_on_refl X h : only_on X h h.
Proof. done. Qed.

Lemma only_on_trans X h1 h2 h3 : only_on X h1 h2 → only_on X h2 h3 → only_on X h1 h3.
Proof. intros H1 H2 q Hq. by rewrite H2, H1. Qed.

Lemma only_on_mono X Y h h' : X ⊆ Y → only_on X h h' → only_on Y h h'.
Proof. intros Hs H q Hq. apply H. set_solver. Qed.

Lemma only_on_insert X h p l : p ∈ X → only_on X h (<[p:=l]> h).
Proof. intros Hp q Hq. rewrite lookup_insert_ne; [done|]. by intros ->. Qed.

(** ** Representation *)

Lemma rep_frame h h' pv f :
  rep h pv f → (∀ q, q ∈ nodes f → h' !! q = h !! q) → rep h' pv f.
Proof.
  revert pv. induction f as [|p c IHc s IHs]; [done|]. intros pv (Hp & E & Hc & Hs) Hq.
  simpl. rewrite Hq by (simpl; set_solver). split_and!; [done|done|apply IHc|apply IHs];
    [done| |done|]; intros q Hin; apply Hq; simpl; set_solver.
Qed.

Lemma rep_only_on h h' pv f X :
  rep h pv f → only_on X h h' → (∀ q, q ∈ nodes f → q ∉ X) → rep h' pv f.
Proof. intros H Ho Hd. apply (rep_frame h); [done|]. intros q Hq. apply Ho; auto. Qed.

Lemma rep_insert h pv f p l : rep h pv f → p ∉ nodes f → rep (<[p:=l]> h) pv f.
Proof.
  intros H Hp. apply (rep_frame h); [done|]. intros q Hq. rewrite lookup_insert_ne; [done|].
  by intros ->.
Qed.

Lemma rep_fhead h pv f : rep h pv f → fhead f = 0 → f = Nil.
Proof. destruct f as [|p c s]; [done|]. intros (Hp & _) E. by destruct Hp. Qed.

Lemma fhead_in f : f ≠ Nil → fhead f ∈ nodes f.
Proof. destruct f; [done|]. simpl. set_solver. Qed.

Lemma rep_nonzero h pv f : rep h pv f → 0 ∉ nodes f.
Proof.
  revert pv. induction f as [|p c IHc s IHs]; simpl; [set_solver|].
  intros pv (Hp & _ & Hc%IHc & Hs%IHs). set_solver.
Qed.

Lemma rep_lookup h pv f p : rep h pv f → p ∈ nodes f → is_Some (h !! p).
Proof.
  revert pv. induction f as [|q c IHc s IHs]; simpl; [set_solver|].
  intros pv (Hp & E & Hc & Hs) [->|[Hin|Hin]%elem_of_app]%elem_of_cons; eauto.
Qed.

(** The first root's [prev] may be redirected. *)
Lemma rep_reprev h pv pv' f l :
  rep h pv f → NoDup (nodes f) → h !! fhead f = Some l →
  rep (<[fhead f:=mkLink pv' (next l) (lchild l)]> h) pv' f.
Proof.
  destruct f as [|p c s]; [done|]. simpl. intros (Hp & E & Hc & Hs) Hnd E'.
  apply list.NoDup_cons in Hnd as [Hin _]. simplify_eq/=.
  split_and!; [done| |apply rep_insert; set_solver..]. by rewrite lookup_insert_eq.
Qed.

(** ** Running the primitives *)

Section prims.
Context (h : links) (p : Z) (l : phn_link_t).
Hypothesis (Hp : p ≠ 0) (E : h !! p = Some l).

Lemma phn_link_get_ok : phn_link_get p h = Done (l, h).
Proof.
  unfold phn_link_get. erewrite bind_done by reflexivity.
  rewrite (proj2 (Z.eqb_neq p 0)) by done. unfold liftO. by rewrite E.
Qed.

Lemma phn_link_set_ok f : phn_link_set p f h = Done (tt, <[p:=f l]> h).
Proof. unfold phn_link_set. by erewrite bind_done by apply phn_link_get_ok. Qed.

Lemma phn_next_get_ok : phn_next_get p h = Done (next l, h).
Proof. unfold phn_next_get. by erewrite bind_done by apply phn_link_get_ok. Qed.
Lemma phn_prev_get_ok : phn_prev_get p h = Done (prev l, h).
Proof. unfold phn_prev_get. by erewrite bind_done by apply phn_link_get_ok. Qed.
Lemma phn_lchild_get_ok : phn_lchild_get p h = Done (lchild l, h).
Proof. unfold phn_lchild_get. by erewrite bind_done by apply phn_link_get_ok. Qed.
Lemma phn_next_set_ok v : phn_next_set p v h = Done (tt, <[p:=mkLink (prev l) v (lchild l)]> h).
Proof. apply phn_link_set_ok. Qed.
Lemma phn_prev_set_ok v : phn_prev_set p v h = Done (tt, <[p:=mkLink v (next l) (lchild l)]> h).
Proof. apply phn_link_set_ok. Qed.
Lemma phn_lchild_set_ok v : phn_lchild_set p v h = Done (tt, <[p:=mkLink (prev l) (next l) v]> h).
Proof. apply phn_link_set_ok. Qed.
End prims.

Lemma unless_null_0 {S} (m : M S unit) s : unless_null 0 m s = Done (tt, s).
Proof. done. Qed.
Lemma unless_null_ne {S} p (m : M S unit) s : p ≠ 0 → unless_null p m s = m s.
Proof. intros Hp. unfold unless_null. by rewrite (proj2 (Z.eqb_neq p 0)). Qed.

(** A lookup in a store with several updates at distinct nodes. *)
Ltac look := simplify_map_eq; try reflexivity; try done.

(** One primitive of a sequence. *)
Ltac prim :=
  first
    [ erewrite bind_done by (eapply phn_next_get_ok; [done|look])
    | erewrite bind_done by (eapply phn_prev_get_ok; [done|look])
    | erewrite bind_done by (eapply phn_lchild_get_ok; [done|look])
    | erewrite bind_done by (eapply phn_next_set_ok; [done|look])
    | erewrite bind_done by (eapply phn_prev_set_ok; [done|look])
    | erewrite bind_done by (eapply phn_lchild_set_ok; [done|look])
    | erewrite phn_next_set_ok by (first [done|look])
    | erewrite phn_prev_set_ok by (first [done|look])
    | erewrite phn_lchild_set_ok by (first [done|look]) ]; cbn [prev next lchild].

(** [unless_null fhead (phn_prev_set fhead v)], the way the code guards it. *)
Lemma reprev_ok h pv pv' f :
  rep h pv f → NoDup (nodes f) →
  ∃ h', unless_null (fhead f) (phn_prev_set (fhead f) pv') h = Done (tt, h') ∧
        rep h' pv' f ∧ (∀ q, q ≠ fhead f → h' !! q = h !! q) ∧ h' !! 0 = h !! 0.
Proof.
  intros Hr Hnd. destruct f as [|p c s].
  - exists h. by rewrite unless_null_0.
  - destruct Hr as (Hp & E & Hc & Hs) eqn:Hr'. exists (<[p:=mkLink pv' (fhead s) (fhead c)]> h).
    rewrite unless_null_ne by done. split_and!.
    + cbn [fhead]. by prim.
    + apply (rep_reprev h pv pv' (Node p c s) (mkLink pv (fhead s) (fhead c))); done.
    + intros q Hq. by rewrite lookup_insert_ne.
    + by rewrite lookup_insert_ne.
Qed.

(** ** Heap order *)

Section order.
Context (cmp : Z → Z → Z).

Fixpoint hord (f : forest) : Prop :=
  match f with
  | Nil => True
  | Node p c s => Forall (λ q, cmp p q ≤ 0) (nodes c) ∧ hord c ∧ hord s
  end.

Context `{!Comparison cmp}.

Lemma cmp_le_refl x : cmp x x ≤ 0.
Proof. destruct (Z_le_gt_dec 0 (cmp x x)); [by apply cmp_total|lia]. Qed.

(** The tree on top takes the other one as its first child. *)
Lemma hord_link p0 c0 p1 c1 :
  hord (Node p0 c0 Nil) → hord (Node p1 c1 Nil) → cmp p0 p1 ≤ 0 →
  hord (Node p0 (Node p1 c1 c0) Nil).
Proof.
  simpl. intros (H0 & H1 & _) (H2 & H3 & _) Hle. split_and!; try done.
  constructor; [done|]. apply Forall_app. split; [|done].
  eapply Forall_impl; [|exact H2]. simpl. intros q Hq. by eapply cmp_trans.
Qed.
End order.

(** ** Merges *)

Lemma nodup_two (p0 p1 : Z) (l0 l1 : list Z) :
  NoDup ((p0 :: l0) ++ p1 :: l1) → p1 ≠ p0 ∧ p0 ∉ l0 ∧ p0 ∉ l1 ∧ p1 ∉ l0 ∧ p1 ∉ l1.
Proof.
  intros (Na & Hx & Nb)%list.NoDup_app.
  apply list.NoDup_cons in Na as [? _]. apply list.NoDup_cons in Nb as [? _].
  split_and!; set_solver.
Qed.

Section merges.
Context (cmp : Z → Z → Z).

Lemma phn_merge_ordered_ok h p0 c0 p1 c1 a b a' b' :
  p0 ≠ 0 → p1 ≠ 0 →
  h !! p0 = Some (mkLink a b (fhead c0)) → rep h p0 c0 →
  h !! p1 = Some (mkLink a' b' (fhead c1)) → rep h p1 c1 →
  NoDup ((p0 :: nodes c0) ++ p1 :: nodes c1) →
  ∃ h', phn_merge_ordered p0 p1 h = Done (tt, h') ∧
        h' !! p0 = Some (mkLink a b p1) ∧ rep h' p0 (Node p1 c1 c0) ∧
        only_on ((p0 :: nodes c0) ++ p1 :: nodes c1) h h'.
Proof.
  intros Hp0 Hp1 E0 R0 E1 R1 Hnd.
  apply list.NoDup_app in Hnd as (N0 & Hd & N1).
  apply list.NoDup_cons in N0 as [I0 N0]. apply list.NoDup_cons in N1 as [I1 N1].
  assert (p1 ≠ p0) by (intros ->; set_solver).
  assert (p1 ∉ nodes c0) by set_solver. assert (p0 ∉ nodes c1) by set_solver.
  unfold phn_merge_ordered. do 3 prim.
  destruct (reprev_ok (<[p1:=mkLink p0 (fhead c0) (fhead c1)]> h) p0 p1 c0)
    as (h1 & Er & R0' & Ho & _); [by apply rep_insert|done|].
  assert (Hc0 : ∀ q, q ∉ nodes c0 → h1 !! q = <[p1:=mkLink p0 (fhead c0) (fhead c1)]> h !! q).
  { intros q Hq. destruct (decide (q = fhead c0)) as [->|Hne]; [|by apply Ho].
    destruct c0 as [|x ? ?]; [|by destruct Hq; apply fhead_in]. injection Er as <-. done. }
  rewrite insert_insert_eq. erewrite bind_done by exact Er.
  assert (h1 !! p0 = Some (mkLink a b (fhead c0))) by (rewrite Hc0 by done; by simplify_map_eq).
  prim. eexists. split; [done|]. split; [by simplify_map_eq|]. split; [split_and!|].
  - done.
  - rewrite lookup_insert_ne by done. rewrite Hc0 by done. by simplify_map_eq.
  - apply rep_insert; [|done]. apply (rep_frame h); [done|]. intros q Hq.
    rewrite Hc0 by set_solver. rewrite lookup_insert_ne; [done|]. by intros ->.
  - by apply rep_insert.
  - intros q Hq. rewrite lookup_insert_ne by set_solver. rewrite Hc0 by set_solver.
    rewrite lookup_insert_ne by set_solver. done.
Qed.

(** A tree that is on no list. *)
Definition lone (h : links) (p : Z) (c : forest) : Prop := rep h 0 (Node p c Nil).

Lemma phn_merge_ok h p0 c0 p1 c1 :
  lone h p0 c0 → lone h p1 c1 → NoDup ((p0 :: nodes c0) ++ p1 :: nodes c1) →
  ∃ h' p c,
    phn_merge cmp p0 p1 h = Done (p, h') ∧ lone h' p c ∧
    p :: nodes c ≡ₚ (p0 :: nodes c0) ++ p1 :: nodes c1 ∧
    only_on ((p0 :: nodes c0) ++ p1 :: nodes c1) h h' ∧
    (∀ `{!Comparison cmp}, hord cmp (Node p0 c0 Nil) → hord cmp (Node p1 c1 Nil) →
       hord cmp (Node p c Nil)).
Proof.
  intros (Hp0 & E0 & R0 & _) (Hp1 & E1 & R1 & _) Hnd. unfold phn_merge.
  rewrite (proj2 (Z.eqb_neq p0 0)), (proj2 (Z.eqb_neq p1 0)) by done.
  destruct (cmp p0 p1 <? 0) eqn:Hc.
  - destruct (phn_merge_ordered_ok h p0 c0 p1 c1 0 0 0 0) as (h' & E & Ep & Hr & Ho); try done.
    exists h', p0, (Node p1 c1 c0). erewrite bind_done by exact E.
    split_and!; try done.
    + simpl. f_equiv. rewrite (Permutation_app_comm (nodes c0)). simpl. done.
    + intros ? H0 H1. apply hord_link; [done..|]. lia.
  - destruct (phn_merge_ordered_ok h p1 c1 p0 c0 0 0 0 0) as (h' & E & Ep & Hr & Ho); try done.
    { by rewrite (Permutation_app_comm (p1 :: _)). }
    exists h', p1, (Node p0 c0 c1). erewrite bind_done by exact E.
    split_and!; try done.
    + simpl. rewrite <- Permutation_middle. rewrite Permutation_swap. done.
    + eapply only_on_mono; [|exact Ho]. set_solver.
    + intros ? H0 H1. apply hord_link; [done..|]. apply cmp_total. lia.
Qed.

(** Two trees that are taken off their lists and merged. *)
Lemma merge_detached h p0 c0 p1 c1 :
  p0 ≠ 0 → p1 ≠ 0 → rep h p0 c0 → rep h p1 c1 → NoDup ((p0 :: nodes c0) ++ p1 :: nodes c1) →
  ∃ h' p c,
    phn_merge cmp p0 p1
      (<[p1:=mkLink 0 0 (fhead c1)]> (<[p0:=mkLink 0 0 (fhead c0)]> h)) = Done (p, h') ∧
    lone h' p c ∧ p :: nodes c ≡ₚ (p0 :: nodes c0) ++ p1 :: nodes c1 ∧
    only_on ((p0 :: nodes c0) ++ p1 :: nodes c1) h h' ∧
    (∀ `{!Comparison cmp}, hord cmp (Node p0 c0 Nil) → hord cmp (Node p1 c1 Nil) →
       hord cmp (Node p c Nil)).
Proof.
  intros Hp0 Hp1 R0 R1 Hnd. destruct (nodup_two _ _ _ _ Hnd) as (H10 & I00 & I01 & I10 & I11).
  set (h1 := <[p1:=_]> _).
  destruct (phn_merge_ok h1 p0 c0 p1 c1) as (h' & p & c & E & L & Hperm & Hon & Hord); [..|done|].
  1,2: split_and!; [done|subst h1; by simplify_map_eq|subst h1; by do 2 (apply rep_insert; [|done])|done].
  exists h', p, c. split_and!; try done. intros q Hq. rewrite Hon by done. subst h1.
  by rewrite !lookup_insert_ne by set_solver.
Qed.

(** Taking two siblings off the front of a list and merging them. *)
Lemma merge_pair_ok h pv p0 c0 p1 c1 f :
  rep h pv (Node p0 c0 (Node p1 c1 f)) → NoDup (nodes (Node p0 c0 (Node p1 c1 f))) →
  ∃ h' p c,
    merge_pair cmp p0 p1 (fhead f) h = Done (p, h') ∧ lone h' p c ∧ rep h' 0 f ∧
    p :: nodes c ≡ₚ (p0 :: nodes c0) ++ p1 :: nodes c1 ∧
    only_on (nodes (Node p0 c0 (Node p1 c1 f))) h h' ∧
    (∀ `{!Comparison cmp}, hord cmp (Node p0 c0 (Node p1 c1 f)) → hord cmp (Node p c Nil)).
Proof.
  intros (Hp0 & E0 & R0 & Hp1 & E1 & R1 & Rf) Hnd.
  change (NoDup ((p0 :: nodes c0) ++ (p1 :: nodes c1) ++ nodes f)) in Hnd.
  rewrite (assoc_L (++)) in Hnd. apply list.NoDup_app in Hnd as (N01 & Hd & Nf).
  destruct (nodup_two _ _ _ _ N01) as (H10 & I00 & I01 & I10 & I11).
  assert (p0 ∉ nodes f ∧ p1 ∉ nodes f) as [If0 If1] by (split; apply Hd; set_solver).
  unfold merge_pair.
  destruct (reprev_ok h p1 0 f) as (h1 & Er & Rf' & Ho & Hz); [done|done|].
  assert (Hs : ∀ q, q ∉ nodes f → h1 !! q = h !! q).
  { intros q Hq. destruct (decide (q = fhead f)) as [->|Hne]; [|by apply Ho].
    destruct f as [|x ? ?]; [done|]. by destruct Hq; apply fhead_in. }
  erewrite bind_done by exact Er.
  assert (h1 !! p0 = Some (mkLink pv p1 (fhead c0))) by (by rewrite Hs).
  assert (h1 !! p1 = Some (mkLink p0 (fhead f) (fhead c1))) by (by rewrite Hs).
  do 4 prim. rewrite !insert_insert_eq.
  assert (Hsub : ∀ g, (∀ q, q ∈ nodes g → q ∈ (p0 :: nodes c0) ++ p1 :: nodes c1) → ∀ q, rep h q g → rep h1 q g).
  { intros g Hg q Hr. apply (rep_frame h); [done|]. intros x Hx. apply Hs, Hd, Hg, Hx. }
  destruct (merge_detached h1 p0 c0 p1 c1) as (h' & p & c & E & L & Hperm & Hon & Hord); [done|done| | |done|].
  - apply Hsub; [set_solver|done].
  - apply Hsub; [set_solver|done].
  - exists h', p, c. split_and!; [done..| |done| |].
    + eapply rep_only_on; [done|exact Hon|set_solver].
    + intros q Hq. simpl in Hq. rewrite Hon by (clear -Hq; set_solver). apply Hs. clear -Hq; set_solver.
    + intros ? (O0 & O1 & O2 & O3 & _). by apply Hord.
Qed.
End merges.

(** ** Queues of trees *)

Fixpoint tnodes (ts : list (Z * forest)) : list Z :=
  match ts with [] => [] | (p, c) :: ts => (p :: nodes c) ++ tnodes ts end.

Definition thead (ts : list (Z * forest)) : Z :=
  match ts with [] => 0 | (p, _) :: _ => p end.

(** The trees [ts] are linked by [next], with a null [prev] in each root. *)
Fixpoint fifo (h : links) (ts : list (Z * forest)) : Prop :=
  match ts with
  | [] => True
  | (p, c) :: ts =>
      p ≠ 0 ∧ h !! p = Some (mkLink 0 (thead ts) (fhead c)) ∧ rep h p c ∧ fifo h ts
  end.

Lemma tnodes_app ts us : tnodes (ts ++ us) = tnodes ts ++ tnodes us.
Proof. induction ts as [|[p c] ts IH]; simpl; [done|]. by rewrite IH, (assoc_L (++)). Qed.

Lemma length_tnodes ts : (length ts ≤ length (tnodes ts))%nat.
Proof. induction ts as [|[p c] ts IH]; simpl; [done|]. rewrite length_app. lia. Qed.

Lemma fifo_frame h h' ts :
  fifo h ts → (∀ q, q ∈ tnodes ts → h' !! q = h !! q) → fifo h' ts.
Proof.
  induction ts as [|[p c] ts IH]; [done|]. intros (Hp & E & R & F) Hq. simpl.
  rewrite Hq by set_solver. split_and!; [done..| |apply IH; [done|set_solver]].
  apply (rep_frame h); [done|]. set_solver.
Qed.

Lemma fifo_last h ts p c :
  fifo h (ts ++ [(p, c)]) → p ≠ 0 ∧ h !! p = Some (mkLink 0 0 (fhead c)).
Proof.
  induction ts as [|[q d] ts IH]; simpl; [tauto|]. intros (_ & _ & _ & F). by apply IH.
Qed.

Lemma thead_app ts t us : thead (ts ++ t :: us) = thead (ts ++ [t]).
Proof. by destruct ts as [|[? ?] ?], t. Qed.

(** Appending a tree to a queue. *)
Lemma fifo_snoc h ts p c q d :
  fifo h (ts ++ [(p, c)]) → lone h q d → NoDup (tnodes (ts ++ [(p, c)]) ++ q :: nodes d) →
  fifo (<[p:=mkLink 0 q (fhead c)]> h) ((ts ++ [(p, c)]) ++ [(q, d)]).
Proof.
  intros F L. revert F. induction ts as [|[r e] ts IH].
  - simpl. intros (Hp & E & R & _) Hnd. destruct L as (Hq & Eq & Rq & _).
    rewrite app_nil_r in Hnd. apply list.NoDup_cons in Hnd as [Hin Hnd].
    assert (p ≠ q) by set_solver.
    split_and!; [done|by simplify_map_eq|apply rep_insert; set_solver|done|by simplify_map_eq
      |apply rep_insert; set_solver|done].
  - intros (Hr & E & R & F) Hnd.
    change (tnodes (((r, e) :: ts) ++ [(p, c)])) with ((r :: nodes e) ++ tnodes (ts ++ [(p, c)])) in Hnd.
    rewrite <- (assoc_L (++)) in Hnd. apply list.NoDup_app in Hnd as (N1 & Hd & N2).
    assert (p ∉ r :: nodes e).
    { intros Hp. apply (Hd p Hp). rewrite tnodes_app. simpl. set_solver. }
    change ((((r, e) :: ts) ++ [(p, c)]) ++ [(q, d)]) with ((r, e) :: (ts ++ [(p, c)]) ++ [(q, d)]).
    split_and!; [done| |apply rep_insert; set_solver|by apply IH].
    rewrite lookup_insert_ne by set_solver. rewrite E. f_equal. f_equal.
    rewrite <- (assoc_L (++)). symmetry. apply thead_app.
Qed.
(** ** The two passes over siblings *)

Section passes.
Context (cmp : Z → Z → Z).

Definition tord (ts : list (Z * forest)) : Prop :=
  Forall (λ t, hord cmp (Node t.1 t.2 Nil)) ts.

Lemma nodup_app_perm (l l' k : list Z) : NoDup (l ++ k) → l' ≡ₚ l → NoDup (l' ++ k).
Proof. intros H E. by rewrite E. Qed.

Lemma siblings_pass_ok fuel : ∀ h ts p c f,
  fifo h (ts ++ [(p, c)]) → rep h 0 f → NoDup (tnodes (ts ++ [(p, c)]) ++ nodes f) →
  (length (nodes f) ≤ fuel)%nat →
  ∃ h' us p' c',
    siblings_pass cmp fuel p (fhead f) h = Done (p', h') ∧
    fifo h' (us ++ [(p', c')]) ∧ thead (us ++ [(p', c')]) = thead (ts ++ [(p, c)]) ∧
    tnodes (us ++ [(p', c')]) ≡ₚ tnodes (ts ++ [(p, c)]) ++ nodes f ∧
    only_on (tnodes (ts ++ [(p, c)]) ++ nodes f) h h' ∧
    (∀ `{!Comparison cmp}, tord (ts ++ [(p, c)]) → hord cmp f → tord (us ++ [(p', c')])).
Proof.
  induction fuel as [|fuel IH]; intros h ts p c f F R Hnd Hl;
    (destruct f as [|p0 c0 f]; [exists h, ts, p, c; rewrite app_nil_r; split_and!; by try destruct fuel|]);
    [simpl in Hl; lia|].
  destruct (fifo_last _ _ _ _ F) as [Hp Ep].
  pose proof R as (Hp0 & E0 & R0 & Rf). simpl siblings_pass.
  rewrite (proj2 (Z.eqb_neq p0 0)) by done. prim.
  assert (Hin : p ∈ tnodes (ts ++ [(p, c)])) by (rewrite tnodes_app; simpl; set_solver).
  assert (Hpf : p ∉ nodes (Node p0 c0 f)).
  { apply list.NoDup_app in Hnd as (_ & Hd & _). by apply Hd. }
  destruct f as [|p1 c1 f].
  - cbn [fhead]. rewrite Z.eqb_refl. prim.
    assert (Hnd' : NoDup (tnodes (ts ++ [(p, c)]) ++ p0 :: nodes c0)).
    { simpl in Hnd. by rewrite app_nil_r in Hnd. }
    pose proof (fifo_snoc h ts p c p0 c0 F R Hnd') as F'.
    exists (<[p:=mkLink 0 p0 (fhead c)]> h), (ts ++ [(p, c)]), p0, c0.
    split_and!; [by destruct fuel|done| | | |].
    + rewrite <- (assoc_L (++)). apply thead_app.
    + by rewrite (tnodes_app (_ ++ _)).
    + apply only_on_insert. set_solver.
    + intros ? Ht Ho. apply Forall_app. split; [done|]. constructor; [done|constructor].
  - cbn [fhead]. destruct Rf as (Hp1 & E1 & R1 & Rf). rewrite (proj2 (Z.eqb_neq p1 0)) by done. prim.
    destruct (merge_pair_ok cmp h 0 p0 c0 p1 c1 f) as (h1 & q & d & E & L & Rf' & Hperm & Hon & Hord).
    { by split_and!. } { by apply list.NoDup_app in Hnd as (_ & _ & ?). }
    erewrite bind_done by exact E.
    assert (F1 : fifo h1 (ts ++ [(p, c)])).
    { apply (fifo_frame h); [done|]. intros x Hx. apply Hon.
      apply list.NoDup_app in Hnd as (_ & Hd & _). by apply Hd. }
    destruct (fifo_last _ _ _ _ F1) as [_ Ep1]. prim.
    assert (Hall : tnodes (ts ++ [(p, c)]) ++ nodes (Node p0 c0 (Node p1 c1 f))
                   ≡ₚ (tnodes (ts ++ [(p, c)]) ++ q :: nodes d) ++ nodes f).
    { change (nodes (Node p0 c0 (Node p1 c1 f))) with ((p0 :: nodes c0) ++ (p1 :: nodes c1) ++ nodes f).
      rewrite !(assoc_L (++)), Hperm, !(assoc_L (++)). done. }
    pose proof Hnd as Hnd'. rewrite Hall in Hnd'.
    pose proof Hnd' as (Hnd1 & Hd1 & Hndf)%list.NoDup_app.
    pose proof (fifo_snoc h1 ts p c q d F1 L Hnd1) as F2.
    assert (Hpf' : p ∉ nodes f) by (apply Hd1; set_solver).
    destruct (IH (<[p:=mkLink 0 q (fhead c)]> h1) (ts ++ [(p, c)]) q d f)
      as (h' & us & p' & c' & E' & F' & Hh & Hpm & Hon' & Hord').
    + done.
    + by apply rep_insert.
    + rewrite (tnodes_app (_ ++ _)). simpl. by rewrite app_nil_r.
    + simpl in Hl. rewrite !length_app in Hl. simpl in Hl. rewrite length_app in Hl. lia.
    + rewrite (tnodes_app (_ ++ _)) in Hpm, Hon'. simpl in Hpm, Hon'. rewrite app_nil_r in Hpm, Hon'.
      exists h', us, p', c'. split_and!; [done|done| | | |].
      * rewrite Hh, <- (assoc_L (++)). apply thead_app.
      * by rewrite Hpm, Hall.
      * eapply only_on_trans; [eapply only_on_mono; [|exact Hon]; clear; set_solver|].
        eapply only_on_trans; [apply (only_on_insert _ _ p); apply elem_of_app; by left|].
        eapply only_on_mono; [|exact Hon']. intros x. rewrite Hall. done.
      * intros ? Ht Ho. apply Hord'; [done| |by destruct Ho as (_ & _ & _ & _ & ?)].
        apply Forall_app. split; [done|]. constructor; [by apply Hord|constructor].
Qed.

(** The queue [(p0, c0) :: (p1, c1) :: ts] ends at [tail]. *)
Lemma queue_pass_ok fuel : ∀ h tail p0 c0 p1 c1 ts,
  fifo h ((p0, c0) :: (p1, c1) :: ts) → NoDup (tnodes ((p0, c0) :: (p1, c1) :: ts)) →
  (ts = [] ∨ ∃ us c, ts = us ++ [(tail, c)]) → (length ts < fuel)%nat →
  ∃ h' p c,
    queue_pass cmp fuel tail p0 p1 h = Done (p, h') ∧ lone h' p c ∧
    p :: nodes c ≡ₚ tnodes ((p0, c0) :: (p1, c1) :: ts) ∧
    only_on (tnodes ((p0, c0) :: (p1, c1) :: ts)) h h' ∧
    (∀ `{!Comparison cmp}, tord ((p0, c0) :: (p1, c1) :: ts) → hord cmp (Node p c Nil)).
Proof.
  induction fuel as [|fuel IH]; intros h tail p0 c0 p1 c1 ts F Hnd Hl Hf; [lia|].
  destruct F as (Hp0 & E0 & R0 & Hp1 & E1 & R1 & F).
  cbn [tnodes] in Hnd. rewrite (assoc_L (++)) in Hnd. apply list.NoDup_app in Hnd as (N01 & Hd & Nt).
  destruct (nodup_two _ _ _ _ N01) as (H10 & I00 & I01 & I10 & I11). cbn [queue_pass]. do 3 prim.
  destruct (merge_detached cmp h p0 c0 p1 c1) as (h2 & p & c & E & L & Hperm & Hon2 & Hord); [done..|].
  erewrite bind_done by exact E.
  assert (Hpn : ∀ q, q ∈ p :: nodes c → q ∉ tnodes ts) by (intros q; rewrite Hperm; apply Hd).
  assert (F2 : fifo h2 ts).
  { apply (fifo_frame h); [done|]. intros q Hq. apply Hon2. intros Hq'. by apply (Hd q). }
  destruct ts as [|[q0 d0] ts]; cbn [thead].
  - rewrite Z.eqb_refl. exists h2, p, c. cbn [tnodes]. rewrite !app_nil_r.
    split_and!; [done..|]. intros ? Ht. apply Forall_cons_1 in Ht as [Ht0 Ht].
    apply Forall_cons_1 in Ht as [Ht1 _]. by apply Hord.
  - destruct Hl as [?|(us & d & Hts)]; [done|]. pose proof F2 as (Hq0 & Eq0 & _).
    rewrite (proj2 (Z.eqb_neq q0 0)) by done. rewrite Hts in F2.
    destruct (fifo_last _ _ _ _ F2) as [Htl Etl]. prim.
    assert (Hnd2 : NoDup (tnodes (us ++ [(tail, d)]) ++ p :: nodes c)).
    { rewrite <- Hts. apply list.NoDup_app. split_and!; [done| |by rewrite Hperm].
      intros q Hq Hq'. by apply (Hpn q). }
    pose proof (fifo_snoc h2 us tail d p c F2 L Hnd2) as F3. rewrite <- Hts in F3, Hnd2.
    destruct (ts ++ [(p, c)]) as [|[q1 d1] ts'] eqn:Ets; [by destruct ts|].
    cbn [app] in F3. rewrite Ets in F3. pose proof F3 as (_ & Eh & _).
    cbn [thead] in Eh. prim.
    assert (Htn : tnodes ((q0, d0) :: (q1, d1) :: ts') = tnodes ((q0, d0) :: ts) ++ p :: nodes c).
    { rewrite <- Ets. change ((q0, d0) :: ts ++ [(p, c)]) with (((q0, d0) :: ts) ++ [(p, c)]).
      rewrite tnodes_app. cbn [tnodes]. by rewrite (app_nil_r (p :: _)). }
    assert (Hlen : length ts = length ts').
    { apply (f_equal length) in Ets. rewrite length_app in Ets. simpl in Ets. lia. }
    destruct (IH (<[tail:=mkLink 0 p (fhead d)]> h2) p q0 d0 q1 d1 ts') as (h' & r & e & E' & L' & Hp' & Ho' & Hr').
    + done.
    + by rewrite Htn.
    + destruct ts' as [|x ts' _] using rev_ind; [by left|]. right.
      change ((q1, d1) :: ts' ++ [x]) with (((q1, d1) :: ts') ++ [x]) in Ets.
      apply app_inj_tail in Ets as [_ <-]. by exists ts', c.
    + simpl in Hf. lia.
    + exists h', r, e. rewrite Htn in Hp', Ho'. change (tnodes ((p0, c0) :: (p1, c1) :: (q0, d0) :: ts))
        with ((p0 :: nodes c0) ++ (p1 :: nodes c1) ++ tnodes ((q0, d0) :: ts)).
      split_and!; [done|done| | |].
      * rewrite Hp', Hperm, (assoc_L (++) (p0 :: nodes c0)). by rewrite Permutation_app_comm.
      * eapply only_on_trans; [eapply only_on_mono; [|exact Hon2]; clear; set_solver|].
        eapply only_on_trans; [apply (only_on_insert _ _ tail)|].
        { rewrite Hts, tnodes_app. simpl. clear. set_solver. }
        eapply only_on_mono; [|exact Ho']. intros x. rewrite elem_of_app, Hperm. clear. set_solver.
      * intros ? Ht. apply Forall_cons_1 in Ht as [Ht0 Ht]. apply Forall_cons_1 in Ht as [Ht1 Ht].
        apply Hr'; [done|]. rewrite <- Ets. change ((q0, d0) :: ts ++ [(p, c)]) with (((q0, d0) :: ts) ++ [(p, c)]).
        apply Forall_app. split; [done|]. constructor; [by apply Hord|constructor].
Qed.

Lemma length_nodes_size h pv f :
  rep h pv f → NoDup (nodes f) → (length (nodes f) ≤ size h)%nat.
Proof.
  intros R Hnd. rewrite <- (size_list_to_set (C := gset Z)) by done.
  rewrite <- (size_dom h). apply subseteq_size. intros x Hx%elem_of_list_to_set.
  apply elem_of_dom. by eapply rep_lookup.
Qed.

(** Merging a list of siblings leaves one tree of their nodes. *)
Lemma phn_merge_siblings_ok h pv f :
  rep h pv f → NoDup (nodes f) → f ≠ Nil →
  ∃ h' pv' p c,
    phn_merge_siblings cmp (fhead f) h = Done (p, h') ∧
    rep h' pv' (Node p c Nil) ∧ (pv' = pv ∨ pv' = 0) ∧
    p :: nodes c ≡ₚ nodes f ∧ only_on (nodes f) h h' ∧
    (∀ `{!Comparison cmp}, hord cmp f → hord cmp (Node p c Nil)).
Proof.
  intros R Hnd Hne. pose proof (length_nodes_size _ _ _ R Hnd) as Hsz.
  destruct f as [|p0 c0 f]; [done|]. unfold phn_merge_siblings.
  erewrite bind_done by reflexivity. pose proof R as (Hp0 & E0 & R0 & Rf). cbn [fhead]. prim.
  destruct f as [|p1 c1 f]; cbn [fhead].
  { rewrite Z.eqb_refl. exists h, pv, p0, c0. split_and!; try done; [by left|].
    simpl. by rewrite app_nil_r. }
  destruct Rf as (Hp1 & E1 & R1 & Rf). rewrite (proj2 (Z.eqb_neq p1 0)) by done. prim.
  destruct (merge_pair_ok cmp h pv p0 c0 p1 c1 f) as (h1 & q & d & E & L & Rf' & Hperm & Hon & Hord); [by split_and!|done|].
  erewrite bind_done by exact E.
  assert (Hall : nodes (Node p0 c0 (Node p1 c1 f)) ≡ₚ (q :: nodes d) ++ nodes f).
  { change (nodes (Node p0 c0 (Node p1 c1 f))) with ((p0 :: nodes c0) ++ (p1 :: nodes c1) ++ nodes f).
    rewrite Hperm, (assoc_L (++)). done. }
  rewrite Hall in Hnd, Hsz. rewrite length_app in Hsz.
  assert (Hq : tnodes ([] ++ [(q, d)]) = q :: nodes d) by (simpl; by rewrite app_nil_r).
  destruct (siblings_pass_ok (size h) h1 [] q d f) as (h2 & us & p' & c' & E' & F' & Hh & Hpm & Hon' & Hord');
    [by destruct L as (? & ? & ? & _)|done|by rewrite Hq|lia|].
  rewrite Hq in Hpm, Hon'. erewrite bind_done by exact E'. cbn [app thead] in Hh.
  assert (Hon2 : only_on (nodes (Node p0 c0 (Node p1 c1 f))) h h2).
  { eapply only_on_trans; [exact Hon|]. eapply only_on_mono; [|exact Hon']. intros x. by rewrite Hall. }
  pose proof (length_tnodes (us ++ [(p', c')])) as Hlen. rewrite Hpm, !length_app in Hlen. simpl in Hlen, Hsz.
  assert (Hnd2 : NoDup (tnodes (us ++ [(p', c')]))) by (by rewrite Hpm).
  assert (Hord2 : Comparison cmp → hord cmp (Node p0 c0 (Node p1 c1 f)) → tord (us ++ [(p', c')])).
  { intros HC Ho. apply Hord'; [done|..|by destruct Ho as (_ & _ & _ & _ & ?)].
    constructor; [by apply Hord|constructor]. }
  rewrite <- Hall in Hpm.
  destruct us as [|[q1 d1] us]; cbn [app thead] in Hh; subst.
  - cbn [app] in *. pose proof F' as (Hp' & Ep' & Rp' & _). prim. cbn [thead]. rewrite Z.eqb_refl.
    exists h2, 0, q, c'. split_and!; [done..|by right| |done|].
    + rewrite <- Hpm. simpl. by rewrite app_nil_r.
    + intros HC Ho. specialize (Hord2 HC Ho). by apply Forall_cons_1 in Hord2 as [? _].
  - cbn [app] in *. pose proof F' as (Hp' & Ep' & Rp' & F''). prim.
    destruct (us ++ [(p', c')]) as [|[q1 d2] ts] eqn:Ets; [by destruct us|].
    cbn [thead]. pose proof F'' as (Hq1 & _). rewrite (proj2 (Z.eqb_neq q1 0)) by done.
    destruct (queue_pass_ok (size h) h2 p' q d1 q1 d2 ts) as (h3 & r & e & E3 & L3 & P3 & O3 & H3); [done|done| | |].
    { destruct ts as [|x ts _] using rev_ind; [by left|]. right.
      change ((q1, d2) :: ts ++ [x]) with (((q1, d2) :: ts) ++ [x]) in Ets.
      apply app_inj_tail in Ets as [_ <-]. by exists ts, c'. }
    { apply (f_equal length) in Ets. rewrite length_app in Ets. simpl in Ets, Hlen. lia. }
    exists h3, 0, r, e. split_and!; [done..|by right| | |].
    + by rewrite P3.
    + eapply only_on_trans; [exact Hon2|]. eapply only_on_mono; [|exact O3]. intros x. by rewrite Hpm.
    + intros HC Ho. apply H3; [done|]. by apply Hord2.
Qed.
End passes.
