(* ===== verification/PhOps.v ===== *)
(** * The operations of a pairing heap

    What merging the insertions, taking the minimum, inserting and removing do to the
    forest of a heap.  A node below the root is removed in a context, the rest of
    the forest around it. *)
From stdpp Require Import base list gmap numbers.
From S2P Require Import Prelude BitUtil Ph PhFacts.

(** ** Contexts *)

Inductive ctx : Type :=
| Hole
| InC (q : Z) (K : ctx) (s : forest)
| InS (q : Z) (c : forest) (K : ctx).

#[export] Instance ctx_eq_dec : EqDecision ctx.
Proof. solve_decision. Defined.

Fixpoint plug (K : ctx) (g : forest) : forest :=
  match K with
  | Hole => g
  | InC q K s => Node q (plug K g) s
  | InS q c K => Node q c (plug K g)
  end.

Fixpoint cnodes (K : ctx) : list Z :=
  match K with
  | Hole => []
  | InC q K s => q :: cnodes K ++ nodes s
  | InS q c K => q :: nodes c ++ cnodes K
  end.

(** The node the hole hangs from, and whether as its child. *)
Fixpoint cprev (pv : Z) (K : ctx) : Z :=
  match K with Hole => pv | InC q K _ => cprev q K | InS q _ K => cprev q K end.

Fixpoint cside (K : ctx) : bool :=
  match K with
  | Hole => false
  | InC _ Hole _ => true
  | InC _ K _ => cside K
  | InS _ _ K => cside K
  end.

Lemma plug_split p f : p ∈ nodes f → ∃ K c s, f = plug K (Node p c s).
Proof.
  induction f as [|q c IHc s IHs]; simpl; [set_solver|].
  intros [->|[Hin|Hin]%elem_of_app]%elem_of_cons.
  - by exists Hole, c, s.
  - destruct (IHc Hin) as (K & c' & s' & ->). by exists (InC q K s), c', s'.
  - destruct (IHs Hin) as (K & c' & s' & ->). by exists (InS q c K), c', s'.
Qed.

Lemma nodes_plug K g : nodes (plug K g) ≡ₚ cnodes K ++ nodes g.
Proof.
  induction K as [|q K IH s|q c K IH]; simpl; [done|f_equiv; rewrite IH|f_equiv; rewrite IH].
  - rewrite <- !(assoc_L (++)). f_equiv. apply Permutation_app_comm.
  - by rewrite (assoc_L (++)).
Qed.

Lemma cprev_in pv K : K ≠ Hole → cprev pv K ∈ cnodes K.
Proof.
  revert pv. induction K as [|q K IH s|q c K IH]; intros pv HK; [done|..]; simpl;
    destruct K; simpl; try set_solver; right; apply elem_of_app; specialize (IH q); simpl in IH; set_solver.
Qed.

Lemma fhead_plug K g g' : K ≠ Hole → fhead (plug K g) = fhead (plug K g').
Proof. by destruct K. Qed.

Lemma rep_plug_hole h pv K g : rep h pv (plug K g) → rep h (cprev pv K) g.
Proof.
  revert pv. induction K as [|q K IH s|q c K IH]; intros pv; simpl; [done|..];
    intros (_ & _ & Hc & Hs); by apply IH.
Qed.

(** The link that holds the subforest in the hole. *)
Lemma rep_plug_prev h pv K g :
  K ≠ Hole → rep h pv (plug K g) →
  ∃ l, h !! cprev pv K = Some l ∧ cprev pv K ≠ 0 ∧
       if cside K then lchild l = fhead g
       else next l = fhead g ∧ (lchild l = 0 ∨ lchild l ∈ cnodes K).
Proof.
  revert pv. induction K as [|q K IH s|q c K IH]; intros pv HK; [done|..];
    intros (Hq & E & Hc & Hs).
  - destruct (decide (K = Hole)) as [->|HK']; simpl; [eauto|].
    destruct (IH q HK' Hc) as (l & El & Hl & Hside). exists l. split_and!; [done..|].
    destruct K; [done|..]; revert Hside; case_match; set_solver.
  - destruct (decide (K = Hole)) as [->|HK']; simpl.
    + eexists. split_and!; [done..|]. destruct c; simpl; set_solver.
    + destruct (IH q HK' Hs) as (l & El & Hl & Hside). exists l. split_and!; [done..|].
      revert Hside; case_match; set_solver.
Qed.

(** Redirecting that link to another subforest. *)
Lemma rep_replug h h' pv K g g' l :
  K ≠ Hole → rep h pv (plug K g) → NoDup (cnodes K) → h !! cprev pv K = Some l →
  (∀ x, x ∈ cnodes K → x ≠ cprev pv K → h' !! x = h !! x) →
  h' !! cprev pv K =
    Some (if cside K then mkLink (prev l) (next l) (fhead g') else mkLink (prev l) (fhead g') (lchild l)) →
  rep h' (cprev pv K) g' → rep h' pv (plug K g').
Proof.
  revert pv. induction K as [|q K IH s|q c K IH]; intros pv HK R Hnd El Ho E' R'; [done|..];
    destruct R as (Hq & E & Rc & Rs); simpl in Hnd; apply list.NoDup_cons in Hnd as [Hin Hnd];
    apply list.NoDup_app in Hnd as (N1 & Hd & N2).
  - assert (Hs : rep h' q s).
    { apply (rep_frame h); [done|]. intros x Hx. apply Ho; [simpl; set_solver|]. intros ->.
      destruct (decide (K = Hole)) as [->|HK']; [by destruct Hin; apply elem_of_app; right|].
      by apply (Hd (cprev q K)); [apply cprev_in|]. }
    destruct (decide (K = Hole)) as [->|HK']; simpl in *.
    + simplify_eq. by split_and!.
    + pose proof (cprev_in q K HK') as Hpin. assert (cprev q K ≠ q) by (intros Heq; rewrite Heq in Hpin; apply Hin, elem_of_app; auto). split_and!; [done| | |done].
      * rewrite Ho by (done || by left). rewrite E. by rewrite (fhead_plug K g g').
      * apply IH; try done; [|by destruct K].
        intros x Hx ?. apply Ho; [|done]. right. by apply elem_of_app; left.
  - assert (Hc : rep h' q c).
    { apply (rep_frame h); [done|]. intros x Hx. apply Ho; [simpl; set_solver|]. intros ->.
      destruct (decide (K = Hole)) as [->|HK']; [by destruct Hin; apply elem_of_app; left|].
      by apply (Hd (cprev q K)); [|apply cprev_in]. }
    destruct (decide (K = Hole)) as [->|HK']; simpl in *.
    + simplify_eq. by split_and!.
    + pose proof (cprev_in q K HK') as Hpin. assert (cprev q K ≠ q) by (intros Heq; rewrite Heq in Hpin; apply Hin, elem_of_app; auto). split_and!; [done| |done|].
      * rewrite Ho by (done || by left). rewrite E. by rewrite (fhead_plug K g g').
      * apply IH; try done. intros x Hx ?. apply Ho; [|done]. right. by apply elem_of_app; right.
Qed.

Lemma hord_replug cmp K g g' :
  hord cmp (plug K g) → hord cmp g' → nodes g' ⊆ nodes g → hord cmp (plug K g').
Proof.
  intros H H' Hs. induction K as [|q K IH s|q c K IH]; simpl in *; [done|..];
    destruct H as (H1 & H2 & H3); split_and!; auto.
  apply Forall_forall. intros x Hx. apply (proj1 (Forall_forall _ _) H1).
  revert Hx. rewrite <- !list_elem_of_In, !nodes_plug. set_solver.
Qed.

Lemma hord_hole cmp K g : hord cmp (plug K g) → hord cmp g.
Proof. induction K as [|q K IH s|q c K IH]; simpl; tauto. Qed.

(** ** Removal below the root *)

(** The tree [g], if any, in front of the siblings [s]. *)
Definition graft (g s : forest) : forest :=
  match g with Nil => s | Node r e _ => Node r e s end.

(** [g] is at most one tree. *)
Definition single (g : forest) : Prop :=
  match g with Node _ _ (Node _ _ _) => False | _ => True end.

Lemma nodes_graft g s : single g → nodes (graft g s) = nodes g ++ nodes s.
Proof. destruct g as [|r e [|]]; simpl; try done. by rewrite app_nil_r. Qed.

Section removal.
Context (cmp : Z → Z → Z).

Lemma ph_merge_children_ok h p l c :
  p ≠ 0 → h !! p = Some l → lchild l = fhead c → rep h p c → NoDup (nodes c) →
  ∃ h' pv g,
    ph_merge_children cmp p h = Done (fhead g, h') ∧ rep h' pv g ∧ single g ∧
    nodes g ≡ₚ nodes c ∧ only_on (nodes c) h h' ∧
    (∀ `{!Comparison cmp}, hord cmp c → hord cmp g).
Proof.
  intros Hp E El R Hnd. unfold ph_merge_children. prim. rewrite El.
  destruct (decide (c = Nil)) as [->|Hne].
  - rewrite Z.eqb_refl. exists h, 0, Nil. by split_and!.
  - assert (fhead c ≠ 0) by (intros H0; by apply (rep_fhead _ _ _ R) in H0).
    rewrite (proj2 (Z.eqb_neq (fhead c) 0)) by done.
    destruct (phn_merge_siblings_ok cmp h p c) as (h' & pv & r & e & E' & R' & _ & Hperm & Hon & Hord);
      [done..|].
    exists h', pv, (Node r e Nil). split_and!; try done. simpl. by rewrite app_nil_r.
Qed.

(** The link from [q] to [p], which is its first child if [side], its sibling otherwise. *)
Definition redirect (side : bool) (l : phn_link_t) (v : Z) : phn_link_t :=
  if side then mkLink (prev l) (next l) v else mkLink (prev l) v (lchild l).

(** Hanging the replacement [r] from [q]. *)
Lemma attach_ok h p q r l lp lr (side : bool) :
  p ≠ 0 → q ≠ 0 → r ≠ 0 → q ≠ r → p ≠ r → p ≠ q →
  h !! p = Some lp → prev lp = q → h !! q = Some l → h !! r = Some lr →
  ∃ h', (if negb ((if side then q else 0) =? 0) then
           phn_prev_set r (if side then q else 0);; phn_lchild_set (if side then q else 0) r
         else pv ← phn_prev_get p; phn_prev_set r pv;; unless_null pv (phn_next_set pv r)) h
        = Done (tt, h') ∧
        h' !! q = Some (redirect side l r) ∧ h' !! r = Some (mkLink q (next lr) (lchild lr)) ∧
        (∀ x, x ≠ q → x ≠ r → h' !! x = h !! x).
Proof.
  intros Hp Hq Hr Hqr Hpr Hpq Ep Epq El Er. destruct side.
  - rewrite (proj2 (Z.eqb_neq q 0)) by done. cbn [negb]. do 2 prim.
    eexists. split; [done|]. split_and!; [by simplify_map_eq..|].
    intros x ? ?. by rewrite !lookup_insert_ne.
  - cbn [negb Z.eqb]. do 2 prim. rewrite Epq, unless_null_ne by done. prim.
    eexists. split; [done|]. split_and!; [by simplify_map_eq..|].
    intros x ? ?. by rewrite !lookup_insert_ne.
Qed.

(** The siblings [f] are made to follow another node. *)
Lemma reprev_siblings h pv pv' f :
  rep h pv f → NoDup (nodes f) →
  ∃ h', unless_null (fhead f) (phn_prev_set (fhead f) pv') h = Done (tt, h') ∧
        rep h' pv' f ∧ only_on (nodes f) h h'.
Proof.
  intros R Hnd. destruct (reprev_ok h pv pv' f R Hnd) as (h' & E & R' & Ho & Hz).
  exists h'. split_and!; [done..|].
  intros x Hx. destruct (decide (x = fhead f)) as [->|]; [|by apply Ho].
  destruct f; [done|]. by destruct Hx; apply fhead_in.
Qed.

(** The same, the new node being read from [p]. *)
Lemma reprev_from h pv p lp f :
  rep h pv f → NoDup (nodes f) → p ≠ 0 → h !! p = Some lp →
  ∃ h', unless_null (fhead f) (v ← phn_prev_get p; phn_prev_set (fhead f) v) h = Done (tt, h') ∧
        rep h' (prev lp) f ∧ only_on (nodes f) h h'.
Proof.
  intros R Hnd Hp Ep. destruct (reprev_siblings h pv (prev lp) f R Hnd) as (h' & E & R' & Ho).
  exists h'. split_and!; [|done..]. revert E. unfold unless_null. case_match; [done|].
  intros E. by prim.
Qed.

Lemma ph_unlink_ok h pv K p c s :
  K ≠ Hole → rep h pv (plug K (Node p c s)) → NoDup (nodes (plug K (Node p c s))) →
  ∃ h' g,
    ph_unlink cmp p h = Done (tt, h') ∧ rep h' pv (plug K g) ∧
    nodes g ≡ₚ nodes c ++ nodes s ∧ only_on (nodes (plug K (Node p c s))) h h' ∧
    (∀ `{!Comparison cmp}, hord cmp (plug K (Node p c s)) → hord cmp (plug K g)).
Proof.
  intros HK R Hnd. destruct (rep_plug_prev _ _ _ _ HK R) as (l & El & Hq & Hside).
  pose proof (rep_plug_hole _ _ _ _ R) as (Hp & Ep & Rc & Rs).
  pose proof (cprev_in pv K HK) as Hqin. set (q := cprev pv K) in *.
  rewrite nodes_plug in Hnd. apply list.NoDup_app in Hnd as (NK & HdK & Np).
  simpl in Np. apply list.NoDup_cons in Np as [Hpin Np]. apply list.NoDup_app in Np as (Nc & Hdc & Ns).
  assert (HqK : ∀ x, x ∈ p :: nodes c ++ nodes s → x ≠ q ∧ x ∉ cnodes K).
  { intros x Hx. split; [|by intros Hx'; apply (HdK x Hx')]. intros ->. by apply (HdK q). }
  assert (Hpq : p ≠ q) by (apply HqK; by left).
  set (side := cside K) in *.
  assert (Hpar : (if side then lchild l = p else lchild l ≠ p)).
  { destruct side; [done|]. destruct Hside as [_ [->|Hl]]; [done|]. intros Heq. rewrite Heq in Hl.
    by apply (HdK p Hl); left. }
  unfold ph_unlink. prim. rewrite (proj2 (Z.eqb_neq q 0)) by done.
  erewrite bind_done; [|prim; reflexivity].
  replace (if lchild l =? p then q else 0) with (if side then q else 0)
    by (destruct side; [by rewrite Hpar, Z.eqb_refl|by rewrite (proj2 (Z.eqb_neq _ _) Hpar)]).
  destruct (ph_merge_children_ok h p _ c Hp Ep eq_refl Rc Nc)
    as (h1 & pv1 & g & E1 & R1 & Sg & Hperm & Hon & Hord).
  erewrite bind_done by exact E1.
  assert (Hc1 : ∀ x, x ∉ nodes c → h1 !! x = h !! x) by exact Hon.
  assert (Hqc : q ∉ nodes c) by (intros Hx; destruct (HqK q); [right; apply elem_of_app; by left|done]).
  assert (p ∉ nodes c ∧ p ∉ nodes s) as [Hpc Hps] by set_solver.
  assert (Ep1 : h1 !! p = Some (mkLink q (fhead s) (fhead c))) by (by rewrite Hc1).
  assert (El1 : h1 !! q = Some l) by (by rewrite Hc1).
  assert (Rs1 : rep h1 p s).
  { apply (rep_frame h); [done|]. intros x Hx. apply Hc1. intros Hx'. by apply (Hdc x). }
  assert (Hqs : q ∉ nodes s) by (intros Hx; destruct (HqK q); [right; apply elem_of_app; by right|done]).
  (* what is left to show once the links are set *)
  assert (Hfin : ∀ h',
    h' !! q = Some (redirect side l (fhead (graft g s))) →
    (∀ x, x ∉ q :: nodes c ++ nodes s → h' !! x = h !! x) →
    rep h' q (graft g s) →
    rep h' pv (plug K (graft g s)) ∧ nodes (graft g s) ≡ₚ nodes c ++ nodes s ∧
    only_on (nodes (plug K (Node p c s))) h h' ∧
    (∀ `{!Comparison cmp}, hord cmp (plug K (Node p c s)) → hord cmp (plug K (graft g s)))).
  { intros h' Eq Ho Rg.
    assert (Hn : nodes (graft g s) ≡ₚ nodes c ++ nodes s) by (rewrite nodes_graft by done; by rewrite Hperm).
    split_and!; [|done| |].
    - apply (rep_replug h h' pv K (Node p c s) _ l); try done. intros x Hx Hxq. apply Ho.
      intros [->|Hx']%elem_of_cons; [done|]. by apply (HdK x Hx); right.
    - intros x Hx. apply Ho. rewrite nodes_plug in Hx. intros [->|Hx']%elem_of_cons; apply Hx, elem_of_app; [by left|].
      right. by right.
    - intros HC Ho'. eapply hord_replug; [done| |].
      + apply hord_hole in Ho' as (_ & Hoc & Hos). specialize (Hord HC Hoc).
        destruct g as [|r e g]; [done|]. simpl in *. tauto.
      + intros x Hx. simpl. right. by rewrite <- Hn. }
  destruct g as [|r e [|]]; cbn [fhead]; [..|done].
  - rewrite Z.eqb_refl. cbn [negb]. prim. cbn [graft] in Hfin.
    set (h2 := <[q:=redirect side l (fhead s)]> h1).
    assert (Rs2 : rep h2 p s) by (by apply rep_insert).
    assert (Ep2 : h2 !! p = Some (mkLink q (fhead s) (fhead c))) by (subst h2; by simplify_map_eq).
    assert (∃ h3 pv', (if negb ((if side then q else 0) =? 0) then
         phn_lchild_set (if side then q else 0) (fhead s);;
         unless_null (fhead s) (phn_prev_set (fhead s) (if side then q else 0))
       else v ← phn_prev_get p; phn_next_set v (fhead s)) h1 = Done (tt, h3) ∧
       rep h3 pv' s ∧ only_on (nodes s) h2 h3) as (h3 & pv' & E3 & R3 & O3).
    { destruct side.
      - rewrite (proj2 (Z.eqb_neq q 0)) by done. cbn [negb]. prim.
        destruct (reprev_siblings h2 p q s Rs2 Ns) as (h3 & E3 & R3 & O3). by exists h3, q.
      - cbn [negb Z.eqb]. do 2 prim. by exists h2, p. }
    erewrite bind_done by exact E3.
    assert (Ep3 : h3 !! p = Some (mkLink q (fhead s) (fhead c))) by (by rewrite O3).
    destruct (reprev_from h3 pv' p _ s R3 Ns Hp Ep3) as (h4 & E4 & R4 & O4). cbn [prev] in R4.
    exists h4, s. split; [done|]. apply Hfin; [| |done].
    + rewrite O4, O3 by done. subst h2. by simplify_map_eq.
    + intros x Hx. rewrite O4, O3 by (clear -Hx; set_solver). subst h2.
      rewrite lookup_insert_ne by (clear -Hx; set_solver). apply Hc1. clear -Hx; set_solver.
  - assert (Hr : r ∈ nodes c) by (rewrite <- Hperm; simpl; by left).
    pose proof R1 as (Hr0 & Er & Re & _).
    assert (q ≠ r) by (by intros ->). assert (p ≠ r) by (by intros ->).
    rewrite (proj2 (Z.eqb_neq r 0)) by done. cbn [negb].
    edestruct (attach_ok h1 p q r l) with (side := side) as (h2 & E2 & Eq2 & Er2 & O2); [done..|].
    erewrite bind_done by exact E2.
    assert (Ep2 : h2 !! p = Some (mkLink q (fhead s) (fhead c))) by (by rewrite O2).
    do 2 prim. set (h3 := <[r:=mkLink q (fhead s) (fhead e)]> h2).
    assert (Hrs : r ∉ nodes s) by (by apply Hdc).
    assert (Rs3 : rep h3 p s).
    { apply (rep_frame h1); [done|]. intros x Hx. subst h3.
      rewrite lookup_insert_ne by (by intros ->). apply O2; by intros ->. }
    destruct (reprev_siblings h3 p r s Rs3 Ns) as (h4 & E4 & R4 & O4).
    exists h4, (Node r e s). split; [done|]. apply Hfin.
    + rewrite O4 by done. subst h3. by simplify_map_eq.
    + intros x Hx. assert (x ≠ r) by (intros ->; apply Hx; right; apply elem_of_app; by left).
      rewrite O4 by (clear -Hx; set_solver). subst h3. rewrite lookup_insert_ne by done.
      rewrite O2 by (try done; clear -Hx; set_solver). apply Hc1. clear -Hx; set_solver.
    + split_and!; [done|rewrite O4 by done; subst h3; by simplify_map_eq| |done].
      apply (rep_frame h1); [done|]. intros x Hx.
      assert (Hxc : x ∈ nodes c) by (rewrite <- Hperm; simpl; right; apply elem_of_app; by left).
      assert (x ≠ r).
      { intros ->. rewrite <- Hperm in Nc. simpl in Nc. apply list.NoDup_cons in Nc as [Hn _].
        apply Hn, elem_of_app. by left. }
      rewrite O4 by (by apply Hdc). subst h3. rewrite lookup_insert_ne by done.
      apply O2; [|done]. by intros ->.
Qed.
End removal.
