(* ===== verification/PhHeap.v ===== *)
(** * Pairing heaps: one lemma per operation

    The state of a heap is a forest ([ph_wf]); each operation of [ph.h] is shown to return,
    and to turn the forest into one with the nodes it should have, ordered if it was. *)
From stdpp Require Import base list gmap numbers.
From S2P Require Import Prelude BitUtil Ph PhFacts PhOps.

Definition ph_wf (s : ph_mem) (f : forest) : Prop :=
  root s.2 = fhead f ∧ (∃ pv, rep s.1 pv f) ∧ NoDup (nodes f).

Lemma ph_wf_frame h h' ph f : ph_wf (h, ph) f → (∀ q, q ∈ nodes f → h' !! q = h !! q) → ph_wf (h', ph) f.
Proof. intros (E & (pv & R) & N) H. split_and!; [done| |done]. exists pv. by apply (rep_frame h). Qed.

(** The first root is at most every node. *)
Definition top_least (cmp : Z → Z → Z) (f : forest) : Prop :=
  Forall (λ q, cmp (fhead f) q ≤ 0) (nodes f).

Lemma on_links_ok {A} (m : M links A) h h' ph a :
  m h = Done (a, h') → on_links m (h, ph) = Done (a, (h', ph)).
Proof. intros E. unfold on_links, zoom. simpl. by rewrite E. Qed.

Lemma unless_null_links x (m : M links unit) h h' ph :
  unless_null x m h = Done (tt, h') →
  unless_null x (on_links m) (h, ph) = Done (tt, (h', ph)).
Proof. unfold unless_null. case_match; [by intros [= ->]|]. apply on_links_ok. Qed.

(** One primitive on the links of a heap. *)
Ltac lprim :=
  first
    [ erewrite bind_done by (apply on_links_ok; eapply phn_next_get_ok; [done|look])
    | erewrite bind_done by (apply on_links_ok; eapply phn_lchild_get_ok; [done|look])
    | erewrite bind_done by (apply on_links_ok; eapply phn_next_set_ok; [done|look])
    | erewrite bind_done by (apply on_links_ok; eapply phn_prev_set_ok; [done|look])
    | erewrite bind_done by (apply on_links_ok; eapply phn_lchild_set_ok; [done|look]) ];
  cbn [prev next lchild].

(** A step that reads or writes the heap's own fields. *)
Ltac hstep := erewrite bind_done by reflexivity; cbn [fst snd root auxcount].

Section heap.
Context (cmp : Z → Z → Z).
Implicit Types (h : links) (f : forest).

Lemma hord_top_least p c : Comparison cmp → hord cmp (Node p c Nil) → top_least cmp (Node p c Nil).
Proof.
  intros HC (H & _). unfold top_least. simpl. rewrite app_nil_r. constructor; [|done].
  by apply cmp_le_refl.
Qed.

Lemma ph_merge_aux_ok h ph f :
  ph_wf (h, ph) f → f ≠ Nil →
  ∃ h' p c,
    ph_merge_aux cmp (h, ph) = Done (tt, (h', mkPh p 0)) ∧
    ph_wf (h', mkPh p 0) (Node p c Nil) ∧ p :: nodes c ≡ₚ nodes f ∧ only_on (nodes f) h h' ∧
    (∀ `{!Comparison cmp}, hord cmp f → hord cmp (Node p c Nil)).
Proof.
  intros (Hroot & (pv & R) & Hnd) Hne. destruct f as [|r c s]; [done|]. cbn [fst snd fhead] in *.
  unfold ph_merge_aux. do 2 hstep. rewrite Hroot. pose proof R as (Hr & E & Rc & Rs).
  lprim. destruct (decide (s = Nil)) as [->|Hs].
  - cbn [fhead]. rewrite unless_null_0. exists h, r, c. split_and!; try done.
    + split_and!; try done. by exists pv.
    + simpl. by rewrite app_nil_r.
  - pose proof Hnd as Hnd'. cbn [nodes] in Hnd'. rewrite app_comm_cons in Hnd'.
    apply list.NoDup_app in Hnd' as (Nr & Hd & Ns).
    assert (Hrs : r ∉ nodes s) by (apply Hd; by left).
    assert (Hrc : r ∉ nodes c) by (by apply list.NoDup_cons in Nr as [? _]).
    rewrite unless_null_ne by (intros H0; by apply (rep_fhead _ _ _ Rs) in H0).
    do 2 lprim. rewrite insert_insert_eq.
    set (h1 := <[r:=mkLink 0 0 (fhead c)]> h).
    destruct (reprev_siblings h1 r 0 s) as (h2 & E2 & R2 & O2); [by apply rep_insert|done|].
    rewrite unless_null_ne in E2 by (intros H0; by apply (rep_fhead _ _ _ Rs) in H0).
    erewrite bind_done by (apply on_links_ok; exact E2).
    destruct (phn_merge_siblings_ok cmp h2 0 s) as (h3 & pv3 & q & d & E3 & R3 & Hpv & P3 & O3 & H3); [done..|].
    erewrite bind_done by (apply on_links_ok; exact E3).
    assert (pv3 = 0) as -> by (by destruct Hpv).
    assert (Hoff : ∀ x, x ∉ nodes s → h3 !! x = h1 !! x) by (intros x Hx; by rewrite O3, O2).
    destruct (phn_merge_ok cmp h3 r c q d) as (h4 & p & e & E4 & L4 & P4 & O4 & H4).
    + split_and!; [done|rewrite Hoff by done; subst h1; by simplify_map_eq| |done].
      apply (rep_frame h); [done|]. intros x Hx. rewrite Hoff by (apply Hd; by right).
      subst h1. rewrite lookup_insert_ne; [done|]. by intros ->.
    + done.
    + by rewrite P3.
    + erewrite bind_done by (apply on_links_ok; exact E4). exists h4, p, e.
      assert (P5 : p :: nodes e ≡ₚ nodes (Node r c s)) by (by rewrite P4, P3).
      split_and!; [done| |done| |].
      * split_and!; [done|by exists 0|]. simpl. rewrite app_nil_r. by rewrite P5.
      * intros x Hx. simpl in Hx. rewrite O4 by (rewrite P3; set_solver).
        rewrite Hoff by set_solver. subst h1. rewrite lookup_insert_ne by set_solver. done.
      * intros HC (O1 & O1' & O1''). apply (H4 HC); [done|]. by apply H3.
Qed.

(** [ph_first]: a member that is least, unless the heap is empty. *)
Lemma ph_first_ok h ph f :
  ph_wf (h, ph) f →
  ∃ r s' f', ph_first cmp (h, ph) = Done (r, s') ∧ ph_wf s' f' ∧ r = fhead f' ∧
    nodes f' ≡ₚ nodes f ∧ only_on (nodes f) h s'.1 ∧
    (∀ `{!Comparison cmp}, hord cmp f → hord cmp f' ∧ top_least cmp f').
Proof.
  intros Hwf. unfold ph_first. hstep. pose proof Hwf as (Hroot & (pv & R) & Hnd). cbn [fst snd] in *.
  rewrite Hroot. destruct (decide (f = Nil)) as [->|Hne].
  - exists 0, (h, ph), Nil. cbn [fhead]. rewrite Z.eqb_refl. split_and!; try done. intros _ _. split; constructor.
  - rewrite (proj2 (Z.eqb_neq _ _)) by (intros H0; by apply (rep_fhead _ _ _ R) in H0).
    destruct (ph_merge_aux_ok _ _ _ Hwf Hne) as (h' & p & c & E & W & P & O & H).
    erewrite bind_done by exact E. exists p, (h', mkPh p 0), (Node p c Nil).
    split_and!; try done.
    + simpl. by rewrite app_nil_r.
    + intros HC Ho. specialize (H HC Ho). split; [done|]. by apply hord_top_least.
Qed.

Lemma ph_remove_first_ok h ph f :
  ph_wf (h, ph) f →
  ∃ r s' f', ph_remove_first cmp (h, ph) = Done (r, s') ∧ ph_wf s' f' ∧ single f' ∧
    (if decide (f = Nil) then r = 0 ∧ f' = Nil else r :: nodes f' ≡ₚ nodes f) ∧
    only_on (nodes f) h s'.1 ∧
    (∀ `{!Comparison cmp}, hord cmp f → hord cmp f' ∧ Forall (λ q, cmp r q ≤ 0) (nodes f)).
Proof.
  intros Hwf. unfold ph_remove_first. hstep. pose proof Hwf as (Hroot & (pv & R) & Hnd). cbn [fst snd] in *.
  rewrite Hroot. destruct (decide (f = Nil)) as [->|Hne].
  - exists 0, (h, ph), Nil. cbn [fhead]. rewrite Z.eqb_refl. split_and!; try done; try constructor.
  - rewrite (proj2 (Z.eqb_neq _ _)) by (intros H0; by apply (rep_fhead _ _ _ R) in H0).
    destruct (ph_merge_aux_ok _ _ _ Hwf Hne) as (h' & p & c & E & (_ & (pv' & W) & Hnd') & P & O & H).
    erewrite bind_done by exact E. hstep. cbn [fst] in W. destruct W as (Hp & Ep & Rc & _).
    cbn [nodes] in Hnd'. rewrite app_nil_r in Hnd'. apply list.NoDup_cons in Hnd' as [Hin Nc].
    destruct (ph_merge_children_ok cmp h' p _ c Hp Ep eq_refl Rc Nc)
      as (h2 & pv2 & g & E2 & R2 & S2 & P2 & O2 & H2).
    erewrite bind_done by (apply on_links_ok; exact E2). hstep.
    exists p, (h2, mkPh (fhead g) 0), g. split_and!; [done| |done| | |].
    + split_and!; [done|by exists pv2|by rewrite P2].
    + by rewrite P2, P.
    + eapply only_on_trans; [exact O|]. eapply only_on_mono; [|exact O2].
      intros x Hx. rewrite <- P. by right.
    + intros HC Ho. specialize (H HC Ho). pose proof (hord_top_least _ _ HC H) as Ht.
      destruct H as (Hf & Hc & _). split; [by apply H2|]. rewrite <- P.
      unfold top_least in Ht. simpl in Ht. by rewrite app_nil_r in Ht.
Qed.

Lemma ph_any_ok h ph f :
  ph_wf (h, ph) f →
  ∃ r, ph_any (h, ph) = Done (r, (h, ph)) ∧ (if decide (f = Nil) then r = 0 else r ∈ nodes f).
Proof.
  intros (Hroot & (pv & R) & Hnd). unfold ph_any. hstep. cbn [fst snd] in *. rewrite Hroot.
  destruct f as [|r c s]; [by exists 0|]. cbn [fhead]. pose proof R as (Hr & E & Rc & Rs).
  rewrite (proj2 (Z.eqb_neq r 0)) by done. lprim. destruct (fhead s =? 0) eqn:Hs.
  - exists r. split; [done|]. simpl. by left.
  - exists (fhead s). split; [done|]. simpl. right. apply elem_of_app. right. apply fhead_in.
    intros ->. by rewrite Z.eqb_refl in Hs.
Qed.

(** Merging the two last insertions leaves the root and what is below it. *)
Lemma ph_try_aux_merge_pair_ok h ph f :
  ph_wf (h, ph) f → f ≠ Nil →
  ∃ b h' f', ph_try_aux_merge_pair cmp (h, ph) = Done (b, (h', ph)) ∧ ph_wf (h', ph) f' ∧
    nodes f' ≡ₚ nodes f ∧ only_on (nodes f) h h' ∧
    (∀ `{!Comparison cmp}, hord cmp f → hord cmp f').
Proof.
  intros Hwf Hne. pose proof Hwf as (Hroot & (pv & R) & Hnd). cbn [fst snd] in *.
  destruct f as [|r c f]; [done|]. unfold ph_try_aux_merge_pair. hstep. rewrite Hroot. cbn [fhead].
  pose proof R as (Hr & E & Rc & Rf). lprim.
  destruct f as [|p0 c0 f]; [exists true, h, (Node r c Nil); by split_and!|]. cbn [fhead].
  pose proof Rf as (Hp0 & E0 & R0 & Rf1). rewrite (proj2 (Z.eqb_neq p0 0)) by done. lprim.
  destruct f as [|p1 c1 f]; [exists true, h, (Node r c (Node p0 c0 Nil)); by split_and!|]. cbn [fhead].
  pose proof Rf1 as (Hp1 & E1 & R1 & Rf2). rewrite (proj2 (Z.eqb_neq p1 0)) by done. lprim.
  pose proof Hnd as Hnd'. change (NoDup ((r :: nodes c) ++ (p0 :: nodes c0) ++ (p1 :: nodes c1) ++ nodes f)) in Hnd'.
  rewrite (assoc_L (++) (p0 :: _)) in Hnd'.
  apply list.NoDup_app in Hnd' as (Nr & Hdr & N). apply list.NoDup_app in N as (N01 & Hd & Nf).
  destruct (nodup_two _ _ _ _ N01) as (H10 & I00 & I01 & I10 & I11).
  do 4 lprim. rewrite !insert_insert_eq.
  destruct (merge_detached cmp h p0 c0 p1 c1) as (h1 & p & d & Em & L & Hperm & Hon & Hord); [done..|].
  erewrite bind_done by (apply on_links_ok; exact Em).
  assert (Hpd : ∀ x, x ∈ p :: nodes d → x ∉ r :: nodes c ∧ x ∉ nodes f).
  { intros x. rewrite Hperm. intros Hx. split; [|by apply Hd]. intros Hr'. apply (Hdr x Hr').
    apply elem_of_app. by left. }
  destruct L as (Hp & Ep & Rd & _). cbn [fhead] in Ep. lprim.
  assert (Npd : NoDup (p :: nodes d)) by (by rewrite Hperm). apply list.NoDup_cons in Npd as [Hpnd Nd].
  set (h2 := <[p:=mkLink 0 (fhead f) (fhead d)]> h1).
  assert (O2 : ∀ x, x ∉ (p0 :: nodes c0) ++ p1 :: nodes c1 → h2 !! x = h !! x).
  { intros x Hx. subst h2. rewrite lookup_insert_ne; [by apply Hon|]. intros ->. apply Hx. rewrite <- Hperm. by left. }
  assert (Rf' : rep h2 p1 f).
  { apply (rep_frame h); [done|]. intros x Hx. apply O2. intros Hx'. by apply (Hd x). }
  destruct (reprev_siblings h2 p1 p f Rf' Nf) as (h3 & E3 & R3 & O3).
  erewrite bind_done by (apply unless_null_links; exact E3).
  assert (Hrp : r ∉ p :: nodes d) by (intros Hx; apply (proj1 (Hpd r Hx)); by left).
  assert (Hrf : r ∉ nodes f) by (intros Hx; apply (Hdr r); [by left|]; apply elem_of_app; by right).
  assert (E3r : h3 !! r = Some (mkLink pv p0 (fhead c))).
  { rewrite O3 by done. rewrite O2; [done|]. by rewrite <- Hperm. }
  assert (E3p : h3 !! p = Some (mkLink 0 (fhead f) (fhead d))).
  { rewrite O3 by (apply Hpd; by left). subst h2. by simplify_map_eq. }
  assert (p ≠ r) by (intros ->; apply Hrp; by left). do 2 lprim.
  eexists _, _, (Node r c (Node p d f)).
  assert (Hn : nodes (Node r c (Node p d f)) ≡ₚ nodes (Node r c (Node p0 c0 (Node p1 c1 f)))).
  { change (nodes (Node r c (Node p d f))) with ((r :: nodes c) ++ (p :: nodes d) ++ nodes f). rewrite Hperm.
    change (nodes (Node r c (Node p0 c0 (Node p1 c1 f))))
      with ((r :: nodes c) ++ (p0 :: nodes c0) ++ (p1 :: nodes c1) ++ nodes f). by rewrite (assoc_L (++) (p0 :: _)). }
  assert (Hoff : ∀ x, x ∉ (p :: nodes d) ++ nodes f → h3 !! x = h !! x).
  { intros x Hx. rewrite O3 by (clear -Hx; set_solver). apply O2. rewrite <- Hperm. clear -Hx; set_solver. }
  split_and!; [done| |done| |].
  - split_and!; [done| |by rewrite Hn]. exists pv. cbn [fst rep fhead]. split_and!; [done|by simplify_map_eq| |done|by simplify_map_eq| |].
    + apply list.NoDup_cons in Nr as [Hrc _]. apply (rep_frame h); [done|]. intros x Hx.
      rewrite !lookup_insert_ne; [|by intros ->|intros ->; apply (proj1 (Hpd x ltac:(by left))); by right]. apply Hoff. intros [Hx'|Hx']%elem_of_app.
      * apply (proj1 (Hpd x Hx')). by right.
      * apply (Hdr x); [by right|]. apply elem_of_app. by right.
    + apply (rep_frame h1); [done|]. intros x Hx. rewrite !lookup_insert_ne; [|intros ->; apply Hrp; by right|by intros ->].
      rewrite O3 by (apply Hpd; by right). subst h2. rewrite lookup_insert_ne; [done|]. by intros ->.
    + apply (rep_frame h3); [done|]. intros x Hx. rewrite !lookup_insert_ne; [done|by intros ->|].
      intros ->. destruct (Hpd x); [by left|done].
  - intros x Hx. rewrite <- Hn in Hx. simpl in Hx.
    rewrite !lookup_insert_ne by (clear -Hx; set_solver). apply Hoff. clear -Hx; set_solver.
  - intros HC (Ho1 & Ho2 & Ho3 & Ho4 & Ho5 & Ho6 & Ho7). split_and!; try done;
      by destruct (Hord HC) as (? & ? & ?).
Qed.

Lemma aux_merges_ok n : ∀ h ph f,
  ph_wf (h, ph) f → f ≠ Nil →
  ∃ h' f', aux_merges cmp n (h, ph) = Done (tt, (h', ph)) ∧ ph_wf (h', ph) f' ∧
    nodes f' ≡ₚ nodes f ∧ only_on (nodes f) h h' ∧ (∀ `{!Comparison cmp}, hord cmp f → hord cmp f').
Proof.
  induction n as [|n IH]; intros h ph f Hwf Hne; [by exists h, f|]. cbn [aux_merges].
  destruct (ph_try_aux_merge_pair_ok _ _ _ Hwf Hne) as (b & h1 & f1 & E & W & P & O & H).
  erewrite bind_done by exact E. destruct b; [by exists h1, f1|].
  destruct (IH h1 ph f1 W) as (h2 & f2 & E2 & W2 & P2 & O2 & H2).
  { intros ->. destruct f; [done|]. by apply Permutation_nil in P. }
  exists h2, f2. split_and!; [done..|by rewrite P2| |auto].
  eapply only_on_trans; [exact O|]. eapply only_on_mono; [|exact O2]. intros x. by rewrite P.
Qed.

Lemma insert_merges_ok h ph f :
  ph_wf (h, ph) f → f ≠ Nil →
  ∃ h' f', insert_merges cmp (h, ph) = Done (tt, (h', ph)) ∧ ph_wf (h', ph) f' ∧
    nodes f' ≡ₚ nodes f ∧ only_on (nodes f) h h' ∧ (∀ `{!Comparison cmp}, hord cmp f → hord cmp f').
Proof.
  intros Hwf Hne. unfold insert_merges. hstep. case_match; [by apply aux_merges_ok|].
  by exists h, f.
Qed.

(** The root of a well-formed heap does not depend on the merges below it. *)
Lemma top_least_perm f f' ph h h' :
  ph_wf (h, ph) f → ph_wf (h', ph) f' → nodes f' ≡ₚ nodes f → top_least cmp f → top_least cmp f'.
Proof.
  intros (E & _) (E' & _) P H. unfold top_least in *. cbn [snd] in *. rewrite <- E', E. by rewrite P.
Qed.

(** The new node takes the old root, with the insertions behind it, as its children. *)
Lemma insert_on_top h pv f p ph :
  rep h pv f → NoDup (nodes f) → f ≠ Nil → p ≠ 0 → p ∉ nodes f → h !! p = Some (mkLink 0 0 0) →
  ∃ h', (on_links (phn_lchild_set p (fhead f));; on_links (phn_prev_set (fhead f) p);;
         set_root p;; set_auxcount 0) (h, ph) = Done (tt, (h', mkPh p 0)) ∧
    ph_wf (h', mkPh p 0) (Node p f Nil) ∧ only_on (p :: nodes f) h h'.
Proof.
  intros R Hnd Hne Hp Hin Ep. destruct f as [|r c s]; [done|]. cbn [fhead].
  pose proof R as (Hr & E & Rc & Rs). assert (Hpr : p ≠ r) by (intros ->; apply Hin; by left).
  do 2 lprim. hstep. eexists. split; [done|]. split; [split_and!|].
  - done.
  - exists 0. cbn [fst]. split_and!; [done|by simplify_map_eq| |done].
    apply (rep_reprev _ pv p (Node r c s) (mkLink pv (fhead s) (fhead c))); [by apply rep_insert|done|].
    cbn [fhead]. by simplify_map_eq.
  - cbn [nodes]. rewrite app_nil_r. by apply list.NoDup_cons.
  - eapply only_on_trans; apply only_on_insert; [by left|right; by left].
Qed.

(** The new node becomes the first of the insertions behind the root. *)
Lemma insert_behind h pv r c s p ph :
  rep h pv (Node r c s) → NoDup (nodes (Node r c s)) → root ph = r →
  p ≠ 0 → p ∉ nodes (Node r c s) → h !! p = Some (mkLink 0 0 0) →
  ∃ h', (aux ← on_links (phn_next_get r);
         on_links (phn_next_set p aux);;
         unless_null aux (on_links (phn_prev_set aux p));;
         on_links (phn_prev_set p r);;
         on_links (phn_next_set r p);;
         insert_merges cmp) (h, ph) = insert_merges cmp (h', ph) ∧
    ph_wf (h', ph) (Node r c (Node p Nil s)) ∧ only_on (p :: nodes (Node r c s)) h h'.
Proof.
  intros R Hnd Hroot Hp Hin Ep. pose proof R as (Hr & E & Rc & Rs).
  simpl in Hnd, Hin. apply list.NoDup_cons in Hnd as [Hr' Hnd]. pose proof Hnd as (_ & Hd & Ns)%list.NoDup_app.
  assert (p ≠ r ∧ r ∉ nodes c ∧ r ∉ nodes s ∧ p ∉ nodes c ∧ p ∉ nodes s) as (Hpr & Hrc & Hrs & Hpc & Hps)
    by (clear -Hr' Hin; set_solver).
  do 2 lprim. set (h2 := <[p:=mkLink 0 (fhead s) 0]> h).
  destruct (reprev_siblings h2 r p s) as (h3 & E3 & R3 & O3); [by apply rep_insert|done|].
  erewrite bind_done by (apply unless_null_links; exact E3).
  assert (O2 : ∀ x, x ≠ p → x ∉ nodes s → h3 !! x = h !! x).
  { intros x ? ?. rewrite O3 by done. subst h2. by rewrite lookup_insert_ne. }
  assert (E3p : h3 !! p = Some (mkLink 0 (fhead s) 0)) by (rewrite O3 by done; subst h2; by simplify_map_eq).
  assert (E3r : h3 !! r = Some (mkLink pv (fhead s) (fhead c))) by (by rewrite O2).
  do 2 lprim. eexists. split; [done|]. split; [split_and!|].
  - done.
  - exists pv. cbn [fst rep fhead nodes]. split_and!; [done|by simplify_map_eq| |done|by simplify_map_eq|done|].
    + apply (rep_frame h); [done|]. intros x Hx. rewrite !lookup_insert_ne by (by intros ->).
      apply O2; [by intros ->|by apply Hd].
    + apply (rep_frame h3); [done|]. intros x Hx. by rewrite !lookup_insert_ne by (by intros ->).
  - cbn [nodes app]. rewrite <- Permutation_middle. apply list.NoDup_cons. split.
    { intros [->|?]%elem_of_cons; [done|]. by apply Hr'. }
    apply list.NoDup_cons. split; [|done]. intros ?%elem_of_app. tauto.
  - intros x Hx. rewrite !lookup_insert_ne by (clear -Hx; set_solver). apply O2; clear -Hx; set_solver.
Qed.

Lemma ph_insert_ok h ph f p :
  ph_wf (h, ph) f → p ≠ 0 → p ∉ nodes f →
  ∃ s' f', ph_insert cmp p (h, ph) = Done (tt, s') ∧ ph_wf s' f' ∧
    nodes f' ≡ₚ p :: nodes f ∧ only_on (p :: nodes f) h s'.1 ∧
    (∀ `{!Comparison cmp}, hord cmp f → top_least cmp f → hord cmp f' ∧ top_least cmp f').
Proof.
  intros (Hroot & (pv & R) & Hnd) Hp Hin. cbn [fst snd] in *.
  unfold ph_insert. rewrite (bind_done _ _ _ tt (<[p:=mkLink 0 0 0]> h, ph)).
  2:{ apply on_links_ok. unfold phn_link_init. by rewrite (proj2 (Z.eqb_neq p 0)). }
  set (h1 := <[p:=mkLink 0 0 0]> h). hstep. rewrite Hroot.
  assert (R1 : rep h1 pv f) by (by apply rep_insert).
  assert (O1 : only_on (p :: nodes f) h h1) by (apply only_on_insert; by left).
  assert (Ep : h1 !! p = Some (mkLink 0 0 0)) by (subst h1; by simplify_map_eq).
  destruct (decide (f = Nil)) as [->|Hne].
  { cbn [fhead]. rewrite Z.eqb_refl. hstep. set (ph1 := mkPh p (auxcount ph)).
    destruct (insert_merges_ok h1 ph1 (Node p Nil Nil)) as (h2 & f2 & E2 & W2 & P2 & O2 & H2); [|done|].
    { split_and!; [done| |by apply NoDup_singleton]. by exists 0. }
    exists (h2, ph1), f2. split_and!; [done..|by eapply only_on_trans|].
    intros HC _ _. split; [apply H2; [done|]; split_and!; [constructor|done..]|].
    pose proof W2 as (Er & _). unfold top_least. rewrite <- Er, P2. constructor; [by apply cmp_le_refl|constructor]. }
  rewrite (proj2 (Z.eqb_neq (fhead f) 0)) by (intros H0; by apply (rep_fhead _ _ _ R) in H0).
  destruct (cmp p (fhead f) <? 0) eqn:Hlt.
  - destruct (insert_on_top h1 pv f p ph) as (h2 & E2 & W2 & O2); [done..|]. rewrite E2.
    exists (h2, mkPh p 0), (Node p f Nil). split_and!; [done..|simpl; by rewrite app_nil_r|by eapply only_on_trans|].
    intros HC Ho Ht. assert (hord cmp (Node p f Nil)).
    { split_and!; [|done|done]. eapply Forall_impl; [|exact Ht]. cbn beta. intros x Hx.
      eapply cmp_trans; [|exact Hx]. lia. }
    split; [done|]. by apply hord_top_least.
  - do 2 hstep. set (ph1 := mkPh (root ph) (u64 (auxcount ph + 1))). destruct f as [|r c s]; [done|]. cbn [fhead] in *.
    destruct (insert_behind h1 pv r c s p ph1) as (h2 & E2 & W2 & O2); [done..|]. rewrite E2.
    destruct (insert_merges_ok h2 ph1 (Node r c (Node p Nil s))) as (h3 & f3 & E3 & W3 & P3 & O3 & H3); [done|done|].
    assert (Hn : nodes (Node r c (Node p Nil s)) ≡ₚ p :: nodes (Node r c s)).
    { simpl. rewrite <- Permutation_middle. apply Permutation_swap. }
    rewrite Hn in P3, O3. exists (h3, ph1), f3. split_and!; [done..| |].
    + eapply only_on_trans; [exact O1|]. by eapply only_on_trans.
    + intros HC (Ho1 & Ho2 & Ho3) Ht. split; [apply H3; [done|]; by split_and!|].
      pose proof W3 as (Er & _). unfold top_least. rewrite <- Er, P3. cbn [snd root ph1]. rewrite Hroot.
      constructor; [|exact Ht]. apply cmp_total. lia.
Qed.

(** Removing a node that is not the root. *)
Lemma unlink_in_heap h ph f p :
  ph_wf (h, ph) f → p ∈ nodes f → p ≠ fhead f →
  ∃ h' f', on_links (ph_unlink cmp p) (h, ph) = Done (tt, (h', ph)) ∧ ph_wf (h', ph) f' ∧
    p :: nodes f' ≡ₚ nodes f ∧ only_on (nodes f) h h' ∧ (∀ `{!Comparison cmp}, hord cmp f → hord cmp f').
Proof.
  intros (Hroot & (pv & R) & Hnd) Hin Hne. cbn [fst snd] in *.
  destruct (plug_split p f Hin) as (K & c & s & ->).
  assert (HK : K ≠ Hole) by (by intros ->).
  destruct (ph_unlink_ok cmp h pv K p c s HK R Hnd) as (h' & g & E & R' & P & O & H).
  assert (Hn : p :: nodes (plug K g) ≡ₚ nodes (plug K (Node p c s))).
  { rewrite !nodes_plug, P. simpl. by rewrite Permutation_middle. }
  exists h', (plug K g). split_and!; [by apply on_links_ok| |done..].
  split_and!; [by cbn [snd]; rewrite Hroot; apply fhead_plug|by exists pv|].
  rewrite <- Hn in Hnd. by apply list.NoDup_cons in Hnd as [_ ?].
Qed.

Lemma ph_remove_ok h ph f p :
  ph_wf (h, ph) f → p ∈ nodes f →
  ∃ s' f', ph_remove cmp p (h, ph) = Done (tt, s') ∧ ph_wf s' f' ∧
    p :: nodes f' ≡ₚ nodes f ∧ only_on (nodes f) h s'.1 ∧
    (∀ `{!Comparison cmp}, hord cmp f → hord cmp f').
Proof.
  intros Hwf Hin. pose proof Hwf as (Hroot & (pv & R) & Hnd). cbn [fst snd] in *.
  unfold ph_remove. hstep. rewrite Hroot. destruct (fhead f =? p) eqn:Hp.
  2:{ destruct (unlink_in_heap h ph f p Hwf Hin) as (h' & f' & E & W & P & O & H); [lia|].
      by exists (h', ph), f'. }
  apply Z.eqb_eq in Hp. destruct f as [|r c s]; [by apply not_elem_of_nil in Hin|]. cbn [fhead] in Hp. subst r.
  pose proof R as (Hp & E & Rc & Rs). lprim. destruct (decide (c = Nil)) as [->|Hc].
  - cbn [fhead]. rewrite Z.eqb_refl. lprim. hstep.
    simpl in Hnd. apply list.NoDup_cons in Hnd as [Hps Ns].
    destruct (reprev_siblings h p 0 s Rs Ns) as (h' & E' & R' & O').
    rewrite (unless_null_links _ _ _ _ _ E'). exists (h', mkPh (fhead s) (auxcount ph)), s.
    split_and!; [done| |done| |by intros ? (? & ? & ?)].
    + split_and!; [done|by exists 0|done].
    + eapply only_on_mono; [|exact O']. simpl. set_solver.
  - rewrite (proj2 (Z.eqb_neq (fhead c) 0)) by (intros H0; by apply (rep_fhead _ _ _ Rc) in H0).
    destruct (ph_merge_aux_ok _ _ _ Hwf) as (h1 & q & d & E1 & W1 & P1 & O1 & H1); [done|].
    erewrite bind_done by exact E1. hstep. destruct (q =? p) eqn:Hq.
    + apply Z.eqb_eq in Hq. subst q. destruct W1 as (_ & (pv1 & _ & E2 & Rd & _) & N1). cbn [fst] in *.
      cbn [nodes] in N1. rewrite app_nil_r in N1. apply list.NoDup_cons in N1 as [_ Nd].
      destruct (ph_merge_children_ok cmp h1 p _ d Hp E2 eq_refl Rd Nd) as (h2 & pv2 & g & E3 & R3 & S3 & P3 & O3 & H3).
      erewrite bind_done by (apply on_links_ok; exact E3).
      exists (h2, mkPh (fhead g) 0), g. split_and!; [done| | | |].
      * split_and!; [done|by exists pv2|by rewrite P3].
      * by rewrite P3, P1.
      * eapply only_on_trans; [exact O1|]. eapply only_on_mono; [|exact O3]. intros x Hx. rewrite <- P1. by right.
      * intros HC Ho. destruct (H1 HC Ho) as (_ & ? & _). by apply H3.
    + assert (Hn : nodes (Node q d Nil) ≡ₚ nodes (Node p c s)) by (rewrite <- P1; simpl; by rewrite app_nil_r).
      destruct (unlink_in_heap h1 (mkPh q 0) (Node q d Nil) p W1) as (h2 & f2 & E2 & W2 & P2 & O2 & H2).
      { by rewrite Hn. } { cbn [fhead]. lia. }
      exists (h2, mkPh q 0), f2. split_and!; [done..|by rewrite P2| |auto].
      rewrite Hn in O2. by eapply only_on_trans.
Qed.

Lemma ph_remove_any_ok h ph f :
  ph_wf (h, ph) f →
  ∃ r s' f', ph_remove_any cmp (h, ph) = Done (r, s') ∧ ph_wf s' f' ∧
    (if decide (f = Nil) then r = 0 ∧ f' = Nil else r :: nodes f' ≡ₚ nodes f) ∧
    only_on (nodes f) h s'.1 ∧ (∀ `{!Comparison cmp}, hord cmp f → hord cmp f').
Proof.
  intros Hwf. unfold ph_remove_any. destruct (ph_any_ok _ _ _ Hwf) as (r & E & Hr).
  erewrite bind_done by exact E. destruct (decide (f = Nil)) as [->|Hne].
  - subst r. rewrite Z.eqb_refl. by exists 0, (h, ph), Nil.
  - assert (r ≠ 0) by (intros ->; destruct Hwf as (_ & (pv & R) & _); by apply rep_nonzero in R).
    rewrite (proj2 (Z.eqb_neq r 0)) by done.
    destruct (ph_remove_ok _ _ _ _ Hwf Hr) as (s' & f' & E' & W & P & O & Hord).
    erewrite bind_done by exact E'. by exists r, s', f'.
Qed.
End heap.
