(* ===== verification/PhTheorems.v ===== *)
(** * Theorems about pairing heaps

    A heap is used through six operations.  [ph_reach] follows every history of
    calls together with the set the heap should hold and with what is known of
    its order; the theorems say what the next call returns. *)
From stdpp Require Import base list gmap numbers sorting.
From S2P Require Import Prelude BitUtil Ph PhFacts PhOps PhHeap.

Inductive ph_op : Type :=
| OpInsert (p : Z)
| OpFirst
| OpAny
| OpRemoveFirst
| OpRemove (p : Z)
| OpRemoveAny.

(** The call, and the pointer it returns (0 for the calls that return nothing). *)
Definition ph_exec (cmp : Z → Z → Z) (op : ph_op) : M ph_mem Z :=
  match op with
  | OpInsert p => ph_insert cmp p;; mret 0
  | OpFirst => ph_first cmp
  | OpAny => ph_any
  | OpRemoveFirst => ph_remove_first cmp
  | OpRemove p => ph_remove cmp p;; mret 0
  | OpRemoveAny => ph_remove_any cmp
  end.

(** What is known of the order: the root is least ([Ordered]); the trees are
    ordered, but not their roots ([Loose]); nothing ([Lost]). *)
Inductive ph_order : Type := Ordered | Loose | Lost.

#[export] Instance ph_order_eq_dec : EqDecision ph_order.
Proof. solve_decision. Defined.

(** ** The abstract heap *)

Definition ph_pre (op : ph_op) (X : gset Z) : Prop :=
  match op with
  | OpInsert p => p ≠ 0 ∧ p ∉ X
  | OpRemove p => p ∈ X
  | _ => True
  end.

Definition next_set (op : ph_op) (r : Z) (X : gset Z) : gset Z :=
  match op with
  | OpInsert p => {[p]} ∪ X
  | OpRemove p => X ∖ {[p]}
  | OpRemoveFirst | OpRemoveAny => X ∖ {[r]}
  | OpFirst | OpAny => X
  end.

(** Removing a node may leave another root on top than the least one; asking for
    the first one puts that right; inserting before that may lose the order. *)
Definition next_order (op : ph_op) (X : gset Z) (o : ph_order) : ph_order :=
  match op, o with
  | OpInsert _, Ordered => Ordered
  | OpInsert _, _ => if decide (X = ∅) then Ordered else Lost
  | OpAny, _ => o
  | (OpFirst | OpRemoveFirst), Lost => Lost
  | (OpFirst | OpRemoveFirst), _ => Ordered
  | (OpRemove _ | OpRemoveAny), Lost => Lost
  | (OpRemove _ | OpRemoveAny), _ => Loose
  end.

(** What a call returns. *)
Definition ph_post (cmp : Z → Z → Z) (op : ph_op) (X : gset Z) (o : ph_order) (r : Z) : Prop :=
  match op with
  | OpInsert _ | OpRemove _ => r = 0
  | OpAny | OpRemoveAny => if decide (X = ∅) then r = 0 else r ∈ X
  | OpFirst | OpRemoveFirst =>
      if decide (X = ∅) then r = 0
      else r ∈ X ∧ (o ≠ Lost → ∀ x, x ∈ X → cmp r x ≤ 0)
  end.

Inductive ph_reach (cmp : Z → Z → Z) : ph_mem → gset Z → ph_order → Prop :=
| reach_new s s' : ph_new s = Done (tt, s') → ph_reach cmp s' ∅ Ordered
| reach_op s X o op r s' :
    ph_reach cmp s X o → ph_pre op X → ph_exec cmp op s = Done (r, s') →
    ph_reach cmp s' (next_set op r X) (next_order op X o).

(** ** The invariant of a history *)

Definition level (cmp : Z → Z → Z) (o : ph_order) (f : forest) : Prop :=
  match o with
  | Ordered => hord cmp f ∧ top_least cmp f
  | Loose => hord cmp f
  | Lost => True
  end.

Definition ph_inv (cmp : Z → Z → Z) (s : ph_mem) (X : gset Z) (o : ph_order) : Prop :=
  ∃ f, ph_wf s f ∧ (∀ x, x ∈ nodes f ↔ x ∈ X) ∧ level cmp o f.

Section history.
Context (cmp : Z → Z → Z) `{!Comparison cmp}.

Lemma level_hord o f : level cmp o f → o ≠ Lost → hord cmp f.
Proof. destruct o; [by intros [? _]|done..]. Qed.

Lemma nodes_nil_iff f (X : gset Z) : (∀ x, x ∈ nodes f ↔ x ∈ X) → f = Nil ↔ X = ∅.
Proof.
  intros H. split.
  - intros ->. apply elem_of_equiv_empty_L. intros x Hx%H. by apply not_elem_of_nil in Hx.
  - intros ->. destruct f as [|p c s]; [done|]. exfalso. apply (not_elem_of_empty (C := gset Z) p), H. by left.
Qed.

(** The nodes left after removing [r] are the set without it. *)
Lemma nodes_removed f f' (X : gset Z) r :
  (∀ x, x ∈ nodes f ↔ x ∈ X) → NoDup (nodes f) → r :: nodes f' ≡ₚ nodes f →
  ∀ x, x ∈ nodes f' ↔ x ∈ X ∖ {[r]}.
Proof.
  intros H Hnd P x. rewrite <- P in Hnd. apply list.NoDup_cons in Hnd as [Hr _].
  rewrite elem_of_difference, <- H, <- P, elem_of_cons, elem_of_singleton. split; [|tauto].
  intros Hx. split; [by right|]. by intros ->.
Qed.

Lemma single_top_least f : single f → hord cmp f → top_least cmp f.
Proof. destruct f as [|p c [|]]; [constructor| |done]. intros _. by apply hord_top_least. Qed.

(** The order after a removal, given what it is before. *)
Lemma level_after_remove op X f f' o :
  next_order op X o = (match o with Lost => Lost | _ => Loose end) →
  (hord cmp f → hord cmp f') → level cmp o f → level cmp (next_order op X o) f'.
Proof. intros -> H Hl. destruct o; simpl in *; tauto. Qed.

Lemma ph_new_inv s s' : ph_new s = Done (tt, s') → ph_inv cmp s' ∅ Ordered.
Proof.
  intros [= <-]. exists Nil. split; [split_and!; [done|by exists 0|constructor]|split; [|split; [done|constructor]]].
  intros x. simpl. set_solver.
Qed.

(** One call. *)
Lemma ph_step_ok s X o op :
  ph_inv cmp s X o → ph_pre op X →
  ∃ r s', ph_exec cmp op s = Done (r, s') ∧ ph_post cmp op X o r ∧
    ph_inv cmp s' (next_set op r X) (next_order op X o) ∧
    (∀ q, q ∉ X ∪ (match op with OpInsert p => {[p]} | _ => ∅ end) → s'.1 !! q = s.1 !! q).
Proof.
  destruct s as [h ph]. intros (f & W & HX & Hl) Hpre. pose proof (nodes_nil_iff f X HX) as Hnil.
  assert (Hnd : NoDup (nodes f)) by apply W.
  destruct op as [p| | | |p|]; cbn [ph_exec ph_post next_set ph_pre] in *.
  - destruct (ph_insert_ok cmp h ph f p W) as (s' & f' & E & W' & P & O & H); [tauto|by rewrite HX; tauto|].
    exists 0, s'. erewrite bind_done by exact E. split_and!; [done..| |].
    + exists f'. split_and!; [done| |].
      { intros x. rewrite P, elem_of_cons, HX. set_solver. }
      destruct o; simpl in *; [apply H; tauto|..]; case_decide as HX0; try done;
        rewrite (proj2 Hnil HX0) in H; apply H; done || constructor.
    + intros q Hq. apply O. rewrite elem_of_cons, HX. set_solver.
  - destruct (ph_first_ok cmp h ph f W) as (r & s' & f' & E & W' & -> & P & O & H).
    exists (fhead f'), s'. split; [done|]. split_and!.
    + destruct (decide (X = ∅)) as [HX0|HX0]; [rewrite (proj2 Hnil HX0) in P; by destruct f'; [|apply Permutation_nil_r in P]|].
      split; [rewrite <- HX, <- P; apply fhead_in; intros ->; apply HX0, Hnil; by destruct f; [|apply Permutation_nil_l in P]|].
      intros Ho x Hx. destruct (H _ (level_hord _ _ Hl Ho)) as [_ Ht].
      rewrite <- HX, <- P in Hx. by apply (proj1 (list.Forall_forall _ _) Ht).
    + exists f'. split_and!; [done|by intros x; rewrite P|].
      destruct o; simpl in *; try done; apply H; tauto.
    + intros q Hq. apply O. rewrite HX. set_solver.
  - destruct (ph_any_ok h ph f W) as (r & E & Hr). exists r, (h, ph). split_and!; [done| | |done].
    + destruct (decide (X = ∅)), (decide (f = Nil)); by try (rewrite <- HX); try tauto.
    + by exists f.
  - destruct (ph_remove_first_ok cmp h ph f W) as (r & s' & f' & E & W' & S' & P & O & H).
    exists r, s'. split; [done|].
    destruct (decide (f = Nil)) as [->|Hne].
    + destruct P as [-> ->]. rewrite (proj1 Hnil eq_refl). split_and!; [done| |].
      * exists Nil. split_and!; [done|simpl; set_solver|]. destruct o; simpl in *; try done; split; try done; constructor.
      * intros q _. apply O, not_elem_of_nil.
    + destruct (decide (X = ∅)) as [HX0|HX0]; [by destruct Hne; apply Hnil|]. split_and!.
      * rewrite <- HX, <- P. by left.
      * intros Ho x Hx. destruct (H _ (level_hord _ _ Hl Ho)) as [_ Ht].
        rewrite <- HX in Hx. by apply (proj1 (list.Forall_forall _ _) Ht).
      * exists f'. split_and!; [done|by eapply nodes_removed|].
        destruct o; simpl in *; [..|done]; destruct (H _ ltac:(tauto)); (split; [done|by apply single_top_least]).
      * intros q Hq. apply O. rewrite HX. set_solver.
  - destruct (ph_remove_ok cmp h ph f p W) as (s' & f' & E & W' & P & O & H); [by rewrite HX|].
    exists 0, s'. erewrite bind_done by exact E. split_and!; [done..| |].
    + exists f'. split_and!; [done|by eapply nodes_removed|]. eapply level_after_remove; [by destruct o|by apply H|done].
    + intros q Hq. apply O. rewrite HX. set_solver.
  - destruct (ph_remove_any_ok cmp h ph f W) as (r & s' & f' & E & W' & P & O & H).
    exists r, s'. split; [done|].
    destruct (decide (f = Nil)) as [->|Hne].
    + destruct P as [-> ->]. rewrite (proj1 Hnil eq_refl). split_and!; [done| |].
      * exists Nil. split_and!; [done|simpl; set_solver|]. destruct o; simpl in *; try done; split; try done; constructor.
      * intros q _. apply O, not_elem_of_nil.
    + destruct (decide (X = ∅)) as [HX0|HX0]; [by destruct Hne; apply Hnil|]. split_and!.
      * rewrite <- HX, <- P. by left.
      * exists f'. split_and!; [done|by eapply nodes_removed|]. eapply level_after_remove; [by destruct o|by apply H|done].
      * intros q Hq. apply O. rewrite HX. set_solver.
Qed.

Lemma ph_reach_inv s X o : ph_reach cmp s X o → ph_inv cmp s X o.
Proof.
  induction 1 as [s s' E|s X o op r s' _ IH Hpre E]; [by eapply ph_new_inv|].
  destruct (ph_step_ok s X o op IH Hpre) as (r' & s'' & E' & _ & I & _). rewrite E in E'. by simplify_eq.
Qed.
End history.

(** ** Sorting with a heap *)

Fixpoint inserts (cmp : Z → Z → Z) (l : list Z) : M ph_mem unit :=
  match l with [] => mret tt | p :: l => ph_insert cmp p;; inserts cmp l end.

Fixpoint drain (cmp : Z → Z → Z) (n : nat) : M ph_mem (list Z) :=
  match n with
  | O => mret []
  | S n => r ← ph_remove_first cmp; l ← drain cmp n; mret (r :: l)
  end.

Section sorting.
Context (cmp : Z → Z → Z) `{!Comparison cmp}.

Lemma inserts_ok l : ∀ s X,
  ph_inv cmp s X Ordered → NoDup l → 0 ∉ l → (∀ x, x ∈ l → x ∉ X) →
  ∃ s', inserts cmp l s = Done (tt, s') ∧ ph_inv cmp s' (list_to_set l ∪ X) Ordered.
Proof.
  induction l as [|p l IH]; intros s X I Hnd Hz Hd.
  { exists s. split; [done|]. by rewrite list_to_set_nil, union_empty_l_L. }
  apply list.NoDup_cons in Hnd as [Hp Hnd].
  destruct (ph_step_ok cmp s X Ordered (OpInsert p) I) as (r & s1 & E & _ & I1 & _).
  { split; [intros ->; apply Hz; by left|]. apply Hd. by left. }
  cbn [ph_exec] in E. apply bind_done_inv in E as ([] & s2 & E & [= _ <-]). cbn [inserts].
  erewrite bind_done by exact E.
  destruct (IH s2 ({[p]} ∪ X) I1 Hnd) as (s' & E' & I').
  { set_solver. } { intros x Hx [->%elem_of_singleton|Hx']%elem_of_union; [done|]. by apply (Hd x); [right|]. }
  exists s'. split; [done|].
  by rewrite list_to_set_cons, (comm_L (∪) {[p]}), <- (assoc_L (∪)).
Qed.

Lemma drain_ok n : ∀ s X o,
  ph_inv cmp s X o → o ≠ Lost → n = size X →
  ∃ l s', drain cmp n s = Done (l, s') ∧ length l = n ∧ (∀ x, x ∈ l ↔ x ∈ X) ∧ NoDup l ∧
    StronglySorted (λ x y, cmp x y ≤ 0) l.
Proof.
  induction n as [|n IH]; intros s X o I Ho Hn.
  { exists [], s. symmetry in Hn. apply size_empty_inv in Hn. split_and!; try done; [set_solver|constructor..]. }
  destruct (ph_step_ok cmp s X o OpRemoveFirst I) as (r & s1 & E & Hpost & I1 & _); [done|].
  cbn [ph_exec ph_post next_set] in *. assert (HX : X ≠ ∅) by (intros ->; by rewrite size_empty in Hn).
  rewrite decide_False in Hpost by done. destruct Hpost as [Hr Hmin]. specialize (Hmin Ho).
  assert (Hsz : n = size (X ∖ {[r]})) by (rewrite size_difference, size_singleton; [lia|set_solver]).
  destruct (IH s1 _ _ I1) as (l & s2 & E2 & Hlen & Hin & Hnd & Hs); [by destruct o|done|].
  cbn [drain]. erewrite bind_done by exact E. erewrite bind_done by exact E2.
  exists (r :: l), s2. split_and!; [done|simpl; lia| | |].
  - intros x. rewrite elem_of_cons, Hin. destruct (decide (x = r)); set_solver.
  - apply list.NoDup_cons. split; [|done]. rewrite Hin. set_solver.
  - constructor; [done|]. apply list.Forall_forall. intros x Hx%Hin. apply Hmin. set_solver.
Qed.
End sorting.

(** ** The claims *)

(** C37: the pairing heap is a set with a least element.  From any history of calls
    that starts with [ph_new], inserts objects that are not in the heap and removes
    objects that are, the next such call returns without a fault: [ph_empty] tells
    whether the set is empty, [ph_any] and [ph_remove_any] return a member, [ph_first]
    and [ph_remove_first] a least member as long as no object was inserted between a
    removal and the next [ph_first]; links of objects outside the heap are not touched. *)
Theorem ph_correct cmp `{!Comparison cmp} s X o op :
  ph_reach cmp s X o → ph_pre op X →
  ph_empty s = Done (bool_decide (X = ∅), s) ∧
  ∃ r s', ph_exec cmp op s = Done (r, s') ∧ ph_post cmp op X o r ∧
    (∀ q, q ∉ X ∪ (match op with OpInsert p => {[p]} | _ => ∅ end) → s'.1 !! q = s.1 !! q).
Proof.
  intros Hr%ph_reach_inv Hpre; [|done]. split.
  - destruct Hr as (f & (Hroot & (pv & R) & _) & HX & _). unfold ph_empty. hstep. rewrite Hroot.
    destruct (nodes_nil_iff f X HX) as [H1 H2]. case_bool_decide as HX0.
    + by rewrite (H2 HX0).
    + rewrite (proj2 (Z.eqb_neq (fhead f) 0)); [done|]. intros H0. by apply HX0, H1, (rep_fhead _ _ _ R).
  - destruct (ph_step_ok cmp s X o op Hr Hpre) as (r & s' & E & Hp & _ & Hq). by exists r, s'.
Qed.

(** Inserting objects one by one into a new heap and removing the first one as often
    sorts them: every object comes out once, in an order that agrees with the comparison. *)
Theorem ph_sorts cmp `{!Comparison cmp} l s0 s1 :
  ph_new s0 = Done (tt, s1) → NoDup l → 0 ∉ l →
  ∃ l' s', (inserts cmp l;; drain cmp (length l)) s1 = Done (l', s') ∧
    l' ≡ₚ l ∧ StronglySorted (λ x y, cmp x y ≤ 0) l'.
Proof.
  intros E Hnd Hz. destruct (inserts_ok cmp l s1 ∅) as (s2 & E2 & I2); [by eapply ph_new_inv|done|done|set_solver|].
  erewrite bind_done by exact E2. rewrite union_empty_r_L in I2.
  destruct (drain_ok cmp (length l) s2 _ _ I2) as (l' & s' & E' & Hlen & Hin & Hnd' & Hs); [done|by rewrite size_list_to_set|].
  exists l', s'. split_and!; [done| |done]. apply NoDup_Permutation; [done..|].
  intros x. by rewrite Hin, elem_of_list_to_set.
Qed.

(** ** Concrete heaps *)

(** A closed decidable statement. *)
Ltac by_decide := apply (bool_decide_eq_true_1 _); vm_compute; reflexivity.

Module PhExample.
(** Objects compared by their address. *)
Definition by_address (x y : Z) : Z := x - y.

#[global] Instance by_address_comparison : Comparison by_address.
Proof. split; unfold by_address; lia. Qed.

Definition state_of {A} (o : outcome (A * ph_mem)) : ph_mem :=
  match o with Done (_, s) => s | Fault _ => (∅, mkPh 0 0) end.

Definition none : ph_mem := (∅, mkPh 0 0).
Definition two : ph_mem := state_of ((ph_insert by_address 5;; ph_insert by_address 7) none).

Lemma reach_none : ph_reach by_address none ∅ Ordered.
Proof. by apply (reach_new by_address none). Qed.

Lemma reach_two : ph_reach by_address two {[5; 7]} Ordered.
Proof.
  replace ({[5; 7]} : gset Z) with (next_set (OpInsert 7) 0 (next_set (OpInsert 5) 0 ∅)) by (simpl; set_solver).
  eapply (reach_op _ (state_of (ph_insert by_address 5 none)) _ Ordered (OpInsert 7)).
  - eapply (reach_op _ none _ Ordered (OpInsert 5)); [exact reach_none|split; [lia|set_solver]|].
    vm_compute. reflexivity.
  - simpl. split; [lia|set_solver].
  - vm_compute. reflexivity.
Qed.
End PhExample.

Lemma ph_correct_witness :
  ∃ r s', ph_exec PhExample.by_address OpFirst PhExample.two = Done (r, s') ∧
    (r ∈ ({[5; 7]} : gset Z)) ∧ (∀ x, x ∈ ({[5; 7]} : gset Z) → r - x ≤ 0).
Proof.
  destruct (ph_correct PhExample.by_address PhExample.two {[5; 7]} Ordered OpFirst PhExample.reach_two I)
    as (_ & r & s' & E & Hp & _).
  exists r, s'. cbn [ph_post] in Hp. rewrite decide_False in Hp by by_decide.
  destruct Hp as [Hr Hm]. split; [exact E|]. split; [exact Hr|]. by apply Hm.
Defined.

Lemma ph_sorts_witness :
  ∃ l' s', (inserts PhExample.by_address [3; 1; 4; 2];; drain PhExample.by_address 4) PhExample.none
           = Done (l', s') ∧ l' ≡ₚ [3; 1; 4; 2].
Proof.
  destruct (ph_sorts PhExample.by_address [3; 1; 4; 2] PhExample.none PhExample.none)
    as (l' & s' & E & P & _); [reflexivity|repeat constructor; set_solver|set_solver|].
  exists l', s'. split; [exact E|exact P].
Defined.

(** A history after which [ph_first] does not return a least member: 5, 7 and 10 are inserted,
    5 is removed, and 8 replaces the root 10, which takes 7 below itself. *)
Theorem ph_first_not_least :
  ∃ s X r s' x,
    ph_reach PhExample.by_address s X Lost ∧ ph_first PhExample.by_address s = Done (r, s') ∧
    x ∈ X ∧ PhExample.by_address x r < 0.
Proof.
  set (s1 := PhExample.state_of (ph_insert PhExample.by_address 10 PhExample.two)).
  set (s2 := PhExample.state_of (ph_remove PhExample.by_address 5 s1)).
  set (s3 := PhExample.state_of (ph_insert PhExample.by_address 8 s2)).
  exists s3, ({[8]} ∪ (({[10]} ∪ {[5; 7]}) ∖ {[5]})), 8,
    (PhExample.state_of (ph_first PhExample.by_address s3)), 7.
  split_and!; [|vm_compute; reflexivity|by_decide|unfold PhExample.by_address; lia].
  assert (H1 : ph_reach PhExample.by_address s1 ({[10]} ∪ {[5; 7]}) Ordered).
  { apply (reach_op _ _ _ Ordered (OpInsert 10) 0 s1 PhExample.reach_two); [split; [lia|by_decide]|].
    vm_compute. reflexivity. }
  assert (H2 : ph_reach PhExample.by_address s2 (({[10]} ∪ {[5; 7]}) ∖ {[5]}) Loose).
  { apply (reach_op _ _ _ Ordered (OpRemove 5) 0 s2 H1); [unfold ph_pre; by_decide|]. vm_compute. reflexivity. }
  assert (Hl : next_order (OpInsert 8) (({[10]} ∪ {[5; 7]}) ∖ {[5]}) Loose = Lost).
  { vm_compute. reflexivity. }
  rewrite <- Hl. apply (reach_op _ _ _ Loose (OpInsert 8) 0 s3 H2); [split; [lia|by_decide]|].
  vm_compute. reflexivity.
Qed.
