(* ===== verification/Ql.v ===== *)
(** * Intrusive lists, [jemalloc/include/jemalloc/internal/qr.h], [ql.h] and [typed_list.h]

    A ring is made of nodes with a [next] and a [prev] link; a list is a ring with
    a pointer to its first node, null when it is empty.  [qr_meld] both joins two rings
    and splits one, depending on where its two nodes are.  The links live in a store; the
    files that use these lists keep one store per link field.  After the definitions, the list
    operations are shown to be those on sequences of nodes. *)
From stdpp Require Import base list gmap numbers.
From S2P Require Import Prelude.

Record qr_t : Type := mkQr { qre_next : Z; qre_prev : Z }.

#[export] Instance qr_eq_dec : EqDecision qr_t.
Proof. solve_decision. Defined.

Abbreviation rings := (gmap Z qr_t).

(** ** Rings *)

Definition qr_get (p : Z) : M rings qr_t :=
  h ← get;
  if p =? 0 then throw NullDeref else liftO (h !! p ?? BadPointer).

Definition qr_next (p : Z) : M rings Z := n ← qr_get p; mret (qre_next n).
Definition qr_prev (p : Z) : M rings Z := n ← qr_get p; mret (qre_prev n).
Definition qr_next_set (p v : Z) : M rings unit :=
  n ← qr_get p; modify (insert p (mkQr v (qre_prev n))).
Definition qr_prev_set (p v : Z) : M rings unit :=
  n ← qr_get p; modify (insert p (mkQr (qre_next n) v)).

Definition qr_new (p : Z) : M rings unit :=
  if p =? 0 then throw NullDeref else modify (insert p (mkQr p p)).

Definition qr_meld (a b : Z) : M rings unit :=
  pb ← qr_prev b; pa ← qr_prev a; qr_next_set pb pa;;
  pb ← qr_prev b; qr_prev_set a pb;;
  pb ← qr_prev b; nb ← qr_next pb; qr_prev_set b nb;;
  pa ← qr_prev a; qr_next_set pa a;;
  pb ← qr_prev b; qr_next_set pb b.

Definition qr_before_insert (qrelm qr : Z) : M rings unit := qr_meld qrelm qr.
Definition qr_after_insert (qrelm qr : Z) : M rings unit :=
  n ← qr_next qrelm; qr_before_insert n qr.
Definition qr_split (a b : Z) : M rings unit := qr_meld a b.
(** The argument [qr_next(a_qr)] of the macro is evaluated anew at each use; it does
    not change before its last one. *)
Definition qr_remove (qr : Z) : M rings unit := n ← qr_next qr; qr_split n qr.

(** ** Lists

    The operations take the first node and return the new one. *)

Definition ql_new : M rings Z := mret 0.
Definition ql_empty (first : Z) : bool := first =? 0.
Definition ql_elm_new (elm : Z) : M rings unit := qr_new elm.

Definition ql_last (first : Z) : M rings Z :=
  if ql_empty first then mret 0 else qr_prev first.

Definition ql_after_insert (qlelm elm : Z) : M rings unit := qr_after_insert qlelm elm.

Definition ql_head_insert (first elm : Z) : M rings Z :=
  (if ql_empty first then mret tt else qr_before_insert first elm);;
  mret elm.

Definition ql_tail_insert (first elm : Z) : M rings Z :=
  (if ql_empty first then mret tt else qr_before_insert first elm);;
  qr_next elm.

(** The first nodes of both lists. *)
Definition ql_concat (a b : Z) : M rings (Z * Z) :=
  if ql_empty a then mret (b, 0)
  else if ql_empty b then mret (a, b)
  else qr_meld a b;; mret (a, 0).

Definition ql_remove (first elm : Z) : M rings Z :=
  first ← (if first =? elm then qr_next first else mret first);
  if negb (first =? elm) then qr_remove elm;; mret first else ql_new.

(** ** Typed lists *)

Definition list_append (first item : Z) : M rings Z := ql_elm_new item;; ql_tail_insert first item.
Definition list_prepend (first item : Z) : M rings Z := ql_elm_new item;; ql_head_insert first item.
Definition list_remove (first item : Z) : M rings Z := ql_remove first item.
Definition list_replace (first to_remove to_insert : Z) : M rings Z :=
  ql_elm_new to_insert;; ql_after_insert to_remove to_insert;; ql_remove first to_remove.
Definition list_first (first : Z) : Z := first.
Definition list_last (first : Z) : M rings Z := ql_last first.
Definition list_empty (first : Z) : bool := ql_empty first.
Definition list_concat (a b : Z) : M rings (Z * Z) := ql_concat a b.

(** ** Rings and lists as sequences *)

(** [y] follows [x]. *)
Definition linked (h : rings) (e : Z * Z) : Prop :=
  qre_next <$> h !! e.1 = Some e.2 ∧ qre_prev <$> h !! e.2 = Some e.1.

(** The links from [a] through [l] to [z]. *)
Fixpoint path (a : Z) (l : list Z) (z : Z) : list (Z * Z) :=
  match l with [] => [(a, z)] | b :: l => (a, b) :: path b l z end.

Definition ring_links (xs : list Z) : list (Z * Z) :=
  match xs with [] => [] | a :: l => path a l a end.

Definition ring (h : rings) (xs : list Z) : Prop :=
  NoDup xs ∧ 0 ∉ xs ∧ Forall (linked h) (ring_links xs).

(** The list with first node [q] holds [xs]. *)
Definition qlist (h : rings) (q : Z) (xs : list Z) : Prop :=
  ring h xs ∧ q = default 0 (head xs).

Definition unchanged_off (X : list Z) (h h' : rings) : Prop := ∀ q, q ∉ X → h' !! q = h !! q.

(** ** Paths *)

(** A path without its last link, and the node that one starts from. *)
Fixpoint inner (a : Z) (l : list Z) : list (Z * Z) :=
  match l with [] => [] | b :: l => (a, b) :: inner b l end.
Fixpoint endpoint (a : Z) (l : list Z) : Z :=
  match l with [] => a | b :: l => endpoint b l end.

Lemma path_inner a l z : path a l z = inner a l ++ [(endpoint a l, z)].
Proof. revert a. induction l as [|b l IH]; intros a; [done|]. simpl. by rewrite IH. Qed.

Lemma path_app a l b k z : path a (l ++ b :: k) z = path a l b ++ path b k z.
Proof. revert a. induction l as [|c l IH]; intros a; simpl; [done|]. by rewrite IH. Qed.

Lemma endpoint_in a l : endpoint a l ∈ a :: l.
Proof. revert a. induction l as [|b l IH]; intros a; simpl; [by left|right; apply IH]. Qed.

Lemma endpoint_app a l b k : endpoint a (l ++ b :: k) = endpoint b k.
Proof. revert a. induction l as [|c l IH]; intros a; simpl; [done|]. by rewrite IH. Qed.

(** An inner link neither starts at the end of the path nor leads to its start. *)
Lemma inner_ends a l x y :
  NoDup (a :: l) → (x, y) ∈ inner a l → x ∈ a :: l ∧ y ∈ l ∧ x ≠ endpoint a l.
Proof.
  revert a. induction l as [|b l IH]; intros a Hnd; simpl; [by intros ?%not_elem_of_nil|].
  apply list.NoDup_cons in Hnd as [Ha Hnd]. intros [[= -> ->]|H]%elem_of_cons.
  - split_and!; [by left|by left|]. intros ->. apply Ha, endpoint_in.
  - destruct (IH b Hnd H) as (? & ? & ?). split_and!; [by right|by right|done].
Qed.

(** A ring may be entered anywhere. *)
Lemma ring_links_rotate l k : ring_links (l ++ k) ≡ₚ ring_links (k ++ l).
Proof.
  destruct l as [|a l], k as [|b k]; simpl; rewrite ?app_nil_r; try done.
  rewrite !path_app. apply Permutation_app_comm.
Qed.

Lemma ring_rotate h l k : ring h (l ++ k) → ring h (k ++ l).
Proof.
  intros (Hnd & Hz & H). split_and!.
  - by rewrite Permutation_app_comm.
  - by rewrite Permutation_app_comm.
  - by rewrite ring_links_rotate.
Qed.

(** ** One write *)

Lemma qr_get_ok h p n : p ≠ 0 → h !! p = Some n → qr_get p h = Done (n, h).
Proof.
  intros Hp E. unfold qr_get. erewrite bind_done by reflexivity.
  rewrite (proj2 (Z.eqb_neq p 0)) by done. unfold liftO. by rewrite E.
Qed.

Lemma qr_next_ok h p y : p ≠ 0 → qre_next <$> h !! p = Some y → qr_next p h = Done (y, h).
Proof.
  intros Hp E. destruct (h !! p) as [n|] eqn:En; [|done]. simplify_eq/=. unfold qr_next.
  by erewrite bind_done by (by apply qr_get_ok).
Qed.

Lemma qr_prev_ok h p y : p ≠ 0 → qre_prev <$> h !! p = Some y → qr_prev p h = Done (y, h).
Proof.
  intros Hp E. destruct (h !! p) as [n|] eqn:En; [|done]. simplify_eq/=. unfold qr_prev.
  by erewrite bind_done by (by apply qr_get_ok).
Qed.

(** The effect of a write on the two fields of every node. *)
Lemma qr_next_set_ok h p v :
  p ≠ 0 → is_Some (h !! p) →
  ∃ h', qr_next_set p v h = Done (tt, h') ∧ qre_next <$> h' !! p = Some v ∧
    (∀ q, qre_prev <$> h' !! q = qre_prev <$> h !! q) ∧ (∀ q, q ≠ p → h' !! q = h !! q).
Proof.
  intros Hp [n En]. exists (<[p:=mkQr v (qre_prev n)]> h). unfold qr_next_set.
  erewrite bind_done by (by apply qr_get_ok). split_and!; [done|by simplify_map_eq| |].
  - intros q. destruct (decide (q = p)) as [->|]; simplify_map_eq; by rewrite ?En.
  - intros q ?. by rewrite lookup_insert_ne.
Qed.

Lemma qr_prev_set_ok h p v :
  p ≠ 0 → is_Some (h !! p) →
  ∃ h', qr_prev_set p v h = Done (tt, h') ∧ qre_prev <$> h' !! p = Some v ∧
    (∀ q, qre_next <$> h' !! q = qre_next <$> h !! q) ∧ (∀ q, q ≠ p → h' !! q = h !! q).
Proof.
  intros Hp [n En]. exists (<[p:=mkQr (qre_next n) v]> h). unfold qr_prev_set.
  erewrite bind_done by (by apply qr_get_ok). split_and!; [done|by simplify_map_eq| |].
  - intros q. destruct (decide (q = p)) as [->|]; simplify_map_eq; by rewrite ?En.
  - intros q ?. by rewrite lookup_insert_ne.
Qed.

Lemma fmap_is_Some_eq {A B} (f : A → B) (o : option A) v : f <$> o = Some v → is_Some o.
Proof. destruct o; by eauto. Qed.

(** ** [qr_meld] exchanges the successors of two nodes *)

Lemma qr_meld_ok h a b x y :
  0 ∉ [a; b; x; y] → a ≠ b → x ≠ y → linked h (x, a) → linked h (y, b) →
  ∃ h', qr_meld a b h = Done (tt, h') ∧ linked h' (x, b) ∧ linked h' (y, a) ∧
    (∀ u v, u ∉ [x; y] → v ∉ [a; b] → linked h (u, v) → linked h' (u, v)) ∧
    unchanged_off [a; b; x; y] h h'.
Proof.
  intros H0 Hab Hxy [Nx Pa] [Ny Pb]. simpl in *.
  assert (a ≠ 0 ∧ b ≠ 0 ∧ x ≠ 0 ∧ y ≠ 0) as (Ha & Hb & Hx & Hy) by set_solver. clear H0.
  unfold qr_meld. rewrite (bind_done _ _ _ _ _ (qr_prev_ok _ _ _ Hb Pb)), (bind_done _ _ _ _ _ (qr_prev_ok _ _ _ Ha Pa)).
  destruct (qr_next_set_ok h y x Hy) as (h1 & E1 & N1 & P1 & O1); [by eapply fmap_is_Some_eq|].
  rewrite (bind_done _ _ _ _ _ E1).
  rewrite (bind_done _ _ _ y h1) by (apply qr_prev_ok; [done|by rewrite P1]).
  destruct (qr_prev_set_ok h1 a y Ha) as (h2 & E2 & P2 & N2 & O2); [eapply fmap_is_Some_eq; by rewrite P1|].
  rewrite (bind_done _ _ _ _ _ E2).
  rewrite (bind_done _ _ _ y h2) by (apply qr_prev_ok; [done|]; rewrite O2 by done; by rewrite P1).
  rewrite (bind_done _ _ _ x h2) by (apply qr_next_ok; [done|]; by rewrite N2).
  destruct (qr_prev_set_ok h2 b x Hb) as (h3 & E3 & P3 & N3 & O3);
    [eapply fmap_is_Some_eq; rewrite O2 by done; by rewrite P1|].
  rewrite (bind_done _ _ _ _ _ E3).
  rewrite (bind_done _ _ _ y h3) by (apply qr_prev_ok; [done|]; by rewrite O3).
  destruct (qr_next_set_ok h3 y a Hy) as (h4 & E4 & N4 & P4 & O4); [eapply fmap_is_Some_eq; by rewrite N3, N2|].
  rewrite (bind_done _ _ _ _ _ E4).
  rewrite (bind_done _ _ _ x h4) by (apply qr_prev_ok; [done|]; by rewrite P4).
  destruct (qr_next_set_ok h4 x b Hx) as (h5 & E5 & N5 & P5 & O5).
  { eapply fmap_is_Some_eq. rewrite O4 by done. rewrite N3, N2, O1 by done. done. }
  exists h5. split; [exact E5|]. split_and!.
  - split; simpl; [done|]. by rewrite P5, P4.
  - split; simpl; [by rewrite O5|]. rewrite P5, P4, O3 by done. done.
  - intros u v Hu Hv [Nu Pv]. simpl in *. assert (u ≠ x ∧ u ≠ y ∧ v ≠ a ∧ v ≠ b) as (? & ? & ? & ?) by set_solver.
    split; simpl.
    + rewrite O5, O4 by done. rewrite N3, N2, O1 by done. done.
    + rewrite P5, P4, O3, O2 by done. by rewrite P1.
  - intros q Hq. rewrite O5, O4, O3, O2, O1; set_solver.
Qed.

(** ** Joining and splitting rings *)

(** What the two cases share: two disjoint paths, of which only the ends are relinked. *)
Lemma meld_paths h a l b k x y :
  NoDup (a :: l ++ b :: k) → 0 ∉ a :: l ++ b :: k →
  Forall (linked h) (inner a l) → Forall (linked h) (inner b k) →
  (x = endpoint a l ∧ y = endpoint b k ∨ x = endpoint b k ∧ y = endpoint a l) →
  linked h (x, a) → linked h (y, b) →
  ∃ h', qr_meld a b h = Done (tt, h') ∧ linked h' (x, b) ∧ linked h' (y, a) ∧
    Forall (linked h') (inner a l) ∧ Forall (linked h') (inner b k) ∧
    unchanged_off (a :: l ++ b :: k) h h'.
Proof.
  intros Hnd Hz Ha Hb Hxy Lx Ly.
  pose proof (endpoint_in a l) as Ea. pose proof (endpoint_in b k) as Eb.
  pose proof Hnd as Hnd'. rewrite app_comm_cons in Hnd'. apply list.NoDup_app in Hnd' as (Na & Hd & Nb).
  assert (Hne : endpoint a l ≠ endpoint b k) by (intros E; rewrite E in Ea; by apply (Hd _ Ea)).
  assert (Hab : a ≠ b) by (intros ->; apply (Hd b); by left).
  assert (HX : ∀ z, z ∈ [a; b; x; y] → z ∈ a :: l ++ b :: k).
  { clear -Hxy Ea Eb. intros z. rewrite app_comm_cons, elem_of_app. set_solver. }
  destruct (qr_meld_ok h a b x y) as (h' & E & L1 & L2 & Lo & O); try done.
  { intros H0%HX. done. } { naive_solver. }
  exists h'. split_and!; try done.
  - apply list.Forall_forall. intros [u v] Hin. pose proof (inner_ends a l u v Na Hin) as (Hu & Hv & Hu').
    apply Lo; [| |by apply (proj1 (list.Forall_forall _ _) Ha)].
    + assert (u ≠ endpoint b k) by (intros ->; by apply (Hd _ Hu)). clear -Hxy H Hu'. set_solver.
    + apply list.NoDup_cons in Na as [Na _]. assert (v ≠ a ∧ v ≠ b); [|set_solver].
      split; [by intros ->|]. intros ->. apply (Hd b); [by right|by left].
  - apply list.Forall_forall. intros [u v] Hin. pose proof (inner_ends b k u v Nb Hin) as (Hu & Hv & Hu').
    apply Lo; [| |by apply (proj1 (list.Forall_forall _ _) Hb)].
    + assert (u ≠ endpoint a l) by (intros ->; by apply (Hd _ Ea)). clear -Hxy H Hu'. set_solver.
    + apply list.NoDup_cons in Nb as [Nb _]. assert (v ≠ a ∧ v ≠ b); [|set_solver].
      split; [|by intros ->]. intros ->. apply (Hd a); [by left|by right].
  - intros q Hq. apply O. intros Hq'. by apply Hq, HX.
Qed.

Lemma Forall_snoc {A} (P : A → Prop) l x : Forall P (l ++ [x]) ↔ Forall P l ∧ P x.
Proof. rewrite Forall_app. split; intros [H1 H2]; (split; [done|]); [by inversion H2|by constructor]. Qed.

Lemma qr_meld_joins h a l b k :
  ring h (a :: l) → ring h (b :: k) → (∀ z, z ∈ a :: l → z ∉ b :: k) →
  ∃ h', qr_meld a b h = Done (tt, h') ∧ ring h' (a :: l ++ b :: k) ∧
    unchanged_off (a :: l ++ b :: k) h h'.
Proof.
  intros (Na & Za & La) (Nb & Zb & Lb) Hd. simpl in La, Lb. rewrite path_inner, Forall_snoc in La, Lb.
  assert (Hnd : NoDup (a :: l ++ b :: k)) by (rewrite app_comm_cons; by apply list.NoDup_app).
  assert (Hz : 0 ∉ a :: l ++ b :: k) by (rewrite app_comm_cons, elem_of_app; tauto).
  destruct La as [Ia La], Lb as [Ib Lb].
  destruct (meld_paths h a l b k (endpoint a l) (endpoint b k)) as (h' & E & L1 & L2 & Ia' & Ib' & O); try done; [by left|].
  exists h'. split_and!; [done| |done]. split_and!; [done..|]. simpl. rewrite path_app, !path_inner.
  apply Forall_app. by rewrite !Forall_snoc.
Qed.

Lemma qr_meld_splits h a l b k :
  ring h (a :: l ++ b :: k) →
  ∃ h', qr_meld a b h = Done (tt, h') ∧ ring h' (a :: l) ∧ ring h' (b :: k) ∧
    unchanged_off (a :: l ++ b :: k) h h'.
Proof.
  intros (Hnd & Hz & L). simpl in L. rewrite path_app, !path_inner, Forall_app, !Forall_snoc in L.
  destruct L as [[Ia La] [Ib Lb]].
  destruct (meld_paths h a l b k (endpoint b k) (endpoint a l)) as (h' & E & L1 & L2 & Ia' & Ib' & O); try done; [by right|].
  rewrite app_comm_cons in Hnd, Hz. apply list.NoDup_app in Hnd as (Na & _ & Nb).
  apply not_elem_of_app in Hz as [Za Zb].
  exists h'. split_and!; [done|..|done]; split_and!; try done; simpl; by rewrite path_inner, Forall_snoc.
Qed.

(** ** Lists *)

Lemma ring_frame h h' xs : ring h xs → (∀ q, q ∈ xs → h' !! q = h !! q) → ring h' xs.
Proof.
  intros (Hnd & Hz & L) Hq. split_and!; [done..|]. apply list.Forall_forall. intros [u v] Hin.
  destruct (proj1 (list.Forall_forall _ _) L (u, v) Hin) as [Hu Hv].
  assert (u ∈ xs ∧ v ∈ xs) as [Hu' Hv'].
  { destruct xs as [|a l]; [by apply not_elem_of_nil in Hin|]. simpl in Hin. rewrite path_inner in Hin.
    apply elem_of_app in Hin as [Hin|Hin].
    - destruct (inner_ends a l u v Hnd Hin) as (? & ? & _). split; [done|by right].
    - apply list_elem_of_singleton in Hin as [= -> ->]. split; [apply endpoint_in|by left]. }
  split; simpl in *; by rewrite Hq.
Qed.

Lemma qlist_frame h h' q xs X :
  qlist h q xs → unchanged_off X h h' → (∀ x, x ∈ xs → x ∉ X) → qlist h' q xs.
Proof. intros [R E] O Hd. split; [|done]. apply (ring_frame h); [done|]. intros x Hx. apply O; auto. Qed.

Lemma qr_new_ok h p :
  p ≠ 0 → ∃ h', qr_new p h = Done (tt, h') ∧ ring h' [p] ∧ unchanged_off [p] h h'.
Proof.
  intros Hp. exists (<[p:=mkQr p p]> h). unfold qr_new. rewrite (proj2 (Z.eqb_neq p 0)) by done.
  split_and!; [done| |].
  - split_and!; [by apply NoDup_singleton|set_solver|]. constructor; [|constructor]. split; simpl; by simplify_map_eq.
  - intros q Hq. rewrite lookup_insert_ne; set_solver.
Qed.

Lemma qlist_empty h q xs : qlist h q xs → ql_empty q = bool_decide (xs = []).
Proof.
  intros [(_ & Hz & _) ->]. destruct xs as [|x xs]; simpl; [done|].
  unfold ql_empty. rewrite (proj2 (Z.eqb_neq x 0)) by set_solver. done.
Qed.

(** The new node joins the ring before its first node: the part [append] and [prepend] share. *)
Lemma link_in_ok h q xs p :
  qlist h q xs → p ≠ 0 → p ∉ xs →
  ∃ h', (ql_elm_new p;; (if ql_empty q then mret tt else qr_before_insert q p)) h = Done (tt, h') ∧
    ring h' (xs ++ [p]) ∧ unchanged_off (xs ++ [p]) h h'.
Proof.
  intros Q Hp Hin. rewrite (qlist_empty _ _ _ Q). destruct Q as [R ->].
  destruct (qr_new_ok h p Hp) as (h1 & E1 & R1 & O1). unfold ql_elm_new. rewrite (bind_done _ _ _ _ _ E1).
  destruct xs as [|a l]; simpl; [by exists h1|].
  destruct (qr_meld_joins h1 a l p []) as (h2 & E2 & R2 & O2).
  - apply (ring_frame h); [done|]. intros x Hx. apply O1. set_solver.
  - done.
  - set_solver.
  - exists h2. split_and!; [done..|]. intros x Hx. rewrite O2 by done. apply O1. set_solver.
Qed.

Lemma list_append_ok h q xs p :
  qlist h q xs → p ≠ 0 → p ∉ xs →
  ∃ h' q', list_append q p h = Done (q', h') ∧ qlist h' q' (xs ++ [p]) ∧ unchanged_off (xs ++ [p]) h h'.
Proof.
  intros Q Hp Hin. destruct (link_in_ok h q xs p Q Hp Hin) as (h' & E & R & O).
  apply bind_done_inv in E as ([] & h1 & E1 & E2).
  exists h', (default 0 (head (xs ++ [p]))). split_and!; [|done|done].
  unfold list_append, ql_tail_insert. rewrite (bind_done _ _ _ _ _ E1), (bind_done _ _ _ _ _ E2).
  apply qr_next_ok; [done|]. destruct R as (_ & _ & L).
  assert (Hl : (p, default 0 (head (xs ++ [p]))) ∈ ring_links (xs ++ [p])).
  { destruct xs as [|a l]; simpl; [by left|]. rewrite path_app. simpl. apply elem_of_app. right. by left. }
  by destruct (proj1 (list.Forall_forall _ _) L _ Hl).
Qed.

Lemma list_prepend_ok h q xs p :
  qlist h q xs → p ≠ 0 → p ∉ xs →
  ∃ h', list_prepend q p h = Done (p, h') ∧ qlist h' p (p :: xs) ∧ unchanged_off (xs ++ [p]) h h'.
Proof.
  intros Q Hp Hin. destruct (link_in_ok h q xs p Q Hp Hin) as (h' & E & R & O).
  apply bind_done_inv in E as ([] & h1 & E1 & E2). exists h'. split_and!; [| |done].
  - unfold list_prepend, ql_head_insert. by rewrite (bind_done _ _ _ _ _ E1), (bind_done _ _ _ _ _ E2).
  - split; [|done]. by apply (ring_rotate h' xs [p]).
Qed.

Lemma ring_next h xs l p z k : ring h xs → xs = l ++ p :: z :: k → qr_next p h = Done (z, h).
Proof.
  intros (_ & Hz & L) ->. apply qr_next_ok; [set_solver|].
  assert (Hl : (p, z) ∈ ring_links (l ++ p :: z :: k)).
  { rewrite ring_links_rotate. simpl. by left. }
  by destruct (proj1 (list.Forall_forall _ _) L _ Hl).
Qed.

(** Splitting a node off a ring with another one after it. *)
Lemma qr_remove_ok h p z k :
  ring h (p :: z :: k) →
  ∃ h', qr_remove p h = Done (tt, h') ∧ ring h' (z :: k) ∧ unchanged_off (p :: z :: k) h h'.
Proof.
  intros R. unfold qr_remove. rewrite (bind_done _ _ _ _ _ (ring_next h _ [] p z k R eq_refl)).
  pose proof (ring_rotate h [p] (z :: k) R) as R'. destruct (qr_meld_splits h z k p [] R') as (h' & E & R1 & _ & O).
  exists h'. split_and!; [done..|]. intros q Hq. apply O. set_solver.
Qed.

Lemma list_remove_ok h q l p k :
  qlist h q (l ++ p :: k) →
  ∃ h' q', list_remove q p h = Done (q', h') ∧ qlist h' q' (l ++ k) ∧ unchanged_off (l ++ p :: k) h h'.
Proof.
  intros [R ->]. unfold list_remove, ql_remove. pose proof R as (Hnd & Hz & _).
  destruct l as [|a l]; simpl.
  - rewrite Z.eqb_refl. destruct k as [|z k].
    + assert (En : qr_next p h = Done (p, h)).
      { destruct R as (_ & _ & L). apply Forall_cons_1 in L as [[L _] _]. apply qr_next_ok; [set_solver|done]. }
      rewrite (bind_done _ _ _ _ _ En), Z.eqb_refl. exists h, 0. split_and!; [done| |done].
      split; [|done]. split_and!; [constructor|set_solver|constructor].
    + rewrite (bind_done _ _ _ _ _ (ring_next h _ [] p z k R eq_refl)).
      assert (z ≠ p) by (apply list.NoDup_cons in Hnd as [? _]; set_solver).
      rewrite (proj2 (Z.eqb_neq z p)) by done. simpl.
      destruct (qr_remove_ok h p z k R) as (h' & E & R' & O). rewrite (bind_done _ _ _ _ _ E).
      by exists h', z.
  - assert (a ≠ p) by (apply list.NoDup_cons in Hnd as [? _]; set_solver).
    rewrite (proj2 (Z.eqb_neq a p)) by done. erewrite bind_done by reflexivity.
    rewrite (proj2 (Z.eqb_neq a p)) by done. simpl.
    pose proof (ring_rotate h (a :: l) (p :: k) R) as R1.
    assert (∃ z m, k ++ a :: l = z :: m) as (z & m & Em) by (destruct k; simpl; eauto).
    simpl in R1. rewrite Em in R1. destruct (qr_remove_ok h p z m R1) as (h' & E & R' & O).
    rewrite (bind_done _ _ _ _ _ E). exists h', a. split_and!; [done| |].
    + split; [|done]. rewrite <- Em in R'. by apply (ring_rotate h' k (a :: l)).
    + intros x Hx. apply O. rewrite <- Em. set_solver.
Qed.
