(* ===== verification/Psset.v ===== *)
(** * Sets of page slabs, [jemalloc/src/psset.c] and [psset.h]

    A page slab is a huge page described by an [hpdata_t] ([Hpdata]).  The set keeps the
    slabs that may serve an allocation in pairing heaps ([Ph]) by the size class of
    their longest free range, those that may be purged in lists ([Ql]) by how dirty they
    are, those that may be made huge in a list, and statistics on all of them.  A slab
    is taken out of these containers while its metadata changes.

    Slabs are named by their addresses.  [ps_data] is the memory they are in; the links of the
    containers, which are fields of the slab, are in stores of their own.  The links of the heap
    and of the list of empty slabs are a union in the code: writing one here takes the other
    away. *)
From stdpp Require Import base list gmap numbers.
From S2P Require Import Prelude BitUtil SizeClass Sz Fb Hpdata Ph Ql.

Definition PSSET_NPSIZES : Z := 64.
Definition PSSET_NPURGE_LISTS : Z := 2 * PSSET_NPSIZES.

Record psset_bin_stats_t : Type := mkBin {
  npageslabs : Z;
  bin_nactive : Z;
  bin_ndirty : Z
}.

(** The second index, whether the slabs are huge, is the position in a pair. *)
Record psset_stats_t : Type := mkStats {
  nonfull_slabs : list (psset_bin_stats_t * psset_bin_stats_t);
  full_slabs : psset_bin_stats_t * psset_bin_stats_t;
  empty_slabs : psset_bin_stats_t * psset_bin_stats_t
}.

Record psset_t : Type := mkPsset {
  pageslabs : list ph_t;
  pageslab_bitmap : list Z;
  merged_stats : psset_bin_stats_t;
  stats : psset_stats_t;
  empty_list : Z;
  to_purge : list Z;
  purge_bitmap : list Z;
  to_hugify : Z
}.

Record psset_mem : Type := mkMem {
  ps_data : gmap Z hpdata_t;
  age_link : links;
  ql_link_empty : rings;
  ql_link_purge : rings;
  ql_link_hugify : rings;
  psset : psset_t
}.

(** ** Access to the slabs *)

Definition slab_get (ps : Z) : M psset_mem hpdata_t :=
  s ← get;
  if ps =? 0 then throw NullDeref else liftO (ps_data s !! ps ?? BadPointer).

Definition slab_set (ps : Z) (f : hpdata_t → hpdata_t) : M psset_mem unit :=
  d ← slab_get ps;
  modify (λ s, mkMem (<[ps:=f d]> (ps_data s)) (age_link s) (ql_link_empty s) (ql_link_purge s)
                 (ql_link_hugify s) (psset s)).

(** The flags of [hpdata.h], by the name of the function that sets them. *)
Definition set_flags (alloc in_alloc purge hugify : bool) (time : Z) (in_hugify mid_purge mid_hugify updating in_psset : bool)
    (h : hpdata_t) : hpdata_t :=
  mkHpdata (h_address h) (h_age h) (h_huge h) alloc in_alloc purge hugify time in_hugify mid_purge mid_hugify
    updating in_psset (h_longest_free_range h) (h_nactive h) (active_pages h) (h_ntouched h) (touched_pages h).

Definition hpdata_in_psset_alloc_container_set (b : bool) (h : hpdata_t) : hpdata_t :=
  set_flags (h_alloc_allowed h) b (h_purge_allowed h) (h_hugify_allowed h) (h_time_hugify_allowed h)
    (h_in_psset_hugify_container h) (h_mid_purge h) (h_mid_hugify h) (h_updating h) (h_in_psset h) h.
Definition hpdata_in_psset_hugify_container_set (b : bool) (h : hpdata_t) : hpdata_t :=
  set_flags (h_alloc_allowed h) (h_in_psset_alloc_container h) (h_purge_allowed h) (h_hugify_allowed h)
    (h_time_hugify_allowed h) b (h_mid_purge h) (h_mid_hugify h) (h_updating h) (h_in_psset h) h.
Definition hpdata_updating_set (b : bool) (h : hpdata_t) : hpdata_t :=
  set_flags (h_alloc_allowed h) (h_in_psset_alloc_container h) (h_purge_allowed h) (h_hugify_allowed h)
    (h_time_hugify_allowed h) (h_in_psset_hugify_container h) (h_mid_purge h) (h_mid_hugify h) b (h_in_psset h) h.
Definition hpdata_in_psset_set (b : bool) (h : hpdata_t) : hpdata_t :=
  set_flags (h_alloc_allowed h) (h_in_psset_alloc_container h) (h_purge_allowed h) (h_hugify_allowed h)
    (h_time_hugify_allowed h) (h_in_psset_hugify_container h) (h_mid_purge h) (h_mid_hugify h) (h_updating h) b h.
Definition hpdata_alloc_allowed_set (b : bool) (h : hpdata_t) : hpdata_t :=
  set_flags b (h_in_psset_alloc_container h) (h_purge_allowed h) (h_hugify_allowed h)
    (h_time_hugify_allowed h) (h_in_psset_hugify_container h) (h_mid_purge h) (h_mid_hugify h) (h_updating h) (h_in_psset h) h.
Definition hpdata_purge_allowed_set (b : bool) (h : hpdata_t) : hpdata_t :=
  set_flags (h_alloc_allowed h) (h_in_psset_alloc_container h) b (h_hugify_allowed h)
    (h_time_hugify_allowed h) (h_in_psset_hugify_container h) (h_mid_purge h) (h_mid_hugify h) (h_updating h) (h_in_psset h) h.
Definition hpdata_mid_purge_set (b : bool) (h : hpdata_t) : hpdata_t :=
  set_flags (h_alloc_allowed h) (h_in_psset_alloc_container h) (h_purge_allowed h) (h_hugify_allowed h)
    (h_time_hugify_allowed h) (h_in_psset_hugify_container h) b (h_mid_hugify h) (h_updating h) (h_in_psset h) h.
Definition hpdata_mid_hugify_set (b : bool) (h : hpdata_t) : hpdata_t :=
  set_flags (h_alloc_allowed h) (h_in_psset_alloc_container h) (h_purge_allowed h) (h_hugify_allowed h)
    (h_time_hugify_allowed h) (h_in_psset_hugify_container h) (h_mid_purge h) b (h_updating h) (h_in_psset h) h.
Definition hpdata_allow_hugify (now : Z) (h : hpdata_t) : hpdata_t :=
  set_flags (h_alloc_allowed h) (h_in_psset_alloc_container h) (h_purge_allowed h) true
    now (h_in_psset_hugify_container h) (h_mid_purge h) (h_mid_hugify h) (h_updating h) (h_in_psset h) h.
Definition hpdata_disallow_hugify (h : hpdata_t) : hpdata_t :=
  set_flags (h_alloc_allowed h) (h_in_psset_alloc_container h) (h_purge_allowed h) false
    (h_time_hugify_allowed h) (h_in_psset_hugify_container h) (h_mid_purge h) (h_mid_hugify h) (h_updating h) (h_in_psset h) h.

(** ** Access to the set *)

Definition with_psset (f : psset_t → psset_t) (s : psset_mem) : psset_mem :=
  mkMem (ps_data s) (age_link s) (ql_link_empty s) (ql_link_purge s) (ql_link_hugify s) (f (psset s)).

Definition set_heaps (hs : list ph_t) (p : psset_t) : psset_t :=
  mkPsset hs (pageslab_bitmap p) (merged_stats p) (stats p) (empty_list p) (to_purge p) (purge_bitmap p) (to_hugify p).
Definition set_pageslab_bitmap (b : list Z) (p : psset_t) : psset_t :=
  mkPsset (pageslabs p) b (merged_stats p) (stats p) (empty_list p) (to_purge p) (purge_bitmap p) (to_hugify p).
Definition set_stats (m : psset_bin_stats_t) (st : psset_stats_t) (p : psset_t) : psset_t :=
  mkPsset (pageslabs p) (pageslab_bitmap p) m st (empty_list p) (to_purge p) (purge_bitmap p) (to_hugify p).
Definition set_empty_list (q : Z) (p : psset_t) : psset_t :=
  mkPsset (pageslabs p) (pageslab_bitmap p) (merged_stats p) (stats p) q (to_purge p) (purge_bitmap p) (to_hugify p).
Definition set_to_purge (l : list Z) (p : psset_t) : psset_t :=
  mkPsset (pageslabs p) (pageslab_bitmap p) (merged_stats p) (stats p) (empty_list p) l (purge_bitmap p) (to_hugify p).
Definition set_purge_bitmap (b : list Z) (p : psset_t) : psset_t :=
  mkPsset (pageslabs p) (pageslab_bitmap p) (merged_stats p) (stats p) (empty_list p) (to_purge p) b (to_hugify p).
Definition set_to_hugify (q : Z) (p : psset_t) : psset_t :=
  mkPsset (pageslabs p) (pageslab_bitmap p) (merged_stats p) (stats p) (empty_list p) (to_purge p) (purge_bitmap p) q.

(** The objects the heaps hold are compared by their ages. *)
Definition no_slab : hpdata_t :=
  mkHpdata 0 0 false false false false false 0 false false false false false 0 0 [] 0 [].
Definition age_cmp (s : psset_mem) (a b : Z) : Z :=
  hpdata_age_comp (default no_slab (ps_data s !! a)) (default no_slab (ps_data s !! b)).

(** An operation on the heap [pageslabs[pind]]. *)
Definition on_heap {A} (pind : Z) (op : (Z → Z → Z) → M ph_mem A) : M psset_mem A := λ s,
  if pind <? 0 then Fault OutOfBounds else
  match pageslabs (psset s) !! Z.to_nat pind with
  | None => Fault OutOfBounds
  | Some ph =>
      match op (age_cmp s) (age_link s, ph) with
      | Fault f => Fault f
      | Done (a, (h, ph)) =>
          Done (a, mkMem (ps_data s) h (ql_link_empty s) (ql_link_purge s) (ql_link_hugify s)
                     (set_heaps (<[Z.to_nat pind:=ph]> (pageslabs (psset s))) (psset s)))
      end
  end.

(** An operation on the list of empty slabs. *)
Definition on_empty (op : Z → M rings Z) : M psset_mem unit := λ s,
  match op (empty_list (psset s)) (ql_link_empty s) with
  | Fault f => Fault f
  | Done (q, h) => Done (tt, mkMem (ps_data s) (age_link s) h (ql_link_purge s) (ql_link_hugify s)
                               (set_empty_list q (psset s)))
  end.

(** An operation on the list [to_purge[ind]]. *)
Definition on_purge (ind : Z) (op : Z → M rings Z) : M psset_mem unit := λ s,
  if ind <? 0 then Fault OutOfBounds else
  match to_purge (psset s) !! Z.to_nat ind with
  | None => Fault OutOfBounds
  | Some q =>
      match op q (ql_link_purge s) with
      | Fault f => Fault f
      | Done (q, h) => Done (tt, mkMem (ps_data s) (age_link s) (ql_link_empty s) h (ql_link_hugify s)
                                   (set_to_purge (<[Z.to_nat ind:=q]> (to_purge (psset s))) (psset s)))
      end
  end.

Definition purge_list_empty (ind : Z) : M psset_mem bool :=
  s ← get;
  if ind <? 0 then throw OutOfBounds else
  q ← liftO (to_purge (psset s) !! Z.to_nat ind ?? OutOfBounds);
  mret (list_empty q).

Definition on_hugify (op : Z → M rings Z) : M psset_mem unit := λ s,
  match op (to_hugify (psset s)) (ql_link_hugify s) with
  | Fault f => Fault f
  | Done (q, h) => Done (tt, mkMem (ps_data s) (age_link s) (ql_link_empty s) (ql_link_purge s) h
                               (set_to_hugify q (psset s)))
  end.

(** The union of [age_link] and [ql_link_empty]. *)
Definition claim_age_link (ps : Z) : M psset_mem unit :=
  modify (λ s, mkMem (ps_data s) (age_link s) (delete ps (ql_link_empty s)) (ql_link_purge s) (ql_link_hugify s) (psset s)).
Definition claim_empty_link (ps : Z) : M psset_mem unit :=
  modify (λ s, mkMem (ps_data s) (delete ps (age_link s)) (ql_link_empty s) (ql_link_purge s) (ql_link_hugify s) (psset s)).

(** ** Initialisation *)

Definition no_bin : psset_bin_stats_t := mkBin 0 0 0.

(** [psset_init] over the bitmaps found in memory. *)
Definition psset_init (bitmap purge : list Z) : outcome psset_t :=
  pageslab_bitmap ← fb_init bitmap PSSET_NPSIZES;
  purge_bitmap ← fb_init purge PSSET_NPURGE_LISTS;
  Done (mkPsset (replicate (Z.to_nat PSSET_NPSIZES) (mkPh 0 0)) pageslab_bitmap no_bin
          (mkStats (replicate (Z.to_nat PSSET_NPSIZES) (no_bin, no_bin)) (no_bin, no_bin) (no_bin, no_bin))
          0 (replicate (Z.to_nat PSSET_NPURGE_LISTS) 0) purge_bitmap 0).

(** ** Statistics *)

Definition psset_bin_stats_accum (dst src : psset_bin_stats_t) : psset_bin_stats_t :=
  mkBin (u64 (npageslabs dst + npageslabs src)) (u64 (bin_nactive dst + bin_nactive src))
    (u64 (bin_ndirty dst + bin_ndirty src)).

Definition accum_pair (dst src : psset_bin_stats_t * psset_bin_stats_t) : psset_bin_stats_t * psset_bin_stats_t :=
  (psset_bin_stats_accum dst.1 src.1, psset_bin_stats_accum dst.2 src.2).

Definition psset_stats_accum (dst src : psset_stats_t) : psset_stats_t :=
  mkStats (zip_with accum_pair (nonfull_slabs dst) (nonfull_slabs src))
    (accum_pair (full_slabs dst) (full_slabs src)) (accum_pair (empty_slabs dst) (empty_slabs src)).

Definition bin_add (mul : Z) (d : hpdata_t) (b : psset_bin_stats_t) : psset_bin_stats_t :=
  mkBin (u64 (npageslabs b + mul * 1)) (u64 (bin_nactive b + u64 (mul * hpdata_nactive_get d)))
    (u64 (bin_ndirty b + u64 (mul * hpdata_ndirty_get d))).

Definition pair_add (mul : Z) (d : hpdata_t) (b : psset_bin_stats_t * psset_bin_stats_t) : psset_bin_stats_t * psset_bin_stats_t :=
  if h_huge d then (b.1, bin_add mul d b.2) else (bin_add mul d b.1, b.2).

(** The array of two bins that a slab counts in. *)
Inductive binstats : Type := BinEmpty | BinFull | BinNonfull (pind : Z).

(** [psset_bin_stats_insert_remove]; the checks of a debug build are left out. *)
Definition psset_bin_stats_insert_remove (b : binstats) (ps : Z) (insert : bool) : M psset_mem unit :=
  d ← slab_get ps;
  let mul := if insert then 1 else u64 (-1) in
  s ← get;
  let st := stats (psset s) in
  st' ← match b with
        | BinEmpty => mret (mkStats (nonfull_slabs st) (full_slabs st) (pair_add mul d (empty_slabs st)))
        | BinFull => mret (mkStats (nonfull_slabs st) (pair_add mul d (full_slabs st)) (empty_slabs st))
        | BinNonfull pind =>
            if pind <? 0 then throw OutOfBounds else
            bin ← liftO (nonfull_slabs st !! Z.to_nat pind ?? OutOfBounds);
            mret (mkStats (<[Z.to_nat pind:=pair_add mul d bin]> (nonfull_slabs st)) (full_slabs st) (empty_slabs st))
        end;
  modify (with_psset (set_stats (bin_add mul d (merged_stats (psset s))) st')).

Section ops.
Context (T : sz_tables).

(** [sz_psz2ind(sz_psz_quantize_floor(npages << LG_PAGE))] *)
Definition pages_pind (npages : Z) : outcome Z :=
  c ← sz_psz_quantize_floor T (shl64 npages LG_PAGE);
  Done (sz_psz2ind c).

Definition slab_bin (d : hpdata_t) : outcome binstats :=
  if hpdata_empty d then Done BinEmpty
  else if hpdata_full d then Done BinFull
  else pind ← pages_pind (hpdata_longest_free_range_get d); Done (BinNonfull pind).

Definition psset_stats_insert (ps : Z) : M psset_mem unit :=
  d ← slab_get ps; b ← liftO (slab_bin d); psset_bin_stats_insert_remove b ps true.

Definition psset_stats_remove (ps : Z) : M psset_mem unit :=
  d ← slab_get ps; b ← liftO (slab_bin d); psset_bin_stats_insert_remove b ps false.

(** ** Containers of slabs that may serve allocations *)

Definition psset_hpdata_heap_remove (pind ps : Z) : M psset_mem unit :=
  on_heap pind (λ cmp, ph_remove cmp ps);;
  e ← on_heap pind (λ _, ph_empty);
  if e : bool then
    s ← get;
    b ← liftO (fb_unset (pageslab_bitmap (psset s)) PSSET_NPSIZES pind);
    modify (with_psset (set_pageslab_bitmap b))
  else mret tt.

Definition psset_hpdata_heap_insert (pind ps : Z) : M psset_mem unit :=
  e ← on_heap pind (λ _, ph_empty);
  (if e : bool then
     s ← get;
     b ← liftO (fb_set (pageslab_bitmap (psset s)) PSSET_NPSIZES pind);
     modify (with_psset (set_pageslab_bitmap b))
   else mret tt);;
  claim_age_link ps;;
  on_heap pind (λ cmp, ph_insert cmp ps).

Definition psset_alloc_container_insert (ps : Z) : M psset_mem unit :=
  slab_set ps (hpdata_in_psset_alloc_container_set true);;
  d ← slab_get ps;
  if hpdata_empty d then claim_empty_link ps;; on_empty (λ q, list_prepend q ps)
  else if hpdata_full d then mret tt
  else pind ← liftO (pages_pind (hpdata_longest_free_range_get d)); psset_hpdata_heap_insert pind ps.

Definition psset_alloc_container_remove (ps : Z) : M psset_mem unit :=
  slab_set ps (hpdata_in_psset_alloc_container_set false);;
  d ← slab_get ps;
  if hpdata_empty d then on_empty (λ q, list_remove q ps)
  else if hpdata_full d then mret tt
  else pind ← liftO (pages_pind (hpdata_longest_free_range_get d)); psset_hpdata_heap_remove pind ps.

(** ** Lists of slabs to purge *)

Definition psset_purge_list_ind (d : hpdata_t) : outcome Z :=
  let ndirty := hpdata_ndirty_get d in
  if hpdata_nactive_get d =? 0 then
    Done (if h_huge d then PSSET_NPURGE_LISTS - 1 else PSSET_NPURGE_LISTS - 2)
  else
    pind ← pages_pind ndirty;
    Done (u64 (pind * 2 + (if h_huge d then 0 else 1))).

Definition psset_maybe_remove_purge_list (ps : Z) : M psset_mem unit :=
  d ← slab_get ps;
  if h_purge_allowed d then
    ind ← liftO (psset_purge_list_ind d);
    on_purge ind (λ q, list_remove q ps);;
    e ← purge_list_empty ind;
    if e : bool then
      s ← get;
      b ← liftO (fb_unset (purge_bitmap (psset s)) PSSET_NPURGE_LISTS ind);
      modify (with_psset (set_purge_bitmap b))
    else mret tt
  else mret tt.

Definition psset_maybe_insert_purge_list (ps : Z) : M psset_mem unit :=
  d ← slab_get ps;
  if h_purge_allowed d then
    ind ← liftO (psset_purge_list_ind d);
    e ← purge_list_empty ind;
    (if e : bool then
       s ← get;
       b ← liftO (fb_set (purge_bitmap (psset s)) PSSET_NPURGE_LISTS ind);
       modify (with_psset (set_purge_bitmap b))
     else mret tt);;
    on_purge ind (λ q, list_append q ps)
  else mret tt.

(** ** Entry points *)

Definition psset_update_begin (ps : Z) : M psset_mem unit :=
  slab_set ps (hpdata_updating_set true);;
  psset_stats_remove ps;;
  d ← slab_get ps;
  (if h_in_psset_alloc_container d then psset_alloc_container_remove ps else mret tt);;
  psset_maybe_remove_purge_list ps.

(** The tail of [psset_update_end]: bring the list of slabs to hugify up to date. *)
Definition update_hugify (ps : Z) : M psset_mem unit :=
  d ← slab_get ps;
  if h_hugify_allowed d && negb (h_in_psset_hugify_container d) then
    slab_set ps (hpdata_in_psset_hugify_container_set true);;
    on_hugify (λ q, list_append q ps)
  else if negb (h_hugify_allowed d) && h_in_psset_hugify_container d then
    slab_set ps (hpdata_in_psset_hugify_container_set false);;
    on_hugify (λ q, list_remove q ps)
  else mret tt.

Definition psset_update_end (ps : Z) : M psset_mem unit :=
  slab_set ps (hpdata_updating_set false);;
  psset_stats_insert ps;;
  d ← slab_get ps;
  (if h_alloc_allowed d then psset_alloc_container_insert ps else mret tt);;
  psset_maybe_insert_purge_list ps;;
  update_hugify ps.

Definition psset_pick_alloc (size : Z) : M psset_mem Z :=
  c ← liftO (sz_psz_quantize_ceil T size);
  let min_pind := sz_psz2ind c in
  s ← get;
  pind ← liftO (fb_ffs (pageslab_bitmap (psset s)) PSSET_NPSIZES min_pind);
  let pind := u32 pind in
  if pind =? PSSET_NPSIZES then mret (list_first (empty_list (psset s)))
  else on_heap pind ph_first.

Definition psset_pick_purge : M psset_mem Z :=
  s ← get;
  ind_ssz ← liftO (fb_fls (purge_bitmap (psset s)) PSSET_NPURGE_LISTS (PSSET_NPURGE_LISTS - 1));
  if ind_ssz <? 0 then mret 0
  else
    q ← liftO (to_purge (psset s) !! Z.to_nat (u32 ind_ssz) ?? OutOfBounds);
    mret (list_first q).

Definition psset_pick_hugify : M psset_mem Z := s ← get; mret (list_first (to_hugify (psset s))).

Definition psset_insert (ps : Z) : M psset_mem unit :=
  slab_set ps (hpdata_in_psset_set true);;
  psset_stats_insert ps;;
  d ← slab_get ps;
  (if h_alloc_allowed d then psset_alloc_container_insert ps else mret tt);;
  psset_maybe_insert_purge_list ps;;
  d ← slab_get ps;
  if h_hugify_allowed d then
    slab_set ps (hpdata_in_psset_hugify_container_set true);;
    on_hugify (λ q, list_append q ps)
  else mret tt.

Definition psset_remove (ps : Z) : M psset_mem unit :=
  slab_set ps (hpdata_in_psset_set false);;
  psset_stats_remove ps;;
  d ← slab_get ps;
  (if h_in_psset_alloc_container d then psset_alloc_container_remove ps else mret tt);;
  psset_maybe_remove_purge_list ps;;
  d ← slab_get ps;
  if h_in_psset_hugify_container d then
    slab_set ps (hpdata_in_psset_hugify_container_set false);;
    on_hugify (λ q, list_remove q ps)
  else mret tt.
End ops.

Definition psset_npageslabs (p : psset_t) : Z := npageslabs (merged_stats p).
Definition psset_nactive (p : psset_t) : Z := bin_nactive (merged_stats p).
Definition psset_ndirty (p : psset_t) : Z := bin_ndirty (merged_stats p).
