(* ===== verification/PssetSizes.v ===== *)
(** * Size classes of page slabs

    A slab is filed under the class of its longest free range, rounded down, and a request looks
    from the class of its size, rounded up.  Both are indices into one increasing sequence of
    sizes, so that a slab found from the index of a request can serve it. *)
From stdpp Require Import base list gmap numbers.
From S2P Require Import Prelude BitUtil SizeClass Sz SzTheorems Hpdata HpdataTheorems Ph Ql Psset.

Section sizes.
Context (T : sz_tables) `{!SzReady T}.

(** The sizes that the quantisation functions return: the page classes with the padding of
    large allocations and, below them, a single page. *)
Definition psize (j : Z) : Z :=
  if sz_large_pad T =? 0 then sz_pind2sz_compute j
  else if j =? 0 then PAGE else sz_pind2sz_compute (j - 1) + PAGE.

Lemma pclass_step i : 0 ≤ i < SC_NPSIZES → sz_pind2sz_compute i + PAGE ≤ sz_pind2sz_compute (i + 1).
Proof.
  intros Hi. pose proof (pclass_next i Hi). destruct (pclass_page i) as [M1 _]; [lia|].
  destruct (pclass_page (i + 1)) as [M2 _]; [lia|]. change PAGE with 4096 in *. dlia.
Qed.

Lemma psize_next j : 0 ≤ j < SC_NPSIZES → psize j + PAGE ≤ psize (j + 1).
Proof.
  intros Hj. unfold psize. case_match; [by apply pclass_step|].
  destruct (Z.eqb_spec j 0) as [->|]; [by vm_compute|].
  rewrite (proj2 (Z.eqb_neq (j + 1) 0)) by lia. replace (j + 1 - 1) with (j - 1 + 1) by lia.
  pose proof (pclass_step (j - 1)). lia.
Qed.

Lemma psize_mono i j : 0 ≤ i → i < j ≤ SC_NPSIZES → psize i < psize j.
Proof.
  intros Hi Hj. replace j with (i + Z.of_nat (Z.to_nat (j - i))) in * by lia.
  revert Hj. generalize (Z.to_nat (j - i)). clear j. intros n. induction n as [|n IH]; intros Hj; [lia|].
  replace (i + Z.of_nat (S n)) with (i + Z.of_nat n + 1) in * by lia.
  pose proof (psize_next (i + Z.of_nat n)). change PAGE with 4096 in *.
  destruct (decide (n = 0%nat)) as [->|]; [change (Z.of_nat 0) with 0 in *; rewrite Z.add_0_r in *; lia|]. lia.
Qed.

(** The index of such a size is its position. *)
Lemma psize_index j : 0 ≤ j < 64 → sz_psz2ind (psize j) = j.
Proof.
  intros Hj. change PAGE with 4096 in *. unfold psize. destruct (sz_large_pad T =? 0).
  - apply (all_below (λ j, sz_psz2ind (sz_pind2sz_compute j) = j) 64); [by vm_compute|done].
  - apply (all_below (λ j, sz_psz2ind (if j =? 0 then PAGE else sz_pind2sz_compute (j - 1) + PAGE) = j) 64);
      [by vm_compute|done].
Qed.

(** A huge page is at most this class. *)
Lemma psize_huge j : 0 ≤ j ≤ SC_NPSIZES → psize j ≤ HUGEPAGE → j ≤ 32.
Proof.
  intros Hj Hle. destruct (Z.le_gt_cases j 32) as [|Hgt]; [done|]. exfalso.
  assert (HUGEPAGE < psize 33) by (unfold psize; case_match; vm_compute; reflexivity).
  destruct (decide (j = 33)) as [->|]; [lia|]. pose proof (psize_mono 33 j). lia.
Qed.

Lemma pad_pages : sz_large_pad T = 0 ∨ sz_large_pad T = 4096.
Proof. exact ready_pad. Qed.

(** The class index [j] of [quantize_floor_ok] is the position [j] or [j + 1]. *)
Lemma floor_ok n :
  1 ≤ n ≤ HUGEPAGE_PAGES →
  ∃ j, sz_psz_quantize_floor T (n * PAGE) = Done (psize j) ∧ 0 ≤ j ≤ 32 ∧ psize j ≤ n * PAGE < psize (j + 1).
Proof.
  rewrite hugepage_pages. intros Hn.
  assert (Hj : ∃ j, sz_psz_quantize_floor T (n * PAGE) = Done (psize j) ∧ 0 ≤ j < SC_NPSIZES ∧ psize j ≤ n * PAGE < psize (j + 1)).
  2:{ destruct Hj as (j & E & Hj & Hb). exists j. split_and!; try done; try lia. apply psize_huge; [lia|].
      change HUGEPAGE with (512 * PAGE). change PAGE with 4096 in *. lia. }
  change PAGE with 4096. destruct (decide (n = 1 ∧ sz_large_pad T = 4096)) as [[-> Hp]|Hne].
  { exists 0. unfold sz_psz_quantize_floor, psize. rewrite Hp. split; [by vm_compute|]. by vm_compute. }
  destruct (quantize_floor_ok T (n * 4096 - sz_large_pad T)) as (c & E & i & Hi & -> & Hb).
  { change PAGE with 4096. change SC_LARGE_MAXCLASS with 8070450532247928832. destruct pad_pages; lia. }
  replace (n * 4096 - sz_large_pad T + sz_large_pad T) with (n * 4096) in E by lia.
  destruct pad_pages as [Hp|Hp]; rewrite Hp in *.
  - exists i. unfold psize. rewrite Hp. simpl (0 =? 0). rewrite Z.add_0_r in E. split_and!; try done; lia.
  - assert (Hsmall : i + 1 < SC_NPSIZES).
    { destruct (Z.lt_ge_cases (i + 1) SC_NPSIZES) as [|Hge]; [done|]. exfalso.
      assert (i = 198) as -> by (change SC_NPSIZES with 199 in *; lia).
      assert (10 ^ 7 < sz_pind2sz_compute 198) by (vm_compute; reflexivity). lia. }
    exists (i + 1). unfold psize. rewrite Hp. change (4096 =? 0) with false. cbn match.
    rewrite !(proj2 (Z.eqb_neq _ 0)) by lia. change PAGE with 4096.
    replace (i + 1 - 1) with i by lia. replace (i + 1 + 1 - 1) with (i + 1) by lia.
    split_and!; try done; lia.
Qed.

Lemma ceil_ok n :
  1 ≤ n ≤ HUGEPAGE_PAGES →
  ∃ j, sz_psz_quantize_ceil T (n * PAGE) = Done (psize j) ∧ 0 ≤ j ≤ 33 ∧ n * PAGE ≤ psize j ∧
       (0 < j → psize (j - 1) < n * PAGE).
Proof.
  intros Hn. destruct (floor_ok n Hn) as (j & E & Hj & Hb). unfold sz_psz_quantize_ceil.
  rewrite E. cbn [mbind outcome_bind]. rewrite hugepage_pages in Hn.
  destruct (Z.ltb_spec (psize j) (n * PAGE)) as [Hlt|Hge].
  2:{ exists j. split_and!; try done; try lia. intros Hpos. pose proof (psize_mono (j - 1) j). change SC_NPSIZES with 199 in *. lia. }
  assert (Hc : sz_psz2ind (u64 (psize j - sz_large_pad T + 1)) = if sz_large_pad T =? 0 then j + 1 else j).
  { apply (all_below (λ j, sz_psz2ind (u64 (psize j - sz_large_pad T + 1)) = if sz_large_pad T =? 0 then j + 1 else j) 33); [|lia].
    unfold psize. destruct pad_pages as [-> | ->]; vm_compute; reflexivity. }
  rewrite Hc. exists (j + 1).
  assert (Hps : psize (j + 1) < 2 ^ 40).
  { apply Z.le_lt_trans with (psize 33); [|unfold psize; case_match; vm_compute; reflexivity].
    destruct (decide (j = 32)) as [->|]; [done|]. pose proof (psize_mono (j + 1) 33). change SC_NPSIZES with 199 in *. lia. }
  split; [|split_and!; [lia|lia|lia|]; intros _; by replace (j + 1 - 1) with j by lia].
  destruct pad_pages as [Hp|Hp]; rewrite Hp; [change (0 =? 0) with true|change (4096 =? 0) with false]; cbn match;
    rewrite ready_pind by (change SC_NPSIZES with 199; lia); cbn [mbind outcome_bind].
  - unfold psize in *. rewrite Hp in *. change (0 =? 0) with true in *. cbn match in *. rewrite Z.add_0_r.
    destruct (pclass_page (j + 1)) as [_ H]; [change SC_NPSIZES with 199; lia|]. change PAGE with 4096 in *.
    rewrite u64_small by (unfold is_u64; lia). done.
  - unfold psize in *. rewrite Hp in *. change (4096 =? 0) with false in *. cbn match in *.
    rewrite (proj2 (Z.eqb_neq (j + 1) 0)) in * by lia. replace (j + 1 - 1) with j in * by lia.
    destruct (pclass_page j) as [_ H]; [change SC_NPSIZES with 199; lia|]. change PAGE with 4096 in *.
    rewrite u64_small by (unfold is_u64; lia). done.
Qed.

Lemma pages_pind_ok n :
  1 ≤ n ≤ HUGEPAGE_PAGES →
  ∃ j, pages_pind T n = Done j ∧ 0 ≤ j ≤ 32 ∧ psize j ≤ n * PAGE < psize (j + 1).
Proof.
  intros Hn. destruct (floor_ok n Hn) as (j & E & Hj & Hb). exists j. unfold pages_pind.
  rewrite page_offset by lia. rewrite E. cbn [mbind outcome_bind]. rewrite psize_index by lia. done.
Qed.

(** What a request looks for. *)
Lemma request_pind_ok n :
  1 ≤ n ≤ HUGEPAGE_PAGES →
  ∃ c m, sz_psz_quantize_ceil T (n * PAGE) = Done c ∧ sz_psz2ind c = m ∧ 0 ≤ m ≤ 33 ∧
    n * PAGE ≤ psize m ∧ (0 < m → psize (m - 1) < n * PAGE).
Proof.
  intros Hn. destruct (ceil_ok n Hn) as (j & E & Hj & H1 & H2). exists (psize j), j.
  split_and!; try done; try lia. apply psize_index. lia.
Qed.
End sizes.
