(* ===== verification/PssetFacts.v ===== *)
(** * The containers of a page slab set

    Each part of the state has its own invariant, over the set of slabs it should hold: the
    heaps and the list of empty slabs ([alloc_rep]), the lists to purge
    ([purge_rep]), the list to hugify, the statistics.  One lemma per operation. *)
From stdpp Require Import base list gmap numbers.
From S2P Require Import Prelude BitUtil SizeClass Sz Fb FbFacts FbTheorems Hpdata Ph PhFacts PhOps PhHeap Ql Psset.

(** ** Slabs that may serve allocations *)

Record alloc_part : Type := mkAlloc {
  a_age : links;
  a_rings : rings;
  a_heaps : list ph_t;
  a_bitmap : list Z;
  a_empty : Z
}.

Definition alloc_of (s : psset_mem) : alloc_part :=
  mkAlloc (age_link s) (ql_link_empty s) (pageslabs (psset s)) (pageslab_bitmap (psset s)) (empty_list (psset s)).

Definition put_alloc (a : alloc_part) (s : psset_mem) : psset_mem :=
  let p := psset s in
  mkMem (ps_data s) (a_age a) (a_rings a) (ql_link_purge s) (ql_link_hugify s)
    (mkPsset (a_heaps a) (a_bitmap a) (merged_stats p) (stats p) (a_empty a) (to_purge p) (purge_bitmap p) (to_hugify p)).

(** The containers hold the slabs [B], each where [K] says. *)
Record alloc_rep (K : Z → option binstats) (B : gset Z) (Fs : list forest) (Em : list Z) (a : alloc_part) : Prop := {
  ar_forests : length Fs = 64%nat;
  ar_heaps : length (a_heaps a) = 64%nat;
  ar_wf : ∀ i f ph, Fs !! i = Some f → a_heaps a !! i = Some ph → ph_wf (a_age a, ph) f;
  ar_empty : qlist (a_rings a) (a_empty a) Em;
  ar_bitmap : fb_ok PSSET_NPSIZES (a_bitmap a);
  ar_bits : ∀ i f, Fs !! i = Some f → fbit (a_bitmap a) (Z.of_nat i) = bool_decide (f ≠ Nil);
  ar_in_heap : ∀ i f p, Fs !! i = Some f → p ∈ nodes f ↔ p ∈ B ∧ K p = Some (BinNonfull (Z.of_nat i));
  ar_in_empty : ∀ p, p ∈ Em ↔ p ∈ B ∧ K p = Some BinEmpty
}.

Lemma put_alloc_id s : put_alloc (alloc_of s) s = s.
Proof. by destruct s as [? ? ? ? ? []]. Qed.

Lemma on_heap_ok {A} i (op : (Z → Z → Z) → M ph_mem A) s ph a h' ph' :
  0 ≤ i → pageslabs (psset s) !! Z.to_nat i = Some ph →
  op (age_cmp s) (age_link s, ph) = Done (a, (h', ph')) →
  on_heap i op s = Done (a, put_alloc (mkAlloc h' (ql_link_empty s) (<[Z.to_nat i:=ph']> (pageslabs (psset s)))
                                         (pageslab_bitmap (psset s)) (empty_list (psset s))) s).
Proof. intros Hi E Eo. unfold on_heap. rewrite (proj2 (Z.ltb_ge i 0)) by done. by rewrite E, Eo. Qed.

(** Whether a heap is empty. *)
Lemma heap_empty_ok K B Fs Em s i f :
  alloc_rep K B Fs Em (alloc_of s) → 0 ≤ i → Fs !! Z.to_nat i = Some f →
  on_heap i (λ _, ph_empty) s = Done (bool_decide (f = Nil), s).
Proof.
  intros R Hi Ef. destruct (lookup_lt_is_Some_2 (pageslabs (psset s)) (Z.to_nat i)) as [ph Eph].
  { apply lookup_lt_Some in Ef. rewrite (ar_forests _ _ _ _ _ R) in Ef. pose proof (ar_heaps _ _ _ _ _ R) as Hl. simpl in Hl. lia. }
  pose proof (ar_wf _ _ _ _ _ R _ _ _ Ef Eph) as (Hr & (pv & Hrep) & _). cbn [fst snd] in *.
  erewrite on_heap_ok; [|done|done|reflexivity].
  rewrite list_insert_id by done. change (mkAlloc _ _ _ _ _) with (alloc_of s). rewrite put_alloc_id. cbn [fst snd].
  rewrite Hr. repeat f_equal. case_bool_decide as E; [by rewrite E|]. apply Z.eqb_neq. intros H0. by apply E, (rep_fhead _ _ _ Hrep).
Qed.

(** A heap of the array is replaced: the others are where they were. *)
Lemma heaps_update K B B' Fs Em a i f f' ph ph' h' bm (p : Z) :
  alloc_rep K B Fs Em a → Fs !! i = Some f → a_heaps a !! i = Some ph → ph_wf (h', ph') f' →
  only_on (p :: nodes f) (a_age a) h' → K p = Some (BinNonfull (Z.of_nat i)) →
  (∀ q, q ∈ nodes f' ↔ q ∈ B' ∧ K q = Some (BinNonfull (Z.of_nat i))) →
  (∀ q, q ≠ p → q ∈ B' ↔ q ∈ B) →
  fb_ok PSSET_NPSIZES bm → (∀ j g, <[i:=f']> Fs !! j = Some g → fbit bm (Z.of_nat j) = bool_decide (g ≠ Nil)) →
  alloc_rep K B' (<[i:=f']> Fs) Em (mkAlloc h' (a_rings a) (<[i:=ph']> (a_heaps a)) bm (a_empty a)).
Proof.
  intros R Ef Eph W O Kp Hin HB Hbm Hbits. destruct R as [R1 R2 R3 R4 R5 R6 R7 R8]. split; cbn [a_age a_rings a_heaps a_bitmap a_empty].
  - by rewrite length_insert.
  - by rewrite length_insert.
  - intros j g phj Eg Ep. destruct (decide (i = j)) as [<-|Hne].
    + rewrite list_lookup_insert_eq in Eg by (by eapply lookup_lt_Some).
      rewrite list_lookup_insert_eq in Ep by (by eapply lookup_lt_Some). by simplify_eq.
    + rewrite list_lookup_insert_ne in Eg by done. rewrite list_lookup_insert_ne in Ep by done. apply (ph_wf_frame (a_age a)); [by eapply R3|].
      intros q Hq. apply O. apply (R7 j g q Eg) in Hq as [Hq Kq]. intros [->|Hq']%elem_of_cons.
      * rewrite Kp in Kq. injection Kq. lia.
      * apply (R7 i f q Ef) in Hq' as [_ Kq']. rewrite Kq in Kq'. injection Kq'. lia.
  - done.
  - done.
  - done.
  - intros j g q Eg. destruct (decide (i = j)) as [<-|Hne].
    + rewrite list_lookup_insert_eq in Eg by (by eapply lookup_lt_Some). simplify_eq. apply Hin.
    + rewrite list_lookup_insert_ne in Eg by done. rewrite (R7 j g q Eg). split; intros [Hq Kq]; (split; [|done]).
      * apply HB; [|done]. intros ->. rewrite Kp in Kq. injection Kq. lia.
      * apply HB; [|done]. intros ->. rewrite Kp in Kq. injection Kq. lia.
  - intros q. rewrite R8. split; intros [Hq Kq]; (split; [|done]); (apply HB; [|done]); intros ->; congruence.
Qed.

(** The bitmap after the heap [i] became empty or not. *)
Lemma bits_update Fs bm bm' i (f f' : forest) :
  length Fs = 64%nat → Fs !! i = Some f →
  (∀ j g, Fs !! j = Some g → fbit bm (Z.of_nat j) = bool_decide (g ≠ Nil)) →
  (∀ j, 0 ≤ j → fbit bm' j = if decide (j = Z.of_nat i) then bool_decide (f' ≠ Nil) else fbit bm j) →
  ∀ j g, <[i:=f']> Fs !! j = Some g → fbit bm' (Z.of_nat j) = bool_decide (g ≠ Nil).
Proof.
  intros Hl Ef Hb Hb' j g Eg. rewrite Hb' by lia. destruct (decide (Z.of_nat j = Z.of_nat i)) as [E|E].
  - assert (j = i) as -> by lia. rewrite list_lookup_insert_eq in Eg by (by eapply lookup_lt_Some). by simplify_eq.
  - rewrite list_lookup_insert_ne in Eg by lia. by apply Hb.
Qed.

Lemma pind_lookup K B Fs Em a i :
  alloc_rep K B Fs Em a → 0 ≤ i < PSSET_NPSIZES →
  ∃ f ph, Fs !! Z.to_nat i = Some f ∧ a_heaps a !! Z.to_nat i = Some ph ∧ ph_wf (a_age a, ph) f.
Proof.
  intros R Hi. change PSSET_NPSIZES with 64 in Hi.
  destruct (lookup_lt_is_Some_2 Fs (Z.to_nat i)) as [f Ef]; [rewrite (ar_forests _ _ _ _ _ R); lia|].
  destruct (lookup_lt_is_Some_2 (a_heaps a) (Z.to_nat i)) as [ph Eph]; [rewrite (ar_heaps _ _ _ _ _ R); lia|].
  exists f, ph. split_and!; [done..|]. by eapply (ar_wf _ _ _ _ _ R).
Qed.

Definition set_a_bitmap (bm : list Z) (a : alloc_part) : alloc_part :=
  mkAlloc (a_age a) (a_rings a) (a_heaps a) bm (a_empty a).

(** The guarded update of the bitmap in [psset_hpdata_heap_insert]. *)
Lemma mark_heap_ok s i (e : bool) :
  fb_ok PSSET_NPSIZES (pageslab_bitmap (psset s)) → 0 ≤ i < PSSET_NPSIZES →
  (e = false → fbit (pageslab_bitmap (psset s)) i = true) →
  ∃ bm, (if e then
           s ← get;
           b ← liftO (fb_set (pageslab_bitmap (psset s)) PSSET_NPSIZES i);
           modify (with_psset (set_pageslab_bitmap b))
         else mret tt) s = Done (tt, put_alloc (set_a_bitmap bm (alloc_of s)) s) ∧
    fb_ok PSSET_NPSIZES bm ∧
    ∀ j, 0 ≤ j → fbit bm j = if decide (j = i) then true else fbit (pageslab_bitmap (psset s)) j.
Proof.
  intros Hbm Hi He. destruct e.
  - destruct (fb_set_ok _ _ i Hbm Hi) as (bm & E & Hok & Hb). exists bm.
    erewrite bind_done by reflexivity. erewrite bind_done by (apply liftO_done; exact E). by split_and!.
  - exists (pageslab_bitmap (psset s)). split_and!; [|done|].
    + change (set_a_bitmap _ _) with (alloc_of s). by rewrite put_alloc_id.
    + intros j Hj. case_decide as E; [|done]. rewrite E. by apply He.
Qed.

Lemma heap_insert_ok K B Fs Em s i p :
  alloc_rep K B Fs Em (alloc_of s) → 0 ≤ i < PSSET_NPSIZES → K p = Some (BinNonfull i) → p ≠ 0 → p ∉ B →
  ∃ a Fs', psset_hpdata_heap_insert i p s = Done (tt, put_alloc a s) ∧ alloc_rep K ({[p]} ∪ B) Fs' Em a.
Proof.
  intros R Hi Kp Hp HpB. destruct (pind_lookup _ _ _ _ _ i R Hi) as (f & ph & Ef & Eph & W).
  unfold psset_hpdata_heap_insert. erewrite bind_done by (eapply heap_empty_ok; [done|lia|done]).
  pose proof (ar_bits _ _ _ _ _ R _ _ Ef) as Hfi. rewrite Z2Nat.id in Hfi by lia. cbn [alloc_of a_bitmap] in Hfi.
  destruct (mark_heap_ok s i (bool_decide (f = Nil))) as (bm & Em1 & Hbm & Hb);
    [apply (ar_bitmap _ _ _ _ _ R)|done| |].
  { intros Hf%bool_decide_eq_false. rewrite Hfi. by apply bool_decide_eq_true. }
  rewrite (bind_done _ _ _ _ _ Em1). set (s1 := put_alloc _ s).
  erewrite bind_done by reflexivity. set (s2 := mkMem _ _ _ _ _ _).
  assert (Hpf : p ∉ nodes f) by (intros H; apply (ar_in_heap _ _ _ _ _ R _ _ _ Ef) in H as [? _]; done).
  destruct (ph_insert_ok (age_cmp s2) (age_link s) ph f p W Hp Hpf) as ([h' ph'] & f' & E & W' & P & O & _).
  erewrite on_heap_ok; [|lia|exact Eph|exact E].
  eexists (mkAlloc h' (delete p (ql_link_empty s)) (<[Z.to_nat i:=ph']> (pageslabs (psset s))) bm (empty_list (psset s))), (<[Z.to_nat i:=f']> Fs).
  split; [reflexivity|].
  assert (R' : alloc_rep K ({[p]} ∪ B) (<[Z.to_nat i:=f']> Fs) Em
            (mkAlloc h' (a_rings (alloc_of s)) (<[Z.to_nat i:=ph']> (a_heaps (alloc_of s))) bm (a_empty (alloc_of s)))).
  { eapply (heaps_update _ B); try done.
    - by rewrite Z2Nat.id by lia.
    - intros q. rewrite P, elem_of_cons, (ar_in_heap _ _ _ _ _ R _ _ q Ef), Z2Nat.id by lia.
      rewrite elem_of_union, elem_of_singleton. split; [intros [->|[? ?]]; tauto|tauto].
    - intros q Hq. set_solver.
    - apply (bits_update Fs (pageslab_bitmap (psset s)) bm _ f); [apply (ar_forests _ _ _ _ _ R)|done|apply (ar_bits _ _ _ _ _ R)|].
      intros j Hj. rewrite Hb, Z2Nat.id by lia. destruct (decide (j = i)); [|done]. symmetry. apply bool_decide_eq_true. intros ->.
      apply (Permutation_nil_cons P). }
  destruct R' as [R1 R2 R3 R4 R5 R6 R7 R8]. split; try done. cbn [a_rings a_empty] in *.
  eapply (qlist_frame _ _ _ _ [p] R4).
  - intros q Hq. apply lookup_delete_ne. set_solver.
  - intros x Hx ->%list_elem_of_singleton. apply (ar_in_empty _ _ _ _ _ R) in Hx as [? _]. done.
Qed.

(** The guarded update of the bitmap in [psset_hpdata_heap_remove]. *)
Lemma unmark_heap_ok s i (e : bool) :
  fb_ok PSSET_NPSIZES (pageslab_bitmap (psset s)) → 0 ≤ i < PSSET_NPSIZES →
  (e = false → fbit (pageslab_bitmap (psset s)) i = true) →
  ∃ bm, (if e then
           s ← get;
           b ← liftO (fb_unset (pageslab_bitmap (psset s)) PSSET_NPSIZES i);
           modify (with_psset (set_pageslab_bitmap b))
         else mret tt) s = Done (tt, put_alloc (set_a_bitmap bm (alloc_of s)) s) ∧
    fb_ok PSSET_NPSIZES bm ∧
    ∀ j, 0 ≤ j → fbit bm j = if decide (j = i) then negb e else fbit (pageslab_bitmap (psset s)) j.
Proof.
  intros Hbm Hi He. destruct e.
  - destruct (fb_unset_ok _ _ i Hbm Hi) as (bm & E & Hok & Hb). exists bm.
    erewrite bind_done by reflexivity. erewrite bind_done by (apply liftO_done; exact E). by split_and!.
  - exists (pageslab_bitmap (psset s)). split_and!; [|done|].
    + change (set_a_bitmap _ _) with (alloc_of s). by rewrite put_alloc_id.
    + intros j Hj. case_decide as E; [|done]. rewrite E. by apply He.
Qed.

Lemma heap_remove_ok K B Fs Em s i p :
  alloc_rep K B Fs Em (alloc_of s) → 0 ≤ i < PSSET_NPSIZES → K p = Some (BinNonfull i) → p ∈ B →
  ∃ a Fs', psset_hpdata_heap_remove i p s = Done (tt, put_alloc a s) ∧ alloc_rep K (B ∖ {[p]}) Fs' Em a.
Proof.
  intros R Hi Kp HpB. destruct (pind_lookup _ _ _ _ _ i R Hi) as (f & ph & Ef & Eph & W).
  assert (Hpf : p ∈ nodes f) by (apply (ar_in_heap _ _ _ _ _ R _ _ _ Ef); rewrite Z2Nat.id by lia; done).
  unfold psset_hpdata_heap_remove.
  destruct (ph_remove_ok (age_cmp s) (age_link s) ph f p W Hpf) as ([h' ph'] & f' & E & W' & P & O & _).
  erewrite bind_done by (eapply on_heap_ok; [lia|exact Eph|exact E]).
  pose proof W as (_ & _ & Nf). rewrite <- P in Nf. apply list.NoDup_cons in Nf as [Hpf' _].
  set (a1 := mkAlloc _ _ _ _ _). set (s1 := put_alloc a1 s).
  assert (Hnodes : ∀ q, q ∈ nodes f' ↔ q ∈ B ∖ {[p]} ∧ K q = Some (BinNonfull (Z.of_nat (Z.to_nat i)))).
  { intros q. pose proof (ar_in_heap _ _ _ _ _ R _ _ q Ef) as Hq. rewrite <- P, elem_of_cons in Hq.
    rewrite elem_of_difference, elem_of_singleton. split.
    - intros Hin. assert (q ≠ p) by (by intros ->). tauto.
    - intros [[? ?] ?]. tauto. }
  assert (Hempty : on_heap i (λ _, ph_empty) s1 = Done (bool_decide (f' = Nil), s1)).
  { destruct W' as (Hr & (pv & Hrep) & _). cbn [fst snd] in *.
    erewrite on_heap_ok with (ph := ph'); [|lia|cbn; by rewrite list_lookup_insert_eq by (by eapply lookup_lt_Some)|reflexivity].
    rewrite list_insert_id by (cbn; by rewrite list_lookup_insert_eq by (by eapply lookup_lt_Some)).
    change (mkAlloc _ _ _ _ _) with (alloc_of s1). rewrite put_alloc_id. cbn [fst snd]. rewrite Hr. repeat f_equal.
    case_bool_decide as E0; [by rewrite E0|]. apply Z.eqb_neq. intros H0. by apply E0, (rep_fhead _ _ _ Hrep). }
  rewrite (bind_done _ _ _ _ _ Hempty).
  pose proof (ar_bits _ _ _ _ _ R _ _ Ef) as Hfi. rewrite Z2Nat.id in Hfi by lia. cbn [alloc_of a_bitmap] in Hfi.
  destruct (unmark_heap_ok s1 i (bool_decide (f' = Nil))) as (bm & Em1 & Hbm & Hb);
    [apply (ar_bitmap _ _ _ _ _ R)|done| |].
  { intros _. cbn. rewrite Hfi. apply bool_decide_eq_true. intros ->. by apply not_elem_of_nil in Hpf. }
  rewrite Em1. exists (set_a_bitmap bm a1), (<[Z.to_nat i:=f']> Fs). split; [reflexivity|].
  eapply (heaps_update _ B _ Fs Em (alloc_of s) (Z.to_nat i) f f' ph ph' h' bm p); try done.
  - intros q Hq. apply O. set_solver.
  - by rewrite Z2Nat.id by lia.
  - intros q Hq. set_solver.
  - apply (bits_update Fs (pageslab_bitmap (psset s)) bm _ f); [apply (ar_forests _ _ _ _ _ R)|done|apply (ar_bits _ _ _ _ _ R)|].
    intros j Hj. rewrite Hb, Z2Nat.id by lia. destruct (decide (j = i)); [|done]. by rewrite bool_decide_not.
Qed.

Lemma alloc_rep_ext K K' B Fs Em a :
  (∀ q, q ∈ B → K q = K' q) → alloc_rep K B Fs Em a → alloc_rep K' B Fs Em a.
Proof.
  intros HK [R1 R2 R3 R4 R5 R6 R7 R8]. split; try done.
  - intros i f p Ef. rewrite (R7 i f p Ef). split; (intros [Hp E]; split; [done|]); [by rewrite <- HK|by rewrite HK].
  - intros p. rewrite R8. split; (intros [Hp E]; split; [done|]); [by rewrite <- HK|by rewrite HK].
Qed.

(** Slabs that are in no container do not show in them. *)
Lemma alloc_rep_full K B B' Fs Em a p :
  K p = Some BinFull → (∀ q, q ≠ p → q ∈ B' ↔ q ∈ B) → alloc_rep K B Fs Em a → alloc_rep K B' Fs Em a.
Proof.
  intros Kp HB [R1 R2 R3 R4 R5 R6 R7 R8]. split; try done.
  - intros i f q Ef. rewrite (R7 i f q Ef). split; intros [Hq E]; (split; [|done]); (apply HB; [|done]); intros ->; congruence.
  - intros q. rewrite R8. split; intros [Hq E]; (split; [|done]); (apply HB; [|done]); intros ->; congruence.
Qed.

(** The list of empty slabs is replaced. *)
Lemma empty_update K B B' Fs Em Em' a h' r' q' p :
  alloc_rep K B Fs Em a → K p = Some BinEmpty → (∀ q, q ≠ p → q ∈ B' ↔ q ∈ B) →
  (∀ q, q ∈ Em' ↔ q ∈ B' ∧ K q = Some BinEmpty) → qlist r' q' Em' → (∀ q, q ≠ p → h' !! q = a_age a !! q) →
  alloc_rep K B' Fs Em' (mkAlloc h' r' (a_heaps a) (a_bitmap a) q').
Proof.
  intros [R1 R2 R3 R4 R5 R6 R7 R8] Kp HB Hin Hq Hh. split; try done; cbn [a_age a_heaps].
  - intros i f ph Ef Eph. apply (ph_wf_frame (a_age a)); [by eapply R3|]. intros x Hx. apply Hh.
    apply (R7 i f x Ef) in Hx as [_ Kx]. intros ->. congruence.
  - intros i f q Ef. rewrite (R7 i f q Ef). split; intros [Hq' E]; (split; [|done]); (apply HB; [|done]); intros ->; congruence.
Qed.

Lemma empty_insert_ok K B Fs Em s p :
  alloc_rep K B Fs Em (alloc_of s) → K p = Some BinEmpty → p ≠ 0 → p ∉ B →
  ∃ a, (claim_empty_link p;; on_empty (λ q, list_prepend q p)) s = Done (tt, put_alloc a s) ∧
       alloc_rep K ({[p]} ∪ B) Fs (p :: Em) a.
Proof.
  intros R Kp Hp HpB. assert (p ∉ Em) by (intros H; apply (ar_in_empty _ _ _ _ _ R) in H as [? _]; done).
  destruct (list_prepend_ok (ql_link_empty s) (empty_list (psset s)) Em p (ar_empty _ _ _ _ _ R) Hp) as (r' & E & Q & _); [done|].
  erewrite bind_done by reflexivity. unfold on_empty. cbn [psset ql_link_empty]. rewrite E.
  exists (mkAlloc (delete p (age_link s)) r' (pageslabs (psset s)) (pageslab_bitmap (psset s)) p). split; [reflexivity|].
  eapply (empty_update K B _ Fs Em _ (alloc_of s) (delete p (age_link s)) r' p p); try done.
  - intros q Hq. set_solver.
  - intros q. rewrite elem_of_cons, (ar_in_empty _ _ _ _ _ R), elem_of_union, elem_of_singleton.
    split; [intros [->|[? ?]]; tauto|tauto].
  - intros q Hq. by rewrite lookup_delete_ne.
Qed.

Lemma empty_remove_ok K B Fs Em s p :
  alloc_rep K B Fs Em (alloc_of s) → K p = Some BinEmpty → p ∈ B →
  ∃ a Em', on_empty (λ q, list_remove q p) s = Done (tt, put_alloc a s) ∧ alloc_rep K (B ∖ {[p]}) Fs Em' a.
Proof.
  intros R Kp HpB. assert (Hin : p ∈ Em) by (by apply (ar_in_empty _ _ _ _ _ R)).
  apply list_elem_of_split in Hin as (l & k & ->).
  destruct (list_remove_ok (ql_link_empty s) (empty_list (psset s)) l p k (ar_empty _ _ _ _ _ R)) as (r' & q' & E & Q & _).
  unfold on_empty. rewrite E. exists (mkAlloc (age_link s) r' (pageslabs (psset s)) (pageslab_bitmap (psset s)) q'), (l ++ k). split; [reflexivity|].
  pose proof (ar_empty _ _ _ _ _ R) as [(Hnd & _) _].
  assert (Hpn : p ∉ l ++ k) by (rewrite <- Permutation_middle in Hnd; by apply list.NoDup_cons in Hnd as [? _]).
  eapply (empty_update K B _ Fs (l ++ p :: k) _ (alloc_of s) (age_link s) r' q' p); try done.
  - intros q Hq. set_solver.
  - intros q. pose proof (ar_in_empty _ _ _ _ _ R q) as Hq. rewrite elem_of_difference, elem_of_singleton.
    rewrite <- Permutation_middle, elem_of_cons in Hq. split.
    + intros Hin. assert (q ≠ p) by (by intros ->). tauto.
    + intros [[? ?] ?]. tauto.
Qed.

(** ** Slabs and their class *)

Definition put_data (D : gmap Z hpdata_t) (s : psset_mem) : psset_mem :=
  mkMem D (age_link s) (ql_link_empty s) (ql_link_purge s) (ql_link_hugify s) (psset s).

Lemma slab_get_ok s p d : p ≠ 0 → ps_data s !! p = Some d → slab_get p s = Done (d, s).
Proof.
  intros Hp E. unfold slab_get. erewrite bind_done by reflexivity.
  rewrite (proj2 (Z.eqb_neq p 0)) by done. unfold liftO. by rewrite E.
Qed.

Lemma slab_set_ok s p d f :
  p ≠ 0 → ps_data s !! p = Some d → slab_set p f s = Done (tt, put_data (<[p:=f d]> (ps_data s)) s).
Proof. intros Hp E. unfold slab_set. by erewrite bind_done by (by apply slab_get_ok). Qed.

Section slabs.
Context (T : sz_tables).

(** The bin of a slab, as far as it has one. *)
Definition kind (D : gmap Z hpdata_t) (p : Z) : option binstats :=
  D !! p ≫= λ d, match slab_bin T d with Done b => Some b | Fault _ => None end.

(** A slab whose class is an index of the set. *)
Definition filed (d : hpdata_t) (b : binstats) : Prop :=
  slab_bin T d = Done b ∧ match b with BinNonfull i => 0 ≤ i < PSSET_NPSIZES | _ => True end.

Lemma kind_filed D p d b : D !! p = Some d → filed d b → kind D p = Some b.
Proof. intros E [Hb _]. unfold kind. rewrite E. simpl. by rewrite Hb. Qed.

(** A change of a slab that keeps its class. *)
Lemma kind_update D p d d' q : D !! p = Some d → slab_bin T d' = slab_bin T d → kind (<[p:=d']> D) q = kind D q.
Proof.
  intros E Hb. unfold kind. destruct (decide (q = p)) as [->|]; [|by rewrite lookup_insert_ne].
  rewrite lookup_insert_eq, E. simpl. by rewrite Hb.
Qed.

Lemma alloc_container_insert_ok B Fs Em s p d b :
  alloc_rep (kind (ps_data s)) B Fs Em (alloc_of s) → p ≠ 0 → ps_data s !! p = Some d → filed d b → p ∉ B →
  ∃ a Fs' Em',
    psset_alloc_container_insert T p s =
      Done (tt, put_alloc a (put_data (<[p:=hpdata_in_psset_alloc_container_set true d]> (ps_data s)) s)) ∧
    alloc_rep (kind (ps_data s)) ({[p]} ∪ B) Fs' Em' a.
Proof.
  intros R Hp Ed Hf HpB. pose proof (kind_filed _ _ _ _ Ed Hf) as Kp. destruct Hf as [Hb Hi].
  unfold psset_alloc_container_insert. erewrite bind_done by (by apply slab_set_ok).
  set (d' := hpdata_in_psset_alloc_container_set true d). set (s1 := put_data _ s).
  erewrite bind_done by (apply slab_get_ok; [done|apply lookup_insert_eq]).
  change (hpdata_empty d') with (hpdata_empty d). change (hpdata_full d') with (hpdata_full d).
  change (hpdata_longest_free_range_get d') with (hpdata_longest_free_range_get d).
  unfold slab_bin in Hb. destruct (hpdata_empty d); [|destruct (hpdata_full d)]; simplify_eq.
  - destruct (empty_insert_ok (kind (ps_data s)) B Fs Em s1 p) as (a & E & R'); [done..|].
    exists a, Fs, (p :: Em). split; [by rewrite E|done].
  - exists (alloc_of s1), Fs, Em. split; [by rewrite put_alloc_id|].
    apply (alloc_rep_full _ B _ _ _ _ p); [done|set_solver|done].
  - apply outcome_bind_done_inv in Hb as (pind & Epi & [= <-]). erewrite bind_done by (apply liftO_done; exact Epi).
    destruct (heap_insert_ok (kind (ps_data s)) B Fs Em s1 pind p) as (a & Fs' & E & R'); [done..|].
    exists a, Fs', Em. split; [by rewrite E|done].
Qed.

Lemma alloc_container_remove_ok B Fs Em s p d b :
  alloc_rep (kind (ps_data s)) B Fs Em (alloc_of s) → p ≠ 0 → ps_data s !! p = Some d → filed d b → p ∈ B →
  ∃ a Fs' Em',
    psset_alloc_container_remove T p s =
      Done (tt, put_alloc a (put_data (<[p:=hpdata_in_psset_alloc_container_set false d]> (ps_data s)) s)) ∧
    alloc_rep (kind (ps_data s)) (B ∖ {[p]}) Fs' Em' a.
Proof.
  intros R Hp Ed Hf HpB. pose proof (kind_filed _ _ _ _ Ed Hf) as Kp. destruct Hf as [Hb Hi].
  unfold psset_alloc_container_remove. erewrite bind_done by (by apply slab_set_ok).
  set (d' := hpdata_in_psset_alloc_container_set false d). set (s1 := put_data _ s).
  erewrite bind_done by (apply slab_get_ok; [done|apply lookup_insert_eq]).
  change (hpdata_empty d') with (hpdata_empty d). change (hpdata_full d') with (hpdata_full d).
  change (hpdata_longest_free_range_get d') with (hpdata_longest_free_range_get d).
  unfold slab_bin in Hb. destruct (hpdata_empty d); [|destruct (hpdata_full d)]; simplify_eq.
  - destruct (empty_remove_ok (kind (ps_data s)) B Fs Em s1 p) as (a & Em' & E & R'); [done..|].
    exists a, Fs, Em'. split; [by rewrite E|done].
  - exists (alloc_of s1), Fs, Em. split; [by rewrite put_alloc_id|].
    apply (alloc_rep_full _ B _ _ _ _ p); [done|set_solver|done].
  - apply outcome_bind_done_inv in Hb as (pind & Epi & [= <-]). erewrite bind_done by (apply liftO_done; exact Epi).
    destruct (heap_remove_ok (kind (ps_data s)) B Fs Em s1 pind p) as (a & Fs' & E & R'); [done..|].
    exists a, Fs', Em. split; [by rewrite E|done].
Qed.
End slabs.
