(* ===== verification/PssetLists.v ===== *)
(** * The lists and the statistics of a page slab set

    The same as [PssetFacts], for the slabs that may be purged or hugified and for the counts: every
    bin counts the slabs of its class, their active and their dirty pages, modulo the
    width of its counters; the merged statistics count all slabs. *)
From stdpp Require Import base list gmap numbers.
From S2P Require Import Prelude BitUtil SizeClass Sz Fb FbFacts FbTheorems Hpdata Ph Ql Psset PssetFacts.

(** ** Slabs to purge *)

Record purge_part : Type := mkPurgePart {
  u_rings : rings;
  u_lists : list Z;
  u_bitmap : list Z
}.

Definition purge_of (s : psset_mem) : purge_part :=
  mkPurgePart (ql_link_purge s) (to_purge (psset s)) (purge_bitmap (psset s)).

Definition put_purge (u : purge_part) (s : psset_mem) : psset_mem :=
  let p := psset s in
  mkMem (ps_data s) (age_link s) (ql_link_empty s) (u_rings u) (ql_link_hugify s)
    (mkPsset (pageslabs p) (pageslab_bitmap p) (merged_stats p) (stats p) (empty_list p) (u_lists u) (u_bitmap u) (to_hugify p)).

(** The lists hold the slabs [C], each in the list that [I] says. *)
Record purge_rep (I : Z → option Z) (C : gset Z) (Ls : list (list Z)) (u : purge_part) : Prop := {
  ur_lists : length Ls = 128%nat;
  ur_heads : length (u_lists u) = 128%nat;
  ur_qlist : ∀ i L q, Ls !! i = Some L → u_lists u !! i = Some q → qlist (u_rings u) q L;
  ur_bitmap : fb_ok PSSET_NPURGE_LISTS (u_bitmap u);
  ur_bits : ∀ i L, Ls !! i = Some L → fbit (u_bitmap u) (Z.of_nat i) = bool_decide (L ≠ []);
  ur_in : ∀ i L p, Ls !! i = Some L → p ∈ L ↔ p ∈ C ∧ I p = Some (Z.of_nat i)
}.

Lemma put_purge_id s : put_purge (purge_of s) s = s.
Proof. by destruct s as [? ? ? ? ? []]. Qed.

Lemma purge_rep_ext I I' C Ls u : (∀ q, q ∈ C → I q = I' q) → purge_rep I C Ls u → purge_rep I' C Ls u.
Proof.
  intros HI [R1 R2 R3 R4 R5 R6]. split; try done. intros i L p EL. rewrite (R6 i L p EL).
  split; (intros [Hp E]; split; [done|]); [by rewrite <- HI|by rewrite HI].
Qed.

Lemma ind_lookup I C Ls u i :
  purge_rep I C Ls u → 0 ≤ i < PSSET_NPURGE_LISTS →
  ∃ L q, Ls !! Z.to_nat i = Some L ∧ u_lists u !! Z.to_nat i = Some q ∧ qlist (u_rings u) q L.
Proof.
  intros R Hi. change PSSET_NPURGE_LISTS with 128 in Hi.
  destruct (lookup_lt_is_Some_2 Ls (Z.to_nat i)) as [L EL]; [rewrite (ur_lists _ _ _ _ R); lia|].
  destruct (lookup_lt_is_Some_2 (u_lists u) (Z.to_nat i)) as [q Eq]; [rewrite (ur_heads _ _ _ _ R); lia|].
  exists L, q. split_and!; [done..|]. by eapply (ur_qlist _ _ _ _ R).
Qed.

(** A list of the array is replaced. *)
Lemma lists_update I C C' Ls u i L L' q' r' bm (p : Z) :
  purge_rep I C Ls u → Ls !! i = Some L → (i < length (u_lists u))%nat → qlist r' q' L' →
  unchanged_off (p :: L) (u_rings u) r' → I p = Some (Z.of_nat i) →
  (∀ x, x ∈ L' ↔ x ∈ C' ∧ I x = Some (Z.of_nat i)) → (∀ x, x ≠ p → x ∈ C' ↔ x ∈ C) →
  fb_ok PSSET_NPURGE_LISTS bm →
  (∀ j, 0 ≤ j → fbit bm j = if decide (j = Z.of_nat i) then bool_decide (L' ≠ []) else fbit (u_bitmap u) j) →
  purge_rep I C' (<[i:=L']> Ls) (mkPurgePart r' (<[i:=q']> (u_lists u)) bm).
Proof.
  intros R EL Hq Q O Ip Hin HC Hbm Hbits. destruct R as [R1 R2 R3 R4 R5 R6].
  assert (Hi : (i < length Ls)%nat) by (by eapply lookup_lt_Some).
  split; cbn [u_rings u_lists u_bitmap]; rewrite ?length_insert; try done.
  - intros j M q EM Eq. destruct (decide (i = j)) as [<-|Hne].
    + rewrite list_lookup_insert_eq in EM by done. rewrite list_lookup_insert_eq in Eq by done. by simplify_eq.
    + rewrite list_lookup_insert_ne in EM by done. rewrite list_lookup_insert_ne in Eq by done.
      eapply qlist_frame; [by eapply R3|exact O|]. intros x Hx. apply (R6 j M x EM) in Hx as [Hx Ix].
      intros [->|Hx']%elem_of_cons.
      * rewrite Ip in Ix. injection Ix. lia.
      * apply (R6 i L x EL) in Hx' as [_ Ix']. rewrite Ix in Ix'. injection Ix'. lia.
  - intros j M EM. rewrite Hbits by lia. destruct (decide (Z.of_nat j = Z.of_nat i)) as [E|E].
    + assert (j = i) as -> by lia. rewrite list_lookup_insert_eq in EM by done. by simplify_eq.
    + rewrite list_lookup_insert_ne in EM by lia. by apply R5.
  - intros j M x EM. destruct (decide (i = j)) as [<-|Hne].
    + rewrite list_lookup_insert_eq in EM by done. simplify_eq. apply Hin.
    + rewrite list_lookup_insert_ne in EM by done. rewrite (R6 j M x EM).
      split; intros [Hx Ix]; (split; [|done]); (apply HC; [|done]); intros ->; rewrite Ip in Ix; injection Ix; lia.
Qed.

Lemma on_purge_ok i (op : Z → M rings Z) s q q' r' :
  0 ≤ i → to_purge (psset s) !! Z.to_nat i = Some q → op q (ql_link_purge s) = Done (q', r') →
  on_purge i op s = Done (tt, put_purge (mkPurgePart r' (<[Z.to_nat i:=q']> (to_purge (psset s))) (purge_bitmap (psset s))) s).
Proof. intros Hi E Eo. unfold on_purge. rewrite (proj2 (Z.ltb_ge i 0)) by done. by rewrite E, Eo. Qed.

Lemma purge_list_empty_ok s i q L :
  0 ≤ i → to_purge (psset s) !! Z.to_nat i = Some q → qlist (ql_link_purge s) q L →
  purge_list_empty i s = Done (bool_decide (L = []), s).
Proof.
  intros Hi E Q. unfold purge_list_empty. erewrite bind_done by reflexivity.
  rewrite (proj2 (Z.ltb_ge i 0)) by done. erewrite bind_done by (apply liftO_done; rewrite E; reflexivity).
  unfold list_empty. by rewrite (qlist_empty _ _ _ Q).
Qed.

Definition set_u_bitmap (bm : list Z) (u : purge_part) : purge_part := mkPurgePart (u_rings u) (u_lists u) bm.

(** The guarded updates of the bitmap: the bit [i] becomes [v] where the guard [e] holds, and is [true] already
    where it does not. *)
Lemma mark_list_ok s i (e v : bool) :
  fb_ok PSSET_NPURGE_LISTS (purge_bitmap (psset s)) → 0 ≤ i < PSSET_NPURGE_LISTS →
  (e = false → fbit (purge_bitmap (psset s)) i = true) →
  ∃ bm, (if e then
           s ← get;
           b ← liftO ((if v then fb_set else fb_unset) (purge_bitmap (psset s)) PSSET_NPURGE_LISTS i);
           modify (with_psset (set_purge_bitmap b))
         else mret tt) s = Done (tt, put_purge (set_u_bitmap bm (purge_of s)) s) ∧
    fb_ok PSSET_NPURGE_LISTS bm ∧
    ∀ j, 0 ≤ j → fbit bm j = if decide (j = i) then (if e then v else true) else fbit (purge_bitmap (psset s)) j.
Proof.
  intros Hbm Hi He. destruct e.
  - assert (∃ bm, (if v then fb_set else fb_unset) (purge_bitmap (psset s)) PSSET_NPURGE_LISTS i = Done bm ∧
      fb_ok PSSET_NPURGE_LISTS bm ∧ ∀ j, 0 ≤ j → fbit bm j = if decide (j = i) then v else fbit (purge_bitmap (psset s)) j)
      as (bm & E & Hok & Hb) by (destruct v; [by apply fb_set_ok|by apply fb_unset_ok]).
    exists bm. erewrite bind_done by reflexivity. erewrite bind_done by (apply liftO_done; exact E). by split_and!.
  - exists (purge_bitmap (psset s)). split_and!; [|done|].
    + change (set_u_bitmap _ _) with (purge_of s). by rewrite put_purge_id.
    + intros j Hj. case_decide as E; [|done]. rewrite E. by apply He.
Qed.

Section slabs.
Context (T : sz_tables).

(** The purge list of a slab. *)
Definition purge_ind (D : gmap Z hpdata_t) (p : Z) : option Z :=
  D !! p ≫= λ d, match psset_purge_list_ind T d with Done i => Some i | Fault _ => None end.

Definition purge_filed (d : hpdata_t) (i : Z) : Prop :=
  psset_purge_list_ind T d = Done i ∧ 0 ≤ i < PSSET_NPURGE_LISTS.

Lemma purge_ind_filed D p d i : D !! p = Some d → purge_filed d i → purge_ind D p = Some i.
Proof. intros E [Hi _]. unfold purge_ind. rewrite E. simpl. by rewrite Hi. Qed.

Lemma purge_ind_update D p d d' q :
  D !! p = Some d → psset_purge_list_ind T d' = psset_purge_list_ind T d → purge_ind (<[p:=d']> D) q = purge_ind D q.
Proof.
  intros E Hb. unfold purge_ind. destruct (decide (q = p)) as [->|]; [|by rewrite lookup_insert_ne].
  rewrite lookup_insert_eq, E. simpl. by rewrite Hb.
Qed.

Lemma maybe_insert_purge_ok C Ls s p d i :
  purge_rep (purge_ind (ps_data s)) C Ls (purge_of s) → p ≠ 0 → ps_data s !! p = Some d →
  (h_purge_allowed d = true → purge_filed d i) → p ∉ C →
  ∃ u Ls', psset_maybe_insert_purge_list T p s = Done (tt, put_purge u s) ∧
    purge_rep (purge_ind (ps_data s)) (if h_purge_allowed d then {[p]} ∪ C else C) Ls' u.
Proof.
  intros R Hp Ed Hf HpC. unfold psset_maybe_insert_purge_list. erewrite bind_done by (by apply slab_get_ok).
  destruct (h_purge_allowed d) eqn:Ha; [|exists (purge_of s), Ls; by rewrite put_purge_id].
  specialize (Hf eq_refl). pose proof (purge_ind_filed _ _ _ _ Ed Hf) as Ip. destruct Hf as [Ei Hi].
  erewrite bind_done by (apply liftO_done; exact Ei).
  destruct (ind_lookup _ _ _ _ i R Hi) as (L & q & EL & Eq & Q). cbn [purge_of u_lists u_rings] in Eq, Q.
  erewrite bind_done by (eapply purge_list_empty_ok; [lia|done|done]).
  pose proof (ur_bits _ _ _ _ R _ _ EL) as HLi. rewrite Z2Nat.id in HLi by lia. cbn [purge_of u_bitmap] in HLi.
  destruct (mark_list_ok s i (bool_decide (L = [])) true) as (bm & Eb & Hbm & Hb); [apply (ur_bitmap _ _ _ _ R)|done| |].
  { intros HL%bool_decide_eq_false. rewrite HLi. by apply bool_decide_eq_true. }
  rewrite (bind_done _ _ _ _ _ Eb).
  assert (HpL : p ∉ L) by (intros H; apply (ur_in _ _ _ _ R _ _ _ EL) in H as [? _]; done).
  destruct (list_append_ok _ _ _ p Q Hp HpL) as (r' & q' & Ea & Q' & O).
  erewrite on_purge_ok; [|lia|exact Eq|exact Ea].
  exists (mkPurgePart r' (<[Z.to_nat i:=q']> (to_purge (psset s))) bm), (<[Z.to_nat i:=L ++ [p]]> Ls). split; [reflexivity|].
  eapply (lists_update _ C _ Ls (purge_of s) (Z.to_nat i) L (L ++ [p]) q' r' bm p); try done.
  - by eapply lookup_lt_Some.
  - intros x Hx. apply O. set_solver.
  - by rewrite Z2Nat.id by lia.
  - intros x. rewrite elem_of_app, (ur_in _ _ _ _ R _ _ x EL), list_elem_of_singleton, elem_of_union, elem_of_singleton, Z2Nat.id by lia.
    split; [intros [[? ?]| ->]; tauto|tauto].
  - intros x Hx. set_solver.
  - intros j Hj. rewrite Hb, Z2Nat.id by lia. destruct (decide (j = i)); [|done].
    rewrite (bool_decide_eq_true_2 (L ++ [p] ≠ [])) by (by destruct L). by case_bool_decide.
Qed.

Lemma maybe_remove_purge_ok C Ls s p d i :
  purge_rep (purge_ind (ps_data s)) C Ls (purge_of s) → p ≠ 0 → ps_data s !! p = Some d →
  (h_purge_allowed d = true → purge_filed d i ∧ p ∈ C) →
  ∃ u Ls', psset_maybe_remove_purge_list T p s = Done (tt, put_purge u s) ∧
    purge_rep (purge_ind (ps_data s)) (if h_purge_allowed d then C ∖ {[p]} else C) Ls' u.
Proof.
  intros R Hp Ed Hf. unfold psset_maybe_remove_purge_list. erewrite bind_done by (by apply slab_get_ok).
  destruct (h_purge_allowed d) eqn:Ha; [|exists (purge_of s), Ls; by rewrite put_purge_id].
  destruct (Hf eq_refl) as [Hf' HpC]. pose proof (purge_ind_filed _ _ _ _ Ed Hf') as Ip. destruct Hf' as [Ei Hi].
  erewrite bind_done by (apply liftO_done; exact Ei).
  destruct (ind_lookup _ _ _ _ i R Hi) as (L & q & EL & Eq & Q). cbn [purge_of u_lists u_rings] in Eq, Q.
  assert (HpL : p ∈ L) by (apply (ur_in _ _ _ _ R _ _ _ EL); by rewrite Z2Nat.id by lia).
  apply list_elem_of_split in HpL as (l & k & ->).
  destruct (list_remove_ok _ _ l p k Q) as (r' & q' & Er & Q' & O).
  erewrite bind_done by (eapply on_purge_ok; [lia|exact Eq|exact Er]).
  set (u1 := mkPurgePart _ _ _). set (s1 := put_purge u1 s).
  assert (Eq1 : to_purge (psset s1) !! Z.to_nat i = Some q')
    by (cbn [s1 put_purge psset to_purge u1 u_lists]; by rewrite list_lookup_insert_eq by (by eapply lookup_lt_Some)).
  erewrite bind_done by (eapply purge_list_empty_ok; [lia|exact Eq1|exact Q']).
  pose proof (ur_bits _ _ _ _ R _ _ EL) as HLi. rewrite Z2Nat.id in HLi by lia. cbn [purge_of u_bitmap] in HLi.
  destruct (mark_list_ok s1 i (bool_decide (l ++ k = [])) false) as (bm & Eb & Hbm & Hb); [apply (ur_bitmap _ _ _ _ R)|done| |].
  { intros _. cbn [s1 put_purge psset purge_bitmap u1 u_bitmap]. rewrite HLi. apply bool_decide_eq_true. by destruct l. }
  rewrite Eb. exists (set_u_bitmap bm u1), (<[Z.to_nat i:=l ++ k]> Ls). split; [reflexivity|].
  assert (Hpn : p ∉ l ++ k).
  { destruct Q as [(Hnd & _) _]. rewrite <- Permutation_middle in Hnd. by apply list.NoDup_cons in Hnd as [? _]. }
  eapply (lists_update _ C _ Ls (purge_of s) (Z.to_nat i) (l ++ p :: k) (l ++ k) q' r' bm p); try done.
  - by eapply lookup_lt_Some.
  - intros x Hx. apply O. set_solver.
  - by rewrite Z2Nat.id by lia.
  - intros x. pose proof (ur_in _ _ _ _ R _ _ x EL) as Hx. rewrite elem_of_difference, elem_of_singleton.
    rewrite <- Permutation_middle, elem_of_cons in Hx. split.
    + intros Hin. assert (x ≠ p) by (by intros ->). tauto.
    + intros [[? ?] ?]. tauto.
  - intros x Hx. set_solver.
  - intros j Hj. rewrite Hb, Z2Nat.id by lia. destruct (decide (j = i)); [|done].
    rewrite bool_decide_not. by case_bool_decide.
Qed.
End slabs.

(** ** Slabs to hugify *)

Definition put_hugify (r : rings) (q : Z) (s : psset_mem) : psset_mem :=
  mkMem (ps_data s) (age_link s) (ql_link_empty s) (ql_link_purge s) r (set_to_hugify q (psset s)).

(** The list holds the slabs [E]. *)
Definition hugify_rep (E : gset Z) (s : psset_mem) : Prop :=
  ∃ Hs, qlist (ql_link_hugify s) (to_hugify (psset s)) Hs ∧ ∀ p, p ∈ Hs ↔ p ∈ E.

Lemma hugify_append_ok E s p :
  hugify_rep E s → p ≠ 0 → p ∉ E →
  ∃ r q, on_hugify (λ q, list_append q p) s = Done (tt, put_hugify r q s) ∧ hugify_rep ({[p]} ∪ E) (put_hugify r q s).
Proof.
  intros (Hs & Q & Hin) Hp HpE. destruct (list_append_ok _ _ _ p Q Hp) as (r & q & Ea & Q' & _); [by rewrite Hin|].
  exists r, q. unfold on_hugify. rewrite Ea. split; [done|]. exists (Hs ++ [p]). split; [done|].
  intros x. rewrite elem_of_app, Hin. set_solver.
Qed.

Lemma hugify_remove_ok E s p :
  hugify_rep E s → p ∈ E →
  ∃ r q, on_hugify (λ q, list_remove q p) s = Done (tt, put_hugify r q s) ∧ hugify_rep (E ∖ {[p]}) (put_hugify r q s).
Proof.
  intros (Hs & Q & Hin) HpE. pose proof HpE as Hp. apply Hin, list_elem_of_split in Hp as (l & k & ->).
  destruct (list_remove_ok _ _ l p k Q) as (r & q & Er & Q' & _).
  exists r, q. unfold on_hugify. rewrite Er. split; [done|]. exists (l ++ k). split; [done|].
  destruct Q as [(Hnd & _) _]. rewrite <- Permutation_middle in Hnd. apply list.NoDup_cons in Hnd as [Hp _].
  intros x. specialize (Hin x). rewrite <- Permutation_middle, elem_of_cons in Hin.
  rewrite elem_of_difference, elem_of_singleton. split.
  - intros Hx. assert (x ≠ p) by (by intros ->). tauto.
  - intros [? ?]. tauto.
Qed.

(** ** The statistics of a page slab set *)

#[export] Instance binstats_eq_dec : EqDecision binstats.
Proof. solve_decision. Defined.

(** ** Sums over a set of slabs *)

Lemma sum_by_perm {A} (f : A → Z) (l k : list A) : l ≡ₚ k → sum_by f l = sum_by f k.
Proof. induction 1; simpl; lia. Qed.

Lemma sum_by_ext_in {A} (f g : A → Z) (l : list A) : (∀ x, x ∈ l → f x = g x) → sum_by f l = sum_by g l.
Proof.
  induction l as [|x l IH]; intros H; [done|]. simpl. rewrite (H x) by (by left). f_equal. apply IH. intros y Hy. apply H. by right.
Qed.

(** What a slab adds to the sum of [f] over the slabs that satisfy [P]. *)
Definition part_of (f : hpdata_t → Z) (P : hpdata_t → bool) (D : gmap Z hpdata_t) (p : Z) : Z :=
  match D !! p with Some d => if P d then f d else 0 | None => 0 end.

Definition total (f : hpdata_t → Z) (P : hpdata_t → bool) (D : gmap Z hpdata_t) (A : gset Z) : Z :=
  sum_by (part_of f P D) (elements A).

Lemma total_insert f P D A p : p ∉ A → total f P D ({[p]} ∪ A) = part_of f P D p + total f P D A.
Proof. intros Hp. unfold total. by rewrite (sum_by_perm _ _ _ (elements_union_singleton A p Hp)). Qed.

Lemma total_delete f P D A p : p ∈ A → total f P D (A ∖ {[p]}) = total f P D A - part_of f P D p.
Proof.
  intros Hp. rewrite (union_difference_singleton_L p A Hp) at 2. rewrite total_insert by set_solver. lia.
Qed.

Lemma total_ext f P D D' A :
  (∀ p, p ∈ A → part_of f P D p = part_of f P D' p) → total f P D A = total f P D' A.
Proof. intros H. apply sum_by_ext_in. intros x Hx. apply H. by apply elem_of_elements. Qed.

(** ** One bin *)

Definition bin_is (P : hpdata_t → bool) (D : gmap Z hpdata_t) (A : gset Z) (b : psset_bin_stats_t) : Prop :=
  npageslabs b = u64 (total (λ _, 1) P D A) ∧
  bin_nactive b = u64 (total hpdata_nactive_get P D A) ∧
  bin_ndirty b = u64 (total hpdata_ndirty_get P D A).

Lemma u64_add x y : u64 (u64 x + u64 y) = u64 (x + y).
Proof. unfold u64. by rewrite <- Zplus_mod. Qed.
Lemma u64_idem x : u64 (u64 x) = u64 x.
Proof. unfold u64. by rewrite Zmod_mod. Qed.
Lemma u64_minus_one y : u64 (u64 (-1) * y) = u64 (- y).
Proof. unfold u64. rewrite Zmult_mod_idemp_l. f_equal; lia. Qed.

(** The factor of an insertion or a removal, as a signed one. *)
Definition sign (insert : bool) : Z := if insert then 1 else -1.
Definition mul_of (insert : bool) : Z := if insert then 1 else u64 (-1).

Lemma u64_mul_of insert y : u64 (mul_of insert * y) = u64 (sign insert * y).
Proof. destruct insert; [done|]. unfold mul_of, sign. rewrite u64_minus_one. f_equal; lia. Qed.

Lemma u64_step insert x y : u64 (u64 x + u64 (mul_of insert * y)) = u64 (x + sign insert * y).
Proof. by rewrite u64_mul_of, u64_add. Qed.

Lemma u64_count insert x : u64 (u64 x + mul_of insert * 1) = u64 (x + sign insert * 1).
Proof. by rewrite <- u64_step, <- (u64_add (u64 x)), u64_idem. Qed.

Lemma bin_add_is P D A A' d p b insert :
  D !! p = Some d → bin_is P D A b →
  (∀ f, total f P D A' = total f P D A + sign insert * part_of f P D p) →
  bin_is P D A' (if P d then bin_add (mul_of insert) d b else b).
Proof.
  intros Ed (H1 & H2 & H3) HA. unfold bin_is. rewrite !HA. unfold part_of. rewrite Ed. destruct (P d).
  - cbn [bin_add npageslabs bin_nactive bin_ndirty]. by rewrite H1, H2, H3, !u64_step, u64_count.
  - rewrite !Z.mul_0_r, !Z.add_0_r. done.
Qed.

(** ** All bins *)

(** The bin of a class and a size of pages. *)
Definition stat_at (st : psset_stats_t) (b : binstats) (huge : bool) : option psset_bin_stats_t :=
  let pick := λ x : psset_bin_stats_t * psset_bin_stats_t, if huge then x.2 else x.1 in
  match b with
  | BinEmpty => Some (pick (empty_slabs st))
  | BinFull => Some (pick (full_slabs st))
  | BinNonfull i => if i <? 0 then None else pick <$> nonfull_slabs st !! Z.to_nat i
  end.

Definition put_stats (m : psset_bin_stats_t) (st : psset_stats_t) (s : psset_mem) : psset_mem :=
  with_psset (set_stats m st) s.

Section stats.
Context (T : sz_tables).

Definition in_bin (b : binstats) (huge : bool) (d : hpdata_t) : bool :=
  bool_decide (slab_bin T d = Done b) && eqb (h_huge d) huge.

(** The statistics are those of the slabs [A]. *)
Record stats_rep (D : gmap Z hpdata_t) (A : gset Z) (p : psset_t) : Prop := {
  st_len : length (nonfull_slabs (stats p)) = 64%nat;
  st_merged : bin_is (λ _, true) D A (merged_stats p);
  st_bins : ∀ b huge x, stat_at (stats p) b huge = Some x → bin_is (in_bin b huge) D A x
}.

Lemma stats_rep_ext D D' A p :
  (∀ f P, (∀ d d', slab_bin T d = slab_bin T d' → h_huge d = h_huge d' → P d = P d') →
     (∀ d d', h_nactive d = h_nactive d' → h_ntouched d = h_ntouched d' → f d = f d') →
     ∀ q, q ∈ A → part_of f P D q = part_of f P D' q) →
  stats_rep D A p → stats_rep D' A p.
Proof.
  intros H [R1 R2 R3].
  assert (Hb : ∀ P x, (∀ d d', slab_bin T d = slab_bin T d' → h_huge d = h_huge d' → P d = P d') → bin_is P D A x → bin_is P D' A x).
  { intros P x HP (H1 & H2 & H3). unfold bin_is.
    rewrite <- !(total_ext _ P D D' A); [done|..]; intros q Hq; (apply H; [done| |done]);
      intros d d' E1 E2; unfold hpdata_ndirty_get, hpdata_nactive_get; congruence. }
  split; [done|by apply Hb|]. intros b huge x Hx. apply Hb; [|by apply R3].
  intros d d' E1 E2. unfold in_bin. by rewrite E1, E2.
Qed.

(** The update of one pair of bins. *)
Lemma stat_at_pair b b' huge st st' x insert d :
  (match b with
   | BinEmpty => st' = mkStats (nonfull_slabs st) (full_slabs st) (pair_add (mul_of insert) d (empty_slabs st))
   | BinFull => st' = mkStats (nonfull_slabs st) (pair_add (mul_of insert) d (full_slabs st)) (empty_slabs st)
   | BinNonfull i => 0 ≤ i ∧ ∃ bin, nonfull_slabs st !! Z.to_nat i = Some bin ∧
       st' = mkStats (<[Z.to_nat i:=pair_add (mul_of insert) d bin]> (nonfull_slabs st)) (full_slabs st) (empty_slabs st)
   end) →
  stat_at st' b' huge = Some x →
  ∃ y, stat_at st b' huge = Some y ∧
       x = if bool_decide (b = b') && eqb (h_huge d) huge then bin_add (mul_of insert) d y else y.
Proof.
  intros Hst Hx. destruct b as [| |i].
  - subst st'. destruct b'; simpl in *; simplify_eq; [|by eauto..]. eexists. split; [done|].
    unfold pair_add. by destruct (h_huge d), huge.
  - subst st'. destruct b'; simpl in *; simplify_eq; [by eauto| |by eauto]. eexists. split; [done|].
    unfold pair_add. by destruct (h_huge d), huge.
  - destruct Hst as (Hi & bin & Eb & ->). destruct b' as [| |j]; simpl in *; [by eauto..|].
    destruct (Z.ltb_spec j 0); [done|]. destruct (decide (i = j)) as [<-|Hne].
    + rewrite list_lookup_insert_eq in Hx by (by eapply lookup_lt_Some). rewrite Eb. simpl in *. simplify_eq.
      eexists. split; [done|]. rewrite bool_decide_eq_true_2 by done. unfold pair_add. by destruct (h_huge d), huge.
    + rewrite list_lookup_insert_ne in Hx by lia. exists x. split; [done|].
      rewrite bool_decide_eq_false_2; [done|]. by intros [= ->].
Qed.

Lemma stats_update_ok D A A' s p d b insert :
  stats_rep D A (psset s) → D = ps_data s → p ≠ 0 → D !! p = Some d → filed T d b →
  (∀ f P, total f P D A' = total f P D A + sign insert * part_of f P D p) →
  ∃ m st, psset_bin_stats_insert_remove b p insert s = Done (tt, put_stats m st s) ∧
    stats_rep D A' (set_stats m st (psset s)).
Proof.
  intros [R1 R2 R3] -> Hp Ed [Hb Hi] HA. unfold psset_bin_stats_insert_remove. erewrite bind_done by (by apply slab_get_ok).
  erewrite bind_done by reflexivity. change (if insert then 1 else u64 (-1)) with (mul_of insert).
  assert (∃ st', (match b with
        | BinEmpty => mret (mkStats (nonfull_slabs (stats (psset s))) (full_slabs (stats (psset s))) (pair_add (mul_of insert) d (empty_slabs (stats (psset s)))))
        | BinFull => mret (mkStats (nonfull_slabs (stats (psset s))) (pair_add (mul_of insert) d (full_slabs (stats (psset s)))) (empty_slabs (stats (psset s))))
        | BinNonfull pind =>
            if pind <? 0 then throw OutOfBounds else
            bin ← liftO (nonfull_slabs (stats (psset s)) !! Z.to_nat pind ?? OutOfBounds);
            mret (mkStats (<[Z.to_nat pind:=pair_add (mul_of insert) d bin]> (nonfull_slabs (stats (psset s)))) (full_slabs (stats (psset s))) (empty_slabs (stats (psset s))))
        end : M psset_mem psset_stats_t) s = Done (st', s) ∧ length (nonfull_slabs st') = 64%nat ∧
      ∀ b' huge x, stat_at st' b' huge = Some x →
        ∃ y, stat_at (stats (psset s)) b' huge = Some y ∧
             x = if bool_decide (b = b') && eqb (h_huge d) huge then bin_add (mul_of insert) d y else y) as (st' & Es & Hl & Hst).
  { destruct b as [| |i].
    - eexists. split; [done|]. split; [done|]. intros b' huge x. by apply stat_at_pair.
    - eexists. split; [done|]. split; [done|]. intros b' huge x. by apply stat_at_pair.
    - change PSSET_NPSIZES with 64 in Hi. rewrite (proj2 (Z.ltb_ge i 0)) by lia.
      destruct (lookup_lt_is_Some_2 (nonfull_slabs (stats (psset s))) (Z.to_nat i)) as [bin Eb]; [lia|].
      erewrite bind_done by (apply liftO_done; rewrite Eb; reflexivity). eexists. split; [done|].
      split; [cbn [nonfull_slabs]; by rewrite length_insert|]. intros b' huge x. apply stat_at_pair. split; [lia|]. by exists bin. }
  rewrite (bind_done _ _ _ _ _ Es). exists (bin_add (mul_of insert) d (merged_stats (psset s))), st'. split; [done|]. split.
  - done.
  - apply (bin_add_is (λ _, true) _ A _ d p _ insert Ed R2). intros f. apply HA.
  - intros b' huge x Hx. destruct (Hst _ _ _ Hx) as (y & Hy & ->).
    replace (bool_decide (b = b') && eqb (h_huge d) huge) with (in_bin b' huge d).
    + apply (bin_add_is _ _ A _ d p _ insert Ed); [by apply R3|]. intros f. apply HA.
    + unfold in_bin. f_equal. rewrite Hb. apply bool_decide_ext. split; congruence.
Qed.

Lemma stats_insert_ok A s p d b :
  stats_rep (ps_data s) A (psset s) → p ≠ 0 → ps_data s !! p = Some d → filed T d b → p ∉ A →
  ∃ m st, psset_stats_insert T p s = Done (tt, put_stats m st s) ∧
    stats_rep (ps_data s) ({[p]} ∪ A) (set_stats m st (psset s)).
Proof.
  intros R Hp Ed Hf HpA. unfold psset_stats_insert. erewrite bind_done by (by apply slab_get_ok).
  erewrite bind_done by (apply liftO_done; apply Hf).
  apply (stats_update_ok (ps_data s) A _ s p d b true); try done.
  intros f P. rewrite total_insert by done. cbn [sign]. lia.
Qed.

Lemma stats_remove_ok A s p d b :
  stats_rep (ps_data s) A (psset s) → p ≠ 0 → ps_data s !! p = Some d → filed T d b → p ∈ A →
  ∃ m st, psset_stats_remove T p s = Done (tt, put_stats m st s) ∧
    stats_rep (ps_data s) (A ∖ {[p]}) (set_stats m st (psset s)).
Proof.
  intros R Hp Ed Hf HpA. unfold psset_stats_remove. erewrite bind_done by (by apply slab_get_ok).
  erewrite bind_done by (apply liftO_done; apply Hf).
  apply (stats_update_ok (ps_data s) A _ s p d b false); try done.
  intros f P. rewrite total_delete by done. cbn [sign]. lia.
Qed.
End stats.
