(* ===== verification/PssetInv.v ===== *)
(** * The invariant of a page slab set

    The set knows the slabs [W]; those in [U] are being updated and are in no container but the
    list of slabs to hugify.  Every entry point is shown to return and to keep the invariant. *)
From stdpp Require Import base list gmap numbers.
From S2P Require Import Prelude BitUtil SizeClass Sz SzTheorems Fb FbFacts FbTheorems Hpdata HpdataTheorems Ph PhFacts PhOps PhHeap Ql Psset PssetSizes PssetFacts PssetLists.

(** What the set needs of the metadata of a slab; [hp_ok] implies it, but for the last
    clause, which the code asserts. *)
Record slab_ok (d : hpdata_t) : Prop := {
  so_active : 0 ≤ h_nactive d ≤ h_ntouched d;
  so_touched : h_ntouched d ≤ HUGEPAGE_PAGES;
  so_longest : h_nactive d ≠ HUGEPAGE_PAGES → 1 ≤ h_longest_free_range d ≤ HUGEPAGE_PAGES;
  so_purge : h_purge_allowed d = true → h_nactive d < h_ntouched d
}.

(** The slabs of [W] with a flag. *)
Definition flagged (g : hpdata_t → bool) (D : gmap Z hpdata_t) (W : gset Z) : gset Z :=
  filter (λ p, (g <$> D !! p) = Some true) W.

Lemma elem_of_flagged g D W p : p ∈ flagged g D W ↔ p ∈ W ∧ g <$> D !! p = Some true.
Proof. unfold flagged. rewrite elem_of_filter. tauto. Qed.

Section inv.
Context (T : sz_tables) `{!SzReady T}.

Record psset_inv (s : psset_mem) (W U : gset Z) : Prop := {
  pi_known : ∀ p, p ∈ W → p ≠ 0 ∧ is_Some (ps_data s !! p);
  pi_updating : U ⊆ W;
  pi_ok : ∀ p d, p ∈ W ∖ U → ps_data s !! p = Some d → slab_ok d ∧ h_in_psset_alloc_container d = h_alloc_allowed d;
  pi_out : ∀ p d, p ∈ U → ps_data s !! p = Some d → h_in_psset_alloc_container d = false;
  pi_stats : stats_rep T (ps_data s) (W ∖ U) (psset s);
  pi_alloc : ∃ Fs Em, alloc_rep (kind T (ps_data s)) (flagged h_in_psset_alloc_container (ps_data s) (W ∖ U)) Fs Em (alloc_of s);
  pi_purge : ∃ Ls, purge_rep (purge_ind T (ps_data s)) (flagged h_purge_allowed (ps_data s) (W ∖ U)) Ls (purge_of s);
  pi_hugify : hugify_rep (flagged h_in_psset_hugify_container (ps_data s) W) s
}.

(** ** Classes of slabs *)

Lemma slab_ok_filed d : slab_ok d → ∃ b, filed T d b.
Proof.
  intros [H1 H2 H3 H4]. unfold filed, slab_bin, hpdata_empty, hpdata_full, hpdata_longest_free_range_get.
  destruct (Z.eqb_spec (h_nactive d) 0); [by exists BinEmpty|].
  destruct (Z.eqb_spec (h_nactive d) HUGEPAGE_PAGES); [by exists BinFull|].
  destruct (pages_pind_ok T (h_longest_free_range d)) as (j & E & Hj & _); [by apply H3|].
  exists (BinNonfull j). rewrite E. split; [done|]. change PSSET_NPSIZES with 64. lia.
Qed.

Lemma slab_ok_purge_filed d : slab_ok d → h_purge_allowed d = true → ∃ i, purge_filed T d i.
Proof.
  intros [H1 H2 H3 H4] Ha. specialize (H4 Ha). rewrite hugepage_pages in H2.
  unfold purge_filed, psset_purge_list_ind, hpdata_nactive_get, hpdata_ndirty_get.
  change PSSET_NPURGE_LISTS with 128. destruct (Z.eqb_spec (h_nactive d) 0).
  { eexists. split; [done|]. case_match; lia. }
  rewrite u64_small by (unfold is_u64; lia).
  destruct (pages_pind_ok T (h_ntouched d - h_nactive d)) as (j & -> & Hj & _); [rewrite hugepage_pages; lia|].
  eexists. split; [done|]. case_match; rewrite u64_small by (unfold is_u64; lia); lia.
Qed.

(** ** Changing the metadata of a slab

    The containers see a slab through a few fields; the others may change. *)

Lemma flagged_update g D W p d d' :
  D !! p = Some d → g d' = g d → flagged g (<[p:=d']> D) W = flagged g D W.
Proof.
  intros E Hg. apply set_eq. intros q. rewrite !elem_of_flagged.
  destruct (decide (q = p)) as [->|]; [|by rewrite lookup_insert_ne].
  rewrite lookup_insert_eq, E. simpl. by rewrite Hg.
Qed.

Lemma flagged_out g D W p d' : p ∉ W → flagged g (<[p:=d']> D) W = flagged g D W.
Proof.
  intros Hp. apply set_eq. intros q. rewrite !elem_of_flagged. split; intros [Hq E]; (split; [done|]).
  - by rewrite lookup_insert_ne in E by (by intros ->).
  - by rewrite lookup_insert_ne by (by intros ->).
Qed.

Lemma kind_out D p d' q : q ≠ p → kind T (<[p:=d']> D) q = kind T D q.
Proof. intros H. unfold kind. by rewrite lookup_insert_ne. Qed.
Lemma purge_ind_out D p d' q : q ≠ p → purge_ind T (<[p:=d']> D) q = purge_ind T D q.
Proof. intros H. unfold purge_ind. by rewrite lookup_insert_ne. Qed.

Lemma stats_rep_update D A ps p d d' :
  D !! p = Some d → p ∉ A ∨ (slab_bin T d' = slab_bin T d ∧ h_huge d' = h_huge d ∧ h_nactive d' = h_nactive d ∧ h_ntouched d' = h_ntouched d) →
  stats_rep T D A ps → stats_rep T (<[p:=d']> D) A ps.
Proof.
  intros Ed Hd R. eapply stats_rep_ext; [|exact R]. intros f P HP Hf q Hq. unfold part_of.
  destruct (decide (q = p)) as [->|]; [|by rewrite lookup_insert_ne]. rewrite lookup_insert_eq, Ed.
  destruct Hd as [Hd|(H1 & H2 & H3 & H4)]; [done|]. by rewrite (HP d d'), (Hf d d').
Qed.

Lemma stats_rep_frame D A ps ps' :
  merged_stats ps' = merged_stats ps → stats ps' = stats ps → stats_rep T D A ps → stats_rep T D A ps'.
Proof. intros Em Es [R1 R2 R3]. split; rewrite ?Em, ?Es; done. Qed.

Lemma alloc_of_put a s : alloc_of (put_alloc a s) = a.
Proof. by destruct a. Qed.
Lemma purge_of_put u s : purge_of (put_purge u s) = u.
Proof. by destruct u. Qed.

(** ** The parts of the state, each with its slabs *)

Record parts (s : psset_mem) (A B C E : gset Z) : Prop := {
  pa_stats : stats_rep T (ps_data s) A (psset s);
  pa_alloc : ∃ Fs Em, alloc_rep (kind T (ps_data s)) B Fs Em (alloc_of s);
  pa_purge : ∃ Ls, purge_rep (purge_ind T (ps_data s)) C Ls (purge_of s);
  pa_hugify : hugify_rep E s
}.

(** What the containers see of a slab. *)
Definition same_view (d d' : hpdata_t) : Prop :=
  slab_bin T d' = slab_bin T d ∧ psset_purge_list_ind T d' = psset_purge_list_ind T d ∧
  h_huge d' = h_huge d ∧ h_nactive d' = h_nactive d ∧ h_ntouched d' = h_ntouched d.

Lemma parts_data s A B C E p d d' :
  parts s A B C E → ps_data s !! p = Some d → same_view d d' ∨ (p ∉ A ∧ p ∉ B ∧ p ∉ C) →
  parts (put_data (<[p:=d']> (ps_data s)) s) A B C E.
Proof.
  intros [R1 (Fs & Em & R2) (Ls & R3) R4] Ed Hd. split; [| | |exact R4].
  - eapply stats_rep_update; [exact Ed| |exact R1]. destruct Hd as [(? & ? & ? & ? & ?)|[? _]]; [by right|by left].
  - exists Fs, Em. eapply alloc_rep_ext; [|exact R2]. intros q Hq. symmetry.
    destruct Hd as [(H & _)|(_ & Hp & _)]; [by eapply kind_update|apply kind_out; by intros ->].
  - exists Ls. eapply purge_rep_ext; [|exact R3]. intros q Hq. symmetry.
    destruct Hd as [(_ & H & _)|(_ & _ & Hp)]; [by eapply purge_ind_update|apply purge_ind_out; by intros ->].
Qed.

(** A write to a slab that the containers do not notice. *)
Lemma slab_set_parts s A B C E p d f :
  parts s A B C E → p ≠ 0 → ps_data s !! p = Some d → same_view d (f d) ∨ (p ∉ A ∧ p ∉ B ∧ p ∉ C) →
  ∃ s', slab_set p f s = Done (tt, s') ∧ ps_data s' = <[p:=f d]> (ps_data s) ∧ parts s' A B C E.
Proof.
  intros R Hp Ed Hd. eexists. split; [by eapply slab_set_ok|]. split; [done|]. by eapply parts_data.
Qed.

Section steps.
Context (s : psset_mem) (A B C E : gset Z) (p : Z) (d : hpdata_t) (b : binstats).
Hypothesis (R : parts s A B C E) (Hp : p ≠ 0) (Ed : ps_data s !! p = Some d).

Lemma stats_insert_parts :
  filed T d b → p ∉ A →
  ∃ s', psset_stats_insert T p s = Done (tt, s') ∧ ps_data s' = ps_data s ∧ parts s' ({[p]} ∪ A) B C E.
Proof.
  intros Hf HA. destruct R as [R1 R2 R3 R4].
  destruct (stats_insert_ok T A s p d b R1 Hp Ed Hf HA) as (m & st & Es & Rs).
  eexists. split; [exact Es|]. split; [reflexivity|]. split; [exact Rs|exact R2|exact R3|exact R4].
Qed.

Lemma stats_remove_parts :
  filed T d b → p ∈ A →
  ∃ s', psset_stats_remove T p s = Done (tt, s') ∧ ps_data s' = ps_data s ∧ parts s' (A ∖ {[p]}) B C E.
Proof.
  intros Hf HA. destruct R as [R1 R2 R3 R4].
  destruct (stats_remove_ok T A s p d b R1 Hp Ed Hf HA) as (m & st & Es & Rs).
  eexists. split; [exact Es|]. split; [reflexivity|]. split; [exact Rs|exact R2|exact R3|exact R4].
Qed.

(** The flag that the slab is in a container does not matter to them. *)
Lemma container_view v : same_view d (hpdata_in_psset_alloc_container_set v d).
Proof. done. Qed.

Lemma alloc_insert_parts :
  filed T d b → p ∉ B →
  ∃ s', psset_alloc_container_insert T p s = Done (tt, s') ∧
    ps_data s' = <[p:=hpdata_in_psset_alloc_container_set true d]> (ps_data s) ∧ parts s' A ({[p]} ∪ B) C E.
Proof.
  intros Hf HB. destruct R as [R1 (Fs & Em & R2) (Ls & R3) R4].
  destruct (alloc_container_insert_ok T B Fs Em s p d b R2 Hp Ed Hf HB) as (a & Fs' & Em' & Ea & Ra).
  eexists. split; [exact Ea|]. split; [done|].
  eapply (parts_data (put_alloc a s) A ({[p]} ∪ B) C E p d _); [|exact Ed|left; apply container_view].
  split; [by apply (stats_rep_frame _ _ (psset s))|exists Fs', Em'; by rewrite alloc_of_put|exists Ls; exact R3|exact R4].
Qed.

Lemma alloc_remove_parts :
  filed T d b → p ∈ B →
  ∃ s', psset_alloc_container_remove T p s = Done (tt, s') ∧
    ps_data s' = <[p:=hpdata_in_psset_alloc_container_set false d]> (ps_data s) ∧ parts s' A (B ∖ {[p]}) C E.
Proof.
  intros Hf HB. destruct R as [R1 (Fs & Em & R2) (Ls & R3) R4].
  destruct (alloc_container_remove_ok T B Fs Em s p d b R2 Hp Ed Hf HB) as (a & Fs' & Em' & Ea & Ra).
  eexists. split; [exact Ea|]. split; [done|].
  eapply (parts_data (put_alloc a s) A (B ∖ {[p]}) C E p d _); [|exact Ed|left; apply container_view].
  split; [by apply (stats_rep_frame _ _ (psset s))|exists Fs', Em'; by rewrite alloc_of_put|exists Ls; exact R3|exact R4].
Qed.

Lemma purge_insert_parts :
  slab_ok d → p ∉ C →
  ∃ s', psset_maybe_insert_purge_list T p s = Done (tt, s') ∧ ps_data s' = ps_data s ∧
    parts s' A B (if h_purge_allowed d then {[p]} ∪ C else C) E.
Proof.
  intros Hok HC. destruct R as [R1 R2 (Ls & R3) R4].
  assert (∃ i, h_purge_allowed d = true → purge_filed T d i) as (i & Hi).
  { destruct (h_purge_allowed d) eqn:Ha; [|by exists 0]. destruct (slab_ok_purge_filed d Hok Ha) as (i & Hi). by exists i. }
  destruct (maybe_insert_purge_ok T C Ls s p d i R3 Hp Ed Hi HC) as (u & Ls' & Eu & Ru).
  eexists. split; [exact Eu|]. split; [reflexivity|]. split; [by apply (stats_rep_frame _ _ (psset s))|exact R2|exists Ls'; by rewrite purge_of_put|exact R4].
Qed.

Lemma purge_remove_parts :
  slab_ok d → (h_purge_allowed d = true → p ∈ C) →
  ∃ s', psset_maybe_remove_purge_list T p s = Done (tt, s') ∧ ps_data s' = ps_data s ∧
    parts s' A B (if h_purge_allowed d then C ∖ {[p]} else C) E.
Proof.
  intros Hok HC. destruct R as [R1 R2 (Ls & R3) R4].
  assert (∃ i, h_purge_allowed d = true → purge_filed T d i ∧ p ∈ C) as (i & Hi).
  { destruct (h_purge_allowed d) eqn:Ha; [|by exists 0]. destruct (slab_ok_purge_filed d Hok Ha) as (i & Hi). exists i. auto. }
  destruct (maybe_remove_purge_ok T C Ls s p d i R3 Hp Ed Hi) as (u & Ls' & Eu & Ru).
  eexists. split; [exact Eu|]. split; [reflexivity|]. split; [by apply (stats_rep_frame _ _ (psset s))|exact R2|exists Ls'; by rewrite purge_of_put|exact R4].
Qed.

Lemma hugify_append_parts :
  p ∉ E → ∃ s', on_hugify (λ q, list_append q p) s = Done (tt, s') ∧ ps_data s' = ps_data s ∧ parts s' A B C ({[p]} ∪ E).
Proof.
  intros HE. destruct R as [R1 R2 R3 R4]. destruct (hugify_append_ok E s p R4 Hp HE) as (r & q & Eh & Rh).
  eexists. split; [exact Eh|]. split; [reflexivity|]. split; [by apply (stats_rep_frame _ _ (psset s))|exact R2|exact R3|exact Rh].
Qed.

Lemma hugify_remove_parts :
  p ∈ E → ∃ s', on_hugify (λ q, list_remove q p) s = Done (tt, s') ∧ ps_data s' = ps_data s ∧ parts s' A B C (E ∖ {[p]}).
Proof.
  intros HE. destruct R as [R1 R2 R3 R4]. destruct (hugify_remove_ok E s p R4 HE) as (r & q & Eh & Rh).
  eexists. split; [exact Eh|]. split; [reflexivity|]. split; [by apply (stats_rep_frame _ _ (psset s))|exact R2|exact R3|exact Rh].
Qed.
End steps.

Lemma psset_inv_parts s W U :
  psset_inv s W U →
  parts s (W ∖ U) (flagged h_in_psset_alloc_container (ps_data s) (W ∖ U))
    (flagged h_purge_allowed (ps_data s) (W ∖ U)) (flagged h_in_psset_hugify_container (ps_data s) W).
Proof. intros [R1 R2 R3 R4 R5 R6 R7 R8]. by split. Qed.
End inv.
