(* ===== verification/PssetOps.v ===== *)
(** * The entry points of a page slab set keep its invariant

    Each of them takes a slab out of the containers or puts it into those its metadata asks for; the
    lemmas of [PssetInv] on the single containers are put together here. *)
From stdpp Require Import base list gmap numbers.
From S2P Require Import Prelude BitUtil SizeClass Sz SzTheorems Fb FbFacts FbTheorems Hpdata HpdataTheorems Ph PhFacts PhOps PhHeap Ql Psset PssetSizes PssetFacts PssetLists PssetInv.

(** ** Slabs with a flag, after a change of one slab *)

Lemma flagged_put g D X p d' :
  flagged g (<[p:=d']> D) ({[p]} ∪ X) = if g d' then {[p]} ∪ flagged g D X else flagged g D X ∖ {[p]}.
Proof.
  apply set_eq. intros q. rewrite elem_of_flagged, elem_of_union, elem_of_singleton.
  destruct (decide (q = p)) as [->|Hq].
  - rewrite lookup_insert_eq. simpl. destruct (g d'); [set_solver|]. rewrite elem_of_difference, elem_of_singleton.
    split; [by intros [_ [=]]|tauto].
  - rewrite lookup_insert_ne by done.
    destruct (g d'); rewrite ?elem_of_union, ?elem_of_difference, elem_of_singleton, elem_of_flagged; tauto.
Qed.

Lemma flagged_insert g D X p d' :
  p ∉ X → flagged g (<[p:=d']> D) ({[p]} ∪ X) = if g d' then {[p]} ∪ flagged g D X else flagged g D X.
Proof.
  intros Hp. rewrite flagged_put. destruct (g d'); [done|]. apply difference_disjoint_L.
  intros q Hq ->%elem_of_singleton. by apply elem_of_flagged in Hq as [? _].
Qed.

Lemma flagged_delete g D X p d' : flagged g (<[p:=d']> D) (X ∖ {[p]}) = flagged g D X ∖ {[p]}.
Proof.
  rewrite flagged_out by set_solver. apply set_eq. intros q.
  rewrite elem_of_difference, !elem_of_flagged, elem_of_difference. tauto.
Qed.

Lemma set_alloc_container_id d : hpdata_in_psset_alloc_container_set (h_in_psset_alloc_container d) d = d.
Proof. by destruct d. Qed.
Lemma set_hugify_container_id d : hpdata_in_psset_hugify_container_set (h_in_psset_hugify_container d) d = d.
Proof. by destruct d. Qed.

Section entry.
Context (T : sz_tables) `{!SzReady T}.

(** ** Into the containers and out of them *)

Section settle.
Context (s : psset_mem) (A B C E : gset Z) (p : Z) (d : hpdata_t).
Hypothesis (R : parts T s A B C E) (Hp : p ≠ 0) (Ed : ps_data s !! p = Some d) (Hok : slab_ok d).

Lemma settle_ok {X} (k : M psset_mem X) :
  p ∉ A → p ∉ B → p ∉ C → h_in_psset_alloc_container d = false →
  ∃ s', (psset_stats_insert T p;;
         d ← slab_get p;
         (if h_alloc_allowed d then psset_alloc_container_insert T p else mret tt);;
         psset_maybe_insert_purge_list T p;; k) s = k s' ∧
    ps_data s' = <[p:=hpdata_in_psset_alloc_container_set (h_alloc_allowed d) d]> (ps_data s) ∧
    parts T s' ({[p]} ∪ A) (if h_alloc_allowed d then {[p]} ∪ B else B) (if h_purge_allowed d then {[p]} ∪ C else C) E.
Proof.
  intros HA HB HC Hin. destruct (slab_ok_filed T d Hok) as (b & Hf).
  destruct (stats_insert_parts T s A B C E p d b R Hp Ed Hf HA) as (s1 & E1 & D1 & R1).
  rewrite (bind_done _ _ _ _ _ E1). rewrite <- D1 in Ed. erewrite bind_done by (by apply slab_get_ok).
  assert (∃ s2, (if h_alloc_allowed d then psset_alloc_container_insert T p else mret tt) s1 = Done (tt, s2) ∧
            ps_data s2 = <[p:=hpdata_in_psset_alloc_container_set (h_alloc_allowed d) d]> (ps_data s) ∧
            parts T s2 ({[p]} ∪ A) (if h_alloc_allowed d then {[p]} ∪ B else B) C E) as (s2 & E2 & D2 & R2).
  { destruct (h_alloc_allowed d).
    - destruct (alloc_insert_parts T s1 _ B C E p d b R1 Hp Ed Hf HB) as (s2 & E2 & D2 & R2). exists s2. by rewrite D2, D1.
    - exists s1. split; [done|]. split; [|done]. rewrite <- Hin, set_alloc_container_id, D1. symmetry. apply insert_id. by rewrite <- D1. }
  rewrite (bind_done _ _ _ _ _ E2).
  destruct (purge_insert_parts T s2 _ _ C E p _ R2 Hp ltac:(by rewrite D2, lookup_insert_eq)) as (s3 & E3 & D3 & R3); [by destruct Hok|done|].
  rewrite (bind_done _ _ _ _ _ E3). exists s3. by rewrite D3, D2.
Qed.

(** The containers that a slab is in are those its flags say. *)
Lemma unsettle_ok {X} (k : M psset_mem X) :
  p ∈ A → (h_in_psset_alloc_container d = true ↔ p ∈ B) → (h_purge_allowed d = true ↔ p ∈ C) →
  ∃ s1 s', (psset_stats_remove T p;;
            d ← slab_get p;
            (if h_in_psset_alloc_container d then psset_alloc_container_remove T p else mret tt);; k) s = k s1 ∧
    psset_maybe_remove_purge_list T p s1 = Done (tt, s') ∧
    ps_data s' = <[p:=hpdata_in_psset_alloc_container_set false d]> (ps_data s) ∧
    parts T s' (A ∖ {[p]}) (B ∖ {[p]}) (C ∖ {[p]}) E.
Proof.
  intros HA HB HC. destruct (slab_ok_filed T d Hok) as (b & Hf).
  destruct (stats_remove_parts T s A B C E p d b R Hp Ed Hf HA) as (s1 & E1 & D1 & R1).
  rewrite (bind_done _ _ _ _ _ E1). rewrite <- D1 in Ed. erewrite bind_done by (by apply slab_get_ok).
  assert (∃ s2, (if h_in_psset_alloc_container d then psset_alloc_container_remove T p else mret tt) s1 = Done (tt, s2) ∧
            ps_data s2 = <[p:=hpdata_in_psset_alloc_container_set false d]> (ps_data s) ∧
            parts T s2 (A ∖ {[p]}) (B ∖ {[p]}) C E) as (s2 & E2 & D2 & R2).
  { destruct (h_in_psset_alloc_container d) eqn:Hin.
    - destruct (alloc_remove_parts T s1 _ B C E p d b R1 Hp Ed Hf) as (s2 & E2 & D2 & R2); [by apply HB|].
      exists s2. by rewrite D2, D1.
    - exists s1. split; [done|]. assert (p ∉ B) by (rewrite <- HB; congruence).
      rewrite (difference_disjoint_L B) by set_solver. split; [|done].
      rewrite <- Hin, set_alloc_container_id, D1. symmetry. apply insert_id. by rewrite <- D1. }
  rewrite (bind_done _ _ _ _ _ E2).
  destruct (purge_remove_parts T s2 _ _ C E p _ R2 Hp ltac:(by rewrite D2, lookup_insert_eq)) as (s3 & E3 & D3 & R3);
    [by destruct Hok|by apply HC|].
  exists s2, s3. rewrite E3, D3, D2. split_and!; [done..|].
  change (h_purge_allowed (hpdata_in_psset_alloc_container_set false d)) with (h_purge_allowed d) in R3.
  destruct (h_purge_allowed d) eqn:Ha; [done|]. rewrite (difference_disjoint_L C); [done|].
  assert (p ∉ C) by (rewrite <- HC; congruence). set_solver.
Qed.
End settle.

(** ** The invariant afterwards *)

Lemma inv_in s s' W U W' U' p d' :
  psset_inv T s W U → ps_data s' = <[p:=d']> (ps_data s) → p ≠ 0 → slab_ok d' → h_in_psset_alloc_container d' = h_alloc_allowed d' →
  p ∉ W ∖ U → W' ∖ U' = {[p]} ∪ W ∖ U → U' ⊆ W' → U' ⊆ U ∖ {[p]} → W' ⊆ {[p]} ∪ W →
  parts T s' ({[p]} ∪ W ∖ U)
    (if h_in_psset_alloc_container d' then {[p]} ∪ flagged h_in_psset_alloc_container (ps_data s) (W ∖ U)
     else flagged h_in_psset_alloc_container (ps_data s) (W ∖ U))
    (if h_purge_allowed d' then {[p]} ∪ flagged h_purge_allowed (ps_data s) (W ∖ U)
     else flagged h_purge_allowed (ps_data s) (W ∖ U))
    (flagged h_in_psset_hugify_container (ps_data s') W') →
  psset_inv T s' W' U'.
Proof.
  intros [I1 I2 I3 I4 _ _ _ _] D' Hp Hok Hal Hn HX HU' HU HW [R1 R2 R3 R4].
  split; rewrite ?HX; try done.
  - intros q Hq. rewrite D'. destruct (decide (q = p)) as [->|Hne]; [rewrite lookup_insert_eq; by split|].
    rewrite lookup_insert_ne by done. apply I1. clear -Hq HW Hne. set_solver.
  - intros q d. rewrite D'. destruct (decide (q = p)) as [->|Hne]; [rewrite lookup_insert_eq; by intros _ [= <-]|].
    rewrite lookup_insert_ne by done. intros Hq. apply I3. clear -Hq Hne. set_solver.
  - intros q d Hq. assert (q ≠ p ∧ q ∈ U) as [Hne HqU] by (clear -Hq HU; set_solver). rewrite D', lookup_insert_ne by done. by apply I4.
  - rewrite D', flagged_insert by done. rewrite <- D'. exact R2.
  - rewrite D', flagged_insert by done. rewrite <- D'. exact R3.
Qed.

Lemma inv_out s s' W U W' U' p d' :
  psset_inv T s W U → ps_data s' = <[p:=d']> (ps_data s) → h_in_psset_alloc_container d' = false →
  p ∈ W → W' ∖ U' = (W ∖ U) ∖ {[p]} → U' ⊆ W' → U' ⊆ {[p]} ∪ U → W' ⊆ W →
  parts T s' ((W ∖ U) ∖ {[p]}) (flagged h_in_psset_alloc_container (ps_data s) (W ∖ U) ∖ {[p]})
    (flagged h_purge_allowed (ps_data s) (W ∖ U) ∖ {[p]}) (flagged h_in_psset_hugify_container (ps_data s') W') →
  psset_inv T s' W' U'.
Proof.
  intros [I1 I2 I3 I4 _ _ _ _] D' Hal Hn HX HU' HU HW [R1 R2 R3 R4].
  split; rewrite ?HX; try done.
  - intros q Hq. rewrite D'. destruct (decide (q = p)) as [->|Hne]; [rewrite lookup_insert_eq; split; [by apply I1|done]|].
    rewrite lookup_insert_ne by done. apply I1. clear -Hq HW Hne. set_solver.
  - intros q d Hq. rewrite D', lookup_insert_ne by (clear -Hq; set_solver). apply I3. clear -Hq. set_solver.
  - intros q d Hq. rewrite D'. destruct (decide (q = p)) as [->|Hne]; [rewrite lookup_insert_eq; by intros [= <-]|].
    rewrite lookup_insert_ne by done. apply I4. clear -Hq HU Hne. set_solver.
  - rewrite D', flagged_delete. rewrite <- D'. exact R2.
  - rewrite D', flagged_delete. rewrite <- D'. exact R3.
Qed.

(** ** The list of slabs to hugify *)

Lemma update_hugify_ok s A B C E p d :
  parts T s A B C E → p ≠ 0 → ps_data s !! p = Some d → (h_in_psset_hugify_container d = true ↔ p ∈ E) →
  ∃ s', update_hugify p s = Done (tt, s') ∧
    ps_data s' = <[p:=hpdata_in_psset_hugify_container_set (h_hugify_allowed d) d]> (ps_data s) ∧
    parts T s' A B C (if h_hugify_allowed d then {[p]} ∪ E else E ∖ {[p]}).
Proof.
  intros R Hp Ed HE. unfold update_hugify. erewrite bind_done by (by apply slab_get_ok).
  assert (Hsame : h_in_psset_hugify_container d = h_hugify_allowed d →
    <[p:=hpdata_in_psset_hugify_container_set (h_hugify_allowed d) d]> (ps_data s) = ps_data s).
  { intros <-. rewrite set_hugify_container_id. by apply insert_id. }
  destruct (h_hugify_allowed d), (h_in_psset_hugify_container d) eqn:Hh; cbn [andb negb].
  - exists s. rewrite Hsame by done. split_and!; [done..|]. rewrite subseteq_union_1_L; [done|]. apply singleton_subseteq_l. by apply HE.
  - destruct (slab_set_parts T s A B C E p d (hpdata_in_psset_hugify_container_set true) R Hp Ed ltac:(by left)) as (s1 & E1 & D1 & R1).
    destruct (hugify_append_parts T s1 A B C E p R1 Hp) as (s2 & E2 & D2 & R2); [rewrite <- HE; congruence|].
    exists s2. rewrite (bind_done _ _ _ _ _ E1). by rewrite D2, D1.
  - destruct (slab_set_parts T s A B C E p d (hpdata_in_psset_hugify_container_set false) R Hp Ed ltac:(by left)) as (s1 & E1 & D1 & R1).
    destruct (hugify_remove_parts T s1 A B C E p R1) as (s2 & E2 & D2 & R2); [by apply HE|].
    exists s2. rewrite (bind_done _ _ _ _ _ E1). by rewrite D2, D1.
  - exists s. rewrite Hsame by done. split_and!; [done..|]. rewrite difference_disjoint_L; [done|].
    intros q Hq ->%elem_of_singleton. apply HE in Hq. congruence.
Qed.

(** What a slab is put into, and taken from, in the other entry points. *)
Lemma insert_tail s p d :
  p ≠ 0 → ps_data s !! p = Some d → h_in_psset_hugify_container d = false →
  (d ← slab_get p; if h_hugify_allowed d then
     slab_set p (hpdata_in_psset_hugify_container_set true);; on_hugify (λ q, list_append q p) else mret tt) s =
  update_hugify p s.
Proof.
  intros Hp Ed Hh. unfold update_hugify. erewrite !bind_done by (by apply slab_get_ok). rewrite Hh.
  by destruct (h_hugify_allowed d).
Qed.

Lemma remove_tail_ok s A B C E p d :
  parts T s A B C E → p ≠ 0 → ps_data s !! p = Some d → (h_in_psset_hugify_container d = true ↔ p ∈ E) →
  ∃ s', (d ← slab_get p; if h_in_psset_hugify_container d then
     slab_set p (hpdata_in_psset_hugify_container_set false);; on_hugify (λ q, list_remove q p) else mret tt) s = Done (tt, s') ∧
    ps_data s' = <[p:=hpdata_in_psset_hugify_container_set false d]> (ps_data s) ∧ parts T s' A B C (E ∖ {[p]}).
Proof.
  intros R Hp Ed HE. erewrite bind_done by (by apply slab_get_ok).
  destruct (h_in_psset_hugify_container d) eqn:Hh.
  - destruct (slab_set_parts T s A B C E p d (hpdata_in_psset_hugify_container_set false) R Hp Ed ltac:(by left)) as (s1 & E1 & D1 & R1).
    destruct (hugify_remove_parts T s1 A B C E p R1) as (s2 & E2 & D2 & R2); [by apply HE|].
    exists s2. rewrite (bind_done _ _ _ _ _ E1). by rewrite D2, D1.
  - exists s. split_and!; [done| |].
    + rewrite <- Hh, set_hugify_container_id. symmetry. by apply insert_id.
    + rewrite difference_disjoint_L; [done|]. intros q Hq ->%elem_of_singleton. apply HE in Hq. congruence.
Qed.

(** ** The metadata of a slab after each entry point *)

Definition settled (d : hpdata_t) : hpdata_t :=
  hpdata_in_psset_hugify_container_set (h_hugify_allowed d) (hpdata_in_psset_alloc_container_set (h_alloc_allowed d) d).
Definition inserted (d : hpdata_t) : hpdata_t := settled (hpdata_in_psset_set true d).
Definition ended (d : hpdata_t) : hpdata_t := settled (hpdata_updating_set false d).
Definition begun (d : hpdata_t) : hpdata_t := hpdata_in_psset_alloc_container_set false (hpdata_updating_set true d).
Definition removed (d : hpdata_t) : hpdata_t :=
  hpdata_in_psset_hugify_container_set false (hpdata_in_psset_alloc_container_set false (hpdata_in_psset_set false d)).

(** ** The entry points *)

Lemma psset_insert_ok s W U p d :
  psset_inv T s W U → p ∉ W → p ≠ 0 → ps_data s !! p = Some d → slab_ok d →
  h_in_psset_alloc_container d = false → h_in_psset_hugify_container d = false →
  ∃ s', psset_insert T p s = Done (tt, s') ∧ ps_data s' = <[p:=inserted d]> (ps_data s) ∧ psset_inv T s' ({[p]} ∪ W) U.
Proof.
  intros I HW Hp Ed Hok Hal Hhu. pose proof (psset_inv_parts T s W U I) as R. unfold psset_insert.
  destruct (slab_set_parts T s _ _ _ _ p d (hpdata_in_psset_set true) R Hp Ed ltac:(by left)) as (s1 & E1 & D1 & R1).
  rewrite (bind_done _ _ _ _ _ E1). set (d1 := hpdata_in_psset_set true d) in *.
  assert (Hn : ∀ g D X, X ⊆ W → p ∉ flagged g D X) by (intros g D X HX; rewrite elem_of_flagged; clear -HW HX; set_solver).
  assert (Ed1 : ps_data s1 !! p = Some d1) by (by rewrite D1, lookup_insert_eq).
  edestruct (settle_ok s1 _ _ _ _ p d1 R1 Hp Ed1) as (s2 & -> & D2 & R2);
    [by destruct Hok|clear -HW; set_solver|apply Hn; set_solver..|done|].
  set (d2 := hpdata_in_psset_alloc_container_set _ d1) in *.
  assert (Ed2 : ps_data s2 !! p = Some d2) by (by rewrite D2, lookup_insert_eq).
  rewrite (insert_tail s2 p d2 Hp Ed2 Hhu).
  destruct (update_hugify_ok s2 _ _ _ _ p d2 R2 Hp Ed2) as (s3 & E3 & D3 & R3).
  { change (h_in_psset_hugify_container d2) with (h_in_psset_hugify_container d). split; [by rewrite Hhu|]. intros H. by apply Hn in H. }
  assert (D4 : ps_data s3 = <[p:=inserted d]> (ps_data s)) by (by rewrite D3, D2, D1, !insert_insert_eq).
  exists s3. split_and!; [done..|]. pose proof (pi_updating _ _ _ _ I) as I2.
  eapply (inv_in s s3 W U _ _ p (inserted d)); try done.
  - by destruct Hok.
  - clear -HW. set_solver.
  - apply set_eq. intros q. rewrite !elem_of_difference, !elem_of_union, elem_of_difference, elem_of_singleton.
    destruct (decide (q = p)); [subst q|tauto]. clear -HW I2. set_solver.
  - clear -I2. set_solver.
  - clear -I2 HW. set_solver.
  - rewrite D4, flagged_put. exact R3.
Qed.

Lemma psset_update_end_ok s W U p d :
  psset_inv T s W U → p ∈ U → ps_data s !! p = Some d → slab_ok d →
  ∃ s', psset_update_end T p s = Done (tt, s') ∧ ps_data s' = <[p:=ended d]> (ps_data s) ∧ psset_inv T s' W (U ∖ {[p]}).
Proof.
  intros I HU Ed Hok. pose proof (psset_inv_parts T s W U I) as R. unfold psset_update_end.
  pose proof (pi_updating _ _ _ _ I) as I2. assert (HW : p ∈ W) by (by apply I2).
  destruct (pi_known _ _ _ _ I p HW) as [Hp _].
  destruct (slab_set_parts T s _ _ _ _ p d (hpdata_updating_set false) R Hp Ed ltac:(by left)) as (s1 & E1 & D1 & R1).
  rewrite (bind_done _ _ _ _ _ E1). set (d1 := hpdata_updating_set false d) in *.
  assert (Hn : ∀ g D, p ∉ flagged g D (W ∖ U)) by (intros g D; rewrite elem_of_flagged; clear -HU; set_solver).
  assert (Ed1 : ps_data s1 !! p = Some d1) by (by rewrite D1, lookup_insert_eq).
  edestruct (settle_ok s1 _ _ _ _ p d1 R1 Hp Ed1) as (s2 & -> & D2 & R2);
    [by destruct Hok|clear -HU; set_solver|apply Hn..|exact (pi_out _ _ _ _ I p d HU Ed)|].
  set (d2 := hpdata_in_psset_alloc_container_set _ d1) in *.
  assert (Ed2 : ps_data s2 !! p = Some d2) by (by rewrite D2, lookup_insert_eq).
  destruct (update_hugify_ok s2 _ _ _ _ p d2 R2 Hp Ed2) as (s3 & E3 & D3 & R3).
  { change (h_in_psset_hugify_container d2) with (h_in_psset_hugify_container d).
    rewrite elem_of_flagged, Ed. simpl. split; [intros H; split; [done|by rewrite <- H]|by intros [_ [= H]]]. }
  assert (D4 : ps_data s3 = <[p:=ended d]> (ps_data s)) by (by rewrite D3, D2, D1, !insert_insert_eq).
  exists s3. split_and!; [done..|].
  eapply (inv_in s s3 W U _ _ p (ended d)); try done.
  - by destruct Hok.
  - clear -HU. set_solver.
  - apply set_eq. intros q. rewrite elem_of_union, !elem_of_difference, elem_of_singleton.
    destruct (decide (q = p)); [subst q|]; tauto.
  - clear -I2. set_solver.
  - set_solver.
  - pose proof (flagged_put h_in_psset_hugify_container (ps_data s) W p (ended d)) as Hf.
    rewrite (subseteq_union_1_L {[p]} W) in Hf by (by apply singleton_subseteq_l). rewrite D4, Hf. exact R3.
Qed.

(** The containers of a slab that is settled. *)
Lemma settled_containers s W U p d g :
  p ∈ W ∖ U → ps_data s !! p = Some d → (g d = true ↔ p ∈ flagged g (ps_data s) (W ∖ U)).
Proof. intros Hp Ed. rewrite elem_of_flagged, Ed. simpl. split; [intros H; split; [done|by rewrite H]|by intros [_ [= H]]]. Qed.

Lemma psset_update_begin_ok s W U p d :
  psset_inv T s W U → p ∈ W ∖ U → ps_data s !! p = Some d →
  ∃ s', psset_update_begin T p s = Done (tt, s') ∧ ps_data s' = <[p:=begun d]> (ps_data s) ∧ psset_inv T s' W ({[p]} ∪ U).
Proof.
  intros I HX Ed. pose proof (psset_inv_parts T s W U I) as R. unfold psset_update_begin.
  assert (HW : p ∈ W) by (clear -HX; set_solver). destruct (pi_known _ _ _ _ I p HW) as [Hp _].
  destruct (pi_ok _ _ _ _ I p d HX Ed) as [Hok _].
  destruct (slab_set_parts T s _ _ _ _ p d (hpdata_updating_set true) R Hp Ed ltac:(by left)) as (s1 & E1 & D1 & R1).
  rewrite (bind_done _ _ _ _ _ E1). set (d1 := hpdata_updating_set true d) in *.
  assert (Ed1 : ps_data s1 !! p = Some d1) by (by rewrite D1, lookup_insert_eq).
  edestruct (unsettle_ok s1 _ _ _ _ p d1 R1 Hp Ed1) as (s2 & s3 & -> & E3 & D3 & R3);
    [by destruct Hok|done|by apply (settled_containers s W U p d h_in_psset_alloc_container)
    |by apply (settled_containers s W U p d h_purge_allowed)|].
  assert (D4 : ps_data s3 = <[p:=begun d]> (ps_data s)) by (by rewrite D3, D1, insert_insert_eq).
  exists s3. split_and!; [done..|]. pose proof (pi_updating _ _ _ _ I) as I2.
  eapply (inv_out s s3 W U _ _ p (begun d)); try done.
  - clear. set_solver.
  - clear -I2 HW. set_solver.
  - by rewrite D4, (flagged_update _ _ _ _ d).
Qed.

Lemma psset_remove_ok s W U p d :
  psset_inv T s W U → p ∈ W ∖ U → ps_data s !! p = Some d →
  ∃ s', psset_remove T p s = Done (tt, s') ∧ ps_data s' = <[p:=removed d]> (ps_data s) ∧ psset_inv T s' (W ∖ {[p]}) U.
Proof.
  intros I HX Ed. pose proof (psset_inv_parts T s W U I) as R. unfold psset_remove.
  assert (HW : p ∈ W) by (clear -HX; set_solver). destruct (pi_known _ _ _ _ I p HW) as [Hp _].
  destruct (pi_ok _ _ _ _ I p d HX Ed) as [Hok _].
  destruct (slab_set_parts T s _ _ _ _ p d (hpdata_in_psset_set false) R Hp Ed ltac:(by left)) as (s1 & E1 & D1 & R1).
  rewrite (bind_done _ _ _ _ _ E1). set (d1 := hpdata_in_psset_set false d) in *.
  assert (Ed1 : ps_data s1 !! p = Some d1) by (by rewrite D1, lookup_insert_eq).
  edestruct (unsettle_ok s1 _ _ _ _ p d1 R1 Hp Ed1) as (s2 & s3 & -> & E3 & D3 & R3);
    [by destruct Hok|done|by apply (settled_containers s W U p d h_in_psset_alloc_container)
    |by apply (settled_containers s W U p d h_purge_allowed)|].
  rewrite (bind_done _ _ _ _ _ E3). set (d2 := hpdata_in_psset_alloc_container_set false d1) in *.
  destruct (remove_tail_ok s3 _ _ _ _ p d2 R3 Hp) as (s4 & E4 & D4 & R4); [by rewrite D3, lookup_insert_eq| |].
  { change (h_in_psset_hugify_container d2) with (h_in_psset_hugify_container d).
    rewrite elem_of_flagged, Ed. simpl. split; [intros H; split; [done|by rewrite <- H]|by intros [_ [= H]]]. }
  assert (D5 : ps_data s4 = <[p:=removed d]> (ps_data s)) by (by rewrite D4, D3, D1, !insert_insert_eq).
  exists s4. split_and!; [done..|]. pose proof (pi_updating _ _ _ _ I) as I2.
  eapply (inv_out s s4 W U _ _ p (removed d)); try done.
  - clear. set_solver.
  - clear -I2 HX. set_solver.
  - clear. set_solver.
  - clear. set_solver.
  - by rewrite D5, flagged_delete.
Qed.

(** The metadata of a slab that is being updated may change, the flags of the set apart. *)
Lemma change_ok s W U p d d' :
  psset_inv T s W U → p ∈ U → ps_data s !! p = Some d →
  h_in_psset_alloc_container d' = false → h_in_psset_hugify_container d' = h_in_psset_hugify_container d →
  psset_inv T (put_data (<[p:=d']> (ps_data s)) s) W U.
Proof.
  intros I HU Ed Hal Hhu. pose proof (psset_inv_parts T s W U I) as R.
  assert (Hn : ∀ g, p ∉ flagged g (ps_data s) (W ∖ U)) by (intros g; rewrite elem_of_flagged; clear -HU; set_solver).
  assert (HX : p ∉ W ∖ U) by (clear -HU; set_solver).
  destruct (parts_data T s _ _ _ _ p d d' R Ed ltac:(by right; split_and!)) as [R1 R2 R3 R4].
  destruct I as [I1 I2 I3 I4 _ _ _ _].
  split; cbn [put_data ps_data] in *; rewrite ?flagged_out by done; try done.
  - intros q Hq. destruct (decide (q = p)) as [->|]; [rewrite lookup_insert_eq; split; [by apply I1|done]|].
    rewrite lookup_insert_ne by done. by apply I1.
  - intros q e Hq. rewrite lookup_insert_ne by (by intros ->). by apply I3.
  - intros q e Hq. destruct (decide (q = p)) as [->|]; [rewrite lookup_insert_eq; by intros [= <-]|].
    rewrite lookup_insert_ne by done. by apply I4.
  - by rewrite (flagged_update _ _ _ _ d).
Qed.

(** The metadata of slabs that are not in the set is not its business. *)
Lemma outside_ok s W U p d' :
  psset_inv T s W U → p ∉ W → psset_inv T (put_data (<[p:=d']> (ps_data s)) s) W U.
Proof.
  intros I HW. assert (Hne : ∀ q, q ∈ W → p ≠ q) by (by intros q Hq ->). assert (HX : p ∉ W ∖ U) by (clear -HW; set_solver).
  destruct I as [I1 I2 I3 I4 I5 (Fs & Em & I6) (Ls & I7) I8].
  split; cbn [put_data ps_data] in *; rewrite ?flagged_out by done; try done.
  - intros q Hq. rewrite lookup_insert_ne by auto. by apply I1.
  - intros q e Hq. rewrite lookup_insert_ne by (apply Hne; clear -Hq; set_solver). by apply I3.
  - intros q e Hq. rewrite lookup_insert_ne by auto. by apply I4.
  - eapply stats_rep_ext; [|exact I5]. intros f P _ _ q Hq. unfold part_of.
    rewrite lookup_insert_ne by (apply Hne; clear -Hq; set_solver). done.
  - exists Fs, Em. eapply alloc_rep_ext; [|exact I6]. intros q [Hq _]%elem_of_flagged. symmetry. apply kind_out. intros ->. done.
  - exists Ls. eapply purge_rep_ext; [|exact I7]. intros q [Hq _]%elem_of_flagged. symmetry. apply purge_ind_out. intros ->. done.
Qed.
End entry.
