(* ===== verification/PssetPick.v ===== *)
(** * A new page slab set, and the slabs it picks *)
From stdpp Require Import base list gmap numbers.
From S2P Require Import Prelude BitUtil SizeClass Sz SzTheorems Fb FbFacts FbTheorems Hpdata HpdataTheorems Ph PhFacts PhOps PhHeap Ql Psset PssetSizes PssetFacts PssetLists PssetInv.

Section pick.
Context (T : sz_tables) `{!SzReady T}.

(** ** A new set *)

Lemma total_empty f P D : total f P D ∅ = 0.
Proof. unfold total. by rewrite elements_empty. Qed.
Lemma bin_is_empty P D : bin_is P D ∅ no_bin.
Proof. unfold bin_is. by rewrite !total_empty. Qed.

Lemma stats_rep_new D p :
  merged_stats p = no_bin → stats p = mkStats (replicate 64 (no_bin, no_bin)) (no_bin, no_bin) (no_bin, no_bin) →
  stats_rep T D ∅ p.
Proof.
  intros E1 E2. split; rewrite ?E1, ?E2; [done|apply bin_is_empty|].
  intros b huge x Hx. assert (x = no_bin) as ->; [|apply bin_is_empty].
  destruct b as [| |i]; cbn [stat_at nonfull_slabs full_slabs empty_slabs] in Hx; [by destruct huge; simplify_eq/=..|].
  destruct (i <? 0); [done|]. destruct (replicate 64 (no_bin, no_bin) !! Z.to_nat i) as [y|] eqn:E; [|done].
  apply lookup_replicate in E as [-> _]. by destruct huge; simplify_eq/=.
Qed.

Lemma psset_init_ok D ages r1 r2 r3 bm pm :
  Z.of_nat (length bm) = FB_NGROUPS PSSET_NPSIZES → Z.of_nat (length pm) = FB_NGROUPS PSSET_NPURGE_LISTS →
  ∃ ps, psset_init bm pm = Done ps ∧ psset_inv T (mkMem D ages r1 r2 r3 ps) ∅ ∅.
Proof.
  intros Hb Hp. destruct (fb_init_ok PSSET_NPSIZES bm) as (bm' & Eb & Ob & Zb); [done..|].
  destruct (fb_init_ok PSSET_NPURGE_LISTS pm) as (pm' & Ep & Op & Zp); [done..|].
  unfold psset_init. rewrite Eb. cbn [mbind outcome_bind]. rewrite Ep. cbn [mbind outcome_bind].
  eexists. split; [reflexivity|].
  assert (He : ∀ g, flagged g D (∅ ∖ ∅) = ∅) by (intros g; apply set_eq; intros q; rewrite elem_of_flagged; clear; set_solver).
  split; cbn [ps_data psset];
    [intros p Hp0; by apply not_elem_of_empty in Hp0|done|intros p d Hp0; by rewrite difference_diag_L in Hp0
    |intros p d Hp0; by apply not_elem_of_empty in Hp0|..].
  - rewrite difference_diag_L. by apply stats_rep_new.
  - exists (replicate 64 Nil), []. rewrite He. split; cbn [alloc_of a_age a_rings a_heaps a_bitmap a_empty psset pageslabs pageslab_bitmap empty_list];
      [reflexivity|reflexivity| | |exact Ob|..].
    + intros i f ph [-> _]%lookup_replicate [-> _]%lookup_replicate. split_and!; [done|by exists 0|constructor].
    + split; [|done]. split_and!; [constructor|apply not_elem_of_nil|constructor].
    + intros i f [-> _]%lookup_replicate. rewrite Zb. by rewrite bool_decide_eq_false_2 by tauto.
    + intros i f p [-> _]%lookup_replicate. cbn [nodes]. clear. set_solver.
    + intros p. clear. set_solver.
  - exists (replicate 128 []). rewrite He. split; cbn [purge_of u_rings u_lists u_bitmap psset to_purge purge_bitmap];
      [reflexivity|reflexivity| |exact Op|..].
    + intros i L q [-> _]%lookup_replicate [-> _]%lookup_replicate. split; [|done]. split_and!; [constructor|apply not_elem_of_nil|constructor].
    + intros i L [-> _]%lookup_replicate. rewrite Zp. by rewrite bool_decide_eq_false_2 by tauto.
    + intros i L p [-> _]%lookup_replicate. clear. set_solver.
  - exists []. split; [split; [split_and!; [constructor|apply not_elem_of_nil|constructor]|done]|].
    intros p. rewrite elem_of_flagged. clear. set_solver.
Qed.

(** ** Slabs that may serve an allocation *)

(** [p] is settled, may serve allocations, and is in the class [b]. *)
Definition serves (s : psset_mem) (X : gset Z) (p : Z) (b : binstats) : Prop :=
  p ∈ X ∧ ∃ d, ps_data s !! p = Some d ∧ h_alloc_allowed d = true ∧ slab_bin T d = Done b.

Lemma nonfull_class d i :
  slab_ok d → slab_bin T d = Done (BinNonfull i) →
  0 ≤ i ≤ 32 ∧ psize T i ≤ h_longest_free_range d * PAGE < psize T (i + 1).
Proof.
  intros [H1 H2 H3 H4] E. unfold slab_bin, hpdata_empty, hpdata_full, hpdata_longest_free_range_get in E.
  destruct (Z.eqb_spec (h_nactive d) 0); [done|]. destruct (Z.eqb_spec (h_nactive d) HUGEPAGE_PAGES); [done|].
  destruct (pages_pind_ok T (h_longest_free_range d)) as (j & Ej & Hj & Hb); [by apply H3|].
  rewrite Ej in E. cbn [mbind outcome_bind] in E. by injection E as <-.
Qed.

Lemma serves_alloc s W U p b :
  psset_inv T s W U →
  serves s (W ∖ U) p b ↔ p ∈ flagged h_in_psset_alloc_container (ps_data s) (W ∖ U) ∧ kind T (ps_data s) p = Some b.
Proof.
  intros I. unfold serves, kind. rewrite elem_of_flagged. split.
  - intros (Hp & d & Ed & Ha & Eb). destruct (pi_ok _ _ _ _ I p d Hp Ed) as [_ Hc]. rewrite Ed. simpl. rewrite Eb, Hc, Ha. done.
  - intros [[Hp Hc] Hk]. split; [done|]. destruct (ps_data s !! p) as [d|] eqn:Ed; [|done]. simpl in *. simplify_eq.
    exists d. destruct (pi_ok _ _ _ _ I p d Hp Ed) as [_ <-]. split_and!; [done..|]. by destruct (slab_bin T d); simplify_eq.
Qed.

(** The classes from [m] on are those that are large enough. *)
Lemma class_enough m j n :
  0 ≤ m ≤ 33 → 0 ≤ j ≤ 32 → n * PAGE ≤ psize T m → (0 < m → psize T (m - 1) < n * PAGE) → n * PAGE ≤ psize T j ↔ m ≤ j.
Proof.
  intros Hm Hj H1 H2. assert (Hn : SC_NPSIZES > 34) by done. split; intros H.
  - destruct (decide (m ≤ j)) as [|Hlt]; [done|]. specialize (H2 ltac:(lia)).
    destruct (decide (j = m - 1)) as [->|]; [lia|]. pose proof (psize_mono T j (m - 1)). lia.
  - destruct (decide (m = j)) as [->|]; [done|]. pose proof (psize_mono T m j). lia.
Qed.

(** The heap of a class, and its bit. *)
Lemma heap_bit s W U Fs Em i :
  psset_inv T s W U →
  alloc_rep (kind T (ps_data s)) (flagged h_in_psset_alloc_container (ps_data s) (W ∖ U)) Fs Em (alloc_of s) →
  0 ≤ i < PSSET_NPSIZES →
  fbit (pageslab_bitmap (psset s)) i = true ↔ ∃ p, serves s (W ∖ U) p (BinNonfull i).
Proof.
  intros I R Hi. destruct (pind_lookup _ _ _ _ _ i R Hi) as (f & ph & Ef & _).
  pose proof (ar_bits _ _ _ _ _ R _ _ Ef) as Hb. rewrite Z2Nat.id in Hb by lia. cbn [alloc_of a_bitmap] in Hb. rewrite Hb.
  rewrite bool_decide_eq_true. setoid_rewrite (serves_alloc s W U _ _ I).
  setoid_rewrite <- (Z2Nat.id i) at 1; [|lia]. setoid_rewrite <- (ar_in_heap _ _ _ _ _ R _ _ _ Ef). split.
  - destruct f as [|p c k]; [done|]. intros _. exists p. cbn [nodes]. by left.
  - intros (p & Hp) ->. by apply not_elem_of_nil in Hp.
Qed.

(** Looking at the first slab of a heap may rearrange the heap. *)
Lemma heap_first_ok s W U i p0 :
  psset_inv T s W U → 0 ≤ i < PSSET_NPSIZES → serves s (W ∖ U) p0 (BinNonfull i) →
  ∃ p s', on_heap i ph_first s = Done (p, s') ∧ ps_data s' = ps_data s ∧ psset_inv T s' W U ∧
    serves s (W ∖ U) p (BinNonfull i).
Proof.
  intros I Hi Hp0. destruct (pi_alloc _ _ _ _ I) as (Fs & Em & R).
  destruct (pind_lookup _ _ _ _ _ i R Hi) as (f & ph & Ef & Eph & Wf).
  destruct (ph_first_ok (age_cmp s) _ _ _ Wf) as (r & [h' ph'] & f' & E & W' & -> & P & O & _). cbn [fst] in O.
  assert (Hin : ∀ q, q ∈ nodes f' ↔ q ∈ flagged h_in_psset_alloc_container (ps_data s) (W ∖ U) ∧
                       kind T (ps_data s) q = Some (BinNonfull (Z.of_nat (Z.to_nat i)))).
  { intros q. rewrite P. apply (ar_in_heap _ _ _ _ _ R _ _ _ Ef). }
  assert (Hp0' := Hp0). apply (serves_alloc s W U p0 _ I) in Hp0' as [Hf0 Hk0].
  assert (Hne : f' ≠ Nil).
  { intros ->. assert (H : p0 ∈ nodes Nil) by (apply Hin; by rewrite Z2Nat.id by lia). by apply not_elem_of_nil in H. }
  assert (f ≠ Nil) by (intros ->; apply Hne; destruct f' as [|x c k]; [done|]; by apply Permutation_sym, Permutation_nil_cons in P).
  eexists _, _. split; [eapply on_heap_ok; [lia|exact Eph|exact E]|].
  set (a := mkAlloc _ _ _ _ _). split; [done|]. split.
  - assert (Ra : alloc_rep (kind T (ps_data s)) (flagged h_in_psset_alloc_container (ps_data s) (W ∖ U)) (<[Z.to_nat i:=f']> Fs) Em a).
    { eapply (heaps_update _ _ _ _ _ (alloc_of s) (Z.to_nat i) f f' ph ph' h' _ p0); try done.
      - intros q Hq. apply O. intros Hq'. apply Hq. by right.
      - by rewrite Z2Nat.id by lia.
      - apply (ar_bitmap _ _ _ _ _ R).
      - intros j g Eg. destruct (decide (Z.to_nat i = j)) as [<-|Hj].
        + rewrite list_lookup_insert_eq in Eg by (by eapply lookup_lt_Some). simplify_eq.
          etrans; [exact (ar_bits _ _ _ _ _ R _ _ Ef)|]. by rewrite !bool_decide_eq_true_2.
        + rewrite list_lookup_insert_ne in Eg by done. by apply (ar_bits _ _ _ _ _ R). }
    destruct I as [I1 I2 I3 I4 I5 I6 I7 I8]. split; try done.
    + by apply (stats_rep_frame T _ _ (psset s)).
    + exists (<[Z.to_nat i:=f']> Fs), Em. rewrite alloc_of_put. exact Ra.
  - apply (serves_alloc s W U _ _ I). specialize (Hin (fhead f')). rewrite Z2Nat.id in Hin by lia. apply Hin. by apply fhead_in.
Qed.

(** What [psset_pick_alloc] returns for [n] pages: a slab of the least class whose slabs all have room, else an
    empty slab, else none. *)
Definition alloc_choice (s : psset_mem) (X : gset Z) (n p : Z) : Prop :=
  (∃ i, serves s X p (BinNonfull i) ∧ n * PAGE ≤ psize T i ∧
        ∀ q j, serves s X q (BinNonfull j) → n * PAGE ≤ psize T j → i ≤ j) ∨
  ((∀ q j, serves s X q (BinNonfull j) → psize T j < n * PAGE) ∧
   (serves s X p BinEmpty ∨ (p = 0 ∧ ∀ q, ¬ serves s X q BinEmpty))).

Lemma serves_class s W U q j : psset_inv T s W U → serves s (W ∖ U) q (BinNonfull j) → 0 ≤ j ≤ 32.
Proof.
  intros I (Hq & d & Ed & _ & Eb). destruct (pi_ok _ _ _ _ I q d Hq Ed) as [Hok _]. by eapply nonfull_class.
Qed.

Lemma psset_pick_alloc_ok s W U n :
  psset_inv T s W U → 1 ≤ n ≤ HUGEPAGE_PAGES →
  ∃ p s', psset_pick_alloc T (n * PAGE) s = Done (p, s') ∧ ps_data s' = ps_data s ∧ psset_inv T s' W U ∧
    alloc_choice s (W ∖ U) n p.
Proof.
  intros I Hn. destruct (pi_alloc _ _ _ _ I) as (Fs & Em & R). unfold psset_pick_alloc.
  destruct (request_pind_ok T n Hn) as (c & m & Ec & Em' & Hm & H1 & H2).
  erewrite bind_done by (apply liftO_done; exact Ec). rewrite Em'. erewrite bind_done by reflexivity.
  destruct (fb_ffs_ok PSSET_NPSIZES (pageslab_bitmap (psset s)) ltac:(done) (ar_bitmap _ _ _ _ _ R) m) as (r & Er & Hr1 & Hr2 & Hr3);
    [change PSSET_NPSIZES with 64; lia|].
  erewrite bind_done by (apply liftO_done; exact Er). change PSSET_NPSIZES with 64 in *.
  replace (u32 r) with r by (symmetry; apply u32_small; lia).
  assert (Hlow : ∀ q j, serves s (W ∖ U) q (BinNonfull j) → n * PAGE ≤ psize T j → r ≤ j).
  { intros q j Hq Hj. pose proof (serves_class _ _ _ _ _ I Hq) as Hj32. rewrite (class_enough m j n) in Hj by done.
    destruct (decide (r ≤ j)) as [|Hlt]; [done|]. exfalso. specialize (Hr2 j ltac:(lia)).
    assert (fbit (pageslab_bitmap (psset s)) j = true); [|congruence].
    apply (heap_bit s W U Fs Em j I R); [change PSSET_NPSIZES with 64; lia|by exists q]. }
  destruct (Z.eqb_spec r 64) as [->|Hr].
  - exists (list_first (empty_list (psset s))), s. split_and!; [done..|]. right. split.
    { intros q j Hq. destruct (decide (psize T j < n * PAGE)) as [|Hge]; [done|].
      pose proof (Hlow q j Hq ltac:(lia)). pose proof (serves_class _ _ _ _ _ I Hq). lia. }
    pose proof (ar_empty _ _ _ _ _ R) as [_ He]. cbn [alloc_of a_empty] in He. unfold list_first. rewrite He.
    assert (HE : ∀ q, serves s (W ∖ U) q BinEmpty ↔ q ∈ Em) by (intros q; rewrite (serves_alloc _ _ _ _ _ I); symmetry; apply (ar_in_empty _ _ _ _ _ R)).
    destruct Em as [|x Em]; cbn [head default]; [right; split; [done|]; intros q; rewrite HE; apply not_elem_of_nil|left; apply HE; by left].
  - destruct (proj1 (heap_bit s W U Fs Em r I R ltac:(change PSSET_NPSIZES with 64; lia)) (Hr3 ltac:(lia))) as (p0 & Hp0).
    destruct (heap_first_ok s W U r p0 I) as (p & s' & E & D' & I' & Hp); [change PSSET_NPSIZES with 64; lia|done|].
    exists p, s'. split_and!; [done..|]. left. exists r. split_and!; [done| |done].
    apply (class_enough m r n); [done| |done..|lia]. exact (serves_class _ _ _ _ _ I Hp).
Qed.

(** ** Slabs to purge *)

Definition purgeable (s : psset_mem) (X : gset Z) (p i : Z) : Prop :=
  p ∈ X ∧ ∃ d, ps_data s !! p = Some d ∧ h_purge_allowed d = true ∧ psset_purge_list_ind T d = Done i.

Lemma purgeable_list s X p i :
  purgeable s X p i ↔ p ∈ flagged h_purge_allowed (ps_data s) X ∧ purge_ind T (ps_data s) p = Some i.
Proof.
  unfold purgeable, purge_ind. rewrite elem_of_flagged. split.
  - intros (Hp & d & Ed & Ha & Ei). rewrite Ed. simpl. by rewrite Ei, Ha.
  - intros [[Hp Ha] Hi]. split; [done|]. destruct (ps_data s !! p) as [d|] eqn:Ed; [|done]. simpl in *. simplify_eq.
    exists d. split_and!; [done..|]. by destruct (psset_purge_list_ind T d); simplify_eq.
Qed.

(** The lists in order: slabs in use by how dirty they are, then the empty ones, the huge ones last. *)
Lemma purge_class d i :
  slab_ok d → h_purge_allowed d = true → psset_purge_list_ind T d = Done i →
  if decide (h_nactive d = 0) then i = if h_huge d then 127 else 126
  else ∃ j, i = 2 * j + (if h_huge d then 0 else 1) ∧ 0 ≤ j ≤ 32 ∧
            psize T j ≤ (h_ntouched d - h_nactive d) * PAGE < psize T (j + 1).
Proof.
  intros [H1 H2 H3 H4] Ha E. specialize (H4 Ha). rewrite hugepage_pages in H2.
  unfold psset_purge_list_ind, hpdata_nactive_get, hpdata_ndirty_get in E.
  destruct (decide (h_nactive d = 0)) as [E0|E0].
  - rewrite (proj2 (Z.eqb_eq _ _) E0) in E. by destruct (h_huge d); simplify_eq.
  - rewrite (proj2 (Z.eqb_neq _ _) E0), u64_small in E by (unfold is_u64; lia).
    destruct (pages_pind_ok T (h_ntouched d - h_nactive d)) as (j & Ej & Hj & Hb); [rewrite hugepage_pages; lia|].
    rewrite Ej in E. cbn [mbind outcome_bind] in E. exists j. split; [|done].
    rewrite u64_small in E by (unfold is_u64; destruct (h_huge d); lia). injection E as <-. lia.
Qed.

Lemma purgeable_class s W U p i :
  psset_inv T s W U → purgeable s (W ∖ U) p i → 0 ≤ i < 128.
Proof.
  intros I (Hp & d & Ed & Ha & Ei). destruct (pi_ok _ _ _ _ I p d Hp Ed) as [Hok _].
  pose proof (purge_class d i Hok Ha Ei) as H. destruct (decide (h_nactive d = 0)).
  - destruct (h_huge d); lia.
  - destruct H as (j & -> & Hj & _). destruct (h_huge d); lia.
Qed.

Lemma list_bit s W U Ls i :
  psset_inv T s W U → purge_rep (purge_ind T (ps_data s)) (flagged h_purge_allowed (ps_data s) (W ∖ U)) Ls (purge_of s) →
  0 ≤ i < PSSET_NPURGE_LISTS →
  ∃ L q, Ls !! Z.to_nat i = Some L ∧ to_purge (psset s) !! Z.to_nat i = Some q ∧ q = default 0 (head L) ∧
    fbit (purge_bitmap (psset s)) i = bool_decide (L ≠ []) ∧ ∀ p, p ∈ L ↔ purgeable s (W ∖ U) p i.
Proof.
  intros I R Hi. destruct (ind_lookup _ _ _ _ i R Hi) as (L & q & EL & Eq & [_ Hq]). exists L, q.
  pose proof (ur_bits _ _ _ _ R _ _ EL) as Hb. rewrite Z2Nat.id in Hb by lia. split_and!; [done..|].
  intros p. rewrite purgeable_list, (ur_in _ _ _ _ R _ _ p EL), Z2Nat.id by lia. done.
Qed.

Definition purge_choice (s : psset_mem) (X : gset Z) (p : Z) : Prop :=
  (∃ i, purgeable s X p i ∧ ∀ q j, purgeable s X q j → j ≤ i) ∨ (p = 0 ∧ ∀ q j, ¬ purgeable s X q j).

Lemma psset_pick_purge_ok s W U :
  psset_inv T s W U → ∃ p, psset_pick_purge s = Done (p, s) ∧ purge_choice s (W ∖ U) p.
Proof.
  intros I. destruct (pi_purge _ _ _ _ I) as (Ls & R). unfold psset_pick_purge. erewrite bind_done by reflexivity.
  destruct (fb_fls_ok PSSET_NPURGE_LISTS (purge_bitmap (psset s)) ltac:(done) (ur_bitmap _ _ _ _ R) (PSSET_NPURGE_LISTS - 1))
    as (r & Er & Hr1 & Hr2 & Hr3); [done|].
  erewrite bind_done by (apply liftO_done; exact Er). change (PSSET_NPURGE_LISTS - 1) with 127 in *.
  assert (Hhigh : ∀ q j, purgeable s (W ∖ U) q j → j ≤ r).
  { intros q j Hq. pose proof (purgeable_class _ _ _ _ _ I Hq) as Hj. destruct (decide (j ≤ r)) as [|Hgt]; [done|]. exfalso.
    specialize (Hr2 j ltac:(lia)). destruct (list_bit s W U Ls j I R) as (L & x & _ & _ & _ & Hb & Hin); [change PSSET_NPURGE_LISTS with 128; lia|].
    rewrite Hr2 in Hb. symmetry in Hb. apply bool_decide_eq_false in Hb. apply Hin in Hq. destruct L; [by apply not_elem_of_nil in Hq|by apply Hb]. }
  destruct (Z.ltb_spec r 0).
  - exists 0. split; [done|]. right. split; [done|]. intros q j Hq. pose proof (Hhigh q j Hq). pose proof (purgeable_class _ _ _ _ _ I Hq). lia.
  - destruct (list_bit s W U Ls r I R) as (L & q & EL & Eq & Hq & Hb & Hin); [change PSSET_NPURGE_LISTS with 128; lia|].
    rewrite u32_small by lia. erewrite bind_done by (apply liftO_done; rewrite Eq; reflexivity).
    exists q. split; [done|]. left. exists r. split; [|done]. rewrite Hr3 in Hb by lia.
    symmetry in Hb. apply bool_decide_eq_true in Hb. rewrite Hq. apply Hin. destruct L; [done|by left].
Qed.

Lemma psset_pick_hugify_ok s W U :
  psset_inv T s W U →
  ∃ p, psset_pick_hugify s = Done (p, s) ∧
    (p ∈ flagged h_in_psset_hugify_container (ps_data s) W ∨ (p = 0 ∧ flagged h_in_psset_hugify_container (ps_data s) W = ∅)).
Proof.
  intros I. destruct (pi_hugify _ _ _ _ I) as (Hs & [_ Hq] & Hin). exists (to_hugify (psset s)). split; [done|].
  rewrite Hq. destruct Hs as [|x Hs]; [right|left; apply Hin; by left]. split; [done|]. apply set_eq. intros q.
  rewrite <- Hin. clear. set_solver.
Qed.

(** ** Metadata that is consistent in itself *)

Lemma hp_ok_longest d i :
  hp_ok d → 0 ≤ i < HUGEPAGE_PAGES → fbit (active_pages d) i = false → 1 ≤ h_longest_free_range d ≤ HUGEPAGE_PAGES.
Proof.
  intros H Hi Hf. destruct (ho_longest d H) as [H1 (b & H2 & H3 & H4 & _)]. split; [|lia].
  apply (H1 i 1); [lia..|]. intros j Hj. assert (j = i) as -> by lia. unfold unused. by rewrite Hf.
Qed.

Lemma hp_ok_slab_ok d :
  hp_ok d → (h_purge_allowed d = true → h_nactive d < h_ntouched d) → slab_ok d.
Proof.
  intros H Hp. pose proof (hp_ok_sub d H) as Hs.
  pose proof (npages_where_bounds (fbit (active_pages d))) as Ha. pose proof (npages_where_bounds (fbit (touched_pages d))) as Ht.
  rewrite <- (ho_nactive d H) in Ha. rewrite <- (ho_ntouched d H) in Ht. split; [lia|lia| |done]. intros Hne.
  destruct (decide (Exists (λ i, fbit (active_pages d) i = false) (seqZ 0 HUGEPAGE_PAGES)))
    as [(i & Hi%elem_of_seqZ & Hf)%list.Exists_exists|Hno].
  { apply (hp_ok_longest d i); [done|lia|done]. }
  destruct Hne. rewrite (ho_nactive d H). apply npages_where_all. intros i Hi.
  destruct (fbit (active_pages d) i) eqn:E; [done|]. destruct Hno. apply list.Exists_exists. exists i. rewrite elem_of_seqZ. split; [lia|done].
Qed.
End pick.
