(* ===== verification/PssetTheorems.v ===== *)
(** * What a page slab set promises

    Histories of a set: slabs enter and leave it, are taken out for an update, change while they
    are out, come back, and are looked for.  Along every history in which the caller keeps to
    the protocol no operation fails, the statistics are exact and the slabs found are the right
    ones. *)
From stdpp Require Import base list gmap numbers.
From S2P Require Import Prelude BitUtil SizeClass Sz SzTheorems Fb FbFacts FbTheorems Hpdata HpdataTheorems Ph PhFacts PhOps PhHeap Ql Psset PssetSizes PssetFacts PssetLists PssetInv PssetOps PssetPick.

Inductive psset_event : Type :=
| EvInsert (p : Z)
| EvRemove (p : Z)
| EvBegin (p : Z)
| EvEnd (p : Z)
| EvWrite (p : Z) (d : hpdata_t)
| EvPickAlloc (n : Z)
| EvPickPurge
| EvPickHugify.

Section history.
Context (T : sz_tables).

(** The result is the slab that is picked, 0 for the other events. *)
Definition psset_exec (ev : psset_event) : M psset_mem Z :=
  match ev with
  | EvInsert p => psset_insert T p;; mret 0
  | EvRemove p => psset_remove T p;; mret 0
  | EvBegin p => psset_update_begin T p;; mret 0
  | EvEnd p => psset_update_end T p;; mret 0
  | EvWrite p d => modify (λ s, put_data (<[p:=d]> (ps_data s)) s);; mret 0
  | EvPickAlloc n => psset_pick_alloc T (n * PAGE)
  | EvPickPurge => psset_pick_purge
  | EvPickHugify => psset_pick_hugify
  end.

(** The protocol, for a set of the slabs [W] of which those in [U] are being updated. *)
Definition psset_legal (s : psset_mem) (W U : gset Z) (ev : psset_event) : Prop :=
  match ev with
  | EvInsert p => p ∉ W ∧ p ≠ 0 ∧ ∃ d, ps_data s !! p = Some d ∧ slab_ok d ∧
      h_in_psset_alloc_container d = false ∧ h_in_psset_hugify_container d = false
  | EvRemove p | EvBegin p => p ∈ W ∖ U
  | EvEnd p => p ∈ U ∧ ∃ d, ps_data s !! p = Some d ∧ slab_ok d
  | EvWrite p d => p ∉ W ∨ (p ∈ U ∧ h_in_psset_alloc_container d = false ∧
      ∃ d0, ps_data s !! p = Some d0 ∧ h_in_psset_hugify_container d = h_in_psset_hugify_container d0)
  | EvPickAlloc n => 1 ≤ n ≤ HUGEPAGE_PAGES
  | EvPickPurge | EvPickHugify => True
  end.

Definition slabs_after (W : gset Z) (ev : psset_event) : gset Z :=
  match ev with EvInsert p => {[p]} ∪ W | EvRemove p => W ∖ {[p]} | _ => W end.
Definition updating_after (U : gset Z) (ev : psset_event) : gset Z :=
  match ev with EvBegin p => {[p]} ∪ U | EvEnd p => U ∖ {[p]} | _ => U end.

(** What an event does to the metadata of the slabs. *)
Definition metadata_after (D : gmap Z hpdata_t) (ev : psset_event) : gmap Z hpdata_t :=
  match ev with
  | EvInsert p => alter inserted p D
  | EvRemove p => alter removed p D
  | EvBegin p => alter begun p D
  | EvEnd p => alter ended p D
  | EvWrite p d => <[p:=d]> D
  | _ => D
  end.

Inductive psset_reach : psset_mem → gset Z → gset Z → Prop :=
| psset_reach_new D ages r1 r2 r3 bm pm ps :
    Z.of_nat (length bm) = FB_NGROUPS PSSET_NPSIZES → Z.of_nat (length pm) = FB_NGROUPS PSSET_NPURGE_LISTS →
    psset_init bm pm = Done ps → psset_reach (mkMem D ages r1 r2 r3 ps) ∅ ∅
| psset_reach_step s W U ev r s' :
    psset_reach s W U → psset_legal s W U ev → psset_exec ev s = Done (r, s') →
    psset_reach s' (slabs_after W ev) (updating_after U ev).

Context `{!SzReady T}.

Lemma psset_step_ok s W U ev :
  psset_inv T s W U → psset_legal s W U ev →
  ∃ r s', psset_exec ev s = Done (r, s') ∧ ps_data s' = metadata_after (ps_data s) ev ∧
    psset_inv T s' (slabs_after W ev) (updating_after U ev).
Proof.
  assert (Halter : ∀ (D : gmap Z hpdata_t) p (f : hpdata_t → hpdata_t) d, D !! p = Some d → <[p:=f d]> D = alter f p D).
  { intros D p f d Ed. apply map_eq. intros q. destruct (decide (q = p)) as [->|].
    - by rewrite lookup_insert_eq, lookup_alter_eq, Ed.
    - by rewrite lookup_insert_ne, lookup_alter_ne. }
  assert (Hret : ∀ (m : M psset_mem unit) s', m s = Done (tt, s') → (m;; mret 0) s = Done (0, s')) by (intros m s' E; by erewrite bind_done).
  intros I HL. destruct ev as [p|p|p|p|p d|n| |]; cbn [psset_exec slabs_after updating_after metadata_after psset_legal] in *.
  - destruct HL as (HW & Hp & d & Ed & Hok & H1 & H2).
    destruct (psset_insert_ok T s W U p d I HW Hp Ed Hok H1 H2) as (s' & E & D' & I').
    exists 0, s'. by rewrite (Hret _ _ E), D', (Halter _ _ _ _ Ed).
  - destruct (pi_known _ _ _ _ I p) as [_ [d Ed]]; [clear -HL; set_solver|].
    destruct (psset_remove_ok T s W U p d I HL Ed) as (s' & E & D' & I'). exists 0, s'. by rewrite (Hret _ _ E), D', (Halter _ _ _ _ Ed).
  - destruct (pi_known _ _ _ _ I p) as [_ [d Ed]]; [clear -HL; set_solver|].
    destruct (psset_update_begin_ok T s W U p d I HL Ed) as (s' & E & D' & I'). exists 0, s'. by rewrite (Hret _ _ E), D', (Halter _ _ _ _ Ed).
  - destruct HL as (HU & d & Ed & Hok).
    destruct (psset_update_end_ok T s W U p d I HU Ed Hok) as (s' & E & D' & I'). exists 0, s'. by rewrite (Hret _ _ E), D', (Halter _ _ _ _ Ed).
  - eexists 0, _. split; [reflexivity|]. split; [done|]. destruct HL as [HW|(HU & H1 & d0 & Ed & H2)].
    + by apply outside_ok.
    + by eapply change_ok.
  - destruct (psset_pick_alloc_ok T s W U n I HL) as (p & s' & E & D' & I' & _). by exists p, s'.
  - destruct (psset_pick_purge_ok T s W U I) as (p & E & _). by exists p, s.
  - destruct (psset_pick_hugify_ok T s W U I) as (p & E & _). by exists p, s.
Qed.

Lemma psset_reach_inv s W U : psset_reach s W U → psset_inv T s W U.
Proof.
  induction 1 as [D ages r1 r2 r3 bm pm ps Hb Hp E|s W U ev r s' _ IH HL E].
  - destruct (psset_init_ok T D ages r1 r2 r3 bm pm Hb Hp) as (ps' & E' & I). rewrite E in E'. by injection E' as <-.
  - destruct (psset_step_ok s W U ev IH HL) as (r' & s'' & E' & _ & I). rewrite E in E'. by injection E' as <- <-.
Qed.

(** ** The claims *)

(** C34: along every history of a page slab set that keeps to the protocol, the next event that
    does returns, [psset_insert], [psset_remove], [psset_update_begin] and [psset_update_end] included, and changes no
    metadata but the flags of the slab it is about. *)
Theorem psset_never_fails s W U ev :
  psset_reach s W U → psset_legal s W U ev →
  ∃ r s', psset_exec ev s = Done (r, s') ∧ ps_data s' = metadata_after (ps_data s) ev ∧
    psset_reach s' (slabs_after W ev) (updating_after U ev).
Proof.
  intros Hr HL. destruct (psset_step_ok s W U ev (psset_reach_inv s W U Hr) HL) as (r & s' & E & D' & _).
  exists r, s'. split_and!; [done..|]. by eapply psset_reach_step.
Qed.

(** C36: the statistics of a set are, after every history, the numbers of slabs, of active and of dirty
    pages of the slabs in it that are not being updated, for all of them and for every bin. *)
Theorem psset_stats_exact s W U :
  psset_reach s W U →
  psset_npageslabs (psset s) = u64 (total (λ _, 1) (λ _, true) (ps_data s) (W ∖ U)) ∧
  psset_nactive (psset s) = u64 (total h_nactive (λ _, true) (ps_data s) (W ∖ U)) ∧
  psset_ndirty (psset s) = u64 (total hpdata_ndirty_get (λ _, true) (ps_data s) (W ∖ U)) ∧
  ∀ b huge x, stat_at (stats (psset s)) b huge = Some x → bin_is (in_bin T b huge) (ps_data s) (W ∖ U) x.
Proof.
  intros Hr. destruct (pi_stats _ _ _ _ (psset_reach_inv s W U Hr)) as [_ (H1 & H2 & H3) H4].
  split_and!; [exact H1|exact H2|exact H3|exact H4].
Qed.

(** C35: [psset_pick_alloc] finds, for a request of [n] pages, a slab of the least class that has room
    and whose longest free range has [n] pages; else a slab that is empty; and none only if there is neither. *)
Theorem psset_pick_alloc_best_fit s W U n :
  psset_reach s W U → 1 ≤ n ≤ HUGEPAGE_PAGES →
  ∃ p s', psset_pick_alloc T (n * PAGE) s = Done (p, s') ∧ ps_data s' = ps_data s ∧
    alloc_choice T s (W ∖ U) n p ∧
    (p ≠ 0 → ∃ d, ps_data s !! p = Some d ∧ h_alloc_allowed d = true ∧ (h_nactive d = 0 ∨ n ≤ h_longest_free_range d)).
Proof.
  intros Hr Hn. pose proof (psset_reach_inv s W U Hr) as I.
  destruct (psset_pick_alloc_ok T s W U n I Hn) as (p & s' & E & D' & _ & Hc).
  exists p, s'. split_and!; [done..|]. intros Hp. destruct Hc as [(i & (HX & d & Ed & Ha & Eb) & Hs & _)|[_ [(HX & d & Ed & Ha & Eb)|[? _]]]]; [..|done].
  - exists d. split_and!; [done..|]. right. destruct (pi_ok _ _ _ _ I p d HX Ed) as [Hok _].
    pose proof (nonfull_class T d i Hok Eb). change PAGE with 4096 in *. lia.
  - exists d. split_and!; [done..|]. left. unfold slab_bin, hpdata_empty in Eb.
    destruct (Z.eqb_spec (h_nactive d) 0); [done|]. destruct (hpdata_full d); [done|].
    by destruct (pages_pind T (hpdata_longest_free_range_get d)).
Qed.

(** [psset_pick_purge] returns a slab of the highest non-empty list of slabs that may be purged, and none
    only if there is no such slab: an empty slab if any may be purged, else one whose dirty pages are of the
    largest class. *)
Theorem psset_pick_purge_dirtiest s W U :
  psset_reach s W U →
  ∃ p, psset_pick_purge s = Done (p, s) ∧ purge_choice T s (W ∖ U) p ∧
    ∀ d q dq, ps_data s !! p = Some d → p ≠ 0 → q ∈ W ∖ U → ps_data s !! q = Some dq → h_purge_allowed dq = true →
      (h_nactive dq = 0 → h_nactive d = 0) ∧
      (h_nactive d ≠ 0 → ∃ j, psize T j ≤ (h_ntouched d - h_nactive d) * PAGE ∧ (h_ntouched dq - h_nactive dq) * PAGE < psize T (j + 1)).
Proof.
  intros Hr. pose proof (psset_reach_inv s W U Hr) as I. destruct (psset_pick_purge_ok T s W U I) as (p & E & Hc).
  exists p. split_and!; [done..|]. intros d q dq Ed Hp0 Hq Edq Haq.
  destruct Hc as [(i & (HX & d' & Ed' & Ha & Ei) & Hmax)|[? _]]; [|done]. rewrite Ed in Ed'. injection Ed' as <-.
  destruct (pi_ok _ _ _ _ I p d HX Ed) as [Hok _]. destruct (pi_ok _ _ _ _ I q dq Hq Edq) as [Hokq _].
  destruct (slab_ok_purge_filed T dq Hokq Haq) as (iq & Eiq & _). specialize (Hmax q iq ltac:(split; [done|by exists dq])).
  pose proof (purge_class T d i Hok Ha Ei) as Hi. pose proof (purge_class T dq iq Hokq Haq Eiq) as Hiq.
  destruct (decide (h_nactive d = 0)), (decide (h_nactive dq = 0)); [done|done| |].
  - destruct Hi as (j & -> & Hj & _). destruct (h_huge d), (h_huge dq); lia.
  - split; [done|]. intros _. destruct Hi as (j & -> & Hj & Hs). destruct Hiq as (jq & -> & Hjq & Hsq).
    exists j. split; [lia|]. destruct (decide (jq = j)) as [->|]; [lia|].
    pose proof (psize_mono T (jq + 1) (j + 1)). assert (SC_NPSIZES > 34) by done. destruct (h_huge d), (h_huge dq); lia.
Qed.
End history.

(** ** An example

    A set with one slab of which three pages are in use and five are touched. *)
Module PssetExample.
Definition T : sz_tables := booted false.
Definition one : hpdata_t :=
  mkHpdata (2 ^ 21) 7 false true false true false 0 false false false false false 509 3 [] 5 [].
Definition mem0 : psset_mem :=
  mkMem {[64 := one]} ∅ ∅ ∅ ∅ (match psset_init [0] [0; 0] with Done p => p | Fault _ => mkPsset [] [] no_bin (mkStats [] (no_bin, no_bin) (no_bin, no_bin)) 0 [] [] 0 end).
Definition mem1 : psset_mem := match psset_exec T (EvInsert 64) mem0 with Done (_, s) => s | Fault _ => mem0 end.

Lemma one_ok : slab_ok one.
Proof. split; cbn [one h_nactive h_ntouched h_longest_free_range h_purge_allowed]; rewrite ?hugepage_pages; lia. Qed.

Lemma reach0 : psset_reach T mem0 ∅ ∅.
Proof. eapply (psset_reach_new T {[64 := one]} ∅ ∅ ∅ ∅ [0] [0; 0]); vm_compute; reflexivity. Qed.

Lemma legal0 : psset_legal mem0 ∅ ∅ (EvInsert 64).
Proof. split; [apply not_elem_of_empty|]. split; [lia|]. exists one. split_and!; [by apply lookup_singleton_eq|apply one_ok|done|done]. Qed.

Lemma reach1 : psset_reach T mem1 ({[64]} ∪ ∅) ∅.
Proof. apply (psset_reach_step T mem0 ∅ ∅ (EvInsert 64) 0 mem1 reach0 legal0). vm_compute. reflexivity. Qed.
End PssetExample.

Lemma psset_never_fails_witness :
  ∃ r s', psset_exec PssetExample.T (EvBegin 64) PssetExample.mem1 = Done (r, s') ∧
    psset_reach PssetExample.T s' ({[64]} ∪ ∅) ({[64]} ∪ ∅).
Proof.
  destruct (psset_never_fails PssetExample.T PssetExample.mem1 ({[64]} ∪ ∅) ∅ (EvBegin 64) PssetExample.reach1) as (r & s' & E & _ & R).
  - cbn [psset_legal]. set_solver.
  - exists r, s'. exact (conj E R).
Defined.

Lemma psset_stats_exact_witness :
  psset_nactive (psset PssetExample.mem1) = 3 ∧ psset_ndirty (psset PssetExample.mem1) = 2.
Proof.
  destruct (psset_stats_exact PssetExample.T PssetExample.mem1 ({[64]} ∪ ∅) ∅ PssetExample.reach1) as (_ & H2 & H3 & _).
  rewrite H2, H3. vm_compute. split; reflexivity.
Defined.

Lemma psset_pick_alloc_best_fit_witness :
  ∃ p s', psset_pick_alloc PssetExample.T (100 * PAGE) PssetExample.mem1 = Done (p, s') ∧
    alloc_choice PssetExample.T PssetExample.mem1 (({[64]} ∪ ∅) ∖ ∅) 100 p.
Proof.
  destruct (psset_pick_alloc_best_fit PssetExample.T PssetExample.mem1 ({[64]} ∪ ∅) ∅ 100 PssetExample.reach1) as (p & s' & E & _ & H & _).
  - rewrite hugepage_pages. lia.
  - exists p, s'. exact (conj E H).
Defined.

Lemma psset_pick_purge_dirtiest_witness :
  ∃ p, psset_pick_purge PssetExample.mem1 = Done (p, PssetExample.mem1) ∧
    purge_choice PssetExample.T PssetExample.mem1 (({[64]} ∪ ∅) ∖ ∅) p.
Proof.
  destruct (psset_pick_purge_dirtiest PssetExample.T PssetExample.mem1 ({[64]} ∪ ∅) ∅ PssetExample.reach1) as (p & E & H & _).
  exists p. exact (conj E H).
Defined.
