(* ===== verification/Hpa.v ===== *)
(** * The huge page allocator, [jemalloc/src/hpa.c] and [hpa.h]

    A shard serves extents of whole pages from page slabs, which it gets one by one from the
    central allocator and keeps in a page slab set ([Psset]).  Dirty pages are purged and
    full slabs are made huge later on, by deferred work.

    The mutexes are not modelled.  A function that gives up the shard's mutex in the middle
    ([hpa_try_purge], [hpa_try_hugify]) is the composition of the sections that hold it, which are
    definitions of their own: between them other threads run.

    What the shard calls outside is a parameter: the answers are lists in the state, one for
    each function, and calls with an effect are appended to a trace.  Lists of extents, which
    [Ql] shows to be sequences, are sequences. *)
From stdpp Require Import base list gmap numbers.
From S2P Require Import Prelude BitUtil SizeClass Sz Fb Hpdata Edata Ph Ql Psset.

(** ** Fixed-point numbers, [fxp.h] *)

Definition fxp_mul_frac (x_orig frac : Z) : Z :=
  if x_orig <? Z.shiftl 1 48 then Z.shiftr (u64 (x_orig * frac)) 16
  else u64 (Z.shiftr x_orig 16 * frac).

(** ** State *)

Record hpa_shard_opts_t : Type := mkOpts {
  slab_max_alloc : Z;
  hugification_threshold : Z;
  dirty_mult : Z;
  deferral_allowed : bool;
  hugify_delay_ms : Z;
  min_purge_interval_ms : Z
}.

Record hpa_shard_nonderived_stats_t : Type := mkNonderived {
  npurge_passes : Z;
  npurges : Z;
  nhugifies : Z;
  ndehugifies : Z
}.

Record hpa_shard_stats_t : Type := mkShardStats {
  psset_stats : psset_stats_t;
  nonderived_stats : hpa_shard_nonderived_stats_t
}.

Record hpa_central_t : Type := mkCentral {
  eden : Z;
  eden_len : Z;
  central_age_counter : Z
}.

(** Calls that leave the shard and change something there. *)
Inductive hpa_call : Type :=
| CallPurge (addr size : Z)
| CallHugify (addr size : Z)
| CallDehugify (addr size : Z)
| CallUnmap (addr size : Z)
| CallPagesUnmap (addr size : Z)
| CallRegister (edata : Z)
| CallDeregister (edata : Z)
| CallEdataPut (edata : Z)
| CallEdataDisable.

(** What outside code answers: [edata_cache_fast_get], [emap_register_boundary], [base_alloc], [pages_map] and the
    hooks [curtime] and [ms_since].  A list that has run out answers 0, which is [NULL], and false. *)
Record hpa_answers : Type := mkAnswers {
  an_edata : list Z;
  an_emap : list bool;
  an_base : list Z;
  an_map : list Z;
  an_time : list Z;
  an_ms : list Z
}.

Record hpa_mem : Type := mkHpa {
  slabs : psset_mem;
  edatas : gmap Z edata_t;
  central : hpa_central_t;
  age_counter : Z;
  ind : Z;
  opts : hpa_shard_opts_t;
  npending_purge : Z;
  shard_stats : hpa_shard_nonderived_stats_t;
  last_purge : Z;
  answers : hpa_answers;
  calls : list hpa_call
}.

(** Assignments to single members. *)
Definition set_slabs (v : psset_mem) (s : hpa_mem) : hpa_mem :=
  mkHpa v (edatas s) (central s) (age_counter s) (ind s) (opts s) (npending_purge s) (shard_stats s) (last_purge s) (answers s) (calls s).
Definition set_edatas (v : gmap Z edata_t) (s : hpa_mem) : hpa_mem :=
  mkHpa (slabs s) v (central s) (age_counter s) (ind s) (opts s) (npending_purge s) (shard_stats s) (last_purge s) (answers s) (calls s).
Definition set_central (v : hpa_central_t) (s : hpa_mem) : hpa_mem :=
  mkHpa (slabs s) (edatas s) v (age_counter s) (ind s) (opts s) (npending_purge s) (shard_stats s) (last_purge s) (answers s) (calls s).
Definition set_age_counter (v : Z) (s : hpa_mem) : hpa_mem :=
  mkHpa (slabs s) (edatas s) (central s) v (ind s) (opts s) (npending_purge s) (shard_stats s) (last_purge s) (answers s) (calls s).
Definition set_opts (v : hpa_shard_opts_t) (s : hpa_mem) : hpa_mem :=
  mkHpa (slabs s) (edatas s) (central s) (age_counter s) (ind s) v (npending_purge s) (shard_stats s) (last_purge s) (answers s) (calls s).
Definition set_npending_purge (v : Z) (s : hpa_mem) : hpa_mem :=
  mkHpa (slabs s) (edatas s) (central s) (age_counter s) (ind s) (opts s) v (shard_stats s) (last_purge s) (answers s) (calls s).
Definition set_shard_stats (v : hpa_shard_nonderived_stats_t) (s : hpa_mem) : hpa_mem :=
  mkHpa (slabs s) (edatas s) (central s) (age_counter s) (ind s) (opts s) (npending_purge s) v (last_purge s) (answers s) (calls s).
Definition set_last_purge (v : Z) (s : hpa_mem) : hpa_mem :=
  mkHpa (slabs s) (edatas s) (central s) (age_counter s) (ind s) (opts s) (npending_purge s) (shard_stats s) v (answers s) (calls s).
Definition set_answers (v : hpa_answers) (s : hpa_mem) : hpa_mem :=
  mkHpa (slabs s) (edatas s) (central s) (age_counter s) (ind s) (opts s) (npending_purge s) (shard_stats s) (last_purge s) v (calls s).
Definition add_call (c : hpa_call) (s : hpa_mem) : hpa_mem :=
  mkHpa (slabs s) (edatas s) (central s) (age_counter s) (ind s) (opts s) (npending_purge s) (shard_stats s) (last_purge s) (answers s) (calls s ++ [c]).

Definition on_psset {A} (m : M psset_mem A) : M hpa_mem A := zoom slabs set_slabs m.
Definition call (c : hpa_call) : M hpa_mem unit := modify (add_call c).

(** The next answer. *)
Definition ask_edata : M hpa_mem Z := λ s,
  let a := answers s in
  Done (default 0 (head (an_edata a)),
        set_answers (mkAnswers (tail (an_edata a)) (an_emap a) (an_base a) (an_map a) (an_time a) (an_ms a)) s).
Definition ask_emap : M hpa_mem bool := λ s,
  let a := answers s in
  Done (default false (head (an_emap a)),
        set_answers (mkAnswers (an_edata a) (tail (an_emap a)) (an_base a) (an_map a) (an_time a) (an_ms a)) s).
Definition ask_base : M hpa_mem Z := λ s,
  let a := answers s in
  Done (default 0 (head (an_base a)),
        set_answers (mkAnswers (an_edata a) (an_emap a) (tail (an_base a)) (an_map a) (an_time a) (an_ms a)) s).
Definition ask_map : M hpa_mem Z := λ s,
  let a := answers s in
  Done (default 0 (head (an_map a)),
        set_answers (mkAnswers (an_edata a) (an_emap a) (an_base a) (tail (an_map a)) (an_time a) (an_ms a)) s).
Definition ask_time : M hpa_mem Z := λ s,
  let a := answers s in
  Done (default 0 (head (an_time a)),
        set_answers (mkAnswers (an_edata a) (an_emap a) (an_base a) (an_map a) (tail (an_time a)) (an_ms a)) s).
Definition ask_ms : M hpa_mem Z := λ s,
  let a := answers s in
  Done (default 0 (head (an_ms a)),
        set_answers (mkAnswers (an_edata a) (an_emap a) (an_base a) (an_map a) (an_time a) (tail (an_ms a))) s).

Definition edata_at (e : Z) : M hpa_mem edata_t :=
  s ← get;
  if e =? 0 then throw NullDeref else liftO (edatas s !! e ?? BadPointer).
Definition edata_put (e : Z) (f : edata_t → edata_t) : M hpa_mem unit :=
  d ← edata_at e; modify (λ s, set_edatas (<[e:=f d]> (edatas s)) s).

(** A function of [hpdata.c] that can fault, applied to a slab. *)
Definition slab_update {A} (ps : Z) (f : hpdata_t → outcome (A * hpdata_t)) : M hpa_mem A :=
  d ← on_psset (slab_get ps);
  '(a, d') ← liftO (f d);
  on_psset (slab_set ps (λ _, d'));;
  mret a.

Definition set_age (age : Z) (h : hpdata_t) : hpdata_t :=
  mkHpdata (h_address h) age (h_huge h) (h_alloc_allowed h) (h_in_psset_alloc_container h) (h_purge_allowed h)
    (h_hugify_allowed h) (h_time_hugify_allowed h) (h_in_psset_hugify_container h) (h_mid_purge h) (h_mid_hugify h)
    (h_updating h) (h_in_psset h) (h_longest_free_range h) (h_nactive h) (active_pages h) (h_ntouched h) (touched_pages h).
Definition hpdata_age_set (age : Z) (h : hpdata_t) : hpdata_t := set_age age h.

(** ** The central allocator *)

Definition HPA_EDEN_SIZE : Z := 128 * HUGEPAGE.

Definition hpa_supported (pages_can_hugify : bool) : bool :=
  if negb pages_can_hugify then false
  else if negb (LG_SIZEOF_PTR =? 3) then false
  else if HUGEPAGE_PAGES =? 1 then false
  else true.

(** [mtx_err] and [grow_err]: whether the initialisation of the mutexes fails. *)
Definition hpa_central_init (grow_err mtx_err : bool) (c : hpa_central_t) : bool * hpa_central_t :=
  if grow_err then (true, c) else if mtx_err then (true, c) else (false, mkCentral 0 0 0).

Definition hpa_alloc_ps : M hpa_mem Z := ask_base.

(** [hpdata_init(ps, central->eden, central->age_counter++)] *)
Definition init_from_eden (ps : Z) : M hpa_mem unit :=
  s ← get;
  let c := central s in
  slab_update ps (λ d, d' ← hpdata_init d (eden c) (central_age_counter c); Done (tt, d'));;
  modify (set_central (mkCentral (eden c) (eden_len c) (u64 (central_age_counter c + 1)))).

(** Memory for a descriptor and, if there is none, a new eden; 0 if either fails. *)
Definition slab_for_split : M hpa_mem Z :=
  s ← get;
  if eden (central s) =? 0 then
    new_eden ← ask_map;
    if new_eden =? 0 then mret 0
    else
      ps ← hpa_alloc_ps;
      if ps =? 0 then call (CallPagesUnmap new_eden HPA_EDEN_SIZE);; mret 0
      else
        modify (λ s, set_central (mkCentral new_eden HPA_EDEN_SIZE (central_age_counter (central s))) s);;
        mret ps
  else hpa_alloc_ps.

(** The slab, 0 if there is none, and whether the system is out of memory. *)
Definition hpa_central_extract (size : Z) : M hpa_mem (Z * bool) :=
  s ← get;
  if negb (eden (central s) =? 0) && (eden_len (central s) =? HUGEPAGE) then
    ps ← hpa_alloc_ps;
    if ps =? 0 then mret (0, true)
    else
      init_from_eden ps;;
      modify (λ s, set_central (mkCentral 0 0 (central_age_counter (central s))) s);;
      mret (ps, false)
  else
    ps ← slab_for_split;
    if ps =? 0 then mret (0, true)
    else
      init_from_eden ps;;
      modify (λ s, let c := central s in
                set_central (mkCentral (u64 (eden c + HUGEPAGE)) (u64 (eden_len c - HUGEPAGE)) (central_age_counter c)) s);;
      mret (ps, false).

(** ** Initialisation and statistics of a shard *)

(** [bitmap] and [purge] are the bitmaps of the page slab set as found in memory. *)
Definition hpa_shard_init (grow_err mtx_err : bool) (bitmap purge : list Z) (shard_ind : Z) (o : hpa_shard_opts_t) : M hpa_mem bool :=
  if grow_err then mret true else if mtx_err then mret true
  else
    p ← liftO (psset_init bitmap purge);
    modify (λ s, mkHpa (with_psset (λ _, p) (slabs s)) (edatas s) (central s) 0 shard_ind o 0 (mkNonderived 0 0 0 0) 0 (answers s) (calls s));;
    mret false.

Definition hpa_shard_nonderived_stats_accum (dst src : hpa_shard_nonderived_stats_t) : hpa_shard_nonderived_stats_t :=
  mkNonderived (u64 (npurge_passes dst + npurge_passes src)) (u64 (npurges dst + npurges src))
    (u64 (nhugifies dst + nhugifies src)) (u64 (ndehugifies dst + ndehugifies src)).

Definition hpa_shard_stats_accum (dst src : hpa_shard_stats_t) : hpa_shard_stats_t :=
  mkShardStats (psset_stats_accum (psset_stats dst) (psset_stats src))
    (hpa_shard_nonderived_stats_accum (nonderived_stats dst) (nonderived_stats src)).

Definition hpa_shard_stats_merge (s : hpa_mem) (dst : hpa_shard_stats_t) : hpa_shard_stats_t :=
  mkShardStats (psset_stats_accum (psset_stats dst) (stats (psset (slabs s))))
    (hpa_shard_nonderived_stats_accum (nonderived_stats dst) (shard_stats s)).

(** ** What to purge and to hugify *)

Definition hpa_good_hugification_candidate (s : hpa_mem) (d : hpdata_t) : bool :=
  hugification_threshold (opts s) <=? u64 (hpdata_nactive_get d * PAGE).

Definition hpa_adjusted_ndirty (s : hpa_mem) : Z := u64 (psset_ndirty (psset (slabs s)) - npending_purge s).

Definition hpa_ndirty_max (s : hpa_mem) : Z :=
  if dirty_mult (opts s) =? 2 ^ 32 - 1 then 2 ^ 64 - 1
  else fxp_mul_frac (psset_nactive (psset (slabs s))) (dirty_mult (opts s)).

Definition hpa_hugify_blocked_by_ndirty : M hpa_mem bool :=
  to_hugify ← on_psset psset_pick_hugify;
  if to_hugify =? 0 then mret false
  else
    s ← get;
    d ← on_psset (slab_get to_hugify);
    mret (hpa_ndirty_max s <? u64 (hpa_adjusted_ndirty s + hpdata_nretained_get d)).

Definition hpa_should_purge : M hpa_mem bool :=
  s ← get;
  if hpa_ndirty_max s <? hpa_adjusted_ndirty s then mret true
  else
    b ← hpa_hugify_blocked_by_ndirty;
    if b : bool then mret true else mret false.

(** [hpa_update_purge_hugify_eligibility], with the time of [curtime]. *)
Definition eligibility (s : hpa_mem) (now : Z) (d : hpdata_t) : hpdata_t :=
  let d := hpdata_purge_allowed_set (0 <? hpdata_ndirty_get d) d in
  let d := if hpa_good_hugification_candidate s d && negb (h_huge d) then hpdata_allow_hugify now d else d in
  if hpdata_nactive_get d =? 0 then hpdata_disallow_hugify d else d.

Definition hpa_update_purge_hugify_eligibility (ps : Z) : M hpa_mem unit :=
  d ← on_psset (slab_get ps);
  if hpdata_changing_state_get d then
    on_psset (slab_set ps (hpdata_purge_allowed_set false));;
    on_psset (slab_set ps hpdata_disallow_hugify)
  else
    s ← get;
    now ← (if hpa_good_hugification_candidate s d && negb (h_huge d) then ask_time else mret 0);
    on_psset (slab_set ps (eligibility s now)).

Definition hpa_shard_has_deferred_work : M hpa_mem bool :=
  to_hugify ← on_psset psset_pick_hugify;
  if negb (to_hugify =? 0) then mret true else hpa_should_purge.

Section ops.
Context (T : sz_tables).

(** ** Purging *)

(** A pass over a slab that is under way: what [hpa_try_purge] keeps in local variables. *)
Record purge_pass : Type := mkPass {
  pass_slab : Z;
  pass_dehugify : bool;
  pass_num : Z;
  pass_state : hpdata_purge_state_t
}.

(** Up to where the mutex is given up.  [scratch] and [mem] are the arrays of [hpdata_purge_begin]. *)
Definition try_purge_begin (scratch mem : list Z) : M hpa_mem (option purge_pass) :=
  to_purge ← on_psset psset_pick_purge;
  if to_purge =? 0 then mret None
  else
    on_psset (psset_update_begin T to_purge);;
    on_psset (slab_set to_purge (hpdata_mid_purge_set true));;
    on_psset (slab_set to_purge (hpdata_purge_allowed_set false));;
    on_psset (slab_set to_purge hpdata_disallow_hugify);;
    on_psset (slab_set to_purge (hpdata_alloc_allowed_set false));;
    on_psset (psset_update_end T to_purge);;
    d ← on_psset (slab_get to_purge);
    '(num_to_purge, purge_state) ← liftO (hpdata_purge_begin d scratch mem);
    modify (λ s, set_npending_purge (u64 (npending_purge s + num_to_purge)) s);;
    mret (Some (mkPass to_purge (h_huge d) num_to_purge purge_state)).

(** One round of the loop that purges, without the mutex: the pass from there on, nothing at the end. *)
Definition purge_one (pp : purge_pass) : M hpa_mem (option purge_pass) :=
  d ← on_psset (slab_get (pass_slab pp));
  r ← liftO (hpdata_purge_next d (pass_state pp));
  match r with
  | None => mret None
  | Some (purge_addr, purge_size, purge_state) =>
      call (CallPurge purge_addr purge_size);;
      mret (Some (mkPass (pass_slab pp) (pass_dehugify pp) (pass_num pp) purge_state))
  end.

(** The loop: the purge state at its end and the number of calls. *)
Fixpoint purge_loop (fuel : nat) (pp : purge_pass) (purges_this_pass : Z) : M hpa_mem (hpdata_purge_state_t * Z) :=
  r ← purge_one pp;
  match r with
  | None => mret (pass_state pp, purges_this_pass)
  | Some pp =>
      match fuel with
      | O => throw Diverges
      | S fuel => purge_loop fuel pp (u64 (purges_this_pass + 1))
      end
  end.

Definition try_purge_unlocked (pp : purge_pass) : M hpa_mem (hpdata_purge_state_t * Z) :=
  d ← on_psset (slab_get (pass_slab pp));
  (if pass_dehugify pp then call (CallDehugify (hpdata_addr_get d) HUGEPAGE) else mret tt);;
  purge_loop (Z.to_nat HUGEPAGE_PAGES) pp 0.

Definition count_pass (purges : Z) (dehugify : bool) (n : hpa_shard_nonderived_stats_t) : hpa_shard_nonderived_stats_t :=
  mkNonderived (u64 (npurge_passes n + 1)) (u64 (npurges n + purges)) (nhugifies n)
    (if dehugify then u64 (ndehugifies n + 1) else ndehugifies n).

Definition try_purge_end (pp : purge_pass) (purge_state : hpdata_purge_state_t) (purges_this_pass : Z) : M hpa_mem unit :=
  let ps := pass_slab pp in
  modify (λ s, set_npending_purge (u64 (npending_purge s - pass_num pp)) s);;
  modify (λ s, set_shard_stats (count_pass purges_this_pass (pass_dehugify pp) (shard_stats s)) s);;
  now ← ask_time;
  modify (set_last_purge now);;
  on_psset (psset_update_begin T ps);;
  (if pass_dehugify pp then on_psset (slab_set ps hpdata_dehugify) else mret tt);;
  slab_update ps (λ d, '(d', st) ← hpdata_purge_end d purge_state; Done (st, d'));;
  on_psset (slab_set ps (hpdata_mid_purge_set false));;
  on_psset (slab_set ps (hpdata_alloc_allowed_set true));;
  hpa_update_purge_hugify_eligibility ps;;
  on_psset (psset_update_end T ps).

(** The bitmaps of [hpdata_purge_begin] are on the stack; their contents are overwritten. *)
Definition stack_bitmap : list Z := replicate (Z.to_nat (FB_NGROUPS HUGEPAGE_PAGES)) 0.

Definition hpa_try_purge : M hpa_mem bool :=
  pass ← try_purge_begin stack_bitmap stack_bitmap;
  match pass with
  | None => mret false
  | Some pp =>
      '(purge_state, purges) ← try_purge_unlocked pp;
      try_purge_end pp purge_state purges;;
      mret true
  end.

(** ** Making slabs huge *)

(** The slab, 0 if there is nothing to do. *)
Definition try_hugify_begin : M hpa_mem Z :=
  blocked ← hpa_hugify_blocked_by_ndirty;
  if blocked : bool then mret 0
  else
    to_hugify ← on_psset psset_pick_hugify;
    if to_hugify =? 0 then mret 0
    else
      millis ← ask_ms;
      s ← get;
      if millis <? hugify_delay_ms (opts s) then mret 0
      else
        on_psset (psset_update_begin T to_hugify);;
        on_psset (slab_set to_hugify (hpdata_mid_hugify_set true));;
        on_psset (slab_set to_hugify (hpdata_purge_allowed_set false));;
        on_psset (slab_set to_hugify hpdata_disallow_hugify);;
        on_psset (psset_update_end T to_hugify);;
        mret to_hugify.

Definition try_hugify_unlocked (ps : Z) : M hpa_mem unit :=
  d ← on_psset (slab_get ps);
  call (CallHugify (hpdata_addr_get d) HUGEPAGE).

Definition try_hugify_end (ps : Z) : M hpa_mem unit :=
  modify (λ s, let n := shard_stats s in
            set_shard_stats (mkNonderived (npurge_passes n) (npurges n) (u64 (nhugifies n + 1)) (ndehugifies n)) s);;
  on_psset (psset_update_begin T ps);;
  slab_update ps (λ d, d' ← hpdata_hugify d; Done (tt, d'));;
  on_psset (slab_set ps (hpdata_mid_hugify_set false));;
  hpa_update_purge_hugify_eligibility ps;;
  on_psset (psset_update_end T ps).

Definition hpa_try_hugify : M hpa_mem bool :=
  ps ← try_hugify_begin;
  if ps =? 0 then mret false
  else try_hugify_unlocked ps;; try_hugify_end ps;; mret true.

(** ** Deferred work *)

(** The inner loop: [nops] and [purged] at its end. *)
Fixpoint purge_while (fuel : nat) (max_ops nops : Z) (purged : bool) : M hpa_mem (Z * bool) :=
  b ← hpa_should_purge;
  if b && (nops <? max_ops) then
    match fuel with
    | O => throw Diverges
    | S fuel =>
        purged ← hpa_try_purge;
        purge_while fuel max_ops (if purged : bool then u64 (nops + 1) else nops) purged
    end
  else mret (nops, purged).

Fixpoint deferred_loop (fuel : nat) (max_ops nops : Z) : M hpa_mem unit :=
  match fuel with
  | O => throw Diverges
  | S fuel' =>
      '(nops, purged) ← purge_while fuel max_ops nops false;
      hugified ← hpa_try_hugify;
      let nops := if hugified : bool then u64 (nops + 1) else nops in
      if (hugified || purged) && (nops <? max_ops) then deferred_loop fuel' max_ops nops else mret tt
  end.

Definition hpa_shard_maybe_do_deferred_work (fuel : nat) (forced : bool) : M hpa_mem unit :=
  s ← get;
  if negb forced && deferral_allowed (opts s) then mret tt
  else deferred_loop fuel (if forced then 2 ^ 64 - 1 else 16) 0.

Definition hpa_shard_set_deferral_allowed (fuel : nat) (allowed : bool) : M hpa_mem unit :=
  s ← get;
  let o := opts s in
  modify (set_opts (mkOpts (slab_max_alloc o) (hugification_threshold o) (dirty_mult o) allowed (hugify_delay_ms o) (min_purge_interval_ms o)));;
  if deferral_allowed o && negb allowed then hpa_shard_maybe_do_deferred_work fuel true else mret tt.

Definition hpa_shard_do_deferred_work (fuel : nat) : M hpa_mem unit := hpa_shard_maybe_do_deferred_work fuel true.

(** ** Allocation *)

Definition EXTENT_NOT_HEAD : Z := 0.

(** [hpa_try_alloc_one_no_grow] from [psset_update_begin] to [edata_ps_set]. *)
Definition reserve_extent (edata ps size : Z) : M hpa_mem unit :=
  on_psset (psset_update_begin T ps);;
  d ← on_psset (slab_get ps);
  (if hpdata_empty d then
     s ← get;
     on_psset (slab_set ps (hpdata_age_set (age_counter s)));;
     modify (set_age_counter (u64 (age_counter s + 1)))
   else mret tt);;
  addr ← slab_update ps (λ d, hpdata_reserve_alloc d size);
  d ← on_psset (slab_get ps);
  s ← get;
  edata_put edata (edata_init (ind s) addr size false SC_NSIZES (hpdata_age_get d) extent_state_active
                     false true EXTENT_PAI_HPA EXTENT_NOT_HEAD);;
  edata_put edata (edata_ps_set ps).

(** Its end when the extent map has no memory, and when it has. *)
Definition abandon_extent (edata ps : Z) : M hpa_mem unit :=
  e ← edata_at edata;
  slab_update ps (λ d, d' ← hpdata_unreserve d (edata_addr_get e) (edata_size_get e); Done (tt, d'));;
  on_psset (psset_update_end T ps);;
  call (CallEdataPut edata).
Definition commit_extent (edata ps : Z) : M hpa_mem unit :=
  call (CallRegister edata);;
  hpa_update_purge_hugify_eligibility ps;;
  on_psset (psset_update_end T ps).

(** The extent, 0 if there is none, and whether [*oom] is set. *)
Definition hpa_try_alloc_one_no_grow (size : Z) : M hpa_mem (Z * bool) :=
  edata ← ask_edata;
  if edata =? 0 then mret (0, true)
  else
    ps ← on_psset (psset_pick_alloc T size);
    if ps =? 0 then call (CallEdataPut edata);; mret (0, false)
    else
      reserve_extent edata ps size;;
      err ← ask_emap;
      if err : bool then abandon_extent edata ps;; mret (0, true)
      else commit_extent edata ps;; mret (edata, false).

(** At most [n] extents, appended to [results]. *)
Fixpoint alloc_batch_loop (n : nat) (size : Z) (oom : bool) (results : list Z) : M hpa_mem (bool * list Z) :=
  match n with
  | O => mret (oom, results)
  | S n =>
      '(edata, oom') ← hpa_try_alloc_one_no_grow size;
      if edata =? 0 then mret (oom || oom', results)
      else alloc_batch_loop n size (oom || oom') (results ++ [edata])
  end.

(** The results, [oom] and [*deferred_work_generated]; the number of successes is that of the new results. *)
Definition hpa_try_alloc_batch_no_grow (fuel : nat) (size : Z) (oom : bool) (nallocs : Z) (results : list Z) :
    M hpa_mem (list Z * bool * bool) :=
  '(oom, results) ← alloc_batch_loop (Z.to_nat nallocs) size oom results;
  hpa_shard_maybe_do_deferred_work fuel false;;
  deferred ← hpa_shard_has_deferred_work;
  mret (results, oom, deferred).

Definition hpa_alloc_batch_psset (fuel : nat) (size nallocs : Z) (results : list Z) : M hpa_mem (list Z * bool) :=
  let nsuccess r := Z.of_nat (length r) - Z.of_nat (length results) in
  '(r1, oom, deferred) ← hpa_try_alloc_batch_no_grow fuel size false nallocs results;
  if (nsuccess r1 =? nallocs) || oom then mret (r1, deferred)
  else
    '(r2, oom, deferred) ← hpa_try_alloc_batch_no_grow fuel size oom (nallocs - nsuccess r1) r1;
    if (nsuccess r2 =? nallocs) || oom then mret (r2, deferred)
    else
      '(ps, _) ← hpa_central_extract size;
      if ps =? 0 then mret (r2, deferred)
      else
        on_psset (psset_insert T ps);;
        '(r3, _, deferred) ← hpa_try_alloc_batch_no_grow fuel size oom (nallocs - nsuccess r2) r2;
        mret (r3, deferred).

(** The results and, where it is written, [*deferred_work_generated]. *)
Definition hpa_alloc_batch (fuel : nat) (size nallocs : Z) (results : list Z) : M hpa_mem (list Z * option bool) :=
  s ← get;
  if slab_max_alloc (opts s) <? size then mret (results, None)
  else
    '(r, deferred) ← hpa_alloc_batch_psset fuel size nallocs results;
    mret (r, Some deferred).

Definition hpa_alloc (fuel : nat) (size alignment : Z) (zero : bool) : M hpa_mem (Z * option bool) :=
  if (PAGE <? alignment) || zero then mret (0, None)
  else
    '(results, deferred) ← hpa_alloc_batch fuel size 1 [];
    mret (default 0 (head results), deferred).

Definition hpa_expand (edata old_size new_size : Z) (zero : bool) : M hpa_mem bool := mret true.
Definition hpa_shrink (edata old_size new_size : Z) : M hpa_mem bool := mret true.

(** ** Deallocation *)

Definition hpa_dalloc_prepare_unlocked (edata : Z) : M hpa_mem unit :=
  e ← edata_at edata;
  edata_put edata (edata_addr_set (edata_base_get e));;
  edata_put edata (edata_zeroed_set false);;
  call (CallDeregister edata).

Definition hpa_dalloc_locked (edata : Z) : M hpa_mem unit :=
  e ← edata_at edata;
  let ps := edata_ps_get e in
  let unreserve_addr := edata_addr_get e in
  let unreserve_size := edata_size_get e in
  call (CallEdataPut edata);;
  on_psset (psset_update_begin T ps);;
  slab_update ps (λ d, d' ← hpdata_unreserve d unreserve_addr unreserve_size; Done (tt, d'));;
  hpa_update_purge_hugify_eligibility ps;;
  on_psset (psset_update_end T ps).

Fixpoint each (f : Z → M hpa_mem unit) (l : list Z) : M hpa_mem unit :=
  match l with [] => mret tt | x :: l => f x;; each f l end.

(** [*deferred_work_generated] *)
Definition hpa_dalloc_batch (fuel : nat) (l : list Z) : M hpa_mem bool :=
  each hpa_dalloc_prepare_unlocked l;;
  each hpa_dalloc_locked l;;
  hpa_shard_maybe_do_deferred_work fuel false;;
  hpa_shard_has_deferred_work.

Definition hpa_dalloc (fuel : nat) (edata : Z) : M hpa_mem bool := hpa_dalloc_batch fuel [edata].

(** ** Timing of deferred work *)

Definition BACKGROUND_THREAD_DEFERRED_MIN : Z := 0.
Definition BACKGROUND_THREAD_DEFERRED_MAX : Z := 2 ^ 64 - 1.

Definition hpa_time_until_deferred_work : M hpa_mem Z :=
  s ← get;
  to_hugify ← on_psset psset_pick_hugify;
  hugify_ns ← (if to_hugify =? 0 then mret (Some BACKGROUND_THREAD_DEFERRED_MAX)
               else
                 since ← ask_ms;
                 if since <? hugify_delay_ms (opts s) then
                   mret (Some (u64 (u64 (hugify_delay_ms (opts s) - since) * (1000 * 1000))))
                 else mret None);
  match hugify_ns with
  | None => mret BACKGROUND_THREAD_DEFERRED_MIN
  | Some time_ns =>
      b ← hpa_should_purge;
      if b : bool then
        s ← get;
        if npurge_passes (shard_stats s) =? 0 then mret BACKGROUND_THREAD_DEFERRED_MIN
        else
          since ← ask_ms;
          if since <? min_purge_interval_ms (opts s) then
            let until_purge_ns := u64 (u64 (min_purge_interval_ms (opts s) - since) * (1000 * 1000)) in
            mret (if until_purge_ns <? time_ns then until_purge_ns else time_ns)
          else mret BACKGROUND_THREAD_DEFERRED_MIN
      else mret time_ns
  end.

(** ** The end of a shard *)

Definition hpa_shard_disable : M hpa_mem unit := call CallEdataDisable.

Fixpoint hpa_shard_destroy (fuel : nat) : M hpa_mem unit :=
  ps ← on_psset (psset_pick_alloc T PAGE);
  if ps =? 0 then mret tt
  else
    match fuel with
    | O => throw Diverges
    | S fuel =>
        on_psset (psset_remove T ps);;
        d ← on_psset (slab_get ps);
        call (CallUnmap (hpdata_addr_get d) HUGEPAGE);;
        hpa_shard_destroy fuel
    end.
End ops.
