(* ===== verification/HpaInv.v ===== *)
(** * The invariant of a shard of the huge page allocator

    Most of [hpa.c] takes a slab out of the page slab set, changes its metadata and puts it back: first the lemmas
    on the three parts of such a section.  In the invariant the shard has the slabs [W]; [P] are the passes of
    purging under way, by slab, [H] the slabs that are being made huge, [L] the extents handed out and not yet returned. *)
From stdpp Require Import base list gmap numbers fin_maps.
From S2P Require Import Prelude BitUtil SizeClass Sz SzTheorems Fb FbFacts FbTheorems Hpdata HpdataTheorems HpdataPurge Edata EdataTheorems Ph Ql Psset PssetSizes PssetFacts PssetInv PssetOps PssetPick Hpa.

(** ** The metadata *)

(** Only the pages and their counts differ. *)
Definition same_flags (h h' : hpdata_t) : Prop := ∃ lg na ac nt to, h' = set_pages lg na ac nt to h.

Lemma same_flags_container h h' :
  same_flags h h' → h_in_psset_alloc_container h' = h_in_psset_alloc_container h ∧ h_in_psset_hugify_container h' = h_in_psset_hugify_container h.
Proof. by intros (? & ? & ? & ? & ? & ->). Qed.

Lemma reserve_flags h size addr h' : hpdata_reserve_alloc h size = Done (addr, h') → same_flags h h'.
Proof.
  unfold hpdata_reserve_alloc. intros E. apply outcome_bind_done_inv in E as ([[r len] lg] & _ & E).
  repeat (apply outcome_bind_done_inv in E as (? & _ & E)). injection E as <- <-. by eexists _, _, _, _, _.
Qed.

Lemma unreserve_flags h addr size h' : hpdata_unreserve h addr size = Done h' → same_flags h h'.
Proof.
  unfold hpdata_unreserve. intros E. repeat (apply outcome_bind_done_inv in E as (? & _ & E)).
  injection E as <-; by eexists _, _, _, _, _.
Qed.

Lemma purge_end_flags h st h' st' : hpdata_purge_end h st = Done (h', st') → same_flags h h'.
Proof.
  unfold hpdata_purge_end. intros E. repeat (apply outcome_bind_done_inv in E as (? & _ & E)).
  injection E as <- _; by eexists _, _, _, _, _.
Qed.

(** The same pages, whatever the flags. *)
Definition same_pages (h h' : hpdata_t) : Prop :=
  active_pages h' = active_pages h ∧ touched_pages h' = touched_pages h ∧ h_nactive h' = h_nactive h ∧
  h_ntouched h' = h_ntouched h ∧ h_longest_free_range h' = h_longest_free_range h ∧ h_huge h' = h_huge h ∧
  h_address h' = h_address h.

Lemma hp_ok_flags h h' :
  hp_ok h → same_pages h h' →
  (hpdata_changing_state_get h' = true → h_purge_allowed h' = false ∧ h_hugify_allowed h' = false) →
  h_hugify_allowed h' = h_in_psset_hugify_container h' → hp_ok h'.
Proof.
  intros [H1 H2 H3 H4 H5 H6 H7 H8 H9] (E1 & E2 & E3 & E4 & E5 & E6 & E7) Hc Hh.
  split; rewrite ?E1, ?E2, ?E3, ?E4, ?E5, ?E6; done.
Qed.

Lemma slab_ok_pages h h' :
  hp_ok h → same_pages h h' → (h_purge_allowed h' = true → h_nactive h' < h_ntouched h') → slab_ok h'.
Proof.
  intros H (E1 & E2 & E3 & E4 & E5 & E6 & E7) Hp.
  destruct (hp_ok_slab_ok (hpdata_purge_allowed_set false h)) as [S1 S2 S3 _]; [|done|].
  { apply (hp_ok_flags h); [done|by split_and!| |apply (ho_container h H)].
    intros Hc. split; [done|]. by apply (ho_changing h H). }
  split; rewrite ?E3, ?E4, ?E5; try done. intros Ha. specialize (Hp Ha). by rewrite E3, E4 in Hp.
Qed.

(** ** A slab under edit *)

Section edit.
Context (T : sz_tables) `{!SzReady T}.

(** The slab [p] of the set [W] is out, with the metadata [d]; the others are as in [D]. *)
Record editing (W : gset Z) (D : gmap Z hpdata_t) (p : Z) (d : hpdata_t) (m : psset_mem) : Prop := {
  ed_inv : psset_inv T m W {[p]};
  ed_data : ps_data m = <[p:=d]> D;
  ed_out : h_in_psset_alloc_container d = false;
  ed_hugify : h_in_psset_hugify_container <$> D !! p = Some (h_in_psset_hugify_container d)
}.

Lemma edit_known W D p d m : editing W D p d m → p ≠ 0 ∧ ps_data m !! p = Some d.
Proof.
  intros [I Ed _ _]. split; [|by rewrite Ed, lookup_insert_eq].
  apply (pi_known _ _ _ _ I p), (pi_updating _ _ _ _ I). set_solver.
Qed.

Lemma edit_begin W m p d :
  psset_inv T m W ∅ → p ∈ W → ps_data m !! p = Some d →
  ∃ m', psset_update_begin T p m = Done (tt, m') ∧ editing W (ps_data m) p (begun d) m'.
Proof.
  intros I Hp Ed. destruct (psset_update_begin_ok T m W ∅ p d I) as (m' & E & D' & I'); [set_solver|done|].
  rewrite union_empty_r_L in I'. exists m'. split; [done|]. split; [done|done|done|by rewrite Ed].
Qed.

Lemma edit_get W D p d m : editing W D p d m → slab_get p m = Done (d, m).
Proof. intros E. destruct (edit_known _ _ _ _ _ E). by apply slab_get_ok. Qed.

Lemma edit_set W D p d m f :
  editing W D p d m → h_in_psset_alloc_container (f d) = false →
  h_in_psset_hugify_container (f d) = h_in_psset_hugify_container d →
  ∃ m', slab_set p f m = Done (tt, m') ∧ editing W D p (f d) m'.
Proof.
  intros E Ha Hh. destruct (edit_known _ _ _ _ _ E) as [Hp Ed]. destruct E as [I ED Ho Hu].
  eexists. split; [by apply slab_set_ok|]. split; [|by rewrite ED; cbn [put_data ps_data]; rewrite insert_insert_eq|done|by rewrite Hh].
  by eapply change_ok; [done|set_solver|done|done|done].
Qed.

Lemma edit_end W D p d m :
  editing W D p d m → slab_ok d →
  ∃ m', psset_update_end T p m = Done (tt, m') ∧ ps_data m' = <[p:=ended d]> D ∧ psset_inv T m' W ∅.
Proof.
  intros E Hok. destruct (edit_known _ _ _ _ _ E) as [Hp Ed]. destruct E as [I ED Ho Hu].
  destruct (psset_update_end_ok T m W {[p]} p d I ltac:(set_solver) Ed Hok) as (m' & E' & D' & I').
  exists m'. rewrite difference_diag_L in I'. split_and!; [done| |done]. by rewrite D', ED, insert_insert_eq.
Qed.
End edit.

(** ** In the state of the shard *)

Lemma on_psset_ok {A} (m : M psset_mem A) s a t :
  m (slabs s) = Done (a, t) → on_psset m s = Done (a, set_slabs t s).
Proof. apply zoom_done. Qed.

Lemma set_slabs_id s : set_slabs (slabs s) s = s.
Proof. by destruct s. Qed.
Lemma set_slabs_set t t' s : set_slabs t (set_slabs t' s) = set_slabs t s.
Proof. done. Qed.

Lemma edata_at_ok s e ed : e ≠ 0 → edatas s !! e = Some ed → edata_at e s = Done (ed, s).
Proof.
  intros He E. unfold edata_at. erewrite bind_done by reflexivity. rewrite (proj2 (Z.eqb_neq e 0)) by done.
  apply liftO_done. by rewrite E.
Qed.

Lemma edata_put_ok s e ed f : e ≠ 0 → edatas s !! e = Some ed → edata_put e f s = Done (tt, set_edatas (<[e:=f ed]> (edatas s)) s).
Proof. intros He E. unfold edata_put. by erewrite bind_done by (by apply edata_at_ok). Qed.

Section shard_edit.
Context (T : sz_tables) `{!SzReady T}.

Lemma shard_begin W s p d :
  psset_inv T (slabs s) W ∅ → p ∈ W → ps_data (slabs s) !! p = Some d →
  ∃ m, on_psset (psset_update_begin T p) s = Done (tt, set_slabs m s) ∧ editing T W (ps_data (slabs s)) p (begun d) m.
Proof. intros I Hp Ed. destruct (edit_begin T W _ p d I Hp Ed) as (m & E & X). exists m. split; [by apply on_psset_ok|done]. Qed.

Lemma shard_get W D p d s : editing T W D p d (slabs s) → on_psset (slab_get p) s = Done (d, s).
Proof. intros E. erewrite on_psset_ok by (by eapply edit_get). by rewrite set_slabs_id. Qed.

Lemma shard_set W D p d s f :
  editing T W D p d (slabs s) → h_in_psset_alloc_container (f d) = false →
  h_in_psset_hugify_container (f d) = h_in_psset_hugify_container d →
  ∃ m, on_psset (slab_set p f) s = Done (tt, set_slabs m s) ∧ editing T W D p (f d) m.
Proof. intros E Ha Hh. destruct (edit_set T W D p d _ f E Ha Hh) as (m & Em & X). exists m. split; [by apply on_psset_ok|done]. Qed.

Lemma shard_update {A} W D p d s (f : hpdata_t → outcome (A * hpdata_t)) a d' :
  editing T W D p d (slabs s) → f d = Done (a, d') →
  h_in_psset_alloc_container d' = h_in_psset_alloc_container d → h_in_psset_hugify_container d' = h_in_psset_hugify_container d →
  ∃ m, slab_update p f s = Done (a, set_slabs m s) ∧ editing T W D p d' m.
Proof.
  intros E Ef F1 F2. unfold slab_update. erewrite bind_done by (by eapply shard_get).
  erewrite bind_done by (apply liftO_done; exact Ef).
  destruct (shard_set W D p d s (λ _, d') E) as (m & Em & X); [rewrite F1; apply (ed_out _ _ _ _ _ _ E)|done|].
  exists m. rewrite (bind_done _ _ _ _ _ Em). done.
Qed.

Lemma shard_end W D p d s :
  editing T W D p d (slabs s) → slab_ok d →
  ∃ m, on_psset (psset_update_end T p) s = Done (tt, set_slabs m s) ∧ ps_data m = <[p:=ended d]> D ∧ psset_inv T m W ∅.
Proof. intros E Hok. destruct (edit_end T W D p d _ E Hok) as (m & Em & X). exists m. split; [by apply on_psset_ok|done]. Qed.

(** What [hpa_update_purge_hugify_eligibility] makes of the metadata. *)
Definition eligible (s : hpa_mem) (now : Z) (d : hpdata_t) : hpdata_t :=
  if hpdata_changing_state_get d then hpdata_disallow_hugify (hpdata_purge_allowed_set false d) else eligibility s now d.

Lemma shard_eligible W D p d s :
  editing T W D p d (slabs s) →
  ∃ now a m, hpa_update_purge_hugify_eligibility p s = Done (tt, set_slabs m (set_answers a s)) ∧
    editing T W D p (eligible s now d) m.
Proof.
  intros E. unfold hpa_update_purge_hugify_eligibility, eligible. erewrite bind_done by (by eapply shard_get).
  assert (Hid : set_answers (answers s) s = s) by (by destruct s).
  pose proof (ed_out _ _ _ _ _ _ E) as Ho.
  destruct (hpdata_changing_state_get d).
  - destruct (shard_set W D p d s (hpdata_purge_allowed_set false) E) as (m & Em & X); [done..|].
    rewrite (bind_done _ _ _ _ _ Em).
    destruct (shard_set W D p _ (set_slabs m s) hpdata_disallow_hugify X) as (m' & Em' & X'); [done..|].
    exists 0, (answers s), m'. rewrite Hid. by rewrite Em'.
  - erewrite bind_done by reflexivity.
    set (g := hpa_good_hugification_candidate s d && negb (h_huge d)).
    assert (∃ now a, (if g then ask_time else mret 0) s = Done (now, set_answers a s)) as (now & a & Ea).
    { destruct g; [by eexists _, _|]. exists 0, (answers s). by rewrite Hid. }
    rewrite (bind_done _ _ _ _ _ Ea). exists now, a.
    destruct (shard_set W D p d (set_answers a s) (eligibility s now) E) as (m & Em & X).
    + unfold eligibility. repeat case_match; done.
    + unfold eligibility. repeat case_match; done.
    + exists m. by rewrite Em.
Qed.
End shard_edit.

(** ** The invariant of a shard of the huge page allocator *)

(** An extent: the slab it is in, its first page and the number of its pages. *)
Record extent : Type := mkExt {
  x_slab : Z;
  x_page : Z;
  x_npages : Z
}.

Definition covers (x : extent) (p i : Z) : Prop := x_slab x = p ∧ x_page x ≤ i < x_page x + x_npages x.

Definition slab_bounds (d : hpdata_t) : Prop :=
  0 ≤ h_address d ∧ h_address d + HUGEPAGE ≤ 2 ^ 64 ∧ h_address d mod PAGE = 0.

(** The metadata of a slab of the shard. *)
Record slab_inv (P : gmap Z purge_pass) (H : gset Z) (p : Z) (d : hpdata_t) : Prop := {
  si_ok : hp_ok d;
  si_purge : h_purge_allowed d = true → h_nactive d < h_ntouched d;
  si_mid_purge : h_mid_purge d = bool_decide (is_Some (P !! p));
  si_mid_hugify : h_mid_hugify d = bool_decide (p ∈ H);
  si_alloc : h_alloc_allowed d = negb (h_mid_purge d);
  si_one : p ∈ H → P !! p = None;
  si_pass : ∀ pp, P !! p = Some pp →
    pass_slab pp = p ∧ pass_dehugify pp = h_huge d ∧ purge_inv d (pass_state pp) ∧
    pass_num pp = ndirty_to_purge (pass_state pp);
  si_bounds : slab_bounds d
}.

(** ** The central allocator *)

(** The memory from [a] on, [len] bytes of it, holds no slab. *)
Definition no_slabs_in (D : gmap Z hpdata_t) (W : gset Z) (a len : Z) : Prop :=
  ∀ p d, p ∈ W → D !! p = Some d → h_address d + HUGEPAGE ≤ a ∨ a + len ≤ h_address d.

(** A run of huge pages that no slab is in. *)
Definition free_run (D : gmap Z hpdata_t) (W : gset Z) (a len : Z) : Prop :=
  0 < a ∧ HUGEPAGE ≤ len ∧ len mod HUGEPAGE = 0 ∧ a mod HUGEPAGE = 0 ∧ a + len ≤ 2 ^ 64 ∧ no_slabs_in D W a len.

Definition central_inv (D : gmap Z hpdata_t) (W : gset Z) (c : hpa_central_t) : Prop :=
  (eden c = 0 ∧ eden_len c = 0) ∨ free_run D W (eden c) (eden_len c).

(** The pages of passes under way. *)
Definition pending (P : gmap Z purge_pass) : Z := map_fold (λ _ pp n, pass_num pp + n) 0 P.

Lemma pending_insert P p pp : P !! p = None → pending (<[p:=pp]> P) = pass_num pp + pending P.
Proof. intros E. unfold pending. by rewrite map_fold_insert_L by (done || lia). Qed.

Lemma pending_delete P p pp : P !! p = Some pp → pending (delete p P) = pending P - pass_num pp.
Proof.
  intros E. rewrite <- (insert_delete_id P p pp E) at 2. rewrite pending_insert by apply lookup_delete_eq. lia.
Qed.

Section inv.
Context (T : sz_tables) `{!SzReady T}.

Record shard_inv (s : hpa_mem) (W : gset Z) (P : gmap Z purge_pass) (H : gset Z) : Prop := {
  hi_psset : psset_inv T (slabs s) W ∅;
  hi_slab : ∀ p d, p ∈ W → ps_data (slabs s) !! p = Some d → slab_inv P H p d;
  hi_apart : ∀ p q d e, p ∈ W → q ∈ W → p ≠ q → ps_data (slabs s) !! p = Some d → ps_data (slabs s) !! q = Some e →
    h_address d + HUGEPAGE ≤ h_address e ∨ h_address e + HUGEPAGE ≤ h_address d;
  hi_passes : ∀ p, is_Some (P !! p) → p ∈ W;
  hi_hugifying : H ⊆ W;
  hi_pending : npending_purge s = u64 (pending P);
  hi_central : central_inv (ps_data (slabs s)) W (central s)
}.

Record extent_ok (s : hpa_mem) (W : gset Z) (e : Z) (x : extent) : Prop := {
  xo_slab : x_slab x ∈ W;
  xo_page : 0 ≤ x_page x;
  xo_npages : 0 < x_npages x;
  xo_end : x_page x + x_npages x ≤ HUGEPAGE_PAGES;
  xo_edata : e ≠ 0 ∧ ∃ ed d, edatas s !! e = Some ed ∧ ps_data (slabs s) !! x_slab x = Some d ∧
    edata_ps_get ed = x_slab x ∧ edata_addr_get ed = h_address d + x_page x * PAGE ∧
    edata_size_get ed = x_npages x * PAGE
}.

Record extents_inv (s : hpa_mem) (W : gset Z) (L : gmap Z extent) : Prop := {
  xi_ok : ∀ e x, L !! e = Some x → extent_ok s W e x;
  xi_active : ∀ p d i, p ∈ W → ps_data (slabs s) !! p = Some d → 0 ≤ i < HUGEPAGE_PAGES →
    fbit (active_pages d) i = true ↔ ∃ e x, L !! e = Some x ∧ covers x p i;
  xi_disjoint : ∀ e1 e2 x1 x2 p i, L !! e1 = Some x1 → L !! e2 = Some x2 → covers x1 p i → covers x2 p i → e1 = e2;
  xi_edatas : ∀ e ed, edatas s !! e = Some ed → is_u64 (e_size_esn ed)
}.

(** ** Changes of one slab *)

Lemma shard_inv_slab s W P H p : shard_inv s W P H → p ∈ W → ∃ d, ps_data (slabs s) !! p = Some d ∧ slab_inv P H p d.
Proof.
  intros I Hp. destruct (pi_known _ _ _ _ (hi_psset _ _ _ _ I) p Hp) as [_ [d Ed]]. exists d. split; [done|]. by apply (hi_slab _ _ _ _ I).
Qed.

Lemma slab_inv_off P P' H H' p d :
  P' !! p = P !! p → (p ∈ H' ↔ p ∈ H) → slab_inv P H p d → slab_inv P' H' p d.
Proof.
  intros HP HH [S1 S2 S3 S4 S5 S6 S7 S8]. split; rewrite ?HP; try done.
  - rewrite S4. by apply bool_decide_ext.
  - by rewrite HH.
Qed.

Lemma central_inv_update D W c p d d' :
  D !! p = Some d → h_address d' = h_address d → central_inv D W c → central_inv (<[p:=d']> D) W c.
Proof.
  intros Ed Ha [HC|(A1 & A2 & A3 & A4 & A5 & A6)]; [by left|right]. split_and!; [done..|].
  intros q e Hq. destruct (decide (q = p)) as [->|]; [rewrite lookup_insert_eq; intros [= <-]; rewrite Ha; by apply (A6 p)|].
  rewrite lookup_insert_ne by done. by apply A6.
Qed.

Lemma shard_inv_update s s' W P P' H H' p d d' :
  shard_inv s W P H → p ∈ W → ps_data (slabs s) !! p = Some d →
  psset_inv T (slabs s') W ∅ → ps_data (slabs s') = <[p:=d']> (ps_data (slabs s)) →
  slab_inv P' H' p d' → h_address d' = h_address d →
  (∀ q, q ≠ p → P' !! q = P !! q) → (∀ q, q ≠ p → q ∈ H' ↔ q ∈ H) → npending_purge s' = u64 (pending P') → central s' = central s →
  shard_inv s' W P' H'.
Proof.
  intros [I1 I2 I3 I4 I5 I6 I7] Hp Ed Hm D' Hs Ha HP HH Hn HC. split; try done.
  - intros q e Hq. rewrite D'. destruct (decide (q = p)) as [->|Hne]; [rewrite lookup_insert_eq; by intros [= <-]|].
    rewrite lookup_insert_ne by done. intros Ee. apply (slab_inv_off P P' H H'); [by apply HP|by apply HH|by apply I2].
  - intros q r e f Hq Hr Hqr. rewrite D'. destruct (decide (q = p)) as [->|Hne], (decide (r = p)) as [->|Hne']; [done|..].
    + rewrite lookup_insert_eq, lookup_insert_ne by done. intros [= <-] Ef. rewrite Ha. exact (I3 p r d f Hq Hr Hqr Ed Ef).
    + rewrite lookup_insert_eq, lookup_insert_ne by done. intros Ee [= <-]. rewrite Ha. exact (I3 q p e d Hq Hr Hqr Ee Ed).
    + rewrite !lookup_insert_ne by done. by apply I3.
  - intros q Hq. destruct (decide (q = p)) as [->|Hne]; [done|]. apply I4. by rewrite <- HP.
  - intros q Hq. destruct (decide (q = p)) as [->|Hne]; [done|]. apply I5. by apply HH.
  - rewrite HC, D'. by apply (central_inv_update _ _ _ p d).
Qed.

(** The extents do not see what becomes of a slab but for its active pages. *)
Lemma extents_inv_same s s' W L p d d' :
  extents_inv s W L → p ∈ W → ps_data (slabs s) !! p = Some d → ps_data (slabs s') = <[p:=d']> (ps_data (slabs s)) →
  h_address d' = h_address d → (∀ i, 0 ≤ i → fbit (active_pages d') i = fbit (active_pages d) i) →
  (∀ e, is_Some (L !! e) → edatas s' !! e = edatas s !! e) → (∀ e ed, edatas s' !! e = Some ed → is_u64 (e_size_esn ed)) →
  extents_inv s' W L.
Proof.
  intros [X1 X2 X3 X4] Hp Ed D' Ha Hact He Hu. split; try done.
  - intros e x Hx. destruct (X1 e x Hx) as [O1 O2 O3 O4 (O5 & ed & f & E1 & E2 & E3 & E4 & E5)]. split; try done.
    split; [done|]. rewrite He by done. rewrite D'. destruct (decide (x_slab x = p)) as [Hx'|Hx'].
    + rewrite Hx', lookup_insert_eq. exists ed, d'. rewrite Hx' in E2. simplify_eq. by rewrite Ha.
    + rewrite lookup_insert_ne by done. by exists ed, f.
  - intros q e i Hq. rewrite D'. destruct (decide (q = p)) as [->|Hne].
    + rewrite lookup_insert_eq. intros [= <-] Hi. rewrite Hact by lia. by apply X2.
    + rewrite lookup_insert_ne by done. by apply X2.
Qed.

(** Nothing but the page slab set, with the same slabs in it, and what the invariants do not mention. *)
Lemma shard_inv_frame s s' W P H :
  shard_inv s W P H → psset_inv T (slabs s') W ∅ → ps_data (slabs s') = ps_data (slabs s) →
  npending_purge s' = npending_purge s → central s' = central s → shard_inv s' W P H.
Proof. intros [I1 I2 I3 I4 I5 I6 I7] Hm D' Hn HC. split; rewrite ?D', ?Hn, ?HC; done. Qed.

Lemma extents_inv_frame s s' W L :
  extents_inv s W L → ps_data (slabs s') = ps_data (slabs s) →
  (∀ e, is_Some (L !! e) → edatas s' !! e = edatas s !! e) → (∀ e ed, edatas s' !! e = Some ed → is_u64 (e_size_esn ed)) →
  extents_inv s' W L.
Proof.
  intros [X1 X2 X3 X4] D' He Hu. split; rewrite ?D'; try done.
  intros e x Hx. destruct (X1 e x Hx) as [O1 O2 O3 O4 O5]. split; try done. by rewrite He, D'.
Qed.
End inv.
