(* ===== verification/HpaOps.v ===== *)
(** * Allocation and deallocation in a shard *)
From stdpp Require Import base list gmap numbers.
From S2P Require Import Prelude BitUtil SizeClass Sz SzTheorems Fb FbFacts FbTheorems Hpdata HpdataTheorems HpdataPurge Edata EdataTheorems Ph Ql Psset PssetSizes PssetFacts PssetInv PssetOps PssetPick Hpa HpaInv.

(** ** The metadata after an edit *)

Lemma same_pages_refl h : same_pages h h.
Proof. by split_and!. Qed.
Lemma same_pages_trans h1 h2 h3 : same_pages h1 h2 → same_pages h2 h3 → same_pages h1 h3.
Proof. intros (? & ? & ? & ? & ? & ? & ?) (? & ? & ? & ? & ? & ? & ?). split_and!; congruence. Qed.

Lemma hp_ok_counts h : hp_ok h → 0 ≤ h_nactive h ≤ h_ntouched h ∧ h_ntouched h ≤ 512.
Proof.
  intros H. pose proof (hp_ok_sub h H). pose proof (npages_where_bounds (fbit (active_pages h))) as Ha.
  pose proof (npages_where_bounds (fbit (touched_pages h))) as Ht. rewrite <- (ho_nactive h H) in Ha.
  rewrite <- (ho_ntouched h H), hugepage_pages in Ht. lia.
Qed.

Lemma hp_ok_begun d : hp_ok d → hp_ok (begun d).
Proof. intros H. apply (hp_ok_flags d); [done|by split_and!|apply (ho_changing d H)|apply (ho_container d H)]. Qed.

(** What is left of the flags once a slab is back in the set. *)
Record settled_flags (d d' : hpdata_t) : Prop := {
  sf_ok : hp_ok d';
  sf_pages : same_pages d d';
  sf_mid_purge : h_mid_purge d' = h_mid_purge d;
  sf_mid_hugify : h_mid_hugify d' = h_mid_hugify d;
  sf_alloc : h_alloc_allowed d' = h_alloc_allowed d;
  sf_purge : h_purge_allowed d' = true → h_nactive d' < h_ntouched d'
}.

Lemma ended_flags h d :
  hp_ok h → same_pages h d →
  (hpdata_changing_state_get d = true → h_purge_allowed d = false ∧ h_hugify_allowed d = false) →
  (h_purge_allowed d = true → h_nactive d < h_ntouched d) →
  slab_ok d ∧ settled_flags d (ended d).
Proof.
  intros H Hp Hc Ha. split; [by apply (slab_ok_pages h)|].
  split; [apply (hp_ok_flags h); [done|done|done|done]|by split_and!|done|done|done|done].
Qed.

Lemma eligible_flags h d s now :
  hp_ok h → same_pages h d → slab_ok (eligible s now d) ∧ settled_flags d (ended (eligible s now d)).
Proof.
  intros H Hp. pose proof (hp_ok_counts h H) as Hn. pose proof Hp as (_ & _ & E3 & E4 & _).
  assert (He : same_pages d (eligible s now d)) by (unfold eligible, eligibility; repeat case_match; by split_and!).
  assert (Hf : h_mid_purge (eligible s now d) = h_mid_purge d ∧ h_mid_hugify (eligible s now d) = h_mid_hugify d ∧
    h_alloc_allowed (eligible s now d) = h_alloc_allowed d) by (unfold eligible, eligibility; repeat case_match; done).
  destruct Hf as (F1 & F2 & F3).
  destruct (ended_flags h (eligible s now d)) as [S1 [S2 S3 S4 S5 S6 S7]].
  - done.
  - by apply (same_pages_trans h d).
  - unfold hpdata_changing_state_get. rewrite F1, F2. unfold eligible, hpdata_changing_state_get. by intros ->.
  - destruct He as (_ & _ & G3 & G4 & _). rewrite G3, G4. unfold eligible. destruct (hpdata_changing_state_get d); [done|].
    unfold eligibility. intros Hpa.
    assert (Hd : 0 <? hpdata_ndirty_get d = true) by (revert Hpa; repeat case_match; done).
    unfold hpdata_ndirty_get in Hd. apply Z.ltb_lt in Hd. rewrite u64_small in Hd by (unfold is_u64; lia). lia.
  - split; [done|]. split; [done|by apply (same_pages_trans _ (eligible s now d))|congruence..|done].
Qed.

(** ** Pages of an empty slab *)

Lemma npages_where_zero p i : npages_where p = 0 → 0 ≤ i < HUGEPAGE_PAGES → p i = false.
Proof.
  intros H0 Hi. apply negb_true_iff. apply (npages_where_full (λ i, negb (p i))); [|done].
  pose proof (npages_where_split p (λ i, negb (p i)) (λ _, true) (λ _, false)) as H.
  rewrite (npages_where_all (λ _, true)), (npages_where_none (λ _, false)) in H by done.
  rewrite H0 in H. rewrite <- (Z.add_0_r HUGEPAGE_PAGES), <- H; [done|]. intros j Hj. by destruct (p j).
Qed.

Lemma empty_longest d : hp_ok d → h_nactive d = 0 → h_longest_free_range d = HUGEPAGE_PAGES.
Proof.
  intros H H0. destruct (ho_longest d H) as [H1 (b & H2 & H3 & H4 & _)]. apply Z.le_antisymm; [lia|].
  apply (H1 0); [done|done|]. intros i Hi. unfold unused. rewrite (npages_where_zero (fbit (active_pages d))); [done| |lia].
  by rewrite <- (ho_nactive d H).
Qed.

(** ** Reserving an extent *)

(** The descriptor of the extent of [n] pages at [addr]. *)
Definition describes (ed : edata_t) (p addr n : Z) : Prop :=
  edata_ps_get ed = p ∧ edata_addr_get ed = addr ∧ edata_size_get ed = n * PAGE ∧ is_u64 (e_size_esn ed).

Lemma edata_init_describes i p addr n age ed :
  0 ≤ n ≤ 512 → is_u64 (e_size_esn ed) →
  describes (edata_ps_set p (edata_init i addr (n * PAGE) false SC_NSIZES age extent_state_active false true EXTENT_PAI_HPA EXTENT_NOT_HEAD ed))
    p addr n.
Proof.
  intros Hn Hu. assert (Hs : is_u64 (n * PAGE)) by (unfold is_u64; change PAGE with 4096; lia).
  destruct (size_set_get (n * PAGE) (e_size_esn ed) Hs) as [Hsz _]; [apply Z.mod_mul; done|done|].
  split_and!; [done|done|exact Hsz|]. cbn. apply lor_u64; [done|]. apply land_u64; [done|]. apply not64_u64.
Qed.

Section alloc.
Context (T : sz_tables) `{!SzReady T}.

(** The rest of the state is not touched. *)
Definition same_rest (s s' : hpa_mem) : Prop :=
  npending_purge s' = npending_purge s ∧ opts s' = opts s ∧ central s' = central s ∧ shard_stats s' = shard_stats s ∧
  last_purge s' = last_purge s ∧ ind s' = ind s.

Lemma maybe_age W D p d s :
  editing T W D p d (slabs s) → hp_ok d →
  ∃ s' d', (if hpdata_empty d then
              s ← get;
              on_psset (slab_set p (hpdata_age_set (age_counter s)));;
              modify (set_age_counter (u64 (age_counter s + 1)))
            else mret tt) s = Done (tt, s') ∧
    editing T W D p d' (slabs s') ∧ hp_ok d' ∧ same_pages d d' ∧ h_alloc_allowed d' = h_alloc_allowed d ∧
    h_purge_allowed d' = h_purge_allowed d ∧ h_mid_purge d' = h_mid_purge d ∧ h_mid_hugify d' = h_mid_hugify d ∧
    same_rest s s' ∧ edatas s' = edatas s ∧ answers s' = answers s ∧ calls s' = calls s.
Proof.
  intros E H. destruct (hpdata_empty d); [|exists s, d; by split_and!]. erewrite bind_done by reflexivity.
  destruct (shard_set T W D p d s (hpdata_age_set (age_counter s)) E) as (m & Em & X); [apply (ed_out _ _ _ _ _ _ E)|done|].
  rewrite (bind_done _ _ _ _ _ Em). eexists _, _. split; [reflexivity|]. split; [exact X|]. split; [|by split_and!].
  apply (hp_ok_flags d); [done|by split_and!|apply (ho_changing d H)|apply (ho_container d H)].
Qed.

(** The slab of a new extent: [n] of its free pages, from [b] on, are taken. *)
Record reserved (d d' : hpdata_t) (b n : Z) : Prop := {
  rs_ok : hp_ok d';
  rs_page : 0 ≤ b;
  rs_end : b + n ≤ HUGEPAGE_PAGES;
  rs_free : ∀ i, b ≤ i < b + n → fbit (active_pages d) i = false;
  rs_active : ∀ i, 0 ≤ i → fbit (active_pages d') i = bool_decide (b ≤ i < b + n) || fbit (active_pages d) i;
  rs_touched : h_ntouched d ≤ h_ntouched d';
  rs_nactive : h_nactive d' = h_nactive d + n;
  rs_flags : h_address d' = h_address d ∧ h_huge d' = h_huge d ∧ h_alloc_allowed d' = h_alloc_allowed d ∧
    h_purge_allowed d' = h_purge_allowed d ∧ h_mid_purge d' = h_mid_purge d ∧ h_mid_hugify d' = h_mid_hugify d
}.

Lemma reserve_extent_ok s W p d e ed n :
  psset_inv T (slabs s) W ∅ → p ∈ W → ps_data (slabs s) !! p = Some d → hp_ok d → slab_bounds d →
  1 ≤ n ≤ h_longest_free_range d → e ≠ 0 → edatas s !! e = Some ed → is_u64 (e_size_esn ed) →
  ∃ s' b d' ed', reserve_extent T e p (n * PAGE) s = Done (tt, s') ∧
    editing T W (ps_data (slabs s)) p d' (slabs s') ∧ reserved d d' b n ∧
    edatas s' = <[e:=ed']> (edatas s) ∧ describes ed' p (h_address d + b * PAGE) n ∧
    same_rest s s' ∧ answers s' = answers s ∧ calls s' = calls s.
Proof.
  intros I Hp Ed H HB Hn He Ee Hu. unfold reserve_extent.
  destruct (shard_begin T W s p d I Hp Ed) as (m & Em & X). rewrite (bind_done _ _ _ _ _ Em).
  rewrite (bind_done _ _ _ _ _ (shard_get T _ _ _ _ (set_slabs m s) X)).
  destruct (maybe_age W _ p (begun d) (set_slabs m s) X (hp_ok_begun d H))
    as (s1 & d1 & E1 & X1 & H1 & Hpg & F1 & F2 & F3 & F4 & R1 & D1 & A1 & C1).
  rewrite (bind_done _ _ _ _ _ E1). destruct Hpg as (G1 & G2 & G3 & G4 & G5 & G6 & G7).
  destruct (reserve_ok d1 n H1) as (b & l & lg & d2 & E2 & [K1 K2 K3 K4 K5 K6 K7 K8] & H2 & Ha2 & Ht2 & Hn2 & Had2); [rewrite G5; cbn; lia|].
  pose proof (reserve_flags _ _ _ _ E2) as Hfl.
  destruct (shard_update T W _ p d1 s1 (λ d, hpdata_reserve_alloc d (n * PAGE)) _ _ X1 E2
    (proj1 (same_flags_container _ _ Hfl)) (proj2 (same_flags_container _ _ Hfl))) as (m2 & Em2 & X2). rewrite (bind_done _ _ _ _ _ Em2).
  rewrite (bind_done _ _ _ _ _ (shard_get T _ _ _ _ (set_slabs m2 s1) X2)). erewrite bind_done by reflexivity.
  assert (Ee1 : edatas (set_slabs m2 s1) !! e = Some ed) by (cbn [edatas set_slabs]; by rewrite D1).
  erewrite bind_done by (by apply edata_put_ok).
  erewrite edata_put_ok; [|done|cbn [edatas set_edatas]; apply lookup_insert_eq].
  assert (Hb : 0 ≤ b ∧ b + n ≤ HUGEPAGE_PAGES) by lia. rewrite hugepage_pages in Hb.
  assert (Had : u64 (h_address d1 + b * PAGE) = h_address d + b * PAGE).
  { rewrite G7. apply u64_small. unfold is_u64. destruct HB as (B1 & B2 & _).
    change HUGEPAGE with (512 * PAGE) in B2. change PAGE with 4096 in *. cbn. lia. }
  eexists _, b, d2, _. split; [reflexivity|]. split; [exact X2|]. split; [split; [done|lia|rewrite hugepage_pages; lia|..]|].
  - intros i Hi. assert (Hx : unused (active_pages d1) i = true) by (apply K4; lia). rewrite G1 in Hx.
    by apply negb_true_iff in Hx.
  - intros i Hi. rewrite Ha2 by done. by rewrite G1.
  - rewrite (ho_ntouched _ H2), (ho_ntouched d H). apply npages_where_le. intros i Hi Ht. rewrite Ht2, G2 by lia. cbn. by rewrite Ht, orb_true_r.
  - by rewrite Hn2, G3.
  - destruct Hfl as (? & ? & ? & ? & ? & ->). cbn. rewrite G7, G6, F1, F2, F3, F4. done.
  - split; [cbn [edatas set_edatas set_slabs]; by rewrite D1, insert_insert_eq|]. split; [|by split_and!].
    rewrite <- Had. apply edata_init_describes; [lia|done].
Qed.

(** ** The extents afterwards *)

Lemma extents_inv_add s s' W L p d d' b n e ed' :
  extents_inv s W L → p ∈ W → ps_data (slabs s) !! p = Some d → ps_data (slabs s') = <[p:=d']> (ps_data (slabs s)) →
  h_address d' = h_address d →
  (∀ i, 0 ≤ i → fbit (active_pages d') i = bool_decide (b ≤ i < b + n) || fbit (active_pages d) i) →
  (∀ i, b ≤ i < b + n → fbit (active_pages d) i = false) → 0 ≤ b → 0 < n → b + n ≤ HUGEPAGE_PAGES →
  e ≠ 0 → L !! e = None → edatas s' = <[e:=ed']> (edatas s) → describes ed' p (h_address d + b * PAGE) n →
  extents_inv s' W (<[e:=mkExt p b n]> L).
Proof.
  intros [X1 X2 X3 X4] Hp Ed D' Ha Hact Hfree Hb Hn Hbn He HL Ee (Q1 & Q2 & Q3 & Q4).
  assert (Hnew : ∀ e1 x i, L !! e1 = Some x → covers x p i → ¬ b ≤ i < b + n).
  { intros e1 x i Hx Hc Hi. destruct (X1 e1 x Hx) as [O1 O2 O3 O4 _].
    assert (fbit (active_pages d) i = true) by (apply (X2 p d i Hp Ed); [destruct Hc; lia|by exists e1, x]). by rewrite Hfree in H. }
  split.
  - intros e1 x Hx. destruct (decide (e1 = e)) as [->|Hne].
    + rewrite lookup_insert_eq in Hx. injection Hx as <-. split; try done. split; [done|]. exists ed', d'. cbn [x_slab x_page x_npages].
      rewrite Ee, D', !lookup_insert_eq, Ha. done.
    + rewrite lookup_insert_ne in Hx by done. destruct (X1 e1 x Hx) as [O1 O2 O3 O4 (O5 & ed & f & E1 & E2 & E3 & E4 & E5)].
      split; try done. split; [done|]. exists ed. rewrite Ee, lookup_insert_ne, D' by done.
      destruct (decide (x_slab x = p)) as [Hxp|Hxp].
      * exists d'. rewrite Hxp, lookup_insert_eq. rewrite Hxp in E2. rewrite Ed in E2. injection E2 as <-. rewrite Ha. split_and!; congruence.
      * exists f. by rewrite lookup_insert_ne.
  - intros q f i Hq. rewrite D'. destruct (decide (q = p)) as [->|Hne].
    + rewrite lookup_insert_eq. intros [= <-] Hi. rewrite Hact, orb_true_iff, bool_decide_eq_true, (X2 p d i Hp Ed Hi) by lia. split.
      * intros [Hi'|(e1 & x & Hx & Hc)]; [exists e, (mkExt p b n); by rewrite lookup_insert_eq|].
        exists e1, x. rewrite lookup_insert_ne; [done|]. intros ->. congruence.
      * intros (e1 & x & Hx & Hc). destruct (decide (e1 = e)) as [->|]; [rewrite lookup_insert_eq in Hx; injection Hx as <-; left; apply Hc|].
        rewrite lookup_insert_ne in Hx by done. right. by exists e1, x.
    + rewrite lookup_insert_ne by done. intros Ef Hi. rewrite (X2 q f i Hq Ef Hi). split; intros (e1 & x & Hx & Hc); exists e1, x.
      * rewrite lookup_insert_ne; [done|]. intros ->. congruence.
      * destruct (decide (e1 = e)) as [->|]; [|by rewrite lookup_insert_ne in Hx].
        rewrite lookup_insert_eq in Hx. injection Hx as <-. destruct Hc as [Hc _]. cbn in Hc. congruence.
  - intros e1 e2 x1 x2 q i H1 H2 C1 C2.
    assert (Hold : ∀ e3 x3, e3 ≠ e → <[e:=mkExt p b n]> L !! e3 = Some x3 → covers (mkExt p b n) q i → covers x3 q i → False).
    { intros e3 x3 Hne Hx [Hq Hi] Hc. cbn in Hq, Hi. subst q. rewrite lookup_insert_ne in Hx by done. by apply (Hnew e3 x3 i). }
    destruct (decide (e1 = e)) as [->|], (decide (e2 = e)) as [->|]; [done|..].
    + rewrite lookup_insert_eq in H1. injection H1 as <-. exfalso. by apply (Hold e2 x2).
    + rewrite lookup_insert_eq in H2. injection H2 as <-. exfalso. by apply (Hold e1 x1).
    + rewrite lookup_insert_ne in H1 by done. rewrite lookup_insert_ne in H2 by done. by apply (X3 e1 e2 x1 x2 q i).
  - intros e1 ed1. rewrite Ee. destruct (decide (e1 = e)) as [->|]; [rewrite lookup_insert_eq; by intros [= <-]|].
    rewrite lookup_insert_ne by done. apply X4.
Qed.

Lemma extents_inv_remove s s' W L p d d' e x :
  extents_inv s W L → L !! e = Some x → x_slab x = p → ps_data (slabs s) !! p = Some d →
  ps_data (slabs s') = <[p:=d']> (ps_data (slabs s)) → h_address d' = h_address d →
  (∀ i, 0 ≤ i → fbit (active_pages d') i = negb (bool_decide (x_page x ≤ i < x_page x + x_npages x)) && fbit (active_pages d) i) →
  edatas s' = edatas s → extents_inv s' W (delete e L).
Proof.
  intros [X1 X2 X3 X4] Hx Hxp Ed D' Ha Hact Ee. split.
  - intros e1 x1 Hx1. apply lookup_delete_Some in Hx1 as [Hne Hx1].
    destruct (X1 e1 x1 Hx1) as [O1 O2 O3 O4 (O5 & ed & f & E1 & E2 & E3 & E4 & E5)].
    split; try done. split; [done|]. exists ed. rewrite Ee, D'. destruct (decide (x_slab x1 = p)) as [Hp|Hp].
    + exists d'. rewrite Hp, lookup_insert_eq. rewrite Hp in E2. rewrite Ed in E2. injection E2 as <-. rewrite Ha. split_and!; congruence.
    + exists f. by rewrite lookup_insert_ne.
  - intros q f i Hq. rewrite D'. destruct (decide (q = p)) as [->|Hne].
    + rewrite lookup_insert_eq. intros [= <-] Hi. rewrite Hact, andb_true_iff, negb_true_iff, bool_decide_eq_false, (X2 p d i Hq Ed Hi) by lia. split.
      * intros [Hi' (e1 & x1 & Hx1 & Hc)]. exists e1, x1. split; [|done]. apply lookup_delete_Some. split; [|done].
        intros <-. rewrite Hx in Hx1. injection Hx1 as <-. apply Hi', Hc.
      * intros (e1 & x1 & [Hne Hx1]%lookup_delete_Some & Hc). split; [|by exists e1, x1]. intros Hi'.
        apply Hne. by apply (X3 e e1 x x1 p i).
    + rewrite lookup_insert_ne by done. intros Ef Hi. rewrite (X2 q f i Hq Ef Hi). split; intros (e1 & x1 & Hx1 & Hc); exists e1, x1.
      * split; [|done]. apply lookup_delete_Some. split; [|done]. intros <-. rewrite Hx in Hx1. injection Hx1 as <-.
        destruct Hc as [Hc _]. congruence.
      * by apply lookup_delete_Some in Hx1 as [_ Hx1].
  - intros e1 e2 x1 x2 q i [_ H1]%lookup_delete_Some [_ H2]%lookup_delete_Some. by apply X3.
  - intros e1 ed1. rewrite Ee. apply X4.
Qed.

(** ** Allocation *)

(** A change that leaves the state of purging and of hugifying as it was. *)
Lemma slab_inv_keep P H p d d1 d' :
  slab_inv P H p d → settled_flags d1 d' → h_mid_purge d1 = h_mid_purge d → h_mid_hugify d1 = h_mid_hugify d →
  h_alloc_allowed d1 = h_alloc_allowed d → h_address d1 = h_address d → h_huge d1 = h_huge d →
  (∀ pp, P !! p = Some pp → purge_inv d (pass_state pp) → purge_inv d' (pass_state pp)) →
  slab_inv P H p d'.
Proof.
  intros [S1 S2 S3 S4 S5 S6 S7 S8] [F1 (_ & _ & _ & _ & _ & F2 & F3) F4 F5 F6 F7] H1 H2 H3 H4 H5 HP.
  split; [done|done|congruence..|done| |].
  - intros pp Hpp. destruct (S7 pp Hpp) as (K1 & K2 & K3 & K4). split_and!; [done|congruence|by apply HP|done].
  - unfold slab_bounds. rewrite F3, H4. done.
Qed.

Lemma edata_put_inv s W P H L c :
  shard_inv T s W P H → extents_inv s W L → shard_inv T (add_call c s) W P H ∧ extents_inv (add_call c s) W L.
Proof.
  intros I X. split; [by apply (shard_inv_frame T s); [|apply (hi_psset _ _ _ _ _ I)|..]|].
  apply (extents_inv_frame s); [done|done|done|apply (xi_edatas _ _ _ X)].
Qed.

(** Putting the slab back after the extent map refused the extent. *)
Lemma abandon_extent_ok s0 s W P H L p d b n d' e ed ed' :
  shard_inv T s0 W P H → extents_inv s0 W L → p ∈ W → ps_data (slabs s0) !! p = Some d → P !! p = None →
  editing T W (ps_data (slabs s0)) p d' (slabs s) → reserved d d' b n → 0 < n →
  e ≠ 0 → L !! e = None → edatas s = <[e:=ed']> (edatas s0) → describes ed' p (h_address d + b * PAGE) n →
  same_rest s0 s → edatas s0 !! e = Some ed →
  ∃ s', abandon_extent T e p s = Done (tt, s') ∧ opts s' = opts s ∧ shard_inv T s' W P H ∧ extents_inv s' W L.
Proof.
  intros I X Hp Ed HP E [R1 R2 R3 R4 R5 R6 R7 (F1 & F2 & F3 & F4 & F5 & F6)] Hn He HL Ee (Q1 & Q2 & Q3 & Q4) (N1 & _ & N3 & _) Ee0.
  pose proof (hi_slab _ _ _ _ _ I p d Hp Ed) as HS. unfold abandon_extent.
  erewrite bind_done by (apply edata_at_ok; [done|rewrite Ee; apply lookup_insert_eq]).
  rewrite Q2, Q3. destruct (unreserve_ok d' b n R1 R2 Hn R3) as (d2 & E2 & H2 & Ha2 & Ht2 & Hn2).
  { intros i Hi. by rewrite R5, bool_decide_true by lia. }
  assert (Hadd : u64 (h_address d' + b * PAGE) = h_address d + b * PAGE).
  { rewrite F1. apply u64_small. unfold is_u64. destruct (si_bounds _ _ _ _ HS) as (B1 & B2 & _).
    rewrite hugepage_pages in R3. change HUGEPAGE with (512 * PAGE) in B2. change PAGE with 4096 in *. lia. }
  rewrite Hadd in E2. pose proof (unreserve_flags _ _ _ _ E2) as Hfl.
  destruct (shard_update T W _ p d' s (λ h, h' ← hpdata_unreserve h (h_address d + b * PAGE) (n * PAGE); Done (tt, h')) tt d2 E)
    as (m & Em & X2); [by rewrite E2|by apply same_flags_container..|].
  rewrite (bind_done _ _ _ _ _ Em).
  assert (Hnt : h_ntouched d2 = h_ntouched d') by (by rewrite (ho_ntouched _ H2), (ho_ntouched _ R1), Ht2).
  assert (Hf2 : h_mid_purge d2 = h_mid_purge d ∧ h_mid_hugify d2 = h_mid_hugify d ∧ h_alloc_allowed d2 = h_alloc_allowed d ∧
    h_address d2 = h_address d ∧ h_huge d2 = h_huge d ∧ h_purge_allowed d2 = h_purge_allowed d)
    by (destruct Hfl as (? & ? & ? & ? & ? & ->); cbn; split_and!; done).
  destruct Hf2 as (G1 & G2 & G3 & G4 & G5 & G6).
  destruct (ended_flags d2 d2 H2 (same_pages_refl d2)) as [Hso Hsf]; [apply (ho_changing _ H2)| |].
  { rewrite G6, Hnt, Hn2, R7. intros Ha. pose proof (si_purge _ _ _ _ HS Ha). lia. }
  destruct (shard_end T W _ p d2 (set_slabs m s) X2 Hso) as (m' & Em' & D' & I').
  rewrite (bind_done _ _ _ _ _ Em'). eexists. split; [reflexivity|]. split; [reflexivity|]. apply edata_put_inv.
  - eapply (shard_inv_update T s0 _ W P P H H p d (ended d2)); try done.
    + apply (slab_inv_keep P H p d d2); try done. intros pp Hpp. congruence.
    + by rewrite <- (hi_pending _ _ _ _ _ I), <- N1.
  - eapply (extents_inv_same s0 _ W L p d (ended d2)); try done.
    + intros i Hi. cbn. rewrite Ha2, R5 by done. case_bool_decide as Hb; cbn; [|done]. by rewrite R4.
    + intros e1 [x Hx]. cbn. rewrite Ee, lookup_insert_ne; [done|]. intros ->. congruence.
    + intros e1 ed1. cbn. rewrite Ee. destruct (decide (e1 = e)) as [->|]; [rewrite lookup_insert_eq; by intros [= <-]|].
      rewrite lookup_insert_ne by done. apply (xi_edatas _ _ _ X).
Qed.

(** Putting it back with the extent in use. *)
Lemma commit_extent_ok s0 s W P H L p d b n d' e ed' :
  shard_inv T s0 W P H → extents_inv s0 W L → p ∈ W → ps_data (slabs s0) !! p = Some d → P !! p = None →
  editing T W (ps_data (slabs s0)) p d' (slabs s) → reserved d d' b n → 0 < n →
  e ≠ 0 → L !! e = None → edatas s = <[e:=ed']> (edatas s0) → describes ed' p (h_address d + b * PAGE) n →
  same_rest s0 s →
  ∃ s', commit_extent T e p s = Done (tt, s') ∧ opts s' = opts s ∧ shard_inv T s' W P H ∧ extents_inv s' W (<[e:=mkExt p b n]> L).
Proof.
  intros I X Hp Ed HP E [R1 R2 R3 R4 R5 R6 R7 (F1 & F2 & F3 & F4 & F5 & F6)] Hn He HL Ee Q (N1 & _ & N3 & _).
  pose proof (hi_slab _ _ _ _ _ I p d Hp Ed) as HS. unfold commit_extent. erewrite bind_done by reflexivity.
  destruct (shard_eligible T W _ p d' (add_call (CallRegister e) s) E) as (now & a & m & Em & X2).
  rewrite (bind_done _ _ _ _ _ Em).
  destruct (eligible_flags d' d' (add_call (CallRegister e) s) now R1 (same_pages_refl d')) as [Hso Hsf].
  destruct (shard_end T W _ p _ (set_slabs m (set_answers a (add_call (CallRegister e) s))) X2 Hso) as (m' & Em' & D' & I').
  rewrite Em'. eexists. split; [reflexivity|]. split; [reflexivity|]. pose proof (sf_pages _ _ Hsf) as (G1 & _ & _ & _ & _ & _ & G7). split.
  - eapply (shard_inv_update T s0 _ W P P H H p d); try done.
    + apply (slab_inv_keep P H p d d'); try done. intros pp Hpp. congruence.
    + by rewrite G7.
    + by rewrite <- (hi_pending _ _ _ _ _ I), <- N1.
  - eapply (extents_inv_add s0 _ W L p d _ b n e ed'); try done; [by rewrite G7|].
    intros i Hi. by rewrite G1, R5.
Qed.

(** No slab of [X] is known to have room for [n] pages. *)
Definition no_room (m : psset_mem) (X : gset Z) (n : Z) : Prop :=
  (∀ q j, serves T m X q (BinNonfull j) → psize T j < n * PAGE) ∧ (∀ q, ¬ serves T m X q BinEmpty).

(** An allocation that found no slab, and did nothing but take an answer. *)
Record starved (s s' : hpa_mem) (W : gset Z) (n : Z) : Prop := {
  sv_room : no_room (slabs s) W n;
  sv_data : ps_data (slabs s') = ps_data (slabs s);
  sv_edatas : edatas s' = edatas s;
  sv_answers : an_edata (answers s') = tail (an_edata (answers s)) ∧ an_base (answers s') = an_base (answers s) ∧
    an_map (answers s') = an_map (answers s) ∧ an_emap (answers s') = an_emap (answers s)
}.

(** Outside code has no memory for a descriptor or for the extent map. *)
Definition refused (a : hpa_answers) : Prop :=
  default 0 (head (an_edata a)) = 0 ∨ default false (head (an_emap a)) = true.

(** What an allocation of [n] pages may return. *)
Definition alloc_result (s s' : hpa_mem) (W : gset Z) (P : gmap Z purge_pass) (H : gset Z) (L : gmap Z extent) (n r : Z) (oom : bool) : Prop :=
  (r = 0 ∧ shard_inv T s' W P H ∧ extents_inv s' W L ∧ (if oom then refused (answers s) else starved s s' W n)) ∨
  (r ≠ 0 ∧ oom = false ∧ L !! r = None ∧
   ∃ p b, P !! p = None ∧ shard_inv T s' W P H ∧ extents_inv s' W (<[r:=mkExt p b n]> L)).

(** The extent descriptors the cache may hand out. *)
Definition fresh_edata (s : hpa_mem) (L : gmap Z extent) (e : Z) : Prop := e = 0 ∨ (L !! e = None ∧ is_Some (edatas s !! e)).

Lemma picked_slab s W P H n p :
  shard_inv T s W P H → 1 ≤ n ≤ HUGEPAGE_PAGES → alloc_choice T (slabs s) (W ∖ ∅) n p → p ≠ 0 →
  ∃ d, p ∈ W ∧ ps_data (slabs s) !! p = Some d ∧ P !! p = None ∧ n ≤ h_longest_free_range d.
Proof.
  intros I Hn Hc Hp. rewrite difference_empty_L in Hc.
  assert (Hmid : ∀ d, p ∈ W → ps_data (slabs s) !! p = Some d → h_alloc_allowed d = true → P !! p = None).
  { intros d HW Ed Ha. destruct (hi_slab _ _ _ _ _ I p d HW Ed) as [_ _ S3 _ S5 _ _ _]. rewrite S5, S3 in Ha.
    apply negb_true_iff, bool_decide_eq_false in Ha. by apply eq_None_not_Some. }
  destruct Hc as [(i & (HW & d & Ed & Ha & Eb) & Hs & _)|[_ [(HW & d & Ed & Ha & Eb)|[? _]]]]; [..|done].
  - exists d. split_and!; [done|done|by apply (Hmid d)|].
    destruct (hi_slab _ _ _ _ _ I p d HW Ed) as [S1 S2 _ _ _ _ _ _].
    pose proof (nonfull_class T d i (hp_ok_slab_ok d S1 S2) Eb). change PAGE with 4096 in *. lia.
  - exists d. split_and!; [done|done|by apply (Hmid d)|].
    rewrite (empty_longest d); [lia|apply (hi_slab _ _ _ _ _ I p d HW Ed)|].
    unfold slab_bin, hpdata_empty in Eb. destruct (Z.eqb_spec (h_nactive d) 0); [done|]. destruct (hpdata_full d); [done|].
    by destruct (pages_pind T (hpdata_longest_free_range_get d)).
Qed.

Lemma alloc_one_ok s W P H L n :
  shard_inv T s W P H → extents_inv s W L → 1 ≤ n ≤ HUGEPAGE_PAGES →
  fresh_edata s L (default 0 (head (an_edata (answers s)))) →
  ∃ r oom s', hpa_try_alloc_one_no_grow T (n * PAGE) s = Done ((r, oom), s') ∧ opts s' = opts s ∧ alloc_result s s' W P H L n r oom.
Proof.
  intros I X Hn Hfr. unfold hpa_try_alloc_one_no_grow. erewrite bind_done by reflexivity.
  set (e := default 0 (head (an_edata (answers s)))) in *. set (s0 := set_answers _ s).
  assert (I0 : shard_inv T s0 W P H) by (apply (shard_inv_frame T s); [done|apply (hi_psset _ _ _ _ _ I)|done..]).
  assert (X0 : extents_inv s0 W L) by (apply (extents_inv_frame s); [done|done|done|apply (xi_edatas _ _ _ X)]).
  destruct (Z.eqb_spec e 0) as [He|He]; [exists 0, true, s0; split_and!; [done|done|left; split_and!; [done..|by left]]|].
  destruct (psset_pick_alloc_ok T (slabs s0) W ∅ n (hi_psset _ _ _ _ _ I0) Hn) as (p & m1 & E1 & D1 & I1 & Hc).
  rewrite (bind_done _ _ _ _ _ (on_psset_ok _ _ _ _ E1)). set (s1 := set_slabs m1 s0).
  assert (I1' : shard_inv T s1 W P H) by (apply (shard_inv_frame T s0); done).
  assert (X1 : extents_inv s1 W L) by (apply (extents_inv_frame s0); [done|exact D1|done|apply (xi_edatas _ _ _ X0)]).
  destruct (Z.eqb_spec p 0) as [Hp0|Hp0].
  { erewrite bind_done by reflexivity. eexists 0, false, _. split; [reflexivity|]. split; [done|]. left. split; [done|].
    destruct (edata_put_inv s1 W P H L (CallEdataPut e) I1' X1) as [I2 X2]. split_and!; [done|done|].
    split; [|exact D1|done|done]. rewrite difference_empty_L in Hc. subst p.
    destruct Hc as [(i & (HW & _) & _)|[H1 [(HW & _)|[_ H2]]]]; [..|done];
      by destruct (pi_known _ _ _ _ (hi_psset _ _ _ _ _ I0) 0 HW). }
  destruct (picked_slab s0 W P H n p I0 Hn Hc Hp0) as (d & HW & Ed & HP & Hl). rewrite <- D1 in Ed.
  destruct Hfr as [?|[HL [ed Ee]]]; [done|].
  destruct (hi_slab _ _ _ _ _ I1' p d HW Ed) as [S1 _ _ _ _ _ _ S8].
  destruct (reserve_extent_ok s1 W p d e ed n I1 HW Ed S1 S8 ltac:(lia) He Ee (xi_edatas _ _ _ X e ed Ee))
    as (s2 & b & d' & ed' & E2 & X2 & Hr & Ee2 & Hd & HR & A2 & C2).
  rewrite (bind_done _ _ _ _ _ E2). erewrite bind_done by reflexivity. set (s3 := set_answers _ s2).
  destruct (default false (head (an_emap (answers s2)))) eqn:Hem; rewrite A2 in Hem.
  - destruct (abandon_extent_ok s1 s3 W P H L p d b n d' e ed ed') as (s' & E' & O' & I' & X'); try done; [lia|].
    rewrite (bind_done _ _ _ _ _ E'). exists 0, true, s'. split; [done|]. split; [rewrite O'; apply HR|left; split_and!; [done..|by right]].
  - destruct (commit_extent_ok s1 s3 W P H L p d b n d' e ed') as (s' & E' & O' & I' & X'); try done; [lia|].
    rewrite (bind_done _ _ _ _ _ E'). exists e, false, s'. split; [done|]. split; [rewrite O'; apply HR|].
    right. split_and!; [done..|]. by exists p, b.
Qed.
End alloc.
