(* ===== verification/HpaWork.v ===== *)
(** * Deallocation, purging, hugification and deferred work in a shard *)
From stdpp Require Import base list gmap numbers.
From S2P Require Import Prelude BitUtil SizeClass Sz SzTheorems Fb FbFacts FbTheorems Hpdata HpdataTheorems HpdataPurge Edata EdataTheorems Ph Ql Psset PssetSizes PssetFacts PssetInv PssetOps PssetPick Hpa HpaInv HpaOps.

Lemma page_base a : is_u64 a → a mod PAGE = 0 → PAGE_ADDR2BASE a = a.
Proof.
  intros Ha Hm. unfold PAGE_ADDR2BASE. change PAGE_MASK with (2 ^ 12 - 1). rewrite land_not64_low by (done || lia).
  change (2 ^ 12) with PAGE. lia.
Qed.

(** The pass only sees the pages. *)
Lemma purge_inv_pages h h' st :
  active_pages h' = active_pages h → touched_pages h' = touched_pages h → purge_inv h st → purge_inv h' st.
Proof. intros E1 E2 [P1 P2 P3 P4 P5]. split; rewrite ?E1, ?E2; done. Qed.

Section work.
Context (T : sz_tables) `{!SzReady T}.

(** ** Deallocation *)

(** The extent of a live descriptor. *)
Lemma live_extent s W P H L e x :
  shard_inv T s W P H → extents_inv s W L → L !! e = Some x →
  ∃ ed d, e ≠ 0 ∧ edatas s !! e = Some ed ∧ x_slab x ∈ W ∧ ps_data (slabs s) !! x_slab x = Some d ∧ slab_inv P H (x_slab x) d ∧
    0 ≤ x_page x ∧ 0 < x_npages x ∧ x_page x + x_npages x ≤ HUGEPAGE_PAGES ∧
    describes ed (x_slab x) (h_address d + x_page x * PAGE) (x_npages x) ∧
    is_u64 (h_address d + x_page x * PAGE) ∧ (h_address d + x_page x * PAGE) mod PAGE = 0 ∧
    (∀ i, x_page x ≤ i < x_page x + x_npages x → fbit (active_pages d) i = true).
Proof.
  intros I X Hx. destruct (xi_ok _ _ _ X e x Hx) as [O1 O2 O3 O4 (O5 & ed & d & E1 & E2 & E3 & E4 & E5)].
  pose proof (hi_slab _ _ _ _ _ I _ d O1 E2) as HS. destruct (si_bounds _ _ _ _ HS) as (B1 & B2 & B3).
  exists ed, d. split_and!; try done.
  - split; [done|]. split; [done|]. split; [done|]. by apply (xi_edatas _ _ _ X e).
  - unfold is_u64. rewrite hugepage_pages in O4. change HUGEPAGE with (512 * PAGE) in B2. change PAGE with 4096 in *. lia.
  - rewrite Z.mod_add by done. done.
  - intros i Hi. apply (xi_active _ _ _ X (x_slab x) d i O1 E2); [lia|]. by exists e, x.
Qed.

Lemma dalloc_prepare_ok s W P H L e x :
  shard_inv T s W P H → extents_inv s W L → L !! e = Some x →
  ∃ s', hpa_dalloc_prepare_unlocked e s = Done (tt, s') ∧ opts s' = opts s ∧ shard_inv T s' W P H ∧ extents_inv s' W L.
Proof.
  intros I X Hx. destruct (live_extent s W P H L e x I X Hx) as (ed & d & He & Ee & HW & Ed & HS & _ & _ & _ & (Q1 & Q2 & Q3 & Q4) & Hu & Hm & _).
  unfold hpa_dalloc_prepare_unlocked. erewrite bind_done by (by apply edata_at_ok).
  erewrite bind_done by (by apply edata_put_ok).
  erewrite bind_done by (apply edata_put_ok; [done|cbn [edatas set_edatas]; apply lookup_insert_eq]).
  eexists. split; [reflexivity|]. split; [reflexivity|]. apply (edata_put_inv T).
  - apply (shard_inv_frame T s); [done|apply (hi_psset _ _ _ _ _ I)|done..].
  - cbn [edatas set_edatas]. rewrite insert_insert_eq. unfold edata_base_get. unfold edata_addr_get in Q2. rewrite Q2, page_base by done.
    set (ed' := edata_zeroed_set _ _). destruct X as [X1 X2 X3 X4]. split; [|done|done|].
    + intros e1 x1 Hx1. destruct (X1 e1 x1 Hx1) as [O1 O2 O3 O4 (O5 & ed1 & d1 & E1 & E2 & E3 & E4 & E5)].
      split; try done. split; [done|]. cbn [edatas set_edatas slabs]. destruct (decide (e1 = e)) as [->|Hne].
      * exists ed', d1. rewrite lookup_insert_eq. rewrite Ee in E1. injection E1 as <-.
        rewrite Hx in Hx1. injection Hx1 as <-. rewrite Ed in E2. injection E2 as <-. done.
      * exists ed1, d1. by rewrite lookup_insert_ne.
    + intros e1 ed1. cbn [edatas set_edatas]. destruct (decide (e1 = e)) as [->|]; [rewrite lookup_insert_eq; by intros [= <-]|].
      rewrite lookup_insert_ne by done. apply X4.
Qed.

Lemma dalloc_ok s W P H L e x :
  shard_inv T s W P H → extents_inv s W L → L !! e = Some x →
  ∃ s', hpa_dalloc_locked T e s = Done (tt, s') ∧ opts s' = opts s ∧ shard_inv T s' W P H ∧ extents_inv s' W (delete e L).
Proof.
  intros I X Hx.
  destruct (live_extent s W P H L e x I X Hx) as (ed & d & He & Ee & HW & Ed & HS & H1 & H2 & H3 & (Q1 & Q2 & Q3 & Q4) & Hu & _ & Hact).
  unfold hpa_dalloc_locked. erewrite bind_done by (by apply edata_at_ok). erewrite bind_done by reflexivity. rewrite Q1, Q2, Q3.
  set (s0 := add_call _ s). pose proof (si_ok _ _ _ _ HS) as Hok.
  destruct (shard_begin T W s0 (x_slab x) d (hi_psset _ _ _ _ _ I) HW Ed) as (m & Em & E). rewrite (bind_done _ _ _ _ _ Em).
  destruct (unreserve_ok (begun d) (x_page x) (x_npages x) (hp_ok_begun d Hok) H1 H2 H3 Hact) as (d2 & E2 & Hok2 & Ha2 & Ht2 & Hn2).
  change (h_address (begun d)) with (h_address d) in E2. rewrite u64_small in E2 by done.
  pose proof (unreserve_flags _ _ _ _ E2) as Hfl.
  destruct (shard_update T W _ (x_slab x) (begun d) (set_slabs m s0)
    (λ h, h' ← hpdata_unreserve h (h_address d + x_page x * PAGE) (x_npages x * PAGE); Done (tt, h')) tt d2 E)
    as (m2 & Em2 & X2); [by rewrite E2|by apply same_flags_container..|].
  rewrite (bind_done _ _ _ _ _ Em2).
  destruct (shard_eligible T W _ (x_slab x) d2 (set_slabs m2 (set_slabs m s0)) X2) as (now & a & m3 & Em3 & X3).
  rewrite (bind_done _ _ _ _ _ Em3).
  destruct (eligible_flags d2 d2 (set_slabs m2 (set_slabs m s0)) now Hok2 (same_pages_refl d2)) as [Hso Hsf].
  destruct (shard_end T W _ (x_slab x) _ (set_slabs m3 (set_answers a (set_slabs m2 (set_slabs m s0)))) X3 Hso) as (m4 & Em4 & D4 & I4).
  rewrite Em4. eexists. split; [reflexivity|]. split; [reflexivity|]. pose proof (sf_pages _ _ Hsf) as (G1 & G2 & _ & _ & _ & _ & G7).
  assert (F : h_mid_purge d2 = h_mid_purge d ∧ h_mid_hugify d2 = h_mid_hugify d ∧ h_alloc_allowed d2 = h_alloc_allowed d ∧
    h_address d2 = h_address d ∧ h_huge d2 = h_huge d) by (destruct Hfl as (? & ? & ? & ? & ? & ->); done).
  destruct F as (F1 & F2 & F3 & F4 & F5). split.
  - eapply (shard_inv_update T s _ W P P H H (x_slab x) d); try done; [|congruence|apply (hi_pending _ _ _ _ _ I)].
    apply (slab_inv_keep P H (x_slab x) d d2); try done. intros pp _ HP.
    apply (purge_inv_freed d); [done|by rewrite G2, Ht2|]. intros i Hi. rewrite G1, Ha2 by done. by intros [_ ?]%andb_true_iff.
  - eapply (extents_inv_remove s _ W L (x_slab x) d); try done; [congruence|]. intros i Hi. by rewrite G1, Ha2.
Qed.

(** ** Purging *)

(** Four assignments to a slab under edit. *)
Lemma shard_set2 W D p d s f g :
  editing T W D p d (slabs s) →
  h_in_psset_alloc_container (f d) = false → h_in_psset_hugify_container (f d) = h_in_psset_hugify_container d →
  h_in_psset_alloc_container (g (f d)) = false → h_in_psset_hugify_container (g (f d)) = h_in_psset_hugify_container d →
  ∃ m, (∀ X (k : M hpa_mem X), (on_psset (slab_set p f);; on_psset (slab_set p g);; k) s = k (set_slabs m s)) ∧
    editing T W D p (g (f d)) m.
Proof.
  intros E F1 F2 F3 F4. destruct (shard_set T W D p d s f E F1 F2) as (m1 & E1 & X1).
  destruct (shard_set T W D p _ (set_slabs m1 s) g X1) as (m2 & E2 & X2); [done|congruence|].
  exists m2. split; [|done]. intros X k. by rewrite (bind_done _ _ _ _ _ E1), (bind_done _ _ _ _ _ E2).
Qed.

(** The slab whose pass begins. *)
Definition passing (d : hpdata_t) : hpdata_t :=
  hpdata_alloc_allowed_set false (hpdata_disallow_hugify (hpdata_purge_allowed_set false (hpdata_mid_purge_set true d))).

Lemma passing_flags d :
  hp_ok d → slab_ok (passing (begun d)) ∧ settled_flags (passing (begun d)) (ended (passing (begun d))).
Proof. intros H. by apply (ended_flags d). Qed.

Lemma purge_begin_num h scratch mem n st : hpdata_purge_begin h scratch mem = Done (n, st) → ndirty_to_purge st = n.
Proof.
  unfold hpdata_purge_begin. intros E. repeat (apply outcome_bind_done_inv in E as (? & _ & E)). by injection E as <- <-.
Qed.

Lemma slab_get_settled s W p d :
  psset_inv T (slabs s) W ∅ → p ∈ W → ps_data (slabs s) !! p = Some d → on_psset (slab_get p) s = Done (d, s).
Proof.
  intros I Hp Ed. destruct (pi_known _ _ _ _ I p Hp) as [Hp0 _].
  erewrite on_psset_ok by (by apply slab_get_ok). by rewrite set_slabs_id.
Qed.

(** What the beginning of a pass leaves: the slab is out of the container, and the pass is to cover its dirty pages. *)
Record pass_begun (s s' : hpa_mem) (pp : purge_pass) (d : hpdata_t) : Prop := {
  pb_slab : ∃ d', ps_data (slabs s') = <[pass_slab pp:=d']> (ps_data (slabs s)) ∧ same_pages d d';
  pb_calls : calls s' = calls s;
  pb_stats : shard_stats s' = shard_stats s;
  pb_huge : pass_dehugify pp = h_huge d;
  pb_next : next_purge_search_begin (pass_state pp) = 0;
  pb_dirty : ∀ i, 0 ≤ i < HUGEPAGE_PAGES → fbit (touched_pages d) i = true → fbit (active_pages d) i = false →
    fbit (Hpdata.to_purge (pass_state pp)) i = true
}.

Lemma try_purge_begin_ok s W P H L scratch mem :
  shard_inv T s W P H → extents_inv s W L → room scratch → room mem →
  ∃ r s', try_purge_begin T scratch mem s = Done (r, s') ∧ extents_inv s' W L ∧
    match r with
    | None => s' = s ∧ ∀ p d, p ∈ W → ps_data (slabs s) !! p = Some d → h_purge_allowed d = false
    | Some pp => P !! pass_slab pp = None ∧ shard_inv T s' W (<[pass_slab pp:=pp]> P) H ∧ 0 < pass_num pp ∧
        (edatas s' = edatas s ∧ answers s' = answers s ∧ opts s' = opts s) ∧
        ∃ d, pass_slab pp ∈ W ∧ ps_data (slabs s) !! pass_slab pp = Some d ∧ h_purge_allowed d = true ∧ pass_begun s s' pp d
    end.
Proof.
  intros I X Hs Hm. unfold try_purge_begin.
  destruct (psset_pick_purge_ok T (slabs s) W ∅ (hi_psset _ _ _ _ _ I)) as (p & Ep & Hc). rewrite difference_empty_L in Hc.
  erewrite bind_done by (apply on_psset_ok; exact Ep). rewrite set_slabs_id.
  destruct Hc as [(i & (HW & d & Ed & Ha & Ei) & _)|[-> Hnone]].
  2: { exists None, s. split_and!; [done..|]. intros p d HW Ed. destruct (h_purge_allowed d) eqn:Ha; [|done]. exfalso.
       destruct (hi_slab _ _ _ _ _ I p d HW Ed) as [S1 S2 _ _ _ _ _ _].
       destruct (slab_ok_purge_filed T d (hp_ok_slab_ok d S1 S2) Ha) as (i & Ei & _). apply (Hnone p i). split; [done|by exists d]. }
  destruct (pi_known _ _ _ _ (hi_psset _ _ _ _ _ I) p HW) as [Hp0 _]. rewrite (proj2 (Z.eqb_neq p 0)) by done.
  pose proof (hi_slab _ _ _ _ _ I p d HW Ed) as [S1 S2 S3 S4 S5 S6 S7 S8].
  assert (Hch : hpdata_changing_state_get d = false).
  { destruct (hpdata_changing_state_get d) eqn:E; [|done]. destruct (ho_changing d S1 E). congruence. }
  unfold hpdata_changing_state_get in Hch. apply orb_false_iff in Hch as [Hmp Hmh].
  assert (HP : P !! p = None) by (rewrite Hmp in S3; symmetry in S3; apply bool_decide_eq_false in S3; by apply eq_None_not_Some).
  destruct (shard_begin T W s p d (hi_psset _ _ _ _ _ I) HW Ed) as (m & Em & E). rewrite (bind_done _ _ _ _ _ Em).
  destruct (shard_set2 W _ p (begun d) (set_slabs m s) (hpdata_mid_purge_set true) (hpdata_purge_allowed_set false) E)
    as (m1 & -> & X1); [done..|].
  destruct (shard_set2 W _ p _ (set_slabs m1 s) hpdata_disallow_hugify (hpdata_alloc_allowed_set false) X1) as (m2 & -> & X2); [done..|].
  destruct (passing_flags d S1) as [Hso Hsf].
  destruct (shard_end T W _ p _ (set_slabs m2 s) X2 Hso) as (m3 & Em3 & D3 & I3). rewrite (bind_done _ _ _ _ _ Em3).
  set (d' := ended (passing (begun d))) in *.
  assert (Ed' : ps_data m3 !! p = Some d') by (by rewrite D3, lookup_insert_eq).
  erewrite bind_done by (by eapply (slab_get_settled (set_slabs m3 s))).
  destruct (purge_begin_ok d' scratch mem (sf_ok _ _ Hsf) Hs Hm) as (st & Eb & Hst & Hnx & Hdirty).
  erewrite bind_done by (apply liftO_done; exact Eb).
  pose proof (purge_begin_num _ _ _ _ _ Eb) as Hnum. pose proof (sf_pages _ _ Hsf) as (G1 & G2 & G3 & G4 & _ & G6 & G7).
  eexists (Some _), _. split; [reflexivity|]. cbn [pass_slab pass_num]. split.
  { eapply (extents_inv_same s _ W L p d d'); try done. apply (xi_edatas _ _ _ X). }
  assert (Hpos : 0 < h_ntouched d' - h_nactive d').
  { rewrite G3, G4. specialize (S2 Ha). change (h_nactive (passing (begun d))) with (h_nactive d).
    change (h_ntouched (passing (begun d))) with (h_ntouched d). lia. }
  split; [exact HP|]. split; [|split; [exact Hpos|split; [exact (conj eq_refl (conj eq_refl eq_refl))|]]].
  2: { exists d. split; [done|]. split; [done|]. split; [done|].
       assert (same_pages d d') as Hpg by exact (sf_pages _ _ Hsf).
       split; [exists d'; split; [exact D3|exact Hpg]|done|done|exact G6|exact Hnx|].
       intros k Hk Ht Hna. apply Hdirty; [done|by rewrite G2|by rewrite G1]. }
  eapply (shard_inv_update T s _ W P _ H H p d d' I HW Ed);
    [exact I3|exact D3| |exact G7|intros q Hq; by rewrite lookup_insert_ne|done| |reflexivity].
  - split; [apply (sf_ok _ _ Hsf)|apply (sf_purge _ _ Hsf)|..].
    + rewrite lookup_insert_eq. by rewrite bool_decide_eq_true_2.
    + exact S4.
    + done.
    + intros HpH. rewrite Hmh in S4. symmetry in S4. by apply bool_decide_eq_false in S4.
    + intros pp. rewrite lookup_insert_eq. intros [= <-]. cbn. split_and!; [done|done|done|by rewrite Hnum].
    + exact S8.
  - rewrite pending_insert by done. cbn [npending_purge set_npending_purge pass_num]. cbn. rewrite (hi_pending _ _ _ _ _ I).
    unfold u64. rewrite Zplus_mod_idemp_l. f_equal. lia.
Qed.

(** One call of the hook: no page that it purges is in use. *)
Lemma purge_one_ok s W P H L p pp :
  shard_inv T s W P H → extents_inv s W L → P !! p = Some pp →
  ∃ r s', purge_one pp s = Done (r, s') ∧ extents_inv s' W L ∧ edatas s' = edatas s ∧ opts s' = opts s ∧
    match r with
    | None => s' = s
    | Some pp' => shard_inv T s' W (<[p:=pp']> P) H ∧
        (pass_slab pp' = pass_slab pp ∧ pass_dehugify pp' = pass_dehugify pp ∧ pass_num pp' = pass_num pp) ∧
        next_purge_search_begin (pass_state pp) < next_purge_search_begin (pass_state pp') ≤ HUGEPAGE_PAGES ∧
        ∃ d b l, ps_data (slabs s) !! p = Some d ∧ 0 ≤ b ∧ 0 < l ∧ b + l ≤ HUGEPAGE_PAGES ∧
          calls s' = calls s ++ [CallPurge (h_address d + b * PAGE) (l * PAGE)] ∧
          ∀ i, b ≤ i < b + l → ∀ e x, L !! e = Some x → ¬ covers x p i
    end.
Proof.
  intros I X Hpp. assert (HW : p ∈ W) by (apply (hi_passes _ _ _ _ _ I); by rewrite Hpp).
  destruct (shard_inv_slab T s W P H p I HW) as (d & Ed & HS). destruct (si_pass _ _ _ _ HS pp Hpp) as (K1 & K2 & K3 & K4).
  unfold purge_one. rewrite K1. erewrite bind_done by (by eapply slab_get_settled; [apply (hi_psset _ _ _ _ _ I)|..]).
  destruct (purge_next_ok d (pass_state pp) K3) as (r & Er & Hr). erewrite bind_done by (apply liftO_done; exact Er).
  destruct r as [[[addr size] st]|]; [|by exists None, s].
  destruct Hr as (b & l & -> & -> & [R1 R2 R3 R4 R5 R6] & Hst & Etp & Hnext).
  pose proof (HpdataPurge.pi_next _ _ K3) as Hnx. destruct (si_bounds _ _ _ _ HS) as (B1 & B2 & B3).
  rewrite u64_small.
  2: { rewrite hugepage_pages in R3. unfold is_u64. change HUGEPAGE with (512 * PAGE) in B2. change PAGE with 4096 in *. lia. }
  erewrite bind_done by reflexivity. eexists (Some _), _. split; [reflexivity|].
  split; [apply (extents_inv_frame s); [done|done|done|apply (xi_edatas _ _ _ X)]|]. split; [done|]. split; [done|]. split; [|split; [done|split]].
  - assert (Hnd : ndirty_to_purge st = ndirty_to_purge (pass_state pp))
      by (by rewrite (HpdataPurge.pi_ndirty _ _ Hst), (HpdataPurge.pi_ndirty _ _ K3), Etp).
    eapply (shard_inv_update T s _ W P _ H H p d d I HW Ed);
      [apply (hi_psset _ _ _ _ _ I)|by rewrite insert_id| |done|intros q Hq; by rewrite lookup_insert_ne|done| |reflexivity].
    + destruct HS as [S1 S2 S3 S4 S5 S6 S7 S8]. split; try done.
      * rewrite S3, lookup_insert_eq, Hpp. done.
      * intros Hh. specialize (S6 Hh). congruence.
      * intros pp'. rewrite lookup_insert_eq. intros [= <-]. cbn [pass_slab pass_dehugify pass_num pass_state].
        rewrite Hnd. done.
    + rewrite <- (insert_delete_eq P p), pending_insert by apply lookup_delete_eq. rewrite (pending_delete P p pp Hpp).
      cbn [pass_num npending_purge add_call]. rewrite (hi_pending _ _ _ _ _ I). f_equal. lia.
  - cbn [pass_state]. lia.
  - exists d, b, l. split_and!; [done|lia|done|done|done|]. intros i Hi e x Hx Hc.
    assert (Hact : fbit (active_pages d) i = true) by (apply (xi_active _ _ _ X p d i HW Ed); [lia|by exists e, x]).
    rewrite (HpdataPurge.pi_inactive _ _ K3) in Hact; [done|lia|]. apply R5. lia.
Qed.

(** The loop hands the hook the ranges of the purge, one call each, and nothing else changes. *)
Definition purge_call (r : Z * Z) : hpa_call := CallPurge r.1 r.2.
Definition add_calls (cs : list hpa_call) (s : hpa_mem) : hpa_mem := foldl (flip add_call) s cs.

Lemma add_calls_frame cs s :
  slabs (add_calls cs s) = slabs s ∧ calls (add_calls cs s) = calls s ++ cs ∧ shard_stats (add_calls cs s) = shard_stats s.
Proof.
  revert s. induction cs as [|c cs IH]; intros s; cbn [add_calls foldl flip]; [by rewrite app_nil_r|].
  destruct (IH (add_call c s)) as (E1 & E2 & E3). fold (add_calls cs (add_call c s)). rewrite E1, E2, E3. cbn [calls add_call].
  by rewrite <- app_assoc.
Qed.

Lemma purge_one_eq s W pp d r :
  psset_inv T (slabs s) W ∅ → pass_slab pp ∈ W → ps_data (slabs s) !! pass_slab pp = Some d →
  hpdata_purge_next d (pass_state pp) = Done r →
  purge_one pp s = match r with
                   | None => Done (None, s)
                   | Some (addr, size, st) => Done (Some (mkPass (pass_slab pp) (pass_dehugify pp) (pass_num pp) st), add_call (CallPurge addr size) s)
                   end.
Proof.
  intros I Hp Ed Er. unfold purge_one. erewrite bind_done by (by eapply slab_get_settled).
  erewrite bind_done by (apply liftO_done; exact Er). by destruct r as [[[? ?] ?]|].
Qed.

Lemma purge_ranges_S fuel h ps rs ps' :
  purge_ranges (S fuel) h ps = Done (rs, ps') →
  ∃ r, hpdata_purge_next h ps = Done r ∧
    match r with
    | None => rs = [] ∧ ps' = ps
    | Some (addr, size, ps1) => ∃ rest, purge_ranges fuel h ps1 = Done (rest, ps') ∧ rs = (addr, size) :: rest
    end.
Proof.
  cbn [purge_ranges]. destruct (hpdata_purge_next h ps) as [r|]; [|done]. cbn [mbind outcome_bind]. intros E. exists r. split; [done|].
  destruct r as [[[addr size] ps1]|]; [|by injection E as <- <-].
  destruct (purge_ranges fuel h ps1) as [[rest ps2]|]; [|done]. injection E as <- <-. by exists rest.
Qed.

Lemma purge_loop_ranges fuel s W pp n d rs st :
  psset_inv T (slabs s) W ∅ → pass_slab pp ∈ W → ps_data (slabs s) !! pass_slab pp = Some d →
  purge_ranges (S fuel) d (pass_state pp) = Done (rs, st) → 0 ≤ n → n + Z.of_nat (length rs) < 2 ^ 64 →
  purge_loop fuel pp n s = Done ((st, n + Z.of_nat (length rs)), add_calls (purge_call <$> rs) s).
Proof.
  revert s pp n rs. induction fuel as [|fuel IH]; intros s pp n rs I Hp Ed Er Hn Hlen; cbn [purge_loop];
    destruct (purge_ranges_S _ _ _ _ _ Er) as (r & En & Hr); pose proof (purge_one_eq s W pp d r I Hp Ed En) as Eo;
    destruct r as [[[addr size] st1]|]; rewrite (bind_done _ _ _ _ _ Eo); clear Eo.
  - by destruct Hr as (rest & Hr & _).
  - destruct Hr as [-> ->]. by rewrite Z.add_0_r.
  - destruct Hr as (rest & Hr & ->). cbv beta iota. cbn [length] in Hlen. rewrite u64_small by (unfold is_u64; lia).
    rewrite (IH (add_call (CallPurge addr size) s) (mkPass (pass_slab pp) (pass_dehugify pp) (pass_num pp) st1) (n + 1) rest) by (done || lia).
    cbn [length]. do 3 f_equal. lia.
  - destruct Hr as [-> ->]. by rewrite Z.add_0_r.
Qed.

Lemma purge_loop_ok fuel s W P H L p pp n :
  shard_inv T s W P H → extents_inv s W L → P !! p = Some pp →
  (Z.to_nat (HUGEPAGE_PAGES - next_purge_search_begin (pass_state pp)) ≤ fuel)%nat →
  ∃ pp' n' s', purge_loop fuel pp n s = Done ((pass_state pp', n'), s') ∧ pass_slab pp' = pass_slab pp ∧
    pass_dehugify pp' = pass_dehugify pp ∧ pass_num pp' = pass_num pp ∧
    shard_inv T s' W (<[p:=pp']> P) H ∧ extents_inv s' W L ∧ edatas s' = edatas s ∧ opts s' = opts s.
Proof.
  revert s P pp n. induction fuel as [|fuel IH]; intros s P pp n I X Hpp Hf; cbn [purge_loop];
    destruct (purge_one_ok s W P H L p pp I X Hpp) as (r & s1 & E1 & X1 & Ee1 & Eo1 & Hr); rewrite (bind_done _ _ _ _ _ E1).
  - destruct r as [pp1|].
    + destruct Hr as (_ & _ & Hn & _). lia.
    + subst s1. exists pp, n, s. rewrite insert_id by done. by split_and!.
  - destruct r as [pp1|].
    + destruct Hr as (I1 & (O1 & O2 & O3) & Hn & _).
      destruct (IH s1 (<[p:=pp1]> P) pp1 (u64 (n + 1)) I1 X1 ltac:(by rewrite lookup_insert_eq) ltac:(lia))
        as (pp' & n' & s' & E' & Q1 & Q2 & Q3 & I' & X' & Ee' & Eo').
      exists pp', n', s'. rewrite E', insert_insert_eq in *. split_and!; try done; congruence.
    + subst s1. exists pp, n, s. rewrite insert_id by done. by split_and!.
Qed.

(** The end of a pass. *)
Lemma try_purge_end_ok s W P H L p pp n :
  shard_inv T s W P H → extents_inv s W L → P !! p = Some pp →
  ∃ s', try_purge_end T pp (pass_state pp) n s = Done (tt, s') ∧ shard_inv T s' W (delete p P) H ∧ extents_inv s' W L ∧
    (edatas s' = edatas s ∧ opts s' = opts s) ∧
    calls s' = calls s ∧ shard_stats s' = count_pass n (pass_dehugify pp) (shard_stats s) ∧
    ∃ d d', ps_data (slabs s) !! p = Some d ∧ ps_data (slabs s') = <[p:=d']> (ps_data (slabs s)) ∧
      active_pages d' = active_pages d ∧ h_huge d' = false ∧
      ∀ i, 0 ≤ i < HUGEPAGE_PAGES →
        fbit (touched_pages d') i = fbit (touched_pages d) i && negb (fbit (Hpdata.to_purge (pass_state pp)) i).
Proof.
  intros I X Hpp. assert (HW : p ∈ W) by (apply (hi_passes _ _ _ _ _ I); by rewrite Hpp).
  destruct (shard_inv_slab T s W P H p I HW) as (d & Ed & HS). destruct (si_pass _ _ _ _ HS pp Hpp) as (K1 & K2 & K3 & K4).
  unfold try_purge_end. rewrite K1. erewrite bind_done by reflexivity. erewrite bind_done by reflexivity.
  erewrite bind_done by reflexivity. erewrite bind_done by reflexivity. set (s0 := set_last_purge _ _).
  pose proof (si_ok _ _ _ _ HS) as Hok.
  destruct (shard_begin T W s0 p d (hi_psset _ _ _ _ _ I) HW Ed) as (m & Em & E). rewrite (bind_done _ _ _ _ _ Em).
  assert (∃ m1 d1, (if pass_dehugify pp then on_psset (slab_set p hpdata_dehugify) else mret tt) (set_slabs m s0) =
      Done (tt, set_slabs m1 s0) ∧ editing T W (ps_data (slabs s)) p d1 m1 ∧ hp_ok d1 ∧ h_huge d1 = false ∧
      active_pages d1 = active_pages d ∧ touched_pages d1 = touched_pages d ∧ h_address d1 = h_address d ∧
      h_mid_hugify d1 = h_mid_hugify d) as (m1 & d1 & E1 & X1 & H1 & Hh & A1 & A2 & A3 & A4).
  { destruct (pass_dehugify pp).
    - destruct (shard_set T W _ p (begun d) (set_slabs m s0) hpdata_dehugify E) as (m1 & Em1 & X1); [done..|].
      exists m1, (hpdata_dehugify (begun d)). rewrite Em1. split_and!; try done. by apply dehugify_ok, hp_ok_begun.
    - exists m, (begun d). split_and!; try done. by apply hp_ok_begun. }
  rewrite (bind_done _ _ _ _ _ E1).
  destruct (purge_end_ok d1 (pass_state pp) H1 (purge_inv_pages d d1 _ A1 A2 K3) Hh) as (d2 & st & E2 & H2 & B1 & B2 & B3).
  pose proof (purge_end_flags _ _ _ _ E2) as Hfl.
  destruct (shard_update T W _ p d1 (set_slabs m1 s0) (λ h, '(h', st') ← hpdata_purge_end h (pass_state pp); Done (st', h')) st d2 X1)
    as (m2 & Em2 & X2); [by rewrite E2|by apply same_flags_container..|].
  rewrite (bind_done _ _ _ _ _ Em2).
  assert (Hal : h_in_psset_alloc_container d2 = false) by apply (ed_out _ _ _ _ _ _ X2).
  destruct (shard_set2 W _ p d2 (set_slabs m2 (set_slabs m1 s0)) (hpdata_mid_purge_set false) (hpdata_alloc_allowed_set true) X2)
    as (m3 & -> & X3); [done..|].
  set (d3 := hpdata_alloc_allowed_set true (hpdata_mid_purge_set false d2)) in *.
  destruct (shard_eligible T W _ p d3 (set_slabs m3 (set_slabs m2 (set_slabs m1 s0))) X3) as (now & a & m4 & Em4 & X4).
  rewrite (bind_done _ _ _ _ _ Em4).
  destruct (eligible_flags d2 d3 (set_slabs m3 (set_slabs m2 (set_slabs m1 s0))) now H2) as [Hso Hsf]; [by split_and!|].
  destruct (shard_end T W _ p _ (set_slabs m4 (set_answers a (set_slabs m3 (set_slabs m2 (set_slabs m1 s0))))) X4 Hso) as (m5 & Em5 & D5 & I5).
  rewrite Em5. eexists. split; [reflexivity|]. pose proof (sf_pages _ _ Hsf) as (G1 & G2 & _ & _ & _ & G6 & G7).
  assert (F : h_address d2 = h_address d1 ∧ h_mid_hugify d2 = h_mid_hugify d1 ∧ h_huge d2 = h_huge d1) by (by destruct Hfl as (? & ? & ? & ? & ? & ->)).
  destruct F as (F1 & F2 & F3). change (h_address d3) with (h_address d2) in G7. change (active_pages d3) with (active_pages d2) in G1.
  split; [|split; [|split; [done|split; [done|split; [done|]]]]].
  3: { eexists d, _. split; [exact Ed|]. split; [exact D5|]. split; [by rewrite G1, B1|]. split.
       { rewrite G6. change (h_huge d3) with (h_huge d2). congruence. }
       intros i Hi. rewrite G2. change (touched_pages d3) with (touched_pages d2). rewrite B3 by done. by rewrite A2. }
  - eapply (shard_inv_update T s _ W P _ H H p d _ I HW Ed);
      [exact I5|exact D5| |congruence|intros q Hq; by rewrite lookup_delete_ne|done| |reflexivity].
    + destruct HS as [S1 S2 S3 S4 S5 S6 S7 S8]. split; [apply (sf_ok _ _ Hsf)|apply (sf_purge _ _ Hsf)|..].
      * rewrite lookup_delete_eq, (sf_mid_purge _ _ Hsf). by rewrite bool_decide_eq_false_2 by (by intros [? ?]).
      * rewrite (sf_mid_hugify _ _ Hsf). change (h_mid_hugify d3) with (h_mid_hugify d2). congruence.
      * rewrite (sf_alloc _ _ Hsf), (sf_mid_purge _ _ Hsf). done.
      * intros _. apply lookup_delete_eq.
      * intros pp'. by rewrite lookup_delete_eq.
      * unfold slab_bounds. rewrite G7, F1, A3. exact S8.
    + rewrite (pending_delete P p pp Hpp). cbn [npending_purge set_slabs set_answers]. cbn. rewrite (hi_pending _ _ _ _ _ I).
      unfold u64. by rewrite Zminus_mod_idemp_l.
  - eapply (extents_inv_same s _ W L p d); [done|done|done|exact D5|congruence| |done|apply (xi_edatas _ _ _ X)].
    intros i Hi. by rewrite G1, B1, A1.
Qed.
End work.

(** ** Hugification, deferred work and growth of a shard *)

Section hugify.
Context (T : sz_tables) `{!SzReady T}.

(** ** What only reads *)

Lemma pick_hugify_ok s W P H :
  shard_inv T s W P H →
  ∃ p, on_psset psset_pick_hugify s = Done (p, s) ∧
    (p = 0 ∨ (p ≠ 0 ∧ p ∈ W ∧ ∃ d, ps_data (slabs s) !! p = Some d ∧ h_hugify_allowed d = true ∧ slab_inv P H p d)).
Proof.
  intros I. destruct (psset_pick_hugify_ok T (slabs s) W ∅ (hi_psset _ _ _ _ _ I)) as (p & Ep & Hp).
  exists p. split; [erewrite on_psset_ok by exact Ep; by rewrite set_slabs_id|].
  destruct Hp as [[HW Hf]%elem_of_flagged|[-> _]]; [right|by left].
  destruct (shard_inv_slab T s W P H p I HW) as (d & Ed & HS). rewrite Ed in Hf. injection Hf as Hf.
  destruct (pi_known _ _ _ _ (hi_psset _ _ _ _ _ I) p HW) as [Hp0 _].
  split_and!; [done|done|]. exists d. split_and!; [done| |done]. by rewrite (ho_container d (si_ok _ _ _ _ HS)).
Qed.

Lemma blocked_ok s W P H : shard_inv T s W P H → ∃ b, hpa_hugify_blocked_by_ndirty s = Done (b, s).
Proof.
  intros I. destruct (pick_hugify_ok s W P H I) as (p & Ep & Hp). unfold hpa_hugify_blocked_by_ndirty.
  rewrite (bind_done _ _ _ _ _ Ep). destruct Hp as [->|(Hp0 & HW & d & Ed & _)]; [by exists false|].
  rewrite (proj2 (Z.eqb_neq p 0)) by done. erewrite bind_done by reflexivity.
  erewrite bind_done by (eapply slab_get_settled; [apply (hi_psset _ _ _ _ _ I)|done..]). by eexists.
Qed.

Lemma should_purge_ok s W P H : shard_inv T s W P H → ∃ b, hpa_should_purge s = Done (b, s).
Proof.
  intros I. unfold hpa_should_purge. erewrite bind_done by reflexivity. destruct (_ <? _); [by exists true|].
  destruct (blocked_ok s W P H I) as (b & Eb). rewrite (bind_done _ _ _ _ _ Eb). destruct b; by eexists.
Qed.

Lemma has_deferred_work_ok s W P H : shard_inv T s W P H → ∃ b, hpa_shard_has_deferred_work s = Done (b, s).
Proof.
  intros I. unfold hpa_shard_has_deferred_work. destruct (pick_hugify_ok s W P H I) as (p & Ep & _).
  rewrite (bind_done _ _ _ _ _ Ep). destruct (negb _); [by exists true|]. by eapply should_purge_ok.
Qed.

(** ** Hugification *)

Definition hugifying (d : hpdata_t) : hpdata_t :=
  hpdata_disallow_hugify (hpdata_purge_allowed_set false (hpdata_mid_hugify_set true d)).

Lemma try_hugify_begin_ok s W P H L :
  shard_inv T s W P H → extents_inv s W L →
  ∃ p s', try_hugify_begin T s = Done (p, s') ∧ extents_inv s' W L ∧ edatas s' = edatas s ∧ opts s' = opts s ∧
    (p = 0 ∧ shard_inv T s' W P H ∨ p ≠ 0 ∧ p ∈ W ∧ p ∉ H ∧ P !! p = None ∧ shard_inv T s' W P ({[p]} ∪ H)).
Proof.
  intros I X. unfold try_hugify_begin. destruct (blocked_ok s W P H I) as (b & Eb). rewrite (bind_done _ _ _ _ _ Eb).
  destruct b; [exists 0, s; split_and!; try done; by left|].
  destruct (pick_hugify_ok s W P H I) as (p & Ep & Hp). rewrite (bind_done _ _ _ _ _ Ep).
  destruct Hp as [->|(Hp0 & HW & d & Ed & Hh & HS)]; [exists 0, s; split_and!; try done; by left|].
  rewrite (proj2 (Z.eqb_neq p 0)) by done. erewrite bind_done by reflexivity. erewrite bind_done by reflexivity. set (s0 := set_answers _ s).
  assert (X0 : extents_inv s0 W L) by (apply (extents_inv_frame s); [done|done|done|apply (xi_edatas _ _ _ X)]).
  assert (I0 : shard_inv T s0 W P H) by (apply (shard_inv_frame T s); [done|apply (hi_psset _ _ _ _ _ I)|done..]).
  destruct (_ <? _); [exists 0, s0; split_and!; try done; by left|].
  destruct HS as [S1 S2 S3 S4 S5 S6 S7 S8].
  assert (Hch : hpdata_changing_state_get d = false).
  { destruct (hpdata_changing_state_get d) eqn:E; [|done]. destruct (ho_changing d S1 E). congruence. }
  unfold hpdata_changing_state_get in Hch. apply orb_false_iff in Hch as [Hmp Hmh].
  assert (HP : P !! p = None) by (rewrite Hmp in S3; symmetry in S3; apply bool_decide_eq_false in S3; by apply eq_None_not_Some).
  assert (HpH : p ∉ H) by (rewrite Hmh in S4; symmetry in S4; by apply bool_decide_eq_false in S4).
  destruct (shard_begin T W s0 p d (hi_psset _ _ _ _ _ I0) HW Ed) as (m & Em & E). rewrite (bind_done _ _ _ _ _ Em).
  destruct (shard_set2 T W _ p (begun d) (set_slabs m s0) (hpdata_mid_hugify_set true) (hpdata_purge_allowed_set false) E)
    as (m1 & -> & X1); [done..|].
  destruct (shard_set T W _ p _ (set_slabs m1 s0) hpdata_disallow_hugify X1) as (m2 & Em2 & X2); [done..|].
  rewrite set_slabs_set, (bind_done _ _ _ _ _ Em2). destruct (ended_flags d (hugifying (begun d)) S1) as [Hso Hsf]; [by split_and!|done|done|].
  destruct (shard_end T W _ p _ (set_slabs m2 (set_slabs m1 s0)) X2 Hso) as (m3 & Em3 & D3 & I3). rewrite (bind_done _ _ _ _ _ Em3).
  set (d' := ended (hugifying (begun d))) in *. eexists p, _. split; [reflexivity|].
  pose proof (sf_pages _ _ Hsf) as (G1 & G2 & G3 & G4 & _ & G6 & G7).
  split; [eapply (extents_inv_same s0 _ W L p d d'); [done|done|done|exact D3|exact G7|intros i _; by rewrite G1|done|apply (xi_edatas _ _ _ X0)]|].
  split; [reflexivity|]. split; [reflexivity|]. right. split_and!; [done..|].
  eapply (shard_inv_update T s0 _ W P P H _ p d d' I0 HW Ed);
    [exact I3|exact D3| |exact G7|done|intros q Hq; set_solver|apply (hi_pending _ _ _ _ _ I)|reflexivity].
  split; [apply (sf_ok _ _ Hsf)|apply (sf_purge _ _ Hsf)|exact S3| |exact S5|done|by rewrite HP|exact S8].
  rewrite bool_decide_eq_true_2 by set_solver. done.
Qed.

Lemma hugify_flags h h' :
  hpdata_hugify h = Done h' → h_in_psset_alloc_container h' = h_in_psset_alloc_container h ∧
    h_in_psset_hugify_container h' = h_in_psset_hugify_container h ∧ h_address h' = h_address h ∧
    h_mid_purge h' = h_mid_purge h ∧ h_alloc_allowed h' = h_alloc_allowed h.
Proof. unfold hpdata_hugify. intros E. apply outcome_bind_done_inv in E as (? & _ & E). by injection E as <-. Qed.

Lemma try_hugify_end_ok s W P H L p :
  shard_inv T s W P H → extents_inv s W L → p ∈ H →
  ∃ s', try_hugify_end T p s = Done (tt, s') ∧ shard_inv T s' W P (H ∖ {[p]}) ∧ extents_inv s' W L ∧
    edatas s' = edatas s ∧ opts s' = opts s.
Proof.
  intros I X HpH. pose proof (hi_hugifying _ _ _ _ _ I p HpH) as HW.
  destruct (shard_inv_slab T s W P H p I HW) as (d & Ed & [S1 S2 S3 S4 S5 S6 S7 S8]).
  pose proof (S6 HpH) as HP. unfold try_hugify_end. erewrite bind_done by reflexivity. set (s0 := set_shard_stats _ _).
  destruct (shard_begin T W s0 p d (hi_psset _ _ _ _ _ I) HW Ed) as (m & Em & E). rewrite (bind_done _ _ _ _ _ Em).
  destruct (hugify_ok (begun d) (hp_ok_begun d S1)) as (d2 & E2 & H2 & _ & A2).
  destruct (hugify_flags _ _ E2) as (F1 & F2 & F3 & F4 & F5).
  destruct (shard_update T W _ p (begun d) (set_slabs m s0) (λ h, h' ← hpdata_hugify h; Done (tt, h')) tt d2 E)
    as (m2 & Em2 & X2); [by rewrite E2|done..|].
  rewrite (bind_done _ _ _ _ _ Em2).
  destruct (shard_set T W _ p d2 (set_slabs m2 (set_slabs m s0)) (hpdata_mid_hugify_set false) X2) as (m3 & Em3 & X3);
    [apply (ed_out _ _ _ _ _ _ X2)|done|].
  rewrite (bind_done _ _ _ _ _ Em3). set (d3 := hpdata_mid_hugify_set false d2) in *. set (s3 := set_slabs m3 _).
  destruct (shard_eligible T W _ p d3 s3 X3) as (now & a & m4 & Em4 & X4). rewrite (bind_done _ _ _ _ _ Em4).
  destruct (eligible_flags d2 d3 s3 now H2) as [Hso Hsf]; [by split_and!|].
  destruct (shard_end T W _ p _ (set_slabs m4 (set_answers a s3)) X4 Hso) as (m5 & Em5 & D5 & I5).
  rewrite Em5. eexists. split; [reflexivity|]. pose proof (sf_pages _ _ Hsf) as (G1 & G2 & _ & _ & _ & G6 & G7).
  change (h_address d3) with (h_address d2) in G7. change (active_pages d3) with (active_pages d2) in G1.
  assert (Hmp : h_mid_purge d2 = h_mid_purge d ∧ h_alloc_allowed d2 = h_alloc_allowed d ∧ h_address d2 = h_address d) by done.
  destruct Hmp as (M1 & M2 & M3). split; [|split; [|split; reflexivity]].
  - eapply (shard_inv_update T s _ W P P H _ p d _ I HW Ed);
      [exact I5|exact D5| |congruence|done|intros q Hq; set_solver|apply (hi_pending _ _ _ _ _ I)|reflexivity].
    split; [apply (sf_ok _ _ Hsf)|apply (sf_purge _ _ Hsf)|..|by rewrite HP|].
    + rewrite (sf_mid_purge _ _ Hsf). change (h_mid_purge d3) with (h_mid_purge d2). congruence.
    + rewrite (sf_mid_hugify _ _ Hsf). rewrite bool_decide_eq_false_2 by set_solver. done.
    + rewrite (sf_alloc _ _ Hsf), (sf_mid_purge _ _ Hsf). change (h_mid_purge d3) with (h_mid_purge d2).
      change (h_alloc_allowed d3) with (h_alloc_allowed d2). congruence.
    + done.
    + unfold slab_bounds. rewrite G7, M3. exact S8.
  - eapply (extents_inv_same s _ W L p d); [done|done|done|exact D5|congruence| |done|apply (xi_edatas _ _ _ X)].
    intros i Hi. by rewrite G1, A2.
Qed.
End hugify.
