(* ===== verification/HpaHistory.v ===== *)
(** * Growth and histories of a shard

    New slabs are carved off a run of huge pages, the eden, that the central allocator maps.
    Threads that use a shard run its sections one after the other, in any order, each under the mutex or on
    data of its own: allocations, the two parts of a deallocation, the beginning, the calls and the end of a purge, the beginning and
    the end of a hugification, growth.  A history is a sequence of such sections; a ghost state remembers what the threads hold
    in local variables. *)
From stdpp Require Import base list gmap numbers.
From S2P Require Import Prelude BitUtil SizeClass Sz SzTheorems Fb FbFacts FbTheorems Hpdata HpdataTheorems HpdataPurge Edata EdataTheorems Ph Ql Psset PssetSizes PssetFacts PssetInv PssetOps PssetPick Hpa HpaInv HpaOps HpaWork.

(** What [base_alloc] and [pages_map] answer: nothing, or room for a descriptor that is in no use, and unused address space. *)
Definition base_fresh (D : gmap Z hpdata_t) (W : gset Z) (p : Z) : Prop :=
  p = 0 ∨ (p ∉ W ∧ ∃ d, D !! p = Some d ∧ room (active_pages d) ∧ room (touched_pages d)).
Definition map_fresh (D : gmap Z hpdata_t) (W : gset Z) (a : Z) : Prop := a = 0 ∨ free_run D W a HPA_EDEN_SIZE.

(** A slab that has just been initialised. *)
Record new_slab (d : hpdata_t) (addr : Z) : Prop := {
  ns_ok : hp_ok d;
  ns_addr : h_address d = addr;
  ns_counts : h_nactive d = 0 ∧ h_ntouched d = 0;
  ns_flags : h_alloc_allowed d = true ∧ h_in_psset_alloc_container d = false ∧ h_purge_allowed d = false ∧
    h_hugify_allowed d = false ∧ h_in_psset_hugify_container d = false ∧ h_mid_purge d = false ∧ h_mid_hugify d = false ∧ h_huge d = false
}.

Lemma hpdata_init_new d addr age :
  room (active_pages d) → room (touched_pages d) → ∃ d', hpdata_init d addr age = Done d' ∧ new_slab d' addr.
Proof.
  intros Ha Ht. destruct (init_ok d addr age Ha Ht) as (d' & E & H & H1 & H2 & H3). exists d'. split; [done|].
  split; [exact H|exact H1|by split|]. unfold hpdata_init in E. repeat (apply outcome_bind_done_inv in E as (? & _ & E)). injection E as <-. split_and!; reflexivity.
Qed.

Lemma hugepage_positive : 0 < HUGEPAGE.
Proof. done. Qed.

Section grow.
Context (T : sz_tables) `{!SzReady T}.

(** The slab [p] at the start of the eden. *)
Lemma init_from_eden_ok s p d :
  p ≠ 0 → ps_data (slabs s) !! p = Some d → room (active_pages d) → room (touched_pages d) →
  ∃ d', init_from_eden p s = Done (tt, set_central (mkCentral (eden (central s)) (eden_len (central s)) (u64 (central_age_counter (central s) + 1)))
      (set_slabs (put_data (<[p:=d']> (ps_data (slabs s))) (slabs s)) s)) ∧ new_slab d' (eden (central s)).
Proof.
  intros Hp Ed Ha Ht. destruct (hpdata_init_new d (eden (central s)) (central_age_counter (central s)) Ha Ht) as (d' & E & Hn).
  exists d'. split; [|done]. unfold init_from_eden. erewrite bind_done by reflexivity.
  erewrite bind_done; [reflexivity|]. unfold slab_update.
  erewrite bind_done by (apply on_psset_ok; by apply slab_get_ok). rewrite set_slabs_id.
  erewrite bind_done by (apply liftO_done; rewrite E; reflexivity). cbv beta iota.
  erewrite bind_done by (apply on_psset_ok; by apply slab_set_ok). done.
Qed.

(** The eden after a slab is carved off it. *)
Lemma carved D W p d' a len :
  free_run D W a len → h_address d' = a → p ∉ W →
  (len = HUGEPAGE ∨ (HUGEPAGE < len ∧ free_run (<[p:=d']> D) ({[p]} ∪ W) (u64 (a + HUGEPAGE)) (u64 (len - HUGEPAGE)))).
Proof.
  intros (A1 & A2 & A3 & A4 & A5 & A6) Ha Hp. destruct (decide (len = HUGEPAGE)) as [|Hne]; [by left|right].
  pose proof hugepage_positive as HH. assert (Hlt : 2 * HUGEPAGE ≤ len).
  { apply Z.mod_divide in A3 as [k ->]; [|lia]. assert (2 ≤ k) by nia. nia. }
  rewrite (u64_small (a + HUGEPAGE)) by (unfold is_u64; lia). rewrite (u64_small (len - HUGEPAGE)) by (unfold is_u64; lia).
  split; [lia|]. split_and!; [lia|lia| | |lia|].
  - rewrite Zminus_mod, A3, Z_mod_same_full. done.
  - rewrite Zplus_mod, A4, Z_mod_same_full. done.
  - intros q d Hq. destruct (decide (q = p)) as [->|Hqp]; [rewrite lookup_insert_eq; intros [= <-]; left; lia|].
    rewrite lookup_insert_ne by done. intros Ed. destruct (A6 q d) as [|]; [set_solver|done|left; lia|right; lia].
Qed.

(** Two answers that the central allocator does not ask for. *)
Definition same_asked (s s' : hpa_mem) : Prop :=
  an_edata (answers s') = an_edata (answers s) ∧ an_emap (answers s') = an_emap (answers s).

(** The state with the new slab [p], which is not in the set yet. *)
Record extracted (s s' : hpa_mem) (W : gset Z) (p : Z) : Prop := {
  ex_new : p ≠ 0 ∧ p ∉ W;
  ex_slab : ∃ d', ps_data (slabs s') = <[p:=d']> (ps_data (slabs s)) ∧
    slabs s' = put_data (<[p:=d']> (ps_data (slabs s))) (slabs s) ∧ new_slab d' (h_address d') ∧ slab_bounds d' ∧
    no_slabs_in (ps_data (slabs s)) W (h_address d') HUGEPAGE ∧
    central_inv (ps_data (slabs s')) ({[p]} ∪ W) (central s');
  ex_rest : edatas s' = edatas s ∧ npending_purge s' = npending_purge s ∧ opts s' = opts s ∧ same_asked s s'
}.

Lemma run_bounds D W a len d : free_run D W a len → h_address d = a → slab_bounds d.
Proof.
  intros (A1 & A2 & A3 & A4 & A5 & A6) Ha. unfold slab_bounds. rewrite Ha. split; [lia|]. split; [lia|].
  apply Z.mod_divide in A4 as [k ->]; [|done]. change HUGEPAGE with (512 * PAGE). rewrite Z.mul_assoc. by apply Z.mod_mul.
Qed.

Lemma run_first D W a len : free_run D W a len → no_slabs_in D W a HUGEPAGE.
Proof. intros (A1 & A2 & A3 & A4 & A5 & A6) p d Hp Ed. destruct (A6 p d Hp Ed); [by left|right; lia]. Qed.

(** What [hpa_central_extract] returns when there is no slab. *)
Definition not_extracted (s s' : hpa_mem) (W : gset Z) : Prop :=
  slabs s' = slabs s ∧ edatas s' = edatas s ∧ npending_purge s' = npending_purge s ∧ opts s' = opts s ∧
  central_inv (ps_data (slabs s)) W (central s') ∧ same_asked s s'.

Lemma carve_ok s W p d :
  free_run (ps_data (slabs s)) W (eden (central s)) (eden_len (central s)) →
  p ≠ 0 → p ∉ W → ps_data (slabs s) !! p = Some d → room (active_pages d) → room (touched_pages d) →
  ∃ s1, init_from_eden p s = Done (tt, s1) ∧
    (eden_len (central s) = HUGEPAGE →
       extracted s (set_central (mkCentral 0 0 (central_age_counter (central s1))) s1) W p) ∧
    (eden_len (central s) ≠ HUGEPAGE →
       extracted s (set_central (mkCentral (u64 (eden (central s1) + HUGEPAGE)) (u64 (eden_len (central s1) - HUGEPAGE))
         (central_age_counter (central s1))) s1) W p).
Proof.
  intros Hr Hp HW Ed Ha Ht. destruct (init_from_eden_ok s p d Hp Ed Ha Ht) as (d' & E & Hn). eexists. split; [exact E|].
  pose proof (ns_addr _ _ Hn) as Had. split; intros Hlen.
  - split; [by split| |repeat split]. exists d'. split_and!; [done|done|by rewrite Had|by eapply run_bounds|rewrite Had; by eapply run_first|by left].
  - split; [by split| |repeat split]. exists d'. split_and!; [done|done|by rewrite Had|by eapply run_bounds|rewrite Had; by eapply run_first|].
    right. destruct (carved _ W p d' _ _ Hr Had HW) as [?|[_ Hf]]; [done|exact Hf].
Qed.

(** No memory for a descriptor, or no address space. *)
Definition no_memory (a : hpa_answers) : Prop := default 0 (head (an_base a)) = 0 ∨ default 0 (head (an_map a)) = 0.

Lemma slab_for_split_ok s W :
  central_inv (ps_data (slabs s)) W (central s) → (eden (central s) ≠ 0 → eden_len (central s) ≠ HUGEPAGE) →
  map_fresh (ps_data (slabs s)) W (default 0 (head (an_map (answers s)))) →
  ∃ p s1, slab_for_split s = Done (p, s1) ∧ (p = 0 ∨ p = default 0 (head (an_base (answers s)))) ∧ (p = 0 → no_memory (answers s)) ∧
    not_extracted s s1 W ∧ (p ≠ 0 → free_run (ps_data (slabs s)) W (eden (central s1)) (eden_len (central s1)) ∧ eden_len (central s1) ≠ HUGEPAGE).
Proof.
  intros HC Hlen HM. unfold slab_for_split. erewrite bind_done by reflexivity.
  destruct (Z.eqb_spec (eden (central s)) 0) as [He|He].
  - erewrite bind_done by reflexivity. set (a := default 0 _) in *. destruct (Z.eqb_spec a 0) as [Ha|Ha].
    { eexists 0, _. split; [reflexivity|]. split; [by left|]. split; [by right|]. split; [by split_and!|done]. }
    erewrite bind_done by reflexivity. cbn [an_base answers set_answers]. set (p := default 0 (head (an_base (answers s)))).
    destruct HM as [?|HM]; [done|]. destruct (Z.eqb_spec p 0) as [Hp|Hp].
    { eexists 0, _. split; [reflexivity|]. split; [by left|]. split; [by left|]. split; [by split_and!|done]. }
    eexists p, _. split; [reflexivity|]. split; [by right|]. split; [done|]. split; [split_and!; try done; by right|]. intros _. split; [exact HM|done].
  - eexists _, _. split; [reflexivity|]. split; [by right|]. split; [by left|]. split; [by split_and!|]. intros _. destruct HC as [[? _]|HC]; [done|].
    split; [exact HC|by apply Hlen].
Qed.

Lemma central_extract_ok s W size :
  central_inv (ps_data (slabs s)) W (central s) →
  base_fresh (ps_data (slabs s)) W (default 0 (head (an_base (answers s)))) →
  map_fresh (ps_data (slabs s)) W (default 0 (head (an_map (answers s)))) →
  ∃ p oom s', hpa_central_extract size s = Done ((p, oom), s') ∧
    (p = 0 ∧ oom = true ∧ not_extracted s s' W ∧ no_memory (answers s) ∨ oom = false ∧ extracted s s' W p).
Proof.
  intros HC HB HM. unfold hpa_central_extract. erewrite bind_done by reflexivity.
  set (p := default 0 (head (an_base (answers s)))) in *.
  destruct (negb (eden (central s) =? 0) && (eden_len (central s) =? HUGEPAGE)) eqn:Hfit.
  - apply andb_true_iff in Hfit as [He%negb_true_iff%Z.eqb_neq Hl%Z.eqb_eq]. destruct HC as [[? _]|HC]; [done|].
    erewrite bind_done by reflexivity. fold p. destruct (Z.eqb_spec p 0) as [Hp|Hp].
    { eexists 0, true, _. split; [reflexivity|]. left. split; [done|]. split; [done|]. split; [|by left]. split_and!; try done. by right. }
    destruct HB as [?|(HW & d & Ed & Hr1 & Hr2)]; [done|]. set (s0 := set_answers _ s).
    destruct (carve_ok s0 W p d HC Hp HW Ed Hr1 Hr2) as (s1 & E1 & Hx & _). rewrite (bind_done _ _ _ _ _ E1).
    eexists p, false, _. split; [reflexivity|]. right. split; [done|]. destruct (Hx Hl) as [X1 X2 X3]. by split.
  - destruct (slab_for_split_ok s W HC) as (p' & s1 & E1 & Hp' & Hno & Hn & Hrun); [|done|].
    { intros He Hl. rewrite Hl, Z.eqb_refl, andb_true_r in Hfit. by apply negb_false_iff, Z.eqb_eq in Hfit. }
    rewrite (bind_done _ _ _ _ _ E1). destruct (Z.eqb_spec p' 0) as [Hp|Hp].
    { eexists 0, true, _. split; [reflexivity|]. left. split_and!; [done..|by apply Hno]. }
    destruct Hp' as [?|Hpp]; [done|]. fold p in Hpp. rewrite <- Hpp in HB. destruct (Hrun Hp) as [Hr Hl].
    destruct HB as [?|(HW & d & Ed & Hr1 & Hr2)]; [done|]. destruct Hn as (N1 & N2 & N3 & N4 & N5 & N6 & N7). rewrite <- N1 in Hr, Ed.
    destruct (carve_ok s1 W p' d Hr Hp HW Ed Hr1 Hr2) as (s2 & E2 & _ & Hx). rewrite (bind_done _ _ _ _ _ E2).
    eexists p', false, _. split; [reflexivity|]. right. split; [done|]. destruct (Hx Hl) as [X1 X2 (X3 & X4 & X5 & X6 & X7)].
    rewrite N1 in X2. split; [done|done|split_and!; [congruence..|split; congruence]].
Qed.

(** ** The slab in the set *)

Lemma inserted_new_slab P H p d :
  new_slab d (h_address d) → slab_bounds d → P !! p = None → p ∉ H → slab_inv P H p (inserted d).
Proof.
  intros [N1 N2 [N3 N4] (F1 & F2 & F3 & F4 & F5 & F6 & F7 & F8)] HB HP HH.
  split.
  - apply (hp_ok_flags d); [done|by split_and!| |done]. cbn. by rewrite F3, F4.
  - cbn. congruence.
  - rewrite HP, bool_decide_eq_false_2 by (by intros [? ?]). done.
  - by rewrite bool_decide_eq_false_2.
  - cbn. by rewrite F1, F6.
  - done.
  - by rewrite HP.
  - exact HB.
Qed.

Lemma grow_ok s W P H L p s1 :
  shard_inv T s W P H → extents_inv s W L → extracted s s1 W p →
  ∃ s', on_psset (psset_insert T p) s1 = Done (tt, s') ∧ shard_inv T s' ({[p]} ∪ W) P H ∧ extents_inv s' ({[p]} ∪ W) L ∧
    edatas s' = edatas s ∧ opts s' = opts s ∧ same_asked s s' ∧ serves T (slabs s') ({[p]} ∪ W) p BinEmpty.
Proof.
  intros I X [[Hp HW] (d & D1 & M1 & Hn & HB & Hno & HC) (R1 & R2 & R3 & R4)].
  assert (I1 : psset_inv T (slabs s1) W ∅) by (rewrite M1; apply outside_ok; [apply (hi_psset _ _ _ _ _ I)|done]).
  assert (Ed : ps_data (slabs s1) !! p = Some d) by (by rewrite D1, lookup_insert_eq).
  pose proof Hn as [N1 N2 [N3 N4] (F1 & F2 & F3 & F4 & F5 & F6 & F7 & F8)].
  assert (HP : P !! p = None) by (apply eq_None_not_Some; intros Hs; by apply (hi_passes _ _ _ _ _ I) in Hs).
  assert (HpH : p ∉ H) by (intros Hs; by apply (hi_hugifying _ _ _ _ _ I) in Hs).
  destruct (psset_insert_ok T (slabs s1) W ∅ p d I1 HW Hp Ed) as (m & Em & D2 & I2); [apply hp_ok_slab_ok; [done|congruence]|done|done|].
  rewrite D1, insert_insert_eq in D2. exists (set_slabs m s1). split; [by apply on_psset_ok|].
  destruct I as [J1 J2 J3 J4 J5 J6 J7]. split; [|split; [|split_and!; [done..|]]].
  - split; cbn [slabs set_slabs npending_purge].
    + exact I2.
    + intros q e Hq. rewrite D2. destruct (decide (q = p)) as [->|Hne].
      * rewrite lookup_insert_eq. intros [= <-]. by apply inserted_new_slab.
      * rewrite lookup_insert_ne by done. apply J2. set_solver.
    + intros q r e f Hq Hr Hqr. rewrite D2. destruct (decide (q = p)) as [->|Hqp], (decide (r = p)) as [->|Hrp]; [done|..].
      * rewrite lookup_insert_eq, lookup_insert_ne by done. intros [= <-] Ef. destruct (Hno r f); [set_solver|done|right|left]; done.
      * rewrite lookup_insert_eq, lookup_insert_ne by done. intros Ee [= <-]. destruct (Hno q e); [set_solver|done|left|right]; done.
      * rewrite !lookup_insert_ne by done. apply J3; set_solver.
    + intros q Hq. apply J4 in Hq. set_solver.
    + clear -J5. set_solver.
    + by rewrite R2.
    + cbn [slabs set_slabs central]. rewrite D2. rewrite D1 in HC. destruct HC as [HC|(A1 & A2 & A3 & A4 & A5 & A6)]; [by left|right].
      split_and!; [done..|]. intros q e Hq. destruct (decide (q = p)) as [->|Hne].
      * rewrite lookup_insert_eq. intros [= <-]. apply (A6 p d Hq). apply lookup_insert_eq.
      * rewrite lookup_insert_ne by done. intros Ee. apply (A6 q e Hq). by rewrite lookup_insert_ne.
  - destruct X as [X1 X2 X3 X4]. split; cbn [slabs set_slabs edatas]; [|..|by rewrite R1].
    + intros e x Hx. destruct (X1 e x Hx) as [O1 O2 O3 O4 (O5 & ed & f & E1 & E2 & E3 & E4 & E5)].
      split; [set_solver|done..|]. split; [done|]. exists ed, f. cbn [slabs set_slabs edatas]. rewrite R1, D2, lookup_insert_ne; [done|].
      intros Hpx. by rewrite <- Hpx in O1.
    + intros q f i Hq. rewrite D2. destruct (decide (q = p)) as [->|Hne].
      * rewrite lookup_insert_eq. intros [= <-] Hi. cbn. rewrite (npages_where_zero (fbit (active_pages d))); [|by rewrite <- (ho_nactive d N1)|done].
        split; [done|]. intros (e & x & Hx & [Hs _]). destruct (X1 e x Hx) as [O1 _ _ _ _]. by rewrite Hs in O1.
      * rewrite lookup_insert_ne by done. apply X2. set_solver.
    + exact X3.
  - split; [clear; set_solver|]. exists (inserted d). cbn [slabs set_slabs]. rewrite D2. split; [apply lookup_insert_eq|].
    split; [exact F1|]. unfold slab_bin, hpdata_empty. cbn. by rewrite N3.
Qed.
End grow.

(** ** Histories of a shard *)

Record hpa_ghost : Type := mkGhost {
  g_slabs : gset Z;
  g_passes : gmap Z purge_pass;
  g_hugifying : gset Z;
  g_live : gmap Z extent
}.

Definition no_ghost : hpa_ghost := mkGhost ∅ ∅ ∅ ∅.
Definition with_slabs (W : gset Z) (g : hpa_ghost) : hpa_ghost := mkGhost W (g_passes g) (g_hugifying g) (g_live g).
Definition with_passes (P : gmap Z purge_pass) (g : hpa_ghost) : hpa_ghost := mkGhost (g_slabs g) P (g_hugifying g) (g_live g).
Definition with_hugifying (H : gset Z) (g : hpa_ghost) : hpa_ghost := mkGhost (g_slabs g) (g_passes g) H (g_live g).
Definition with_live (L : gmap Z extent) (g : hpa_ghost) : hpa_ghost := mkGhost (g_slabs g) (g_passes g) (g_hugifying g) L.

(** The extent that a descriptor describes. *)
Definition extent_of (s : hpa_mem) (e : Z) : extent :=
  match edatas s !! e with
  | Some ed =>
      match ps_data (slabs s) !! edata_ps_get ed with
      | Some d => mkExt (edata_ps_get ed) ((edata_addr_get ed - h_address d) / PAGE) (edata_size_get ed / PAGE)
      | None => mkExt 0 0 0
      end
  | None => mkExt 0 0 0
  end.

Inductive hpa_event : Type :=
| HpAnswers (a : hpa_answers)
| HpAlloc (n : Z)
| HpPrepare (e : Z)
| HpDalloc (e : Z)
| HpPurgeBegin (scratch mem : list Z)
| HpPurgeOne (p : Z)
| HpPurgeEnd (p purges : Z)
| HpHugifyBegin
| HpHugifyEnd (p : Z)
| HpHook (c : hpa_call)
| HpGrow (size : Z).

Section history.
Context (T : sz_tables).

Definition hpa_exec (g : hpa_ghost) (ev : hpa_event) : M hpa_mem hpa_ghost :=
  match ev with
  | HpAnswers a => modify (set_answers a);; mret g
  | HpAlloc n =>
      '(r, _) ← hpa_try_alloc_one_no_grow T (n * PAGE);
      s ← get;
      mret (if r =? 0 then g else with_live (<[r:=extent_of s r]> (g_live g)) g)
  | HpPrepare e => hpa_dalloc_prepare_unlocked e;; mret g
  | HpDalloc e => hpa_dalloc_locked T e;; mret (with_live (delete e (g_live g)) g)
  | HpPurgeBegin scratch mem =>
      r ← try_purge_begin T scratch mem;
      mret (match r with None => g | Some pp => with_passes (<[pass_slab pp:=pp]> (g_passes g)) g end)
  | HpPurgeOne p =>
      match g_passes g !! p with
      | None => mret g
      | Some pp =>
          r ← purge_one pp;
          mret (match r with None => g | Some pp' => with_passes (<[p:=pp']> (g_passes g)) g end)
      end
  | HpPurgeEnd p purges =>
      match g_passes g !! p with
      | None => mret g
      | Some pp => try_purge_end T pp (pass_state pp) purges;; mret (with_passes (delete p (g_passes g)) g)
      end
  | HpHugifyBegin =>
      p ← try_hugify_begin T;
      mret (if p =? 0 then g else with_hugifying ({[p]} ∪ g_hugifying g) g)
  | HpHugifyEnd p => try_hugify_end T p;; mret (with_hugifying (g_hugifying g ∖ {[p]}) g)
  | HpHook c => call c;; mret g
  | HpGrow size =>
      '(p, _) ← hpa_central_extract size;
      if p =? 0 then mret g
      else on_psset (psset_insert T p);; mret (with_slabs ({[p]} ∪ g_slabs g) g)
  end.

(** What the caller and the outside code keep to. *)
Definition hpa_legal (s : hpa_mem) (g : hpa_ghost) (ev : hpa_event) : Prop :=
  match ev with
  | HpAnswers _ | HpHugifyBegin => True
  | HpAlloc n => 1 ≤ n ≤ HUGEPAGE_PAGES ∧ fresh_edata s (g_live g) (default 0 (head (an_edata (answers s))))
  | HpPrepare e | HpDalloc e => is_Some (g_live g !! e)
  | HpPurgeBegin scratch mem => room scratch ∧ room mem
  | HpPurgeOne p => is_Some (g_passes g !! p)
  | HpPurgeEnd p _ => ∃ pp d, g_passes g !! p = Some pp ∧ ps_data (slabs s) !! p = Some d ∧
      hpdata_purge_next d (pass_state pp) = Done None
  | HpHugifyEnd p => p ∈ g_hugifying g
  | HpHook c => match c with CallHugify _ _ | CallDehugify _ _ => True | _ => False end
  | HpGrow _ => base_fresh (ps_data (slabs s)) (g_slabs g) (default 0 (head (an_base (answers s)))) ∧
      map_fresh (ps_data (slabs s)) (g_slabs g) (default 0 (head (an_map (answers s))))
  end.

Inductive hpa_reach : hpa_mem → hpa_ghost → Prop :=
| hpa_reach_new s0 bm pm i o s :
    Z.of_nat (length bm) = FB_NGROUPS PSSET_NPSIZES → Z.of_nat (length pm) = FB_NGROUPS PSSET_NPURGE_LISTS →
    (∀ e ed, edatas s0 !! e = Some ed → is_u64 (e_size_esn ed)) → eden (central s0) = 0 → eden_len (central s0) = 0 →
    hpa_shard_init false false bm pm i o s0 = Done (false, s) → hpa_reach s no_ghost
| hpa_reach_step s g ev g' s' :
    hpa_reach s g → hpa_legal s g ev → hpa_exec g ev s = Done (g', s') → hpa_reach s' g'.

Context `{!SzReady T}.

Definition hpa_inv (s : hpa_mem) (g : hpa_ghost) : Prop :=
  shard_inv T s (g_slabs g) (g_passes g) (g_hugifying g) ∧ extents_inv s (g_slabs g) (g_live g).

Lemma extent_of_ok s W L e x : extents_inv s W L → L !! e = Some x → extent_of s e = x.
Proof.
  intros X Hx. destruct (xi_ok _ _ _ X e x Hx) as [_ _ _ _ (_ & ed & d & E1 & E2 & E3 & E4 & E5)].
  unfold extent_of. rewrite E1, E3, E2, E4, E5. replace (h_address d + x_page x * PAGE - h_address d) with (x_page x * PAGE) by lia.
  rewrite !Z.div_mul by done. by destruct x.
Qed.

Lemma shard_init_inv s0 bm pm i o :
  Z.of_nat (length bm) = FB_NGROUPS PSSET_NPSIZES → Z.of_nat (length pm) = FB_NGROUPS PSSET_NPURGE_LISTS →
  (∀ e ed, edatas s0 !! e = Some ed → is_u64 (e_size_esn ed)) → eden (central s0) = 0 → eden_len (central s0) = 0 →
  ∃ s, hpa_shard_init false false bm pm i o s0 = Done (false, s) ∧ hpa_inv s no_ghost.
Proof.
  intros Hb Hp He Hed Hel. destruct (slabs s0) as [D ages r1 r2 r3 ps0] eqn:Em.
  destruct (psset_init_ok T D ages r1 r2 r3 bm pm Hb Hp) as (ps & E & I). unfold hpa_shard_init.
  erewrite bind_done by (apply liftO_done; exact E). eexists. split; [reflexivity|]. unfold with_psset. rewrite Em.
  split; [split; cbn [slabs no_ghost g_slabs g_passes g_hugifying central]|split]; try done.
  - intros p [? Hpp]. by rewrite lookup_empty in Hpp.
  - by left.
Qed.

Lemma hpa_step_ok s g ev :
  hpa_inv s g → hpa_legal s g ev → ∃ g' s', hpa_exec g ev s = Done (g', s') ∧ hpa_inv s' g'.
Proof.
  intros [I X] HL. destruct ev as [a|n|e|e|scratch mem|p|p purges| |p|c|size]; cbn [hpa_exec hpa_legal] in *.
  - eexists _, _. split; [reflexivity|]. split.
    + by apply (shard_inv_frame T s); [|apply (hi_psset _ _ _ _ _ I)|..].
    + apply (extents_inv_frame s); [done|done|done|apply (xi_edatas _ _ _ X)].
  - destruct HL as [Hn Hf]. destruct (alloc_one_ok T s _ _ _ _ n I X Hn Hf) as (r & oom & s' & E & _ & Hr).
    rewrite (bind_done _ _ _ _ _ E). eexists _, _. split; [reflexivity|].
    destruct Hr as [(-> & I' & X' & _)|(Hr & _ & HL & p & b & _ & I' & X')]; [by split|].
    rewrite (proj2 (Z.eqb_neq r 0)) by done. split; [done|]. cbn [with_live g_live g_slabs].
    by rewrite (extent_of_ok s' _ _ r (mkExt p b n) X') by apply lookup_insert_eq.
  - destruct HL as [x Hx]. destruct (dalloc_prepare_ok T s _ _ _ _ e x I X Hx) as (s' & E & _ & I' & X').
    rewrite (bind_done _ _ _ _ _ E). by eexists _, _.
  - destruct HL as [x Hx]. destruct (dalloc_ok T s _ _ _ _ e x I X Hx) as (s' & E & _ & I' & X').
    rewrite (bind_done _ _ _ _ _ E). by eexists _, _.
  - destruct HL as [Hs Hm]. destruct (try_purge_begin_ok T s _ _ _ _ scratch mem I X Hs Hm) as (r & s' & E & X' & Hr).
    rewrite (bind_done _ _ _ _ _ E). eexists _, _. split; [reflexivity|]. destruct r as [pp|]; [by destruct Hr as (_ & I' & _)|].
    destruct Hr as [-> _]. by split.
  - destruct HL as [pp Hpp]. rewrite Hpp. destruct (purge_one_ok T s _ _ _ _ p pp I X Hpp) as (r & s' & E & X' & _ & _ & Hr).
    rewrite (bind_done _ _ _ _ _ E). eexists _, _. split; [reflexivity|]. destruct r as [pp'|]; [by destruct Hr as (I' & _)|].
    subst s'. by split.
  - destruct HL as (pp & d & Hpp & _). rewrite Hpp. destruct (try_purge_end_ok T s _ _ _ _ p pp purges I X Hpp) as (s' & E & I' & X' & _).
    rewrite (bind_done _ _ _ _ _ E). by eexists _, _.
  - destruct (try_hugify_begin_ok T s _ _ _ _ I X) as (p & s' & E & X' & _ & _ & Hr).
    rewrite (bind_done _ _ _ _ _ E). eexists _, _. split; [reflexivity|]. destruct Hr as [(-> & I')|(Hp & _ & _ & _ & I')]; [by split|].
    rewrite (proj2 (Z.eqb_neq p 0)) by done. by split.
  - destruct (try_hugify_end_ok T s _ _ _ _ p I X HL) as (s' & E & I' & X' & _). rewrite (bind_done _ _ _ _ _ E). by eexists _, _.
  - eexists _, _. split; [reflexivity|]. by apply (edata_put_inv T).
  - destruct HL as [HB HM]. destruct (central_extract_ok T s (g_slabs g) size (hi_central _ _ _ _ _ I) HB HM) as (p & oom & s1 & E & Hr).
    rewrite (bind_done _ _ _ _ _ E). destruct Hr as [(-> & _ & (N1 & N2 & N3 & N4 & N5 & _) & _)|[_ Hx]].
    + eexists _, _. split; [reflexivity|]. split.
      * destruct I as [I1 I2 I3 I4 I5 I6 I7]. split; rewrite ?N1, ?N3; done.
      * apply (extents_inv_frame s); [done|by rewrite N1|by rewrite N2|rewrite N2; apply (xi_edatas _ _ _ X)].
    + rewrite (proj2 (Z.eqb_neq p 0)) by apply (ex_new _ _ _ _ Hx).
      destruct (grow_ok T s _ _ _ _ p s1 I X Hx) as (s' & E' & I' & X' & _). rewrite (bind_done _ _ _ _ _ E'). by eexists _, _.
Qed.

Lemma hpa_reach_inv s g : hpa_reach s g → hpa_inv s g.
Proof.
  induction 1 as [s0 bm pm i o s Hb Hp He Hed Hel E|s g ev g' s' _ IH HL E].
  - destruct (shard_init_inv s0 bm pm i o Hb Hp He Hed Hel) as (s' & E' & I). rewrite E in E'. by injection E' as <-.
  - destruct (hpa_step_ok s g ev IH HL) as (g'' & s'' & E' & I). rewrite E in E'. by injection E' as <- <-.
Qed.
End history.
