(* ===== verification/HpaTheorems.v ===== *)
(** * What the huge page allocator promises

    Along every history of a shard ([HpaHistory]) no section fails, extents never overlap, and memory that is
    in use is never purged.  The functions of the interface are histories: with deferral allowed [hpa_alloc] and [hpa_dalloc]
    return, and a request is served unless there is no memory.  Deferred work that finds more dirty pages than allowed and no slab that
    may be purged does not return. *)
From stdpp Require Import base list gmap numbers.
From S2P Require Import Prelude BitUtil SizeClass Sz SzTheorems Fb FbFacts FbTheorems Hpdata HpdataTheorems HpdataPurge Edata EdataTheorems Ph Ql Psset PssetSizes PssetFacts PssetInv PssetOps PssetPick Hpa HpaInv HpaOps HpaWork HpaHistory.

(** The counts of [hpa_alloc_batch_psset] after a round without an extent. *)
Ltac no_success :=
  change (0 =? 0) with true; cbv iota; cbn [length]; change (Z.of_nat 0) with 0; change (0 - 0) with 0;
  change (0 =? 1) with false; cbn [orb]; change (1 - 0) with 1.

Section theorems.
Context (T : sz_tables) `{!SzReady T}.

(** ** The functions of the interface as histories *)

(** [r] is a new extent of [n] pages, in a slab that is not being purged. *)
Definition served (g g' : hpa_ghost) (n r : Z) : Prop :=
  r ≠ 0 ∧ g_live g !! r = None ∧ ∃ p b, g_passes g !! p = None ∧ g_live g' = <[r:=mkExt p b n]> (g_live g).

Lemma alloc_one_reach s g n :
  hpa_reach T s g → 1 ≤ n ≤ HUGEPAGE_PAGES → fresh_edata s (g_live g) (default 0 (head (an_edata (answers s)))) →
  ∃ r oom s' g', hpa_try_alloc_one_no_grow T (n * PAGE) s = Done ((r, oom), s') ∧ hpa_reach T s' g' ∧ opts s' = opts s ∧
    (r = 0 ∧ g' = g ∧ (if oom then refused (answers s) else starved T s s' (g_slabs g) n) ∨ oom = false ∧ served g g' n r).
Proof.
  intros R Hn Hf. destruct (hpa_reach_inv T s g R) as [I X].
  destruct (alloc_one_ok T s _ _ _ _ n I X Hn Hf) as (r & oom & s' & E & Eo & Hr).
  assert (Hs : hpa_reach T s' (if r =? 0 then g else with_live (<[r:=extent_of s' r]> (g_live g)) g)).
  { apply (hpa_reach_step T s g (HpAlloc n)); [done|by split|]. cbn [hpa_exec]. by rewrite (bind_done _ _ _ _ _ E). }
  eexists r, oom, s', _. split_and!; [exact E|exact Hs|exact Eo|].
  destruct Hr as [(-> & _ & _ & Hr)|(Hr & -> & HL & p & b & HP & I' & X')]; [by left|right].
  rewrite (proj2 (Z.eqb_neq r 0)) by done. split; [done|]. split_and!; [done..|]. exists p, b. split; [done|]. cbn [g_live with_live].
  by rewrite (extent_of_ok s' _ _ r (mkExt p b n) X') by apply lookup_insert_eq.
Qed.

Lemma grow_reach s g size :
  hpa_reach T s g → base_fresh (ps_data (slabs s)) (g_slabs g) (default 0 (head (an_base (answers s)))) →
  map_fresh (ps_data (slabs s)) (g_slabs g) (default 0 (head (an_map (answers s)))) →
  ∃ p oom s1, hpa_central_extract size s = Done ((p, oom), s1) ∧
    (p = 0 ∧ hpa_reach T s1 g ∧ no_memory (answers s) ∨
     p ≠ 0 ∧ ∃ s', on_psset (psset_insert T p) s1 = Done (tt, s') ∧ hpa_reach T s' (with_slabs ({[p]} ∪ g_slabs g) g) ∧
       edatas s' = edatas s ∧ opts s' = opts s ∧ same_asked s s' ∧ serves T (slabs s') ({[p]} ∪ g_slabs g) p BinEmpty).
Proof.
  intros R HB HM. destruct (hpa_reach_inv T s g R) as [I X].
  destruct (central_extract_ok T s (g_slabs g) size (hi_central _ _ _ _ _ I) HB HM) as (p & oom & s1 & E & Hr).
  exists p, oom, s1. split; [exact E|]. destruct Hr as [(-> & _ & _ & Hno)|[_ Hx]]; [left|right].
  - split_and!; [done| |done]. apply (hpa_reach_step T s g (HpGrow size)); [done|done|]. cbn [hpa_exec]. by rewrite (bind_done _ _ _ _ _ E).
  - destruct (ex_new _ _ _ _ Hx) as [Hp _]. split; [done|].
    destruct (grow_ok T s _ _ _ _ p s1 I X Hx) as (s' & E' & I' & X' & Hrest). exists s'. split; [done|]. split; [|exact Hrest].
    apply (hpa_reach_step T s g (HpGrow size)); [done|done|]. cbn [hpa_exec]. rewrite (bind_done _ _ _ _ _ E).
    rewrite (proj2 (Z.eqb_neq p 0)) by done. by rewrite (bind_done _ _ _ _ _ E').
Qed.

(** With deferral allowed nothing is deferred to the caller. *)
Lemma no_deferred_work fuel s : deferral_allowed (opts s) = true → hpa_shard_maybe_do_deferred_work T fuel false s = Done (tt, s).
Proof. intros H. unfold hpa_shard_maybe_do_deferred_work. erewrite bind_done by reflexivity. by rewrite H. Qed.

(** One round of [hpa_alloc_batch_psset] for one extent. *)
Lemma batch_of_one fuel s g n oom0 :
  hpa_reach T s g → deferral_allowed (opts s) = true → 1 ≤ n ≤ HUGEPAGE_PAGES →
  fresh_edata s (g_live g) (default 0 (head (an_edata (answers s)))) →
  ∃ r oom dw s' g', hpa_try_alloc_batch_no_grow T fuel (n * PAGE) oom0 1 [] s =
      Done ((if r =? 0 then [] else [r], oom0 || oom, dw), s') ∧ hpa_reach T s' g' ∧ opts s' = opts s ∧
    (r = 0 ∧ g' = g ∧ (if oom then refused (answers s) else starved T s s' (g_slabs g) n) ∨ oom = false ∧ served g g' n r).
Proof.
  intros R Hd Hn Hf. destruct (alloc_one_reach s g n R Hn Hf) as (r & oom & s' & g' & E & R' & Eo & Hr).
  destruct (hpa_reach_inv T s' g' R') as [I' _]. destruct (has_deferred_work_ok T s' _ _ _ I') as (dw & Ew).
  exists r, oom, dw, s', g'. split; [|done]. unfold hpa_try_alloc_batch_no_grow. change (Z.to_nat 1) with 1%nat.
  assert (El : alloc_batch_loop T 1 (n * PAGE) oom0 [] s = Done ((oom0 || oom, if r =? 0 then [] else [r]), s')).
  { cbn [alloc_batch_loop]. rewrite (bind_done _ _ _ _ _ E). cbv beta iota. by destruct (r =? 0). }
  rewrite (bind_done _ _ _ _ _ El). cbv beta iota.
  rewrite (bind_done _ _ _ _ _ (no_deferred_work fuel s' ltac:(by rewrite Eo))). by rewrite (bind_done _ _ _ _ _ Ew).
Qed.
(** The descriptors that the cache hands out for three attempts. *)
Definition fresh_edatas (s : hpa_mem) (g : hpa_ghost) : Prop :=
  ∀ k, (k < 3)%nat → fresh_edata s (g_live g) (default 0 (an_edata (answers s) !! k)).

Lemma head_tails (l : list Z) : default 0 (head l) = default 0 (l !! 0%nat) ∧ default 0 (head (tail l)) = default 0 (l !! 1%nat) ∧
  default 0 (head (tail (tail l))) = default 0 (l !! 2%nat).
Proof. by destruct l as [|? [|? [|? ?]]]. Qed.

(** Outside code has no memory for one of three descriptors, for the extent map, for the metadata of a slab, or no address space. *)
Definition out_of_memory (a : hpa_answers) : Prop :=
  (∃ k, (k < 3)%nat ∧ default 0 (an_edata a !! k) = 0) ∨ default false (head (an_emap a)) = true ∨ no_memory a.

(** The third attempt, in a shard that has just got the empty slab [p]. *)
Lemma batch_in_new_slab fuel s g n p :
  hpa_reach T s g → deferral_allowed (opts s) = true → 1 ≤ n ≤ HUGEPAGE_PAGES →
  fresh_edata s (g_live g) (default 0 (head (an_edata (answers s)))) → serves T (slabs s) (g_slabs g) p BinEmpty →
  ∃ r oom dw s' g', hpa_try_alloc_batch_no_grow T fuel (n * PAGE) false 1 [] s =
      Done ((if r =? 0 then [] else [r], oom, dw), s') ∧ hpa_reach T s' g' ∧
    (r = 0 ∧ g' = g ∧ refused (answers s) ∨ served g g' n r).
Proof.
  intros R Hd Hn Hf Hp. destruct (batch_of_one fuel s g n false R Hd Hn Hf) as (r & oom & dw & s' & g' & E & R' & _ & Hr).
  exists r, oom, dw, s', g'. split; [exact E|]. split; [exact R'|]. destruct Hr as [(-> & -> & Hr)|[_ Hr]]; [left|by right].
  split_and!; [done..|]. destruct oom; [done|]. exfalso. by apply (proj2 (sv_room _ _ _ _ _ Hr) p).
Qed.

Lemma alloc_batch_psset_one fuel s g n :
  hpa_reach T s g → deferral_allowed (opts s) = true → 1 ≤ n ≤ HUGEPAGE_PAGES → fresh_edatas s g →
  base_fresh (ps_data (slabs s)) (g_slabs g) (default 0 (head (an_base (answers s)))) →
  map_fresh (ps_data (slabs s)) (g_slabs g) (default 0 (head (an_map (answers s)))) →
  ∃ r dw s' g', hpa_alloc_batch_psset T fuel (n * PAGE) 1 [] s = Done ((if r =? 0 then [] else [r], dw), s') ∧ hpa_reach T s' g' ∧
    (served g g' n r ∨ r = 0 ∧ g_live g' = g_live g ∧ out_of_memory (answers s)).
Proof.
  intros R Hd Hn Hf HB HM. destruct (head_tails (an_edata (answers s))) as (K0 & K1 & K2). unfold hpa_alloc_batch_psset.
  destruct (batch_of_one fuel s g n false R Hd Hn ltac:(rewrite K0; apply Hf; lia)) as (r & oom & dw & s1 & g1 & E & R1 & O1 & Hr).
  rewrite (bind_done _ _ _ _ _ E). cbv beta iota. clear E.
  destruct Hr as [(-> & -> & Hr)|[-> Hr]].
  2: { exists r, dw, s1, g1. destruct Hr as [Hr0 Hr]. rewrite (proj2 (Z.eqb_neq r 0)) by done. split; [done|]. split; [done|by left]. }
  no_success. destruct oom.
  { exists 0, dw, s1, g. split; [done|]. split; [done|]. right. split_and!; [done..|].
    destruct Hr as [Hr|Hr]; [left; exists 0%nat; rewrite <- K0; by split; [lia|]|by right; left]. }
  cbv iota. destruct Hr as [V1 V2 V3 (V4 & V5 & V6 & V7)].
  destruct (batch_of_one fuel s1 g n false R1 ltac:(by rewrite O1) Hn) as (r & oom & dw2 & s2 & g2 & E & R2 & O2 & Hr).
  { rewrite V4, K1. unfold fresh_edata. rewrite V3. apply Hf. lia. }
  rewrite (bind_done _ _ _ _ _ E). cbv beta iota. clear E.
  destruct Hr as [(-> & -> & Hr)|[-> Hr]].
  2: { exists r, dw2, s2, g2. destruct Hr as [Hr0 Hr]. rewrite (proj2 (Z.eqb_neq r 0)) by done. split; [done|]. split; [done|by left]. }
  no_success. destruct oom.
  { exists 0, dw2, s2, g. split; [done|]. split; [done|]. right. split_and!; [done..|]. unfold refused in Hr. rewrite V4, V7 in Hr.
    destruct Hr as [Hr|Hr]; [left; exists 1%nat; rewrite <- K1; by split; [lia|]|by right; left]. }
  cbv iota. destruct Hr as [U1 U2 U3 (U4 & U5 & U6 & U7)].
  destruct (grow_reach s2 g (n * PAGE) R2) as (p & oom & s3 & E & Hr); [by rewrite U2, V2, U5, V5|by rewrite U2, V2, U6, V6|].
  rewrite (bind_done _ _ _ _ _ E). cbv beta iota. clear E. destruct Hr as [(-> & R3 & Hno)|(Hp & s4 & E & R4 & E4 & O4 & [A4 B4] & Hsv)].
  { exists 0, dw2, s3, g. split; [done|]. split; [done|]. right. split_and!; [done..|]. right. right. unfold no_memory in Hno. by rewrite U5, V5, U6, V6 in Hno. }
  rewrite (proj2 (Z.eqb_neq p 0)) by done. rewrite (bind_done _ _ _ _ _ E). clear E.
  destruct (batch_in_new_slab fuel s4 _ n p R4 ltac:(by rewrite O4, O2, O1) Hn) as (r & oom' & dw3 & s5 & g5 & E & R5 & Hr); [|exact Hsv|].
  { rewrite A4, U4, V4, K2. unfold fresh_edata. rewrite E4, U3, V3. apply Hf. lia. }
  rewrite (bind_done _ _ _ _ _ E). exists r, dw3, s5, g5. split; [done|]. split; [done|].
  destruct Hr as [(-> & -> & Hr)|Hr]; [right|by left]. split_and!; [done..|]. unfold refused in Hr. rewrite A4, U4, V4, B4, U7, V7, K2 in Hr.
  destruct Hr as [Hr|Hr]; [left; exists 2%nat; by split; [lia|]|by right; left].
Qed.
Lemma pass_ended s g p pp :
  hpa_reach T s g → g_passes g !! p = Some pp → purge_one pp s = Done (None, s) →
  ∃ d, ps_data (slabs s) !! p = Some d ∧ hpdata_purge_next d (pass_state pp) = Done None.
Proof.
  intros R Hpp E. destruct (hpa_reach_inv T s g R) as [I _].
  assert (HW : p ∈ g_slabs g) by (apply (hi_passes _ _ _ _ _ I); by rewrite Hpp).
  destruct (shard_inv_slab T s _ _ _ p I HW) as (d & Ed & HS). destruct (si_pass _ _ _ _ HS pp Hpp) as (K1 & _ & K3 & _).
  exists d. split; [done|]. unfold purge_one in E. rewrite K1 in E.
  erewrite bind_done in E by (by eapply slab_get_settled; [apply (hi_psset _ _ _ _ _ I)|..]).
  destruct (purge_next_ok d (pass_state pp) K3) as (r & Er & _). erewrite bind_done in E by (apply liftO_done; exact Er).
  rewrite Er. by destruct r as [[[? ?] ?]|].
Qed.

(** The rounds of a pass and the end of the loop. *)
Lemma purge_loop_reach fuel s g p pp n :
  hpa_reach T s g → g_passes g !! p = Some pp →
  (Z.to_nat (HUGEPAGE_PAGES - next_purge_search_begin (pass_state pp)) ≤ fuel)%nat →
  ∃ pp' n' s' d, purge_loop fuel pp n s = Done ((pass_state pp', n'), s') ∧ pass_slab pp' = pass_slab pp ∧
    pass_dehugify pp' = pass_dehugify pp ∧ pass_num pp' = pass_num pp ∧ hpa_reach T s' (with_passes (<[p:=pp']> (g_passes g)) g) ∧
    ps_data (slabs s') !! p = Some d ∧ hpdata_purge_next d (pass_state pp') = Done None.
Proof.
  revert s g pp n. induction fuel as [|fuel IH]; intros s g pp n R Hpp Hf; destruct (hpa_reach_inv T s g R) as [I X]; cbn [purge_loop];
    destruct (purge_one_ok T s _ _ _ _ p pp I X Hpp) as (r & s1 & E1 & _ & _ & _ & Hr); rewrite (bind_done _ _ _ _ _ E1).
  - destruct r as [pp1|]; [|subst s1; destruct (pass_ended s g p pp R Hpp E1) as (d & Ed & En); exists pp, n, s, d;
      rewrite insert_id by done; split_and!; [done..| |done|done]; by destruct g]. destruct Hr as (_ & _ & Hn & _). lia.
  - destruct r as [pp1|]; [|subst s1; destruct (pass_ended s g p pp R Hpp E1) as (d & Ed & En); exists pp, n, s, d;
      rewrite insert_id by done; split_and!; [done..| |done|done]; by destruct g]. destruct Hr as (_ & (O1 & O2 & O3) & Hn & _).
    assert (R1 : hpa_reach T s1 (with_passes (<[p:=pp1]> (g_passes g)) g)).
    { apply (hpa_reach_step T s g (HpPurgeOne p)); [done|by eexists|]. cbn [hpa_exec]. rewrite Hpp. by rewrite (bind_done _ _ _ _ _ E1). }
    destruct (IH s1 _ pp1 (u64 (n + 1)) R1 ltac:(apply lookup_insert_eq) ltac:(lia)) as (pp' & n' & s' & d & E' & Q1 & Q2 & Q3 & R' & Q4).
    exists pp', n', s', d. rewrite E'. cbn [g_passes with_passes] in R'. rewrite insert_insert_eq in R'. split_and!; try done; try congruence; apply Q4.
Qed.
Lemma stack_bitmap_room : room stack_bitmap.
Proof. by vm_compute. Qed.

(** The calls of a pass without the mutex. *)
Lemma purge_unlocked_reach s g p pp :
  hpa_reach T s g → g_passes g !! p = Some pp →
  ∃ pp' n' s' d, try_purge_unlocked pp s = Done ((pass_state pp', n'), s') ∧ pass_slab pp' = pass_slab pp ∧
    pass_dehugify pp' = pass_dehugify pp ∧ pass_num pp' = pass_num pp ∧ hpa_reach T s' (with_passes (<[p:=pp']> (g_passes g)) g) ∧
    ps_data (slabs s') !! p = Some d ∧ hpdata_purge_next d (pass_state pp') = Done None.
Proof.
  intros R Hpp. destruct (hpa_reach_inv T s g R) as [I _].
  assert (HW : p ∈ g_slabs g) by (apply (hi_passes _ _ _ _ _ I); by rewrite Hpp).
  destruct (shard_inv_slab T s _ _ _ p I HW) as (d & Ed & HS). destruct (si_pass _ _ _ _ HS pp Hpp) as (K1 & _ & K3 & _).
  assert (Eg : on_psset (slab_get (pass_slab pp)) s = Done (d, s)) by (rewrite K1; by eapply slab_get_settled; [apply (hi_psset _ _ _ _ _ I)|..]).
  unfold try_purge_unlocked. rewrite (bind_done _ _ _ _ _ Eg). pose proof (HpdataPurge.pi_next _ _ K3) as Hnx.
  assert (Hfuel : (Z.to_nat (HUGEPAGE_PAGES - next_purge_search_begin (pass_state pp)) ≤ Z.to_nat HUGEPAGE_PAGES)%nat) by lia.
  destruct (pass_dehugify pp) eqn:Edh.
  - set (s1 := add_call (CallDehugify (hpdata_addr_get d) HUGEPAGE) s). erewrite (bind_done _ _ _ tt s1) by reflexivity. rewrite <- Edh.
    apply purge_loop_reach; [|done|done]. by apply (hpa_reach_step T s g (HpHook (CallDehugify (hpdata_addr_get d) HUGEPAGE))).
  - erewrite (bind_done _ _ _ tt s) by reflexivity. rewrite <- Edh. by apply purge_loop_reach.
Qed.

(** What a pass hands to the hooks: first, for a huge slab, that it be made of ordinary pages. *)
Definition pass_calls (d : hpdata_t) (spans : list (Z * Z)) : list hpa_call :=
  (if h_huge d then [CallDehugify (h_address d) HUGEPAGE] else []) ++ (purge_call <$> (span_range d <$> spans)).

Lemma unlocked_ranges s W pp d rs st :
  psset_inv T (slabs s) W ∅ → pass_slab pp ∈ W → ps_data (slabs s) !! pass_slab pp = Some d →
  purge_ranges (S (Z.to_nat HUGEPAGE_PAGES)) d (pass_state pp) = Done (rs, st) → (length rs ≤ 512)%nat →
  try_purge_unlocked pp s = Done ((st, Z.of_nat (length rs)),
    add_calls ((if pass_dehugify pp then [CallDehugify (h_address d) HUGEPAGE] else []) ++ (purge_call <$> rs)) s).
Proof.
  intros I Hp Ed Er Hlen. unfold try_purge_unlocked. erewrite bind_done by (by eapply slab_get_settled).
  destruct (pass_dehugify pp).
  - erewrite (bind_done _ _ _ tt (add_call _ s)) by reflexivity.
    by rewrite (purge_loop_ranges T _ (add_call _ s) W pp 0 d rs st) by (done || lia).
  - erewrite (bind_done _ _ _ tt s) by reflexivity. by rewrite (purge_loop_ranges T _ s W pp 0 d rs st) by (done || lia).
Qed.

(** A pass from its beginning to its end, with no other section in between. *)
Lemma pass_runs s s1 g pp d :
  let p := pass_slab pp in let g1 := with_passes (<[p:=pp]> (g_passes g)) g in
  hpa_reach T s1 g1 → p ∈ g_slabs g → ps_data (slabs s) !! p = Some d → pass_begun s s1 pp d →
  ∃ spans st s2, try_purge_unlocked pp s1 = Done ((st, Z.of_nat (length spans)), s2) ∧
    calls s2 = calls s ++ pass_calls d spans ∧ (length spans ≤ 512)%nat ∧
    (∀ i, 0 ≤ i → Exists (in_span i) spans → fbit (active_pages d) i = false) ∧
    (∀ i, 0 ≤ i < HUGEPAGE_PAGES → fbit (touched_pages d) i = true → fbit (active_pages d) i = false → Exists (in_span i) spans) ∧
    ∃ s3 d', try_purge_end T pp st (Z.of_nat (length spans)) s2 = Done (tt, s3) ∧ hpa_reach T s3 (with_passes (delete p (g_passes g1)) g1) ∧
      calls s3 = calls s ++ pass_calls d spans ∧ shard_stats s3 = count_pass (Z.of_nat (length spans)) (h_huge d) (shard_stats s) ∧
      ps_data (slabs s3) = <[p:=d']> (ps_data (slabs s)) ∧ active_pages d' = active_pages d ∧ h_huge d' = false ∧
      ∀ i, 0 ≤ i < HUGEPAGE_PAGES → fbit (touched_pages d') i = fbit (active_pages d) i.
Proof.
  intros p g1 R1 HW Ed [(d1 & D1 & Hpg) Hcalls Hstats Hhuge Hnx Hdirty].
  assert (Hp1 : g_passes g1 !! p = Some pp) by apply lookup_insert_eq. destruct (hpa_reach_inv T s1 _ R1) as [I1 _].
  destruct (shard_inv_slab T s1 _ _ _ p I1 HW) as (d1' & Ed1 & HS). assert (d1' = d1) as -> by (rewrite D1, lookup_insert_eq in Ed1; congruence).
  destruct (si_pass _ _ _ _ HS pp Hp1) as (_ & _ & K3 & _). pose proof (si_ok _ _ _ _ HS) as Hok.
  destruct Hpg as (G1 & G2 & _ & _ & _ & G6 & G7).
  destruct (purge_ranges_ok (S (Z.to_nat HUGEPAGE_PAGES)) d1 (pass_state pp) K3) as (spans & st & Er & _ & Etp & _ & _ & _ & Hcov); [rewrite Hnx; lia|].
  destruct (purge_ranges_count _ _ _ _ _ K3 Er) as [Hlen _]. rewrite Hnx, hugepage_pages, length_fmap in Hlen. rewrite Hnx in Hcov.
  pose proof (unlocked_ranges s1 _ pp d1 _ st (hi_psset _ _ _ _ _ I1) HW Ed1 Er ltac:(rewrite length_fmap; lia)) as E2. rewrite length_fmap in E2.
  destruct (purge_unlocked_reach s1 g1 p pp R1 Hp1) as (pp' & n & s2 & d2 & E2' & Q1 & Q2 & Q3 & R2 & Ed2 & En).
  rewrite E2' in E2. injection E2 as Est En' Es2. subst n.
  destruct (add_calls_frame ((if pass_dehugify pp then [CallDehugify (h_address d1) HUGEPAGE] else []) ++ (purge_call <$> (span_range d1 <$> spans))) s1)
    as (F1 & F2 & F3). rewrite <- Es2 in F1, F2, F3.
  assert (calls s2 = calls s ++ pass_calls d spans) as Hc2.
  { rewrite F2, Hcalls, Hhuge, G7. unfold pass_calls. do 3 f_equal. apply list_fmap_ext. intros i x _. unfold span_range. by rewrite G7. }
  destruct (hpa_reach_inv T s2 _ R2) as [I2 X2]. cbn [g_passes with_passes g1] in R2, I2, X2.
  destruct (try_purge_end_ok T s2 _ _ _ _ p pp' (Z.of_nat (length spans)) I2 X2 ltac:(apply lookup_insert_eq))
    as (s3 & E3 & _ & _ & _ & Hc3 & Hst3 & d3 & d' & Ed3 & D3 & A3 & Hh3 & B3).
  exists spans, st, s2. rewrite <- Est. split; [done|]. split; [done|]. split; [lia|]. split; [|split].
  - intros i Hi Hex. rewrite <- G1. apply (HpdataPurge.pi_inactive d1 _ K3); [done|]. by apply Hcov.
  - intros i Hi Ht Hna. apply Hcov; [lia|]. by apply Hdirty.
  - assert (d3 = d1) as -> by (rewrite F1, Ed1 in Ed3; congruence).
    exists s3, d'. split; [by rewrite <- E3; unfold try_purge_end; rewrite Q1, Q2, Q3|]. split; [|split; [congruence|split]].
    + cbn [g1 g_passes with_passes]. rewrite delete_insert_eq.
      replace (with_passes _ _) with (with_passes (delete p (<[p:=pp']> (<[p:=pp]> (g_passes g)))) (with_passes (<[p:=pp']> (<[p:=pp]> (g_passes g))) g1))
        by (unfold with_passes; cbn; by rewrite insert_insert_eq, delete_insert_eq).
      eapply (hpa_reach_step T s2 _ (HpPurgeEnd p (Z.of_nat (length spans)))); [exact R2| |].
      * exists pp', d2. split_and!; [apply lookup_insert_eq|done|done].
      * cbn [hpa_exec g_passes with_passes]. rewrite lookup_insert_eq. by rewrite (bind_done _ _ _ _ _ E3).
    + by rewrite Hst3, F3, Hstats, Q2, Hhuge.
    + split; [by rewrite D3, F1, D1, insert_insert_eq|]. split; [congruence|]. split; [done|].
      intros i Hi. rewrite B3, Est, Etp, G2 by done. pose proof (Hdirty i Hi) as Hd. pose proof (HpdataPurge.pi_inactive d1 _ K3 i ltac:(lia)) as Hin.
      pose proof (ho_sub d1 Hok i ltac:(lia)) as Hsub. rewrite G1, G2 in *.
      destruct (fbit (active_pages d) i), (fbit (touched_pages d) i), (fbit (Hpdata.to_purge (pass_state pp)) i); simpl; intuition discriminate.
Qed.

(** ** Deallocation *)

Lemma prepare_all s g l :
  hpa_reach T s g → Forall (λ e, is_Some (g_live g !! e)) l →
  ∃ s', each hpa_dalloc_prepare_unlocked l s = Done (tt, s') ∧ hpa_reach T s' g ∧ opts s' = opts s.
Proof.
  intros R Hf. revert s R. induction Hf as [|e l [x Hx] _ IH]; intros s R; [by exists s|]. cbn [each].
  destruct (hpa_reach_inv T s g R) as [I X]. destruct (dalloc_prepare_ok T s _ _ _ _ e x I X Hx) as (s1 & E1 & O1 & _).
  rewrite (bind_done _ _ _ _ _ E1). destruct (IH s1) as (s' & E' & R' & O').
  - apply (hpa_reach_step T s g (HpPrepare e)); [done|by eexists|]. cbn [hpa_exec]. by rewrite (bind_done _ _ _ _ _ E1).
  - exists s'. split_and!; [done..|congruence].
Qed.

Lemma dalloc_all s g l :
  hpa_reach T s g → NoDup l → Forall (λ e, is_Some (g_live g !! e)) l →
  ∃ s', each (hpa_dalloc_locked T) l s = Done (tt, s') ∧ hpa_reach T s' (with_live (foldl (flip delete) (g_live g) l) g) ∧ opts s' = opts s.
Proof.
  intros R Hl. revert s g R. induction Hl as [|e l He Hl IH]; intros s g R Hf; [exists s; split_and!; [done| |done]; by destruct g|]. cbn [each].
  apply list.Forall_cons in Hf as [[x Hx] Hf].
  destruct (hpa_reach_inv T s g R) as [I X]. destruct (dalloc_ok T s _ _ _ _ e x I X Hx) as (s1 & E1 & O1 & _).
  rewrite (bind_done _ _ _ _ _ E1). destruct (IH s1 (with_live (delete e (g_live g)) g)) as (s' & E' & R' & O').
  - apply (hpa_reach_step T s g (HpDalloc e)); [done|by eexists|]. cbn [hpa_exec]. by rewrite (bind_done _ _ _ _ _ E1).
  - rewrite list.Forall_forall in Hf |- *. intros e' He'. cbn [g_live with_live]. rewrite lookup_delete_ne; [by apply Hf|]. by intros ->.
  - exists s'. split_and!; [done|exact R'|congruence].
Qed.

(** ** Deferred work *)

Lemma purge_spins fuel s g max_ops nops b :
  hpa_reach T s g → hpa_should_purge s = Done (true, s) →
  (∀ p d, p ∈ g_slabs g → ps_data (slabs s) !! p = Some d → h_purge_allowed d = false) → nops < max_ops →
  purge_while T fuel max_ops nops b s = Fault Diverges.
Proof.
  intros R Es Hno Hops. destruct (hpa_reach_inv T s g R) as [I X].
  assert (Ep : hpa_try_purge T s = Done (false, s)).
  { unfold hpa_try_purge. destruct (try_purge_begin_ok T s _ _ _ _ _ _ I X stack_bitmap_room stack_bitmap_room) as (r & s1 & E & _ & Hr).
    rewrite (bind_done _ _ _ _ _ E). destruct r as [pp|]; [|by destruct Hr as [-> _]].
    destruct Hr as (_ & _ & _ & _ & d & HW & Ed & Ha & _). by rewrite (Hno _ _ HW Ed) in Ha. }
  revert b. induction fuel as [|fuel IH]; intros b; cbn [purge_while]; rewrite (bind_done _ _ _ _ _ Es);
    cbn [andb]; rewrite (proj2 (Z.ltb_lt _ _)) by done; [done|]. by rewrite (bind_done _ _ _ _ _ Ep).
Qed.

(** ** Addresses *)

Definition apart (a len b len' : Z) : Prop := a + len ≤ b ∨ b + len' ≤ a.

(** Pages [i], [n] of them, of one slab and pages [j], [m] of them, of another or of the same. *)
Lemma pages_apart s W P H p q d d' i n j m :
  shard_inv T s W P H → p ∈ W → q ∈ W → ps_data (slabs s) !! p = Some d → ps_data (slabs s) !! q = Some d' →
  0 ≤ i → i + n ≤ HUGEPAGE_PAGES → 0 ≤ j → j + m ≤ HUGEPAGE_PAGES → 0 < n → 0 < m →
  (p = q → ∀ k, i ≤ k < i + n → ¬ j ≤ k < j + m) →
  apart (h_address d + i * PAGE) (n * PAGE) (h_address d' + j * PAGE) (m * PAGE).
Proof.
  intros I Hp Hq Ed Ed' H1 H2 H3 H4 Hn Hm Hd. unfold apart. rewrite hugepage_pages in *. destruct (decide (p = q)) as [->|Hne].
  - simplify_eq. specialize (Hd eq_refl). assert (i + n ≤ j ∨ j + m ≤ i); [|change PAGE with 4096; lia].
    destruct (decide (i ≤ j)) as [Hij|Hij]; [destruct (decide (i + n ≤ j)); [by left|exfalso; apply (Hd j); lia]|].
    destruct (decide (j + m ≤ i)); [by right|exfalso; apply (Hd i); lia].
  - destruct (hi_apart _ _ _ _ _ I p q d d' Hp Hq Hne Ed Ed'); change HUGEPAGE with (512 * PAGE) in *; change PAGE with 4096 in *; lia.
Qed.

(** ** The claims *)

(** C18: along every history of a shard that keeps to the protocol, the next section that does returns, and the shard is
    then again in a state of the history: no section dereferences a pointer that is null or that points to nothing, runs off a
    bitmap or repeats for ever.  (Assertions, which are empty in a release build, are not part of the model.) *)
Theorem hpa_never_fails s g ev :
  hpa_reach T s g → hpa_legal s g ev → ∃ g' s', hpa_exec T g ev s = Done (g', s') ∧ hpa_reach T s' g'.
Proof.
  intros R HL. destruct (hpa_step_ok T s g ev (hpa_reach_inv T s g R) HL) as (g' & s' & E & _). exists g', s'. split; [done|].
  by eapply hpa_reach_step.
Qed.

(** C22: [hpa_try_purge], with no other thread between its sections, returns, with no extent moved and no pass left under way.  It returns false, with the shard as it was, if
    no slab may be purged, and else true: then one slab that may be purged has been purged.  The hook was called once for
    the slab to be made of ordinary pages, if it was huge, and then at most 512 times to purge, for ranges that cover every dirty page
    of the slab and no active one; the slab keeps its active pages, of which alone it counts as touched, it is not huge, no other slab
    is changed, and the statistics count the pass and its calls. *)
Theorem hpa_try_purge_returns s g :
  hpa_reach T s g →
  ∃ b s', hpa_try_purge T s = Done (b, s') ∧ hpa_reach T s' g ∧
    (b = false → s' = s ∧ ∀ p d, p ∈ g_slabs g → ps_data (slabs s) !! p = Some d → h_purge_allowed d = false) ∧
    (b = true → ∃ p d d' spans, p ∈ g_slabs g ∧ ps_data (slabs s) !! p = Some d ∧ h_purge_allowed d = true ∧
       calls s' = calls s ++ pass_calls d spans ∧ (length spans ≤ 512)%nat ∧
       (∀ i, 0 ≤ i → Exists (in_span i) spans → fbit (active_pages d) i = false) ∧
       (∀ i, 0 ≤ i < HUGEPAGE_PAGES → fbit (touched_pages d) i = true → fbit (active_pages d) i = false → Exists (in_span i) spans) ∧
       ps_data (slabs s') = <[p:=d']> (ps_data (slabs s)) ∧ active_pages d' = active_pages d ∧ h_huge d' = false ∧
       (∀ i, 0 ≤ i < HUGEPAGE_PAGES → fbit (touched_pages d') i = fbit (active_pages d) i) ∧
       shard_stats s' = count_pass (Z.of_nat (length spans)) (h_huge d) (shard_stats s)).
Proof.
  intros R. destruct (hpa_reach_inv T s g R) as [I X]. unfold hpa_try_purge.
  destruct (try_purge_begin_ok T s _ _ _ _ _ _ I X stack_bitmap_room stack_bitmap_room) as (r & s1 & E & _ & Hr).
  rewrite (bind_done _ _ _ _ _ E). destruct r as [pp|]; [|destruct Hr as [-> Hr]; by exists false, s].
  destruct Hr as (HP & _ & _ & _ & d & HW & Ed & Ha & HB). set (g1 := with_passes (<[pass_slab pp:=pp]> (g_passes g)) g).
  assert (R1 : hpa_reach T s1 g1).
  { apply (hpa_reach_step T s g (HpPurgeBegin stack_bitmap stack_bitmap)); [done|split; apply stack_bitmap_room|].
    cbn [hpa_exec]. by rewrite (bind_done _ _ _ _ _ E). }
  destruct (pass_runs s s1 g pp d R1 HW Ed HB) as (spans & st & s2 & E2 & Hc & Hlen & Hin & Hdirty & s3 & d' & E3 & Hrest).
  rewrite (bind_done _ _ _ _ _ E2). cbv beta iota. rewrite (bind_done _ _ _ _ _ E3). exists true, s3. split; [done|].
  destruct Hrest as (R3 & Hcalls & Hstats & Hdata & Hact & Hhuge & Htouched).
  split; [|split; [done|intros _; by exists (pass_slab pp), d, d', spans; split_and!]].
  replace g with (with_passes (delete (pass_slab pp) (g_passes g1)) g1) at 1; [exact R3|].
  cbn [g1 g_passes with_passes]. rewrite delete_insert_id by done. by destruct g.
Qed.
(** C19: two extents that are in use at the same time have disjoint memory, page-aligned and within the address space. *)
Theorem hpa_extents_apart s g e1 e2 :
  hpa_reach T s g → is_Some (g_live g !! e1) → is_Some (g_live g !! e2) → e1 ≠ e2 →
  ∃ d1 d2, edatas s !! e1 = Some d1 ∧ edatas s !! e2 = Some d2 ∧ 0 < edata_size_get d1 ∧
    edata_addr_get d1 mod PAGE = 0 ∧ edata_size_get d1 mod PAGE = 0 ∧ edata_addr_get d1 + edata_size_get d1 ≤ 2 ^ 64 ∧
    apart (edata_addr_get d1) (edata_size_get d1) (edata_addr_get d2) (edata_size_get d2).
Proof.
  intros R [x1 H1] [x2 H2] Hne. destruct (hpa_reach_inv T s g R) as [I X].
  destruct (xi_ok _ _ _ X e1 x1 H1) as [A1 A2 A3 A4 (_ & d1 & f1 & E1 & E2 & _ & E4 & E5)].
  destruct (xi_ok _ _ _ X e2 x2 H2) as [B1 B2 B3 B4 (_ & d2 & f2 & F1 & F2 & _ & F4 & F5)].
  exists d1, d2. split_and!; [done|done|..]; rewrite E4, E5 || rewrite E5 || rewrite E4.
  - change PAGE with 4096. lia.
  - destruct (si_bounds _ _ _ _ (hi_slab _ _ _ _ _ I _ _ A1 E2)) as (_ & _ & Hal). by rewrite Z.mod_add.
  - by apply Z.mod_mul.
  - destruct (si_bounds _ _ _ _ (hi_slab _ _ _ _ _ I _ _ A1 E2)) as (_ & Hb & _). rewrite hugepage_pages in A4.
    change HUGEPAGE with (512 * PAGE) in Hb. change PAGE with 4096 in *. lia.
  - rewrite F4, F5. apply (pages_apart s _ _ _ _ _ f1 f2 _ _ _ _ I A1 B1 E2 F2 A2 A4 B2 B4 A3 B3).
    intros Hs k Hk Hk'. apply Hne. by apply (xi_disjoint _ _ _ X e1 e2 x1 x2 (x_slab x1) k).
Qed.

(** C20: whatever other threads have done since a pass began, its next call of the purge hook is for memory that is in no
    extent in use. *)
Theorem hpa_purge_safe s g p pp :
  hpa_reach T s g → g_passes g !! p = Some pp →
  ∃ r s', purge_one pp s = Done (r, s') ∧
    (s' = s ∨ ∃ a len, calls s' = calls s ++ [CallPurge a len] ∧ 0 < len ∧
       ∀ e, is_Some (g_live g !! e) → ∃ ed, edatas s !! e = Some ed ∧ apart a len (edata_addr_get ed) (edata_size_get ed)).
Proof.
  intros R Hpp. destruct (hpa_reach_inv T s g R) as [I X].
  destruct (purge_one_ok T s _ _ _ _ p pp I X Hpp) as (r & s' & E & _ & _ & _ & Hr). exists r, s'. split; [done|].
  destruct r as [pp'|]; [right|by left]. destruct Hr as (_ & _ & _ & d & b & l & Ed & Hb & Hl & Hbl & Hc & Hno).
  exists (h_address d + b * PAGE), (l * PAGE). split; [done|]. split; [change PAGE with 4096; lia|]. intros e [x Hx].
  destruct (xi_ok _ _ _ X e x Hx) as [A1 A2 A3 A4 (_ & ed & f & E1 & E2 & _ & E4 & E5)]. exists ed. split; [done|]. rewrite E4, E5.
  apply (pages_apart s _ _ _ p (x_slab x) d f _ _ _ _ I); try done.
  - apply (hi_passes _ _ _ _ _ I). by rewrite Hpp.
  - intros Hs k Hk Hk'. apply (Hno k Hk e x Hx). by split.
Qed.

(** C21: [hpa_alloc] of a whole number of pages, at most a slab and at most [slab_max_alloc], at the alignment of a page and not to
    be zeroed, in a shard that may defer its work and with no other thread between its sections, returns, provided that the descriptors,
    slabs and address space that it gets from outside are not in use already.  It returns either a new extent of the requested size, in a slab that is
    not being purged, or nothing; and nothing only if there is no memory for a descriptor or for the extent map or none for a slab. *)
Theorem hpa_alloc_serves fuel s g n :
  hpa_reach T s g → deferral_allowed (opts s) = true → 1 ≤ n ≤ HUGEPAGE_PAGES → n * PAGE ≤ slab_max_alloc (opts s) →
  fresh_edatas s g →
  base_fresh (ps_data (slabs s)) (g_slabs g) (default 0 (head (an_base (answers s)))) →
  map_fresh (ps_data (slabs s)) (g_slabs g) (default 0 (head (an_map (answers s)))) →
  ∃ r dw s' g', hpa_alloc T fuel (n * PAGE) PAGE false s = Done ((r, Some dw), s') ∧ hpa_reach T s' g' ∧
    (served g g' n r ∨ r = 0 ∧ g_live g' = g_live g ∧ out_of_memory (answers s)).
Proof.
  intros R Hd Hn Hm Hf HB HM. destruct (alloc_batch_psset_one fuel s g n R Hd Hn Hf HB HM) as (r & dw & s' & g' & E & R' & Hr).
  exists r, dw, s', g'. split; [|done]. unfold hpa_alloc. change ((PAGE <? PAGE) || false) with false. cbv iota.
  assert (Eb : hpa_alloc_batch T fuel (n * PAGE) 1 [] s = Done ((if r =? 0 then [] else [r], Some dw), s')).
  { unfold hpa_alloc_batch. erewrite bind_done by reflexivity. rewrite (proj2 (Z.ltb_ge _ _)) by done. by rewrite (bind_done _ _ _ _ _ E). }
  rewrite (bind_done _ _ _ _ _ Eb). cbv beta iota. by destruct (Z.eqb_spec r 0) as [->|].
Qed.

(** With deferral allowed [hpa_dalloc_batch] returns, and the extents of the list, and no others, are no longer in use. *)
Theorem hpa_dalloc_batch_returns fuel s g l :
  hpa_reach T s g → deferral_allowed (opts s) = true → NoDup l → Forall (λ e, is_Some (g_live g !! e)) l →
  ∃ dw s', hpa_dalloc_batch T fuel l s = Done (dw, s') ∧ hpa_reach T s' (with_live (foldl (flip delete) (g_live g) l) g).
Proof.
  intros R Hd Hl Hf. unfold hpa_dalloc_batch. destruct (prepare_all s g l R Hf) as (s1 & E1 & R1 & O1). rewrite (bind_done _ _ _ _ _ E1).
  destruct (dalloc_all s1 g l R1 Hl Hf) as (s2 & E2 & R2 & O2). rewrite (bind_done _ _ _ _ _ E2).
  rewrite (bind_done _ _ _ _ _ (no_deferred_work fuel s2 ltac:(by rewrite O2, O1))).
  destruct (hpa_reach_inv T s2 _ R2) as [I2 _]. destruct (has_deferred_work_ok T s2 _ _ _ I2) as (dw & Ew). by exists dw, s2.
Qed.

(** C23: if the shard should purge, because more pages are dirty than allowed or to make room for a hugification, and no slab may
    be purged, then deferred work, where it is not deferred, does not return: the inner loop of [hpa_shard_maybe_do_deferred_work]
    repeats without progress. *)
Theorem hpa_deferred_work_spins s g fuel forced :
  hpa_reach T s g → forced || negb (deferral_allowed (opts s)) = true → hpa_should_purge s = Done (true, s) →
  (∀ p d, p ∈ g_slabs g → ps_data (slabs s) !! p = Some d → h_purge_allowed d = false) →
  hpa_shard_maybe_do_deferred_work T fuel forced s = Fault Diverges.
Proof.
  intros R Hfo Hlt Hno. unfold hpa_shard_maybe_do_deferred_work. erewrite bind_done by reflexivity.
  assert (Hc : negb forced && deferral_allowed (opts s) = false) by (by destruct forced, (deferral_allowed (opts s))). rewrite Hc.
  destruct fuel as [|fuel]; [done|]. cbn [deferred_loop].
  erewrite bind_fault; [reflexivity|]. apply (purge_spins _ s g); [done..|]. by destruct forced.
Qed.
End theorems.

(** ** An example

    A shard with one slab, at the start of an eden of 128 huge pages: three pages and five pages are in use.  A second
    shard, without deferral, in which the only allocation was refused by the extent map. *)
Module HpaExample.
Definition T : sz_tables := booted false.
Definition blank : hpdata_t :=
  mkHpdata 0 0 false false false false false 0 false false false false false 0 0 (replicate 8 0) 0 (replicate 8 0).
Definition options (deferral : bool) : hpa_shard_opts_t :=
  mkOpts (64 * 1024) (480 * PAGE) (if deferral then 2 ^ 14 else 0) deferral 10000 5000.
Definition ed0 : edata_t := mkEdata 0 0 0 0 0 [0].
Definition old : psset_t := mkPsset [] [] no_bin (mkStats [] (no_bin, no_bin) (no_bin, no_bin)) 0 [] [] 0.
Definition mem0 (emap : list bool) : hpa_mem :=
  mkHpa (mkMem {[64 := blank]} ∅ ∅ ∅ ∅ old) {[8 := ed0; 16 := ed0; 24 := ed0]} (mkCentral 0 0 0) 0 0 (options true) 0 (mkNonderived 0 0 0 0) 0
    (mkAnswers [8; 16; 24] emap [64] [2 ^ 30] [] []) [].
Definition started (emap : list bool) (deferral : bool) : hpa_mem :=
  match hpa_shard_init false false [0] [0; 0] 0 (options deferral) (mem0 emap) with Done (_, s) => s | Fault _ => mem0 emap end.
Definition after (sg : hpa_mem * hpa_ghost) (ev : hpa_event) : hpa_mem * hpa_ghost :=
  match hpa_exec T (snd sg) ev (fst sg) with Done (g, s) => (s, g) | Fault _ => sg end.

Definition new_shard : hpa_mem * hpa_ghost := (started [] true, no_ghost).
Definition grown : hpa_mem * hpa_ghost := after new_shard (HpGrow PAGE).
Definition one : hpa_mem * hpa_ghost := after grown (HpAlloc 3).
Definition two : hpa_mem * hpa_ghost := after one (HpAlloc 5).
Definition freed : hpa_mem * hpa_ghost := after two (HpDalloc 8).
Definition purging : hpa_mem * hpa_ghost := after freed (HpPurgeBegin stack_bitmap stack_bitmap).

Definition undeferred (emap : list bool) : hpa_mem * hpa_ghost := after (started emap false, no_ghost) (HpGrow PAGE).
Definition refused_one : hpa_mem * hpa_ghost := after (undeferred [true]) (HpAlloc 3).
Definition full_slab : hpa_mem * hpa_ghost := after (undeferred []) (HpAlloc 490).

Lemma shard_new emap deferral : hpa_reach T (started emap deferral) no_ghost.
Proof.
  eapply (hpa_reach_new T (mem0 emap) [0] [0; 0] 0 (options deferral)); [vm_compute; reflexivity..| | | |].
  - intros e ed He. cbn [mem0 edatas] in He. assert (ed = ed0) as ->; [|vm_compute; split; [discriminate|reflexivity]].
    repeat (apply lookup_insert_Some in He as [[_ He]|[_ He]]; [done|]). by apply lookup_singleton_Some in He as [_ He].
  - reflexivity.
  - reflexivity.
  - destruct deferral; vm_compute; reflexivity.
Qed.

Lemma shard_after sg ev :
  hpa_reach T (fst sg) (snd sg) → hpa_legal (fst sg) (snd sg) ev → hpa_reach T (fst (after sg ev)) (snd (after sg ev)).
Proof.
  intros R HL. destruct (hpa_step_ok T (fst sg) (snd sg) ev (hpa_reach_inv T _ _ R) HL) as (g' & s' & E & _).
  unfold after. rewrite E. by apply (hpa_reach_step T (fst sg) (snd sg) ev).
Qed.

Lemma legal_grow emap deferral : hpa_legal (started emap deferral) no_ghost (HpGrow PAGE).
Proof.
  split; right.
  - split; [apply not_elem_of_empty|]. exists blank. split; [|split; reflexivity]. destruct deferral; vm_compute; reflexivity.
  - split_and!; [done|vm_compute; discriminate|reflexivity|reflexivity|vm_compute; discriminate|]. intros p d Hp. by apply not_elem_of_empty in Hp.
Qed.

Lemma shard_grown : hpa_reach T (fst grown) (snd grown).
Proof. apply (shard_after new_shard); [apply shard_new|apply legal_grow]. Qed.

Lemma legal_one : hpa_legal (fst grown) (snd grown) (HpAlloc 3).
Proof. split; [rewrite hugepage_pages; lia|]. right. split; [vm_compute; reflexivity|]. exists ed0. vm_compute. reflexivity. Qed.

Lemma shard_one : hpa_reach T (fst one) (snd one).
Proof. apply (shard_after grown); [apply shard_grown|apply legal_one]. Qed.

Lemma shard_two : hpa_reach T (fst two) (snd two).
Proof.
  apply (shard_after one); [apply shard_one|]. split; [rewrite hugepage_pages; lia|]. right. split; [vm_compute; reflexivity|].
  exists ed0. vm_compute. reflexivity.
Qed.

Lemma shard_freed : hpa_reach T (fst freed) (snd freed).
Proof. apply (shard_after two); [apply shard_two|]. exists (mkExt 64 0 3). vm_compute. reflexivity. Qed.

Lemma shard_purging : hpa_reach T (fst purging) (snd purging).
Proof. apply (shard_after freed); [apply shard_freed|]. split; reflexivity. Qed.

Lemma shard_undeferred emap : hpa_reach T (fst (undeferred emap)) (snd (undeferred emap)).
Proof. apply (shard_after (started emap false, no_ghost)); [apply shard_new|apply legal_grow]. Qed.

Lemma shard_refused : hpa_reach T (fst refused_one) (snd refused_one).
Proof.
  apply (shard_after (undeferred [true])); [apply shard_undeferred|]. split; [rewrite hugepage_pages; lia|]. right.
  split; [vm_compute; reflexivity|]. exists ed0. vm_compute. reflexivity.
Qed.

Lemma shard_full : hpa_reach T (fst full_slab) (snd full_slab).
Proof.
  apply (shard_after (undeferred [])); [apply shard_undeferred|]. split; [rewrite hugepage_pages; lia|]. right.
  split; [vm_compute; reflexivity|]. exists ed0. vm_compute. reflexivity.
Qed.

Lemma nothing_to_purge (s : hpa_mem) (g : hpa_ghost) :
  g_slabs g = {[64]} → h_purge_allowed <$> ps_data (slabs s) !! 64 = Some false →
  ∀ p d, p ∈ g_slabs g → ps_data (slabs s) !! p = Some d → h_purge_allowed d = false.
Proof. intros Hg Hs p d Hp Ed. rewrite Hg in Hp. apply elem_of_singleton in Hp as ->. rewrite Ed in Hs. by injection Hs. Qed.
End HpaExample.

Lemma hpa_never_fails_witness :
  ∃ g' s', hpa_exec HpaExample.T (snd HpaExample.two) (HpDalloc 16) (fst HpaExample.two) = Done (g', s') ∧ hpa_reach HpaExample.T s' g'.
Proof.
  apply (hpa_never_fails HpaExample.T (fst HpaExample.two) (snd HpaExample.two) (HpDalloc 16)); [apply HpaExample.shard_two|].
  exists (mkExt 64 3 5). vm_compute. reflexivity.
Defined.

Lemma hpa_try_purge_returns_witness :
  ∃ b s', hpa_try_purge HpaExample.T (fst HpaExample.freed) = Done (b, s') ∧ hpa_reach HpaExample.T s' (snd HpaExample.freed).
Proof.
  destruct (hpa_try_purge_returns HpaExample.T _ _ HpaExample.shard_freed) as (b & s' & E & R & _). exists b, s'. exact (conj E R).
Defined.

Lemma hpa_extents_apart_witness :
  ∃ d1 d2, edatas (fst HpaExample.two) !! 8 = Some d1 ∧ edatas (fst HpaExample.two) !! 16 = Some d2 ∧
    apart (edata_addr_get d1) (edata_size_get d1) (edata_addr_get d2) (edata_size_get d2).
Proof.
  destruct (hpa_extents_apart HpaExample.T (fst HpaExample.two) (snd HpaExample.two) 8 16 HpaExample.shard_two)
    as (d1 & d2 & E1 & E2 & _ & _ & _ & _ & H).
  - exists (mkExt 64 0 3). vm_compute. reflexivity.
  - exists (mkExt 64 3 5). vm_compute. reflexivity.
  - lia.
  - exists d1, d2. exact (conj E1 (conj E2 H)).
Defined.

Lemma hpa_purge_safe_witness :
  ∃ pp r s', g_passes (snd HpaExample.purging) !! 64 = Some pp ∧ purge_one pp (fst HpaExample.purging) = Done (r, s').
Proof.
  destruct (g_passes (snd HpaExample.purging) !! 64) as [pp|] eqn:E.
  - destruct (hpa_purge_safe HpaExample.T (fst HpaExample.purging) (snd HpaExample.purging) 64 pp HpaExample.shard_purging E)
      as (r & s' & E' & _). exists pp, r, s'. exact (conj eq_refl E').
  - exfalso. vm_compute in E. discriminate E.
Defined.

Lemma hpa_alloc_serves_witness :
  ∃ r dw s' g', hpa_alloc HpaExample.T 0 (7 * PAGE) PAGE false (fst HpaExample.new_shard) = Done ((r, Some dw), s') ∧
    (served no_ghost g' 7 r ∨ r = 0 ∧ g_live g' = ∅ ∧ out_of_memory (answers (fst HpaExample.new_shard))).
Proof.
  destruct (hpa_alloc_serves HpaExample.T 0 (fst HpaExample.new_shard) no_ghost 7) as (r & dw & s' & g' & E & _ & H).
  - apply HpaExample.shard_new.
  - vm_compute. reflexivity.
  - rewrite hugepage_pages. lia.
  - vm_compute. discriminate.
  - intros k Hk. right. split; [apply lookup_empty|]. exists HpaExample.ed0.
    destruct k as [|[|[|k]]]; [vm_compute; reflexivity..|lia].
  - apply (HpaExample.legal_grow [] true).
  - apply (HpaExample.legal_grow [] true).
  - exists r, dw, s', g'. exact (conj E H).
Defined.

Lemma hpa_dalloc_batch_returns_witness :
  ∃ dw s', hpa_dalloc_batch HpaExample.T 0 [16; 8] (fst HpaExample.two) = Done (dw, s').
Proof.
  destruct (hpa_dalloc_batch_returns HpaExample.T 0 (fst HpaExample.two) (snd HpaExample.two) [16; 8] HpaExample.shard_two)
    as (dw & s' & E & _).
  - vm_compute. reflexivity.
  - apply list.NoDup_cons; split; [|apply list.NoDup_singleton]. intros H%list_elem_of_singleton. discriminate H.
  - constructor; [exists (mkExt 64 3 5); vm_compute; reflexivity|]. constructor; [exists (mkExt 64 0 3); vm_compute; reflexivity|constructor].
  - exists dw, s'. exact E.
Defined.

(** Two shards without deferral: in one the extent map refused the only extent, in the other a slab with
    490 pages in use may be made huge and no dirty page is allowed. *)
Lemma hpa_deferred_work_spins_witness :
  (∀ fuel, hpa_shard_maybe_do_deferred_work HpaExample.T fuel false (fst HpaExample.refused_one) = Fault Diverges) ∧
  (∀ fuel, hpa_shard_maybe_do_deferred_work HpaExample.T fuel false (fst HpaExample.full_slab) = Fault Diverges).
Proof.
  split; intros fuel.
  - apply (hpa_deferred_work_spins HpaExample.T (fst HpaExample.refused_one) (snd HpaExample.refused_one) fuel false).
    + apply HpaExample.shard_refused.
    + vm_compute. reflexivity.
    + vm_compute. reflexivity.
    + apply HpaExample.nothing_to_purge; vm_compute; reflexivity.
  - apply (hpa_deferred_work_spins HpaExample.T (fst HpaExample.full_slab) (snd HpaExample.full_slab) fuel false).
    + apply HpaExample.shard_full.
    + vm_compute. reflexivity.
    + vm_compute. reflexivity.
    + apply HpaExample.nothing_to_purge; vm_compute; reflexivity.
Defined.
