(* ===== verification/CacheBin.v ===== *)
(** * Cache bins, [jemalloc/include/jemalloc/internal/cache_bin.h] and [src/cache_bin.c]

    A cache bin is a stack of free objects of one size class, with a second stack, of objects that are set
    aside, at the other end of the same array.  Of the positions in the array only the head of
    the stack is kept as a pointer, the others as their low 16 bits.

    Memory is a map from addresses to words of 8 bytes, shared by all bins; an access where there is no word faults.
    The flag [racy] chooses between assertions and none, which in a build without assertions is no difference. *)
From stdpp Require Import base list gmap numbers.
From S2P Require Import Prelude BitUtil SizeClass.

(** [uint16_t] *)
Definition u16 (z : Z) : Z := z mod 2 ^ 16.

Definition SIZEOF_PTR : Z := 8.

Definition cache_bin_preceding_junk : Z := 0x7a7a7a7a7a7a7a7a.
Definition cache_bin_trailing_junk : Z := 0xa7a7a7a7a7a7a7a7.
Definition CACHE_BIN_NCACHED_MAX : Z := 2 ^ 16 / SIZEOF_PTR - 1.

Record cache_bin_info_t : Type := mkInfo { info_ncached_max : Z }.

Record cache_bin_t : Type := mkBin {
  stack_head : Z;
  nrequests : Z;                (* [tstats.nrequests] *)
  low_bits_low_water : Z;
  low_bits_full : Z;
  low_bits_empty : Z
}.

Record cache_bin_ptr_array_t : Type := mkPtrArray { arr_n : Z; arr_ptr : Z }.

Definition set_head (h : Z) (b : cache_bin_t) : cache_bin_t :=
  mkBin h (nrequests b) (low_bits_low_water b) (low_bits_full b) (low_bits_empty b).
Definition set_low_water (w : Z) (b : cache_bin_t) : cache_bin_t :=
  mkBin (stack_head b) (nrequests b) w (low_bits_full b) (low_bits_empty b).
Definition set_full (f : Z) (b : cache_bin_t) : cache_bin_t :=
  mkBin (stack_head b) (nrequests b) (low_bits_low_water b) f (low_bits_empty b).
Definition set_nrequests (n : Z) (b : cache_bin_t) : cache_bin_t :=
  mkBin (stack_head b) n (low_bits_low_water b) (low_bits_full b) (low_bits_empty b).

(** ** Memory *)

Record cb_mem : Type := mkCbMem {
  words : gmap Z Z;
  bins : gmap Z cache_bin_t
}.

Definition load (a : Z) : M cb_mem Z := s ← get; liftO (words s !! a ?? BadPointer).
Definition store (a v : Z) : M cb_mem unit :=
  _ ← load a; modify (λ s, mkCbMem (<[a:=v]> (words s)) (bins s)).

(** [n] words from [a] on, as [memcpy] and [memmove] read and write them. *)
Fixpoint load_n (n : nat) (a : Z) : M cb_mem (list Z) :=
  match n with
  | O => mret []
  | S n => v ← load a; l ← load_n n (a + SIZEOF_PTR); mret (v :: l)
  end.
Fixpoint store_n (a : Z) (l : list Z) : M cb_mem unit :=
  match l with
  | [] => mret tt
  | v :: l => store a v;; store_n (a + SIZEOF_PTR) l
  end.
Definition memmove (dst src : Z) (n : Z) : M cb_mem unit := l ← load_n (Z.to_nat n) src; store_n dst l.

Definition bin_at (p : Z) : M cb_mem cache_bin_t := s ← get; liftO (bins s !! p ?? BadPointer).
Definition bin_set (p : Z) (f : cache_bin_t → cache_bin_t) : M cb_mem unit :=
  b ← bin_at p; modify (λ s, mkCbMem (words s) (<[p:=f b]> (bins s))).

(** ** Queries *)

Definition cache_bin_nonfast_aligned (config_uaf_detection : bool) (san_cache_bin_nonfast_mask ptr : Z) : bool :=
  if negb config_uaf_detection then false else Z.land ptr san_cache_bin_nonfast_mask =? 0.

Definition cache_bin_info_ncached_max (info : cache_bin_info_t) : Z := info_ncached_max info.

Definition cache_bin_diff (earlier later : Z) : Z := u16 (later - earlier).

Definition cache_bin_ncached_get_internal (b : cache_bin_t) : Z :=
  cache_bin_diff (u16 (stack_head b)) (low_bits_empty b) / SIZEOF_PTR.

Definition cache_bin_ncached_get_local (b : cache_bin_t) : Z := cache_bin_ncached_get_internal b.

Definition cache_bin_empty_position_get (b : cache_bin_t) : Z :=
  u64 (stack_head b + cache_bin_diff (u16 (stack_head b)) (low_bits_empty b)).

Definition cache_bin_low_bits_low_bound_get (b : cache_bin_t) (info : cache_bin_info_t) : Z :=
  u16 (low_bits_empty b - info_ncached_max info * SIZEOF_PTR).

Definition cache_bin_low_bound_get (b : cache_bin_t) (info : cache_bin_info_t) : Z :=
  u64 (cache_bin_empty_position_get b - cache_bin_info_ncached_max info * SIZEOF_PTR).

Definition cache_bin_low_water_get_internal (b : cache_bin_t) : Z :=
  cache_bin_diff (low_bits_low_water b) (low_bits_empty b) / SIZEOF_PTR.

Definition cache_bin_low_water_get (b : cache_bin_t) : Z := cache_bin_low_water_get_internal b.

Definition cache_bin_full (b : cache_bin_t) : bool := u16 (stack_head b) =? low_bits_full b.

(** Without [racy] the topmost stashed object, or the word before the array, is read. *)
Definition cache_bin_nstashed_get_internal (p : Z) (info : cache_bin_info_t) (racy : bool) : M cb_mem Z :=
  b ← bin_at p;
  let n := cache_bin_diff (cache_bin_low_bits_low_bound_get b info) (low_bits_full b) / SIZEOF_PTR in
  if negb racy then
    _ ← load (u64 (cache_bin_low_bound_get b info + (n - 1) * SIZEOF_PTR));
    mret n
  else mret n.

Definition cache_bin_nstashed_get_local (p : Z) (info : cache_bin_info_t) : M cb_mem Z :=
  cache_bin_nstashed_get_internal p info false.

(** [*ncached] and [*nstashed] *)
Definition cache_bin_nitems_get_remote (p : Z) (info : cache_bin_info_t) : M cb_mem (Z * Z) :=
  b ← bin_at p;
  nstashed ← cache_bin_nstashed_get_internal p info true;
  mret (cache_bin_ncached_get_internal b, nstashed).

(** ** Allocation and deallocation *)

Definition low_water_set (b : cache_bin_t) : cache_bin_t := set_low_water (u16 (stack_head b)) b.
Definition cache_bin_low_water_set (p : Z) : M cb_mem unit := bin_set p low_water_set.

Definition cache_bin_low_water_adjust (p : Z) : M cb_mem unit :=
  b ← bin_at p;
  if cache_bin_ncached_get_internal b <? cache_bin_low_water_get_internal b then cache_bin_low_water_set p else mret tt.

(** The object and [*success]; the object is [NULL] without success. *)
Definition cache_bin_alloc_impl (p : Z) (adjust_low_water : bool) : M cb_mem (Z * bool) :=
  b ← bin_at p;
  ret ← load (stack_head b);
  let low_bits := u16 (stack_head b) in
  let new_head := u64 (stack_head b + SIZEOF_PTR) in
  if negb (low_bits =? low_bits_low_water b) then
    bin_set p (set_head new_head);; mret (ret, true)
  else if negb adjust_low_water then mret (0, false)
  else if negb (low_bits =? low_bits_empty b) then
    bin_set p (λ b, set_low_water (u16 new_head) (set_head new_head b));; mret (ret, true)
  else mret (0, false).

Definition cache_bin_alloc_easy (p : Z) : M cb_mem (Z * bool) := cache_bin_alloc_impl p false.
Definition cache_bin_alloc (p : Z) : M cb_mem (Z * bool) := cache_bin_alloc_impl p true.

(** The objects copied to [out]; their number is the result. *)
Definition cache_bin_alloc_batch (p num : Z) : M cb_mem (list Z) :=
  b ← bin_at p;
  let n := cache_bin_ncached_get_internal b in
  let n := if num <? n then u16 num else n in
  out ← load_n (Z.to_nat n) (stack_head b);
  bin_set p (set_head (u64 (stack_head b + n * SIZEOF_PTR)));;
  cache_bin_low_water_adjust p;;
  mret out.

Definition cache_bin_dalloc_easy (p ptr : Z) : M cb_mem bool :=
  b ← bin_at p;
  if cache_bin_full b then mret false
  else
    let head := u64 (stack_head b - SIZEOF_PTR) in
    bin_set p (set_head head);;
    store head ptr;;
    mret true.

Definition cache_bin_stash (p ptr : Z) : M cb_mem bool :=
  b ← bin_at p;
  if cache_bin_full b then mret false
  else
    let low_bits_head := u16 (stack_head b) in
    let diff := cache_bin_diff (low_bits_full b) low_bits_head in
    store (u64 (stack_head b - diff)) ptr;;
    bin_set p (λ b, set_full (u16 (low_bits_full b + SIZEOF_PTR)) b);;
    mret true.

(** ** Filling and flushing *)

Definition CACHE_BIN_PTR_ARRAY_DECLARE (nval : Z) : cache_bin_ptr_array_t := mkPtrArray (u16 nval) 0.

Definition cache_bin_init_ptr_array_for_fill (p : Z) (arr : cache_bin_ptr_array_t) (nfill : Z) : M cb_mem cache_bin_ptr_array_t :=
  b ← bin_at p;
  mret (mkPtrArray (arr_n arr) (u64 (cache_bin_empty_position_get b - nfill * SIZEOF_PTR))).

Definition cache_bin_finish_fill (p : Z) (arr : cache_bin_ptr_array_t) (nfilled : Z) : M cb_mem unit :=
  b ← bin_at p;
  let empty_position := cache_bin_empty_position_get b in
  (if nfilled <? arr_n arr then
     memmove (u64 (empty_position - nfilled * SIZEOF_PTR)) (u64 (empty_position - arr_n arr * SIZEOF_PTR)) nfilled
   else mret tt);;
  bin_set p (set_head (u64 (empty_position - nfilled * SIZEOF_PTR))).

Definition cache_bin_init_ptr_array_for_flush (p : Z) (arr : cache_bin_ptr_array_t) (nflush : Z) : M cb_mem cache_bin_ptr_array_t :=
  b ← bin_at p;
  mret (mkPtrArray (arr_n arr) (u64 (cache_bin_empty_position_get b - nflush * SIZEOF_PTR))).

Definition cache_bin_finish_flush (p nflushed : Z) : M cb_mem unit :=
  b ← bin_at p;
  let rem := u32 (cache_bin_ncached_get_local b - nflushed) in
  let head := u64 (stack_head b + nflushed * SIZEOF_PTR) in
  memmove head (stack_head b) rem;;
  bin_set p (set_head head);;
  cache_bin_low_water_adjust p.

Definition cache_bin_init_ptr_array_for_stashed (p : Z) (info : cache_bin_info_t) (arr : cache_bin_ptr_array_t) : M cb_mem cache_bin_ptr_array_t :=
  b ← bin_at p;
  mret (mkPtrArray (arr_n arr) (cache_bin_low_bound_get b info)).

Definition cache_bin_finish_flush_stashed (p : Z) (info : cache_bin_info_t) : M cb_mem unit :=
  bin_set p (λ b, set_full (u16 (cache_bin_low_bound_get b info)) b).

(** ** Initialisation *)

Definition cache_bin_info_init (ncached_max : Z) : cache_bin_info_t := mkInfo (u16 ncached_max).

(** [*size] and [*alignment] *)
Definition cache_bin_info_compute_alloc (infos : list cache_bin_info_t) : Z * Z :=
  (fold_left (λ size info, u64 (size + info_ncached_max info * SIZEOF_PTR)) infos (SIZEOF_PTR * 2), PAGE).

(** Each of these returns [*cur_offset] as it leaves it. *)
Definition cache_bin_preincrement (alloc cur_offset : Z) : M cb_mem Z :=
  store (u64 (alloc + cur_offset)) cache_bin_preceding_junk;; mret (u64 (cur_offset + SIZEOF_PTR)).
Definition cache_bin_postincrement (alloc cur_offset : Z) : M cb_mem Z :=
  store (u64 (alloc + cur_offset)) cache_bin_trailing_junk;; mret (u64 (cur_offset + SIZEOF_PTR)).

(** The members that it writes are those of the bin but for its statistics. *)
Definition cache_bin_init (p : Z) (info : cache_bin_info_t) (alloc cur_offset : Z) : M cb_mem Z :=
  let full_position := u64 (alloc + cur_offset) in
  let bin_stack_size := u16 (info_ncached_max info * SIZEOF_PTR) in
  let cur_offset := u64 (cur_offset + bin_stack_size) in
  let empty_position := u64 (alloc + cur_offset) in
  bin_set p (λ b, mkBin empty_position (nrequests b) (u16 empty_position) (u16 full_position) (u16 empty_position));;
  mret cur_offset.

Definition cache_bin_still_zero_initialized (b : cache_bin_t) : bool := stack_head b =? 0.
