(* ===== verification/CacheBinOps.v ===== *)
(** * Cache bins as pairs of stacks

    A bin stands for the objects it caches, the last one freed first, the objects it has stashed, the
    first one first, and a number, the low water; one lemma says what each operation does to them. *)
From stdpp Require Import base list gmap numbers.
From S2P Require Import Prelude CacheBin.

Record abin : Type := mkABin {
  ab_lo : Z;                    (* the address of the array *)
  ab_max : Z;                   (* the number of its words *)
  cached : list Z;
  stashed : list Z;
  low_water : Z
}.

Definition len (l : list Z) : Z := Z.of_nat (length l).

Definition ab_end (a : abin) : Z := ab_lo a + 8 * ab_max a.

(** The words of [l] are in memory from [x] on. *)
Definition words_at (m : gmap Z Z) (x : Z) (l : list Z) : Prop := ∀ k v, l !! k = Some v → m !! (x + 8 * Z.of_nat k) = Some v.

Record rep (m : gmap Z Z) (b : cache_bin_t) (a : abin) : Prop := {
  rp_lo : 0 ≤ ab_lo a;
  rp_end : ab_end a + 8 ≤ 2 ^ 64;
  rp_max : 0 ≤ ab_max a ≤ CACHE_BIN_NCACHED_MAX;
  rp_room : len (cached a) + len (stashed a) ≤ ab_max a;
  rp_low : 0 ≤ low_water a ≤ ab_max a;
  rp_head : stack_head b = ab_end a - 8 * len (cached a);
  rp_low_water : low_bits_low_water b = u16 (ab_end a - 8 * low_water a);
  rp_full : low_bits_full b = u16 (ab_lo a + 8 * len (stashed a));
  rp_empty : low_bits_empty b = u16 (ab_end a);
  rp_mapped : ∀ k, 0 ≤ k ≤ ab_max a → is_Some (m !! (ab_lo a + 8 * k));
  rp_cached : words_at m (ab_end a - 8 * len (cached a)) (cached a);
  rp_stashed : words_at m (ab_lo a) (stashed a)
}.

(** Between operations the low water is not above the head. *)
Definition settled (m : gmap Z Z) (b : cache_bin_t) (a : abin) : Prop := rep m b a ∧ low_water a ≤ len (cached a).

(** ** Sixteen bits *)

Lemma ncached_max_value : CACHE_BIN_NCACHED_MAX = 8191.
Proof. done. Qed.

Lemma u16_diff x y : 0 ≤ y - x < 2 ^ 16 → u16 (u16 y - u16 x) = y - x.
Proof. intros H. unfold u16. rewrite <- Zminus_mod. by apply Z.mod_small. Qed.

Lemma u16_diff_l x y z : u16 (y - u16 x) = z → u16 (u16 y - u16 x) = z.
Proof. unfold u16. by rewrite Zminus_mod_idemp_l. Qed.

Lemma u16_eq x y : 0 ≤ y - x < 2 ^ 16 → (u16 x =? u16 y) = (x =? y).
Proof.
  intros H. destruct (Z.eqb_spec x y) as [->|Hne]; [apply Z.eqb_refl|]. apply Z.eqb_neq. intros E.
  pose proof (u16_diff x y H) as D. rewrite E, Z.sub_diag in D. change (u16 0) with 0 in D. lia.
Qed.

(** ** Words *)

Fixpoint write_words (m : gmap Z Z) (x : Z) (l : list Z) : gmap Z Z :=
  match l with [] => m | v :: l => write_words (<[x:=v]> m) (x + 8) l end.

Lemma write_words_out m x l y : (∀ k, 0 ≤ k < len l → y ≠ x + 8 * k) → write_words m x l !! y = m !! y.
Proof.
  revert m x. induction l as [|v l IH]; intros m x Hy; [done|]. cbn [write_words]. unfold len in *. cbn [length] in Hy.
  rewrite IH.
  - rewrite lookup_insert_ne; [done|]. intros E. apply (Hy 0); lia.
  - intros k Hk E. apply (Hy (k + 1)); lia.
Qed.

Lemma write_words_in m x l : words_at (write_words m x l) x l.
Proof.
  revert m x. induction l as [|v l IH]; intros m x k w Hk; [done|]. cbn [write_words]. destruct k as [|k].
  - injection Hk as <-. rewrite write_words_out; [|intros i Hi; lia]. replace (x + 8 * Z.of_nat 0) with x by lia. apply lookup_insert_eq.
  - replace (x + 8 * Z.of_nat (S k)) with (x + 8 + 8 * Z.of_nat k) by lia. by apply IH.
Qed.

Lemma write_words_mapped m x l y : is_Some (m !! y) → is_Some (write_words m x l !! y).
Proof.
  revert m x. induction l as [|v l IH]; intros m x Hy; [done|]. cbn [write_words]. apply IH.
  destruct (decide (x = y)) as [->|]; [rewrite lookup_insert_eq; by eexists|by rewrite lookup_insert_ne].
Qed.

Definition mapped (m : gmap Z Z) (x n : Z) : Prop := ∀ k, 0 ≤ k < n → is_Some (m !! (x + 8 * k)).

Lemma load_ok s x v : words s !! x = Some v → load x s = Done (v, s).
Proof. intros E. unfold load. erewrite bind_done by reflexivity. by rewrite E. Qed.

Lemma store_ok s x v : is_Some (words s !! x) → store x v s = Done (tt, mkCbMem (<[x:=v]> (words s)) (bins s)).
Proof. intros [w E]. unfold store. by erewrite bind_done by (by apply load_ok). Qed.

Lemma load_n_ok s x l : words_at (words s) x l → load_n (length l) x s = Done (l, s).
Proof.
  revert x. induction l as [|v l IH]; intros x H; [done|]. cbn [length load_n].
  erewrite bind_done by (apply load_ok; specialize (H 0%nat v eq_refl); by rewrite Z.add_0_r in H).
  erewrite bind_done; [done|]. apply IH. intros k w Hk. specialize (H (S k) w Hk). unfold SIZEOF_PTR.
  by replace (x + 8 + 8 * Z.of_nat k) with (x + 8 * Z.of_nat (S k)) by lia.
Qed.

Lemma store_n_ok s x l : mapped (words s) x (len l) → store_n x l s = Done (tt, mkCbMem (write_words (words s) x l) (bins s)).
Proof.
  revert s x. induction l as [|v l IH]; intros s x H; [by destruct s|]. cbn [store_n write_words]. unfold len in *. cbn [length] in H.
  erewrite bind_done by (apply store_ok; specialize (H 0); rewrite Z.add_0_r in H; apply H; lia).
  rewrite IH; [done|]. intros k Hk. cbn [words]. unfold SIZEOF_PTR. replace (x + 8 + 8 * k) with (x + 8 * (k + 1)) by lia.
  rewrite lookup_insert_ne by lia. apply H. lia.
Qed.

Lemma words_at_app m x l1 l2 : words_at m x (l1 ++ l2) ↔ words_at m x l1 ∧ words_at m (x + 8 * len l1) l2.
Proof.
  unfold words_at, len. split.
  - intros H. split; intros k v Hk.
    + apply H. by apply lookup_app_l_Some.
    + specialize (H (length l1 + k)%nat v). rewrite lookup_app_r in H by lia. replace (length l1 + k - length l1)%nat with k in H by lia.
      specialize (H Hk). by replace (x + 8 * Z.of_nat (length l1) + 8 * Z.of_nat k) with (x + 8 * Z.of_nat (length l1 + k)) by lia.
  - intros [H1 H2] k v [Hk|[Hk Hk']]%lookup_app_Some; [by apply H1|]. specialize (H2 _ _ Hk').
    by replace (x + 8 * Z.of_nat k) with (x + 8 * Z.of_nat (length l1) + 8 * Z.of_nat (k - length l1)) by lia.
Qed.

Lemma words_at_write m x l y l' :
  words_at m x l → x + 8 * len l ≤ y ∨ y + 8 * len l' ≤ x → words_at (write_words m y l') x l.
Proof.
  intros H Hd k v Hk. rewrite write_words_out; [by apply H|]. intros i Hi E. apply lookup_lt_Some in Hk. unfold len in *. lia.
Qed.

Lemma words_at_take m x l n : words_at m x l → words_at m x (take n l).
Proof. intros H. rewrite <- (take_drop n l) in H. by apply words_at_app in H as [H _]. Qed.

Lemma words_at_drop m x l n : (n ≤ length l)%nat → words_at m x l → words_at m (x + 8 * Z.of_nat n) (drop n l).
Proof.
  intros Hn H. rewrite <- (take_drop n l) in H. apply words_at_app in H as [_ H]. unfold len in H. by rewrite length_take, Nat.min_l in H.
Qed.

(** ** Frames *)

(** Memory outside [n] words at [x] stays, and no word goes away. *)
Definition touched (x n : Z) (m m' : gmap Z Z) : Prop :=
  (∀ y, (∀ k, 0 ≤ k < n → y ≠ x + 8 * k) → m' !! y = m !! y) ∧ (∀ y, is_Some (m !! y) → is_Some (m' !! y)).

Definition within (a : abin) : gmap Z Z → gmap Z Z → Prop := touched (ab_lo a) (ab_max a).

Lemma touched_refl x n m : touched x n m m.
Proof. done. Qed.

Lemma touched_trans x n m1 m2 m3 : touched x n m1 m2 → touched x n m2 m3 → touched x n m1 m3.
Proof. intros [A1 A2] [B1 B2]. split; [intros y Hy; by rewrite B1, A1|intros y Hy; by apply B2, A2]. Qed.

Lemma touched_sub x n i j m m' : touched (x + 8 * i) j m m' → 0 ≤ i → i + j ≤ n → touched x n m m'.
Proof.
  intros [A1 A2] Hi Hj. split; [|done]. intros y Hy. apply A1. intros k Hk E. apply (Hy (i + k)); lia.
Qed.

Lemma touched_words_at x n m m' y l : touched x n m m' → words_at m y l → y + 8 * len l ≤ x ∨ x + 8 * n ≤ y → words_at m' y l.
Proof.
  intros [A1 _] H Hd k v Hk. rewrite A1; [by apply H|]. intros i Hi E. apply lookup_lt_Some in Hk. unfold len in *. lia.
Qed.

Lemma touched_write x m l : touched x (len l) m (write_words m x l).
Proof. split; [intros y Hy; by apply write_words_out|intros y; apply write_words_mapped]. Qed.

Lemma touched_mapped x n m m' y j : touched x n m m' → mapped m y j → mapped m' y j.
Proof. intros [_ H] Hm k Hk. by apply H, Hm. Qed.

Lemma within_trans a m1 m2 m3 : within a m1 m2 → within a m2 m3 → within a m1 m3.
Proof. apply touched_trans. Qed.

Lemma within_write a m i l : 0 ≤ i → i + len l ≤ ab_max a → within a m (write_words m (ab_lo a + 8 * i) l).
Proof. intros Hi Hl. by eapply touched_sub; [apply touched_write|..]. Qed.

Lemma len_app l1 l2 : len (l1 ++ l2) = len l1 + len l2.
Proof. unfold len. rewrite length_app. lia. Qed.
Lemma len_cons v l : len (v :: l) = len l + 1.
Proof. unfold len. cbn [length]. lia. Qed.
Lemma len_nonneg l : 0 ≤ len l.
Proof. unfold len. lia. Qed.
Lemma to_nat_len l : Z.to_nat (len l) = length l.
Proof. unfold len. lia. Qed.

(** ** What the operations of a cache bin do to its stacks *)

Ltac lens := repeat match goal with |- context [len ?l] => lazymatch goal with H : 0 ≤ len l |- _ => fail | _ => pose proof (len_nonneg l) end
  | H : context [len ?l] |- _ => lazymatch goal with H : 0 ≤ len l |- _ => fail | _ => pose proof (len_nonneg l) end end.

(** The bin at [p], which stood for [a], stands for [a'], and nothing else has changed. *)
Definition moved (s s' : cb_mem) (p : Z) (b : cache_bin_t) (a a' : abin) : Prop :=
  ∃ m' b', s' = mkCbMem m' (<[p:=b']> (bins s)) ∧ settled m' b' a' ∧ ab_lo a' = ab_lo a ∧ ab_max a' = ab_max a ∧
    within a (words s) m' ∧ nrequests b' = nrequests b.

(** ** What is read off a bin *)

Section queries.
Context (m : gmap Z Z) (b : cache_bin_t) (a : abin) (R : rep m b a).

Lemma rep_numbers :
  0 ≤ ab_lo a ∧ 0 ≤ ab_max a ≤ 8191 ∧ ab_end a + 8 ≤ 2 ^ 64 ∧ 0 ≤ low_water a ≤ ab_max a ∧ 0 ≤ len (cached a) ∧ 0 ≤ len (stashed a) ∧
  len (cached a) + len (stashed a) ≤ ab_max a ∧ ab_end a = ab_lo a + 8 * ab_max a.
Proof. destruct R as [H1 H2 H3 H4 H5 _ _ _ _ _ _ _]. rewrite ncached_max_value in H3. lens. unfold ab_end in *. lia. Qed.

Lemma head_to_empty : cache_bin_diff (u16 (stack_head b)) (low_bits_empty b) = 8 * len (cached a).
Proof.
  pose proof rep_numbers. unfold cache_bin_diff. rewrite (rp_empty _ _ _ R), (rp_head _ _ _ R), u16_diff; [lia|]. unfold len in *. lia.
Qed.

Lemma ncached_ok : cache_bin_ncached_get_internal b = len (cached a).
Proof. unfold cache_bin_ncached_get_internal. rewrite head_to_empty. unfold SIZEOF_PTR. rewrite Z.mul_comm. by apply Z.div_mul. Qed.

Lemma empty_position_ok : cache_bin_empty_position_get b = ab_end a.
Proof.
  pose proof rep_numbers. unfold cache_bin_empty_position_get. rewrite head_to_empty, (rp_head _ _ _ R). rewrite u64_small; [lia|]. unfold is_u64. lia.
Qed.

Lemma low_bound_ok info : info_ncached_max info = ab_max a → cache_bin_low_bound_get b info = ab_lo a.
Proof.
  intros Hi. pose proof rep_numbers. unfold cache_bin_low_bound_get, cache_bin_info_ncached_max, SIZEOF_PTR.
  rewrite empty_position_ok, Hi, u64_small; [lia|]. unfold is_u64. lia.
Qed.

Lemma low_water_ok : cache_bin_low_water_get_internal b = low_water a.
Proof.
  pose proof rep_numbers. unfold cache_bin_low_water_get_internal, cache_bin_diff, SIZEOF_PTR. rewrite (rp_empty _ _ _ R), (rp_low_water _ _ _ R).
  rewrite u16_diff by lia. replace (ab_end a - (ab_end a - 8 * low_water a)) with (low_water a * 8) by lia. by apply Z.div_mul.
Qed.

Lemma low_bits_low_bound_ok info : info_ncached_max info = ab_max a → cache_bin_low_bits_low_bound_get b info = u16 (ab_lo a).
Proof.
  intros Hi. pose proof rep_numbers as Hn. unfold cache_bin_low_bits_low_bound_get, u16, SIZEOF_PTR. rewrite (rp_empty _ _ _ R), Hi. unfold u16.
  rewrite Zminus_mod_idemp_l. f_equal. lia.
Qed.

Lemma nstashed_ok info :
  info_ncached_max info = ab_max a →
  cache_bin_diff (cache_bin_low_bits_low_bound_get b info) (low_bits_full b) / SIZEOF_PTR = len (stashed a).
Proof.
  intros Hi. pose proof rep_numbers. rewrite (low_bits_low_bound_ok info Hi), (rp_full _ _ _ R). unfold cache_bin_diff, SIZEOF_PTR.
  rewrite u16_diff by lia. replace (ab_lo a + 8 * len (stashed a) - ab_lo a) with (len (stashed a) * 8) by lia. by apply Z.div_mul.
Qed.

Lemma full_ok : cache_bin_full b = (len (cached a) + len (stashed a) =? ab_max a).
Proof.
  pose proof rep_numbers. unfold cache_bin_full. rewrite (rp_full _ _ _ R), (rp_head _ _ _ R), Z.eqb_sym, u16_eq by lia.
  destruct (Z.eqb_spec (len (cached a) + len (stashed a)) (ab_max a)); [apply Z.eqb_eq|apply Z.eqb_neq]; lia.
Qed.

(** The memory a bin can touch, by position. *)
Lemma rep_mapped i n : 0 ≤ i → i + n ≤ ab_max a → mapped m (ab_lo a + 8 * i) n.
Proof. intros Hi Hn k Hk. replace (ab_lo a + 8 * i + 8 * k) with (ab_lo a + 8 * (i + k)) by lia. apply (rp_mapped _ _ _ R). lia. Qed.

(** A new head, with the low water at or below it. *)
Lemma rep_with m' b' c st w :
  (∀ k, 0 ≤ k ≤ ab_max a → is_Some (m' !! (ab_lo a + 8 * k))) →
  len c + len st ≤ ab_max a → 0 ≤ w ≤ ab_max a →
  stack_head b' = ab_end a - 8 * len c → low_bits_low_water b' = u16 (ab_end a - 8 * w) →
  low_bits_full b' = u16 (ab_lo a + 8 * len st) → low_bits_empty b' = low_bits_empty b →
  words_at m' (ab_end a - 8 * len c) c → words_at m' (ab_lo a) st →
  rep m' b' (mkABin (ab_lo a) (ab_max a) c st w).
Proof.
  destruct R as [R1 R2 R3 _ _ _ _ _ R9 _ _ _]. intros H1 H2 H3 H4 H5 H6 H7 H8 H9.
  split; [exact R1|exact R2|exact R3|exact H2|exact H3|exact H4|exact H5|exact H6|rewrite H7; exact R9|exact H1|exact H8|exact H9].
Qed.
End queries.

Lemma bin_at_ok s p b : bins s !! p = Some b → bin_at p s = Done (b, s).
Proof. intros E. unfold bin_at. erewrite bind_done by reflexivity. by rewrite E. Qed.

Lemma bin_set_ok s p b f : bins s !! p = Some b → bin_set p f s = Done (tt, mkCbMem (words s) (<[p:=f b]> (bins s))).
Proof. intros E. unfold bin_set. by erewrite bind_done by (by apply bin_at_ok). Qed.

(** A memory in which nothing but words of the array of [a] have changed. *)
Lemma within_mapped m m' b a : rep m b a → within a m m' → ∀ k, 0 ≤ k ≤ ab_max a → is_Some (m' !! (ab_lo a + 8 * k)).
Proof. intros R [_ H] k Hk. by apply H, (rp_mapped _ _ _ R). Qed.

(** ** The operations *)

Section ops.
Context (s : cb_mem) (p : Z) (b : cache_bin_t) (a : abin) (Eb : bins s !! p = Some b) (R : rep (words s) b a).

Lemma low_water_set_ok :
  ∃ s', cache_bin_low_water_set p s = Done (tt, s') ∧
    moved s s' p b a (mkABin (ab_lo a) (ab_max a) (cached a) (stashed a) (len (cached a))).
Proof.
  eexists. split; [by apply bin_set_ok|]. pose proof (rep_numbers _ _ _ R). eexists _, _. split; [reflexivity|].
  split; [|split_and!; done]. split; [|cbn; lia]. 
  apply (rep_with _ _ _ R);
    [apply (rp_mapped _ _ _ R)|lia|lia|apply (rp_head _ _ _ R)|cbn; by rewrite (rp_head _ _ _ R)|apply (rp_full _ _ _ R)|done
    |apply (rp_cached _ _ _ R)|apply (rp_stashed _ _ _ R)].
Qed.

Lemma low_water_adjust_ok :
  ∃ s', cache_bin_low_water_adjust p s = Done (tt, s') ∧
    moved s s' p b a (mkABin (ab_lo a) (ab_max a) (cached a) (stashed a) (Z.min (low_water a) (len (cached a)))).
Proof.
  unfold cache_bin_low_water_adjust. erewrite bind_done by (by apply bin_at_ok).
  rewrite (ncached_ok _ _ _ R), (low_water_ok _ _ _ R). destruct (Z.ltb_spec (len (cached a)) (low_water a)).
  - rewrite Z.min_r by lia. apply low_water_set_ok.
  - rewrite Z.min_l by lia. exists s. split; [done|]. exists (words s), b. split; [destruct s; cbn; by rewrite insert_id|].
    split; [|split_and!; done]. split; [by destruct a|done].
Qed.
End ops.

(** The last step of an operation that moved the head. *)
Lemma adjust_after s p b a m1 b1 c :
  rep m1 b1 (mkABin (ab_lo a) (ab_max a) c (stashed a) (low_water a)) → within a (words s) m1 → nrequests b1 = nrequests b →
  ∃ s', cache_bin_low_water_adjust p (mkCbMem m1 (<[p:=b1]> (bins s))) = Done (tt, s') ∧
    moved s s' p b a (mkABin (ab_lo a) (ab_max a) c (stashed a) (Z.min (low_water a) (len c))).
Proof.
  intros R1 Hw Hn. destruct (low_water_adjust_ok (mkCbMem m1 (<[p:=b1]> (bins s))) p b1 _ ltac:(apply lookup_insert_eq) R1)
    as (s' & E & m' & b' & -> & Hs & Hl & Hm & Hw' & Hn').
  eexists. split; [exact E|]. exists m', b'. cbn [bins words] in *. rewrite insert_insert_eq. split_and!; [done..| |congruence].
  by eapply within_trans.
Qed.

Section ops.
Context (s : cb_mem) (p : Z) (b : cache_bin_t) (a : abin) (Eb : bins s !! p = Some b) (R : rep (words s) b a).

Lemma alloc_impl_ok adjust :
  low_water a ≤ len (cached a) →
  ∃ r ok s', cache_bin_alloc_impl p adjust s = Done ((r, ok), s') ∧
    match cached a with
    | v :: c =>
        if adjust || (low_water a <? len (cached a)) then
          r = v ∧ ok = true ∧ moved s s' p b a (mkABin (ab_lo a) (ab_max a) c (stashed a) (Z.min (low_water a) (len c)))
        else r = 0 ∧ ok = false ∧ s' = s
    | [] => r = 0 ∧ ok = false ∧ s' = s
    end.
Proof.
  intros Hlow. pose proof (rep_numbers _ _ _ R) as (N1 & N2 & N3 & N4 & N5 & N6 & N7 & N8).
  unfold cache_bin_alloc_impl. erewrite bind_done by (by apply bin_at_ok).
  assert (Hhead : is_Some (words s !! stack_head b)).
  { rewrite (rp_head _ _ _ R), N8. replace (ab_lo a + 8 * ab_max a - 8 * len (cached a)) with (ab_lo a + 8 * (ab_max a - len (cached a))) by lia.
    apply (rp_mapped _ _ _ R). lia. }
  destruct Hhead as [r Er]. erewrite bind_done by (by apply load_ok).
  rewrite (rp_low_water _ _ _ R), (rp_empty _ _ _ R), (rp_head _ _ _ R) in *.
  rewrite (u16_eq (ab_end a - 8 * len (cached a)) (ab_end a - 8 * low_water a)) by lia. rewrite (u16_eq _ (ab_end a)) by lia.
  destruct (cached a) as [|v c] eqn:Ec.
  - change (len []) with 0 in *. exists 0, false, s. assert (low_water a = 0) by lia.
    rewrite (proj2 (Z.eqb_eq _ _)) by lia. cbn [negb]. destruct adjust; [|done]. by rewrite (proj2 (Z.eqb_eq _ _)) by lia.
  - rewrite len_cons in *. pose proof (len_nonneg c).
    assert (Hr : r = v).
    { pose proof (rp_cached _ _ _ R 0%nat v) as Hv. rewrite Ec, len_cons, Z.add_0_r in Hv. specialize (Hv eq_refl). congruence. }
    assert (Hnew : u64 (ab_end a - 8 * (len c + 1) + SIZEOF_PTR) = ab_end a - 8 * len c) by (unfold SIZEOF_PTR; rewrite u64_small; [lia|unfold is_u64; lia]).
    assert (Hc : words_at (words s) (ab_end a - 8 * len c) c).
    { pose proof (rp_cached _ _ _ R) as Hv. rewrite Ec, len_cons in Hv. change (v :: c) with ([v] ++ c) in Hv. apply words_at_app in Hv as [_ Hv].
      change (len [v]) with 1 in Hv. by replace (ab_end a - 8 * (len c + 1) + 8 * 1) with (ab_end a - 8 * len c) in Hv by lia. }
    rewrite Hnew, (proj2 (Z.eqb_neq _ (ab_end a))) by lia. cbn [negb].
    destruct (Z.eqb_spec (ab_end a - 8 * (len c + 1)) (ab_end a - 8 * low_water a)) as [E|E]; cbn [negb].
    + rewrite (proj2 (Z.ltb_ge _ _)), orb_false_r by lia. destruct adjust; cbn [negb]; [|by exists 0, false, s].
      erewrite bind_done by (by apply bin_set_ok). eexists r, true, _. split; [reflexivity|]. split; [done|]. split; [done|].
      eexists _, _. split; [reflexivity|]. split; [|split_and!; done]. rewrite Z.min_r by lia. split; [|cbn; lia].
      apply (rep_with _ _ _ R); [apply (rp_mapped _ _ _ R)|lia|lia|done|done|apply (rp_full _ _ _ R)|done|done|apply (rp_stashed _ _ _ R)].
    + rewrite (proj2 (Z.ltb_lt _ _)), orb_true_r by lia. erewrite bind_done by (by apply bin_set_ok).
      eexists r, true, _. split; [reflexivity|]. split; [done|]. split; [done|].
      eexists _, _. split; [reflexivity|]. split; [|split_and!; done]. rewrite Z.min_l by lia. split; [|cbn; lia].
      apply (rep_with _ _ _ R);
        [apply (rp_mapped _ _ _ R)|lia|lia|done|apply (rp_low_water _ _ _ R)|apply (rp_full _ _ _ R)|done|done|apply (rp_stashed _ _ _ R)].
Qed.

Lemma alloc_batch_ok num :
  0 ≤ num →
  ∃ s', cache_bin_alloc_batch p num s = Done (take (Z.to_nat num) (cached a), s') ∧
    moved s s' p b a (let c := drop (Z.to_nat num) (cached a) in
      mkABin (ab_lo a) (ab_max a) c (stashed a) (Z.min (low_water a) (len c))).
Proof.
  intros Hnum. pose proof (rep_numbers _ _ _ R) as (N1 & N2 & N3 & N4 & N5 & N6 & N7 & N8).
  unfold cache_bin_alloc_batch. erewrite bind_done by (by apply bin_at_ok). rewrite (ncached_ok _ _ _ R).
  set (n := if num <? len (cached a) then u16 num else len (cached a)).
  assert (Hn : n = Z.min num (len (cached a))).
  { unfold n. destruct (Z.ltb_spec num (len (cached a))); [|lia]. unfold u16. rewrite Z.mod_small; lia. }
  assert (Htake : take (Z.to_nat num) (cached a) = take (Z.to_nat n) (cached a)).
  { rewrite Hn. destruct (decide (num ≤ len (cached a))); [by rewrite Z.min_l|]. rewrite !take_ge; [done|unfold len in *; lia..]. }
  assert (Hdrop : drop (Z.to_nat num) (cached a) = drop (Z.to_nat n) (cached a)).
  { rewrite Hn. destruct (decide (num ≤ len (cached a))); [by rewrite Z.min_l|]. rewrite !drop_ge; [done|unfold len in *; lia..]. }
  rewrite Htake, Hdrop. clearbody n. assert (Hnn : (Z.to_nat n ≤ length (cached a))%nat) by (unfold len in *; lia).
  assert (Hl : load_n (Z.to_nat n) (stack_head b) s = Done (take (Z.to_nat n) (cached a), s)).
  { rewrite (rp_head _ _ _ R). rewrite <- (load_n_ok s _ (take (Z.to_nat n) (cached a)) (words_at_take _ _ _ _ (rp_cached _ _ _ R))).
    by rewrite length_take, Nat.min_l. }
  rewrite (bind_done _ _ _ _ _ Hl). erewrite bind_done by (by apply bin_set_ok).
  set (c := drop (Z.to_nat n) (cached a)). assert (Hc : len c = len (cached a) - n) by (unfold c, len; rewrite length_drop; unfold len in *; lia).
  assert (Hh : u64 (stack_head b + n * SIZEOF_PTR) = ab_end a - 8 * len c)
    by (rewrite (rp_head _ _ _ R); unfold SIZEOF_PTR; rewrite u64_small; [lia|unfold is_u64; lia]). rewrite Hh.
  destruct (adjust_after s p b a (words s) (set_head (ab_end a - 8 * len c) b) c) as (s' & E' & Hm); [|done|done|].
  - apply (rep_with _ _ _ R); [apply (rp_mapped _ _ _ R)|lia|lia|done|apply (rp_low_water _ _ _ R)|apply (rp_full _ _ _ R)|done| |apply (rp_stashed _ _ _ R)].
    pose proof (words_at_drop _ _ _ (Z.to_nat n) Hnn (rp_cached _ _ _ R)) as Hw.
    by replace (ab_end a - 8 * len c) with (ab_end a - 8 * len (cached a) + 8 * Z.of_nat (Z.to_nat n)) by lia.
  - rewrite (bind_done _ _ _ _ _ E'). by exists s'.
Qed.

Lemma dalloc_easy_ok ptr :
  low_water a ≤ len (cached a) →
  ∃ ok s', cache_bin_dalloc_easy p ptr s = Done (ok, s') ∧
    if len (cached a) + len (stashed a) =? ab_max a then ok = false ∧ s' = s
    else ok = true ∧ moved s s' p b a (mkABin (ab_lo a) (ab_max a) (ptr :: cached a) (stashed a) (low_water a)).
Proof.
  intros Hlow. pose proof (rep_numbers _ _ _ R) as (N1 & N2 & N3 & N4 & N5 & N6 & N7 & N8).
  unfold cache_bin_dalloc_easy. erewrite bind_done by (by apply bin_at_ok). rewrite (full_ok _ _ _ R).
  destruct (Z.eqb_spec (len (cached a) + len (stashed a)) (ab_max a)) as [|Hne]; [by exists false, s|].
  assert (Hh : u64 (stack_head b - SIZEOF_PTR) = ab_lo a + 8 * (ab_max a - len (cached a) - 1))
    by (rewrite (rp_head _ _ _ R); unfold SIZEOF_PTR; rewrite u64_small; [lia|unfold is_u64; lia]). rewrite Hh.
  set (h := ab_lo a + 8 * (ab_max a - len (cached a) - 1)). erewrite bind_done by (by apply bin_set_ok).
  erewrite bind_done by (apply store_ok; cbn [words]; apply (rp_mapped _ _ _ R); lia).
  eexists true, _. split; [reflexivity|]. split; [done|]. eexists _, _. split; [reflexivity|].
  change (<[h:=ptr]> (words (mkCbMem (words s) _))) with (write_words (words s) h [ptr]).
  assert (Hw : within a (words s) (write_words (words s) h [ptr])) by (apply within_write; change (len [ptr]) with 1; lia).
  split; [|split_and!; done]. split; [|cbn; rewrite len_cons; lia].
  apply (rep_with _ _ _ R); rewrite ?len_cons; [by eapply within_mapped|lia|lia|cbn; unfold h; lia|apply (rp_low_water _ _ _ R)|apply (rp_full _ _ _ R)|done| |].
  - change (ptr :: cached a) with ([ptr] ++ cached a). apply words_at_app. change (len [ptr]) with 1.
    replace (ab_end a - 8 * (len (cached a) + 1)) with h by (unfold h; lia). split; [apply write_words_in|].
    replace (h + 8 * 1) with (ab_end a - 8 * len (cached a)) by (unfold h; lia).
    apply words_at_write; [apply (rp_cached _ _ _ R)|right]. change (len [ptr]) with 1. unfold h. lia.
  - apply words_at_write; [apply (rp_stashed _ _ _ R)|left]. unfold h. lia.
Qed.

Lemma stash_ok ptr :
  low_water a ≤ len (cached a) →
  ∃ ok s', cache_bin_stash p ptr s = Done (ok, s') ∧
    if len (cached a) + len (stashed a) =? ab_max a then ok = false ∧ s' = s
    else ok = true ∧ moved s s' p b a (mkABin (ab_lo a) (ab_max a) (cached a) (stashed a ++ [ptr]) (low_water a)).
Proof.
  intros Hlow. pose proof (rep_numbers _ _ _ R) as (N1 & N2 & N3 & N4 & N5 & N6 & N7 & N8).
  unfold cache_bin_stash. erewrite bind_done by (by apply bin_at_ok). rewrite (full_ok _ _ _ R).
  destruct (Z.eqb_spec (len (cached a) + len (stashed a)) (ab_max a)) as [|Hne]; [by exists false, s|].
  set (x := ab_lo a + 8 * len (stashed a)).
  assert (Hx : u64 (stack_head b - cache_bin_diff (low_bits_full b) (u16 (stack_head b))) = x).
  { unfold cache_bin_diff. rewrite (rp_full _ _ _ R), (rp_head _ _ _ R), u16_diff by lia. unfold x. rewrite u64_small; [lia|unfold is_u64; lia]. }
  rewrite Hx. erewrite bind_done by (apply store_ok; apply (rp_mapped _ _ _ R); lia).
  erewrite bind_done by (apply (bin_set_ok (mkCbMem _ (bins s))); exact Eb).
  eexists true, _. split; [reflexivity|]. split; [done|]. eexists _, _. split; [reflexivity|].
  change (<[x:=ptr]> (words s)) with (write_words (words s) x [ptr]).
  assert (Hw : within a (words s) (write_words (words s) x [ptr])) by (apply within_write; change (len [ptr]) with 1; lia).
  split; [|split_and!; done]. split; [|done].
  apply (rep_with _ _ _ R); rewrite ?len_app; change (len [ptr]) with 1;
    [by eapply within_mapped|lia|lia|apply (rp_head _ _ _ R)|apply (rp_low_water _ _ _ R)| |done| |].
  - cbn. rewrite (rp_full _ _ _ R). unfold u16, SIZEOF_PTR. rewrite Zplus_mod_idemp_l. f_equal. lia.
  - apply words_at_write; [apply (rp_cached _ _ _ R)|right]. change (len [ptr]) with 1. unfold x. lia.
  - apply words_at_app. split; [apply words_at_write; [apply (rp_stashed _ _ _ R)|by left]|apply write_words_in].
Qed.

(** Words between the two stacks may be overwritten. *)
Lemma rep_write_free i l :
  len (stashed a) ≤ i → i + len l ≤ ab_max a - len (cached a) → rep (write_words (words s) (ab_lo a + 8 * i) l) b a.
Proof.
  intros Hi Hl. pose proof (rep_numbers _ _ _ R) as (N1 & N2 & N3 & N4 & N5 & N6 & N7 & N8). lens.
  assert (Hw : within a (words s) (write_words (words s) (ab_lo a + 8 * i) l)) by (apply within_write; lia).
  cut (rep (write_words (words s) (ab_lo a + 8 * i) l) b (mkABin (ab_lo a) (ab_max a) (cached a) (stashed a) (low_water a))); [by destruct a|].
  apply (rep_with _ _ _ R);
    [by eapply within_mapped|lia|lia|apply (rp_head _ _ _ R)|apply (rp_low_water _ _ _ R)|apply (rp_full _ _ _ R)|done
    |apply words_at_write; [apply (rp_cached _ _ _ R)|right; lia]|apply words_at_write; [apply (rp_stashed _ _ _ R)|left; lia]].
Qed.

(** The end of a fill of [n] slots, the first of which hold [l]. *)
Lemma finish_fill_ok n l x :
  cached a = [] → low_water a ≤ 0 → len l ≤ n → n + len (stashed a) ≤ ab_max a → words_at (words s) (ab_end a - 8 * n) l →
  ∃ s', cache_bin_finish_fill p (mkPtrArray n x) (len l) s = Done (tt, s') ∧
    moved s s' p b a (mkABin (ab_lo a) (ab_max a) l (stashed a) 0).
Proof.
  intros Hc Hlow Hl Hn Hat. pose proof (rep_numbers _ _ _ R) as (N1 & N2 & N3 & N4 & N5 & N6 & N7 & N8). pose proof (len_nonneg l) as Hl0.
  unfold cache_bin_finish_fill, SIZEOF_PTR. erewrite bind_done by (by apply bin_at_ok). rewrite (empty_position_ok _ _ _ R). cbn [arr_n].
  rewrite !(u64_small (ab_end a - _)) by (unfold is_u64; lia).
  assert (∃ m1, (if len l <? n then memmove (ab_end a - len l * 8) (ab_end a - n * 8) (len l) else mret tt) s = Done (tt, mkCbMem m1 (bins s)) ∧
    rep m1 b a ∧ within a (words s) m1 ∧ words_at m1 (ab_end a - 8 * len l) l) as (m1 & E1 & R1 & W1 & A1).
  { destruct (Z.ltb_spec (len l) n).
    - exists (write_words (words s) (ab_lo a + 8 * (ab_max a - len l)) l).
      replace (ab_end a - len l * 8) with (ab_lo a + 8 * (ab_max a - len l)) by lia. split_and!.
      + unfold memmove. replace (ab_end a - n * 8) with (ab_end a - 8 * n) by lia. rewrite to_nat_len.
        rewrite (bind_done _ _ _ _ _ (load_n_ok _ _ _ Hat)). apply store_n_ok. apply (rep_mapped _ _ _ R); lia.
      + apply rep_write_free; rewrite ?Hc; change (len []) with 0; lia.
      + apply within_write; lia.
      + replace (ab_end a - 8 * len l) with (ab_lo a + 8 * (ab_max a - len l)) by lia. apply write_words_in.
    - exists (words s). split_and!; [by destruct s|exact R|done|]. by replace (len l) with n by lia. }
  rewrite (bind_done _ _ _ _ _ E1). erewrite (bin_set_ok (mkCbMem m1 (bins s))) by exact Eb. eexists. split; [reflexivity|].
  eexists _, _. split; [reflexivity|]. split; [|split_and!; done]. split; [|cbn; lia].
  assert (Hlw : low_water a = 0) by lia.
  apply (rep_with _ _ _ R1); [apply (rp_mapped _ _ _ R1)|lia|lia|cbn; lia| |apply (rp_full _ _ _ R1)|done|exact A1|apply (rp_stashed _ _ _ R1)].
  cbn. rewrite (rp_low_water _ _ _ R1), Hlw. done.
Qed.

(** The end of a flush of the [n] objects at the bottom of the stack, whose words may have been overwritten. *)
Lemma finish_flush_ok n m1 :
  0 ≤ n ≤ len (cached a) → within a (words s) m1 →
  words_at m1 (ab_end a - 8 * len (cached a)) (take (Z.to_nat (len (cached a) - n)) (cached a)) → words_at m1 (ab_lo a) (stashed a) →
  ∃ s', cache_bin_finish_flush p n (mkCbMem m1 (bins s)) = Done (tt, s') ∧
    moved s s' p b a (let c := take (Z.to_nat (len (cached a) - n)) (cached a) in
      mkABin (ab_lo a) (ab_max a) c (stashed a) (Z.min (low_water a) (len c))).
Proof.
  intros Hn W1 A1 A2. pose proof (rep_numbers _ _ _ R) as (N1 & N2 & N3 & N4 & N5 & N6 & N7 & N8).
  set (c := take (Z.to_nat (len (cached a) - n)) (cached a)) in *.
  assert (Hc : len c = len (cached a) - n) by (unfold c, len in *; rewrite length_take; lia).
  unfold cache_bin_finish_flush, SIZEOF_PTR. erewrite bind_done by (by apply bin_at_ok). unfold cache_bin_ncached_get_local.
  rewrite (ncached_ok _ _ _ R), (rp_head _ _ _ R), <- Hc.
  assert (Hr : u32 (len c) = len c) by (unfold u32; apply Z.mod_small; lia). rewrite Hr.
  assert (Hh : u64 (ab_end a - 8 * len (cached a) + n * 8) = ab_end a - 8 * len c) by (rewrite u64_small; [lia|unfold is_u64; lia]). rewrite Hh.
  set (i := ab_max a - len c). assert (Hi : ab_end a - 8 * len c = ab_lo a + 8 * i) by (unfold i; lia).
  assert (Em : memmove (ab_end a - 8 * len c) (ab_end a - 8 * len (cached a)) (len c) (mkCbMem m1 (bins s)) =
    Done (tt, mkCbMem (write_words m1 (ab_end a - 8 * len c) c) (bins s))).
  { unfold memmove. rewrite to_nat_len. erewrite bind_done by (by apply load_n_ok). apply (store_n_ok (mkCbMem m1 (bins s))).
    rewrite Hi. intros k Hk. apply (proj2 W1). apply (rep_mapped _ _ _ R i (len c)); unfold i; lia. }
  rewrite (bind_done _ _ _ _ _ Em). erewrite bind_done by (apply (bin_set_ok (mkCbMem _ (bins s))); exact Eb).
  assert (W2 : within a (words s) (write_words m1 (ab_end a - 8 * len c) c)).
  { eapply within_trans; [exact W1|]. rewrite Hi. apply within_write; unfold i; lia. }
  cbn [bins words]. apply (adjust_after s p b a); [|exact W2|done].
  apply (rep_with _ _ _ R); [by eapply within_mapped|lia|lia|done|apply (rp_low_water _ _ _ R)|apply (rp_full _ _ _ R)|done|apply write_words_in|].
  apply words_at_write; [exact A2|left]. lia.
Qed.

(** The end of a flush of what was stashed, whose words may have been overwritten. *)
Lemma finish_flush_stashed_ok info m1 :
  info_ncached_max info = ab_max a → low_water a ≤ len (cached a) → within a (words s) m1 →
  words_at m1 (ab_end a - 8 * len (cached a)) (cached a) →
  ∃ s', cache_bin_finish_flush_stashed p info (mkCbMem m1 (bins s)) = Done (tt, s') ∧
    moved s s' p b a (mkABin (ab_lo a) (ab_max a) (cached a) [] (low_water a)).
Proof.
  intros Hi Hlow W1 A1. pose proof (rep_numbers _ _ _ R) as (N1 & N2 & N3 & N4 & N5 & N6 & N7 & N8).
  unfold cache_bin_finish_flush_stashed. erewrite (bin_set_ok (mkCbMem m1 (bins s))) by exact Eb. eexists. split; [reflexivity|].
  eexists _, _. split; [reflexivity|]. split; [|split_and!; done]. split; [|done].
  apply (rep_with _ _ _ R); change (len []) with 0;
    [by eapply within_mapped|lia|lia|apply (rp_head _ _ _ R)|apply (rp_low_water _ _ _ R)| |done|exact A1|by intros k v].
  cbn. rewrite (low_bound_ok _ _ _ R info Hi). f_equal. lia.
Qed.

(** The number of stashed objects; the word before the array may be read. *)
Lemma nstashed_get_ok info racy :
  info_ncached_max info = ab_max a → 8 ≤ ab_lo a → is_Some (words s !! (ab_lo a - 8)) →
  cache_bin_nstashed_get_internal p info racy s = Done (len (stashed a), s).
Proof.
  intros Hi Hlo Hb. pose proof (rep_numbers _ _ _ R) as (N1 & N2 & N3 & N4 & N5 & N6 & N7 & N8).
  unfold cache_bin_nstashed_get_internal. erewrite bind_done by (by apply bin_at_ok). rewrite (nstashed_ok _ _ _ R info Hi).
  destruct racy; [done|]. cbn [negb]. rewrite (low_bound_ok _ _ _ R info Hi). unfold SIZEOF_PTR. rewrite u64_small by (unfold is_u64; lia).
  assert (is_Some (words s !! (ab_lo a + (len (stashed a) - 1) * 8))) as [v Ev].
  { destruct (decide (len (stashed a) = 0)) as [->|]; [done|]. replace (ab_lo a + _ * 8) with (ab_lo a + 8 * (len (stashed a) - 1)) by lia.
    apply (rp_mapped _ _ _ R). lia. }
  by erewrite bind_done by (by apply load_ok).
Qed.
End ops.
