(* ===== verification/CacheBinTheorems.v ===== *)
(** * What a family of cache bins promises

    The bins of a thread cache lie one behind the other in one block of memory.  Whatever is done to one of them,
    with the protocol of fills and flushes, does to its two stacks what [cb_spec] says, and nothing to the others. *)
From stdpp Require Import base list gmap numbers.
From S2P Require Import Prelude CacheBin CacheBinOps.

(** [ptrs] are the objects that a fill of [nfill] slots gets; [scribble] is what the caller leaves in the slots that it flushes. *)
Inductive cb_op : Type :=
| OpAlloc (easy : bool)
| OpAllocBatch (num : Z)
| OpDalloc (ptr : Z)
| OpStash (ptr : Z)
| OpLowWaterSet
| OpFill (nfill : Z) (ptrs : list Z)
| OpFlush (nflush : Z) (scribble : list Z)
| OpFlushStashed (scribble : list Z)
| OpCounts (remote : bool).

Inductive cb_result : Type :=
| RNone
| RPtr (ptr : Z) (success : bool)
| ROk (success : bool)
| RList (l : list Z)
| RCounts (ncached nstashed : Z).

Definition cb_exec (p : Z) (info : cache_bin_info_t) (op : cb_op) : M cb_mem cb_result :=
  match op with
  | OpAlloc easy => '(r, ok) ← (if easy then cache_bin_alloc_easy p else cache_bin_alloc p); mret (RPtr r ok)
  | OpAllocBatch num => l ← cache_bin_alloc_batch p num; mret (RList l)
  | OpDalloc ptr => ok ← cache_bin_dalloc_easy p ptr; mret (ROk ok)
  | OpStash ptr => ok ← cache_bin_stash p ptr; mret (ROk ok)
  | OpLowWaterSet => cache_bin_low_water_set p;; mret RNone
  | OpFill nfill ptrs =>
      arr ← cache_bin_init_ptr_array_for_fill p (CACHE_BIN_PTR_ARRAY_DECLARE nfill) nfill;
      store_n (arr_ptr arr) ptrs;;
      cache_bin_finish_fill p arr (len ptrs);;
      mret RNone
  | OpFlush nflush scribble =>
      arr ← cache_bin_init_ptr_array_for_flush p (CACHE_BIN_PTR_ARRAY_DECLARE nflush) nflush;
      l ← load_n (Z.to_nat nflush) (arr_ptr arr);
      store_n (arr_ptr arr) scribble;;
      cache_bin_finish_flush p nflush;;
      mret (RList l)
  | OpFlushStashed scribble =>
      nstashed ← cache_bin_nstashed_get_local p info;
      arr ← cache_bin_init_ptr_array_for_stashed p info (CACHE_BIN_PTR_ARRAY_DECLARE nstashed);
      l ← load_n (Z.to_nat nstashed) (arr_ptr arr);
      store_n (arr_ptr arr) scribble;;
      cache_bin_finish_flush_stashed p info;;
      mret (RList l)
  | OpCounts remote =>
      if remote then '(n, m) ← cache_bin_nitems_get_remote p info; mret (RCounts n m)
      else
        b ← bin_at p;
        m ← cache_bin_nstashed_get_local p info;
        mret (RCounts (cache_bin_ncached_get_local b) m)
  end.

Definition with_cached (c : list Z) (w : Z) (a : abin) : abin := mkABin (ab_lo a) (ab_max a) c (stashed a) w.
Definition with_stashed (st : list Z) (a : abin) : abin := mkABin (ab_lo a) (ab_max a) (cached a) st (low_water a).

(** What an operation returns, and what it leaves, in terms of the stacks. *)
Definition cb_spec (op : cb_op) (a : abin) : cb_result * abin :=
  match op with
  | OpAlloc easy =>
      match cached a with
      | v :: c =>
          if negb easy || (low_water a <? len (cached a)) then (RPtr v true, with_cached c (Z.min (low_water a) (len c)) a)
          else (RPtr 0 false, a)
      | [] => (RPtr 0 false, a)
      end
  | OpAllocBatch num =>
      let c := drop (Z.to_nat num) (cached a) in
      (RList (take (Z.to_nat num) (cached a)), with_cached c (Z.min (low_water a) (len c)) a)
  | OpDalloc ptr =>
      if len (cached a) + len (stashed a) =? ab_max a then (ROk false, a)
      else (ROk true, with_cached (ptr :: cached a) (low_water a) a)
  | OpStash ptr =>
      if len (cached a) + len (stashed a) =? ab_max a then (ROk false, a)
      else (ROk true, with_stashed (stashed a ++ [ptr]) a)
  | OpLowWaterSet => (RNone, with_cached (cached a) (len (cached a)) a)
  | OpFill _ ptrs => (RNone, with_cached ptrs 0 a)
  | OpFlush n _ =>
      let rem := Z.to_nat (len (cached a) - n) in
      let c := take rem (cached a) in
      (RList (drop rem (cached a)), with_cached c (Z.min (low_water a) (len c)) a)
  | OpFlushStashed _ => (RList (stashed a), with_stashed [] a)
  | OpCounts _ => (RCounts (len (cached a)) (len (stashed a)), a)
  end.

(** Fills are for empty bins and never wider than the room, flushes never wider than the stack. *)
Definition cb_legal (op : cb_op) (a : abin) : Prop :=
  match op with
  | OpFill n ptrs => cached a = [] ∧ len ptrs ≤ n ∧ n + len (stashed a) ≤ ab_max a
  | OpFlush n scribble => 0 ≤ n ≤ len (cached a) ∧ len scribble = n
  | OpFlushStashed scribble => len scribble = len (stashed a)
  | OpAllocBatch num => 0 ≤ num
  | _ => True
  end.

(** The bins at the keys of [A]: each stands for its two stacks, and no two share memory. *)
Record family (s : cb_mem) (A : gmap Z abin) : Prop := {
  fm_bins : ∀ p a, A !! p = Some a → ∃ b, bins s !! p = Some b ∧ settled (words s) b a;
  fm_before : ∀ p a, A !! p = Some a → 8 ≤ ab_lo a ∧ is_Some (words s !! (ab_lo a - 8));
  fm_apart : ∀ p q a a', A !! p = Some a → A !! q = Some a' → p ≠ q → ab_end a ≤ ab_lo a' ∨ ab_end a' ≤ ab_lo a
}.

(** A bin sees nothing of what changes elsewhere. *)
Lemma settled_elsewhere m m' b a a0 :
  settled m b a → within a0 m m' → ab_end a ≤ ab_lo a0 ∨ ab_end a0 ≤ ab_lo a → settled m' b a.
Proof.
  intros [R Hlow] [W1 W2] Hd. split; [|done]. pose proof (rep_numbers _ _ _ R) as (N1 & N2 & N3 & N4 & N5 & N6 & N7 & N8).
  assert (Hsame : ∀ k, 0 ≤ k < ab_max a → m' !! (ab_lo a + 8 * k) = m !! (ab_lo a + 8 * k)).
  { intros k Hk. apply W1. intros k' Hk' E. unfold ab_end in *. lia. }
  destruct R as [R1 R2 R3 R4 R5 R6 R7 R8 R9 R10 R11 R12]. split; try done.
  - intros k Hk. apply W2, R10, Hk.
  - intros k v Hk. specialize (R11 k v Hk). apply lookup_lt_Some in Hk. unfold len in *.
    replace (ab_end a - 8 * Z.of_nat (length (cached a)) + 8 * Z.of_nat k) with (ab_lo a + 8 * (ab_max a - Z.of_nat (length (cached a)) + Z.of_nat k)) in * by lia.
    rewrite Hsame by lia. exact R11.
  - intros k v Hk. specialize (R12 k v Hk). apply lookup_lt_Some in Hk. unfold len in *. rewrite Hsame by lia. exact R12.
Qed.

Lemma family_moved s s' A p b a a' :
  family s A → A !! p = Some a → moved s s' p b a a' → family s' (<[p:=a']> A).
Proof.
  intros [F1 F2 F3] Hp (m' & b' & -> & Hs & Hl & Hm & Hw & _). assert (He : ab_end a' = ab_end a) by (unfold ab_end; congruence).
  split; cbn [words bins].
  - intros q aq. destruct (decide (q = p)) as [->|Hne].
    + rewrite lookup_insert_eq. intros [= <-]. exists b'. by rewrite lookup_insert_eq.
    + rewrite !lookup_insert_ne by done. intros Hq. destruct (F1 q aq Hq) as (bq & Eq & Hq'). exists bq.
      split; [exact Eq|]. apply (settled_elsewhere (words s) _ _ _ a); [done..|by apply (F3 q p)].
  - intros q aq Hq. assert (∃ aq0, A !! q = Some aq0 ∧ ab_lo aq = ab_lo aq0) as (aq0 & Hq0 & ->).
    { destruct (decide (q = p)) as [->|Hne]; [rewrite lookup_insert_eq in Hq; injection Hq as <-; by exists a|].
      rewrite lookup_insert_ne in Hq by done. by exists aq. }
    destruct (F2 q aq0 Hq0) as [H1 H2]. split; [done|by apply Hw].
  - intros q r aq ar. destruct (decide (q = p)) as [->|Hqp], (decide (r = p)) as [->|Hrp]; [done|..].
    + rewrite lookup_insert_eq, lookup_insert_ne by done. intros [= <-] Hr Hne. rewrite He, Hl. by apply (F3 p r).
    + rewrite lookup_insert_eq, lookup_insert_ne by done. intros Hq [= <-] Hne. rewrite He, Hl. by apply (F3 q p).
    + rewrite !lookup_insert_ne by done. apply F3.
Qed.

Lemma family_same s A p a : family s A → A !! p = Some a → family s (<[p:=a]> A).
Proof. intros F E. by rewrite insert_id. Qed.

Section refine.
Context (s : cb_mem) (A : gmap Z abin) (p : Z) (a : abin) (F : family s A) (Ea : A !! p = Some a).

(** What the theorem below says of one operation. *)
Definition refines (op : cb_op) (info : cache_bin_info_t) : Prop :=
  ∃ s', cb_exec p info op s = Done (fst (cb_spec op a), s') ∧ family s' (<[p:=snd (cb_spec op a)]> A).

Lemma refines_alloc easy info : refines (OpAlloc easy) info.
Proof.
  destruct (fm_bins _ _ F p a Ea) as (b & Eb & R & Hlow).
  destruct (alloc_impl_ok s p b a Eb R (negb easy) Hlow) as (r & ok & s' & E & H). exists s'. cbn [cb_exec cb_spec].
  assert (E' : (if easy then cache_bin_alloc_easy p else cache_bin_alloc p) s = Done ((r, ok), s')) by (by destruct easy).
  rewrite (bind_done _ _ _ _ _ E'). clear E E'. destruct (cached a) as [|v c].
  - destruct H as (-> & -> & ->). split; [done|by apply family_same].
  - destruct (negb easy || _); destruct H as (-> & -> & H).
    + split; [done|by eapply family_moved].
    + subst s'. split; [done|by apply family_same].
Qed.

Lemma refines_fill n ptrs info : cb_legal (OpFill n ptrs) a → refines (OpFill n ptrs) info.
Proof.
  intros (Hc & Hl & Hn). destruct (fm_bins _ _ F p a Ea) as (b & Eb & R & Hlow). rewrite Hc in Hlow. change (len []) with 0 in Hlow.
  pose proof (rep_numbers _ _ _ R) as (N1 & N2 & N3 & N4 & N5 & N6 & N7 & N8). pose proof (len_nonneg ptrs).
  unfold refines. cbn [cb_exec cb_spec fst snd]. unfold cache_bin_init_ptr_array_for_fill, CACHE_BIN_PTR_ARRAY_DECLARE, SIZEOF_PTR.
  erewrite bind_done by (by erewrite bind_done by (by apply bin_at_ok)). cbn [arr_ptr arr_n]. rewrite (empty_position_ok _ _ _ R).
  rewrite u64_small by (unfold is_u64; lia). unfold u16 at 1. rewrite (Z.mod_small n) by lia.
  replace (ab_end a - n * 8) with (ab_lo a + 8 * (ab_max a - n)) by lia.
  erewrite bind_done by (apply store_n_ok; apply (rep_mapped _ _ _ R); lia).
  set (m1 := write_words _ _ _). assert (R1 : rep m1 b a) by (apply (rep_write_free s b a R); rewrite ?Hc; change (len []) with 0; lia).
  destruct (finish_fill_ok (mkCbMem m1 (bins s)) p b a Eb R1 n ptrs (ab_lo a + 8 * (ab_max a - n)) Hc Hlow Hl Hn) as (s' & E & Hm).
  { replace (ab_end a - 8 * n) with (ab_lo a + 8 * (ab_max a - n)) by lia. apply write_words_in. }
  rewrite (bind_done _ _ _ _ _ E). exists s'. split; [done|]. eapply (family_moved s); [done|done|].
  destruct Hm as (m' & b' & -> & Hs & Hl' & Hm' & Hw & Hq). exists m', b'. split_and!; try done.
  eapply within_trans; [|exact Hw]. apply within_write; lia.
Qed.

Lemma refines_flush n scribble info : cb_legal (OpFlush n scribble) a → refines (OpFlush n scribble) info.
Proof.
  intros (Hn & Hs). destruct (fm_bins _ _ F p a Ea) as (b & Eb & R & Hlow).
  pose proof (rep_numbers _ _ _ R) as (N1 & N2 & N3 & N4 & N5 & N6 & N7 & N8).
  unfold refines. cbn [cb_exec cb_spec fst snd]. unfold cache_bin_init_ptr_array_for_flush, CACHE_BIN_PTR_ARRAY_DECLARE, SIZEOF_PTR.
  erewrite bind_done by (by erewrite bind_done by (by apply bin_at_ok)). cbn [arr_ptr]. rewrite (empty_position_ok _ _ _ R).
  rewrite u64_small by (unfold is_u64; lia). set (k := Z.to_nat (len (cached a) - n)).
  assert (Hk : (k ≤ length (cached a))%nat) by (unfold k, len in *; lia).
  assert (Hx : ab_end a - n * 8 = ab_end a - 8 * len (cached a) + 8 * Z.of_nat k) by (unfold k; lia).
  assert (Hln : Z.to_nat n = length (drop k (cached a))) by (rewrite length_drop; unfold k, len in *; lia).
  erewrite bind_done by (rewrite Hx, Hln; apply load_n_ok, words_at_drop; [done|apply (rp_cached _ _ _ R)]).
  replace (ab_end a - n * 8) with (ab_lo a + 8 * (ab_max a - n)) by lia.
  erewrite bind_done by (apply store_n_ok; apply (rep_mapped _ _ _ R); lia). set (m1 := write_words _ _ _).
  destruct (finish_flush_ok s p b a Eb R n m1 Hn) as (s' & E & Hm); fold k.
  - apply within_write; lia.
  - apply words_at_write; [apply words_at_take, (rp_cached _ _ _ R)|left]. unfold len. rewrite length_take. unfold k, len in *. lia.
  - apply words_at_write; [apply (rp_stashed _ _ _ R)|left; lia].
  - rewrite (bind_done _ _ _ _ _ E). exists s'. split; [done|]. by eapply family_moved.
Qed.

Lemma refines_flush_stashed scribble info :
  info_ncached_max info = ab_max a → cb_legal (OpFlushStashed scribble) a → refines (OpFlushStashed scribble) info.
Proof.
  intros Hi Hs. cbn [cb_legal] in Hs. destruct (fm_bins _ _ F p a Ea) as (b & Eb & R & Hlow). destruct (fm_before _ _ F p a Ea) as [Hlo Hb].
  pose proof (rep_numbers _ _ _ R) as (N1 & N2 & N3 & N4 & N5 & N6 & N7 & N8).
  unfold refines. cbn [cb_exec cb_spec fst snd]. unfold cache_bin_nstashed_get_local.
  rewrite (bind_done _ _ _ _ _ (nstashed_get_ok s p b a Eb R info false Hi Hlo Hb)). unfold cache_bin_init_ptr_array_for_stashed.
  erewrite bind_done by (by erewrite bind_done by (by apply bin_at_ok)). cbn [arr_ptr]. rewrite (low_bound_ok _ _ _ R info Hi), to_nat_len.
  erewrite bind_done by (apply load_n_ok, (rp_stashed _ _ _ R)).
  replace (ab_lo a) with (ab_lo a + 8 * 0) by lia.
  erewrite bind_done by (apply store_n_ok; apply (rep_mapped _ _ _ R); lia). set (m1 := write_words _ _ _).
  destruct (finish_flush_stashed_ok s p b a Eb R info m1 Hi Hlow) as (s' & E & Hm).
  - apply within_write; lia.
  - apply words_at_write; [apply (rp_cached _ _ _ R)|right; lia].
  - rewrite (bind_done _ _ _ _ _ E). exists s'. split; [done|]. by eapply family_moved.
Qed.

Lemma refines_all op info : info_ncached_max info = ab_max a → cb_legal op a → refines op info.
Proof.
  intros Hi HL. destruct (fm_bins _ _ F p a Ea) as (b & Eb & R & Hlow). destruct (fm_before _ _ F p a Ea) as [Hlo Hb].
  destruct op as [easy|num|ptr|ptr| |n ptrs|n scribble|scribble|remote];
    [apply refines_alloc| | | | |by apply refines_fill|by apply refines_flush|by apply refines_flush_stashed|];
    unfold refines; cbn [cb_exec cb_spec].
  - destruct (alloc_batch_ok s p b a Eb R num HL) as (s' & E & Hm). rewrite (bind_done _ _ _ _ _ E). exists s'. split; [done|by eapply family_moved].
  - destruct (dalloc_easy_ok s p b a Eb R ptr Hlow) as (ok & s' & E & H). rewrite (bind_done _ _ _ _ _ E). exists s'.
    destruct (_ =? _); destruct H as [-> H]; split; try done; [subst s'; by apply family_same|by eapply family_moved].
  - destruct (stash_ok s p b a Eb R ptr Hlow) as (ok & s' & E & H). rewrite (bind_done _ _ _ _ _ E). exists s'.
    destruct (_ =? _); destruct H as [-> H]; split; try done; [subst s'; by apply family_same|by eapply family_moved].
  - destruct (low_water_set_ok s p b a Eb R) as (s' & E & Hm). rewrite (bind_done _ _ _ _ _ E). exists s'. split; [done|by eapply family_moved].
  - exists s. split; [|by apply family_same]. destruct remote.
    + unfold cache_bin_nitems_get_remote.
      assert (E : (b ← bin_at p; nstashed ← cache_bin_nstashed_get_internal p info true; mret (cache_bin_ncached_get_internal b, nstashed)) s =
        Done ((len (cached a), len (stashed a)), s)); [|by rewrite (bind_done _ _ _ _ _ E)].
      erewrite bind_done by (by apply bin_at_ok).
      rewrite (bind_done _ _ _ _ _ (nstashed_get_ok s p b a Eb R info true Hi Hlo Hb)). by rewrite (ncached_ok _ _ _ R).
    + erewrite bind_done by (by apply bin_at_ok). unfold cache_bin_nstashed_get_local.
      rewrite (bind_done _ _ _ _ _ (nstashed_get_ok s p b a Eb R info false Hi Hlo Hb)). unfold cache_bin_ncached_get_local.
      by rewrite (ncached_ok _ _ _ R).
Qed.
End refine.

(** C30: every operation of a cache bin, in a family of bins that share a block of memory, returns, with the result that the two stacks of
    the bin determine, changes these as [cb_spec] says, and leaves every other bin as it was; the 16 bits kept of each position are enough. *)
Theorem cache_bins_refine s A p a op info :
  family s A → A !! p = Some a → info_ncached_max info = ab_max a → cb_legal op a →
  ∃ s', cb_exec p info op s = Done (fst (cb_spec op a), s') ∧ family s' (<[p:=snd (cb_spec op a)]> A).
Proof. intros F Ea Hi HL. exact (refines_all s A p a F Ea op info Hi HL). Qed.

(** ** An example: a bin for four objects at 64, with the object 7 *)

Module CacheBinExample.
Definition info : cache_bin_info_t := mkInfo 4.
Definition bin : abin := mkABin 64 4 [7] [] 0.
Definition mem : cb_mem := mkCbMem (write_words ∅ 56 [0; 0; 0; 0; 7; 0]) {[0 := mkBin 88 0 96 64 96]}.

Lemma rep_bin : rep (words mem) (mkBin 88 0 96 64 96) bin.
Proof.
  split; [vm_compute; discriminate|vm_compute; discriminate|split; vm_compute; discriminate|vm_compute; discriminate|split; vm_compute; discriminate
    |reflexivity|reflexivity|reflexivity|reflexivity| | |by intros k v].
  - intros k Hk. change (ab_max bin) with 4 in Hk. change (ab_lo bin) with 64.
    assert (k = 0 ∨ k = 1 ∨ k = 2 ∨ k = 3 ∨ k = 4) as [-> | [-> | [-> | [-> | ->]]]] by lia; vm_compute; by eexists.
  - intros [|k] v Hk; [injection Hk as <-; reflexivity|by destruct k].
Qed.

Lemma family_bin : family mem {[0 := bin]}.
Proof.
  split.
  - intros p a [<- <-]%lookup_singleton_Some. exists (mkBin 88 0 96 64 96). split; [reflexivity|]. split; [exact rep_bin|vm_compute; discriminate].
  - intros p a [<- <-]%lookup_singleton_Some. split; [vm_compute; discriminate|]. vm_compute. by eexists.
  - intros p q a a' [<- _]%lookup_singleton_Some [<- _]%lookup_singleton_Some. done.
Qed.
End CacheBinExample.

Lemma cache_bins_refine_witness :
  ∃ s', cb_exec 0 CacheBinExample.info (OpAlloc false) CacheBinExample.mem = Done (RPtr 7 true, s') ∧
    family s' (<[0:=mkABin 64 4 [] [] 0]> {[0 := CacheBinExample.bin]}).
Proof.
  apply (cache_bins_refine CacheBinExample.mem {[0 := CacheBinExample.bin]} 0 CacheBinExample.bin (OpAlloc false) CacheBinExample.info);
    [exact CacheBinExample.family_bin|reflexivity|reflexivity|exact I].
Defined.
