(* ===== verification/Tcache.v ===== *)
(** * Thread caches, [jemalloc/src/tcache.c] and [tcache_inlines.h]

    A thread cache has a cache bin for each size class.  It serves requests from them, fills an empty bin from an arena,
    flushes the bottom of a full one, and collects, a bin at each event, what has not been used.

    What the arenas do is a parameter: calls to them are appended to a trace, what they answer are lists in the state.  The extent
    descriptor of an object ([emap_edata_lookup_batch]), the arena and the bin shard of a descriptor are functions.  Statistics are on,
    the safety checks and the check of stashed objects for writes ([san_check_stashed_ptrs]) are off. *)
From stdpp Require Import base list gmap numbers.
From S2P Require Import Prelude BitUtil SizeClass Sz CacheBin.

(** [uint8_t] *)
Definition u8 (z : Z) : Z := z mod 2 ^ 8.

Record tcache_opts : Type := mkTcOpts {
  opt_tcache_gc_delay_bytes : Z;
  opt_tcache_nslots_small_min : Z;
  opt_tcache_nslots_small_max : Z;
  opt_tcache_nslots_large : Z;
  opt_lg_tcache_nslots_mul : Z;
  opt_lg_tcache_flush_small_div : Z;
  opt_lg_tcache_flush_large_div : Z;
  config_uaf_detection : bool;
  san_cache_bin_nonfast_mask : Z
}.

(** Calls to an arena, with what it answers in the case of [TcFill], the slots of [arena_cache_bin_fill_small] that get an object,
    and [TcLargeMalloc], [large_malloc] or [arena_malloc_hard].  The shard is 0 for large objects. *)
Inductive tc_call : Type :=
| TcLock (small : bool) (arena shard : Z)
| TcUnlock (small : bool) (arena shard : Z)
| TcNrequests (small : bool) (arena binind n : Z)
| TcNflushes (arena binind : Z)     (* [bin->stats.nflushes++] *)
| TcLargePrep (edata : Z)
| TcDalloc (small : bool) (arena shard edata ptr : Z)
| TcDecayTicks (arena n : Z)
| TcSlabDalloc (edata : Z)
| TcArenaDallocSmall (ptr : Z)
| TcFill (arena binind : Z) (ptrs : list Z)
| TcLargeMalloc (binind ret : Z)
| TcJunk (ptr : Z)
| TcMemset (ptr usize : Z).

(** The members of [tcache_t] and [tcache_slow_t], what the arenas will answer, and the trace.
    [fills]: the objects that the next fills can get; [larges]: [large_malloc] and [arena_malloc_hard]; [empties]: whether a slab has become empty.
    [choose_shard]: the shard of each small class that [arena_bin_choose] picks for the thread. *)
Record tc_mem : Type := mkTc {
  cb : cb_mem;
  slow_arena : Z;
  next_gc_bin : Z;
  lg_fill_div : list Z;
  bin_refilled : list bool;
  bin_flush_delay_items : list Z;
  fills : list (list Z);
  larges : list Z;
  empties : list bool;
  choose_shard : Z → Z;
  tc_calls : list tc_call
}.

Definition set_cb (v : cb_mem) (s : tc_mem) : tc_mem :=
  mkTc v (slow_arena s) (next_gc_bin s) (lg_fill_div s) (bin_refilled s) (bin_flush_delay_items s) (fills s) (larges s) (empties s) (choose_shard s) (tc_calls s).
Definition set_next_gc_bin (v : Z) (s : tc_mem) : tc_mem :=
  mkTc (cb s) (slow_arena s) v (lg_fill_div s) (bin_refilled s) (bin_flush_delay_items s) (fills s) (larges s) (empties s) (choose_shard s) (tc_calls s).
Definition set_lg_fill_div (v : list Z) (s : tc_mem) : tc_mem :=
  mkTc (cb s) (slow_arena s) (next_gc_bin s) v (bin_refilled s) (bin_flush_delay_items s) (fills s) (larges s) (empties s) (choose_shard s) (tc_calls s).
Definition set_bin_refilled (v : list bool) (s : tc_mem) : tc_mem :=
  mkTc (cb s) (slow_arena s) (next_gc_bin s) (lg_fill_div s) v (bin_flush_delay_items s) (fills s) (larges s) (empties s) (choose_shard s) (tc_calls s).
Definition set_delay_items (v : list Z) (s : tc_mem) : tc_mem :=
  mkTc (cb s) (slow_arena s) (next_gc_bin s) (lg_fill_div s) (bin_refilled s) v (fills s) (larges s) (empties s) (choose_shard s) (tc_calls s).
Definition set_fills (v : list (list Z)) (s : tc_mem) : tc_mem :=
  mkTc (cb s) (slow_arena s) (next_gc_bin s) (lg_fill_div s) (bin_refilled s) (bin_flush_delay_items s) v (larges s) (empties s) (choose_shard s) (tc_calls s).
Definition set_larges (v : list Z) (s : tc_mem) : tc_mem :=
  mkTc (cb s) (slow_arena s) (next_gc_bin s) (lg_fill_div s) (bin_refilled s) (bin_flush_delay_items s) (fills s) v (empties s) (choose_shard s) (tc_calls s).
Definition set_empties (v : list bool) (s : tc_mem) : tc_mem :=
  mkTc (cb s) (slow_arena s) (next_gc_bin s) (lg_fill_div s) (bin_refilled s) (bin_flush_delay_items s) (fills s) (larges s) v (choose_shard s) (tc_calls s).
Definition tc_add (c : tc_call) (s : tc_mem) : tc_mem :=
  mkTc (cb s) (slow_arena s) (next_gc_bin s) (lg_fill_div s) (bin_refilled s) (bin_flush_delay_items s) (fills s) (larges s) (empties s) (choose_shard s) (tc_calls s ++ [c]).

Definition on_cb {A} (m : M cb_mem A) : M tc_mem A := zoom cb set_cb m.
Definition tc_do (c : tc_call) : M tc_mem unit := modify (tc_add c).
(** At most [nfill] objects. *)
Definition ask_fill (arena p nfill : Z) : M tc_mem (list Z) := λ s,
  let l := take (Z.to_nat nfill) (default [] (head (fills s))) in Done (l, tc_add (TcFill arena p l) (set_fills (tail (fills s)) s)).
Definition ask_large (p : Z) : M tc_mem Z := λ s,
  let r := default 0 (head (larges s)) in Done (r, tc_add (TcLargeMalloc p r) (set_larges (tail (larges s)) s)).
Definition ask_empty : M tc_mem bool := λ s, Done (default false (head (empties s)), set_empties (tail (empties s)) s).

(** An array of [tcache_slow_t], by size class. *)
Definition slow_get {A} (f : tc_mem → list A) (i : Z) : M tc_mem A := s ← get; liftO (f s !! Z.to_nat i ?? OutOfBounds).
Definition slow_set {A} (f : tc_mem → list A) (g : list A → tc_mem → tc_mem) (i : Z) (v : A) : M tc_mem unit :=
  _ ← slow_get f i; modify (λ s, g (<[Z.to_nat i:=v]> (f s)) s).

Section tcache.
Context (T : sz_tables) (o : tcache_opts) (tcache_bin_info : list cache_bin_info_t) (nhbins : Z).
Context (edata_of arena_ind binshard : Z → Z) (arena_is_auto : Z → bool).

Definition bin_info (i : Z) : M tc_mem cache_bin_info_t := liftO (tcache_bin_info !! Z.to_nat i ?? OutOfBounds).

Definition tcache_gc_item_delay_compute (szind : Z) : outcome Z :=
  sz ← sz_index2size T szind;
  if sz =? 0 then Fault DivideByZero
  else
    let item_delay := opt_tcache_gc_delay_bytes o / sz in
    let delay_max := 2 ^ 8 in
    Done (u8 (if delay_max <=? item_delay then delay_max - 1 else item_delay)).

(** ** Flushing *)

Definition tcache_bin_flush_match (edata cur_arena_ind cur_binshard : Z) (small : bool) : bool :=
  if small then (arena_ind edata =? cur_arena_ind) && (binshard edata =? cur_binshard) else arena_ind edata =? cur_arena_ind.

Definition tcache_bin_flush_edatas_lookup (ptrs nflush : Z) : M tc_mem (list Z) :=
  l ← on_cb (load_n (Z.to_nat nflush) ptrs);
  mret (map edata_of l).

(** The requests of the bin [p] go to the statistics of the arena. *)
Definition merge_nrequests (small : bool) (p arena : Z) : M tc_mem unit :=
  b ← on_cb (bin_at p);
  tc_do (TcNrequests small arena p (nrequests b));;
  on_cb (bin_set p (set_nrequests 0)).

(** The same under the lock of the bin that is chosen for the thread; for large objects there is none. *)
Definition with_bin_lock (small : bool) (p arena : Z) (m : M tc_mem unit) : M tc_mem unit :=
  s ← get;
  (if small then tc_do (TcLock true arena (choose_shard s p)) else mret tt);;
  m;;
  (if small then tc_do (TcUnlock true arena (choose_shard s p)) else mret tt).

(** A flush of a small bin is counted with them. *)
Definition merge_flush (small : bool) (p arena : Z) : M tc_mem unit :=
  (if small then tc_do (TcNflushes arena p) else mret tt);;
  merge_nrequests small p arena.

(** The loop over the large objects. *)
Fixpoint flush_prep (n : nat) (i ptrs cur_arena cur_binshard : Z) (items : list Z) : M tc_mem unit :=
  match n with
  | O => mret tt
  | S n =>
      _ ← on_cb (load (u64 (ptrs + i * SIZEOF_PTR)));
      edata ← liftO (items !! Z.to_nat i ?? OutOfBounds);
      (if tcache_bin_flush_match edata cur_arena cur_binshard false then tc_do (TcLargePrep edata) else mret tt);;
      flush_prep n (i + 1) ptrs cur_arena cur_binshard items
  end.

(** The loop that deallocates what it can and moves the rest to the front: [item_edata], [ndeferred] and [dalloc_slabs] at its end. *)
Fixpoint flush_scan (n : nat) (i : Z) (small : bool) (ptrs cur_arena cur_binshard : Z) (items : list Z) (ndeferred : Z) (slabs : list Z) :
    M tc_mem (list Z * Z * list Z) :=
  match n with
  | O => mret (items, ndeferred, slabs)
  | S n =>
      ptr ← on_cb (load (u64 (ptrs + i * SIZEOF_PTR)));
      edata ← liftO (items !! Z.to_nat i ?? OutOfBounds);
      if negb (tcache_bin_flush_match edata cur_arena cur_binshard small) then
        on_cb (store (u64 (ptrs + ndeferred * SIZEOF_PTR)) ptr);;
        flush_scan n (i + 1) small ptrs cur_arena cur_binshard (<[Z.to_nat ndeferred:=edata]> items) (u32 (ndeferred + 1)) slabs
      else
        tc_do (TcDalloc small cur_arena cur_binshard edata ptr);;
        empty ← (if small then ask_empty else mret false);
        flush_scan n (i + 1) small ptrs cur_arena cur_binshard items ndeferred (if empty : bool then slabs ++ [edata] else slabs)
  end.

(** The loop of [tcache_bin_flush_impl]: [merged_stats] and [dalloc_slabs] at its end. *)
Fixpoint flush_rounds (fuel : nat) (small : bool) (p ptrs nflush : Z) (items : list Z) (merged_stats : bool) (slabs : list Z) :
    M tc_mem (bool * list Z) :=
  if nflush =? 0 then mret (merged_stats, slabs)
  else
    match fuel with
    | O => throw Diverges
    | S fuel =>
        edata ← liftO (items !! 0%nat ?? OutOfBounds);
        let cur_arena := arena_ind edata in
        let cur_binshard := if small then binshard edata else 0 in
        let large_lock := negb small && negb (arena_is_auto cur_arena) in
        (if small || large_lock then tc_do (TcLock small cur_arena cur_binshard) else mret tt);;
        s ← get;
        let merge := (slow_arena s =? cur_arena) && negb merged_stats in
        (if merge then merge_flush small p cur_arena else mret tt);;
        (if small then mret tt else flush_prep (Z.to_nat nflush) 0 ptrs cur_arena cur_binshard items);;
        (if large_lock then tc_do (TcUnlock false cur_arena cur_binshard) else mret tt);;
        '(items, ndeferred, slabs) ← flush_scan (Z.to_nat nflush) 0 small ptrs cur_arena cur_binshard items 0 slabs;
        (if small then tc_do (TcUnlock true cur_arena cur_binshard) else mret tt);;
        tc_do (TcDecayTicks cur_arena (u32 (nflush - ndeferred)));;
        flush_rounds fuel small p ptrs ndeferred items (merged_stats || merge) slabs
    end.

Fixpoint dalloc_slabs (slabs : list Z) : M tc_mem unit :=
  match slabs with [] => mret tt | slab :: slabs => tc_do (TcSlabDalloc slab);; dalloc_slabs slabs end.

Definition tcache_bin_flush_impl (p : Z) (ptrs : cache_bin_ptr_array_t) (nflush : Z) (small : bool) : M tc_mem unit :=
  items ← tcache_bin_flush_edatas_lookup (arr_ptr ptrs) nflush;
  '(merged_stats, slabs) ← flush_rounds (Z.to_nat nflush) small p (arr_ptr ptrs) nflush items false [];
  dalloc_slabs slabs;;
  s ← get;
  if negb merged_stats then with_bin_lock small p (slow_arena s) (merge_flush small p (slow_arena s)) else mret tt.

Definition tcache_bin_flush_stashed (p : Z) (is_small : bool) : M tc_mem unit :=
  info ← bin_info p;
  b ← on_cb (bin_at p);
  _ ← on_cb (load (stack_head b));
  nstashed ← on_cb (cache_bin_nstashed_get_local p info);
  if nstashed =? 0 then mret tt
  else
    ptrs ← on_cb (cache_bin_init_ptr_array_for_stashed p info (CACHE_BIN_PTR_ARRAY_DECLARE nstashed));
    tcache_bin_flush_impl p ptrs nstashed is_small;;
    on_cb (cache_bin_finish_flush_stashed p info).

Definition tcache_bin_flush_bottom (p rem : Z) (small : bool) : M tc_mem unit :=
  tcache_bin_flush_stashed p small;;
  b ← on_cb (bin_at p);
  let ncached := cache_bin_ncached_get_local b in
  let nflush := u32 (ncached - rem) in
  ptrs ← on_cb (cache_bin_init_ptr_array_for_flush p (CACHE_BIN_PTR_ARRAY_DECLARE nflush) (u16 nflush));
  tcache_bin_flush_impl p ptrs nflush small;;
  on_cb (cache_bin_finish_flush p (u16 (ncached - rem))).

Definition tcache_bin_flush_small (p rem : Z) : M tc_mem unit := tcache_bin_flush_bottom p rem true.
Definition tcache_bin_flush_large (p rem : Z) : M tc_mem unit := tcache_bin_flush_bottom p rem false.

(** ** Incremental collection *)

Definition tcache_gc_small (szind : Z) : M tc_mem unit :=
  b ← on_cb (bin_at szind);
  let ncached := cache_bin_ncached_get_local b in
  let low_water := cache_bin_low_water_get b in
  let nflush := u64 (low_water - Z.shiftr low_water 2) in
  delay ← slow_get bin_flush_delay_items szind;
  if nflush <? delay then slow_set bin_flush_delay_items set_delay_items szind (u8 (delay - u8 nflush))
  else
    item_delay ← liftO (tcache_gc_item_delay_compute szind);
    slow_set bin_flush_delay_items set_delay_items szind item_delay;;
    tcache_bin_flush_small szind (u32 (ncached - nflush));;
    info ← bin_info szind;
    div ← slow_get lg_fill_div szind;
    if 1 <=? Z.shiftr (cache_bin_info_ncached_max info) (div + 1) then slow_set lg_fill_div set_lg_fill_div szind (u8 (div + 1)) else mret tt.

Definition tcache_gc_large (szind : Z) : M tc_mem unit :=
  b ← on_cb (bin_at szind);
  let ncached := cache_bin_ncached_get_local b in
  let low_water := cache_bin_low_water_get b in
  tcache_bin_flush_large szind (u32 (ncached - low_water + Z.shiftr low_water 2)).

Definition tcache_event : M tc_mem unit :=
  s ← get;
  let szind := next_gc_bin s in
  let is_small := szind <? SC_NBINS in
  tcache_bin_flush_stashed szind is_small;;
  b ← on_cb (bin_at szind);
  (if 0 <? cache_bin_low_water_get b then
     if is_small then tcache_gc_small szind else tcache_gc_large szind
   else if is_small then
     refilled ← slow_get bin_refilled szind;
     if refilled : bool then
       div ← slow_get lg_fill_div szind;
       (if 1 <? div then slow_set lg_fill_div set_lg_fill_div szind (div - 1) else mret tt);;
       slow_set bin_refilled set_bin_refilled szind false
     else mret tt
   else mret tt);;
  on_cb (cache_bin_low_water_set szind);;
  modify (λ s, let next := u32 (next_gc_bin s + 1) in set_next_gc_bin (if next =? nhbins then 0 else next) s).

(** ** Allocation *)

(** What an arena puts in at most [nfill] slots, the statistics and the tick of the arena that go with it. *)
Definition arena_cache_bin_fill_small (p nfill arena : Z) : M tc_mem unit :=
  ptrs ← on_cb (cache_bin_init_ptr_array_for_fill p (CACHE_BIN_PTR_ARRAY_DECLARE nfill) (u16 nfill));
  filled ← ask_fill arena p nfill;
  on_cb (store_n (arr_ptr ptrs) filled);;
  merge_nrequests true p arena;;
  on_cb (cache_bin_finish_fill p ptrs (u16 (Z.of_nat (length filled))));;
  tc_do (TcDecayTicks arena 1).

(** The object and [*tcache_success]. *)
Definition tcache_alloc_small_hard (arena p : Z) : M tc_mem (Z * bool) :=
  info ← bin_info p;
  div ← slow_get lg_fill_div p;
  arena_cache_bin_fill_small p (Z.shiftr (cache_bin_info_ncached_max info) div) arena;;
  slow_set bin_refilled set_bin_refilled p true;;
  on_cb (cache_bin_alloc p).

Definition tcache_small_bin_disabled (ind : Z) : M tc_mem bool :=
  info ← bin_info ind; mret (cache_bin_info_ncached_max info =? 0).

Definition count_request (p : Z) : M tc_mem unit := on_cb (bin_set p (λ b, set_nrequests (u64 (nrequests b + 1)) b)).

(** [arena]: what [arena_choose] returns. *)
Definition tcache_alloc_small (arena binind : Z) (zero : bool) : M tc_mem Z :=
  let finish ret :=
    (if zero then usize ← liftO (sz_index2size T binind); tc_do (TcMemset ret usize) else mret tt);;
    count_request binind;;
    mret ret in
  '(ret, tcache_success) ← on_cb (cache_bin_alloc binind);
  if tcache_success : bool then finish ret
  else if arena =? 0 then mret 0
  else
    disabled ← tcache_small_bin_disabled binind;
    if disabled : bool then ask_large binind
    else
      tcache_bin_flush_stashed binind true;;
      '(ret, tcache_hard_success) ← tcache_alloc_small_hard arena binind;
      if negb tcache_hard_success then mret 0 else finish ret.

Definition tcache_alloc_large (arena binind : Z) (zero : bool) : M tc_mem Z :=
  '(ret, tcache_success) ← on_cb (cache_bin_alloc binind);
  if negb tcache_success then
    if arena =? 0 then mret 0
    else tcache_bin_flush_stashed binind false;; ask_large binind
  else
    (if zero then usize ← liftO (sz_index2size T binind); tc_do (TcMemset ret usize) else mret tt);;
    count_request binind;;
    mret ret.

(** ** Deallocation *)

Definition tcache_dalloc_small (ptr binind : Z) : M tc_mem unit :=
  stashed ← (if cache_bin_nonfast_aligned (config_uaf_detection o) (san_cache_bin_nonfast_mask o) ptr then
               tc_do (TcJunk ptr);; on_cb (cache_bin_stash binind ptr)
             else mret false);
  if stashed : bool then mret tt
  else
    ok ← on_cb (cache_bin_dalloc_easy binind ptr);
    if ok : bool then mret tt
    else
      disabled ← tcache_small_bin_disabled binind;
      if disabled : bool then tc_do (TcArenaDallocSmall ptr)
      else
        info ← bin_info binind;
        tcache_bin_flush_small binind (Z.shiftr (cache_bin_info_ncached_max info) (opt_lg_tcache_flush_small_div o));;
        _ ← on_cb (cache_bin_dalloc_easy binind ptr);
        mret tt.

Definition tcache_dalloc_large (ptr binind : Z) : M tc_mem unit :=
  ok ← on_cb (cache_bin_dalloc_easy binind ptr);
  if ok : bool then mret tt
  else
    info ← bin_info binind;
    tcache_bin_flush_large binind (Z.shiftr (cache_bin_info_ncached_max info) (opt_lg_tcache_flush_large_div o));;
    _ ← on_cb (cache_bin_dalloc_easy binind ptr);
    mret tt.

(** ** The whole cache *)

Fixpoint flush_bins (n : nat) (i : Z) : M tc_mem unit :=
  match n with
  | O => mret tt
  | S n => (if i <? SC_NBINS then tcache_bin_flush_small i 0 else tcache_bin_flush_large i 0);; flush_bins n (i + 1)
  end.
Definition tcache_flush_cache : M tc_mem unit := flush_bins (Z.to_nat nhbins) 0.

Fixpoint merge_bins (n : nat) (i arena : Z) : M tc_mem unit :=
  match n with
  | O => mret tt
  | S n => with_bin_lock (i <? SC_NBINS) i arena (merge_nrequests (i <? SC_NBINS) i arena);; merge_bins n (i + 1) arena
  end.
Definition tcache_stats_merge (arena : Z) : M tc_mem unit := merge_bins (Z.to_nat nhbins) 0 arena.

(** Bins from [i] on, in [mem] from [cur_offset] on. *)
Fixpoint init_bins (n : nat) (i mem cur_offset : Z) : M tc_mem Z :=
  match n with
  | O => mret cur_offset
  | S n =>
      (if i <? SC_NBINS then
         slow_set lg_fill_div set_lg_fill_div i 1;;
         slow_set bin_refilled set_bin_refilled i false;;
         delay ← liftO (tcache_gc_item_delay_compute i);
         slow_set bin_flush_delay_items set_delay_items i delay
       else mret tt);;
      info ← bin_info i;
      cur_offset ← on_cb (cache_bin_init i info mem cur_offset);
      init_bins n (i + 1) mem cur_offset
  end.

(** Small bins beyond [tcache_maxclass], on a fake stack at [mem]. *)
Fixpoint init_disabled (n : nat) (i mem : Z) : M tc_mem unit :=
  match n with
  | O => mret tt
  | S n => info ← bin_info i; _ ← on_cb (cache_bin_init i info mem 0); init_disabled n (i + 1) mem
  end.

Definition zero_bin : cache_bin_t := mkBin 0 0 0 0 0.
Fixpoint zero_bins (n : nat) (i : Z) (m : gmap Z cache_bin_t) : gmap Z cache_bin_t :=
  match n with O => m | S n => zero_bins n (i + 1) (<[i:=zero_bin]> m) end.

(** [cur_offset] at its end is the result. *)
Definition tcache_init (mem : Z) : M tc_mem Z :=
  let n_reserved_bins := if nhbins <? SC_NBINS then SC_NBINS else nhbins in
  modify (λ s, mkTc (mkCbMem (words (cb s)) (zero_bins (Z.to_nat n_reserved_bins) 0 (bins (cb s)))) 0 0 (lg_fill_div s) (bin_refilled s)
    (bin_flush_delay_items s) (fills s) (larges s) (empties s) (choose_shard s) (tc_calls s));;
  cur_offset ← on_cb (cache_bin_preincrement mem 0);
  cur_offset ← init_bins (Z.to_nat nhbins) 0 mem cur_offset;
  init_disabled (Z.to_nat (SC_NBINS - nhbins)) nhbins mem;;
  on_cb (cache_bin_postincrement mem cur_offset).
End tcache.

(** ** Boot *)

(** [nregs]: the number of regions of a slab, for each small class.  The shifts of [unsigned] are by less than 32. *)
Definition tcache_ncached_max_compute (o : tcache_opts) (nregs : list Z) (szind : Z) : outcome Z :=
  if SC_NBINS <=? szind then Done (opt_tcache_nslots_large o)
  else
    slab_nregs ← (nregs !! Z.to_nat szind ?? OutOfBounds);
    let lo := opt_tcache_nslots_small_min o in
    let hi := opt_tcache_nslots_small_max o in
    let hi := if CACHE_BIN_NCACHED_MAX <? hi then CACHE_BIN_NCACHED_MAX else hi in
    let lo := if negb (lo mod 2 =? 0) then u32 (lo + 1) else lo in
    let hi := if negb (hi mod 2 =? 0) then hi - 1 else hi in
    let lo := if lo <? 2 then 2 else lo in
    let hi := if hi <? 2 then 2 else hi in
    let lo := if hi <? lo then hi else lo in
    let mul := opt_lg_tcache_nslots_mul o in
    if 32 <=? Z.abs mul then Fault BadShift
    else
      let candidate := if mul <? 0 then Z.shiftr slab_nregs (- mul) else u32 (Z.shiftl slab_nregs mul) in
      let candidate := if negb (candidate mod 2 =? 0) then u32 (candidate + 1) else candidate in
      Done (if candidate <=? lo then lo else if candidate <=? hi then candidate else hi).

Fixpoint boot_infos (o : tcache_opts) (nregs : list Z) (nhbins : Z) (n : nat) (i : Z) : outcome (list cache_bin_info_t) :=
  match n with
  | O => Done []
  | S n =>
      ncached_max ← (if i <? nhbins then tcache_ncached_max_compute o nregs i else Done 0);
      l ← boot_infos o nregs nhbins n (i + 1);
      Done (cache_bin_info_init ncached_max :: l)
  end.

(** [tcache_maxclass], [nhbins], [tcache_bin_info] and the size and alignment of the stacks; nothing if there is no memory for the descriptions. *)
Definition tcache_boot (T : sz_tables) (o : tcache_opts) (nregs : list Z) (opt_tcache_max : Z) (mtx_err has_memory : bool) :
    outcome (option (Z * Z * list cache_bin_info_t * (Z * Z))) :=
  maxclass ← sz_s2u T opt_tcache_max;
  ind ← sz_size2index T maxclass;
  let nhbins := u32 (ind + 1) in
  if mtx_err then Done None
  else if negb has_memory then Done None
  else
    let n_reserved_bins := if nhbins <? SC_NBINS then SC_NBINS else nhbins in
    infos ← boot_infos o nregs nhbins (Z.to_nat n_reserved_bins) 0;
    Done (Some (maxclass, nhbins, infos, cache_bin_info_compute_alloc (take (Z.to_nat nhbins) infos))).
