(* ===== verification/TcacheFlush.v ===== *)
(** * Flushing a thread cache

    A flush goes over the objects in rounds: each round locks the arena or the bin of the first object that is left, gives
    back the objects that belong there and moves the others to the front.  Every object is given back once, under the right lock. *)
From stdpp Require Import base list gmap numbers.
From S2P Require Import Prelude BitUtil SizeClass Sz CacheBin CacheBinOps CacheBinTheorems Tcache.

(** ** States that differ by a flush *)

(** A bin without its statistics. *)
Definition stack_of : cache_bin_t → cache_bin_t := set_nrequests 0.

(** The calls [cs], words among the [n] at [x], the statistics of bins, and what the arenas answer: nothing else has changed. *)
Record flushed (x n : Z) (s s' : tc_mem) (cs : list tc_call) : Prop := {
  fl_words : touched x n (words (cb s)) (words (cb s'));
  fl_bins : stack_of <$> bins (cb s') = stack_of <$> bins (cb s);
  fl_calls : tc_calls s' = tc_calls s ++ cs;
  fl_slow : slow_arena s' = slow_arena s ∧ next_gc_bin s' = next_gc_bin s ∧ lg_fill_div s' = lg_fill_div s ∧
    bin_refilled s' = bin_refilled s ∧ bin_flush_delay_items s' = bin_flush_delay_items s;
  fl_asked : fills s' = fills s ∧ larges s' = larges s
}.

Lemma flushed_refl x n s : flushed x n s s [].
Proof. split; [done|done|by rewrite app_nil_r|done|done]. Qed.

Lemma flushed_trans x n s1 s2 s3 c1 c2 : flushed x n s1 s2 c1 → flushed x n s2 s3 c2 → flushed x n s1 s3 (c1 ++ c2).
Proof.
  intros [A1 A2 A3 A4 A5] [B1 B2 B3 B4 B5]. split; [by eapply touched_trans|congruence| |intuition congruence|intuition congruence].
  by rewrite B3, A3, app_assoc.
Qed.

Lemma flushed_do x n s c : flushed x n s (tc_add c s) [c].
Proof. by split. Qed.

Lemma flushed_mapped x n s s' cs y j : flushed x n s s' cs → mapped (words (cb s)) y j → mapped (words (cb s')) y j.
Proof. intros F. apply (touched_mapped x n). apply F. Qed.

Lemma on_cb_ok {A} (m : M cb_mem A) s (r : A) c : m (cb s) = Done (r, c) → on_cb m s = Done (r, set_cb c s).
Proof. apply zoom_done. Qed.

Lemma set_cb_id s : set_cb (cb s) s = s.
Proof. by destruct s. Qed.

Lemma on_cb_read {A} (m : M cb_mem A) s (r : A) : m (cb s) = Done (r, cb s) → on_cb m s = Done (r, s).
Proof. intros E. by rewrite (on_cb_ok _ _ _ _ E), set_cb_id. Qed.

Lemma flushed_bin x n s s' cs p : flushed x n s s' cs → is_Some (bins (cb s) !! p) → is_Some (bins (cb s') !! p).
Proof.
  intros F [b Eb]. assert (H : (stack_of <$> bins (cb s')) !! p = Some (stack_of b)) by (by rewrite (fl_bins _ _ _ _ _ F), lookup_fmap, Eb).
  rewrite lookup_fmap in H. by destruct (bins (cb s') !! p).
Qed.

(** ** The discipline of calls *)

Section flush.
Context (edata_of arena_ind binshard : Z → Z) (arena_is_auto : Z → bool).

(** What holds when a call is made: the lock held after it, nothing if it must not be made. *)
Definition lock_step (held : option (bool * Z * Z)) (c : tc_call) : option (option (bool * Z * Z)) :=
  match c with
  | TcLock sm a sh => if decide (held = None) then Some (Some (sm, a, sh)) else None
  | TcUnlock sm a sh => if decide (held = Some (sm, a, sh)) then Some None else None
  | TcDalloc true a sh e ptr =>
      if decide (held = Some (true, a, sh) ∧ e = edata_of ptr ∧ a = arena_ind e ∧ sh = binshard e) then Some held else None
  | TcDalloc false a sh e ptr => if decide (held = None ∧ e = edata_of ptr ∧ a = arena_ind e) then Some held else None
  | TcLargePrep e => if decide (held = if arena_is_auto (arena_ind e) then None else Some (false, arena_ind e, 0)) then Some held else None
  | TcSlabDalloc _ | TcDecayTicks _ _ | TcFill _ _ _ | TcLargeMalloc _ _ | TcArenaDallocSmall _ => if decide (held = None) then Some held else None
  | TcNflushes a _ => match held with Some (true, a', _) => if decide (a = a') then Some held else None | _ => None end
  | _ => Some held
  end.

Fixpoint locks (held : option (bool * Z * Z)) (cs : list tc_call) : option (option (bool * Z * Z)) :=
  match cs with [] => Some held | c :: cs => held' ← lock_step held c; locks held' cs end.

Lemma locks_app h c1 c2 : locks h (c1 ++ c2) = locks h c1 ≫= λ h', locks h' c2.
Proof. revert h. induction c1 as [|c c1 IH]; intros h; [done|]. cbn. destruct (lock_step h c); [apply IH|done]. Qed.

Lemma locks_then h c1 h' c2 : locks h c1 = Some h' → locks h (c1 ++ c2) = locks h' c2.
Proof. intros E. by rewrite locks_app, E. Qed.
Lemma lock_free sm a z : locks None [TcLock sm a z] = Some (Some (sm, a, z)).
Proof. cbn. by rewrite decide_True. Qed.
Lemma unlock_held sm a z : locks (Some (sm, a, z)) [TcUnlock sm a z] = Some None.
Proof. cbn. by rewrite decide_True. Qed.

(** The objects given back and the descriptors prepared for it. *)
Definition given (cs : list tc_call) : list Z :=
  omap (λ c, match c with TcDalloc _ _ _ _ ptr | TcArenaDallocSmall ptr => Some ptr | _ => None end) cs.
Definition prepped (cs : list tc_call) : list Z := omap (λ c, match c with TcLargePrep e => Some e | _ => None end) cs.

Lemma given_app c1 c2 : given (c1 ++ c2) = given c1 ++ given c2.
Proof. apply omap_app. Qed.
Lemma prepped_app c1 c2 : prepped (c1 ++ c2) = prepped c1 ++ prepped c2.
Proof. apply omap_app. Qed.

Definition nonnull (l : list Z) : list Z := List.filter (λ x, negb (x =? 0)) l.

(** What the arenas have handed out. *)
Definition got (cs : list tc_call) : list Z :=
  cs ≫= λ c, match c with TcFill _ _ l => l | TcLargeMalloc _ r => nonnull [r] | _ => [] end.

Lemma got_app c1 c2 : got (c1 ++ c2) = got c1 ++ got c2.
Proof. apply bind_app. Qed.

(** A list is, up to order, what passes a test and what does not. *)
Lemma filter_split (f : Z → bool) l : List.filter f l ++ List.filter (λ x, negb (f x)) l ≡ₚ l.
Proof.
  induction l as [|x l IH]; [done|]. cbn. destruct (f x); cbn; [by rewrite IH|]. by rewrite <- Permutation_middle, IH.
Qed.

(** [item_edata] holds the descriptors of the objects [l] from [i] on. *)
Definition items_at (items : list Z) (i : Z) (l : list Z) : Prop :=
  ∀ k v, l !! k = Some v → items !! (Z.to_nat i + k)%nat = Some (edata_of v).

Lemma items_at_cons items i v l : 0 ≤ i → items_at items i (v :: l) → items !! Z.to_nat i = Some (edata_of v) ∧ items_at items (i + 1) l.
Proof.
  intros Hi H. split.
  - specialize (H 0%nat v eq_refl). by rewrite Nat.add_0_r in H.
  - intros k w Hk. specialize (H (S k) w Hk). by replace (Z.to_nat (i + 1) + k)%nat with (Z.to_nat i + S k)%nat by lia.
Qed.

Section round.
Context (ptrs N : Z) (Hptrs : 0 ≤ ptrs) (Hend : ptrs + 8 * N ≤ 2 ^ 64) (HN : N ≤ 8191).
Context (ar sh : Z).

Definition accept (small : bool) (x : Z) : bool := tcache_bin_flush_match arena_ind binshard (edata_of x) ar sh small.
Definition accepted (small : bool) (l : list Z) : list Z := List.filter (accept small) l.
Definition rejected (small : bool) (l : list Z) : list Z := List.filter (λ x, negb (accept small x)) l.

Definition dallocs (small : bool) (l : list Z) : list tc_call := map (λ x, TcDalloc small ar sh (edata_of x) x) l.

Lemma given_dallocs small l : given (dallocs small l) = l.
Proof. induction l as [|x l IH]; [done|]. cbn. by f_equal. Qed.
Lemma prepped_dallocs small l : prepped (dallocs small l) = [].
Proof. by induction l. Qed.

Lemma slot i : 0 ≤ i < N → u64 (ptrs + i * SIZEOF_PTR) = ptrs + 8 * i.
Proof. intros Hi. unfold SIZEOF_PTR. rewrite u64_small; [lia|unfold is_u64; lia]. Qed.

Lemma flush_scan_ok small R : ∀ i s D items slabs,
  0 ≤ i → i + len R ≤ N → len D ≤ i → i + len R ≤ len items →
  mapped (words (cb s)) ptrs N → words_at (words (cb s)) ptrs D → words_at (words (cb s)) (ptrs + 8 * i) R →
  items_at items 0 D → items_at items i R →
  ∃ s' items' slabs', flush_scan arena_ind binshard (length R) i small ptrs ar sh items (len D) slabs s =
      Done ((items', len (D ++ rejected small R), slabs'), s') ∧
    flushed ptrs N s s' (dallocs small (accepted small R)) ∧ words_at (words (cb s')) ptrs (D ++ rejected small R) ∧
    items_at items' 0 (D ++ rejected small R) ∧ length items' = length items ∧ bins (cb s') = bins (cb s).
Proof.
  induction R as [|x R IH]; intros i s D items slabs Hi HiN HD Hit Hmap WD WR ID IR.
  { exists s, items, slabs. cbn [rejected List.filter accepted dallocs map]. rewrite app_nil_r. split_and!; try done. apply flushed_refl. }
  rewrite len_cons in *. pose proof (len_nonneg R). apply items_at_cons in IR as [Hx IR]; [|done].
  change (x :: R) with ([x] ++ R) in WR. apply words_at_app in WR as [Wx WR]. change (len [x]) with 1 in WR.
  replace (ptrs + 8 * i + 8 * 1) with (ptrs + 8 * (i + 1)) in WR by lia.
  cbn [length flush_scan]. rewrite (slot i) by lia.
  erewrite bind_done by (apply on_cb_read, load_ok; specialize (Wx 0%nat x eq_refl); by rewrite Z.add_0_r in Wx).
  erewrite bind_done by (apply liftO_done; by rewrite Hx).
  cbn [rejected accepted List.filter]. fold (accepted small R) (rejected small R). fold (accept small x). destruct (accept small x) eqn:Hacc; cbn [negb].
  - erewrite bind_done by reflexivity. set (s1 := tc_add _ s).
    assert (∃ s2 e, (if small then ask_empty else mret false) s1 = Done (e, s2) ∧ cb s2 = cb s ∧
      flushed ptrs N s s2 [TcDalloc small ar sh (edata_of x) x]) as (s2 & e & E2 & C2 & F2).
    { destruct small; (eexists _, _; split; [reflexivity|]; split; [done|by split]). }
    rewrite (bind_done _ _ _ _ _ E2). rewrite <- C2 in Hmap, WD, WR.
    destruct (IH (i + 1) s2 D items (if e then slabs ++ [edata_of x] else slabs)) as (s' & items' & slabs' & E' & F' & W' & I' & L' & B'); try done; [lia..|].
    exists s', items', slabs'. rewrite E'. rewrite C2 in B'. split_and!; try done. by apply (flushed_trans _ _ _ _ _ _ _ F2).
  - rewrite (slot (len D)) by (pose proof (len_nonneg D); lia). pose proof (len_nonneg D) as HD0.
    erewrite bind_done by (apply on_cb_ok, store_ok, Hmap; lia). set (s1 := set_cb _ s).
    assert (Hu : u32 (len D + 1) = len (D ++ [x])) by (rewrite len_app; unfold u32; rewrite Z.mod_small; [done|lia]). rewrite Hu.
    assert (Hw : words (cb s1) = write_words (words (cb s)) (ptrs + 8 * len D) [x]) by done.
    assert (F1 : flushed ptrs N s s1 []).
    { split; [|done|by rewrite app_nil_r|done|done]. rewrite Hw. eapply touched_sub; [apply touched_write|lia|]. change (len [x]) with 1. lia. }
    destruct (IH (i + 1) s1 (D ++ [x]) (<[Z.to_nat (len D):=edata_of x]> items) slabs) as (s' & items' & slabs' & E' & F' & W' & I' & L' & B'); try done.
    + lia.
    + lia.
    + rewrite len_app. change (len [x]) with 1. lia.
    + unfold len in *. rewrite length_insert. lia.
    + eapply flushed_mapped; [exact F1|done].
    + rewrite Hw. apply words_at_app. split; [apply words_at_write; [done|left; lia]|apply write_words_in].
    + rewrite Hw. apply words_at_write; [done|right]. change (len [x]) with 1. lia.
    + intros k v [Hk|[Hk Hk']]%lookup_app_Some.
      * rewrite list_lookup_insert_ne; [by apply ID|]. apply lookup_lt_Some in Hk. unfold len in *. lia.
      * apply list_lookup_singleton_Some in Hk' as [? <-]. replace (Z.to_nat 0 + k)%nat with (Z.to_nat (len D)) by (unfold len; lia).
        apply list_lookup_insert_eq. unfold len in *. lia.
    + intros k v Hk. rewrite list_lookup_insert_ne; [by apply IR|]. unfold len in *. lia.
    + exists s', items', slabs'. rewrite E'. rewrite <- app_assoc in *. rewrite length_insert in L'. split_and!; try done.
      by apply (flushed_trans _ _ _ _ _ _ _ F1).
Qed.

Definition preps (l : list Z) : list tc_call := map (λ x, TcLargePrep (edata_of x)) l.

Lemma given_preps l : given (preps l) = [].
Proof. by induction l. Qed.
Lemma prepped_preps l : prepped (preps l) = map edata_of l.
Proof. induction l as [|x l IH]; [done|]. cbn. by f_equal. Qed.

Lemma flush_prep_ok R i s items :
  0 ≤ i → i + len R ≤ N → mapped (words (cb s)) ptrs N → items_at items i R →
  ∃ s', flush_prep arena_ind binshard (length R) i ptrs ar sh items s = Done (tt, s') ∧
    flushed ptrs N s s' (preps (accepted false R)) ∧ cb s' = cb s.
Proof.
  revert i s. induction R as [|x R IH]; intros i s Hi HiN Hmap IR.
  { exists s. split_and!; [done|apply flushed_refl|done]. }
  rewrite len_cons in *. pose proof (len_nonneg R). apply items_at_cons in IR as [Hx IR]; [|done].
  cbn [length flush_prep]. rewrite (slot i) by lia. destruct (Hmap i) as [v Ev]; [lia|].
  erewrite bind_done by (by apply on_cb_read, load_ok). erewrite bind_done by (apply liftO_done; by rewrite Hx).
  cbn [accepted List.filter]. fold (accepted false R). unfold accept. destruct (tcache_bin_flush_match _ _ (edata_of x) ar sh false).
  - erewrite bind_done by reflexivity. destruct (IH (i + 1) (tc_add (TcLargePrep (edata_of x)) s)) as (s' & E & F & C); [lia|lia|done|done|].
    exists s'. rewrite E. split_and!; [done| |done]. by apply (flushed_trans _ _ _ _ _ [_] _ (flushed_do _ _ _ _)).
  - erewrite bind_done by reflexivity. destruct (IH (i + 1) s) as (s' & E & F & C); [lia|lia|done|done|]. exists s'. by rewrite E.
Qed.

(** What a round calls for the objects [l] that it takes, and what it holds meanwhile. *)
Definition round_calls (small : bool) (nreq : list tc_call) (ticks : Z) (l : list Z) : list tc_call :=
  (if small || negb (arena_is_auto ar) then [TcLock small ar sh] else []) ++ nreq ++
  (if small then [] else preps l ++ if arena_is_auto ar then [] else [TcUnlock false ar sh]) ++
  dallocs small l ++ (if small then [TcUnlock true ar sh] else []) ++ [TcDecayTicks ar ticks].

Lemma locks_dallocs (small : bool) h l :
  h = (if small then Some (true, ar, sh) else None) → Forall (λ x, accept small x = true) l → locks h (dallocs small l) = Some h.
Proof.
  intros -> Hl. induction Hl as [|x l Hx _ IH]; [done|]. cbn [dallocs map locks]. unfold accept, tcache_bin_flush_match in Hx. cbn [lock_step].
  destruct small.
  - apply andb_true_iff in Hx as [Ha%Z.eqb_eq Hs%Z.eqb_eq]. rewrite decide_True by done. exact IH.
  - apply Z.eqb_eq in Hx. rewrite decide_True by done. exact IH.
Qed.

Lemma locks_preps h l :
  h = (if arena_is_auto ar then None else Some (false, ar, 0)) → Forall (λ x, accept false x = true) l → locks h (preps l) = Some h.
Proof.
  intros Hh Hl. induction Hl as [|x l Hx _ IH]; [done|]. cbn [preps map locks lock_step]. unfold accept, tcache_bin_flush_match in Hx.
  apply Z.eqb_eq in Hx. rewrite Hx, decide_True by done. exact IH.
Qed.

Lemma accepted_ok small l : Forall (λ x, accept small x = true) (accepted small l).
Proof. apply list.Forall_forall. intros x Hx. apply list_elem_of_In, List.filter_In in Hx. apply Hx. Qed.

Definition only_requests (small : bool) (cs : list tc_call) : Prop :=
  Forall (λ c, match c with TcNrequests _ _ _ _ => True | TcNflushes a _ => small = true ∧ a = ar | _ => False end) cs.

Lemma only_requests_ok (small : bool) cs :
  only_requests small cs →
  given cs = [] ∧ prepped cs = [] ∧ ∀ h, (small = true → ∃ z, h = Some (true, ar, z)) → locks h cs = Some h.
Proof.
  induction 1 as [|c cs Hc _ (IH1 & IH2 & IH3)]; [done|]. destruct c; try done. destruct Hc as [Hs ->]. split_and!; [done..|].
  intros h Hh. destruct (Hh Hs) as [z ->]. cbn [locks lock_step]. rewrite decide_True by done. by apply IH3.
Qed.

Lemma round_calls_ok (small : bool) nreq ticks l :
  only_requests small nreq → (small = false → sh = 0) → Forall (λ x, accept small x = true) l →
  locks None (round_calls small nreq ticks l) = Some None ∧ given (round_calls small nreq ticks l) = l ∧
  prepped (round_calls small nreq ticks l) = if small then [] else map edata_of l.
Proof.
  intros Hn Hsh Hl. destruct (only_requests_ok small nreq Hn) as (G & P & K). unfold round_calls. split.
  - destruct small; cbn [orb].
    + erewrite locks_then by (by apply lock_free). erewrite locks_then by (apply K; by eexists). rewrite app_nil_l.
      erewrite locks_then by (by apply locks_dallocs). by erewrite locks_then by (by apply unlock_held).
    + rewrite Hsh by done. destruct (arena_is_auto ar) eqn:Ea; cbn [negb].
      * cbn [app]. erewrite locks_then by by apply K. rewrite app_nil_r. erewrite locks_then by (apply locks_preps; [by rewrite Ea|done]).
        by erewrite locks_then by (by apply locks_dallocs).
      * erewrite locks_then by (by apply lock_free). erewrite locks_then by by apply K. rewrite <- app_assoc.
        erewrite locks_then by (apply locks_preps; [by rewrite Ea|done]). erewrite locks_then by (by apply unlock_held).
        by erewrite locks_then by (by apply locks_dallocs).
  - rewrite !given_app, !prepped_app, G, P, given_dallocs, prepped_dallocs. destruct small; cbn [orb].
    + cbn. by rewrite !app_nil_r.
    + rewrite given_app, prepped_app, given_preps, prepped_preps. destruct (arena_is_auto ar); cbn; by rewrite !app_nil_r.
Qed.
End round.

(** ** The statistics *)

(** What the arenas are told of the requests of the bin [p], and the bins after it. *)
Definition requests (cs : list tc_call) : list (Z * Z) := omap (λ c, match c with TcNrequests _ a _ n => Some (a, n) | _ => None end) cs.

Record told (p : Z) (b : cache_bin_t) (s s' : tc_mem) (cs : list tc_call) (did : bool) : Prop := {
  td_requests : requests cs = if did then [(slow_arena s, nrequests b)] else [];
  td_bins : bins (cb s') = if did then <[p:=set_nrequests 0 b]> (bins (cb s)) else bins (cb s)
}.

Lemma requests_app c1 c2 : requests (c1 ++ c2) = requests c1 ++ requests c2.
Proof. apply omap_app. Qed.

Lemma requests_round ar sh small nreq ticks l : requests (round_calls ar sh small nreq ticks l) = requests nreq.
Proof.
  assert (D : ∀ sm, requests (dallocs ar sh sm l) = []) by (intros sm; induction l as [|x l IH]; [reflexivity|exact IH]).
  assert (P : requests (preps l) = []) by (clear D; induction l as [|x l IH]; [reflexivity|exact IH]).
  unfold round_calls. rewrite !requests_app, D. destruct small; cbn [orb].
  - cbn. by rewrite app_nil_r.
  - rewrite requests_app, P. destruct (arena_is_auto ar); cbn; by rewrite app_nil_r.
Qed.

Lemma got_round ar sh small nreq ticks l : only_requests ar small nreq → got (round_calls ar sh small nreq ticks l) = [].
Proof.
  intros O. assert (Q : got nreq = []) by (induction O as [|c cs Hc _ IH]; [reflexivity|by destruct c]).
  assert (D : ∀ sm, got (dallocs ar sh sm l) = []) by (intros sm; induction l as [|x l IH]; [reflexivity|exact IH]).
  assert (P : got (preps l) = []) by (clear D; induction l as [|x l IH]; [reflexivity|exact IH]).
  unfold round_calls. rewrite !got_app, D, Q. destruct small; cbn [orb]; [done|]. rewrite got_app, P. by destruct (arena_is_auto ar).
Qed.

Lemma merge_requests_ok small p ar s b x n :
  bins (cb s) !! p = Some b →
  ∃ s', merge_nrequests small p ar s = Done (tt, s') ∧ flushed x n s s' [TcNrequests small ar p (nrequests b)] ∧
    words (cb s') = words (cb s) ∧ bins (cb s') = <[p:=set_nrequests 0 b]> (bins (cb s)).
Proof.
  intros Eb. unfold merge_nrequests. erewrite bind_done by (by apply on_cb_read, bin_at_ok). erewrite bind_done by reflexivity.
  erewrite on_cb_ok by (by apply (bin_set_ok (cb s))). eexists. split; [reflexivity|]. split; [|done].
  split; [done| |done..]. cbn. rewrite fmap_insert. change (stack_of (set_nrequests 0 b)) with (stack_of b). rewrite <- fmap_insert.
  by rewrite insert_id.
Qed.

(** ** A round *)

Lemma when_do x n (c : bool) call s :
  ∃ s', (if c then tc_do call else mret tt) s = Done (tt, s') ∧ flushed x n s s' (if c then [call] else []) ∧ cb s' = cb s.
Proof. destruct c; eexists; (split; [reflexivity|]); (split; [|done]); [apply flushed_do|apply flushed_refl]. Qed.

(** What the loop knows between rounds: [L] are the objects left. *)
Record left_over (p ptrs N : Z) (s : tc_mem) (items L : list Z) : Prop := {
  lo_room : 0 ≤ ptrs ∧ ptrs + 8 * N ≤ 2 ^ 64 ∧ N ≤ 8191;
  lo_len : len L ≤ N ∧ len L ≤ len items;
  lo_mapped : mapped (words (cb s)) ptrs N;
  lo_words : words_at (words (cb s)) ptrs L;
  lo_items : items_at items 0 L;
  lo_bin : is_Some (bins (cb s) !! p)
}.

Lemma len_rejected ar sh small l : len (rejected ar sh small l) ≤ len l.
Proof. unfold len. pose proof (Permutation_length (filter_split (accept ar sh small) l)) as H. rewrite length_app in H. unfold rejected. lia. Qed.

(** With the count of the flush. *)
Definition merge_calls (small : bool) (ar p n : Z) : list tc_call :=
  (if small then [TcNflushes ar p] else []) ++ [TcNrequests small ar p n].

Lemma merge_flush_ok small p ar s b x n :
  bins (cb s) !! p = Some b →
  ∃ s', merge_flush small p ar s = Done (tt, s') ∧ flushed x n s s' (merge_calls small ar p (nrequests b)) ∧
    words (cb s') = words (cb s) ∧ bins (cb s') = <[p:=set_nrequests 0 b]> (bins (cb s)).
Proof.
  intros Eb. unfold merge_flush. destruct (when_do x n small (TcNflushes ar p) s) as (s1 & E1 & F1 & C1). rewrite (bind_done _ _ _ _ _ E1).
  destruct (merge_requests_ok small p ar s1 b x n) as (s2 & E2 & F2 & W2 & B2); [by rewrite C1|]. exists s2. rewrite C1 in W2, B2.
  split_and!; [done| |done|done]. by apply (flushed_trans _ _ _ _ _ _ _ F1).
Qed.

(** After the rounds, under a lock of its own. *)
Lemma merge_locked_ok (small : bool) p ar s b x n :
  bins (cb s) !! p = Some b →
  ∃ s' cs, with_bin_lock small p ar (merge_flush small p ar) s = Done (tt, s') ∧ flushed x n s s' cs ∧
    words (cb s') = words (cb s) ∧ bins (cb s') = <[p:=set_nrequests 0 b]> (bins (cb s)) ∧
    locks None cs = Some None ∧ given cs = [] ∧ prepped cs = [] ∧ got cs = [] ∧ requests cs = [(ar, nrequests b)].
Proof.
  intros Eb. unfold with_bin_lock. erewrite bind_done by reflexivity.
  destruct (when_do x n small (TcLock true ar (choose_shard s p)) s) as (s1 & E1 & F1 & C1). rewrite (bind_done _ _ _ _ _ E1).
  destruct (merge_flush_ok small p ar s1 b x n) as (s2 & E2 & F2 & W2 & B2); [by rewrite C1|]. rewrite (bind_done _ _ _ _ _ E2).
  destruct (when_do x n small (TcUnlock true ar (choose_shard s p)) s2) as (s3 & E3 & F3 & C3). rewrite C1 in W2, B2. rewrite <- C3 in W2, B2.
  eexists s3, _. split; [exact E3|]. split; [exact (flushed_trans _ _ _ _ _ _ _ F1 (flushed_trans _ _ _ _ _ _ _ F2 F3))|].
  split; [exact W2|]. split; [exact B2|]. clear -small. destruct small; [|done]. cbn.
  by repeat (rewrite decide_True by done; cbn).
Qed.

Lemma merge_when x n p small ar s b (c : bool) :
  bins (cb s) !! p = Some b → slow_arena s = ar ∨ c = false →
  ∃ s' nreq, (if c then merge_flush small p ar else mret tt) s = Done (tt, s') ∧ flushed x n s s' nreq ∧ only_requests ar small nreq ∧
    words (cb s') = words (cb s) ∧ told p b s s' nreq c.
Proof.
  intros Eb Har. destruct c.
  - destruct Har as [<-|]; [|done]. destruct (merge_flush_ok small p (slow_arena s) s b x n Eb) as (s' & E & F & W & B).
    exists s', (merge_calls small (slow_arena s) p (nrequests b)). split_and!; try done; [unfold merge_calls; destruct small; cbn [app]; repeat constructor|].
    split; [by destruct small|done].
  - exists s, []. split_and!; try done; [apply flushed_refl|constructor].
Qed.

Lemma told_same p b s1 s2 s3 s4 cs c :
  told p b s2 s3 cs c → cb s1 = cb s2 → slow_arena s1 = slow_arena s2 → bins (cb s4) = bins (cb s3) → told p b s1 s4 cs c.
Proof. intros [T1 T2] E1 E2 E3. split; [by rewrite E2|by rewrite E1, E3]. Qed.

Lemma prep_when ptrs N ar sh (small : bool) s items L p :
  left_over p ptrs N s items L →
  ∃ s', (if small then mret tt else flush_prep arena_ind binshard (Z.to_nat (len L)) 0 ptrs ar sh items) s = Done (tt, s') ∧
    flushed ptrs N s s' (if small then [] else preps (accepted ar sh false L)) ∧ cb s' = cb s.
Proof.
  intros H. destruct small; [exists s; split_and!; [done|apply flushed_refl|done]|]. rewrite to_nat_len.
  destruct H as [(Hp & He & HN) [Hl1 Hl2] Hm Hw Hi Hb]. by apply (flush_prep_ok ptrs N).
Qed.

Lemma flush_round_ok fuel (small : bool) p ptrs N s items x L merged slabs b :
  let ar := arena_ind (edata_of x) in
  let sh := if small then binshard (edata_of x) else 0 in
  let merge := (slow_arena s =? ar) && negb merged in
  bins (cb s) !! p = Some b → left_over p ptrs N s items (x :: L) →
  ∃ s' items' slabs' nreq ticks,
    flush_rounds arena_ind binshard arena_is_auto (S fuel) small p ptrs (len (x :: L)) items merged slabs s =
      flush_rounds arena_ind binshard arena_is_auto fuel small p ptrs (len (rejected ar sh small (x :: L))) items' (merged || merge) slabs' s' ∧
    flushed ptrs N s s' (round_calls ar sh small nreq ticks (accepted ar sh small (x :: L))) ∧ only_requests ar small nreq ∧
    told p b s s' nreq merge ∧ left_over p ptrs N s' items' (rejected ar sh small (x :: L)).
Proof.
  intros ar sh merge Eb LO. destruct LO as [(Hp & He & HN) [Hl1 Hl2] Hm Hw Hi Hb]. 
  destruct (items_at_cons items 0 x L ltac:(lia) Hi) as [H0 _]. change (Z.to_nat 0) with 0%nat in H0.
  cbn [flush_rounds]. rewrite (proj2 (Z.eqb_neq (len (x :: L)) 0)) by (rewrite len_cons; pose proof (len_nonneg L); lia).
  erewrite bind_done by (apply liftO_done; by rewrite H0). cbv zeta. fold ar. fold sh.
  destruct (when_do ptrs N (small || negb small && negb (arena_is_auto ar)) (TcLock small ar sh) s) as (s1 & E1 & F1 & C1).
  rewrite (bind_done _ _ _ _ _ E1). erewrite bind_done by reflexivity.
  assert (Hs1 : slow_arena s1 = slow_arena s) by apply F1. rewrite Hs1. fold merge.
  destruct (merge_when ptrs N p small ar s1 b merge) as (s2 & nreq & E2 & F2 & O2 & W2 & T2).
  { by rewrite C1. } { unfold merge. destruct (Z.eqb_spec (slow_arena s) ar); [left; congruence|by right]. }
  rewrite (bind_done _ _ _ _ _ E2).
  assert (LO2 : left_over p ptrs N s2 items (x :: L)).
  { split; try done; [by rewrite W2, C1|by rewrite W2, C1|]. apply (flushed_bin _ _ _ _ _ _ F2). by rewrite C1. }
  destruct (prep_when ptrs N ar sh small s2 items (x :: L) p LO2) as (s3 & E3 & F3 & C3). rewrite (bind_done _ _ _ _ _ E3).
  destruct (when_do ptrs N (negb small && negb (arena_is_auto ar)) (TcUnlock false ar sh) s3) as (s4 & E4 & F4 & C4).
  rewrite (bind_done _ _ _ _ _ E4), to_nat_len.
  destruct (flush_scan_ok ptrs N Hp He HN ar sh small (x :: L) 0 s4 [] items slabs) as (s5 & items' & slabs' & E5 & F5 & W5 & I5 & L5 & B5);
    [done|lia|done|lia|by rewrite C4, C3, W2, C1|by intros k v|rewrite Z.mul_0_r, Z.add_0_r, C4, C3; apply LO2|by intros k v|done|].
  cbn [app] in E5, W5, I5. change (len []) with 0 in E5.
  rewrite (bind_done _ _ _ _ _ E5). cbv beta iota.
  destruct (when_do ptrs N small (TcUnlock true ar sh) s5) as (s6 & E6 & F6 & C6). rewrite (bind_done _ _ _ _ _ E6).
  erewrite bind_done by reflexivity. set (ticks := u32 _). set (s7 := tc_add _ s6).
  assert (F7 : flushed ptrs N s6 s7 [TcDecayTicks ar ticks]) by apply flushed_do.
  exists s7, items', slabs', nreq, ticks. split; [reflexivity|].
  assert (T : told p b s s7 nreq merge).
  { apply (told_same p b s s1 s2 s7 nreq merge T2); [by symmetry|by symmetry|]. change (cb s7) with (cb s6). rewrite C6.
    by rewrite B5, C4, C3. }
  split_and!; [|exact O2|exact T|].
  - pose proof (flushed_trans _ _ _ _ _ _ _ F1 (flushed_trans _ _ _ _ _ _ _ F2 (flushed_trans _ _ _ _ _ _ _ F3
      (flushed_trans _ _ _ _ _ _ _ F4 (flushed_trans _ _ _ _ _ _ _ F5 (flushed_trans _ _ _ _ _ _ _ F6 F7)))))) as F.
    unfold round_calls. destruct small; cbn [negb andb orb] in *; [exact F|].
    destruct (arena_is_auto ar); cbn [negb] in *; rewrite <- app_assoc; exact F.
  - assert (F47 : flushed ptrs N s4 s7 _) by exact (flushed_trans _ _ _ _ _ _ _ F5 (flushed_trans _ _ _ _ _ _ _ F6 F7)).
    pose proof (len_rejected ar sh small (x :: L)). split.
    + done.
    + unfold len in *. rewrite L5. lia.
    + apply (flushed_mapped _ _ _ _ _ _ _ F47). by rewrite C4, C3, W2, C1.
    + change (cb s7) with (cb s6). by rewrite C6.
    + done.
    + apply (flushed_bin _ _ _ _ _ _ F47). rewrite C4, C3. apply LO2.
Qed.

(** ** The rounds *)

(** The calls [cs] give back each object of [l] once, each under the lock of its place, end with no lock held, and ask for nothing. *)
Definition returned (small : bool) (cs : list tc_call) (l : list Z) : Prop :=
  locks None cs = Some None ∧ given cs ≡ₚ l ∧ (prepped cs ≡ₚ if small then [] else map edata_of l) ∧ got cs = [].

Lemma returned_app small c1 c2 l1 l2 l :
  returned small c1 l1 → returned small c2 l2 → l1 ++ l2 ≡ₚ l → returned small (c1 ++ c2) l.
Proof.
  intros (A1 & A2 & A3 & A4) (B1 & B2 & B3 & B4) H. unfold returned. rewrite (locks_then _ _ _ _ A1), given_app, prepped_app, got_app, A4.
  split_and!; [done|by rewrite A2, B2| |done]. rewrite A3, B3. destruct small; [done|]. by rewrite <- H, map_app.
Qed.

Lemma told_app p b b' s s1 s2 c1 c2 d1 d2 :
  told p b s s1 c1 d1 → told p b' s1 s2 c2 d2 → slow_arena s1 = slow_arena s → (d1 = true → d2 = false) → (d1 = false → b' = b) →
  told p b s s2 (c1 ++ c2) (d1 || d2).
Proof.
  intros [A1 A2] [B1 B2] Es H1 H2. destruct d1; cbn [orb].
  - rewrite H1 in B1, B2 by done. split; [by rewrite requests_app, A1, B1|by rewrite B2, A2].
  - rewrite H2 in B1, B2 by done. split; [by rewrite requests_app, A1, B1, Es|by rewrite B2, A2].
Qed.

Lemma rejected_shorter (small : bool) x L :
  (length (rejected (arena_ind (edata_of x)) (if small then binshard (edata_of x) else 0) small (x :: L)) ≤ length L)%nat.
Proof.
  unfold rejected. cbn [List.filter]. replace (accept _ _ small x) with true; [|].
  - cbn [negb]. apply List.filter_length_le.
  - unfold accept, tcache_bin_flush_match. destruct small; by rewrite !Z.eqb_refl.
Qed.

Lemma flush_rounds_ok (small : bool) p ptrs N fuel : ∀ s items L merged slabs b,
  (length L ≤ fuel)%nat → bins (cb s) !! p = Some b → left_over p ptrs N s items L →
  ∃ s' slabs' did cs,
    flush_rounds arena_ind binshard arena_is_auto fuel small p ptrs (len L) items merged slabs s = Done ((merged || did, slabs'), s') ∧
    flushed ptrs N s s' cs ∧ (merged = true → did = false) ∧ told p b s s' cs did ∧ returned small cs L.
Proof.
  induction fuel as [|fuel IH]; intros s items L merged slabs b Hf Eb LO.
  - destruct L; [|cbn in Hf; lia]. exists s, slabs, false, []. rewrite orb_false_r. split_and!; try done; [apply flushed_refl|].
    unfold returned. by destruct small.
  - destruct L as [|x L].
    { exists s, slabs, false, []. rewrite orb_false_r. split_and!; try done; [apply flushed_refl|]. unfold returned. by destruct small. }
    destruct (flush_round_ok fuel small p ptrs N s items x L merged slabs b Eb LO) as (s1 & items1 & slabs1 & nreq & ticks & E & F & O & T & LO1).
    set (ar := arena_ind _) in *. set (sh := if small then _ else _) in *. set (merge := _ && negb merged) in *. rewrite E.
    destruct (lo_bin _ _ _ _ _ _ LO1) as [b1 Eb1]. pose proof (rejected_shorter small x L) as Hr. fold ar sh in Hr.
    destruct (IH s1 items1 (rejected ar sh small (x :: L)) (merged || merge) slabs1 b1) as (s2 & slabs2 & did & cs & E2 & F2 & D2 & T2 & R2);
      [cbn [length] in Hf; lia|done|done|].
    exists s2, slabs2, (merge || did), (round_calls ar sh small nreq ticks (accepted ar sh small (x :: L)) ++ cs).
    rewrite E2, orb_assoc. split_and!; [done|by eapply flushed_trans| | |].
    + intros ->. unfold merge. rewrite andb_false_r. by apply D2.
    + apply (told_app p b b1 s s1 s2); [|done|apply F| |].
      * split; [rewrite requests_round|]; apply T.
      * intros ->. apply D2, orb_true_r.
      * intros Hm. pose proof (td_bins _ _ _ _ _ _ T) as Hb. rewrite Hm in Hb. congruence.
    + destruct (round_calls_ok ar sh small nreq ticks (accepted ar sh small (x :: L)) O) as (K1 & K2 & K3); [by intros ->|apply accepted_ok|].
      apply (returned_app small _ _ (accepted ar sh small (x :: L)) _ _) with (2 := R2); [|apply filter_split].
      unfold returned. by rewrite K1, K2, K3, got_round.
Qed.

(** ** The whole flush *)

Lemma dalloc_slabs_ok x n slabs : ∀ s,
  ∃ s', dalloc_slabs slabs s = Done (tt, s') ∧ flushed x n s s' (map TcSlabDalloc slabs) ∧ cb s' = cb s.
Proof.
  induction slabs as [|e slabs IH]; intros s.
  - exists s. split_and!; [done|apply flushed_refl|done].
  - cbn [dalloc_slabs map]. erewrite bind_done by reflexivity. destruct (IH (tc_add (TcSlabDalloc e) s)) as (s' & E & F & C).
    exists s'. split_and!; [done| |done]. by apply (flushed_trans _ _ _ _ _ [_] _ (flushed_do _ _ _ _)).
Qed.

Lemma returned_quiet small cs : locks None cs = Some None → given cs = [] → prepped cs = [] → got cs = [] → returned small cs [].
Proof. intros H1 H2 H3 H4. unfold returned. rewrite H1, H2, H3, H4. by destruct small. Qed.

Lemma returned_slabs small slabs : returned small (map TcSlabDalloc slabs) [] ∧ requests (map TcSlabDalloc slabs) = [].
Proof.
  assert (H : locks None (map TcSlabDalloc slabs) = Some None ∧ given (map TcSlabDalloc slabs) = [] ∧
    prepped (map TcSlabDalloc slabs) = [] ∧ got (map TcSlabDalloc slabs) = [] ∧ requests (map TcSlabDalloc slabs) = []).
  { induction slabs as [|e slabs IH]; [done|exact IH]. }
  destruct H as (H1 & H2 & H3 & H4 & H5). by split; [apply returned_quiet|].
Qed.

Lemma flush_impl_ok (small : bool) p arr L s b :
  bins (cb s) !! p = Some b → 0 ≤ arr_ptr arr → arr_ptr arr + 8 * len L ≤ 2 ^ 64 → len L ≤ 8191 → words_at (words (cb s)) (arr_ptr arr) L →
  ∃ s' cs, tcache_bin_flush_impl edata_of arena_ind binshard arena_is_auto p arr (len L) small s = Done (tt, s') ∧
    flushed (arr_ptr arr) (len L) s s' cs ∧ told p b s s' cs true ∧ returned small cs L.
Proof.
  intros Eb Hp He HL Hw. unfold tcache_bin_flush_impl, tcache_bin_flush_edatas_lookup. rewrite to_nat_len.
  erewrite bind_done by (erewrite bind_done by (by apply on_cb_read, load_n_ok); reflexivity).
  destruct (flush_rounds_ok small p (arr_ptr arr) (len L) (length L) s (map edata_of L) L false [] b) as (s1 & slabs & did & cs & E1 & F1 & _ & T1 & R1);
    [lia|done| |].
  { split; [done| | |done| |by exists b].
    - unfold len. by rewrite length_map.
    - intros k Hk. destruct (lookup_lt_is_Some_2 L (Z.to_nat k)) as [v Ev]; [unfold len in Hk; lia|].
      exists v. specialize (Hw _ _ Ev). by rewrite Z2Nat.id in Hw by lia.
    - intros k v Hk. change ((edata_of <$> L) !! k = Some (edata_of v)). by rewrite list_lookup_fmap, Hk. }
  rewrite (bind_done _ _ _ _ _ E1). cbv beta iota. cbn [orb].
  destruct (dalloc_slabs_ok (arr_ptr arr) (len L) slabs s1) as (s2 & E2 & F2 & C2). rewrite (bind_done _ _ _ _ _ E2).
  erewrite bind_done by reflexivity. destruct (returned_slabs small slabs) as [R2 Q2].
  pose proof (flushed_trans _ _ _ _ _ _ _ F1 F2) as F12. pose proof (returned_app _ _ _ _ _ L R1 R2 ltac:(by rewrite app_nil_r)) as R12.
  assert (T12 : told p b s s2 (cs ++ map TcSlabDalloc slabs) did).
  { split; [rewrite requests_app, Q2, app_nil_r; apply T1|rewrite C2; apply T1]. }
  destruct did; cbn [negb].
  - exists s2, (cs ++ map TcSlabDalloc slabs). by split_and!.
  - assert (Eb2 : bins (cb s2) !! p = Some b) by (by rewrite (td_bins _ _ _ _ _ _ T12)).
    destruct (merge_locked_ok small p (slow_arena s2) s2 b (arr_ptr arr) (len L) Eb2) as (s3 & cs3 & E3 & F3 & W3 & B3 & K1 & K2 & K3 & K4 & K5).
    exists s3, ((cs ++ map TcSlabDalloc slabs) ++ cs3). split_and!; [done|by eapply flushed_trans| |].
    + apply (told_app p b b s s2 s3 _ _ false true T12); [by split|apply F12|done|done].
    + apply (returned_app small _ _ L [] L R12); [by apply returned_quiet|by rewrite app_nil_r].
Qed.
End flush.
