(* ===== verification/TcacheInv.v ===== *)
(** * Thread caches: the invariant, and what one operation does

    What the operations do to the bins of a cache.  Objects come into a cache from its thread and from the
    arenas, and leave it to them; the calls of a step tell which came and went. *)
From stdpp Require Import base list gmap numbers.
From S2P Require Import Prelude BitUtil SizeClass Sz CacheBin CacheBinOps CacheBinTheorems Tcache TcacheFlush.

(** The calls of a step, in which neither the members of [tcache_slow_t] nor what the arenas will answer change. *)
Record after (s s' : tc_mem) (cs : list tc_call) : Prop := {
  af_calls : tc_calls s' = tc_calls s ++ cs;
  af_slow : slow_arena s' = slow_arena s ∧ next_gc_bin s' = next_gc_bin s ∧ lg_fill_div s' = lg_fill_div s ∧
    bin_refilled s' = bin_refilled s ∧ bin_flush_delay_items s' = bin_flush_delay_items s;
  af_asked : fills s' = fills s ∧ larges s' = larges s
}.

Lemma after_refl s : after s s [].
Proof. split; [by rewrite app_nil_r|done..]. Qed.

Lemma after_trans s1 s2 s3 c1 c2 : after s1 s2 c1 → after s2 s3 c2 → after s1 s3 (c1 ++ c2).
Proof. intros [A1 A2 A3] [B1 B2 B3]. split; [by rewrite B1, A1, app_assoc|intuition congruence..]. Qed.

Lemma after_cb s c : after s (set_cb c s) [].
Proof. split; [by rewrite app_nil_r|done..]. Qed.

Lemma after_do s c : after s (tc_add c s) [c].
Proof. by split. Qed.

Lemma flushed_after x n s s' cs : flushed x n s s' cs → after s s' cs.
Proof. intros F. split; apply F. Qed.

Lemma rep_nrequests m b a n : rep m b a → rep m (set_nrequests n b) a.
Proof. intros [R1 R2 R3 R4 R5 R6 R7 R8 R9 R10 R11 R12]. by split. Qed.

Lemma settled_nrequests m b a n : settled m b a → settled m (set_nrequests n b) a.
Proof. intros [R Hl]. split; [by apply rep_nrequests|done]. Qed.

(** The statistics of a bin do not matter to what it stands for. *)
Lemma family_nrequests s A p b n :
  family s A → bins s !! p = Some b → family (mkCbMem (words s) (<[p:=set_nrequests n b]> (bins s))) A.
Proof.
  intros [F1 F2 F3] Eb. split; cbn [words bins]; [|exact F2|exact F3]. intros q a Hq. destruct (F1 q a Hq) as (bq & Eq & Hs).
  destruct (decide (q = p)) as [->|Hne].
  - rewrite Eb in Eq. injection Eq as <-. exists (set_nrequests n b). rewrite lookup_insert_eq. split; [done|by apply settled_nrequests].
  - exists bq. by rewrite lookup_insert_ne.
Qed.

Section ops.
Context (tcache_bin_info : list cache_bin_info_t).
Context (edata_of arena_ind binshard : Z → Z) (arena_is_auto : Z → bool).

Local Notation returned := (returned edata_of arena_ind binshard arena_is_auto).
Local Notation flush_impl := (tcache_bin_flush_impl edata_of arena_ind binshard arena_is_auto).
Local Notation flush_stashed := (tcache_bin_flush_stashed tcache_bin_info edata_of arena_ind binshard arena_is_auto).
Local Notation flush_bottom := (tcache_bin_flush_bottom tcache_bin_info edata_of arena_ind binshard arena_is_auto).

Lemma bin_info_ok p info s : tcache_bin_info !! Z.to_nat p = Some info → bin_info tcache_bin_info p s = Done (info, s).
Proof. intros E. unfold bin_info. apply liftO_done. by rewrite E. Qed.

Section bin.
Context (s : tc_mem) (A : gmap Z abin) (p : Z) (a : abin) (info : cache_bin_info_t) (small : bool).
Context (F : family (cb s) A) (Ea : A !! p = Some a) (Ei : tcache_bin_info !! Z.to_nat p = Some info) (Hi : info_ncached_max info = ab_max a).

(** Part of the array of a bin is flushed: the bin is as it was, but for its statistics, and the rest of the array too. *)
Lemma flush_part_ok i l b :
  bins (cb s) !! p = Some b → 0 ≤ i → i + len l ≤ ab_max a → words_at (words (cb s)) (ab_lo a + 8 * i) l →
  ∃ s' cs, flush_impl p (mkPtrArray (len l) (ab_lo a + 8 * i)) (len l) small s = Done (tt, s') ∧
    after s s' cs ∧ returned small cs l ∧ touched (ab_lo a + 8 * i) (len l) (words (cb s)) (words (cb s')) ∧
    bins (cb s') = <[p:=set_nrequests 0 b]> (bins (cb s)).
Proof.
  intros Eb H0 Hl Hw. destruct (fm_bins _ _ F p a Ea) as (b' & Eb' & R & _). pose proof (rep_numbers _ _ _ R) as (N1 & N2 & N3 & N4 & N5 & N6 & N7 & N8).
  destruct (flush_impl_ok edata_of arena_ind binshard arena_is_auto small p (mkPtrArray (len l) (ab_lo a + 8 * i)) l s b) as (s' & cs & E & FL & T & R');
    cbn [arr_ptr] in *; [done|lia|lia|lia|done|].
  exists s', cs. split_and!; [done|by eapply flushed_after|done|apply FL|apply (td_bins _ _ _ _ _ _ T)].
Qed.

Lemma flush_stashed_ok :
  ∃ s' cs, flush_stashed p small s = Done (tt, s') ∧ family (cb s') (<[p:=with_stashed [] a]> A) ∧ after s s' cs ∧
    returned small cs (stashed a) ∧ within a (words (cb s)) (words (cb s')).
Proof.
  destruct (fm_bins _ _ F p a Ea) as (b & Eb & R & Hlow). destruct (fm_before _ _ F p a Ea) as [Hlo Hb].
  pose proof (rep_numbers _ _ _ R) as (N1 & N2 & N3 & N4 & N5 & N6 & N7 & N8).
  unfold tcache_bin_flush_stashed. rewrite (bind_done _ _ _ _ _ (bin_info_ok p info s Ei)).
  erewrite bind_done by (by apply on_cb_read, bin_at_ok).
  destruct (rp_mapped _ _ _ R (ab_max a - len (cached a))) as [v Ev]; [lia|].
  erewrite bind_done by (apply on_cb_read, load_ok; rewrite (rp_head _ _ _ R), <- Ev; f_equal; lia).
  erewrite bind_done by (apply on_cb_read; by apply (nstashed_get_ok (cb s) p b a Eb R)).
  destruct (Z.eqb_spec (len (stashed a)) 0) as [E0|E0].
  { assert (Hs : stashed a = []) by (unfold len in E0; by destruct (stashed a)). exists s, []. split; [done|]. split; [|split; [apply after_refl|split; [|by apply touched_refl]]].
    - apply family_same; [done|]. rewrite Ea. f_equal. unfold with_stashed. rewrite <- Hs. by destruct a.
    - rewrite Hs. by apply returned_quiet. }
  unfold cache_bin_init_ptr_array_for_stashed.
  erewrite bind_done by (apply on_cb_read; by erewrite bind_done by (by apply bin_at_ok)).
  rewrite (low_bound_ok _ _ _ R info Hi). cbn [arr_n CACHE_BIN_PTR_ARRAY_DECLARE]. unfold u16. rewrite Z.mod_small by lia.
  replace (ab_lo a) with (ab_lo a + 8 * 0) by lia.
  destruct (flush_part_ok 0 (stashed a) b) as (s1 & cs & E1 & A1 & R1 & W1 & B1); [done|lia|lia|rewrite Z.mul_0_r, Z.add_0_r; apply (rp_stashed _ _ _ R)|].
  rewrite (bind_done _ _ _ _ _ E1).
  set (s0 := mkCbMem (words (cb s)) (<[p:=set_nrequests 0 b]> (bins (cb s)))).
  assert (F0 : family s0 A) by (by apply family_nrequests).
  destruct (finish_flush_stashed_ok s0 p (set_nrequests 0 b) a (lookup_insert_eq _ _ _) (rep_nrequests _ _ _ 0 R) info (words (cb s1)) Hi Hlow)
    as (c2 & E2 & M2).
  { eapply touched_sub; [exact W1|lia|lia]. }
  { eapply touched_words_at; [exact W1|apply (rp_cached _ _ _ R)|]. right. lia. }
  assert (Hs1 : mkCbMem (words (cb s1)) (bins s0) = cb s1) by (cbn [bins s0]; rewrite <- B1; by destruct (cb s1)).
  rewrite Hs1 in E2. rewrite (on_cb_ok _ _ _ _ E2). exists (set_cb c2 s1), cs. split; [done|]. split; [|split; [|split; [done|]]].
  - exact (family_moved _ _ _ _ _ _ _ F0 Ea M2).
  - rewrite <- (app_nil_r cs). eapply after_trans; [exact A1|apply after_cb].
  - by destruct M2 as (m' & b' & -> & _ & _ & _ & W2 & _).
Qed.
End bin.

(** What is left of a bin of which the bottom is flushed. *)
Definition bottom_flushed (rem : Z) (a : abin) : abin :=
  mkABin (ab_lo a) (ab_max a) (take (Z.to_nat rem) (cached a)) [] (Z.min (low_water a) rem).

Lemma flush_bottom_ok s A p a info small rem :
  family (cb s) A → A !! p = Some a → tcache_bin_info !! Z.to_nat p = Some info → info_ncached_max info = ab_max a → 0 ≤ rem ≤ len (cached a) →
  ∃ s' cs, flush_bottom p rem small s = Done (tt, s') ∧ family (cb s') (<[p:=bottom_flushed rem a]> A) ∧ after s s' cs ∧
    returned small cs (stashed a ++ drop (Z.to_nat rem) (cached a)).
Proof.
  intros F Ea Ei Hi Hrem. destruct (flush_stashed_ok s A p a info small F Ea Ei Hi) as (s1 & c1 & E1 & F1 & A1 & R1 & _).
  unfold tcache_bin_flush_bottom. rewrite (bind_done _ _ _ _ _ E1). set (a1 := with_stashed [] a) in *.
  assert (Ea1 : <[p:=a1]> A !! p = Some a1) by apply lookup_insert_eq.
  destruct (fm_bins _ _ F1 p a1 Ea1) as (b & Eb & R & Hlow).
  pose proof (rep_numbers _ _ _ R) as (N1 & N2 & N3 & N4 & N5 & N6 & N7 & N8). change (cached a1) with (cached a) in *. change (len (stashed a1)) with 0 in *.
  erewrite bind_done by (by apply on_cb_read, bin_at_ok). cbv zeta. unfold cache_bin_ncached_get_local. rewrite (ncached_ok _ _ _ R).
  change (cached a1) with (cached a). set (n := len (cached a) - rem).
  assert (Hn : u32 n = n ∧ u16 n = n) by (unfold u32, u16, n; rewrite !Z.mod_small by lia; done). destruct Hn as [Hn32 Hn16]. rewrite Hn32, Hn16.
  set (l := drop (Z.to_nat rem) (cached a)). assert (Hl : len l = n) by (unfold l, n, len in *; rewrite length_drop; lia).
  set (i := ab_max a1 - n). assert (Hptr : u64 (cache_bin_empty_position_get b - n * SIZEOF_PTR) = ab_lo a1 + 8 * i)
    by (rewrite (empty_position_ok _ _ _ R); unfold SIZEOF_PTR, i, n; rewrite u64_small; [lia|unfold is_u64; lia]).
  unfold cache_bin_init_ptr_array_for_flush.
  erewrite bind_done by (apply on_cb_read; by erewrite bind_done by (by apply bin_at_ok)).
  cbn [arr_n CACHE_BIN_PTR_ARRAY_DECLARE]. rewrite Hptr, Hn16, <- Hl.
  destruct (flush_part_ok s1 (<[p:=a1]> A) p a1 small F1 Ea1 i l b) as (s2 & c2 & E2 & A2 & R2 & W2 & B2); [done|unfold i, n; lia|unfold i; lia| |].
  { replace (ab_lo a1 + 8 * i) with (ab_end a1 - 8 * len (cached a) + 8 * Z.of_nat (Z.to_nat rem)) by (unfold i, n; lia).
    apply words_at_drop; [unfold len in *; lia|apply (rp_cached _ _ _ R)]. }
  rewrite (bind_done _ _ _ _ _ E2). rewrite Hl.
  set (s0 := mkCbMem (words (cb s1)) (<[p:=set_nrequests 0 b]> (bins (cb s1)))).
  assert (F0 : family s0 (<[p:=a1]> A)) by (by apply family_nrequests).
  assert (Hk : len (cached a) - n = rem) by (unfold n; lia).
  destruct (finish_flush_ok s0 p (set_nrequests 0 b) a1 (lookup_insert_eq _ _ _) (rep_nrequests _ _ _ 0 R) n (words (cb s2))) as (c3 & E3 & M3).
  { change (cached a1) with (cached a). unfold n. lia. }
  { eapply touched_sub; [exact W2|unfold i, n; lia|unfold i; lia]. }
  { eapply touched_words_at; [exact W2|apply words_at_take, (rp_cached _ _ _ R)|]. left. change (cached a1) with (cached a). rewrite Hk. unfold len at 2.
    rewrite length_take. unfold i, n, len in *. lia. }
  { by intros k v. }
  assert (Hs2 : mkCbMem (words (cb s2)) (bins s0) = cb s2) by (cbn [bins s0]; rewrite <- B2; by destruct (cb s2)).
  rewrite Hs2 in E3. erewrite on_cb_ok by exact E3. exists (set_cb c3 s2), (c1 ++ c2). split_and!; [done| | |].
  - pose proof (family_moved _ _ _ _ _ _ _ F0 Ea1 M3) as F3. rewrite insert_insert_eq in F3. cbn zeta in F3. 
    change (cached a1) with (cached a) in F3. rewrite Hk in F3.
    assert (Hlen : len (take (Z.to_nat rem) (cached a)) = rem) by (unfold len in *; rewrite length_take; lia). rewrite Hlen in F3. exact F3.
  - rewrite <- (app_nil_r (c1 ++ c2)). eapply after_trans; [eapply after_trans; [exact A1|exact A2]|apply after_cb].
  - by apply (returned_app _ _ _ _ small c1 c2 (stashed a) l).
Qed.
End ops.

(** ** Thread caches: the invariant, and what one operation does *)

(** ** Objects *)

Definition objects (a : abin) : list Z := cached a ++ stashed a.

(** All objects in the bins of a family. *)
Definition held (A : gmap Z abin) : list Z := map_to_list A ≫= λ pa, objects (snd pa).

Lemma nonnull_app l1 l2 : nonnull (l1 ++ l2) = nonnull l1 ++ nonnull l2.
Proof. apply List.filter_app. Qed.

Lemma nonnull_cons v l : 0 ∉ v :: l → nonnull (v :: l) = v :: nonnull l.
Proof. intros H. cbn. destruct (Z.eqb_spec v 0) as [->|]; [|done]. exfalso. apply H. left. Qed.

Lemma nonnull_0 (l : list Z) : 0 ∉ nonnull l.
Proof. intros H. apply list_elem_of_In, List.filter_In in H. by destruct H as [_ H]. Qed.

Lemma held_insert A p a a' :
  A !! p = Some a → ∃ rest, held A ≡ₚ objects a ++ rest ∧ held (<[p:=a']> A) ≡ₚ objects a' ++ rest.
Proof.
  intros E. assert (H : ∀ a', held (<[p:=a']> A) ≡ₚ objects a' ++ held (delete p A)).
  { intros x. rewrite <- insert_delete_eq. unfold held. by rewrite map_to_list_insert by apply lookup_delete_eq. }
  exists (held (delete p A)). split; [|apply H]. by rewrite <- H, insert_id.
Qed.

(** ** The invariant *)

Section inv.
Context (T : sz_tables) (o : tcache_opts) (tcache_bin_info : list cache_bin_info_t) (nhbins : Z).

(** [A] gives the enabled bins.  Nothing is stashed, as nothing is without [config_uaf_detection].
    The shifts by [lg_fill_div] are by no more than the width of the numbers in a bin. *)
Record tc_ok (s : tc_mem) (A : gmap Z abin) : Prop := {
  tk_family : family (cb s) A;
  tk_info : ∀ p a, A !! p = Some a → ∃ info, tcache_bin_info !! Z.to_nat p = Some info ∧ info_ncached_max info = ab_max a ∧ 1 ≤ ab_max a;
  tk_bins : ∀ p, is_Some (A !! p) ↔ 0 ≤ p < nhbins;
  tk_objects : ∀ p a, A !! p = Some a → stashed a = [] ∧ 0 ∉ cached a;
  tk_slow : length (lg_fill_div s) = 36%nat ∧ length (bin_refilled s) = 36%nat ∧ length (bin_flush_delay_items s) = 36%nat;
  tk_next : 0 ≤ next_gc_bin s < nhbins;
  tk_divs : Forall (λ d, 0 ≤ d ≤ 12) (lg_fill_div s);
  tk_fills : Forall (λ l, 0 ∉ l) (fills s)
}.

Section steps.
Context (edata_of arena_ind binshard : Z → Z) (arena_is_auto : Z → bool).
Local Notation locks := (locks edata_of arena_ind binshard arena_is_auto).
Local Notation returned := (returned edata_of arena_ind binshard arena_is_auto).

(** What a part of an operation does apart from the bins: calls with the right locks, and the rest stays well formed. *)
Record evolves (s s' : tc_mem) (cs : list tc_call) : Prop := {
  ev_calls : tc_calls s' = tc_calls s ++ cs;
  ev_locks : locks None cs = Some None;
  ev_slow : length (lg_fill_div s') = length (lg_fill_div s) ∧ length (bin_refilled s') = length (bin_refilled s) ∧
    length (bin_flush_delay_items s') = length (bin_flush_delay_items s);
  ev_next : next_gc_bin s' = next_gc_bin s;
  ev_divs : Forall (λ d, 0 ≤ d ≤ 12) (lg_fill_div s) → Forall (λ d, 0 ≤ d ≤ 12) (lg_fill_div s');
  ev_fills : Forall (λ l, 0 ∉ l) (fills s) → Forall (λ l, 0 ∉ l) (fills s')
}.

Lemma evolves_refl s : evolves s s [].
Proof. split; [by rewrite app_nil_r|done..]. Qed.

Lemma evolves_trans s1 s2 s3 c1 c2 : evolves s1 s2 c1 → evolves s2 s3 c2 → evolves s1 s3 (c1 ++ c2).
Proof.
  intros [A1 A2 A3 A4 A5 A6] [B1 B2 B3 B4 B5 B6].
  split; [by rewrite B1, A1, app_assoc|by rewrite (locks_then _ _ _ _ _ _ _ _ A2)| |congruence|auto|auto].
  intuition congruence.
Qed.

Lemma evolves_after s s' cs : after s s' cs → locks None cs = Some None → evolves s s' cs.
Proof. intros [A1 (A2 & A3 & A4 & A5 & A6) [A7 A8]] H. split; [done|done|by rewrite A4, A5, A6|done|by rewrite A4|by rewrite A7]. Qed.

Lemma evolves_cb s c : evolves s (set_cb c s) [].
Proof. apply evolves_after; [apply after_cb|done]. Qed.

Lemma evolves_do s c : locks None [c] = Some None → evolves s (tc_add c s) [c].
Proof. apply evolves_after, after_do. Qed.

(** What an operation on one bin does: the objects that it took out of the cache, [out], and those that it was given, [inn]. *)
Record on_bin (s s' : tc_mem) (A : gmap Z abin) (p : Z) (a a' : abin) (out inn : list Z) (cs : list tc_call) : Prop := {
  ob_evolves : evolves s s' cs;
  ob_family : family (cb s') (<[p:=a']> A);
  ob_max : ab_max a' = ab_max a;
  ob_stashed : stashed a' = [];
  ob_objects : out ++ cached a' ++ given cs ≡ₚ cached a ++ inn ++ got cs;
  ob_got : 0 ∉ got cs
}.

(** What a step promises of the whole cache. *)
Record conserves (s s' : tc_mem) (A A' : gmap Z abin) (out inn : list Z) (cs : list tc_call) : Prop := {
  cv_ok : tc_ok s' A';
  cv_calls : tc_calls s' = tc_calls s ++ cs;
  cv_locks : locks None cs = Some None;
  cv_objects : out ++ held A' ++ given cs ≡ₚ held A ++ inn ++ got cs
}.

Lemma conserves_refl s A : tc_ok s A → conserves s s A A [] [] [].
Proof. intros K. split; [done|by rewrite app_nil_r|done|done]. Qed.

Lemma conserves_trans s1 s2 s3 A1 A2 A3 o1 o2 i1 i2 c1 c2 :
  conserves s1 s2 A1 A2 o1 i1 c1 → conserves s2 s3 A2 A3 o2 i2 c2 → conserves s1 s3 A1 A3 (o1 ++ o2) (i1 ++ i2) (c1 ++ c2).
Proof.
  intros [_ B2 B3 B4] [C1 C2 C3 C4]. split; [done|by rewrite C2, B2, app_assoc|by rewrite (locks_then _ _ _ _ _ _ _ _ B3)|].
  rewrite given_app, got_app. transitivity (o1 ++ given c1 ++ (o2 ++ held A3 ++ given c2)); [solve_Permutation|]. rewrite C4.
  transitivity ((o1 ++ held A2 ++ given c1) ++ i2 ++ got c2); [solve_Permutation|]. rewrite B4. solve_Permutation.
Qed.

Lemma tc_ok_step s s' A p a a' cs :
  tc_ok s A → A !! p = Some a → evolves s s' cs → family (cb s') (<[p:=a']> A) → ab_max a' = ab_max a → stashed a' = [] → 0 ∉ cached a' →
  tc_ok s' (<[p:=a']> A).
Proof.
  intros [K1 K2 K3 K4 K5 K6 K7 K8] Ea [V1 V2 V3 V4 V5 V6] F Hm Hs Hn.
  split; [exact F| | | |intuition congruence|by rewrite V4|by apply V5|by apply V6].
  - intros q aq. destruct (decide (q = p)) as [->|Hne]; [rewrite lookup_insert_eq; intros [= <-]; rewrite Hm; by apply K2|].
    rewrite lookup_insert_ne by done. apply K2.
  - intros q. rewrite <- K3. destruct (decide (q = p)) as [->|Hne]; [rewrite lookup_insert_eq, Ea; split; by eexists|by rewrite lookup_insert_ne].
  - intros q aq. destruct (decide (q = p)) as [->|Hne]; [rewrite lookup_insert_eq; by intros [= <-]|]. rewrite lookup_insert_ne by done. apply K4.
Qed.

Lemma tc_ok_same s s' A cs : tc_ok s A → evolves s s' cs → family (cb s') A → tc_ok s' A.
Proof. intros [K1 K2 K3 K4 K5 K6 K7 K8] [V1 V2 V3 V4 V5 V6] F. split; [done..|intuition congruence|by rewrite V4|by apply V5|by apply V6]. Qed.

Lemma on_bin_conserves s s' A p a a' out inn cs :
  tc_ok s A → A !! p = Some a → 0 ∉ inn → on_bin s s' A p a a' out inn cs → conserves s s' A (<[p:=a']> A) out inn cs.
Proof.
  intros K Ea Hin [V F Hm Hs P G]. destruct (tk_objects _ _ K p a Ea) as [Hst Hca]. split; [|apply V|apply V|].
  - eapply tc_ok_step; try done. intros H0. assert (H : 0 ∈ out ++ cached a' ++ given cs) by (clear -H0; set_solver).
    rewrite P in H. clear -H Hca Hin G. set_solver.
  - destruct (held_insert A p a a' Ea) as (rest & H1 & H2). rewrite H1, H2. unfold objects. rewrite Hs, Hst, !app_nil_r.
    transitivity ((out ++ cached a' ++ given cs) ++ rest); [solve_Permutation|]. rewrite P. solve_Permutation.
Qed.
End steps.
End inv.
