(* ===== verification/TcacheSteps.v ===== *)
(** * What one operation of a thread cache does *)
From stdpp Require Import base list gmap numbers.
From S2P Require Import Prelude BitUtil SizeClass Sz CacheBin CacheBinOps CacheBinTheorems Tcache TcacheFlush TcacheInv.

Section steps.
Context (T : sz_tables) (o : tcache_opts) (tcache_bin_info : list cache_bin_info_t) (nhbins : Z).
Context (edata_of arena_ind binshard : Z → Z) (arena_is_auto : Z → bool).

(** The options as [jemalloc.c] bounds them, without [config_uaf_detection]. *)
Record tc_config : Prop := {
  cf_uaf : config_uaf_detection o = false;
  cf_small_div : 1 ≤ opt_lg_tcache_flush_small_div o;
  cf_large_div : 1 ≤ opt_lg_tcache_flush_large_div o;
  cf_bins : 0 < nhbins < 2 ^ 32;
  cf_sizes : ∀ p, 0 ≤ p < nhbins → ∃ usize, sz_index2size T p = Done usize ∧ usize ≠ 0
}.

Local Notation tc_ok := (tc_ok tcache_bin_info nhbins).
Local Notation evolves := (evolves edata_of arena_ind binshard arena_is_auto).
Local Notation on_bin := (on_bin edata_of arena_ind binshard arena_is_auto).
Local Notation returned := (returned edata_of arena_ind binshard arena_is_auto).

Context (C : tc_config).

Lemma slow_get_ok {X} (f : tc_mem → list X) i s : 0 ≤ i < Z.of_nat (length (f s)) → ∃ v, f s !! Z.to_nat i = Some v ∧ slow_get f i s = Done (v, s).
Proof.
  intros Hi. destruct (lookup_lt_is_Some_2 (f s) (Z.to_nat i)) as [v Ev]; [lia|]. exists v. split; [done|].
  unfold slow_get. erewrite bind_done by reflexivity. apply liftO_done. by rewrite Ev.
Qed.

Lemma slow_set_ok {X} (f : tc_mem → list X) g i v s :
  0 ≤ i < Z.of_nat (length (f s)) → slow_set f g i v s = Done (tt, g (<[Z.to_nat i:=v]> (f s)) s).
Proof. intros Hi. unfold slow_set. destruct (slow_get_ok f i s Hi) as (w & _ & E). by rewrite (bind_done _ _ _ _ _ E). Qed.

Lemma returned_evolves s s' small cs l : after s s' cs → returned small cs l → evolves s s' cs ∧ given cs ≡ₚ l ∧ got cs = [].
Proof. intros H (R1 & R2 & _ & R4). split; [by apply evolves_after|done]. Qed.

(** The bin that [a] describes. *)
Lemma ok_bin s A p a : tc_ok s A → A !! p = Some a → ∃ b, bins (cb s) !! p = Some b ∧ settled (words (cb s)) b a.
Proof. intros K Ea. exact (fm_bins _ _ (tk_family _ _ _ _ K) p a Ea). Qed.

Lemma on_cb_moved {X} (m : M cb_mem X) s A p b a a' (r : X) c :
  family (cb s) A → A !! p = Some a → m (cb s) = Done (r, c) → moved (cb s) c p b a a' →
  on_cb m s = Done (r, set_cb c s) ∧ family (cb (set_cb c s)) (<[p:=a']> A).
Proof. intros F Ea E H. split; [by apply on_cb_ok|by eapply (family_moved (cb s))]. Qed.

(** Counting a request. *)
Lemma count_request_ok s A p a :
  family (cb s) A → A !! p = Some a → ∃ s', count_request p s = Done (tt, s') ∧ family (cb s') A ∧ evolves s s' [].
Proof.
  intros F Ea. destruct (fm_bins _ _ F p a Ea) as (b & Eb & _). unfold count_request.
  erewrite on_cb_ok by (by apply bin_set_ok). eexists. split; [reflexivity|]. split; [by apply family_nrequests|apply evolves_cb].
Qed.

(** The end of a successful allocation. *)
Lemma finish_ok s A p a (zero : bool) ret :
  family (cb s) A → A !! p = Some a → 0 ≤ p < nhbins →
  ∃ s' cs, ((if zero then usize ← liftO (sz_index2size T p); tc_do (TcMemset ret usize) else mret tt);; count_request p;; mret ret) s = Done (ret, s') ∧
    family (cb s') A ∧ evolves s s' cs ∧ given cs = [] ∧ got cs = [].
Proof.
  intros F Ea Hp. destruct (cf_sizes C p Hp) as (usize & Eu & _).
  assert (∃ s1 cs, (if zero then usize ← liftO (sz_index2size T p); tc_do (TcMemset ret usize) else mret tt) s = Done (tt, s1) ∧ cb s1 = cb s ∧
    evolves s s1 cs ∧ given cs = [] ∧ got cs = []) as (s1 & cs & E1 & C1 & V1 & G1 & G2).
  { destruct zero.
    - erewrite bind_done by (by apply liftO_done). eexists _, [_]. split; [reflexivity|]. split; [done|]. split; [by apply evolves_do|done].
    - exists s, []. split_and!; [done|done|apply evolves_refl|done|done]. }
  rewrite (bind_done _ _ _ _ _ E1). rewrite <- C1 in F. destruct (count_request_ok s1 A p a F Ea) as (s2 & E2 & F2 & V2).
  rewrite (bind_done _ _ _ _ _ E2). exists s2, cs. split_and!; [done|done| |done|done]. rewrite <- (app_nil_r cs). by eapply evolves_trans.
Qed.

Lemma nbins_value : SC_NBINS = 36.
Proof. reflexivity. Qed.

(** ** Allocation *)

(** Taking an object out of a bin. *)
Lemma take_ok s A p a :
  family (cb s) A → A !! p = Some a →
  ∃ ret ok s', on_cb (cache_bin_alloc p) s = Done ((ret, ok), s') ∧ evolves s s' [] ∧
    match cached a with
    | v :: c => ret = v ∧ ok = true ∧ family (cb s') (<[p:=mkABin (ab_lo a) (ab_max a) c (stashed a) (Z.min (low_water a) (len c))]> A)
    | [] => ret = 0 ∧ ok = false ∧ s' = s
    end.
Proof.
  intros F Ea. destruct (fm_bins _ _ F p a Ea) as (b & Eb & R & Hlow).
  destruct (alloc_impl_ok (cb s) p b a Eb R true Hlow) as (r & ok & c & E & H). exists r, ok, (set_cb c s).
  split; [by apply on_cb_ok|]. split; [apply evolves_cb|]. destruct (cached a) as [|v l]; cbn [orb] in H; destruct H as (-> & -> & H).
  - subst c. by rewrite set_cb_id.
  - split_and!; [done|done|]. by eapply (family_moved (cb s)).
Qed.

(** A fill of an empty bin. *)
Lemma fill_ok s A p a arena nfill :
  family (cb s) A → A !! p = Some a → cached a = [] → 0 ≤ nfill → nfill + len (stashed a) ≤ ab_max a →
  let l := take (Z.to_nat nfill) (default [] (head (fills s))) in
  ∃ s' cs, arena_cache_bin_fill_small p nfill arena s = Done (tt, s') ∧ evolves s s' cs ∧ given cs = [] ∧ got cs = l ∧
    family (cb s') (<[p:=mkABin (ab_lo a) (ab_max a) l (stashed a) 0]> A).
Proof.
  intros F Ea Hc H0 Hn l. destruct (fm_bins _ _ F p a Ea) as (b & Eb & R & Hlow). rewrite Hc in Hlow. change (len []) with 0 in Hlow.
  pose proof (rep_numbers _ _ _ R) as (N1 & N2 & N3 & N4 & N5 & N6 & N7 & N8).
  assert (Hl : len l ≤ nfill) by (unfold l, len; rewrite length_take; lia). pose proof (len_nonneg l).
  unfold arena_cache_bin_fill_small, cache_bin_init_ptr_array_for_fill, CACHE_BIN_PTR_ARRAY_DECLARE, SIZEOF_PTR.
  erewrite bind_done by (apply on_cb_read; by erewrite bind_done by (by apply bin_at_ok)). cbn [arr_n arr_ptr]. rewrite (empty_position_ok _ _ _ R).
  assert (Hu : u16 nfill = nfill) by (unfold u16; apply Z.mod_small; lia). rewrite Hu, u64_small by (unfold is_u64; lia).
  replace (ab_end a - nfill * 8) with (ab_lo a + 8 * (ab_max a - nfill)) by lia.
  erewrite bind_done by reflexivity. fold l. set (s1 := tc_add _ (set_fills _ s)).
  assert (V1 : evolves s s1 [TcFill arena p l]).
  { split; [done|done|done|done|done|]. intros Hf. cbn. by destruct Hf. }
  erewrite bind_done by (apply on_cb_ok, store_n_ok; apply (rep_mapped _ _ _ R); lia). set (s2 := set_cb _ s1).
  set (m1 := write_words (words (cb s1)) (ab_lo a + 8 * (ab_max a - nfill)) l).
  assert (R1 : rep m1 b a) by (apply (rep_write_free (cb s) b a R); rewrite ?Hc; change (len []) with 0; lia).
  destruct (merge_requests_ok true p arena s2 b 0 0) as (s3 & E3 & F3 & W3 & B3); [done|]. rewrite (bind_done _ _ _ _ _ E3).
  assert (Hc3 : cb s3 = mkCbMem m1 (<[p:=set_nrequests 0 b]> (bins (cb s)))).
  { change m1 with (words (cb s2)). rewrite <- W3. change (bins (cb s)) with (bins (cb s2)). rewrite <- B3. by destruct (cb s3). }
  assert (Hu2 : u16 (Z.of_nat (length l)) = len l) by (unfold u16; apply Z.mod_small; unfold len in *; lia). rewrite Hu2.
  destruct (finish_fill_ok (cb s3) p (set_nrequests 0 b) a) with (n := nfill) (l := l) (x := ab_lo a + 8 * (ab_max a - nfill)) as (c4 & E4 & M4);
    [rewrite Hc3; apply lookup_insert_eq|rewrite Hc3; by apply rep_nrequests|done|lia|lia|lia| |].
  { rewrite Hc3. replace (ab_end a - 8 * nfill) with (ab_lo a + 8 * (ab_max a - nfill)) by lia. apply write_words_in. }
  erewrite bind_done by exact (on_cb_ok _ _ _ _ E4). eexists _, (([TcFill arena p l] ++ []) ++ [_] ++ [] ++ [_]). split; [reflexivity|].
  split.
  { eapply evolves_trans; [eapply evolves_trans; [exact V1|apply evolves_cb]|].
    eapply evolves_trans; [apply evolves_after; [by eapply flushed_after|done]|]. eapply evolves_trans; [apply evolves_cb|by apply evolves_do]. }
  split; [done|]. split; [cbn; by rewrite !app_nil_r|].
  apply (family_moved (mkCbMem (words (cb s)) (<[p:=set_nrequests 0 b]> (bins (cb s)))) _ A p (set_nrequests 0 b) a); [by apply family_nrequests|done|].
  destruct M4 as (m' & b' & E' & Hs & Hl' & Hm' & Hw & Hq). rewrite Hc3 in E', Hw. exists m', b'. split_and!; try done.
  eapply within_trans; [|exact Hw]. apply within_write; lia.
Qed.

Lemma shift_bounds x d : 0 ≤ x → 0 ≤ d → 0 ≤ Z.shiftr x d ≤ x.
Proof.
  intros Hx Hd. split; [by apply Z.shiftr_nonneg|]. rewrite Z.shiftr_div_pow2 by done. apply Z.div_le_upper_bound; [lia|].
  assert (1 ≤ 2 ^ d) by (apply Z.lt_pred_le, Z.pow_pos_nonneg; lia). nia.
Qed.

Lemma not_null (l : list Z) v : 0 ∉ l → v ∈ l → v ≠ 0.
Proof. by intros H Hv ->. Qed.

Lemma nonnull_1 v : v ≠ 0 → nonnull [v] = [v].
Proof. intros H. cbn. by rewrite (proj2 (Z.eqb_neq v 0) H). Qed.

(** Writing a member of [tcache_slow_t]. *)
Definition slow_step (m : M tc_mem unit) (s : tc_mem) : Prop := ∃ s', m s = Done (tt, s') ∧ evolves s s' [] ∧ cb s' = cb s.

Lemma set_refilled_ok p v s : 0 ≤ p < Z.of_nat (length (bin_refilled s)) → slow_step (slow_set bin_refilled set_bin_refilled p v) s.
Proof.
  intros Hp. eexists. split; [by apply slow_set_ok|]. split; [|done].
  split; [by rewrite app_nil_r|done|cbn; by rewrite length_insert|done|done|done].
Qed.

Lemma set_delay_ok p v s : 0 ≤ p < Z.of_nat (length (bin_flush_delay_items s)) → slow_step (slow_set bin_flush_delay_items set_delay_items p v) s.
Proof.
  intros Hp. eexists. split; [by apply slow_set_ok|]. split; [|done].
  split; [by rewrite app_nil_r|done|cbn; by rewrite length_insert|done|done|done].
Qed.

Lemma set_div_ok p v s :
  0 ≤ p < Z.of_nat (length (lg_fill_div s)) → 0 ≤ v ≤ 12 → slow_step (slow_set lg_fill_div set_lg_fill_div p v) s.
Proof.
  intros Hp Hv. eexists. split; [by apply slow_set_ok|]. split; [|done].
  split; [by rewrite app_nil_r|done|cbn; by rewrite length_insert|done| |done]. intros H. by apply Forall_insert.
Qed.

Lemma skip_ok s : slow_step (mret tt) s.
Proof. exists s. split; [done|]. split; [apply evolves_refl|done]. Qed.

(** The slow path: what was stashed goes, the arena fills the bin, and one object is taken. *)
Lemma alloc_small_hard_ok s A p a arena :
  tc_ok s A → A !! p = Some a → p < SC_NBINS → cached a = [] →
  ∃ ret ok s' a' cs, tcache_alloc_small_hard tcache_bin_info arena p s = Done ((ret, ok), s') ∧
    on_bin s s' A p a a' (nonnull [ret]) [] cs ∧ (if ok then ret ≠ 0 else ret = 0).
Proof.
  intros K Ea Hp Hc. destruct (tk_info _ _ _ _ K p a Ea) as (info & Ei & Hi & H1). destruct (tk_objects _ _ _ _ K p a Ea) as [Hst _].
  assert (Hp0 : 0 ≤ p) by (apply (tk_bins _ _ _ _ K); by eexists). destruct (tk_slow _ _ _ _ K) as (L1 & L2 & L3). rewrite nbins_value in Hp.
  unfold tcache_alloc_small_hard. rewrite (bind_done _ _ _ _ _ (bin_info_ok _ _ _ _ Ei)).
  destruct (slow_get_ok lg_fill_div p s) as (d & Ed & E1); [lia|]. rewrite (bind_done _ _ _ _ _ E1). clear E1.
  assert (Hd : 0 ≤ d ≤ 12) by exact (Forall_lookup_1 _ _ _ _ (tk_divs _ _ _ _ K) Ed).
  unfold cache_bin_info_ncached_max. rewrite Hi. pose proof (shift_bounds (ab_max a) d ltac:(lia) ltac:(lia)) as Hn.
  destruct (fill_ok s A p a arena (Z.shiftr (ab_max a) d) (tk_family _ _ _ _ K) Ea Hc) as (s1 & cs & E1 & V1 & G1 & Q1 & F1);
    [lia|rewrite Hst; change (len []) with 0; lia|].
  set (l := take _ _) in *. rewrite (bind_done _ _ _ _ _ E1).
  destruct (set_refilled_ok p true s1) as (s2 & E2 & V2 & C2); [destruct V1 as [_ _ (_ & -> & _)]; lia|].
  rewrite (bind_done _ _ _ _ _ E2). set (a1 := mkABin _ _ l _ _) in *. rewrite <- C2 in F1.
  destruct (take_ok s2 (<[p:=a1]> A) p a1) as (ret & ok & s3 & E3 & V3 & H3); [exact F1|apply lookup_insert_eq|].
  assert (V : evolves s s3 cs).
  { rewrite <- (app_nil_r cs). eapply evolves_trans; [exact V1|]. rewrite <- (app_nil_r []). by eapply evolves_trans. }
  assert (Hl0 : 0 ∉ l).
  { intros H. apply subseteq_take in H. pose proof (tk_fills _ _ _ _ K) as Hf. destruct Hf as [|l0 ls Hf _]; [|by apply Hf].
    by apply not_elem_of_nil in H. }
  exists ret, ok, s3. change (cached a1) with l in H3. destruct l as [|v c] eqn:El; destruct H3 as (-> & -> & H3).
  - subst s3. exists a1, cs. split; [done|]. split; [|done]. split; [done|exact F1|done|done| |by rewrite Q1].
    rewrite G1, Q1, Hc. done.
  - eexists (mkABin _ _ c _ _), cs. split; [done|]. assert (Hv : v ≠ 0) by (apply (not_null (v :: c)); [done|left]).
    split; [|done]. rewrite insert_insert_eq in H3. split; [done|exact H3|done|done| |by rewrite Q1].
    cbn [cached]. rewrite G1, Q1, Hc, nonnull_1, app_nil_r by done. done.
Qed.

(** An allocation that finds an object. *)
Lemma on_bin_hit s s1 s2 A p a v c cs :
  cached a = v :: c → stashed a = [] → 0 ∉ cached a → evolves s s1 [] → evolves s1 s2 cs → given cs = [] → got cs = [] →
  family (cb s2) (<[p:=mkABin (ab_lo a) (ab_max a) c (stashed a) (Z.min (low_water a) (len c))]> A) →
  on_bin s s2 A p a (mkABin (ab_lo a) (ab_max a) c (stashed a) (Z.min (low_water a) (len c))) (nonnull [v]) [] cs.
Proof.
  intros Hc Hst Hn V1 V2 G Q F. rewrite Hc in Hn. assert (Hv : v ≠ 0) by (apply (not_null (v :: c)); [done|left]).
  split; [exact (evolves_trans _ _ _ _ _ _ _ _ _ V1 V2)|exact F|done|exact Hst| |by rewrite Q; apply not_elem_of_nil].
  cbn [cached]. by rewrite G, Q, Hc, nonnull_1, !app_nil_r by done.
Qed.

Lemma unstashed_same a : stashed a = [] → with_stashed [] a = a.
Proof. intros H. unfold with_stashed. rewrite <- H. by destruct a. Qed.

(** Without stashed objects the flush of the stash does nothing that shows. *)
Lemma no_stash_ok s A p a small :
  tc_ok s A → A !! p = Some a →
  ∃ s' cs, tcache_bin_flush_stashed tcache_bin_info edata_of arena_ind binshard arena_is_auto p small s = Done (tt, s') ∧
    family (cb s') A ∧ evolves s s' cs ∧ given cs = [] ∧ got cs = [] ∧ after s s' cs.
Proof.
  intros K Ea. destruct (tk_info _ _ _ _ K p a Ea) as (info & Ei & Hi & H1). destruct (tk_objects _ _ _ _ K p a Ea) as [Hst _].
  destruct (flush_stashed_ok tcache_bin_info edata_of arena_ind binshard arena_is_auto s A p a info small (tk_family _ _ _ _ K) Ea Ei Hi)
    as (s' & cs & E & F & H & R & _).
  rewrite (unstashed_same a Hst), insert_id in F by done. rewrite Hst in R. destruct (returned_evolves _ _ _ _ _ H R) as (V & G & Q).
  exists s', cs. split_and!; try done. by apply Permutation_nil_r in G.
Qed.

Lemma alloc_small_ok s A p a arena zero :
  tc_ok s A → A !! p = Some a → p < SC_NBINS → arena ≠ 0 →
  ∃ ret s' a' cs, tcache_alloc_small T tcache_bin_info edata_of arena_ind binshard arena_is_auto arena p zero s = Done (ret, s') ∧
    on_bin s s' A p a a' (nonnull [ret]) [] cs.
Proof.
  intros K Ea Hp Har. destruct (tk_info _ _ _ _ K p a Ea) as (info & Ei & Hi & H1). destruct (tk_objects _ _ _ _ K p a Ea) as [Hst Hn].
  assert (Hpn : 0 ≤ p < nhbins) by (apply (tk_bins _ _ _ _ K); by eexists). pose proof (tk_family _ _ _ _ K) as F.
  unfold tcache_alloc_small. cbv zeta. destruct (take_ok s A p a F Ea) as (ret & ok & s1 & E1 & V1 & H). rewrite (bind_done _ _ _ _ _ E1). cbv beta iota.
  destruct (cached a) as [|v c] eqn:Hc; destruct H as (-> & -> & H).
  - subst s1. rewrite (proj2 (Z.eqb_neq arena 0)) by done. unfold tcache_small_bin_disabled.
    erewrite bind_done by (by erewrite bind_done by (by apply bin_info_ok)). unfold cache_bin_info_ncached_max. rewrite Hi, (proj2 (Z.eqb_neq _ 0)) by lia.
    destruct (no_stash_ok s A p a true K Ea) as (s2 & c2 & E2 & F2 & V2 & G2 & Q2 & _). rewrite (bind_done _ _ _ _ _ E2).
    pose proof (tc_ok_same _ _ _ _ _ _ _ _ _ _ K V2 F2) as K2.
    destruct (alloc_small_hard_ok s2 A p a arena K2 Ea Hp Hc) as (ret & ok & s3 & a3 & c3 & E3 & B3 & Hr). rewrite (bind_done _ _ _ _ _ E3). cbv beta iota.
    destruct B3 as [V3 F3 M3 S3 O3 N3]. destruct ok; cbn [negb].
    + destruct (finish_ok s3 (<[p:=a3]> A) p a3 zero ret F3 (lookup_insert_eq _ _ _) Hpn) as (s4 & c4 & E4 & F4 & V4 & G4 & Q4).
      exists ret, s4, a3, (c2 ++ c3 ++ c4). split; [done|].
      split; [by eapply evolves_trans; [|eapply evolves_trans]|done|done|done| |by rewrite !got_app, Q2, Q4, app_nil_r].
      rewrite !given_app, !got_app, G2, G4, Q2, Q4, !app_nil_r. exact O3.
    + subst ret. exists 0, s3, a3, (c2 ++ c3). split; [done|]. split; [by eapply evolves_trans|done|done|done| |by rewrite got_app, Q2].
      rewrite given_app, got_app, G2, Q2. exact O3.
  - destruct (finish_ok s1 _ p _ zero v H (lookup_insert_eq _ _ _) Hpn) as (s2 & c2 & E2 & F2 & V2 & G2 & Q2).
    eexists v, s2, _, c2. split; [exact E2|]. rewrite <- Hc in Hn. by eapply on_bin_hit.
Qed.

Lemma alloc_large_ok s A p a arena zero :
  tc_ok s A → A !! p = Some a → arena ≠ 0 →
  ∃ ret s' a' cs, tcache_alloc_large T tcache_bin_info edata_of arena_ind binshard arena_is_auto arena p zero s = Done (ret, s') ∧
    on_bin s s' A p a a' (nonnull [ret]) [] cs.
Proof.
  intros K Ea Har. destruct (tk_info _ _ _ _ K p a Ea) as (info & Ei & Hi & H1). destruct (tk_objects _ _ _ _ K p a Ea) as [Hst Hn].
  assert (Hpn : 0 ≤ p < nhbins) by (apply (tk_bins _ _ _ _ K); by eexists). pose proof (tk_family _ _ _ _ K) as F.
  unfold tcache_alloc_large. destruct (take_ok s A p a F Ea) as (ret & ok & s1 & E1 & V1 & H). rewrite (bind_done _ _ _ _ _ E1). cbv beta iota.
  destruct (cached a) as [|v c] eqn:Hc; destruct H as (-> & -> & H); cbn [negb].
  - subst s1. rewrite (proj2 (Z.eqb_neq arena 0)) by done.
    destruct (no_stash_ok s A p a false K Ea) as (s2 & c2 & E2 & F2 & V2 & G2 & Q2 & _). rewrite (bind_done _ _ _ _ _ E2).
    eexists _, _, a, (c2 ++ [TcLargeMalloc p _]). split; [reflexivity|].
    split; [eapply evolves_trans; [exact V2|by split]|by rewrite insert_id|done|done| |].
    + rewrite given_app, got_app, G2, Q2. cbn [got mbind list_bind]. rewrite Hc, !app_nil_r. done.
    + rewrite got_app, Q2. cbn [got mbind list_bind]. rewrite app_nil_r. apply nonnull_0.
  - destruct (finish_ok s1 _ p _ zero v H (lookup_insert_eq _ _ _) Hpn) as (s2 & c2 & E2 & F2 & V2 & G2 & Q2).
    eexists v, s2, _, c2. split; [exact E2|]. rewrite <- Hc in Hn. by eapply on_bin_hit.
Qed.

(** ** Deallocation *)

(** Putting an object in a bin. *)
Lemma put_ok s A p a ptr :
  family (cb s) A → A !! p = Some a →
  ∃ ok s', on_cb (cache_bin_dalloc_easy p ptr) s = Done (ok, s') ∧
    if len (cached a) + len (stashed a) =? ab_max a then ok = false ∧ s' = s
    else ok = true ∧ evolves s s' [] ∧ family (cb s') (<[p:=mkABin (ab_lo a) (ab_max a) (ptr :: cached a) (stashed a) (low_water a)]> A).
Proof.
  intros F Ea. destruct (fm_bins _ _ F p a Ea) as (b & Eb & R & Hlow).
  destruct (dalloc_easy_ok (cb s) p b a Eb R ptr Hlow) as (ok & c & E & H). exists ok, (set_cb c s). split; [by apply on_cb_ok|].
  destruct (_ =? _); destruct H as [-> H].
  - subst c. by rewrite set_cb_id.
  - split_and!; [done|apply evolves_cb|]. by eapply (family_moved (cb s)).
Qed.

(** A flush and what it gives back. *)
Lemma bottom_ok s A p a small rem :
  tc_ok s A → A !! p = Some a → 0 ≤ rem ≤ len (cached a) →
  ∃ s' cs, tcache_bin_flush_bottom tcache_bin_info edata_of arena_ind binshard arena_is_auto p rem small s = Done (tt, s') ∧
    family (cb s') (<[p:=bottom_flushed rem a]> A) ∧ evolves s s' cs ∧ given cs ≡ₚ drop (Z.to_nat rem) (cached a) ∧ got cs = [] ∧ after s s' cs.
Proof.
  intros K Ea Hr. destruct (tk_info _ _ _ _ K p a Ea) as (info & Ei & Hi & H1). destruct (tk_objects _ _ _ _ K p a Ea) as [Hst _].
  destruct (flush_bottom_ok tcache_bin_info edata_of arena_ind binshard arena_is_auto s A p a info small rem (tk_family _ _ _ _ K) Ea Ei Hi Hr)
    as (s' & cs & E & F & H & R).
  rewrite Hst in R. destruct (returned_evolves _ _ _ _ _ H R) as (V & G & Q). by exists s', cs.
Qed.

(** An object for a full bin: the bottom of the bin is flushed and there is room. *)
Lemma make_room_ok s A p a ptr small div :
  tc_ok s A → A !! p = Some a → len (cached a) = ab_max a → 1 ≤ div →
  ∃ s' a' cs, (tcache_bin_flush_bottom tcache_bin_info edata_of arena_ind binshard arena_is_auto p (Z.shiftr (ab_max a) div) small;;
      _ ← on_cb (cache_bin_dalloc_easy p ptr); mret tt) s = Done (tt, s') ∧ on_bin s s' A p a a' [] [ptr] cs.
Proof.
  intros K Ea Hfull Hdiv. destruct (tk_info _ _ _ _ K p a Ea) as (info & Ei & Hi & H1).
  assert (Hr : 0 ≤ Z.shiftr (ab_max a) div < ab_max a).
  { split; [apply Z.shiftr_nonneg; lia|]. rewrite Z.shiftr_div_pow2 by lia. apply Z.div_lt; [lia|]. assert (2 ^ 1 ≤ 2 ^ div) by (apply Z.pow_le_mono_r; lia). lia. }
  set (rem := Z.shiftr (ab_max a) div) in *. destruct (bottom_ok s A p a small rem K Ea) as (s1 & cs & E1 & F1 & V1 & G1 & Q1 & _); [lia|].
  rewrite (bind_done _ _ _ _ _ E1). set (a1 := bottom_flushed rem a) in *.
  destruct (put_ok s1 (<[p:=a1]> A) p a1 ptr F1 (lookup_insert_eq _ _ _)) as (ok & s2 & E2 & H). rewrite (bind_done _ _ _ _ _ E2).
  assert (Hlen : len (cached a1) + len (stashed a1) = rem) by (cbn; unfold len in *; cbn [length]; rewrite length_take; lia).
  rewrite Hlen in H. change (ab_max a1) with (ab_max a) in H. rewrite (proj2 (Z.eqb_neq rem (ab_max a))) in H by lia. destruct H as (-> & V2 & F2).
  eexists s2, _, cs. split; [done|]. rewrite insert_insert_eq in F2.
  split; [rewrite <- (app_nil_r cs); by eapply evolves_trans|exact F2|done|done| |by rewrite Q1; apply not_elem_of_nil].
  rewrite G1, Q1, app_nil_r. change (cached (mkABin _ _ ?l _ _)) with l. change (cached a1) with (take (Z.to_nat rem) (cached a)).
  transitivity (ptr :: (take (Z.to_nat rem) (cached a) ++ drop (Z.to_nat rem) (cached a))); [done|]. rewrite take_drop. solve_Permutation.
Qed.

Lemma on_bin_put s s' A p a ptr :
  stashed a = [] → evolves s s' [] → family (cb s') (<[p:=mkABin (ab_lo a) (ab_max a) (ptr :: cached a) (stashed a) (low_water a)]> A) →
  on_bin s s' A p a (mkABin (ab_lo a) (ab_max a) (ptr :: cached a) (stashed a) (low_water a)) [] [ptr] [].
Proof.
  intros Hst V F. split; [done|done|done|done| |apply not_elem_of_nil]. cbn [cached app given got omap list_omap mbind list_bind].
  rewrite !app_nil_r. apply Permutation_cons_append.
Qed.

Lemma dalloc_small_ok s A p a ptr :
  tc_ok s A → A !! p = Some a →
  ∃ s' a' cs, tcache_dalloc_small o tcache_bin_info edata_of arena_ind binshard arena_is_auto ptr p s = Done (tt, s') ∧
    on_bin s s' A p a a' [] [ptr] cs.
Proof.
  intros K Ea. destruct (tk_info _ _ _ _ K p a Ea) as (info & Ei & Hi & H1). destruct (tk_objects _ _ _ _ K p a Ea) as [Hst _].
  unfold tcache_dalloc_small, cache_bin_nonfast_aligned. rewrite (cf_uaf C). cbn [negb]. erewrite bind_done by reflexivity. cbv beta iota.
  destruct (put_ok s A p a ptr (tk_family _ _ _ _ K) Ea) as (ok & s1 & E1 & H). rewrite (bind_done _ _ _ _ _ E1).
  destruct (Z.eqb_spec (len (cached a) + len (stashed a)) (ab_max a)) as [E|E].
  - destruct H as [-> ->]. cbv beta iota. unfold tcache_small_bin_disabled, cache_bin_info_ncached_max.
    erewrite bind_done by (by erewrite bind_done by (by apply bin_info_ok)). rewrite Hi, (proj2 (Z.eqb_neq _ 0)) by lia.
    rewrite (bind_done _ _ _ _ _ (bin_info_ok _ _ _ _ Ei)), Hi. rewrite Hst in E. change (len []) with 0 in E.
    apply make_room_ok; [done|done|lia|apply (cf_small_div C)].
  - destruct H as (-> & V & F). eexists s1, _, []. split; [done|]. by apply on_bin_put.
Qed.

Lemma dalloc_large_ok s A p a ptr :
  tc_ok s A → A !! p = Some a →
  ∃ s' a' cs, tcache_dalloc_large o tcache_bin_info edata_of arena_ind binshard arena_is_auto ptr p s = Done (tt, s') ∧
    on_bin s s' A p a a' [] [ptr] cs.
Proof.
  intros K Ea. destruct (tk_info _ _ _ _ K p a Ea) as (info & Ei & Hi & H1). destruct (tk_objects _ _ _ _ K p a Ea) as [Hst _].
  unfold tcache_dalloc_large, cache_bin_info_ncached_max.
  destruct (put_ok s A p a ptr (tk_family _ _ _ _ K) Ea) as (ok & s1 & E1 & H). rewrite (bind_done _ _ _ _ _ E1).
  destruct (Z.eqb_spec (len (cached a) + len (stashed a)) (ab_max a)) as [E|E].
  - destruct H as [-> ->]. cbv beta iota.
    rewrite (bind_done _ _ _ _ _ (bin_info_ok _ _ _ _ Ei)), Hi. rewrite Hst in E. change (len []) with 0 in E.
    apply make_room_ok; [done|done|lia|apply (cf_large_div C)].
  - destruct H as (-> & V & F). eexists s1, _, []. split; [done|]. by apply on_bin_put.
Qed.

(** ** Incremental collection *)

(** A collection gives back the bottom of a bin, and no more of it than has not been used since the last one. *)
Record collected (s s' : tc_mem) (A : gmap Z abin) (p : Z) (a : abin) (rem w : Z) (cs : list tc_call) : Prop := {
  co_evolves : evolves s s' cs;
  co_family : family (cb s') (<[p:=mkABin (ab_lo a) (ab_max a) (take (Z.to_nat rem) (cached a)) [] w]> A);
  co_rem : len (cached a) - low_water a ≤ rem ≤ len (cached a);
  co_given : given cs ≡ₚ drop (Z.to_nat rem) (cached a);
  co_got : got cs = []
}.

Lemma nothing_collected s s' A p a :
  A !! p = Some a → stashed a = [] → evolves s s' [] → family (cb s') A → 0 ≤ low_water a →
  collected s s' A p a (len (cached a)) (low_water a) [].
Proof.
  intros Ea Hst V F Hl. split; [done| |lia| |done].
  - rewrite to_nat_len, firstn_all. rewrite insert_id; [done|]. rewrite Ea, <- Hst. by destruct a.
  - by rewrite to_nat_len, drop_all.
Qed.

Lemma collected_bottom s s1 s2 A p a rem cs1 cs2 s3 :
  evolves s s1 [] → cb s1 = cb s → evolves s1 s2 cs1 → given cs1 ≡ₚ drop (Z.to_nat rem) (cached a) → got cs1 = [] →
  evolves s2 s3 cs2 → given cs2 = [] → got cs2 = [] → family (cb s3) (<[p:=bottom_flushed rem a]> A) → len (cached a) - low_water a ≤ rem ≤ len (cached a) →
  collected s s3 A p a rem (Z.min (low_water a) rem) (cs1 ++ cs2).
Proof.
  intros V1 C1 V2 G2 Q2 V3 G3 Q3 F Hr. split; [|exact F|done|by rewrite given_app, G3, app_nil_r|by rewrite got_app, Q2, Q3].
  change (cs1 ++ cs2) with ([] ++ cs1 ++ cs2). eapply evolves_trans; [exact V1|]. by eapply evolves_trans.
Qed.

Lemma delay_computes p : 0 ≤ p < nhbins → ∃ d, tcache_gc_item_delay_compute T o p = Done d.
Proof.
  intros Hp. destruct (cf_sizes C p Hp) as (usize & Eu & Hne). unfold tcache_gc_item_delay_compute. rewrite Eu. cbn [mbind outcome_bind].
  rewrite (proj2 (Z.eqb_neq usize 0)) by done. by eexists.
Qed.

Lemma unused_bounds w : 0 ≤ w ≤ 8191 → 0 ≤ w - Z.shiftr w 2 ≤ w.
Proof. intros Hw. pose proof (shift_bounds w 2). lia. Qed.

Lemma gc_small_ok s A p a :
  tc_ok s A → A !! p = Some a → p < SC_NBINS →
  ∃ s' rem w cs, tcache_gc_small T o tcache_bin_info edata_of arena_ind binshard arena_is_auto p s = Done (tt, s') ∧ collected s s' A p a rem w cs.
Proof.
  intros K Ea Hp. destruct (tk_info _ _ _ _ K p a Ea) as (info & Ei & Hi & H1). destruct (tk_objects _ _ _ _ K p a Ea) as [Hst _].
  assert (Hpn : 0 ≤ p < nhbins) by (apply (tk_bins _ _ _ _ K); by eexists). destruct (tk_slow _ _ _ _ K) as (L1 & L2 & L3). rewrite nbins_value in Hp.
  destruct (ok_bin s A p a K Ea) as (b & Eb & R & Hlow). pose proof (rep_numbers _ _ _ R) as (N1 & N2 & N3 & N4 & N5 & N6 & N7 & N8).
  unfold tcache_gc_small. erewrite bind_done by (by apply on_cb_read, bin_at_ok). cbv zeta. unfold cache_bin_ncached_get_local, cache_bin_low_water_get.
  rewrite (ncached_ok _ _ _ R), (low_water_ok _ _ _ R). pose proof (unused_bounds (low_water a) ltac:(lia)) as Hu.
  set (n := low_water a - Z.shiftr (low_water a) 2) in *. rewrite (u64_small n) by (unfold is_u64; lia).
  destruct (slow_get_ok bin_flush_delay_items p s) as (d & Ed & E1); [lia|]. rewrite (bind_done _ _ _ _ _ E1). clear E1.
  destruct (n <? d).
  - destruct (set_delay_ok p (u8 (d - u8 n)) s) as (s1 & E1 & V1 & C1); [lia|]. exists s1, (len (cached a)), (low_water a), [].
    split; [done|]. apply nothing_collected; try done; [rewrite C1; apply K|lia].
  - destruct (delay_computes p Hpn) as [d' Hd']. erewrite bind_done by (by apply liftO_done).
    destruct (set_delay_ok p d' s) as (s1 & E1 & V1 & C1); [lia|]. rewrite (bind_done _ _ _ _ _ E1).
    assert (F1 : family (cb s1) A) by (rewrite C1; apply K). pose proof (tc_ok_same _ _ _ _ _ _ _ _ _ _ K V1 F1) as K1.
    set (rem := len (cached a) - n). assert (Hr : u32 rem = rem) by (unfold u32, rem; apply Z.mod_small; lia). rewrite Hr. unfold tcache_bin_flush_small.
    destruct (bottom_ok s1 A p a true rem K1 Ea) as (s2 & c2 & E2 & F2 & V2 & G2 & Q2 & _); [unfold rem; lia|].
    rewrite (bind_done _ _ _ _ _ E2), (bind_done _ _ _ _ _ (bin_info_ok _ _ _ _ Ei)).
    assert (L4 : length (lg_fill_div s2) = 36%nat) by (destruct V1 as [_ _ (? & _) _ _ _], V2 as [_ _ (? & _) _ _ _]; lia).
    destruct (slow_get_ok lg_fill_div p s2) as (div & Ediv & E3); [lia|]. rewrite (bind_done _ _ _ _ _ E3). clear E3.
    unfold cache_bin_info_ncached_max. rewrite Hi.
    assert (Hdiv : 0 ≤ div ≤ 12).
    { apply (Forall_lookup_1 _ _ _ _ (ev_divs _ _ _ _ _ _ _ V2 (ev_divs _ _ _ _ _ _ _ V1 (tk_divs _ _ _ _ K))) Ediv). }
    assert (∃ s3, (if 1 <=? Z.shiftr (ab_max a) (div + 1) then slow_set lg_fill_div set_lg_fill_div p (u8 (div + 1)) else mret tt) s2 = Done (tt, s3) ∧
      evolves s2 s3 [] ∧ cb s3 = cb s2) as (s3 & E3 & V3 & C3).
    { destruct (Z.leb_spec 1 (Z.shiftr (ab_max a) (div + 1))) as [Hs|]; [|apply skip_ok]. apply set_div_ok; [lia|].
      rewrite Z.shiftr_div_pow2 in Hs by lia. assert (div + 1 ≤ 12).
      { destruct (decide (div = 12)) as [->|]; [|lia]. rewrite Z.div_small in Hs by lia. lia. }
      unfold u8. rewrite Z.mod_small by lia. lia. }
    exists s3, rem, (Z.min (low_water a) rem), (c2 ++ []). split; [exact E3|].
    apply (collected_bottom s s1 s2); try done; [by rewrite C3|unfold rem; lia].
Qed.

Lemma gc_large_ok s A p a :
  tc_ok s A → A !! p = Some a →
  ∃ s' rem w cs, tcache_gc_large tcache_bin_info edata_of arena_ind binshard arena_is_auto p s = Done (tt, s') ∧ collected s s' A p a rem w cs.
Proof.
  intros K Ea. destruct (ok_bin s A p a K Ea) as (b & Eb & R & Hlow). pose proof (rep_numbers _ _ _ R) as (N1 & N2 & N3 & N4 & N5 & N6 & N7 & N8).
  unfold tcache_gc_large. erewrite bind_done by (by apply on_cb_read, bin_at_ok). cbv zeta. unfold cache_bin_ncached_get_local, cache_bin_low_water_get.
  rewrite (ncached_ok _ _ _ R), (low_water_ok _ _ _ R). pose proof (unused_bounds (low_water a) ltac:(lia)) as Hu.
  set (rem := len (cached a) - low_water a + Z.shiftr (low_water a) 2).
  assert (Hr : u32 rem = rem) by (unfold u32, rem; apply Z.mod_small; lia). rewrite Hr. unfold tcache_bin_flush_large.
  pose proof (shift_bounds (low_water a) 2 ltac:(lia) ltac:(lia)).
  destruct (bottom_ok s A p a false rem K Ea) as (s2 & c2 & E2 & F2 & V2 & G2 & Q2 & _); [unfold rem; lia|].
  exists s2, rem, (Z.min (low_water a) rem), (c2 ++ []). split; [exact E2|].
  apply (collected_bottom s s s2); try done; [apply evolves_refl|apply evolves_refl|unfold rem; lia].
Qed.

(** A bin that has been filled since the last collection will be filled more. *)
Lemma refilled_ok s A p :
  tc_ok s A → 0 ≤ p < SC_NBINS →
  slow_step (refilled ← slow_get bin_refilled p;
    if refilled : bool then
      div ← slow_get lg_fill_div p;
      (if 1 <? div then slow_set lg_fill_div set_lg_fill_div p (div - 1) else mret tt);;
      slow_set bin_refilled set_bin_refilled p false
    else mret tt) s.
Proof.
  intros K Hp. rewrite nbins_value in Hp. destruct (tk_slow _ _ _ _ K) as (L1 & L2 & L3).
  destruct (slow_get_ok bin_refilled p s) as (r & _ & E1); [lia|]. unfold slow_step. setoid_rewrite (bind_done _ _ _ _ _ E1).
  destruct r; [|apply skip_ok]. destruct (slow_get_ok lg_fill_div p s) as (div & Ediv & E2); [lia|]. setoid_rewrite (bind_done _ _ _ _ _ E2).
  pose proof (Forall_lookup_1 _ _ _ _ (tk_divs _ _ _ _ K) Ediv) as Hdiv. cbv beta in Hdiv.
  assert (slow_step (if 1 <? div then slow_set lg_fill_div set_lg_fill_div p (div - 1) else mret tt) s) as (s1 & E3 & V3 & C3).
  { destruct (Z.ltb_spec 1 div); [|apply skip_ok]. apply set_div_ok; lia. }
  setoid_rewrite (bind_done _ _ _ _ _ E3).
  destruct (set_refilled_ok p false s1) as (s2 & E4 & V4 & C4); [destruct V3 as [_ _ (_ & ? & _) _ _ _]; lia|].
  exists s2. split; [exact E4|]. split; [|congruence]. change [] with ([] ++ [] : list tc_call). by eapply evolves_trans.
Qed.

(** One event: the bin of its turn is collected, its low water mark starts afresh, and the turn passes on. *)
Lemma event_ok s A :
  tc_ok s A →
  ∃ s' a rem cs, tcache_event T o tcache_bin_info nhbins edata_of arena_ind binshard arena_is_auto s = Done (tt, s') ∧
    A !! next_gc_bin s = Some a ∧ len (cached a) - low_water a ≤ rem ≤ len (cached a) ∧
    given cs ≡ₚ drop (Z.to_nat rem) (cached a) ∧ next_gc_bin s' = (next_gc_bin s + 1) mod nhbins ∧
    conserves tcache_bin_info nhbins edata_of arena_ind binshard arena_is_auto s s' A
      (<[next_gc_bin s:=mkABin (ab_lo a) (ab_max a) (take (Z.to_nat rem) (cached a)) [] rem]> A) [] [] cs.
Proof.
  intros K. set (p := next_gc_bin s). assert (Hp : 0 ≤ p < nhbins) by exact (tk_next _ _ _ _ K). destruct (proj2 (tk_bins _ _ _ _ K p) Hp) as [a Ea].
  destruct (tk_objects _ _ _ _ K p a Ea) as [Hst Hn]. unfold tcache_event. erewrite bind_done by reflexivity. cbv zeta. fold p.
  destruct (no_stash_ok s A p a (p <? SC_NBINS) K Ea) as (s1 & c1 & E1 & F1 & V1 & G1 & Q1 & _). rewrite (bind_done _ _ _ _ _ E1).
  pose proof (tc_ok_same _ _ _ _ _ _ _ _ _ _ K V1 F1) as K1. destruct (ok_bin s1 A p a K1 Ea) as (b & Eb & R & Hlow).
  pose proof (rep_numbers _ _ _ R) as (N1 & N2 & N3 & N4 & N5 & N6 & N7 & N8).
  erewrite bind_done by (by apply on_cb_read, bin_at_ok). unfold cache_bin_low_water_get. rewrite (low_water_ok _ _ _ R).
  match goal with |- ∃ s' a rem cs, (?m ≫= _) _ = _ ∧ _ => assert (∃ s2 rem w c2, m s1 = Done (tt, s2) ∧ collected s1 s2 A p a rem w c2)
    as (s2 & rem & w & c2 & E2 & CO) end.
  { destruct (0 <? low_water a); destruct (Z.ltb_spec p SC_NBINS) as [Hs|Hs].
    - by apply gc_small_ok.
    - by apply gc_large_ok.
    - destruct (refilled_ok s1 A p K1) as (s2 & E2 & V2 & C2); [lia|]. exists s2, (len (cached a)), (low_water a), [].
      split; [exact E2|]. apply nothing_collected; try done; [by rewrite C2|lia].
    - exists s1, (len (cached a)), (low_water a), []. split; [done|]. apply nothing_collected; try done; [apply evolves_refl|lia]. }
  rewrite (bind_done _ _ _ _ _ E2). destruct CO as [V2 F2 Hr G2 Q2]. set (a2 := mkABin (ab_lo a) _ _ [] w) in *.
  destruct (fm_bins _ _ F2 p a2 (lookup_insert_eq _ _ _)) as (b2 & Eb2 & R2 & Hlow2).
  destruct (low_water_set_ok (cb s2) p b2 a2 Eb2 R2) as (c3 & E3 & M3).
  destruct (on_cb_moved _ _ _ _ _ _ _ _ _ F2 (lookup_insert_eq _ _ _) E3 M3) as [E3' F3]. rewrite (bind_done _ _ _ _ _ E3').
  rewrite insert_insert_eq in F3. change (cached a2) with (take (Z.to_nat rem) (cached a)) in F3. change (stashed a2) with (@nil Z) in F3.
  change (ab_lo a2) with (ab_lo a) in F3. change (ab_max a2) with (ab_max a) in F3.
  assert (Hlen : len (take (Z.to_nat rem) (cached a)) = rem) by (unfold len in *; rewrite length_take; lia). rewrite Hlen in F3.
  set (s3 := set_cb c3 s2) in *. assert (V3 : evolves s s3 (c1 ++ c2)).
  { rewrite <- (app_nil_r (c1 ++ c2)). eapply evolves_trans; [by eapply evolves_trans|apply evolves_cb]. }
  assert (G : given (c1 ++ c2) ≡ₚ drop (Z.to_nat rem) (cached a)) by (by rewrite given_app, G1).
  assert (Q : got (c1 ++ c2) = []) by (by rewrite got_app, Q1, Q2).
  assert (Hnext : next_gc_bin s3 = p) by apply V3.
  assert (Hmod : (if u32 (p + 1) =? nhbins then 0 else u32 (p + 1)) = (p + 1) mod nhbins).
  { pose proof (cf_bins C). unfold u32. rewrite (Z.mod_small (p + 1) (2 ^ 32)) by lia. destruct (Z.eqb_spec (p + 1) nhbins) as [->|].
    - by rewrite Z.mod_same by lia.
    - by rewrite Z.mod_small by lia. }
  exists (set_next_gc_bin ((p + 1) mod nhbins) s3), a, rem, (c1 ++ c2).
  split; [unfold modify; cbv beta zeta; by rewrite Hnext, Hmod|]. split; [done|]. split; [done|]. split; [done|]. split; [done|].
  set (a3 := mkABin (ab_lo a) (ab_max a) (take (Z.to_nat rem) (cached a)) [] rem) in *.
  assert (B : on_bin s s3 A p a a3 [] [] (c1 ++ c2)).
  { split; [done|exact F3|done|done| |rewrite Q; apply not_elem_of_nil]. rewrite Q, G. cbn [app cached a3]. by rewrite take_drop, app_nil_r. }
  destruct (on_bin_conserves _ _ _ _ _ _ _ _ _ _ _ _ _ _ _ K Ea (not_elem_of_nil 0) B) as [K3 B2 B3 B4].
  split; [|exact B2|exact B3|exact B4].
  destruct K3 as [K31 K32 K33 K34 K35 K36 K37 K38]. split; [exact K31|exact K32|exact K33|exact K34|exact K35| |exact K37|exact K38].
  apply Z.mod_pos_bound. lia.
Qed.

(** ** A flush of the whole cache *)

Local Notation conserves := (conserves tcache_bin_info nhbins edata_of arena_ind binshard arena_is_auto).

Lemma flush_one_ok s A p a small :
  tc_ok s A → A !! p = Some a →
  ∃ s' cs, tcache_bin_flush_bottom tcache_bin_info edata_of arena_ind binshard arena_is_auto p 0 small s = Done (tt, s') ∧
    conserves s s' A (<[p:=bottom_flushed 0 a]> A) [] [] cs ∧ got cs = [].
Proof.
  intros K Ea. destruct (bottom_ok s A p a small 0 K Ea) as (s' & cs & E & F & V & G & Q & _); [pose proof (len_nonneg (cached a)); lia|].
  exists s', cs. split_and!; [done| |done]. apply (on_bin_conserves _ _ _ _ _ _ s s' A p a); [done|done|apply not_elem_of_nil|].
  split; [done|exact F|done|done| |by rewrite Q; apply not_elem_of_nil]. change (Z.to_nat 0) with 0%nat in G. by rewrite G, Q, !app_nil_r.
Qed.

Lemma flush_bins_ok n : ∀ i s A,
  0 ≤ i → i + Z.of_nat n = nhbins → tc_ok s A → (∀ p a, A !! p = Some a → p < i → cached a = []) →
  ∃ s' A' cs, flush_bins tcache_bin_info edata_of arena_ind binshard arena_is_auto n i s = Done (tt, s') ∧
    conserves s s' A A' [] [] cs ∧ got cs = [] ∧ ∀ p a, A' !! p = Some a → cached a = [].
Proof.
  induction n as [|n IH]; intros i s A Hi Hn K Hdone.
  - exists s, A, []. split_and!; [done|by apply conserves_refl|done|]. intros p a Ea. apply (Hdone p a Ea).
    destruct (proj1 (tk_bins _ _ _ _ K p)); [by eexists|lia].
  - destruct (proj2 (tk_bins _ _ _ _ K i)) as [a Ea]; [lia|]. cbn [flush_bins].
    destruct (flush_one_ok s A i a (i <? SC_NBINS) K Ea) as (s1 & c1 & E1 & CV1 & Q1).
    erewrite bind_done; [|destruct (i <? SC_NBINS); exact E1].
    destruct (IH (i + 1) s1 (<[i:=bottom_flushed 0 a]> A)) as (s2 & A2 & c2 & E2 & CV2 & Q2 & D2); [lia|lia|by eapply cv_ok| |].
    + intros p ap Hp Hlt. destruct (decide (p = i)) as [->|Hne]; [rewrite lookup_insert_eq in Hp; by injection Hp as <-|].
      rewrite lookup_insert_ne in Hp by done. apply (Hdone p ap Hp). lia.
    + exists s2, A2, (c1 ++ c2). split_and!; [done| |by rewrite got_app, Q1, Q2|done]. change [] with ([] ++ [] : list Z). by eapply conserves_trans.
Qed.

Lemma held_nil A : (∀ p a, A !! p = Some a → cached a = [] ∧ stashed a = []) → held A = [].
Proof.
  intros H. unfold held. assert (HA : Forall (λ pa : Z * abin, objects (snd pa) = []) (map_to_list A)).
  { apply list.Forall_forall. intros [p a] Hpa. apply elem_of_map_to_list in Hpa. destruct (H p a Hpa) as [H1 H2]. unfold objects. cbn. by rewrite H1, H2. }
  induction HA as [|pa l Hpa _ IH]; [done|]. cbn [mbind list_bind]. by rewrite Hpa.
Qed.

Lemma flush_cache_ok s A :
  tc_ok s A →
  ∃ s' A' cs, tcache_flush_cache tcache_bin_info nhbins edata_of arena_ind binshard arena_is_auto s = Done (tt, s') ∧
    conserves s s' A A' [] [] cs ∧ got cs = [] ∧ held A' = [].
Proof.
  intros K. destruct (flush_bins_ok (Z.to_nat nhbins) 0 s A) as (s' & A' & cs & E & CV & Q & D);
    [lia|pose proof (cf_bins C); lia|done|intros p a Ea Hlt; destruct (proj1 (tk_bins _ _ _ _ K p)); [by eexists|lia]|].
  exists s', A', cs. split_and!; [done|done|done|]. apply held_nil. intros p a Ea. split; [by eapply D|]. by eapply (tk_objects _ _ _ _ (cv_ok _ _ _ _ _ _ _ _ _ _ _ _ _ CV)).
Qed.
End steps.
