(* ===== verification/TcacheInit.v ===== *)
(** * The initial state of a thread cache *)
From stdpp Require Import base list gmap numbers.
From S2P Require Import Prelude BitUtil SizeClass Sz CacheBin CacheBinOps CacheBinTheorems Tcache TcacheFlush TcacheInv TcacheSteps.

(** The bytes of the stacks of bins. *)
Definition stacks (l : list cache_bin_info_t) : Z := sum_by (λ i, info_ncached_max i * SIZEOF_PTR) l.

(** An empty bin whose array starts at [x]. *)
Definition empty_at (x : Z) (info : cache_bin_info_t) : abin := mkABin x (info_ncached_max info) [] [] 0.

Definition empty_bin (x : Z) (info : cache_bin_info_t) (b : cache_bin_t) : cache_bin_t :=
  let e := x + info_ncached_max info * SIZEOF_PTR in mkBin e (nrequests b) (u16 e) (u16 x) (u16 e).

Lemma cache_bin_init_ok p info mem off c b :
  bins c !! p = Some b → 0 ≤ info_ncached_max info ≤ 8191 → 0 ≤ mem → 0 ≤ off → mem + off + info_ncached_max info * SIZEOF_PTR + 8 ≤ 2 ^ 64 →
  cache_bin_init p info mem off c = Done (off + info_ncached_max info * SIZEOF_PTR, mkCbMem (words c) (<[p:=empty_bin (mem + off) info b]> (bins c))).
Proof.
  intros Eb Hi Hm Ho He. unfold SIZEOF_PTR in *. unfold cache_bin_init, SIZEOF_PTR.
  assert (Hs : u16 (info_ncached_max info * 8) = info_ncached_max info * 8) by (unfold u16; apply Z.mod_small; lia). rewrite Hs.
  rewrite (u64_small (off + _)) by (unfold is_u64; lia). rewrite !u64_small by (unfold is_u64; lia).
  erewrite bind_done by (by apply bin_set_ok). unfold empty_bin, SIZEOF_PTR. by rewrite Z.add_assoc.
Qed.

Lemma empty_settled m x info b :
  0 ≤ info_ncached_max info ≤ 8191 → 0 ≤ x → x + info_ncached_max info * SIZEOF_PTR + 8 ≤ 2 ^ 64 →
  mapped m x (info_ncached_max info + 1) → settled m (empty_bin x info b) (empty_at x info).
Proof.
  intros Hi Hx He Hm. unfold SIZEOF_PTR in *. assert (Hend : ab_end (empty_at x info) = x + info_ncached_max info * 8) by (unfold ab_end; cbn; lia).
  split; [|done]. split; rewrite ?Hend, ?ncached_max_value; change (len (cached (empty_at x info))) with 0; change (len (stashed (empty_at x info))) with 0;
    cbn [empty_at ab_lo ab_max low_water cached stashed empty_bin stack_head low_bits_low_water low_bits_full low_bits_empty]; unfold SIZEOF_PTR;
    [lia|lia|lia|lia|lia|lia|f_equal; lia|f_equal; lia|done| |by intros k v|by intros k v].
  intros k Hk. apply Hm. lia.
Qed.

(** A new bin in a family. *)
Lemma family_add c c' A p b a :
  family c A → words c' = words c → bins c' = <[p:=b]> (bins c) → settled (words c) b a → 8 ≤ ab_lo a → is_Some (words c !! (ab_lo a - 8)) →
  (∀ q a', A !! q = Some a' → q ≠ p → ab_end a' ≤ ab_lo a ∨ ab_end a ≤ ab_lo a') → family c' (<[p:=a]> A).
Proof.
  intros [F1 F2 F3] Ew Ebs Hs Hlo Hb Hd. split.
  - intros q aq. rewrite Ew, Ebs. destruct (decide (q = p)) as [->|Hne]; [rewrite !lookup_insert_eq; intros [= <-]; by exists b|].
    rewrite !lookup_insert_ne by done. apply F1.
  - intros q aq. rewrite Ew. destruct (decide (q = p)) as [->|Hne]; [rewrite lookup_insert_eq; by intros [= <-]|]. rewrite lookup_insert_ne by done. apply F2.
  - intros q r aq ar. destruct (decide (q = p)) as [->|Hqp], (decide (r = p)) as [->|Hrp]; [done|..].
    + rewrite lookup_insert_eq, lookup_insert_ne by done. intros [= <-] Hr Hne. destruct (Hd r ar Hr Hrp); [by right|by left].
    + rewrite lookup_insert_eq, lookup_insert_ne by done. intros Hq [= <-] Hne. by apply (Hd q aq Hq).
    + rewrite !lookup_insert_ne by done. apply F3.
Qed.

Lemma family_other_bins c c' A :
  family c A → words c' = words c → (∀ p, is_Some (A !! p) → bins c' !! p = bins c !! p) → family c' A.
Proof.
  intros [F1 F2 F3] Ew Hb. split; [|by rewrite Ew|done]. intros p a Ea. rewrite Ew, (Hb p) by (by eexists). by apply F1.
Qed.

(** A word outside the arrays. *)
Lemma family_store c A y v :
  family c A → is_Some (words c !! y) → (∀ p a, A !! p = Some a → ab_end a ≤ y ∨ y + 8 ≤ ab_lo a) → family (mkCbMem (<[y:=v]> (words c)) (bins c)) A.
Proof.
  intros [F1 F2 F3] Hy Hd. assert (W : within (mkABin y 1 [] [] 0) (words c) (<[y:=v]> (words c))) by apply (touched_write y (words c) [v]).
  split; cbn [words bins]; [| |done].
  - intros p a Ea. destruct (F1 p a Ea) as (b & Eb & Hs). exists b. split; [done|].
    apply (settled_elsewhere (words c) _ _ _ (mkABin y 1 [] [] 0)); [done|done|]. unfold ab_end at 2. cbn. destruct (Hd p a Ea); [by left|right; lia].
  - intros p a Ea. destruct (F2 p a Ea) as [H1 H2]. split; [done|by apply W].
Qed.

Lemma zero_bins_lookup n : ∀ i m p, i ≤ p < i + Z.of_nat n → zero_bins n i m !! p = Some zero_bin.
Proof.
  assert (Hlow : ∀ n i m p, p < i → zero_bins n i m !! p = m !! p).
  { induction n0 as [|k IH]; intros i m p Hp; [done|]. cbn [zero_bins]. rewrite IH by lia. by rewrite lookup_insert_ne by lia. }
  induction n as [|n IH]; intros i m p Hp; [lia|]. cbn [zero_bins]. destruct (decide (p = i)) as [->|].
  - by rewrite Hlow, lookup_insert_eq by lia.
  - apply IH. lia.
Qed.

Lemma stacks_app l1 l2 : stacks (l1 ++ l2) = stacks l1 + stacks l2.
Proof. apply sum_by_app. Qed.

Lemma stacks_nonneg l : Forall (λ i, 0 ≤ info_ncached_max i ≤ 8191) l → 0 ≤ stacks l.
Proof. intros H. apply sum_by_nonneg. revert H. apply Forall_impl. unfold SIZEOF_PTR. intros; lia. Qed.

Lemma stacks_take_le l i j : Forall (λ i, 0 ≤ info_ncached_max i ≤ 8191) l → (i ≤ j)%nat → 0 ≤ stacks (take i l) ≤ stacks (take j l).
Proof.
  intros H Hij. split; [apply stacks_nonneg, Forall_take, H|]. rewrite <- (take_drop i (take j l)), stacks_app, take_take, Nat.min_l by done.
  assert (0 ≤ stacks (drop i (take j l))) by (apply stacks_nonneg, Forall_drop, Forall_take, H). lia.
Qed.

Lemma stacks_take_S l i info : l !! i = Some info → stacks (take (S i) l) = stacks (take i l) + info_ncached_max info * SIZEOF_PTR.
Proof. intros E. rewrite (take_S_r _ _ info) by done. rewrite stacks_app. unfold stacks at 2. cbn. lia. Qed.

Lemma stacks_words l : Forall (λ i, 0 ≤ info_ncached_max i ≤ 8191) l → ∃ k, 0 ≤ k ∧ stacks l = 8 * k.
Proof.
  induction 1 as [|x l Hx _ (k & Hk & IH)]; [by exists 0|]. exists (info_ncached_max x + k). change (stacks (x :: l)) with (info_ncached_max x * 8 + stacks l). lia.
Qed.

Lemma compute_alloc_ok l :
  Forall (λ i, 0 ≤ info_ncached_max i ≤ 8191) l → 16 + stacks l < 2 ^ 64 → fst (cache_bin_info_compute_alloc l) = 16 + stacks l.
Proof.
  intros Hl. unfold cache_bin_info_compute_alloc. cbn [fst]. change (SIZEOF_PTR * 2) with 16. assert (H : 0 ≤ 16) by done. revert H. generalize 16.
  induction Hl as [|i l Hi Hl IH]; intros x Hx Hs; [unfold stacks; cbn; lia|]. cbn [fold_left].
  change (stacks (i :: l)) with (info_ncached_max i * SIZEOF_PTR + stacks l) in *. pose proof (stacks_nonneg l Hl). unfold SIZEOF_PTR in *.
  rewrite u64_small by (unfold is_u64; lia). rewrite IH; lia.
Qed.

Section init.
Context (T : sz_tables) (o : tcache_opts) (infos : list cache_bin_info_t) (nhbins : Z).
Context (edata_of arena_ind binshard : Z → Z) (arena_is_auto : Z → bool).
Context (C : tc_config T o nhbins) (Hinfos : Forall (λ i, 0 ≤ info_ncached_max i ≤ 8191) infos) (Hlen : nhbins ≤ Z.of_nat (length infos)).
Context (mem : Z) (Hmem : 0 < mem) (Hroom : mem + 16 + stacks (take (Z.to_nat nhbins) infos) ≤ 2 ^ 64).

Local Notation evolves := (evolves edata_of arena_ind binshard arena_is_auto).

(** What initialisation does besides. *)
Record same_memory (s s' : tc_mem) : Prop := {
  sm_evolves : evolves s s' [];
  sm_words : words (cb s') = words (cb s);
  sm_bins : ∀ p, is_Some (bins (cb s) !! p) → is_Some (bins (cb s') !! p)
}.

Lemma same_memory_trans s1 s2 s3 : same_memory s1 s2 → same_memory s2 s3 → same_memory s1 s3.
Proof. intros [A1 A2 A3] [B1 B2 B3]. split; [change [] with ([] ++ [] : list tc_call); by eapply evolves_trans|congruence|auto]. Qed.

Lemma same_memory_slow s s' : evolves s s' [] → cb s' = cb s → same_memory s s'.
Proof. intros V E. by split; [|rewrite E|rewrite E]. Qed.

(** The array of the bin [p]. *)
Definition array_of (p : Z) : Z := mem + (8 + stacks (take (Z.to_nat p) infos)).

(** The first [i] bins are there. *)
Record built (i : Z) (s : tc_mem) (A : gmap Z abin) : Prop := {
  bu_family : family (cb s) A;
  bu_bins : ∀ p, is_Some (A !! p) ↔ 0 ≤ p < i;
  bu_empty : ∀ p a, A !! p = Some a → ∃ info, infos !! Z.to_nat p = Some info ∧ a = empty_at (array_of p) info
}.

Lemma array_end p i info : 0 ≤ p < i → infos !! Z.to_nat p = Some info → ab_end (empty_at (array_of p) info) ≤ array_of i.
Proof.
  intros Hp E. unfold ab_end, array_of. cbn. pose proof (stacks_take_S infos _ _ E) as HS. unfold SIZEOF_PTR in HS.
  pose proof (stacks_take_le infos (S (Z.to_nat p)) (Z.to_nat i) Hinfos ltac:(lia)). lia.
Qed.

Lemma array_bounds p : 0 ≤ p ≤ nhbins → mem + 8 ≤ array_of p ∧ array_of p + 8 ≤ 2 ^ 64.
Proof.
  intros Hp. unfold array_of. pose proof (stacks_take_le infos (Z.to_nat p) (Z.to_nat nhbins) Hinfos ltac:(lia)). lia.
Qed.

(** A word of the block. *)
Lemma block_mapped s p k :
  mapped (words (cb s)) mem (2 + stacks (take (Z.to_nat nhbins) infos) / 8) → 0 ≤ p ≤ nhbins → -1 ≤ k →
  array_of p + 8 * k ≤ array_of nhbins → is_Some (words (cb s) !! (array_of p + 8 * k)).
Proof.
  intros Hm Hp Hk He. destruct (stacks_words (take (Z.to_nat p) infos)) as (j & Hj & Ej); [by apply Forall_take|].
  destruct (stacks_words (take (Z.to_nat nhbins) infos)) as (n & Hn & En); [by apply Forall_take|]. unfold array_of in *. rewrite En, Ej in *.
  rewrite (Z.mul_comm 8 n), Z.div_mul in Hm by lia. replace (mem + (8 + 8 * j) + 8 * k) with (mem + 8 * (1 + j + k)) by lia. apply Hm. lia.
Qed.

Lemma build_one s A i info :
  mapped (words (cb s)) mem (2 + stacks (take (Z.to_nat nhbins) infos) / 8) → 0 ≤ i < nhbins → infos !! Z.to_nat i = Some info →
  built i s A → is_Some (bins (cb s) !! i) →
  ∃ s', on_cb (cache_bin_init i info mem (8 + stacks (take (Z.to_nat i) infos))) s = Done (8 + stacks (take (Z.to_nat (i + 1)) infos), s') ∧
    built (i + 1) s' (<[i:=empty_at (array_of i) info]> A) ∧ same_memory s s'.
Proof.
  intros Hm Hi Ei [F D B] [b Eb]. pose proof (Forall_lookup_1 _ _ _ _ Hinfos Ei) as Hb. cbv beta in Hb.
  pose proof (array_bounds (i + 1) ltac:(lia)) as [_ Hr]. pose proof (array_bounds i ltac:(lia)) as [Hl _].
  assert (HS : stacks (take (Z.to_nat (i + 1)) infos) = stacks (take (Z.to_nat i) infos) + info_ncached_max info * SIZEOF_PTR).
  { replace (Z.to_nat (i + 1)) with (S (Z.to_nat i)) by lia. by apply stacks_take_S. }
  pose proof (stacks_take_le infos 0 (Z.to_nat i) Hinfos ltac:(lia)) as H0.
  assert (Hend : array_of (i + 1) = array_of i + info_ncached_max info * SIZEOF_PTR) by (unfold array_of; rewrite HS; lia).
  erewrite on_cb_ok by (apply (cache_bin_init_ok i info mem _ (cb s) b Eb Hb); fold (array_of i); lia). fold (array_of i).
  rewrite HS, Z.add_assoc. eexists. split; [reflexivity|]. split.
  - split.
    + eapply (family_add (cb s)); [exact F|done|done| |cbn; lia| |].
      * apply empty_settled; [done|lia|lia|]. intros k Hk. apply block_mapped; [done|lia|lia|].
        pose proof (stacks_take_le infos (Z.to_nat (i + 1)) (Z.to_nat nhbins) Hinfos ltac:(lia)). unfold array_of in *. unfold SIZEOF_PTR in *. lia.
      * cbn. replace (array_of i - 8) with (array_of i + 8 * -1) by lia. apply block_mapped; [done|lia|lia|].
        pose proof (stacks_take_le infos (Z.to_nat i) (Z.to_nat nhbins) Hinfos ltac:(lia)). unfold array_of in *. lia.
      * intros q aq Hq Hne. destruct (B q aq Hq) as (iq & Eq & ->). left. apply array_end; [|done]. apply D. by eexists.
    + intros p. destruct (decide (p = i)) as [->|Hne]; [rewrite lookup_insert_eq; split; [lia|by eexists]|]. rewrite lookup_insert_ne by done. rewrite D. lia.
    + intros p a. destruct (decide (p = i)) as [->|Hne]; [rewrite lookup_insert_eq; intros [= <-]; by exists info|].
      rewrite lookup_insert_ne by done. apply B.
  - split; [apply evolves_cb|done|]. intros q Hq. cbn. destruct (decide (q = i)) as [->|]; [rewrite lookup_insert_eq; by eexists|by rewrite lookup_insert_ne].
Qed.

Lemma init_slow_ok s i :
  0 ≤ i < nhbins → length (lg_fill_div s) = 36%nat → length (bin_refilled s) = 36%nat → length (bin_flush_delay_items s) = 36%nat →
  slow_step edata_of arena_ind binshard arena_is_auto (if i <? SC_NBINS then
    slow_set lg_fill_div set_lg_fill_div i 1;;
    slow_set bin_refilled set_bin_refilled i false;;
    delay ← liftO (tcache_gc_item_delay_compute T o i);
    slow_set bin_flush_delay_items set_delay_items i delay else mret tt) s.
Proof.
  intros Hi L1 L2 L3. destruct (Z.ltb_spec i SC_NBINS) as [Hs|]; [|apply skip_ok]. rewrite nbins_value in Hs.
  destruct (set_div_ok edata_of arena_ind binshard arena_is_auto i 1 s) as (s1 & E1 & V1 & C1); [lia|lia|].
  destruct (set_refilled_ok edata_of arena_ind binshard arena_is_auto i false s1) as (s2 & E2 & V2 & C2); [destruct V1 as [_ _ (_ & ? & _) _ _ _]; lia|].
  destruct (delay_computes T o nhbins C i Hi) as [d Ed].
  destruct (set_delay_ok edata_of arena_ind binshard arena_is_auto i d s2) as (s3 & E3 & V3 & C3);
    [destruct V1 as [_ _ (_ & _ & ?) _ _ _], V2 as [_ _ (_ & _ & ?) _ _ _]; lia|].
  exists s3. rewrite (bind_done _ _ _ _ _ E1), (bind_done _ _ _ _ _ E2). erewrite bind_done by (by apply liftO_done). split; [exact E3|].
  split; [|congruence]. change [] with ([] ++ [] ++ [] : list tc_call). eapply evolves_trans; [exact V1|]. by eapply evolves_trans.
Qed.

Lemma init_bins_ok n : ∀ i s A,
  0 ≤ i → i + Z.of_nat n = nhbins → mapped (words (cb s)) mem (2 + stacks (take (Z.to_nat nhbins) infos) / 8) →
  built i s A → (∀ p, 0 ≤ p < nhbins → is_Some (bins (cb s) !! p)) →
  length (lg_fill_div s) = 36%nat → length (bin_refilled s) = 36%nat → length (bin_flush_delay_items s) = 36%nat →
  ∃ s' A', init_bins T o infos n i mem (8 + stacks (take (Z.to_nat i) infos)) s = Done (8 + stacks (take (Z.to_nat nhbins) infos), s') ∧
    built nhbins s' A' ∧ same_memory s s'.
Proof.
  induction n as [|n IH]; intros i s A Hi Hn Hm HB Hb L1 L2 L3.
  - replace i with nhbins in * by lia. exists s, A. split_and!; [done|done|]. apply same_memory_slow; [apply evolves_refl|done].
  - cbn [init_bins]. destruct (init_slow_ok s i) as (s1 & E1 & V1 & C1); [lia|done..|]. rewrite (bind_done _ _ _ _ _ E1).
    destruct (lookup_lt_is_Some_2 infos (Z.to_nat i)) as [info Ei]; [lia|]. rewrite (bind_done _ _ _ _ _ (bin_info_ok _ _ _ _ Ei)).
    pose proof (same_memory_slow _ _ V1 C1) as SM1.
    destruct (build_one s1 A i info) as (s2 & E2 & B2 & SM2); [by rewrite C1|lia|done| |rewrite C1; apply Hb; lia|].
    { destruct HB as [F D B]. split; [by rewrite C1|done|done]. }
    rewrite (bind_done _ _ _ _ _ E2). pose proof (same_memory_trans _ _ _ SM1 SM2) as SM12. destruct SM12 as [V12 W12 B12].
    destruct (IH (i + 1) s2 (<[i:=empty_at (array_of i) info]> A)) as (s3 & A3 & E3 & B3 & SM3); try done; try lia.
    + by rewrite W12.
    + intros p Hp. by apply B12, Hb.
    + by destruct V12 as [_ _ (-> & _) _ _ _].
    + by destruct V12 as [_ _ (_ & -> & _) _ _ _].
    + by destruct V12 as [_ _ (_ & _ & ->) _ _ _].
    + exists s3, A3. split_and!; [done|done|]. eapply same_memory_trans; [|exact SM3]. by split.
Qed.

(** Disabled bins are not in the family. *)
Lemma init_disabled_ok n : ∀ i s A,
  nhbins ≤ i → i + Z.of_nat n ≤ Z.of_nat (length infos) → (∀ k info, nhbins ≤ k → infos !! Z.to_nat k = Some info → info_ncached_max info = 0) →
  built nhbins s A → (∀ p, i ≤ p < i + Z.of_nat n → is_Some (bins (cb s) !! p)) →
  ∃ s', init_disabled infos n i mem s = Done (tt, s') ∧ built nhbins s' A ∧ same_memory s s'.
Proof.
  induction n as [|n IH]; intros i s A Hi Hn H0 HB Hb.
  - exists s. split_and!; [done|done|]. apply same_memory_slow; [apply evolves_refl|done].
  - pose proof (cf_bins _ _ _ C). cbn [init_disabled]. destruct (lookup_lt_is_Some_2 infos (Z.to_nat i)) as [info Ei]; [lia|]. rewrite (bind_done _ _ _ _ _ (bin_info_ok _ _ _ _ Ei)).
    destruct (Hb i) as [b Eb]; [lia|]. pose proof (H0 i info Hi Ei) as Hz. pose proof (array_bounds nhbins) as Hnb.
    pose proof (stacks_take_le infos 0 (Z.to_nat nhbins) Hinfos ltac:(lia)) as Hs0. unfold array_of in Hnb.
    erewrite bind_done by (apply on_cb_ok, (cache_bin_init_ok i info mem 0 (cb s) b Eb); rewrite ?Hz; unfold SIZEOF_PTR; lia).
    set (s1 := set_cb _ s). assert (SM1 : same_memory s s1).
    { split; [apply evolves_cb|done|]. intros q Hq. cbn. destruct (decide (q = i)) as [->|]; [rewrite lookup_insert_eq; by eexists|by rewrite lookup_insert_ne]. }
    destruct HB as [F D B]. destruct (IH (i + 1) s1 A) as (s2 & E2 & B2 & SM2); [lia|lia|done| | |].
    + split; [|done|done]. apply (family_other_bins (cb s)); [done|done|]. intros p Hp. apply D in Hp. cbn. rewrite lookup_insert_ne by lia. done.
    + intros p Hp. apply SM1, Hb. lia.
    + exists s2. split_and!; [done|done|by eapply same_memory_trans].
Qed.

(** The state before: the arrays of [tcache_slow_t] are there, and the memory of the stacks. *)
Record raw (s : tc_mem) : Prop := {
  rw_slow : length (lg_fill_div s) = 36%nat ∧ length (bin_refilled s) = 36%nat ∧ length (bin_flush_delay_items s) = 36%nat;
  rw_divs : Forall (λ d, 0 ≤ d ≤ 12) (lg_fill_div s);
  rw_fills : Forall (λ l, 0 ∉ l) (fills s);
  rw_memory : mapped (words (cb s)) mem (2 + stacks (take (Z.to_nat nhbins) infos) / 8)
}.

(** The length of a block is a whole number of words, and its last word is after the arrays. *)
Lemma last_word s :
  mapped (words (cb s)) mem (2 + stacks (take (Z.to_nat nhbins) infos) / 8) → is_Some (words (cb s) !! array_of nhbins).
Proof.
  intros Hm. replace (array_of nhbins) with (array_of nhbins + 8 * 0) by lia. pose proof (cf_bins _ _ _ C). apply block_mapped; [done|lia|lia|lia].
Qed.

Definition cleared (s : tc_mem) : tc_mem :=
  mkTc (mkCbMem (words (cb s)) (zero_bins (Z.to_nat (if nhbins <? SC_NBINS then SC_NBINS else nhbins)) 0 (bins (cb s)))) 0 0
    (lg_fill_div s) (bin_refilled s) (bin_flush_delay_items s) (fills s) (larges s) (empties s) (choose_shard s) (tc_calls s).

Lemma cache_init_ok s :
  raw s → (∀ k info, nhbins ≤ k → infos !! Z.to_nat k = Some info → info_ncached_max info = 0) → SC_NBINS ≤ Z.of_nat (length infos) →
  ∃ s' A, tcache_init T o infos nhbins mem s = Done (fst (cache_bin_info_compute_alloc (take (Z.to_nat nhbins) infos)), s') ∧
    built nhbins s' A ∧ evolves (cleared s) s' [].
Proof.
  intros [(L1 & L2 & L3) Hdv Hf Hm] H0 Hlen2. pose proof (cf_bins _ _ _ C) as Hnb. rewrite nbins_value in *.
  assert (Hall : Z.to_nat (if nhbins <? 36 then 36 else nhbins) = Z.to_nat (Z.max 36 nhbins)) by (destruct (Z.ltb_spec nhbins 36); f_equal; lia).
  unfold tcache_init. rewrite nbins_value. erewrite bind_done by reflexivity. cbv zeta. rewrite Hall. set (s0 := mkTc _ _ _ _ _ _ _ _ _ _ _).
  assert (Hcl : s0 = cleared s) by (unfold s0, cleared; by rewrite nbins_value, Hall). rewrite <- Hcl.
  pose proof (stacks_take_le infos 0 (Z.to_nat nhbins) Hinfos ltac:(lia)) as Hs0.
  assert (Hb0 : ∀ p, 0 ≤ p < Z.max 36 nhbins → is_Some (bins (cb s0) !! p)).
  { intros p Hp. exists zero_bin. apply zero_bins_lookup. lia. }
  assert (Hfirst : is_Some (words (cb s0) !! mem)).
  { specialize (Hm 0). rewrite Z.add_0_r in Hm. apply Hm. pose proof (Z.div_pos _ 8 (proj1 (stacks_take_le infos (Z.to_nat nhbins) (Z.to_nat nhbins) Hinfos ltac:(lia))) ltac:(lia)). lia. }
  unfold cache_bin_preincrement. rewrite Z.add_0_r, (u64_small mem) by (unfold is_u64; lia).
  erewrite bind_done by (apply on_cb_ok; erewrite bind_done by (by apply store_ok); reflexivity). set (s1 := set_cb _ s0).
  assert (Hm1 : mapped (words (cb s1)) mem (2 + stacks (take (Z.to_nat nhbins) infos) / 8)).
  { intros k Hk. apply (write_words_mapped (words (cb s0)) mem [cache_bin_preceding_junk]). by apply Hm. }
  assert (HB : built 0 s1 ∅).
  { split; [split; intros ? ?; rewrite lookup_empty; done| |intros ? ?; by rewrite lookup_empty].
    intros p. rewrite lookup_empty. split; [by intros [? ?]|lia]. }
  destruct (init_bins_ok (Z.to_nat nhbins) 0 s1 ∅) as (s2 & A2 & E2 & B2 & SM2); [lia|lia|done|done|intros p Hp; apply Hb0; lia|done..|].
  change (u64 (0 + SIZEOF_PTR)) with (8 + stacks (take (Z.to_nat 0) infos)). rewrite (bind_done _ _ _ _ _ E2).
  destruct (init_disabled_ok (Z.to_nat (36 - nhbins)) nhbins s2 A2) as (s3 & E3 & B3 & SM3); [lia|lia|done|done| |].
  { intros p Hp. apply SM2. change (bins (cb s1)) with (bins (cb s0)). apply Hb0. lia. }
  rewrite (bind_done _ _ _ _ _ E3).
  assert (Hm3 : mapped (words (cb s3)) mem (2 + stacks (take (Z.to_nat nhbins) infos) / 8)).
  { rewrite (sm_words _ _ SM3), (sm_words _ _ SM2). exact Hm1. }
  unfold cache_bin_postincrement. rewrite (u64_small (mem + (8 + _))) by (unfold is_u64; lia). fold (array_of nhbins).
  erewrite on_cb_ok by (erewrite bind_done by (apply store_ok; by apply last_word); reflexivity).
  set (s4 := set_cb _ s3). exists s4, A2. split_and!.
  - rewrite compute_alloc_ok by (try apply Forall_take; done || lia). unfold SIZEOF_PTR.
    rewrite u64_small by (unfold is_u64; lia). set (x := stacks (take (Z.to_nat nhbins) infos)). replace (8 + x + 8) with (16 + x) by lia. reflexivity.
  - destruct B3 as [F3 D3 X3]. split; [|exact D3|exact X3]. apply (family_store (cb s3)); [exact F3|by apply last_word|].
    intros p a Ea. destruct (X3 p a Ea) as (info & Ei & ->). left. apply array_end; [|done]. apply D3. by eexists.
  - change [] with ([] ++ ([] ++ [] ++ []) : list tc_call). eapply evolves_trans; [apply evolves_cb|]. eapply evolves_trans; [apply SM2|].
    eapply evolves_trans; [apply SM3|apply evolves_cb].
Qed.
End init.

(** ** Boot *)

(** The size of a bin for a small class is even and within what a bin can have. *)
Lemma ncached_max_small o nregs p n :
  p < SC_NBINS → tcache_ncached_max_compute o nregs p = Done n → 2 ≤ n ≤ 8190 ∧ n mod 2 = 0.
Proof.
  intros Hp. unfold tcache_ncached_max_compute. rewrite (proj2 (Z.leb_gt SC_NBINS p)) by done.
  destruct (nregs !! Z.to_nat p) as [r|]; cbn [orelse mbind outcome_bind]; [|done]. cbv zeta. rewrite ncached_max_value.
  assert (Hup : ∀ x, (if negb (x mod 2 =? 0) then u32 (x + 1) else x) mod 2 = 0).
  { intros x. destruct (Z.eqb_spec (x mod 2) 0); [done|]. cbn [negb]. unfold u32. dlia. }
  assert (Hlow : ∀ x, 2 ≤ (if x <? 2 then 2 else x)) by (intros x; destruct (Z.ltb_spec x 2); lia).
  assert (Hev : ∀ x, x mod 2 = 0 → (if x <? 2 then 2 else x) mod 2 = 0) by (intros x Hx; by destruct (x <? 2)).
  set (lo0 := if negb (opt_tcache_nslots_small_min o mod 2 =? 0) then _ else _).
  set (hi0 := if 8191 <? opt_tcache_nslots_small_max o then 8191 else opt_tcache_nslots_small_max o).
  assert (Hhi0 : hi0 ≤ 8191) by (unfold hi0; destruct (Z.ltb_spec 8191 (opt_tcache_nslots_small_max o)); lia).
  set (hi1 := if negb (hi0 mod 2 =? 0) then hi0 - 1 else hi0).
  assert (Hhi1 : hi1 ≤ 8190 ∧ hi1 mod 2 = 0).
  { unfold hi1. destruct (Z.eqb_spec (hi0 mod 2) 0); cbn [negb]; [|dlia]. split; [|done]. assert (hi0 ≠ 8191) by (by intros ->). lia. }
  set (lo1 := if lo0 <? 2 then 2 else lo0). set (hi2 := if hi1 <? 2 then 2 else hi1).
  assert (H2 : 2 ≤ hi2 ≤ 8190) by (unfold hi2; destruct (Z.ltb_spec hi1 2); lia).
  pose proof (Hev hi1 (proj2 Hhi1)) as Hhe. fold hi2 in Hhe. pose proof (Hev lo0 (Hup _)) as Hle. fold lo1 in Hle. pose proof (Hlow lo0) as Hll. fold lo1 in Hll.
  set (lo2 := if hi2 <? lo1 then hi2 else lo1).
  assert (Hlo2 : 2 ≤ lo2 ≤ hi2 ∧ lo2 mod 2 = 0) by (unfold lo2; destruct (Z.ltb_spec hi2 lo1); lia).
  destruct (32 <=? Z.abs (opt_lg_tcache_nslots_mul o)); [done|].
  set (c0 := if opt_lg_tcache_nslots_mul o <? 0 then _ else _). pose proof (Hup c0) as Hc. set (c := if negb (c0 mod 2 =? 0) then _ else _) in *.
  intros [= <-]. destruct (Z.leb_spec c lo2); [lia|]. destruct (Z.leb_spec c hi2); lia.
Qed.

Lemma boot_infos_ok o nregs nhbins n : ∀ i l,
  boot_infos o nregs nhbins n i = Done l →
  length l = n ∧ ∀ k, (k < n)%nat → ∃ m, l !! k = Some (cache_bin_info_init m) ∧
    if i + Z.of_nat k <? nhbins then tcache_ncached_max_compute o nregs (i + Z.of_nat k) = Done m else m = 0.
Proof.
  induction n as [|n IH]; intros i l; cbn [boot_infos].
  - intros [= <-]. split; [done|lia].
  - intros (m & Em & (l' & El & [= <-])%outcome_bind_done_inv)%outcome_bind_done_inv. destruct (IH (i + 1) l' El) as [IH1 IH2].
    split; [cbn; by rewrite IH1|]. intros [|k] Hk.
    + exists m. split; [done|]. rewrite Z.add_0_r. destruct (i <? nhbins); [done|congruence].
    + destruct (IH2 k ltac:(lia)) as (m' & E' & H'). exists m'. split; [done|]. by replace (i + Z.of_nat (S k)) with (i + 1 + Z.of_nat k) by lia.
Qed.

Lemma ncached_max_ok o nregs p n :
  1 ≤ opt_tcache_nslots_large o ≤ 8191 → tcache_ncached_max_compute o nregs p = Done n → 1 ≤ n ≤ 8191.
Proof.
  intros Hl E. destruct (Z.lt_ge_cases p SC_NBINS) as [Hp|Hp]; [pose proof (ncached_max_small o nregs p n Hp E); lia|].
  unfold tcache_ncached_max_compute in E. rewrite (proj2 (Z.leb_le SC_NBINS p)) in E by done. by injection E as <-.
Qed.

(** What the tables of bins are like after boot. *)
Lemma tcache_boot_ok T o nregs max maxclass nhbins infos size align :
  tcache_boot T o nregs max false true = Done (Some (maxclass, nhbins, infos, (size, align))) →
  0 < nhbins < 2 ^ 32 → 1 ≤ opt_tcache_nslots_large o ≤ 8191 →
  Z.of_nat (length infos) = Z.max SC_NBINS nhbins ∧ Forall (λ i, 0 ≤ info_ncached_max i ≤ 8191) infos ∧
  (∀ k, 0 ≤ k < nhbins → ∃ info, infos !! Z.to_nat k = Some info ∧ 1 ≤ info_ncached_max info) ∧
  (∀ k info, nhbins ≤ k → infos !! Z.to_nat k = Some info → info_ncached_max info = 0) ∧
  size = fst (cache_bin_info_compute_alloc (take (Z.to_nat nhbins) infos)).
Proof.
  intros E Hn Hl. unfold tcache_boot in E. apply outcome_bind_done_inv in E as (mc & Emc & E). apply outcome_bind_done_inv in E as (ind & Ei & E).
  apply outcome_bind_done_inv in E as (l & El & E). set (nh := u32 (ind + 1)) in *.
  injection E as <- <- <- Es _. change (info_ncached_max (cache_bin_info_init ?m)) with (u16 m) in *.
  assert (Hres : (if nh <? SC_NBINS then SC_NBINS else nh) = Z.max SC_NBINS nh) by (destruct (Z.ltb_spec nh SC_NBINS); lia). rewrite Hres in El.
  rewrite nbins_value in *. destruct (boot_infos_ok _ _ _ _ _ _ El) as [L H]. rewrite L.
  assert (Hcl : ∀ k, (k < length l)%nat → ∃ info, l !! k = Some info ∧ 0 ≤ info_ncached_max info ≤ 8191 ∧
    if Z.of_nat k <? nh then 1 ≤ info_ncached_max info else info_ncached_max info = 0).
  { intros k Hk. rewrite L in Hk. destruct (H k Hk) as (m & Em & Hm). rewrite Z.add_0_l in Hm. exists (cache_bin_info_init m). split; [done|].
    change (info_ncached_max (cache_bin_info_init m)) with (u16 m). destruct (Z.of_nat k <? nh); [|by subst m].
    pose proof (ncached_max_ok o nregs _ m Hl Hm). unfold u16. rewrite Z.mod_small by lia. lia. }
  split_and!.
  - lia.
  - apply list.Forall_lookup_2. intros k info Ek. destruct (Hcl k) as (info' & E' & H' & _); [by apply lookup_lt_Some in Ek|]. congruence.
  - intros k Hk. destruct (Hcl (Z.to_nat k)) as (info & E' & _ & H'); [lia|]. exists info. split; [done|].
    rewrite Z2Nat.id, (proj2 (Z.ltb_lt k nh)) in H' by lia. exact H'.
  - intros k info Hk Ek. destruct (Hcl (Z.to_nat k)) as (info' & E' & _ & H'); [by apply lookup_lt_Some in Ek|].
    rewrite Z2Nat.id, (proj2 (Z.ltb_ge k nh)) in H' by lia. congruence.
  - by rewrite <- Es.
Qed.

Lemma stacks_le l : Forall (λ i, 0 ≤ info_ncached_max i ≤ 8191) l → stacks l ≤ 65528 * Z.of_nat (length l).
Proof.
  induction 1 as [|x l Hx _ IH]; [done|]. change (stacks (x :: l)) with (info_ncached_max x * 8 + stacks l). cbn [length]. lia.
Qed.

(** A cache initialised on a block of the size that booting computed is empty and well formed, and the whole block is used. *)
Lemma starts_ok T o nregs max maxclass nhbins infos size align mem s (edata_of arena_ind binshard : Z → Z) (arena_is_auto : Z → bool) :
  tcache_boot T o nregs max false true = Done (Some (maxclass, nhbins, infos, (size, align))) →
  tc_config T o nhbins → 1 ≤ opt_tcache_nslots_large o ≤ 8191 → 0 < mem → mem + size ≤ 2 ^ 64 → mapped (words (cb s)) mem (size / 8) →
  length (lg_fill_div s) = 36%nat → length (bin_refilled s) = 36%nat → length (bin_flush_delay_items s) = 36%nat →
  Forall (λ d, 0 ≤ d ≤ 12) (lg_fill_div s) → Forall (λ l, 0 ∉ l) (fills s) →
  ∃ s' A, tcache_init T o infos nhbins mem s = Done (size, s') ∧ tc_ok infos nhbins s' A ∧ held A = [] ∧ tc_calls s' = tc_calls s.
Proof.
  intros E C Hl Hmem Hroom Hm L1 L2 L3 Hd Hf. pose proof (cf_bins _ _ _ C) as Hn.
  destruct (tcache_boot_ok _ _ _ _ _ _ _ _ _ E Hn Hl) as (Hlen & Hall & Hen & Hdis & Hsize).
  assert (Hst : Forall (λ i, 0 ≤ info_ncached_max i ≤ 8191) (take (Z.to_nat nhbins) infos)) by (by apply Forall_take).
  pose proof (stacks_le _ Hst) as Hle. rewrite length_take in Hle.
  assert (Hs16 : size = 16 + stacks (take (Z.to_nat nhbins) infos)) by (rewrite Hsize; apply compute_alloc_ok; [done|lia]).
  assert (Hdiv : size / 8 = 2 + stacks (take (Z.to_nat nhbins) infos) / 8).
  { destruct (stacks_words _ Hst) as (k & _ & Ek). rewrite Hs16, Ek. dlia. }
  assert (RW : raw infos nhbins mem s) by (split; [done|done|done|by rewrite <- Hdiv]).
  destruct (cache_init_ok T o infos nhbins edata_of arena_ind binshard arena_is_auto C Hall ltac:(lia) mem Hmem ltac:(lia) s RW Hdis ltac:(lia))
    as (s' & A & Ei & [F D B] & V). rewrite <- Hsize in Ei. exists s', A.
  assert (Hob : ∀ p a, A !! p = Some a → cached a = [] ∧ stashed a = []).
  { intros p a Ea. destruct (B p a Ea) as (info & _ & ->). done. }
  split; [exact Ei|]. split; [|split; [by apply held_nil|]].
  - destruct V as [V1 V2 (V31 & V32 & V33) V4 V5 V6]. split; [exact F| |exact D| | | |by apply V5|by apply V6].
    + intros p a Ea. destruct (B p a Ea) as (info & Einfo & ->). exists info. split; [done|]. split; [done|].
      destruct (Hen p) as (info' & E' & H'); [apply D; by eexists|]. cbn. congruence.
    + intros p a Ea. destruct (Hob p a Ea) as [-> ->]. split; [done|apply not_elem_of_nil].
    + rewrite V31, V32, V33. done.
    + rewrite V4. cbn. lia.
  - rewrite (ev_calls _ _ _ _ _ _ _ V). cbn. by rewrite app_nil_r.
Qed.
