(* ===== verification/TcacheTheorems.v ===== *)
(** * Thread caches: what they promise

    From the memory and the sizes that booting computes to any history of operations. *)
From stdpp Require Import base list gmap numbers.
From S2P Require Import Prelude BitUtil SizeClass Sz CacheBin CacheBinOps CacheBinTheorems Tcache TcacheFlush TcacheInv TcacheSteps TcacheInit.

(** ** Histories *)

Inductive tc_op : Type :=
| TAllocSmall (binind : Z) (zero : bool)
| TAllocLarge (binind : Z) (zero : bool)
| TDallocSmall (ptr binind : Z)
| TDallocLarge (ptr binind : Z)
| TEvent
| TFlush.

(** The operation on an enabled size class of its kind; what is freed is an object. *)
Definition tc_valid (nhbins : Z) (op : tc_op) : Prop :=
  match op with
  | TAllocSmall p _ => 0 ≤ p < nhbins ∧ p < SC_NBINS
  | TAllocLarge p _ => SC_NBINS ≤ p < nhbins
  | TDallocSmall ptr p => 0 ≤ p < nhbins ∧ p < SC_NBINS ∧ ptr ≠ 0
  | TDallocLarge ptr p => SC_NBINS ≤ p < nhbins ∧ ptr ≠ 0
  | TEvent | TFlush => True
  end.

(** The objects that the thread frees. *)
Definition freed (op : tc_op) : list Z := match op with TDallocSmall ptr _ | TDallocLarge ptr _ => [ptr] | _ => [] end.

Section history.
Context (T : sz_tables) (o : tcache_opts) (infos : list cache_bin_info_t) (nhbins : Z).
Context (edata_of arena_ind binshard : Z → Z) (arena_is_auto : Z → bool) (arena : Z).

(** An allocation returns its object, everything else 0. *)
Definition tc_exec (op : tc_op) : M tc_mem Z :=
  match op with
  | TAllocSmall p zero => tcache_alloc_small T infos edata_of arena_ind binshard arena_is_auto arena p zero
  | TAllocLarge p zero => tcache_alloc_large T infos edata_of arena_ind binshard arena_is_auto arena p zero
  | TDallocSmall ptr p => tcache_dalloc_small o infos edata_of arena_ind binshard arena_is_auto ptr p;; mret 0
  | TDallocLarge ptr p => tcache_dalloc_large o infos edata_of arena_ind binshard arena_is_auto ptr p;; mret 0
  | TEvent => tcache_event T o infos nhbins edata_of arena_ind binshard arena_is_auto;; mret 0
  | TFlush => tcache_flush_cache infos nhbins edata_of arena_ind binshard arena_is_auto;; mret 0
  end.

Fixpoint tc_run (ops : list tc_op) : M tc_mem (list Z) :=
  match ops with [] => mret [] | op :: ops => r ← tc_exec op; rs ← tc_run ops; mret (r :: rs) end.

Context (C : tc_config T o nhbins) (Harena : arena ≠ 0).
Local Notation tc_ok := (tc_ok infos nhbins).
Local Notation conserves := (conserves infos nhbins edata_of arena_ind binshard arena_is_auto).

Lemma bin_of s A p : tc_ok s A → 0 ≤ p < nhbins → ∃ a, A !! p = Some a.
Proof. intros K Hp. exact (proj2 (tk_bins _ _ _ _ K p) Hp). Qed.

Lemma exec_ok op s A :
  tc_ok s A → tc_valid nhbins op →
  ∃ r s' A' cs, tc_exec op s = Done (r, s') ∧ conserves s s' A A' (nonnull [r]) (freed op) cs.
Proof.
  intros K Hv. destruct op as [p zero|p zero|ptr p|ptr p| |]; cbn [tc_valid tc_exec freed] in *.
  - destruct Hv as [Hp Hs]. destruct (bin_of s A p K Hp) as [a Ea].
    destruct (alloc_small_ok T o infos nhbins edata_of arena_ind binshard arena_is_auto C s A p a arena zero K Ea Hs Harena) as (r & s' & a' & cs & E & B).
    exists r, s', (<[p:=a']> A), cs. split; [exact E|]. by apply (on_bin_conserves _ _ _ _ _ _ s s' A p a a'); [| |apply not_elem_of_nil|].
  - destruct (bin_of s A p K) as [a Ea]; [rewrite nbins_value in Hv; lia|].
    destruct (alloc_large_ok T o infos nhbins edata_of arena_ind binshard arena_is_auto C s A p a arena zero K Ea Harena) as (r & s' & a' & cs & E & B).
    exists r, s', (<[p:=a']> A), cs. split; [exact E|]. by apply (on_bin_conserves _ _ _ _ _ _ s s' A p a a'); [| |apply not_elem_of_nil|].
  - destruct Hv as (Hp & Hs & Hne). destruct (bin_of s A p K Hp) as [a Ea].
    destruct (dalloc_small_ok T o infos nhbins edata_of arena_ind binshard arena_is_auto C s A p a ptr K Ea) as (s' & a' & cs & E & B).
    exists 0, s', (<[p:=a']> A), cs. rewrite (bind_done _ _ _ _ _ E). split; [done|].
    apply (on_bin_conserves _ _ _ _ _ _ s s' A p a a'); [done|done|clear -Hne; set_solver|exact B].
  - destruct Hv as [Hp Hne]. destruct (bin_of s A p K) as [a Ea]; [rewrite nbins_value in Hp; lia|].
    destruct (dalloc_large_ok T o infos nhbins edata_of arena_ind binshard arena_is_auto C s A p a ptr K Ea) as (s' & a' & cs & E & B).
    exists 0, s', (<[p:=a']> A), cs. rewrite (bind_done _ _ _ _ _ E). split; [done|].
    apply (on_bin_conserves _ _ _ _ _ _ s s' A p a a'); [done|done|clear -Hne; set_solver|exact B].
  - destruct (event_ok T o infos nhbins edata_of arena_ind binshard arena_is_auto C s A K) as (s' & a & rem & cs & E & _ & _ & _ & _ & CV).
    eexists 0, s', _, cs. rewrite (bind_done _ _ _ _ _ E). split; [done|exact CV].
  - destruct (flush_cache_ok T o infos nhbins edata_of arena_ind binshard arena_is_auto C s A K) as (s' & A' & cs & E & CV & _ & _).
    exists 0, s', A', cs. rewrite (bind_done _ _ _ _ _ E). by split.
Qed.

Lemma run_ok ops : ∀ s A,
  tc_ok s A → Forall (tc_valid nhbins) ops →
  ∃ rs s' A' cs, tc_run ops s = Done (rs, s') ∧ conserves s s' A A' (nonnull rs) (ops ≫= freed) cs.
Proof.
  induction ops as [|op ops IH]; intros s A K Hv.
  - exists [], s, A, []. split; [done|by apply conserves_refl].
  - apply list.Forall_cons in Hv as [Hop Hops]. destruct (exec_ok op s A K Hop) as (r & s1 & A1 & c1 & E1 & CV1).
    destruct (IH s1 A1 (cv_ok _ _ _ _ _ _ _ _ _ _ _ _ _ CV1) Hops) as (rs & s2 & A2 & c2 & E2 & CV2).
    exists (r :: rs), s2, A2, (c1 ++ c2). cbn [tc_run]. rewrite (bind_done _ _ _ _ _ E1), (bind_done _ _ _ _ _ E2). split; [done|].
    change (r :: rs) with ([r] ++ rs). rewrite nonnull_app. change ((op :: ops) ≫= freed) with (freed op ++ (ops ≫= freed)). by eapply conserves_trans.
Qed.
End history.

(** C29: in a build without [config_uaf_detection] (and with options as [tc_config] bounds them), a thread cache loses no object and invents
    none.  However valid allocations, deallocations, collections and flushes of a thread that has an arena follow each other, each
    returns, and in the end the objects that the thread got and that are in the cache and that the arenas have back are the ones that
    were in the cache and that the thread freed and that the arenas gave, each as often.  Every small object that a flush gave back went back while
    the lock of its own arena and bin was held and no other; every large one while no lock was held; large ones are prepared under the lock
    of the large objects of their arena, in an automatic arena under none.  No lock was taken while one was held, or is still held at the end,
    and the invariant of the cache holds again. *)
Theorem tcache_conserves T o infos nhbins edata_of arena_ind binshard arena_is_auto arena ops s A :
  tc_config T o nhbins → arena ≠ 0 → tc_ok infos nhbins s A → Forall (tc_valid nhbins) ops →
  ∃ rs s' A' cs, tc_run T o infos nhbins edata_of arena_ind binshard arena_is_auto arena ops s = Done (rs, s') ∧
    tc_ok infos nhbins s' A' ∧ tc_calls s' = tc_calls s ++ cs ∧ locks edata_of arena_ind binshard arena_is_auto None cs = Some None ∧
    nonnull rs ++ held A' ++ given cs ≡ₚ held A ++ (ops ≫= freed) ++ got cs.
Proof.
  intros C Ha K Hv. destruct (run_ok T o infos nhbins edata_of arena_ind binshard arena_is_auto arena C Ha ops s A K Hv)
    as (rs & s' & A' & cs & E & [H1 H2 H3 H4]). by exists rs, s', A', cs.
Qed.

(** An event collects the bin whose turn it is: it gives back the objects at the bottom of the stack, none of which has been used since the bin
    was last collected, nothing else, and keeps the rest; the low water mark then is the number of objects kept, and the next bin is up. *)
Theorem tcache_event_collects T o infos nhbins edata_of arena_ind binshard arena_is_auto s A :
  tc_config T o nhbins → tc_ok infos nhbins s A →
  ∃ s' a rem cs, tcache_event T o infos nhbins edata_of arena_ind binshard arena_is_auto s = Done (tt, s') ∧
    A !! next_gc_bin s = Some a ∧ len (cached a) - low_water a ≤ rem ≤ len (cached a) ∧
    tc_calls s' = tc_calls s ++ cs ∧ given cs ≡ₚ drop (Z.to_nat rem) (cached a) ∧ next_gc_bin s' = (next_gc_bin s + 1) mod nhbins ∧
    tc_ok infos nhbins s' (<[next_gc_bin s:=mkABin (ab_lo a) (ab_max a) (take (Z.to_nat rem) (cached a)) [] rem]> A).
Proof.
  intros C K. destruct (event_ok T o infos nhbins edata_of arena_ind binshard arena_is_auto C s A K) as (s' & a & rem & cs & E & H1 & H2 & H3 & H4 & CV).
  exists s', a, rem, cs. split; [exact E|]. split; [exact H1|]. split; [exact H2|]. split; [apply CV|]. split; [exact H3|]. split; [exact H4|apply CV].
Qed.

(** C31: a flush of the at most 8191 objects of an array.  Whatever the arenas and shards of the objects, the rounds come to an end, and each object
    is given back once.  Small objects are given back while the lock of their own arena and shard is held and no other.  Large objects are
    each prepared once, under the lock of the large objects of their arena, unless the arena is automatic, where none is taken; and they are given back
    while no lock is held.  At the end no lock is held, the requests of the bin have been told to the arena of the cache once and are
    cleared, and no memory but the flushed slots has changed. *)
Theorem tcache_flush_exact edata_of arena_ind binshard arena_is_auto small p arr l s b :
  bins (cb s) !! p = Some b → 0 ≤ arr_ptr arr → arr_ptr arr + 8 * len l ≤ 2 ^ 64 → len l ≤ 8191 → words_at (words (cb s)) (arr_ptr arr) l →
  ∃ s' cs, tcache_bin_flush_impl edata_of arena_ind binshard arena_is_auto p arr (len l) small s = Done (tt, s') ∧
    tc_calls s' = tc_calls s ++ cs ∧ locks edata_of arena_ind binshard arena_is_auto None cs = Some None ∧
    given cs ≡ₚ l ∧ (prepped cs ≡ₚ if small then [] else map edata_of l) ∧ requests cs = [(slow_arena s, nrequests b)] ∧
    bins (cb s') = <[p:=set_nrequests 0 b]> (bins (cb s)) ∧ touched (arr_ptr arr) (len l) (words (cb s)) (words (cb s')).
Proof.
  intros Eb H1 H2 H3 H4. destruct (flush_impl_ok edata_of arena_ind binshard arena_is_auto small p arr l s b Eb H1 H2 H3 H4)
    as (s' & cs & E & F & [T1 T2] & (R1 & R2 & R3 & _)).
  exists s', cs. split; [exact E|]. split; [apply F|]. split; [done|]. split; [done|]. split; [done|]. split; [done|]. split; [done|apply F].
Qed.

(** C32: the start of a thread cache.  With the sizes that booting computed, and a block of memory of the size it computed, [tcache_init] gives every
    enabled size class an empty bin in the block, no two of which share memory, fills the block exactly, and the invariant holds. *)
Theorem tcache_init_starts T o nregs max maxclass nhbins infos size align mem s :
  tcache_boot T o nregs max false true = Done (Some (maxclass, nhbins, infos, (size, align))) →
  tc_config T o nhbins → 1 ≤ opt_tcache_nslots_large o ≤ 8191 → 0 < mem → mem + size ≤ 2 ^ 64 → mapped (words (cb s)) mem (size / 8) →
  length (lg_fill_div s) = 36%nat → length (bin_refilled s) = 36%nat → length (bin_flush_delay_items s) = 36%nat →
  Forall (λ d, 0 ≤ d ≤ 12) (lg_fill_div s) → Forall (λ l, 0 ∉ l) (fills s) →
  ∃ s' A, tcache_init T o infos nhbins mem s = Done (size, s') ∧ tc_ok infos nhbins s' A ∧ held A = [] ∧ tc_calls s' = tc_calls s.
Proof. apply starts_ok; [exact (λ x, x)|exact (λ x, x)|exact (λ x, x)|exact (λ _, false)]. Qed.

(** ** A full bin with more stashed than flushing keeps *)

Lemma on_cb_fault {X} (m : M cb_mem X) s f : m (cb s) = Fault f → on_cb m s = Fault f.
Proof. intros E. unfold on_cb, zoom. by rewrite E. Qed.

Section underflow.
Context (o : tcache_opts) (infos : list cache_bin_info_t) (edata_of arena_ind binshard : Z → Z) (arena_is_auto : Z → bool).
Context (s : tc_mem) (A : gmap Z abin) (p : Z) (a : abin) (info : cache_bin_info_t).
Context (Ea : A !! p = Some a) (Ei : infos !! Z.to_nat p = Some info) (Hi : info_ncached_max info = ab_max a).

(** Where a flush down to [rem] of a bin with fewer objects starts. *)
Definition below (rem : Z) : Z := u64 (ab_end a - u16 (len (cached a) - rem) * SIZEOF_PTR).

Lemma flush_below rem small :
  family (cb s) A → len (cached a) < rem ≤ 8191 → words (cb s) !! below rem = None →
  tcache_bin_flush_bottom infos edata_of arena_ind binshard arena_is_auto p rem small s = Fault BadPointer.
Proof.
  intros F Hrem Hno. destruct (flush_stashed_ok infos edata_of arena_ind binshard arena_is_auto s A p a info small F Ea Ei Hi)
    as (s1 & cs & E1 & F1 & _ & _ & W1).
  unfold tcache_bin_flush_bottom. rewrite (bind_done _ _ _ _ _ E1).
  destruct (fm_bins _ _ F1 p (with_stashed [] a) (lookup_insert_eq _ _ _)) as (b & Eb & R & _).
  destruct (fm_bins _ _ F p a Ea) as (b0 & _ & R0 & _). pose proof (rep_numbers _ _ _ R0) as (N1 & N2 & N3 & N4 & N5 & N6 & N7 & N8).
  erewrite bind_done by (by apply on_cb_read, bin_at_ok). cbv zeta. unfold cache_bin_ncached_get_local. rewrite (ncached_ok _ _ _ R).
  change (cached (with_stashed [] a)) with (cached a). set (k := len (cached a) - rem).
  assert (H32 : u32 k = 2 ^ 32 + k) by (unfold u32; rewrite <- (Z_mod_plus_full k 1 (2 ^ 32)), Z.mod_small by (unfold k; lia); lia).
  assert (H16 : u16 (u32 k) = u16 k).
  { rewrite H32. unfold u16. replace (2 ^ 32 + k) with (k + 2 ^ 16 * 2 ^ 16) by lia. by rewrite Z_mod_plus_full. }
  unfold cache_bin_init_ptr_array_for_flush.
  erewrite bind_done by (apply on_cb_read; by erewrite bind_done by (by apply bin_at_ok)).
  rewrite (empty_position_ok _ _ _ R), H16. change (ab_end (with_stashed [] a)) with (ab_end a).
  change (u64 (ab_end a - u16 k * SIZEOF_PTR)) with (below rem).
  assert (Hn : ∃ n, Z.to_nat (u32 k) = S n) by (exists (Z.to_nat (u32 k - 1)); rewrite H32; unfold k; lia). destruct Hn as [n Hn].
  assert (Hno1 : words (cb s1) !! below rem = None).
  { rewrite (proj1 W1); [exact Hno|]. intros j Hj E. destruct (rp_mapped _ _ _ R0 j) as [v Ev]; [lia|]. congruence. }
  apply bind_fault. unfold tcache_bin_flush_impl, tcache_bin_flush_edatas_lookup. rewrite Hn. apply bind_fault, bind_fault, on_cb_fault.
  cbn [arr_ptr load_n]. apply bind_fault. unfold load. erewrite bind_done by reflexivity. by rewrite Hno1.
Qed.
End underflow.

(** C33: freeing an object of a small class whose bin is full, with more objects stashed than a flush would leave room for, reads
    memory outside the array of the bin: what is flushed is counted without the stashed objects, fewer than are to be kept, and wraps around. *)
Theorem tcache_dalloc_small_wraps o infos edata_of arena_ind binshard arena_is_auto s A p a info ptr :
  let rem := Z.shiftr (ab_max a) (opt_lg_tcache_flush_small_div o) in
  family (cb s) A → A !! p = Some a → infos !! Z.to_nat p = Some info → info_ncached_max info = ab_max a → 0 ≤ opt_lg_tcache_flush_small_div o →
  len (cached a) + len (stashed a) = ab_max a → len (cached a) < rem → words (cb s) !! below a rem = None →
  tcache_dalloc_small o infos edata_of arena_ind binshard arena_is_auto ptr p s = Fault BadPointer.
Proof.
  intros rem F Ea Ei Hi Hdiv Hfull Hrem Hno. destruct (fm_bins _ _ F p a Ea) as (b & Eb & R & Hlow).
  pose proof (rep_numbers _ _ _ R) as (N1 & N2 & N3 & N4 & N5 & N6 & N7 & N8).
  assert (Hle : rem ≤ ab_max a) by (apply shift_bounds; lia).
  assert (∃ s1, (if cache_bin_nonfast_aligned (config_uaf_detection o) (san_cache_bin_nonfast_mask o) ptr
      then tc_do (TcJunk ptr);; on_cb (cache_bin_stash p ptr) else mret false) s = Done (false, s1) ∧ cb s1 = cb s) as (s1 & E1 & C1).
  { destruct (cache_bin_nonfast_aligned _ _ ptr); [|by exists s]. erewrite bind_done by reflexivity. exists (tc_add (TcJunk ptr) s). split; [|done].
    destruct (stash_ok (cb s) p b a Eb R ptr Hlow) as (ok & c & E & H). rewrite (proj2 (Z.eqb_eq _ _) Hfull) in H. destruct H as [-> ->]. by apply on_cb_read. }
  unfold tcache_dalloc_small. rewrite (bind_done _ _ _ _ _ E1). cbv beta iota. rewrite <- C1 in F, Eb, R, Hno.
  destruct (put_ok edata_of arena_ind binshard arena_is_auto s1 A p a ptr F Ea) as (ok & s2 & E2 & H). rewrite (proj2 (Z.eqb_eq _ _) Hfull) in H. destruct H as [-> ->].
  rewrite (bind_done _ _ _ _ _ E2). cbv beta iota. unfold tcache_small_bin_disabled, cache_bin_info_ncached_max.
  erewrite bind_done by (by erewrite bind_done by (by apply bin_info_ok)). rewrite Hi, (proj2 (Z.eqb_neq _ 0)) by lia.
  rewrite (bind_done _ _ _ _ _ (bin_info_ok _ _ _ _ Ei)), Hi. fold rem. apply bind_fault.
  apply (flush_below infos _ _ _ _ s1 A p a info); [done|done|done|done|lia|done].
Qed.

(** ** An example: two size classes, of bins for two objects *)

Module TcacheExample.
Definition T : sz_tables := mkSz [] [8; 16] [0; 0; 1] 0.
Definition o : tcache_opts := mkTcOpts 0 2 2 20 1 1 1 false 0.
Definition nregs : list Z := [512; 256].
Definition infos : list cache_bin_info_t := [mkInfo 2; mkInfo 2] ++ replicate 34 (mkInfo 0).
Definition mem : cb_mem := mkCbMem (write_words ∅ 4096 [0; 0; 0; 0; 0; 0]) ∅.
Definition start : tc_mem :=
  mkTc mem 0 0 (replicate 36 0) (replicate 36 false) (replicate 36 0) [[5000; 5008]] [] [] (λ _, 0) [].

(** The descriptor of an object by its page, of an arena by the parity of that. *)
Definition edata_of (x : Z) : Z := x / 4096.
Definition arena_ind (e : Z) : Z := e mod 2.
Definition binshard (e : Z) : Z := 0.
Definition arena_is_auto (i : Z) : bool := true.

Lemma boot : tcache_boot T o nregs 16 false true = Done (Some (16, 2, infos, (48, 4096))).
Proof. vm_compute. reflexivity. Qed.

Lemma config : tc_config T o 2.
Proof.
  split; [reflexivity|discriminate|discriminate|done|]. intros p Hp. assert (p = 0 ∨ p = 1) as [-> | ->] by lia; eexists; (split; [vm_compute; reflexivity|done]).
Qed.

Lemma memory : mapped (words (cb start)) 4096 (48 / 8).
Proof.
  intros k Hk. change (48 / 8) with 6 in Hk.
  assert (k = 0 ∨ k = 1 ∨ k = 2 ∨ k = 3 ∨ k = 4 ∨ k = 5) as [-> | [-> | [-> | [-> | [-> | ->]]]]] by lia; vm_compute; by eexists.
Qed.

(** What is needed of the state before. *)
Lemma start_fits :
  length (lg_fill_div start) = 36%nat ∧ length (bin_refilled start) = 36%nat ∧ length (bin_flush_delay_items start) = 36%nat ∧
  Forall (λ d, 0 ≤ d ≤ 12) (lg_fill_div start) ∧ Forall (λ l, 0 ∉ l) (fills start).
Proof.
  split; [reflexivity|]. split; [reflexivity|]. split; [reflexivity|]. split.
  - cbn [start lg_fill_div]. apply Forall_replicate. lia.
  - constructor; [|constructor]. intros H. apply list_elem_of_In in H. destruct H as [H|[H|[]]]; discriminate.
Qed.

Lemma starts : ∃ s A, tcache_init T o infos 2 4096 start = Done (48, s) ∧ tc_ok infos 2 s A ∧ held A = [] ∧ tc_calls s = [].
Proof.
  destruct start_fits as (L1 & L2 & L3 & Hd & Hf).
  apply (starts_ok T o nregs 16 16 2 infos 48 4096 4096 start edata_of arena_ind binshard arena_is_auto);
    [exact boot|exact config|split; vm_compute; discriminate|reflexivity|vm_compute; discriminate|exact memory|exact L1|exact L2|exact L3|exact Hd|exact Hf].
Qed.

(** A full bin, of which all is stashed. *)
Definition full : abin := mkABin 64 2 [] [7; 9] 0.
Definition full_mem : cb_mem := mkCbMem (write_words ∅ 56 [0; 7; 9; 0]) {[0 := mkBin 80 0 80 80 80]}.
Definition full_state : tc_mem := mkTc full_mem 0 0 [] [] [] [] [] [] (λ _, 0) [].

Lemma full_family : family full_mem {[0 := full]}.
Proof.
  split.
  - intros p a [<- <-]%lookup_singleton_Some. exists (mkBin 80 0 80 80 80). split; [reflexivity|]. split; [|vm_compute; discriminate].
    split; [vm_compute; discriminate|vm_compute; discriminate|split; vm_compute; discriminate|vm_compute; discriminate|split; vm_compute; discriminate
      |reflexivity|reflexivity|reflexivity|reflexivity| |by intros k v|].
    + intros k Hk. change (ab_max full) with 2 in Hk. change (ab_lo full) with 64.
      assert (k = 0 ∨ k = 1 ∨ k = 2) as [-> | [-> | ->]] by lia; vm_compute; by eexists.
    + intros [|[|k]] v Hk; [injection Hk as <-; reflexivity|injection Hk as <-; reflexivity|by destruct k].
  - intros p a [<- <-]%lookup_singleton_Some. split; [vm_compute; discriminate|]. vm_compute. by eexists.
  - intros p q a a' [<- _]%lookup_singleton_Some [<- _]%lookup_singleton_Some. done.
Qed.
End TcacheExample.

Lemma tcache_init_starts_witness :
  ∃ s A, tcache_init TcacheExample.T TcacheExample.o TcacheExample.infos 2 4096 TcacheExample.start = Done (48, s) ∧
    tc_ok TcacheExample.infos 2 s A ∧ held A = [] ∧ tc_calls s = [].
Proof.
  destruct TcacheExample.start_fits as (L1 & L2 & L3 & Hd & Hf).
  apply (tcache_init_starts TcacheExample.T TcacheExample.o TcacheExample.nregs 16 16 2 TcacheExample.infos 48 4096 4096 TcacheExample.start);
    [exact TcacheExample.boot|exact TcacheExample.config|split; vm_compute; discriminate|reflexivity|vm_compute; discriminate
    |exact TcacheExample.memory|exact L1|exact L2|exact L3|exact Hd|exact Hf].
Defined.

Lemma tcache_conserves_witness :
  ∃ s A rs s' A' cs, tc_ok TcacheExample.infos 2 s A ∧
    tc_run TcacheExample.T TcacheExample.o TcacheExample.infos 2 TcacheExample.edata_of TcacheExample.arena_ind TcacheExample.binshard
      TcacheExample.arena_is_auto 1 [TDallocSmall 4096 0; TDallocSmall 8192 0; TDallocSmall 12288 0; TAllocSmall 0 true; TEvent; TFlush] s = Done (rs, s') ∧
    tc_calls s' = tc_calls s ++ cs ∧ nonnull rs ++ held A' ++ given cs ≡ₚ [4096; 8192; 12288] ++ got cs.
Proof.
  destruct TcacheExample.starts as (s & A & _ & K & H0 & _).
  destruct (tcache_conserves TcacheExample.T TcacheExample.o TcacheExample.infos 2 TcacheExample.edata_of TcacheExample.arena_ind TcacheExample.binshard
    TcacheExample.arena_is_auto 1 [TDallocSmall 4096 0; TDallocSmall 8192 0; TDallocSmall 12288 0; TAllocSmall 0 true; TEvent; TFlush] s A)
    as (rs & s' & A' & cs & E & _ & Ec & _ & P); [exact TcacheExample.config|discriminate|exact K| |].
  - repeat (constructor; [vm_compute; repeat split; discriminate|]). constructor.
  - exists s, A, rs, s', A', cs. split; [exact K|]. split; [exact E|]. split; [exact Ec|]. rewrite H0 in P. exact P.
Defined.

Lemma tcache_event_collects_witness :
  ∃ s A s' A', tc_ok TcacheExample.infos 2 s A ∧
    tcache_event TcacheExample.T TcacheExample.o TcacheExample.infos 2 TcacheExample.edata_of TcacheExample.arena_ind TcacheExample.binshard
      TcacheExample.arena_is_auto s = Done (tt, s') ∧ tc_ok TcacheExample.infos 2 s' A'.
Proof.
  destruct TcacheExample.starts as (s & A & _ & K & H0 & _).
  destruct (tcache_event_collects TcacheExample.T TcacheExample.o TcacheExample.infos 2 TcacheExample.edata_of TcacheExample.arena_ind
    TcacheExample.binshard TcacheExample.arena_is_auto s A TcacheExample.config K) as (s' & a & rem & cs & E & _ & _ & _ & _ & _ & K').
  eexists s, A, s', _. split; [exact K|]. split; [exact E|exact K'].
Defined.

(** Three objects of two arenas, in two rounds. *)
Lemma tcache_flush_exact_witness :
  ∃ s' cs, tcache_bin_flush_impl TcacheExample.edata_of TcacheExample.arena_ind TcacheExample.binshard TcacheExample.arena_is_auto 0 (mkPtrArray 3 64) 3 true
      (set_cb (mkCbMem (write_words ∅ 64 [4096; 8192; 12288]) {[0 := mkBin 0 5 0 0 0]}) TcacheExample.start) = Done (tt, s') ∧
    given cs ≡ₚ [4096; 8192; 12288] ∧ requests cs = [(0, 5)].
Proof.
  destruct (tcache_flush_exact TcacheExample.edata_of TcacheExample.arena_ind TcacheExample.binshard TcacheExample.arena_is_auto true 0 (mkPtrArray 3 64)
    [4096; 8192; 12288] (set_cb (mkCbMem (write_words ∅ 64 [4096; 8192; 12288]) {[0 := mkBin 0 5 0 0 0]}) TcacheExample.start) (mkBin 0 5 0 0 0))
    as (s' & cs & E & _ & _ & G & _ & Q & _ & _); [reflexivity|discriminate|discriminate|discriminate|apply write_words_in|].
  exists s', cs. split; [exact E|]. split; [exact G|exact Q].
Defined.

Lemma tcache_dalloc_small_wraps_witness :
  tcache_dalloc_small (mkTcOpts 0 2 2 20 1 1 1 true 4095) [mkInfo 2] TcacheExample.edata_of TcacheExample.arena_ind TcacheExample.binshard
    TcacheExample.arena_is_auto 4096 0 TcacheExample.full_state = Fault BadPointer.
Proof.
  apply (tcache_dalloc_small_wraps (mkTcOpts 0 2 2 20 1 1 1 true 4095) [mkInfo 2] TcacheExample.edata_of TcacheExample.arena_ind TcacheExample.binshard
    TcacheExample.arena_is_auto TcacheExample.full_state {[0 := TcacheExample.full]} 0 TcacheExample.full (mkInfo 2) 4096);
    [exact TcacheExample.full_family|reflexivity|reflexivity|reflexivity|discriminate|reflexivity|reflexivity|vm_compute; reflexivity].
Defined.
