(* ===== verification/ArenaBin.v ===== *)
(** * Arena bins, [jemalloc/src/arena.c], [bin.c], [bin.h] and [arena_inlines_b.h]

    Data and operations.  A bin serves the regions of one size class, for the threads of
    one shard, from slabs: the current one, a heap of the others that have free regions,
    and a list of those that have none.  The descriptors and the links of all bins live in
    stores they share; the heap link and the list link of a descriptor share memory, so that
    writing a new link of one kind ends the other one.  The page allocator, and what other
    threads do while no lock is held, are arguments; what they hold meanwhile is a part of the state that the code does
    not have and no operation looks at. *)
From stdpp Require Import base list gmap numbers.
From S2P Require Import Prelude BitUtil Fb Sz Edata Bitmap Slab Ph Ql.

(** ** State *)

Record bin_stats_t : Type := mkBinStats {
  nmalloc : Z;
  nfreed : Z;                   (* [ndalloc] *)
  nrequests : Z;
  curregs : Z;
  nfills : Z;
  nflushes : Z;
  nslabs : Z;
  reslabs : Z;
  curslabs : Z;
  nonfull_slabs : Z
}.

Record bin_t : Type := mkBin {
  stats : bin_stats_t;
  slabcur : Z;
  slabs_nonfull : ph_t;
  slabs_full : Z                (* the first node of the list *)
}.

(** A trace of the locks and of the calls of the page allocator. *)
Inductive bin_event : Type :=
| BinLock (k : Z * Z)
| BinUnlock (k : Z * Z)
| PaAlloc (binind ret : Z)
| PaDalloc (slab : Z)
| Zeroed (ptr size : Z)         (* the [memset] of a new region *)
| DecayTick.

(** A region in use: the slab it lies in, the bin of the slab, and its address. *)
Record region : Type := mkRegion { rg_slab : Z; rg_key : Z * Z; rg_ptr : Z }.

(** The bins of an arena by size class and shard ([arena_get_bin]), and the descriptors of their slabs.  [theirs] are the
    regions that other threads have been given and not yet freed, [their_slabs] the slabs that they have in hand between two
    critical sections: nothing in memory, but what their next steps depend on. *)
Record arena_mem : Type := mkArena {
  slabs : gmap Z edata_t;
  heap_link : links;
  ql_link_active : rings;
  bins : gmap (Z * Z) bin_t;
  events : list bin_event;
  theirs : list region;
  their_slabs : list Z
}.

Definition set_slabs (v : gmap Z edata_t) (s : arena_mem) : arena_mem :=
  mkArena v (heap_link s) (ql_link_active s) (bins s) (events s) (theirs s) (their_slabs s).
Definition set_links (h : links) (q : rings) (s : arena_mem) : arena_mem :=
  mkArena (slabs s) h q (bins s) (events s) (theirs s) (their_slabs s).
Definition set_bins (v : gmap (Z * Z) bin_t) (s : arena_mem) : arena_mem :=
  mkArena (slabs s) (heap_link s) (ql_link_active s) v (events s) (theirs s) (their_slabs s).
Definition add_event (e : bin_event) (s : arena_mem) : arena_mem :=
  mkArena (slabs s) (heap_link s) (ql_link_active s) (bins s) (events s ++ [e]) (theirs s) (their_slabs s).

Definition set_stats (f : bin_stats_t → bin_stats_t) (b : bin_t) : bin_t :=
  mkBin (f (stats b)) (slabcur b) (slabs_nonfull b) (slabs_full b).
Definition set_slabcur (p : Z) (b : bin_t) : bin_t := mkBin (stats b) p (slabs_nonfull b) (slabs_full b).
Definition set_nonfull (h : ph_t) (b : bin_t) : bin_t := mkBin (stats b) (slabcur b) h (slabs_full b).
Definition set_full (q : Z) (b : bin_t) : bin_t := mkBin (stats b) (slabcur b) (slabs_nonfull b) q.

(** What the operations do not change: whether the build has statistics, [bin_infos],
    [arena_binind_div_info], [arena_is_auto], the page allocator ([pa_alloc]: null, or a
    descriptor with its address), the map from addresses to descriptors, and what the other threads have done
    when a lock is taken. *)
Record arena_config : Type := mkConfig {
  config_stats : bool;
  bin_infos : list bin_info_t;
  div_infos : list Z;
  is_auto : bool;
  pa_alloc : arena_mem → Z → Z → option (Z * edata_t);
  emap_edata_lookup : arena_mem → Z → Z;
  others : arena_mem → arena_mem
}.

Section ops.
Context (cfg : arena_config).
Implicit Types (k : Z * Z) (slab : Z).

(** ** Access *)

Definition event (e : bin_event) : M arena_mem unit := modify (add_event e).

Definition bin_get k : M arena_mem bin_t := s ← get; liftO (bins s !! k ?? BadPointer).
Definition bin_put k (b : bin_t) : M arena_mem unit := s ← get; modify (set_bins (<[k:=b]> (bins s))).
Definition bin_mod k (f : bin_t → bin_t) : M arena_mem unit := b ← bin_get k; bin_put k (f b).

(** [if (config_stats) { ... }] *)
Definition tally k (f : bin_stats_t → bin_stats_t) : M arena_mem unit :=
  if config_stats cfg then bin_mod k (set_stats f) else mret tt.

Definition slab_get slab : M arena_mem edata_t :=
  s ← get; if slab =? 0 then throw NullDeref else liftO (slabs s !! slab ?? BadPointer).
Definition slab_put slab (e : edata_t) : M arena_mem unit := modify (λ s, set_slabs (<[slab:=e]> (slabs s)) s).

(** [bin_infos[binind]] and [arena_binind_div_info[binind]] *)
Definition info_of (binind : Z) : M arena_mem bin_info_t :=
  liftO (bin_infos cfg !! Z.to_nat binind ?? OutOfBounds).
Definition div_of (binind : Z) : M arena_mem Z := liftO (div_infos cfg !! Z.to_nat binind ?? OutOfBounds).

Definition lock k : M arena_mem unit := modify (others cfg);; event (BinLock k).
Definition unlock k : M arena_mem unit := event (BinUnlock k).

(** The order of the heap: [edata_snad_comp] on the descriptors. *)
Definition no_edata : edata_t := mkEdata 0 0 0 0 0 [].
Definition snad (m : gmap Z edata_t) (a b : Z) : Z :=
  edata_snad_comp (default no_edata (m !! a)) (default no_edata (m !! b)).

(** An operation on the heap of a bin, and one on its list. *)
Definition on_nonfull {A} k (op : (Z → Z → Z) → M ph_mem A) : M arena_mem A :=
  b ← bin_get k; s ← get;
  match op (snad (slabs s)) (heap_link s, slabs_nonfull b) with
  | Done (a, (h, ph)) => modify (set_links h (ql_link_active s));; bin_put k (set_nonfull ph b);; mret a
  | Fault f => throw f
  end.
Definition on_full k (op : Z → M rings Z) : M arena_mem unit :=
  b ← bin_get k; s ← get;
  match op (slabs_full b) (ql_link_active s) with
  | Done (q, r) => modify (set_links (heap_link s) r);; bin_put k (set_full q b)
  | Fault f => throw f
  end.

(** ** The containers of a bin *)

Definition arena_bin_slabs_nonfull_insert k slab : M arena_mem unit :=
  modify (λ s, set_links (heap_link s) (delete slab (ql_link_active s)) s);;
  on_nonfull k (λ cmp, ph_insert cmp slab);;
  tally k (λ t, mkBinStats (nmalloc t) (nfreed t) (nrequests t) (curregs t) (nfills t) (nflushes t)
                  (nslabs t) (reslabs t) (curslabs t) (u64 (nonfull_slabs t + 1))).

Definition arena_bin_slabs_nonfull_remove k slab : M arena_mem unit :=
  on_nonfull k (λ cmp, ph_remove cmp slab);;
  tally k (λ t, mkBinStats (nmalloc t) (nfreed t) (nrequests t) (curregs t) (nfills t) (nflushes t)
                  (nslabs t) (reslabs t) (curslabs t) (u64 (nonfull_slabs t - 1))).

Definition arena_bin_slabs_nonfull_tryget k : M arena_mem Z :=
  slab ← on_nonfull k ph_remove_first;
  if slab =? 0 then mret 0 else
  tally k (λ t, mkBinStats (nmalloc t) (nfreed t) (nrequests t) (curregs t) (nfills t) (nflushes t)
                  (nslabs t) (u64 (reslabs t + 1)) (curslabs t) (u64 (nonfull_slabs t - 1)));;
  mret slab.

Definition arena_bin_slabs_full_insert k slab : M arena_mem unit :=
  if is_auto cfg then mret tt else
  modify (λ s, set_links (delete slab (heap_link s)) (ql_link_active s) s);;
  on_full k (λ first, list_append first slab).

Definition arena_bin_slabs_full_remove k slab : M arena_mem unit :=
  if is_auto cfg then mret tt else on_full k (λ first, list_remove first slab).

(** ** Slabs from the page allocator *)

Definition arena_slab_dalloc slab : M arena_mem unit :=
  slab_get slab;;
  modify (λ s, set_slabs (delete slab (slabs s)) s);;
  event (PaDalloc slab).

(** Null when there are no pages. *)
Definition arena_slab_alloc (binind binshard : Z) (info : bin_info_t) : M arena_mem Z :=
  s ← get;
  match pa_alloc cfg s (bin_slab_size info) binind with
  | None => event (PaAlloc binind 0);; mret 0
  | Some (slab, e) =>
      event (PaAlloc binind slab);;
      e ← liftO (slab_init info binshard e);
      slab_put slab e;;
      mret slab
  end.

(** ** Allocation *)

Definition arena_bin_refill_slabcur_with_fresh_slab k fresh_slab : M arena_mem unit :=
  tally k (λ t, mkBinStats (nmalloc t) (nfreed t) (nrequests t) (curregs t) (nfills t) (nflushes t)
                  (u64 (nslabs t + 1)) (reslabs t) (u64 (curslabs t + 1)) (nonfull_slabs t));;
  bin_mod k (set_slabcur fresh_slab).

(** [arena_slab_reg_alloc(bin->slabcur, &bin_infos[binind])] *)
Definition slabcur_reg_alloc k : M arena_mem Z :=
  b ← bin_get k;
  e ← slab_get (slabcur b);
  info ← info_of k.1;
  '(ptr, e) ← liftO (arena_slab_reg_alloc e info);
  slab_put (slabcur b) e;;
  mret ptr.

Definition arena_bin_malloc_with_fresh_slab k fresh_slab : M arena_mem Z :=
  arena_bin_refill_slabcur_with_fresh_slab k fresh_slab;;
  slabcur_reg_alloc k.

(** True when no slab of the bin has a free region. *)
Definition arena_bin_refill_slabcur_no_fresh_slab k : M arena_mem bool :=
  b ← bin_get k;
  (if slabcur b =? 0 then mret tt else arena_bin_slabs_full_insert k (slabcur b));;
  slab ← arena_bin_slabs_nonfull_tryget k;
  bin_mod k (set_slabcur slab);;
  mret (slab =? 0).

(** [bin->slabcur != NULL && edata_nfree_get(bin->slabcur) > 0]; the free count is returned. *)
Definition slabcur_nfree k : M arena_mem Z :=
  b ← bin_get k;
  if slabcur b =? 0 then mret 0 else e ← slab_get (slabcur b); mret (edata_nfree_get e).

Definition arena_bin_malloc_no_fresh_slab k : M arena_mem Z :=
  nfree ← slabcur_nfree k;
  if nfree =? 0 then
    failed ← arena_bin_refill_slabcur_no_fresh_slab k;
    if failed : bool then mret 0 else slabcur_reg_alloc k
  else slabcur_reg_alloc k.

(** The bin shards of the thread, if there is a thread with an arena. *)
Definition arena_bin_choose (tsd : option (list Z)) (binind : Z) : M arena_mem Z :=
  match tsd with
  | None => mret 0
  | Some binshards => liftO (binshards !! Z.to_nat binind ?? OutOfBounds)
  end.

(** The second attempt of [arena_malloc_small], with the slab from the page allocator; the region and the slab
    if it is not used. *)
Definition malloc_small_retry k fresh_slab : M arena_mem (Z * Z) :=
  ret ← arena_bin_malloc_no_fresh_slab k;
  if ret =? 0 then
    if fresh_slab =? 0 then mret (0, 0)
    else ret ← arena_bin_malloc_with_fresh_slab k fresh_slab; mret (ret, 0)
  else mret (ret, fresh_slab).

Definition arena_malloc_small (tsd : option (list Z)) (binind : Z) (zero : bool) : M arena_mem Z :=
  info ← info_of binind;
  binshard ← arena_bin_choose tsd binind;
  let k := (binind, binshard) in
  lock k;;
  ret ← arena_bin_malloc_no_fresh_slab k;
  '(ret, fresh_slab) ←
    (if ret =? 0 then
       unlock k;;
       fresh_slab ← arena_slab_alloc binind binshard info;
       lock k;;
       malloc_small_retry k fresh_slab
     else mret (ret, 0));
  if ret =? 0 then unlock k;; mret 0 else
  tally k (λ t, mkBinStats (u64 (nmalloc t + 1)) (nfreed t) (u64 (nrequests t + 1)) (u64 (curregs t + 1)) (nfills t)
                  (nflushes t) (nslabs t) (reslabs t) (curslabs t) (nonfull_slabs t));;
  unlock k;;
  (if fresh_slab =? 0 then mret tt else arena_slab_dalloc fresh_slab);;
  (if zero then event (Zeroed ret (sz_index2size_compute binind)) else mret tt);;
  event DecayTick;;
  mret ret.

(** *** Several at once *)

(** What the loop of [arena_cache_bin_fill_small] goes on with: [ptrs] up to [filled], [fresh_slab],
    [made_progress] and [alloc_and_retry]. *)
Record fill_t : Type := mkFill {
  filled : list Z;
  fresh_slab : Z;
  made_progress : bool;
  alloc_and_retry : bool
}.

(** Whether [while (filled < nfill)] goes around again, and with what. *)
Definition fill_step k (nfill : Z) (f : fill_t) : M arena_mem (bool * fill_t) :=
  nfree ← slabcur_nfree k;
  if 0 <? nfree then
    b ← bin_get k;
    e ← slab_get (slabcur b);
    info ← info_of k.1;
    let tofill := nfill - Z.of_nat (length (filled f)) in
    let cnt := if tofill <? nfree then tofill else nfree in
    '(ptrs, e) ← liftO (arena_slab_reg_alloc_batch e info cnt);
    slab_put (slabcur b) e;;
    mret (true, mkFill (filled f ++ ptrs) (fresh_slab f) true (alloc_and_retry f))
  else
    failed ← arena_bin_refill_slabcur_no_fresh_slab k;
    if negb failed then mret (true, f)
    else if negb (fresh_slab f =? 0) then
      arena_bin_refill_slabcur_with_fresh_slab k (fresh_slab f);;
      mret (true, mkFill (filled f) 0 (made_progress f) (alloc_and_retry f))
    else if made_progress f then mret (false, mkFill (filled f) (fresh_slab f) (made_progress f) true)
    else mret (false, f).

Fixpoint fill_loop (fuel : nat) k (nfill : Z) (f : fill_t) : M arena_mem fill_t :=
  if negb (Z.of_nat (length (filled f)) <? nfill) then mret f else
  match fuel with
  | O => throw Diverges
  | S fuel =>
      '(continue, f) ← fill_step k nfill f;
      if continue : bool then fill_loop fuel k nfill f else mret f
  end.

(** From [label_refill] on; every two turns of the loop fill at least one slot, and every new slab but the
    first is asked for after some were filled. *)
Fixpoint label_refill (fuel : nat) k (info : bin_info_t) (nfill requests : Z) (f : fill_t) : M arena_mem fill_t :=
  match fuel with
  | O => throw Diverges
  | S fuel =>
      lock k;;
      f ← fill_loop (2 * Z.to_nat nfill + 3) k nfill f;
      let n := Z.of_nat (length (filled f)) in
      (if alloc_and_retry f then mret tt else
         tally k (λ t, mkBinStats (u64 (nmalloc t + n)) (nfreed t) (u64 (nrequests t + requests)) (u64 (curregs t + n))
                         (u64 (nfills t + 1)) (nflushes t) (nslabs t) (reslabs t) (curslabs t) (nonfull_slabs t)));;
      unlock k;;
      if alloc_and_retry f then
        slab ← arena_slab_alloc k.1 k.2 info;
        label_refill fuel k info nfill requests (mkFill (filled f) slab false false)
      else mret f
  end.

(** The regions for the cache bin, which [cache_bin_finish_fill] then takes over; [requests] is
    [cache_bin->tstats.nrequests]. *)
Definition arena_cache_bin_fill_small (tsd : option (list Z)) (binind nfill requests : Z) : M arena_mem (list Z) :=
  info ← info_of binind;
  binshard ← arena_bin_choose tsd binind;
  f ← label_refill (Z.to_nat nfill + 2) (binind, binshard) info nfill requests (mkFill [] 0 true false);
  (if fresh_slab f =? 0 then mret tt else arena_slab_dalloc (fresh_slab f));;
  event DecayTick;;
  mret (filled f).

(** ** Deallocation *)

Definition arena_dissociate_bin_slab slab k : M arena_mem unit :=
  b ← bin_get k;
  if slab =? slabcur b then bin_mod k (set_slabcur 0)
  else
    e ← slab_get slab;
    info ← info_of (edata_szind_get e);
    if nregs info =? 1 then arena_bin_slabs_full_remove k slab else arena_bin_slabs_nonfull_remove k slab.

Definition arena_bin_lower_slab slab k : M arena_mem unit :=
  b ← bin_get k;
  s ← get;
  if negb (slabcur b =? 0) && (0 <? snad (slabs s) (slabcur b) slab) then
    e ← slab_get (slabcur b);
    (if 0 <? edata_nfree_get e then arena_bin_slabs_nonfull_insert k (slabcur b)
     else arena_bin_slabs_full_insert k (slabcur b));;
    bin_mod k (set_slabcur slab);;
    tally k (λ t, mkBinStats (nmalloc t) (nfreed t) (nrequests t) (curregs t) (nfills t) (nflushes t)
                    (nslabs t) (u64 (reslabs t + 1)) (curslabs t) (nonfull_slabs t))
  else arena_bin_slabs_nonfull_insert k slab.

Definition arena_dalloc_bin_slab_prepare k : M arena_mem unit :=
  tally k (λ t, mkBinStats (nmalloc t) (nfreed t) (nrequests t) (curregs t) (nfills t) (nflushes t)
                  (nslabs t) (reslabs t) (u64 (curslabs t - 1)) (nonfull_slabs t)).

Definition arena_dalloc_bin_locked_handle_newly_empty slab k : M arena_mem unit :=
  arena_dissociate_bin_slab slab k;;
  arena_dalloc_bin_slab_prepare k.

Definition arena_dalloc_bin_locked_handle_newly_nonempty slab k : M arena_mem unit :=
  arena_bin_slabs_full_remove k slab;;
  arena_bin_lower_slab slab k.

(** The step of [Slab], with what it hands the slab to. *)
Definition dalloc_locked_step k (info : bin_info_t) (d : arena_dalloc_bin_locked_info_t) slab (ptr : Z) :
    M arena_mem (bool * arena_dalloc_bin_locked_info_t) :=
  b ← bin_get k;
  e ← slab_get slab;
  '(move, e, d) ← liftO (arena_dalloc_bin_locked_step (config_stats cfg) (slab =? slabcur b) info d e ptr);
  slab_put slab e;;
  match move with
  | NewlyEmpty => arena_dalloc_bin_locked_handle_newly_empty slab k;; mret (true, d)
  | NewlyNonempty => arena_dalloc_bin_locked_handle_newly_nonempty slab k;; mret (false, d)
  | Stays => mret (false, d)
  end.

Definition arena_dalloc_bin_locked_finish k (d : arena_dalloc_bin_locked_info_t) : M arena_mem unit :=
  tally k (λ t, mkBinStats (nmalloc t) (u64 (nfreed t + ndalloc d)) (nrequests t) (u64 (curregs t - ndalloc d)) (nfills t)
                  (nflushes t) (nslabs t) (reslabs t) (curslabs t) (nonfull_slabs t)).

Definition arena_dalloc_bin slab (ptr : Z) : M arena_mem unit :=
  e ← slab_get slab;
  let k := (edata_szind_get e, edata_binshard_get e) in
  lock k;;
  info ← info_of k.1;
  magic ← div_of k.1;
  '(ret, d) ← dalloc_locked_step k info (arena_dalloc_bin_locked_begin magic info) slab ptr;
  arena_dalloc_bin_locked_finish k d;;
  unlock k;;
  if ret : bool then arena_slab_dalloc slab else mret tt.

Definition arena_dalloc_small (ptr : Z) : M arena_mem unit :=
  s ← get;
  arena_dalloc_bin (emap_edata_lookup cfg s ptr) ptr;;
  event DecayTick.

(** ** Resetting a bin *)

Fixpoint reset_nonfull (fuel : nat) k : M arena_mem unit :=
  match fuel with
  | O => throw Diverges
  | S fuel =>
      slab ← on_nonfull k ph_remove_first;
      if slab =? 0 then mret tt else
      unlock k;; arena_slab_dalloc slab;; lock k;;
      reset_nonfull fuel k
  end.

Fixpoint reset_full (fuel : nat) k : M arena_mem unit :=
  match fuel with
  | O => throw Diverges
  | S fuel =>
      b ← bin_get k;
      let slab := list_first (slabs_full b) in
      if slab =? 0 then mret tt else
      arena_bin_slabs_full_remove k slab;;
      unlock k;; arena_slab_dalloc slab;; lock k;;
      reset_full fuel k
  end.

(** Every turn of the loops takes a slab. *)
Definition arena_bin_reset k : M arena_mem unit :=
  lock k;;
  s ← get;
  b ← bin_get k;
  (if slabcur b =? 0 then mret tt else
     bin_mod k (set_slabcur 0);; unlock k;; arena_slab_dalloc (slabcur b);; lock k);;
  reset_nonfull (size (slabs s) + 1) k;;
  reset_full (size (slabs s) + 1) k;;
  tally k (λ t, mkBinStats (nmalloc t) (nfreed t) (nrequests t) 0 (nfills t) (nflushes t)
                  (nslabs t) (reslabs t) 0 (nonfull_slabs t));;
  unlock k.
End ops.

(** ** Initialisation *)

(** The statistics are cleared only when the build has them. *)
Definition bin_init (config_stats : bool) (b : bin_t) : bin_t :=
  mkBin (if config_stats then mkBinStats 0 0 0 0 0 0 0 0 0 0 else stats b) 0 (mkPh 0 0) 0.

(** The bins of an arena by size class and shard, which [arena_boot] lays out one after the other
    ([arena_bin_offsets]). *)
Definition bin_keys (infos : list bin_info_t) : list (Z * Z) :=
  concat (imap (λ i info, (λ j, (Z.of_nat i, Z.of_nat j)) <$> seq 0 (Z.to_nat (n_shards info))) infos).

(** The loop over them in [arena_new]; [mem] is what is in the memory. *)
Definition arena_bins_init (config_stats : bool) (infos : list bin_info_t) (mem : Z * Z → bin_t) : gmap (Z * Z) bin_t :=
  list_to_map ((λ k, (k, bin_init config_stats (mem k))) <$> bin_keys infos).
