(* ===== verification/ArenaBinInv.v ===== *)
(** * Arena bins: what a slab gives, and the invariant

    The slab operations as changes of a descriptor ([takes], [gives]), and [arena_inv], which
    says what holds of an arena whenever no lock is held: every slab is sound,
    no two overlap, and each lies where its free regions say: in the heap of its bin if it
    has some, in the list if it has none, in neither if it is the current one or wholly free.
    It speaks of the regions that threads hold and of the slabs they have in hand between two
    critical sections.  [thread_inv] is the same from the point of view of one thread: what it holds itself, and what the others hold
    at the moment, which they may free and add to as they like. *)
From stdpp Require Import base list gmap numbers.
From S2P Require Import Prelude BitUtil SizeClass Fb FbFacts Edata EdataTheorems Bitmap Slab SlabTheorems Ph PhFacts PhHeap Ql ArenaBin.

(** ** Slabs *)

(** The members of a descriptor that the operations of a bin leave alone. *)
Definition same_slab (e e' : edata_t) : Prop :=
  e_addr e' = e_addr e ∧ edata_szind_get e' = edata_szind_get e ∧ edata_binshard_get e' = edata_binshard_get e.

Lemma same_slab_refl e : same_slab e e.
Proof. done. Qed.

Lemma same_slab_trans e1 e2 e3 : same_slab e1 e2 → same_slab e2 e3 → same_slab e1 e3.
Proof. intros (? & ? & ?) (? & ? & ?). split_and!; congruence. Qed.

Lemma nfree_set_same_slab n bm e :
  is_u64 (e_bits e) → in_field EDATA_BITS_NFREE n → same_slab e (edata_nfree_set n (set_slab_data bm e)).
Proof.
  intros He Hn. split_and!; [done|..]; unfold edata_szind_get, edata_szind_get_maybe_invalid, edata_binshard_get; f_equal; simpl;
    apply get_set_other; try done; try (by vm_compute); [by left; vm_compute|by right; vm_compute].
Qed.

(** [e'] is [e] after the regions at [ptrs] were taken, or given back. *)
Record takes (info : bin_info_t) (e : edata_t) (ptrs : list Z) (e' : edata_t) : Prop := {
  tk_same : same_slab e e';
  tk_inv : slab_inv info e';
  tk_nfree : edata_nfree_get e' = edata_nfree_get e - Z.of_nat (length ptrs);
  tk_regions : ∃ rs, ptrs = region_at info e <$> rs ∧ NoDup rs ∧ Forall (λ r, 0 ≤ r < nregs info ∧ region_free e r) rs ∧
    ∀ r, 0 ≤ r → region_free e' r ↔ region_free e r ∧ r ∉ rs
}.

Section slabs.
Context (info : bin_info_t) (magic : Z).
Hypothesis Hinfo : bin_ok info magic.

Lemma takes_none e : slab_inv info e → takes info e [] e.
Proof.
  intros He. split; [done|done|simpl; lia|]. exists []. split_and!; [done|constructor|constructor|].
  intros r _. set_solver.
Qed.

Lemma slab_takes_one e :
  slab_inv info e → 0 < edata_nfree_get e →
  ∃ ptr e', arena_slab_reg_alloc e info = Done (ptr, e') ∧ takes info e [ptr] e'.
Proof.
  intros He Hpos. pose proof (nfree_bound info magic e Hinfo He).
  destruct (slab_reg_alloc_ok info magic e Hinfo He Hpos) as (r & bm' & E & _ & Hr & (F1 & F2 & F3) & _ & _ & Hb & He').
  assert (in_field EDATA_BITS_NFREE (edata_nfree_get e - 1)) as Hf by (unfold in_field; change (width EDATA_BITS_NFREE) with 10; lia).
  eexists _, _. split; [exact E|]. split; [|done| |].
  - apply nfree_set_same_slab; [apply He|done].
  - simpl. apply nfree_set_get; [apply He|done].
  - exists [r]. split_and!; [done|apply NoDup_singleton| |].
    + constructor; [|constructor]. split; [done|]. apply F3. lia.
    + intros i Hi. unfold region_free. change (e_slab_data (edata_nfree_set _ _)) with bm'. rewrite Hb by done.
      rewrite list_elem_of_singleton. case_decide; naive_solver.
Qed.

Lemma region_at_same e e' r : e_addr e' = e_addr e → region_at info e' r = region_at info e r.
Proof. unfold region_at. by intros ->. Qed.

Lemma takes_app e ps e1 qs e2 : takes info e ps e1 → takes info e1 qs e2 → takes info e (ps ++ qs) e2.
Proof.
  intros [S1 I1 N1 (rs & -> & D1 & F1 & R1)] [S2 I2 N2 (us & -> & D2 & F2 & R2)].
  split; [by eapply same_slab_trans|done|rewrite length_app; lia|]. exists (rs ++ us). split_and!.
  - rewrite fmap_app. f_equal. apply list_fmap_ext. intros _ r _. apply region_at_same. apply S1.
  - apply list.NoDup_app. split_and!; [done| |done]. intros r Hr Hr2.
    destruct (proj1 (list.Forall_forall _ _) F2 r Hr2) as [Hb Hf]. apply R1 in Hf; [|lia]. tauto.
  - apply Forall_app. split; [done|]. eapply Forall_impl; [|exact F2]. intros r [Hb Hf]. split; [done|]. apply R1 in Hf; [tauto|lia].
  - intros r Hr. rewrite R2, R1 by done. set_solver.
Qed.

Lemma slab_takes_n m e :
  slab_inv info e → Z.of_nat m ≤ edata_nfree_get e →
  ∃ ptrs e', reg_alloc_n m e info = Done (ptrs, e') ∧ takes info e ptrs e' ∧ length ptrs = m.
Proof.
  revert e. induction m as [|m IH]; intros e He Hm.
  - exists [], e. split_and!; [done|by apply takes_none|done].
  - destruct (slab_takes_one e He ltac:(lia)) as (p & e1 & E1 & T1). pose proof (tk_nfree _ _ _ _ T1) as Hn. simpl in Hn.
    destruct (IH e1 (tk_inv _ _ _ _ T1) ltac:(lia)) as (ps & e2 & E2 & T2 & Hl). exists (p :: ps), e2. simpl.
    rewrite E1. cbn [mbind outcome_bind]. rewrite E2. cbn [mbind outcome_bind].
    split_and!; [done|by apply (takes_app e [p] e1 ps)|by rewrite Hl].
Qed.

Lemma slab_takes_batch e cnt :
  slab_inv info e → 0 ≤ cnt ≤ edata_nfree_get e →
  ∃ ptrs e', arena_slab_reg_alloc_batch e info cnt = Done (ptrs, e') ∧ takes info e ptrs e' ∧ Z.of_nat (length ptrs) = cnt.
Proof.
  intros He Hc. destruct (slab_batch_equals_singles info magic e cnt Hinfo He Hc) as [-> _].
  destruct (slab_takes_n (Z.to_nat cnt) e He ltac:(lia)) as (ps & e' & E & T & Hl). exists ps, e'. split_and!; [done..|lia].
Qed.

(** A region in use goes back to the slab it lies in. *)
Lemma slab_gives stats cur e r :
  slab_inv info e → 0 ≤ r < nregs info → ¬ region_free e r →
  ∃ e' n, arena_dalloc_bin_locked_step stats cur info (arena_dalloc_bin_locked_begin magic info) e (region_at info e r) =
    Done (if edata_nfree_get e + 1 =? nregs info then NewlyEmpty
          else if (edata_nfree_get e =? 0) && negb cur then NewlyNonempty else Stays, e', mkDallocInfo magic (nregs info) n) ∧
    same_slab e e' ∧ slab_inv info e' ∧ edata_nfree_get e' = edata_nfree_get e + 1 ∧ edata_nfree_get e < nregs info ∧
    ∀ i, 0 ≤ i → region_free e' i ↔ region_free e i ∨ i = r.
Proof.
  intros He Hr Hused. pose proof (nfree_bound info magic e Hinfo He) as Hnb. pose proof (bo_nregs info magic Hinfo) as Hn.
  pose proof (sl_bitmap info e He) as Hbm.
  destruct (bitmap_flip_ok (nregs info) (e_slab_data e) r Hbm Hr ltac:(lia)) as (bm & E & Hbm' & Hl & Hb).
  assert (fbit (e_slab_data e) r = false) as Hr0 by (by apply not_true_is_false).
  assert (nfree_of (nregs info) bm = edata_nfree_get e + 1 ∧ edata_nfree_get e < nregs info) as [Hc Hlt].
  { rewrite (sl_nfree info e He). unfold nfree_of.
    assert (count (fbit (e_slab_data e)) 0 (Z.to_nat (nregs info)) = count (fbit bm) 0 (Z.to_nat (nregs info)) - 1) as Hc.
    { apply (count_point _ _ _ _ r); [lia|rewrite Hb, decide_True by lia; by rewrite Hr0|done|].
      intros j Hj Hne. by rewrite Hb, decide_False by lia. }
    pose proof (count_bounds (fbit bm) 0 (Z.to_nat (nregs info))). lia. }
  assert (in_field EDATA_BITS_NFREE (edata_nfree_get e + 1)) as Hf by (unfold in_field; change (width EDATA_BITS_NFREE) with 10; lia).
  assert (edata_nfree_inc (set_slab_data bm e) = edata_nfree_set (edata_nfree_get e + 1) (set_slab_data bm e)) as Ei.
  { apply (nfree_inc_ok (set_slab_data bm e)); [exact (sl_bits info e He)|]. change (edata_nfree_get (set_slab_data bm e)) with (edata_nfree_get e). change (width EDATA_BITS_NFREE) with 10. lia. }
  set (e' := edata_nfree_set (edata_nfree_get e + 1) (set_slab_data bm e)) in *.
  assert (edata_nfree_get e' = edata_nfree_get e + 1) as En by (by apply nfree_set_get; [apply He|]).
  exists e', (if stats then u64 (0 + 1) else 0). split_and!.
  - unfold arena_dalloc_bin_locked_step, bitmap_unset. rewrite (regind_ok info magic) by done.
    change (edata_slab_data_get e) with (e_slab_data e). rewrite E. cbn [mbind outcome_bind]. rewrite Ei, En.
    replace (edata_nfree_get e + 1 =? 1) with (edata_nfree_get e =? 0) by (apply eq_true_iff_eq; rewrite !Z.eqb_eq; lia).
    by destruct stats.
  - by apply nfree_set_same_slab; [apply He|].
  - by apply (slab_inv_set info magic).
  - done.
  - done.
  - intros i Hi. unfold region_free. change (e_slab_data e') with bm. rewrite Hb by done.
    case_decide as Hir; [subst i; rewrite Hr0; naive_solver|naive_solver].
Qed.
End slabs.

(** ** Arena bins: the invariant *)

(** The bin that a slab belongs to. *)
Definition slab_key (e : edata_t) : Z * Z := (edata_szind_get e, edata_binshard_get e).
Definition slab_of (s : arena_mem) (k : Z * Z) (p : Z) (e : edata_t) : Prop :=
  slabs s !! p = Some e ∧ slab_key e = k.

Section inv.
Context (cfg : arena_config) (drift : Z * Z → Z).
Implicit Types (s : arena_mem) (k : Z * Z) (b : bin_t) (f : forest) (xs ex mine : list Z) (held : list region) (g : region).

Definition info_at (binind : Z) : bin_info_t :=
  default (mkBinInfo 0 0 0 0 (bitmap_info_init 0)) (bin_infos cfg !! Z.to_nat binind).

(** The bins of [cfg] are those of [bin_info_boot] and [arena_boot]. *)
Definition infos_ok : Prop :=
  ∀ i info, bin_infos cfg !! i = Some info → ∃ magic, div_infos cfg !! i = Some magic ∧ bin_ok info magic.

(** ** Slabs and regions *)

Definition info_of_slab (e : edata_t) : bin_info_t := info_at (edata_szind_get e).

Definition apart (e1 e2 : edata_t) : Prop :=
  e_addr e1 + bin_slab_size (info_of_slab e1) ≤ e_addr e2 ∨ e_addr e2 + bin_slab_size (info_of_slab e2) ≤ e_addr e1.

Definition in_use (m : gmap Z edata_t) g : Prop :=
  ∃ e r, m !! rg_slab g = Some e ∧ slab_key e = rg_key g ∧ 0 ≤ r < nregs (info_of_slab e) ∧
    rg_ptr g = region_at (info_of_slab e) e r ∧ ¬ region_free e r.

Record slabs_ok (m : gmap Z edata_t) held mine : Prop := {
  so_slab : ∀ p e, m !! p = Some e → p ≠ 0 ∧ 0 < e_addr e ∧ slab_inv (info_of_slab e) e;
  so_apart : ∀ p q e1 e2, m !! p = Some e1 → m !! q = Some e2 → p ≠ q → apart e1 e2;
  so_held : NoDup (rg_ptr <$> held) ∧ Forall (in_use m) held;
  so_mine : NoDup mine ∧ ∀ p, p ∈ mine → ∃ e, m !! p = Some e ∧ edata_nfree_get e = nregs (info_of_slab e)
}.

(** ** One bin *)

Definition nregs_of k : Z := nregs (info_at k.1).

(** The heap of the bin is [f] and its list [xs]; they hold slabs of the bin.  The counter of the slabs in
    the heap is off by [drift]. *)
Record conts s k b f xs : Prop := {
  ct_bin : bins s !! k = Some b;
  ct_heap : ph_wf (heap_link s, slabs_nonfull b) f;
  ct_list : qlist (ql_link_active s) (slabs_full b) xs;
  ct_auto : is_auto cfg = true → xs = [];
  ct_disj : ∀ p, p ∈ nodes f → p ∉ xs;
  ct_mem : ∀ p, p ∈ nodes f ∨ p ∈ xs → ∃ e, slab_of s k p e;
  ct_count : config_stats cfg = true → nonfull_slabs (stats b) = u64 (Z.of_nat (length (nodes f)) + drift k)
}.

Definition member b f xs (p : Z) : Prop := p = slabcur b ∧ p ≠ 0 ∨ p ∈ nodes f ∨ p ∈ xs.

(** Where a slab with [n] free regions is. *)
Definition placed k b f xs (p n : Z) : Prop :=
  if decide (p = slabcur b) then n ≤ nregs_of k
  else if decide (p ∈ nodes f) then 0 < n < nregs_of k
  else if decide (p ∈ xs) then n = 0
  else n = nregs_of k ∨ is_auto cfg = true ∧ n = 0.

(** The slabs of [ex] are on their way; the bin does not have those of [mine]. *)
Record bin_rep s k b f xs ex mine : Prop := {
  br_conts : conts s k b f xs;
  br_cur : slabcur b ≠ 0 → ∃ e, slab_of s k (slabcur b) e;
  br_cur_out : slabcur b ∉ nodes f ∧ slabcur b ∉ xs;
  br_place : ∀ p e, slab_of s k p e → p ∉ ex → placed k b f xs p (edata_nfree_get e);
  br_mine : ∀ p, p ∈ mine → ¬ member b f xs p
}.

(** The current slab is not wholly free. *)
Definition cur_used s k b : Prop := ∀ e, slab_of s k (slabcur b) e → edata_nfree_get e < nregs_of k.

Definition bin_closed s k b mine : Prop := ∃ f xs, bin_rep s k b f xs [] mine ∧ cur_used s k b.

(** ** The arena *)

(** Every slab has a region in use, but for the ones that a thread has in hand: none is left over. *)
Definition no_spares (m : gmap Z edata_t) mine : Prop :=
  ∀ p e, m !! p = Some e → edata_nfree_get e = nregs (info_of_slab e) → p ∈ mine.

Record arena_inv s held mine : Prop := {
  ai_slabs : slabs_ok (slabs s) held mine;
  ai_keys : ∀ p e, slabs s !! p = Some e → is_Some (bins s !! slab_key e);
  ai_infos : ∀ k, is_Some (bins s !! k) → is_Some (bin_infos cfg !! Z.to_nat k.1) ∧ in_field EDATA_BITS_BINSHARD k.2;
  ai_bins : ∀ k b, bins s !! k = Some b → bin_closed s k b mine;
  ai_dom : ∀ k, k ∈ bin_keys (bin_infos cfg) → is_Some (bins s !! k);
  ai_spare : no_spares (slabs s) mine
}.

(** The same but for one bin, whose lock is held. *)
Record inv_but k s held mine : Prop := {
  ib_slabs : slabs_ok (slabs s) held mine;
  ib_keys : ∀ p e, slabs s !! p = Some e → is_Some (bins s !! slab_key e);
  ib_infos : ∀ k', is_Some (bins s !! k') → is_Some (bin_infos cfg !! Z.to_nat k'.1) ∧ in_field EDATA_BITS_BINSHARD k'.2;
  ib_bins : ∀ k' b, k' ≠ k → bins s !! k' = Some b → bin_closed s k' b mine;
  ib_dom : ∀ k', k' ∈ bin_keys (bin_infos cfg) → is_Some (bins s !! k')
}.

(** The invariant looks at the memory of the arena and not at the trace nor at who holds what; and of the
    configuration at the tables only. *)
Definition same_memory s s' : Prop :=
  slabs s' = slabs s ∧ heap_link s' = heap_link s ∧ ql_link_active s' = ql_link_active s ∧ bins s' = bins s.

Lemma open_bin s held mine k :
  arena_inv s held mine → is_Some (bins s !! k) →
  ∃ b f xs, inv_but k s held mine ∧ bin_rep s k b f xs [] mine ∧ cur_used s k b ∧ no_spares (slabs s) mine.
Proof.
  intros [H1 H2 H3 H4 H5 H6] [b Hb]. destruct (H4 k b Hb) as (f & xs & R & U). exists b, f, xs. split; [|done]. split; auto.
Qed.

Lemma close_bin s held mine k b f xs :
  inv_but k s held mine → bin_rep s k b f xs [] mine → cur_used s k b → no_spares (slabs s) mine → arena_inv s held mine.
Proof.
  intros [H1 H2 H3 H4 H5] R U Hsp. split; [done..| |done|done]. intros k' b' Hb'. destruct (decide (k' = k)) as [->|Hne]; [|by apply H4].
  rewrite (ct_bin _ _ _ _ _ (br_conts _ _ _ _ _ _ _ R)) in Hb'. injection Hb' as <-. by exists f, xs.
Qed.

Lemma spares_weaken (m : gmap Z edata_t) mine mine' : mine ⊆ mine' → no_spares m mine → no_spares m mine'.
Proof. intros Hm H p e E Hn. by apply Hm, (H p e). Qed.

(** A slab that has a region in use is no spare. *)
Lemma spares_put (m : gmap Z edata_t) mine p e' :
  no_spares m (p :: mine) → edata_nfree_get e' ≠ nregs (info_of_slab e') → no_spares (<[p:=e']> m) mine.
Proof.
  intros H Hn q e E Hq. apply lookup_insert_Some in E as [[<- <-]|[Hne E]]; [done|].
  pose proof (H q e E Hq) as Hin. apply elem_of_cons in Hin as [->|?]; done.
Qed.

(** ** The page allocator and the other threads

    The regions in use are those that this thread holds and those that the others hold; so are the slabs in hand. *)
Definition thread_inv s held mine : Prop := arena_inv s (held ++ theirs s) (mine ++ their_slabs s).

(** A new slab is a span of pages of its own with a descriptor of its own.  While no lock is held other threads may
    free what they hold, take new regions, take slabs in hand and give them back: afterwards the arena is in order again, with
    what they hold then and with what this thread holds all along, whose slabs in hand they leave alone.  They are not
    in the trace of this thread.  A region in use is mapped to its slab. *)
Class Environment : Prop := {
  pages_fresh : ∀ s held mine binind p e,
    slabs_ok (slabs s) held mine → pa_alloc cfg s (bin_slab_size (info_at binind)) binind = Some (p, e) →
    p ≠ 0 ∧ slabs s !! p = None ∧ edata_szind_get e = binind ∧ is_u64 (e_bits e) ∧
    0 < e_addr e ∧ e_addr e + bin_slab_size (info_at binind) ≤ 2 ^ 64 ∧
    Forall is_u64 (e_slab_data e) ∧ length (e_slab_data e) = 8%nat ∧ (∀ q e', slabs s !! q = Some e' → apart e e');
  others_respect : ∀ s held mine,
    thread_inv s held mine → thread_inv (others cfg s) held mine ∧ (∀ k, is_Some (bins s !! k) → is_Some (bins (others cfg s) !! k)) ∧
      ∀ p, p ∈ mine → slabs (others cfg s) !! p = slabs s !! p;
  others_silent : ∀ s, events (others cfg s) = events s;
  emap_exact : ∀ s held mine g, arena_inv s held mine → g ∈ held → emap_edata_lookup cfg s (rg_ptr g) = rg_slab g
}.

(** ** What an operation on a bin leaves alone *)

Record frame k s s' : Prop := {
  fr_bins : ∀ k', k' ≠ k → bins s' !! k' = bins s !! k';
  fr_slabs : ∀ p e k', k' ≠ k → slab_of s' k' p e ↔ slab_of s k' p e;
  fr_links : ∀ p e k', k' ≠ k → slab_of s k' p e →
    heap_link s' !! p = heap_link s !! p ∧ ql_link_active s' !! p = ql_link_active s !! p
}.

Lemma frame_refl k s : frame k s s.
Proof. done. Qed.

Lemma frame_trans k s1 s2 s3 : frame k s1 s2 → frame k s2 s3 → frame k s1 s3.
Proof.
  intros [B1 S1 L1] [B2 S2 L2]. split.
  - intros k' Hk. by rewrite B2, B1.
  - intros p e k' Hk. by rewrite S2, S1.
  - intros p e k' Hk Hp. destruct (L1 p e k' Hk Hp) as [<- <-]. apply (L2 p e k' Hk). by apply S1.
Qed.

Lemma conts_frame k k' s s' b f xs : conts s k' b f xs → frame k s s' → k' ≠ k → conts s' k' b f xs.
Proof.
  intros [C1 C2 C3 C4 C5 C6 C7] F Hk. split; [by rewrite (fr_bins _ _ _ F)| | |done|done| |done].
  - apply (ph_wf_frame (heap_link s)); [done|]. intros q Hq. destruct (C6 q ltac:(by left)) as (e & He). by apply (fr_links _ _ _ F q e k').
  - destruct C3 as [R E]. split; [|done]. apply (ring_frame (ql_link_active s)); [done|].
    intros q Hq. destruct (C6 q ltac:(by right)) as (e & He). by apply (fr_links _ _ _ F q e k').
  - intros p Hp. destruct (C6 p Hp) as (e & He). exists e. by apply (fr_slabs _ _ _ F).
Qed.

Lemma bin_member s k b f xs ex mine p : bin_rep s k b f xs ex mine → member b f xs p → ∃ e, slab_of s k p e.
Proof. intros R [[-> Hp]|Hp]; [by apply (br_cur _ _ _ _ _ _ _ R)|by apply (ct_mem _ _ _ _ _ (br_conts _ _ _ _ _ _ _ R))]. Qed.

Lemma closed_frame k k' s s' b mine mine' :
  bin_closed s k' b mine → frame k s s' → k' ≠ k →
  (∀ p, p ∈ mine' → p ∈ mine ∨ ∀ e, ¬ slab_of s k' p e) → bin_closed s' k' b mine'.
Proof.
  intros (f & xs & R & U) F Hk Hm. exists f, xs. pose proof R as [R1 R2 R3 R4 R5]. split.
  - split; [by eapply conts_frame| |done| |].
    + intros Hc. destruct (R2 Hc) as (e & He). exists e. by apply (fr_slabs _ _ _ F).
    + intros p e He. apply (R4 p e). by apply (fr_slabs _ _ _ F) in He.
    + intros p Hp Hmem. destruct (Hm p Hp) as [Hp'|Hp']; [by apply (R5 p)|].
      destruct (bin_member _ _ _ _ _ _ _ _ R Hmem) as (e & He). by apply (Hp' e).
  - intros e He. apply U. by apply (fr_slabs _ _ _ F) in He.
Qed.

(** From one state in the critical section of [k] to another. *)
Lemma inv_but_step k s s' held mine held' mine' :
  inv_but k s held mine → frame k s s' → is_Some (bins s !! k) → is_Some (bins s' !! k) → slabs_ok (slabs s') held' mine' →
  (∀ p, p ∈ mine' → p ∈ mine ∨ ∀ e k', k' ≠ k → ¬ slab_of s k' p e) → inv_but k s' held' mine'.
Proof.
  intros [H1 H2 H3 H4 H5] F Hk Hk' Hs Hm. split; [done|..].
  - intros p e He. destruct (decide (slab_key e = k)) as [->|Hne]; [done|]. rewrite (fr_bins _ _ _ F) by done.
    apply (H2 p). destruct (proj1 (fr_slabs _ _ _ F p e (slab_key e) Hne) (conj He eq_refl)) as [? _]. done.
  - intros k' Hb. destruct (decide (k' = k)) as [->|Hne]; [by apply H3|]. apply H3. by rewrite <- (fr_bins _ _ _ F).
  - intros k' b Hne Hb. rewrite (fr_bins _ _ _ F) in Hb by done. apply (closed_frame k k' s s' b mine); [by apply H4|done|done|].
    intros p Hp. destruct (Hm p Hp) as [?|Hq]; [by left|]. right. intros e. by apply Hq.
  - intros k' Hb. destruct (decide (k' = k)) as [->|Hne]; [done|]. rewrite (fr_bins _ _ _ F) by done. by apply H5.
Qed.

(** Slabs of the bin change, its containers do not. *)
Lemma conts_slabs s s' k b f xs :
  conts s k b f xs → heap_link s' = heap_link s → ql_link_active s' = ql_link_active s → bins s' = bins s →
  (∀ q e, q ∈ nodes f ∨ q ∈ xs → slab_of s k q e → ∃ e', slab_of s' k q e') → conts s' k b f xs.
Proof.
  intros [C1 C2 C3 C4 C5 C6 C7] Eh Eq Eb Hm. split; rewrite ?Eh, ?Eq, ?Eb; try done.
  intros p Hp. destruct (C6 p Hp) as (e & He). by apply (Hm p e).
Qed.

Lemma bin_rep_slabs s s' k b f xs ex mine ex' mine' :
  bin_rep s k b f xs ex mine →
  heap_link s' = heap_link s → ql_link_active s' = ql_link_active s → bins s' = bins s →
  (∀ q e, member b f xs q → slab_of s k q e → ∃ e', slab_of s' k q e') →
  (∀ q e', slab_of s' k q e' → q ∉ ex' → placed k b f xs q (edata_nfree_get e')) →
  (∀ q, q ∈ mine' → ¬ member b f xs q) →
  bin_rep s' k b f xs ex' mine'.
Proof.
  intros R Eh Eq Eb Hm Hp Hmine. pose proof R as [R1 R2 R3 R4 R5]. split; [|..|done|done|done].
  - apply (conts_slabs s); try done. intros q e Hq. apply Hm. by right.
  - intros Hc. destruct (R2 Hc) as (e & He). apply (Hm _ e); [by left|done].
Qed.
End inv.

Lemma arena_inv_same cfg cfg' drift s s' held mine :
  bin_infos cfg' = bin_infos cfg → is_auto cfg' = is_auto cfg → config_stats cfg' = config_stats cfg → same_memory s s' →
  arena_inv cfg drift s held mine → arena_inv cfg' drift s' held mine.
Proof.
  destruct cfg as [c1 c2 c3 c4 c5 c6 c7], cfg' as [d1 d2 d3 d4 d5 d6 d7], s as [s1 s2 s3 s4 s5 s6 s7], s' as [t1 t2 t3 t4 t5 t6 t7].
  intros E1 E2 E3 (F1 & F2 & F3 & F4). cbn [bin_infos is_auto config_stats slabs heap_link ql_link_active bins] in *.
  subst d2 d4 d1 t1 t2 t3 t4. intros [[A1 A2 A3 A4] H2 H3 H4 H5 H6]. split; [by split|exact H2|exact H3| |exact H5|exact H6].
  intros k b Hb. destruct (H4 k b Hb) as (f & xs & [[C1 C2 C3 C4 C5 C6 C7] R2 R3 R4 R5] & U). exists f, xs.
  split; [split; [by split|exact R2|exact R3|exact R4|exact R5]|exact U].
Qed.
