(* ===== verification/ArenaBinOps.v ===== *)
(** * Arena bins: the trace, and the operations of a critical section

    No operation takes back an event of the trace, so that what a run has asked of the page allocator, and was
    refused, can be read off it; and none but the taking of a lock changes what other threads hold.  Then one lemma for each operation on the containers of a bin. *)
From stdpp Require Import base list gmap numbers.
From S2P Require Import Prelude BitUtil SizeClass Fb Edata EdataTheorems Bitmap Slab SlabTheorems Ph PhFacts PhOps PhHeap Ql ArenaBin ArenaBinInv.

Definition longer (s s' : arena_mem) : Prop := ∃ l, events s' = events s ++ l.

(** On with the trace, and nothing that others hold has changed. *)
Definition onward (s s' : arena_mem) : Prop := (theirs s' = theirs s ∧ their_slabs s' = their_slabs s) ∧ longer s s'.
Definition grows {A} (m : M arena_mem A) : Prop := ∀ s a s', m s = Done (a, s') → onward s s'.

(** The event is in the trace between the two states. *)
Definition recorded (ev : bin_event) (s s' : arena_mem) : Prop := ∃ l, events s' = events s ++ l ∧ ev ∈ l.

(** The page allocator was asked for a slab of the class and had none. *)
Definition refused (binind : Z) : arena_mem → arena_mem → Prop := recorded (PaAlloc binind 0).

#[global] Instance longer_preorder : PreOrder longer.
Proof.
  split; [intros s; exists []; by rewrite app_nil_r|]. intros s1 s2 s3 [l E] [l' E']. exists (l ++ l'). by rewrite E', E, app_assoc.
Qed.

#[global] Instance onward_preorder : PreOrder onward.
Proof.
  split; [by intros s|]. intros s1 s2 s3 [[E1 E2] L] [[E3 E4] L']. split; [split; congruence|by transitivity s2].
Qed.

Lemma recorded_longer ev s1 s2 s3 s4 : longer s1 s2 → recorded ev s2 s3 → longer s3 s4 → recorded ev s1 s4.
Proof.
  intros [l1 E1] (l2 & E2 & H) [l3 E3]. exists (l1 ++ l2 ++ l3). split; [by rewrite E3, E2, E1, !app_assoc|]. rewrite !elem_of_app. by right; left.
Qed.

Lemma refused_longer binind s1 s2 s3 s4 : longer s1 s2 → refused binind s2 s3 → longer s3 s4 → refused binind s1 s4.
Proof. apply recorded_longer. Qed.

Create HintDb trace.

Lemma grows_ret {A} (a : A) : grows (mret a).
Proof. intros s a' s' E. unfold mret, M_ret in E. injection E as _ <-. reflexivity. Qed.

Lemma grows_liftO {A} (o : outcome A) : grows (liftO o).
Proof. intros s a s' E. unfold liftO in E. destruct o; [|done]. injection E as _ <-. reflexivity. Qed.

Lemma grows_throw {A} f : grows (A := A) (throw f).
Proof. done. Qed.

Lemma grows_get : grows get.
Proof. intros s a s' E. injection E as _ <-. reflexivity. Qed.

Lemma grows_modify f : (∀ s, onward s (f s)) → grows (modify f).
Proof. intros H s a s' E. injection E as _ <-. apply H. Qed.

Lemma grows_bind {A B} (m : M arena_mem A) (f : A → M arena_mem B) : grows m → (∀ a, grows (f a)) → grows (m ≫= f).
Proof. intros Hm Hf s b s' E. apply bind_done_inv in E as (a & s1 & E1 & E2). transitivity s1; [by eapply Hm|by eapply Hf]. Qed.

Lemma longer_event s e : longer s (add_event e s).
Proof. by exists [e]. Qed.

Lemma longer_same s s' : events s' = events s → longer s s'.
Proof. intros E. exists []. by rewrite E, app_nil_r. Qed.

Lemma onward_event s e : onward s (add_event e s).
Proof. split; [done|apply longer_event]. Qed.

Lemma onward_same s s' : events s' = events s → theirs s' = theirs s → their_slabs s' = their_slabs s → onward s s'.
Proof. intros E E1 E2. split; [done|by apply longer_same]. Qed.

#[export] Hint Resolve grows_ret grows_liftO grows_throw grows_get onward_event : trace.
#[export] Hint Extern 1 (onward _ _) => apply onward_same; reflexivity : trace.

(** One level of a definition by cases and binds at a time. *)
Ltac grow :=
  repeat first
    [ solve [eauto with trace nocore]
    | apply grows_bind; [|intros ?]
    | apply grows_modify; intros ?
    | case_match ].

Section trace.
Context (cfg : arena_config) (drift : Z * Z → Z).
Context `{HEnv : !Environment cfg drift}.
Implicit Types (k : Z * Z) (slab : Z).

(** Taking a lock is where other threads come in. *)
Lemma lock_longer k s a s' : lock cfg k s = Done (a, s') → longer s s'.
Proof.
  unfold lock. erewrite bind_done by reflexivity. intros [= _ <-]. transitivity (others cfg s); [|apply longer_event].
  apply longer_same, (others_silent cfg drift).
Qed.

Lemma event_grows e : grows (event e).
Proof. unfold event. grow. Qed.

Lemma tally_grows k u : grows (tally cfg k u).
Proof. unfold tally, bin_mod, bin_get, bin_put. grow. Qed.

Lemma on_nonfull_grows {A} k (op : (Z → Z → Z) → M ph_mem A) : grows (on_nonfull k op).
Proof. unfold on_nonfull, bin_get, bin_put. grow. Qed.

Lemma on_full_grows k op : grows (on_full k op).
Proof. unfold on_full, bin_get, bin_put. grow. Qed.

Lemma nonfull_tryget_grows k : grows (arena_bin_slabs_nonfull_tryget cfg k).
Proof. unfold arena_bin_slabs_nonfull_tryget. apply grows_bind; [apply on_nonfull_grows|intros slab]. case_match; [grow|]. apply grows_bind; [apply tally_grows|grow]. Qed.

Lemma full_insert_grows k slab : grows (arena_bin_slabs_full_insert cfg k slab).
Proof. unfold arena_bin_slabs_full_insert. case_match; [grow|]. apply grows_bind; [grow|intros _]. apply on_full_grows. Qed.

#[local] Hint Resolve event_grows tally_grows on_nonfull_grows on_full_grows nonfull_tryget_grows full_insert_grows : trace.

Lemma refill_grows k : grows (arena_bin_refill_slabcur_no_fresh_slab cfg k).
Proof. unfold arena_bin_refill_slabcur_no_fresh_slab, bin_mod, bin_put, bin_get. grow. Qed.

Lemma refill_fresh_grows k slab : grows (arena_bin_refill_slabcur_with_fresh_slab cfg k slab).
Proof. unfold arena_bin_refill_slabcur_with_fresh_slab, bin_mod, bin_put, bin_get. grow. Qed.

Lemma slabcur_reg_alloc_grows k : grows (slabcur_reg_alloc cfg k).
Proof. unfold slabcur_reg_alloc, bin_get, slab_get, info_of, slab_put. grow. Qed.

Lemma slabcur_nfree_grows k : grows (slabcur_nfree k).
Proof. unfold slabcur_nfree, bin_get, slab_get. grow. Qed.

#[local] Hint Resolve refill_grows refill_fresh_grows slabcur_reg_alloc_grows slabcur_nfree_grows : trace.

Lemma malloc_no_fresh_grows k : grows (arena_bin_malloc_no_fresh_slab cfg k).
Proof. unfold arena_bin_malloc_no_fresh_slab. grow. Qed.

#[local] Hint Resolve malloc_no_fresh_grows : trace.

Lemma malloc_small_retry_grows k slab : grows (malloc_small_retry cfg k slab).
Proof. unfold malloc_small_retry, arena_bin_malloc_with_fresh_slab. grow. Qed.

Lemma unlock_grows k : grows (unlock k).
Proof. unfold unlock. grow. Qed.

Lemma slab_dalloc_grows slab : grows (arena_slab_dalloc slab).
Proof. unfold arena_slab_dalloc, slab_get. grow. Qed.

Lemma slab_alloc_grows k info : grows (arena_slab_alloc cfg k.1 k.2 info).
Proof. unfold arena_slab_alloc, slab_put. grow. Qed.

Lemma fill_step_grows k nfill f : grows (fill_step cfg k nfill f).
Proof. unfold fill_step, bin_get, slab_get, info_of, slab_put. grow. Qed.

Lemma fill_loop_grows fuel k nfill : ∀ f, grows (fill_loop cfg fuel k nfill f).
Proof.
  induction fuel as [|fuel IH]; intros f; cbn [fill_loop]; case_match; grow.
Qed.

Lemma nonfull_insert_grows k slab : grows (arena_bin_slabs_nonfull_insert cfg k slab).
Proof. unfold arena_bin_slabs_nonfull_insert. apply grows_bind; [grow|intros _]. grow. Qed.

Lemma nonfull_remove_grows k slab : grows (arena_bin_slabs_nonfull_remove cfg k slab).
Proof. unfold arena_bin_slabs_nonfull_remove. grow. Qed.

Lemma full_remove_grows k slab : grows (arena_bin_slabs_full_remove cfg k slab).
Proof. unfold arena_bin_slabs_full_remove. grow. Qed.

#[local] Hint Resolve nonfull_insert_grows nonfull_remove_grows full_remove_grows : trace.

Lemma locked_step_grows k info d slab ptr : grows (dalloc_locked_step cfg k info d slab ptr).
Proof.
  unfold dalloc_locked_step, arena_dalloc_bin_locked_handle_newly_empty, arena_dalloc_bin_locked_handle_newly_nonempty,
    arena_dissociate_bin_slab, arena_dalloc_bin_slab_prepare, arena_bin_lower_slab, bin_get, bin_mod, bin_put, slab_get, info_of, slab_put. grow.
Qed.

Lemma tally_unless_grows (b : bool) k u : grows (if b then mret tt else tally cfg k u).
Proof. grow. Qed.

Lemma dalloc_unless_grows (b : bool) slab : grows (if b then mret tt else arena_slab_dalloc slab).
Proof. destruct b; [grow|apply slab_dalloc_grows]. Qed.
End trace.

(** ** Arena bins: the operations of a critical section *)

Section containers.
Context (cfg : arena_config) (drift : Z * Z → Z) (k : Z * Z).
Implicit Types (s : arena_mem) (b : bin_t) (f : forest) (xs : list Z).

Abbreviation conts := (conts cfg drift).

(** ** Access *)

Definition put_bin b s : arena_mem := set_bins (<[k:=b]> (bins s)) s.
Definition tallied (u : bin_stats_t → bin_stats_t) b : bin_t := if config_stats cfg then set_stats u b else b.

Lemma slabcur_tallied u b : slabcur (tallied u b) = slabcur b.
Proof. unfold tallied. by destruct (config_stats cfg). Qed.

Lemma bin_get_ok s b : bins s !! k = Some b → bin_get k s = Done (b, s).
Proof. intros E. unfold bin_get. erewrite bind_done by reflexivity. unfold liftO. by rewrite E. Qed.

Lemma bin_mod_ok u s b : bins s !! k = Some b → bin_mod k u s = Done (tt, put_bin (u b) s).
Proof. intros E. unfold bin_mod. by rewrite (bind_done _ _ _ _ _ (bin_get_ok s b E)). Qed.

Lemma tally_ok u s b : bins s !! k = Some b → tally cfg k u s = Done (tt, put_bin (tallied u b) s).
Proof.
  intros E. unfold tally, tallied. destruct (config_stats cfg); [by apply bin_mod_ok|].
  unfold put_bin. rewrite insert_id by done. by destruct s.
Qed.

Lemma arena_slab_get_ok s p e : slabs s !! p = Some e → p ≠ 0 → slab_get p s = Done (e, s).
Proof.
  intros E Hp. unfold slab_get. erewrite bind_done by reflexivity. rewrite (proj2 (Z.eqb_neq p 0)) by done. unfold liftO. by rewrite E.
Qed.

Lemma info_of_ok s i : is_Some (bin_infos cfg !! Z.to_nat i) → info_of cfg i s = Done (info_at cfg i, s).
Proof. intros [info E]. unfold info_of, info_at, liftO. by rewrite E. Qed.

Lemma on_nonfull_ok {A} (op : (Z → Z → Z) → M ph_mem A) s b a h ph :
  bins s !! k = Some b → op (snad (slabs s)) (heap_link s, slabs_nonfull b) = Done (a, (h, ph)) →
  on_nonfull k op s = Done (a, put_bin (set_nonfull ph b) (set_links h (ql_link_active s) s)).
Proof. intros E Eo. unfold on_nonfull. rewrite (bind_done _ _ _ _ _ (bin_get_ok s b E)). erewrite bind_done by reflexivity. by rewrite Eo. Qed.

Lemma on_full_ok op s b q r :
  bins s !! k = Some b → op (slabs_full b) (ql_link_active s) = Done (q, r) →
  on_full k op s = Done (tt, put_bin (set_full q b) (set_links (heap_link s) r s)).
Proof. intros E Eo. unfold on_full. rewrite (bind_done _ _ _ _ _ (bin_get_ok s b E)). erewrite bind_done by reflexivity. by rewrite Eo. Qed.

(** ** Frames *)

Lemma put_bin_frame b s : frame k s (put_bin b s).
Proof. split; [|done|done]. intros k' Hk. simpl. by rewrite lookup_insert_ne. Qed.

Lemma links_frame s X h q :
  (∀ p, p ∈ X → ∃ e, slab_of s k p e) → only_on X (heap_link s) h → unchanged_off X (ql_link_active s) q →
  frame k s (set_links h q s).
Proof.
  intros HX Hh Hq. split; [done|done|]. intros p e k' Hk [He Hkey].
  assert (p ∉ X) as Hp by (intros Hp; destruct (HX p Hp) as (e' & He' & Hkey'); congruence).
  split; [by apply Hh|by apply Hq].
Qed.

Lemma conts_put s b b' f xs :
  conts s k b f xs → slabs_nonfull b' = slabs_nonfull b → slabs_full b' = slabs_full b →
  (config_stats cfg = true → nonfull_slabs (stats b') = nonfull_slabs (stats b)) →
  conts (put_bin b' s) k b' f xs.
Proof.
  intros [C1 C2 C3 C4 C5 C6 C7] E1 E2 E3. split; simpl; rewrite ?E1, ?E2; try done; [by rewrite lookup_insert_eq|].
  intros Hs. by rewrite E3, C7.
Qed.

(** What the container operations have in common: the slabs and the current slab stay. *)
Definition moved s b s' b' : Prop := slabs s' = slabs s ∧ slabcur b' = slabcur b ∧ frame k s s'.

Lemma conts_not_zero s b f xs p : conts s k b f xs → p ∈ nodes f ∨ p ∈ xs → p ≠ 0.
Proof.
  intros [_ (_ & (pv & R) & _) ((_ & Z0 & _) & _) _ _ _ _] [Hp|Hp] ->; [by apply (rep_nonzero _ _ _ R)|done].
Qed.

(** ** The heap *)

Lemma nonfull_insert_ok s b f xs p e :
  conts s k b f xs → slab_of s k p e → p ≠ 0 → p ∉ nodes f → p ∉ xs →
  ∃ s' b' f', arena_bin_slabs_nonfull_insert cfg k p s = Done (tt, s') ∧ conts s' k b' f' xs ∧
    nodes f' ≡ₚ p :: nodes f ∧ moved s b s' b'.
Proof.
  intros [C1 C2 C3 C4 C5 C6 C7] He Hp Hf Hx. unfold arena_bin_slabs_nonfull_insert. erewrite bind_done by reflexivity.
  set (s1 := set_links _ _ s).
  destruct (ph_insert_ok (snad (slabs s)) (heap_link s) (slabs_nonfull b) f p C2 Hp Hf) as ((h & ph) & f' & E & W & P & O & _).
  rewrite (bind_done _ _ _ _ _ (on_nonfull_ok (λ cmp, ph_insert cmp p) s1 b tt h ph C1 E)).
  set (s2 := put_bin _ _). rewrite (tally_ok _ s2 (set_nonfull ph b)) by (simpl; apply lookup_insert_eq).
  eexists _, _, f'. split; [reflexivity|]. split; [|split; [exact P|]].
  - split; try done.
    + simpl. by rewrite lookup_insert_eq.
    + unfold tallied. by destruct (config_stats cfg).
    + unfold tallied. replace (slabs_full _) with (slabs_full b) by by destruct (config_stats cfg).
      apply (qlist_frame (ql_link_active s) _ _ _ [p]); [done| |set_solver]. intros q Hq. apply lookup_delete_ne. set_solver.
    + intros q. rewrite P. intros [->|Hq]%elem_of_cons; [done|by apply C5].
    + intros q. rewrite P, elem_of_cons. intros [[->|Hq]|Hq]; [by exists e|..]; destruct (C6 q) as (e' & He'); by eauto.
    + intros Hs. unfold tallied. rewrite Hs. simpl. rewrite C7 by done. rewrite P. unfold u64. rewrite Zplus_mod_idemp_l.
      f_equal. simpl length. lia.
  - split; [done|]. split; [by rewrite slabcur_tallied|]. unfold s2, s1. eapply frame_trans; [|apply put_bin_frame].
    eapply frame_trans; [|apply put_bin_frame]. apply (links_frame s (p :: nodes f)).
    + intros q [->|Hq]%elem_of_cons; [by exists e|]. apply C6. by left.
    + exact O.
    + intros q Hq. apply lookup_delete_ne. set_solver.
Qed.

(** What removing a slab from the heap leaves. *)
Lemma conts_removed drift' s b f xs h ph f' p b' :
  conts s k b f xs → p :: nodes f' ≡ₚ nodes f → ph_wf (h, ph) f' → only_on (nodes f) (heap_link s) h →
  slabs_nonfull b' = ph → slabs_full b' = slabs_full b → slabcur b' = slabcur b →
  (config_stats cfg = true → nonfull_slabs (stats b') = u64 (Z.of_nat (length (nodes f')) + drift' k)) →
  let s' := put_bin b' (set_links h (ql_link_active s) s) in ArenaBinInv.conts cfg drift' s' k b' f' xs ∧ moved s b s' b'.
Proof.
  intros [C1 C2 C3 C4 C5 C6 C7] P W O E1 E2 E3 E4. cbv zeta. split.
  - split; simpl; rewrite ?E1, ?E2; try done; [by rewrite lookup_insert_eq|..].
    + intros q Hq. apply C5. rewrite <- P. by right.
    + intros q [Hq|Hq]; destruct (C6 q) as (e' & He'); [left; rewrite <- P; by right|by exists e'|by right|by exists e'].
  - split; [done|]. split; [done|]. eapply frame_trans; [|apply put_bin_frame]. apply (links_frame s (nodes f)); [|done|done].
    intros q Hq. apply C6. by left.
Qed.

(** The count goes down with the heap. *)
Lemma count_down n f f' p : p :: nodes f' ≡ₚ nodes f → n = u64 (Z.of_nat (length (nodes f)) + drift k) →
  u64 (n - 1) = u64 (Z.of_nat (length (nodes f')) + drift k).
Proof. intros P ->. rewrite <- P. unfold u64. rewrite Zminus_mod_idemp_l. f_equal. simpl length. lia. Qed.

Lemma put_bin_twice b b' s : put_bin b (put_bin b' s) = put_bin b s.
Proof. unfold put_bin, set_bins. simpl. by rewrite insert_insert_eq. Qed.

Lemma nonfull_remove_ok s b f xs p :
  conts s k b f xs → p ∈ nodes f →
  ∃ s' b' f', arena_bin_slabs_nonfull_remove cfg k p s = Done (tt, s') ∧ conts s' k b' f' xs ∧
    p :: nodes f' ≡ₚ nodes f ∧ moved s b s' b'.
Proof.
  intros C Hp. pose proof C as [C1 C2 _ _ _ _ _]. unfold arena_bin_slabs_nonfull_remove.
  destruct (ph_remove_ok (snad (slabs s)) (heap_link s) (slabs_nonfull b) f p C2 Hp) as ((h & ph) & f' & E & W & P & O & _).
  rewrite (bind_done _ _ _ _ _ (on_nonfull_ok (λ cmp, ph_remove cmp p) s b tt h ph C1 E)).
  rewrite (tally_ok _ _ (set_nonfull ph b)) by (simpl; apply lookup_insert_eq). rewrite put_bin_twice.
  eexists _, _, f'. split; [reflexivity|].
  destruct (conts_removed drift s b f xs h ph f' p (tallied (λ t, mkBinStats (nmalloc t) (nfreed t) (nrequests t) (curregs t) (nfills t) (nflushes t)
    (nslabs t) (reslabs t) (curslabs t) (u64 (nonfull_slabs t - 1))) (set_nonfull ph b))) as [HC HM]; try done.
  1-3: by unfold tallied; destruct (config_stats cfg).
  intros Hs. unfold tallied. rewrite Hs. by apply (count_down _ f f' p), (ct_count _ _ _ _ _ _ _ C).
Qed.

(** The counters aside, the heap without its root. *)
Lemma remove_first_ok s b f xs :
  conts s k b f xs →
  ∃ p h ph f', on_nonfull k ph_remove_first s = Done (p, put_bin (set_nonfull ph b) (set_links h (ql_link_active s) s)) ∧
    ph_wf (h, ph) f' ∧ only_on (nodes f) (heap_link s) h ∧
    (if decide (f = Nil) then p = 0 ∧ f' = Nil else p ≠ 0 ∧ p :: nodes f' ≡ₚ nodes f).
Proof.
  intros C. pose proof C as [C1 C2 _ _ _ _ _].
  destruct (ph_remove_first_ok (snad (slabs s)) (heap_link s) (slabs_nonfull b) f C2) as (p & (h & ph) & f' & E & W & _ & P & O & _).
  exists p, h, ph, f'. split; [by apply on_nonfull_ok|]. split_and!; [done|done|]. case_decide; [done|]. split; [|done].
  apply (conts_not_zero _ _ _ _ _ C). left. rewrite <- P. by left.
Qed.

(** Taking nothing from an empty heap. *)
Lemma conts_empty s b xs h ph :
  conts s k b Nil xs → ph_wf (h, ph) Nil → only_on [] (heap_link s) h →
  let b' := set_nonfull ph b in let s' := put_bin b' (set_links h (ql_link_active s) s) in conts s' k b' Nil xs ∧ moved s b s' b'.
Proof.
  intros [C1 C2 C3 C4 C5 C6 C7] W O. cbv zeta. split.
  - split; try done. simpl. by rewrite lookup_insert_eq.
  - split; [done|]. split; [done|]. eapply frame_trans; [|apply put_bin_frame]. apply (links_frame s []); [|done|done].
    intros q Hq. by apply not_elem_of_nil in Hq.
Qed.

Lemma nonfull_tryget_ok s b f xs :
  conts s k b f xs →
  ∃ p s' b' f', arena_bin_slabs_nonfull_tryget cfg k s = Done (p, s') ∧ conts s' k b' f' xs ∧ moved s b s' b' ∧
    (if decide (f = Nil) then p = 0 ∧ f' = Nil else p ≠ 0 ∧ p :: nodes f' ≡ₚ nodes f).
Proof.
  intros C. destruct (remove_first_ok s b f xs C) as (p & h & ph & f' & E & W & O & P).
  unfold arena_bin_slabs_nonfull_tryget. rewrite (bind_done _ _ _ _ _ E). case_decide as Hf.
  - destruct P as [-> ->]. subst f. rewrite Z.eqb_refl. destruct (conts_empty s b xs h ph C W O) as [HC HM].
    eexists 0, _, _, Nil. by split_and!.
  - destruct P as [Hp P]. rewrite (proj2 (Z.eqb_neq p 0)) by done.
    erewrite bind_done by (apply tally_ok; simpl; apply lookup_insert_eq). rewrite put_bin_twice.
    destruct (conts_removed drift s b f xs h ph f' p (tallied (λ t, mkBinStats (nmalloc t) (nfreed t) (nrequests t) (curregs t) (nfills t) (nflushes t)
      (nslabs t) (u64 (reslabs t + 1)) (curslabs t) (u64 (nonfull_slabs t - 1))) (set_nonfull ph b))) as [HC HM]; try done.
    1-3: by unfold tallied; destruct (config_stats cfg).
    { intros Hs. unfold tallied. rewrite Hs. by apply (count_down _ f f' p), (ct_count _ _ _ _ _ _ _ C). }
    eexists p, _, _, f'. by split_and!.
Qed.

(** ** The list *)

Lemma full_insert_ok s b f xs p e :
  conts s k b f xs → slab_of s k p e → p ≠ 0 → p ∉ nodes f → p ∉ xs →
  ∃ s' b' xs', arena_bin_slabs_full_insert cfg k p s = Done (tt, s') ∧ conts s' k b' f xs' ∧ moved s b s' b' ∧
    xs' = (if is_auto cfg then xs else xs ++ [p]).
Proof.
  intros C He Hp Hf Hx. pose proof C as [C1 C2 C3 C4 C5 C6 C7]. unfold arena_bin_slabs_full_insert.
  destruct (is_auto cfg) eqn:Ha; [by exists s, b, xs|]. erewrite bind_done by reflexivity. set (s1 := set_links _ _ s).
  destruct (list_append_ok (ql_link_active s) (slabs_full b) xs p C3 Hp Hx) as (r & q & E & Q & O).
  rewrite (on_full_ok (λ first, list_append first p) s1 b q r C1 E).
  eexists _, (set_full q b), _. split; [reflexivity|]. split; [|split; [|reflexivity]].
  - split; try done.
    + simpl. by rewrite lookup_insert_eq.
    + apply (ph_wf_frame (heap_link s)); [done|]. intros u Hu. apply lookup_delete_ne. by intros ->.
    + by rewrite Ha.
    + intros u Hu. rewrite elem_of_app, list_elem_of_singleton. intros [Hu'|Hu']; [by apply (C5 u)|by subst u].
    + intros u. rewrite elem_of_app, list_elem_of_singleton. intros [Hu|[Hu|Hu]]; [apply C6; by left|apply C6; by right|subst u; by exists e].
  - split; [done|]. split; [done|]. eapply frame_trans; [|apply put_bin_frame]. apply (links_frame s (xs ++ [p])); [| |done].
    + intros u. rewrite elem_of_app, list_elem_of_singleton. intros [Hu|Hu]; [apply C6; by right|subst u; by exists e].
    + intros u Hu. apply lookup_delete_ne. set_solver.
Qed.

Lemma full_remove_ok s b f xs p :
  conts s k b f xs → (is_auto cfg = false → p ∈ xs) →
  ∃ s' b' xs', arena_bin_slabs_full_remove cfg k p s = Done (tt, s') ∧ conts s' k b' f xs' ∧ moved s b s' b' ∧
    (if is_auto cfg then xs' = [] else p :: xs' ≡ₚ xs).
Proof.
  intros C Hin. pose proof C as [C1 C2 C3 C4 C5 C6 C7]. unfold arena_bin_slabs_full_remove.
  destruct (is_auto cfg) eqn:Ha; [exists s, b, xs; split_and!; auto; done|].
  destruct (list_elem_of_split _ _ (Hin eq_refl)) as (l & m & ->).
  destruct (list_remove_ok (ql_link_active s) (slabs_full b) l p m C3) as (r & q & E & Q & O).
  rewrite (on_full_ok (λ first, list_remove first p) s b q r C1 E).
  eexists _, (set_full q b), _. split; [reflexivity|]. split; [|split; [|by rewrite Permutation_middle]].
  - split; try done.
    + simpl. by rewrite lookup_insert_eq.
    + by rewrite Ha.
    + intros u Hu Hu'. apply (C5 u Hu). set_solver.
    + intros u [Hu|Hu]; apply C6; [by left|right; set_solver].
  - split; [done|]. split; [done|]. eapply frame_trans; [|apply put_bin_frame].
    apply (links_frame s (l ++ p :: m)); [|done|done]. intros u Hu. apply C6. by right.
Qed.
End containers.
