(* ===== verification/ArenaBinSteps.v ===== *)
(** * Arena bins: allocation and deallocation under the lock

    What the operations of a critical section do to the state of a bin ([bin_rep]) and to the
    regions in use: refilling the current slab, taking regions from it, giving a region back, and
    moving a slab between the containers of its bin. *)
From stdpp Require Import base list gmap numbers.
From S2P Require Import Prelude BitUtil SizeClass Fb Edata EdataTheorems Bitmap Slab SlabTheorems Ph PhFacts PhOps PhHeap Ql ArenaBin ArenaBinInv ArenaBinOps.

Section steps.
Context (cfg : arena_config) (drift : Z * Z → Z) (k : Z * Z).
Implicit Types (s : arena_mem) (b : bin_t) (f : forest) (xs mine : list Z) (held : list region).

Abbreviation bin_rep := (bin_rep cfg drift).
Abbreviation inv_but := (inv_but cfg drift).
Abbreviation slabs_ok := (slabs_ok cfg).

Lemma conts_some s b f xs : conts cfg drift s k b f xs → is_Some (bins s !! k).
Proof. intros C. exists b. apply (ct_bin _ _ _ _ _ _ _ C). Qed.

(** ** Where slabs are *)

Lemma placed_same b f xs b' f' xs' p n :
  (p = slabcur b' ↔ p = slabcur b) → (p ∈ nodes f' ↔ p ∈ nodes f) → (p ∈ xs' ↔ p ∈ xs) →
  placed cfg k b f xs p n → placed cfg k b' f' xs' p n.
Proof. unfold placed. intros H1 H2 H3. repeat case_decide; tauto. Qed.

Lemma placed_heap b f xs p n : p ≠ slabcur b → p ∈ nodes f → 0 < n < nregs_of cfg k → placed cfg k b f xs p n.
Proof. unfold placed. intros H1 H2. by rewrite decide_False, decide_True. Qed.

Lemma placed_full b f xs p n : p ≠ slabcur b → p ∉ nodes f → (is_auto cfg = false → p ∈ xs) → n = 0 → placed cfg k b f xs p n.
Proof.
  unfold placed. intros H1 H2 H3 Hn. rewrite !decide_False by done. case_decide as Hx; [done|]. right. split; [|done].
  destruct (is_auto cfg); [done|]. by destruct (Hx (H3 eq_refl)).
Qed.

Lemma bin_slab_nonzero s p e : (∀ p e, slabs s !! p = Some e → p ≠ 0) → slab_of s k p e → p ≠ 0.
Proof. intros Hz [He _]. by apply (Hz p e). Qed.

(** ** Refilling the current slab *)

(** The full current slab goes to the list, unless the arena is automatic. *)
Lemma retire_current s b f xs :
  conts cfg drift s k b f xs → (slabcur b ≠ 0 → ∃ e, slab_of s k (slabcur b) e) → slabcur b ∉ nodes f ∧ slabcur b ∉ xs →
  ∃ s' b' xs', (if slabcur b =? 0 then mret tt else arena_bin_slabs_full_insert cfg k (slabcur b)) s = Done (tt, s') ∧
    conts cfg drift s' k b' f xs' ∧ moved k s b s' b' ∧
    (∀ p, p ≠ 0 → p ∈ xs' ↔ p ∈ xs ∨ p = slabcur b ∧ is_auto cfg = false).
Proof.
  intros C Hc [H1 H2]. destruct (Z.eqb_spec (slabcur b) 0) as [H0|Hne].
  - exists s, b, xs. split_and!; try done. intros p Hp. rewrite H0. naive_solver.
  - destruct (Hc Hne) as (e & He). destruct (full_insert_ok cfg drift k s b f xs _ e C He Hne H1 H2) as (s' & b' & xs' & E & C' & M & ->).
    exists s', b', (if is_auto cfg then xs else xs ++ [slabcur b]). split; [exact E|]. split; [exact C'|]. split; [exact M|]. intros p Hp. destruct (is_auto cfg); [naive_solver|].
    rewrite elem_of_app, list_elem_of_singleton. naive_solver.
Qed.

Lemma refill_no_fresh_ok s b f xs mine :
  bin_rep s k b f xs [] mine → (∀ p e, slabs s !! p = Some e → p ≠ 0) →
  (∀ e, slab_of s k (slabcur b) e → edata_nfree_get e = 0) →
  ∃ s' b' f' xs', arena_bin_refill_slabcur_no_fresh_slab cfg k s = Done (bool_decide (f = Nil), s') ∧
    bin_rep s' k b' f' xs' [] mine ∧ slabs s' = slabs s ∧ frame k s s' ∧
    (if decide (f = Nil) then slabcur b' = 0 ∧ f' = Nil
     else slabcur b' ≠ 0 ∧ ∀ e, slab_of s' k (slabcur b') e → 0 < edata_nfree_get e < nregs_of cfg k).
Proof.
  intros [C Hc Ho Hpl Hm] Hz Hfull. unfold arena_bin_refill_slabcur_no_fresh_slab.
  rewrite (bind_done _ _ _ _ _ (bin_get_ok k s b (ct_bin _ _ _ _ _ _ _ C))).
  destruct (retire_current s b f xs C Hc Ho) as (s1 & b1 & xs1 & E1 & C1 & (M1 & M1b & F1) & X1). rewrite (bind_done _ _ _ _ _ E1).
  destruct (nonfull_tryget_ok cfg drift k s1 b1 f xs1 C1) as (p & s2 & b2 & f2 & E2 & C2 & (M2 & M2b & F2) & P2). rewrite (bind_done _ _ _ _ _ E2).
  rewrite (bind_done _ _ _ _ _ (bin_mod_ok k (set_slabcur p) s2 b2 (ct_bin _ _ _ _ _ _ _ C2))).
  assert (∀ q e, slab_of (put_bin k (set_slabcur p b2) s2) k q e → slab_of s k q e) as Hback.
  { intros q e. unfold slab_of. simpl. by rewrite M2, M1. }
  assert (∀ q e, slab_of s k q e → slab_of (put_bin k (set_slabcur p b2) s2) k q e) as Hforth.
  { intros q e. unfold slab_of. simpl. by rewrite M2, M1. }
  assert (∀ q, q ≠ 0 → q ∈ nodes f ↔ q = p ∨ q ∈ nodes f2) as Hn.
  { intros q Hq. case_decide as Hf; [destruct P2 as [-> ->]; subst f; simpl; naive_solver|]. destruct P2 as [_ P2].
    rewrite <- P2. apply elem_of_cons. }
  assert (p ∉ nodes f2 ∧ p ∉ xs1 ∧ (p ≠ 0 → p ∈ nodes f)) as (Hp1 & Hp2 & Hp3).
  { split_and!.
    - case_decide; [destruct P2 as [-> ->]; by apply not_elem_of_nil|]. destruct P2 as [_ P2].
      pose proof (ct_heap _ _ _ _ _ _ _ C) as (_ & _ & N). rewrite <- P2 in N. by apply list.NoDup_cons in N as [? _].
    - intros Hp. assert (p ≠ 0) by (apply (conts_not_zero _ _ _ _ _ _ _ _ C1); by right).
      apply (ct_disj _ _ _ _ _ _ _ C1 p); [apply Hn; [done|by left]|done].
    - intros H0. apply Hn; [done|by left]. }
  eexists _, (set_slabcur p b2), f2, xs1. split; [|split; [|split; [|split]]].
  - unfold mret, M_ret. do 2 f_equal. case_decide as Hf.
    + destruct P2 as [-> _]. by rewrite bool_decide_true.
    + destruct P2 as [? _]. rewrite bool_decide_false by done. by apply Z.eqb_neq.
  - split.
    + by apply (conts_put cfg drift k s2 b2).
    + simpl. intros H0. destruct (ct_mem _ _ _ _ _ _ _ C p) as (e & He); [left; by apply Hp3|]. exists e. by apply Hforth.
    + done.
    + intros q e He _. apply Hback in He. pose proof (bin_slab_nonzero s q e Hz He) as Hq.
      specialize (Hpl q e He ltac:(apply not_elem_of_nil)).
      destruct (decide (q = p)) as [->|Hqp].
      * unfold placed in *. simpl. rewrite decide_True by done. pose proof (Hp3 Hq) as Hpf.
        rewrite decide_False in Hpl by (intros ->; by destruct Ho). rewrite decide_True in Hpl by done. lia.
      * destruct (decide (q = slabcur b)) as [->|Hqc].
        -- apply placed_full; simpl; [done| | |by apply Hfull].
           ++ intros Hx. destruct Ho as [Ho _]. apply Ho, Hn; [done|by right].
           ++ intros Ha. apply X1; [done|by right].
        -- eapply placed_same; [..|exact Hpl]; simpl; [naive_solver|rewrite Hn by done; naive_solver|rewrite X1 by done; naive_solver].
    + intros q Hq Hmem. apply (Hm q Hq). destruct Hmem as [[-> H0]|[Hx|Hx]]; simpl in *.
      * right. left. by apply Hp3.
      * assert (q ≠ 0) by (apply (conts_not_zero _ _ _ _ _ _ _ _ C2); by left). right. left. apply Hn; [done|by right].
      * assert (q ≠ 0) by (apply (conts_not_zero _ _ _ _ _ _ _ _ C2); by right). apply X1 in Hx; [|done].
        destruct Hx as [?|[-> _]]; [by right; right|by left].
  - simpl. by rewrite M2, M1.
  - eapply frame_trans; [exact F1|]. eapply frame_trans; [exact F2|]. apply put_bin_frame.
  - case_decide as Hf; [destruct P2 as [-> ->]; done|]. destruct P2 as [H0 _]. split; [done|]. simpl. intros e He. apply Hback in He.
    specialize (Hpl p e He ltac:(apply not_elem_of_nil)). unfold placed in Hpl. pose proof (Hp3 H0) as Hpf.
    rewrite decide_False in Hpl by (intros ->; by destruct Ho). by rewrite decide_True in Hpl.
Qed.
(** ** Regions in use *)

Section regions.
Context (m : gmap Z edata_t) (held : list region) (mine : list Z).
Hypothesis Hinfos : infos_ok cfg.
Hypothesis Hok : slabs_ok m held mine.

Lemma info_ok e : is_Some (bin_infos cfg !! Z.to_nat (edata_szind_get e)) → ∃ magic, bin_ok (info_of_slab cfg e) magic.
Proof. intros [info E]. destruct (Hinfos _ _ E) as (magic & _ & H). exists magic. unfold info_of_slab, info_at. by rewrite E. Qed.

Lemma same_slab_info e e' : same_slab e e' → info_of_slab cfg e' = info_of_slab cfg e ∧ slab_key e' = slab_key e.
Proof. intros (_ & E1 & E2). unfold info_of_slab, slab_key. by rewrite E1, E2. Qed.

(** Regions of different slabs have different addresses. *)
Lemma region_at_inj p q e1 e2 r1 r2 :
  (∀ p e, m !! p = Some e → ∃ magic, bin_ok (info_of_slab cfg e) magic) →
  m !! p = Some e1 → m !! q = Some e2 → 0 ≤ r1 < nregs (info_of_slab cfg e1) → 0 ≤ r2 < nregs (info_of_slab cfg e2) →
  region_at (info_of_slab cfg e1) e1 r1 = region_at (info_of_slab cfg e2) e2 r2 → p = q ∧ r1 = r2.
Proof.
  intros Hb H1 H2 Hr1 Hr2. destruct (Hb _ _ H1) as (m1 & [A1 A2 A3 _ _ _]), (Hb _ _ H2) as (m2 & [B1 B2 B3 _ _ _]).
  unfold region_at. intros E. destruct (decide (p = q)) as [->|Hne].
  - split; [done|]. rewrite H1 in H2. injection H2 as <-. nia.
  - exfalso. destruct (so_apart _ _ _ _ Hok p q e1 e2 H1 H2 Hne); nia.
Qed.

(** A slab changes, its place and bin do not. *)
Lemma slabs_ok_update p e e' held' :
  m !! p = Some e → same_slab e e' → slab_inv (info_of_slab cfg e) e' → p ∉ mine →
  NoDup (rg_ptr <$> held') → Forall (in_use cfg (<[p:=e']> m)) held' → slabs_ok (<[p:=e']> m) held' mine.
Proof.
  intros E S I Hp Hd Hu. destruct (same_slab_info e e' S) as [Ei _]. destruct Hok as [H1 H2 H3 [H4 H4']].
  split; [| |done|split; [done|]].
  - intros q eq. destruct (decide (q = p)) as [->|Hne].
    + rewrite lookup_insert_eq. intros [= <-]. destruct (H1 p e E) as (? & ? & _). split; [done|]. split; [by destruct S as (-> & _)|by rewrite Ei].
    + rewrite lookup_insert_ne by done. apply H1.
  - assert (∀ q eq, <[p:=e']> m !! q = Some eq → ∃ e0, m !! q = Some e0 ∧ e_addr eq = e_addr e0 ∧ info_of_slab cfg eq = info_of_slab cfg e0) as Hold.
    { intros q eq. destruct (decide (q = p)) as [->|Hne]; [rewrite lookup_insert_eq; intros [= <-]; exists e; by destruct S as (? & _)|].
      rewrite lookup_insert_ne by done. by exists eq. }
    intros q1 q2 e1 e2 (f1 & F1 & G1 & K1)%Hold (f2 & F2 & G2 & K2)%Hold Hne.
    pose proof (H2 q1 q2 f1 f2 F1 F2 Hne) as Ha. unfold apart in *. by rewrite G1, G2, K1, K2.
  - intros q Hq. rewrite lookup_insert_ne by (by intros ->). by apply H4'.
Qed.

(** The regions of a slab that were in use are, unless one of them was freed. *)
Lemma in_use_update p e e' g :
  m !! p = Some e → same_slab e e' → in_use cfg m g →
  (∀ r, 0 ≤ r → rg_slab g = p → rg_ptr g = region_at (info_of_slab cfg e) e r → ¬ region_free e r → ¬ region_free e' r) →
  in_use cfg (<[p:=e']> m) g.
Proof.
  intros E S (eg & r & Eg & Hk & Hr & Hp & Hu) Hkeep. destruct (decide (rg_slab g = p)) as [Hg|Hne].
  - rewrite Hg, E in Eg. injection Eg as <-. destruct (same_slab_info e e' S) as [Ei Ek]. exists e', r. unfold region_at in *. rewrite Hg, lookup_insert_eq, Ei, Ek.
    destruct S as (-> & _). split_and!; try done; try lia. apply Hkeep; try done. lia.
  - exists eg, r. by rewrite lookup_insert_ne.
Qed.

Lemma slabs_ok_takes p e e' ptrs :
  (∀ p e, m !! p = Some e → ∃ magic, bin_ok (info_of_slab cfg e) magic) →
  m !! p = Some e → p ∉ mine → takes (info_of_slab cfg e) e ptrs e' →
  slabs_ok (<[p:=e']> m) ((mkRegion p (slab_key e) <$> ptrs) ++ held) mine.
Proof.
  intros Hb E Hp [S I _ (rs & -> & D & F & R)]. destruct (Hb p e E) as (magic & [A1 A2 A3 _ _ _]).
  destruct (so_held _ _ _ _ Hok) as [Hd Hu]. rewrite list.Forall_forall in F.
  apply (slabs_ok_update p e e'); [done..| |].
  - rewrite fmap_app. apply list.NoDup_app. split_and!; [| |done].
    + rewrite <- !list_fmap_compose. apply NoDup_fmap_2_strong; [|done]. unfold region_at. simpl. intros r1 r2 _ _ Eq. nia.
    + intros x Hx (g & -> & Hg)%list_elem_of_fmap. apply list_elem_of_fmap in Hx as (g' & Er & (x & -> & (r & -> & Hr)%list_elem_of_fmap)%list_elem_of_fmap).
      simpl in Er. rewrite list.Forall_forall in Hu. destruct (Hu g Hg) as (eg & rg & Eg & _ & Hrg & Hpg & Hf). destruct (F r Hr) as [Hrb Hrf].
      destruct (region_at_inj p (rg_slab g) e eg r rg Hb E Eg Hrb Hrg) as [Ep ->]; congruence.
  - apply Forall_app. split; apply list.Forall_forall.
    + intros g (x & -> & (r & -> & Hr)%list_elem_of_fmap)%list_elem_of_fmap. destruct (same_slab_info e e' S) as [Ei Ek]. destruct (F r Hr) as [Hrb Hrf].
      exists e', r. simpl. rewrite lookup_insert_eq, Ei, Ek. unfold region_at. destruct S as (-> & _). split_and!; try done; try lia.
      rewrite R by lia. tauto.
    + intros g Hg. rewrite list.Forall_forall in Hu. apply (in_use_update p e e'); [done..|by apply Hu|]. intros r Hr _ _ Hf. rewrite R by done. tauto.
Qed.
End regions.

(** ** Taking regions from the current slab *)

Hypothesis Hinfos : infos_ok cfg.

Lemma inv_infos s held mine : inv_but k s held mine → ∀ p e, slabs s !! p = Some e → ∃ magic, bin_ok (info_of_slab cfg e) magic.
Proof. intros [_ H2 H3 _ _] p e E. apply (info_ok Hinfos). by apply (proj1 (H3 (slab_key e) (H2 p e E))). Qed.

Lemma inv_nonzero s held mine : inv_but k s held mine → ∀ p e, slabs s !! p = Some e → p ≠ 0.
Proof. intros [H1 _ _ _ _] p e E. by destruct (so_slab _ _ _ _ H1 p e E). Qed.

Lemma key_info s p e : slab_of s k p e → info_of_slab cfg e = info_at cfg k.1.
Proof. intros [_ <-]. done. Qed.

Definition put_slab (p : Z) (e : edata_t) s : arena_mem := set_slabs (<[p:=e]> (slabs s)) s.

Lemma slab_put_frame s p e e' : slab_of s k p e → slab_key e' = k → frame k s (put_slab p e' s).
Proof.
  intros [E Hk] Hk'. split; [done| |done]. intros q eq k' Hne. unfold slab_of. simpl. destruct (decide (q = p)) as [->|Hq].
  - rewrite lookup_insert_eq, E. split; intros [[= <-] ?]; congruence.
  - by rewrite lookup_insert_ne.
Qed.

Lemma slab_of_put s p e' q eq :
  slab_key e' = k → slab_of (put_slab p e' s) k q eq ↔ (q = p ∧ eq = e') ∨ (q ≠ p ∧ slab_of s k q eq).
Proof.
  intros Hk. unfold slab_of. simpl. destruct (decide (q = p)) as [->|Hq].
  - rewrite lookup_insert_eq. split; [intros [[= <-] _]; by left|]. intros [[_ ->]|[? _]]; done.
  - rewrite lookup_insert_ne by done. split; [by right|]. intros [[? _]|[_ ?]]; done.
Qed.

(** A slab of the bin is replaced, and is then where its free count says. *)
Lemma bin_rep_put s b f xs mine p e e' ex :
  bin_rep s k b f xs [] mine → slab_of s k p e → slab_key e' = k →
  (p ∉ ex → placed cfg k b f xs p (edata_nfree_get e')) → bin_rep (put_slab p e' s) k b f xs ex mine.
Proof.
  intros R He Hk Hp. pose proof R as [R1 R2 R3 R4 R5]. apply (bin_rep_slabs cfg drift s _ k b f xs [] mine); try done.
  - intros q eq Hq Hs. destruct (decide (q = p)) as [->|Hne].
    + exists e'. apply slab_of_put; [done|]. by left.
    + exists eq. apply slab_of_put; [done|]. by right.
  - intros q eq Hs Hq. apply slab_of_put in Hs as [[-> ->]|[Hne Hs]]; [by apply Hp| |done]. apply (R4 q eq Hs). apply not_elem_of_nil.
Qed.

Lemma cur_takes s held mine b f xs e ptrs e' :
  inv_but k s held mine → bin_rep s k b f xs [] mine → slabcur b ≠ 0 → slab_of s k (slabcur b) e →
  takes (info_at cfg k.1) e ptrs e' → ptrs ≠ [] → no_spares cfg (slabs s) (slabcur b :: mine) →
  let s' := put_slab (slabcur b) e' s in
  inv_but k s' ((mkRegion (slabcur b) k <$> ptrs) ++ held) mine ∧ bin_rep s' k b f xs [] mine ∧ cur_used cfg s' k b ∧
  no_spares cfg (slabs s') mine.
Proof.
  intros HI R Hc He T Hne Hsp s'. pose proof R as [R1 R2 R3 R4 R5]. pose proof (inv_infos _ _ _ HI) as Hb.
  destruct (same_slab_info e e' (tk_same _ _ _ _ T)) as [Ei Ek]. pose proof He as [He1 He2].
  assert (slab_key e' = k) as Hk' by congruence.
  assert (edata_nfree_get e' < nregs_of cfg k) as Hlt.
  { pose proof (R4 _ _ He (not_elem_of_nil _)) as Hp. unfold placed in Hp. rewrite decide_True in Hp by done.
    rewrite (tk_nfree _ _ _ _ T). destruct ptrs; [done|]. simpl length. lia. }
  split; [|split; [|split]].
  - apply (inv_but_step cfg drift k s _ held mine); [done|by apply (slab_put_frame s _ e)|exact (conts_some _ _ _ _ R1)
      |exact (conts_some _ _ _ _ R1)| |by left].
    rewrite <- He2. apply slabs_ok_takes; [apply (ib_slabs _ _ _ _ _ _ HI)|done|done| |by rewrite (key_info _ _ _ He)].
    intros Hm. apply (R5 _ Hm). by left.
  - apply (bin_rep_put s b f xs mine _ e); [done..|]. intros _. unfold placed. rewrite decide_True by done. lia.
  - intros eq Hq. apply slab_of_put in Hq as [[_ ->]|[? _]]; done.
  - apply spares_put; [done|]. rewrite Ei, (key_info s _ e He). unfold nregs_of in Hlt. lia.
Qed.

Lemma slabcur_reg_alloc_ok s held mine b f xs e :
  inv_but k s held mine → bin_rep s k b f xs [] mine → slabcur b ≠ 0 → slab_of s k (slabcur b) e → 0 < edata_nfree_get e →
  no_spares cfg (slabs s) (slabcur b :: mine) →
  ∃ ptr s', slabcur_reg_alloc cfg k s = Done (ptr, s') ∧ ptr ≠ 0 ∧
    inv_but k s' (mkRegion (slabcur b) k ptr :: held) mine ∧ bin_rep s' k b f xs [] mine ∧ cur_used cfg s' k b ∧ no_spares cfg (slabs s') mine.
Proof.
  intros HI R Hc He Hn Hsp. pose proof (br_conts _ _ _ _ _ _ _ _ _ R) as C. pose proof He as [He1 He2].
  destruct (inv_infos _ _ _ HI _ _ He1) as (magic & Hbo). rewrite (key_info _ _ _ He) in Hbo.
  destruct (so_slab _ _ _ _ (ib_slabs _ _ _ _ _ _ HI) _ _ He1) as (_ & Ha & Hs). rewrite (key_info _ _ _ He) in Hs.
  destruct (slab_takes_one _ magic Hbo e Hs Hn) as (ptr & e' & E & T).
  unfold slabcur_reg_alloc. rewrite (bind_done _ _ _ _ _ (bin_get_ok k s b (ct_bin _ _ _ _ _ _ _ C))).
  rewrite (bind_done _ _ _ _ _ (arena_slab_get_ok s _ _ He1 Hc)).
  erewrite bind_done by (apply info_of_ok; exact (proj1 (ib_infos _ _ _ _ _ _ HI k (conts_some _ _ _ _ C)))).
  rewrite (bind_done _ _ _ _ _ (liftO_done _ _ _ E)). cbv beta iota.
  erewrite bind_done by reflexivity. eexists ptr, _. split; [reflexivity|]. split.
  - destruct (tk_regions _ _ _ _ T) as (rs & Er & _ & F & _). destruct rs as [|r rs]; [done|]. injection Er as -> _.
    apply list.Forall_cons in F as [[Hr _] _]. unfold region_at. destruct Hbo as [A1 _ _ _ _ _]. nia.
  - by apply (cur_takes s held mine b f xs e [ptr] e').
Qed.

(** ** Allocating with what the bin has *)

Lemma slabcur_nfree_ok s held mine b f xs :
  inv_but k s held mine → bin_rep s k b f xs [] mine →
  ∃ n, slabcur_nfree k s = Done (n, s) ∧
    (if decide (n = 0) then ∀ e, slab_of s k (slabcur b) e → edata_nfree_get e = 0
     else slabcur b ≠ 0 ∧ ∃ e, slab_of s k (slabcur b) e ∧ n = edata_nfree_get e ∧ 0 < n ≤ 512).
Proof.
  intros HI [C Hc _ _ _]. unfold slabcur_nfree. rewrite (bind_done _ _ _ _ _ (bin_get_ok k s b (ct_bin _ _ _ _ _ _ _ C))).
  destruct (Z.eqb_spec (slabcur b) 0) as [H0|Hne].
  - exists 0. split; [done|]. rewrite decide_True by done. rewrite H0. intros e [He _]. by destruct (inv_nonzero _ _ _ HI _ _ He).
  - destruct (Hc Hne) as (e & He). pose proof He as [He1 He2]. rewrite (bind_done _ _ _ _ _ (arena_slab_get_ok s _ _ He1 Hne)).
    exists (edata_nfree_get e). split; [done|]. destruct (inv_infos _ _ _ HI _ _ He1) as (magic & Hbo).
    destruct (so_slab _ _ _ _ (ib_slabs _ _ _ _ _ _ HI) _ _ He1) as (_ & _ & Hs). pose proof (nfree_bound _ _ _ Hbo Hs).
    case_decide.
    + intros e2 [He' _]. congruence.
    + split; [done|]. exists e. split_and!; try done; lia.
Qed.

Lemma malloc_no_fresh_ok s held mine b f xs :
  inv_but k s held mine → bin_rep s k b f xs [] mine → no_spares cfg (slabs s) mine →
  ∃ ret s' b' f' xs', arena_bin_malloc_no_fresh_slab cfg k s = Done (ret, s') ∧ bin_rep s' k b' f' xs' [] mine ∧
    (if decide (ret = 0) then slabcur b' = 0 ∧ f' = Nil ∧ inv_but k s' held mine ∧ slabs s' = slabs s
     else cur_used cfg s' k b' ∧ no_spares cfg (slabs s') mine ∧ inv_but k s' (mkRegion (slabcur b') k ret :: held) mine).
Proof.
  intros HI R Hsp. unfold arena_bin_malloc_no_fresh_slab. destruct (slabcur_nfree_ok s held mine b f xs HI R) as (n & E & Hn).
  rewrite (bind_done _ _ _ _ _ E). case_decide as H0.
  - subst n. rewrite Z.eqb_refl.
    destruct (refill_no_fresh_ok s b f xs mine R (inv_nonzero _ _ _ HI) Hn) as (s1 & b1 & f1 & xs1 & E1 & R1 & S1 & F1 & P1).
    rewrite (bind_done _ _ _ _ _ E1).
    assert (inv_but k s1 held mine) as HI1.
    { apply (inv_but_step cfg drift k s s1 held mine); [done..| | | |by left].
      - exact (conts_some _ _ _ _ (br_conts _ _ _ _ _ _ _ _ _ R)).
      - exact (conts_some _ _ _ _ (br_conts _ _ _ _ _ _ _ _ _ R1)).
      - rewrite S1. apply (ib_slabs _ _ _ _ _ _ HI). }
    case_decide as Hf.
    + rewrite bool_decide_true by done. destruct P1 as [Hc ->]. exists 0, s1, b1, Nil, xs1. by rewrite decide_True.
    + rewrite bool_decide_false by done. destruct P1 as [Hc Hp]. destruct (br_cur _ _ _ _ _ _ _ _ _ R1 Hc) as (e & He).
      destruct (slabcur_reg_alloc_ok s1 held mine b1 f1 xs1 e HI1 R1 Hc He ltac:(apply (Hp e He))) as (ptr & s2 & E2 & Hp2 & I2 & R2 & U2 & Hs2).
      { rewrite S1. eapply spares_weaken; [|exact Hsp]. by right. }
      exists ptr, s2, b1, f1, xs1. by rewrite decide_False.
  - rewrite (proj2 (Z.eqb_neq n 0)) by done. destruct Hn as (Hc & e & He & -> & Hpos).
    destruct (slabcur_reg_alloc_ok s held mine b f xs e HI R Hc He ltac:(lia)) as (ptr & s2 & E2 & Hp2 & I2 & R2 & U2 & Hs2).
    { eapply spares_weaken; [|exact Hsp]. by right. }
    exists ptr, s2, b, f, xs. by rewrite decide_False.
Qed.

(** ** A new slab *)

Lemma with_fresh_ok s held mine b xs p e :
  inv_but k s held (p :: mine) → bin_rep s k b Nil xs [] (p :: mine) → slabcur b = 0 → slab_of s k p e →
  ∃ s' b', arena_bin_refill_slabcur_with_fresh_slab cfg k p s = Done (tt, s') ∧ slabcur b' = p ∧ p ≠ 0 ∧
    inv_but k s' held mine ∧ bin_rep s' k b' Nil xs [] mine ∧ slabs s' = slabs s.
Proof.
  intros HI R Hc He. pose proof R as [C R2 R3 R4 R5]. unfold arena_bin_refill_slabcur_with_fresh_slab.
  rewrite (bind_done _ _ _ _ _ (tally_ok cfg k _ s b (ct_bin _ _ _ _ _ _ _ C))).
  set (u := λ t : bin_stats_t, _). rewrite (bin_mod_ok k _ _ (tallied cfg u b)) by (simpl; apply lookup_insert_eq). rewrite put_bin_twice.
  set (b' := set_slabcur p (tallied cfg u b)). assert (Hp0 : p ≠ 0) by (apply (inv_nonzero _ _ _ HI p e); apply He).
  assert (conts cfg drift (put_bin k b' s) k b' Nil xs) as C'.
  { apply (conts_put cfg drift k s b); [done|..]; unfold b', tallied; destruct (config_stats cfg); done. }
  destruct (so_mine _ _ _ _ (ib_slabs _ _ _ _ _ _ HI)) as [Nm Hm]. apply list.NoDup_cons in Nm as [Np Nm].
  assert (¬ member b Nil xs p) as Hnm by (apply R5; by left).
  eexists _, b'. split; [reflexivity|]. split; [done|]. split; [done|]. split; [|split; [|done]].
  - apply (inv_but_step cfg drift k s _ held (p :: mine)); [done|by apply put_bin_frame|exact (conts_some _ _ _ _ C)
      |exact (conts_some _ _ _ _ C')| |by left; right].
    destruct (ib_slabs _ _ _ _ _ _ HI) as [H1 H2 H3 _]. split; [done..|]. split; [done|]. intros q Hq. apply Hm. by right.
  - split; [done| | | |].
    + intros _. by exists e.
    + split; [apply not_elem_of_nil|]. intros Hx. apply Hnm. by right; right.
    + intros q eq Hq _. unfold placed. simpl. case_decide as Hqp.
      * subst q. destruct (Hm p ltac:(by left)) as (e2 & E2 & Hn2). assert (eq = e) as -> by (destruct Hq, He; simpl in *; congruence).
        assert (e2 = e) as -> by (destruct He; congruence). rewrite Hn2, (key_info s p e He). done.
      * pose proof (R4 q eq Hq (not_elem_of_nil _)) as Hpl. unfold placed in Hpl. simpl in Hpl. rewrite decide_False in Hpl; [done|].
        intros ->. destruct Hq as [Hq _]. simpl in Hq. by apply (inv_nonzero _ _ _ HI) in Hq.
    + intros q Hq [[Hq1 _]|[Hq1|Hq1]].
      * simpl in Hq1. by subst q.
      * by apply not_elem_of_nil in Hq1.
      * apply (R5 q); [by right|]. by right; right.
Qed.
End steps.
