(* ===== verification/ArenaBinFree.v ===== *)
(** * Arena bins: giving a region back

    What [arena_dalloc_bin_locked_step] does to a bin: a slab with its first free region moves
    from the list to the heap or becomes the current slab, a slab that is wholly free leaves the
    bin. *)
From stdpp Require Import base list gmap numbers.
From S2P Require Import Prelude BitUtil SizeClass Fb Edata EdataTheorems Bitmap Slab SlabTheorems Ph PhFacts PhOps PhHeap Ql ArenaBin ArenaBinInv ArenaBinOps ArenaBinSteps.

Section free.
Context (cfg : arena_config) (drift : Z * Z → Z) (k : Z * Z).
Implicit Types (s : arena_mem) (b : bin_t) (f : forest) (xs mine : list Z) (held : list region).
Hypothesis Hinfos : infos_ok cfg.

Abbreviation bin_rep := (bin_rep cfg drift).
Abbreviation inv_but := (inv_but cfg drift).

(** A slab that is in no container but may be the next one. *)
Definition loose b f xs mine (p : Z) : Prop := p ≠ slabcur b ∧ p ∉ nodes f ∧ p ∉ xs ∧ p ∉ mine.

(** The slab is put in the heap. *)
Lemma insert_loose s b f xs mine p e :
  bin_rep s k b f xs [p] mine → cur_used cfg s k b → slab_of s k p e → p ≠ 0 → loose b f xs mine p → 0 < edata_nfree_get e < nregs_of cfg k →
  ∃ s' b' f' xs', arena_bin_slabs_nonfull_insert cfg k p s = Done (tt, s') ∧
    bin_rep s' k b' f' xs' [] mine ∧ cur_used cfg s' k b' ∧ slabs s' = slabs s ∧ frame k s s'.
Proof.
  intros [C R2 R3 R4 R5] U He Hp (L1 & L2 & L3 & L4) Hn.
  destruct (nonfull_insert_ok cfg drift k s b f xs p e C He Hp L2 L3) as (s' & b' & f' & E & C' & P & (M1 & M2 & F)).
  exists s', b', f', xs. split; [exact E|].
  assert (∀ q eq, slab_of s' k q eq ↔ slab_of s k q eq) as Hs by (intros q eq; unfold slab_of; by rewrite M1).
  split; [|split_and!; [|done|done]].
  - split; [done|..].
    + rewrite M2. intros Hc. destruct (R2 Hc) as (e1 & H1). exists e1. by apply Hs.
    + rewrite M2, P, not_elem_of_cons. destruct R3. naive_solver.
    + intros q eq Hq _. apply Hs in Hq. destruct (decide (q = p)) as [->|Hne].
      * assert (eq = e) as -> by (destruct Hq, He; congruence). apply placed_heap; [by rewrite M2|rewrite P; by left|done].
      * apply (placed_same cfg drift k b f xs); [by rewrite M2|rewrite P, elem_of_cons; naive_solver|done|].
        apply (R4 q eq Hq). apply not_elem_of_cons. split; [done|apply not_elem_of_nil].
    + intros q Hq Hmem. apply (R5 q Hq). destruct Hmem as [[H1 H2]|[H1|H1]].
      * left. by rewrite <- M2.
      * rewrite P in H1. apply elem_of_cons in H1 as [->|H1]; [done|by right; left].
      * by right; right.
  - intros eq Hq. rewrite M2 in Hq. apply (U eq), Hs, Hq.
Qed.

(** The current slab goes to the container it belongs in. *)
Lemma retire_lower s b f xs e :
  conts cfg drift s k b f xs → slab_of s k (slabcur b) e → slabcur b ≠ 0 → slabcur b ∉ nodes f → slabcur b ∉ xs →
  ∃ s' b' f' xs', (if 0 <? edata_nfree_get e then arena_bin_slabs_nonfull_insert cfg k (slabcur b)
                   else arena_bin_slabs_full_insert cfg k (slabcur b)) s = Done (tt, s') ∧
    conts cfg drift s' k b' f' xs' ∧ moved k s b s' b' ∧
    (∀ q, q ∈ nodes f' ↔ q ∈ nodes f ∨ q = slabcur b ∧ 0 < edata_nfree_get e) ∧
    (∀ q, q ∈ xs' ↔ q ∈ xs ∨ q = slabcur b ∧ edata_nfree_get e ≤ 0 ∧ is_auto cfg = false).
Proof.
  intros C He Hc H1 H2. destruct (Z.ltb_spec 0 (edata_nfree_get e)) as [Hn|Hn].
  - destruct (nonfull_insert_ok cfg drift k s b f xs _ e C He Hc H1 H2) as (s' & b' & f' & E & C' & P & M).
    exists s', b', f', xs. split; [exact E|]. split; [exact C'|]. split; [exact M|]. split; intros q.
    + rewrite P, elem_of_cons. naive_solver.
    + split; [by left|]. intros [?|(? & ? & _)]; [done|lia].
  - destruct (full_insert_ok cfg drift k s b f xs _ e C He Hc H1 H2) as (s' & b' & xs' & E & C' & M & ->).
    exists s', b', f, (if is_auto cfg then xs else xs ++ [slabcur b]). split; [exact E|]. split; [exact C'|]. split; [exact M|]. split; intros q.
    + split; [by left|]. intros [?|(? & ?)]; [done|lia].
    + destruct (is_auto cfg); [naive_solver|]. rewrite elem_of_app, list_elem_of_singleton. naive_solver.
Qed.

Lemma lower_slab_ok s b f xs mine p e :
  bin_rep s k b f xs [p] mine → cur_used cfg s k b → (∀ p e, slabs s !! p = Some e → p ≠ 0) →
  slab_of s k p e → loose b f xs mine p → 0 < edata_nfree_get e < nregs_of cfg k →
  ∃ s' b' f' xs', arena_bin_lower_slab cfg p k s = Done (tt, s') ∧
    bin_rep s' k b' f' xs' [] mine ∧ cur_used cfg s' k b' ∧ slabs s' = slabs s ∧ frame k s s'.
Proof.
  intros R U Hz He L Hn. pose proof R as [C R2 R3 R4 R5]. pose proof (bin_slab_nonzero k s p e Hz He) as Hp.
  unfold arena_bin_lower_slab. rewrite (bind_done _ _ _ _ _ (bin_get_ok k s b (ct_bin _ _ _ _ _ _ _ C))). erewrite bind_done by reflexivity.
  destruct (negb (slabcur b =? 0) && (0 <? snad (slabs s) (slabcur b) p)) eqn:Hsw; [|by apply (insert_loose s b f xs mine p e)].
  apply andb_true_iff in Hsw as [Hc _]. apply negb_true_iff, Z.eqb_neq in Hc. destruct (R2 Hc) as (ec & Hec). pose proof Hec as [Hec1 _].
  rewrite (bind_done _ _ _ _ _ (arena_slab_get_ok s _ _ Hec1 Hc)). destruct L as (L1 & L2 & L3 & L4), R3 as [R31 R32].
  destruct (retire_lower s b f xs ec C Hec Hc R31 R32) as (s1 & b1 & f1 & xs1 & E1 & C1 & (M1 & M2 & F1) & N1 & X1).
  rewrite (bind_done _ _ _ _ _ E1), (bind_done _ _ _ _ _ (bin_mod_ok k _ _ _ (ct_bin _ _ _ _ _ _ _ C1))).
  set (u := λ t : bin_stats_t, _). rewrite (tally_ok cfg k _ _ (set_slabcur p b1)) by (simpl; apply lookup_insert_eq). rewrite put_bin_twice.
  set (b2 := tallied cfg u (set_slabcur p b1)). assert (slabcur b2 = p) as Hb2 by apply slabcur_tallied.
  assert (∀ q eq, slab_of (put_bin k b2 s1) k q eq ↔ slab_of s k q eq) as Hs by (intros q eq; unfold slab_of; simpl; by rewrite M1).
  assert (p ∉ nodes f1 ∧ p ∉ xs1) as [Hpn Hpx] by (clear -L1 L2 L3 N1 X1; rewrite N1, X1; naive_solver).
  exists (put_bin k b2 s1), b2, f1, xs1. split; [done|]. split; [|split_and!].
  - split.
    + apply (conts_put cfg drift k s1 b1); [done|..]; unfold b2, tallied; destruct (config_stats cfg); done.
    + intros _. rewrite Hb2. exists e. by apply Hs.
    + by rewrite Hb2.
    + intros q eq Hq _. apply Hs in Hq. destruct (decide (q = p)) as [->|Hqp].
      { assert (eq = e) as -> by (destruct Hq, He; congruence). unfold placed. rewrite decide_True by done. lia. }
      pose proof (R4 q eq Hq) as Hpl. rewrite not_elem_of_cons in Hpl. specialize (Hpl (conj Hqp (not_elem_of_nil _))).
      destruct (decide (q = slabcur b)) as [->|Hqc].
      * assert (eq = ec) as -> by (destruct Hq, Hec; congruence). pose proof (U ec Hec) as Hlt.
        destruct (decide (0 < edata_nfree_get ec)) as [H0|H0].
        -- apply placed_heap; [by rewrite Hb2|by apply N1; right|lia].
        -- assert (0 ≤ edata_nfree_get ec) by (unfold edata_nfree_get; apply Z.mod_pos_bound; lia).
           apply placed_full; [by rewrite Hb2| |intros Ha; apply X1; right; split_and!; [done|lia|done]|lia].
           rewrite N1. intros [?|[_ ?]]; done.
      * apply (placed_same cfg drift k b f xs); [rewrite Hb2; clear -Hqc Hqp; naive_solver|rewrite N1; clear -Hqc; naive_solver|rewrite X1; clear -Hqc; naive_solver|exact Hpl].
    + intros q Hq Hmem. destruct Hmem as [[H1 H2]|[H1|H1]].
      * rewrite Hb2 in H1. by subst q.
      * apply (R5 q Hq). apply N1 in H1 as [H1|[-> _]]; [by right; left|by left].
      * apply (R5 q Hq). apply X1 in H1 as [H1|[-> _]]; [by right; right|by left].
  - intros eq Hq. apply Hs in Hq. rewrite Hb2 in Hq. assert (eq = e) as -> by (destruct Hq, He; congruence). lia.
  - simpl. by rewrite M1.
  - eapply frame_trans; [exact F1|apply put_bin_frame].
Qed.
(** ** A slab that is wholly free *)

(** A slab is gone from the containers of its bin. *)
Lemma bin_rep_leave s b f xs mine p e s' b' f' xs' :
  bin_rep s k b f xs [p] mine → (p ≠ slabcur b → cur_used cfg s k b) → slab_of s k p e → p ≠ 0 →
  edata_nfree_get e = nregs_of cfg k →
  conts cfg drift s' k b' f' xs' → slabs s' = slabs s → ¬ member b' f' xs' p →
  (∀ q, q ≠ p → q ≠ 0 → (q = slabcur b' ↔ q = slabcur b) ∧ (q ∈ nodes f' ↔ q ∈ nodes f) ∧ (q ∈ xs' ↔ q ∈ xs)) →
  (∀ p e, slabs s !! p = Some e → p ≠ 0) →
  bin_rep s' k b' f' xs' [] (p :: mine) ∧ cur_used cfg s' k b'.
Proof.
  intros [C R2 R3 R4 R5] U He Hp Hn C' M1 Hnm Hq Hz.
  assert (∀ q eq, slab_of s' k q eq ↔ slab_of s k q eq) as Hs by (intros q eq; unfold slab_of; by rewrite M1).
  assert (∀ q, member b' f' xs' q → q ≠ p ∧ q ≠ 0) as Hmem.
  { intros q Hm. split; [by intros ->|]. destruct Hm as [[_ H0]|H0]; [done|]. by apply (conts_not_zero _ _ _ _ _ _ _ _ C'). }
  split; [split; [done|..]|].
  - intros Hc. destruct (Hmem (slabcur b')) as [H1 H2]; [by left|]. destruct (Hq _ H1 H2) as ([Hqc _] & _).
    specialize (Hqc eq_refl). destruct R2 as (ec & Hec); [congruence|]. exists ec. apply Hs. by rewrite Hqc.
  - destruct (decide (slabcur b' = 0)) as [H0|Hc].
    { rewrite H0. split; intros Hx; by apply (conts_not_zero cfg drift k s' b' f' xs' 0 C'); auto. }
    destruct (Hmem (slabcur b')) as [H1 H2]; [by left|]. destruct (Hq _ H1 H2) as ([Hqc _] & -> & ->).
    by rewrite (Hqc eq_refl).
  - intros q eq Hqs _. apply Hs in Hqs. pose proof (bin_slab_nonzero k s q eq Hz Hqs) as Hq0. destruct (decide (q = p)) as [->|Hne].
    + assert (eq = e) as -> by (destruct Hqs, He; congruence). unfold placed.
      rewrite !decide_False; [by left|intros Hx; apply Hnm; by right; right|intros Hx; apply Hnm; by right; left|intros Hx; apply Hnm; by left].
    + destruct (Hq q Hne Hq0) as (H1 & H2 & H3). apply (placed_same cfg drift k b f xs); [done..|].
      apply (R4 q eq Hqs). apply not_elem_of_cons. split; [done|apply not_elem_of_nil].
  - intros q [->|Hqm]%elem_of_cons; [done|]. intros Hm. destruct (Hmem q Hm) as [H1 H2]. destruct (Hq q H1 H2) as (E1 & E2 & E3).
    apply (R5 q Hqm). destruct Hm as [[Hm H0]|[Hm|Hm]]; [left|right; left|right; right]; tauto.
  - intros eq Hqs. apply Hs in Hqs. pose proof (bin_slab_nonzero k s _ eq Hz Hqs) as Hq0.
    assert (slabcur b' ≠ p) as H1 by (intros E; apply Hnm; by left). destruct (Hq _ H1 Hq0) as ([Hqc _] & _).
    rewrite (Hqc eq_refl) in H1, Hqs. by apply (U (λ E, H1 (eq_sym E)) eq).
Qed.

(** The list without a slab that was full. *)
Lemma full_removed s b f xs xs' p :
  conts cfg drift s k b f xs → (if is_auto cfg then xs' = [] else p :: xs' ≡ₚ xs) → p ∉ xs' ∧ ∀ q, q ≠ p → q ∈ xs' ↔ q ∈ xs.
Proof.
  intros C P. destruct (is_auto cfg) eqn:Ha; [subst xs'; rewrite (ct_auto _ _ _ _ _ _ _ C Ha); by split; [apply not_elem_of_nil|]|].
  pose proof (ct_list _ _ _ _ _ _ _ C) as ((N & _) & _). rewrite <- P in N. apply list.NoDup_cons in N as [? _]. split; [done|].
  intros q Hq. rewrite <- P, elem_of_cons. naive_solver.
Qed.

Lemma dissociate_ok s b f xs mine p e :
  bin_rep s k b f xs [p] mine → (p ≠ slabcur b → cur_used cfg s k b) → (∀ p e, slabs s !! p = Some e → p ≠ 0) → is_Some (bin_infos cfg !! Z.to_nat k.1) →
  slab_of s k p e → edata_nfree_get e = nregs_of cfg k → placed cfg k b f xs p (nregs_of cfg k - 1) →
  ∃ s' b' f' xs', arena_dissociate_bin_slab cfg p k s = Done (tt, s') ∧
    bin_rep s' k b' f' xs' [] (p :: mine) ∧ cur_used cfg s' k b' ∧ slabs s' = slabs s ∧ frame k s s'.
Proof.
  intros R U Hz Hi He Hn Hpl. pose proof R as [C R2 R3 R4 R5]. pose proof (bin_slab_nonzero k s p e Hz He) as Hp.
  unfold arena_dissociate_bin_slab. rewrite (bind_done _ _ _ _ _ (bin_get_ok k s b (ct_bin _ _ _ _ _ _ _ C))). unfold placed in Hpl.
  destruct (Z.eqb_spec p (slabcur b)) as [Hcur|Hcur].
  { rewrite (bin_mod_ok k _ _ b) by apply (ct_bin _ _ _ _ _ _ _ C). set (b' := set_slabcur 0 b).
    assert (conts cfg drift (put_bin k b' s) k b' f xs) as C' by (by apply (conts_put cfg drift k s b)).
    destruct (bin_rep_leave s b f xs mine p e (put_bin k b' s) b' f xs) as [Rn Un]; try done.
    - subst p. intros [[Hx _]|[Hx|Hx]]; [done|by destruct R3..].
    - intros q Hq Hq0. split; [|done]. simpl. split; congruence.
    - exists (put_bin k b' s), b', f, xs. split; [done|]. split; [done|]. split; [done|]. split; [done|apply put_bin_frame]. }
  rewrite decide_False in Hpl by done. pose proof He as [He1 He2]. rewrite (bind_done _ _ _ _ _ (arena_slab_get_ok s _ _ He1 Hp)).
  rewrite <- He2 in Hi. erewrite bind_done by (by apply info_of_ok). fold (info_of_slab cfg e). rewrite (key_info cfg k s p e He). fold (nregs_of cfg k).
  destruct (Z.eqb_spec (nregs_of cfg k) 1) as [H1|H1].
  - assert (p ∉ nodes f ∧ (is_auto cfg = false → p ∈ xs)) as [Hpf Hpx].
    { repeat case_decide; [lia|done|]. split; [done|]. intros Ha. destruct Hpl as [?|[? _]]; [lia|congruence]. }
    destruct (full_remove_ok cfg drift k s b f xs p C Hpx) as (s' & b' & xs' & E & C' & (M1 & M2 & F) & P).
    assert (p ∉ xs' ∧ ∀ q, q ≠ p → q ∈ xs' ↔ q ∈ xs) as [Hp1 Hp2] by (by apply (full_removed s b f xs xs' p)).
    destruct (bin_rep_leave s b f xs mine p e s' b' f xs') as [Rn Un]; try done.
    + intros [[Hx _]|[Hx|Hx]]; [congruence|done|done].
    + intros q Hq Hq0. rewrite M2. split; [done|]. split; [done|by apply Hp2].
    + exists s', b', f, xs'. split; [exact E|]. split; [done|]. split; [done|]. by split.
  - assert (p ∈ nodes f) as Hpf.
    { repeat case_decide; [done|lia|]. destruct Hpl as [?|[_ ?]]; lia. }
    destruct (nonfull_remove_ok cfg drift k s b f xs p C Hpf) as (s' & b' & f' & E & C' & P & (M1 & M2 & F)).
    pose proof (ct_heap _ _ _ _ _ _ _ C) as (_ & _ & N). rewrite <- P in N. apply list.NoDup_cons in N as [Hpn _].
    destruct (bin_rep_leave s b f xs mine p e s' b' f' xs) as [Rn Un]; try done.
    + intros [[Hx _]|[Hx|Hx]]; [congruence|done|]. by apply (ct_disj _ _ _ _ _ _ _ C p).
    + intros q Hq Hq0. rewrite M2. split; [done|]. split; [|done]. rewrite <- P, elem_of_cons. clear -Hq. naive_solver.
    + exists s', b', f', xs. split; [exact E|]. split; [done|]. split; [done|]. by split.
Qed.
(** ** The step *)

(** The invariant with the lock of [k] held. *)
Definition locked s held mine : Prop :=
  ∃ b f xs, inv_but k s held mine ∧ bin_rep s k b f xs [] mine ∧ cur_used cfg s k b ∧ no_spares cfg (slabs s) mine.

Lemma locked_inv s held mine : locked s held mine → arena_inv cfg drift s held mine ∧ is_Some (bins s !! k).
Proof.
  intros (b & f & xs & HI & R & U & Hsp). split; [by eapply close_bin|]. by eapply conts_some, R.
Qed.

Lemma inv_locked s held mine : arena_inv cfg drift s held mine → is_Some (bins s !! k) → locked s held mine.
Proof. apply open_bin. Qed.

(** Statistics, but for the count of the slabs in the heap. *)
Lemma tally_locked u s held mine :
  (∀ t, nonfull_slabs (u t) = nonfull_slabs t) → locked s held mine →
  ∃ s', tally cfg k u s = Done (tt, s') ∧ locked s' held mine ∧ slabs s' = slabs s.
Proof.
  intros Hu (b & f & xs & HI & R & U & Hsp). pose proof R as [C R2 R3 R4 R5]. exists (put_bin k (tallied cfg u b) s).
  split; [apply tally_ok, C|]. split; [|done]. assert (conts cfg drift (put_bin k (tallied cfg u b) s) k (tallied cfg u b) f xs) as C'.
  { apply (conts_put cfg drift k s b); [done|..]; unfold tallied; destruct (config_stats cfg); try done. intros _. apply Hu. }
  assert (Hb : slabcur (tallied cfg u b) = slabcur b) by apply slabcur_tallied. exists (tallied cfg u b), f, xs. split; [|split; [|split; [|done]]].
  - apply (inv_but_step cfg drift k s _ held mine); [done|apply put_bin_frame|exact (conts_some _ _ _ _ _ _ _ C)
      |exact (conts_some _ _ _ _ _ _ _ C')|apply HI|by left].
  - split; [done|by rewrite Hb|by rewrite Hb| |].
    + intros p e He Hx. apply (placed_same cfg drift k b f xs); [by rewrite Hb|done|done|]. by apply R4.
    + intros p Hp [[H1 H2]|H]; apply (R5 p Hp); [left; by rewrite <- Hb|by right].
  - intros e He. apply U. by rewrite <- Hb.
Qed.

Lemma slabs_ok_gives (m : gmap Z edata_t) g held mine e e' r :
  slabs_ok cfg m (g :: held) mine → (∀ p e, m !! p = Some e → ∃ magic, bin_ok (info_of_slab cfg e) magic) →
  m !! rg_slab g = Some e → same_slab e e' → slab_inv (info_of_slab cfg e) e' → rg_slab g ∉ mine →
  rg_ptr g = region_at (info_of_slab cfg e) e r → (∀ i, 0 ≤ i → region_free e' i ↔ region_free e i ∨ i = r) →
  slabs_ok cfg (<[rg_slab g:=e']> m) held mine.
Proof.
  intros Hok Hb E S I Hm Hp Hr. destruct (so_held _ _ _ _ Hok) as [Hd Hu]. rewrite fmap_cons in Hd. apply list.NoDup_cons in Hd as [Hng Hd].
  apply list.Forall_cons in Hu as [_ Hu]. destruct Hok as [H1 H2 _ H4].
  assert (slabs_ok cfg m held mine) as Hok' by (split; done).
  apply (slabs_ok_update cfg m held mine Hok' _ e e'); [done..|]. apply list.Forall_forall. intros h Hh. rewrite list.Forall_forall in Hu.
  apply (in_use_update cfg m _ e e'); [done..|by apply Hu|]. intros i Hi Hs Hpi Hf. rewrite Hr by done. intros [?|Hx]; [done|].
  subst i. apply Hng. apply list_elem_of_fmap. exists h. split; [congruence|done].
Qed.

(** A wholly free slab is in hand. *)
Lemma slabs_ok_own (m : gmap Z edata_t) held mine p e :
  slabs_ok cfg m held mine → m !! p = Some e → edata_nfree_get e = nregs (info_of_slab cfg e) → p ∉ mine → slabs_ok cfg m held (p :: mine).
Proof.
  intros [H1 H2 H3 [H4 H4']] E Hn Hp. split; [done..|]. split; [by apply list.NoDup_cons|].
  intros q [->|Hq]%elem_of_cons; [by exists e|by apply H4'].
Qed.

Lemma newly_empty_ok s held b f xs mine p e :
  inv_but k s held mine → bin_rep s k b f xs [p] mine → (p ≠ slabcur b → cur_used cfg s k b) →
  slab_of s k p e → edata_nfree_get e = nregs_of cfg k → placed cfg k b f xs p (nregs_of cfg k - 1) → p ∉ mine →
  no_spares cfg (slabs s) (p :: mine) →
  ∃ s', arena_dalloc_bin_locked_handle_newly_empty cfg p k s = Done (tt, s') ∧ locked s' held (p :: mine) ∧ slabs s' = slabs s.
Proof.
  intros HI R U He Hn Hpl Hpm Hsp. pose proof (conts_some _ _ _ _ _ _ _ (br_conts _ _ _ _ _ _ _ _ _ R)) as Hb.
  destruct (dissociate_ok s b f xs mine p e R U (inv_nonzero cfg drift k _ _ _ HI) (proj1 (ib_infos _ _ _ _ _ _ HI k Hb)) He Hn Hpl)
    as (s1 & b1 & f1 & xs1 & E1 & R1 & U1 & M1 & F1).
  unfold arena_dalloc_bin_locked_handle_newly_empty. rewrite (bind_done _ _ _ _ _ E1). rewrite <- M1. apply tally_locked; [done|].
  exists b1, f1, xs1. split; [|by rewrite M1]. apply (inv_but_step cfg drift k s _ held mine); [done..|exact (conts_some _ _ _ _ _ _ _ (br_conts _ _ _ _ _ _ _ _ _ R1))| |].
  - rewrite M1. apply (slabs_ok_own _ held mine p e); [apply HI|apply He| |done]. by rewrite (key_info cfg k s p e He).
  - intros q [->|Hq]%elem_of_cons; [|by left]. right. intros eq k' Hk [E Hkey]. destruct He. congruence.
Qed.

Lemma newly_nonempty_ok s held b f xs mine p e :
  inv_but k s held mine → bin_rep s k b f xs [p] mine → cur_used cfg s k b → p ≠ slabcur b →
  slab_of s k p e → 0 < edata_nfree_get e < nregs_of cfg k → placed cfg k b f xs p 0 → p ∉ mine →
  no_spares cfg (slabs s) mine →
  ∃ s', arena_dalloc_bin_locked_handle_newly_nonempty cfg p k s = Done (tt, s') ∧ locked s' held mine ∧ slabs s' = slabs s.
Proof.
  intros HI R U Hne He Hn Hpl Hpm Hsp. pose proof R as [C R2 R3 R4 R5]. unfold placed in Hpl. rewrite decide_False in Hpl by done.
  assert (p ∉ nodes f ∧ (is_auto cfg = false → p ∈ xs)) as [Hpf Hpx].
  { repeat case_decide; [lia|done|]. split; [done|]. intros Ha. destruct Hpl as [?|[? _]]; [lia|congruence]. }
  destruct (full_remove_ok cfg drift k s b f xs p C Hpx) as (s1 & b1 & xs1 & E1 & C1 & (M1 & M2 & F1) & P).
  assert (p ∉ xs1 ∧ ∀ q, q ≠ p → q ∈ xs1 ↔ q ∈ xs) as [Hp1 Hp2] by (by apply (full_removed s b f xs xs1 p)).
  assert (∀ q eq, slab_of s1 k q eq ↔ slab_of s k q eq) as Hs by (intros q eq; unfold slab_of; by rewrite M1).
  assert (bin_rep s1 k b1 f xs1 [p] mine) as R1.
  { split; rewrite ?M2; [done|..].
    - intros Hc. destruct (R2 Hc) as (ec & Hec). exists ec. by apply Hs.
    - destruct R3. split; [done|]. by rewrite Hp2.
    - intros q eq Hq Hqp. apply Hs in Hq. pose proof Hqp as Hqp'. rewrite not_elem_of_cons in Hqp'. destruct Hqp' as [Hqp' _].
      apply (placed_same cfg drift k b f xs); [by rewrite M2|done|by apply Hp2|]. by apply R4.
    - intros q Hq [[H1 H2]|[H1|H1]]; [apply (R5 q Hq); left; by rewrite <- M2|apply (R5 q Hq); by right; left|].
      apply (R5 q Hq). right; right. apply Hp2; [by intros ->|done]. }
  destruct (lower_slab_ok s1 b1 f xs1 mine p e R1) as (s2 & b2 & f2 & xs2 & E2 & Rn & Un & M3 & F2).
  { intros eq Hq. rewrite M2 in Hq. apply U. by apply Hs. } { rewrite M1. apply (inv_nonzero cfg drift k _ _ _ HI). }
  { by apply Hs. } { split_and!; [by rewrite M2|done..]. } { done. }
  unfold arena_dalloc_bin_locked_handle_newly_nonempty. rewrite (bind_done _ _ _ _ _ E1). exists s2. split; [exact E2|]. split; [|by rewrite M3, M1]. exists b2, f2, xs2.
  split; [|by rewrite M3, M1]. apply (inv_but_step cfg drift k s _ held mine); [done|by eapply frame_trans|exact (conts_some _ _ _ _ _ _ _ C)
    |exact (conts_some _ _ _ _ _ _ _ (br_conts _ _ _ _ _ _ _ _ _ Rn))| |by left]. rewrite M3, M1. apply HI.
Qed.

(** What freeing the region at [ptr] makes of its slab. *)
Definition given_back (info : bin_info_t) (e : edata_t) (ptr : Z) (e' : edata_t) : Prop :=
  ∃ r, 0 ≤ r < nregs info ∧ ptr = region_at info e r ∧ ¬ region_free e r ∧
    same_slab e e' ∧ edata_nfree_get e' = edata_nfree_get e + 1 ∧ ∀ i, 0 ≤ i → region_free e' i ↔ region_free e i ∨ i = r.

Lemma dalloc_locked_step_ok s g held mine info magic :
  locked s (g :: held) mine → rg_key g = k → bin_infos cfg !! Z.to_nat k.1 = Some info → div_infos cfg !! Z.to_nat k.1 = Some magic →
  ∃ ret n s', dalloc_locked_step cfg k info (arena_dalloc_bin_locked_begin magic info) (rg_slab g) (rg_ptr g) s =
      Done ((ret, mkDallocInfo magic (nregs info) n), s') ∧ locked s' held (if ret : bool then rg_slab g :: mine else mine) ∧
    ∃ e e', slabs s !! rg_slab g = Some e ∧ slab_key e = k ∧ slabs s' = <[rg_slab g := e']> (slabs s) ∧ given_back info e (rg_ptr g) e' ∧
      ret = (edata_nfree_get e' =? nregs info).
Proof.
  intros (b & f & xs & HI & R & U & Hsp) Hgk Einfo Emagic. pose proof R as [C R2 R3 R4 R5]. pose proof (inv_infos cfg drift k Hinfos _ _ _ HI) as Hb.
  pose proof (inv_nonzero cfg drift k _ _ _ HI) as Hz. set (p := rg_slab g) in *.
  destruct (so_held _ _ _ _ (ib_slabs _ _ _ _ _ _ HI)) as [_ Hu]. apply list.Forall_cons in Hu as [(e & r & E & Ek & Hr & Hptr & Hused) _].
  fold p in E. rewrite Hgk in Ek. assert (slab_of s k p e) as He by done.
  assert (info_of_slab cfg e = info) as Ei by (rewrite (key_info cfg k s p e He); unfold info_at; by rewrite Einfo).
  assert (nregs_of cfg k = nregs info) as Enr by (unfold nregs_of, info_at; by rewrite Einfo).
  destruct (Hinfos _ _ Einfo) as (magic' & Em' & Hbo). assert (magic' = magic) as -> by congruence. rewrite Ei in *.
  destruct (so_slab _ _ _ _ (ib_slabs _ _ _ _ _ _ HI) _ _ E) as (Hp & _ & Hs). rewrite Ei in Hs.
  destruct (slab_gives info magic Hbo (config_stats cfg) (p =? slabcur b) e r Hs Hr Hused) as (e' & n & Es & S & I & Hn & Hlt & Hreg).
  destruct (same_slab_info cfg e e' S) as [Ei' Ek']. assert (slab_key e' = k) as Hk' by congruence.
  assert (p ∉ mine) as Hpm.
  { intros Hm. destruct (so_mine _ _ _ _ (ib_slabs _ _ _ _ _ _ HI)) as [_ Hx]. destruct (Hx p Hm) as (e0 & E0 & Hn0).
    assert (e0 = e) as -> by congruence. rewrite Ei in Hn0. lia. }
  pose proof (R4 p e He (not_elem_of_nil _)) as Hpl. set (s1 := put_slab p e' s).
  assert (slab_of s1 k p e') as He' by (by apply slab_of_put; [|left]).
  assert (inv_but k s1 held mine) as HI1.
  { apply (inv_but_step cfg drift k s _ (g :: held) mine); [done|by apply (slab_put_frame k s _ e)|exact (conts_some _ _ _ _ _ _ _ C)
      |exact (conts_some _ _ _ _ _ _ _ C)| |by left]. apply (slabs_ok_gives _ g held mine e e' r); try assumption; [apply HI|by rewrite Ei|by rewrite Ei]. }
  assert (bin_rep s1 k b f xs [p] mine) as R1 by (apply (bin_rep_put cfg drift k s b f xs mine p e); try done; by intros []%not_elem_of_cons).
  assert (given_back info e (region_at info e r) e') as Hgb by (exists r; exact (conj Hr (conj eq_refl (conj Hused (conj S (conj Hn Hreg)))))).
  unfold dalloc_locked_step. rewrite (bind_done _ _ _ _ _ (bin_get_ok k s b (ct_bin _ _ _ _ _ _ _ C))), (bind_done _ _ _ _ _ (arena_slab_get_ok s _ _ E Hp)).
  rewrite Hptr, (bind_done _ _ _ _ _ (liftO_done _ _ _ Es)). cbv beta iota. erewrite bind_done by reflexivity. fold s1.
  assert (p ≠ slabcur b → cur_used cfg s1 k b) as U1.
  { intros Hne eq Hq. apply slab_of_put in Hq as [[H _]|[_ Hq]]; [by symmetry in H|by apply U|done]. }
  assert (no_spares cfg (slabs s1) (p :: mine) ∧ (edata_nfree_get e' ≠ nregs info → no_spares cfg (slabs s1) mine)) as [Hsp1 Hsp2].
  { split; [|intros Hne; apply spares_put; [by eapply spares_weaken, Hsp; right|by rewrite Ei', Ei]].
    intros q eq Eq Hq. simpl in Eq. apply lookup_insert_Some in Eq as [[<- _]|[_ Eq]]; [by left|]. right. by apply (Hsp q eq). }
  destruct (Z.eqb_spec (edata_nfree_get e + 1) (nregs info)) as [Hfull|Hnf].
  - destruct (newly_empty_ok s1 held b f xs mine p e' HI1 R1 U1 He') as (s2 & E2 & L2 & M2); [lia| |done|done|].
    { by replace (nregs_of cfg k - 1) with (edata_nfree_get e) by lia. }
    rewrite (bind_done _ _ _ _ _ E2). exists true, n, s2. split; [done|]. split; [done|]. exists e, e'. rewrite M2.
    split; [exact E|]; split; [exact Ek|]; split; [reflexivity|]; split; [exact Hgb|]. symmetry. apply Z.eqb_eq. lia.
  - destruct ((edata_nfree_get e =? 0) && negb (p =? slabcur b)) eqn:Hc.
    + apply andb_true_iff in Hc as [H0 Hne%negb_true_iff]. apply Z.eqb_eq in H0. apply Z.eqb_neq in Hne.
      destruct (newly_nonempty_ok s1 held b f xs mine p e' HI1 R1 (U1 Hne) Hne He') as (s2 & E2 & L2 & M2); [lia|by rewrite <- H0|done|apply Hsp2; lia|].
      rewrite (bind_done _ _ _ _ _ E2). exists false, n, s2. split; [done|]. split; [done|]. exists e, e'. rewrite M2.
      do 4 (split; [done|]). symmetry. apply Z.eqb_neq. lia.
    + exists false, n, s1. split; [done|]. split; [|exists e, e'; do 4 (split; [done|]); symmetry; apply Z.eqb_neq; lia]. exists b, f, xs. split; [done|]. split; [|split; [|apply Hsp2; lia]].
      * apply (bin_rep_put cfg drift k s b f xs mine p e); try done. intros _. apply andb_false_iff in Hc. rewrite negb_false_iff, Z.eqb_eq, Z.eqb_neq in Hc.
        unfold placed in *. repeat case_decide; try lia; destruct Hpl as [?|[_ ?]]; try lia; destruct Hc; done.
      * destruct (decide (p = slabcur b)) as [Hpc|Hne]; [|by apply U1]. intros eq Hq. rewrite <- Hpc in Hq.
        apply slab_of_put in Hq as [[_ ->]|[? _]]; [lia|done|done].
Qed.
End free.
