(* ===== verification/ArenaBinRuns.v ===== *)
(** * Arena bins: locks, slabs from the page allocator, allocation and fills

    What holds between the critical sections, where other threads come in: locking a bin, asking for a slab and giving one back,
    allocation with the retry after the lock was dropped, deallocation, and the two nested loops of
    [arena_cache_bin_fill_small]: the one under the lock fills from the current slab, then from the other
    slabs, then from a new one; the outer one asks for a new slab when it has made progress since the last. *)
From stdpp Require Import base list gmap numbers.
From S2P Require Import Prelude BitUtil SizeClass Sz Fb FbFacts Edata EdataTheorems Bitmap Slab SlabTheorems Ph PhFacts PhOps PhHeap Ql ArenaBin ArenaBinInv ArenaBinOps ArenaBinSteps ArenaBinFree.

Section runs.
Context (cfg : arena_config) (drift : Z * Z → Z).
Implicit Types (s : arena_mem) (b : bin_t) (f : forest) (xs mine : list Z) (held : list region) (k : Z * Z).
Hypothesis Hinfos : infos_ok cfg.
Context `{HEnv : !Environment cfg drift}.

Abbreviation arena_inv := (arena_inv cfg drift).
Abbreviation thread_inv := (thread_inv cfg drift).
Abbreviation locked := (locked cfg drift).

(** ** Locks *)

Lemma arena_inv_event s held mine ev : arena_inv s held mine → arena_inv (add_event ev s) held mine.
Proof. by apply arena_inv_same. Qed.

Lemma locked_event k s held mine ev : locked k s held mine → locked k (add_event ev s) held mine.
Proof. intros L. destruct (locked_inv _ _ _ _ _ _ L) as [HI Hb]. by apply inv_locked; [apply arena_inv_event|]. Qed.

(** Between two locks what others hold is the same. *)
Lemma thread_of s s' held mine :
  onward s s' → arena_inv s' (held ++ theirs s) (mine ++ their_slabs s) → thread_inv s' held mine.
Proof. intros [[E1 E2] _]. unfold ArenaBinInv.thread_inv. by rewrite E1, E2. Qed.

Definition thread_locked k s held mine : Prop := locked k s (held ++ theirs s) (mine ++ their_slabs s).

Lemma thread_locked_of k s s' held mine :
  onward s s' → locked k s' (held ++ theirs s) (mine ++ their_slabs s) → thread_locked k s' held mine.
Proof. intros [[E1 E2] _]. unfold thread_locked. by rewrite E1, E2. Qed.

Lemma lock_ok k s held mine :
  thread_inv s held mine → is_Some (bins s !! k) →
  ∃ s', lock cfg k s = Done (tt, s') ∧ thread_locked k s' held mine ∧ slabs s' = slabs (others cfg s) ∧
    ∀ p, p ∈ mine → slabs s' !! p = slabs s !! p.
Proof.
  intros HI Hb. destruct (others_respect cfg drift s held mine HI) as (HI' & Hb' & Hs). eexists. split; [done|].
  split; [|by split]. apply locked_event, inv_locked; [done|by apply Hb'].
Qed.

Lemma unlock_ok k s held mine :
  locked k s held mine →
  ∃ s', unlock k s = Done (tt, s') ∧ arena_inv s' held mine ∧ is_Some (bins s' !! k) ∧ slabs s' = slabs s.
Proof. intros L. destruct (locked_inv _ _ _ _ _ _ L) as [HI Hb]. eexists. split; [done|]. by split; [apply arena_inv_event|]. Qed.

(** What a thread holds is a set. *)
Lemma arena_inv_perm s held held' mine : held ≡ₚ held' → arena_inv s held mine → arena_inv s held' mine.
Proof.
  intros P [[H1 H2 [H3 H3'] H4] H5 H6 H7 H8 H9]. split; [|done..]. split; [done..| |done]. by rewrite <- P.
Qed.

(** ** Giving a slab back *)

Lemma all_free info magic e r :
  bin_ok info magic → slab_inv info e → edata_nfree_get e = nregs info → 0 ≤ r < nregs info → region_free e r.
Proof.
  intros Hb He Hn Hr. unfold region_free. destruct (fbit (e_slab_data e) r) eqn:E; [done|]. exfalso.
  destruct (slab_gives info magic Hb false false e r He Hr) as (_ & _ & _ & _ & _ & _ & Hlt & _); [|lia].
  unfold region_free. by rewrite E.
Qed.

Lemma slab_dalloc_ok s held mine p :
  arena_inv s held (p :: mine) →
  ∃ s', arena_slab_dalloc p s = Done (tt, s') ∧ arena_inv s' held mine ∧ bins s' = bins s ∧ slabs s' = delete p (slabs s) ∧
    recorded (PaDalloc p) s s'.
Proof.
  intros HI. pose proof HI as [[H1 H2 [H3 H3'] [H4 H4']] H5 H6 H7 H8 H9]. destruct (H4' p ltac:(by left)) as (e & E & Hn).
  destruct (H1 p e E) as (Hp & _ & Hs). apply list.NoDup_cons in H4 as [Hpm Nm].
  unfold arena_slab_dalloc. rewrite (bind_done _ _ _ _ _ (arena_slab_get_ok s p e E Hp)). erewrite bind_done by reflexivity.
  set (s1 := set_slabs _ s). eexists. split; [reflexivity|]. split; [|split; [done|split; [done|by exists [PaDalloc p]; split; [|left]]]]. apply arena_inv_event. split; simpl.
  - split.
    + intros q eq. rewrite lookup_delete_Some. intros [_ Hq]. by apply H1.
    + intros q1 q2 e1 e2. rewrite !lookup_delete_Some. intros [_ Hq1] [_ Hq2]. by apply H2.
    + split; [done|]. eapply Forall_impl; [|exact H3']. intros g (eg & r & Eg & Hk & Hr & Hptr & Hu). exists eg, r. split; [|done].
      rewrite lookup_delete_ne; [done|]. intros Epg. rewrite <- Epg, E in Eg. injection Eg as <-. apply Hu.
      destruct (info_ok cfg Hinfos e) as (magic & Hb); [apply (proj1 (H6 _ (H5 p e E)))|]. by apply (all_free (info_of_slab cfg e) magic).
    + split; [done|]. intros q Hq. destruct (H4' q ltac:(by right)) as (eq & Eq & Hnq). exists eq. split; [|done].
      rewrite lookup_delete_ne; [done|]. by intros <-.
  - intros q eq. rewrite lookup_delete_Some. intros [_ Hq]. by apply (H5 q).
  - done.
  - intros k b Hb. destruct (H7 k b Hb) as (f & xs & R & U). pose proof R as [R1 R2 R3 R4 R5]. exists f, xs.
    assert (∀ q eq, slab_of s1 k q eq → slab_of s k q eq) as Hback by (intros q eq [Hq Hk]; simpl in Hq; apply lookup_delete_Some in Hq as [_ Hq]; done).
    split; [|intros eq Hq; by apply U, Hback]. apply (bin_rep_slabs cfg drift s _ k b f xs [] (p :: mine)); try done.
    + intros q eq Hq [Eq Hk]. exists eq. split; [|done]. simpl. rewrite lookup_delete_ne; [done|]. intros <-. apply (R5 p); [by left|done].
    + intros q eq Hq _. apply (R4 q eq); [by apply Hback|apply not_elem_of_nil].
    + intros q Hq. apply R5. by right.
  - done.
  - intros q eq Eq Hq. simpl in Eq. apply lookup_delete_Some in Eq as [Hne Eq]. pose proof (H9 q eq Eq Hq) as Hin.
    apply elem_of_cons in Hin as [->|?]; done.
Qed.

(** ** A new slab *)

Lemma slab_init_key info magic shard e e' :
  bin_ok info magic → is_u64 (e_bits e) → in_field EDATA_BITS_BINSHARD shard → slab_init info shard e = Done e' →
  slab_key e' = (edata_szind_get e, shard).
Proof.
  intros Hb He Hs E. pose proof (bo_nregs info magic Hb).
  assert (in_field EDATA_BITS_NFREE (nregs info)) as Hf by (unfold in_field; change (width EDATA_BITS_NFREE) with 10; lia).
  unfold slab_init in E. rewrite nfree_binshard_ok in E by done. apply outcome_bind_done_inv in E as (bm & _ & [= <-]).
  assert (is_u64 (e_bits (edata_binshard_set shard e))) as Hu by (by apply field_set_u64).
  unfold slab_key, edata_szind_get, edata_szind_get_maybe_invalid, edata_binshard_get. cbn [set_slab_data edata_nfree_set edata_binshard_set set_bits e_bits].
  f_equal.
  - f_equal. rewrite (get_set_other EDATA_BITS_SZIND EDATA_BITS_NFREE) by first [done|by vm_compute|by left; vm_compute|exact Hu].
    apply get_set_other; first [done|by vm_compute|by left; vm_compute].
  - rewrite (get_set_other EDATA_BITS_BINSHARD EDATA_BITS_NFREE) by first [done|by vm_compute|by right; vm_compute|exact Hu].
    rewrite get_set_same by first [done|by vm_compute]. unfold in_field in Hs. change (width EDATA_BITS_BINSHARD) with 6 in Hs.
    apply Z.mod_small. lia.
Qed.

Lemma new_slab_ok s held mine p e k :
  arena_inv s held mine → is_Some (bins s !! k) → p ≠ 0 → slabs s !! p = None → slab_key e = k → 0 < e_addr e →
  slab_inv (info_of_slab cfg e) e → edata_nfree_get e = nregs (info_of_slab cfg e) → (∀ q e', slabs s !! q = Some e' → apart cfg e e') →
  arena_inv (put_slab p e s) held (p :: mine).
Proof.
  intros [[H1 H2 [H3 H3'] [H4 H4']] H5 H6 H7 H8 H9] Hk Hp Hnone Hkey Ha Hs Hn Hap.
  assert (∀ q eq, slabs s !! q = Some eq → q ≠ p) as Hne by congruence.
  split; simpl.
  - split.
    + intros q eq Hq. apply lookup_insert_Some in Hq as [[<- <-]|[_ Hq]]; [done|by apply H1].
    + intros q1 q2 e1 e2 Hq1 Hq2 Hne'.
      apply lookup_insert_Some in Hq1 as [[<- <-]|[_ Hq1]], Hq2 as [[<- <-]|[_ Hq2]]; [done|by apply (Hap q2)| |by apply (H2 q1 q2)].
      destruct (Hap q1 e1 Hq1); [by right|by left].
    + split; [done|]. eapply Forall_impl; [|exact H3']. intros g (eg & r & Eg & Hg). exists eg, r.
      rewrite lookup_insert_ne; [done|]. intros E. by apply (Hne _ _ Eg).
    + split; [apply list.NoDup_cons; split; [|done]|].
      * intros Hpm. destruct (H4' p Hpm) as (eq & Eq & _). congruence.
      * intros q [->|Hq]%elem_of_cons; [exists e; by rewrite lookup_insert_eq|]. destruct (H4' q Hq) as (eq & Eq & Hnq). exists eq.
        split; [|done]. rewrite lookup_insert_ne; [done|]. intros E. by apply (Hne _ _ Eq).
  - intros q eq Hq. apply lookup_insert_Some in Hq as [[<- <-]|[_ Hq]]; [by rewrite Hkey|by apply (H5 q)].
  - done.
  - intros k' b Hb. destruct (H7 k' b Hb) as (f & xs & R & U). pose proof R as [R1 R2 R3 R4 R5]. exists f, xs.
    assert (∀ q, member b f xs q → q ≠ p) as Hmem.
    { intros q Hq. destruct (bin_member cfg drift s k' b f xs [] mine q R Hq) as (eq & Eq & _). by apply (Hne q eq). }
    assert (∀ q eq, slab_of (put_slab p e s) k' q eq → q = p ∧ eq = e ∧ k' = k ∨ q ≠ p ∧ slab_of s k' q eq) as Hback.
    { intros q eq [Hq Hk']. simpl in Hq. apply lookup_insert_Some in Hq as [[<- <-]|[? Hq]]; [left; by split_and!; [..|congruence]|by right]. }
    split.
    + apply (bin_rep_slabs cfg drift s _ k' b f xs [] mine); try done.
      * intros q eq Hq [Eq Hk']. exists eq. split; [|done]. simpl. rewrite lookup_insert_ne; [done|]. intros E. by apply (Hmem q).
      * intros q eq Hq _. destruct (Hback q eq Hq) as [(-> & -> & ->)|[_ Hq']]; [|by apply (R4 q eq Hq'), not_elem_of_nil].
        unfold placed. rewrite !decide_False; [left; unfold nregs_of; by rewrite Hn, <- Hkey|..]; intros Hx; apply (Hmem p); try done;
          [by right; right|by right; left|by left].
      * intros q [->|Hq]%elem_of_cons; [|by apply R5]. intros Hm. by apply (Hmem p).
    + intros eq Hq. destruct (Hback _ eq Hq) as [(E & -> & ->)|[_ Hq']]; [|by apply U]. exfalso. apply (Hmem p); [by left|done].
  - done.
  - intros q eq Eq Hq. apply lookup_insert_Some in Eq as [[<- _]|[_ Eq]]; [by left|]. right. by apply (H9 q eq).
Qed.

Lemma slab_alloc_ok s held mine k :
  arena_inv s held mine → is_Some (bins s !! k) →
  ∃ p s', arena_slab_alloc cfg k.1 k.2 (info_at cfg k.1) s = Done (p, s') ∧ bins s' = bins s ∧
    (if decide (p = 0) then arena_inv s' held mine ∧ refused k.1 s s'
     else arena_inv s' held (p :: mine) ∧ ∃ e, slab_of s' k p e).
Proof.
  intros HI Hb. pose proof HI as [H1 _ H6 _ _ _]. unfold arena_slab_alloc. erewrite bind_done by reflexivity.
  destruct (pa_alloc cfg s _ k.1) as [[p e]|] eqn:Ep.
  2:{ erewrite bind_done by reflexivity. exists 0, (add_event (PaAlloc k.1 0) s). split; [done|]. split; [done|]. rewrite decide_True by done. split; [by apply arena_inv_event|]. exists [PaAlloc k.1 0]. split; [done|by left]. }
  destruct (pages_fresh cfg drift s held mine k.1 p e H1 Ep) as (Hp & Hnone & Hk & Hu & Ha & Ha2 & Hd & Hl & Hap).
  erewrite bind_done by reflexivity. destruct (H6 k Hb) as [[info Ei] Hsh]. destruct (Hinfos _ _ Ei) as (magic & _ & Hbo).
  assert (info_at cfg k.1 = info) as Eat by (unfold info_at; by rewrite Ei). rewrite Eat in *.
  destruct (slab_init_ok info magic e k.2 Hbo Hu ltac:(lia) Ha2 Hd Hl Hsh) as (e' & Es & Hs & Hn & Haddr & _).
  pose proof (slab_init_key info magic k.2 e e' Hbo Hu Hsh Es) as Hkey. rewrite Hk, <- surjective_pairing in Hkey.
  assert (info_of_slab cfg e' = info) as Ei' by (change (info_at cfg (slab_key e').1 = info); by rewrite Hkey).
  rewrite (bind_done _ _ _ _ _ (liftO_done _ _ _ Es)). erewrite bind_done by reflexivity.
  exists p, (put_slab p e' (add_event (PaAlloc k.1 p) s)). split; [done|]. split; [done|]. rewrite decide_False by done. split.
  - apply (new_slab_ok _ held mine p e' k); try done; [by apply arena_inv_event|by rewrite Haddr|by rewrite Ei'|by rewrite Ei'|].
    intros q eq Hq. specialize (Hap q eq Hq). unfold apart in *. rewrite Haddr, Ei'. by unfold info_of_slab in Hap; rewrite Hk, Eat in Hap.
  - exists e'. split; [|done]. simpl. apply lookup_insert_eq.
Qed.
(** ** One region *)

(** No slab of the bin has a free region. *)
Definition exhausted k s held mine : Prop :=
  ∃ b xs, inv_but cfg drift k s held mine ∧ bin_rep cfg drift s k b Nil xs [] mine ∧ slabcur b = 0 ∧ no_spares cfg (slabs s) mine.

Lemma exhausted_locked k s held mine : exhausted k s held mine → locked k s held mine.
Proof.
  intros (b & xs & HI & R & Hc & Hsp). exists b, Nil, xs. split_and!; try done. intros e [He _]. rewrite Hc in He.
  by destruct (inv_nonzero cfg drift k s held mine HI 0 e He).
Qed.

Lemma malloc_no_fresh_locked k s held mine :
  locked k s held mine →
  ∃ ret s', arena_bin_malloc_no_fresh_slab cfg k s = Done (ret, s') ∧
    (if decide (ret = 0) then exhausted k s' held mine ∧ slabs s' = slabs s else ∃ p, locked k s' (mkRegion p k ret :: held) mine).
Proof.
  intros (b & f & xs & HI & R & U & Hsp). destruct (malloc_no_fresh_ok cfg drift k Hinfos s held mine b f xs HI R Hsp) as (ret & s' & b' & f' & xs' & E & R' & P).
  exists ret, s'. split; [exact E|]. case_decide.
  - destruct P as (Hc & -> & HI' & Hs). split; [|done]. exists b', xs'. by rewrite Hs.
  - destruct P as (U' & Hsp' & HI'). by exists (slabcur b'), b', f', xs'.
Qed.

Lemma malloc_with_fresh_locked k s held mine p e :
  exhausted k s held (p :: mine) → slab_of s k p e →
  ∃ ret s', arena_bin_malloc_with_fresh_slab cfg k p s = Done (ret, s') ∧ ret ≠ 0 ∧ locked k s' (mkRegion p k ret :: held) mine.
Proof.
  intros (b & xs & HI & R & Hc & Hsp) He. destruct (with_fresh_ok cfg drift k s held mine b xs p e HI R Hc He) as (s1 & b1 & E1 & Hb1 & Hp & HI1 & R1 & Hs).
  unfold arena_bin_malloc_with_fresh_slab. rewrite (bind_done _ _ _ _ _ E1). subst p.
  destruct (so_mine _ _ _ _ (ib_slabs _ _ _ _ _ _ HI)) as [_ Hm]. destruct (Hm (slabcur b1) ltac:(by left)) as (e2 & E2 & Hn). assert (e2 = e) as -> by (destruct He; congruence).
  destruct (inv_infos cfg drift k Hinfos s held _ HI (slabcur b1) e E2) as (magic & Hbo). pose proof (bo_nregs _ _ Hbo).
  assert (slab_of s1 k (slabcur b1) e) as He1 by (unfold slab_of; by rewrite Hs).
  destruct (slabcur_reg_alloc_ok cfg drift k Hinfos s1 held mine b1 Nil xs e HI1 R1 Hp He1 ltac:(lia)) as (ptr & s2 & E & Hptr & I2 & R2 & U2); [by rewrite Hs|].
  exists ptr, s2. split; [exact E|]. split; [done|]. by exists b1, Nil, xs.
Qed.

(** What comes with a fresh slab that may be null. *)
Definition own (p : Z) mine : list Z := if p =? 0 then mine else p :: mine.

Lemma malloc_small_retry_ok k s held mine p :
  locked k s held (own p mine) → (p ≠ 0 → ∃ e, slab_of s k p e) →
  ∃ ret p' s', malloc_small_retry cfg k p s = Done ((ret, p'), s') ∧
    (if decide (ret = 0) then p = 0 ∧ p' = 0 ∧ locked k s' held mine else ∃ q, locked k s' (mkRegion q k ret :: held) (own p' mine)).
Proof.
  intros L Hp. unfold malloc_small_retry. destruct (malloc_no_fresh_locked k s held _ L) as (ret & s1 & E1 & P1). rewrite (bind_done _ _ _ _ _ E1).
  case_decide as Hr; [|rewrite (proj2 (Z.eqb_neq ret 0)) by done; exists ret, p, s1; by rewrite decide_False].
  subst ret. rewrite Z.eqb_refl. destruct P1 as [X1 Hs]. unfold own in *. destruct (Z.eqb_spec p 0) as [Hp0|Hp0].
  - exists 0, 0, s1. split; [done|]. rewrite decide_True by done. split_and!; try done. by apply exhausted_locked.
  - destruct (Hp Hp0) as (e & He). assert (slab_of s1 k p e) as He1 by (unfold slab_of; by rewrite Hs).
    destruct (malloc_with_fresh_locked k s1 held mine p e X1 He1) as (ret & s2 & E2 & Hr & L2). rewrite (bind_done _ _ _ _ _ E2).
    exists ret, 0, s2. split; [done|]. rewrite decide_False by done. by exists p.
Qed.

Lemma own_app p mine l : own p (mine ++ l) = own p mine ++ l.
Proof. unfold own. by destruct (p =? 0). Qed.

(** The shard a thread uses. *)
Definition chooses (tsd : option (list Z)) (binind shard : Z) : Prop :=
  match tsd with None => shard = 0 | Some l => l !! Z.to_nat binind = Some shard end.

Lemma choose_ok tsd binind shard s : chooses tsd binind shard → arena_bin_choose tsd binind s = Done (shard, s).
Proof. destruct tsd as [l|]; simpl; [|by intros ->]. unfold liftO. by intros ->. Qed.

(** A new slab, if there is one, is this thread's. *)
Lemma thread_slab_alloc k s held mine :
  thread_inv s held mine → is_Some (bins s !! k) →
  ∃ p s', arena_slab_alloc cfg k.1 k.2 (info_at cfg k.1) s = Done (p, s') ∧ is_Some (bins s' !! k) ∧ longer s s' ∧
    thread_inv s' held (own p mine) ∧ (p ≠ 0 → ∃ e, slab_of s' k p e) ∧ (p = 0 → refused k.1 s s').
Proof.
  intros HI Hb. destruct (slab_alloc_ok s _ _ k HI Hb) as (p & s' & E & B & P). rewrite <- B in Hb.
  pose proof (slab_alloc_grows cfg k _ _ _ _ E) as On. exists p, s'. split; [exact E|]. split; [done|]. split; [apply On|].
  unfold own. case_decide as Hp.
  - subst p. destruct P as [I Hn]. rewrite Z.eqb_refl. split; [by apply (thread_of s)|by split].
  - destruct P as [I He]. rewrite (proj2 (Z.eqb_neq p 0)) by done. split; [by apply (thread_of s)|by split].
Qed.

(** After the lock was dropped for a new slab. *)
Lemma malloc_small_slow k s held mine :
  thread_locked k s held mine →
  ∃ ret p s', (unlock k;; p ← arena_slab_alloc cfg k.1 k.2 (info_at cfg k.1); lock cfg k;; malloc_small_retry cfg k p) s = Done ((ret, p), s') ∧
    (if decide (ret = 0) then p = 0 ∧ thread_locked k s' held mine ∧ refused k.1 s s'
     else ∃ q, thread_locked k s' (mkRegion q k ret :: held) (own p mine)).
Proof.
  intros L. destruct (unlock_ok k s _ _ L) as (s1 & E1 & I1 & B1 & _). rewrite (bind_done _ _ _ _ _ E1).
  pose proof (unlock_grows k _ _ _ E1) as On1. apply (thread_of _ _ _ _ On1) in I1.
  destruct (thread_slab_alloc k s1 held mine I1 B1) as (p & s2 & E2 & B2 & _ & I2 & He & Hnone). rewrite (bind_done _ _ _ _ _ E2).
  destruct (lock_ok k s2 held _ I2 B2) as (s3 & E3 & L3 & _ & M3). rewrite (bind_done _ _ _ _ _ E3).
  unfold thread_locked in L3. rewrite <- own_app in L3.
  destruct (malloc_small_retry_ok k s3 (held ++ theirs s3) (mine ++ their_slabs s3) p L3) as (ret & p' & s4 & E4 & P4).
  { intros Hp. destruct (He Hp) as (e & Hs & Hk). exists e. split; [|done]. rewrite M3; [done|]. unfold own. rewrite (proj2 (Z.eqb_neq p 0)) by done. by left. }
  pose proof (malloc_small_retry_grows cfg k _ _ _ _ E4) as On4. exists ret, p', s4. split; [exact E4|]. case_decide.
  - destruct P4 as (-> & -> & L4). split; [done|]. split; [by apply (thread_locked_of k s3)|].
    apply (refused_longer _ _ _ _ _ (proj2 On1) (Hnone eq_refl)). transitivity s3; [exact (lock_longer cfg drift k _ _ _ E3)|apply On4].
  - destruct P4 as (q & L4). exists q. rewrite own_app in L4. by apply (thread_locked_of k s3).
Qed.

(** Up to the region, or to its refusal. *)
Lemma malloc_small_region k s held mine :
  thread_locked k s held mine →
  ∃ ret p s', (ret ← arena_bin_malloc_no_fresh_slab cfg k;
      if ret =? 0 then unlock k;; p ← arena_slab_alloc cfg k.1 k.2 (info_at cfg k.1); lock cfg k;; malloc_small_retry cfg k p
      else mret (ret, 0)) s = Done ((ret, p), s') ∧
    (if decide (ret = 0) then p = 0 ∧ thread_locked k s' held mine ∧ refused k.1 s s'
     else ∃ q, thread_locked k s' (mkRegion q k ret :: held) (own p mine)).
Proof.
  intros L. destruct (malloc_no_fresh_locked k s _ _ L) as (r0 & s2 & E2 & P2). rewrite (bind_done _ _ _ _ _ E2).
  pose proof (malloc_no_fresh_grows cfg k _ _ _ E2) as On. case_decide as Hr.
  - subst r0. rewrite Z.eqb_refl. destruct (malloc_small_slow k s2 held mine) as (ret & p & s3 & E3 & P3).
    { apply (thread_locked_of k s); [done|]. apply exhausted_locked, P2. }
    exists ret, p, s3. split; [exact E3|]. case_decide; [|exact P3]. destruct P3 as (? & ? & Hn). split_and!; try done.
    by apply (refused_longer _ _ _ _ _ (proj2 On) Hn).
  - rewrite (proj2 (Z.eqb_neq r0 0)) by done. exists r0, 0, s2. rewrite decide_False by done. split; [done|].
    destruct P2 as (q & L2). exists q. by apply (thread_locked_of k s).
Qed.

(** A slab that is in hand, or none, goes back. *)
Lemma thread_give_back s held mine p :
  thread_inv s held (own p mine) →
  ∃ s', (if p =? 0 then mret tt else arena_slab_dalloc p) s = Done (tt, s') ∧ thread_inv s' held mine ∧ longer s s'.
Proof.
  unfold own. destruct (Z.eqb_spec p 0) as [->|Hp]; intros HI; [by exists s|].
  destruct (slab_dalloc_ok s _ (mine ++ their_slabs s) p HI) as (s' & E & I & _). pose proof (slab_dalloc_grows _ _ _ _ E) as On.
  exists s'. split; [exact E|]. split; [by apply (thread_of s)|apply On].
Qed.

Lemma thread_tally k u s held mine :
  (∀ t, nonfull_slabs (u t) = nonfull_slabs t) → thread_locked k s held mine →
  ∃ s', tally cfg k u s = Done (tt, s') ∧ thread_locked k s' held mine ∧ slabs s' = slabs s.
Proof.
  intros Hu L. destruct (tally_locked cfg drift k u s _ _ Hu L) as (s' & E & L' & Hs). exists s'. split; [exact E|]. split; [|done].
  apply (thread_locked_of k s); [exact (tally_grows cfg k u _ _ _ E)|done].
Qed.

Lemma thread_unlock k s held mine :
  thread_locked k s held mine →
  ∃ s', unlock k s = Done (tt, s') ∧ thread_inv s' held mine ∧ is_Some (bins s' !! k) ∧ slabs s' = slabs s.
Proof.
  intros L. destruct (unlock_ok k s _ _ L) as (s' & E & I & P). exists s'. split; [exact E|]. split; [|done].
  apply (thread_of s); [exact (unlock_grows k _ _ _ E)|done].
Qed.

Lemma arena_malloc_small_ok tsd k zero s held mine :
  thread_inv s held mine → is_Some (bins s !! k) → chooses tsd k.1 k.2 →
  ∃ ret s', arena_malloc_small cfg tsd k.1 zero s = Done (ret, s') ∧
    (if decide (ret = 0) then thread_inv s' held mine ∧ refused k.1 s s'
     else ∃ q, thread_inv s' (mkRegion q k ret :: held) mine).
Proof.
  intros HI Hb Hch. unfold arena_malloc_small. erewrite bind_done by (apply info_of_ok, (ai_infos _ _ _ _ _ HI k Hb)).
  rewrite (bind_done _ _ _ _ _ (choose_ok tsd k.1 k.2 s Hch)). cbv zeta. rewrite <- surjective_pairing.
  destruct (lock_ok k s held mine HI Hb) as (s1 & E1 & L1 & _). rewrite (bind_done _ _ _ _ _ E1).
  destruct (malloc_small_region k s1 held mine L1) as (ret & p & s3 & E3 & P3).
  apply bind_done_inv in E3 as (r0 & s2 & E2 & E3). rewrite (bind_done _ _ _ _ _ E2), (bind_done _ _ _ _ _ E3). cbv beta iota. case_decide as Hr.
  - destruct P3 as (-> & L3 & Hnone). subst ret. rewrite Z.eqb_refl. destruct (thread_unlock k s3 held mine L3) as (s4 & E4 & I4 & _).
    rewrite (bind_done _ _ _ _ _ E4). exists 0, s4. rewrite decide_True by done. split; [done|]. split; [done|].
    apply (refused_longer _ _ _ _ _ (lock_longer cfg drift k _ _ _ E1) Hnone), (unlock_grows k _ _ _ E4).
  - destruct P3 as (q & L3). rewrite (proj2 (Z.eqb_neq ret 0)) by done. set (u := λ t : bin_stats_t, _).
    destruct (thread_tally k u s3 _ _ ltac:(done) L3) as (s4 & E4 & L4 & _). rewrite (bind_done _ _ _ _ _ E4).
    destruct (thread_unlock k s4 _ _ L4) as (s5 & E5 & I5 & _). rewrite (bind_done _ _ _ _ _ E5).
    destruct (thread_give_back s5 _ mine p I5) as (s6 & E6 & I6 & _). rewrite (bind_done _ _ _ _ _ E6).
    assert (∃ s7, (if zero then event (Zeroed ret (sz_index2size_compute k.1)) else mret tt) s6 = Done (tt, s7) ∧
      thread_inv s7 (mkRegion q k ret :: held) mine) as (s7 & E7 & I7).
    { destruct zero; [|by exists s6]. eexists. split; [reflexivity|]. by apply arena_inv_event. }
    rewrite (bind_done _ _ _ _ _ E7). erewrite bind_done by reflexivity. exists ret, (add_event DecayTick s7). split; [done|].
    rewrite decide_False by done. exists q. by apply arena_inv_event.
Qed.

(** ** Freeing a region *)

(** The region at [g] is free again: its slab, as it was found under the lock, is back with the page allocator if that was
    its last region in use, and else it is there with one more free region.  No other slab is touched. *)
Definition freed g s1 s s' : Prop :=
  let info := info_at cfg (rg_key g).1 in
  ∃ e e', slabs s1 !! rg_slab g = Some e ∧ slab_key e = rg_key g ∧ given_back info e (rg_ptr g) e' ∧
    if decide (edata_nfree_get e' = nregs info)
    then slabs s' = delete (rg_slab g) (slabs s1) ∧ recorded (PaDalloc (rg_slab g)) s s'
    else slabs s' = <[rg_slab g := e']> (slabs s1).

Lemma arena_dalloc_bin_ok g s held mine :
  thread_inv s (g :: held) mine →
  ∃ s', arena_dalloc_bin cfg (rg_slab g) (rg_ptr g) s = Done (tt, s') ∧ thread_inv s' held mine ∧ freed g (others cfg s) s s'.
Proof.
  intros HI. pose proof HI as [[H1 _ [_ H3] _] H5 H6 _ _ _]. apply list.Forall_cons in H3 as [(e & r & E & Hk & _) _]. destruct (H1 _ _ E) as (Hp & _).
  pose proof (H5 _ _ E) as Hb. unfold arena_dalloc_bin. rewrite (bind_done _ _ _ _ _ (arena_slab_get_ok s _ e E Hp)). cbv zeta. fold (slab_key e).
  rewrite Hk in *. destruct (lock_ok (rg_key g) s _ mine HI Hb) as (s1 & E1 & L1 & M1 & _). rewrite (bind_done _ _ _ _ _ E1).
  destruct (proj1 (H6 _ Hb)) as [info Ei]. destruct (Hinfos _ _ Ei) as (magic & Em & _).
  assert (info_of cfg (rg_key g).1 s1 = Done (info, s1)) as E2 by (unfold info_of, liftO; by rewrite Ei).
  assert (div_of cfg (rg_key g).1 s1 = Done (magic, s1)) as E3 by (unfold div_of, liftO; by rewrite Em).
  rewrite (bind_done _ _ _ _ _ E2), (bind_done _ _ _ _ _ E3).
  destruct (dalloc_locked_step_ok cfg drift (rg_key g) Hinfos s1 g _ _ info magic L1 eq_refl Ei Em)
    as (ret & n & s2 & E4 & L2 & e1 & e2 & X1 & X2 & X3 & X4 & X5).
  pose proof (locked_step_grows cfg (rg_key g) info _ (rg_slab g) (rg_ptr g) _ _ _ E4) as On2.
  rewrite (bind_done _ _ _ _ _ E4). cbv beta iota. unfold arena_dalloc_bin_locked_finish. set (u := λ t : bin_stats_t, _).
  assert (thread_locked (rg_key g) s2 held (if ret then rg_slab g :: mine else mine)) as L2'.
  { apply (thread_locked_of _ s1); [done|]. by destruct ret. }
  destruct (thread_tally _ u s2 _ _ ltac:(done) L2') as (s3 & E5 & L3 & M3). rewrite (bind_done _ _ _ _ _ E5).
  destruct (thread_unlock _ s3 _ _ L3) as (s4 & E6 & I4 & _ & M4). rewrite (bind_done _ _ _ _ _ E6).
  assert (info_at cfg (rg_key g).1 = info) as Eat by (unfold info_at; by rewrite Ei).
  assert (longer s s4) as Hlong.
  { transitivity s1; [exact (lock_longer cfg drift _ _ _ _ E1)|]. transitivity s2; [apply On2|].
    transitivity s3; [apply (tally_grows cfg _ u _ _ _ E5)|apply (unlock_grows _ _ _ _ E6)]. }
  assert (slabs s4 = <[rg_slab g:=e2]> (slabs (others cfg s))) as M4' by (by rewrite M4, M3, X3, M1). rewrite M1 in X1.
  destruct ret.
  - destruct (slab_dalloc_ok s4 _ (mine ++ their_slabs s4) _ I4) as (s5 & E7 & I5 & _ & M5 & Hrec). exists s5. split; [exact E7|].
    split; [by apply (thread_of s4); [exact (slab_dalloc_grows _ _ _ _ E7)|]|]. exists e1, e2. rewrite Eat. split_and!; try done.
    rewrite decide_True by (symmetry in X5; by apply Z.eqb_eq in X5). split; [by rewrite M5, M4', delete_insert_eq|].
    apply (recorded_longer _ _ _ _ _ Hlong Hrec). reflexivity.
  - exists s4. split; [done|]. split; [done|]. exists e1, e2. rewrite Eat. split_and!; try done.
    by rewrite decide_False by (symmetry in X5; by apply Z.eqb_neq in X5).
Qed.

Lemma arena_dalloc_small_ok g s held mine :
  thread_inv s (g :: held) mine →
  ∃ s', arena_dalloc_small cfg (rg_ptr g) s = Done (tt, s') ∧ thread_inv s' held mine ∧ freed g (others cfg s) s s'.
Proof.
  intros HI. unfold arena_dalloc_small. erewrite bind_done by reflexivity. rewrite (emap_exact cfg drift s _ _ g HI) by by left.
  destruct (arena_dalloc_bin_ok g s held mine HI) as (s1 & E1 & I1 & e & e' & F1 & F2 & F3 & F4). rewrite (bind_done _ _ _ _ _ E1).
  eexists. split; [reflexivity|]. split; [by apply arena_inv_event|]. exists e, e'. split_and!; try done. case_decide; [|done].
  destruct F4 as [F4 F5]. split; [done|]. apply (recorded_longer _ _ _ _ _ (reflexivity s) F5). apply longer_event.
Qed.

End runs.

(** ** Arena bins: filling a cache bin *)

Section fill.
Context (cfg : arena_config) (drift : Z * Z → Z) (k : Z * Z).
Implicit Types (s : arena_mem) (b : bin_t) (f : fill_t) (xs mine : list Z) (held gs : list region).
Hypothesis Hinfos : infos_ok cfg.
Context `{HEnv : !Environment cfg drift}.

Abbreviation arena_inv := (arena_inv cfg drift).
Abbreviation thread_inv := (thread_inv cfg drift).
Abbreviation locked := (locked cfg drift k).

(** The regions of the cache bin so far. *)
Definition got f gs : Prop := rg_ptr <$> gs = filled f ∧ Forall (λ g, rg_key g = k) gs.

Lemma got_more f gs ptrs p f' :
  got f gs → filled f' = filled f ++ ptrs → got f' (gs ++ (mkRegion p k <$> ptrs)).
Proof.
  intros [E F] E'. split.
  - rewrite fmap_app, E, E', <- list_fmap_compose. f_equal. apply list_fmap_id.
  - apply Forall_app. split; [done|]. apply list.Forall_forall. intros g (x & -> & _)%list_elem_of_fmap. done.
Qed.

(** Under the lock, when the current slab may be a new one: it then has a free region. *)
Definition working s held mine : Prop :=
  ∃ b h xs, inv_but cfg drift k s held mine ∧ bin_rep cfg drift s k b h xs [] mine ∧ no_spares cfg (slabs s) (slabcur b :: mine).
Definition ready s : Prop := ∃ b e, bins s !! k = Some b ∧ slab_of s k (slabcur b) e ∧ slabcur b ≠ 0 ∧ 0 < edata_nfree_get e.

Lemma locked_working s held mine : locked s held mine → working s held mine.
Proof.
  intros (b & h & xs & HI & R & _ & Hsp). exists b, h, xs. split; [done|]. split; [done|]. eapply spares_weaken; [|exact Hsp]. by right.
Qed.

(** A free region in the current slab: as many as there are and are wanted. *)
Lemma fill_from_slabcur s held mine nfill f n :
  working s held mine → slabcur_nfree k s = Done (n, s) → 0 < n → Z.of_nat (length (filled f)) < nfill →
  ∃ ptrs p s', fill_step cfg k nfill f s = Done ((true, mkFill (filled f ++ ptrs) (fresh_slab f) true (alloc_and_retry f)), s') ∧
    ptrs ≠ [] ∧ Z.of_nat (length (filled f ++ ptrs)) ≤ nfill ∧ locked s' ((mkRegion p k <$> ptrs) ++ held) mine ∧
    (∀ q eq, q ∈ mine → slab_of s k q eq → slab_of s' k q eq).
Proof.
  intros (b & h & xs & HI & R & Hsp) En Hn Hlt. pose proof (br_conts _ _ _ _ _ _ _ _ _ R) as C.
  destruct (slabcur_nfree_ok cfg drift k Hinfos s held mine b h xs HI R) as (n' & En' & P). assert (n' = n) as -> by congruence.
  rewrite decide_False in P by lia. destruct P as (Hc & e & He & Ene & Hb). pose proof He as [He1 _].
  destruct (inv_infos cfg drift k Hinfos _ _ _ HI _ _ He1) as (magic & Hbo). rewrite (key_info cfg k s _ e He) in Hbo.
  destruct (so_slab _ _ _ _ (ib_slabs _ _ _ _ _ _ HI) _ _ He1) as (_ & _ & Hs). rewrite (key_info cfg k s _ e He) in Hs.
  unfold fill_step. rewrite (bind_done _ _ _ _ _ En), (proj2 (Z.ltb_lt 0 n)) by done.
  rewrite (bind_done _ _ _ _ _ (bin_get_ok k s b (ct_bin _ _ _ _ _ _ _ C))), (bind_done _ _ _ _ _ (arena_slab_get_ok s _ e He1 Hc)).
  erewrite bind_done by (apply info_of_ok; exact (proj1 (ib_infos _ _ _ _ _ _ HI k (conts_some _ _ _ _ _ _ _ C)))). cbv zeta.
  set (tofill := nfill - _). set (cnt := if tofill <? n then tofill else n).
  assert (0 < cnt ≤ edata_nfree_get e ∧ cnt ≤ tofill) as [Hcnt1 Hcnt2] by (unfold cnt, tofill; case_match; lia).
  destruct (slab_takes_batch _ magic Hbo e cnt Hs ltac:(lia)) as (ptrs & e' & Et & T & Hl).
  rewrite (bind_done _ _ _ _ _ (liftO_done _ _ _ Et)). cbv beta iota. erewrite bind_done by reflexivity.
  exists ptrs, (slabcur b), (put_slab (slabcur b) e' s). split; [done|]. split; [intros ->; simpl in Hl; lia|].
  split; [rewrite length_app; unfold tofill in *; lia|]. split.
  2:{ intros q eq Hq [Eq Hk]. split; [|done]. simpl. rewrite lookup_insert_ne; [done|]. intros <-. apply (br_mine _ _ _ _ _ _ _ _ _ R _ Hq). by left. }
  exists b, h, xs.
  apply (cur_takes cfg drift k Hinfos s held mine b h xs e ptrs e'); try done. intros ->. simpl in Hl. lia.
Qed.

(** A full current slab is no spare. *)
Lemma spares_full_cur s held mine b h xs :
  inv_but cfg drift k s held mine → bin_rep cfg drift s k b h xs [] mine → (∀ e, slab_of s k (slabcur b) e → edata_nfree_get e = 0) →
  no_spares cfg (slabs s) (slabcur b :: mine) → no_spares cfg (slabs s) mine.
Proof.
  intros HI R Hz Hsp p e E Hn. pose proof (Hsp p e E Hn) as Hin. apply elem_of_cons in Hin as [->|?]; [|done].
  destruct (br_cur _ _ _ _ _ _ _ _ _ R) as (e' & He); [by apply (inv_nonzero cfg drift k _ _ _ HI _ e)|].
  assert (e' = e) as -> by (destruct He; congruence). rewrite (Hz e He) in Hn.
  destruct (inv_infos cfg drift k Hinfos _ _ _ HI _ e E) as (magic & Hbo). pose proof (bo_nregs _ _ Hbo). lia.
Qed.

(** None in the current slab. *)
Lemma fill_without_slabcur s held mine nfill f :
  working s held (own (fresh_slab f) mine) → slabcur_nfree k s = Done (0, s) → (fresh_slab f ≠ 0 → ∃ e, slab_of s k (fresh_slab f) e) →
  ∃ c f' s', fill_step cfg k nfill f s = Done ((c, f'), s') ∧ filled f' = filled f ∧ made_progress f' = made_progress f ∧
    (if c : bool then working s' held (own (fresh_slab f') mine) ∧ ready s' ∧ alloc_and_retry f' = alloc_and_retry f ∧
        (fresh_slab f' = fresh_slab f ∧ slabs s' = slabs s ∨ fresh_slab f' = 0)
     else locked s' held mine ∧ fresh_slab f = 0 ∧ fresh_slab f' = 0 ∧ alloc_and_retry f' = made_progress f || alloc_and_retry f).
Proof.
  intros (b & h & xs & HI & R & Hsp) En Hfr. unfold fill_step. rewrite (bind_done _ _ _ _ _ En). change (0 <? 0) with false. cbv iota.
  destruct (slabcur_nfree_ok cfg drift k Hinfos s held _ b h xs HI R) as (n' & En' & P). assert (n' = 0) as -> by congruence. rewrite decide_True in P by done.
  destruct (refill_no_fresh_ok cfg drift k s b h xs _ R (inv_nonzero cfg drift k _ _ _ HI) P) as (s1 & b1 & h1 & xs1 & E1 & R1 & S1 & F1 & P1).
  rewrite (bind_done _ _ _ _ _ E1). pose proof (br_conts _ _ _ _ _ _ _ _ _ R) as C. pose proof (br_conts _ _ _ _ _ _ _ _ _ R1) as C1.
  assert (inv_but cfg drift k s1 held (own (fresh_slab f) mine)) as HI1.
  { apply (inv_but_step cfg drift k s s1 held (own (fresh_slab f) mine)); [done..|exact (conts_some _ _ _ _ _ _ _ C)|exact (conts_some _ _ _ _ _ _ _ C1)| |by left].
    rewrite S1. apply HI. }
  pose proof (spares_full_cur s held _ b h xs HI R P Hsp) as Hsp1. rewrite <- S1 in Hsp1.
  case_decide as Hh; [rewrite bool_decide_true by done|rewrite bool_decide_false by done]; cbn [negb].
  2:{ destruct P1 as [Hc Hn]. exists true, f, s1. split_and!; try done; [exists b1, h1, xs1; split_and!; try done; eapply spares_weaken; [|exact Hsp1]; by right| |by left].
      destruct (br_cur _ _ _ _ _ _ _ _ _ R1 Hc) as (e & He). exists b1, e. split_and!; [apply C1|done|done|apply (Hn e He)]. }
  destruct P1 as [Hc ->]. destruct (Z.eqb_spec (fresh_slab f) 0) as [H0|H0]; cbn [negb].
  - assert (own (fresh_slab f) mine = mine) as Eo by (unfold own; by rewrite H0). rewrite Eo in *.
    assert (locked s1 held mine) as L1 by (apply exhausted_locked; by exists b1, xs1).
    destruct (made_progress f) eqn:Hm; [by exists false, (mkFill (filled f) (fresh_slab f) true true), s1|].
    exists false, f, s1. by split_and!.
  - destruct (Hfr H0) as (e & He). assert (slab_of s1 k (fresh_slab f) e) as He1 by (unfold slab_of; by rewrite S1).
    unfold own in *. rewrite (proj2 (Z.eqb_neq (fresh_slab f) 0)) in * by done.
    destruct (with_fresh_ok cfg drift k s1 held mine b1 xs1 _ e HI1 R1 Hc He1) as (s2 & b2 & E2 & Hb2 & _ & HI2 & R2 & S2).
    rewrite (bind_done _ _ _ _ _ E2). eexists true, _, s2. split; [done|]. split; [done|]. split; [done|]. simpl. split; [exists b2, Nil, xs1; split; [done|]; split; [done|]; by rewrite Hb2, S2|].
    split; [|by split; [|right]]. exists b2, e. rewrite Hb2. split_and!; [apply R2|unfold slab_of; by rewrite S2|done|].
    destruct (so_mine _ _ _ _ (ib_slabs _ _ _ _ _ _ HI1)) as [_ Hm]. destruct (Hm (fresh_slab f) ltac:(by left)) as (e2 & E2' & Hn2).
    assert (e2 = e) as -> by (destruct He1; congruence). destruct (inv_infos cfg drift k Hinfos _ _ _ HI1 _ e E2') as (magic & Hbo).
    pose proof (bo_nregs _ _ Hbo). lia.
Qed.
(** ** The loop under the lock *)

Definition len f : Z := Z.of_nat (length (filled f)).

(** From [f] to [f']: nothing is lost, and the loop ends early only when the bin has no free region and
    no new slab is in hand. *)
Record filled_to (nfill : Z) held mine f f' s' : Prop := {
  ft_got : ∃ gs', locked s' (gs' ++ held) (own (fresh_slab f') mine) ∧ got f' gs';
  ft_len : len f ≤ len f' ≤ nfill;
  ft_end : len f' = nfill ∧ alloc_and_retry f' = alloc_and_retry f ∨
    len f' < nfill ∧ fresh_slab f' = 0 ∧ alloc_and_retry f' = made_progress f' || alloc_and_retry f;
  ft_progress : made_progress f' = bool_decide (len f < len f') || made_progress f;
  ft_fresh : len f' < nfill → len f < len f' ∨ fresh_slab f = 0
}.

Lemma locked_perm s held held' mine : held ≡ₚ held' → locked s held mine → locked s held' mine.
Proof. intros P L. destruct (locked_inv _ _ _ _ _ _ L) as [HI Hb]. apply inv_locked; [|done]. by apply (arena_inv_perm cfg drift _ held). Qed.

Lemma ready_nfree s held mine : working s held mine → ready s → ∃ n, slabcur_nfree k s = Done (n, s) ∧ 0 < n.
Proof.
  intros (b & h & xs & HI & R & _) (b' & e & Eb & He & Hc & Hn). destruct (slabcur_nfree_ok cfg drift k Hinfos s held mine b h xs HI R) as (n & E & P).
  exists n. split; [done|]. rewrite (ct_bin _ _ _ _ _ _ _ (br_conts _ _ _ _ _ _ _ _ _ R)) in Eb. injection Eb as <-.
  case_decide; [specialize (P e He); lia|]. destruct P as (_ & e' & _ & -> & ?). lia.
Qed.

(** A turn that fills. *)
Lemma fill_loop_fills fuel s held mine nfill f gs n :
  (∀ s f gs, locked s (gs ++ held) (own (fresh_slab f) mine) → got f gs → len f ≤ nfill → 2 * (nfill - len f) + 1 ≤ Z.of_nat fuel →
     (fresh_slab f ≠ 0 → ∃ e, slab_of s k (fresh_slab f) e) →
     ∃ f' s', fill_loop cfg fuel k nfill f s = Done (f', s') ∧ filled_to nfill held mine f f' s') →
  working s (gs ++ held) (own (fresh_slab f) mine) → got f gs → slabcur_nfree k s = Done (n, s) → 0 < n → len f < nfill →
  2 * (nfill - len f) ≤ Z.of_nat (S fuel) → (fresh_slab f ≠ 0 → ∃ e, slab_of s k (fresh_slab f) e) →
  ∃ f' s', fill_loop cfg (S fuel) k nfill f s = Done (f', s') ∧ filled_to nfill held mine f f' s' ∧ len f < len f'.
Proof.
  intros IH W G En Hn Hlt Hfuel Hfr.
  destruct (fill_from_slabcur s _ _ nfill f n W En Hn Hlt) as (ptrs & p & s1 & E1 & Hne & Hle & L1 & M1).
  set (f1 := mkFill (filled f ++ ptrs) (fresh_slab f) true (alloc_and_retry f)) in *.
  assert (len f < len f1 ≤ nfill) as [Hl1 Hl2].
  { split; [|exact Hle]. unfold len. simpl filled. rewrite length_app. destruct ptrs; [done|]. simpl length. lia. }
  destruct (IH s1 f1 (gs ++ (mkRegion p k <$> ptrs))) as (f' & s' & E' & [T1 T2 T3 T4 T5]).
  { eapply locked_perm; [|exact L1]. rewrite (assoc_L (++)). f_equiv. apply Permutation_app_comm. }
  { by eapply got_more. } { done. } { lia. }
  { intros H0. destruct (Hfr H0) as (e & He). exists e. apply M1; [|done]. unfold own. simpl in H0. rewrite (proj2 (Z.eqb_neq _ 0)) by done. by left. }
  exists f', s'. split.
  - cbn [fill_loop]. fold (len f). rewrite (proj2 (Z.ltb_lt (len f) nfill)) by done. cbn [negb].
    rewrite (bind_done _ _ _ _ _ E1). cbv beta iota. exact E'.
  - split; [|lia]. split; [done|lia|exact T3|rewrite T4, (bool_decide_true (len f < len f')) by lia; apply orb_true_r|left; lia].
Qed.

Lemma fill_loop_ok fuel : ∀ s held mine nfill f gs,
  locked s (gs ++ held) (own (fresh_slab f) mine) → got f gs → len f ≤ nfill → 2 * (nfill - len f) + 1 ≤ Z.of_nat fuel →
  (fresh_slab f ≠ 0 → ∃ e, slab_of s k (fresh_slab f) e) →
  ∃ f' s', fill_loop cfg fuel k nfill f s = Done (f', s') ∧ filled_to nfill held mine f f' s'.
Proof.
  induction (lt_wf fuel) as [fuel _ IH]. intros s held mine nfill f gs L G Hle Hfuel Hfr.
  destruct fuel as [|fuel]; [lia|]. destruct (Z.ltb_spec (len f) nfill) as [Hlt|Hge].
  2:{ exists f, s. split; [cbn [fill_loop]; fold (len f); by rewrite (proj2 (Z.ltb_ge (len f) nfill))|].
      split; [by exists gs|lia|left; split; [lia|done]|by rewrite bool_decide_false by lia|lia]. }
  pose proof (locked_working _ _ _ L) as W. destruct W as (b & h & xs & HI & R & Hsp).
  destruct (slabcur_nfree_ok cfg drift k Hinfos s _ _ b h xs HI R) as (n & En & Pn).
  assert (W : working s (gs ++ held) (own (fresh_slab f) mine)) by by exists b, h, xs.
  case_decide as H0.
  2:{ destruct Pn as (_ & e0 & _ & _ & Hpos & _). destruct (fill_loop_fills fuel s held mine nfill f gs n) as (f' & s' & E' & T & _); try done; [|lia|by exists f', s'].
      intros s1 f1 gs1 ? ? ? ? ?. by apply (IH fuel ltac:(lia) s1 held mine nfill f1 gs1). }
  subst n. destruct (fill_without_slabcur s _ mine nfill f W En Hfr) as (c & f1 & s1 & E1 & Ef & Em & P).
  assert (len f1 = len f) as Hl by (unfold len; by rewrite Ef).
  assert (G1 : got f1 gs) by (unfold got; by rewrite Ef).
  destruct c.
  - destruct P as (W1 & Rd & Er & Hfr1). destruct (ready_nfree s1 _ _ W1 Rd) as (n & En1 & Hn). destruct fuel as [|fuel]; [lia|].
    destruct (fill_loop_fills fuel s1 held mine nfill f1 gs n) as (f' & s' & E' & [T1 T2 T3 T4 T5] & Hl'); try done; [|lia|lia| |].
    + intros s2 f2 gs2 ? ? ? ? ?. by apply (IH fuel ltac:(lia) s2 held mine nfill f2 gs2).
    + intros Hx. destruct Hfr1 as [[Ex Es]|Ex]; [|done]. rewrite Ex in *. destruct (Hfr Hx) as (e & He). exists e. unfold slab_of. by rewrite Es.
    + exists f', s'. split.
      * remember (S fuel) as fuel'. cbn [fill_loop]. fold (len f). rewrite (proj2 (Z.ltb_lt (len f) nfill)) by done. cbn [negb].
        rewrite (bind_done _ _ _ _ _ E1). cbv beta iota. exact E'.
      * rewrite Hl, Em, Er in *. split; try done. left. lia.
  - destruct P as (L1 & Hf0 & Hf1 & Er). exists f1, s1. split.
    + cbn [fill_loop]. fold (len f). rewrite (proj2 (Z.ltb_lt (len f) nfill)) by done. cbn [negb]. by rewrite (bind_done _ _ _ _ _ E1).
    + split; [exists gs; by split; [rewrite Hf1|]|lia|right; split_and!; [lia|done|by rewrite Em]|rewrite bool_decide_false by lia; by rewrite Em|by right].
Qed.
(** ** Both loops *)

(** The state in which the lock is taken: a slab in hand is one that was asked for, and if none is there
    was none to be had since the state [s0]. *)
Record refilling s0 (nfill : Z) s held mine f : Prop := {
  rf_longer : longer s0 s;
  rf_got : ∃ gs, thread_inv s (gs ++ held) (own (fresh_slab f) mine) ∧ got f gs;
  rf_bin : is_Some (bins s !! k);
  rf_len : len f ≤ nfill;
  rf_retry : alloc_and_retry f = false;
  rf_fresh : fresh_slab f ≠ 0 → made_progress f = false ∧ ∃ e, slab_of s k (fresh_slab f) e;
  rf_none : made_progress f = false → fresh_slab f = 0 → refused k.1 s0 s
}.

(** A new slab, and back to the lock. *)
Lemma ask_and_retry s0 nfill s held mine f gs :
  longer s0 s → thread_inv s (gs ++ held) mine → is_Some (bins s !! k) → got f gs → len f ≤ nfill →
  ∃ p s', arena_slab_alloc cfg k.1 k.2 (info_at cfg k.1) s = Done (p, s') ∧ refilling s0 nfill s' held mine (mkFill (filled f) p false false).
Proof.
  intros H0 HI Hb G Hl. destruct (thread_slab_alloc cfg drift Hinfos k s _ mine HI Hb) as (p & s' & E & Hb' & Hl' & I' & He & Hn). exists p, s'. split; [exact E|].
  split; [by transitivity s|by exists gs|done|done|done|by split; [|apply He]|]. intros _ Hp.
  by apply (refused_longer _ _ _ _ _ H0 (Hn Hp)).
Qed.

(** The loop under the lock, for a thread. *)
Lemma thread_fill fuel s held mine nfill f gs :
  thread_locked cfg drift k s (gs ++ held) (own (fresh_slab f) mine) → got f gs → len f ≤ nfill → 2 * (nfill - len f) + 1 ≤ Z.of_nat fuel →
  (fresh_slab f ≠ 0 → ∃ e, slab_of s k (fresh_slab f) e) →
  ∃ f' s' gs', fill_loop cfg fuel k nfill f s = Done (f', s') ∧ longer s s' ∧
    thread_locked cfg drift k s' (gs' ++ held) (own (fresh_slab f') mine) ∧ got f' gs' ∧
    filled_to nfill (held ++ theirs s) (mine ++ their_slabs s) f f' s'.
Proof.
  unfold thread_locked. rewrite <- (assoc_L (++)), <- own_app. intros L G Hl Hf Hfr.
  destruct (fill_loop_ok fuel s _ _ nfill f gs L G Hl Hf Hfr) as (f' & s' & E & T). pose proof T as [(gs' & L' & G') _ _ _ _].
  pose proof (fill_loop_grows cfg _ k nfill f _ _ _ E) as On. exists f', s', gs'. split; [exact E|]. split; [apply On|]. split; [|done].
  rewrite (assoc_L (++)), own_app in L'. by apply (thread_locked_of cfg drift k s).
Qed.

Lemma label_refill_ok s0 fuel : ∀ s held mine nfill requests f,
  refilling s0 nfill s held mine f → nfill - len f + Z.b2z (made_progress f) < Z.of_nat fuel →
  ∃ f' s' gs', label_refill cfg fuel k (info_at cfg k.1) nfill requests f s = Done (f', s') ∧
    thread_inv s' (gs' ++ held) (own (fresh_slab f') mine) ∧ got f' gs' ∧ len f' ≤ nfill ∧ longer s0 s' ∧ (len f' < nfill → refused k.1 s0 s').
Proof.
  induction fuel as [|fuel IH]; intros s held mine nfill requests f [H0 (gs & HI & G) Hb Hl Hr Hfr Hnone] Hfuel; [destruct (made_progress f); simpl in Hfuel; lia|].
  cbn [label_refill]. destruct (lock_ok cfg drift k s _ _ HI Hb) as (s1 & E1 & L1 & _ & M1). rewrite (bind_done _ _ _ _ _ E1).
  destruct (thread_fill (2 * Z.to_nat nfill + 3) s1 held mine nfill f gs L1 G Hl) as (f1 & s2 & gs1 & E2 & Hl2 & L2 & G1 & [_ T2 T3 T4 T5]).
  { unfold len in *. lia. }
  { intros Hx. destruct (Hfr Hx) as (_ & e & He). exists e. unfold slab_of. rewrite M1; [done|]. unfold own. rewrite (proj2 (Z.eqb_neq _ 0)) by done. by left. }
  rewrite (bind_done _ _ _ _ _ E2). cbv zeta. set (u := λ t : bin_stats_t, _).
  assert (∃ s3, (if alloc_and_retry f1 then mret tt else tally cfg k u) s2 = Done (tt, s3) ∧
    thread_locked cfg drift k s3 (gs1 ++ held) (own (fresh_slab f1) mine)) as (s3 & E3 & L3).
  { destruct (alloc_and_retry f1); [by exists s2|].
    destruct (thread_tally cfg drift k u s2 _ _ ltac:(done) L2) as (s3 & E3 & L3 & _). by exists s3. }
  rewrite (bind_done _ _ _ _ _ E3). destruct (thread_unlock cfg drift k s3 _ _ L3) as (s4 & E4 & I4 & B4 & _). rewrite (bind_done _ _ _ _ _ E4).
  assert (longer s s4) as M4.
  { transitivity s1; [exact (lock_longer cfg drift k _ _ _ E1)|]. transitivity s2; [exact Hl2|].
    transitivity s3; [apply (tally_unless_grows cfg _ k u _ _ _ E3)|apply (unlock_grows k _ _ _ E4)]. }
  assert (longer s0 s4) as H4 by (by transitivity s).
  destruct (alloc_and_retry f1) eqn:Hretry.
  - rewrite Hr in T3. destruct T3 as [[_ ?]|(Hlt & Hf0 & Em)]; [done|]. rewrite orb_false_r in Em. symmetry in Em.
    assert (own (fresh_slab f1) mine = mine) as Eo by (unfold own; by rewrite Hf0). rewrite Eo in I4.
    destruct (ask_and_retry s0 nfill s4 held mine f1 gs1 H4 I4 B4 G1) as (p & s5 & E5 & R5); [lia|]. rewrite (bind_done _ _ _ _ _ E5).
    apply IH; [exact R5|]. change (len (mkFill (filled f1) p false false)) with (len f1). simpl Z.b2z. rewrite T4 in Em.
    destruct (decide (len f < len f1)); [destruct (made_progress f); simpl in Hfuel; lia|]. rewrite bool_decide_false in Em by done. simpl in Em. rewrite Em in Hfuel. simpl in Hfuel. lia.
  - exists f1, s4, gs1. split; [done|]. split; [done|]. split; [done|]. split; [lia|]. split; [exact H4|]. intros Hlt.
    destruct T3 as [[? _]|(_ & _ & Em)]; [lia|]. rewrite Hr, orb_false_r in Em. rewrite <- Em in T4. symmetry in T4. apply orb_false_iff in T4 as [T4 Hm].
    apply bool_decide_eq_false in T4. destruct (T5 Hlt) as [?|Hf0]; [done|]. by apply (refused_longer _ _ _ _ _ (reflexivity s0) (Hnone Hm Hf0)).
Qed.

Lemma arena_cache_bin_fill_small_ok tsd nfill requests s held mine :
  thread_inv s held mine → is_Some (bins s !! k) → chooses tsd k.1 k.2 → 0 ≤ nfill →
  ∃ gs s', arena_cache_bin_fill_small cfg tsd k.1 nfill requests s = Done (rg_ptr <$> gs, s') ∧
    thread_inv s' (gs ++ held) mine ∧ Forall (λ g, rg_key g = k) gs ∧
    Z.of_nat (length gs) ≤ nfill ∧ (Z.of_nat (length gs) < nfill → refused k.1 s s').
Proof.
  intros HI Hb Hch Hn. unfold arena_cache_bin_fill_small. erewrite bind_done by (apply info_of_ok, (ai_infos _ _ _ _ _ HI k Hb)).
  rewrite (bind_done _ _ _ _ _ (choose_ok tsd k.1 k.2 s Hch)). rewrite <- surjective_pairing.
  destruct (label_refill_ok s (Z.to_nat nfill + 2) s held mine nfill requests (mkFill [] 0 true false)) as (f & s1 & gs & E1 & I1 & [G1 G2] & Hl & Hl1 & Hnone).
  { split; try done. by exists []. } { unfold len. simpl. lia. }
  rewrite (bind_done _ _ _ _ _ E1). destruct (thread_give_back cfg drift Hinfos s1 _ mine _ I1) as (s2 & E2 & I2 & L2).
  rewrite (bind_done _ _ _ _ _ E2). erewrite bind_done by reflexivity. exists gs, (add_event DecayTick s2).
  unfold len in *. rewrite <- G1, length_fmap in Hl, Hnone. split; [by rewrite G1|]. split; [by apply arena_inv_event|]. split; [done|]. split; [done|]. intros Hlt.
  apply (refused_longer _ _ _ _ _ (reflexivity s) (Hnone Hlt)). transitivity s2; [exact L2|apply longer_event].
Qed.
End fill.
