(* ===== verification/ArenaBinReset.v ===== *)
(** * Arena bins: resetting and initialising

    [arena_bin_reset] returns and gives every slab of the bin back to the page allocator; no other
    thread is in the arena, as its caller guarantees.  The bins of a new arena satisfy the invariant. *)
From stdpp Require Import base list gmap numbers.
From S2P Require Import Prelude BitUtil SizeClass Fb Edata EdataTheorems Bitmap Slab SlabTheorems Ph PhFacts PhOps PhHeap Ql ArenaBin ArenaBinInv ArenaBinOps ArenaBinSteps ArenaBinFree ArenaBinRuns.

Section reset.
Context (cfg : arena_config) (k : Z * Z).
Implicit Types (s : arena_mem) (b : bin_t) (f : forest) (xs mine : list Z) (held : list region) (d : Z * Z → Z).
Hypothesis Halone : ∀ s, others cfg s = s.

(** [s'] has the slabs of [s] but those of [l], which were handed to the page allocator in between. *)
Definition without (l : list Z) s s' : Prop :=
  (∀ p, slabs s' !! p = if decide (p ∈ l) then None else slabs s !! p) ∧ longer s s' ∧ ∀ p, p ∈ l → recorded (PaDalloc p) s s'.

Lemma without_none s s' : slabs s' = slabs s → longer s s' → without [] s s'.
Proof. intros E H. split; [|split; [done|]]; intros p; [by rewrite E|intros Hp; by apply not_elem_of_nil in Hp]. Qed.

Lemma without_trans l l' s1 s2 s3 : without l s1 s2 → without l' s2 s3 → without (l ++ l') s1 s3.
Proof.
  intros (H1 & O1 & E1) (H2 & O2 & E2). split; [|split; [by transitivity s2|]].
  - intros p. rewrite H2, H1. clear. repeat case_decide; set_solver.
  - intros p [Hp|Hp]%elem_of_app; [apply (recorded_longer _ s1 s1 s2); auto|apply (recorded_longer _ s1 s2 s3); auto]; reflexivity.
Qed.

Lemma without_perm l l' s s' : l ≡ₚ l' → without l s s' → without l' s s'.
Proof.
  intros P (H & O & E). split; [|split; [done|]].
  - intros p. rewrite H. repeat case_decide; try done; exfalso; [by apply H1; rewrite <- P|by apply H0; rewrite P].
  - intros p Hp. apply E. by rewrite P.
Qed.

(** A slab that is in no container is given back between two critical sections. *)
Lemma give_back d s b f xs p e :
  conts cfg d s k b f xs → slab_of s k p e → p ≠ 0 → p ∉ nodes f → p ∉ xs →
  ∃ s', (unlock k;; arena_slab_dalloc p;; lock cfg k) s = Done (tt, s') ∧ conts cfg d s' k b f xs ∧ without [p] s s' ∧ frame k s s'.
Proof.
  intros C [E Hk] Hp Hf Hx. unfold unlock, lock, event. erewrite bind_done by reflexivity.
  unfold arena_slab_dalloc. erewrite bind_done.
  2:{ erewrite bind_done by (by apply arena_slab_get_ok). by erewrite bind_done by reflexivity. }
  erewrite bind_done by reflexivity. rewrite Halone. eexists. split; [reflexivity|].
  assert (∀ q eq, q ≠ p → slabs s !! q = Some eq → delete p (slabs s) !! q = Some eq) as Hd by (intros q eq Hq Hs; by rewrite lookup_delete_ne).
  split; [|split].
  - apply (conts_slabs cfg d s); try done. intros q eq Hq [Hs Hkq]. exists eq. split; [|done]. apply Hd; [|done]. intros ->. tauto.
  - assert (recorded (PaDalloc p) s (add_event (BinLock k) (add_event (PaDalloc p) (set_slabs (delete p (slabs s)) (add_event (BinUnlock k) s))))) as Hr.
    { exists [BinUnlock k; PaDalloc p; BinLock k]. split; [by cbn; rewrite <- !app_assoc|]. by right; left. }
    split; [|split; [destruct Hr as (l & El & _); by exists l|intros q ->%list_elem_of_singleton; exact Hr]].
    intros q. simpl. destruct (decide (q ∈ [p])) as [->%list_elem_of_singleton|Hq]; [apply lookup_delete_eq|].
    apply lookup_delete_ne. intros ->. apply Hq. by left.
  - split; [done| |done]. intros q eq k' Hne. unfold slab_of. simpl. split; intros [Hs Hkq]; split; try done.
    + by apply lookup_delete_Some in Hs as [_ ?].
    + apply Hd; [|done]. intros ->. congruence.
Qed.

Lemma reset_nonfull_ok fuel : ∀ d s b f xs,
  conts cfg d s k b f xs → (length (nodes f) < fuel)%nat →
  ∃ d' s' b', reset_nonfull cfg fuel k s = Done (tt, s') ∧ conts cfg d' s' k b' Nil xs ∧ without (nodes f) s s' ∧ frame k s s' ∧
    d' k = d k + Z.of_nat (length (nodes f)) ∧ slabcur b' = slabcur b.
Proof.
  induction fuel as [|fuel IH]; intros d s b f xs C Hfuel; [lia|]. cbn [reset_nonfull].
  destruct (remove_first_ok cfg d k s b f xs C) as (p & h & ph & f1 & E & W & O & P). rewrite (bind_done _ _ _ _ _ E).
  case_decide as Hf.
  - destruct P as [-> ->]. subst f. rewrite Z.eqb_refl. destruct (conts_empty cfg d k s b xs h ph C W O) as [C' (_ & _ & F)].
    eexists d, _, _. split; [reflexivity|]. split; [exact C'|]. split; [|split; [done|split; [cbn [nodes]; simpl; lia|done]]].
    by apply without_none, longer_same.
  - destruct P as [Hp P]. rewrite (proj2 (Z.eqb_neq p 0)) by done. set (b1 := set_nonfull ph b). set (s1 := put_bin k b1 _).
    destruct (conts_removed cfg d k (λ k', d k' + 1) s b f xs h ph f1 p b1 C P W O) as [C1 (M1 & _ & F1)]; try done.
    { intros Hs. simpl. rewrite (ct_count _ _ _ _ _ _ _ C Hs). rewrite <- P. unfold u64. f_equal. simpl length. lia. }
    destruct (ct_mem _ _ _ _ _ _ _ C p) as (e & He); [left; rewrite <- P; by left|].
    assert (p ∉ nodes f1 ∧ p ∉ xs) as [Hp1 Hp2].
    { split; [|apply (ct_disj _ _ _ _ _ _ _ C); rewrite <- P; by left]. pose proof (ct_heap _ _ _ _ _ _ _ C) as (_ & _ & N).
      rewrite <- P in N. by apply list.NoDup_cons in N as [? _]. }
    destruct (give_back (λ k', d k' + 1) s1 b1 f1 xs p e) as (s2 & E2 & C2 & W2 & F2); [exact C1|exact He|done..|].
    apply bind_done_inv in E2 as ([] & s2a & Ea & E2). apply bind_done_inv in E2 as ([] & s2b & Eb & E2).
    fold s1. rewrite (bind_done _ _ _ _ _ Ea), (bind_done _ _ _ _ _ Eb), (bind_done _ _ _ _ _ E2).
    assert (length (nodes f) = S (length (nodes f1))) as Hl by (by rewrite <- P).
    destruct (IH _ s2 b1 f1 xs C2 ltac:(lia)) as (d' & s3 & b3 & E3 & C3 & W3 & F3 & T3 & T3c).
    exists d', s3, b3. split; [exact E3|]. split; [done|]. split; [|split; [|split; [rewrite T3, Hl; lia|by rewrite T3c]]].
    + apply (without_perm (p :: nodes f1)); [done|]. apply (without_trans [] (p :: nodes f1) s s1); [by apply without_none, longer_same|].
      exact (without_trans _ _ _ _ _ W2 W3).
    + eapply frame_trans; [exact F1|]. by eapply frame_trans.
Qed.

Lemma reset_full_ok fuel : ∀ d s b f xs,
  conts cfg d s k b f xs → (length xs < fuel)%nat →
  ∃ s' b', reset_full cfg fuel k s = Done (tt, s') ∧ conts cfg d s' k b' f [] ∧ without xs s s' ∧ frame k s s' ∧ slabcur b' = slabcur b.
Proof.
  induction fuel as [|fuel IH]; intros d s b f xs C Hfuel; [lia|]. cbn [reset_full].
  rewrite (bind_done _ _ _ _ _ (bin_get_ok k s b (ct_bin _ _ _ _ _ _ _ C))). cbv zeta. unfold list_first.
  pose proof (ct_list _ _ _ _ _ _ _ C) as [R Eq]. destruct xs as [|p xs].
  - rewrite Eq. exists s, b. split; [done|]. split; [done|]. split; [|by split]. by apply without_none.
  - simpl in Eq. rewrite Eq. assert (Hp : p ≠ 0) by (apply (conts_not_zero _ _ _ _ _ _ _ _ C); right; by left).
    rewrite (proj2 (Z.eqb_neq p 0)) by done. destruct (full_remove_ok cfg d k s b f (p :: xs) p C) as (s1 & b1 & xs1 & E1 & C1 & (M1 & M1b & F1) & P1); [by left|].
    destruct (is_auto cfg) eqn:Ha; [by pose proof (ct_auto _ _ _ _ _ _ _ C Ha)|]. apply (inj (cons p)) in P1.
    destruct (ct_mem _ _ _ _ _ _ _ C p) as (e & He); [right; by left|]. pose proof R as (N & _). apply list.NoDup_cons in N as [Hpx _].
    destruct (give_back d s1 b1 f xs1 p e) as (s2 & E2 & C2 & W2 & F2); [done|unfold slab_of; by rewrite M1|done| |by rewrite P1|].
    { intros Hx. apply (ct_disj _ _ _ _ _ _ _ C p Hx). by left. }
    apply bind_done_inv in E2 as ([] & s2a & Ea & E2). apply bind_done_inv in E2 as ([] & s2b & Eb & E2).
    rewrite (bind_done _ _ _ _ _ E1), (bind_done _ _ _ _ _ Ea), (bind_done _ _ _ _ _ Eb), (bind_done _ _ _ _ _ E2).
    destruct (IH d s2 b1 f xs1 C2) as (s3 & b3 & E3 & C3 & W3 & F3 & T3b); [rewrite P1; simpl in Hfuel; lia|].
    exists s3, b3. split; [exact E3|]. split; [done|]. split; [|split].
    + apply (without_perm (p :: xs1)); [by rewrite P1|]. apply (without_trans [] (p :: xs1) s s1); [|exact (without_trans _ _ _ _ _ W2 W3)].
      apply without_none; [done|]. apply (full_remove_grows cfg k p s tt s1 E1).
    + eapply frame_trans; [exact F1|]. by eapply frame_trans.
    + by rewrite T3b.
Qed.
(** ** The whole of it *)

Lemma retire_slabcur d s b f xs :
  conts cfg d s k b f xs → (slabcur b ≠ 0 → ∃ e, slab_of s k (slabcur b) e) → slabcur b ∉ nodes f ∧ slabcur b ∉ xs →
  ∃ s' b', (if slabcur b =? 0 then mret tt else
              bin_mod k (set_slabcur 0);; unlock k;; arena_slab_dalloc (slabcur b);; lock cfg k) s = Done (tt, s') ∧
    conts cfg d s' k b' f xs ∧ without (if slabcur b =? 0 then [] else [slabcur b]) s s' ∧ frame k s s' ∧ slabcur b' = 0 ∧ stats b' = stats b.
Proof.
  intros C Hc [H1 H2]. destruct (Z.eqb_spec (slabcur b) 0) as [H0|Hne].
  - exists s, b. split_and!; try done. by apply without_none.
  - destruct (Hc Hne) as (e & He). set (b1 := set_slabcur 0 b). set (s1 := put_bin k b1 s).
    assert (conts cfg d s1 k b1 f xs) as C1 by (by apply (conts_put cfg d k s b)).
    destruct (give_back d s1 b1 f xs (slabcur b) e C1) as (s2 & E2 & C2 & W2 & F2); [exact He|done..|].
    rewrite (bind_done _ _ _ _ _ (bin_mod_ok k _ s b (ct_bin _ _ _ _ _ _ _ C))). fold b1 s1.
    exists s2, b1. split; [exact E2|]. split; [done|].
    split; [|split; [eapply frame_trans; [apply put_bin_frame|exact F2]|done]].
    apply (without_trans [] [slabcur b] s s1); [by apply without_none, longer_same|exact W2].
Qed.

Lemma closed_drift d d' s k' b mine : d' k' = d k' → bin_closed cfg d s k' b mine → bin_closed cfg d' s k' b mine.
Proof.
  intros Ed (f & xs & [[C1 C2 C3 C4 C5 C6 C7] R2 R3 R4 R5] & U). exists f, xs. split; [|done]. split; [|done..]. split; try done. by rewrite Ed.
Qed.

(** The slabs of the bin that stay are wholly free ones that some thread has in hand. *)
Definition emptied s s' : Prop :=
  ∀ p e, slabs s' !! p = Some e ↔ slabs s !! p = Some e ∧ (slab_key e = k → edata_nfree_get e = nregs_of cfg k).

Lemma emptied_slabs_ok s s' held mine :
  infos_ok cfg → (∀ p e, slabs s !! p = Some e → is_Some (bin_infos cfg !! Z.to_nat (slab_key e).1)) →
  emptied s s' → slabs_ok cfg (slabs s) held mine → slabs_ok cfg (slabs s') (filter (λ g, rg_key g ≠ k) held) mine.
Proof.
  intros Hinfos Hi He [H1 H2 [H3 H3'] [H4 H4']]. split.
  - intros p e [Hp _]%He. by apply H1.
  - intros p q e1 e2 [Hp _]%He [Hq _]%He. by apply H2.
  - split.
    + eapply sublist_NoDup; [exact H3|]. apply fmap_sublist, sublist_filter.
    + apply list.Forall_forall. intros g [Hk Hg]%list_elem_of_filter. rewrite list.Forall_forall in H3'.
      destruct (H3' g Hg) as (e & r & E & Ek & Hr). exists e, r. split; [|done]. apply He. split; [done|]. congruence.
  - split; [done|]. intros p Hp. destruct (H4' p Hp) as (e & E & Hn). exists e. split; [|done]. apply He. split; [done|].
    intros Hk. rewrite Hn. by rewrite (key_info cfg k s p e (conj E Hk)).
Qed.

Lemma emptied_inv drift d s s' held mine b' :
  infos_ok cfg → arena_inv cfg drift s held mine → frame k s s' → is_Some (bins s !! k) → emptied s s' →
  conts cfg d s' k b' Nil [] → slabcur b' = 0 → is_auto cfg = false →
  arena_inv cfg (λ k', if decide (k' = k) then d k else drift k') s' (filter (λ g, rg_key g ≠ k) held) mine.
Proof.
  intros Hinfos [H1 H2 H3 H4 H5 H6] F Hb He C Hc Ha. split.
  - apply (emptied_slabs_ok s); try done. intros p e E. by apply H3, (H2 p).
  - intros p e [E _]%He. destruct (decide (slab_key e = k)) as [->|Hne]; [exact (conts_some _ _ _ _ _ _ _ C)|].
    rewrite (fr_bins _ _ _ F) by done. by apply (H2 p).
  - intros k' Hk'. destruct (decide (k' = k)) as [->|Hne]; [by apply H3|]. apply H3. by rewrite <- (fr_bins _ _ _ F).
  - intros k' b Hb'. destruct (decide (k' = k)) as [->|Hne].
    + rewrite (ct_bin _ _ _ _ _ _ _ C) in Hb'. injection Hb' as <-. exists Nil, []. split; [|intros e [E _]; rewrite Hc in E; by apply He in E as [E _]; destruct (so_slab _ _ _ _ H1 0 e E)].
      split; [destruct C; split; try done; by rewrite decide_True|done|by split; apply not_elem_of_nil| |].
      * intros p e [E Hk] _. apply He in E as [E Hn]. destruct (so_slab _ _ _ _ H1 p e E) as (Hp & _). unfold placed. rewrite Hc, !decide_False by (done || apply not_elem_of_nil).
        left. by apply Hn.
      * intros p _ [[-> Hp]|[Hp|Hp]]; [by rewrite Hc in Hp|by apply not_elem_of_nil in Hp..].
    + rewrite (fr_bins _ _ _ F) in Hb' by done. apply (closed_drift drift); [by rewrite decide_False|].
      apply (closed_frame cfg drift k k' s s' b mine); [by apply H4|done|done|by left].
  - intros k' Hk'. destruct (decide (k' = k)) as [->|Hne]; [exact (conts_some _ _ _ _ _ _ _ C)|].
    rewrite (fr_bins _ _ _ F) by done. by apply H5.
  - intros p e [E _]%He Hn. by apply (H6 p e).
Qed.

Lemma members_size s l : NoDup l → (∀ p, p ∈ l → ∃ e, slab_of s k p e) → (length l < size (slabs s) + 1)%nat.
Proof.
  intros N Hl. assert (list_to_set l ⊆@{gset Z} dom (slabs s)) as Hs.
  { intros p Hp%elem_of_list_to_set. destruct (Hl p Hp) as (e & E & _). by apply elem_of_dom. }
  apply subseteq_size in Hs. rewrite size_list_to_set, size_dom in Hs by done. lia.
Qed.
(** The slabs of a bin are the ones that are not wholly free. *)
Lemma members_emptied drift s b f xs held mine s' :
  infos_ok cfg → inv_but cfg drift k s held mine → bin_rep cfg drift s k b f xs [] mine → cur_used cfg s k b → is_auto cfg = false →
  without (((if slabcur b =? 0 then [] else [slabcur b]) ++ nodes f) ++ xs) s s' → emptied s s'.
Proof.
  intros Hinfos HI R U Ha [W _] p e. rewrite W. pose proof (inv_nonzero cfg drift k _ _ _ HI) as Hz.
  assert (p ∈ ((if slabcur b =? 0 then [] else [slabcur b]) ++ nodes f) ++ xs ↔ member b f xs p) as Hmem.
  { unfold member. rewrite !elem_of_app. destruct (Z.eqb_spec (slabcur b) 0); [rewrite elem_of_nil; naive_solver|rewrite list_elem_of_singleton; naive_solver]. }
  split.
  - case_decide as Hp; [done|]. intros E. split; [done|]. intros Hk. rewrite Hmem in Hp. pose proof (br_place _ _ _ _ _ _ _ _ _ R p e (conj E Hk) (not_elem_of_nil _)) as Hpl.
    unfold placed in Hpl. rewrite !decide_False in Hpl; [destruct Hpl as [?|[? _]]; [done|congruence]|..]; intros Hx; apply Hp;
      [by right; right|by right; left|left; split; [done|by apply (Hz p e)]].
  - intros [E Hn]. case_decide as Hp; [exfalso|done]. apply Hmem in Hp. destruct (bin_member cfg drift s k b f xs [] mine p R Hp) as (e' & E' & Hk).
    assert (e' = e) as -> by congruence. specialize (Hn Hk). pose proof (br_place _ _ _ _ _ _ _ _ _ R p e (conj E Hk) (not_elem_of_nil _)) as Hpl.
    destruct (inv_infos cfg drift k Hinfos _ _ _ HI p e E) as (magic & Hbo). rewrite (key_info cfg k s p e (conj E Hk)) in Hbo. pose proof (bo_nregs _ _ Hbo) as Hpos. fold (nregs_of cfg k) in Hpos.
    unfold placed in Hpl. case_decide as Hc; [subst p; specialize (U e (conj E Hk)); lia|]. case_decide; [lia|]. case_decide as Hx; [lia|].
    destruct Hp as [[? _]|[?|?]]; done.
Qed.

Lemma arena_bin_reset_ok drift s held mine b :
  infos_ok cfg → arena_inv cfg drift s held mine → bins s !! k = Some b → is_auto cfg = false →
  ∃ s' b' drift', arena_bin_reset cfg k s = Done (tt, s') ∧ bins s' !! k = Some b' ∧
    slabcur b' = 0 ∧ root (slabs_nonfull b') = 0 ∧ slabs_full b' = 0 ∧ emptied s s' ∧
    (config_stats cfg = true → curregs (stats b') = 0 ∧ curslabs (stats b') = 0 ∧ nonfull_slabs (stats b') = nonfull_slabs (stats b)) ∧
    (∀ k', k' ≠ k → drift' k' = drift k') ∧ (∀ k', k' ≠ k → bins s' !! k' = bins s !! k') ∧
    (∀ p, is_Some (slabs s !! p) → slabs s' !! p = None → recorded (PaDalloc p) s s') ∧
    arena_inv cfg drift' s' (filter (λ g, rg_key g ≠ k) held) mine.
Proof.
  intros Hinfos HI Eb Ha. destruct (open_bin cfg drift s held mine k HI (mk_is_Some _ _ Eb)) as (b0 & f & xs & HB & R & U & _).
  pose proof R as [C R2 R3 _ _]. assert (b0 = b) as -> by (pose proof (ct_bin _ _ _ _ _ _ _ C); congruence).
  set (s1 := add_event (BinLock k) s).
  assert (lock cfg k s = Done (tt, s1)) as E1 by (unfold lock; erewrite bind_done by reflexivity; by rewrite Halone).
  assert (conts cfg drift s1 k b f xs) as C1 by (apply (conts_slabs cfg drift s); try done; intros q e _ He; by exists e).
  unfold arena_bin_reset. rewrite (bind_done _ _ _ _ _ E1). erewrite bind_done by reflexivity. rewrite (bind_done _ _ _ _ _ (bin_get_ok k s1 b Eb)).
  destruct (retire_slabcur drift s1 b f xs C1 R2 R3) as (s2 & b2 & E2 & C2 & W2 & F2 & Hc2 & T2). rewrite (bind_done _ _ _ _ _ E2).
  pose proof (ct_heap _ _ _ _ _ _ _ C) as (_ & _ & Nf). pose proof (ct_list _ _ _ _ _ _ _ C) as ((Nx & _) & _).
  destruct (reset_nonfull_ok (size (slabs s1) + 1) drift s2 b2 f xs C2) as (d3 & s3 & b3 & E3 & C3 & W3 & F3 & D3 & Hc3).
  { apply (members_size s); [done|]. intros p Hp. apply (ct_mem _ _ _ _ _ _ _ C). by left. }
  rewrite (bind_done _ _ _ _ _ E3). destruct (reset_full_ok (size (slabs s1) + 1) d3 s3 b3 Nil xs C3) as (s4 & b4 & E4 & C4 & W4 & F4 & Hc4).
  { apply (members_size s); [done|]. intros p Hp. apply (ct_mem _ _ _ _ _ _ _ C). by right. }
  rewrite (bind_done _ _ _ _ _ E4). set (u := λ t : bin_stats_t, _). rewrite (bind_done _ _ _ _ _ (tally_ok cfg k u s4 b4 (ct_bin _ _ _ _ _ _ _ C4))).
  set (b5 := tallied cfg u b4). set (s5 := add_event (BinUnlock k) (put_bin k b5 s4)).
  assert (conts cfg d3 s5 k b5 Nil []) as C5.
  { apply (conts_slabs cfg d3 (put_bin k b5 s4)); try done; [|intros q e _ He; by exists e].
    apply (conts_put cfg d3 k s4 b4); [done|..]; unfold b5, tallied; destruct (config_stats cfg); done. }
  assert (slabcur b5 = 0) as Hc5 by (unfold b5; rewrite slabcur_tallied; congruence).
  assert (without (((if slabcur b =? 0 then [] else [slabcur b]) ++ nodes f) ++ xs) s s5) as W5.
  { apply (without_trans [] _ s s1); [by apply without_none, longer_event|]. apply (without_perm ((((if slabcur b =? 0 then [] else [slabcur b]) ++ nodes f) ++ xs) ++ [])); [by rewrite app_nil_r|].
    eapply without_trans; [exact (without_trans _ _ _ _ _ (without_trans _ _ _ _ _ W2 W3) W4)|]. apply without_none; [done|].
    transitivity (put_bin k b5 s4); [by apply longer_same|apply longer_event]. }
  assert (emptied s s5) as He.
  { by apply (members_emptied drift s b f xs held mine). }
  assert (frame k s s5) as F5.
  { apply (frame_trans k s s1); [by split|]. eapply frame_trans; [exact F2|]. eapply frame_trans; [exact F3|]. eapply frame_trans; [exact F4|].
    eapply frame_trans; [apply put_bin_frame|by split]. }
  exists s5, b5, (λ k', if decide (k' = k) then d3 k else drift k'). split; [reflexivity|]. split; [apply C5|]. split; [done|].
  split; [apply (ct_heap _ _ _ _ _ _ _ C5)|]. split; [apply (ct_list _ _ _ _ _ _ _ C5)|]. split; [done|]. split; [|split].
  - intros Hs. split_and!; [by unfold b5, tallied; rewrite Hs..|]. rewrite (ct_count _ _ _ _ _ _ _ C5 Hs), (ct_count _ _ _ _ _ _ _ C Hs), D3.
    f_equal. cbn [nodes]. simpl length. lia.
  - intros k' Hk. by rewrite decide_False.
  - split; [exact (fr_bins _ _ _ F5)|]. split.
    { destruct W5 as (W & _ & Hr). intros p [e Ep] Hp. apply Hr. specialize (W p). rewrite Hp in W. case_decide; [done|congruence]. }
    apply (emptied_inv drift d3 s s5 held mine b5); try done.
Qed.

(** ** A new arena *)

(** The bins of an arena, as [arena_new] makes them. *)
Lemma arena_starts d s :
  (∀ k, d k = 0) → slabs s = ∅ → (∀ k', k' ∈ bin_keys (bin_infos cfg) → is_Some (bins s !! k')) →
  (∀ k' b, bins s !! k' = Some b → is_Some (bin_infos cfg !! Z.to_nat k'.1) ∧ in_field EDATA_BITS_BINSHARD k'.2 ∧ ∃ b0, b = bin_init (config_stats cfg) b0) →
  arena_inv cfg d s [] [].
Proof.
  intros Hd Hs Hdom Hb. split; [..|done|by intros p e; rewrite Hs, lookup_empty].
  - rewrite Hs. split; [intros p e; by rewrite lookup_empty|intros p q e1 e2; by rewrite lookup_empty|by split; constructor|].
    split; [constructor|]. intros p Hp. by apply not_elem_of_nil in Hp.
  - intros p e. by rewrite Hs, lookup_empty.
  - intros k' [b E]. destruct (Hb k' b E) as (? & ? & _). done.
  - intros k' b E. destruct (Hb k' b E) as (_ & _ & b0 & ->). exists Nil, [].
    assert (∀ p e, ¬ slab_of s k' p e) as Hno by (intros p e [E' _]; by rewrite Hs, lookup_empty in E').
    split; [split; [split| | | |]|]; try done.
    + split_and!; [done|by exists 0|constructor].
    + split; [|done]. split_and!; [constructor|apply not_elem_of_nil|constructor].
    + intros p Hp. by apply not_elem_of_nil in Hp.
    + intros p [Hp|Hp]; by apply not_elem_of_nil in Hp.
    + intros Hs'. unfold bin_init. rewrite Hs', Hd. done.
    + split; apply not_elem_of_nil.
    + intros p e He. by destruct (Hno p e).
    + intros p Hp. by apply not_elem_of_nil in Hp.
    + intros e He. by destruct (Hno _ _ He).
Qed.
End reset.
