(* ===== verification/ArenaBinTheorems.v ===== *)
(** * Arena bins: what they promise

    Regions that are handed out lie in slabs of the bin, are in use, and never overlap; a
    region is refused only when the page allocator has no pages; freeing takes a region back and a
    slab that becomes empty leaves the bin; resetting a bin empties it. *)
From stdpp Require Import base list gmap numbers.
From S2P Require Import Prelude BitUtil SizeClass Fb FbFacts Edata EdataTheorems Bitmap Slab SlabTheorems Ph PhFacts PhHeap Ql ArenaBin ArenaBinInv ArenaBinOps ArenaBinSteps ArenaBinFree ArenaBinRuns ArenaBinReset.

(** ** One operation *)

(** C24: allocating a small region, in an arena with the tables of boot ([infos_ok]) and a thread that holds the regions [held] and has the slabs [mine] in hand, returns, whatever
    other threads do to the arena while no lock is held: they may free the regions that they hold, be given new ones, and take
    slabs in hand and give them back, as long as the arena is then in order and they leave alone what this thread
    has.  It returns a region of the size class, in
    use and different from every region that any thread holds, or null, and then this call asked the page allocator for a slab and was
    refused.  A slab that was asked for and turned out not to be needed is not kept: the
    invariant says that every slab but those in [mine], and those that others have in hand, has a region in use. *)
Theorem arena_malloc_small_fresh cfg drift tsd k zero s held mine :
  infos_ok cfg → Environment cfg drift → thread_inv cfg drift s held mine → is_Some (bins s !! k) → chooses tsd k.1 k.2 →
  ∃ ret s', arena_malloc_small cfg tsd k.1 zero s = Done (ret, s') ∧
    ((ret = 0 ∧ thread_inv cfg drift s' held mine ∧ refused k.1 s s') ∨
     (∃ g, rg_ptr g = ret ∧ ret ≠ 0 ∧ rg_key g = k ∧ ret ∉ rg_ptr <$> held ++ theirs s' ∧ thread_inv cfg drift s' (g :: held) mine)).
Proof.
  intros Hi He HI Hb Hc. destruct (arena_malloc_small_ok cfg drift Hi tsd k zero s held mine HI Hb Hc) as (ret & s' & E & P).
  exists ret, s'. split; [exact E|]. case_decide as Hr; [left; by destruct P|]. right. destruct P as (q & I). exists (mkRegion q k ret).
  split_and!; try done. destruct (so_held _ _ _ _ (ai_slabs _ _ _ _ _ I)) as [N _]. cbn [app] in N. rewrite fmap_cons in N. by apply list.NoDup_cons in N as [? _].
Qed.

(** C26: filling a cache bin comes to an end.  It gives at most [nfill] regions of the size class,
    all different and different from every region held, by this thread or by others, and fewer only if the page allocator refused this call a
    slab; no slab is left over, in the sense of the invariant. *)
Theorem arena_fill_exact cfg drift tsd k nfill requests s held mine :
  infos_ok cfg → Environment cfg drift → thread_inv cfg drift s held mine → is_Some (bins s !! k) → chooses tsd k.1 k.2 → 0 ≤ nfill →
  ∃ gs s', arena_cache_bin_fill_small cfg tsd k.1 nfill requests s = Done (rg_ptr <$> gs, s') ∧
    thread_inv cfg drift s' (gs ++ held) mine ∧ Forall (λ g, rg_key g = k) gs ∧ NoDup (rg_ptr <$> (gs ++ held) ++ theirs s') ∧
    Z.of_nat (length gs) ≤ nfill ∧ (Z.of_nat (length gs) < nfill → refused k.1 s s').
Proof.
  intros Hi He HI Hb Hc Hn. destruct (arena_cache_bin_fill_small_ok cfg drift k Hi tsd nfill requests s held mine HI Hb Hc Hn)
    as (gs & s' & E & I & F & L & P). exists gs, s'. split_and!; try done. apply (so_held _ _ _ _ (ai_slabs _ _ _ _ _ I)).
Qed.

(** C25: freeing a region that is held, in an arena with the tables of boot ([infos_ok]), returns, with other threads in between that do as [Environment] says, and leaves an arena in which everything else
    is as it should be.  The slab of the region is the one that is found under the lock ([others cfg s] is the state when
    the lock is taken), where the region is in use.  If it was the last one in use there, the slab is gone from the arena and
    was handed to the page allocator by this call; else the slab is still there and its free regions are those it
    had and this one, so that it may be handed out again.  No other slab is touched. *)
Theorem arena_dalloc_returns cfg drift g s held mine :
  infos_ok cfg → Environment cfg drift → thread_inv cfg drift s (g :: held) mine →
  ∃ s' e e' r, arena_dalloc_small cfg (rg_ptr g) s = Done (tt, s') ∧ thread_inv cfg drift s' held mine ∧
    let info := info_at cfg (rg_key g).1 in
    slabs (others cfg s) !! rg_slab g = Some e ∧ slab_key e = rg_key g ∧
    0 ≤ r < nregs info ∧ rg_ptr g = region_at info e r ∧ ¬ region_free e r ∧
    (edata_nfree_get e + 1 = nregs info →
       slabs s' = delete (rg_slab g) (slabs (others cfg s)) ∧ recorded (PaDalloc (rg_slab g)) s s') ∧
    (edata_nfree_get e + 1 ≠ nregs info →
       slabs s' = <[rg_slab g := e']> (slabs (others cfg s)) ∧ same_slab e e' ∧ edata_nfree_get e' = edata_nfree_get e + 1 ∧
       ∀ i, 0 ≤ i → region_free e' i ↔ region_free e i ∨ i = r).
Proof.
  intros Hi He HI. destruct (arena_dalloc_small_ok cfg drift Hi g s held mine HI) as (s' & E & I & e & e' & F1 & F2 & (r & G1 & G2 & G3 & G4 & G5 & G6) & F4).
  exists s', e, e', r. split; [exact E|]. split; [exact I|]. cbv zeta. do 5 (split; [done|]). rewrite G5 in F4.
  split; intros Hn; [by rewrite decide_True in F4|]. rewrite decide_False in F4 by done. done.
Qed.

(** C27: resetting a bin of an arena with the tables of boot that is not automatic, with no other thread in the arena, returns.  The bin has no slabs any more:
    all that had a region in use are gone, and this call handed them to the page allocator; the other bins are as they were.  The counts
    of regions and slabs are cleared, and the count of the slabs in the heap is not.  ([held] are all the regions in use, [mine] the slabs in
    hand; an automatic arena keeps no list of its full slabs, and its bins are not reset.) *)
Theorem arena_bin_reset_empties cfg drift k s held mine b :
  infos_ok cfg → (∀ s, others cfg s = s) → arena_inv cfg drift s held mine → bins s !! k = Some b → is_auto cfg = false →
  ∃ s' b' drift', arena_bin_reset cfg k s = Done (tt, s') ∧ bins s' !! k = Some b' ∧
    slabcur b' = 0 ∧ root (slabs_nonfull b') = 0 ∧ slabs_full b' = 0 ∧
    (∀ p e, slabs s' !! p = Some e ↔ slabs s !! p = Some e ∧ (slab_key e = k → edata_nfree_get e = nregs_of cfg k)) ∧
    (∀ p, is_Some (slabs s !! p) → slabs s' !! p = None → recorded (PaDalloc p) s s') ∧
    (∀ k', k' ≠ k → bins s' !! k' = bins s !! k') ∧
    arena_inv cfg drift' s' (filter (λ g, rg_key g ≠ k) held) mine ∧ (∀ k', k' ≠ k → drift' k' = drift k') ∧
    (config_stats cfg = true → curregs (stats b') = 0 ∧ curslabs (stats b') = 0 ∧ nonfull_slabs (stats b') = nonfull_slabs (stats b)).
Proof.
  intros Hi Ha HI Eb Hauto. destruct (arena_bin_reset_ok cfg k Ha drift s held mine b Hi HI Eb Hauto)
    as (s' & b' & d' & E & Eb' & H1 & H2 & H3 & H4 & H5 & H6 & H7 & H8 & H9). exists s', b', d'. split_and!; try done; by apply H4 || by apply H5.
Qed.

(** ** Histories *)

Inductive arena_op : Type :=
| OpMalloc (tsd : option (list Z)) (binind : Z) (zero : bool)
| OpFill (tsd : option (list Z)) (binind nfill requests : Z)
| OpFree (i : nat).

(** The pointers that the program has, and the arena. *)
Definition run_op (cfg : arena_config) (op : arena_op) (st : list Z * arena_mem) : outcome (list Z * arena_mem) :=
  match op with
  | OpMalloc tsd binind zero =>
      '(ret, s) ← arena_malloc_small cfg tsd binind zero st.2;
      Done (if ret =? 0 then st.1 else ret :: st.1, s)
  | OpFill tsd binind nfill requests =>
      '(ptrs, s) ← arena_cache_bin_fill_small cfg tsd binind nfill requests st.2;
      Done (ptrs ++ st.1, s)
  | OpFree i =>
      match st.1 !! i with
      | Some ptr => '(_, s) ← arena_dalloc_small cfg ptr st.2; Done (delete i st.1, s)
      | None => Done st
      end
  end.

Fixpoint run_ops (cfg : arena_config) (ops : list arena_op) (st : list Z * arena_mem) : outcome (list Z * arena_mem) :=
  match ops with
  | [] => Done st
  | op :: ops => st ← run_op cfg op st; run_ops cfg ops st
  end.

(** The bins that are asked for exist. *)
Definition op_ok (cfg : arena_config) (op : arena_op) : Prop :=
  match op with
  | OpMalloc tsd binind _ => ∃ shard, chooses tsd binind shard ∧ (binind, shard) ∈ bin_keys (bin_infos cfg)
  | OpFill tsd binind nfill _ => 0 ≤ nfill ∧ ∃ shard, chooses tsd binind shard ∧ (binind, shard) ∈ bin_keys (bin_infos cfg)
  | OpFree _ => True
  end.

Lemma run_op_ok cfg drift op gs s :
  infos_ok cfg → Environment cfg drift → thread_inv cfg drift s gs [] → op_ok cfg op →
  ∃ gs' s', run_op cfg op (rg_ptr <$> gs, s) = Done (rg_ptr <$> gs', s') ∧ thread_inv cfg drift s' gs' [].
Proof.
  intros Hi He HI Hok. destruct op as [tsd binind zero|tsd binind nfill requests|i]; cbn [run_op fst snd].
  - destruct Hok as (shard & Hc & Hk). pose proof (ai_dom _ _ _ _ _ HI _ Hk) as Hb.
    destruct (arena_malloc_small_ok cfg drift Hi tsd (binind, shard) zero s gs [] HI Hb Hc) as (ret & s' & E & P). cbn [fst] in E. rewrite E. cbn [mbind outcome_bind].
    case_decide as Hr; [subst ret; exists gs, s'; by destruct P|]. destruct P as (q & I). rewrite (proj2 (Z.eqb_neq ret 0)) by done.
    by exists (mkRegion q (binind, shard) ret :: gs), s'.
  - destruct Hok as (Hn & shard & Hc & Hk). pose proof (ai_dom _ _ _ _ _ HI _ Hk) as Hb.
    destruct (arena_cache_bin_fill_small_ok cfg drift (binind, shard) Hi tsd nfill requests s gs [] HI Hb Hc Hn) as (gs' & s' & E & I & _).
    cbn [fst] in E. rewrite E. cbn [mbind outcome_bind]. exists (gs' ++ gs), s'. by rewrite fmap_app.
  - rewrite list_lookup_fmap. destruct (gs !! i) as [g|] eqn:Eg; [|by exists gs, s]. cbn [fmap option_fmap option_map].
    pose proof (delete_Permutation gs i g Eg) as P. apply (arena_inv_perm cfg drift s _ _ _ (Permutation_app_tail (theirs s) P)) in HI.
    destruct (arena_dalloc_small_ok cfg drift Hi g s _ [] HI) as (s' & E & I & _). rewrite E. cbn [mbind outcome_bind].
    exists (delete i gs), s'. by rewrite list_fmap_delete.
Qed.

Lemma run_ops_ok cfg drift ops : ∀ gs s,
  infos_ok cfg → Environment cfg drift → thread_inv cfg drift s gs [] → Forall (op_ok cfg) ops →
  ∃ gs' s', run_ops cfg ops (rg_ptr <$> gs, s) = Done (rg_ptr <$> gs', s') ∧ thread_inv cfg drift s' gs' [].
Proof.
  induction ops as [|op ops IH]; intros gs s Hi He HI Hok; [by exists gs, s|]. apply list.Forall_cons in Hok as [Hop Hok].
  destruct (run_op_ok cfg drift op gs s Hi He HI Hop) as (gs1 & s1 & E1 & I1). cbn [run_ops]. rewrite E1. cbn [mbind outcome_bind]. by apply IH.
Qed.

(** The regions in use do not overlap. *)
Lemma regions_apart cfg drift s gs mine g h :
  infos_ok cfg → arena_inv cfg drift s gs mine → g ∈ gs → h ∈ gs → rg_ptr g ≠ rg_ptr h →
  rg_ptr g + reg_size (info_at cfg (rg_key g).1) ≤ rg_ptr h ∨ rg_ptr h + reg_size (info_at cfg (rg_key h).1) ≤ rg_ptr g.
Proof.
  intros Hi [[H1 H2 [_ H3] _] H5 H6 _ _ _] Hg Hh Hne. rewrite list.Forall_forall in H3.
  destruct (H3 g Hg) as (e1 & r1 & E1 & K1 & R1 & P1 & _), (H3 h Hh) as (e2 & r2 & E2 & K2 & R2 & P2 & _).
  assert (∀ p e, slabs s !! p = Some e → ∃ magic, bin_ok (info_of_slab cfg e) magic) as Hb.
  { intros p e E. apply (info_ok cfg Hi). apply (proj1 (H6 _ (H5 p e E))). }
  destruct (Hb _ _ E1) as (m1 & [A1 A2 A3 _ _ _]), (Hb _ _ E2) as (m2 & [B1 B2 B3 _ _ _]).
  rewrite <- K1, <- K2. fold (info_of_slab cfg e1) (info_of_slab cfg e2). change (info_at cfg (slab_key e1).1) with (info_of_slab cfg e1).
  change (info_at cfg (slab_key e2).1) with (info_of_slab cfg e2). rewrite P1, P2 in *. unfold region_at in *.
  destruct (decide (rg_slab g = rg_slab h)) as [Es|Hs].
  - rewrite Es, E2 in E1. injection E1 as <-. destruct (Z.lt_trichotomy r1 r2) as [?|[->|?]]; [left; nia|done|right; nia].
  - destruct (H2 _ _ e1 e2 E1 E2 Hs); [left; nia|right; nia].
Qed.

(** *** After booting *)

(** The tables of [cfg] are the ones that [bin_info_boot] and [arena_boot] compute. *)
Definition booted (cfg : arena_config) : Prop :=
  ∃ d, sc_boot = Done d ∧ bin_info_boot d (replicate (Z.to_nat SC_NBINS) 1) = Done (bin_infos cfg) ∧
    ∀ i c, scs d !! i = Some c → is_Some (bin_infos cfg !! i) → ∃ m, div_infos cfg !! i = Some m ∧ bin_div_info c = Done m.

Lemma bin_infos_init_length l sizes infos : bin_infos_init l sizes = Done infos → (length infos ≤ length l)%nat.
Proof.
  revert sizes infos. induction l as [|c l IH]; intros [|n sizes] infos; simpl; try (intros [= <-]; simpl; lia).
  intros E. apply outcome_bind_done_inv in E as (i & _ & E). apply outcome_bind_done_inv in E as (l' & E & [= <-]). simpl. apply IH in E. lia.
Qed.

Lemma bin_infos_init_shards l sizes infos : bin_infos_init l sizes = Done infos → Forall (λ info, n_shards info ∈ sizes) infos.
Proof.
  revert sizes infos. induction l as [|c l IH]; intros [|n sizes] infos; simpl; try (intros [= <-]; constructor).
  intros E. apply outcome_bind_done_inv in E as (i & Ei & E). apply outcome_bind_done_inv in E as (l' & E & [= <-]). constructor.
  - unfold bin_info_of in Ei. case_match; [discriminate|]. injection Ei as <-. by left.
  - eapply Forall_impl; [|exact (IH _ _ E)]. intros info Hs. by right.
Qed.

(** There is one shard. *)
Lemma boot_shards d infos : bin_info_boot d (replicate (Z.to_nat SC_NBINS) 1) = Done infos → Forall (λ info, n_shards info = 1) infos.
Proof.
  intros E. apply bin_infos_init_shards in E. eapply Forall_impl; [|exact E]. cbv beta. intros info Hs.
  apply elem_of_take in Hs as (i & Hs & _). by apply lookup_replicate_1 in Hs as [-> _].
Qed.

Lemma booted_infos_ok cfg : booted cfg → infos_ok cfg.
Proof.
  intros (d & Ed & Ei & Hd) i info Hi. destruct bins_check_boot as (d' & infos & Ed' & Ei' & _ & Hall).
  rewrite Ed in Ed'. injection Ed' as <-. rewrite Ei in Ei'. injection Ei' as <-. rewrite forallb_forall in Hall.
  apply bin_infos_init_length in Ei. rewrite length_take in Ei. clear Ed.
  destruct (scs d !! i) as [c|] eqn:Ec; [|exfalso; apply lookup_lt_Some in Hi; apply lookup_ge_None in Ec; lia].
  destruct (Hd i c Ec (mk_is_Some _ _ Hi)) as (m & Em & Edv). destruct (bin_check_ok c info) as (magic & Em' & Hok & _).
  { apply (Hall (c, info)). apply list_elem_of_In, (list_elem_of_lookup_2 _ i), lookup_zip_with_Some. exists c, info.
    split; [reflexivity|]. split; [exact Ec|exact Hi]. }
  exists m. split; [exact Em|]. rewrite Edv in Em'. injection Em' as <-. exact Hok.
Qed.

Definition new_arena (cfg : arena_config) (mem : Z * Z → bin_t) (h : links) (q : rings) : arena_mem :=
  mkArena ∅ h q (arena_bins_init (config_stats cfg) (bin_infos cfg) mem) [] [] [].

Lemma bin_keys_lookup infos k : k ∈ bin_keys infos → ∃ info, infos !! Z.to_nat k.1 = Some info ∧ 0 ≤ k.2 < n_shards info.
Proof.
  unfold bin_keys. rewrite list_elem_of_In, in_concat. intros (l & Hl & Hk). apply list_elem_of_In, list_elem_of_lookup in Hl as (i & Hl).
  rewrite list_lookup_imap in Hl. destruct (infos !! i) as [info|] eqn:E; [|done]. simpl in Hl. injection Hl as <-.
  apply list_elem_of_In, list_elem_of_fmap in Hk as (j & -> & Hj%elem_of_seq). exists info. simpl. rewrite Nat2Z.id. split; [done|lia].
Qed.

Lemma arena_bins_init_dom b infos mem k : k ∈ bin_keys infos → is_Some (arena_bins_init b infos mem !! k).
Proof.
  intros Hk. destruct (arena_bins_init b infos mem !! k) eqn:E; [done|]. apply not_elem_of_list_to_map_2 in E. exfalso. apply E.
  rewrite <- list_fmap_compose. apply list_elem_of_fmap. by exists k.
Qed.

(** In a booted allocator no size class has more shards than the descriptor can tell apart. *)
Lemma new_arena_inv cfg mem h q :
  Forall (λ info, n_shards info ≤ 64) (bin_infos cfg) → arena_inv cfg (λ _, 0) (new_arena cfg mem h q) [] [].
Proof.
  intros Hsh. apply (arena_starts cfg); [done..| |].
  - intros k Hk. simpl. by apply arena_bins_init_dom.
  - intros k b Hb. simpl in Hb. apply elem_of_list_to_map_2 in Hb. apply list_elem_of_fmap in Hb as (k' & [= -> ->] & Hk).
    destruct (bin_keys_lookup _ _ Hk) as (info & E & Hb). rewrite list.Forall_forall in Hsh.
    specialize (Hsh info (list_elem_of_lookup_2 _ _ _ E)). split; [by eexists|]. split; [|by eexists].
    unfold in_field. change (width EDATA_BITS_BINSHARD) with 6. lia.
Qed.

(** C28: in a booted allocator, whatever sequence of allocations, fills and frees a thread goes through in
    a new arena, and whatever other threads allocate and free in it in between (as [Environment] says), every call returns, and the regions that any thread has at the end are
    in use and do not overlap; every slab that is
    left in the arena and that no other thread has in hand has a region in use. *)
Theorem arena_history_safe cfg mem h q ops :
  booted cfg → Environment cfg (λ _, 0) → Forall (op_ok cfg) ops →
  ∃ gs s', run_ops cfg ops ([], new_arena cfg mem h q) = Done (rg_ptr <$> gs, s') ∧ NoDup (rg_ptr <$> gs ++ theirs s') ∧
    (∀ g g', g ∈ gs ++ theirs s' → g' ∈ gs ++ theirs s' → rg_ptr g ≠ rg_ptr g' →
       rg_ptr g + reg_size (info_at cfg (rg_key g).1) ≤ rg_ptr g' ∨ rg_ptr g' + reg_size (info_at cfg (rg_key g').1) ≤ rg_ptr g) ∧
    thread_inv cfg (λ _, 0) s' gs [] ∧
    (∀ p e, slabs s' !! p = Some e → edata_nfree_get e = nregs (info_of_slab cfg e) → p ∈ their_slabs s').
Proof.
  intros Hb He Hok. pose proof (booted_infos_ok cfg Hb) as Hi.
  assert (Forall (λ info, n_shards info ≤ 64) (bin_infos cfg)) as Hsh.
  { destruct Hb as (d & _ & Eb & _). eapply Forall_impl; [|exact (boot_shards _ _ Eb)]. cbv beta. lia. }
  destruct (run_ops_ok cfg (λ _, 0) ops [] _ Hi He (new_arena_inv cfg mem h q Hsh) Hok) as (gs & s' & E & I).
  exists gs, s'. split; [exact E|]. split; [apply (so_held _ _ _ _ (ai_slabs _ _ _ _ _ I))|]. split; [|split; [exact I|]].
  - intros g g' Hg Hg'. by apply (regions_apart cfg (λ _, 0) s' _ _ g g' Hi I).
  - intros p e Ep Hn. exact (ai_spare _ _ _ _ _ I p e Ep Hn).
Qed.

(** ** Environments *)

(** Pages are handed out from low to high addresses, behind all that are in use. *)
Section bump.
Context (infos : list bin_info_t).

Definition slab_size_of (e : edata_t) : Z :=
  bin_slab_size (default (mkBinInfo 0 0 0 0 (bitmap_info_init 0)) (infos !! Z.to_nat (edata_szind_get e))).
Definition highest (l : list Z) : Z := foldr Z.max (2 ^ 20) l.
Definition pages_end (s : arena_mem) : Z := highest ((λ pe, e_addr pe.2 + slab_size_of pe.2) <$> map_to_list (slabs s)).
Definition next_descriptor (s : arena_mem) : Z := highest (fst <$> map_to_list (slabs s)) + 64.

Definition bump_alloc (s : arena_mem) (size binind : Z) : option (Z * edata_t) :=
  if bool_decide (0 ≤ binind < 256) && bool_decide (pages_end s + size ≤ 2 ^ 64)
  then Some (next_descriptor s, edata_szind_set binind (mkEdata 0 (pages_end s) size 0 0 (replicate 8 0)))
  else None.

Definition find_slab (s : arena_mem) (ptr : Z) : Z :=
  match find (λ pe, (e_addr pe.2 <=? ptr) && (ptr <? e_addr pe.2 + slab_size_of pe.2)) (map_to_list (slabs s)) with
  | Some (p, _) => p
  | None => 0
  end.

Definition bump_config (divs : list Z) (auto : bool) (oth : arena_mem → arena_mem) : arena_config :=
  mkConfig true infos divs auto bump_alloc find_slab oth.

Lemma highest_ge l x : x ∈ l → x ≤ highest l.
Proof. unfold highest. induction 1; cbn [foldr]; lia. Qed.

Lemma highest_base l : 2 ^ 20 ≤ highest l.
Proof. unfold highest. induction l as [|x l IH]; cbn [foldr]; lia. Qed.

(** The descriptor and the pages of a new slab. *)
Lemma bump_fresh divs auto oth s held mine binind p e :
  slabs_ok (bump_config divs auto oth) (slabs s) held mine →
  bump_alloc s (bin_slab_size (info_at (bump_config divs auto oth) binind)) binind = Some (p, e) →
  p ≠ 0 ∧ slabs s !! p = None ∧ edata_szind_get e = binind ∧ is_u64 (e_bits e) ∧
  0 < e_addr e ∧ e_addr e + bin_slab_size (info_at (bump_config divs auto oth) binind) ≤ 2 ^ 64 ∧
  Forall is_u64 (e_slab_data e) ∧ length (e_slab_data e) = 8%nat ∧ (∀ q e', slabs s !! q = Some e' → apart (bump_config divs auto oth) e e').
Proof.
  intros Hs. set (size := bin_slab_size (info_at (bump_config divs auto oth) binind)). unfold bump_alloc.
  destruct (bool_decide_reflect (0 ≤ binind < 256)) as [Hb|]; [|done]. case_bool_decide as Hp; [|done]. intros [= <- <-]. simpl andb.
  pose proof (highest_base ((λ pe, e_addr pe.2 + slab_size_of pe.2) <$> map_to_list (slabs s))) as H1. fold (pages_end s) in H1.
  pose proof (highest_base (fst <$> map_to_list (slabs s))) as H2.
  assert (edata_szind_get (edata_szind_set binind (mkEdata 0 (pages_end s) size 0 0 (replicate 8 0))) = binind) as Ez.
  { unfold edata_szind_get, edata_szind_get_maybe_invalid. cbn [edata_szind_set set_bits e_bits]. rewrite get_set_same by (done || by vm_compute). apply Z.mod_small. lia. }
  split; [unfold next_descriptor; lia|]. split.
  { apply eq_None_not_Some. intros [e He]. assert (next_descriptor s ≤ highest (fst <$> map_to_list (slabs s))); [|unfold next_descriptor in *; lia].
    apply highest_ge. apply list_elem_of_fmap. exists (next_descriptor s, e). split; [done|]. by apply elem_of_map_to_list. }
  split; [exact Ez|]. split; [apply field_set_u64; by vm_compute|]. cbn [e_addr edata_szind_set set_bits e_slab_data].
  split; [lia|]. split; [exact Hp|]. split; [by repeat constructor|]. split; [done|].
  intros q e' He. right. cbn [e_addr edata_szind_set set_bits]. apply highest_ge. apply list_elem_of_fmap. exists (q, e'). split; [done|]. by apply elem_of_map_to_list.
Qed.

(** A region in use lies in no other slab. *)
Lemma find_slab_exact divs auto oth drift s held mine g :
  infos_ok (bump_config divs auto oth) → arena_inv (bump_config divs auto oth) drift s held mine → g ∈ held →
  find_slab s (rg_ptr g) = rg_slab g.
Proof.
  intros Hi HI Hg. pose proof HI as [[_ H2 [_ H3] _] H5 H6 _ _ _]. rewrite list.Forall_forall in H3.
  destruct (H3 g Hg) as (e & r & E & _ & Hr & Hp & _). destruct (info_ok _ Hi e (proj1 (H6 _ (H5 _ e E)))) as (magic & [A1 A2 A3 _ _ _]).
  assert (e_addr e ≤ rg_ptr g < e_addr e + slab_size_of e) as Hin.
  { rewrite Hp. unfold region_at. change (slab_size_of e) with (bin_slab_size (info_of_slab (bump_config divs auto oth) e)). nia. }
  unfold find_slab. destruct (find _ _) as [[p e2]|] eqn:Ef.
  - apply find_some in Ef as [Hl Hb]. apply list_elem_of_In, elem_of_map_to_list in Hl. apply andb_true_iff in Hb as [Hb1 Hb2]. cbn [snd] in *.
    destruct (decide (p = rg_slab g)) as [->|Hne]; [done|]. exfalso.
    assert (e_addr e2 + slab_size_of e2 ≤ e_addr e ∨ e_addr e + slab_size_of e ≤ e_addr e2) as Ha by exact (H2 p (rg_slab g) e2 e Hl E Hne). lia.
  - exfalso. pose proof (find_none _ _ Ef (rg_slab g, e)) as Hf. cbn [snd] in Hf. rewrite (proj2 (andb_true_iff _ _)) in Hf; [|split; lia].
    discriminate Hf. by apply list_elem_of_In, elem_of_map_to_list.
Qed.

(** What is asked of the other threads. *)
Lemma bump_environment divs auto oth drift :
  infos_ok (bump_config divs auto oth) → (∀ s, events (oth s) = events s) →
  (∀ s held mine, thread_inv (bump_config divs auto oth) drift s held mine →
     thread_inv (bump_config divs auto oth) drift (oth s) held mine ∧ (∀ k, is_Some (bins s !! k) → is_Some (bins (oth s) !! k)) ∧
     ∀ p, p ∈ mine → slabs (oth s) !! p = slabs s !! p) →
  Environment (bump_config divs auto oth) drift.
Proof.
  intros Hi He Ho. split.
  - intros s held mine binind p e Hs. by apply (bump_fresh divs auto oth s held mine).
  - exact Ho.
  - exact He.
  - intros s held mine g HI Hg. by apply (find_slab_exact divs auto oth drift s held mine).
Qed.

(** *** No other thread *)

Lemma quiet_environment divs auto drift :
  infos_ok (bump_config divs auto (λ s, s)) → Environment (bump_config divs auto (λ s, s)) drift.
Proof. intros Hi. by apply bump_environment. Qed.

(** *** A thread that allocates and frees

    Whenever this thread takes a lock, another one has just been given a region of the class [binind], or has freed the one it
    had. *)
Section busy.
Context (divs : list Z) (auto : bool) (binind : Z).

Definition quiet : arena_config := bump_config divs auto (λ s, s).

Definition alone (s : arena_mem) : arena_mem :=
  mkArena (slabs s) (heap_link s) (ql_link_active s) (bins s) (events s) [] [].
Definition with_theirs (s1 : arena_mem) (l : list region) (s : arena_mem) : arena_mem :=
  mkArena (slabs s1) (heap_link s1) (ql_link_active s1) (bins s1) (events s) l (their_slabs s).

Definition their_step (s : arena_mem) : option (arena_mem * list region) :=
  match theirs s with
  | [] => match arena_malloc_small quiet None binind false (alone s) with
          | Done (ret, s1) => Some (s1, if ret =? 0 then [] else [mkRegion (find_slab s1 ret) (binind, 0) ret])
          | Fault _ => None
          end
  | g :: l => match arena_dalloc_small quiet (rg_ptr g) (alone s) with Done (_, s1) => Some (s1, l) | Fault _ => None end
  end.

#[local] Instance edata_eq_dec : EqDecision edata_t.
Proof. solve_decision. Defined.

(** The slabs in hand are wholly free, and are left alone. *)
Definition leaves_alone (s s1 : arena_mem) : bool :=
  bool_decide (is_Some (bins s !! (binind, 0))) && bool_decide (dom (bins s1) = dom (bins s)) &&
  bool_decide (theirs s1 = [] ∧ their_slabs s1 = []) &&
  forallb (λ pe, if edata_nfree_get pe.2 =? nregs (info_of_slab quiet pe.2) then bool_decide (slabs s1 !! pe.1 = Some pe.2) else true)
    (map_to_list (slabs s)).

Definition busy (s : arena_mem) : arena_mem :=
  match their_step s with
  | Some (s1, l) => if leaves_alone s s1 then with_theirs s1 l s else s
  | None => s
  end.

Lemma leaves_alone_true s s1 held mine drift :
  leaves_alone s s1 = true → arena_inv quiet drift s held mine →
  is_Some (bins s !! (binind, 0)) ∧ (∀ k, is_Some (bins s !! k) → is_Some (bins s1 !! k)) ∧
  theirs s1 = [] ∧ their_slabs s1 = [] ∧ ∀ p, p ∈ mine → slabs s1 !! p = slabs s !! p.
Proof.
  unfold leaves_alone. rewrite !andb_true_iff, !bool_decide_eq_true, forallb_forall. intros [[[H1 H2] [H3 H4]] H5] HI.
  split; [exact H1|]. split; [intros k; by rewrite <- !elem_of_dom, H2|]. split; [done|]. split; [done|]. intros p Hp.
  destruct (so_mine _ _ _ _ (ai_slabs _ _ _ _ _ HI)) as [_ Hm]. destruct (Hm p Hp) as (e & E & Hn).
  specialize (H5 (p, e)). cbn [fst snd] in H5. rewrite Hn, Z.eqb_refl, bool_decide_eq_true in H5. rewrite E.
  apply H5. by apply list_elem_of_In, elem_of_map_to_list.
Qed.

Abbreviation busy_config := (bump_config divs auto busy).
Hypothesis Hinfos : infos_ok quiet.

(** The two configurations differ only in what other threads do. *)
Lemma to_quiet drift s s' held mine :
  same_memory s s' → arena_inv busy_config drift s held mine → arena_inv quiet drift s' held mine.
Proof. by apply arena_inv_same. Qed.

Lemma to_busy drift s s' held mine :
  same_memory s s' → arena_inv quiet drift s held mine → arena_inv busy_config drift s' held mine.
Proof. by apply arena_inv_same. Qed.

Lemma their_step_ok drift s s1 l held mine :
  thread_inv busy_config drift s held mine → their_step s = Some (s1, l) → leaves_alone s s1 = true →
  arena_inv quiet drift s1 (held ++ l) (mine ++ their_slabs s).
Proof.
  intros HI Es Ht. pose proof (quiet_environment divs auto drift Hinfos) as HE. unfold thread_inv in HI.
  apply (to_quiet drift s (alone s)) in HI; [|done].
  destruct (leaves_alone_true (alone s) s1 _ _ drift Ht HI) as (Hb & _ & E1 & E2 & _). unfold their_step in Es.
  destruct (theirs s) as [|g l0].
  - rewrite app_nil_r in HI. assert (thread_inv quiet drift (alone s) held (mine ++ their_slabs s)) as I0 by (unfold thread_inv; by rewrite !app_nil_r).
    destruct (arena_malloc_small_ok quiet drift Hinfos None (binind, 0) false (alone s) _ _ I0 Hb eq_refl) as (ret & s2 & E & P).
    cbn [fst] in E. rewrite E in Es. injection Es as <- <-. unfold thread_inv in P. rewrite E1, E2, !app_nil_r in P. case_decide as Hr.
    + subst ret. cbn. rewrite app_nil_r. by destruct P.
    + destruct P as (q & I). rewrite app_nil_r in I. rewrite (proj2 (Z.eqb_neq ret 0)) by done.
      assert (find_slab s2 ret = q) as -> by (apply (find_slab_exact divs auto (λ s, s) drift s2 _ _ (mkRegion q (binind, 0) ret) Hinfos I); by left).
      apply (arena_inv_perm quiet drift _ (mkRegion q (binind, 0) ret :: held)); [|exact I]. by rewrite Permutation_app_comm.
  - assert (thread_inv quiet drift (alone s) (g :: held ++ l0) (mine ++ their_slabs s)) as I0.
    { unfold thread_inv. rewrite !app_nil_r. apply (arena_inv_perm quiet drift _ (held ++ g :: l0)); [|exact HI]. symmetry. apply Permutation_middle. }
    destruct (arena_dalloc_small_ok quiet drift Hinfos g (alone s) _ _ I0) as (s2 & E & I & _). rewrite E in Es. injection Es as <- <-.
    unfold thread_inv in I. by rewrite E1, E2, !app_nil_r in I.
Qed.

Lemma busy_environment drift : infos_ok busy_config → Environment busy_config drift.
Proof.
  intros Hi. apply bump_environment; [done|..].
  - intros s. unfold busy. destruct (their_step s) as [[s1 l]|]; [|done]. by case_match.
  - intros s held mine HI. unfold busy. destruct (their_step s) as [[s1 l]|] eqn:Es; [|done]. destruct (leaves_alone s s1) eqn:Et; [|done].
    destruct (leaves_alone_true s s1 _ _ drift Et (to_quiet drift s s _ _ ltac:(done) HI)) as (_ & Hb & _ & _ & Hs).
    split; [|split; [exact Hb|]].
    + apply (to_busy drift s1); [done|]. exact (their_step_ok drift s s1 l held mine HI Es Et).
    + intros p Hp. apply Hs, elem_of_app. by left.
Qed.
End busy.
End bump.


(** ** Examples *)
Module ArenaBinExample.
Definition zero_bin : bin_t := mkBin (mkBinStats 0 0 0 0 0 0 0 0 0 0) 0 (mkPh 0 0) 0.

(** One size class of 32 bytes, and another thread that allocates and frees in it. *)
Definition cfg32 : arena_config := bump_config [info32] [magic32] false (busy [info32] [magic32] false 0).
Definition s0 : arena_mem := new_arena cfg32 (λ _, zero_bin) ∅ ∅.
Definition run1 : outcome (Z * arena_mem) := arena_malloc_small cfg32 None 0 false s0.
Definition s1 : arena_mem := match run1 with Done (_, s) => s | Fault _ => s0 end.

(** The other thread took the first region. *)
Lemma run1_ok : run1 = Done (2 ^ 20 + 32, s1) ∧ rg_ptr <$> theirs s1 = [2 ^ 20].
Proof. split; vm_compute; reflexivity. Qed.

(** It frees it before the second allocation, which then gets it. *)
Definition run2 : outcome (Z * arena_mem) := arena_malloc_small cfg32 None 0 false s1.
Example run2_ok :
  match run2 with
  | Done (ret, s) => ret = 2 ^ 20 ∧ theirs s = [] ∧ events s = events s1 ++ [BinLock (0, 0); BinUnlock (0, 0); DecayTick]
  | Fault _ => False
  end.
Proof. vm_compute. repeat split. Qed.

Lemma infos32_ok : infos_ok cfg32.
Proof. intros [|i] info E; [injection E as <-; exists magic32; split; [reflexivity|exact info32_ok]|discriminate]. Qed.

#[local] Instance environment32 : Environment cfg32 (λ _, 0).
Proof. apply busy_environment; exact infos32_ok. Qed.

Lemma s0_inv : thread_inv cfg32 (λ _, 0) s0 [] [].
Proof. apply new_arena_inv. constructor; [by vm_compute|constructor]. Qed.

Lemma s0_bin : is_Some (bins s0 !! (0, 0)).
Proof. by eexists. Qed.

Lemma s1_inv : ∃ q, thread_inv cfg32 (λ _, 0) s1 [mkRegion q (0, 0) (2 ^ 20 + 32)] [].
Proof.
  destruct (arena_malloc_small_ok cfg32 (λ _, 0) infos32_ok None (0, 0) false s0 [] [] s0_inv s0_bin eq_refl) as (ret & s' & E & P).
  change (arena_malloc_small cfg32 None (0, 0).1 false s0) with run1 in E. rewrite (proj1 run1_ok) in E. injection E as <- <-. exact P.
Qed.

(** The same class with no other thread in the arena. *)
Definition cfg32q : arena_config := bump_config [info32] [magic32] false (λ s, s).

Lemma s1_inv_quiet : ∃ gs, arena_inv cfg32q (λ _, 0) s1 gs [].
Proof.
  destruct s1_inv as (q & I). eexists. apply (arena_inv_same cfg32 cfg32q _ s1 s1) in I; [|done..]. unfold thread_inv in I.
  replace (their_slabs s1) with (@nil Z) in I by (vm_compute; reflexivity). exact I.
Qed.

(** *** A booted allocator *)

Definition divs_of (d : sc_data) : list Z := (λ c, match bin_div_info c with Done m => m | Fault _ => 0 end) <$> scs d.

Lemma booted_example : ∃ infos divs,
  let cfg := bump_config infos divs false (busy infos divs false 5) in
  booted cfg ∧ Environment cfg (λ _, 0) ∧ (5, 0) ∈ bin_keys (bin_infos cfg).
Proof.
  destruct bins_check_boot as (d & infos & Ed & Ei & Hl & Hall). exists infos, (divs_of d). cbv zeta.
  assert (∀ oth, booted (bump_config infos (divs_of d) false oth)) as Hb.
  { intros oth. exists d. split; [exact Ed|]. split; [exact Ei|]. intros i c Ec [info Hi]. cbn [bin_infos bump_config] in Hi.
    destruct (bin_check_ok c info) as (m & Em & _).
    - rewrite forallb_forall in Hall. apply (Hall (c, info)). apply list_elem_of_In, (list_elem_of_lookup_2 _ i), lookup_zip_with_Some. exists c, info.
      split; [reflexivity|]. split; [exact Ec|exact Hi].
    - exists m. split; [|exact Em]. unfold divs_of. cbn [div_infos bump_config]. rewrite list_lookup_fmap, Ec. cbn. rewrite Em. reflexivity. }
  split; [apply Hb|]. split; [apply busy_environment; apply booted_infos_ok, Hb|]. cbn [bin_infos bump_config].
  pose proof (boot_shards d infos Ei) as Hs. clear Ed Ei Hall Hb. destruct (infos !! 5%nat) as [info|] eqn:E5.
  - rewrite list.Forall_forall in Hs. pose proof (Hs info (list_elem_of_lookup_2 _ _ _ E5)) as Hn. unfold bin_keys.
    rewrite list_elem_of_In, in_concat. exists ((λ j, (Z.of_nat 5, Z.of_nat j)) <$> seq 0 (Z.to_nat (n_shards info))).
    split; apply list_elem_of_In; [|rewrite Hn; by left]. apply list_elem_of_lookup. exists 5%nat. rewrite list_lookup_imap, E5. reflexivity.
  - apply lookup_ge_None in E5. change SC_NBINS with 36 in Hl. lia.
Qed.

(** *** A slab that is not needed

    Another thread allocates from the bin between the request for a slab and the retry: the region
    comes from its slab, and the new one is given back. *)
Definition race (s : arena_mem) : arena_mem :=
  match head (rev (events s)) with
  | Some (PaAlloc _ _) =>
      match arena_malloc_small cfg32q None 0 false s with
      | Done (_, s') => mkArena (slabs s') (heap_link s') (ql_link_active s') (bins s') (events s) (theirs s) (their_slabs s)
      | Fault _ => s
      end
  | _ => s
  end.
Definition cfg_race : arena_config := bump_config [info32] [magic32] false race.

Example race_gives_back :
  ∃ s, arena_malloc_small cfg_race None 0 false s0 = Done (2 ^ 20 + 4096 + 32, s) ∧
    events s = [BinLock (0, 0); BinUnlock (0, 0); PaAlloc 0 1048640;
                BinLock (0, 0); BinUnlock (0, 0); PaDalloc 1048640; DecayTick].
Proof. eexists. split; vm_compute; reflexivity. Qed.

(** *** A stale count

    Two regions per slab.  Three allocations take two slabs; freeing the first region makes the first slab the
    current one and puts the second in the heap.  After a reset the heap is empty and
    the statistics still say that it holds a slab. *)
Definition info2048 : bin_info_t := mkBinInfo 2048 4096 2 1 (bitmap_info_init 2).
Definition cfg2048 : arena_config := bump_config [info2048] [2 ^ 21] false (λ s, s).

Definition stale_run : outcome (unit * arena_mem) :=
  match run_ops cfg2048 [OpMalloc None 0 false; OpMalloc None 0 false; OpMalloc None 0 false; OpFree 2] ([], new_arena cfg2048 (λ _, zero_bin) ∅ ∅) with
  | Done (_, s) => arena_bin_reset cfg2048 (0, 0) s
  | Fault f => Fault f
  end.

Theorem reset_leaves_nonfull_slabs :
  ∃ s b, stale_run = Done (tt, s) ∧ slabs s = ∅ ∧ bins s !! (0, 0) = Some b ∧ root (slabs_nonfull b) = 0 ∧ nonfull_slabs (stats b) = 1 ∧ curslabs (stats b) = 0.
Proof.
  assert ((match stale_run with
           | Done (_, s) => match bins s !! (0, 0) with
                            | Some b => bool_decide (slabs s = ∅) && (root (slabs_nonfull b) =? 0) && (nonfull_slabs (stats b) =? 1) && (curslabs (stats b) =? 0)
                            | None => false end
           | Fault _ => false end) = true) as H by (vm_compute; reflexivity).
  destruct stale_run as [[[] s]|]; [|discriminate]. exists s. destruct (bins s !! (0, 0)) as [b|]; [|discriminate]. exists b.
  rewrite !andb_true_iff, bool_decide_eq_true, !Z.eqb_eq in H. destruct H as (((H1 & H2) & H3) & H4). split_and!; done.
Qed.
End ArenaBinExample.

(** ** The theorems on concrete data *)

Import ArenaBinExample.

Lemma arena_malloc_small_fresh_witness :
  ∃ q ret s', thread_inv cfg32 (λ _, 0) s1 [mkRegion q (0, 0) (2 ^ 20 + 32)] [] ∧ arena_malloc_small cfg32 None 0 true s1 = Done (ret, s') ∧
    ((ret = 0 ∧ thread_inv cfg32 (λ _, 0) s' [mkRegion q (0, 0) (2 ^ 20 + 32)] [] ∧ refused 0 s1 s') ∨
     (∃ g, rg_ptr g = ret ∧ ret ≠ 0 ∧ rg_key g = (0, 0) ∧ ret ∉ rg_ptr <$> [mkRegion q (0, 0) (2 ^ 20 + 32)] ++ theirs s' ∧
        thread_inv cfg32 (λ _, 0) s' [g; mkRegion q (0, 0) (2 ^ 20 + 32)] [])).
Proof.
  destruct s1_inv as (q & I).
  destruct (arena_malloc_small_fresh cfg32 (λ _, 0) None (0, 0) true s1 [mkRegion q (0, 0) (2 ^ 20 + 32)] [] infos32_ok environment32 I
              (ai_dom _ _ _ _ _ I (0, 0) (list_elem_of_here _ _)) eq_refl) as (ret & s' & E & P).
  exists q, ret, s'. split; [exact I|]. split; [exact E|exact P].
Defined.

Lemma arena_fill_exact_witness :
  ∃ gs s', arena_cache_bin_fill_small cfg32 (Some [0]) 0 200 7 s0 = Done (rg_ptr <$> gs, s') ∧ Z.of_nat (length gs) ≤ 200.
Proof.
  destruct (arena_fill_exact cfg32 (λ _, 0) (Some [0]) (0, 0) 200 7 s0 [] []) as (gs & s' & E & _ & _ & _ & H & _);
    [exact infos32_ok|exact environment32|exact s0_inv|exact s0_bin|reflexivity|lia|].
  exists gs, s'. split; [exact E|exact H].
Defined.

Lemma arena_dalloc_returns_witness :
  ∃ q s' e e' r, arena_dalloc_small cfg32 (2 ^ 20 + 32) s1 = Done (tt, s') ∧ thread_inv cfg32 (λ _, 0) s' [] [] ∧
    slabs (others cfg32 s1) !! q = Some e ∧ ¬ region_free e r ∧
    (edata_nfree_get e + 1 ≠ 128 → slabs s' = <[q := e']> (slabs (others cfg32 s1)) ∧ edata_nfree_get e' = edata_nfree_get e + 1).
Proof.
  destruct s1_inv as (q & I).
  destruct (arena_dalloc_returns cfg32 (λ _, 0) (mkRegion q (0, 0) (2 ^ 20 + 32)) s1 [] [] infos32_ok environment32 I)
    as (s' & e & e' & r & E & I' & H1 & _ & _ & _ & H2 & _ & H3).
  exists q, s', e, e', r. split; [exact E|]. split; [exact I'|]. split; [exact H1|]. split; [exact H2|].
  intros Hn. destruct (H3 Hn) as (A & _ & B & _). split; [exact A|exact B].
Defined.

Lemma arena_bin_reset_empties_witness :
  ∃ b s' b', bins s1 !! (0, 0) = Some b ∧ arena_bin_reset cfg32q (0, 0) s1 = Done (tt, s') ∧ bins s' !! (0, 0) = Some b' ∧
    root (slabs_nonfull b') = 0.
Proof.
  destruct s1_inv_quiet as (gs & I).
  assert (is_Some (bins s1 !! (0, 0))) as [b Eb] by exact (ai_dom _ _ _ _ _ I (0, 0) (list_elem_of_here _ _)).
  destruct (arena_bin_reset_empties cfg32q (λ _, 0) (0, 0) s1 gs [] b infos32_ok (λ _, eq_refl) I Eb eq_refl)
    as (s' & b' & _ & E & Eb' & _ & H & _).
  exists b, s', b'. split; [exact Eb|]. split; [exact E|]. split; [exact Eb'|exact H].
Defined.

Lemma arena_history_safe_witness :
  ∃ infos divs gs s', let cfg := bump_config infos divs false (busy infos divs false 5) in
    booted cfg ∧
    run_ops cfg [OpMalloc None 5 true; OpFill None 5 3 0; OpFree 1; OpMalloc None 5 false] ([], new_arena cfg (λ _, zero_bin) ∅ ∅) =
      Done (rg_ptr <$> gs, s') ∧ NoDup (rg_ptr <$> gs ++ theirs s').
Proof.
  destruct booted_example as (infos & divs & Hb & He & Hk). set (cfg := bump_config infos divs false (busy infos divs false 5)) in *.
  destruct (arena_history_safe cfg (λ _, zero_bin) ∅ ∅ [OpMalloc None 5 true; OpFill None 5 3 0; OpFree 1; OpMalloc None 5 false] Hb He) as (gs & s' & E & N & _).
  { repeat constructor; try (exists 0; split; [reflexivity|exact Hk]); done. }
  exists infos, divs, gs, s'. split; [exact Hb|]. split; [exact E|exact N].
Defined.
